(* ===== verification/_CoqProject ===== *)
-Q . S2P
Prelude.v
Bitmap.v
IdPool.v
RbTree.v
RbModel.v
RbRefine.v
RbInsert.v
RbErase.v
RbProps.v
Timer.v
TimerList.v
TimerProps.v
TimerLife.v
TimerSpec.v
Mpq.v
MpqProto.v
MpqInv.v
MpqLive.v
MpqSpec.v
RwLock.v
RwProps.v
KRwLock.v
Refobj.v
RefobjInv.v
RefobjStep.v
RefobjFree.v
RefobjProps.v
MpqCall.v
MpqCallProps.v
Bytes.v
Psb.v
PsbProps.v
PsbSpec.v
Marshal.v
MarshalVal.v
MarshalEnc.v
MarshalDec.v
MarshalBuild.v
MarshalFini.v
MarshalExample.v
MarshalProps.v
Dyn.v
DynProps.v
Refs.v
Mpqp.v
MpqpInv.v
MpqpStep.v
MpqpTail.v
MpqpProps.v
Iofd.v
IofdInv.v
IofdKeep.v
IofdRead.v
IofdStream.v
IofdLife.v
IofdProps.v
IoPoll.v
IoPollInv.v
IoPollProps.v
Inet.v
InetQuad.v
InetSpec.v
InetPrint.v
InetProps.v
Ipv6.v
Ipv6Bits.v
Ipv6Props.v
SkAddr.v
SkUtils.v
SkProps.v
Tls.v
Errno.v
Mm.v
OsMp.v
MpqLife.v
MpqLifeInv.v
MpqLifeStep.v
MpqLifeProps.v
Ctor.v
