(* ===== verification/Prelude.v ===== *)
(** * A verification of AOSL, the Advanced Operating System Layer

    AOSL is a C library that gives an application threads with message
    queues.  Its centre is the multiplex queue ([kernel/mpq.c]): a thread with
    a list of functions to run, timers, and file descriptors to watch.  Other
    threads hand functions to a queue, wait for them, or destroy the queue.
    Timers ([kernel/timer.c]) are kept in a red-black tree ([lib/rbtree.c]);
    timers, queues and reference objects are named by handles from tables of
    identifiers, whose free slots are a bitmap ([lib/bitmap.c]); the tables and
    objects are protected by reader-writer locks ([lib/rwlockimpl.c]), with an
    upgradable lock built on them ([kernel/thread.c]) for the reference objects
    ([kernel/refobj.c]) that functions are queued with.  Descriptors that a queue
    watches are counted objects with buffers ([kernel/iofd.c]).  Pools of queues
    ([kernel/mpqp.c]) spread functions over several threads.  Data is passed on in
    chains of packet buffers ([lib/psbuff.c]), into which a marshaller driven by
    type descriptions encodes C objects ([lib/marshalling.c]).  Sockets are watched
    descriptors; their addresses have a text form and an IPv4 and IPv6 form
    ([net/inet.c], [net/ipv6.c], [net/sk_utils.c]).

    ** Files

    - [Prelude]: machine integers, outcomes ([res]) and the state monad [CM],
      total correctness ([wp]), error numbers, tactics.
    - [Bitmap]: [lib/bitmap.c].
    - [IdPool]: the identifier tables of [kernel/timer.c], [kernel/mpq.c] and
      [kernel/refobj.c]: one generic table, three instances.
    - [RbTree]: [lib/rbtree.c] on a memory of nodes; [RbModel]: the same
      operations on functional trees; [RbRefine], [RbInsert], [RbErase]: the
      former implement the latter; [RbProps]: the theorems.
    - [Timer]: [kernel/timer.c]; [TimerList]: the ordered list threaded through
      the tree; [TimerProps]: the run of due timers; [TimerLife]: creation and
      destruction; [TimerSpec]: the theorems.
    - [Mpq]: the shared part of a queue and the sections of [____add_f],
      [mp_kick_q], [__check_and_call_funcs], [__process_fo] and
      [os_poll_dispatch] between two points where threads interleave;
      [MpqProto]: all interleavings of the callers and the queue's thread, from
      creation to [__q_wait_destroy]; [MpqInv], [MpqLive]: the invariants;
      [MpqSpec]: the theorems.
    - [RwLock]: the word, list and interleavings of [lib/rwlockimpl.c] and
      [rwlock-generic.h]; [RwProps]: the invariant and the theorems.
    - [KRwLock]: the upgradable lock of [kernel/thread.c] over the raw lock, its
      specification and the refinement.
    - [Refobj]: [kernel/refobj.c] for one object and any number of threads with
      nested calls, over the specification of the upgradable lock; [RefobjInv]:
      the invariant; [RefobjStep], [RefobjFree]: every step preserves it;
      [RefobjProps]: the theorems.
    - [MpqCall]: what a thread does to ask a queue to run a function and what
      the queue's thread does to run it, with the reference object and the done
      queue; [MpqCallProps]: the theorems.
    - [Refs]: lists of references, for counters.
    - [Mpqp]: the pools of queues of [kernel/mpqp.c], over an interface to the
      queues; [MpqpInv]: all interleavings of the users and the threads of a pool
      and their invariant; [MpqpStep], [MpqpTail]: every step preserves it;
      [MpqpProps]: the theorems.
    - [Iofd]: the watched descriptors of [kernel/fileobj.c] and [kernel/iofd.c],
      with scripts for what the user's functions and other threads do meanwhile;
      [IofdInv]: the invariant; [IofdKeep]: every operation preserves it;
      [IofdRead], [IofdStream]: the reader and the packets of a stream;
      [IofdLife]: the writer, the queue's thread, the end of objects; [IofdProps]:
      the theorems.
    - [IoPoll]: the waiting for events and their handling with [poll], [select] and
      [epoll] ([kernel/poll_mp.c], [kernel/select_mp.c], [kernel/et_mp.c],
      [kernel/osmp.c]); [IoPollInv]: the handling; [IoPollProps]: the waiting and the
      theorem.
    - [Inet]: the text of addresses, [net/inet.c]; [InetQuad]: numbers and dotted
      quads; [InetSpec]: the grammar of IPv6 addresses, which the parser accepts;
      [InetPrint]: the printer; [InetProps]: the theorems.
    - [Ipv6]: [include/kernel/ipv6.h], [net/ipv6.c] and the socket addresses of
      [net/sk_utils.c]; [Ipv6Bits]: words, bytes and bits; [Ipv6Props]: prefixes and
      classes; [SkAddr]: conversion and text of socket addresses.
    - [SkUtils]: the sockets of [net/sk_utils.c], as descriptors whose functions
      call the platform (the interface [SkEnv]): connecting, listening, adding and
      sending, on the own queue and on another one; [SkProps]: the theorems.
    - [Tls]: thread-local storage, [lib/tls.c], its specification and the
      refinement; [Errno]: the error number of a thread, [lib/errno.c].
    - [Mm]: the account of memory, [mm/mm.c].
    - [OsMp]: what a queue opens and closes of the platform, [kernel/osmp.c];
      [MpqLife]: the creation of a queue, the waiting for its end and its end, with all
      interleavings of the creator, the queue's thread and the threads that wait;
      [MpqLifeInv]: the invariant; [MpqLifeStep]: every step preserves it;
      [MpqLifeProps]: the theorems.
    - [Ctor]: [aosl_ctor] and [aosl_dtor] of [kernel/mpq.c], all interleavings.
    - [Bytes]: a memory of bytes with blocks from [malloc], loads and stores of
      C types, and a program logic for it.
    - [Psb]: [lib/psbuff.c] and [kernel/psbuff.h]; [PsbProps], [PsbSpec]: a buffer
      as a window, a chain as a stream of bytes.
    - [Marshal]: the marshalling part of [lib/marshalling.c]; [MarshalVal]: the
      values that typed objects hold; [MarshalEnc], [MarshalDec], [MarshalBuild],
      [MarshalFini]: encoder, decoder and release against these values;
      [MarshalExample]: a type with its object; [MarshalProps]: the theorems.
    - [Dyn]: the dynamic arrays, bytes and strings of [lib/marshalling.c];
      [DynProps]: the theorems.

    ** How the code is modelled

    Pointers are integers with 0 for NULL and memory is a finite map, so that
    an access to a freed object is the outcome [Fault]; [abort ()] and [BUG_ON]
    are [Abort].  Definitions keep the names of the C functions; a C function
    that several threads run is split at its accesses to shared words, and a
    step relation interleaves the pieces under sequential consistency.  The
    outcome of [malloc], the clock, the user's functions and the results of
    system calls are arguments.  Integers have their width where it matters:
    8-bit bitmap counts, 16-bit ids, 64-bit times, the two halves of the lock
    word.  Counters of objects that exist in memory do not wrap.  The layout is
    that of a 64-bit machine, the configuration is the default one.

    Loops take fuel and run out of it with [NoFuel]; the theorems say that the
    result is [Ret], with a bound on the fuel: the height of the tree (twice
    the logarithm of its size, [RbProps.enough]) for the operations on trees,
    the number of ticks the timers are behind for a run of timers.

    ** What the theorems show

    - Trees: insertion, removal, search, neighbours, traversals and clearing
      return without a fault, implement their meaning on the sorted sequence
      of nodes, and keep the balance; so does every sequence of them.
    - Timers: tree and list agree and are ordered; set, reschedule, cancel and
      kill change exactly the one timer; a run calls the functions of the due
      timers, with their handles and times, and terminates, for timers with an
      interval of at least one millisecond and times below 2^63; the calls are
      recorded, and the functions called do not themselves change the timers of
      the queue; stale handles are refused.
    - Queues, in all interleavings: functions run exactly once in the order of
      queueing; no freed object or dead frame is touched; no wake-up of the
      sleeping thread is lost; no waiter for room and no synchronous caller is
      forgotten; destruction runs everything first.  For one thread: every
      outcome of a request, the balance of references on every path, the fate
      of a function with a done queue, the view a running function has.
    - The life of a queue, in all interleavings, with pipes and with pairs of
      sockets: neither the queue nor the objects on the stacks of creators and waiters
      are touched after they are gone, except that a creator may read the identifier
      of a queue that has already been destroyed ([late_read]); every call comes to an
      end; what a queue owns is given back, however its creation or its run ends, except
      the one socket that a failed pair of sockets may leave open.
    - The library, in all interleavings of [aosl_ctor] and [aosl_dtor], matched or not:
      the count never falls below 0, the parts are initialized exactly while it is
      positive, and who has a reference finds them so.
    - Locks, in all interleavings: a writer excludes everybody, and the word
      returns to its initial value; the upgradable lock implements its
      specification, and an upgrade lets no other writer in between.
    - Reference objects, in all interleavings with nested calls: the memory is
      there while a call uses it, the destructor runs once and nothing leaks; a
      destroyed object is quiet; a writer has no other
      protected function beside it; the destructor of a
      caller-freed object runs on the deleting thread; an abort means that the
      thread would wait for itself, or for another one that upgrades its lock too.
    - Pools, in all interleavings, with memory for the function objects: no operation
      reaches an abort or a queue that is gone, except that [aosl_mpq_alloc] may read
      the identifier of a queue after its lock is released ([entry_qid]); references
      and counts are exact; a function goes to the least busy
      queue or a new one; a tail request is called when all the queues have run
      what they had, and not before.
    - Descriptors, with scripts for the user's functions and for what other threads
      do while one runs: no object is used
      after it was freed, references, table, lists and buffers are exact; a stream
      is cut into packets as its bytes say, however they arrive; bytes are written
      in order; a queue all of whose descriptors are in its table closes them at its
      end; with [poll] and [select], a descriptor that can be read or was given something to write by
      [aosl_mpq_fd_write] is waited for again.  The scripts do not interrupt an
      addition and do not send on sockets; that, and the end of a queue of which a
      descriptor was deleted twice, are among the defects below.
    - Addresses: the parser accepts exactly the texts of the grammar and never leaves
      its buffers; every address is printed as a text that is read back as itself;
      prefixes, classes and the conversion between IPv4 and IPv6 are what the bits
      of the addresses say.
    - Sockets: with [epoll], every operation keeps what the descriptors promise; the
      library's own functions keep what is asked of the functions of a descriptor;
      what is queued is sent later as it would have been at once; the calls that start
      a connection on another queue are not among these operations (see the defects).
    - Thread-local storage: keys and values are a map, whatever the history of the
      numbers of keys, for calls one after the other: the number of keys that
      [k_tls_key_set] reads without the lock is an argument, and the map is the one of
      calls during which it does not change; every thread has its own error number.
    - Memory: the account of blocks, bytes and places is exact after every sequence
      of allocations and releases, one after the other, with room for the records and
      no resize to 0 bytes.
    - Buffers and marshalling: operations on a buffer with lengths below 2^31 stay in its window; the
      total length is that of the stream; what is marshalled into a chain is
      unmarshalled to an equal object, for types without presence functions whose
      arrays have less than 65536 elements; releasing an unmarshalled object gives
      back exactly what was allocated; dynamic bytes and strings implement lists
      of bytes without leaks.
    - Defects, each with a theorem: tables stop at 248 entries, [bitmap_get]
      reads one bit too far, an expiry time of 0 fires at once, late periodic
      timers catch up one by one, a reader can be pulsed after it returned, a
      no-fail request can be dropped, a truncated message leaves wild pointers to
      be freed, the 16-bit index over fixed arrays wraps, a function that writes
      an object and destroys it waits for itself, queues
      that shrink their pool at the same time wait for each other, the pool behind
      [aosl_mpq_alloc] is never created, a late second deletion of a descriptor
      takes another object out of the table, an object is freed while another thread
      has it when the poll back end refuses its descriptor, the error number of a
      failed call is returned as a number of bytes, the end of a stream is told
      twice, an IPv4 address is lost when it is converted to IPv4, a socket that is
      connected on another queue loses its last argument, what a socket does not take
      of a send is not waited for with [poll] and [select], a listening socket is
      closed after its first connections, there are no more than 240 keys of
      thread-local storage, a key that is deleted twice breaks the next one, the size
      of an array from [aosl_calloc] wraps, a queue that is asked to end at once may be
      gone when its creator reads its identifier, a main queue that could not be created
      can never be started again, a failing pair of sockets stays open, a key that is created while a thread sets
      its first value lets it write past its table, a block that is resized to 0 bytes
      stays in the account.

    ** What is not modelled

    The platform layers, files, logging, routes, the resolver and the threads and
    mutexes themselves are the environment.  Counters of load and idleness, the
    queue that a foreign thread makes for itself and the dumps of memory as text are
    left out. *)
From Stdlib Require Export ZArith Lia.
From stdpp Require Export prelude gmap list sorting.

#[global] Open Scope Z_scope.

(** ** Machine integers *)

(** Conversion of an integer to an unsigned type of [w] bits. *)
Definition wrapu (w x : Z) : Z := x mod 2 ^ w.

(** Conversion to a signed (two's complement) type of [w] bits. *)
Definition wraps (w x : Z) : Z := (x + 2 ^ (w - 1)) mod 2 ^ w - 2 ^ (w - 1).

Abbreviation u8 := (wrapu 8).
Abbreviation u16 := (wrapu 16).
Abbreviation u32 := (wrapu 32).
Abbreviation u64 := (wrapu 64).
Abbreviation s16 := (wraps 16).
Abbreviation s32 := (wraps 32).
Abbreviation s64 := (wraps 64).

(** ** Outcomes of a piece of C code

    [Ret] is a normal return; [Abort] is [abort ()] or a [BUG_ON] that fires;
    [Fault] is an access through NULL or outside an object; [NoFuel] marks a
    loop that was not given enough fuel. *)
Inductive res (A : Type) : Type :=
| Ret (a : A)
| Abort
| Fault
| NoFuel.
Arguments Ret {A} a.
Arguments Abort {A}.
Arguments Fault {A}.
Arguments NoFuel {A}.

(** A computation that reads and writes a state [S]. *)
Definition CM (S A : Type) : Type := S -> res (A * S).

Definition cret {S A} (a : A) : CM S A := fun s => Ret (a, s).
Definition cbind {S A B} (c : CM S A) (k : A -> CM S B) : CM S B := fun s =>
  match c s with
  | Ret (a, s') => k a s'
  | Abort => Abort
  | Fault => Fault
  | NoFuel => NoFuel
  end.
Definition cget {S} : CM S S := fun s => Ret (s, s).
Definition cput {S} (s : S) : CM S unit := fun _ => Ret (tt, s).
Definition cabort {S A} : CM S A := fun _ => Abort.
Definition cfault {S A} : CM S A := fun _ => Fault.
Definition cnofuel {S A} : CM S A := fun _ => NoFuel.

(** A computation that does not touch the state. *)
Definition lift {S A} (r : res A) : CM S A := fun s =>
  match r with
  | Ret a => Ret (a, s)
  | Abort => Abort
  | Fault => Fault
  | NoFuel => NoFuel
  end.

Declare Scope aosl_scope.
Delimit Scope aosl_scope with aosl.
Notation "'do' x <- c ; k" := (cbind c (fun x => k))
  (at level 10, x name, c at level 100, k at level 200) : aosl_scope.
Notation "'do' ' p <- c ; k" := (cbind c (fun x => match x with p => k end))
  (at level 10, p pattern, c at level 100, k at level 200) : aosl_scope.
Notation "c ;; k" := (cbind c (fun _ => k))
  (at level 100, k at level 200, right associativity) : aosl_scope.
Notation "'when' b 'then' c" := (if b then c else cret tt)
  (at level 10, b at level 100, c at level 99) : aosl_scope.

(** ** Error numbers: [include/api/aosl_errno.h] *)
Definition AOSL_EBASE : Z := 1000.
Definition AOSL_EPERM : Z := AOSL_EBASE + 1.
Definition AOSL_ENOENT : Z := AOSL_EBASE + 2.
Definition AOSL_ESRCH : Z := AOSL_EBASE + 3.
Definition AOSL_EINTR : Z := AOSL_EBASE + 4.
Definition AOSL_E2BIG : Z := AOSL_EBASE + 7.
Definition AOSL_EAGAIN : Z := AOSL_EBASE + 11.
Definition AOSL_ENOMEM : Z := AOSL_EBASE + 12.
Definition AOSL_EBUSY : Z := AOSL_EBASE + 16.
Definition AOSL_EEXIST : Z := AOSL_EBASE + 17.
Definition AOSL_EINVAL : Z := AOSL_EBASE + 22.
Definition AOSL_ENOSPC : Z := AOSL_EBASE + 28.
Definition AOSL_EDEADLK : Z := AOSL_EBASE + 35.
Definition AOSL_EOVERFLOW : Z := AOSL_EBASE + 75.
Definition AOSL_EMSGSIZE : Z := AOSL_EBASE + 90.

(** [IS_ERR] of a pointer that [ERR_PTR] may have made: error pointers are
    kept as the negative numbers they are made of. *)
Definition IS_ERR (p : Z) : bool := (- 4095 <=? p) && (p <? 0).

(** ** Shared automation *)

(** The database of rewrites and facts on machine integers. *)
Create HintDb aosl.
Create Rewrite HintDb aosl.

(** Split the first [if] or [match] on a boolean test of the goal, turning
    the comparisons of [Z] into propositions. *)
Ltac bdestruct1 :=
  match goal with
  | |- context [ if (?x =? ?y) then _ else _ ] => destruct (Z.eqb_spec x y)
  | |- context [ if (?x <? ?y) then _ else _ ] => destruct (Z.ltb_spec x y)
  | |- context [ if (?x <=? ?y) then _ else _ ] => destruct (Z.leb_spec x y)
  | H : context [ if (?x =? ?y) then _ else _ ] |- _ => destruct (Z.eqb_spec x y)
  | H : context [ if (?x <? ?y) then _ else _ ] |- _ => destruct (Z.ltb_spec x y)
  | H : context [ if (?x <=? ?y) then _ else _ ] |- _ => destruct (Z.leb_spec x y)
  end.
Ltac bdestruct_all := repeat bdestruct1.

(** Unfold the sequencing of a computation. *)
Ltac run := unfold cbind, cret, cget, cput, lift, cabort, cfault, cnofuel; cbn beta iota.
Ltac run_in H := unfold cbind, cret, cget, cput, lift, cabort, cfault, cnofuel in H; cbn beta iota in H.

(** A concrete value is not in a concrete list. *)
Ltac not_in_list := rewrite list_elem_of_In; vm_compute; intuition congruence.

Lemma wrapu_range w x : 0 <= w -> 0 <= wrapu w x < 2 ^ w.
Proof. intros; apply Z.mod_pos_bound; lia. Qed.

Lemma wrapu_id w x : 0 <= x < 2 ^ w -> wrapu w x = x.
Proof. apply Z.mod_small. Qed.

Lemma wrapu_wrapu w x : 0 <= w -> wrapu w (wrapu w x) = wrapu w x.
Proof. intros; apply wrapu_id, wrapu_range; done. Qed.

Lemma wraps_range w x : 0 < w -> - 2 ^ (w - 1) <= wraps w x < 2 ^ (w - 1).
Proof.
  intros Hw. unfold wraps.
  pose proof (Z.mod_pos_bound (x + 2 ^ (w - 1)) (2 ^ w) ltac:(lia)).
  replace (2 ^ w) with (2 * 2 ^ (w - 1)) in *; [lia|].
  rewrite <-Z.pow_succ_r by lia. f_equal; lia.
Qed.

Lemma wraps_id w x : 0 < w -> - 2 ^ (w - 1) <= x < 2 ^ (w - 1) -> wraps w x = x.
Proof.
  intros Hw Hx. unfold wraps. rewrite Z.mod_small; [lia|].
  replace (2 ^ w) with (2 * 2 ^ (w - 1)); [lia|].
  rewrite <-Z.pow_succ_r by lia. f_equal; lia.
Qed.

(** The value of a conversion is congruent to its argument. *)
Lemma wraps_mod w x : 0 < w -> wraps w x mod 2 ^ w = x mod 2 ^ w.
Proof.
  intros Hw. unfold wraps. rewrite Zminus_mod_idemp_l. f_equal. lia.
Qed.

#[export] Hint Rewrite wrapu_id wraps_id using lia : aosl.
#[export] Hint Resolve wrapu_range wraps_range : aosl.

(** Case analysis on the outcome of the first half of a sequence. *)
Lemma cbind_ret {S A B} (c : CM S A) (k : A -> CM S B) s a s' :
  c s = Ret (a, s') -> cbind c k s = k a s'.
Proof. unfold cbind. by intros ->. Qed.

Lemma cbind_inv {S A B} (c : CM S A) (k : A -> CM S B) s r :
  cbind c k s = Ret r -> exists a s', c s = Ret (a, s') /\ k a s' = Ret r.
Proof. unfold cbind. destruct (c s) as [[a s']| | |]; naive_solver. Qed.

(** ** Total correctness

    [wp c s Q]: run from [s], [c] returns normally and [Q] holds of its result
    and of the final state. *)
Definition wp {S A} (c : CM S A) (s : S) (Q : A -> S -> Prop) : Prop :=
  match c s with Ret (a, s') => Q a s' | _ => False end.

Lemma wp_bind {S A B} (c : CM S A) (k : A -> CM S B) s Q :
  wp c s (fun a s' => wp (k a) s' Q) -> wp (cbind c k) s Q.
Proof. unfold wp, cbind. by destruct (c s) as [[a s']| | |]. Qed.

Lemma wp_unbind {S A B} (c : CM S A) (k : A -> CM S B) s Q :
  wp (cbind c k) s Q -> wp c s (fun a s' => wp (k a) s' Q).
Proof. unfold wp, cbind. by destruct (c s) as [[a s']| | |]. Qed.

Lemma wp_ret {S A} (a : A) (s : S) Q : Q a s -> wp (cret a) s Q.
Proof. done. Qed.

Lemma wp_get {S} (s : S) Q : Q s s -> wp cget s Q.
Proof. done. Qed.

Lemma wp_mono {S A} (c : CM S A) s (Q Q' : A -> S -> Prop) :
  wp c s Q -> (forall a s', Q a s' -> Q' a s') -> wp c s Q'.
Proof. unfold wp. destruct (c s) as [[a s']| | |]; auto. Qed.

Lemma wp_eq {S A} (c : CM S A) s a s' (Q : A -> S -> Prop) :
  c s = Ret (a, s') -> Q a s' -> wp c s Q.
Proof. unfold wp. by intros ->. Qed.

Lemma wp_elim {S A} (c : CM S A) s (Q : A -> S -> Prop) :
  wp c s Q -> exists a s', c s = Ret (a, s') /\ Q a s'.
Proof. unfold wp. destruct (c s) as [[a s']| | |]; [eauto|done..]. Qed.

(** [wstep H]: the first computation of the sequence is [H]'s. *)
Tactic Notation "wstep" uconstr(H) := apply wp_bind; eapply wp_mono; [eapply H|cbn beta].
Tactic Notation "wlast" uconstr(H) := eapply wp_mono; [eapply H|cbn beta].

(** ** Lists without repetitions *)

Lemma filter_ne_notin (a : Z) (l : list Z) : a ∉ l -> filter (fun x => x <> a) l = l.
Proof.
  induction l as [|b l IH]; intros Ha; [done|]. rewrite filter_cons_True by set_solver. rewrite IH by set_solver. done.
Qed.

Lemma filter_ne_split (a : Z) (L R : list Z) :
  NoDup (L ++ a :: R) -> filter (fun x => x <> a) (L ++ a :: R) = L ++ R.
Proof.
  rewrite NoDup_app, NoDup_cons. intros (_ & HL & HR & _).
  rewrite filter_app, filter_cons_False by naive_solver. rewrite !filter_ne_notin; [done|done|set_solver].
Qed.

Lemma filter_ne_not_elem (a : Z) (l : list Z) : a ∉ filter (fun x => x <> a) l.
Proof. rewrite list_elem_of_filter. naive_solver. Qed.

(** ** Counting *)

Fixpoint cnt {A} (f : A -> bool) (l : list A) : Z :=
  match l with [] => 0 | p :: r => (if f p then 1 else 0) + cnt f r end.

Lemma cnt_insert {A} (f : A -> bool) (l : list A) (t : nat) p p' : l !! t = Some p ->
  cnt f (<[t := p']> l) = cnt f l - (if f p then 1 else 0) + (if f p' then 1 else 0).
Proof.
  revert t. induction l as [|x l IH]; intros [|t] Hp; try done.
  - injection Hp as ->. cbn. lia.
  - change (<[S t := p']> (x :: l)) with (x :: <[t := p']> l). cbn [cnt]. rewrite (IH t) by done. lia.
Qed.

Lemma cnt_nonneg {A} (f : A -> bool) l : 0 <= cnt f l.
Proof. induction l as [|x l IH]; cbn; [lia|]. destruct (f x); lia. Qed.

Lemma cnt_pos {A} (f : A -> bool) (l : list A) (t : nat) p : l !! t = Some p -> f p = true -> 0 < cnt f l.
Proof.
  revert t. induction l as [|x l IH]; intros [|t] Hp Hf; try done; cbn in *.
  - injection Hp as ->. rewrite Hf. pose proof (cnt_nonneg f l). lia.
  - specialize (IH _ Hp Hf). destruct (f x); lia.
Qed.

Lemma cnt_exists {A} (f : A -> bool) (l : list A) : 0 < cnt f l -> exists t p, l !! t = Some p /\ f p = true.
Proof.
  induction l as [|x l IH]; cbn; [lia|]. destruct (f x) eqn:E; [by exists 0%nat, x|]. intros H. destruct (IH ltac:(lia)) as (t & p & Ht & Hp). by exists (S t), p.
Qed.

Lemma cnt_replicate {A} (f : A -> bool) n x : f x = false -> cnt f (replicate n x) = 0.
Proof. intros Hf. induction n as [|n IH]; [done|]. cbn. by rewrite Hf, IH. Qed.
