(* ===== verification/Bitmap.v ===== *)
(** * Bitmaps: [lib/bitmap.c]

    The allocator of small identifiers that every id table of the library
    (timers, queues, reference objects, TLS keys, file descriptors) is built
    on.  A bitmap is an array of bytes with an 8-bit byte count and an 8-bit
    bit count; the argument types [uint8_t] of the source are kept by
    converting every argument on entry. *)
From S2P Require Import Prelude.

(** ** Data *)

(** [struct bitmap_s]; [bit_arr] is the array the pointer designates. *)
Record bitmap_t := MkBitmap {
  bit_arr : list Z;
  bit_arr_cnt : Z;
  bit_cnt : Z
}.

#[export] Instance bitmap_t_eq_dec : EqDecision bitmap_t.
Proof. solve_decision. Defined.

Definition BIT_ARRAY_CNT (bit_cnt : Z) : Z := (bit_cnt + 8 - 1) / 8.

(** ** Operations *)

(** [m_self] and [m_arr] say whether the two calls of [aosl_malloc_impl]
    returned memory; [None] is the NULL result. *)
Definition bitmap_create (m_self m_arr : bool) (cnt : Z) : option bitmap_t :=
  let bit_cnt := u8 cnt in
  if bit_cnt =? 0 then None else
  let arr_cnt := BIT_ARRAY_CNT bit_cnt in
  if negb m_self then None else
  if negb m_arr then None (* __tag_failed: the half-built object is freed *) else
  Some (MkBitmap (replicate (Z.to_nat arr_cnt) 0) (u8 arr_cnt) bit_cnt).

(** Read or update one byte of [bit_arr]; outside the array it is a fault. *)
Definition byte_at (self : bitmap_t) (index : Z) : res Z :=
  match bit_arr self !! Z.to_nat index with
  | Some b => Ret b
  | None => Fault
  end.

Definition set_byte (self : bitmap_t) (index b : Z) : bitmap_t :=
  MkBitmap (<[Z.to_nat index := b]> (bit_arr self)) (bit_arr_cnt self) (bit_cnt self).

Definition bitmap_set (self : option bitmap_t) (i : Z) : res (option bitmap_t) :=
  match self with
  | None => Ret None
  | Some bm =>
    let i := u8 i in
    if bit_cnt bm <=? i then Ret (Some bm) else
    let index := u8 (i / 8) in
    let offset := u8 (i mod 8) in
    match byte_at bm index with
    | Ret b => Ret (Some (set_byte bm index (u8 (Z.lor b (Z.shiftl 1 offset)))))
    | _ => Fault
    end
  end.

Definition bitmap_clear (self : option bitmap_t) (i : Z) : res (option bitmap_t) :=
  match self with
  | None => Ret None
  | Some bm =>
    let i := u8 i in
    if bit_cnt bm <=? i then Ret (Some bm) else
    let index := u8 (i / 8) in
    let offset := u8 (i mod 8) in
    match byte_at bm index with
    | Ret b => Ret (Some (set_byte bm index (u8 (Z.land b (Z.lnot (Z.shiftl 1 offset))))))
    | _ => Fault
    end
  end.

(** [memset] over the first [n] bytes of an array. *)
Definition memset0 (n : Z) (l : list Z) : res (list Z) :=
  if (Z.to_nat n <=? length l)%nat
  then Ret (replicate (Z.to_nat n) 0 ++ drop (Z.to_nat n) l)
  else Fault.

Definition bitmap_reset (self : option bitmap_t) : res bitmap_t :=
  match self with
  | None => Abort
  | Some bm =>
    if bit_arr_cnt bm =? 0 then Ret bm else
    match memset0 (bit_arr_cnt bm) (bit_arr bm) with
    | Ret l => Ret (MkBitmap l (bit_arr_cnt bm) (bit_cnt bm))
    | _ => Fault
    end
  end.

Definition bitmap_get (self : option bitmap_t) (i : Z) : res bool :=
  match self with
  | None => Abort
  | Some bm =>
    let i := u8 i in
    if bit_cnt bm <? i then Abort else
    let index := u8 (i / 8) in
    let offset := u8 (i mod 8) in
    match byte_at bm index with
    | Ret b => Ret (negb (Z.land b (Z.shiftl 1 offset) =? 0))
    | _ => Fault
    end
  end.

(** [memcpy] of the first [n] bytes of [src] over the start of [dst]. *)
Definition memcpy (n : Z) (dst src : list Z) : res (list Z) :=
  let n := Z.to_nat n in
  if ((n <=? length src) && (n <=? length dst))%nat
  then Ret (take n src ++ drop n dst)
  else Fault.

Definition bitmap_copy (self src : option bitmap_t) : res bitmap_t :=
  match self, src with
  | Some d, Some s =>
    if bit_cnt d <? bit_cnt s then Abort else
    match bitmap_reset (Some d) with
    | Ret d' =>
      match memcpy (bit_arr_cnt s) (bit_arr d') (bit_arr s) with
      | Ret l => Ret (MkBitmap l (bit_arr_cnt d') (bit_cnt d'))
      | _ => Fault
      end
    | r => r
    end
  | _, _ => Abort
  end.

(** The inner loop of [bitmap_find_first_zero_bit]: [n] more bit positions
    of the byte [byte_val], the next being [bit_idx], which is bit [bitpos]
    of the map.  [inl] is a [return]; [inr] is the value of [bitpos] when
    the loop ends without one. *)
Fixpoint scan_byte (n : nat) (cnt byte_val bit_idx bitpos : Z) : Z + Z :=
  match n with
  | O => inr bitpos
  | S n' =>
    if cnt <=? bitpos then inl (-1) else
    if Z.land byte_val (Z.shiftl 1 bit_idx) =? 0 then inl bitpos else
    scan_byte n' cnt byte_val (bit_idx + 1) (bitpos + 1)
  end.

(** The outer loop, [n] more bytes to go; the bytes not yet read are
    [bytes], and reading past them is a fault. *)
Fixpoint scan_bytes (n : nat) (bytes : list Z) (cnt bitpos : Z) : res Z :=
  match n with
  | O => Ret (-1)
  | S n' =>
    match bytes with
    | [] => Fault
    | byte_val :: rest =>
      if byte_val =? 255 then scan_bytes n' rest cnt (bitpos + 8) else
      match scan_byte 8 cnt byte_val 0 bitpos with
      | inl r => Ret r
      | inr bitpos' => scan_bytes n' rest cnt bitpos'
      end
    end
  end.

Definition bitmap_find_first_zero_bit (self : option bitmap_t) : res Z :=
  match self with
  | None => Abort
  | Some bm => scan_bytes (Z.to_nat (bit_arr_cnt bm)) (bit_arr bm) (bit_cnt bm) 0
  end.

(** The blocks [bitmap_destroy] gives back to the allocator, in order. *)
Inductive freed := FreeBitArr | FreeSelf.

Definition bitmap_destroy (self : option bitmap_t) : list freed :=
  match self with
  | None => []
  | Some _ => [FreeBitArr; FreeSelf]
  end.

(** ** The abstract view: a finite set of bit positions *)

(** Bit [i] of an array of bytes. *)
Definition bit_of (l : list Z) (i : Z) : bool :=
  match l !! Z.to_nat (i / 8) with
  | Some b => Z.testbit b (i mod 8)
  | None => false
  end.

Definition test (bm : bitmap_t) (i : Z) : bool := bit_of (bit_arr bm) i.

Definition byte_ok (b : Z) : bool := (0 <=? b) && (b <? 256).

(** The representation invariant: the two counts agree with the array, the
    array holds bytes, and no bit beyond [bit_cnt] is set. *)
Definition wf (bm : bitmap_t) : Prop :=
  0 < bit_cnt bm < 256 /\
  bit_arr_cnt bm = BIT_ARRAY_CNT (bit_cnt bm) /\
  Z.of_nat (length (bit_arr bm)) = bit_arr_cnt bm /\
  Forall (fun b => 0 <= b < 256) (bit_arr bm) /\
  (forall i, bit_cnt bm <= i -> test bm i = false).

(** [r] is the answer to "the first clear bit at or after [lo] and below
    [hi], or -1". *)
Definition first_zero (f : Z -> bool) (lo hi r : Z) : Prop :=
  (r = -1 /\ forall i, lo <= i < hi -> f i = true) \/
  (lo <= r < hi /\ f r = false /\ forall i, lo <= i < r -> f i = true).

(** ** Lemmas *)

Lemma land_bit b k : 0 <= k -> (Z.land b (Z.shiftl 1 k) =? 0) = negb (Z.testbit b k).
Proof.
  intros Hk. rewrite Z.shiftl_1_l. destruct (Z.testbit b k) eqn:E; simpl.
  - apply Z.eqb_neq. intros H. apply (f_equal (fun x => Z.testbit x k)) in H.
    rewrite Z.land_spec, E, Z.pow2_bits_true, Z.bits_0 in H by lia. done.
  - apply Z.eqb_eq, Z.bits_inj'. intros n Hn.
    rewrite Z.land_spec, Z.bits_0. destruct (Z.eq_dec n k) as [->|Hne].
    + by rewrite E.
    + rewrite Z.pow2_bits_false by lia. apply andb_false_r.
Qed.

Lemma testbit_255 j : 0 <= j < 8 -> Z.testbit 255 j = true.
Proof. intros. change 255 with (Z.ones 8). apply Z.ones_spec_low; lia. Qed.

Lemma lor_byte b k : 0 <= b < 256 -> 0 <= k < 8 -> 0 <= Z.lor b (Z.shiftl 1 k) < 256.
Proof.
  intros Hb Hk. rewrite Z.shiftl_1_l.
  assert (0 <= Z.lor b (2 ^ k)) by (apply Z.lor_nonneg; lia).
  split; [done|]. destruct (Z.eq_dec (Z.lor b (2 ^ k)) 0); [lia|].
  apply Z.log2_lt_cancel. change (Z.log2 256) with 8.
  rewrite Z.log2_lor, Z.log2_pow2 by lia.
  assert (Z.log2 b < 8) by (destruct (Z.eq_dec b 0) as [->|];
    [done|apply Z.log2_lt_pow2; lia]). lia.
Qed.

Lemma land_byte b c : 0 <= b < 256 -> 0 <= Z.land b c < 256.
Proof.
  intros Hb. assert (0 <= Z.land b c) by (apply Z.land_nonneg; lia).
  split; [done|]. rewrite <-(Z.mod_small b (2 ^ 8)) by lia.
  rewrite <-Z.land_ones, <-Z.land_assoc, (Z.land_comm (Z.ones 8)), Z.land_assoc by lia.
  rewrite Z.land_ones by lia. apply Z.mod_pos_bound. lia.
Qed.

Lemma scan_byte_spec f cnt b base n :
  (n <= 8)%nat ->
  (forall j, 0 <= j < 8 -> f (base + j) = Z.testbit b j) ->
  let k := 8 - Z.of_nat n in
  match scan_byte n cnt b k (base + k) with
  | inl r => first_zero f (base + k) cnt r
  | inr p => p = base + 8 /\ forall i, base + k <= i < base + 8 -> f i = true
  end.
Proof.
  intros Hn Hf k. subst k. revert Hn. induction n as [|n IH]; intros Hn; cbn [scan_byte].
  - split; [lia|]. intros; lia.
  - set (k := 8 - Z.of_nat (S n)). assert (0 <= k < 8) by lia.
    destruct (Z.leb_spec cnt (base + k)); [left; split; [done|intros; lia]|].
    rewrite land_bit by lia. rewrite <-(Hf k) by lia.
    destruct (f (base + k)) eqn:Hfk; cbn [negb]; [|right; split_and!; [lia..|done|intros; lia]].
    replace (k + 1) with (8 - Z.of_nat n) by lia.
    replace (base + k + 1) with (base + (8 - Z.of_nat n)) by lia.
    specialize (IH ltac:(lia)). destruct (scan_byte n _ _ _ _) as [r|p].
    + destruct IH as [[-> IH]|(? & ? & IH)]; [left|right]; split_and!; try done; try lia.
      all: intros i Hi; destruct (Z.eq_dec i (base + k)) as [->|]; [done|apply IH; lia].
    + destruct IH as [-> IH]. split; [done|]. intros i Hi.
      destruct (Z.eq_dec i (base + k)) as [->|]; [done|apply IH; lia].
Qed.

Lemma first_zero_prepend f lo mid hi r :
  lo <= mid -> (forall i, lo <= i < mid -> f i = true) ->
  first_zero f mid hi r -> first_zero f lo hi r.
Proof.
  intros Hle Hf [[-> H]|(? & ? & H)]; [left|right]; split_and!; try done; try lia.
  all: intros i Hi; destruct (Z.lt_ge_cases i mid); [apply Hf|apply H]; lia.
Qed.

Lemma scan_bytes_spec f cnt l base :
  (forall k b, l !! k = Some b ->
     forall j, 0 <= j < 8 -> f (base + 8 * Z.of_nat k + j) = Z.testbit b j) ->
  cnt <= base + 8 * Z.of_nat (length l) ->
  exists r, scan_bytes (length l) l cnt base = Ret r /\ first_zero f base cnt r.
Proof.
  revert base. induction l as [|b l IH]; intros base Hf Hlen; cbn [length scan_bytes] in *.
  { exists (-1). split; [done|]. left. split; [done|]. intros; lia. }
  assert (Hb : forall j, 0 <= j < 8 -> f (base + j) = Z.testbit b j).
  { intros j Hj. rewrite <-(Hf 0%nat b) by done. f_equal; lia. }
  destruct (IH (base + 8)) as (r & Hr & Hz); [|lia|].
  { intros k b' Hk j Hj. rewrite <-(Hf (S k) b') by done. f_equal; lia. }
  destruct (Z.eqb_spec b 255) as [->|_].
  - exists r. split; [done|]. eapply first_zero_prepend; [| |done]; [lia|].
    intros i Hi. replace i with (base + (i - base)) by lia.
    rewrite Hb by lia. apply testbit_255; lia.
  - pose proof (scan_byte_spec f cnt b base 8 ltac:(lia) Hb) as Hs. cbn zeta in Hs.
    change (8 - Z.of_nat 8) with 0 in Hs. rewrite Z.add_0_r in Hs.
    destruct (scan_byte 8 cnt b 0 base) as [r'|p]; [by exists r'|].
    destruct Hs as [-> Hs]. exists r. split; [done|].
    eapply first_zero_prepend; [| |done]; [lia|done].
Qed.

Lemma bit_of_insert l i n b :
  0 <= i -> (n < length l)%nat ->
  bit_of (<[n := b]> l) i =
    if decide (Z.to_nat (i / 8) = n) then Z.testbit b (i mod 8) else bit_of l i.
Proof.
  intros Hi Hn. unfold bit_of. case_decide as Hd.
  - subst n. by rewrite list_lookup_insert_eq.
  - by rewrite list_lookup_insert_ne.
Qed.

Lemma bit_of_replicate n i : bit_of (replicate n 0) i = false.
Proof.
  unfold bit_of. destruct (replicate n 0 !! _) eqn:E; [|done].
  apply lookup_replicate in E as [-> _]. apply Z.testbit_0_l.
Qed.

Lemma wf_index bm i : wf bm -> 0 <= i < bit_cnt bm -> (Z.to_nat (i / 8) < length (bit_arr bm))%nat.
Proof.
  intros (? & Hc & Hl & _) Hi. unfold BIT_ARRAY_CNT in Hc.
  assert (i / 8 < (bit_cnt bm + 8 - 1) / 8) by (Z.div_mod_to_equations; lia).
  assert (0 <= i / 8) by (apply Z.div_pos; lia). lia.
Qed.

Lemma byte_at_wf bm i :
  wf bm -> 0 <= i < bit_cnt bm ->
  exists b, byte_at bm (u8 (i / 8)) = Ret b /\ 0 <= b < 256 /\
    bit_arr bm !! Z.to_nat (i / 8) = Some b.
Proof.
  intros Hwf Hi. pose proof (wf_index _ _ Hwf Hi) as Hlt.
  apply lookup_lt_is_Some_2 in Hlt as [b Hb]. exists b.
  destruct Hwf as (Hc & _ & _ & Hall & _). unfold byte_at.
  rewrite wrapu_id by (Z.div_mod_to_equations; lia). rewrite Hb. split_and!; [done| | |done].
  all: rewrite Forall_lookup in Hall; specialize (Hall _ _ Hb); simpl in Hall; lia.
Qed.

(** Replacing the byte of bit [i] by one that differs from it in that bit
    only. *)
Lemma set_byte_spec bm i b b' (v : bool) :
  wf bm -> 0 <= i < bit_cnt bm ->
  bit_arr bm !! Z.to_nat (i / 8) = Some b -> 0 <= b' < 256 ->
  (forall j, 0 <= j -> Z.testbit b' j = if j =? i mod 8 then v else Z.testbit b j) ->
  let bm' := set_byte bm (u8 (i / 8)) b' in
  wf bm' /\ bit_cnt bm' = bit_cnt bm /\
  forall j, 0 <= j -> test bm' j = if j =? i then v else test bm j.
Proof.
  intros Hwf Hi Hb Hb' Hbit bm'. pose proof (wf_index _ _ Hwf Hi) as Hlt.
  destruct Hwf as (Hc & Hac & Hl & Hall & Hhi).
  assert (Hu : u8 (i / 8) = i / 8) by (apply wrapu_id; Z.div_mod_to_equations; lia).
  assert (Ht : forall j, 0 <= j -> test bm' j = if j =? i then v else test bm j).
  { intros j Hj. unfold test, bm', set_byte. cbn. rewrite Hu, bit_of_insert by done.
    case_decide as Hd.
    - assert (Hq : j / 8 = i / 8) by (Z.div_mod_to_equations; lia).
      rewrite Hbit by (Z.div_mod_to_equations; lia).
      unfold bit_of. rewrite Hd, Hb.
      destruct (Z.eqb_spec (j mod 8) (i mod 8)), (Z.eqb_spec j i); try done;
        exfalso; Z.div_mod_to_equations; lia.
    - destruct (Z.eqb_spec j i) as [->|]; [done|done]. }
  unfold wf. split_and!; try done; try (cbn; lia).
  - cbn. by rewrite length_insert.
  - cbn. apply Forall_insert; done.
  - intros j Hj. rewrite Ht by (cbn in Hj; lia).
    cbn in Hj. destruct (Z.eqb_spec j i); [lia|]. apply Hhi. lia.
Qed.

Lemma testbit_lor_bit b k j :
  0 <= k -> 0 <= j ->
  Z.testbit (Z.lor b (Z.shiftl 1 k)) j = if j =? k then true else Z.testbit b j.
Proof.
  intros Hk Hj. rewrite Z.lor_spec, Z.shiftl_1_l. destruct (Z.eqb_spec j k) as [->|].
  - rewrite Z.pow2_bits_true by lia. apply orb_true_r.
  - rewrite Z.pow2_bits_false by lia. apply orb_false_r.
Qed.

Lemma testbit_clear_bit b k j :
  0 <= k -> 0 <= j ->
  Z.testbit (Z.land b (Z.lnot (Z.shiftl 1 k))) j = if j =? k then false else Z.testbit b j.
Proof.
  intros Hk Hj. rewrite Z.land_spec, Z.lnot_spec, Z.shiftl_1_l by lia.
  destruct (Z.eqb_spec j k) as [->|].
  - rewrite Z.pow2_bits_true by lia. apply andb_false_r.
  - rewrite Z.pow2_bits_false by lia. apply andb_true_r.
Qed.

Lemma wf_arg bm i : wf bm -> 0 <= i < bit_cnt bm ->
  u8 i = i /\ (bit_cnt bm <=? i) = false /\ u8 (i mod 8) = i mod 8 /\ 0 <= i mod 8 < 8.
Proof.
  intros (Hc & _) Hi. split_and!.
  - apply wrapu_id; lia.
  - apply Z.leb_gt; lia.
  - apply wrapu_id. Z.div_mod_to_equations; lia.
  - Z.div_mod_to_equations; lia.
  - Z.div_mod_to_equations; lia.
Qed.

Lemma bitmap_set_ok bm i :
  wf bm -> 0 <= i < bit_cnt bm ->
  exists bm', bitmap_set (Some bm) i = Ret (Some bm') /\ wf bm' /\
    bit_cnt bm' = bit_cnt bm /\
    forall j, 0 <= j -> test bm' j = if j =? i then true else test bm j.
Proof.
  intros Hwf Hi. destruct (wf_arg _ _ Hwf Hi) as (Eu & El & Eo & ?).
  destruct (byte_at_wf _ _ Hwf Hi) as (b & Eb & Hb & Hl).
  pose proof (lor_byte b (i mod 8) Hb ltac:(lia)) as Hor.
  eexists. cbn. rewrite Eu, El, Eb, Eo. split; [done|].
  apply set_byte_spec with (b := b); try done.
  - rewrite wrapu_id; done.
  - intros j Hj. rewrite wrapu_id by done. apply testbit_lor_bit; lia.
Qed.

Lemma bitmap_clear_ok bm i :
  wf bm -> 0 <= i < bit_cnt bm ->
  exists bm', bitmap_clear (Some bm) i = Ret (Some bm') /\ wf bm' /\
    bit_cnt bm' = bit_cnt bm /\
    forall j, 0 <= j -> test bm' j = if j =? i then false else test bm j.
Proof.
  intros Hwf Hi. destruct (wf_arg _ _ Hwf Hi) as (Eu & El & Eo & ?).
  destruct (byte_at_wf _ _ Hwf Hi) as (b & Eb & Hb & Hl).
  pose proof (land_byte b (Z.lnot (Z.shiftl 1 (i mod 8))) Hb) as Hand.
  eexists. cbn. rewrite Eu, El, Eb, Eo. split; [done|].
  apply set_byte_spec with (b := b); try done.
  - rewrite wrapu_id; done.
  - intros j Hj. rewrite wrapu_id by done. apply testbit_clear_bit; lia.
Qed.

Lemma bitmap_get_ok bm i :
  wf bm -> 0 <= i < bit_cnt bm -> bitmap_get (Some bm) i = Ret (test bm i).
Proof.
  intros Hwf Hi. destruct (wf_arg _ _ Hwf Hi) as (Eu & El & Eo & ?).
  destruct (byte_at_wf _ _ Hwf Hi) as (b & Eb & Hb & Hl).
  cbn. rewrite Eu, Eb, Eo. destruct (Z.ltb_spec (bit_cnt bm) i); [lia|].
  rewrite land_bit, negb_involutive by lia. unfold test, bit_of. by rewrite Hl.
Qed.

Lemma bitmap_create_ok cnt :
  0 < cnt < 256 ->
  exists bm, bitmap_create true true cnt = Some bm /\ wf bm /\ bit_cnt bm = cnt /\
    forall i, test bm i = false.
Proof.
  intros Hc. unfold bitmap_create. rewrite wrapu_id by lia.
  destruct (Z.eqb_spec cnt 0); [lia|]. cbn [negb]. eexists. split; [done|].
  assert (0 <= BIT_ARRAY_CNT cnt < 256)
    by (unfold BIT_ARRAY_CNT; Z.div_mod_to_equations; lia).
  rewrite (wrapu_id _ (BIT_ARRAY_CNT cnt)) by lia.
  assert (Ht : forall i, test (MkBitmap (replicate (Z.to_nat (BIT_ARRAY_CNT cnt)) 0)
    (BIT_ARRAY_CNT cnt) cnt) i = false) by (intros; apply bit_of_replicate).
  unfold wf. split_and!; try done; cbn; try lia.
  - rewrite length_replicate. lia.
  - apply Forall_replicate. lia.
Qed.

Lemma bitmap_find_first_zero_bit_ok bm :
  wf bm -> exists r, bitmap_find_first_zero_bit (Some bm) = Ret r /\
    first_zero (test bm) 0 (bit_cnt bm) r.
Proof.
  intros (Hc & Hac & Hl & Hall & Hhi). cbn.
  replace (Z.to_nat (bit_arr_cnt bm)) with (length (bit_arr bm)) by lia.
  apply scan_bytes_spec.
  - intros k b Hk j Hj. unfold test, bit_of.
    replace ((0 + 8 * Z.of_nat k + j) / 8) with (Z.of_nat k) by (Z.div_mod_to_equations; lia).
    replace ((0 + 8 * Z.of_nat k + j) mod 8) with j by (Z.div_mod_to_equations; lia).
    by rewrite Nat2Z.id, Hk.
  - unfold BIT_ARRAY_CNT in Hac. Z.div_mod_to_equations; lia.
Qed.

Lemma bitmap_copy_ok d s :
  wf d -> wf s -> bit_cnt s <= bit_cnt d ->
  exists bm, bitmap_copy (Some d) (Some s) = Ret bm /\ wf bm /\ bit_cnt bm = bit_cnt d /\
    forall i, 0 <= i -> test bm i = test s i.
Proof.
  intros (Hdc & Hdac & Hdl & Hdall & Hdhi) (Hsc & Hsac & Hsl & Hsall & Hshi) Hle.
  assert (Hac : 0 < bit_arr_cnt s <= bit_arr_cnt d).
  { rewrite Hsac, Hdac. unfold BIT_ARRAY_CNT. Z.div_mod_to_equations; lia. }
  cbn. destruct (Z.ltb_spec (bit_cnt d) (bit_cnt s)); [lia|].
  destruct (Z.eqb_spec (bit_arr_cnt d) 0); [lia|].
  unfold memset0. rewrite leb_correct by lia.
  rewrite drop_ge, app_nil_r by lia. cbn. unfold memcpy.
  rewrite !leb_correct by (rewrite ?length_replicate; lia). cbn.
  rewrite take_ge, drop_replicate by lia. eexists. split; [done|].
  assert (Ht : forall i, 0 <= i ->
    bit_of (bit_arr s ++ replicate (Z.to_nat (bit_arr_cnt d) - Z.to_nat (bit_arr_cnt s)) 0) i
    = test s i).
  { intros i Hi. unfold test, bit_of.
    destruct (decide (Z.to_nat (i / 8) < length (bit_arr s))%nat).
    - by rewrite lookup_app_l.
    - rewrite lookup_app_r, (lookup_ge_None_2 (bit_arr s)) by lia.
      destruct (replicate _ _ !! _) eqn:E; [|done].
      apply lookup_replicate in E as [-> _]. apply Z.testbit_0_l. }
  unfold wf. split_and!; try done; cbn; try lia.
  - rewrite length_app, length_replicate. lia.
  - apply Forall_app. split; [done|]. apply Forall_replicate. lia.
  - intros i Hi. unfold test. cbn. rewrite Ht by lia. apply Hshi. lia.
Qed.

(** ** Theorems *)

(** A bitmap with [n] bits, the bits of [l] set. *)
Definition demo_bitmap (n : Z) (l : list Z) : bitmap_t :=
  match bitmap_create true true n with
  | Some bm =>
    fold_left (fun b i => match bitmap_set (Some b) i with Ret (Some b') => b' | _ => b end) l bm
  | None => MkBitmap [] 0 0
  end.

Lemma demo_bitmap_wf n l : 0 < n < 256 -> wf (demo_bitmap n l).
Proof.
  intros Hn. unfold demo_bitmap.
  destruct (bitmap_create_ok n Hn) as (bm & -> & Hwf & _ & _).
  revert bm Hwf. induction l as [|i l IH]; intros bm Hwf; cbn [fold_left]; [done|].
  apply IH. destruct (Z.lt_ge_cases (u8 i) (bit_cnt bm)) as [Hlt|Hge].
  - assert (Hi : 0 <= u8 i) by (apply wrapu_range; lia).
    destruct (bitmap_set_ok bm (u8 i) Hwf (conj Hi Hlt)) as (bm' & Hs & Hwf' & _).
    replace (bitmap_set (Some bm) i) with (bitmap_set (Some bm) (u8 i)); [by rewrite Hs|].
    unfold bitmap_set. by rewrite wrapu_wrapu.
  - cbn. destruct (Z.leb_spec (bit_cnt bm) (u8 i)); [done|lia].
Qed.

(** On a well-formed bitmap [bitmap_find_first_zero_bit] returns the
    lowest clear bit below [bit_cnt], and -1 exactly when there is none; it
    reads no byte outside the array. *)
Theorem bitmap_find_first_zero_bit_least (bm : bitmap_t) (Hwf : wf bm) :
  exists r, bitmap_find_first_zero_bit (Some bm) = Ret r /\
    (r = -1 <-> forall i, 0 <= i < bit_cnt bm -> test bm i = true) /\
    (r <> -1 -> 0 <= r < bit_cnt bm /\ test bm r = false /\
       forall i, 0 <= i < r -> test bm i = true).
Proof.
  destruct (bitmap_find_first_zero_bit_ok bm Hwf) as (r & Hr & Hz).
  exists r. split; [done|]. destruct Hz as [[-> Hall]|(Hlt & Hclr & Hlow)]; [done|].
  split; [|done]. split; [lia|]. intros Hall. by rewrite Hall in Hclr.
Qed.

Lemma bitmap_find_first_zero_bit_least_witness :
  exists r, bitmap_find_first_zero_bit (Some (demo_bitmap 12 [0; 1; 2; 4])) = Ret r /\
    (r = -1 <-> forall i, 0 <= i < 12 -> test (demo_bitmap 12 [0; 1; 2; 4]) i = true) /\
    (r <> -1 -> 0 <= r < 12 /\ test (demo_bitmap 12 [0; 1; 2; 4]) r = false /\
       forall i, 0 <= i < r -> test (demo_bitmap 12 [0; 1; 2; 4]) i = true).
Proof.
  exact (bitmap_find_first_zero_bit_least (demo_bitmap 12 [0; 1; 2; 4])
           (demo_bitmap_wf 12 [0; 1; 2; 4] ltac:(lia))).
Defined.

(** For an index below [bit_cnt], [bitmap_set] and [bitmap_clear] keep
    the bitmap well formed and change that bit and no other, as [bitmap_get]
    then observes. *)
Theorem bitmap_set_clear_get (bm : bitmap_t) (i : Z) (Hwf : wf bm) (Hi : 0 <= i < bit_cnt bm) :
  (exists b, bitmap_set (Some bm) i = Ret (Some b) /\ wf b /\
     forall j, 0 <= j < bit_cnt bm ->
       bitmap_get (Some b) j = if j =? i then Ret true else bitmap_get (Some bm) j) /\
  (exists b, bitmap_clear (Some bm) i = Ret (Some b) /\ wf b /\
     forall j, 0 <= j < bit_cnt bm ->
       bitmap_get (Some b) j = if j =? i then Ret false else bitmap_get (Some bm) j).
Proof.
  split.
  - destruct (bitmap_set_ok bm i Hwf Hi) as (b & Hs & Hb & Hc & Ht). exists b.
    split_and!; [done..|]. intros j Hj. rewrite !bitmap_get_ok, Ht by (done || lia).
    by destruct (j =? i).
  - destruct (bitmap_clear_ok bm i Hwf Hi) as (b & Hs & Hb & Hc & Ht). exists b.
    split_and!; [done..|]. intros j Hj. rewrite !bitmap_get_ok, Ht by (done || lia).
    by destruct (j =? i).
Qed.

Lemma bitmap_set_clear_get_witness :
  (exists b, bitmap_set (Some (demo_bitmap 12 [3])) 9 = Ret (Some b) /\ wf b /\
     forall j, 0 <= j < 12 ->
       bitmap_get (Some b) j = if j =? 9 then Ret true else bitmap_get (Some (demo_bitmap 12 [3])) j) /\
  (exists b, bitmap_clear (Some (demo_bitmap 12 [3])) 9 = Ret (Some b) /\ wf b /\
     forall j, 0 <= j < 12 ->
       bitmap_get (Some b) j = if j =? 9 then Ret false else bitmap_get (Some (demo_bitmap 12 [3])) j).
Proof.
  apply (bitmap_set_clear_get (demo_bitmap 12 [3]) 9 (demo_bitmap_wf 12 [3] ltac:(lia))).
  vm_compute. split; congruence.
Defined.

(** [bitmap_copy] into a bitmap that is at least as large gives a
    well-formed bitmap with exactly the source's bits, every bit beyond the
    source's count clear; a smaller destination trips the [BUG_ON]. *)
Theorem bitmap_copy_bits (d s : bitmap_t) (Hd : wf d) (Hs : wf s) :
  (bit_cnt s <= bit_cnt d ->
   exists b, bitmap_copy (Some d) (Some s) = Ret b /\ wf b /\ bit_cnt b = bit_cnt d /\
     forall i, 0 <= i -> test b i = (i <? bit_cnt s) && test s i) /\
  (bit_cnt d < bit_cnt s -> bitmap_copy (Some d) (Some s) = Abort).
Proof.
  split.
  - intros Hle. destruct (bitmap_copy_ok d s Hd Hs Hle) as (b & Hb & Hwf & Hc & Ht).
    exists b. split_and!; [done..|]. intros i Hi. rewrite Ht by done.
    destruct (Z.ltb_spec i (bit_cnt s)); [done|]. apply Hs. lia.
  - intros Hlt. cbn. destruct (Z.ltb_spec (bit_cnt d) (bit_cnt s)); [done|lia].
Qed.

Lemma bitmap_copy_bits_witness :
  (8 <= 16 ->
   exists b, bitmap_copy (Some (demo_bitmap 16 [12])) (Some (demo_bitmap 8 [1; 7])) = Ret b /\ wf b /\
     bit_cnt b = 16 /\
     forall i, 0 <= i -> test b i = (i <? 8) && test (demo_bitmap 8 [1; 7]) i) /\
  (16 < 8 -> bitmap_copy (Some (demo_bitmap 16 [12])) (Some (demo_bitmap 8 [1; 7])) = Abort).
Proof.
  exact (bitmap_copy_bits (demo_bitmap 16 [12]) (demo_bitmap 8 [1; 7])
    (demo_bitmap_wf 16 [12] ltac:(lia)) (demo_bitmap_wf 8 [1; 7] ltac:(lia))).
Defined.

(** [bitmap_get] lets the index [bit_cnt] itself through its [BUG_ON];
    when the bit count is a multiple of 8 it then reads one byte past the
    array. *)
Theorem bitmap_get_boundary (bm : bitmap_t) (Hwf : wf bm) (H8 : bit_cnt bm mod 8 = 0) :
  bitmap_get (Some bm) (bit_cnt bm) = Fault /\
  forall i, bit_cnt bm < i < 256 -> bitmap_get (Some bm) i = Abort.
Proof.
  destruct Hwf as (Hc & Hac & Hl & _). cbn. split.
  - rewrite !wrapu_id by (Z.div_mod_to_equations; lia).
    destruct (Z.ltb_spec (bit_cnt bm) (bit_cnt bm)); [lia|]. unfold byte_at.
    rewrite (lookup_ge_None_2 (bit_arr bm)); [done|].
    unfold BIT_ARRAY_CNT in Hac. Z.div_mod_to_equations; lia.
  - intros i Hi. rewrite (wrapu_id 8 i) by lia.
    destruct (Z.ltb_spec (bit_cnt bm) i); [done|lia].
Qed.

Lemma bitmap_get_boundary_witness :
  bitmap_get (Some (demo_bitmap 8 [])) 8 = Fault /\
  forall i, 8 < i < 256 -> bitmap_get (Some (demo_bitmap 8 [])) i = Abort.
Proof.
  exact (bitmap_get_boundary (demo_bitmap 8 []) (demo_bitmap_wf 8 [] ltac:(lia)) eq_refl).
Defined.
