(* ===== verification/IdPool.v ===== *)
(** * Identifier tables

    [kernel/timer.c], [kernel/mpq.c] and [kernel/refobj.c] each keep a growing
    table of object pointers indexed by a small id, a bitmap of the ids in
    use and a 16-bit "life id" that is mixed into the handle given to the
    user, so that a stale handle does not reach a new object in the same
    slot.  The three copies of the code differ in the size limit and in the
    handle type; they are modelled once, with these two as parameters, and
    instantiated at the end of the file. *)
From S2P Require Import Prelude Bitmap.
#[local] Open Scope aosl_scope.

(** ** State *)

(** The file-scope variables of one copy: [xxx_id_pool_bits], [xxx_table]
    (0 is NULL), [xxx_table_size], [__xxx_life_id], and the [obj_id] fields of
    the objects the pointers designate. *)
Record id_pool := MkPool {
  pool_bits : option bitmap_t;
  pool_table : list Z;
  pool_size : Z;
  pool_life : Z;
  pool_objs : gmap Z Z
}.

(** What distinguishes the three copies: the [XXX_ID_POOL_MAX_SIZE] limit and
    the conversion from [uint32_t] to the handle type. *)
Record pool_cfg := MkCfg {
  pool_max : Z;
  handle_conv : Z -> Z
}.

(** ** Operations *)

(** [sizeof (ptr) * n] bytes copied, the rest of the new table cleared. *)
Definition grow_table (old : list Z) (old_size new_size : Z) : res (list Z) :=
  if (Z.to_nat old_size <=? length old)%nat
  then Ret (take (Z.to_nat old_size) old ++ replicate (Z.to_nat (new_size - old_size)) 0)
  else Fault.

Section Pool.
Variable cfg : pool_cfg.

(** [get_unused_xxx_id]; the booleans are the outcomes of the allocations of
    the new bitmap (object and array) and of the new table. *)
Definition get_unused_id (m_self m_arr m_tab : bool) : CM id_pool Z :=
  do p <- cget;
  do id <- lift (bitmap_find_first_zero_bit (pool_bits p));
  if id <? 0 then
    if pool_max cfg <=? pool_size p then cret (- AOSL_EOVERFLOW) else
    let new_size := pool_size p + 8 in
    match bitmap_create m_self m_arr new_size with
    | None => cret (- AOSL_ENOMEM)
    | Some new_bits =>
      if negb m_tab then cret (- AOSL_ENOMEM) else
      do bits <- lift (bitmap_copy (Some new_bits) (pool_bits p));
      do table <- lift (grow_table (pool_table p) (pool_size p) new_size);
      do id <- lift (bitmap_find_first_zero_bit (Some bits));
      if id <? 0 then cabort else
      do bits <- lift (bitmap_set (Some bits) id);
      cput (MkPool bits table new_size (pool_life p) (pool_objs p)) ;;
      cret id
    end
  else
    do bits <- lift (bitmap_set (pool_bits p) id);
    cput (MkPool bits (pool_table p) (pool_size p) (pool_life p) (pool_objs p)) ;;
    cret id.

(** [__put_unused_xxx_id]. *)
Definition put_unused_id (id : Z) : CM id_pool unit :=
  do p <- cget;
  if (id <? 0) || (pool_size p <=? id) then cabort else
  do bits <- lift (bitmap_clear (pool_bits p) id);
  cput (MkPool bits (pool_table p) (pool_size p) (pool_life p) (pool_objs p)).

(** [make_xxx_obj_id (int16_t id, uint16_t life_id)]. *)
Definition make_obj_id (id life : Z) : Z :=
  handle_conv cfg (Z.lor (u32 (Z.shiftl (u16 life) 16)) (u32 (s16 id))).

(** [get_xxx_id] and [get_xxx_life_id]. *)
Definition get_id (obj_id : Z) : Z := s16 obj_id.
Definition get_life_id (obj_id : Z) : Z := u16 (Z.shiftr (u32 obj_id) 16).

(** The increment of the life id that skips 0. *)
Definition next_life (life : Z) : Z :=
  let life' := u16 (life + 1) in
  if life' =? 0 then 1 else life'.

(** Reading a slot of the table. *)
Definition table_at (t : list Z) (i : Z) : res Z :=
  match t !! Z.to_nat i with Some p => Ret p | None => Fault end.

(** [__xxx_id_install]: the two [BUG_ON], the [abort] on a slot in use, the
    store of the pointer and of the handle, and the next life id. *)
Definition id_install (id obj : Z) : CM id_pool unit :=
  do p <- cget;
  if id <? 0 then cabort else
  if pool_size p <=? id then cabort else
  do old <- lift (table_at (pool_table p) id);
  if negb (old =? 0) then cabort else
  cput (MkPool (pool_bits p) (<[Z.to_nat id := obj]> (pool_table p)) (pool_size p)
          (next_life (pool_life p))
          (<[obj := make_obj_id id (pool_life p)]> (pool_objs p))).

(** [__xxx_id_uninstall]. *)
Definition id_uninstall (id obj : Z) : CM id_pool Z :=
  do p <- cget;
  if id <? 0 then cabort else
  if pool_size p <=? id then cabort else
  do cur <- lift (table_at (pool_table p) id);
  if cur =? obj then
    cput (MkPool (pool_bits p) (<[Z.to_nat id := 0]> (pool_table p)) (pool_size p)
            (pool_life p) (pool_objs p)) ;;
    cret 0
  else cret (- AOSL_EINVAL).

(** The table lookup of [timer_get], [__mpq_get] and [__refobj_get]: the
    pointer whose object carries this very handle, or NULL.  The reference
    count it takes is the client's. *)
Definition id_lookup (obj_id : Z) : CM id_pool Z :=
  do p <- cget;
  let id := get_id obj_id in
  if id <? 0 then cret 0 else
  if id <? pool_size p then
    do obj <- lift (table_at (pool_table p) id);
    if obj =? 0 then cret 0 else
    match pool_objs p !! obj with
    | None => cfault
    | Some oid => if oid =? obj_id then cret obj else cret 0
    end
  else cret 0.

End Pool.

(** [k_timer_init], [mpq_init], [k_refobj_init]: 8 slots, all free; an
    allocation failure aborts. *)
Definition pool_init (m_self m_arr m_tab : bool) (life : Z) (objs : gmap Z Z) : res id_pool :=
  match bitmap_create m_self m_arr 8, m_tab with
  | Some bits, true => Ret (MkPool (Some bits) (replicate 8 0) 8 life objs)
  | _, _ => Abort
  end.

(** ** Invariant *)

(** Slot [i] is in use: its bit is set. *)
Definition id_used (p : id_pool) (i : Z) : bool :=
  match pool_bits p with Some bm => test bm i | None => false end.

(** The three parts agree on the number of slots, which is a multiple of 8;
    a slot that holds an object is in use, and the object carries a handle
    that leads back to the slot. *)
Definition pool_wf (p : id_pool) : Prop :=
  exists bm, pool_bits p = Some bm /\ wf bm /\ bit_cnt bm = pool_size p /\
  Z.of_nat (length (pool_table p)) = pool_size p /\
  pool_size p mod 8 = 0 /\
  1 <= pool_life p < 2 ^ 16 /\
  (forall i o, pool_table p !! i = Some o -> o <> 0 ->
     test bm (Z.of_nat i) = true /\
     exists oid, pool_objs p !! o = Some oid /\ get_id oid = Z.of_nat i).

(** ** Handles *)

(** The conversion to the handle type keeps the 32 bits. *)
Class HandleConv (cfg : pool_cfg) : Prop :=
  handle_conv_mod : forall x, 0 <= x < 2 ^ 32 -> handle_conv cfg x mod 2 ^ 32 = x.

Lemma make_obj_id_raw id life :
  0 <= id < 2 ^ 15 -> 0 <= life < 2 ^ 16 ->
  Z.lor (u32 (Z.shiftl (u16 life) 16)) (u32 (s16 id)) = life * 2 ^ 16 + id.
Proof.
  intros Hid Hl.
  rewrite (wrapu_id 16), (wraps_id 16), Z.shiftl_mul_pow2, !wrapu_id by lia.
  rewrite <-Z.add_lor_land. replace (Z.land _ _) with 0; [lia|].
  symmetry. apply Z.bits_inj'. intros n Hn.
  rewrite Z.land_spec, Z.bits_0, <-Z.shiftl_mul_pow2 by lia.
  destruct (Z.lt_ge_cases n 16).
  - rewrite Z.shiftl_spec_low by lia. done.
  - rewrite (Z.bits_above_log2 id), andb_false_r; [done|lia|].
    destruct (Z.eq_dec id 0) as [->|]; [cbn; lia|].
    apply Z.log2_lt_pow2; [lia|]. pose proof (Z.pow_le_mono_r 2 15 n). lia.
Qed.

Section Handles.
Context (cfg : pool_cfg) `{!HandleConv cfg}.

Lemma make_obj_id_mod id life :
  0 <= id < 2 ^ 15 -> 0 <= life < 2 ^ 16 ->
  make_obj_id cfg id life mod 2 ^ 32 = life * 2 ^ 16 + id.
Proof.
  intros. unfold make_obj_id. rewrite make_obj_id_raw by done.
  apply handle_conv_mod. lia.
Qed.

Lemma get_id_make id life :
  0 <= id < 2 ^ 15 -> 0 <= life < 2 ^ 16 -> get_id (make_obj_id cfg id life) = id.
Proof.
  intros Hid Hl. unfold get_id.
  pose proof (make_obj_id_mod id life Hid Hl) as Hm.
  set (h := make_obj_id cfg id life) in *. unfold wraps.
  rewrite <-Zplus_mod_idemp_l.
  replace (h mod 2 ^ 16) with id; [rewrite Z.mod_small; lia|].
  rewrite (Z.div_mod h (2 ^ 32)), Hm by lia.
  replace (2 ^ 32 * (h / 2 ^ 32) + (life * 2 ^ 16 + id))
    with (id + (2 ^ 16 * (h / 2 ^ 32) + life) * 2 ^ 16) by lia.
  rewrite Z.mod_add, Z.mod_small by lia. done.
Qed.

Lemma get_life_id_make id life :
  0 <= id < 2 ^ 15 -> 0 <= life < 2 ^ 16 -> get_life_id (make_obj_id cfg id life) = life.
Proof.
  intros Hid Hl. unfold get_life_id, wrapu at 2. rewrite make_obj_id_mod by done.
  rewrite Z.shiftr_div_pow2, Z.div_add_l, (Z.div_small id), Z.add_0_r by lia.
  apply wrapu_id. lia.
Qed.

Lemma make_obj_id_inj id1 l1 id2 l2 :
  0 <= id1 < 2 ^ 15 -> 0 <= id2 < 2 ^ 15 -> 0 <= l1 < 2 ^ 16 -> 0 <= l2 < 2 ^ 16 ->
  make_obj_id cfg id1 l1 = make_obj_id cfg id2 l2 -> id1 = id2 /\ l1 = l2.
Proof.
  intros ? ? ? ? He. split.
  - rewrite <-(get_id_make id1 l1), <-(get_id_make id2 l2) by done. by rewrite He.
  - rewrite <-(get_life_id_make id1 l1), <-(get_life_id_make id2 l2) by done. by rewrite He.
Qed.
End Handles.

(** ** Life ids *)

Lemma next_life_range l : 1 <= l < 2 ^ 16 -> 1 <= next_life l < 2 ^ 16.
Proof.
  intros Hl. unfold next_life. pose proof (wrapu_range 16 (l + 1) ltac:(lia)).
  bdestruct_all; lia.
Qed.

(** Life ids run through 1 .. 65535 in a cycle. *)
Lemma next_life_cycle l : 1 <= l < 2 ^ 16 -> next_life l - 1 = (l - 1 + 1) mod (2 ^ 16 - 1).
Proof.
  intros Hl. unfold next_life. destruct (Z.eq_dec l (2 ^ 16 - 1)) as [->|].
  - done.
  - rewrite wrapu_id by lia. bdestruct_all; [lia|]. rewrite Z.mod_small; lia.
Qed.

Lemma iter_next_life n l :
  1 <= l < 2 ^ 16 ->
  1 <= Nat.iter n next_life l < 2 ^ 16 /\
  Nat.iter n next_life l - 1 = (l - 1 + Z.of_nat n) mod (2 ^ 16 - 1).
Proof.
  intros Hl. induction n as [|n [IHr IH]]; cbn [Nat.iter nat_rect].
  - split; [done|]. rewrite Z.mod_small; lia.
  - fold (Nat.iter n next_life l). split; [by apply next_life_range|].
    rewrite next_life_cycle, IH, Zplus_mod_idemp_l by done. f_equal. lia.
Qed.

Lemma iter_next_life_ne n l :
  1 <= l < 2 ^ 16 -> 0 < Z.of_nat n < 2 ^ 16 - 1 -> Nat.iter n next_life l <> l.
Proof.
  intros Hl Hn He. destruct (iter_next_life n l Hl) as [_ H]. rewrite He in H.
  assert (Hz : (l - 1 + Z.of_nat n) mod (2 ^ 16 - 1) = (l - 1 + 0) mod (2 ^ 16 - 1)).
  { rewrite <-H, Z.add_0_r, Z.mod_small; lia. }
  revert Hz. Z.div_mod_to_equations. lia.
Qed.

(** ** The operations keep the tables consistent *)

Lemma pool_size_bound p : pool_wf p -> 0 < pool_size p <= 248.
Proof.
  intros (bm & _ & (Hc & _) & Hbc & _ & Hm & _). Z.div_mod_to_equations; lia.
Qed.

(** A change of the bitmap that only turns bits on, or off where no object
    is installed. *)
Lemma pool_wf_bits p bm bm' i (v : bool) :
  pool_wf p -> pool_bits p = Some bm -> wf bm' -> bit_cnt bm' = bit_cnt bm ->
  (forall j, 0 <= j -> test bm' j = if j =? i then v else test bm j) ->
  v = true \/ (forall o, pool_table p !! Z.to_nat i = Some o -> o = 0) ->
  pool_wf (MkPool (Some bm') (pool_table p) (pool_size p) (pool_life p) (pool_objs p)).
Proof.
  intros (bm0 & Hb & Hwf & Hc & Hl & Hm & Hlife & Ht) Hb' Hwf' Hc' Htest Hv.
  rewrite Hb in Hb'. injection Hb' as ->. exists bm'. cbn.
  split_and!; try done; try lia. intros k o Hk Ho.
  destruct (Ht k o Hk Ho) as [Hbit Hoid]. split; [|done].
  rewrite Htest by lia. destruct (Z.eqb_spec (Z.of_nat k) i) as [<-|]; [|done].
  destruct Hv as [->|Hv]; [done|]. rewrite Nat2Z.id in Hv.
  by destruct (Ho (Hv o Hk)).
Qed.

(** Extending the table by free slots. *)
Lemma pool_wf_grow p bm bits tab :
  pool_wf p -> pool_bits p = Some bm -> wf bits -> bit_cnt bits = pool_size p + 8 ->
  (forall j, 0 <= j -> test bits j = test bm j) ->
  tab = pool_table p ++ replicate 8 0 ->
  pool_wf (MkPool (Some bits) tab (pool_size p + 8) (pool_life p) (pool_objs p)).
Proof.
  intros (bm0 & Hb & Hwf & Hc & Hl & Hm & Hlife & Ht) Hb' Hwf' Hc' Htest ->.
  rewrite Hb in Hb'. injection Hb' as ->. exists bits. cbn.
  split_and!; try done; try lia.
  - rewrite length_app. cbn [length]. lia.
  - Z.div_mod_to_equations; lia.
  - intros k o Hk Ho. rewrite Htest by lia. apply lookup_app_Some in Hk as [Hk|[_ Hk]].
    + by apply Ht.
    + by apply (lookup_replicate 8 0) in Hk as [-> _].
Qed.

(** The outcome of [get_unused_id] by cases on the table: a free slot, or a
    full table that grows, or one that cannot. *)
Lemma get_unused_id_cases cfg m_self m_arr m_tab p :
  pool_wf p ->
  (exists id p', get_unused_id cfg m_self m_arr m_tab p = Ret (id, p') /\
     pool_wf p' /\ 0 <= id < pool_size p' /\ id_used p id = false /\
     (forall j, 0 <= j -> id_used p' j = if j =? id then true else id_used p j) /\
     (forall j, 0 <= j < id -> id_used p j = true) /\
     pool_life p' = pool_life p /\ pool_objs p' = pool_objs p /\
     (p' = MkPool (pool_bits p') (pool_table p) (pool_size p) (pool_life p) (pool_objs p) \/
      pool_size p' = pool_size p + 8 /\ id = pool_size p /\
      pool_table p' = pool_table p ++ replicate 8 0)) \/
  ((forall j, 0 <= j < pool_size p -> id_used p j = true) /\
   (pool_max cfg <= pool_size p /\
      get_unused_id cfg m_self m_arr m_tab p = Ret (- AOSL_EOVERFLOW, p) \/
    pool_size p < pool_max cfg /\
      (pool_size p = 248 \/ m_self && m_arr && m_tab = false) /\
      get_unused_id cfg m_self m_arr m_tab p = Ret (- AOSL_ENOMEM, p))).
Proof.
  intros Hp. pose proof (pool_size_bound p Hp) as Hsz.
  pose proof Hp as (bm & Hb & Hwf & Hc & Hl & Hm & Hlife & Ht).
  destruct (bitmap_find_first_zero_bit_ok bm Hwf) as (r & Hr & Hz).
  unfold get_unused_id, id_used. run. rewrite Hb, Hr. run.
  destruct Hz as [[-> Hfull]|(Hr' & Hfree & Hbelow)].
  2: { (* a free slot *)
    left. destruct (Z.ltb_spec r 0); [lia|].
    destruct (bitmap_set_ok bm r Hwf Hr') as (bm' & -> & Hwf' & Hc' & Ht').
    exists r. eexists. split; [done|].
    split_and!; try done; cbn; try lia; [|by left].
    eapply pool_wf_bits; eauto. }
  (* all slots in use *)
  replace (-1 <? 0) with true by done. rewrite Hc in Hfull.
  destruct (Z.leb_spec (pool_max cfg) (pool_size p)); [right; split; [done|by left]|].
  destruct (Z.eq_dec (pool_size p) 248) as [He|].
  { right. split; [done|]. right. split; [done|]. split; [by left|].
    unfold bitmap_create. rewrite He. done. }
  destruct (m_self && m_arr && m_tab) eqn:Em.
  2: { right. split; [done|]. right. split; [done|]. split; [by right|].
    unfold bitmap_create. rewrite wrapu_id by lia. bdestruct_all; [done|].
    by destruct m_self, m_arr, m_tab. }
  apply andb_prop in Em as [Em ->]. apply andb_prop in Em as [-> ->]. left.
  destruct (bitmap_create_ok (pool_size p + 8)) as (nb & -> & Hnwf & Hnc & _);
    [Z.div_mod_to_equations; lia|]. cbn [negb].
  destruct (bitmap_copy_ok nb bm Hnwf Hwf ltac:(lia)) as (bits & -> & Hbwf & Hbc & Hbt).
  run. unfold grow_table. rewrite leb_correct, take_ge by lia. run.
  replace (pool_size p + 8 - pool_size p) with 8 by lia.
  destruct (bitmap_find_first_zero_bit_ok bits Hbwf) as (r & -> & Hz). run.
  assert (Hrs : r = pool_size p).
  { assert (Hnew : test bits (pool_size p) = false).
    { rewrite Hbt by lia. apply Hwf. lia. }
    destruct Hz as [[-> Ha]|(Hr1 & Hr2 & Hr3)].
    - rewrite Ha in Hnew; [done|lia].
    - destruct (Z.lt_trichotomy r (pool_size p)) as [Hlt|[->|Hgt]]; [|done|].
      + rewrite Hbt, Hfull in Hr2; [done|lia|lia].
      + rewrite Hr3 in Hnew; [done|lia]. }
  subst r. destruct (Z.ltb_spec (pool_size p) 0); [lia|].
  destruct (bitmap_set_ok bits (pool_size p) Hbwf ltac:(lia)) as (bm' & -> & Hwf' & Hc' & Ht').
  exists (pool_size p). eexists. split; [done|].
  assert (Hg := pool_wf_grow p bm bits _ Hp Hb Hbwf ltac:(lia) Hbt eq_refl).
  split_and!; try done; cbn; try lia.
  - exact (pool_wf_bits _ bits bm' (pool_size p) true Hg eq_refl Hwf' Hc' Ht' (or_introl eq_refl)).
  - apply Hwf. lia.
  - intros j Hj. rewrite Ht' by lia. by rewrite Hbt.
  - right. done.
Qed.

Lemma put_unused_id_ok p id :
  pool_wf p -> 0 <= id < pool_size p ->
  (forall o, pool_table p !! Z.to_nat id = Some o -> o = 0) ->
  exists p', put_unused_id id p = Ret (tt, p') /\ pool_wf p' /\
    pool_size p' = pool_size p /\ pool_table p' = pool_table p /\
    pool_life p' = pool_life p /\ pool_objs p' = pool_objs p /\
    forall j, 0 <= j -> id_used p' j = if j =? id then false else id_used p j.
Proof.
  intros Hp Hid Hnone. pose proof Hp as (bm & Hb & Hwf & Hc & _).
  destruct (bitmap_clear_ok bm id Hwf ltac:(lia)) as (bm' & Hcl & Hwf' & Hc' & Ht').
  eexists. unfold put_unused_id, id_used. run.
  destruct (Z.ltb_spec id 0), (Z.leb_spec (pool_size p) id); try lia. cbn [orb].
  rewrite Hb, Hcl. run. split; [done|]. split_and!; try done.
  eapply pool_wf_bits; eauto.
Qed.

Lemma table_at_ok p i : pool_wf p -> 0 <= i < pool_size p ->
  exists o, pool_table p !! Z.to_nat i = Some o /\ table_at (pool_table p) i = Ret o.
Proof.
  intros (bm & _ & _ & _ & Hl & _) Hi.
  destruct (lookup_lt_is_Some_2 (pool_table p) (Z.to_nat i)) as [o Ho]; [lia|].
  exists o. split; [done|]. unfold table_at. by rewrite Ho.
Qed.

Section Table.
Context (cfg : pool_cfg) `{!HandleConv cfg}.

Lemma id_install_ok p id obj :
  pool_wf p -> 0 <= id < pool_size p -> id_used p id = true ->
  pool_table p !! Z.to_nat id = Some 0 -> obj <> 0 -> obj ∉ pool_table p ->
  id_install cfg id obj p = Ret (tt, MkPool (pool_bits p) (<[Z.to_nat id := obj]> (pool_table p))
     (pool_size p) (next_life (pool_life p))
     (<[obj := make_obj_id cfg id (pool_life p)]> (pool_objs p))) /\
  pool_wf (MkPool (pool_bits p) (<[Z.to_nat id := obj]> (pool_table p))
     (pool_size p) (next_life (pool_life p))
     (<[obj := make_obj_id cfg id (pool_life p)]> (pool_objs p))).
Proof.
  intros Hp Hid Hu Hslot Hobj Hfresh. pose proof (pool_size_bound p Hp).
  split.
  - unfold id_install. run. bdestruct_all; try lia.
    unfold table_at. rewrite Hslot. done.
  - destruct Hp as (bm & Hb & Hwf & Hc & Hl & Hm & Hlife & Ht). exists bm. cbn.
    rewrite length_insert. split_and!; try done; try (apply next_life_range; lia).
    intros i o Hi Ho. apply list_lookup_insert_Some in Hi as [(<- & <- & _)|[Hne Hi]].
    + rewrite Z2Nat.id by lia. split; [unfold id_used in Hu; by rewrite Hb in Hu|].
      eexists. rewrite lookup_insert_eq. split; [done|]. apply get_id_make; [done|lia..].
    + destruct (Ht i o Hi Ho) as [? (oid & Hoid & Hgid)]. split; [done|].
      exists oid. rewrite lookup_insert_ne; [done|]. intros ->.
      apply Hfresh, list_elem_of_lookup. by exists i.
Qed.

Lemma id_uninstall_ok p id obj :
  pool_wf p -> 0 <= id < pool_size p ->
  exists r p', id_uninstall id obj p = Ret (r, p') /\ pool_wf p' /\
    (r = 0 /\ pool_table p !! Z.to_nat id = Some obj /\
       p' = MkPool (pool_bits p) (<[Z.to_nat id := 0]> (pool_table p)) (pool_size p)
              (pool_life p) (pool_objs p) \/
     r = - AOSL_EINVAL /\ pool_table p !! Z.to_nat id <> Some obj /\ p' = p).
Proof.
  intros Hp Hid. destruct (table_at_ok p id Hp Hid) as (o & Ho & Hat).
  unfold id_uninstall. run. bdestruct_all; try lia. rewrite Hat.
  destruct (Z.eqb_spec o obj) as [->|Hne].
  - do 2 eexists. split; [done|]. split; [|left; done].
    destruct Hp as (bm & Hb & Hwf & Hc & Hl & Hm & Hlife & Ht). exists bm. cbn.
    rewrite length_insert. split_and!; try done; try lia.
    intros i o' Hi Ho'. apply list_lookup_insert_Some in Hi as [(_ & <- & _)|[_ Hi]]; [done|].
    by apply Ht.
  - do 2 eexists. split; [done|]. split; [done|]. right. split_and!; [done| |done].
    rewrite Ho. congruence.
Qed.

(** Looking a handle up never fails and finds exactly the object that
    carries it. *)
Lemma id_lookup_ok p h :
  pool_wf p ->
  exists o, id_lookup h p = Ret (o, p) /\
    (o <> 0 <-> exists i o', pool_table p !! i = Some o' /\ o' <> 0 /\ pool_objs p !! o' = Some h) /\
    (o <> 0 -> pool_table p !! Z.to_nat (get_id h) = Some o /\ 0 <= get_id h /\
       pool_objs p !! o = Some h).
Proof.
  intros Hp. pose proof (pool_size_bound p Hp).
  pose proof Hp as (bm & Hb & Hwf & Hc & Hl & Hm & Hlife & Ht).
  assert (Hnone : (get_id h < 0 \/ pool_size p <= get_id h) ->
    ~ exists i o', pool_table p !! i = Some o' /\ o' <> 0 /\ pool_objs p !! o' = Some h).
  { intros Hr (i & o' & Hi & Ho' & Hoid). destruct (Ht i o' Hi Ho') as [_ (oid & Hoid' & Hg)].
    rewrite Hoid in Hoid'. injection Hoid' as <-. apply lookup_lt_Some in Hi. lia. }
  unfold id_lookup. run. destruct (Z.ltb_spec (get_id h) 0);
    [|destruct (Z.ltb_spec (get_id h) (pool_size p))].
  1, 3: exists 0; split; [done|]; split; [|done]; split; [done|];
    intros Hex; exfalso; apply Hnone in Hex; [done|lia].
  destruct (table_at_ok p (get_id h) Hp ltac:(lia)) as (o & Ho & ->).
  assert (Hslot : forall i o', pool_table p !! i = Some o' -> o' <> 0 ->
    pool_objs p !! o' = Some h -> o' = o).
  { intros i o' Hi Ho' Hoid. destruct (Ht i o' Hi Ho') as [_ (oid & Hoid' & Hg)].
    rewrite Hoid in Hoid'. injection Hoid' as <-. rewrite Hg, Nat2Z.id in Ho. congruence. }
  destruct (Z.eqb_spec o 0) as [->|Ho0].
  { exists 0. split; [done|]. split; [|done]. split; [done|].
    intros (i & o' & Hi & Ho' & Hoid). by rewrite (Hslot i o' Hi Ho' Hoid) in Ho'. }
  destruct (Ht _ _ Ho Ho0) as [_ (oid & Hoid & _)]. rewrite Hoid.
  destruct (Z.eqb_spec oid h) as [->|Hne].
  - exists o. split; [done|]. split; [|done]. split; [|done]. intros _. by exists (Z.to_nat (get_id h)), o.
  - exists 0. split; [done|]. split; [|done]. split; [done|].
    intros (i & o' & Hi & Ho' & Hoid'). rewrite (Hslot i o' Hi Ho' Hoid') in Hoid'. congruence.
Qed.

(** ** Sequences of operations *)

(** The calls the three components make on a table, in any order: an object
    is installed in a slot reserved by [get_unused_id] and not yet filled,
    under a pointer that is not installed; an id is given back when its
    slot is empty.  The number counts the installs. *)
Inductive pool_steps : nat -> id_pool -> id_pool -> Prop :=
| ps_refl p : pool_steps 0 p p
| ps_get n p p1 p2 m_self m_arr m_tab r :
    pool_steps n p p1 -> get_unused_id cfg m_self m_arr m_tab p1 = Ret (r, p2) ->
    pool_steps n p p2
| ps_install n p p1 p2 id obj :
    pool_steps n p p1 -> 0 <= id -> id_used p1 id = true -> obj <> 0 -> obj ∉ pool_table p1 ->
    id_install cfg id obj p1 = Ret (tt, p2) -> pool_steps (S n) p p2
| ps_uninstall n p p1 p2 id obj r :
    pool_steps n p p1 -> obj <> 0 -> id_uninstall id obj p1 = Ret (r, p2) ->
    pool_steps n p p2
| ps_put n p p1 p2 id :
    pool_steps n p p1 -> pool_table p1 !! Z.to_nat id = Some 0 ->
    put_unused_id id p1 = Ret (tt, p2) -> pool_steps n p p2.

(** What [id_install] did when it returned. *)
Lemma id_install_inv p id obj p' :
  pool_wf p -> id_install cfg id obj p = Ret (tt, p') -> 
  0 <= id < pool_size p /\ pool_table p !! Z.to_nat id = Some 0.
Proof.
  intros Hp. unfold id_install. run. bdestruct_all; try done.
  unfold table_at. destruct (pool_table p !! Z.to_nat id) as [o|]; [|done].
  destruct (Z.eqb_spec o 0) as [->|]; [|done]. intros _. done.
Qed.

Lemma id_uninstall_inv p id obj r p' :
  id_uninstall id obj p = Ret (r, p') -> 0 <= id < pool_size p.
Proof. unfold id_uninstall. run. bdestruct_all; try done. Qed.

Lemma put_unused_id_inv p id p' :
  put_unused_id id p = Ret (tt, p') -> 0 <= id < pool_size p.
Proof.
  unfold put_unused_id. run.
  destruct (Z.ltb_spec id 0), (Z.leb_spec (pool_size p) id); done.
Qed.

(** The invariant and, for one slot that was empty at the start, the life
    ids of what it may hold now. *)
Lemma pool_steps_inv n p p' i :
  pool_steps n p p' -> pool_wf p -> 
  (pool_table p !! i = Some 0 \/ pool_table p !! i = None) ->
  pool_wf p' /\ pool_life p' = Nat.iter n next_life (pool_life p) /\
  (forall o, pool_table p' !! i = Some o -> o <> 0 ->
     exists j, (j < n)%nat /\
       pool_objs p' !! o = Some (make_obj_id cfg (Z.of_nat i) (Nat.iter j next_life (pool_life p)))).
Proof.
  intros Hs Hp Hi. induction Hs as [p|n p p1 p2 ma mb mc r Hs IH Hg|n p p1 p2 id obj Hs IH Hid Hu Ho Hf Hin
    |n p p1 p2 id obj r Hs IH Ho Hun|n p p1 p2 id Hs IH Hnone Hput].
  { split_and!; try done. intros o Ho Hne. destruct Hi; congruence. }
  all: destruct (IH Hp Hi) as (Hp1 & Hl1 & Ht1); clear IH.
  - destruct (get_unused_id_cases cfg ma mb mc p1 Hp1) as
      [(id & p2' & Hg' & Hwf2 & _ & _ & _ & _ & Hl2 & Hob2 & Htab)|[_ [[_ Hg']|[_ [_ Hg']]]]];
      rewrite Hg in Hg'; injection Hg' as -> ->; [|done..].
    split; [done|]. rewrite Hl2, Hob2. split; [done|]. intros o Hoi Hne.
    apply Ht1; [|done]. destruct Htab as [Htab|(_ & _ & Htab)]; [by rewrite Htab in Hoi|].
    rewrite Htab in Hoi. apply lookup_app_Some in Hoi as [|[_ Hoi]]; [done|].
    by apply (lookup_replicate 8 0) in Hoi as [-> _].
  - destruct (id_install_inv _ _ _ _ Hp1 Hin) as [Hr Hslot].
    destruct (id_install_ok p1 id obj Hp1 Hr Hu Hslot Ho Hf) as [Hin' Hwf2].
    rewrite Hin in Hin'. injection Hin' as ->. split; [done|]. cbn [pool_life pool_table pool_objs].
    rewrite Hl1. split; [done|]. intros o Hoi Hne.
    apply list_lookup_insert_Some in Hoi as [(<- & <- & _)|[Hdi Hoi]].
    + exists n. split; [lia|]. rewrite lookup_insert_eq, Z2Nat.id by lia. done.
    + destruct (Ht1 o Hoi Hne) as (j & Hj & Hoid). exists j. split; [lia|].
      rewrite lookup_insert_ne; [done|]. intros ->. apply Hf, list_elem_of_lookup. by exists i.
  - destruct (id_uninstall_ok p1 id obj Hp1 (id_uninstall_inv _ _ _ _ _ Hun))
      as (r' & p2' & Hun' & Hwf2 & Hcase).
    rewrite Hun in Hun'. injection Hun' as -> ->. split; [done|].
    destruct Hcase as [(_ & _ & ->)|(_ & _ & ->)]; cbn; (split; [done|]); [|done].
    intros o Hoi Hne. apply list_lookup_insert_Some in Hoi as [(_ & <- & _)|[_ Hoi]]; [done|].
    by apply Ht1.
  - destruct (put_unused_id_ok p1 id Hp1 (put_unused_id_inv _ _ _ Hput)) as
      (p2' & Hput' & Hwf2 & _ & Ht2 & Hl2 & Ho2 & _); [congruence|].
    rewrite Hput in Hput'. injection Hput' as ->. split; [done|].
    rewrite Ht2, Hl2, Ho2. done.
Qed.

End Table.

(** ** The three tables *)

Definition TIMER_ID_POOL_MAX_SIZE : Z := 20480.
Definition REFOBJ_ID_POOL_MAX_SIZE : Z := 20480.
Definition MPQ_ID_POOL_MAX_SIZE : Z := 2048.

(** [aosl_timer_t] and [aosl_ref_t] are [int], [aosl_mpq_t] is [intptr_t]. *)
Definition timer_cfg : pool_cfg := MkCfg TIMER_ID_POOL_MAX_SIZE s32.
Definition refobj_cfg : pool_cfg := MkCfg REFOBJ_ID_POOL_MAX_SIZE s32.
Definition mpq_cfg : pool_cfg := MkCfg MPQ_ID_POOL_MAX_SIZE s64.

Lemma s32_conv max : HandleConv (MkCfg max s32).
Proof.
  intros x Hx. cbn. rewrite wraps_mod by lia. by apply Z.mod_small.
Qed.
#[export] Instance timer_conv : HandleConv timer_cfg := s32_conv _.
#[export] Instance refobj_conv : HandleConv refobj_cfg := s32_conv _.
#[export] Instance mpq_conv : HandleConv mpq_cfg.
Proof. intros x Hx. cbn. rewrite wraps_id by lia. by apply Z.mod_small. Qed.

(** [kernel/timer.c]. *)
Definition k_timer_init m_self m_arr m_tab life objs := pool_init m_self m_arr m_tab life objs.
Definition get_unused_timer_id m_self m_arr m_tab := get_unused_id timer_cfg m_self m_arr m_tab.
Definition __put_unused_timer_id (id : Z) := put_unused_id id.
Definition make_timer_obj_id (id life : Z) := make_obj_id timer_cfg id life.
Definition get_timer_id (obj_id : Z) := get_id obj_id.
Definition get_timer_life_id (obj_id : Z) := get_life_id obj_id.
Definition __timer_id_install (id timer : Z) := id_install timer_cfg id timer.
Definition __timer_id_uninstall (id timer : Z) := id_uninstall id timer.

(** [kernel/refobj.c]. *)
Definition k_refobj_init m_self m_arr m_tab life objs := pool_init m_self m_arr m_tab life objs.
Definition get_unused_refobj_id m_self m_arr m_tab := get_unused_id refobj_cfg m_self m_arr m_tab.
Definition __put_unused_refobj_id (id : Z) := put_unused_id id.
Definition make_ref_obj_id (id life : Z) := make_obj_id refobj_cfg id life.
Definition get_ref_id (obj_id : Z) := get_id obj_id.
Definition get_ref_life_id (obj_id : Z) := get_life_id obj_id.
Definition __refobj_id_install (id obj : Z) := id_install refobj_cfg id obj.
Definition __refobj_id_uninstall (id obj : Z) := id_uninstall id obj.

(** [kernel/mpq.c], which also counts the queues in [__mpq_count]. *)
Record mpq_pool := MkMpqPool {
  mpq_ids : id_pool;
  __mpq_count : Z
}.

Definition mpq_init m_self m_arr m_tab life objs : res mpq_pool :=
  match pool_init m_self m_arr m_tab life objs with
  | Ret p => Ret (MkMpqPool p 0)
  | _ => Abort
  end.

(** Run an operation of the table inside the larger state. *)
Definition on_ids {A} (c : CM id_pool A) : CM mpq_pool A := fun s =>
  match c (mpq_ids s) with
  | Ret (a, p) => Ret (a, MkMpqPool p (__mpq_count s))
  | Abort => Abort
  | Fault => Fault
  | NoFuel => NoFuel
  end.

Definition get_unused_mpq_id (m_self m_arr m_tab : bool) : CM mpq_pool Z :=
  do id <- on_ids (get_unused_id mpq_cfg m_self m_arr m_tab);
  do s <- cget;
  when 0 <=? id then cput (MkMpqPool (mpq_ids s) (u64 (__mpq_count s + 1))) ;;
  cret id.

Definition __put_unused_mpq_id (id : Z) : CM mpq_pool unit :=
  on_ids (put_unused_id id) ;;
  do s <- cget;
  cput (MkMpqPool (mpq_ids s) (u64 (__mpq_count s - 1))).

Definition make_mpq_obj_id (id life : Z) := make_obj_id mpq_cfg id life.
Definition get_mpq_id (obj_id : Z) := get_id obj_id.
Definition get_mpq_life_id (obj_id : Z) := get_life_id obj_id.
Definition __mpq_id_install (id q : Z) := on_ids (id_install mpq_cfg id q).
Definition __mpq_id_uninstall (id q : Z) := on_ids (id_uninstall id q).

(** ** Theorems *)

Lemma pool_init_wf life objs p :
  1 <= life < 2 ^ 16 -> pool_init true true true life objs = Ret p -> pool_wf p.
Proof.
  intros Hlife. unfold pool_init.
  destruct (bitmap_create_ok 8 ltac:(lia)) as (bm & -> & Hwf & Hc & _).
  intros [= <-]. exists bm. cbn [pool_bits pool_table pool_size pool_life pool_objs]. split_and!; try done; try lia.
  intros i o Hi Ho. by apply (lookup_replicate 8 0) in Hi as [-> _].
Qed.

(** The state after [n] calls of [get_unused_timer_id] from the initial
    table, all allocations succeeding. *)
Fixpoint take_timer_ids (n : nat) (p : id_pool) : res id_pool :=
  match n with
  | O => Ret p
  | S n' =>
    match get_unused_timer_id true true true p with
    | Ret (_, p') => take_timer_ids n' p'
    | _ => Fault
    end
  end.

Lemma take_timer_ids_wf n p p' : pool_wf p -> take_timer_ids n p = Ret p' -> pool_wf p'.
Proof.
  revert p. induction n as [|n IH]; intros p Hp; cbn [take_timer_ids]; [by intros [= <-]|].
  destruct (get_unused_id_cases timer_cfg true true true p Hp) as
    [(id & p1 & Hg & Hwf & _)|[_ [[_ Hg]|[_ [_ Hg]]]]];
    unfold get_unused_timer_id; rewrite Hg; by apply IH.
Qed.

Definition demo_pool (n : nat) : id_pool :=
  match pool_init true true true 1 ∅ with
  | Ret p => match take_timer_ids n p with Ret p' => p' | _ => p end
  | _ => MkPool None [] 0 0 ∅
  end.

Lemma demo_pool_wf n : pool_wf (demo_pool n).
Proof.
  unfold demo_pool. destruct (pool_init true true true 1 ∅) as [p| | |] eqn:Hi; try done.
  assert (pool_wf p) by (eapply pool_init_wf; [|done]; lia).
  destruct (take_timer_ids n p) eqn:Ht; try done. by eapply take_timer_ids_wf.
Qed.

(** Every id that [get_unused_timer_id] hands out was free, is the lowest
    free one, is in use afterwards with no other id affected, and the table
    stays consistent; no outcome other than such an id, [-AOSL_EOVERFLOW] or
    [-AOSL_ENOMEM] with the table unchanged is possible. *)
Theorem get_unused_timer_id_fresh (p : id_pool) (m_self m_arr m_tab : bool) (Hp : pool_wf p) :
  exists r p', get_unused_timer_id m_self m_arr m_tab p = Ret (r, p') /\ pool_wf p' /\
    ((0 <= r < pool_size p' /\ id_used p r = false /\ id_used p' r = true /\
      (forall j, 0 <= j < r -> id_used p j = true) /\
      (forall j, 0 <= j -> j <> r -> id_used p' j = id_used p j)) \/
     ((r = - AOSL_EOVERFLOW \/ r = - AOSL_ENOMEM) /\ p' = p)).
Proof.
  destruct (get_unused_id_cases timer_cfg m_self m_arr m_tab p Hp) as
    [(id & p' & Hg & Hwf & Hid & Hfree & Hset & Hlow & _)|[_ [[_ Hg]|[_ [_ Hg]]]]];
    unfold get_unused_timer_id; rewrite Hg; do 2 eexists; (split; [done|]); (split; [done|]).
  - left. split_and!; try done; try lia.
    + rewrite Hset by lia. by rewrite Z.eqb_refl.
    + intros j Hj Hne. rewrite Hset by done. by destruct (Z.eqb_spec j id).
  - right. auto.
  - right. auto.
Qed.

Lemma get_unused_timer_id_fresh_witness :
  exists r p', get_unused_timer_id true true true (demo_pool 8) = Ret (r, p') /\ pool_wf p' /\
    ((0 <= r < pool_size p' /\ id_used (demo_pool 8) r = false /\ id_used p' r = true /\
      (forall j, 0 <= j < r -> id_used (demo_pool 8) j = true) /\
      (forall j, 0 <= j -> j <> r -> id_used p' j = id_used (demo_pool 8) j)) \/
     ((r = - AOSL_EOVERFLOW \/ r = - AOSL_ENOMEM) /\ p' = demo_pool 8)).
Proof. exact (get_unused_timer_id_fresh (demo_pool 8) true true true (demo_pool_wf 8)). Defined.

(** The table of timers never has more than 248 slots, and once 248 ids
    are in use [get_unused_timer_id] fails with [-AOSL_ENOMEM] however much
    memory there is, because [bitmap_create] takes its bit count as a
    [uint8_t]; the declared limit of 20480 is out of reach. *)
Theorem timer_id_capacity (p : id_pool) (Hp : pool_wf p) :
  pool_size p <= 248 < TIMER_ID_POOL_MAX_SIZE /\
  ((forall j, 0 <= j < 248 -> id_used p j = true) ->
   forall m_self m_arr m_tab, get_unused_timer_id m_self m_arr m_tab p = Ret (- AOSL_ENOMEM, p)).
Proof.
  pose proof (pool_size_bound p Hp) as Hsz. split; [unfold TIMER_ID_POOL_MAX_SIZE; lia|].
  intros Hfull m_self m_arr m_tab.
  assert (Hbeyond : forall j, pool_size p <= j -> id_used p j = false).
  { destruct Hp as (bm & Hb & Hwf & Hc & _). unfold id_used. rewrite Hb.
    intros j Hj. apply Hwf. lia. }
  destruct (get_unused_id_cases timer_cfg m_self m_arr m_tab p Hp) as
    [(id & p' & Hg & Hwf & Hid & Hfree & _ & _ & _ & _ & Hcase)|[_ [[Hmax _]|[_ [_ Hg]]]]]; [|cbn in Hmax|done].
  - exfalso. pose proof (pool_size_bound p' Hwf). rewrite Hfull in Hfree; [done|].
    destruct Hcase as [Hp'|(Hs & -> & _)]; [rewrite Hp' in Hid; cbn in Hid; lia|lia].
  - unfold TIMER_ID_POOL_MAX_SIZE in Hmax. lia.
Qed.

Lemma timer_id_capacity_witness :
  get_unused_timer_id true true true (demo_pool 248) = Ret (- AOSL_ENOMEM, demo_pool 248).
Proof.
  apply (proj2 (timer_id_capacity (demo_pool 248) (demo_pool_wf 248))).
  intros j Hj. replace j with (Z.of_nat (Z.to_nat j)) by lia.
  assert (Hall : forallb (fun n => id_used (demo_pool 248) (Z.of_nat n)) (seq 0 248) = true)
    by (vm_compute; reflexivity).
  rewrite forallb_forall in Hall. apply Hall, in_seq. lia.
Defined.

(** [timer_get]'s lookup in the table. *)
Definition timer_lookup (obj_id : Z) := id_lookup obj_id.

(** The lookup of a handle never fails and returns NULL exactly when no
    installed object carries the handle; otherwise it returns the installed
    object that carries it, found in the slot the handle names. *)
Theorem timer_lookup_exact (p : id_pool) (h : Z) (Hp : pool_wf p) :
  exists o, timer_lookup h p = Ret (o, p) /\
    (o = 0 <-> forall i o', pool_table p !! i = Some o' -> o' <> 0 -> pool_objs p !! o' <> Some h) /\
    (o <> 0 -> pool_table p !! Z.to_nat (get_timer_id h) = Some o /\ pool_objs p !! o = Some h).
Proof.
  destruct (id_lookup_ok p h Hp) as (o & Ho & Hiff & Hne). exists o. split; [done|]. split.
  - split.
    + intros -> i o' Hi Ho' Hoid. assert (0 <> 0) by (apply Hiff; by exists i, o'). done.
    + intros Hnone. destruct (Z.eq_dec o 0) as [|Hn]; [done|].
      apply Hiff in Hn as (i & o' & Hi & Ho' & Hoid). by destruct (Hnone i o').
  - intros Hn. destruct (Hne Hn) as (? & _ & ?). done.
Qed.

(** A table with one timer at address 4096, handle 65536. *)
Definition demo_installed : id_pool :=
  match __timer_id_install 0 4096 (demo_pool 1) with Ret (_, p) => p | _ => demo_pool 0 end.

Lemma demo_installed_wf : pool_wf demo_installed.
Proof.
  assert (Hslot : pool_table (demo_pool 1) = replicate 8 0) by (vm_compute; reflexivity).
  destruct (id_install_ok timer_cfg (demo_pool 1) 0 4096) as [Hi Hwf].
  - apply demo_pool_wf.
  - vm_compute. done.
  - vm_compute. done.
  - by rewrite Hslot.
  - done.
  - not_in_list.
  - unfold demo_installed, __timer_id_install. rewrite Hi. exact Hwf.
Qed.

Lemma timer_lookup_exact_witness :
  exists o, timer_lookup 65536 demo_installed = Ret (o, demo_installed) /\
    (o = 0 <-> forall i o', pool_table demo_installed !! i = Some o' -> o' <> 0 ->
       pool_objs demo_installed !! o' <> Some 65536) /\
    (o <> 0 -> pool_table demo_installed !! Z.to_nat (get_timer_id 65536) = Some o /\
       pool_objs demo_installed !! o = Some 65536).
Proof. exact (timer_lookup_exact demo_installed 65536 demo_installed_wf). Defined.

(** A handle that was issued for slot [i] and whose object has been
    uninstalled ([p2] has the slot empty) is rejected by every later lookup,
    whatever is allocated, installed and freed in between, as long as fewer
    than 65535 objects were installed since the handle was issued. *)
Theorem stale_timer_handle_rejected (p0 p2 p3 : id_pool) (i : Z) (n m : nat)
  (Hp : pool_wf p0) (Hi : 0 <= i < pool_size p0)
  (Hs1 : pool_steps timer_cfg n p0 p2) (Hn : (1 <= n)%nat)
  (Hfree : pool_table p2 !! Z.to_nat i = Some 0)
  (Hs2 : pool_steps timer_cfg m p2 p3) (Hm : (Z.of_nat (n + m) < 2 ^ 16 - 1)) :
  timer_lookup (make_timer_obj_id i (pool_life p0)) p3 = Ret (0, p3).
Proof.
  pose proof (pool_size_bound p0 Hp). pose proof Hp as (_ & _ & _ & _ & _ & _ & Hl0 & _).
  destruct (pool_steps_inv timer_cfg n p0 p2 (length (pool_table p0)) Hs1 Hp) as (Hp2 & Hl2 & _).
  { right. apply lookup_ge_None_2. done. }
  destruct (pool_steps_inv timer_cfg m p2 p3 (Z.to_nat i) Hs2 Hp2) as (Hp3 & _ & Hslot); [by left|].
  destruct (id_lookup_ok p3 (make_timer_obj_id i (pool_life p0)) Hp3) as (o & Ho & _ & Hne).
  unfold timer_lookup. rewrite Ho. destruct (Z.eq_dec o 0) as [->|Hn0]; [done|]. exfalso.
  destruct (Hne Hn0) as (Htab & _ & Hoid). unfold make_timer_obj_id in *.
  rewrite get_id_make in Htab by (apply _ || lia).
  destruct (Hslot o Htab Hn0) as (j & Hj & Hoid'). rewrite Hoid, Hl2, <-Nat.iter_add in Hoid'.
  assert (He : make_obj_id timer_cfg i (pool_life p0) =
    make_obj_id timer_cfg (Z.of_nat (Z.to_nat i)) (Nat.iter (j + n) next_life (pool_life p0)))
    by congruence. destruct (iter_next_life (j + n) (pool_life p0) Hl0) as [Hr _].
  apply make_obj_id_inj in He as [_ He]; [|apply _|lia..].
  by apply (iter_next_life_ne (j + n) (pool_life p0)); [done|lia|].
Qed.

(** The table of the witness: id 0 reserved, the timer installed, then
    uninstalled, then another timer installed in the same slot. *)
Definition demo_uninstalled : id_pool :=
  match __timer_id_uninstall 0 4096 demo_installed with Ret (_, p) => p | _ => demo_pool 0 end.
Definition demo_reinstalled : id_pool :=
  match __timer_id_install 0 8192 demo_uninstalled with Ret (_, p) => p | _ => demo_pool 0 end.

Lemma stale_timer_handle_rejected_witness :
  timer_lookup (make_timer_obj_id 0 (pool_life (demo_pool 1))) demo_reinstalled = Ret (0, demo_reinstalled).
Proof.
  apply (stale_timer_handle_rejected (demo_pool 1) demo_uninstalled demo_reinstalled 0 1 1).
  - apply demo_pool_wf.
  - vm_compute; split; congruence.
  - eapply (ps_uninstall _ _ _ demo_installed _ 0 4096 0); [|lia|vm_compute; reflexivity].
    eapply (ps_install _ _ _ (demo_pool 1) _ 0 4096); [constructor|lia|vm_compute; reflexivity|lia| |vm_compute; reflexivity].
    not_in_list.
  - lia.
  - vm_compute. reflexivity.
  - eapply (ps_install _ _ _ demo_uninstalled _ 0 8192); [constructor|lia|vm_compute; reflexivity|lia| |vm_compute; reflexivity].
    not_in_list.
  - lia.
Defined.

(** From the table [k_timer_init] sets up, every sequence of operations
    keeps the bitmap, the table and the handles of the installed timers
    consistent, and the life id is the number of installs counted in the
    cycle 1 .. 65535 (0 is never used). *)
Theorem timer_table_invariant (life : Z) (objs : gmap Z Z) (p p' : id_pool) (n : nat)
  (Hlife : 1 <= life < 2 ^ 16) (Hinit : k_timer_init true true true life objs = Ret p)
  (Hs : pool_steps timer_cfg n p p') :
  pool_wf p' /\ pool_life p' = 1 + (life - 1 + Z.of_nat n) mod 65535.
Proof.
  assert (Hp : pool_wf p) by (by eapply pool_init_wf).
  assert (Hpl : pool_life p = life).
  { revert Hinit. unfold k_timer_init, pool_init. destruct (bitmap_create _ _ _); [|done].
    by intros [= <-]. }
  destruct (pool_steps_inv timer_cfg n p p' (length (pool_table p)) Hs Hp) as (Hp' & Hl & _).
  { right. apply lookup_ge_None_2. done. }
  split; [done|]. rewrite Hl, Hpl. destruct (iter_next_life n life Hlife) as [_ He].
  change (2 ^ 16 - 1) with 65535 in He. lia.
Qed.

Lemma timer_table_invariant_witness :
  pool_wf demo_reinstalled /\ pool_life demo_reinstalled = 1 + (1 - 1 + Z.of_nat 2) mod 65535.
Proof.
  eapply (timer_table_invariant 1 ∅ (demo_pool 0) demo_reinstalled 2); [lia|vm_compute; reflexivity|].
  eapply (ps_install _ _ _ demo_uninstalled _ 0 8192); [|lia|vm_compute; reflexivity|lia| |vm_compute; reflexivity].
  2: not_in_list.
  eapply (ps_uninstall _ _ _ demo_installed _ 0 4096 0); [|lia|vm_compute; reflexivity].
  eapply (ps_install _ _ _ (demo_pool 1) _ 0 4096); [|lia|vm_compute; reflexivity|lia| |vm_compute; reflexivity].
  2: not_in_list.
  eapply (ps_get _ _ _ (demo_pool 0) _ true true true 0); [constructor|vm_compute; reflexivity].
Defined.
