(* ===== verification/RbTree.v ===== *)
(** * Red-black trees: [lib/rbtree.c]

    The intrusive tree every index of the library is built on.  Nodes live in
    a memory that maps addresses to [struct aosl_rb_node]; each operation is
    the sequence of loads and stores of the C code, including the parent
    pointer and the colour packed in one word.  Loops take fuel. *)
From S2P Require Import Prelude.
#[local] Open Scope aosl_scope.

(** ** Data *)

(** [struct aosl_rb_node]; a pointer is an address, 0 is NULL. *)
Record aosl_rb_node := MkNode {
  rb_parent_color : Z;
  rb_right : Z;
  rb_left : Z
}.

#[export] Instance aosl_rb_node_eq_dec : EqDecision aosl_rb_node.
Proof. solve_decision. Defined.

(** Memory, with [struct aosl_rb_root]: [rb_node] and [count].  The third
    field [rb_cmp] of the root is a parameter of the functions that call it. *)
Record rbst := MkRb {
  mem : gmap Z aosl_rb_node;
  root : Z;
  count : Z
}.

Definition AOSL_RB_RED : Z := 0.
Definition AOSL_RB_BLACK : Z := 1.

(** ** Loads and stores *)

(** [*r]: a fault unless [r] designates a node. *)
Definition load (r : Z) : CM rbst aosl_rb_node :=
  do s <- cget;
  match mem s !! r with Some n => cret n | None => cfault end.

Definition store (r : Z) (n : aosl_rb_node) : CM rbst unit :=
  do s <- cget;
  match mem s !! r with
  | Some _ => cput (MkRb (<[r := n]> (mem s)) (root s) (count s))
  | None => cfault
  end.

Definition set_left (r p : Z) : CM rbst unit :=
  do n <- load r; store r (MkNode (rb_parent_color n) (rb_right n) p).
Definition set_right (r p : Z) : CM rbst unit :=
  do n <- load r; store r (MkNode (rb_parent_color n) p (rb_left n)).
Definition set_pc (r w : Z) : CM rbst unit :=
  do n <- load r; store r (MkNode w (rb_right n) (rb_left n)).
Definition get_left (r : Z) : CM rbst Z := do n <- load r; cret (rb_left n).
Definition get_right (r : Z) : CM rbst Z := do n <- load r; cret (rb_right n).
Definition get_root : CM rbst Z := do s <- cget; cret (root s).
Definition set_root (p : Z) : CM rbst unit :=
  do s <- cget; cput (MkRb (mem s) p (count s)).

(** ** The colour and parent macros *)

Definition rb_parent_w (w : Z) : Z := Z.land w (Z.lnot 3).
Definition rb_color_w (w : Z) : Z := Z.land w 1.

Definition rb_parent (r : Z) : CM rbst Z := do n <- load r; cret (rb_parent_w (rb_parent_color n)).
Definition rb_color (r : Z) : CM rbst Z := do n <- load r; cret (rb_color_w (rb_parent_color n)).
Definition rb_is_red (r : Z) : CM rbst bool := do c <- rb_color r; cret (c =? 0).
Definition rb_is_black (r : Z) : CM rbst bool := do c <- rb_color r; cret (negb (c =? 0)).
Definition rb_set_red (r : Z) : CM rbst unit :=
  do n <- load r; set_pc r (Z.land (rb_parent_color n) (Z.lnot 1)).
Definition rb_set_black (r : Z) : CM rbst unit :=
  do n <- load r; set_pc r (Z.lor (rb_parent_color n) 1).
Definition rb_set_parent (r p : Z) : CM rbst unit :=
  do n <- load r; set_pc r (Z.lor (Z.land (rb_parent_color n) 3) p).
Definition rb_set_color (r color : Z) : CM rbst unit :=
  do n <- load r; set_pc r (Z.lor (Z.land (rb_parent_color n) (Z.lnot 1)) color).

(** [!p || rb_is_black (p)] *)
Definition null_or_black (p : Z) : CM rbst bool :=
  if p =? 0 then cret true else rb_is_black p.

Definition aosl_rb_root_init (s : rbst) : rbst := MkRb (mem s) 0 0.

(** ** Rotations *)

(** The parent of [node] (or the root) is made to point to [new] instead. *)
Definition __rb_rotate_left (node : Z) : CM rbst unit :=
  do right <- get_right node;
  do parent <- rb_parent node;
  do rl <- get_left right;
  set_right node rl ;;
  (when negb (rl =? 0) then rb_set_parent rl node) ;;
  set_left right node ;;
  rb_set_parent right parent ;;
  (if negb (parent =? 0) then
     do pl <- get_left parent;
     if node =? pl then set_left parent right else set_right parent right
   else set_root right) ;;
  rb_set_parent node right.

Definition __rb_rotate_right (node : Z) : CM rbst unit :=
  do left <- get_left node;
  do parent <- rb_parent node;
  do lr <- get_right left;
  set_left node lr ;;
  (when negb (lr =? 0) then rb_set_parent lr node) ;;
  set_right left node ;;
  rb_set_parent left parent ;;
  (if negb (parent =? 0) then
     do pr <- get_right parent;
     if node =? pr then set_right parent left else set_left parent left
   else set_root left) ;;
  rb_set_parent node left.

(** ** Rebalancing after an insertion *)

(** The [while] loop of [aosl_rb_insert_color]. *)
Fixpoint insert_color_loop (fuel : nat) (node : Z) : CM rbst unit :=
  match fuel with
  | O => cnofuel
  | S fuel' =>
    do parent <- rb_parent node;
    if parent =? 0 then cret tt else
    do pred <- rb_is_red parent;
    if negb pred then cret tt else
    do gparent <- rb_parent parent;
    do gl <- get_left gparent;
    if parent =? gl then
      do uncle <- get_right gparent;
      do ured <- (if uncle =? 0 then cret false else rb_is_red uncle);
      if (ured : bool) then
        rb_set_black uncle ;;
        rb_set_black parent ;;
        rb_set_red gparent ;;
        insert_color_loop fuel' gparent
      else
        do pr <- get_right parent;
        if pr =? node then
          __rb_rotate_left parent ;;
          (* parent and node change places *)
          rb_set_black node ;;
          rb_set_red gparent ;;
          __rb_rotate_right gparent ;;
          insert_color_loop fuel' parent
        else
          rb_set_black parent ;;
          rb_set_red gparent ;;
          __rb_rotate_right gparent ;;
          insert_color_loop fuel' node
    else
      do uncle <- get_left gparent;
      do ured <- (if uncle =? 0 then cret false else rb_is_red uncle);
      if (ured : bool) then
        rb_set_black uncle ;;
        rb_set_black parent ;;
        rb_set_red gparent ;;
        insert_color_loop fuel' gparent
      else
        do pl <- get_left parent;
        if pl =? node then
          __rb_rotate_right parent ;;
          rb_set_black node ;;
          rb_set_red gparent ;;
          __rb_rotate_left gparent ;;
          insert_color_loop fuel' parent
        else
          rb_set_black parent ;;
          rb_set_red gparent ;;
          __rb_rotate_left gparent ;;
          insert_color_loop fuel' node
  end.

Definition aosl_rb_insert_color (fuel : nat) (node : Z) : CM rbst unit :=
  insert_color_loop fuel node ;;
  do r <- get_root;
  rb_set_black r ;;
  do s <- cget;
  cput (MkRb (mem s) (root s) (u64 (count s + 1))).

(** ** Rebalancing after a removal *)

(** [(!l || rb_is_black (l)) && (!r || rb_is_black (r))] for the two children
    of [other], evaluated left to right. *)
Definition children_black (other : Z) : CM rbst bool :=
  do l <- get_left other;
  do lb <- null_or_black l;
  if (lb : bool) then (do r <- get_right other; null_or_black r) else cret false.

(** The [while] loop of [__rb_erase_color]; the result is the final value of
    [node]. *)
Fixpoint erase_color_loop (fuel : nat) (node parent : Z) : CM rbst Z :=
  match fuel with
  | O => cnofuel
  | S fuel' =>
    do b <- null_or_black node;
    do r <- get_root;
    if negb (b && negb (node =? r)) then cret node else
    do pl <- get_left parent;
    if pl =? node then
      do other <- get_right parent;
      do ored <- rb_is_red other;
      do other <- (if (ored : bool) then
                     rb_set_black other ;;
                     rb_set_red parent ;;
                     __rb_rotate_left parent ;;
                     get_right parent
                   else cret other);
      do cb <- children_black other;
      if (cb : bool) then
        rb_set_red other ;;
        do up <- rb_parent parent;
        erase_color_loop fuel' parent up
      else
        do orr <- get_right other;
        do rb <- null_or_black orr;
        do other <- (if (rb : bool) then
                       do o_left <- get_left other;
                       (when negb (o_left =? 0) then rb_set_black o_left) ;;
                       rb_set_red other ;;
                       __rb_rotate_right other ;;
                       get_right parent
                     else cret other);
        do pc <- rb_color parent;
        rb_set_color other pc ;;
        rb_set_black parent ;;
        do orr <- get_right other;
        (when negb (orr =? 0) then rb_set_black orr) ;;
        __rb_rotate_left parent ;;
        get_root
    else
      do other <- get_left parent;
      do ored <- rb_is_red other;
      do other <- (if (ored : bool) then
                     rb_set_black other ;;
                     rb_set_red parent ;;
                     __rb_rotate_right parent ;;
                     get_left parent
                   else cret other);
      do cb <- children_black other;
      if (cb : bool) then
        rb_set_red other ;;
        do up <- rb_parent parent;
        erase_color_loop fuel' parent up
      else
        do oll <- get_left other;
        do lb <- null_or_black oll;
        do other <- (if (lb : bool) then
                       do o_right <- get_right other;
                       (when negb (o_right =? 0) then rb_set_black o_right) ;;
                       rb_set_red other ;;
                       __rb_rotate_left other ;;
                       get_left parent
                     else cret other);
        do pc <- rb_color parent;
        rb_set_color other pc ;;
        rb_set_black parent ;;
        do oll <- get_left other;
        (when negb (oll =? 0) then rb_set_black oll) ;;
        __rb_rotate_right parent ;;
        get_root
  end.

Definition __rb_erase_color (fuel : nat) (node parent : Z) : CM rbst unit :=
  do node <- erase_color_loop fuel node parent;
  when negb (node =? 0) then rb_set_black node.

(** [while ((left = node->rb_left) != NULL) node = left;], also the loops of
    [aosl_rb_first] and [aosl_rb_next]. *)
Fixpoint leftmost (fuel : nat) (node : Z) : CM rbst Z :=
  match fuel with
  | O => cnofuel
  | S fuel' =>
    do left <- get_left node;
    if left =? 0 then cret node else leftmost fuel' left
  end.

Fixpoint rightmost (fuel : nat) (node : Z) : CM rbst Z :=
  match fuel with
  | O => cnofuel
  | S fuel' =>
    do right <- get_right node;
    if right =? 0 then cret node else rightmost fuel' right
  end.

(** The end of [aosl_rb_erase], from the label [color]. *)
Definition erase_finish (fuel : nat) (color child parent : Z) : CM rbst unit :=
  (when color =? AOSL_RB_BLACK then __rb_erase_color fuel child parent) ;;
  do s <- cget;
  cput (MkRb (mem s) (root s) (u64 (count s - 1))).

(** Unlink a node that has at most one child. *)
Definition erase_one (fuel : nat) (node child : Z) : CM rbst unit :=
  do parent <- rb_parent node;
  do color <- rb_color node;
  (when negb (child =? 0) then rb_set_parent child parent) ;;
  (if negb (parent =? 0) then
     do pl <- get_left parent;
     if pl =? node then set_left parent child else set_right parent child
   else set_root child) ;;
  erase_finish fuel color child parent.

(** Replace a node that has two children by its successor. *)
Definition erase_two (fuel : nat) (old : Z) : CM rbst unit :=
  do start <- get_right old;
  do node <- leftmost fuel start;
  do child <- get_right node;
  do parent <- rb_parent node;
  do color <- rb_color node;
  (when negb (child =? 0) then rb_set_parent child parent) ;;
  do parent <- (if parent =? old then set_right parent child ;; cret node
                else set_left parent child ;; cret parent);
  do o <- load old;
  store node (MkNode (rb_parent_color o) (rb_right o) (rb_left o)) ;;
  do op <- rb_parent old;
  (if negb (op =? 0) then
     do opl <- get_left op;
     if opl =? old then set_left op node else set_right op node
   else set_root node) ;;
  do ol <- get_left old;
  rb_set_parent ol node ;;
  do orr <- get_right old;
  (when negb (orr =? 0) then rb_set_parent orr node) ;;
  erase_finish fuel color child parent.

Definition aosl_rb_erase (fuel : nat) (node : Z) : CM rbst unit :=
  do l <- get_left node;
  if l =? 0 then (do child <- get_right node; erase_one fuel node child) else
  do r <- get_right node;
  if r =? 0 then erase_one fuel node l else erase_two fuel node.

(** ** Walking the tree *)

Definition aosl_rb_first (fuel : nat) : CM rbst Z :=
  do n <- get_root;
  if n =? 0 then cret 0 else leftmost fuel n.

Definition aosl_rb_last (fuel : nat) : CM rbst Z :=
  do n <- get_root;
  if n =? 0 then cret 0 else rightmost fuel n.

(** [while ((parent = rb_parent (node)) && node == parent->rb_right) node = parent;] *)
Fixpoint climb_right (fuel : nat) (node : Z) : CM rbst Z :=
  match fuel with
  | O => cnofuel
  | S fuel' =>
    do parent <- rb_parent node;
    if parent =? 0 then cret 0 else
    do pr <- get_right parent;
    if node =? pr then climb_right fuel' parent else cret parent
  end.

Fixpoint climb_left (fuel : nat) (node : Z) : CM rbst Z :=
  match fuel with
  | O => cnofuel
  | S fuel' =>
    do parent <- rb_parent node;
    if parent =? 0 then cret 0 else
    do pl <- get_left parent;
    if node =? pl then climb_left fuel' parent else cret parent
  end.

Definition aosl_rb_next (fuel : nat) (node : Z) : CM rbst Z :=
  do p <- rb_parent node;
  if p =? node then cret 0 else
  do r <- get_right node;
  if negb (r =? 0) then leftmost fuel r else climb_right fuel node.

Definition aosl_rb_prev (fuel : nat) (node : Z) : CM rbst Z :=
  do p <- rb_parent node;
  if p =? node then cret 0 else
  do l <- get_left node;
  if negb (l =? 0) then rightmost fuel l else climb_left fuel node.

Definition aosl_rb_replace_node (victim new : Z) : CM rbst unit :=
  do parent <- rb_parent victim;
  (if negb (parent =? 0) then
     do pl <- get_left parent;
     if victim =? pl then set_left parent new else set_right parent new
   else set_root new) ;;
  do vl <- get_left victim;
  (when negb (vl =? 0) then rb_set_parent vl new) ;;
  do vr <- get_right victim;
  (when negb (vr =? 0) then rb_set_parent vr new) ;;
  do v <- load victim;
  store new v.

(** ** Searching *)

(** The address of a link: [&root->rb_node], [&p->rb_left] or [&p->rb_right]. *)
Inductive rb_link := LRoot | LLeft (p : Z) | LRight (p : Z).

Definition deref_link (l : rb_link) : CM rbst Z :=
  match l with
  | LRoot => get_root
  | LLeft p => get_left p
  | LRight p => get_right p
  end.

Definition set_link (l : rb_link) (node : Z) : CM rbst unit :=
  match l with
  | LRoot => set_root node
  | LLeft p => set_left p node
  | LRight p => set_right p node
  end.

(** The loop of [aosl_find_rb_links] and [aosl_vfind_rb_links]; [rb_cmp] is
    the comparison function of the root with the key argument (a node, or
    the variable arguments) supplied.  The result is the link, its parent
    and the logical neighbours. *)
Fixpoint find_links_loop (rb_cmp : Z -> Z) (fuel : nat) (link : rb_link) (parent prev next : Z)
  : CM rbst (rb_link * Z * Z * Z) :=
  match fuel with
  | O => cnofuel
  | S fuel' =>
    do cur <- deref_link link;
    if cur =? 0 then cret (link, parent, prev, next) else
    if 0 <? rb_cmp cur
    then find_links_loop rb_cmp fuel' (LLeft cur) cur prev cur
    else find_links_loop rb_cmp fuel' (LRight cur) cur cur next
  end.

Definition aosl_vfind_rb_links (rb_cmp : Z -> Z) (fuel : nat) : CM rbst (rb_link * Z * Z * Z) :=
  find_links_loop rb_cmp fuel LRoot 0 0 0.
Definition aosl_find_rb_links (rb_cmp : Z -> Z) (fuel : nat) : CM rbst (rb_link * Z * Z * Z) :=
  find_links_loop rb_cmp fuel LRoot 0 0 0.

Fixpoint find_node_loop (rb_cmp : Z -> Z) (fuel : nat) (cur : Z) : CM rbst Z :=
  match fuel with
  | O => cnofuel
  | S fuel' =>
    if cur =? 0 then cret 0 else
    let r := rb_cmp cur in
    if r =? 0 then cret cur else
    if 0 <? r then (do l <- get_left cur; find_node_loop rb_cmp fuel' l)
    else (do r <- get_right cur; find_node_loop rb_cmp fuel' r)
  end.

Definition aosl_vfind_rb_node (rb_cmp : Z -> Z) (fuel : nat) : CM rbst Z :=
  do r <- get_root; find_node_loop rb_cmp fuel r.
Definition aosl_find_rb_node (rb_cmp : Z -> Z) (fuel : nat) : CM rbst Z :=
  do r <- get_root; find_node_loop rb_cmp fuel r.

(** ** Insertion and removal by key *)

(** [include/kernel/rbtree.h] *)
Definition rb_link_node (node parent : Z) (link : rb_link) : CM rbst unit :=
  store node (MkNode parent 0 0) ;;
  set_link link node.

Definition rb_insert (fuel : nat) (node : Z) (link : rb_link) (parent : Z) : CM rbst unit :=
  rb_link_node node parent link ;;
  aosl_rb_insert_color fuel node.

Definition aosl_rb_insert_node (rb_cmp : Z -> Z) (fuel : nat) (node : Z) : CM rbst unit :=
  do r <- aosl_vfind_rb_links rb_cmp fuel;
  let '(link, parent, _, _) := r in
  rb_insert fuel node link parent.

Definition aosl_rb_remove (rb_cmp : Z -> Z) (fuel : nat) : CM rbst Z :=
  do node <- aosl_vfind_rb_node rb_cmp fuel;
  (when negb (node =? 0) then aosl_rb_erase fuel node) ;;
  cret node.

(** The macro [aosl_rb_clear]: erase the root until the tree is empty; the
    result lists the entries passed to [type_free], in order.  [free] is what
    the freeing does to the memory. *)
Fixpoint aosl_rb_clear (free : Z -> CM rbst unit) (efuel fuel : nat) : CM rbst (list Z) :=
  match fuel with
  | O => cnofuel
  | S fuel' =>
    do node <- get_root;
    if node =? 0 then cret [] else
    aosl_rb_erase efuel node ;;
    free node ;;
    do rest <- aosl_rb_clear free efuel fuel';
    cret (node :: rest)
  end.

(** ** Traversals *)

Section Traverse.
(** The callback's own state, and the callback, which may use the tree and
    returns non-zero to stop. *)
Context {U : Type} (func : Z -> U -> CM rbst (Z * U)).

(** [if (!*done_p) *done_p = func (node, arg);] *)
Definition visit (node : Z) (d : Z) (u : U) : CM rbst (Z * U) :=
  if d =? 0 then func node u else cret (d, u).

(** The three traversals with the flag [*done_p]; [func] is called with the
    node, and each child pointer is read when the recursion needs it. *)
Fixpoint __rb_traverse_dlr (fuel : nat) (node d : Z) (u : U) : CM rbst (Z * U) :=
  match fuel with
  | O => cnofuel
  | S fuel' =>
    if node =? 0 then cret (d, u) else
    do r <- visit node d u;
    do r <- (if fst r =? 0 then do l <- get_left node; __rb_traverse_dlr fuel' l (fst r) (snd r)
             else cret r);
    if fst r =? 0 then do rt <- get_right node; __rb_traverse_dlr fuel' rt (fst r) (snd r)
    else cret r
  end.

Fixpoint __rb_traverse_ldr (fuel : nat) (node d : Z) (u : U) : CM rbst (Z * U) :=
  match fuel with
  | O => cnofuel
  | S fuel' =>
    if node =? 0 then cret (d, u) else
    do r <- (if d =? 0 then do l <- get_left node; __rb_traverse_ldr fuel' l d u
             else cret (d, u));
    do r <- visit node (fst r) (snd r);
    if fst r =? 0 then do rt <- get_right node; __rb_traverse_ldr fuel' rt (fst r) (snd r)
    else cret r
  end.

Fixpoint __rb_traverse_lrd (fuel : nat) (node d : Z) (u : U) : CM rbst (Z * U) :=
  match fuel with
  | O => cnofuel
  | S fuel' =>
    if node =? 0 then cret (d, u) else
    do r <- (if d =? 0 then do l <- get_left node; __rb_traverse_lrd fuel' l d u
             else cret (d, u));
    do r <- (if fst r =? 0 then do rt <- get_right node; __rb_traverse_lrd fuel' rt (fst r) (snd r)
             else cret r);
    visit node (fst r) (snd r)
  end.

Definition aosl_rb_traverse_dlr (fuel : nat) (u : U) : CM rbst U :=
  do r <- get_root; do x <- __rb_traverse_dlr fuel r 0 u; cret (snd x).
Definition aosl_rb_traverse_ldr (fuel : nat) (u : U) : CM rbst U :=
  do r <- get_root; do x <- __rb_traverse_ldr fuel r 0 u; cret (snd x).
Definition aosl_rb_traverse_lrd (fuel : nat) (u : U) : CM rbst U :=
  do r <- get_root; do x <- __rb_traverse_lrd fuel r 0 u; cret (snd x).
End Traverse.
