(* ===== verification/RbModel.v ===== *)
(** * The functional model of the red-black tree

    Trees of node addresses, the red-black invariant, positions in a tree as
    a list of frames (a zipper), and the two rebalancing walks of
    [lib/rbtree.c] as functions from positions to trees.  [RbRefine] shows
    that the pointer code computes these functions. *)
From S2P Require Import Prelude.

Inductive color := Red | Black.
#[export] Instance color_eq_dec : EqDecision color.
Proof. solve_decision. Defined.

Inductive tree := E | T (c : color) (l : tree) (a : Z) (r : tree).

(** A frame is a node seen from one of its children: [FL c a r] from the
    left child, [FR c l a] from the right one. *)
Inductive frame := FL (c : color) (a : Z) (r : tree) | FR (c : color) (l : tree) (a : Z).

Definition plug1 (f : frame) (t : tree) : tree :=
  match f with FL c a r => T c t a r | FR c l a => T c l a t end.
Fixpoint plug (k : list frame) (t : tree) : tree :=
  match k with [] => t | f :: k' => plug k' (plug1 f t) end.

Definition fcolor (f : frame) : color := match f with FL c _ _ | FR c _ _ => c end.
Definition faddr (f : frame) : Z := match f with FL _ a _ | FR _ _ a => a end.
Definition fsib (f : frame) : tree := match f with FL _ _ t | FR _ t _ => t end.

Definition is_red (t : tree) : bool := match t with T Red _ _ _ => true | _ => false end.
Definition blacken (t : tree) : tree :=
  match t with E => E | T _ l a r => T Black l a r end.

(** The nodes in order. *)
Fixpoint elements (t : tree) : list Z :=
  match t with E => [] | T _ l a r => elements l ++ a :: elements r end.

Fixpoint size_t (t : tree) : nat :=
  match t with E => 0 | T _ l _ r => S (size_t l + size_t r) end.

Fixpoint height (t : tree) : nat :=
  match t with E => 0 | T _ l _ r => S (Nat.max (height l) (height r)) end.

(** ** The rebalancing walks *)

(** After an insertion: [t] is the subtree of the new red node. *)
Fixpoint ins_fix (k : list frame) (t : tree) : tree :=
  match k with
  | f :: ((g :: k') as k1) =>
    match fcolor f with
    | Black => plug k1 (plug1 f t)
    | Red =>
      if is_red (fsib g) then
        match f, g with
        | FL _ p pr, FL _ ga u => ins_fix k' (T Red (T Black t p pr) ga (blacken u))
        | FR _ pl p, FL _ ga u => ins_fix k' (T Red (T Black pl p t) ga (blacken u))
        | FL _ p pr, FR _ u ga => ins_fix k' (T Red (blacken u) ga (T Black t p pr))
        | FR _ pl p, FR _ u ga => ins_fix k' (T Red (blacken u) ga (T Black pl p t))
        end
      else
        match f, g, t with
        | FL _ p pr, FL _ ga u, _ => plug k' (T Black t p (T Red pr ga u))
        | FR _ pl p, FL _ ga u, T _ tl n tr => plug k' (T Black (T Red pl p tl) n (T Red tr ga u))
        | FR _ pl p, FR _ u ga, _ => plug k' (T Black (T Red u ga pl) p t)
        | FL _ p pr, FR _ u ga, T _ tl n tr => plug k' (T Black (T Red u ga tl) n (T Red tr p pr))
        | _, _, E => plug k1 (plug1 f t)
        end
    end
  | _ => plug k t
  end.

(** One step of the removal walk at a black sibling: the new subtree, and
    whether its black height is still one short. *)
Definition bal_left (cp : color) (t : tree) (p : Z) (other : tree) : tree * bool :=
  match other with
  | E => (T cp t p E, true)
  | T _ ol o orr =>
    if negb (is_red ol) && negb (is_red orr) then (T cp t p (T Red ol o orr), true)
    else if is_red orr then (T cp (T Black t p ol) o (blacken orr), false)
    else match ol with
         | T _ oll x olr => (T cp (T Black t p oll) x (T Black olr o orr), false)
         | E => (T cp t p other, true)
         end
  end.

Definition bal_right (cp : color) (other : tree) (p : Z) (t : tree) : tree * bool :=
  match other with
  | E => (T cp E p t, true)
  | T _ ol o orr =>
    if negb (is_red ol) && negb (is_red orr) then (T cp (T Red ol o orr) p t, true)
    else if is_red ol then (T cp (blacken ol) o (T Black orr p t), false)
    else match orr with
         | T _ orl x orrr => (T cp (T Black ol o orl) x (T Black orrr p t), false)
         | E => (T cp other p t, true)
         end
  end.

(** After a removal: the subtree [t] is one black node short. *)
Fixpoint del_fix (k : list frame) (t : tree) : tree :=
  if is_red t then plug k (blacken t) else
  match k with
  | [] => t
  | FL cp p other :: k' =>
    match other with
    | T Red ol oa orr =>
      let (s, short) := bal_left Red t p ol in
      if (short : bool) then plug k' (T Black (blacken s) oa orr)
      else blacken (plug k' (T Black s oa orr))
    | _ =>
      let (s, short) := bal_left cp t p other in
      if (short : bool) then del_fix k' s else blacken (plug k' s)
    end
  | FR cp other p :: k' =>
    match other with
    | T Red ol oa orr =>
      let (s, short) := bal_right Red orr p t in
      if (short : bool) then plug k' (T Black ol oa (blacken s))
      else blacken (plug k' (T Black ol oa s))
    | _ =>
      let (s, short) := bal_right cp other p t in
      if (short : bool) then del_fix k' s else blacken (plug k' s)
    end
  end.

(** ** The red-black invariant *)

(** [rb t c n]: no red node has a red child, every path from the root of [t]
    to a leaf meets [n] black nodes, and the root has colour [c] (a leaf
    counts as black). *)
Inductive rb : tree -> color -> nat -> Prop :=
| rb_E : rb E Black 0
| rb_R l a r n : rb l Black n -> rb r Black n -> rb (T Red l a r) Red n
| rb_B l a r cl cr n : rb l cl n -> rb r cr n -> rb (T Black l a r) Black (S n).

(** [rbctx k hb n m]: putting a tree of black height [n] in the hole of [k]
    gives a black-rooted red-black tree of black height [m]; the tree must
    have a black root when [hb] holds. *)
Inductive rbctx : list frame -> bool -> nat -> nat -> Prop :=
| rbc_nil n : rbctx [] true n n
| rbc_red f k n m : fcolor f = Red -> rb (fsib f) Black n -> rbctx k false n m ->
    rbctx (f :: k) true n m
| rbc_black f k c b n m : fcolor f = Black -> rb (fsib f) c n -> rbctx k b (S n) m ->
    rbctx (f :: k) false n m.

#[export] Hint Constructors rb rbctx : aosl.

(** ** Basic lemmas *)

Lemma plug_app k1 k2 t : plug (k1 ++ k2) t = plug k2 (plug k1 t).
Proof. revert t. induction k1 as [|f k1 IH]; intros t; cbn; auto. Qed.

Lemma elements_plug_ext k t t' : elements t = elements t' -> elements (plug k t) = elements (plug k t').
Proof.
  revert t t'. induction k as [|f k IH]; intros t t' He; cbn; [done|].
  apply IH. destruct f; cbn; by rewrite He.
Qed.

(** The nodes before and after the hole of a position. *)
Fixpoint ctx_left (k : list frame) : list Z :=
  match k with
  | [] => []
  | FL _ _ _ :: k' => ctx_left k'
  | FR _ l a :: k' => ctx_left k' ++ elements l ++ [a]
  end.
Fixpoint ctx_right (k : list frame) : list Z :=
  match k with
  | [] => []
  | FL _ a r :: k' => a :: elements r ++ ctx_right k'
  | FR _ _ _ :: k' => ctx_right k'
  end.

Lemma elements_plug k t : elements (plug k t) = ctx_left k ++ elements t ++ ctx_right k.
Proof.
  revert t. induction k as [|[c a r|c l a] k IH]; intros t; cbn; [by rewrite app_nil_r|..];
    rewrite IH; cbn; by repeat (rewrite <-?app_assoc; cbn).
Qed.

Lemma elements_blacken t : elements (blacken t) = elements t.
Proof. by destruct t. Qed.

Lemma size_elements t : size_t t = length (elements t).
Proof. induction t as [|c l IHl a r IHr]; cbn; [done|]. rewrite length_app. cbn. lia. Qed.

Lemma rb_leaf c n : rb E c n -> c = Black /\ n = 0%nat.
Proof. by inversion 1. Qed.

Lemma rb_plug k b n m t c :
  rbctx k b n m -> rb t c n -> (b = true -> c = Black) -> rb (plug k t) Black m.
Proof.
  intros Hk. revert t c. induction Hk as [n|f k n m Hf Hs Hk IH|f k cs b n m Hf Hs Hk IH];
    intros t c Ht Hc; cbn.
  - by rewrite Hc in Ht.
  - rewrite Hc in Ht by done. destruct f; cbn in *; subst; eapply IH; eauto with aosl; done.
  - destruct f; cbn in *; subst; eapply IH; eauto with aosl; done.
Qed.

(** Conversely, a position in a red-black tree. *)
Lemma rb_unplug k t m :
  rb (plug k t) Black m ->
  exists b n c, rbctx k b n m /\ rb t c n /\ (b = true -> c = Black).
Proof.
  revert t. induction k as [|f k IH]; intros t H; cbn in H.
  - exists true, m, Black. eauto with aosl.
  - destruct (IH _ H) as (b & n & c & Hk & Ht & Hc).
    destruct f as [cf a r|cf l a]; cbn in Ht; inversion Ht; subst; clear Ht.
    + destruct b; [by discriminate Hc|]. exists true, n, Black.
      split_and!; try done. eapply rbc_red; eauto.
    + exists false. do 2 eexists. split_and!; [|eassumption|done]. eapply rbc_black; eauto.
    + destruct b; [by discriminate Hc|]. exists true, n, Black.
      split_and!; try done. eapply rbc_red; eauto.
    + exists false. do 2 eexists. split_and!; [|eassumption|done]. eapply rbc_black; eauto.
Qed.

Lemma rb_is_red_spec t c n : rb t c n -> is_red t = true <-> c = Red.
Proof. by inversion 1; subst; cbn. Qed.

Lemma rb_not_red t c n : rb t c n -> is_red t = false -> c = Black.
Proof. by inversion 1. Qed.

Lemma rb_blacken_red t n : rb t Red n -> rb (blacken t) Black (S n).
Proof. inversion 1; subst; cbn; eauto with aosl. Qed.

Lemma rb_blacken_black t n : rb t Black n -> blacken t = t.
Proof. by inversion 1. Qed.

(** ** Insertion *)

(** Recursion on positions two frames at a time. *)
Lemma frames_ind2 (P : list frame -> Prop) :
  P [] -> (forall f, P [f]) -> (forall f g k, P k -> P (f :: g :: k)) -> forall k, P k.
Proof.
  intros H0 H1 H2 k. assert (P k /\ forall f, P (f :: k)) as [? _]; [|done].
  induction k as [|g k [IH1 IH2]]; split; auto.
Qed.

(** A red frame sits in a black one, whose sibling has the same height. *)
Lemma rbctx_red_inv f k b n m :
  rbctx (f :: k) b n m -> fcolor f = Red ->
  exists g k' c b', k = g :: k' /\ fcolor g = Black /\ rb (fsib f) Black n /\
    rb (fsib g) c n /\ rbctx k' b' (S n) m.
Proof.
  intros H Hf. inversion H as [|? ? ? ? Hr Hs Hk|? ? ? ? ? ? Hbl]; subst; [|congruence].
  inversion Hk; subst. do 4 eexists. split_and!; eauto.
Qed.

Lemma ins_fix_rb k b n m t :
  rbctx k b n m -> rb t Red n -> exists m', rb (blacken (ins_fix k t)) Black m'.
Proof.
  revert b n m t. induction k as [|f|f g k IH] using frames_ind2; intros b n m t Hk Ht.
  - exists (S n). by apply rb_blacken_red.
  - inversion Hk as [|? ? ? ? Hf Hs Hn|? ? ? ? ? ? Hf Hs Hn]; subst; [by inversion Hn|].
    exists m. inversion Hn; subst. destruct f; cbn in *; subst; eauto with aosl.
  - destruct (fcolor f) eqn:Hf.
    2: { exists m. cbn [ins_fix plug]. rewrite Hf.
      assert (Hb : b = false) by (inversion Hk; congruence). subst b.
      pose proof (rb_plug (f :: g :: k) false n m t Red Hk Ht ltac:(done)) as Hp.
      cbn [plug] in Hp. by rewrite (rb_blacken_black _ _ Hp). }
    destruct (rbctx_red_inv f (g :: k) b n m Hk Hf) as (g' & k' & cu & b' & [= <- <-] & Hg & Hs & Hu & Hk').
    cbn [ins_fix]. rewrite Hf. inversion Ht as [|tl x tr ? Htl Htr|]; subst.
    destruct (is_red (fsib g)) eqn:Hur.
    + pose proof (proj1 (rb_is_red_spec _ _ _ Hu) Hur) as ->. apply rb_blacken_red in Hu.
      destruct f, g; cbn in Hf, Hg, Hs, Hu; subst; eapply IH; eauto with aosl.
    + apply (rb_not_red _ _ _ Hu) in Hur as ->. exists m.
      assert (Hgoal : forall u, rb u Black (S n) -> rb (blacken (plug k u)) Black m).
      { intros u Hu'. pose proof (rb_plug k b' (S n) m u Black Hk' Hu' ltac:(done)) as Hp.
        by rewrite (rb_blacken_black _ _ Hp). }
      destruct f, g; cbn in Hf, Hg, Hs, Hu |- *; subst; apply Hgoal; eauto with aosl.
Qed.

Lemma ins_fix_elements k t : elements (ins_fix k t) = elements (plug k t).
Proof.
  revert t. induction k as [|f|f g k IH] using frames_ind2; intros t; [done..|].
  cbn [ins_fix plug]. destruct (fcolor f); [|done].
  destruct (is_red (fsib g)).
  - destruct f, g; rewrite IH; apply elements_plug_ext; cbn; rewrite elements_blacken;
      cbn; by rewrite <-?app_assoc.
  - destruct f, g; [|destruct t as [|ct tl x tr]; [done|]..|];
      apply elements_plug_ext; cbn; repeat (rewrite <-?app_assoc; cbn); done.
Qed.

(** ** Removal *)

Lemma bal_left_elements cp t p other :
  elements (fst (bal_left cp t p other)) = elements (T cp t p other).
Proof.
  destruct other as [|c ol o orr]; [done|]. cbn [bal_left].
  destruct (_ && _); [done|]. destruct (is_red orr).
  - cbn. rewrite elements_blacken. by rewrite <-?app_assoc.
  - destruct ol; [done|]. cbn. repeat (rewrite <-?app_assoc; cbn). done.
Qed.

Lemma bal_right_elements cp t p other :
  elements (fst (bal_right cp other p t)) = elements (T cp other p t).
Proof.
  destruct other as [|c ol o orr]; [done|]. cbn [bal_right].
  destruct (_ && _); [done|]. destruct (is_red ol).
  - cbn. rewrite elements_blacken. repeat (rewrite <-?app_assoc; cbn). done.
  - destruct orr; [done|]. cbn. repeat (rewrite <-?app_assoc; cbn). done.
Qed.

Lemma del_fix_elements k t : elements (del_fix k t) = elements (plug k t).
Proof.
  revert t. induction k as [|f k IH]; intros t; cbn [del_fix].
  { destruct (is_red t); [cbn; apply elements_blacken|done]. }
  destruct (is_red t). { cbn. apply elements_plug_ext. destruct f; cbn; by rewrite elements_blacken. }
  cbn [plug]. destruct f as [cp p other|cp other p].
  - assert (Hn : elements (let (s, short) := bal_left cp t p other in
        if short then del_fix k s else blacken (plug k s)) = elements (plug k (T cp t p other))).
    { pose proof (bal_left_elements cp t p other) as Hb. destruct (bal_left cp t p other) as [s []];
        cbn [fst] in Hb; rewrite ?elements_blacken, ?IH; by apply elements_plug_ext. }
    destruct other as [|[] ol oa orr]; [done| |done]. clear Hn.
    pose proof (bal_left_elements Red t p ol) as Hb. destruct (bal_left Red t p ol) as [s []];
      cbn [fst] in Hb; rewrite ?elements_blacken; apply elements_plug_ext; cbn;
      rewrite ?elements_blacken, Hb; cbn; by rewrite <-?app_assoc.
  - assert (Hn : elements (let (s, short) := bal_right cp other p t in
        if short then del_fix k s else blacken (plug k s)) = elements (plug k (T cp other p t))).
    { pose proof (bal_right_elements cp t p other) as Hb. destruct (bal_right cp other p t) as [s []];
        cbn [fst] in Hb; rewrite ?elements_blacken, ?IH; by apply elements_plug_ext. }
    destruct other as [|[] ol oa orr]; [done| |done]. clear Hn.
    pose proof (bal_right_elements Red t p orr) as Hb. destruct (bal_right Red orr p t) as [s []];
      cbn [fst] in Hb; rewrite ?elements_blacken; apply elements_plug_ext; cbn;
      rewrite ?elements_blacken, Hb; cbn; repeat (rewrite <-?app_assoc; cbn); done.
Qed.

(** The local step: [t] has black height [n], its sibling [other] is black
    and has height [S n]; either the subtree is repaired, to a height that
    keeps the colour [cp] at its root, or it is short and red-red free. *)
Lemma bal_left_rb cp t ct p other n :
  rb t ct n -> rb other Black (S n) ->
  let (s, short) := bal_left cp t p other in
  if (short : bool)
  then exists o, rb o Red n /\ s = T cp t p o
  else exists l r x, s = T cp l x r /\ rb l Black (S n) /\ rb r Black (S n).
Proof.
  intros Ht Ho. inversion Ho as [| |ol o orr cl cr ? Hl Hr]; subst. cbn [bal_left].
  destruct (is_red ol) eqn:Hol, (is_red orr) eqn:Horr; cbn [negb andb].
  - do 3 eexists. split; [done|]. apply (rb_is_red_spec _ _ _ Hr) in Horr as ->.
    split_and!; eauto using rb_blacken_red with aosl.
  - apply (rb_is_red_spec _ _ _ Hl) in Hol as ->. inversion Hl; subst.
    do 3 eexists. split; [done|]. split_and!; eauto with aosl.
  - do 3 eexists. split; [done|]. apply (rb_is_red_spec _ _ _ Hr) in Horr as ->.
    split_and!; eauto using rb_blacken_red with aosl.
  - apply (rb_not_red _ _ _ Hl) in Hol as ->. apply (rb_not_red _ _ _ Hr) in Horr as ->.
    eexists. split; [|done]. eauto with aosl.
Qed.

Lemma bal_right_rb cp t ct p other n :
  rb t ct n -> rb other Black (S n) ->
  let (s, short) := bal_right cp other p t in
  if (short : bool)
  then exists o, rb o Red n /\ s = T cp o p t
  else exists l r x, s = T cp l x r /\ rb l Black (S n) /\ rb r Black (S n).
Proof.
  intros Ht Ho. inversion Ho as [| |ol o orr cl cr ? Hl Hr]; subst. cbn [bal_right].
  destruct (is_red ol) eqn:Hol, (is_red orr) eqn:Horr; cbn [negb andb].
  - do 3 eexists. split; [done|]. apply (rb_is_red_spec _ _ _ Hl) in Hol as ->.
    split_and!; eauto using rb_blacken_red with aosl.
  - do 3 eexists. split; [done|]. apply (rb_is_red_spec _ _ _ Hl) in Hol as ->.
    split_and!; eauto using rb_blacken_red with aosl.
  - apply (rb_is_red_spec _ _ _ Hr) in Horr as ->. inversion Hr; subst.
    do 3 eexists. split; [done|]. split_and!; eauto with aosl.
  - apply (rb_not_red _ _ _ Hl) in Hol as ->. apply (rb_not_red _ _ _ Hr) in Horr as ->.
    eexists. split; [|done]. eauto with aosl.
Qed.

(** Close a goal [rb (plug k t) Black m] from the position's invariant. *)
Ltac plug_rb := eapply rb_plug; [eassumption|cbn; eauto using rb_blacken_red with aosl|done].

Lemma del_fix_red k t : is_red t = true -> del_fix k t = plug k (blacken t).
Proof. intros Ht. destruct k; cbn [del_fix]; by rewrite Ht. Qed.

(** What a frame over a hole of height [S n] says of the rest. *)
Lemma rbctx_inv f k b n m :
  rbctx (f :: k) b n m ->
  exists c b', rb (fsib f) c n /\
    match fcolor f with
    | Red => c = Black /\ b' = false /\ rbctx k false n m
    | Black => rbctx k b' (S n) m
    end.
Proof.
  inversion 1 as [|? ? ? ? Hf Hs Hk|? ? cs b0 ? ? Hf Hs Hk]; subst; rewrite Hf;
    [exists Black, false|exists cs, b0]; eauto.
Qed.

(** The subtrees [bal_left] and [bal_right] produce fit the rest of the
    position, given that the walk goes on correctly from a black subtree
    that is one short. *)
Lemma del_step_rb k cp b' n m s (short : bool) :
  (forall b n t c, rbctx k b (S n) m -> rb t c n -> exists m', rb (del_fix k t) Black m') ->
  (match cp with Red => rbctx k false (S n) m | Black => rbctx k b' (S (S n)) m end) ->
  (if short then exists l r x cl cr, s = T cp l x r /\ rb l cl n /\ rb r cr n
   else exists l r x, s = T cp l x r /\ rb l Black (S n) /\ rb r Black (S n)) ->
  exists m', rb (if short then del_fix k s else blacken (plug k s)) Black m'.
Proof.
  intros IH Hk Hs. destruct short.
  - destruct Hs as (l & r & x & cl & cr & -> & Hl & Hr). destruct cp.
    + exists m. rewrite del_fix_red by done. cbn [blacken].
      plug_rb.
    + eapply IH; eauto with aosl.
  - destruct Hs as (l & r & x & -> & Hl & Hr). exists m.
    assert (Hp : rb (plug k (T cp l x r)) Black m)
      by (destruct cp; plug_rb).
    by rewrite (rb_blacken_black _ _ Hp).
Qed.

Lemma del_fix_rb k b n m t c :
  rbctx k b (S n) m -> rb t c n -> exists m', rb (del_fix k t) Black m'.
Proof.
  revert b n t c. induction k as [|f k IH]; intros b n t c Hk Ht.
  { cbn. destruct (is_red t) eqn:Hr.
    - apply (rb_is_red_spec _ _ _ Ht) in Hr as ->. eauto using rb_blacken_red.
    - apply (rb_not_red _ _ _ Ht) in Hr as ->. eauto. }
  destruct (is_red t) eqn:Hr.
  { rewrite del_fix_red by done. exists m. apply (rb_is_red_spec _ _ _ Ht) in Hr as ->.
    plug_rb. }
  destruct (rbctx_inv _ _ _ _ _ Hk) as (co & b' & Hs & Hf).
  cbn [del_fix]. rewrite Hr. destruct f as [cp p other|cp other p]; cbn in Hs, Hf.
  - destruct (decide (co = Red)) as [->|Hco].
    + inversion Hs as [|ol oa orr ? Hl Ho|]; subst. destruct cp; [by destruct Hf|].
      pose proof (bal_left_rb Red t c p ol n Ht Hl) as Hb.
      destruct (bal_left Red t p ol) as [s []].
      * destruct Hb as (o & Hor & ->). exists m. plug_rb.
      * destruct Hb as (l & r & x & -> & Hl' & Hr'). exists m.
        assert (Hp : rb (plug k (T Black (T Red l x r) oa orr)) Black m)
          by plug_rb.
        by rewrite (rb_blacken_black _ _ Hp).
    + assert (co = Black) as -> by (by destruct co).
      assert (Hg : exists m', rb (let (s, short) := bal_left cp t p other in
        if short then del_fix k s else blacken (plug k s)) Black m').
      { pose proof (bal_left_rb cp t c p other n Ht Hs) as Hb.
        destruct (bal_left cp t p other) as [s short].
        apply (del_step_rb k cp b' n m s short IH); [destruct cp; [by destruct Hf as (_ & _ & ?)|done]|].
        destruct short; [|done]. destruct Hb as (o & Hor & ->). eauto 10. }
      by inversion Hs; subst.
  - destruct (decide (co = Red)) as [->|Hco].
    + inversion Hs as [|ol oa orr ? Hl Ho|]; subst. destruct cp; [by destruct Hf|].
      pose proof (bal_right_rb Red t c p orr n Ht Ho) as Hb.
      destruct (bal_right Red orr p t) as [s []].
      * destruct Hb as (o & Hor & ->). exists m. plug_rb.
      * destruct Hb as (l & r & x & -> & Hl' & Hr'). exists m.
        assert (Hp : rb (plug k (T Black ol oa (T Red l x r))) Black m)
          by plug_rb.
        by rewrite (rb_blacken_black _ _ Hp).
    + assert (co = Black) as -> by (by destruct co).
      assert (Hg : exists m', rb (let (s, short) := bal_right cp other p t in
        if short then del_fix k s else blacken (plug k s)) Black m').
      { pose proof (bal_right_rb cp t c p other n Ht Hs) as Hb.
        destruct (bal_right cp other p t) as [s short].
        apply (del_step_rb k cp b' n m s short IH); [destruct cp; [by destruct Hf as (_ & _ & ?)|done]|].
        destruct short; [|done]. destruct Hb as (o & Hor & ->). eauto 10. }
      by inversion Hs; subst.
Qed.

(** ** Height *)

(** The height of a red-black tree is at most twice its black height, and a
    tree of black height [n] has at least [2^n - 1] nodes: searches take
    logarithmic time. *)
Lemma rb_height t c n :
  rb t c n -> (height t <= 2 * n + match c with Red => 1 | Black => 0 end)%nat.
Proof.
  induction 1 as [|l a r n Hl IHl Hr IHr|l a r cl cr n Hl IHl Hr IHr]; cbn [height]; [lia|lia|].
  destruct cl, cr; lia.
Qed.

Lemma rb_size t c n : rb t c n -> (2 ^ n <= S (size_t t))%nat.
Proof.
  induction 1 as [|l a r n Hl IHl Hr IHr|l a r cl cr n Hl IHl Hr IHr]; cbn [size_t Nat.pow]; lia.
Qed.

Lemma height_size t : (height t <= size_t t)%nat.
Proof. induction t; cbn; lia. Qed.

Lemma height_plug k t : (length k + height t <= height (plug k t))%nat.
Proof.
  revert t. induction k as [|f k IH]; intros t; cbn [plug length]; [lia|].
  specialize (IH (plug1 f t)). destruct f; cbn in *; lia.
Qed.
