(* ===== verification/RbRefine.v ===== *)
(** * The pointer code computes the functional model

    [zrep] says that memory holds a tree at a position: every node record
    has the right children, parent and colour.  The primitive operations
    (recolouring, rotation, linking, unlinking) are proved against memory;
    the rebalancing loops then follow by moving the position. *)
From S2P Require Import Prelude RbTree RbModel.
#[local] Open Scope aosl_scope.

(** ** Words that pack a parent and a colour *)

Definition colZ (c : color) : Z := match c with Red => AOSL_RB_RED | Black => AOSL_RB_BLACK end.

(** The word for parent [p] and colour [c]. *)
Definition pcw (p : Z) (c : color) : Z := p + colZ c.

(** NULL or the address of a node: nodes are aligned to 4 bytes. *)
Definition ptr_ok (p : Z) : Prop := 0 <= p /\ p mod 4 = 0.

Lemma colZ_range c : 0 <= colZ c <= 1.
Proof. unfold colZ, AOSL_RB_RED, AOSL_RB_BLACK. destruct c; lia. Qed.

Lemma ptr_ok_decomp p : ptr_ok p -> exists q, p = q * 4 /\ 0 <= q.
Proof. intros [H1 H2]. exists (p / 4). Z.div_mod_to_equations; lia. Qed.

Lemma land3 q b : 0 <= b < 4 -> Z.land (q * 4 + b) 3 = b.
Proof.
  intros. change 3 with (Z.ones 2). rewrite Z.land_ones by lia.
  change (2 ^ 2) with 4. rewrite Z.add_comm, Z.mod_add, Z.mod_small; lia.
Qed.

Lemma landn3 q b : 0 <= b < 4 -> Z.land (q * 4 + b) (Z.lnot 3) = q * 4.
Proof.
  intros. rewrite <-Z.ldiff_land. change 3 with (Z.ones 2). rewrite Z.ldiff_ones_r by lia.
  rewrite Z.shiftl_mul_pow2, Z.shiftr_div_pow2 by lia. change (2 ^ 2) with 4.
  f_equal. Z.div_mod_to_equations; lia.
Qed.

Lemma landn1 q b : 0 <= b <= 1 -> Z.land (q * 4 + b) (Z.lnot 1) = q * 4.
Proof.
  intros. rewrite <-Z.ldiff_land. change 1 with (Z.ones 1) at 1. rewrite Z.ldiff_ones_r by lia.
  rewrite Z.shiftl_mul_pow2, Z.shiftr_div_pow2 by lia. change (2 ^ 1) with 2.
  Z.div_mod_to_equations; lia.
Qed.

Lemma lor_low q b : 0 <= b < 4 -> Z.lor b (q * 4) = q * 4 + b.
Proof.
  intros Hb. assert (Hl : Z.land b (q * 4) = 0).
  { apply Z.bits_inj'. intros n Hn. rewrite Z.land_spec, Z.bits_0.
    change 4 with (2 ^ 2). rewrite <-Z.shiftl_mul_pow2 by lia.
    destruct (Z.lt_ge_cases n 2).
    - rewrite Z.shiftl_spec_low by lia. apply andb_false_r.
    - destruct (Z.eq_dec b 0) as [->|]; [by rewrite Z.bits_0|].
      rewrite (Z.bits_above_log2 b); [done|lia|].
      apply Z.log2_lt_pow2; [lia|]. pose proof (Z.pow_le_mono_r 2 2 n). lia. }
  pose proof (Z.add_lor_land b (q * 4)). lia.
Qed.

Lemma rb_parent_pcw p c : ptr_ok p -> rb_parent_w (pcw p c) = p.
Proof.
  intros (q & -> & _)%ptr_ok_decomp. pose proof (colZ_range c). apply landn3. lia.
Qed.

Lemma rb_color_pcw p c : ptr_ok p -> rb_color_w (pcw p c) = colZ c.
Proof.
  intros (q & -> & _)%ptr_ok_decomp. unfold rb_color_w, pcw.
  change 1 with (Z.ones 1). rewrite Z.land_ones by lia. change (2 ^ 1) with 2.
  pose proof (colZ_range c). Z.div_mod_to_equations; lia.
Qed.

Lemma pcw_set_red p c : ptr_ok p -> Z.land (pcw p c) (Z.lnot 1) = pcw p Red.
Proof.
  intros (q & -> & _)%ptr_ok_decomp. unfold pcw. rewrite landn1 by apply colZ_range. change (colZ Red) with 0. lia.
Qed.

Lemma pcw_set_color p c c' : ptr_ok p -> Z.lor (Z.land (pcw p c) (Z.lnot 1)) (colZ c') = pcw p c'.
Proof.
  intros (q & -> & _)%ptr_ok_decomp. unfold pcw. pose proof (colZ_range c').
  rewrite landn1, Z.lor_comm, lor_low by (apply colZ_range || lia). done.
Qed.

Lemma pcw_set_black p c : ptr_ok p -> Z.lor (pcw p c) 1 = pcw p Black.
Proof.
  intros Hp. rewrite <-(pcw_set_color p c Black Hp) at 1.
  destruct (ptr_ok_decomp p Hp) as (q & -> & _). unfold pcw.
  rewrite landn1 by apply colZ_range. pose proof (colZ_range c).
  rewrite (Z.add_comm (q * 4) (colZ c)), Z.add_comm, <-(lor_low q (colZ c)) by lia.
  rewrite (Z.lor_comm (colZ c)), <-Z.lor_assoc. by destruct c.
Qed.

Lemma pcw_set_parent p q c : ptr_ok p -> ptr_ok q -> Z.lor (Z.land (pcw q c) 3) p = pcw p c.
Proof.
  intros (p' & -> & _)%ptr_ok_decomp (q' & -> & _)%ptr_ok_decomp. unfold pcw.
  pose proof (colZ_range c). rewrite land3, lor_low by lia. done.
Qed.

(** ** Representation *)

Definition ptr (t : tree) : Z := match t with E => 0 | T _ _ a _ => a end.
Definition top (k : list frame) : Z := match k with [] => 0 | f :: _ => faddr f end.

(** The nodes of [t] are in [h], under the parent [par]. *)
Fixpoint rep (h : gmap Z aosl_rb_node) (par : Z) (t : tree) : Prop :=
  match t with
  | E => True
  | T c l a r => h !! a = Some (MkNode (pcw par c) (ptr r) (ptr l)) /\ rep h a l /\ rep h a r
  end.

(** The nodes of the position [k] are in [h], with [p] in the hole and [rt]
    at the root. *)
Fixpoint repk (h : gmap Z aosl_rb_node) (k : list frame) (p rt : Z) : Prop :=
  match k with
  | [] => rt = p
  | FL c a r :: k' =>
    h !! a = Some (MkNode (pcw (top k') c) (ptr r) p) /\ rep h a r /\ repk h k' a rt
  | FR c l a :: k' =>
    h !! a = Some (MkNode (pcw (top k') c) p (ptr l)) /\ rep h a l /\ repk h k' a rt
  end.

Fixpoint elementsk (k : list frame) : list Z :=
  match k with
  | [] => []
  | f :: k' => faddr f :: elements (fsib f) ++ elementsk k'
  end.

(** Every node is at an aligned, non-NULL address, and no two coincide. *)
Definition addrs_ok (l : list Z) : Prop := NoDup l /\ Forall (fun a => 0 < a /\ a mod 4 = 0) l.

(** Memory [s] holds the tree [plug k t]; outside the tree it is [h0], and
    the count field is [n]. *)
Definition zrep (h0 : gmap Z aosl_rb_node) (n : Z) (s : rbst) (k : list frame) (t : tree) : Prop :=
  rep (mem s) (top k) t /\
  repk (mem s) k (ptr t) (root s) /\
  addrs_ok (elements t ++ elementsk k) /\
  (forall a, a ∉ elements t ++ elementsk k -> mem s !! a = h0 !! a) /\
  count s = n.

(** The whole tree. *)
Definition rb_rep (h0 : gmap Z aosl_rb_node) (n : Z) (s : rbst) (t : tree) : Prop := zrep h0 n s [] t.

(** ** Framing *)

Lemma rep_ext h h' par t : (forall a, a ∈ elements t -> h' !! a = h !! a) -> rep h par t -> rep h' par t.
Proof.
  revert par. induction t as [|c l IHl a r IHr]; intros par Hh; cbn; [done|].
  intros (Ha & Hl & Hr). cbn in Hh. split_and!.
  - rewrite Hh; [done|set_solver].
  - apply IHl; [|done]. intros; apply Hh; set_solver.
  - apply IHr; [|done]. intros; apply Hh; set_solver.
Qed.

Lemma repk_ext h h' k p rt :
  (forall a, a ∈ elementsk k -> h' !! a = h !! a) -> repk h k p rt -> repk h' k p rt.
Proof.
  revert p. induction k as [|f k IH]; intros p Hh; cbn; [done|].
  cbn in Hh. destruct f; cbn in *; intros (Ha & Hs & Hk); split_and!;
    solve [rewrite Hh; [done|set_solver] | eapply rep_ext; [|done]; intros; apply Hh; set_solver
          | apply IH; [|done]; intros; apply Hh; set_solver].
Qed.

(** Moving the position up or down. *)
Lemma addrs_perm l l' : l ≡ₚ l' -> addrs_ok l -> addrs_ok l'.
Proof. intros Hp [H1 H2]. split; by rewrite <-Hp. Qed.

Lemma elements_up f k t :
  elements t ++ elementsk (f :: k) ≡ₚ elements (plug1 f t) ++ elementsk k.
Proof. destruct f; cbn; solve_Permutation. Qed.

Lemma zrep_up h0 n s f k t : zrep h0 n s (f :: k) t <-> zrep h0 n s k (plug1 f t).
Proof.
  unfold zrep. pose proof (elements_up f k t) as Hp.
  assert (Ha : addrs_ok (elements t ++ elementsk (f :: k)) <-> addrs_ok (elements (plug1 f t) ++ elementsk k))
    by (split; apply addrs_perm; [done|by symmetry]).
  assert (Ho : (forall a, a ∉ elements t ++ elementsk (f :: k) -> mem s !! a = h0 !! a) <->
    (forall a, a ∉ elements (plug1 f t) ++ elementsk k -> mem s !! a = h0 !! a)).
  { split; intros H a Hn; apply H; [by rewrite Hp|by rewrite <-Hp]. }
  rewrite Ha, Ho. destruct f; cbn; tauto.
Qed.

Lemma zrep_plug h0 n s ks k t : zrep h0 n s (ks ++ k) t <-> zrep h0 n s k (plug ks t).
Proof.
  revert t. induction ks as [|f ks IH]; intros t; [done|].
  cbn [plug app]. by rewrite zrep_up, IH.
Qed.

(** ** Loads and stores *)

(** The store at [r], in a memory where [r] designates a node. *)
Definition upd (s : rbst) (r : Z) (nd : aosl_rb_node) : rbst :=
  MkRb (<[r := nd]> (mem s)) (root s) (count s).

Section Prim.
Context (s : rbst) (r : Z) (w right left : Z) (Q : unit -> rbst -> Prop).
Hypothesis Hr : mem s !! r = Some (MkNode w right left).

Lemma load_wp (Q' : aosl_rb_node -> rbst -> Prop) : Q' (MkNode w right left) s -> wp (load r) s Q'.
Proof. intros. unfold wp, load. run. by rewrite Hr. Qed.
Lemma store_wp nd : Q tt (upd s r nd) -> wp (store r nd) s Q.
Proof. intros. unfold wp, store. run. by rewrite Hr. Qed.
Lemma get_left_wp (Q' : Z -> rbst -> Prop) : Q' left s -> wp (get_left r) s Q'.
Proof. intros. by apply wp_bind, load_wp. Qed.
Lemma get_right_wp (Q' : Z -> rbst -> Prop) : Q' right s -> wp (get_right r) s Q'.
Proof. intros. by apply wp_bind, load_wp. Qed.
Lemma rb_parent_wp (Q' : Z -> rbst -> Prop) : Q' (rb_parent_w w) s -> wp (rb_parent r) s Q'.
Proof. intros. by apply wp_bind, load_wp. Qed.
Lemma rb_color_wp (Q' : Z -> rbst -> Prop) : Q' (rb_color_w w) s -> wp (rb_color r) s Q'.
Proof. intros. by apply wp_bind, load_wp. Qed.
Lemma set_left_wp p : Q tt (upd s r (MkNode w right p)) -> wp (set_left r p) s Q.
Proof. intros. by apply wp_bind, load_wp, store_wp. Qed.
Lemma set_right_wp p : Q tt (upd s r (MkNode w p left)) -> wp (set_right r p) s Q.
Proof. intros. by apply wp_bind, load_wp, store_wp. Qed.
Lemma set_pc_wp w' : Q tt (upd s r (MkNode w' right left)) -> wp (set_pc r w') s Q.
Proof. intros. by apply wp_bind, load_wp, store_wp. Qed.
End Prim.

Section Packed.
Context (s : rbst) (r p : Z) (c : color) (right left : Z) (Q : unit -> rbst -> Prop).
Hypothesis Hr : mem s !! r = Some (MkNode (pcw p c) right left).
Hypothesis Hp : ptr_ok p.

Lemma parent_wp (Q' : Z -> rbst -> Prop) : Q' p s -> wp (rb_parent r) s Q'.
Proof. intros. eapply rb_parent_wp; [done|]. by rewrite rb_parent_pcw. Qed.
Lemma color_wp (Q' : Z -> rbst -> Prop) : Q' (colZ c) s -> wp (rb_color r) s Q'.
Proof. intros. eapply rb_color_wp; [done|]. by rewrite rb_color_pcw. Qed.
Lemma is_red_wp (Q' : bool -> rbst -> Prop) : Q' (bool_decide (c = Red)) s -> wp (rb_is_red r) s Q'.
Proof. intros. apply wp_bind, color_wp. by destruct c. Qed.
Lemma is_black_wp (Q' : bool -> rbst -> Prop) : Q' (bool_decide (c = Black)) s -> wp (rb_is_black r) s Q'.
Proof. intros. apply wp_bind, color_wp. by destruct c. Qed.
Lemma set_parent_wp p' :
  ptr_ok p' -> Q tt (upd s r (MkNode (pcw p' c) right left)) -> wp (rb_set_parent r p') s Q.
Proof.
  intros Hp' HQ. apply wp_bind. eapply load_wp; [done|]. eapply set_pc_wp; [done|].
  cbn. by rewrite pcw_set_parent.
Qed.
Lemma set_red_wp : Q tt (upd s r (MkNode (pcw p Red) right left)) -> wp (rb_set_red r) s Q.
Proof.
  intros HQ. apply wp_bind. eapply load_wp; [done|]. eapply set_pc_wp; [done|].
  cbn. by rewrite pcw_set_red.
Qed.
Lemma set_black_wp : Q tt (upd s r (MkNode (pcw p Black) right left)) -> wp (rb_set_black r) s Q.
Proof.
  intros HQ. apply wp_bind. eapply load_wp; [done|]. eapply set_pc_wp; [done|].
  cbn. by rewrite pcw_set_black.
Qed.
Lemma set_color_wp c' :
  Q tt (upd s r (MkNode (pcw p c') right left)) -> wp (rb_set_color r (colZ c')) s Q.
Proof.
  intros HQ. apply wp_bind. eapply load_wp; [done|]. eapply set_pc_wp; [done|].
  cbn. by rewrite pcw_set_color.
Qed.
End Packed.

(** ** Facts of a position *)

Lemma addrs_ok_ptr L a : addrs_ok L -> a ∈ L -> ptr_ok a /\ a <> 0.
Proof. intros [_ HF] Ha. rewrite Forall_forall in HF. destruct (HF a Ha). split; [split|]; lia. Qed.

Lemma addrs_incl L L' : addrs_ok L -> NoDup L' -> (forall a, a ∈ L' -> a ∈ L) -> addrs_ok L'.
Proof. intros [_ HF] Hnd Hi. split; [done|]. rewrite Forall_forall in *. eauto. Qed.

Lemma ptr_ok_0 : ptr_ok 0.
Proof. by split. Qed.

Lemma top_elem k : top k = 0 \/ top k ∈ elementsk k.
Proof. destruct k; cbn; [by left|right; set_solver]. Qed.

Lemma ptr_elem t : ptr t = 0 \/ ptr t ∈ elements t.
Proof. destruct t; cbn; [by left|right; set_solver]. Qed.

Lemma zrep_top_ok h0 n s k t : zrep h0 n s k t -> ptr_ok (top k).
Proof.
  intros (_ & _ & Ha & _). destruct (top_elem k) as [->|He]; [apply ptr_ok_0|].
  eapply addrs_ok_ptr; [done|set_solver].
Qed.

(** The node in focus. *)
Lemma zrep_node h0 n s k c l a r :
  zrep h0 n s k (T c l a r) ->
  mem s !! a = Some (MkNode (pcw (top k) c) (ptr r) (ptr l)) /\ ptr_ok (top k) /\ ptr_ok a /\ a <> 0.
Proof.
  intros Hz. pose proof (zrep_top_ok _ _ _ _ _ Hz) as Ht. destruct Hz as ((Hm & _) & _ & Ha & _).
  split_and!; try done; eapply addrs_ok_ptr; try done; cbn; set_solver.
Qed.

(** A subtree's root pointer is NULL exactly for a leaf. *)
Lemma zrep_ptr_eqb h0 n s k t : zrep h0 n s k t -> (ptr t =? 0) = match t with E => true | _ => false end.
Proof.
  intros Hz. destruct t; [done|]. apply zrep_node in Hz as (_ & _ & _ & ?). cbn. by apply Z.eqb_neq.
Qed.

(** ** Stores and the position *)

(** Break a distinctness fact into disjointness facts that [set_solver] uses. *)
Ltac break_nodup H :=
  repeat rewrite ?NoDup_app, ?NoDup_cons, ?elem_of_app, ?elem_of_cons in H; destruct_and? H.

(** Membership in, and disjointness of, lists of addresses, from the facts
    [break_nodup] produces. *)
Ltac split_mem := repeat match goal with
  | H : _ ∈ _ ++ _ |- _ => apply elem_of_app in H as [H|H]
  | H : _ ∈ _ :: _ |- _ => apply elem_of_cons in H as [H|H]; [try subst|]
  | H : _ ∈ [] |- _ => by apply elem_of_nil in H
  end.
Ltac mem := rewrite ?elem_of_app, ?elem_of_cons, ?elem_of_app, ?elem_of_cons, ?elem_of_app, ?elem_of_cons; tauto.
Ltac disj :=
  intros; try (intros ?); subst; split_mem; try tauto; try congruence;
  match goal with
  | HN : forall x, x ∈ _ -> x ∉ _, H : ?x ∈ _ |- False => solve [apply (HN x); mem]
  | HN : _ ∉ _ |- False => solve [apply HN; mem]
  | HN : forall x, x ∈ _ -> x ∉ _ |- False => solve [eapply HN; mem]
  end.

(** [s'] differs from [s] only at addresses of [X], and in the root. *)
Definition touched (X : list Z) (s s' : rbst) : Prop :=
  (forall a, a ∉ X -> mem s' !! a = mem s !! a) /\ count s' = count s.

Lemma touched_upd s r nd : touched [r] s (upd s r nd).
Proof. split; [|done]. intros a Ha. cbn. apply lookup_insert_ne. set_solver. Qed.

Lemma touched_mono X Y s s' : (forall a, a ∈ X -> a ∈ Y) -> touched X s s' -> touched Y s s'.
Proof. intros HXY [H C]. split; [|done]. intros a Ha. apply H. intros ?. by apply Ha, HXY. Qed.

Lemma touched_lookup X s s' a nd :
  touched X s s' -> a ∉ X -> mem s !! a = Some nd -> mem s' !! a = Some nd.
Proof. intros [H _] Ha <-. by apply H. Qed.

Lemma touched_trans X Y s s1 s2 : touched X s s1 -> touched Y s1 s2 -> touched (X ++ Y) s s2.
Proof.
  intros [H1 C1] [H2 C2]. split; [|congruence]. intros a Ha.
  rewrite H2, H1; [done|set_solver|set_solver].
Qed.

Lemma touched_rep X s s' par t :
  touched X s s' -> (forall a, a ∈ X -> a ∉ elements t) -> rep (mem s) par t -> rep (mem s') par t.
Proof. intros [H _] Hd. apply rep_ext. intros a Ha. apply H. intros ?. by eapply Hd. Qed.

Lemma touched_repk X s s' k p rt :
  touched X s s' -> (forall a, a ∈ X -> a ∉ elementsk k) -> repk (mem s) k p rt -> repk (mem s') k p rt.
Proof. intros [H _] Hd. apply repk_ext. intros a Ha. apply H. intros ?. by eapply Hd. Qed.

(** Recolouring the node in focus. *)
Lemma zrep_recolor h0 n s k c c' l a r :
  zrep h0 n s k (T c l a r) ->
  zrep h0 n (upd s a (MkNode (pcw (top k) c') (ptr r) (ptr l))) k (T c' l a r).
Proof.
  intros ((Hm & Hl & Hr) & Hk & Ha & Ho & Hc). pose proof Ha as [Hnd _]. cbn in Hnd. break_nodup Hnd.
  pose proof (touched_upd s a (MkNode (pcw (top k) c') (ptr r) (ptr l))) as Ht.
  split_and!; [cbn [rep]; split_and!| | | |done].
  - apply lookup_insert_eq.
  - eapply touched_rep; [done|set_solver|done].
  - eapply touched_rep; [done|set_solver|done].
  - eapply touched_repk; [done|set_solver|done].
  - done.
  - intros b Hb. cbn [elements] in Hb. rewrite (proj1 Ht); [apply Ho; done|set_solver].
Qed.

(** The new parent of a subtree. *)
Lemma reparent_wp s par p t :
  rep (mem s) par t -> addrs_ok (elements t) -> ptr_ok par -> ptr_ok p ->
  wp (when negb (ptr t =? 0) then rb_set_parent (ptr t) p) s
     (fun _ s' => rep (mem s') p t /\ touched (elements t) s s' /\ root s' = root s).
Proof.
  intros Ht Ha Hpar Hp. destruct t as [|c l a r]; cbn [ptr].
  - cbn. apply wp_ret. repeat split; done.
  - destruct Ht as (Hm & Hl & Hr).
    destruct (addrs_ok_ptr _ a Ha) as [_ Hne]; [cbn; set_solver|].
    rewrite (proj2 (Z.eqb_neq a 0) Hne). cbn [negb].
    eapply set_parent_wp; [done..|]. destruct Ha as [Hnd _]. cbn in Hnd. break_nodup Hnd.
    split; [|split; [eapply touched_mono; [|apply touched_upd]; set_solver|done]].
    cbn [rep]. split; [apply lookup_insert_eq|].
    split; eapply touched_rep; try apply touched_upd; try done; set_solver.
Qed.

(** The address of the link that is the hole of a position. *)
Definition link_of (k : list frame) : rb_link :=
  match k with [] => LRoot | FL _ a _ :: _ => LLeft a | FR _ _ a :: _ => LRight a end.

Lemma set_link_wp s k p new :
  repk (mem s) k p (root s) -> NoDup (elementsk k) ->
  wp (set_link (link_of k) new) s
     (fun _ s' => repk (mem s') k new (root s') /\ touched (elementsk k) s s').
Proof.
  intros Hk Hnd. destruct k as [|f k]; [by repeat split|].
  cbn in Hnd. break_nodup Hnd.
  destruct f as [c a r|c l a]; destruct Hk as (Hm & Hs & Hk); cbn [link_of set_link];
    first [eapply set_left_wp; [done|] | eapply set_right_wp; [done|]];
    (split; [|eapply touched_mono; [|apply touched_upd]; cbn; set_solver]); cbn [repk];
    (split; [apply lookup_insert_eq|]);
    (split; [eapply touched_rep|eapply touched_repk]; try apply touched_upd; try done; set_solver).
Qed.

(** The three ways the code redirects the link of a parent from [node] to
    [new]: they differ in the link that is tested. *)
Inductive link_test := TestLeft | TestRight | TestLeft'.
Definition relink (v : link_test) (parent node new : Z) : CM rbst unit :=
  match v with
  | TestLeft =>
    if negb (parent =? 0) then
      do pl <- get_left parent;
      if node =? pl then set_left parent new else set_right parent new
    else set_root new
  | TestRight =>
    if negb (parent =? 0) then
      do pr <- get_right parent;
      if node =? pr then set_right parent new else set_left parent new
    else set_root new
  | TestLeft' =>
    if negb (parent =? 0) then
      do pl <- get_left parent;
      if pl =? node then set_left parent new else set_right parent new
    else set_root new
  end.

Lemma relink_wp v s k p new :
  repk (mem s) k p (root s) -> addrs_ok (elementsk k) -> p <> 0 -> p ∉ elementsk k ->
  wp (relink v (top k) p new) s
     (fun _ s' => repk (mem s') k new (root s') /\ touched (elementsk k) s s').
Proof.
  intros Hk Ha Hp Hpk. pose proof (set_link_wp s k p new Hk (proj1 Ha)) as Hset.
  destruct k as [|f k]; [by destruct v|].
  destruct (addrs_ok_ptr _ (faddr f) Ha) as [_ Hne]; [cbn; set_solver|].
  assert (Hsib : ptr (fsib f) <> p).
  { destruct (ptr_elem (fsib f)) as [->|?]; [congruence|]. intros <-. cbn in Hpk. set_solver. }
  unfold relink. cbn [top]. rewrite (proj2 (Z.eqb_neq _ 0) Hne). cbn [negb].
  destruct f as [c a r|c l a], v; cbn [faddr fsib link_of set_link] in *; destruct Hk as (Hm & _); apply wp_bind;
    first [eapply get_left_wp; [done|] | eapply get_right_wp; [done|]];
    rewrite ?Z.eqb_refl, ?(proj2 (Z.eqb_neq p _)), ?(proj2 (Z.eqb_neq _ p)) by congruence; done.
Qed.

(** Assemble a representation from its pieces after some stores. *)
Lemma zrep_intro h0 n s s' X k t L :
  (forall a, a ∉ L -> mem s !! a = h0 !! a) -> count s = n ->
  touched X s s' -> (forall a, a ∈ X -> a ∈ L) ->
  L ≡ₚ elements t ++ elementsk k -> addrs_ok L ->
  rep (mem s') (top k) t -> repk (mem s') k (ptr t) (root s') -> zrep h0 n s' k t.
Proof.
  intros Ho Hc [Ht Hc'] HX HL Ha Hr Hk. split_and!; try done.
  - by eapply addrs_perm.
  - intros a Hn. rewrite <-HL in Hn. rewrite Ht by (intros ?; by apply Hn, HX). by apply Ho.
  - congruence.
Qed.

(** ** Rotations *)

Lemma rotate_left_wp h0 n s k c l a c2 rl b rr :
  zrep h0 n s k (T c l a (T c2 rl b rr)) ->
  wp (__rb_rotate_left a) s (fun _ s' => zrep h0 n s' k (T c2 (T c l a rl) b rr)).
Proof.
  intros Hz. pose proof (zrep_node _ _ _ _ _ _ _ _ Hz) as (Hma & Hk & Hpa & Ha0).
  destruct Hz as ((_ & Hl & (Hmb & Hrl & Hrr)) & Hrk & Had & Ho & Hc).
  destruct (addrs_ok_ptr _ b Had) as [Hpb Hb0]; [cbn; mem|].
  pose proof Had as [Hnd _]. cbn [elements] in Hnd. break_nodup Hnd.
  assert (Hab : a <> b) by disj.
  unfold __rb_rotate_left.
  apply wp_bind. eapply get_right_wp; [done|]. cbn [ptr].
  apply wp_bind. eapply parent_wp; [done..|].
  apply wp_bind. eapply get_left_wp; [done|].
  apply wp_bind. eapply set_right_wp; [done|].
  set (s1 := upd s a _). assert (T1 : touched [a] s s1) by apply touched_upd.
  wstep (reparent_wp s1 b a rl).
  1: { eapply touched_rep; [done| |done]. disj. }
  all: try done.
  1: { eapply addrs_incl; [done..|]. cbn [elements]. intros; mem. }
  intros _ s2 (Hrl2 & T2 & R2).
  assert (Hmb2 : mem s2 !! b = Some (MkNode (pcw a c2) (ptr rr) (ptr rl))).
  { eapply touched_lookup; [done|disj|]. by eapply touched_lookup; [done|disj|]. }
  apply wp_bind. eapply set_left_wp; [done|].
  apply wp_bind. eapply set_parent_wp; [apply lookup_insert_eq|done..|].
  set (s3 := upd (upd s2 _ _) _ _).
  assert (T3 : touched [b] s2 s3).
  { eapply touched_mono; [|eapply touched_trans; apply touched_upd]. intros; split_mem; mem. }
  assert (T13 : touched ([a] ++ elements rl ++ [b]) s s3) by eauto using touched_trans.
  wstep (relink_wp TestLeft s3 k a b).
  1: { eapply touched_repk; [done|disj|]. cbn. by rewrite R2. }
  1: { eapply addrs_incl; [done..|]. intros; mem. }
  1: done.
  1: disj.
  intros _ s4 (Hk4 & T4).
  eapply (set_parent_wp _ _ (top k)); [|done..|].
  { eapply touched_lookup; [done|disj|]. eapply (touched_lookup _ _ _ _ _ T3); [disj|].
    eapply touched_lookup; [done|disj|]. apply lookup_insert_eq. }
  set (s5 := upd s4 _ _). assert (T5 : touched [a] s4 s5) by apply touched_upd.
  assert (T45 : touched (elementsk k ++ [a]) s3 s5) by eauto using touched_trans.
  assert (T15 : touched ([a] ++ elements rl ++ [b] ++ elementsk k ++ [a]) s s5).
  { rewrite !(assoc_L app). rewrite !(assoc_L app) in *. eauto using touched_trans. }
  eapply (zrep_intro h0 n s s5); [done|done|done| | |done|..].
  - cbn [elements]. intros; split_mem; mem.
  - cbn [elements]. solve_Permutation.
  - cbn [rep]. split_and!.
    + eapply (touched_lookup _ _ _ _ _ T45); [disj|]. apply lookup_insert_eq.
    + apply lookup_insert_eq.
    + eapply touched_rep; [done|disj|done].
    + eapply (touched_rep _ _ _ _ _ T45); [disj|]. eapply (touched_rep _ _ _ _ _ T3); [disj|done].
    + eapply touched_rep; [done|disj|done].
  - cbn [ptr]. eapply (touched_repk _ _ _ _ _ _ T5); [disj|done].
Qed.

Lemma rotate_right_wp h0 n s k c c2 ll b lr a r :
  zrep h0 n s k (T c (T c2 ll b lr) a r) ->
  wp (__rb_rotate_right a) s (fun _ s' => zrep h0 n s' k (T c2 ll b (T c lr a r))).
Proof.
  intros Hz. pose proof (zrep_node _ _ _ _ _ _ _ _ Hz) as (Hma & Hk & Hpa & Ha0).
  destruct Hz as ((_ & (Hmb & Hll & Hlr) & Hr) & Hrk & Had & Ho & Hc).
  destruct (addrs_ok_ptr _ b Had) as [Hpb Hb0]; [cbn; mem|].
  pose proof Had as [Hnd _]. cbn [elements] in Hnd. break_nodup Hnd.
  assert (Hab : a <> b) by disj.
  unfold __rb_rotate_right.
  apply wp_bind. eapply get_left_wp; [done|]. cbn [ptr].
  apply wp_bind. eapply parent_wp; [done..|].
  apply wp_bind. eapply get_right_wp; [done|].
  apply wp_bind. eapply set_left_wp; [done|].
  set (s1 := upd s a _). assert (T1 : touched [a] s s1) by apply touched_upd.
  wstep (reparent_wp s1 b a lr).
  1: { eapply touched_rep; [done| |done]. disj. }
  all: try done.
  1: { eapply addrs_incl; [done..|]. cbn [elements]. intros; mem. }
  intros _ s2 (Hlr2 & T2 & R2).
  assert (Hmb2 : mem s2 !! b = Some (MkNode (pcw a c2) (ptr lr) (ptr ll))).
  { eapply touched_lookup; [done|disj|]. by eapply touched_lookup; [done|disj|]. }
  apply wp_bind. eapply set_right_wp; [done|].
  apply wp_bind. eapply set_parent_wp; [apply lookup_insert_eq|done..|].
  set (s3 := upd (upd s2 _ _) _ _).
  assert (T3 : touched [b] s2 s3).
  { eapply touched_mono; [|eapply touched_trans; apply touched_upd]. intros; split_mem; mem. }
  assert (T13 : touched ([a] ++ elements lr ++ [b]) s s3) by eauto using touched_trans.
  wstep (relink_wp TestRight s3 k a b).
  1: { eapply touched_repk; [done|disj|]. cbn. by rewrite R2. }
  1: { eapply addrs_incl; [done..|]. intros; mem. }
  1: done.
  1: disj.
  intros _ s4 (Hk4 & T4).
  eapply (set_parent_wp _ _ (top k)); [|done..|].
  { eapply touched_lookup; [done|disj|]. eapply (touched_lookup _ _ _ _ _ T3); [disj|].
    eapply touched_lookup; [done|disj|]. apply lookup_insert_eq. }
  set (s5 := upd s4 _ _). assert (T5 : touched [a] s4 s5) by apply touched_upd.
  assert (T45 : touched (elementsk k ++ [a]) s3 s5) by eauto using touched_trans.
  assert (T15 : touched ([a] ++ elements lr ++ [b] ++ elementsk k ++ [a]) s s5).
  { rewrite !(assoc_L app). rewrite !(assoc_L app) in *. eauto using touched_trans. }
  eapply (zrep_intro h0 n s s5); [done|done|done| | |done|..].
  - cbn [elements]. intros; split_mem; mem.
  - cbn [elements]. solve_Permutation.
  - cbn [rep]. split_and!.
    + eapply (touched_lookup _ _ _ _ _ T45); [disj|]. apply lookup_insert_eq.
    + eapply touched_rep; [done|disj|done].
    + apply lookup_insert_eq.
    + eapply (touched_rep _ _ _ _ _ T45); [disj|]. eapply (touched_rep _ _ _ _ _ T3); [disj|done].
    + eapply touched_rep; [done|disj|done].
  - cbn [ptr]. eapply (touched_repk _ _ _ _ _ _ T5); [disj|done].
Qed.
