(* ===== verification/RbInsert.v ===== *)
(** * Insertion into the red-black tree

    The insertion of [lib/rbtree.c] (search for the link, linking, and the
    rebalancing loop) computes [ins_fix] on the position the search finds. *)
From S2P Require Import Prelude RbTree RbModel RbRefine.
#[local] Open Scope aosl_scope.

(** ** Operations at a path below the focus *)

Section At.
Context (h0 : gmap Z aosl_rb_node) (n : Z) (s : rbst) (ks k : list frame) (c : color) (l r : tree) (a : Z).
Hypothesis Hz : zrep h0 n s k (plug ks (T c l a r)).

Lemma node_at :
  mem s !! a = Some (MkNode (pcw (top (ks ++ k)) c) (ptr r) (ptr l)) /\
  ptr_ok (top (ks ++ k)) /\ ptr_ok a /\ a <> 0.
Proof. apply zrep_plug in Hz. by apply zrep_node in Hz. Qed.

Lemma left_at (Q : Z -> rbst -> Prop) : Q (ptr l) s -> wp (get_left a) s Q.
Proof. destruct node_at as (? & _). by eapply get_left_wp. Qed.
Lemma right_at (Q : Z -> rbst -> Prop) : Q (ptr r) s -> wp (get_right a) s Q.
Proof. destruct node_at as (? & _). by eapply get_right_wp. Qed.
Lemma parent_at (Q : Z -> rbst -> Prop) : Q (top (ks ++ k)) s -> wp (rb_parent a) s Q.
Proof. destruct node_at as (? & ? & _). by eapply parent_wp. Qed.
Lemma color_at (Q : Z -> rbst -> Prop) : Q (colZ c) s -> wp (rb_color a) s Q.
Proof. destruct node_at as (? & ? & _). by eapply color_wp. Qed.
Lemma is_red_at (Q : bool -> rbst -> Prop) : Q (bool_decide (c = Red)) s -> wp (rb_is_red a) s Q.
Proof. destruct node_at as (? & ? & _). by eapply is_red_wp. Qed.
Lemma is_black_at (Q : bool -> rbst -> Prop) : Q (bool_decide (c = Black)) s -> wp (rb_is_black a) s Q.
Proof. destruct node_at as (? & ? & _). by eapply is_black_wp. Qed.

Lemma set_color_at (Q : unit -> rbst -> Prop) c' :
  (forall s', zrep h0 n s' k (plug ks (T c' l a r)) -> Q tt s') -> wp (rb_set_color a (colZ c')) s Q.
Proof.
  intros HQ. destruct node_at as (? & ? & _). eapply set_color_wp; [done..|].
  apply HQ, zrep_plug. eapply zrep_recolor. by apply zrep_plug.
Qed.
Lemma set_black_at (Q : unit -> rbst -> Prop) :
  (forall s', zrep h0 n s' k (plug ks (T Black l a r)) -> Q tt s') -> wp (rb_set_black a) s Q.
Proof.
  intros HQ. destruct node_at as (? & ? & _). eapply set_black_wp; [done..|].
  apply HQ, zrep_plug. eapply zrep_recolor. by apply zrep_plug.
Qed.
Lemma set_red_at (Q : unit -> rbst -> Prop) :
  (forall s', zrep h0 n s' k (plug ks (T Red l a r)) -> Q tt s') -> wp (rb_set_red a) s Q.
Proof.
  intros HQ. destruct node_at as (? & ? & _). eapply set_red_wp; [done..|].
  apply HQ, zrep_plug. eapply zrep_recolor. by apply zrep_plug.
Qed.
End At.

Lemma rotate_left_at h0 n s ks k c l a c2 rl b rr (Q : unit -> rbst -> Prop) :
  zrep h0 n s k (plug ks (T c l a (T c2 rl b rr))) ->
  (forall s', zrep h0 n s' k (plug ks (T c2 (T c l a rl) b rr)) -> Q tt s') ->
  wp (__rb_rotate_left a) s Q.
Proof.
  rewrite <-zrep_plug. intros Hz HQ. wlast rotate_left_wp; [done|].
  intros [] s'. rewrite zrep_plug. auto.
Qed.

Lemma rotate_right_at h0 n s ks k c c2 ll b lr a r (Q : unit -> rbst -> Prop) :
  zrep h0 n s k (plug ks (T c (T c2 ll b lr) a r)) ->
  (forall s', zrep h0 n s' k (plug ks (T c2 ll b (T c lr a r))) -> Q tt s') ->
  wp (__rb_rotate_right a) s Q.
Proof.
  rewrite <-zrep_plug. intros Hz HQ. wlast rotate_right_wp; [done|].
  intros [] s'. rewrite zrep_plug. auto.
Qed.

(** [at_step H]: run the first operation of the sequence with the [_at] lemma
    [H], keeping the representation in the hypothesis [Hz]. *)
Tactic Notation "at_get" uconstr(H) := apply wp_bind; eapply H; [eassumption|]; cbn [ptr app top faddr].
Tactic Notation "at_set" uconstr(H) ident(Hz) :=
  apply wp_bind; eapply H; [eassumption|]; clear Hz; intros ? Hz; cbn [plug plug1] in Hz.

(** Whether a subtree is red, as the code tests it. *)
Lemma red_test_at h0 n s ks k t (Q : bool -> rbst -> Prop) :
  zrep h0 n s k (plug ks t) -> Q (is_red t) s ->
  wp (if ptr t =? 0 then cret false else rb_is_red (ptr t)) s Q.
Proof.
  intros Hz HQ. rewrite <-zrep_plug in Hz. pose proof (zrep_ptr_eqb _ _ _ _ _ Hz) as He.
  destruct t as [|c l a r]; [by apply wp_ret|]. rewrite He. cbn [ptr].
  eapply (is_red_at h0 n s [] (ks ++ k)); [done|]. by destruct c.
Qed.

Lemma null_or_black_at h0 n s ks k t (Q : bool -> rbst -> Prop) :
  zrep h0 n s k (plug ks t) -> Q (negb (is_red t)) s -> wp (null_or_black (ptr t)) s Q.
Proof.
  intros Hz HQ. rewrite <-zrep_plug in Hz. pose proof (zrep_ptr_eqb _ _ _ _ _ Hz) as He.
  unfold null_or_black. destruct t as [|c l a r]; [by apply wp_ret|]. rewrite He. cbn [ptr].
  eapply (is_black_at h0 n s [] (ks ++ k)); [done|]. by destruct c.
Qed.

(** Two pointers of the same tree are equal only at the same place. *)
Lemma sib_ptr_ne h0 n s k c l a r : zrep h0 n s k (T c l a r) -> ptr l = ptr r -> l = E /\ r = E.
Proof.
  intros (_ & _ & [Hnd HF] & _) He. cbn [elements] in *.
  destruct l as [|cl ll b lr], r as [|cr rl d rr]; cbn in He; subst; try done; exfalso.
  - rewrite !Forall_app in HF. cbn in HF. rewrite !Forall_cons, Forall_app, Forall_cons in HF. lia.
  - rewrite !Forall_app in HF. cbn in HF. rewrite !Forall_app, Forall_cons in HF. lia.
  - cbn in Hnd. break_nodup Hnd. 
    match goal with HN : forall x, x ∈ elements ll ++ d :: _ -> _ |- _ => apply (HN d); mem end.
Qed.

Lemma child_test_at h0 n s ks k c l a r :
  zrep h0 n s k (plug ks (T c l a r)) -> l <> E \/ r <> E -> (ptr l =? ptr r) = false.
Proof.
  intros Hz Hne. rewrite <-zrep_plug in Hz. apply Z.eqb_neq. intros He.
  destruct (sib_ptr_ne _ _ _ _ _ _ _ _ Hz He). naive_solver.
Qed.

(** ** The rebalancing loop *)

Lemma insert_loop_exit h0 n s k l a r fuel (Q : unit -> rbst -> Prop) :
  zrep h0 n s k (T Red l a r) -> match k with f :: _ => fcolor f = Black | [] => True end ->
  Q tt s -> wp (insert_color_loop (S fuel) a) s Q.
Proof.
  intros Hz Hf HQ. cbn [insert_color_loop].
  at_get (parent_at h0 n s [] k). destruct k as [|f k]; [done|]. cbn [top].
  rewrite zrep_up in Hz.
  assert (Hr : wp (rb_is_red (faddr f)) s (fun b s' => b = false /\ s' = s)).
  { destruct f; cbn in *; subst; by eapply (is_red_at h0 n s [] k). }
  assert (Hne : faddr f <> 0).
  { destruct f; cbn in *; subst; by apply (node_at h0 n s [] k) in Hz as (_ & _ & _ & ?). }
  rewrite (proj2 (Z.eqb_neq _ 0) Hne). wstep Hr. by intros b s' [-> ->].
Qed.

Lemma zrep_root h0 n s k t : zrep h0 n s k t <-> zrep h0 n s [] (plug k t).
Proof. by rewrite <-zrep_plug, app_nil_r. Qed.

(** One iteration below a red parent on the left of its black parent. *)
Lemma insert_step_left h0 n s k f ga u l a r fuel (Q : unit -> rbst -> Prop) :
  zrep h0 n s k (plug [f; FL Black ga u] (T Red l a r)) -> fcolor f = Red -> (1 < fuel)%nat ->
  (forall s' tp, is_red u = true ->
    zrep h0 n s' k (T Red tp ga (blacken u)) ->
    ins_fix (f :: FL Black ga u :: k) (T Red l a r) = ins_fix k (T Red tp ga (blacken u)) ->
    wp (insert_color_loop fuel ga) s' Q) ->
  (forall s', zrep h0 n s' [] (ins_fix (f :: FL Black ga u :: k) (T Red l a r)) -> Q tt s') ->
  wp (insert_color_loop (S fuel) a) s Q.
Proof.
  intros Hz Hf Hfu Hred Hdone. destruct fuel as [|fuel]; [lia|].
  remember (S fuel) as fuel1 eqn:Ef.
  destruct f as [cf p pr|cf pl p]; cbn in Hf; subst cf; cbn [plug plug1] in Hz;
    cbn [ins_fix fcolor fsib] in Hred, Hdone; cbn [insert_color_loop].
  - destruct (node_at h0 n s [FL _ _ _] k _ _ _ _ Hz) as (_ & _ & _ & Hp0).
    at_get (parent_at h0 n s [FL _ _ _; FL _ _ _] k). rewrite (proj2 (Z.eqb_neq _ 0) Hp0).
    at_get (is_red_at h0 n s [FL _ _ _] k).
    at_get (parent_at h0 n s [FL _ _ _] k).
    at_get (left_at h0 n s [] k). rewrite Z.eqb_refl.
    at_get (right_at h0 n s [] k).
    apply wp_bind. eapply (red_test_at h0 n s [FR _ _ _] k); [done|].
    destruct (is_red u) eqn:Hu.
    + destruct u as [|[] ul ua ur]; try done. cbn [ptr].
      at_set (set_black_at h0 n _ [FR _ _ _] k) Hz.
      at_set (set_black_at h0 n _ [FL _ _ _] k) Hz.
      at_set (set_red_at h0 n _ [] k) Hz.
      by eapply Hred.
    + at_get (right_at h0 n s [FL _ _ _] k).
      pose proof (child_test_at h0 n s [FL _ _ _] k _ _ _ _ Hz ltac:(by left)) as Hct.
      cbn [ptr] in Hct. rewrite Z.eqb_sym, Hct.
      at_set (set_black_at h0 n _ [FL _ _ _] k) Hz.
      at_set (set_red_at h0 n _ [] k) Hz.
      at_set (rotate_right_at h0 n _ [] k) Hz.
      rewrite Ef. eapply (insert_loop_exit h0 n _ (FL _ _ _ :: k)); [by rewrite zrep_up|done|].
      apply Hdone. by rewrite <-zrep_root.
  - destruct (node_at h0 n s [FL _ _ _] k _ _ _ _ Hz) as (_ & _ & _ & Hp0).
    at_get (parent_at h0 n s [FR _ _ _; FL _ _ _] k). rewrite (proj2 (Z.eqb_neq _ 0) Hp0).
    at_get (is_red_at h0 n s [FL _ _ _] k).
    at_get (parent_at h0 n s [FL _ _ _] k).
    at_get (left_at h0 n s [] k). rewrite Z.eqb_refl.
    at_get (right_at h0 n s [] k).
    apply wp_bind. eapply (red_test_at h0 n s [FR _ _ _] k); [done|].
    destruct (is_red u) eqn:Hu.
    + destruct u as [|[] ul ua ur]; try done. cbn [ptr].
      at_set (set_black_at h0 n _ [FR _ _ _] k) Hz.
      at_set (set_black_at h0 n _ [FL _ _ _] k) Hz.
      at_set (set_red_at h0 n _ [] k) Hz.
      by eapply Hred.
    + at_get (right_at h0 n s [FL _ _ _] k). rewrite Z.eqb_refl.
      at_set (rotate_left_at h0 n _ [FL _ _ _] k) Hz.
      at_set (set_black_at h0 n _ [FL _ _ _] k) Hz.
      at_set (set_red_at h0 n _ [] k) Hz.
      at_set (rotate_right_at h0 n _ [] k) Hz.
      rewrite Ef. eapply (insert_loop_exit h0 n _ (FL _ _ _ :: k)); [by rewrite zrep_up|done|].
      apply Hdone. by rewrite <-zrep_root.
Qed.

(** One iteration below a red parent on the right of its black parent. *)
Lemma insert_step_right h0 n s k f ga u l a r fuel (Q : unit -> rbst -> Prop) :
  zrep h0 n s k (plug [f; FR Black u ga] (T Red l a r)) -> fcolor f = Red -> (1 < fuel)%nat ->
  (forall s' tp, is_red u = true ->
    zrep h0 n s' k (T Red (blacken u) ga tp) ->
    ins_fix (f :: FR Black u ga :: k) (T Red l a r) = ins_fix k (T Red (blacken u) ga tp) ->
    wp (insert_color_loop fuel ga) s' Q) ->
  (forall s', zrep h0 n s' [] (ins_fix (f :: FR Black u ga :: k) (T Red l a r)) -> Q tt s') ->
  wp (insert_color_loop (S fuel) a) s Q.
Proof.
  intros Hz Hf Hfu Hred Hdone. destruct fuel as [|fuel]; [lia|].
  remember (S fuel) as fuel1 eqn:Ef.
  destruct f as [cf p pr|cf pl p]; cbn in Hf; subst cf; cbn [plug plug1] in Hz;
    cbn [ins_fix fcolor fsib] in Hred, Hdone; cbn [insert_color_loop]; cycle 1.
  - destruct (node_at h0 n s [FR _ _ _] k _ _ _ _ Hz) as (_ & _ & _ & Hp0).
    at_get (parent_at h0 n s [FR _ _ _; FR _ _ _] k). rewrite (proj2 (Z.eqb_neq _ 0) Hp0).
    at_get (is_red_at h0 n s [FR _ _ _] k).
    at_get (parent_at h0 n s [FR _ _ _] k).
    at_get (left_at h0 n s [] k).
    pose proof (child_test_at h0 n s [] k _ _ _ _ Hz ltac:(by right)) as Hgt.
    cbn [ptr] in Hgt. rewrite Z.eqb_sym, Hgt.
    at_get (left_at h0 n s [] k).
    apply wp_bind. eapply (red_test_at h0 n s [FL _ _ _] k); [done|].
    destruct (is_red u) eqn:Hu.
    + destruct u as [|[] ul ua ur]; try done. cbn [ptr].
      at_set (set_black_at h0 n _ [FL _ _ _] k) Hz.
      at_set (set_black_at h0 n _ [FR _ _ _] k) Hz.
      at_set (set_red_at h0 n _ [] k) Hz.
      by eapply Hred.
    + at_get (left_at h0 n s [FR _ _ _] k).
      pose proof (child_test_at h0 n s [FR _ _ _] k _ _ _ _ Hz ltac:(by right)) as Hct.
      cbn [ptr] in Hct. rewrite Hct.
      at_set (set_black_at h0 n _ [FR _ _ _] k) Hz.
      at_set (set_red_at h0 n _ [] k) Hz.
      at_set (rotate_left_at h0 n _ [] k) Hz.
      rewrite Ef. eapply (insert_loop_exit h0 n _ (FR _ _ _ :: k)); [by rewrite zrep_up|done|].
      apply Hdone. by rewrite <-zrep_root.
  - destruct (node_at h0 n s [FR _ _ _] k _ _ _ _ Hz) as (_ & _ & _ & Hp0).
    at_get (parent_at h0 n s [FL _ _ _; FR _ _ _] k). rewrite (proj2 (Z.eqb_neq _ 0) Hp0).
    at_get (is_red_at h0 n s [FR _ _ _] k).
    at_get (parent_at h0 n s [FR _ _ _] k).
    at_get (left_at h0 n s [] k).
    pose proof (child_test_at h0 n s [] k _ _ _ _ Hz ltac:(by right)) as Hgt.
    cbn [ptr] in Hgt. rewrite Z.eqb_sym, Hgt.
    at_get (left_at h0 n s [] k).
    apply wp_bind. eapply (red_test_at h0 n s [FL _ _ _] k); [done|].
    destruct (is_red u) eqn:Hu.
    + destruct u as [|[] ul ua ur]; try done. cbn [ptr].
      at_set (set_black_at h0 n _ [FL _ _ _] k) Hz.
      at_set (set_black_at h0 n _ [FR _ _ _] k) Hz.
      at_set (set_red_at h0 n _ [] k) Hz.
      by eapply Hred.
    + at_get (left_at h0 n s [FR _ _ _] k). rewrite Z.eqb_refl.
      at_set (rotate_right_at h0 n _ [FR _ _ _] k) Hz.
      at_set (set_black_at h0 n _ [FR _ _ _] k) Hz.
      at_set (set_red_at h0 n _ [] k) Hz.
      at_set (rotate_left_at h0 n _ [] k) Hz.
      rewrite Ef. eapply (insert_loop_exit h0 n _ (FR _ _ _ :: k)); [by rewrite zrep_up|done|].
      apply Hdone. by rewrite <-zrep_root.
Qed.

Lemma insert_loop_wp h0 n k b hb m l a r fuel s :
  rbctx k b hb m -> (length k < fuel)%nat -> zrep h0 n s k (T Red l a r) ->
  wp (insert_color_loop fuel a) s (fun _ s' => zrep h0 n s' [] (ins_fix k (T Red l a r))).
Proof.
  revert b hb m l a r fuel s.
  induction k as [|f|f g k IH] using frames_ind2; intros b hb m l a r fuel s Hk Hfu Hz.
  - destruct fuel as [|fuel]; [cbn in Hfu; lia|]. by eapply insert_loop_exit.
  - destruct fuel as [|fuel]; [cbn in Hfu; lia|]. eapply insert_loop_exit; [done| |].
    + destruct (fcolor f) eqn:Hf; [|done].
      by destruct (rbctx_red_inv _ _ _ _ _ Hk Hf) as (? & ? & ? & ? & ? & _).
    + by apply zrep_root in Hz.
  - destruct fuel as [|fuel]; [cbn in Hfu; lia|].
    destruct (fcolor f) eqn:Hf.
    2: { eapply insert_loop_exit; [done..|]. cbn [ins_fix]. rewrite Hf.
         rewrite zrep_up in Hz. by apply zrep_root in Hz. }
    destruct (rbctx_red_inv _ _ _ _ _ Hk Hf) as (g' & k' & cu & b' & [= <- <-] & Hg & Hs & Hu & Hk').
    cbn in Hfu. rewrite (zrep_plug h0 n s [f; g] k) in Hz.
    destruct g as [cg ga u|cg u ga]; cbn in Hg; subst cg.
    + eapply (insert_step_left h0 n s k f); [done|done|lia| |auto].
      intros s' tp _ Hz' ->. eapply IH; [done|lia|done].
    + eapply (insert_step_right h0 n s k f); [done|done|lia| |auto].
      intros s' tp _ Hz' ->. eapply IH; [done|lia|done].
Qed.

Lemma root_wp h0 n s t (Q : Z -> rbst -> Prop) : zrep h0 n s [] t -> Q (ptr t) s -> wp get_root s Q.
Proof. intros (_ & Hk & _) HQ. unfold get_root, wp. run. cbn in Hk. by rewrite Hk. Qed.

Lemma insert_color_wp h0 n k b hb m l a r fuel s :
  rbctx k b hb m -> (length k < fuel)%nat -> zrep h0 n s k (T Red l a r) ->
  wp (aosl_rb_insert_color fuel a) s
     (fun _ s' => zrep h0 (u64 (n + 1)) s' [] (blacken (ins_fix k (T Red l a r)))).
Proof.
  intros Hk Hfu Hz. unfold aosl_rb_insert_color.
  wstep insert_loop_wp; [done..|]. intros _ s1 Hz1.
  assert (Hin : a ∈ elements (ins_fix k (T Red l a r))).
  { rewrite ins_fix_elements, elements_plug. cbn. set_solver. }
  destruct (ins_fix k (T Red l a r)) as [|c' l' a' r']; [cbn in Hin; set_solver|].
  apply wp_bind. eapply root_wp; [done|]. cbn [ptr].
  at_set (set_black_at h0 n _ [] []) Hz1.
  apply wp_bind. unfold cget, cput, wp. destruct Hz1 as (? & ? & ? & ? & <-). by split_and!.
Qed.

(** ** Searching for the place of a key *)

(** The position an insertion goes to; [cmp] compares a node with the key. *)
Fixpoint descend (cmp : Z -> Z) (k : list frame) (t : tree) : list frame :=
  match t with
  | E => k
  | T c l a r => if 0 <? cmp a then descend cmp (FL c a r :: k) l else descend cmp (FR c l a :: k) r
  end.

Definition prev_of (k : list frame) : Z := default 0 (last (ctx_left k)).
Definition next_of (k : list frame) : Z := default 0 (head (ctx_right k)).

(** The nodes are in the order of the comparison with the key. *)
Definition key_sorted (cmp : Z -> Z) (l : list Z) : Prop :=
  StronglySorted (fun a b => Z.sgn (cmp a) <= Z.sgn (cmp b)) l.

(** The nodes split at the key. *)
Definition split_at (cmp : Z -> Z) (L R : list Z) : Prop :=
  Forall (fun a => cmp a <= 0) L /\ Forall (fun a => 0 < cmp a) R.

Lemma descend_plug cmp k t : plug (descend cmp k t) E = plug k t.
Proof.
  revert k. induction t as [|c l IHl a r IHr]; intros k; cbn; [done|].
  destruct (0 <? cmp a); [rewrite IHl|rewrite IHr]; done.
Qed.

Lemma descend_length cmp k t : (length (descend cmp k t) <= length k + height t)%nat.
Proof.
  revert k. induction t as [|c l IHl a r IHr]; intros k; cbn; [lia|].
  destruct (0 <? cmp a); [specialize (IHl (FL c a r :: k))|specialize (IHr (FR c l a :: k))]; cbn in *; lia.
Qed.

Lemma descend_side cmp k t :
  split_at cmp (ctx_left k) (ctx_right k) -> key_sorted cmp (elements t) ->
  split_at cmp (ctx_left (descend cmp k t)) (ctx_right (descend cmp k t)).
Proof.
  unfold key_sorted. revert k. induction t as [|c l IHl a r IHr]; intros k [Hl Hr] Hs; cbn; [done|].
  cbn in Hs. apply StronglySorted_app in Hs as (Hx & Hsl & [Ha Hsr]%StronglySorted_cons).
  rewrite Forall_forall in Ha. destruct (Z.ltb_spec 0 (cmp a)).
  - apply IHl; [split; [done|]|done]. cbn. rewrite Forall_cons, Forall_app. split_and!; [done| |done].
    apply Forall_forall. intros b Hb. specialize (Ha b Hb). lia.
  - apply IHr; [split; [|done]|done]. cbn. rewrite !Forall_app, Forall_singleton. split_and!; [done| |done].
    apply Forall_forall. intros b Hb. specialize (Hx b a Hb ltac:(set_solver)). lia.
Qed.

Lemma deref_link_wp h0 n s k t (Q : Z -> rbst -> Prop) :
  zrep h0 n s k t -> Q (ptr t) s -> wp (deref_link (link_of k)) s Q.
Proof.
  intros Hz HQ. destruct k as [|f k]; [by eapply root_wp|]. rewrite zrep_up in Hz.
  destruct f; cbn in *; [by eapply (left_at h0 n s [] k)|by eapply (right_at h0 n s [] k)].
Qed.

Lemma prev_of_FR c l a k : prev_of (FR c l a :: k) = a.
Proof. unfold prev_of. cbn [ctx_left]. by rewrite (assoc_L app), last_snoc. Qed.

(** The search ends at [descend], with the neighbours of the place found. *)
Lemma find_links_wp h0 n cmp t k fuel s (Q : rb_link * Z * Z * Z -> rbst -> Prop) :
  zrep h0 n s k t -> (height t < fuel)%nat ->
  (let k' := descend cmp k t in Q (link_of k', top k', prev_of k', next_of k') s) ->
  wp (find_links_loop cmp fuel (link_of k) (top k) (prev_of k) (next_of k)) s Q.
Proof.
  revert k fuel. induction t as [|c l IHl a r IHr]; intros k fuel Hz Hfu HQ;
    (destruct fuel as [|fuel]; [lia|]); cbn [find_links_loop];
    apply wp_bind; (eapply deref_link_wp; [done|]).
  - by apply wp_ret.
  - cbn [ptr]. pose proof (zrep_ptr_eqb _ _ _ _ _ Hz) as He. cbn [ptr] in He. rewrite He.
    cbn in HQ, Hfu. destruct (0 <? cmp a).
    + specialize (IHl (FL c a r :: k) fuel). rewrite zrep_up in IHl. apply IHl; [done|lia|done].
    + specialize (IHr (FR c l a :: k) fuel). rewrite zrep_up in IHr.
      rewrite prev_of_FR in IHr. apply IHr; [done|lia|done].
Qed.

(** ** Linking and inserting *)

Lemma link_node_wp h0 n s k a nd :
  zrep h0 n s k E -> h0 !! a = Some nd -> a ∉ elementsk k -> 0 < a -> a mod 4 = 0 ->
  wp (rb_link_node a (top k) (link_of k)) s (fun _ s' => zrep h0 n s' k (T Red E a E)).
Proof.
  intros (_ & Hk & [Hnd HF] & Ho & Hc) Hnda Ha Hp Hal. unfold rb_link_node.
  assert (Hm : mem s !! a = Some nd) by (rewrite Ho; [done|cbn; set_solver]). destruct nd as [w rt lf].
  apply wp_bind. eapply store_wp; [done|]. set (s1 := upd s a _).
  assert (T1 : touched [a] s s1) by apply touched_upd.
  assert (Hk1 : repk (mem s1) k 0 (root s1)) by (eapply touched_repk; [done| |done]; set_solver).
  assert (Ha1 : mem s1 !! a = Some (MkNode (pcw (top k) Red) 0 0)).
  { unfold pcw. change (colZ Red) with 0. rewrite Z.add_0_r. apply lookup_insert_eq. }
  assert (Hend : forall s2, touched (elementsk k) s1 s2 -> repk (mem s2) k a (root s2) ->
    zrep h0 n s2 k (T Red E a E)).
  { intros s2 T2 Hk2. eapply (zrep_intro h0 n s s2 ([a] ++ elementsk k) k _ (a :: elementsk k)).
    - intros b Hb. apply Ho. cbn. set_solver.
    - done.
    - eapply touched_trans; done.
    - set_solver.
    - done.
    - split; [by constructor|by constructor].
    - cbn. split; [|done]. eapply touched_lookup; [done|done|done].
    - done. }
  wlast set_link_wp; [done..|]. intros _ s2 [Hk2 T2]. by apply Hend.
Qed.

Lemma elements_perm k t : elements t ++ elementsk k ≡ₚ elements (plug k t).
Proof. revert t. induction k as [|f k IH]; intros t; [by rewrite app_nil_r|]. by rewrite elements_up, IH. Qed.

(** Linking a new node at a place and rebalancing, [rb_insert]. *)
Lemma rb_insert_wp h0 n s k m a nd fuel :
  zrep h0 n s k E -> rb (plug k E) Black m -> (length k < fuel)%nat ->
  h0 !! a = Some nd -> a ∉ elementsk k -> 0 < a -> a mod 4 = 0 ->
  wp (rb_insert fuel a (link_of k) (top k)) s (fun _ s' => exists t' m',
    rb_rep h0 (u64 (n + 1)) s' t' /\ rb t' Black m' /\ elements t' = ctx_left k ++ a :: ctx_right k).
Proof.
  intros Hz Hrb Hfu Hnd Ha Hp Hal.
  apply rb_unplug in Hrb as (b & hb & c & Hk & [-> ->]%rb_leaf & _).
  wstep link_node_wp; [done..|]. intros _ s1 Hz1. wlast insert_color_wp; [done|lia|done|]. intros _ s2 Hz2.
  destruct (ins_fix_rb k b 0 m (T Red E a E) Hk) as [m' Hm']; [eauto with aosl|].
  do 2 eexists. split_and!; [done|done|].
  by rewrite elements_blacken, ins_fix_elements, elements_plug.
Qed.

Lemma insert_node_wp h0 n cmp s t m a nd fuel :
  rb_rep h0 n s t -> rb t Black m -> key_sorted cmp (elements t) -> (height t < fuel)%nat ->
  h0 !! a = Some nd -> a ∉ elements t -> 0 < a -> a mod 4 = 0 ->
  wp (aosl_rb_insert_node cmp fuel a) s (fun _ s' => exists t' m' L R,
    rb_rep h0 (u64 (n + 1)) s' t' /\ rb t' Black m' /\
    elements t = L ++ R /\ elements t' = L ++ a :: R /\ split_at cmp L R).
Proof.
  intros Hz Hrb Hs Hfu Hnd Ha Hp Hal. unfold aosl_rb_insert_node.
  apply wp_bind. eapply (find_links_wp h0 n cmp t []); [done..|]. cbv zeta.
  pose proof (descend_plug cmp [] t) as Hpl. pose proof (descend_length cmp [] t) as Hlen.
  pose proof (descend_side cmp [] t (conj (Forall_nil_2 _) (Forall_nil_2 _)) Hs) as Hsp.
  set (k := descend cmp [] t) in *. cbn in Hpl, Hlen. unfold rb_rep in Hz.
  rewrite <-Hpl in Hz, Hrb. rewrite <-zrep_root in Hz.
  wlast rb_insert_wp; [done|done|lia|done| |done|done|].
  { rewrite <-Hpl, <-elements_perm in Ha. by cbn in Ha. }
  intros _ s1 (t' & m' & Hz' & Hrb' & He'). exists t', m', (ctx_left k), (ctx_right k).
  split_and!; try done. by rewrite <-Hpl, elements_plug.
Qed.
