(* ===== verification/RbErase.v ===== *)
(** * Removal from the red-black tree

    [__rb_erase_color] computes [del_fix]; [aosl_rb_erase] unlinks a node,
    moving its in-order successor into its place when it has two children. *)
From S2P Require Import Prelude RbTree RbModel RbRefine RbInsert.
#[local] Open Scope aosl_scope.

(** ** The rebalancing loop *)

(** The part of the loop body after a red sibling was rotated away. *)
Definition erase_tail_left (fuel : nat) (parent other : Z) : CM rbst Z :=
  do cb <- children_black other;
  if (cb : bool) then
    rb_set_red other ;;
    do up <- rb_parent parent;
    erase_color_loop fuel parent up
  else
    do orr <- get_right other;
    do rb <- null_or_black orr;
    do other <- (if (rb : bool) then
                   do o_left <- get_left other;
                   (when negb (o_left =? 0) then rb_set_black o_left) ;;
                   rb_set_red other ;;
                   __rb_rotate_right other ;;
                   get_right parent
                 else cret other);
    do pc <- rb_color parent;
    rb_set_color other pc ;;
    rb_set_black parent ;;
    do orr <- get_right other;
    (when negb (orr =? 0) then rb_set_black orr) ;;
    __rb_rotate_left parent ;;
    get_root.

Definition erase_tail_right (fuel : nat) (parent other : Z) : CM rbst Z :=
  do cb <- children_black other;
  if (cb : bool) then
    rb_set_red other ;;
    do up <- rb_parent parent;
    erase_color_loop fuel parent up
  else
    do oll <- get_left other;
    do lb <- null_or_black oll;
    do other <- (if (lb : bool) then
                   do o_right <- get_right other;
                   (when negb (o_right =? 0) then rb_set_black o_right) ;;
                   rb_set_red other ;;
                   __rb_rotate_left other ;;
                   get_left parent
                 else cret other);
    do pc <- rb_color parent;
    rb_set_color other pc ;;
    rb_set_black parent ;;
    do oll <- get_left other;
    (when negb (oll =? 0) then rb_set_black oll) ;;
    __rb_rotate_right parent ;;
    get_root.

Lemma erase_loop_S fuel node parent :
  erase_color_loop (S fuel) node parent =
  (do b <- null_or_black node;
   do r <- get_root;
   if negb (b && negb (node =? r)) then cret node else
   do pl <- get_left parent;
   if pl =? node then
     do other <- get_right parent;
     do ored <- rb_is_red other;
     do other <- (if (ored : bool) then
                    rb_set_black other ;; rb_set_red parent ;; __rb_rotate_left parent ;;
                    get_right parent
                  else cret other);
     erase_tail_left fuel parent other
   else
     do other <- get_left parent;
     do ored <- rb_is_red other;
     do other <- (if (ored : bool) then
                    rb_set_black other ;; rb_set_red parent ;; __rb_rotate_right parent ;;
                    get_left parent
                  else cret other);
     erase_tail_right fuel parent other).
Proof. reflexivity. Qed.

Lemma children_black_at h0 n s ks k c l a r (Q : bool -> rbst -> Prop) :
  zrep h0 n s k (plug ks (T c l a r)) -> Q (negb (is_red l) && negb (is_red r)) s ->
  wp (children_black a) s Q.
Proof.
  intros Hz HQ. unfold children_black. at_get left_at.
  apply wp_bind. eapply (null_or_black_at h0 n s (FL c a r :: ks) k); [done|].
  destruct (is_red l); [by apply wp_ret|]. at_get right_at.
  by eapply (null_or_black_at h0 n s (FR c l a :: ks) k).
Qed.

(** Blacken a child that is known to exist. *)
Lemma black_child_at h0 n s ks k t (Q : unit -> rbst -> Prop) :
  zrep h0 n s k (plug ks t) -> (forall s', zrep h0 n s' k (plug ks (blacken t)) -> Q tt s') ->
  wp (when negb (ptr t =? 0) then rb_set_black (ptr t)) s Q.
Proof.
  intros Hz HQ. pose proof Hz as Hz'. rewrite <-zrep_plug in Hz'.
  rewrite (zrep_ptr_eqb _ _ _ _ _ Hz'). destruct t as [|c l a r]; cbn [negb ptr].
  - apply wp_ret, HQ, Hz.
  - by eapply set_black_at.
Qed.

Lemma red_node t : is_red t = true -> exists l a r, t = T Red l a r.
Proof. destruct t as [|[] l a r]; [done|eauto|done]. Qed.

Lemma erase_tail_left_wp h0 n s k cp t p ol o orr fuel (Q : Z -> rbst -> Prop) :
  zrep h0 n s k (T cp t p (T Black ol o orr)) ->
  (let (u, short) := bal_left cp t p (T Black ol o orr) in
   forall s', zrep h0 n s' k u ->
     if (short : bool) then wp (erase_color_loop fuel p (top k)) s' Q else wp get_root s' Q) ->
  wp (erase_tail_left fuel p o) s Q.
Proof.
  intros Hz HQ. unfold erase_tail_left. cbn [bal_left] in HQ.
  apply wp_bind. eapply (children_black_at h0 n s [FR _ _ _] k); [done|].
  destruct (_ && _) eqn:Hb.
  { at_set (set_red_at h0 n s [FR _ _ _] k) Hz. at_get (parent_at h0 n _ [] k). by apply HQ. }
  at_get (right_at h0 n s [FR _ _ _] k).
  apply wp_bind. eapply (null_or_black_at h0 n s [FR _ _ _; FR _ _ _] k); [done|].
  destruct (is_red orr) eqn:Hrr; cbn [negb].
  - apply wp_bind, wp_ret. at_get (color_at h0 n s [] k).
    at_set (set_color_at h0 n s [FR _ _ _] k) Hz.
    at_set (set_black_at h0 n _ [] k) Hz.
    at_get (right_at h0 n _ [FR _ _ _] k).
    at_set (black_child_at h0 n _ [FR _ _ _; FR _ _ _] k) Hz.
    at_set (rotate_left_at h0 n _ [] k) Hz. by apply HQ.
  - destruct (is_red ol) eqn:Hol; [|done]. apply red_node in Hol as (oll & x & olr & ->).
    apply wp_bind. at_get (left_at h0 n s [FR _ _ _] k).
    at_set (black_child_at h0 n s [FL _ _ _; FR _ _ _] k (T Red oll x olr)) Hz.
    at_set (set_red_at h0 n _ [FR _ _ _] k) Hz.
    at_set (rotate_right_at h0 n _ [FR _ _ _] k) Hz.
    eapply (right_at h0 n _ [] k); [done|]. cbn [ptr].
    at_get (color_at h0 n _ [] k).
    at_set (set_color_at h0 n _ [FR _ _ _] k) Hz.
    at_set (set_black_at h0 n _ [] k) Hz.
    at_get (right_at h0 n _ [FR _ _ _] k).
    at_set (black_child_at h0 n _ [FR _ _ _; FR _ _ _] k (T Red olr o orr)) Hz.
    at_set (rotate_left_at h0 n _ [] k) Hz. by apply HQ.
Qed.

Lemma erase_tail_right_wp h0 n s k cp t p ol o orr fuel (Q : Z -> rbst -> Prop) :
  zrep h0 n s k (T cp (T Black ol o orr) p t) ->
  (let (u, short) := bal_right cp (T Black ol o orr) p t in
   forall s', zrep h0 n s' k u ->
     if (short : bool) then wp (erase_color_loop fuel p (top k)) s' Q else wp get_root s' Q) ->
  wp (erase_tail_right fuel p o) s Q.
Proof.
  intros Hz HQ. unfold erase_tail_right. cbn [bal_right] in HQ.
  apply wp_bind. eapply (children_black_at h0 n s [FL _ _ _] k); [done|].
  destruct (_ && _) eqn:Hb.
  { at_set (set_red_at h0 n s [FL _ _ _] k) Hz. at_get (parent_at h0 n _ [] k). by apply HQ. }
  at_get (left_at h0 n s [FL _ _ _] k).
  apply wp_bind. eapply (null_or_black_at h0 n s [FL _ _ _; FL _ _ _] k); [done|].
  destruct (is_red ol) eqn:Hll; cbn [negb].
  - apply wp_bind, wp_ret. at_get (color_at h0 n s [] k).
    at_set (set_color_at h0 n s [FL _ _ _] k) Hz.
    at_set (set_black_at h0 n _ [] k) Hz.
    at_get (left_at h0 n _ [FL _ _ _] k).
    at_set (black_child_at h0 n _ [FL _ _ _; FL _ _ _] k) Hz.
    at_set (rotate_right_at h0 n _ [] k) Hz. by apply HQ.
  - destruct (is_red orr) eqn:Horr; [|done]. apply red_node in Horr as (orl & x & orr' & ->).
    apply wp_bind. at_get (right_at h0 n s [FL _ _ _] k).
    at_set (black_child_at h0 n s [FR _ _ _; FL _ _ _] k (T Red orl x orr')) Hz.
    at_set (set_red_at h0 n _ [FL _ _ _] k) Hz.
    at_set (rotate_left_at h0 n _ [FL _ _ _] k) Hz.
    eapply (left_at h0 n _ [] k); [done|]. cbn [ptr].
    at_get (color_at h0 n _ [] k).
    at_set (set_color_at h0 n _ [FL _ _ _] k) Hz.
    at_set (set_black_at h0 n _ [] k) Hz.
    at_get (left_at h0 n _ [FL _ _ _] k).
    at_set (black_child_at h0 n _ [FL _ _ _; FL _ _ _] k (T Red ol o orl)) Hz.
    at_set (rotate_right_at h0 n _ [] k) Hz. by apply HQ.
Qed.

(** What [__rb_erase_color] still does with the result of the loop. *)
Definition erase_post (h0 : gmap Z aosl_rb_node) (n : Z) (t' : tree) (node : Z) (s : rbst) : Prop :=
  wp (when negb (node =? 0) then rb_set_black node) s (fun _ s' => zrep h0 n s' [] t').

Lemma erase_post_focus h0 n s k t : zrep h0 n s k t -> erase_post h0 n (plug k (blacken t)) (ptr t) s.
Proof.
  intros Hz. eapply (black_child_at h0 n s [] k); [done|]. intros s' Hz'. by rewrite <-zrep_root.
Qed.

Lemma erase_post_root h0 n s k t : zrep h0 n s k t -> wp get_root s (erase_post h0 n (blacken (plug k t))).
Proof.
  intros Hz. rewrite zrep_root in Hz. eapply root_wp; [done|]. by apply (erase_post_focus h0 n s []).
Qed.

(** The node in focus is not the root of a longer position. *)
Lemma focus_not_root h0 n s f k t : zrep h0 n s (f :: k) t -> (ptr t =? root s) = false.
Proof.
  intros (_ & Hk & [Hnd HF] & _). apply Z.eqb_neq. intros He.
  assert (Hin : root s ∈ elementsk (f :: k)).
  { clear - Hk. revert f Hk. generalize (ptr t). induction k as [|g k IH]; intros p f Hk.
    - destruct f; cbn in *; set_solver.
    - destruct f; cbn [repk] in Hk; destruct Hk as (_ & _ & Hk); apply IH in Hk; cbn in *; set_solver. }
  destruct (ptr_elem t) as [H0|Ht].
  - rewrite H0 in He. rewrite Forall_forall in HF. specialize (HF 0). rewrite He in HF.
    specialize (HF ltac:(set_solver)). lia.
  - rewrite NoDup_app in Hnd. apply (proj1 (proj2 Hnd) (ptr t) Ht). by rewrite He.
Qed.

(** The loop stops at a red node. *)
Lemma erase_loop_red h0 n s k t parent fuel (Q : Z -> rbst -> Prop) :
  zrep h0 n s k t -> is_red t = true -> Q (ptr t) s -> wp (erase_color_loop (S fuel) (ptr t) parent) s Q.
Proof.
  intros Hz Hr HQ. rewrite erase_loop_S. apply wp_bind.
  eapply (null_or_black_at h0 n s [] k); [done|]. rewrite Hr. by apply wp_bind.
Qed.

(** One iteration below the left child of a node, and below the right one.
    The walk goes on (hypothesis [IH]) only from a black subtree. *)
Lemma erase_step_left h0 n s k cp p other t c co b' hb m fuel :
  zrep h0 n s k (T cp t p other) -> is_red t = false -> rb t c hb -> rb other co (S hb) ->
  match cp with
  | Red => co = Black /\ b' = false /\ rbctx k false (S hb) m
  | Black => rbctx k b' (S (S hb)) m
  end -> (0 < fuel)%nat ->
  (forall b t c s', rbctx k b (S (S hb)) m -> rb t c (S hb) -> zrep h0 n s' k t ->
    wp (erase_color_loop fuel (ptr t) (top k)) s' (erase_post h0 n (del_fix k t))) ->
  wp (do other <- get_right p;
      do ored <- rb_is_red other;
      do other <- (if (ored : bool) then
                     rb_set_black other ;; rb_set_red p ;; __rb_rotate_left p ;; get_right p
                   else cret other);
      erase_tail_left fuel p other) s (erase_post h0 n (del_fix (FL cp p other :: k) t)).
Proof.
  intros Hz Hr Ht Ho Hf Hfu IH. destruct fuel as [|fuel]; [lia|].
  at_get (right_at h0 n s [] k). cbn [del_fix]. rewrite Hr.
  inversion Ho as [|ol oa orr ? Hl Hrr|ol oa orr cl cr ? Hl Hrr]; subst; cbn [ptr].
  - destruct cp; [by destruct Hf|]. inversion Hl as [| |oll o olr ? ? ? Hll Hlr]; subst.
    at_get (is_red_at h0 n s [FR _ _ _] k). rewrite bool_decide_true by done. apply wp_bind.
    at_set (set_black_at h0 n s [FR _ _ _] k) Hz.
    at_set (set_red_at h0 n _ [] k) Hz.
    at_set (rotate_left_at h0 n _ [] k) Hz.
    eapply (right_at h0 n _ [FL _ _ _] k); [done|]. cbn [ptr].
    eapply (erase_tail_left_wp h0 n _ (FL _ _ _ :: k)); [by rewrite zrep_up|].
    pose proof (bal_left_rb Red t c p (T Black oll o olr) hb Ht Hl) as Hb.
    destruct (bal_left Red t p (T Black oll o olr)) as [u []]; clear Hz; intros s2 Hz'.
    + destruct Hb as (o' & _ & ->). eapply (erase_loop_red h0 n s2 (FL _ _ _ :: k) (T Red t p o')); [done|done|].
      by apply erase_post_focus in Hz'.
    + by apply erase_post_root in Hz'.
  - at_get (is_red_at h0 n s [FR _ _ _] k). rewrite bool_decide_false by done. apply wp_bind, wp_ret.
    eapply (erase_tail_left_wp h0 n _ k); [done|].
    pose proof (bal_left_rb cp t c p (T Black ol oa orr) hb Ht Ho) as Hb.
    destruct (bal_left cp t p (T Black ol oa orr)) as [u []]; clear Hz; intros s2 Hz'.
    + destruct Hb as (o' & Ho' & ->). destruct cp.
      * eapply (erase_loop_red h0 n s2 k (T Red t p o')); [done|done|]. rewrite del_fix_red by done.
        by apply erase_post_focus in Hz'.
      * eapply (IH _ (T Black t p o')); eauto with aosl.
    + by apply erase_post_root in Hz'.
Qed.

Lemma erase_step_right h0 n s k cp p other t c co b' hb m fuel :
  zrep h0 n s k (T cp other p t) -> is_red t = false -> rb t c hb -> rb other co (S hb) ->
  match cp with
  | Red => co = Black /\ b' = false /\ rbctx k false (S hb) m
  | Black => rbctx k b' (S (S hb)) m
  end -> (0 < fuel)%nat ->
  (forall b t c s', rbctx k b (S (S hb)) m -> rb t c (S hb) -> zrep h0 n s' k t ->
    wp (erase_color_loop fuel (ptr t) (top k)) s' (erase_post h0 n (del_fix k t))) ->
  wp (do other <- get_left p;
      do ored <- rb_is_red other;
      do other <- (if (ored : bool) then
                     rb_set_black other ;; rb_set_red p ;; __rb_rotate_right p ;; get_left p
                   else cret other);
      erase_tail_right fuel p other) s (erase_post h0 n (del_fix (FR cp other p :: k) t)).
Proof.
  intros Hz Hr Ht Ho Hf Hfu IH. destruct fuel as [|fuel]; [lia|].
  at_get (left_at h0 n s [] k). cbn [del_fix]. rewrite Hr.
  inversion Ho as [|ol oa orr ? Hl Hrr|ol oa orr cl cr ? Hl Hrr]; subst; cbn [ptr].
  - destruct cp; [by destruct Hf|]. inversion Hrr as [| |oll o olr ? ? ? Hll Hlr]; subst.
    at_get (is_red_at h0 n s [FL _ _ _] k). rewrite bool_decide_true by done. apply wp_bind.
    at_set (set_black_at h0 n s [FL _ _ _] k) Hz.
    at_set (set_red_at h0 n _ [] k) Hz.
    at_set (rotate_right_at h0 n _ [] k) Hz.
    eapply (left_at h0 n _ [FR _ _ _] k); [done|]. cbn [ptr].
    eapply (erase_tail_right_wp h0 n _ (FR _ _ _ :: k)); [by rewrite zrep_up|].
    pose proof (bal_right_rb Red t c p (T Black oll o olr) hb Ht Hrr) as Hb.
    destruct (bal_right Red (T Black oll o olr) p t) as [u []]; clear Hz; intros s2 Hz'.
    + destruct Hb as (o' & _ & ->). eapply (erase_loop_red h0 n s2 (FR _ _ _ :: k) (T Red o' p t)); [done|done|].
      by apply erase_post_focus in Hz'.
    + by apply erase_post_root in Hz'.
  - at_get (is_red_at h0 n s [FL _ _ _] k). rewrite bool_decide_false by done. apply wp_bind, wp_ret.
    eapply (erase_tail_right_wp h0 n _ k); [done|].
    pose proof (bal_right_rb cp t c p (T Black ol oa orr) hb Ht Ho) as Hb.
    destruct (bal_right cp (T Black ol oa orr) p t) as [u []]; clear Hz; intros s2 Hz'.
    + destruct Hb as (o' & Ho' & ->). destruct cp.
      * eapply (erase_loop_red h0 n s2 k (T Red o' p t)); [done|done|]. rewrite del_fix_red by done.
        by apply erase_post_focus in Hz'.
      * eapply (IH _ (T Black o' p t)); eauto with aosl.
    + by apply erase_post_root in Hz'.
Qed.

Lemma erase_loop_wp h0 n k b hb m t c fuel s :
  rbctx k b (S hb) m -> rb t c hb -> (length k < fuel)%nat -> zrep h0 n s k t ->
  wp (erase_color_loop fuel (ptr t) (top k)) s (erase_post h0 n (del_fix k t)).
Proof.
  revert b hb t c fuel s. induction k as [|f k IH]; intros b hb t c fuel s Hk Ht Hfu Hz;
    (destruct fuel as [|fuel]; [lia|]);
    (destruct (is_red t) eqn:Hr; [eapply erase_loop_red; [done..|]; rewrite del_fix_red by done; by apply erase_post_focus|]).
  - rewrite erase_loop_S. apply wp_bind. eapply (null_or_black_at h0 n s [] []); [done|].
    apply wp_bind. eapply root_wp; [done|]. rewrite Z.eqb_refl, andb_false_r. cbn [negb].
    apply wp_ret. apply erase_post_focus in Hz. cbn in Hz |- *. rewrite Hr.
    by rewrite (rb_blacken_black t hb) in Hz by (by apply (rb_not_red _ _ _ Ht) in Hr as ->).
  - rewrite erase_loop_S. apply wp_bind. eapply (null_or_black_at h0 n s [] (f :: k)); [done|].
    apply wp_bind. unfold get_root. apply wp_bind, wp_ret, wp_ret.
    rewrite (focus_not_root _ _ _ _ _ _ Hz), Hr. cbn [negb andb top].
    destruct (rbctx_inv _ _ _ _ _ Hk) as (co & b' & Hs & Hf).
    rewrite zrep_up in Hz. cbn in Hfu. destruct f as [cp p other|cp other p]; cbn [plug1 faddr fsib fcolor] in *.
    + at_get (left_at h0 n s [] k). rewrite Z.eqb_refl.
      eapply erase_step_left; try done; [lia|]. intros; eapply IH; [done..|lia|done].
    + at_get (left_at h0 n s [] k).
      rewrite (child_test_at h0 n s [] k _ _ _ _ Hz) by (left; by inversion Hs).
      eapply erase_step_right; try done; [lia|]. intros; eapply IH; [done..|lia|done].
Qed.

Lemma erase_color_wp h0 n k b hb m t c fuel s :
  rbctx k b (S hb) m -> rb t c hb -> (length k < fuel)%nat -> zrep h0 n s k t ->
  wp (__rb_erase_color fuel (ptr t) (top k)) s (fun _ s' => zrep h0 n s' [] (del_fix k t)).
Proof. intros. apply wp_bind. by eapply erase_loop_wp. Qed.

(** ** Unlinking and replacing nodes *)

(** The contents of memory outside the tree matter only there. *)
Lemma zrep_outside h0 h1 n s k t :
  zrep h0 n s k t -> (forall a, a ∉ elements t ++ elementsk k -> h1 !! a = mem s !! a) -> zrep h1 n s k t.
Proof. intros (? & ? & ? & Ho & ?) Hh. split_and!; try done. intros a Ha. by rewrite Hh. Qed.

(** The only child of a node that has at most one. *)
Definition only_child (l r t : tree) : Prop := (l = E /\ r = t) \/ (r = E /\ l = t).

(** The memory after [node] was taken out of its place: the hole holds its
    only child. *)
Lemma unlink_zrep h0 n s k c l a r t s1 s2 :
  zrep h0 n s k (T c l a r) -> only_child l r t ->
  rep (mem s1) (top k) t -> touched (elements t) s s1 ->
  repk (mem s2) k (ptr t) (root s2) -> touched (elementsk k) s1 s2 ->
  zrep (<[a := MkNode (pcw (top k) c) (ptr r) (ptr l)]> h0) n s2 k t.
Proof.
  intros Hz Hch Hr1 T1 Hk2 T2. pose proof (zrep_node _ _ _ _ _ _ _ _ Hz) as (Hm & _).
  destruct Hz as (_ & _ & Ha & Ho & Hc).
  assert (HL : elements (T c l a r) ++ elementsk k ≡ₚ a :: elements t ++ elementsk k).
  { destruct Hch as [[-> ->]|[-> ->]]; cbn; solve_Permutation. }
  apply (addrs_perm _ _ HL) in Ha. pose proof Ha as [Hnd _]. cbn in Hnd. break_nodup Hnd.
  pose proof (touched_trans _ _ _ _ _ T1 T2) as T12.
  split_and!.
  - eapply touched_rep; [exact T2| |done]. disj.
  - done.
  - eapply addrs_incl; [done| |intros; split_mem; mem]. rewrite NoDup_app. done.
  - intros b Hb. rewrite (proj1 T12 b Hb). destruct (decide (b = a)) as [->|Hne].
    + by rewrite lookup_insert_eq.
    + rewrite lookup_insert_ne by done. apply Ho. rewrite HL. set_solver.
  - by rewrite (proj2 T12).
Qed.

Lemma unlink_wp h0 n s k c l a r t (Q : unit -> rbst -> Prop) :
  zrep h0 n s k (T c l a r) -> only_child l r t ->
  (forall s', zrep (<[a := MkNode (pcw (top k) c) (ptr r) (ptr l)]> h0) n s' k t -> Q tt s') ->
  wp (when negb (ptr t =? 0) then rb_set_parent (ptr t) (top k)) s
     (fun _ s1 => wp (relink TestLeft' (top k) a (ptr t)) s1 Q).
Proof.
  intros Hz Hch HQ. pose proof (zrep_node _ _ _ _ _ _ _ _ Hz) as (Hm & Htop & Hpa & Ha0).
  pose proof Hz as ((_ & Hl & Hr) & Hk & Ha & _ & _).
  pose proof Ha as [Hnd _]. cbn [elements] in Hnd. break_nodup Hnd.
  wlast (reparent_wp s a (top k) t).
  1: { by destruct Hch as [[-> ->]|[-> ->]]. }
  1: { eapply addrs_incl; [done|..]; destruct Hch as [[-> ->]|[-> ->]]; try done; cbn; intros; split_mem; mem. }
  1-2: done.
  intros _ s1 (Hr1 & T1 & R1). wlast (relink_wp TestLeft' s1 k a (ptr t)).
  1: { rewrite R1. eapply touched_repk; [done| |done].
       destruct Hch as [[-> ->]|[-> ->]]; disj. }
  1: { eapply addrs_incl; [done|done|]. cbn; intros; split_mem; mem. }
  1: done. 1: disj.
  intros [] s2 [Hk2 T2]. apply HQ. by eapply unlink_zrep.
Qed.

(** ** The end of the removal *)

Definition erase_result (c : color) (k : list frame) (t : tree) : tree :=
  match c with Red => plug k t | Black => del_fix k t end.

Lemma erase_result_elements c k t : elements (erase_result c k t) = elements (plug k t).
Proof. destruct c; [done|]. apply del_fix_elements. Qed.

(** Taking a node with at most one child out keeps the red-black invariant,
    and the walk has what it needs. *)
Lemma erase_ctx k c l a r t m :
  rb (plug k (T c l a r)) Black m -> only_child l r t ->
  exists b hb ct, rb t ct hb /\
    match c with
    | Red => rbctx k b hb m /\ (b = true -> ct = Black)
    | Black => rbctx k b (S hb) m
    end.
Proof.
  intros (b & hb & ct & Hk & Ht & Hb)%rb_unplug Hch.
  inversion Ht as [|? ? ? ? Hl Hr|? ? ? cl cr ? Hl Hr]; subst.
  - exists b, hb, Black. destruct Hch as [[-> ->]|[-> ->]]; auto.
  - destruct Hch as [[-> ->]|[-> ->]]; eauto.
Qed.

Lemma erase_result_rb k c l a r t m :
  rb (plug k (T c l a r)) Black m -> only_child l r t -> exists m', rb (erase_result c k t) Black m'.
Proof.
  intros Hrb Hch. destruct (erase_ctx k c l a r t m Hrb Hch) as (b & hb & ct & Ht & Hk). destruct c; cbn.
  - destruct Hk. exists m. by eapply rb_plug.
  - by eapply del_fix_rb.
Qed.

Lemma erase_finish_wp h0 n s k c l a r t m fuel :
  rb (plug k (T c l a r)) Black m -> only_child l r t -> (length k < fuel)%nat -> zrep h0 n s k t ->
  wp (erase_finish fuel (colZ c) (ptr t) (top k)) s
     (fun _ s' => rb_rep h0 (u64 (n - 1)) s' (erase_result c k t)).
Proof.
  intros Hrb Hch Hfu Hz. destruct (erase_ctx k c l a r t m Hrb Hch) as (b & hb & ct & Ht & Hk).
  assert (Hend : forall s', zrep h0 n s' [] (erase_result c k t) ->
    rb_rep h0 (u64 (n - 1)) (MkRb (mem s') (root s') (u64 (count s' - 1))) (erase_result c k t)).
  { intros s' (? & ? & ? & ? & ->). by split_and!. }
  unfold erase_finish. destruct c; cbn [colZ].
  - apply Hend. by rewrite <-zrep_root.
  - change (AOSL_RB_BLACK =? AOSL_RB_BLACK) with true. cbv iota. wstep erase_color_wp; [done..|].
    intros _ s' Hz'. apply Hend, Hz'.
Qed.

Lemma erase_one_wp h0 n s k c l a r t m fuel :
  rb (plug k (T c l a r)) Black m -> only_child l r t -> (length k < fuel)%nat ->
  zrep h0 n s k (T c l a r) ->
  wp (erase_one fuel a (ptr t)) s (fun _ s' =>
    exists nd, rb_rep (<[a := nd]> h0) (u64 (n - 1)) s' (erase_result c k t)).
Proof.
  intros Hrb Hch Hfu Hz. unfold erase_one. match goal with |- wp _ _ ?q => set (Q := q) end.
  at_get (parent_at h0 n s [] k). at_get (color_at h0 n s [] k).
  wstep (unlink_wp h0 n s k c l a r t (fun _ s' => wp (erase_finish fuel (colZ c) (ptr t) (top k)) s' Q)).
  1-2: done.
  - intros s' Hz'. wlast erase_finish_wp; [done..|]. intros [] s2 H2. eexists. exact H2.
  - intros _ s1 Hw. by apply wp_bind.
Qed.

(** ** The removal of a node with two children *)

(** The way down to the leftmost node of a non-empty tree. *)
Fixpoint left_path (ks : list frame) (t : tree) : list frame * tree :=
  match t with
  | T c l a r => match l with E => (ks, t) | _ => left_path (FL c a r :: ks) l end
  | E => (ks, E)
  end.

Definition is_FL (f : frame) : Prop := match f with FL _ _ _ => True | FR _ _ _ => False end.

Lemma left_path_spec t ks : t <> E -> Forall is_FL ks ->
  exists ks' c a r, left_path ks t = (ks', T c E a r) /\ Forall is_FL ks' /\
    plug ks' (T c E a r) = plug ks t /\ (length ks' <= length ks + height t)%nat.
Proof.
  revert ks. induction t as [|c l IHl a r IHr]; intros ks Hne Hks; [done|]. cbn [left_path].
  destruct l as [|cl ll b lr]; [by exists ks, c, a, r; split_and!; [..|cbn; lia]|].
  destruct (IHl (FL c a r :: ks) ltac:(done) ltac:(by constructor)) as (ks' & c' & a' & r' & H1 & H2 & H3 & H4).
  exists ks', c', a', r'. split_and!; [done..|]. cbn in H4 |- *. lia.
Qed.

Lemma leftmost_wp h0 n t ks k fuel s (Q : Z -> rbst -> Prop) :
  zrep h0 n s (ks ++ k) t -> t <> E -> (height t <= fuel)%nat ->
  Q (ptr (snd (left_path ks t))) s -> wp (leftmost fuel (ptr t)) s Q.
Proof.
  revert ks fuel. induction t as [|c l IHl a r IHr]; intros ks fuel Hz Hne Hfu HQ; [done|].
  destruct fuel as [|fuel]; [cbn in Hfu; lia|]. cbn [leftmost].
  apply wp_bind. eapply (left_at h0 n s [] (ks ++ k)); [done|].
  assert (Hzl : zrep h0 n s ((FL c a r :: ks) ++ k) l) by (cbn [app]; by rewrite zrep_up).
  rewrite (zrep_ptr_eqb _ _ _ _ _ Hzl). cbn [left_path] in HQ. destruct l; [by apply wp_ret|].
  eapply IHl; [done|done|cbn in *; lia|done].
Qed.

Lemma reparent_nonempty_wp s par p t :
  t <> E -> rep (mem s) par t -> addrs_ok (elements t) -> ptr_ok par -> ptr_ok p ->
  wp (rb_set_parent (ptr t) p) s
     (fun _ s' => rep (mem s') p t /\ touched (elements t) s s' /\ root s' = root s).
Proof.
  intros Hne Ht Ha Hpar Hp. pose proof (reparent_wp s par p t Ht Ha Hpar Hp) as Hw.
  destruct t as [|c l a r]; [done|]. destruct (addrs_ok_ptr _ a Ha) as [_ H0]; [cbn; set_solver|].
  cbn [ptr] in *. by rewrite (proj2 (Z.eqb_neq a 0) H0) in Hw.
Qed.

(** The middle of [erase_two]: [b], outside the tree, takes the place of [a]. *)
Lemma replace_wp {B} h0 n s k c l a r b nd (K : CM rbst B) (Q : B -> rbst -> Prop) :
  zrep h0 n s k (T c l a r) -> l <> E -> h0 !! b = Some nd -> b ∉ elements (T c l a r) ++ elementsk k ->
  0 < b -> b mod 4 = 0 ->
  (forall s', zrep (<[a := MkNode (pcw (top k) c) (ptr r) (ptr l)]> h0) n s' k (T c l b r) -> wp K s' Q) ->
  wp (do o <- load a;
      store b (MkNode (rb_parent_color o) (rb_right o) (rb_left o)) ;;
      do op <- rb_parent a;
      relink TestLeft' op a b ;;
      do ol <- get_left a;
      rb_set_parent ol b ;;
      do orr <- get_right a;
      (when negb (orr =? 0) then rb_set_parent orr b) ;; K) s Q.
Proof.
  intros Hz Hl Hb Hbn Hb0 Hb4 HK.
  pose proof (zrep_node _ _ _ _ _ _ _ _ Hz) as (Hm & Htop & Hpa & Ha0).
  destruct Hz as ((_ & Hrl & Hrr) & Hk & Ha & Ho & Hc).
  pose proof Ha as [Hnd HF]. cbn [elements] in Hnd, Hbn. break_nodup Hnd.
  repeat rewrite ?not_elem_of_app, ?not_elem_of_cons in Hbn. destruct_and? Hbn.
  assert (Hmb : mem s !! b = Some nd) by (rewrite Ho; [done|cbn; rewrite !not_elem_of_app, not_elem_of_cons; auto]).
  destruct nd as [bw bR bL]. assert (Hpb : ptr_ok b) by (split; lia).
  apply wp_bind. eapply load_wp; [done|]. cbn [rb_parent_color rb_right rb_left].
  apply wp_bind. eapply store_wp; [done|]. set (s1 := upd s b _).
  assert (T1 : touched [b] s s1) by apply touched_upd.
  assert (Hm1 : mem s1 !! a = Some (MkNode (pcw (top k) c) (ptr r) (ptr l))).
  { eapply touched_lookup; [done|disj|done]. }
  apply wp_bind. eapply parent_wp; [done..|].
  wstep (relink_wp TestLeft' s1 k a b).
  1: { eapply touched_repk; [done|disj|done]. }
  1: { eapply addrs_incl; [done..|]. cbn; intros; split_mem; mem. }
  1: done. 1: disj.
  intros _ s2 [Hk2 T2].
  assert (Hm2 : mem s2 !! a = Some (MkNode (pcw (top k) c) (ptr r) (ptr l))).
  { eapply touched_lookup; [done|disj|done]. }
  apply wp_bind. eapply get_left_wp; [done|].
  wstep (reparent_nonempty_wp s2 a b l).
  1: done.
  1: { eapply (touched_rep _ _ _ _ _ T2); [disj|]. eapply (touched_rep _ _ _ _ _ T1); [disj|done]. }
  1: { eapply addrs_incl; [done..|]. cbn; intros; split_mem; mem. }
  1-2: done.
  intros _ s3 (Hl3 & T3 & R3).
  assert (Hm3 : mem s3 !! a = Some (MkNode (pcw (top k) c) (ptr r) (ptr l))).
  { eapply touched_lookup; [done|disj|done]. }
  apply wp_bind. eapply get_right_wp; [done|].
  wstep (reparent_wp s3 a b r).
  1: { eapply (touched_rep _ _ _ _ _ T3); [disj|]. eapply (touched_rep _ _ _ _ _ T2); [disj|].
       eapply (touched_rep _ _ _ _ _ T1); [disj|done]. }
  1: { eapply addrs_incl; [done..|]. cbn; intros; split_mem; mem. }
  1-2: done.
  intros _ s4 (Hr4 & T4 & R4). apply HK.
  pose proof (touched_trans _ _ _ _ _ T3 T4) as T34.
  pose proof (touched_trans _ _ _ _ _ T2 T34) as T24. pose proof (touched_trans _ _ _ _ _ T1 T24) as T14.
  split_and!.
  - cbn [rep]. split_and!; [|eapply (touched_rep _ _ _ _ _ T4); [disj|done]|done].
    eapply (touched_lookup _ _ _ _ _ T24); [disj|]. apply lookup_insert_eq.
  - rewrite R4, R3. eapply (touched_repk _ _ _ _ _ _ T34); [disj|done].
  - cbn [elements]. split; [|]. 2: { revert HF. cbn [elements]. rewrite !Forall_app, !Forall_cons. tauto. }
    rewrite !NoDup_app, !NoDup_cons. split_and!; try done; disj.
  - intros x Hx. cbn [elements] in Hx. destruct (decide (x = a)) as [->|Hne].
    + rewrite lookup_insert_eq. eapply (touched_lookup _ _ _ _ _ T4); [disj|done].
    + rewrite lookup_insert_ne by done. rewrite (proj1 T14) by disj. apply Ho. cbn [elements]. disj.
  - by rewrite (proj2 T14).
Qed.

(** The red-black invariant does not depend on the addresses. *)
Lemma rb_plug_addr ks k c l a b t m :
  rb (plug (ks ++ FR c l a :: k) t) Black m -> rb (plug (ks ++ FR c l b :: k) t) Black m.
Proof.
  rewrite !plug_app. cbn [plug plug1]. intros (hbk & hn & cc & Hk & Ht & Hb)%rb_unplug.
  eapply rb_plug; [done| |done]. inversion Ht; subst; eauto with aosl.
Qed.

(** The two links [erase_two] may have to change when it takes the successor
    out are those of the position of the successor. *)
Lemma succ_link_wp s ks c l a b k child (Q : Z -> rbst -> Prop) :
  Forall is_FL ks -> a ∉ elementsk ks ->
  wp (set_link (link_of (ks ++ FR c l a :: k)) child) s (fun _ s' => Q (top (ks ++ FR c l b :: k)) s') ->
  wp (let parent := top (ks ++ FR c l a :: k) in
      if parent =? a then set_right parent child ;; cret b else set_left parent child ;; cret parent) s Q.
Proof.
  intros Hks Ha Hw. destruct ks as [|[c' p r'|] ks]; cbn in *.
  - rewrite Z.eqb_refl. apply wp_bind. wlast Hw. auto.
  - assert (Hne : p <> a) by set_solver. rewrite (proj2 (Z.eqb_neq p a) Hne). apply wp_bind. wlast Hw. auto.
  - by apply Forall_cons_1 in Hks as [[] _].
Qed.

(** The successor [b] is taken out of the right subtree of [a]. *)
Lemma succ_unlink_wp h0 n s ks k c l a c2 b br (Q : Z -> rbst -> Prop) :
  let K := ks ++ FR c l a :: k in
  zrep h0 n s K (T c2 E b br) -> Forall is_FL ks ->
  (forall s2, zrep (<[b := MkNode (pcw (top K) c2) (ptr br) 0]> h0) n s2 K br ->
    Q (top (ks ++ FR c l b :: k)) s2) ->
  wp (when negb (ptr br =? 0) then rb_set_parent (ptr br) (top K)) s (fun _ s1 =>
    wp (if top K =? a then set_right (top K) (ptr br) ;; cret b
        else set_left (top K) (ptr br) ;; cret (top K)) s1 Q).
Proof.
  intros K HzK Hks HQ. pose proof (zrep_node _ _ _ _ _ _ _ _ HzK) as (_ & HtK & Hpb & Hb0).
  pose proof HzK as ((_ & _ & Hbr) & HrK & HaK & _ & _).
  pose proof HaK as [HndK _]. cbn [elements] in HndK. break_nodup HndK.
  wlast (reparent_wp s b (top K) br); [done| |done..|].
  { eapply addrs_incl; [done..|]. cbn; intros; split_mem; mem. }
  intros _ s1 (Hr1 & T1 & R1). eapply succ_link_wp; [done| |].
  { pose proof (proj1 (zrep_plug h0 n s ks (FR c l a :: k) (T c2 E b br)) HzK) as (_ & _ & [Hnd' _] & _).
    cbn in Hnd'. rewrite <-elements_perm in Hnd'. break_nodup Hnd'. disj. }
  wlast set_link_wp; [|done|].
  { rewrite R1. eapply (touched_repk _ _ _ _ _ _ T1); [disj|done]. }
  intros _ s2 [Hk2 T2]. apply HQ. eapply (unlink_zrep h0 n s K c2 E b br br); try done. by left.
Qed.

(** Where the removed node's successor was recorded no longer matters once it
    is back in the tree. *)
Lemma zrep_swap h0 n s k t a b na nb :
  zrep (<[a := na]> (<[b := nb]> h0)) n s k t -> b ∈ elements t ++ elementsk k -> zrep (<[a := na]> h0) n s k t.
Proof.
  intros Hz Hb. eapply zrep_outside; [done|]. intros x Hx. destruct Hz as (_ & _ & _ & Ho & _).
  rewrite Ho by done. assert (x <> b) by (by intros ->).
  destruct (decide (x = a)) as [->|]; [by rewrite !lookup_insert_eq|by rewrite !lookup_insert_ne].
Qed.

Lemma ctx_left_FL ks : Forall is_FL ks -> ctx_left ks = [].
Proof. induction 1 as [|[] ks Hf _ IH]; cbn in *; [done|done|by destruct Hf]. Qed.

Lemma erase_two_wp h0 n s k c l a r m fuel :
  rb (plug k (T c l a r)) Black m -> l <> E -> r <> E -> (height (plug k (T c l a r)) < fuel)%nat ->
  zrep h0 n s k (T c l a r) ->
  wp (erase_two fuel a) s (fun _ s' => exists nd t' m',
    rb_rep (<[a := nd]> h0) (u64 (n - 1)) s' t' /\ rb t' Black m' /\
    elements t' = ctx_left k ++ elements l ++ elements r ++ ctx_right k).
Proof.
  intros Hrb Hl Hr Hfu Hz. unfold erase_two. match goal with |- wp _ _ ?q => set (Q := q) end.
  destruct (left_path_spec r [] Hr (Forall_nil_2 _)) as (ks & c2 & b & br & Hlp & Hks & Hplug & Hlen).
  cbn [plug] in Hplug.
  assert (HzK : zrep h0 n s (FR c l a :: k) r) by by rewrite zrep_up.
  pose proof (height_plug (FR c l a :: k) r) as Hh. cbn [plug plug1 length] in Hh.
  at_get (right_at h0 n s [] k). apply wp_bind.
  eapply (leftmost_wp h0 n r [] (FR c l a :: k)); [done|done|lia|]. rewrite Hlp. cbn [snd ptr].
  rewrite <-Hplug, <-zrep_plug in HzK.
  assert (Hb : (b ∉ elements br ++ elementsk (ks ++ FR c l a :: k)) /\ 0 < b /\ b mod 4 = 0).
  { destruct HzK as (_ & _ & [HndK HF] & _). cbn in HndK, HF. rewrite Forall_cons in HF.
    break_nodup HndK. split; [|tauto]. disj. }
  destruct Hb as (HbK & Hb0 & Hb4). rewrite (elements_perm (ks ++ FR c l a :: k) br), plug_app in HbK.
  at_get (right_at h0 n s [] (ks ++ FR c l a :: k)). at_get (parent_at h0 n s [] (ks ++ FR c l a :: k)).
  at_get (color_at h0 n s [] (ks ++ FR c l a :: k)). apply wp_bind.
  wlast (succ_unlink_wp h0 n s ks k c l a c2 b br (fun p s2 => _)); [done..| |]; cycle 1.
  { intros _ s1 Hw. apply wp_bind. exact Hw. }
  intros s2 Hz2. rewrite zrep_plug, zrep_up in Hz2. cbn [plug1] in Hz2.
  eapply replace_wp; [done|done|apply lookup_insert_eq|by rewrite elements_perm|done..|].
  intros s3 Hz3. apply zrep_swap in Hz3; [|cbn; set_solver].
  change (T c l b (plug ks br)) with (plug1 (FR c l b) (plug ks br)) in Hz3.
  rewrite <-zrep_up, <-zrep_plug in Hz3.
  assert (Hrb' : rb (plug (ks ++ FR c l b :: k) (T c2 E b br)) Black m).
  { apply (rb_plug_addr _ _ _ _ a). rewrite plug_app. cbn [plug plug1]. by rewrite Hplug. }
  wlast (erase_finish_wp _ n s3 (ks ++ FR c l b :: k) c2 E b br br m); [done|by left| |done|].
  { rewrite length_app. cbn in Hlen |- *. lia. }
  intros [] s5 Hz5. destruct (erase_result_rb _ _ _ _ _ br _ Hrb' ltac:(by left)) as [m' Hm'].
  do 3 eexists. split_and!; [done|done|].
  rewrite erase_result_elements, plug_app. cbn [plug plug1]. rewrite elements_plug, <-Hplug. cbn [elements].
  rewrite !elements_plug, (ctx_left_FL ks) by done. cbn. by repeat (rewrite <-?app_assoc; cbn).
Qed.

(** ** Removal *)

Lemma erase_wp h0 n s k c l a r m fuel :
  rb (plug k (T c l a r)) Black m -> (height (plug k (T c l a r)) < fuel)%nat ->
  zrep h0 n s k (T c l a r) ->
  wp (aosl_rb_erase fuel a) s (fun _ s' => exists nd t' m',
    rb_rep (<[a := nd]> h0) (u64 (n - 1)) s' t' /\ rb t' Black m' /\
    elements t' = ctx_left k ++ elements l ++ elements r ++ ctx_right k).
Proof.
  intros Hrb Hfu Hz. pose proof (height_plug k (T c l a r)) as Hh.
  assert (Hone : forall t, only_child l r t -> wp (erase_one fuel a (ptr t)) s (fun _ s' => exists nd t' m',
    rb_rep (<[a := nd]> h0) (u64 (n - 1)) s' t' /\ rb t' Black m' /\
    elements t' = ctx_left k ++ elements l ++ elements r ++ ctx_right k)).
  { intros t Hch. wlast (erase_one_wp h0 n s k c l a r t m); [done|done|lia|done|].
    intros _ s' [nd Hz']. destruct (erase_result_rb _ _ _ _ _ _ _ Hrb Hch) as [m' Hm'].
    do 3 eexists. split_and!; [done|done|]. rewrite erase_result_elements, elements_plug.
    by destruct Hch as [[-> ->]|[-> ->]]. }
  unfold aosl_rb_erase. at_get (left_at h0 n s [] k).
  pose proof (zrep_ptr_eqb h0 n s (FL c a r :: k) l ltac:(by rewrite zrep_up)) as Hl.
  pose proof (zrep_ptr_eqb h0 n s (FR c l a :: k) r ltac:(by rewrite zrep_up)) as Hr.
  rewrite Hl. destruct l as [|cl ll lb lr].
  { at_get (right_at h0 n s [] k). apply Hone. by left. }
  at_get (right_at h0 n s [] k). rewrite Hr. destruct r as [|cr rl rb rr].
  { apply (Hone (T cl ll lb lr)). by right. }
  by eapply erase_two_wp.
Qed.

(** ** Replacing a node *)

Lemma replace_node_wp h0 n s k c l a r b nd :
  zrep h0 n s k (T c l a r) -> h0 !! b = Some nd -> b ∉ elements (T c l a r) ++ elementsk k ->
  0 < b -> b mod 4 = 0 ->
  wp (aosl_rb_replace_node a b) s (fun _ s' =>
    zrep (<[a := MkNode (pcw (top k) c) (ptr r) (ptr l)]> h0) n s' k (T c l b r)).
Proof.
  intros Hz Hb Hbn Hb0 Hb4. pose proof (zrep_node _ _ _ _ _ _ _ _ Hz) as (Hm & Htop & Hpa & Ha0).
  destruct Hz as ((_ & Hrl & Hrr) & Hk & Ha & Ho & Hc).
  pose proof Ha as [Hnd HF]. cbn [elements] in Hnd, Hbn. break_nodup Hnd.
  repeat rewrite ?not_elem_of_app, ?not_elem_of_cons in Hbn. destruct_and? Hbn.
  assert (Hmb : mem s !! b = Some nd) by (rewrite Ho; [done|cbn; rewrite !not_elem_of_app, not_elem_of_cons; auto]).
  destruct nd as [bw bR bL]. assert (Hpb : ptr_ok b) by (split; lia). unfold aosl_rb_replace_node.
  apply wp_bind. eapply parent_wp; [done..|].
  wstep (relink_wp TestLeft s k a b); [done| |done|disj|].
  { eapply addrs_incl; [done..|]. cbn; intros; split_mem; mem. }
  intros _ s2 [Hk2 T2]. apply wp_bind. eapply get_left_wp; [eapply touched_lookup; [done|disj|done]|].
  wstep (reparent_wp s2 a b l); [|eapply addrs_incl; [done..|]; cbn; intros; split_mem; mem|done..|].
  { eapply touched_rep; [done|disj|done]. }
  intros _ s3 (Hl3 & T3 & R3). pose proof (touched_trans _ _ _ _ _ T2 T3) as T23.
  apply wp_bind. eapply get_right_wp; [eapply (touched_lookup _ _ _ _ _ T23); [disj|done]|].
  wstep (reparent_wp s3 a b r); [|eapply addrs_incl; [done..|]; cbn; intros; split_mem; mem|done..|].
  { eapply (touched_rep _ _ _ _ _ T23); [disj|done]. }
  intros _ s4 (Hr4 & T4 & R4). pose proof (touched_trans _ _ _ _ _ T23 T4) as T24.
  apply wp_bind. eapply load_wp; [eapply (touched_lookup _ _ _ _ _ T24); [disj|done]|].
  eapply store_wp; [eapply (touched_lookup _ _ _ _ _ T24); [disj|done]|].
  set (s5 := upd s4 _ _). assert (T5 : touched [b] s4 s5) by apply touched_upd.
  pose proof (touched_trans _ _ _ _ _ T24 T5) as T25. pose proof (touched_trans _ _ _ _ _ T4 T5) as T45.
  pose proof (touched_trans _ _ _ _ _ T3 T45) as T35.
  split_and!.
  - cbn [rep]. split_and!; [apply lookup_insert_eq|eapply (touched_rep _ _ _ _ _ T45); [disj|done]
      |eapply (touched_rep _ _ _ _ _ T5); [disj|done]].
  - cbn [upd root s5]. rewrite R4, R3. eapply (touched_repk _ _ _ _ _ _ T35); [disj|done].
  - cbn [elements]. split; [|revert HF; cbn [elements]; rewrite !Forall_app, !Forall_cons; tauto].
    rewrite !NoDup_app, !NoDup_cons. split_and!; try done; disj.
  - intros x Hx. cbn [elements] in Hx. destruct (decide (x = a)) as [->|Hne].
    + rewrite lookup_insert_eq. eapply (touched_lookup _ _ _ _ _ T25); [disj|done].
    + rewrite lookup_insert_ne by done. rewrite (proj1 T25) by disj. apply Ho. cbn [elements]. disj.
  - by rewrite (proj2 T25).
Qed.
