(* ===== verification/RbProps.v ===== *)
(** * What the red-black tree promises

    The tree of [lib/rbtree.c] seen as a sorted sequence of nodes: [holds]
    relates memory to that sequence, and every operation is shown to return
    (the fuel needed is logarithmic) and to act on the sequence. *)
From S2P Require Import Prelude RbTree RbModel RbRefine RbInsert RbErase.
#[local] Open Scope aosl_scope.

(** Memory [s] holds a red-black tree whose nodes are, in order, [l]; the
    count field is their number and [h0] is the memory outside the tree. *)
Definition holds (h0 : gmap Z aosl_rb_node) (s : rbst) (l : list Z) : Prop :=
  exists t m, rb_rep h0 (u64 (Z.of_nat (length l))) s t /\ rb t Black m /\ elements t = l.

(** Twice the logarithm of the number of nodes bounds every path. *)
Definition enough (l : list Z) (fuel : nat) : Prop := (2 * Nat.log2 (S (length l)) < fuel)%nat.

(** The place of a node in the sequence: before the first node that compares
    greater, that is, after the nodes that compare equal. *)
Fixpoint place (cmp : Z -> Z) (a : Z) (l : list Z) : list Z :=
  match l with
  | [] => [a]
  | b :: l' => if 0 <? cmp b then a :: l else b :: place cmp a l'
  end.

(** A node that can be inserted: aligned, allocated, outside the tree. *)
Definition fresh_node (h0 : gmap Z aosl_rb_node) (l : list Z) (a : Z) : Prop :=
  0 < a /\ a mod 4 = 0 /\ (a ∉ l) /\ is_Some (h0 !! a).

(** ** Lemmas *)

Lemma place_split cmp a L R : split_at cmp L R -> place cmp a (L ++ R) = L ++ a :: R.
Proof.
  intros [HL HR]. induction HL as [|b L Hb _ IH]; cbn.
  - destruct HR as [|b R Hb _]; cbn; [done|]. by rewrite (proj2 (Z.ltb_lt 0 (cmp b)) Hb).
  - rewrite (proj2 (Z.ltb_ge 0 (cmp b)) Hb), IH. done.
Qed.

Lemma height_enough t m fuel : rb t Black m -> enough (elements t) fuel -> (height t < fuel)%nat.
Proof.
  unfold enough. intros Hrb He. pose proof (rb_height _ _ _ Hrb) as Hh. cbv iota in Hh. pose proof (rb_size _ _ _ Hrb) as Hs.
  rewrite size_elements in Hs. apply Nat.log2_le_mono in Hs. rewrite Nat.log2_pow2 in Hs by lia. lia.
Qed.

Lemma elem_plug t a : a ∈ elements t -> exists k c l r, t = plug k (T c l a r).
Proof.
  induction t as [|c l IHl b r IHr]; cbn; [set_solver|].
  rewrite elem_of_app, elem_of_cons. intros [H|[->|H]].
  - destruct (IHl H) as (k & c' & l' & r' & ->). exists (k ++ [FL c b r]), c', l', r'. by rewrite plug_app.
  - by exists [], c, l, r.
  - destruct (IHr H) as (k & c' & l' & r' & ->). exists (k ++ [FR c l b]), c', l', r'. by rewrite plug_app.
Qed.

Lemma split_unique (a : Z) l1 l2 k1 k2 :
  l1 ++ a :: l2 = k1 ++ a :: k2 -> NoDup (l1 ++ a :: l2) -> l1 = k1 /\ l2 = k2.
Proof.
  revert k1. induction l1 as [|x l1 IH]; intros [|y k1] He Hnd; cbn in *; simplify_eq; try done.
  - apply NoDup_cons in Hnd as [Hn _]. set_solver.
  - apply NoDup_cons in Hnd as [Hn _]. set_solver.
  - apply NoDup_cons in Hnd as [_ Hnd]. by destruct (IH k1 ltac:(done) Hnd) as [-> ->].
Qed.

(** A node is somewhere in the tree, and its neighbours in the sequence are
    its neighbours around the position. *)
Lemma holds_at h0 s l1 a l2 :
  holds h0 s (l1 ++ a :: l2) ->
  exists k c l r m, zrep h0 (u64 (Z.of_nat (length (l1 ++ a :: l2)))) s k (T c l a r) /\ rb (plug k (T c l a r)) Black m /\
    l1 = ctx_left k ++ elements l /\ l2 = elements r ++ ctx_right k.
Proof.
  intros (t & m & Hz & Hrb & He).
  destruct (elem_plug t a) as (k & c & l & r & ->); [rewrite He; set_solver|].
  assert (Hnd : NoDup (l1 ++ a :: l2)).
  { rewrite <-He. destruct Hz as (_ & _ & [Hnd _] & _). cbn in Hnd. by rewrite app_nil_r in Hnd. }
  rewrite elements_plug in He. cbn in He. rewrite <-!app_assoc in He. cbn in He. rewrite (assoc_L app) in He.
  destruct (split_unique a _ _ _ _ (eq_sym He) Hnd) as [-> ->].
  exists k, c, l, r, m. split_and!; try done. by apply zrep_root.
Qed.

Lemma u64_add_l x y : u64 (u64 x + y) = u64 (x + y).
Proof. unfold wrapu. by rewrite Zplus_mod_idemp_l. Qed.

(** The count after an insertion and after a removal. *)
Lemma count_insert (L R : list Z) a :
  u64 (u64 (Z.of_nat (length (L ++ R))) + 1) = u64 (Z.of_nat (length (L ++ a :: R))).
Proof. rewrite u64_add_l, !length_app. cbn [length]. f_equal. lia. Qed.

Lemma count_erase (L R : list Z) a :
  u64 (u64 (Z.of_nat (length (L ++ a :: R))) - 1) = u64 (Z.of_nat (length (L ++ R))).
Proof. rewrite <-Z.add_opp_r, u64_add_l, !length_app. cbn [length]. f_equal. lia. Qed.

Lemma insert_ok h0 s l cmp a fuel :
  holds h0 s l -> key_sorted cmp l -> fresh_node h0 l a -> enough l fuel ->
  wp (aosl_rb_insert_node cmp fuel a) s (fun _ s' => holds h0 s' (place cmp a l)).
Proof.
  intros (t & m & Hz & Hrb & <-) Hs (Ha & Hal & Hn & [nd Hnd]) He.
  wlast insert_node_wp; [done|done|done|by eapply height_enough|done..|].
  intros _ s' (t' & m' & L & R & Hz' & Hrb' & HL & HR & Hsp). exists t', m'.
  rewrite HL, place_split by done. split_and!; [|done|done].
  rewrite HL in Hz'. by rewrite (count_insert _ _ a) in Hz'.
Qed.

Lemma erase_ok h0 s l1 a l2 fuel :
  holds h0 s (l1 ++ a :: l2) -> enough (l1 ++ a :: l2) fuel ->
  wp (aosl_rb_erase fuel a) s (fun _ s' => exists nd, holds (<[a := nd]> h0) s' (l1 ++ l2)).
Proof.
  intros Hh He. destruct (holds_at _ _ _ _ _ Hh) as (k & c & l & r & m & Hz & Hrb & -> & ->).
  assert (Hel : elements (plug k (T c l a r)) = (ctx_left k ++ elements l) ++ a :: elements r ++ ctx_right k).
  { rewrite elements_plug. cbn. by repeat (rewrite <-?app_assoc; cbn). }
  wlast erase_wp; [done| |done|]. { eapply height_enough; [done|]. by rewrite Hel. }
  intros _ s' (nd & t' & m' & Hz' & Hrb' & He'). exists nd, t', m'. split_and!; [|done|].
  - by rewrite count_erase in Hz'.
  - rewrite He'. by rewrite <-!app_assoc.
Qed.

(** ** Searching *)

Lemma find_node_loop_wp h0 n cmp k t fuel s :
  zrep h0 n s k t -> key_sorted cmp (elements t) -> (height t < fuel)%nat ->
  wp (find_node_loop cmp fuel (ptr t)) s (fun r s' => s' = s /\
    ((r ∈ elements t /\ cmp r = 0) \/ (r = 0 /\ forall a, a ∈ elements t -> cmp a <> 0))).
Proof.
  unfold key_sorted. revert k fuel. induction t as [|c l IHl a r IHr]; intros k fuel Hz Hs Hfu;
    (destruct fuel as [|fuel]; [lia|]); cbn [find_node_loop].
  - cbn. apply wp_ret. split; [done|]. right. set_solver.
  - pose proof (zrep_ptr_eqb _ _ _ _ _ Hz) as He. rewrite He. cbn [ptr elements height] in *.
    apply StronglySorted_app in Hs as (Hx & Hsl & [Ha Hsr]%StronglySorted_cons).
    rewrite Forall_forall in Ha.
    destruct (Z.eqb_spec (cmp a) 0) as [H0|H0]; [apply wp_ret; split; [done|]; left; set_solver|].
    destruct (Z.ltb_spec 0 (cmp a)).
    + at_get (left_at h0 n s [] k). wlast (IHl (FL c a r :: k) fuel); [by rewrite zrep_up|done|lia|].
      intros b s' [-> [[? ?]|[-> Hno]]]; (split; [done|]); [left; set_solver|]. right. split; [done|].
      intros b [Hb|[->|Hb]%elem_of_cons]%elem_of_app; [by apply Hno|done|]. specialize (Ha b Hb). lia.
    + at_get (right_at h0 n s [] k). wlast (IHr (FR c l a :: k) fuel); [by rewrite zrep_up|done|lia|].
      intros b s' [-> [[? ?]|[-> Hno]]]; (split; [done|]); [left; set_solver|]. right. split; [done|].
      intros b [Hb|[->|Hb]%elem_of_cons]%elem_of_app; [|done|by apply Hno].
      specialize (Hx b a Hb ltac:(set_solver)). lia.
Qed.

Lemma find_ok h0 s l cmp fuel :
  holds h0 s l -> key_sorted cmp l -> enough l fuel ->
  wp (aosl_vfind_rb_node cmp fuel) s (fun r s' => s' = s /\
    ((r ∈ l /\ cmp r = 0) \/ (r = 0 /\ forall a, a ∈ l -> cmp a <> 0))).
Proof.
  intros (t & m & Hz & Hrb & <-) Hs He. apply wp_bind. eapply root_wp; [done|].
  eapply find_node_loop_wp; [done..|]. by eapply height_enough.
Qed.

(** Removal by key. *)
Lemma remove_ok h0 s l cmp fuel :
  holds h0 s l -> key_sorted cmp l -> enough l fuel -> 0 ∉ l ->
  wp (aosl_rb_remove cmp fuel) s (fun r s' =>
    (r = 0 /\ s' = s /\ forall a, a ∈ l -> cmp a <> 0) \/
    (exists l1 l2 nd, l = l1 ++ r :: l2 /\ cmp r = 0 /\ holds (<[r := nd]> h0) s' (l1 ++ l2))).
Proof.
  intros Hh Hs He H0. unfold aosl_rb_remove. wstep find_ok; [done..|].
  intros r s' [-> [[Hr Hc]|[-> Hno]]].
  - assert (Hne : r <> 0) by (by intros ->). rewrite (proj2 (Z.eqb_neq r 0) Hne). cbn [negb].
    apply list_elem_of_split in Hr as (l1 & l2 & ->).
    wstep erase_ok; [done..|]. intros _ s' [nd Hh']. apply wp_ret. right. eauto 10.
  - cbn. apply wp_ret. by left.
Qed.

(** ** Neighbours *)

Lemma leftmost_head h0 n s k t fuel :
  zrep h0 n s k t -> t <> E -> (height t <= fuel)%nat ->
  wp (leftmost fuel (ptr t)) s (fun r s' => s' = s /\ head (elements t) = Some r).
Proof.
  revert k fuel. induction t as [|c l IHl a r IHr]; intros k fuel Hz Hne Hfu; [done|].
  destruct fuel as [|fuel]; [cbn in Hfu; lia|]. cbn [leftmost ptr].
  at_get (left_at h0 n s [] k).
  assert (Hzl : zrep h0 n s (FL c a r :: k) l) by by rewrite zrep_up.
  rewrite (zrep_ptr_eqb _ _ _ _ _ Hzl). destruct l as [|cl ll b lr]; [by apply wp_ret|].
  wlast IHl; [done|done|cbn in *; lia|]. intros x s' [-> Hx]. split; [done|].
  cbn [elements] in *. rewrite head_app, Hx. done.
Qed.

Lemma rightmost_last h0 n s k t fuel :
  zrep h0 n s k t -> t <> E -> (height t <= fuel)%nat ->
  wp (rightmost fuel (ptr t)) s (fun r s' => s' = s /\ last (elements t) = Some r).
Proof.
  revert k fuel. induction t as [|c l IHl a r IHr]; intros k fuel Hz Hne Hfu; [done|].
  destruct fuel as [|fuel]; [cbn in Hfu; lia|]. cbn [rightmost ptr].
  at_get (right_at h0 n s [] k).
  assert (Hzr : zrep h0 n s (FR c l a :: k) r) by by rewrite zrep_up.
  rewrite (zrep_ptr_eqb _ _ _ _ _ Hzr). destruct r as [|cr rl b rr].
  { apply wp_ret. split; [done|]. cbn. by rewrite last_snoc. }
  wlast IHr; [done|done|cbn in *; lia|]. intros x s' [-> Hx]. split; [done|].
  cbn [elements] in *. by rewrite last_app_cons, last_cons, Hx.
Qed.

Lemma first_ok h0 s l fuel :
  holds h0 s l -> enough l fuel ->
  wp (aosl_rb_first fuel) s (fun r s' => s' = s /\ r = default 0 (head l)).
Proof.
  intros (t & m & Hz & Hrb & <-) He. pose proof (height_enough _ _ _ Hrb He). unfold aosl_rb_first.
  apply wp_bind. eapply root_wp; [done|]. rewrite (zrep_ptr_eqb _ _ _ _ _ Hz).
  destruct t as [|c l a r] eqn:Et; [by apply wp_ret|]. rewrite <-Et in *.
  wlast leftmost_head; [done|by subst|lia|]. by intros x s' [-> ->].
Qed.

Lemma last_ok h0 s l fuel :
  holds h0 s l -> enough l fuel ->
  wp (aosl_rb_last fuel) s (fun r s' => s' = s /\ r = default 0 (last l)).
Proof.
  intros (t & m & Hz & Hrb & <-) He. pose proof (height_enough _ _ _ Hrb He). unfold aosl_rb_last.
  apply wp_bind. eapply root_wp; [done|]. rewrite (zrep_ptr_eqb _ _ _ _ _ Hz).
  destruct t as [|c l a r] eqn:Et; [by apply wp_ret|]. rewrite <-Et in *.
  wlast rightmost_last; [done|by subst|lia|]. by intros x s' [-> ->].
Qed.

Lemma climb_right_wp h0 n s k t fuel :
  zrep h0 n s k t -> t <> E -> (length k < fuel)%nat ->
  wp (climb_right fuel (ptr t)) s (fun r s' => s' = s /\ r = default 0 (head (ctx_right k))).
Proof.
  revert t fuel. induction k as [|f k IH]; intros t fuel Hz Hne Hfu; (destruct fuel as [|fuel]; [lia|]);
    (destruct t as [|c l a r]; [done|]); cbn [climb_right ptr].
  - at_get (parent_at h0 n s [] []). by apply wp_ret.
  - at_get (parent_at h0 n s [] (f :: k)). rewrite zrep_up in Hz.
    assert (Hp0 : faddr f <> 0) by (destruct f; by eapply (node_at h0 n s [] k) in Hz as (_ & _ & _ & ?)).
    rewrite (proj2 (Z.eqb_neq _ 0) Hp0). destruct f as [cf p pr|cf pl p]; cbn [faddr plug1] in *.
    + at_get (right_at h0 n s [] k).
      pose proof (child_test_at h0 n s [] k _ _ _ _ Hz ltac:(by left)) as Ht. cbn [ptr] in Ht. rewrite Ht.
      by apply wp_ret.
    + at_get (right_at h0 n s [] k). rewrite Z.eqb_refl. cbn in Hfu.
      by wlast (IH (T cf pl p (T c l a r)) fuel); [done|done|lia|].
Qed.

Lemma climb_left_wp h0 n s k t fuel :
  zrep h0 n s k t -> t <> E -> (length k < fuel)%nat ->
  wp (climb_left fuel (ptr t)) s (fun r s' => s' = s /\ r = default 0 (last (ctx_left k))).
Proof.
  revert t fuel. induction k as [|f k IH]; intros t fuel Hz Hne Hfu; (destruct fuel as [|fuel]; [lia|]);
    (destruct t as [|c l a r]; [done|]); cbn [climb_left ptr].
  - at_get (parent_at h0 n s [] []). by apply wp_ret.
  - at_get (parent_at h0 n s [] (f :: k)). rewrite zrep_up in Hz.
    assert (Hp0 : faddr f <> 0) by (destruct f; by eapply (node_at h0 n s [] k) in Hz as (_ & _ & _ & ?)).
    rewrite (proj2 (Z.eqb_neq _ 0) Hp0). destruct f as [cf p pr|cf pl p]; cbn [faddr plug1] in *.
    + at_get (left_at h0 n s [] k). rewrite Z.eqb_refl. cbn in Hfu.
      by wlast (IH (T cf (T c l a r) p pr) fuel); [done|done|lia|].
    + at_get (left_at h0 n s [] k).
      pose proof (child_test_at h0 n s [] k _ _ _ _ Hz ltac:(by right)) as Ht. cbn [ptr] in Ht.
      rewrite Z.eqb_sym, Ht. apply wp_ret. split; [done|].
      cbn [ctx_left]. by rewrite (assoc_L app), last_snoc.
Qed.

Lemma parent_ne h0 n s k c l a r : zrep h0 n s k (T c l a r) -> (top k =? a) = false.
Proof.
  intros Hz. pose proof (zrep_node _ _ _ _ _ _ _ _ Hz) as (_ & _ & _ & Ha). apply Z.eqb_neq. intros He.
  destruct Hz as (_ & _ & [Hnd _] & _). rewrite NoDup_app in Hnd.
  destruct (top_elem k) as [H0|Hin]; [congruence|]. rewrite He in Hin.
  eapply (proj1 (proj2 Hnd)); [|done]. cbn. set_solver.
Qed.

Lemma next_ok h0 s l1 a l2 fuel :
  holds h0 s (l1 ++ a :: l2) -> enough (l1 ++ a :: l2) fuel ->
  wp (aosl_rb_next fuel a) s (fun r s' => s' = s /\ r = default 0 (head l2)).
Proof.
  intros Hh He. destruct (holds_at _ _ _ _ _ Hh) as (k & c & l & r & m & Hz & Hrb & -> & ->).
  assert (Hfu : (height (plug k (T c l a r)) < fuel)%nat).
  { eapply height_enough; [done|]. rewrite elements_plug. cbn. by repeat (rewrite <-?app_assoc in *; cbn in *). }
  pose proof (height_plug k (T c l a r)) as Hk. cbn [height] in Hk.
  unfold aosl_rb_next. at_get (parent_at _ _ s [] k). rewrite (parent_ne _ _ _ _ _ _ _ _ Hz).
  at_get (right_at _ _ s [] k). pose proof Hz as Hzr. change (T c l a r) with (plug1 (FR c l a) r) in Hzr.
  rewrite <-zrep_up in Hzr. rewrite (zrep_ptr_eqb _ _ _ _ _ Hzr). destruct r as [|cr rl b rr]; cbn [negb].
  - eapply (climb_right_wp _ _ s k (T c l a E)); [done|done|lia].
  - wlast leftmost_head; [done|done|cbn [height] in *; lia|]. intros x s' [-> Hx]. split; [done|].
    by rewrite head_app, Hx.
Qed.

Lemma prev_ok h0 s l1 a l2 fuel :
  holds h0 s (l1 ++ a :: l2) -> enough (l1 ++ a :: l2) fuel ->
  wp (aosl_rb_prev fuel a) s (fun r s' => s' = s /\ r = default 0 (last l1)).
Proof.
  intros Hh He. destruct (holds_at _ _ _ _ _ Hh) as (k & c & l & r & m & Hz & Hrb & -> & ->).
  assert (Hfu : (height (plug k (T c l a r)) < fuel)%nat).
  { eapply height_enough; [done|]. rewrite elements_plug. cbn. by repeat (rewrite <-?app_assoc in *; cbn in *). }
  pose proof (height_plug k (T c l a r)) as Hk. cbn [height] in Hk.
  unfold aosl_rb_prev. at_get (parent_at _ _ s [] k). rewrite (parent_ne _ _ _ _ _ _ _ _ Hz).
  at_get (left_at _ _ s [] k). pose proof Hz as Hzl. change (T c l a r) with (plug1 (FL c a r) l) in Hzl.
  rewrite <-zrep_up in Hzl. rewrite (zrep_ptr_eqb _ _ _ _ _ Hzl). destruct l as [|cl ll b lr]; cbn [negb].
  - rewrite app_nil_r. eapply (climb_left_wp _ _ s k (T c E a r)); [done|done|lia].
  - wlast rightmost_last; [done|done|cbn [height] in *; lia|]. intros x s' [-> Hx]. split; [done|].
    by rewrite last_app, Hx.
Qed.

(** ** Traversals *)

Section Visit.
Context {U : Type} (f : Z -> U -> Z * U).

(** Call [f] on the nodes of a list until it returns non-zero. *)
Fixpoint visit_list (l : list Z) (du : Z * U) : Z * U :=
  match l with
  | [] => du
  | a :: l' => if fst du =? 0 then visit_list l' (f a (snd du)) else du
  end.

Lemma visit_list_app l1 l2 du : visit_list (l1 ++ l2) du = visit_list l2 (visit_list l1 du).
Proof.
  revert du. induction l1 as [|a l1 IH]; intros du; cbn; [done|].
  destruct (fst du =? 0) eqn:Hd; [apply IH|]. destruct l2; cbn; [done|by rewrite Hd].
Qed.

Lemma visit_list_stop l du : (fst du =? 0) = false -> visit_list l du = du.
Proof. intros H. destruct l; cbn; [done|by rewrite H]. Qed.

Fixpoint preorder (t : tree) : list Z :=
  match t with E => [] | T _ l a r => a :: preorder l ++ preorder r end.
Fixpoint postorder (t : tree) : list Z :=
  match t with E => [] | T _ l a r => postorder l ++ postorder r ++ [a] end.

Let func (a : Z) (u : U) : CM rbst (Z * U) := cret (f a u).

Lemma visit_run a du s : visit func a (fst du) (snd du) s = Ret (visit_list [a] du, s).
Proof. unfold visit, func. cbn. by destruct du as [d u]; cbn; destruct (d =? 0). Qed.

(** A child's traversal, guarded by the flag. *)
Lemma guarded_run (c : CM rbst (Z * U)) l du s :
  c s = Ret (visit_list l du, s) ->
  (if fst du =? 0 then c else cret (fst du, snd du)) s = Ret (visit_list l du, s) /\
  (if fst du =? 0 then c else cret du) s = Ret (visit_list l du, s).
Proof.
  intros Hc. destruct (fst du =? 0) eqn:Hd; [done|]. rewrite visit_list_stop by done. by destruct du.
Qed.

(** The traversals, from any position: they return, leave memory alone, and
    call [f] in the order of the list. *)
Section Run.
Context (h0 : gmap Z aosl_rb_node) (n : Z) (s : rbst).

Lemma children_run k c l a r :
  zrep h0 n s k (T c l a r) ->
  (a =? 0) = false /\ get_left a s = Ret (ptr l, s) /\ get_right a s = Ret (ptr r, s) /\
  zrep h0 n s (FL c a r :: k) l /\ zrep h0 n s (FR c l a :: k) r.
Proof.
  intros Hz. pose proof (zrep_ptr_eqb _ _ _ _ _ Hz). pose proof (zrep_node _ _ _ _ _ _ _ _ Hz) as (Hm & _).
  unfold get_left, get_right, load. run. rewrite Hm, !zrep_up. done.
Qed.

Lemma traverse_ldr_run k t fuel du :
  zrep h0 n s k t -> (height t < fuel)%nat ->
  __rb_traverse_ldr func fuel (ptr t) (fst du) (snd du) s = Ret (visit_list (elements t) du, s).
Proof.
  revert k fuel du. induction t as [|c l IHl a r IHr]; intros k fuel du Hz Hfu;
    (destruct fuel as [|fuel]; [lia|]); [by destruct du|].
  destruct (children_run _ _ _ _ _ Hz) as (He & Hl & Hr & Hzl & Hzr).
  cbn [__rb_traverse_ldr ptr elements height] in *. rewrite He.
  erewrite cbind_ret; [|apply guarded_run; rewrite (cbind_ret _ _ _ _ _ Hl); eapply IHl; [done|lia]].
  rewrite (cbind_ret _ _ _ _ _ (visit_run _ _ _)), visit_list_app.
  change (a :: elements r) with ([a] ++ elements r). rewrite (visit_list_app [a]).
  apply guarded_run. rewrite (cbind_ret _ _ _ _ _ Hr). eapply IHr; [done|lia].
Qed.

Lemma traverse_dlr_run k t fuel du :
  zrep h0 n s k t -> (height t < fuel)%nat ->
  __rb_traverse_dlr func fuel (ptr t) (fst du) (snd du) s = Ret (visit_list (preorder t) du, s).
Proof.
  revert k fuel du. induction t as [|c l IHl a r IHr]; intros k fuel du Hz Hfu;
    (destruct fuel as [|fuel]; [lia|]); [by destruct du|].
  destruct (children_run _ _ _ _ _ Hz) as (He & Hl & Hr & Hzl & Hzr).
  cbn [__rb_traverse_dlr ptr preorder height] in *. rewrite He.
  rewrite (cbind_ret _ _ _ _ _ (visit_run _ _ _)).
  change (a :: preorder l ++ preorder r) with ([a] ++ preorder l ++ preorder r).
  rewrite (visit_list_app [a]), visit_list_app.
  erewrite cbind_ret; [|apply guarded_run; rewrite (cbind_ret _ _ _ _ _ Hl); eapply IHl; [done|lia]].
  apply guarded_run. rewrite (cbind_ret _ _ _ _ _ Hr). eapply IHr; [done|lia].
Qed.

Lemma traverse_lrd_run k t fuel du :
  zrep h0 n s k t -> (height t < fuel)%nat ->
  __rb_traverse_lrd func fuel (ptr t) (fst du) (snd du) s = Ret (visit_list (postorder t) du, s).
Proof.
  revert k fuel du. induction t as [|c l IHl a r IHr]; intros k fuel du Hz Hfu;
    (destruct fuel as [|fuel]; [lia|]); [by destruct du|].
  destruct (children_run _ _ _ _ _ Hz) as (He & Hl & Hr & Hzl & Hzr).
  cbn [__rb_traverse_lrd ptr postorder height] in *. rewrite He, !visit_list_app.
  erewrite cbind_ret; [|apply guarded_run; rewrite (cbind_ret _ _ _ _ _ Hl); eapply IHl; [done|lia]].
  erewrite cbind_ret; [|apply guarded_run; rewrite (cbind_ret _ _ _ _ _ Hr); eapply IHr; [done|lia]].
  apply visit_run.
Qed.
End Run.
End Visit.

(** ** Clearing *)

Lemma enough_le l l' fuel : (length l' <= length l)%nat -> enough l fuel -> enough l' fuel.
Proof.
  unfold enough. intros Hl He. pose proof (Nat.log2_le_mono (S (length l')) (S (length l)) ltac:(lia)). lia.
Qed.

Lemma holds_root h0 s l : holds h0 s l -> (root s = 0 /\ l = []) \/ (root s <> 0 /\ root s ∈ l).
Proof.
  intros (t & m & Hz & _ & <-). pose proof (zrep_ptr_eqb _ _ _ _ _ Hz) as He.
  destruct Hz as (_ & Hk & _). cbn in Hk. rewrite Hk. destruct t as [|c l a r]; [by left|].
  right. cbn in *. apply Z.eqb_neq in He. split; [done|set_solver].
Qed.

Section Clear.
Context (free : Z -> CM rbst unit) (efuel : nat).
(** Freeing an unlinked node does not touch the nodes of the tree. *)
Hypothesis free_ok : forall h0 s l a, holds h0 s l -> a ∉ l -> is_Some (h0 !! a) ->
  wp (free a) s (fun _ s' => exists h0', holds h0' s' l).

Lemma clear_ok h0 s l fuel :
  holds h0 s l -> enough l efuel -> (length l < fuel)%nat ->
  wp (aosl_rb_clear free efuel fuel) s (fun freed s' => freed ≡ₚ l /\ exists h0', holds h0' s' []).
Proof.
  revert h0 s l. induction fuel as [|fuel IH]; intros h0 s l Hh He Hfu; [lia|]. cbn [aosl_rb_clear].
  unfold get_root. apply wp_bind, wp_bind, wp_ret, wp_ret.
  destruct (holds_root _ _ _ Hh) as [[-> ->]|[Hne Hin]].
  - apply wp_ret. eauto.
  - rewrite (proj2 (Z.eqb_neq _ 0) Hne). apply list_elem_of_split in Hin as (l1 & l2 & Hl). rewrite Hl in *.
    assert (Hnd : root s ∉ l1 ++ l2).
    { destruct Hh as (t & m & (_ & _ & [Hnd _] & _) & _ & Ht). cbn in Hnd. rewrite app_nil_r, Ht in Hnd.
      rewrite NoDup_app, NoDup_cons in Hnd. set_solver. }
    assert (Hlen : (length (l1 ++ l2) < length (l1 ++ root s :: l2))%nat) by (rewrite !length_app; cbn; lia).
    wstep erase_ok; [done..|]. intros _ s1 [nd Hh1].
    wstep free_ok; [done|done|by rewrite lookup_insert_eq|]. intros _ s2 [h0' Hh2].
    wstep (IH h0' s2 (l1 ++ l2)); [done|eapply enough_le; [|done]; lia|lia|].
    intros rest s3 [Hp Hh3]. apply wp_ret. split; [|done]. rewrite Hp. by apply Permutation_middle.
Qed.
End Clear.

(** ** Histories *)

(** Nodes ordered by a key, as every comparison function of the library
    orders them. *)
Definition by_key (key : Z -> Z) (a : Z) (b : Z) : Z := key b - key a.

Definition sorted_by (key : Z -> Z) (l : list Z) : Prop := StronglySorted (fun a b => key a <= key b) l.

Lemma sorted_key_sorted key a l : sorted_by key l -> key_sorted (by_key key a) l.
Proof.
  unfold sorted_by, key_sorted, by_key.
  induction 1 as [|b l Hs IH HF]; constructor; [done|]. eapply Forall_impl; [done|]. cbn. lia.
Qed.

Lemma place_perm cmp a l : place cmp a l ≡ₚ a :: l.
Proof.
  induction l as [|b l IH]; cbn; [done|]. destruct (0 <? cmp b); [done|]. rewrite IH. constructor.
Qed.

Lemma place_sorted key a l : sorted_by key l -> sorted_by key (place (by_key key a) a l).
Proof.
  unfold sorted_by. induction 1 as [|b l Hs IH HF]; cbn; [by repeat constructor|].
  unfold by_key at 1. destruct (Z.ltb_spec 0 (key b - key a)).
  - constructor; [by constructor|]. constructor; [lia|]. eapply Forall_impl; [done|]. cbn. lia.
  - constructor; [done|]. apply Forall_forall. intros x. rewrite place_perm. intros [->|Hx]%elem_of_cons; [lia|].
    rewrite Forall_forall in HF. by apply HF.
Qed.

(** Insertions of new nodes and removals of nodes in the tree; the second
    component is the collection of the nodes in the tree. *)
Inductive rb_op (key : Z -> Z) (fuel : nat) : rbst * list Z -> rbst * list Z -> Prop :=
| op_insert s l a s' : enough l fuel -> a ∉ l -> 0 < a -> a mod 4 = 0 -> is_Some (mem s !! a) ->
    aosl_rb_insert_node (by_key key a) fuel a s = Ret (tt, s') ->
    rb_op key fuel (s, l) (s', a :: l)
| op_erase s l1 a l2 s' : enough (l1 ++ a :: l2) fuel -> aosl_rb_erase fuel a s = Ret (tt, s') ->
    rb_op key fuel (s, l1 ++ a :: l2) (s', l1 ++ l2).

Definition rb_state_ok (key : Z -> Z) (x : rbst * list Z) : Prop :=
  exists h0 l, holds h0 (fst x) l /\ sorted_by key l /\ l ≡ₚ snd x.

Lemma holds_outside h0 s l a : holds h0 s l -> a ∉ l -> mem s !! a = h0 !! a.
Proof. intros (t & m & (_ & _ & _ & Ho & _) & _ & <-) Ha. apply Ho. cbn. by rewrite app_nil_r. Qed.

Lemma sorted_by_app key l1 a l2 : sorted_by key (l1 ++ a :: l2) -> sorted_by key (l1 ++ l2).
Proof.
  unfold sorted_by. rewrite !StronglySorted_app, StronglySorted_cons. intros (H1 & H2 & H3 & H4).
  split_and!; try done. intros x y Hx Hy. apply H1; [done|set_solver].
Qed.

Lemma rb_op_ok key fuel x y :
  rb_state_ok key x -> rb_op key fuel x y -> rb_state_ok key y.
Proof.
  intros (h0 & l & Hh & Hs & Hp) Hop. destruct Hop as [s l0 a s' He Hn Ha Hal Hm Hr|s l1 a l2 s' He Hr]; cbn [fst snd] in *;
    assert (He' : enough l fuel) by (eapply enough_le; [|done]; by rewrite (Permutation_length Hp)).
  - assert (Hn' : a ∉ l) by by rewrite Hp.
    pose proof (insert_ok h0 s l (by_key key a) a fuel Hh (sorted_key_sorted _ _ _ Hs)) as Hw.
    specialize (Hw ltac:(split_and!; try done; by rewrite <-(holds_outside _ _ _ _ Hh Hn')) He').
    unfold wp in Hw. rewrite Hr in Hw. exists h0, (place (by_key key a) a l). split_and!; cbn; [done|by apply place_sorted|].
    by rewrite place_perm, Hp.
  - assert (Hin : a ∈ l) by (rewrite Hp; set_solver). apply list_elem_of_split in Hin as (k1 & k2 & ->).
    pose proof (erase_ok h0 s k1 a k2 fuel Hh He') as Hw. unfold wp in Hw. rewrite Hr in Hw.
    destruct Hw as [nd Hh']. eexists _, (k1 ++ k2). split_and!; cbn; [done|by eapply sorted_by_app|].
    apply (Permutation_cons_inv (a := a)). by rewrite !Permutation_middle.
Qed.

Lemma replace_ok h0 s l1 a l2 b :
  holds h0 s (l1 ++ a :: l2) -> fresh_node h0 (l1 ++ a :: l2) b ->
  wp (aosl_rb_replace_node a b) s (fun _ s' => exists nd, holds (<[a := nd]> h0) s' (l1 ++ b :: l2)).
Proof.
  intros Hh (Hb0 & Hb4 & Hbn & [nd Hnd]).
  destruct (holds_at _ _ _ _ _ Hh) as (k & c & l & r & m & Hz & Hrb & -> & ->).
  assert (Hel : forall x, elements (plug k (T c l x r)) = (ctx_left k ++ elements l) ++ x :: elements r ++ ctx_right k).
  { intros x. rewrite elements_plug. cbn. by repeat (rewrite <-?app_assoc; cbn). }
  wlast replace_node_wp; [done|done| |done|done|]. { by rewrite elements_perm, Hel. }
  intros _ s' Hz'. eexists _, (plug k (T c l b r)), m. split_and!; [| |by apply Hel].
  - unfold rb_rep. rewrite <-zrep_root. rewrite !length_app in *. done.
  - apply rb_unplug in Hrb as (hb & hn & cc & Hk & Ht & Hc). eapply rb_plug; [done| |done].
    inversion Ht; subst; eauto with aosl.
Qed.

(** ** A tree for the witnesses: three nodes and a free one *)
Definition demo : rbst :=
  MkRb (<[4 := MkNode 8 0 0]> (<[8 := MkNode 1 12 4]> (<[12 := MkNode 8 0 0]> (<[16 := MkNode 0 0 0]> ∅)))) 8 3.

Lemma demo_holds : holds (mem demo) demo [4; 8; 12].
Proof.
  exists (T Black (T Red E 4 E) 8 (T Red E 12 E)), 1%nat. split_and!; [|eauto with aosl|done].
  split; [by repeat split|]. split; [done|]. split; [|done]. split.
  - apply (bool_decide_unpack _). vm_compute. done.
  - repeat constructor; cbn; lia.
Qed.

Lemma demo_sorted a : sorted_by (fun x => x) [4; 8; 12] /\ key_sorted (by_key (fun x => x) a) [4; 8; 12].
Proof. split; [|apply sorted_key_sorted]; repeat constructor; lia. Qed.

Lemma demo_fresh : fresh_node (mem demo) [4; 8; 12] 16.
Proof. split_and!; [lia|done|not_in_list|eexists; reflexivity]. Qed.

Lemma demo_enough : enough [4; 8; 12] 8.
Proof. unfold enough. cbn. lia. Qed.

(** ** The theorems *)

(** C10: inserting a node that is not in the tree terminates without a fault,
    with fuel logarithmic in the number of nodes; the node goes after every
    node that compares less or equal and before every node that compares
    greater, the tree stays a balanced red-black tree, the count grows by
    one and no memory outside the tree changes. *)
Theorem rb_insert_node_correct h0 s l cmp a fuel :
  holds h0 s l -> key_sorted cmp l -> fresh_node h0 l a -> enough l fuel ->
  exists s' L R, aosl_rb_insert_node cmp fuel a s = Ret (tt, s') /\
    l = L ++ R /\ holds h0 s' (L ++ a :: R) /\
    Forall (fun b => cmp b <= 0) L /\ Forall (fun b => 0 < cmp b) R.
Proof.
  intros Hh Hs Hf He. destruct (wp_elim _ _ _ (insert_ok _ _ _ _ _ _ Hh Hs Hf He)) as ([] & s' & Hr & Hh').
  destruct Hh as (t & m & _ & _ & <-).
  pose proof (descend_side cmp [] t (conj (Forall_nil_2 _) (Forall_nil_2 _)) Hs) as Hsp.
  pose proof (descend_plug cmp [] t) as Hp. cbn [plug] in Hp. rewrite <-Hp, elements_plug in Hh' |- *.
  cbn [elements app] in *. rewrite place_split in Hh' by done. destruct Hsp. eauto 10.
Qed.

Lemma rb_insert_node_correct_witness :
  exists s' L R, aosl_rb_insert_node (by_key (fun x => x) 16) 8 16 demo = Ret (tt, s') /\
    [4; 8; 12] = L ++ R /\ holds (mem demo) s' (L ++ 16 :: R) /\
    Forall (fun b => by_key (fun x => x) 16 b <= 0) L /\ Forall (fun b => 0 < by_key (fun x => x) 16 b) R.
Proof.
  apply (rb_insert_node_correct (mem demo) demo [4; 8; 12]);
    [apply demo_holds|apply demo_sorted|apply demo_fresh|apply demo_enough].
Defined.

(** C11: erasing a node of the tree terminates without a fault and removes
    exactly that node: the others keep their order, the tree stays a balanced
    red-black tree, the count falls by one, and outside the tree only the
    memory of the removed node may differ. *)
Theorem rb_erase_correct h0 s l1 a l2 fuel :
  holds h0 s (l1 ++ a :: l2) -> enough (l1 ++ a :: l2) fuel ->
  exists s' nd, aosl_rb_erase fuel a s = Ret (tt, s') /\ holds (<[a := nd]> h0) s' (l1 ++ l2).
Proof.
  intros Hh He. destruct (wp_elim _ _ _ (erase_ok _ _ _ _ _ _ Hh He)) as ([] & s' & Hr & nd & Hh'). eauto.
Qed.

Lemma rb_erase_correct_witness :
  exists s' nd, aosl_rb_erase 8 8 demo = Ret (tt, s') /\ holds (<[8 := nd]> (mem demo)) s' ([4] ++ [12]).
Proof. apply (rb_erase_correct (mem demo) demo [4] 8 [12]); [apply demo_holds|apply demo_enough]. Defined.

(** Looking a key up returns a node that compares equal when there is
    one, and NULL otherwise; removing by key does nothing in the second case
    and in the first takes that node out and returns it. *)
Theorem rb_find_remove_correct h0 s l cmp fuel :
  holds h0 s l -> key_sorted cmp l -> enough l fuel ->
  (exists r, aosl_vfind_rb_node cmp fuel s = Ret (r, s) /\
    ((r ∈ l /\ cmp r = 0) \/ (r = 0 /\ forall a, a ∈ l -> cmp a <> 0))) /\
  (exists r s', aosl_rb_remove cmp fuel s = Ret (r, s') /\
    ((r = 0 /\ s' = s /\ forall a, a ∈ l -> cmp a <> 0) \/
     (exists l1 l2 nd, l = l1 ++ r :: l2 /\ cmp r = 0 /\ holds (<[r := nd]> h0) s' (l1 ++ l2)))).
Proof.
  intros Hh Hs He. split.
  - destruct (wp_elim _ _ _ (find_ok _ _ _ _ _ Hh Hs He)) as (r & s' & Hr & -> & H). eauto.
  - eapply wp_elim, remove_ok; try done. destruct Hh as (t & m & (_ & _ & [_ HF] & _) & _ & <-).
    rewrite Forall_forall in HF. intros H0. specialize (HF 0). cbn in HF. rewrite app_nil_r in HF. specialize (HF H0). lia.
Qed.

Lemma rb_find_remove_correct_witness :
  (exists r, aosl_vfind_rb_node (by_key (fun x => x) 12) 8 demo = Ret (r, demo) /\
    ((r ∈ [4; 8; 12] /\ by_key (fun x => x) 12 r = 0) \/
     (r = 0 /\ forall a, a ∈ [4; 8; 12] -> by_key (fun x => x) 12 a <> 0))) /\
  (exists r s', aosl_rb_remove (by_key (fun x => x) 12) 8 demo = Ret (r, s') /\
    ((r = 0 /\ s' = demo /\ forall a, a ∈ [4; 8; 12] -> by_key (fun x => x) 12 a <> 0) \/
     (exists l1 l2 nd, [4; 8; 12] = l1 ++ r :: l2 /\ by_key (fun x => x) 12 r = 0 /\
       holds (<[r := nd]> (mem demo)) s' (l1 ++ l2)))).
Proof.
  apply rb_find_remove_correct; [apply demo_holds|apply demo_sorted|apply demo_enough].
Defined.

(** [aosl_rb_first] and [aosl_rb_last] return the ends of the sequence
    (NULL for an empty tree) and [aosl_rb_next] and [aosl_rb_prev] the
    neighbours of a node (NULL at the ends); none of them changes memory. *)
Theorem rb_neighbours_correct h0 s l1 a l2 fuel :
  holds h0 s (l1 ++ a :: l2) -> enough (l1 ++ a :: l2) fuel ->
  aosl_rb_first fuel s = Ret (default a (head l1), s) /\
  aosl_rb_last fuel s = Ret (default a (last l2), s) /\
  aosl_rb_next fuel a s = Ret (default 0 (head l2), s) /\
  aosl_rb_prev fuel a s = Ret (default 0 (last l1), s).
Proof.
  intros Hh He.
  destruct (wp_elim _ _ _ (first_ok _ _ _ _ Hh He)) as (r1 & s1 & -> & -> & ->).
  destruct (wp_elim _ _ _ (last_ok _ _ _ _ Hh He)) as (r2 & s2 & -> & -> & ->).
  destruct (wp_elim _ _ _ (next_ok _ _ _ _ _ _ Hh He)) as (r3 & s3 & -> & -> & ->).
  destruct (wp_elim _ _ _ (prev_ok _ _ _ _ _ _ Hh He)) as (r4 & s4 & -> & -> & ->).
  rewrite last_app_cons, last_cons, head_app. by destruct l1, (last l2).
Qed.

Lemma rb_neighbours_correct_witness :
  aosl_rb_first 8 demo = Ret (default 8 (head [4]), demo) /\
  aosl_rb_last 8 demo = Ret (default 8 (last [12]), demo) /\
  aosl_rb_next 8 8 demo = Ret (default 0 (head [12]), demo) /\
  aosl_rb_prev 8 8 demo = Ret (default 0 (last [4]), demo).
Proof.
  apply (rb_neighbours_correct (mem demo) demo [4] 8 [12]); [apply demo_holds|apply demo_enough].
Defined.

(** The in-order traversal calls the function on the nodes in order, each
    once, until a call returns non-zero, and returns what the calls computed;
    the pre-order and post-order ones do so in the order of some permutation
    of the nodes. *)
Theorem rb_traversals_correct {U : Type} (f : Z -> U -> Z * U) h0 s l fuel u :
  holds h0 s l -> enough l fuel ->
  aosl_rb_traverse_ldr (fun a u => cret (f a u)) fuel u s = Ret (snd (visit_list f l (0, u)), s) /\
  (exists l', l' ≡ₚ l /\
    aosl_rb_traverse_dlr (fun a u => cret (f a u)) fuel u s = Ret (snd (visit_list f l' (0, u)), s)) /\
  (exists l', l' ≡ₚ l /\
    aosl_rb_traverse_lrd (fun a u => cret (f a u)) fuel u s = Ret (snd (visit_list f l' (0, u)), s)).
Proof.
  intros (t & m & Hz & Hrb & <-) He. pose proof (height_enough _ _ _ Hrb He) as Hfu.
  assert (Hg : get_root s = Ret (ptr t, s)).
  { destruct Hz as (_ & Hk & _). cbn in Hk. unfold get_root. run. by rewrite Hk. }
  assert (Hpre : preorder t ≡ₚ elements t).
  { clear. induction t as [|c l IHl a r IHr]; cbn; [done|]. by rewrite IHl, IHr, <-Permutation_middle. }
  assert (Hpost : postorder t ≡ₚ elements t).
  { clear. induction t as [|c l IHl a r IHr]; cbn; [done|]. rewrite IHl, IHr. solve_Permutation. }
  unfold aosl_rb_traverse_ldr, aosl_rb_traverse_dlr, aosl_rb_traverse_lrd.
  rewrite !(cbind_ret _ _ _ _ _ Hg). split_and!; [|exists (preorder t)|exists (postorder t)].
  - erewrite cbind_ret; [|by eapply (traverse_ldr_run f _ _ _ _ _ _ (0, u))]. done.
  - split; [done|]. erewrite cbind_ret; [|by eapply (traverse_dlr_run f _ _ _ _ _ _ (0, u))]. done.
  - split; [done|]. erewrite cbind_ret; [|by eapply (traverse_lrd_run f _ _ _ _ _ _ (0, u))]. done.
Qed.

Lemma rb_traversals_correct_witness :
  let f a u := (if a =? 8 then 1 else 0, u ++ [a]) in
  aosl_rb_traverse_ldr (fun a u => cret (f a u)) 8 [] demo = Ret (snd (visit_list f [4; 8; 12] (0, [])), demo) /\
  (exists l', l' ≡ₚ [4; 8; 12] /\
    aosl_rb_traverse_dlr (fun a u => cret (f a u)) 8 [] demo = Ret (snd (visit_list f l' (0, [])), demo)) /\
  (exists l', l' ≡ₚ [4; 8; 12] /\
    aosl_rb_traverse_lrd (fun a u => cret (f a u)) 8 [] demo = Ret (snd (visit_list f l' (0, [])), demo)).
Proof.
  exact (rb_traversals_correct (fun a u => (if a =? 8 then 1 else 0, u ++ [a])) (mem demo) demo [4; 8; 12] 8 []
    demo_holds demo_enough).
Defined.

(** Clearing the tree frees every node exactly once, whatever the order
    of the removals, and leaves an empty tree; the number of iterations is
    the number of nodes. *)
Theorem rb_clear_correct free h0 s l efuel fuel :
  (forall h0 s l a, holds h0 s l -> a ∉ l -> is_Some (h0 !! a) ->
    wp (free a) s (fun _ s' => exists h0', holds h0' s' l)) ->
  holds h0 s l -> enough l efuel -> (length l < fuel)%nat ->
  exists freed s' h0', aosl_rb_clear free efuel fuel s = Ret (freed, s') /\
    freed ≡ₚ l /\ NoDup freed /\ holds h0' s' [].
Proof.
  intros Hfree Hh He Hfu.
  destruct (wp_elim _ _ _ (clear_ok free efuel Hfree h0 s l fuel Hh He Hfu)) as (fr & s' & Hr & Hp & h0' & Hh').
  exists fr, s', h0'. split_and!; try done. rewrite Hp.
  destruct Hh as (t & m & (_ & _ & [Hnd _] & _) & _ & <-). cbn in Hnd. by rewrite app_nil_r in Hnd.
Qed.

(** [aosl_free] of a node: its memory is gone. *)
Definition free_node (a : Z) : CM rbst unit := fun s => Ret (tt, MkRb (delete a (mem s)) (root s) (count s)).

Lemma free_node_ok h0 s l a : holds h0 s l -> a ∉ l -> is_Some (h0 !! a) ->
  wp (free_node a) s (fun _ s' => exists h0', holds h0' s' l).
Proof.
  intros (t & m & (Hr & Hk & Ha & Ho & Hc) & Hrb & <-) Hn _. cbn in Ho. rewrite app_nil_r in Ho.
  exists (delete a h0), t, m. split; [|done]. unfold rb_rep, zrep. split_and!; try done.
  - eapply rep_ext; [|done]. intros b Hb. cbn. rewrite lookup_delete_ne; [done|]. by intros ->.
  - intros b Hb. cbn in Hb |- *. rewrite app_nil_r in Hb. destruct (decide (b = a)) as [->|Hne].
    + by rewrite !lookup_delete_eq.
    + rewrite !lookup_delete_ne by done. by apply Ho.
Qed.

Lemma rb_clear_correct_witness :
  exists freed s' h0', aosl_rb_clear free_node 8 4 demo = Ret (freed, s') /\
    freed ≡ₚ [4; 8; 12] /\ NoDup freed /\ holds h0' s' [].
Proof.
  apply (rb_clear_correct free_node (mem demo)); [apply free_node_ok|apply demo_holds|apply demo_enough|cbn; lia].
Defined.

(** Starting from an empty root, every sequence of insertions of new
    nodes and removals of present ones keeps a balanced tree that contains
    exactly the nodes inserted and not removed, sorted by their keys, with
    their number in the count field. *)
Theorem rb_history_invariant key fuel h s l :
  rtc (rb_op key fuel) (MkRb h 0 0, []) (s, l) ->
  exists h0 l', holds h0 s l' /\ sorted_by key l' /\ l' ≡ₚ l /\ count s = u64 (Z.of_nat (length l)).
Proof.
  intros Hr. assert (Hinit : rb_state_ok key (MkRb h 0 0, [])).
  { exists h, []. split_and!; cbn; [|constructor|done]. exists E, 0%nat. split_and!; [|constructor|done].
    unfold rb_rep, zrep. split_and!; try done. split; constructor. }
  assert (Hok : rb_state_ok key (s, l)).
  { clear - Hr Hinit. induction Hr; eauto using rb_op_ok. }
  destruct Hok as (h0 & l' & Hh & Hs & Hp). exists h0, l'. split_and!; try done.
  cbn in Hp. rewrite <-(Permutation_length Hp). by destruct Hh as (t & m & (_ & _ & _ & _ & Hc) & _).
Qed.

(** Memory with four unlinked nodes. *)
Definition demo0 : gmap Z aosl_rb_node :=
  <[4 := MkNode 0 0 0]> (<[8 := MkNode 0 0 0]> (<[12 := MkNode 0 0 0]> (<[16 := MkNode 0 0 0]> ∅))).

(** The state a computation leaves, for running it on concrete inputs. *)
Definition run_state {S A} (c : CM S A) (s : S) : S := match c s with Ret (_, s') => s' | _ => s end.

Lemma rb_history_invariant_witness :
  let id := fun x : Z => x in
  let s1 := run_state (aosl_rb_insert_node (by_key id 8) 8 8) (MkRb demo0 0 0) in
  let s2 := run_state (aosl_rb_insert_node (by_key id 4) 8 4) s1 in
  let s3 := run_state (aosl_rb_insert_node (by_key id 12) 8 12) s2 in
  let s4 := run_state (aosl_rb_erase 8 8) s3 in
  exists h0 l', holds h0 s4 l' /\ sorted_by id l' /\ l' ≡ₚ [12; 4] /\ count s4 = u64 (Z.of_nat (length [12; 4])).
Proof.
  intros id s1 s2 s3 s4. apply (rb_history_invariant id 8 demo0 s4).
  apply (rtc_l _ _ (s1, [8])). { apply op_insert; [unfold enough; cbn; lia|not_in_list|lia|done|by eexists|by vm_compute]. }
  apply (rtc_l _ _ (s2, [4; 8])). { apply op_insert; [unfold enough; cbn; lia|not_in_list|lia|done|by eexists|by vm_compute]. }
  apply (rtc_l _ _ (s3, [12; 4; 8])). { apply op_insert; [unfold enough; cbn; lia|not_in_list|lia|done|by eexists|by vm_compute]. }
  apply rtc_once. apply (op_erase id 8 s3 [12; 4] 8 [] s4); [unfold enough; cbn; lia|by vm_compute].
Defined.
