(* ===== verification/Timer.v ===== *)
(** * Timers of a queue: [kernel/timer.c]

    A queue keeps its timers in a list, the scheduled ones in a red-black
    tree ordered by expiry time and, threaded through the same nodes, in a
    doubly linked list in the same order, whose head is the next timer to
    expire.  The handles are those of the identifier table. *)
From S2P Require Import Prelude Bitmap IdPool RbTree.
#[local] Open Scope aosl_scope.

(** ** Data *)

(** [struct timer_node]; the embedded [aosl_rb_node] is in the memory of the
    tree under the address of the timer, and [obj_id] in the table of
    identifiers; [argv] has [argc] elements. *)
Record timer_node := MkTimer {
  timer_prev : Z;
  timer_next : Z;
  usage : Z;
  tm_q : Z;
  interval : Z;
  expire_time : Z;
  func : Z;
  dtor : Z;
  argv : list Z
}.

(** [struct mpq_stack], the part [mpq_stack_fini] resets. *)
Record mpq_stack := MkStk {
  prepare_calls : Z;
  err_stack_id : Z;
  task_exec_err : Z;
  resume_calls : Z;
  prepare_calls_count : Z;
  task_exec_count : Z
}.

Definition AOSL_STACK_INVALID : Z := 0.

(** What the timer code reads and writes: the timers of the queue
    ([timer_base.active], [timer_base.first], the timer objects, [timers],
    [timer_count]), its [qid] and current stack, the identifier table, the
    thread's [aosl_errno], how often the clock was read, and, for functions that
    keep a record, the calls of timer functions so far. *)
Record tstate := MkTs {
  ts_rb : rbst;
  ts_first : Z;
  ts_tmr : gmap Z timer_node;
  ts_timers : list Z;
  ts_count : Z;
  ts_pool : id_pool;
  ts_qid : Z;
  ts_stack : mpq_stack;
  ts_errno : Z;
  ts_reads : nat;
  ts_calls : list (Z * Z * Z * list Z)
}.

Definition set_rb (x : rbst) (s : tstate) : tstate :=
  MkTs x (ts_first s) (ts_tmr s) (ts_timers s) (ts_count s) (ts_pool s) (ts_qid s) (ts_stack s) (ts_errno s) (ts_reads s) (ts_calls s).
Definition set_first (x : Z) (s : tstate) : tstate :=
  MkTs (ts_rb s) x (ts_tmr s) (ts_timers s) (ts_count s) (ts_pool s) (ts_qid s) (ts_stack s) (ts_errno s) (ts_reads s) (ts_calls s).
Definition set_tmr (x : gmap Z timer_node) (s : tstate) : tstate :=
  MkTs (ts_rb s) (ts_first s) x (ts_timers s) (ts_count s) (ts_pool s) (ts_qid s) (ts_stack s) (ts_errno s) (ts_reads s) (ts_calls s).
Definition set_timers (x : list Z) (n : Z) (s : tstate) : tstate :=
  MkTs (ts_rb s) (ts_first s) (ts_tmr s) x n (ts_pool s) (ts_qid s) (ts_stack s) (ts_errno s) (ts_reads s) (ts_calls s).
Definition set_pool (x : id_pool) (s : tstate) : tstate :=
  MkTs (ts_rb s) (ts_first s) (ts_tmr s) (ts_timers s) (ts_count s) x (ts_qid s) (ts_stack s) (ts_errno s) (ts_reads s) (ts_calls s).
Definition set_stack (x : mpq_stack) (s : tstate) : tstate :=
  MkTs (ts_rb s) (ts_first s) (ts_tmr s) (ts_timers s) (ts_count s) (ts_pool s) (ts_qid s) x (ts_errno s) (ts_reads s) (ts_calls s).
Definition set_errno (x : Z) (s : tstate) : tstate :=
  MkTs (ts_rb s) (ts_first s) (ts_tmr s) (ts_timers s) (ts_count s) (ts_pool s) (ts_qid s) (ts_stack s) x (ts_reads s) (ts_calls s).
Definition set_reads (x : nat) (s : tstate) : tstate :=
  MkTs (ts_rb s) (ts_first s) (ts_tmr s) (ts_timers s) (ts_count s) (ts_pool s) (ts_qid s) (ts_stack s) (ts_errno s) x (ts_calls s).
Definition set_calls (x : list (Z * Z * Z * list Z)) (s : tstate) : tstate :=
  MkTs (ts_rb s) (ts_first s) (ts_tmr s) (ts_timers s) (ts_count s) (ts_pool s) (ts_qid s) (ts_stack s) (ts_errno s) (ts_reads s) x.

Definition modify {S} (f : S -> S) : CM S unit := do s <- cget; cput (f s).

(** Running code of the tree and of the identifier table. *)
Definition on_rb {A} (c : CM rbst A) : CM tstate A := fun s =>
  match c (ts_rb s) with
  | Ret (a, x) => Ret (a, set_rb x s)
  | Abort => Abort | Fault => Fault | NoFuel => NoFuel
  end.
Definition on_pool {A} (c : CM id_pool A) : CM tstate A := fun s =>
  match c (ts_pool s) with
  | Ret (a, x) => Ret (a, set_pool x s)
  | Abort => Abort | Fault => Fault | NoFuel => NoFuel
  end.

(** Access to a timer: a fault unless the address designates one. *)
Definition tget (a : Z) : CM tstate timer_node :=
  do s <- cget; match ts_tmr s !! a with Some t => cret t | None => cfault end.
Definition tmod (a : Z) (f : timer_node -> timer_node) : CM tstate unit :=
  do t <- tget a; modify (fun s => set_tmr (<[a := f t]> (ts_tmr s)) s).

Definition upd_prev (p : Z) (t : timer_node) : timer_node :=
  MkTimer p (timer_next t) (usage t) (tm_q t) (interval t) (expire_time t) (func t) (dtor t) (argv t).
Definition upd_next (p : Z) (t : timer_node) : timer_node :=
  MkTimer (timer_prev t) p (usage t) (tm_q t) (interval t) (expire_time t) (func t) (dtor t) (argv t).
Definition upd_usage (u : Z) (t : timer_node) : timer_node :=
  MkTimer (timer_prev t) (timer_next t) u (tm_q t) (interval t) (expire_time t) (func t) (dtor t) (argv t).
Definition upd_interval (i : Z) (t : timer_node) : timer_node :=
  MkTimer (timer_prev t) (timer_next t) (usage t) (tm_q t) i (expire_time t) (func t) (dtor t) (argv t).
Definition upd_expire (e : Z) (t : timer_node) : timer_node :=
  MkTimer (timer_prev t) (timer_next t) (usage t) (tm_q t) (interval t) e (func t) (dtor t) (argv t).

Definition AOSL_LIST_POISON1 : Z := 0x00100100 + 1.
Definition AOSL_LIST_POISON2 : Z := 0x00200200 + 3.
Definition AOSL_MPQ_TIMER_INVALID : Z := -1.
Definition AOSL_INVALID_TIMER_INTERVAL : Z := 2 ^ 64 - 1.
Definition ULLONG_MAX : Z := 2 ^ 64 - 1.
Definition MPQ_ARGC_MAX : Z := 64.

(** [time_after_eq (a, b)]: the difference as a signed 64-bit number. *)
Definition time_after_eq (a b : Z) : bool := 0 <=? s64 (a - b).

(** [(intptr_t)x < 0] *)
Definition neg_intptr (x : Z) : bool := s64 x <? 0.

(** ** The ordered list of scheduled timers *)

(** The loop of [__find_timer_prepare]; [e] is the expiry time of the timer
    to place. *)
Fixpoint find_timer_loop (fuel : nat) (e : Z) (link : rb_link) (parent prev : Z) : CM tstate (rb_link * Z * Z) :=
  match fuel with
  | O => cnofuel
  | S fuel' =>
    do cur <- on_rb (deref_link link);
    if cur =? 0 then cret (link, parent, prev) else
    do entry <- tget cur;
    if e <? expire_time entry
    then find_timer_loop fuel' e (LLeft cur) cur prev
    else find_timer_loop fuel' e (LRight cur) cur cur
  end.

Definition __find_timer_prepare (fuel : nat) (timer : Z) : CM tstate (rb_link * Z * Z) :=
  do t <- tget timer;
  find_timer_loop fuel (expire_time t) LRoot 0 0.

Definition __timer_link_list (timer prev rb_parent : Z) : CM tstate unit :=
  tmod timer (upd_prev prev) ;;
  if prev =? 0 then
    (if negb (rb_parent =? 0) then
       tmod timer (upd_next rb_parent) ;;
       tmod rb_parent (upd_prev timer)
     else tmod timer (upd_next 0)) ;;
    modify (set_first timer)
  else
    do p <- tget prev;
    tmod timer (upd_next (timer_next p)) ;;
    do t <- tget timer;
    (when negb (timer_next t =? 0) then tmod (timer_next t) (upd_prev timer)) ;;
    tmod prev (upd_next timer).

Definition __timer_link_rb (fuel : nat) (timer : Z) (link : rb_link) (rb_parent : Z) : CM tstate unit :=
  on_rb (rb_link_node timer rb_parent link) ;;
  on_rb (aosl_rb_insert_color fuel timer).

Definition __insert_timer (fuel : nat) (timer : Z) : CM tstate unit :=
  do r <- __find_timer_prepare fuel timer;
  let '(link, parent, prev) := r in
  __timer_link_list timer prev parent ;;
  __timer_link_rb fuel timer link parent.

Definition __timer_unlink_list (timer : Z) : CM tstate unit :=
  do t <- tget timer;
  let next := timer_next t in
  do s <- cget;
  (if ts_first s =? timer then
     if negb (next =? 0) then
       tmod next (upd_prev 0) ;;
       modify (set_first next)
     else modify (set_first 0)
   else
     tmod (timer_prev t) (upd_next next) ;;
     when negb (next =? 0) then tmod next (upd_prev (timer_prev t))) ;;
  tmod timer (upd_next AOSL_LIST_POISON1) ;;
  tmod timer (upd_prev AOSL_LIST_POISON2).

Definition __timer_unlink_rb (fuel : nat) (timer : Z) : CM tstate unit := on_rb (aosl_rb_erase fuel timer).

Definition __unlink_timer (fuel : nat) (timer : Z) : CM tstate unit :=
  __timer_unlink_list timer ;;
  __timer_unlink_rb fuel timer.

(** [mpq_stack_fini] of [include/kernel/mp_queue.h]. *)
Definition mpq_stack_fini (stk : mpq_stack) : mpq_stack :=
  MkStk 0 AOSL_STACK_INVALID 0 (if negb (resume_calls stk =? 0) then 0 else resume_calls stk) 0 0.

Section Timers.
(** The environment: the readings of [aosl_tick_now] in order, the timer
    functions (called with the handle, the time and the arguments) and the
    destructors of timers, which may do anything to the queue. *)
Context (clock : nat -> Z).
Context (call_func : Z -> Z -> Z -> list Z -> CM tstate unit).
Context (call_dtor : Z -> list Z -> CM tstate unit).
(** The fuel of the operations on the tree. *)
Context (fuel : nat).

Definition aosl_tick_now : CM tstate Z :=
  do s <- cget;
  cput (set_reads (S (ts_reads s)) s) ;;
  cret (u64 (clock (ts_reads s))).

(** [timer->obj_id]. *)
Definition timer_obj_id (timer : Z) : CM tstate Z :=
  do s <- cget;
  match pool_objs (ts_pool s) !! timer with Some h => cret h | None => cfault end.

(** ** Scheduling *)

Definition __sched_timer (timer expire : Z) : CM tstate unit :=
  (if negb (expire =? 0) then
     do t <- tget timer;
     (when negb (interval t =? AOSL_INVALID_TIMER_INTERVAL)
      then tmod timer (upd_interval AOSL_INVALID_TIMER_INTERVAL)) ;;
     tmod timer (upd_expire expire)
   else
     do t <- tget timer;
     if negb (interval t =? AOSL_INVALID_TIMER_INTERVAL) then
       do now <- aosl_tick_now;
       tmod timer (upd_expire (u64 (now + interval t)))
     else tmod timer (upd_expire (u64 (-1)))) ;;
  __insert_timer fuel timer.

Definition __cancel_timer_on_q (timer : Z) : CM tstate unit :=
  do t <- tget timer;
  when negb (timer_next t =? AOSL_LIST_POISON1) then __unlink_timer fuel timer.

Definition __resched_timer (timer ival expire : Z) : CM tstate unit :=
  do t <- tget timer;
  (when negb (timer_next t =? AOSL_LIST_POISON1) then __unlink_timer fuel timer) ;;
  (when (expire =? 0) && negb (ival =? AOSL_INVALID_TIMER_INTERVAL)
   then tmod timer (upd_interval ival)) ;;
  __sched_timer timer expire.

(** ** Creating and destroying *)

(** [aosl_malloc] of a timer: the address with what the memory holds, or
    [None] when there is no memory. *)
Definition timer_mem : Type := option (Z * (aosl_rb_node * timer_node)).

Definition malloc_timer (a : Z) (nd : aosl_rb_node) (t : timer_node) : CM tstate unit := modify (fun s =>
  set_rb (MkRb (<[a := nd]> (mem (ts_rb s))) (root (ts_rb s)) (count (ts_rb s))) (set_tmr (<[a := t]> (ts_tmr s)) s)).
Definition free_timer (a : Z) : CM tstate unit := modify (fun s =>
  set_rb (MkRb (delete a (mem (ts_rb s))) (root (ts_rb s)) (count (ts_rb s))) (set_tmr (delete a (ts_tmr s)) s)).
Definition set_obj_id (a h : Z) : CM tstate unit := modify (fun s =>
  let p := ts_pool s in
  set_pool (MkPool (pool_bits p) (pool_table p) (pool_size p) (pool_life p) (<[a := h]> (pool_objs p))) s).

(** [__free_timer]. *)
Definition __free_timer (timer : Z) : CM tstate unit :=
  do h <- timer_obj_id timer;
  let timer_id := get_timer_id h in
  do t <- tget timer;
  (when negb (dtor t =? 0) then call_dtor (dtor t) (argv t)) ;;
  on_pool (__put_unused_timer_id timer_id) ;;
  free_timer timer.

Definition __timer_get (timer : Z) : CM tstate unit :=
  do t <- tget timer; tmod timer (upd_usage (s64 (usage t + 1))).

(** [__timer_put], also [timer_put]. *)
Definition __timer_put (timer : Z) : CM tstate unit :=
  do t <- tget timer;
  let u := s64 (usage t - 1) in
  tmod timer (upd_usage u) ;;
  when u =? 0 then __free_timer timer.

Definition timer_put (timer : Z) : CM tstate unit := __timer_put timer.

Definition timer_get (h : Z) : CM tstate Z :=
  do timer <- on_pool (timer_lookup h);
  (when negb (timer =? 0) then __timer_get timer) ;;
  cret timer.

(** [m] is the outcome of the allocation of the timer, the booleans those of
    the allocations [get_unused_timer_id] may need. *)
Definition __create_timer_on_q (m : timer_mem) (m1 m2 m3 : bool) (ival f d : Z) (args : list Z) : CM tstate Z :=
  match m with
  | None => cret (- AOSL_ENOMEM)
  | Some (timer, (nd, junk)) =>
    malloc_timer timer nd junk ;;
    do timer_id <- on_pool (get_unused_timer_id m1 m2 m3);
    if timer_id <? 0 then free_timer timer ;; cret timer_id else
    do s <- cget;
    set_obj_id timer AOSL_MPQ_TIMER_INVALID ;;
    tmod timer (fun _ => MkTimer AOSL_LIST_POISON2 AOSL_LIST_POISON1 1 (ts_qid s) ival ULLONG_MAX f d args) ;;
    modify (fun s => set_timers (ts_timers s ++ [timer]) (u64 (ts_count s + 1)) s) ;;
    on_pool (__timer_id_install timer_id timer) ;;
    cret timer
  end.

Definition __kill_timer_on_q (timer : Z) : CM tstate Z :=
  do h <- timer_obj_id timer;
  do err <- on_pool (__timer_id_uninstall (get_timer_id h) timer);
  if err <? 0 then cret err else
  __cancel_timer_on_q timer ;;
  modify (fun s => set_timers (filter (fun x => x <> timer) (ts_timers s)) (u64 (ts_count s - 1)) s) ;;
  __timer_put timer ;;
  cret 0.

Definition mpq_init_timers : CM tstate unit :=
  modify (fun s => set_timers [] 0 (set_first 0 (set_rb (aosl_rb_root_init (ts_rb s)) s))).

(** The loop of [mpq_fini_timers]: kill the first timer of the list until
    the list is empty. *)
Fixpoint fini_timers_loop (n : nat) : CM tstate unit :=
  match n with
  | O => cnofuel
  | S n' =>
    do s <- cget;
    match ts_timers s with
    | [] => cret tt
    | timer :: _ => __kill_timer_on_q timer ;; fini_timers_loop n'
    end
  end.

Definition mpq_fini_timers (n : nat) : CM tstate unit :=
  fini_timers_loop n ;;
  modify (fun s => set_timers (ts_timers s) 0 s).

Definition __set_timer_on_q (m : timer_mem) (m1 m2 m3 : bool) (ival expire f d : Z) (args : list Z) : CM tstate Z :=
  do timer <- __create_timer_on_q m m1 m2 m3 ival f d args;
  (when negb (IS_ERR timer) then __sched_timer timer expire) ;;
  cret timer.

(** ** Running the timers that are due *)

(** The loop of [__check_and_run_timers], in the configuration that is built
    (without [PERIODIC_TIMER_NO_DELAY_ACCUMULATION]); [n] counts the calls. *)
Fixpoint run_timers_loop (iters : nat) (now n : Z) : CM tstate Z :=
  match iters with
  | O => cnofuel
  | S iters' =>
    do s <- cget;
    let timer := ts_first s in
    if timer =? 0 then cret n else
    do t <- tget timer;
    if negb (time_after_eq now (expire_time t)) then cret n else
    __unlink_timer fuel timer ;;
    (when negb (interval t =? AOSL_INVALID_TIMER_INTERVAL) then
       do tick <- aosl_tick_now;
       tmod timer (upd_expire (u64 (tick + interval t - (now - expire_time t)))) ;;
       __insert_timer fuel timer) ;;
    do h <- timer_obj_id timer;
    do t <- tget timer;
    call_func (func t) h now (argv t) ;;
    modify (fun s => set_stack (mpq_stack_fini (ts_stack s)) s) ;;
    run_timers_loop iters' now (n + 1)
  end.

Definition __check_and_run_timers (iters : nat) : CM tstate Z :=
  do now <- aosl_tick_now;
  run_timers_loop iters now 0.

(** ** The interface *)

Definition fail (e : Z) : CM tstate Z := modify (set_errno e) ;; cret (-1).

(** [return_err (p)] for an error pointer; otherwise the handle of the timer. *)
Definition return_timer (timer : Z) : CM tstate Z :=
  if IS_ERR timer then fail (- timer) else timer_obj_id timer.

(** [return_err (err)] *)
Definition return_err (err : Z) : CM tstate Z := if IS_ERR err then fail (- err) else cret err.

(** What the timer code needs of the queues: whether [__get_or_create_current]
    returns a queue, whether the queue named by a handle exists
    ([__mpq_get_or_this]), and the synchronous call of a function on it
    ([__mpq_call], [__mpq_call_argv]), which either runs the function once
    and gives its result, or fails with an error number and runs nothing.
    The reference to the queue taken around the call is the queue's. *)
Class Queues := {
  has_current : bool;
  q_exists : Z -> bool;
  mpq_call : forall {A}, Z -> CM tstate A -> CM tstate (option A);
  mpq_call_spec : forall A qid (f : CM tstate A) s,
    mpq_call qid f s = (do a <- f; cret (Some a)) s \/
    exists e, 0 < e <= 4095 /\ mpq_call qid f s = Ret (None, set_errno e s)
}.
Context `{Queues}.

Definition create_timer_here (m : timer_mem) (m1 m2 m3 : bool) (ival f d : Z) (args : list Z) : CM tstate Z :=
  if f =? 0 then fail AOSL_EINVAL else
  if MPQ_ARGC_MAX <? Z.of_nat (length args) then fail AOSL_E2BIG else
  if negb has_current then fail AOSL_EINVAL else
  do timer <- __create_timer_on_q m m1 m2 m3 ival f d args;
  return_timer timer.

Definition aosl_mpq_create_timer (m : timer_mem) (m1 m2 m3 : bool) (ival f d : Z) (args : list Z) : CM tstate Z :=
  if neg_intptr ival then fail AOSL_EINVAL else create_timer_here m m1 m2 m3 ival f d args.

Definition aosl_mpq_create_oneshot_timer (m : timer_mem) (m1 m2 m3 : bool) (f d : Z) (args : list Z) : CM tstate Z :=
  create_timer_here m m1 m2 m3 AOSL_INVALID_TIMER_INTERVAL f d args.

(** The end of the functions that run [body] on another queue. *)
Definition timer_on_q (qid f : Z) (args : list Z) (body : CM tstate Z) : CM tstate Z :=
  if f =? 0 then fail AOSL_EINVAL else
  if MPQ_ARGC_MAX <? Z.of_nat (length args) then fail AOSL_E2BIG else
  if negb (q_exists qid) then fail AOSL_EINVAL else
  do r <- mpq_call qid body;
  do timer <- match r with
              | Some timer => cret timer
              | None => do s <- cget; cret (- ts_errno s)
              end;
  return_timer timer.

(** The functions run on the target queue. *)
Definition ____target_q_create_timer (m : timer_mem) (m1 m2 m3 : bool) (ival f d : Z) (args : list Z) : CM tstate Z :=
  __create_timer_on_q m m1 m2 m3 ival f d args.
Definition ____target_q_set_timer (m : timer_mem) (m1 m2 m3 : bool) (ival : Z) (expire_p : option Z) (f d : Z)
  (args : list Z) : CM tstate Z :=
  __set_timer_on_q m m1 m2 m3 ival (default 0 expire_p) f d args.
Definition ____target_q_resched_timer (timer ival : Z) (expire_p : option Z) : CM tstate unit :=
  __resched_timer timer ival (default 0 expire_p).
Definition ____target_q_cancel_timer (timer : Z) : CM tstate unit := __cancel_timer_on_q timer.
Definition ____target_q_kill_timer (timer : Z) : CM tstate Z := __kill_timer_on_q timer.

Definition mpq_create_timer_on_q_args (m : timer_mem) (m1 m2 m3 : bool) (qid ival f d : Z) (args : list Z) : CM tstate Z :=
  timer_on_q qid f args (____target_q_create_timer m m1 m2 m3 ival f d args).

Definition aosl_mpq_create_timer_on_q (m : timer_mem) (m1 m2 m3 : bool) (qid ival f d : Z) (args : list Z) : CM tstate Z :=
  if neg_intptr ival then fail AOSL_EINVAL else mpq_create_timer_on_q_args m m1 m2 m3 qid ival f d args.

Definition aosl_mpq_create_oneshot_timer_on_q (m : timer_mem) (m1 m2 m3 : bool) (qid f d : Z) (args : list Z) : CM tstate Z :=
  mpq_create_timer_on_q_args m m1 m2 m3 qid AOSL_INVALID_TIMER_INTERVAL f d args.

Definition aosl_mpq_set_timer (m : timer_mem) (m1 m2 m3 : bool) (ival f d : Z) (args : list Z) : CM tstate Z :=
  if neg_intptr ival then fail AOSL_EINVAL else
  if f =? 0 then fail AOSL_EINVAL else
  if MPQ_ARGC_MAX <? Z.of_nat (length args) then fail AOSL_E2BIG else
  if negb has_current then fail AOSL_EINVAL else
  do timer <- __set_timer_on_q m m1 m2 m3 ival 0 f d args;
  return_timer timer.

Definition aosl_mpq_set_oneshot_timer (m : timer_mem) (m1 m2 m3 : bool) (expire f d : Z) (args : list Z) : CM tstate Z :=
  if f =? 0 then fail AOSL_EINVAL else
  if MPQ_ARGC_MAX <? Z.of_nat (length args) then fail AOSL_E2BIG else
  if expire =? 0 then fail AOSL_EINVAL else
  if negb has_current then fail AOSL_EINVAL else
  do timer <- __set_timer_on_q m m1 m2 m3 AOSL_INVALID_TIMER_INTERVAL expire f d args;
  return_timer timer.

(** [expire_p] is the optional expiry time: [expire_time_p ? *expire_time_p : 0]. *)
Definition mpq_set_timer_on_q_args (m : timer_mem) (m1 m2 m3 : bool) (qid ival : Z) (expire_p : option Z) (f d : Z)
  (args : list Z) : CM tstate Z :=
  timer_on_q qid f args (____target_q_set_timer m m1 m2 m3 ival expire_p f d args).

Definition aosl_mpq_set_timer_on_q (m : timer_mem) (m1 m2 m3 : bool) (qid ival f d : Z) (args : list Z) : CM tstate Z :=
  if neg_intptr ival then fail AOSL_EINVAL else
  mpq_set_timer_on_q_args m m1 m2 m3 qid ival None f d args.

Definition aosl_mpq_set_oneshot_timer_on_q (m : timer_mem) (m1 m2 m3 : bool) (qid expire f d : Z) (args : list Z)
  : CM tstate Z :=
  mpq_set_timer_on_q_args m m1 m2 m3 qid AOSL_INVALID_TIMER_INTERVAL (Some expire) f d args.

(** Run [k] on the timer of a handle, holding a reference to it. *)
Definition with_timer {A} (h : Z) (none : CM tstate A) (k : Z -> timer_node -> CM tstate A) : CM tstate A :=
  do timer <- timer_get h;
  if timer =? 0 then none else
  do t <- tget timer;
  do r <- k timer t;
  timer_put timer ;;
  cret r.

Definition aosl_mpq_timer_interval (h : Z) : CM tstate (Z + Z) :=
  with_timer h (modify (set_errno AOSL_ENOENT) ;; cret (inl (-1))) (fun _ t => cret (inr (interval t))).

Definition aosl_mpq_timer_active (h : Z) : CM tstate (Z + bool) :=
  with_timer h (modify (set_errno AOSL_ENOENT) ;; cret (inl (-1)))
    (fun _ t => cret (inr (negb (timer_next t =? AOSL_LIST_POISON1)))).

(** The call on the queue of the timer of [mpq_resched_timer],
    [mpq_cancel_timer] and [mpq_kill_timer]; [fin] makes the result. *)
Definition timer_call {A} (t : timer_node) (body : CM tstate A) (fin : A -> CM tstate Z) : CM tstate Z :=
  if negb (q_exists (tm_q t)) then fail AOSL_EINVAL else
  do r <- mpq_call (tm_q t) body;
  match r with None => cret (-1) | Some a => fin a end.

Definition mpq_resched_timer (timer : Z) (t : timer_node) (ival : Z) (expire_p : option Z) : CM tstate Z :=
  timer_call t (____target_q_resched_timer timer ival expire_p) (fun _ => cret 0).
Definition mpq_cancel_timer (timer : Z) (t : timer_node) : CM tstate Z :=
  timer_call t (____target_q_cancel_timer timer) (fun _ => cret 0).
Definition mpq_kill_timer (timer : Z) (t : timer_node) : CM tstate Z :=
  timer_call t (____target_q_kill_timer timer) return_err.

Definition aosl_mpq_resched_timer (h ival : Z) : CM tstate Z :=
  with_timer h (fail AOSL_ENOENT) (fun timer t =>
    let ival' := if neg_intptr ival then interval t else ival in
    if neg_intptr ival' then fail AOSL_EINVAL else mpq_resched_timer timer t ival' None).

Definition aosl_mpq_resched_oneshot_timer (h expire : Z) : CM tstate Z :=
  if expire =? 0 then fail AOSL_EINVAL else
  with_timer h (fail AOSL_ENOENT) (fun timer t =>
    mpq_resched_timer timer t AOSL_INVALID_TIMER_INTERVAL (Some expire)).

Definition aosl_mpq_cancel_timer (h : Z) : CM tstate Z :=
  with_timer h (fail AOSL_ENOENT) mpq_cancel_timer.

Definition aosl_mpq_kill_timer (h : Z) : CM tstate Z :=
  with_timer h (fail AOSL_ENOENT) mpq_kill_timer.

(** The argument number [n] of a timer, or an error. *)
Definition aosl_mpq_timer_arg (h n : Z) : CM tstate (Z + Z) :=
  do timer <- timer_get h;
  if timer =? 0 then modify (set_errno AOSL_ENOENT) ;; cret (inl (-1)) else
  do t <- tget timer;
  let r := if n <? Z.of_nat (length (argv t)) then argv t !! Z.to_nat n else None in
  timer_put timer ;;
  match r with
  | Some a => cret (inr a)
  | None => modify (set_errno AOSL_EINVAL) ;; cret (inl (-1))
  end.
End Timers.
