(* ===== verification/TimerList.v ===== *)
(** * The ordered timer list

    The invariant that ties the tree, the doubly linked list and the timer
    objects together, and the lemmas that [__insert_timer] and
    [__unlink_timer] keep it. *)
From S2P Require Import Prelude Bitmap IdPool RbTree RbModel RbRefine RbInsert RbErase RbProps Timer.
#[local] Open Scope aosl_scope.

(** ** Segments of the doubly linked list *)

(** The timers [l] are linked in this order, [p] before the first and [q]
    after the last. *)
Fixpoint dseg (m : gmap Z timer_node) (p : Z) (l : list Z) (q : Z) : Prop :=
  match l with
  | [] => True
  | a :: l' => exists t, m !! a = Some t /\ timer_prev t = p /\ timer_next t = default q (head l') /\ dseg m a l' q
  end.

Lemma dseg_ext m m' p l q : (forall a, a ∈ l -> m' !! a = m !! a) -> dseg m p l q -> dseg m' p l q.
Proof.
  revert p. induction l as [|a l IH]; intros p Hm; cbn; [done|].
  intros (t & Ha & Hp & Hn & Hl). exists t. split_and!; try done.
  - rewrite Hm; [done|set_solver].
  - apply IH; [|done]. intros b Hb. apply Hm. set_solver.
Qed.

Lemma dseg_app m p L R q :
  dseg m p (L ++ R) q <-> dseg m p L (default q (head R)) /\ dseg m (default p (last L)) R q.
Proof.
  revert p. induction L as [|a L IH]; intros p; cbn; [tauto|].
  assert (Hh : default q (head (L ++ R)) = default (default q (head R)) (head L)) by by destruct L.
  rewrite last_cons. setoid_rewrite IH. rewrite Hh.
  destruct (last L) as [x|] eqn:Hx; cbn; [naive_solver|].
  apply last_None in Hx as ->. cbn. naive_solver.
Qed.

Lemma dseg_in m p l q a : dseg m p l q -> a ∈ l -> is_Some (m !! a).
Proof.
  revert p. induction l as [|b l IH]; intros p; cbn; [set_solver|].
  intros (t & Hb & _ & _ & Hl) [->|Ha]%elem_of_cons; eauto.
Qed.

(** Redirecting the links at the ends of a segment. *)
Lemma dseg_set_next m m' p L x q q' tx :
  dseg m p (L ++ [x]) q -> (forall b, b ∈ L -> m' !! b = m !! b) ->
  m !! x = Some tx -> m' !! x = Some (upd_next q' tx) -> dseg m' p (L ++ [x]) q'.
Proof.
  rewrite !dseg_app. cbn. intros [HL (t & Hx & Hp & _ & _)] Hm Htx Hx'. split.
  - by eapply dseg_ext.
  - eexists. split; [done|]. cbn. naive_solver.
Qed.

Lemma dseg_set_prev m m' p p' y R q ty :
  dseg m p (y :: R) q -> (forall b, b ∈ R -> m' !! b = m !! b) ->
  m !! y = Some ty -> m' !! y = Some (upd_prev p' ty) -> dseg m' p' (y :: R) q.
Proof.
  cbn. intros (t & Hy & _ & Hn & HR) Hm Hty Hy'. eexists. split; [done|]. split; [done|]. split.
  - cbn. naive_solver.
  - by eapply dseg_ext.
Qed.

(** ** Everything but the links *)

Definition strip (t : timer_node) : timer_node := upd_prev 0 (upd_next 0 t).

(** The two maps differ only in links. *)
Definition same_fields (m m' : gmap Z timer_node) : Prop := strip <$> m' = strip <$> m.

#[export] Instance same_fields_equiv : Equivalence same_fields.
Proof. unfold same_fields. split; [done|by intros m m' ->|intros m1 m2 m3 H1 H2; congruence]. Qed.

Lemma same_fields_insert m a t t' :
  m !! a = Some t -> strip t' = strip t -> same_fields m (<[a := t']> m).
Proof.
  intros Ha Ht. unfold same_fields. rewrite fmap_insert, Ht. apply insert_id.
  by rewrite lookup_fmap, Ha.
Qed.

Lemma same_fields_ins m0 m a t t' :
  same_fields m0 m -> m !! a = Some t -> strip t' = strip t -> same_fields m0 (<[a := t']> m).
Proof. intros H0 Ha Ht. etransitivity; [done|]. by eapply same_fields_insert. Qed.

Lemma same_fields_lookup m m' a t :
  same_fields m m' -> m !! a = Some t -> exists t', m' !! a = Some t' /\ strip t' = strip t.
Proof.
  unfold same_fields. intros Hs Ha. assert (Hl : (strip <$> m') !! a = (strip <$> m) !! a) by by rewrite Hs.
  rewrite !lookup_fmap, Ha in Hl. cbn in Hl. destruct (m' !! a) as [t'|]; [|done]. exists t'. split; [done|]. by apply (inj Some).
Qed.

Lemma same_fields_none m m' a : same_fields m m' -> m !! a = None -> m' !! a = None.
Proof.
  unfold same_fields. intros Hs Ha. assert (Hl : (strip <$> m') !! a = (strip <$> m) !! a) by by rewrite Hs.
  rewrite !lookup_fmap, Ha in Hl. cbn in Hl. by destruct (m' !! a).
Qed.

(** The expiry time of a timer. *)
Definition expire_of (m : gmap Z timer_node) (a : Z) : Z :=
  match m !! a with Some t => expire_time t | None => 0 end.

Lemma same_fields_expire m m' a : same_fields m m' -> expire_of m' a = expire_of m a.
Proof.
  intros Hs. unfold expire_of. destruct (m !! a) as [t|] eqn:Ha.
  - destruct (same_fields_lookup _ _ _ _ Hs Ha) as (t' & -> & Ht). by injection Ht.
  - by rewrite (same_fields_none _ _ _ Hs Ha).
Qed.

(** ** The invariant *)

(** The scheduled timers are [l]: the tree holds them, sorted by expiry time;
    the list links them in the same order, from [first]; every other timer
    carries the mark of an unscheduled one. *)
Record sched_inv (s : tstate) (l : list Z) : Prop := {
  si_tree : exists h0, holds h0 (ts_rb s) l;
  si_sorted : sorted_by (expire_of (ts_tmr s)) l;
  si_first : ts_first s = default 0 (head l);
  si_list : dseg (ts_tmr s) 0 l 0;
  si_idle : forall a t, ts_tmr s !! a = Some t -> a ∉ l ->
    timer_next t = AOSL_LIST_POISON1 /\ timer_prev t = AOSL_LIST_POISON2;
  si_addr : forall a t, ts_tmr s !! a = Some t -> 0 < a /\ a mod 4 = 0 /\ is_Some (mem (ts_rb s) !! a)
}.

Lemma sched_nodup s l : sched_inv s l -> NoDup l.
Proof.
  intros [(h0 & t & m & (_ & _ & [Hnd _] & _) & _ & <-) _ _ _ _ _]. cbn in Hnd. by rewrite app_nil_r in Hnd.
Qed.

Lemma sched_timer s l a : sched_inv s l -> a ∈ l -> is_Some (ts_tmr s !! a).
Proof. intros Hi Ha. eapply dseg_in; [apply Hi|done]. Qed.

(** A timer is scheduled exactly when it does not carry the mark. *)
Lemma sched_mark s l a t :
  sched_inv s l -> ts_tmr s !! a = Some t -> (timer_next t =? AOSL_LIST_POISON1) = negb (bool_decide (a ∈ l)).
Proof.
  intros Hi Ha. destruct (bool_decide_reflect (a ∈ l)) as [Hin|Hn]; cbn [negb].
  - apply Z.eqb_neq. apply list_elem_of_split in Hin as (L & R & ->).
    pose proof (si_list _ _ Hi) as Hd. rewrite dseg_app in Hd. destruct Hd as [_ (t' & Ha' & _ & Hn & _)].
    rewrite Ha in Ha'. injection Ha' as <-. rewrite Hn. destruct R as [|b R]; cbn; [done|].
    destruct (sched_timer s _ b Hi) as [tb Hb]; [set_solver|].
    destruct (si_addr _ _ Hi _ _ Hb) as (_ & Hb4 & _). intros ->. done.
  - apply Z.eqb_eq. by eapply si_idle.
Qed.

(** ** Rules for the operations on the state *)

Lemma set_rb_id s : set_rb (ts_rb s) s = s.
Proof. by destruct s. Qed.

Lemma on_rb_wp {A} (c : CM rbst A) s Q :
  wp c (ts_rb s) (fun a x => Q a (set_rb x s)) -> wp (on_rb c) s Q.
Proof. unfold wp, on_rb. by destruct (c (ts_rb s)) as [[a x]| | |]. Qed.

Lemma tget_wp s a t (Q : timer_node -> tstate -> Prop) : ts_tmr s !! a = Some t -> Q t s -> wp (tget a) s Q.
Proof. intros Ha HQ. unfold wp, tget. run. by rewrite Ha. Qed.

Lemma modify_wp {S} (f : S -> S) s (Q : unit -> S -> Prop) : Q tt (f s) -> wp (modify f) s Q.
Proof. done. Qed.

Lemma tmod_wp s a t f (Q : unit -> tstate -> Prop) :
  ts_tmr s !! a = Some t -> Q tt (set_tmr (<[a := f t]> (ts_tmr s)) s) -> wp (tmod a f) s Q.
Proof. intros Ha HQ. apply wp_bind. by eapply tget_wp. Qed.

(** ** Insertion *)

(** Comparison of a timer with an expiry time. *)
Definition later (m : gmap Z timer_node) (e b : Z) : Z := expire_of m b - e.

Lemma find_timer_wp h0 n t k iters e s (Q : rb_link * Z * Z -> tstate -> Prop) :
  zrep h0 n (ts_rb s) k t -> (forall a, a ∈ elements t -> is_Some (ts_tmr s !! a)) -> (height t < iters)%nat ->
  (let k' := descend (later (ts_tmr s) e) k t in Q (link_of k', top k', prev_of k') s) ->
  wp (find_timer_loop iters e (link_of k) (top k) (prev_of k)) s Q.
Proof.
  revert k iters. induction t as [|c l IHl a r IHr]; intros k iters Hz Ht Hfu HQ;
    (destruct iters as [|iters]; [lia|]); cbn [find_timer_loop];
    apply wp_bind, on_rb_wp; (eapply deref_link_wp; [done|]); rewrite set_rb_id.
  - by apply wp_ret.
  - cbn [ptr]. pose proof (zrep_ptr_eqb _ _ _ _ _ Hz) as He. cbn [ptr] in He. rewrite He.
    destruct (Ht a) as [ta Hta]; [cbn; set_solver|]. apply wp_bind. eapply tget_wp; [done|].
    assert (Hcmp : (e <? expire_time ta) = (0 <? later (ts_tmr s) e a)).
    { unfold later, expire_of. rewrite Hta. apply eq_iff_eq_true. rewrite !Z.ltb_lt. lia. }
    rewrite Hcmp. cbn in HQ, Hfu, Ht. destruct (0 <? later (ts_tmr s) e a).
    + specialize (IHl (FL c a r :: k) iters). rewrite zrep_up in IHl. apply IHl; [done|set_solver|lia|done].
    + specialize (IHr (FR c l a :: k) iters). rewrite zrep_up, prev_of_FR in IHr. apply IHr; [done|set_solver|lia|done].
Qed.

(** The parent of the leftmost place is the leftmost node. *)
Lemma top_leftmost k : ctx_left k = [] -> top k = default 0 (head (ctx_right k)).
Proof. destruct k as [|[c a r|c l a] k]; cbn; [done|done|]. by destruct (ctx_left k), (elements l). Qed.

(** What linking a timer into the list between [L] and [R] establishes. *)
Definition linked (s : tstate) (L R : list Z) (a : Z) (s' : tstate) : Prop := exists m',
  s' = set_tmr m' (set_first (default a (head L)) s) /\ dseg m' 0 (L ++ a :: R) 0 /\
  same_fields (ts_tmr s) m' /\ (forall b, b ∉ a :: L ++ R -> m' !! b = ts_tmr s !! b).

Lemma link_first_wp s R a t :
  dseg (ts_tmr s) 0 R 0 -> NoDup R -> a ∉ R -> ts_tmr s !! a = Some t -> 0 ∉ R ->
  wp (__timer_link_list a 0 (default 0 (head R))) s (fun _ s' => linked s [] R a s').
Proof.
  intros Hd Hnd Ha Hta H0. unfold __timer_link_list. change (0 =? 0) with true. cbv iota.
  apply wp_bind. eapply tmod_wp; [done|]. apply wp_bind. destruct R as [|y R]; cbn [head from_option id].
  - change (0 =? 0) with true. cbn [negb]. eapply tmod_wp; [apply lookup_insert_eq|].
    eexists. split; [done|]. cbn [ts_tmr set_tmr set_first app]. rewrite insert_insert_eq. split_and!.
    + cbn. eexists. split; [apply lookup_insert_eq|done].
    + by apply same_fields_insert with t.
    + intros b Hb. apply lookup_insert_ne. set_solver.
  - assert (Hay : a <> y /\ y <> 0 /\ y ∉ R) by (apply NoDup_cons in Hnd; set_solver). destruct Hay as (Hay & Hy0 & HyR).
    rewrite (proj2 (Z.eqb_neq y 0) Hy0). cbn [negb]. pose proof Hd as (ty & Hy & _).
    apply wp_bind. eapply tmod_wp; [apply lookup_insert_eq|].
    eapply tmod_wp; [cbn; rewrite insert_insert_eq, lookup_insert_ne by done; done|].
    eexists. split; [done|]. cbn [ts_tmr set_tmr set_first app]. rewrite insert_insert_eq. split_and!.
    + eexists. split; [rewrite lookup_insert_ne by done; apply lookup_insert_eq|].
      split; [done|]. split; [done|]. eapply (dseg_set_prev (ts_tmr s)); [done| |done|apply lookup_insert_eq].
      intros b Hb. rewrite !lookup_insert_ne; [done|set_solver..].
    + eapply same_fields_ins; [by eapply same_fields_insert|by rewrite lookup_insert_ne|done].
    + intros b Hb. rewrite !lookup_insert_ne; [done|set_solver..].
Qed.

Lemma link_after_wp s L x R a t parent :
  dseg (ts_tmr s) 0 ((L ++ [x]) ++ R) 0 -> ts_first s = default 0 (head (L ++ [x])) -> NoDup ((L ++ [x]) ++ R) ->
  a ∉ (L ++ [x]) ++ R -> ts_tmr s !! a = Some t -> 0 ∉ (L ++ [x]) ++ R ->
  wp (__timer_link_list a x parent) s (fun _ s' => linked s (L ++ [x]) R a s').
Proof.
  intros Hd Hf Hnd Ha Hta H0. unfold __timer_link_list.
  pose proof Hnd as Hnd'. break_nodup Hnd'.
  assert (Hx0 : x <> 0) by disj. assert (Hax : a <> x) by disj.
  assert (HxL : x ∉ L) by disj. assert (HxR : x ∉ R) by disj. rewrite (proj2 (Z.eqb_neq x 0) Hx0).
  assert (Hfirst : set_first (default a (head (L ++ [x]))) s = s).
  { destruct s; cbn in *. rewrite Hf. by destruct L. }
  rewrite dseg_app in Hd. destruct Hd as [HL HR]. rewrite last_snoc in HR. cbn [from_option id] in HR.
  pose proof HL as HL'. rewrite dseg_app in HL'. destruct HL' as [_ (tx & Htx & _ & Hnx & _)]. cbn in Hnx.
  apply wp_bind. eapply tmod_wp; [done|]. apply wp_bind. eapply tget_wp; [cbn; by rewrite lookup_insert_ne|].
  apply wp_bind. eapply tmod_wp; [apply lookup_insert_eq|]. cbn [ts_tmr set_tmr]. rewrite insert_insert_eq.
  apply wp_bind. eapply tget_wp; [apply lookup_insert_eq|]. cbn [timer_next upd_next upd_prev]. rewrite Hnx.
  unfold linked. rewrite Hfirst. destruct R as [|y R]; cbn [head from_option id].
  - change (0 =? 0) with true. cbn [negb]. apply wp_bind, wp_ret.
    eapply tmod_wp; [cbn; by rewrite lookup_insert_ne|].
    eexists. split; [done|]. cbn [ts_tmr set_tmr]. split_and!.
    + rewrite dseg_app. split.
      * eapply dseg_set_next; [done| |done|apply lookup_insert_eq].
        intros b Hb. rewrite !lookup_insert_ne; [done|disj..].
      * cbn. eexists. split; [rewrite lookup_insert_ne by done; apply lookup_insert_eq|].
        rewrite last_snoc. done.
    + eapply same_fields_ins; [by eapply same_fields_insert|by rewrite lookup_insert_ne|done].
    + intros b Hb. rewrite !lookup_insert_ne; [done|disj..].
  - pose proof Hnd as Hnd'. break_nodup Hnd'.
    assert (Hy0 : y <> 0) by disj. assert (Hay : a <> y) by disj. assert (Hyx : y <> x) by disj.
    assert (HyL : y ∉ L) by disj. assert (HyR : y ∉ R) by disj. pose proof HR as (ty & Hty & _).
    rewrite (proj2 (Z.eqb_neq y 0) Hy0). cbn [negb].
    apply wp_bind. eapply tmod_wp; [cbn; by rewrite lookup_insert_ne|].
    eapply tmod_wp; [cbn; by rewrite !lookup_insert_ne|].
    eexists. split; [done|]. cbn [ts_tmr set_tmr]. split_and!.
    + rewrite dseg_app. split.
      * eapply dseg_set_next; [done| |done|apply lookup_insert_eq].
        intros b Hb. rewrite !lookup_insert_ne; [done|disj..].
      * eexists. split; [rewrite !lookup_insert_ne by done; apply lookup_insert_eq|].
        rewrite last_snoc. split; [done|]. split; [done|].
        eapply (dseg_set_prev (ts_tmr s)); [done| |done|rewrite lookup_insert_ne by done; apply lookup_insert_eq].
        intros b Hb. rewrite !lookup_insert_ne; [done|disj..].
    + eapply same_fields_ins; [|by rewrite !lookup_insert_ne|done].
      eapply same_fields_ins; [by eapply same_fields_insert|by rewrite lookup_insert_ne|done].
    + intros b Hb. rewrite !lookup_insert_ne; [done|disj..].
Qed.

Lemma link_list_wp s L R a t parent :
  dseg (ts_tmr s) 0 (L ++ R) 0 -> ts_first s = default 0 (head (L ++ R)) -> NoDup (L ++ R) -> a ∉ L ++ R ->
  ts_tmr s !! a = Some t -> 0 ∉ L ++ R -> (L = [] -> parent = default 0 (head R)) ->
  wp (__timer_link_list a (default 0 (last L)) parent) s (fun _ s' => linked s L R a s').
Proof.
  intros Hd Hf Hnd Ha Hta H0 Hpar. destruct L as [|x L _] using rev_ind.
  - rewrite Hpar by done. by eapply link_first_wp.
  - rewrite last_snoc. eapply link_after_wp; try done. rewrite Hf. by destruct L.
Qed.

Lemma holds_in h0 s l a : holds h0 s l -> a ∈ l -> is_Some (mem s !! a).
Proof.
  intros Hh Ha. apply list_elem_of_split in Ha as (l1 & l2 & ->).
  destruct (holds_at _ _ _ _ _ Hh) as (k & c & t1 & t2 & m & Hz & _).
  apply zrep_node in Hz as (Hm & _). by rewrite Hm.
Qed.

Lemma holds_zero h0 s l : holds h0 s l -> 0 ∉ l.
Proof.
  intros (t & m & (_ & _ & [_ HF] & _) & _ & <-) H0. rewrite Forall_forall in HF.
  specialize (HF 0). cbn in HF. rewrite app_nil_r in HF. specialize (HF H0). lia.
Qed.

Lemma holds_mem h0 s l s' l' a : holds h0 s l -> holds h0 s' l' -> is_Some (mem s !! a) ->
  (a ∈ l -> a ∈ l') -> is_Some (mem s' !! a).
Proof.
  intros Hh Hh' Hm Hl. destruct (decide (a ∈ l')) as [Hin|Hn]; [by eapply holds_in|].
  rewrite (holds_outside _ _ _ _ Hh' Hn). rewrite (holds_outside _ _ _ _ Hh) in Hm; [done|]. auto.
Qed.

(** The state after an operation that only relinks timers. *)
Definition relinked (s s' : tstate) : Prop := exists rb' f m',
  s' = set_rb rb' (set_tmr m' (set_first f s)) /\ same_fields (ts_tmr s) m'.

Lemma sorted_same m m' l : same_fields m m' -> sorted_by (expire_of m) l -> sorted_by (expire_of m') l.
Proof.
  intros Hs. unfold sorted_by. induction 1 as [|a l Hl IH HF]; constructor; [done|].
  eapply Forall_impl; [done|]. intros b. cbn. by rewrite !(same_fields_expire _ _ _ Hs).
Qed.

Lemma insert_timer_wp s l a t fuel :
  sched_inv s l -> ts_tmr s !! a = Some t -> a ∉ l -> enough l fuel ->
  wp (__insert_timer fuel a) s (fun _ s' =>
    sched_inv s' (place (later (ts_tmr s) (expire_time t)) a l) /\ relinked s s').
Proof.
  intros Hi Ha Hn He. pose proof (si_tree _ _ Hi) as [h0 Hh]. pose proof (sched_nodup _ _ Hi) as Hnd.
  pose proof (holds_zero _ _ _ Hh) as H0. pose proof Hh as (tr & m & Hz & Hrb & Hel).
  set (cmp := later (ts_tmr s) (expire_time t)).
  assert (Hks : key_sorted cmp (elements tr)).
  { rewrite Hel. pose proof (si_sorted _ _ Hi) as Hs. clear - Hs. unfold key_sorted, sorted_by, cmp, later in *.
    induction Hs as [|b l Hl IH HF]; constructor; [done|]. eapply Forall_impl; [done|]. cbn. lia. }
  unfold __insert_timer, __find_timer_prepare. apply wp_bind, wp_bind. eapply tget_wp; [done|].
  pose proof (height_enough _ _ fuel Hrb ltac:(by rewrite Hel)) as Hfu.
  eapply (find_timer_wp h0 _ tr [] fuel); [done| |done|].
  { intros b Hb. eapply sched_timer; [done|]. by rewrite <-Hel. }
  cbv zeta. change (descend (later (ts_tmr s) (expire_time t)) [] tr) with (descend cmp [] tr).
  pose proof (descend_plug cmp [] tr) as Hpl. pose proof (descend_length cmp [] tr) as Hlen.
  pose proof (descend_side cmp [] tr (conj (Forall_nil_2 _) (Forall_nil_2 _)) Hks) as Hsp.
  set (k := descend cmp [] tr) in *. cbn in Hpl, Hlen.
  assert (Hl : l = ctx_left k ++ ctx_right k) by (by rewrite <-Hel, <-Hpl, elements_plug).
  assert (Hnk : a ∉ elementsk k).
  { rewrite <-Hel, <-Hpl, <-elements_perm in Hn. done. }
  clearbody k. rewrite Hl in Hi, Hnd, Hn, H0, Hh, He |- *. rewrite <-Hel, Hl in Hz || rewrite Hl in Hz. unfold rb_rep in Hz. rewrite <-Hpl in Hz, Hrb. rewrite <-zrep_root in Hz.
  wstep (link_list_wp s (ctx_left k) (ctx_right k) a t (top k)); [apply Hi|apply Hi|done|done|done|done|apply top_leftmost|].
  intros _ s1 (m' & -> & Hd' & Hs' & Ho'). unfold __timer_link_rb.
  destruct (si_addr _ _ Hi _ _ Ha) as (Ha0 & Ha4 & [nd Hnode]).
  rewrite (holds_outside _ _ _ _ Hh Hn) in Hnode.
  apply wp_bind, on_rb_wp. wlast (wp_unbind (rb_link_node a (top k) (link_of k)) (fun _ => aosl_rb_insert_color fuel a)).
  { eapply (rb_insert_wp h0); [done|done|lia|done..]. }
  intros _ r1 Hw. apply on_rb_wp. cbn [ts_rb set_rb]. wlast Hw. intros _ r2 (t' & mm & Hz' & Hrb' & He').
  assert (Hs2 : sorted_by (expire_of (ts_tmr s)) (place cmp a l)).
  { unfold cmp, later. replace (expire_time t) with (expire_of (ts_tmr s) a) by (unfold expire_of; by rewrite Ha).
    apply place_sorted. rewrite Hl. apply Hi. }
  rewrite Hl in Hs2. rewrite place_split in Hs2 |- * by done.
  assert (Hh2 : holds h0 r2 (ctx_left k ++ a :: ctx_right k)).
  { exists t', mm. rewrite (count_insert _ _ a) in Hz'. done. }
  split; [|by exists r2, (default a (head (ctx_left k))), m'].
  split; cbn [ts_rb ts_tmr ts_first set_rb set_tmr set_first].
  - by exists h0.
  - by eapply sorted_same.
  - by destruct (ctx_left k).
  - done.
  - intros b tb Hb Hbn. rewrite Ho' in Hb by (clear - Hbn; set_solver). eapply (si_idle _ _ Hi); [done|]. clear - Hbn. set_solver.
  - intros b tb Hb. destruct (ts_tmr s !! b) as [tb0|] eqn:Hb0.
    2: { rewrite (same_fields_none _ _ _ Hs' Hb0) in Hb. done. }
    destruct (si_addr _ _ Hi _ _ Hb0) as (? & ? & ?). split_and!; [done..|].
    eapply holds_mem; [exact Hh|exact Hh2|done|]. clear. set_solver.
Qed.

(** ** Removal *)

(** The neighbours of [a] are linked to each other. *)
Definition bypassed (s : tstate) (L R : list Z) (s' : tstate) : Prop := exists m',
  s' = set_tmr m' (set_first (default 0 (head (L ++ R))) s) /\ dseg m' 0 (L ++ R) 0 /\
  same_fields (ts_tmr s) m' /\ (forall b, b ∉ L ++ R -> m' !! b = ts_tmr s !! b).

Definition unlink_mid (timer prev next : Z) : CM tstate unit :=
  do s <- cget;
  if ts_first s =? timer then
    if negb (next =? 0) then
      tmod next (upd_prev 0) ;;
      modify (set_first next)
    else modify (set_first 0)
  else
    tmod prev (upd_next next) ;;
    when negb (next =? 0) then tmod next (upd_prev prev).

Lemma bypass_first_wp s a R :
  dseg (ts_tmr s) a R 0 -> ts_first s = a -> NoDup R -> 0 ∉ R ->
  wp (unlink_mid a 0 (default 0 (head R))) s (fun _ s' => bypassed s [] R s').
Proof.
  intros HR Hf Hnd H0. unfold unlink_mid. apply wp_bind, wp_get. rewrite Hf, Z.eqb_refl.
  destruct R as [|y R]; cbn [head from_option id].
  - change (0 =? 0) with true. cbn [negb]. apply modify_wp. exists (ts_tmr s). split_and!; [by destruct s|done..].
  - pose proof HR as (ty & Hty & _). apply NoDup_cons in Hnd as [HyR _].
    assert (Hy0 : y <> 0) by set_solver. rewrite (proj2 (Z.eqb_neq y 0) Hy0). cbn [negb].
    apply wp_bind. eapply tmod_wp; [done|]. apply modify_wp.
    eexists. split; [done|]. cbn [ts_tmr set_tmr set_first app]. split_and!.
    + eapply (dseg_set_prev (ts_tmr s)); [done| |done|apply lookup_insert_eq].
      intros b Hb. rewrite lookup_insert_ne; [done|set_solver].
    + by eapply same_fields_insert.
    + intros b Hb. apply lookup_insert_ne. set_solver.
Qed.

Lemma bypass_after_wp s L x a R :
  dseg (ts_tmr s) 0 (L ++ [x]) a -> dseg (ts_tmr s) a R 0 -> ts_first s = default 0 (head (L ++ [x])) ->
  NoDup ((L ++ [x]) ++ R) -> a ∉ (L ++ [x]) ++ R -> 0 ∉ (L ++ [x]) ++ R ->
  wp (unlink_mid a x (default 0 (head R))) s (fun _ s' => bypassed s (L ++ [x]) R s').
Proof.
  intros HL HR Hf Hnd Ha H0. unfold unlink_mid. apply wp_bind, wp_get. pose proof Hnd as Hnd'. break_nodup Hnd'.
  assert (Hfa : ts_first s <> a).
  { rewrite Hf. destruct L; cbn; disj. }
  rewrite (proj2 (Z.eqb_neq _ a) Hfa).
  assert (Hx0 : x <> 0) by disj. assert (HxL : x ∉ L) by disj. assert (HxR : x ∉ R) by disj.
  pose proof HL as HL'. rewrite dseg_app in HL'. destruct HL' as [_ (tx & Htx & _)].
  assert (Hfirst : set_first (default 0 (head ((L ++ [x]) ++ R))) s = s).
  { destruct s; cbn in *. rewrite Hf. by destruct L. }
  unfold bypassed. rewrite Hfirst. apply wp_bind. eapply tmod_wp; [done|].
  destruct R as [|y R]; cbn [head from_option id].
  - change (0 =? 0) with true. cbn [negb]. apply wp_ret. eexists. split; [done|]. cbn [ts_tmr set_tmr]. rewrite app_nil_r. split_and!.
    + eapply dseg_set_next; [done| |done|apply lookup_insert_eq].
      intros b Hb. rewrite lookup_insert_ne; [done|disj].
    + by eapply same_fields_insert.
    + intros b Hb. apply lookup_insert_ne. disj.
  - assert (Hy0 : y <> 0) by disj. assert (Hyx : y <> x) by disj. break_nodup Hnd.
    assert (HyL : y ∉ L) by disj. assert (HyR : y ∉ R) by disj. pose proof HR as (ty & Hty & _).
    rewrite (proj2 (Z.eqb_neq y 0) Hy0). cbn [negb].
    eapply tmod_wp; [cbn; by rewrite lookup_insert_ne|]. eexists. split; [done|]. cbn [ts_tmr set_tmr]. split_and!.
    + rewrite dseg_app, last_snoc. split.
      * eapply dseg_set_next; [done| |done|rewrite lookup_insert_ne by done; apply lookup_insert_eq].
        intros b Hb. rewrite !lookup_insert_ne; [done|disj..].
      * eapply (dseg_set_prev (ts_tmr s)); [done| |done|apply lookup_insert_eq].
        intros b Hb. rewrite !lookup_insert_ne; [done|disj..].
    + eapply same_fields_ins; [by eapply same_fields_insert|by rewrite lookup_insert_ne|done].
    + intros b Hb. rewrite !lookup_insert_ne; [done|disj..].
Qed.

(** The link from [L] over [a] to [R] is closed; [a] gets the marks. *)
Lemma unlink_list_wp s L a R t :
  dseg (ts_tmr s) 0 (L ++ a :: R) 0 -> ts_first s = default 0 (head (L ++ a :: R)) -> NoDup (L ++ a :: R) ->
  ts_tmr s !! a = Some t -> 0 ∉ L ++ a :: R ->
  wp (__timer_unlink_list a) s (fun _ s' => exists m',
    s' = set_tmr m' (set_first (default 0 (head (L ++ R))) s) /\ dseg m' 0 (L ++ R) 0 /\
    same_fields (ts_tmr s) m' /\ (forall b, b ∉ L ++ a :: R -> m' !! b = ts_tmr s !! b) /\
    (exists t', m' !! a = Some t' /\ timer_next t' = AOSL_LIST_POISON1 /\ timer_prev t' = AOSL_LIST_POISON2)).
Proof.
  intros Hd Hf Hnd Ha H0. unfold __timer_unlink_list.
  rewrite dseg_app in Hd. destruct Hd as [HL (ta & Ha' & Hpa & Hna & HR)]. rewrite Ha in Ha'. injection Ha' as <-.
  assert (HaLR : (a ∉ L ++ R) /\ NoDup (L ++ R) /\ (0 ∉ L ++ R)).
  { rewrite <-Permutation_middle in Hnd, H0. apply NoDup_cons in Hnd as [? ?]. split_and!; [done..|set_solver]. }
  destruct HaLR as (HaLR & HndLR & H0LR).
  assert (Hmid : wp (unlink_mid a (timer_prev t) (timer_next t)) s (fun _ s' => bypassed s L R s')).
  { rewrite Hpa, Hna. destruct L as [|x L _] using rev_ind.
    - apply bypass_first_wp; [done..|]. set_solver.
    - rewrite last_snoc. apply bypass_after_wp; try done. rewrite Hf. by destruct L. }
  apply wp_bind. eapply tget_wp; [done|]. cbv zeta. apply wp_unbind in Hmid.
  apply wp_bind. wlast Hmid. intros s0 s1 Hw. wstep Hw. intros _ s2 (m' & -> & Hd' & Hs' & Ho').
  apply wp_bind. eapply tmod_wp; [cbn; by rewrite Ho'|]. eapply tmod_wp; [apply lookup_insert_eq|].
  cbn [ts_tmr set_tmr]. rewrite insert_insert_eq. eexists. split; [done|]. split_and!.
  - eapply dseg_ext; [|done]. intros b Hb. apply lookup_insert_ne. by intros ->.
  - eapply same_fields_ins; [done|by rewrite Ho'|done].
  - intros b Hb. rewrite lookup_insert_ne; [apply Ho'|]; set_solver.
  - eexists. split; [apply lookup_insert_eq|done].
Qed.

Lemma unlink_timer_wp s L a R fuel :
  sched_inv s (L ++ a :: R) -> enough (L ++ a :: R) fuel ->
  wp (__unlink_timer fuel a) s (fun _ s' => sched_inv s' (L ++ R) /\ relinked s s').
Proof.
  intros Hi He. pose proof (si_tree _ _ Hi) as [h0 Hh]. pose proof (sched_nodup _ _ Hi) as Hnd.
  destruct (sched_timer s _ a Hi) as [t Ha]; [set_solver|].
  unfold __unlink_timer. wstep unlink_list_wp; [apply Hi|apply Hi|done|done|by eapply holds_zero|].
  intros _ s1 (m' & -> & Hd' & Hs' & Ho' & (t' & Ha' & Hmn & Hmp)).
  apply on_rb_wp. wlast erase_ok; [done..|]. intros _ r2 [nd Hh2].
  split; [|by exists r2, (default 0 (head (L ++ R))), m'].
  split; cbn [ts_rb ts_tmr ts_first set_rb set_tmr set_first].
  - by eexists.
  - eapply sorted_same; [done|]. eapply sorted_by_app, Hi.
  - done.
  - done.
  - intros b tb Hb Hbn. destruct (decide (b = a)) as [->|Hne]; [naive_solver|].
    rewrite Ho' in Hb by (clear - Hbn Hne; set_solver). eapply (si_idle _ _ Hi); [done|]. clear - Hbn Hne. set_solver.
  - intros b tb Hb. destruct (ts_tmr s !! b) as [tb0|] eqn:Hb0.
    2: { rewrite (same_fields_none _ _ _ Hs' Hb0) in Hb. done. }
    destruct (si_addr _ _ Hi _ _ Hb0) as (? & ? & Hm). split_and!; [done..|].
    destruct (decide (b ∈ L ++ R)) as [Hin|Hnin]; [by eapply holds_in|].
    rewrite (holds_outside _ _ _ _ Hh2 Hnin). destruct (decide (b = a)) as [->|Hne]; [by rewrite lookup_insert_eq|].
    rewrite lookup_insert_ne by done. rewrite (holds_outside _ _ _ _ Hh) in Hm; [done|]. clear - Hnin Hne. set_solver.
Qed.

(** ** Other changes *)

Lemma sched_inv_same s s' l :
  ts_rb s' = ts_rb s -> ts_first s' = ts_first s -> ts_tmr s' = ts_tmr s -> sched_inv s l -> sched_inv s' l.
Proof. intros Hr Hf Ht [H1 H2 H3 H4 H5 H6]. split; rewrite ?Hr, ?Hf, ?Ht; done. Qed.

(** A change of a timer that keeps its links and, while it is scheduled, its
    expiry time. *)
Lemma sched_inv_field s l a t t' :
  sched_inv s l -> ts_tmr s !! a = Some t -> timer_prev t' = timer_prev t -> timer_next t' = timer_next t ->
  (a ∈ l -> expire_time t' = expire_time t) -> sched_inv (set_tmr (<[a := t']> (ts_tmr s)) s) l.
Proof.
  intros Hi Ha Hp Hn He. destruct Hi as [H1 H2 H3 H4 H5 H6]. split; cbn [ts_rb ts_first ts_tmr set_tmr]; [done| |done|..].
  - assert (Hex : forall b, b ∈ l -> expire_of (<[a := t']> (ts_tmr s)) b = expire_of (ts_tmr s) b).
    { intros b Hb. unfold expire_of. destruct (decide (b = a)) as [->|Hne].
      - rewrite lookup_insert_eq, Ha. auto.
      - by rewrite lookup_insert_ne. }
    clear - H2 Hex. unfold sorted_by in *. induction H2 as [|x l Hl IH HF]; constructor; [apply IH; set_solver|].
    rewrite Forall_forall in *. intros b Hb. rewrite !Hex by set_solver. auto.
  - clear - H4 Ha Hp Hn. revert H4. generalize 0 at 1 3 as p. induction l as [|x l IH]; intros p; cbn; [done|].
    intros (tx & Hx & Hpx & Hnx & Hl). specialize (IH x Hl). destruct (decide (x = a)) as [->|Hne].
    + exists t'. rewrite lookup_insert_eq. rewrite Ha in Hx. injection Hx as <-.
      split; [done|]. split; [congruence|]. split; [congruence|done].
    + exists tx. by rewrite lookup_insert_ne.
  - intros b tb. destruct (decide (b = a)) as [->|Hne].
    + rewrite lookup_insert_eq. intros [= <-] Hnl. rewrite Hp, Hn. by eapply H5.
    + rewrite lookup_insert_ne by done. apply H5.
  - intros b tb. destruct (decide (b = a)) as [->|Hne]; [intros _; by eapply H6|].
    rewrite lookup_insert_ne by done. apply H6.
Qed.

Lemma place_notin cmp a l b : b ∈ place cmp a l <-> b = a \/ b ∈ l.
Proof. by rewrite place_perm, elem_of_cons. Qed.

(** ** Scheduling, rescheduling and cancelling *)

(** The timer [a] of [s'] is that of [s] up to links, interval and expiry,
    no other timer changed but in its links, and the rest of the state is
    the same but for the clock. *)
Definition sched_frame (s s' : tstate) (a : Z) (ival e : Z) : Prop :=
  (exists t t', ts_tmr s !! a = Some t /\ ts_tmr s' !! a = Some t' /\
    strip t' = strip (upd_expire e (upd_interval ival t))) /\
  (forall b, b <> a -> strip <$> (ts_tmr s' !! b) = strip <$> (ts_tmr s !! b)) /\
  ts_timers s' = ts_timers s /\ ts_count s' = ts_count s /\ ts_pool s' = ts_pool s /\
  ts_qid s' = ts_qid s /\ ts_stack s' = ts_stack s /\ ts_errno s' = ts_errno s.

(** The interval and the expiry time [__sched_timer] gives a timer. *)
Definition sched_target (clock : nat -> Z) (s : tstate) (t : timer_node) (expire : Z) : Z * Z :=
  if expire =? 0 then
    (interval t, if interval t =? AOSL_INVALID_TIMER_INTERVAL then u64 (-1)
                 else u64 (u64 (clock (ts_reads s)) + interval t))
  else (AOSL_INVALID_TIMER_INTERVAL, expire).

Lemma place_ext cmp cmp' a l : (forall b, b ∈ l -> cmp b = cmp' b) -> place cmp a l = place cmp' a l.
Proof.
  induction l as [|b l IH]; intros H; cbn; [done|]. rewrite H by set_solver.
  destruct (0 <? cmp' b); [done|]. rewrite IH; [done|]. intros; apply H; set_solver.
Qed.

Lemma later_insert m a t e (l : list Z) : a ∉ l -> forall b, b ∈ l -> later (<[a := t]> m) e b = later m e b.
Proof. intros Ha b Hb. unfold later, expire_of. rewrite lookup_insert_ne; [done|]. by intros ->. Qed.

Lemma upd_interval_id t : upd_interval (interval t) t = t.
Proof. by destruct t. Qed.

Lemma relinked_strip s s' b : relinked s s' -> strip <$> (ts_tmr s' !! b) = strip <$> (ts_tmr s !! b).
Proof. intros (r & f & m' & -> & Hs). cbn. rewrite <-!lookup_fmap. by rewrite Hs. Qed.

Section Sched.
Context (clock : nat -> Z) (fuel : nat).

(** The first half of [__sched_timer] sets the two fields. *)
Definition sched_set (timer expire : Z) : CM tstate unit :=
  if negb (expire =? 0) then
    do t <- tget timer;
    (when negb (interval t =? AOSL_INVALID_TIMER_INTERVAL)
     then tmod timer (upd_interval AOSL_INVALID_TIMER_INTERVAL)) ;;
    tmod timer (upd_expire expire)
  else
    do t <- tget timer;
    if negb (interval t =? AOSL_INVALID_TIMER_INTERVAL) then
      do now <- aosl_tick_now clock;
      tmod timer (upd_expire (u64 (now + interval t)))
    else tmod timer (upd_expire (u64 (-1))).

Lemma sched_set_wp s a t expire :
  ts_tmr s !! a = Some t ->
  wp (sched_set a expire) s (fun _ s1 => exists rd, let '(iv, e) := sched_target clock s t expire in
    s1 = set_reads rd (set_tmr (<[a := upd_expire e (upd_interval iv t)]> (ts_tmr s)) s)).
Proof.
  intros Ha. unfold sched_set, sched_target.
  destruct (Z.eqb_spec expire 0) as [->|He]; cbn [negb].
  - apply wp_bind. eapply tget_wp; [done|]. destruct (Z.eqb_spec (interval t) AOSL_INVALID_TIMER_INTERVAL); cbn [negb].
    + eapply tmod_wp; [done|]. exists (ts_reads s). rewrite upd_interval_id. by destruct s.
    + apply wp_bind. unfold aosl_tick_now. apply wp_bind, wp_get. apply wp_bind. unfold cput, wp at 1.
      apply wp_ret. eapply tmod_wp; [done|]. exists (S (ts_reads s)). by rewrite upd_interval_id.
  - apply wp_bind. eapply tget_wp; [done|]. destruct (Z.eqb_spec (interval t) AOSL_INVALID_TIMER_INTERVAL); cbn [negb].
    + apply wp_bind, wp_ret. eapply tmod_wp; [done|]. exists (ts_reads s).
      rewrite <-e, upd_interval_id. by destruct s.
    + apply wp_bind. eapply tmod_wp; [done|]. eapply tmod_wp; [apply lookup_insert_eq|].
      exists (ts_reads s). cbn [ts_tmr set_tmr]. rewrite insert_insert_eq. by destruct s.
Qed.

Lemma sched_timer_wp s l a t expire :
  sched_inv s l -> ts_tmr s !! a = Some t -> a ∉ l -> enough l fuel ->
  wp (__sched_timer clock fuel a expire) s (fun _ s' => let '(iv, e) := sched_target clock s t expire in
    sched_inv s' (place (later (ts_tmr s) e) a l) /\ sched_frame s s' a iv e).
Proof.
  intros Hi Ha Hn He. wstep sched_set_wp; [done|]. intros _ s1 [rd Hs1].
  destruct (sched_target clock s t expire) as [iv e]. subst s1.
  assert (Hi1 : sched_inv (set_reads rd (set_tmr (<[a := upd_expire e (upd_interval iv t)]> (ts_tmr s)) s)) l).
  { eapply (sched_inv_same (set_tmr (<[a := upd_expire e (upd_interval iv t)]> (ts_tmr s)) s)); try done.
    by eapply sched_inv_field. }
  wlast insert_timer_wp; [done|apply lookup_insert_eq|done|done|]. intros _ s2 [Hi2 Hr].
  rewrite (place_ext _ (later (ts_tmr s) e)) in Hi2 by (apply later_insert; done). split; [done|].
  pose proof (relinked_strip _ _ a Hr) as Ha2. cbn in Ha2. rewrite lookup_insert_eq in Ha2.
  destruct (ts_tmr s2 !! a) as [t2|] eqn:Ht2; [|done]. cbn in Ha2. apply (inj Some) in Ha2.
  split_and!; try (by destruct Hr as (r & f & m' & -> & _)).
  - exists t, t2. done.
  - intros b Hb. rewrite (relinked_strip _ _ b Hr). cbn. by rewrite lookup_insert_ne.
Qed.

(** Take a timer out of the schedule if it is in it. *)
Lemma cancel_wp s l a t :
  sched_inv s l -> ts_tmr s !! a = Some t -> enough l fuel ->
  wp (__cancel_timer_on_q fuel a) s (fun _ s' =>
    sched_inv s' (filter (fun x => x <> a) l) /\ relinked s s').
Proof.
  intros Hi Ha He. unfold __cancel_timer_on_q. apply wp_bind. eapply tget_wp; [done|].
  rewrite (sched_mark _ _ _ _ Hi Ha). destruct (bool_decide_reflect (a ∈ l)) as [Hin|Hn]; cbn [negb].
  - pose proof (sched_nodup _ _ Hi) as Hnd. apply list_elem_of_split in Hin as (L & R & ->).
    wlast unlink_timer_wp; [done..|]. intros _ s' [Hi' Hr]. split; [|done]. by rewrite filter_ne_split.
  - apply wp_ret. rewrite filter_ne_notin by done. split; [done|].
    exists (ts_rb s), (ts_first s), (ts_tmr s). split; [by destruct s|done].
Qed.
End Sched.
