(* ===== verification/TimerProps.v ===== *)
(** * What the timers promise

    Scheduling, rescheduling and cancelling act on the sequence of scheduled
    timers; running the due timers terminates and leaves none due; handles
    and reference counts follow the life of a timer; the interface functions
    check their arguments. *)
From S2P Require Import Prelude Bitmap IdPool RbTree RbModel RbRefine RbInsert RbErase RbProps Timer TimerList.
#[local] Open Scope aosl_scope.

(** ** Rescheduling *)

Section Resched.
Context (clock : nat -> Z) (fuel : nat).

(** The timer as [__resched_timer] hands it to [__sched_timer]. *)
Definition resched_fields (t : timer_node) (ival expire : Z) : timer_node :=
  if (expire =? 0) && negb (ival =? AOSL_INVALID_TIMER_INTERVAL) then upd_interval ival t else t.

Lemma cancel_lookup s s' a t :
  relinked s s' -> ts_tmr s !! a = Some t -> exists t', ts_tmr s' !! a = Some t' /\ strip t' = strip t.
Proof. intros (r & f & m' & -> & Hs). cbn. by apply same_fields_lookup. Qed.

Lemma enough_filter P `{!forall x, Decision (P x)} (l : list Z) f : enough l f -> enough (filter P l) f.
Proof. apply enough_le. apply length_filter. Qed.

(** The parts of the state that scheduling leaves alone. *)
Definition same_rest (s s' : tstate) : Prop :=
  ts_timers s' = ts_timers s /\ ts_count s' = ts_count s /\ ts_pool s' = ts_pool s /\
  ts_qid s' = ts_qid s /\ ts_stack s' = ts_stack s /\ ts_errno s' = ts_errno s.

Lemma relinked_rest s s' : relinked s s' -> same_rest s s' /\ ts_reads s' = ts_reads s.
Proof. intros (r & f & m' & -> & _). by repeat split. Qed.

Lemma relinked_calls s s' : relinked s s' -> ts_calls s' = ts_calls s.
Proof. by intros (r & f & m' & -> & _). Qed.

Lemma strip_interval t t' : strip t' = strip t -> interval t' = interval t /\ expire_time t' = expire_time t.
Proof. destruct t, t'. by intros [= -> -> -> -> -> -> ->]. Qed.

Lemma resched_wp s l a t ival expire :
  sched_inv s l -> ts_tmr s !! a = Some t -> enough l fuel ->
  wp (__resched_timer clock fuel a ival expire) s (fun _ s' =>
    let '(iv, e) := sched_target clock s (resched_fields t ival expire) expire in
    sched_inv s' (place (later (ts_tmr s) e) a (filter (fun x => x <> a) l)) /\ sched_frame s s' a iv e).
Proof.
  intros Hi Ha He. unfold __resched_timer. pose proof (cancel_wp fuel s l a t Hi Ha He) as Hc.
  apply wp_unbind in Hc. apply wp_bind. wlast Hc. intros t0 s0 Hw. wstep Hw. clear Hc Hw t0 s0.
  intros _ s1 [Hi1 Hr1]. destruct (cancel_lookup _ _ _ _ Hr1 Ha) as (t1 & Ha1 & Hst1).
  pose proof (filter_ne_not_elem a l) as Hn. set (l1 := filter _ l) in *.
  assert (He1 : enough l1 fuel) by (by apply enough_filter).
  (* the optional change of the interval *)
  set (t2 := resched_fields t1 ival expire).
  assert (Hset : wp (when (expire =? 0) && negb (ival =? AOSL_INVALID_TIMER_INTERVAL)
      then tmod a (upd_interval ival)) s1 (fun _ s2 => s2 = set_tmr (<[a := t2]> (ts_tmr s1)) s1)).
  { unfold t2, resched_fields. destruct (_ && _); [by eapply tmod_wp|]. apply wp_ret.
    rewrite insert_id by done. by destruct s1. }
  wstep Hset. intros _ s2 ->.
  assert (Hlinks : timer_prev t2 = timer_prev t1 /\ timer_next t2 = timer_next t1).
  { unfold t2, resched_fields. by destruct (_ && _). }
  assert (Hi2 : sched_inv (set_tmr (<[a := t2]> (ts_tmr s1)) s1) l1).
  { eapply sched_inv_field; [done|done|apply Hlinks|apply Hlinks|]. by intros ?%Hn. }
  wlast sched_timer_wp; [done|apply lookup_insert_eq|done|done|].
  intros _ s3. cbv beta.
  assert (Hst2 : strip t2 = strip (resched_fields t ival expire)).
  { unfold t2, resched_fields. destruct (_ && _); [|done]. destruct t, t1. by injection Hst1 as -> -> -> -> -> -> ->. }
  assert (Htgt : sched_target clock (set_tmr (<[a := t2]> (ts_tmr s1)) s1) t2 expire =
    sched_target clock s (resched_fields t ival expire) expire).
  { unfold sched_target. cbn. apply strip_interval in Hst2 as [-> _]. by rewrite (proj2 (relinked_rest _ _ Hr1)). }
  rewrite Htgt. destruct (sched_target clock s (resched_fields t ival expire) expire) as [iv e] eqn:Et.
  intros [Hi3 ((ta & ta' & Hta & Hta' & Hst3) & Hb & Hrest)].
  cbn [ts_tmr set_tmr] in Hta, Hb, Hi3. rewrite lookup_insert_eq in Hta. injection Hta as <-.
  split; [|split; [|split]].
  - rewrite (place_ext _ (later (ts_tmr s) e)) in Hi3; [done|]. intros b Hbl. rewrite (later_insert _ _ _ _ l1) by done.
    unfold later. f_equal. destruct Hr1 as (r & f & m' & -> & Hs). cbn. by apply same_fields_expire.
  - exists t, ta'. split_and!; [done..|]. rewrite Hst3. unfold resched_fields in Hst2. clear - Hst2.
    destruct t2, t. destruct (_ && _); by injection Hst2 as -> -> -> -> -> -> ->.
  - intros b Hne. rewrite Hb by done. rewrite lookup_insert_ne by done. by apply relinked_strip.
  - destruct (relinked_rest _ _ Hr1) as [(E1 & E2 & E3 & E4 & E5 & E6) _].
    cbn in Hrest. rewrite E1, E2, E3, E4, E5, E6 in Hrest. done.
Qed.
End Resched.

(** ** Running the due timers *)

Section Run.
Context (clock : nat -> Z) (fuel : nat).
Context (call_func : Z -> Z -> Z -> list Z -> CM tstate unit).

(** One firing, up to the call of the timer function: the timer leaves the
    schedule, and comes back at its next expiry time if it is periodic. *)
Definition fired (s : tstate) (now : Z) (a : Z) (t : timer_node) (l : list Z) (s1 : tstate) (l1 : list Z) : Prop :=
  if interval t =? AOSL_INVALID_TIMER_INTERVAL
  then l1 = l /\ relinked s s1
  else let e := u64 (u64 (clock (ts_reads s)) + interval t - (now - expire_time t)) in
       l1 = place (later (ts_tmr s) e) a l /\ sched_frame s s1 a (interval t) e /\ ts_reads s1 = S (ts_reads s).

Lemma strip_func t t' : strip t' = strip t -> func t' = func t /\ argv t' = argv t.
Proof. destruct t, t'. by intros [= -> -> -> -> -> -> ->]. Qed.

Lemma fire_wp s a l t now :
  sched_inv s (a :: l) -> ts_tmr s !! a = Some t -> enough (a :: l) fuel ->
  wp (__unlink_timer fuel a ;;
      when negb (interval t =? AOSL_INVALID_TIMER_INTERVAL) then
        do tick <- aosl_tick_now clock;
        tmod a (upd_expire (u64 (tick + interval t - (now - expire_time t)))) ;;
        __insert_timer fuel a) s
     (fun _ s1 => exists l1, sched_inv s1 l1 /\ fired s now a t l s1 l1 /\
        ts_pool s1 = ts_pool s /\ ts_calls s1 = ts_calls s /\ exists t1, ts_tmr s1 !! a = Some t1 /\ func t1 = func t /\ argv t1 = argv t).
Proof.
  intros Hi Ha He. pose proof (sched_nodup _ _ Hi) as Hnd. apply NoDup_cons in Hnd as [Hn Hnd].
  wstep (unlink_timer_wp s [] a l); [done..|]. cbn [app]. intros _ s1 [Hi1 Hr1].
  destruct (cancel_lookup _ _ _ _ Hr1 Ha) as (t1 & Ha1 & Hst1). pose proof (strip_func _ _ Hst1) as Hf1.
  destruct (relinked_rest _ _ Hr1) as [(E1 & E2 & E3 & E4 & E5 & E6) Erd]. unfold fired.
  destruct (Z.eqb_spec (interval t) AOSL_INVALID_TIMER_INTERVAL) as [Hiv|Hiv]; cbn [negb].
  { apply wp_ret. exists l. split_and!; try done; [by apply relinked_calls|]. by exists t1. }
  apply wp_bind. unfold aosl_tick_now. apply wp_bind, wp_get. apply wp_bind. unfold cput, wp at 1. apply wp_ret.
  set (s2 := set_reads _ s1). set (e := u64 _). apply wp_bind. eapply tmod_wp; [done|].
  assert (Hi2 : sched_inv (set_tmr (<[a := upd_expire e t1]> (ts_tmr s2)) s2) l).
  { eapply sched_inv_field; [by eapply (sched_inv_same s1)|done|done|done|]. by intros ?%Hn. }
  wlast insert_timer_wp; [done|apply lookup_insert_eq|done|eapply enough_le; [|done]; cbn; lia|].
  intros _ s3 [Hi3 Hr3]. cbn [ts_tmr set_tmr expire_time upd_expire] in Hi3.
  rewrite (place_ext _ (later (ts_tmr s) e)) in Hi3.
  2: { intros b Hb. rewrite (later_insert _ _ _ _ l) by done. unfold later. f_equal.
       destruct Hr1 as (r & f & m' & -> & Hs). cbn. by apply same_fields_expire. }
  destruct (relinked_rest _ _ Hr3) as [(F1 & F2 & F3 & F4 & F5 & F6) Frd].
  unfold s2 in F1, F2, F3, F4, F5, F6, Frd. cbn in F1, F2, F3, F4, F5, F6, Frd.
  destruct (cancel_lookup _ _ a _ Hr3 (lookup_insert_eq _ _ _)) as (t3 & Ha3 & Hst3).
  pose proof (strip_func _ _ Hst3) as Hf3. cbn in Hf3.
  eexists. split; [done|]. split; [|split; [congruence|split; [rewrite (relinked_calls _ _ Hr3); exact (relinked_calls _ _ Hr1)|exists t3; split_and!; [done|destruct Hf3, Hf1; congruence..]]]].
  rewrite <-Erd. change (u64 (u64 (clock (ts_reads s1)) + interval t - (now - expire_time t))) with e.
  clearbody e. split; [done|]. split; [|congruence].
  split; [|split; [|split_and!; congruence]].
  - exists t, t3. split_and!; [done..|]. rewrite Hst3. clear - Hst1. destruct t, t1. by injection Hst1 as -> -> -> -> -> -> ->.
  - intros b Hne. rewrite (relinked_strip _ _ b Hr3). cbn. rewrite lookup_insert_ne by done. by apply relinked_strip.
Qed.

(** The timers whose time the arithmetic handles: times below 2^63, and
    periods, where there is one, positive and below 2^62. *)
Definition timely (m : gmap Z timer_node) (a : Z) : Prop :=
  exists t, m !! a = Some t /\ 0 <= expire_time t < 2 ^ 63 /\
    (interval t = AOSL_INVALID_TIMER_INTERVAL \/ 1 <= interval t < 2 ^ 62).

Definition periodic (m : gmap Z timer_node) (a : Z) : Prop :=
  exists t, m !! a = Some t /\ interval t <> AOSL_INVALID_TIMER_INTERVAL.

Lemma due_iff now e : 0 <= now < 2 ^ 62 -> 0 <= e < 2 ^ 63 -> time_after_eq now e = (e <=? now).
Proof.
  intros Hn He. unfold time_after_eq. rewrite wraps_id by lia. apply eq_iff_eq_true. rewrite !Z.leb_le. lia.
Qed.

(** The work left: how far each timer is behind. *)
Fixpoint behind (now : Z) (m : gmap Z timer_node) (l : list Z) : nat :=
  match l with [] => 0 | a :: l' => Z.to_nat (now + 1 - expire_of m a) + behind now m l' end.

Lemma behind_place now m cmp a l :
  behind now m (place cmp a l) = (Z.to_nat (now + 1 - expire_of m a) + behind now m l)%nat.
Proof. induction l as [|b l IH]; cbn; [lia|]. destruct (0 <? cmp b); cbn; lia. Qed.

Lemma behind_ext now m m' l : (forall a, a ∈ l -> expire_of m' a = expire_of m a) -> behind now m' l = behind now m l.
Proof.
  induction l as [|b l IH]; intros H; cbn; [done|]. rewrite H by set_solver. rewrite IH; [done|]. intros; apply H; set_solver.
Qed.

(** What the loop keeps; [now] is the time it was entered. *)
Record run_inv (now : Z) (s : tstate) (l : list Z) : Prop := {
  ri_sched : sched_inv s l;
  ri_fuel : enough l fuel;
  ri_timely : forall a, a ∈ l -> timely (ts_tmr s) a;
  ri_obj : forall a, a ∈ l -> is_Some (pool_objs (ts_pool s) !! a)
}.

Lemma strip_lookup (m m' : gmap Z timer_node) a t : strip <$> (m' !! a) = strip <$> (m !! a) -> m !! a = Some t ->
  exists t', m' !! a = Some t' /\ strip t' = strip t.
Proof.
  intros Hs Ha. rewrite Ha in Hs. cbn in Hs. destruct (m' !! a) as [t'|]; [|done].
  exists t'. split; [done|]. by apply (inj Some).
Qed.

Lemma timely_strip m m' a : strip <$> (m' !! a) = strip <$> (m !! a) -> timely m a -> timely m' a.
Proof.
  intros Hs (t & Ha & H). destruct (strip_lookup _ _ _ _ Hs Ha) as (t' & Ha' & Hst).
  apply strip_interval in Hst as [Hiv He]. exists t'. rewrite Hiv, He. done.
Qed.

Lemma expire_strip m m' a : strip <$> (m' !! a) = strip <$> (m !! a) -> expire_of m' a = expire_of m a.
Proof.
  unfold expire_of. destruct (m' !! a) as [t'|], (m !! a) as [t|]; cbn; intros H; try done.
  apply (inj Some) in H. by destruct (strip_interval _ _ H) as [_ ->].
Qed.

Lemma periodic_strip m m' a : strip <$> (m' !! a) = strip <$> (m !! a) -> periodic m' a <-> periodic m a.
Proof.
  unfold periodic. intros Hs. split; intros (t & Ha & H).
  - symmetry in Hs. destruct (strip_lookup _ _ _ _ Hs Ha) as (t' & Ha' & [Hiv _]%strip_interval). exists t'. by rewrite Hiv.
  - destruct (strip_lookup _ _ _ _ Hs Ha) as (t' & Ha' & [Hiv _]%strip_interval). exists t'. by rewrite Hiv.
Qed.

(** One firing keeps the invariant and reduces the work; the timer stays
    exactly if it is periodic; nothing happens to the others. *)
Lemma fired_inv now s a l t s1 l1 :
  (forall n, now <= clock n < 2 ^ 62) -> 0 <= now ->
  run_inv now s (a :: l) -> ts_tmr s !! a = Some t -> expire_time t <= now ->
  sched_inv s1 l1 -> fired s now a t l s1 l1 -> ts_pool s1 = ts_pool s ->
  run_inv now s1 l1 /\ (behind now (ts_tmr s1) l1 < behind now (ts_tmr s) (a :: l))%nat /\
  (forall b, b ∈ l1 <-> b ∈ l \/ (b = a /\ periodic (ts_tmr s) a)) /\
  (forall b, b <> a -> strip <$> (ts_tmr s1 !! b) = strip <$> (ts_tmr s !! b)) /\
  (periodic (ts_tmr s1) a <-> periodic (ts_tmr s) a).
Proof.
  intros Hcl Hnow [Hi He Hti Hob] Ha Hdue Hi1 Hf Hpool.
  pose proof (sched_nodup _ _ Hi) as Hnd. apply NoDup_cons in Hnd as [Hn Hnd].
  destruct (Hti a ltac:(set_solver)) as (t' & Ht' & Hex & Hiv). rewrite Ha in Ht'. injection Ht' as <-.
  assert (Hbeh : behind now (ts_tmr s) (a :: l) = (Z.to_nat (now + 1 - expire_time t) + behind now (ts_tmr s) l)%nat).
  { cbn. unfold expire_of at 1. by rewrite Ha. }
  rewrite Hbeh. unfold fired in Hf. destruct (Z.eqb_spec (interval t) AOSL_INVALID_TIMER_INTERVAL) as [Hinv|Hinv].
  - destruct Hf as [-> Hr]. pose proof (fun b => relinked_strip s s1 b Hr) as Hst.
    assert (Hnp : ~ periodic (ts_tmr s) a) by (intros (t' & Ht' & ?); congruence).
    split_and!; [split| | | |by apply periodic_strip]; try done.
    + eapply enough_le; [|done]. cbn. lia.
    + intros b Hb. eapply timely_strip; [apply Hst|]. apply Hti. set_solver.
    + rewrite Hpool. intros b Hb. apply Hob. set_solver.
    + rewrite (behind_ext now (ts_tmr s)) by (intros; by apply expire_strip). lia.
    + naive_solver.
  - destruct Hf as (-> & ((ta & ta' & Hta & Hta' & Hst) & Hother & _) & _). rewrite Ha in Hta. injection Hta as <-.
    specialize (Hcl (ts_reads s)). destruct Hiv as [?|Hiv]; [done|].
    set (e := u64 (u64 (clock (ts_reads s)) + interval t - (now - expire_time t))) in *.
    assert (Hee : e = clock (ts_reads s) + interval t - (now - expire_time t)).
    { unfold e. rewrite (wrapu_id 64 (clock _)) by lia. rewrite wrapu_id; lia. }
    assert (Hpa : periodic (ts_tmr s) a) by (by exists t).
    assert (Hta3 : expire_time ta' = e /\ interval ta' = interval t) by (apply strip_interval in Hst as [-> ->]; done).
    destruct Hta3 as [Hea Hia].
    split_and!; [split| | | |]; try done.
    + eapply enough_le; [|done]. rewrite (Permutation_length (place_perm _ _ _)). done.
    + intros b [->|Hb]%place_notin.
      * exists ta'. rewrite Hea, Hia. split_and!; [done|lia|lia|by right].
      * eapply timely_strip; [apply Hother; by intros ->|]. apply Hti. set_solver.
    + rewrite Hpool. intros b Hb%place_notin. apply Hob. set_solver.
    + rewrite behind_place, (behind_ext now (ts_tmr s)).
      2: { intros b Hb. apply expire_strip, Hother. by intros ->. }
      unfold expire_of at 1. rewrite Hta', Hea. lia.
    + intros b. rewrite place_notin. naive_solver.
    + split; [done|]. intros _. exists ta'. by rewrite Hia.
Qed.

Lemma run_inv_stack now s l k : run_inv now s l -> run_inv now (set_stack k s) l.
Proof. intros [Hi He Ht Ho]. split; try done. by eapply (sched_inv_same s). Qed.

Lemma run_inv_calls now s l k : run_inv now s l -> run_inv now (set_calls k s) l.
Proof. intros [Hi He Ht Ho]. split; try done. by eapply (sched_inv_same s). Qed.

(** The timer functions leave the queue as it is, and keep a record of their calls: function,
    handle, time and arguments. *)
Definition recording : Prop := forall f h now args s, call_func f h now args s = Ret (tt, set_calls (ts_calls s ++ [(f, h, now, args)]) s).

(** The call of the function of timer [a]. *)
Definition call_of (s : tstate) (now a : Z) : Z * Z * Z * list Z :=
  match ts_tmr s !! a, pool_objs (ts_pool s) !! a with
  | Some t, Some h => (func t, h, now, argv t)
  | _, _ => (0, 0, 0, [])
  end.

Lemma call_of_strip s s' now a : strip <$> (ts_tmr s' !! a) = strip <$> (ts_tmr s !! a) -> ts_pool s' = ts_pool s -> call_of s' now a = call_of s now a.
Proof.
  intros Hs Hp. unfold call_of. rewrite Hp. destruct (ts_tmr s' !! a) as [t'|], (ts_tmr s !! a) as [t|]; try done. apply (inj Some) in Hs. by destruct (strip_func _ _ Hs) as [-> ->].
Qed.

(** The timers of [F] are called: those of [l] that are due, and one-shot timers once. *)
Definition due_called (now : Z) (s : tstate) (l F : list Z) : Prop :=
  (forall a, a ∈ F <-> a ∈ l /\ expire_of (ts_tmr s) a <= now) /\
  (forall a, a ∈ F -> ~ periodic (ts_tmr s) a -> exists F1 F2, F = F1 ++ a :: F2 /\ a ∉ F1 ++ F2).

(** The timer [a] is called, and then those of [F]. *)
Lemma due_called_cons now s s1 a l l1 F : expire_of (ts_tmr s) a <= now -> a ∉ l ->
  (forall b, b ∈ l1 <-> b ∈ l \/ (b = a /\ periodic (ts_tmr s) a)) -> (forall b, b <> a -> strip <$> (ts_tmr s1 !! b) = strip <$> (ts_tmr s !! b)) ->
  due_called now s1 l1 F -> due_called now s (a :: l) (a :: F).
Proof.
  intros Hdue Ha Hmem Hst [HF HF1]. split.
  - intros b. rewrite !elem_of_cons. destruct (decide (b = a)) as [-> |Hb]; [naive_solver|]. rewrite HF, Hmem, (expire_strip _ _ b (Hst b Hb)). naive_solver.
  - intros b Hb Hper. destruct (decide (b = a)) as [-> |Hne].
    + exists [], F. split; [done|]. cbn. rewrite HF, Hmem. naive_solver.
    + apply elem_of_cons in Hb as [|Hb]; [done|]. rewrite <-(periodic_strip _ _ b (Hst b Hne)) in Hper. destruct (HF1 b Hb Hper) as (F1 & F2 & -> & Hn). exists (a :: F1), F2. split; [done|]. set_solver.
Qed.

Lemma run_loop_wp now iters n s l :
  recording -> (forall n, now <= clock n < 2 ^ 62) -> 0 <= now ->
  run_inv now s l -> (behind now (ts_tmr s) l < iters)%nat ->
  wp (run_timers_loop clock call_func fuel iters now n) s (fun c s' => exists l', run_inv now s' l' /\
    (forall a, a ∈ l' -> now < expire_of (ts_tmr s') a) /\
    (forall b, b ∈ l' <-> b ∈ l /\ (periodic (ts_tmr s) b \/ now < expire_of (ts_tmr s) b)) /\
    (exists F, ts_calls s' = ts_calls s ++ map (call_of s now) F /\ due_called now s l F /\ c = n + Z.of_nat (length F)) /\
    n <= c <= n + Z.of_nat (behind now (ts_tmr s) l)).
Proof.
  intros Hpas Hcl Hnow. revert n s l. induction iters as [|iters IH]; intros n s l Hri Hbeh; [lia|].
  cbn [run_timers_loop]. apply wp_bind, wp_get. cbv zeta. pose proof (ri_sched _ _ _ Hri) as Hi.
  rewrite (si_first _ _ Hi). destruct l as [|a l]; cbn [head from_option id].
  { change (0 =? 0) with true. apply wp_ret. exists []. split_and!; [done|set_solver|set_solver| |lia|lia].
    exists []. cbn. rewrite app_nil_r. split_and!; [done| |lia]. split; set_solver. }
  pose proof (si_tree _ _ Hi) as [h0 Hh]. pose proof (holds_zero _ _ _ Hh) as H0.
  assert (Ha0 : a <> 0) by set_solver. rewrite (proj2 (Z.eqb_neq a 0) Ha0).
  destruct (ri_timely _ _ _ Hri a ltac:(set_solver)) as (t & Ha & Hex & Hiv).
  assert (Hea : expire_of (ts_tmr s) a = expire_time t) by (unfold expire_of; by rewrite Ha).
  apply wp_bind. eapply tget_wp; [done|]. pose proof (Hcl 0%nat). rewrite due_iff by lia.
  destruct (Z.leb_spec (expire_time t) now) as [Hdue|Hnd]; cbn [negb].
  2: { apply wp_ret. exists (a :: l). assert (Hall : forall b, b ∈ a :: l -> now < expire_of (ts_tmr s) b).
       { pose proof (si_sorted _ _ Hi) as Hs. apply StronglySorted_cons in Hs as [HF _]. rewrite Forall_forall in HF.
         intros b [->|Hb]%elem_of_cons; [lia|]. specialize (HF b Hb). cbn in HF. lia. }
       split_and!; [done|done|naive_solver| |lia|lia].
       exists []. cbn. rewrite app_nil_r. split_and!; [done| |lia]. split; [|set_solver]. intros b. split; [set_solver|]. intros [Hb ?]. specialize (Hall b Hb). lia. }
  pose proof (fire_wp s a l t now Hi Ha (ri_fuel _ _ _ Hri)) as Hfire. apply wp_unbind in Hfire.
  apply wp_bind. wlast Hfire. intros _ s0 Hw. wstep Hw. clear Hfire Hw s0.
  intros _ s1 (l1 & Hi1 & Hf1 & Hpool & Hcalls & t1 & Ha1 & Hfn & Harg).
  destruct (fired_inv now s a l t s1 l1 Hcl Hnow Hri Ha Hdue Hi1 Hf1 Hpool) as (Hri1 & Hbeh1 & Hmem & Hst & Hper).
  destruct (ri_obj _ _ _ Hri a ltac:(set_solver)) as [h Hobj].
  apply wp_bind. unfold timer_obj_id. apply wp_bind, wp_get. rewrite Hpool, Hobj. apply wp_ret.
  apply wp_bind. eapply tget_wp; [done|].
  apply wp_bind. eapply wp_eq; [apply Hpas|]. apply wp_bind, modify_wp.
  pose proof (sched_nodup _ _ Hi) as Hnd. apply NoDup_cons in Hnd as [Hna _].
  wlast IH; [by apply run_inv_stack, run_inv_calls|cbn; lia|]. intros c s' (l' & Hri' & Hlate & Hb' & (F & HF & Hdc & HFc) & Hc).
  exists l'. split_and!; [done|done| | |lia|cbn [ts_tmr set_stack set_calls] in Hc; lia].
  2: { exists (a :: F). split_and!; [| |cbn; lia].
       - rewrite HF. cbn [ts_calls set_stack set_calls map]. rewrite Hcalls, <-app_assoc. cbn [app]. f_equal. f_equal.
         + unfold call_of. rewrite Ha, Hobj. by rewrite Hfn, Harg.
         + apply map_ext_in. intros b _. destruct (decide (b = a)) as [-> |Hne].
           * unfold call_of. cbn. rewrite Ha1, Ha, Hpool, Hobj. by rewrite Hfn, Harg.
           * by apply call_of_strip; [apply Hst|].
       - eapply due_called_cons; [by rewrite Hea|done|exact Hmem|exact Hst|exact Hdc]. }
  intros b. rewrite Hb', Hmem. cbn [ts_tmr set_stack set_calls]. destruct (decide (b = a)) as [->|Hne].
  - rewrite Hper, Hea. set_solver by lia.
  - rewrite (periodic_strip _ _ b (Hst b Hne)), (expire_strip _ _ b (Hst b Hne)). set_solver.
Qed.

(** A single periodic timer, when no time passes during the loop. *)
Lemma catch_up_wp now iters k n s a t :
  recording -> (forall n, clock n = now) -> 0 <= now < 2 ^ 62 ->
  run_inv now s [a] -> ts_tmr s !! a = Some t -> interval t <> AOSL_INVALID_TIMER_INTERVAL ->
  0 <= k -> expire_time t + interval t * k <= now < expire_time t + interval t * (k + 1) -> (Z.to_nat k + 2 <= iters)%nat ->
  wp (run_timers_loop clock call_func fuel iters now n) s (fun c s' =>
    c = n + k + 1 /\ expire_of (ts_tmr s') a = expire_time t + interval t * (k + 1)).
Proof.
  intros Hpas Hcl Hnow. revert k n s t. induction iters as [|iters IH]; intros k n s t Hri Ha Hiv Hk Hb Hit; [lia|].
  pose proof (ri_sched _ _ _ Hri) as Hi. cbn [run_timers_loop]. apply wp_bind, wp_get. cbv zeta.
  rewrite (si_first _ _ Hi). cbn [head from_option id].
  pose proof (si_tree _ _ Hi) as [h0 Hh]. pose proof (holds_zero _ _ _ Hh) as H0.
  assert (Ha0 : a <> 0) by set_solver. rewrite (proj2 (Z.eqb_neq a 0) Ha0).
  destruct (ri_timely _ _ _ Hri a ltac:(set_solver)) as (t' & Ht' & Hex & Hi2). rewrite Ha in Ht'. injection Ht' as <-.
  destruct Hi2 as [?|Hi2]; [done|]. apply wp_bind. eapply tget_wp; [done|]. rewrite due_iff by lia.
  assert (Hdue : expire_time t <= now) by nia. rewrite (proj2 (Z.leb_le _ _) Hdue). cbn [negb].
  pose proof (fire_wp s a [] t now Hi Ha (ri_fuel _ _ _ Hri)) as Hfire. apply wp_unbind in Hfire.
  apply wp_bind. wlast Hfire. intros _ s0 Hw. wstep Hw. clear Hfire Hw s0.
  intros _ s1 (l1 & Hi1 & Hf1 & Hpool & Hcalls & t1 & Ha1 & Hfn & Harg).
  destruct (fired_inv now s a [] t s1 l1 ltac:(intros; rewrite Hcl; lia) ltac:(lia) Hri Ha Hdue Hi1 Hf1 Hpool)
    as (Hri1 & _ & _ & _ & _).
  destruct (ri_obj _ _ _ Hri a ltac:(set_solver)) as [h Hobj].
  apply wp_bind. unfold timer_obj_id. apply wp_bind, wp_get. rewrite Hpool, Hobj. apply wp_ret.
  apply wp_bind. eapply tget_wp; [done|].
  apply wp_bind. eapply wp_eq; [apply Hpas|]. apply wp_bind, modify_wp.
  unfold fired in Hf1. rewrite (proj2 (Z.eqb_neq _ _) Hiv) in Hf1.
  destruct Hf1 as (-> & ((ta & ta' & Hta & Hta' & Hst) & _) & _). rewrite Ha in Hta. injection Hta as <-.
  rewrite Ha1 in Hta'. injection Hta' as <-.
  apply strip_interval in Hst as [Hia Hea]. cbn in Hia, Hea.
  rewrite Hcl in Hea. rewrite (wrapu_id 64 now) in Hea by lia. rewrite wrapu_id in Hea by lia.
  destruct (Z.eq_dec k 0) as [->|Hk0].
  - destruct iters as [|iters]; [lia|]. cbn [run_timers_loop place]. apply wp_bind, wp_get. cbv zeta.
    cbn [place] in Hi1. rewrite (si_first _ _ (ri_sched _ _ _ (run_inv_stack _ _ _ _ (run_inv_calls _ _ _ _ Hri1)))).
    cbn [place head from_option id]. rewrite (proj2 (Z.eqb_neq a 0) Ha0).
    apply wp_bind. eapply tget_wp; [done|]. rewrite due_iff by lia.
    rewrite (proj2 (Z.leb_gt _ _)) by lia. cbn [negb]. apply wp_ret. split; [lia|].
    unfold expire_of. cbn. rewrite Ha1. lia.
  - wlast (IH (k - 1) (n + 1) _ t1); [by apply run_inv_stack, run_inv_calls|done|by rewrite Hia|lia|nia|lia|].
    intros c s' [-> ->]. split; [lia|]. rewrite Hea, Hia. lia.
Qed.
End Run.
