(* ===== verification/TimerLife.v ===== *)
(** * The life of a timer

    Creation, references and destruction of timers, on top of the schedule
    and of the identifier table. *)
From S2P Require Import Prelude Bitmap IdPool RbTree RbModel RbRefine RbInsert RbErase RbProps Timer TimerList TimerProps.
#[local] Open Scope aosl_scope.

(** The timers of the queue: each is allocated, referenced, and installed in
    the identifier table under the handle it carries. *)
Record q_inv (s : tstate) (l : list Z) : Prop := {
  qi_sched : sched_inv s l;
  qi_pool : pool_wf (ts_pool s);
  qi_nodup : NoDup (ts_timers s);
  qi_count : ts_count s = u64 (Z.of_nat (length (ts_timers s)));
  qi_in : forall a, a ∈ l -> a ∈ ts_timers s;
  qi_live : forall a, a ∈ ts_timers s -> exists t h, ts_tmr s !! a = Some t /\ 1 <= usage t < 2 ^ 62 /\
    pool_objs (ts_pool s) !! a = Some h /\ 0 <= get_timer_id h /\
    pool_table (ts_pool s) !! Z.to_nat (get_timer_id h) = Some a
}.

Lemma on_pool_wp {A} (c : CM id_pool A) s Q :
  wp c (ts_pool s) (fun a x => Q a (set_pool x s)) -> wp (on_pool c) s Q.
Proof. unfold wp, on_pool. by destruct (c (ts_pool s)) as [[a x]| | |]. Qed.

(** ** Memory *)

Lemma holds_alloc h0 s l a nd :
  holds h0 s l -> a ∉ l -> holds (<[a := nd]> h0) (MkRb (<[a := nd]> (mem s)) (root s) (count s)) l.
Proof.
  intros (t & m & (Hr & Hk & Ha & Ho & Hc) & Hrb & <-) Hn. cbn in Ho. rewrite app_nil_r in Ho.
  exists t, m. split; [|done]. unfold rb_rep, zrep. split_and!; try done.
  - eapply rep_ext; [|done]. intros b Hb. cbn. rewrite lookup_insert_ne; [done|]. by intros ->.
  - intros b Hb. cbn in Hb |- *. rewrite app_nil_r in Hb. destruct (decide (b = a)) as [->|Hne].
    + by rewrite !lookup_insert_eq.
    + rewrite !lookup_insert_ne by done. by apply Ho.
Qed.

(** Adding an idle timer, and removing one. *)
Lemma sched_alloc s l a nd t :
  sched_inv s l -> ts_tmr s !! a = None -> 0 < a -> a mod 4 = 0 ->
  timer_next t = AOSL_LIST_POISON1 -> timer_prev t = AOSL_LIST_POISON2 ->
  sched_inv (set_rb (MkRb (<[a := nd]> (mem (ts_rb s))) (root (ts_rb s)) (count (ts_rb s)))
               (set_tmr (<[a := t]> (ts_tmr s)) s)) l.
Proof.
  intros Hi Ha H0 H4 Hn Hp. assert (Hal : a ∉ l).
  { intros Hin. destruct (sched_timer _ _ _ Hi Hin) as [? ?]. congruence. }
  destruct Hi as [[h0 H1] H2 H3 H4' H5 H6]. split; cbn [ts_rb ts_first ts_tmr set_rb set_tmr].
  - eexists. by apply holds_alloc.
  - clear - H2 Hal. unfold sorted_by in *. induction H2 as [|x l Hl IH HF]; constructor; [apply IH; set_solver|].
    rewrite Forall_forall in *. intros b Hb. unfold expire_of. rewrite !lookup_insert_ne by set_solver. by apply HF.
  - done.
  - eapply dseg_ext; [|done]. intros b Hb. apply lookup_insert_ne. by intros ->.
  - intros b tb. destruct (decide (b = a)) as [->|Hne]; [rewrite lookup_insert_eq; by intros [= <-]|].
    rewrite lookup_insert_ne by done. apply H5.
  - intros b tb. cbn. destruct (decide (b = a)) as [->|Hne]; [by rewrite !lookup_insert_eq|].
    rewrite !lookup_insert_ne by done. apply H6.
Qed.

Lemma sched_free s l a :
  sched_inv s l -> a ∉ l ->
  sched_inv (set_rb (MkRb (delete a (mem (ts_rb s))) (root (ts_rb s)) (count (ts_rb s)))
               (set_tmr (delete a (ts_tmr s)) s)) l.
Proof.
  intros [[h0 H1] H2 H3 H4 H5 H6] Hal. split; cbn [ts_rb ts_first ts_tmr set_rb set_tmr].
  - destruct H1 as (t & m & (Hr & Hk & Ha & Ho & Hc) & Hrb & <-). cbn in Ho. rewrite app_nil_r in Ho.
    exists (delete a h0), t, m. split; [|done]. unfold rb_rep, zrep. split_and!; try done.
    + eapply rep_ext; [|done]. intros b Hb. cbn. rewrite lookup_delete_ne; [done|]. by intros ->.
    + intros b Hb. cbn in Hb |- *. rewrite app_nil_r in Hb. destruct (decide (b = a)) as [->|Hne].
      * by rewrite !lookup_delete_eq.
      * rewrite !lookup_delete_ne by done. by apply Ho.
  - clear - H2 Hal. unfold sorted_by in *. induction H2 as [|x l Hl IH HF]; constructor; [apply IH; set_solver|].
    rewrite Forall_forall in *. intros b Hb. unfold expire_of. rewrite !lookup_delete_ne by set_solver. by apply HF.
  - done.
  - eapply dseg_ext; [|done]. intros b Hb. apply lookup_delete_ne. by intros ->.
  - intros b tb. destruct (decide (b = a)) as [->|Hne]; [by rewrite lookup_delete_eq|].
    rewrite lookup_delete_ne by done. apply H5.
  - intros b tb. cbn. destruct (decide (b = a)) as [->|Hne]; [by rewrite !lookup_delete_eq|].
    rewrite !lookup_delete_ne by done. apply H6.
Qed.

(** ** Creation *)

(** An object that is not in the table may get any handle. *)
Lemma pool_wf_objs p a h : pool_wf p -> a ∉ pool_table p ->
  pool_wf (MkPool (pool_bits p) (pool_table p) (pool_size p) (pool_life p) (<[a := h]> (pool_objs p))).
Proof.
  intros (bm & Hb & Hwf & Hc & Hl & Hm & Hlife & Ht) Hn. exists bm.
  cbn [pool_bits pool_table pool_size pool_life pool_objs]. split_and!; try done; try lia.
  intros i o Hi Ho. rewrite lookup_insert_ne; [by apply Ht|]. intros ->. apply Hn. by eapply list_elem_of_lookup_2.
Qed.

(** A free id has an empty slot. *)
Lemma unused_slot p id : pool_wf p -> 0 <= id < pool_size p -> id_used p id = false ->
  pool_table p !! Z.to_nat id = Some 0.
Proof.
  intros Hp Hid Hu. destruct (table_at_ok p id Hp Hid) as (o & Ho & _). rewrite Ho. f_equal.
  destruct (Z.eq_dec o 0) as [|Hne]; [done|]. destruct Hp as (bm & Hb & _ & _ & _ & _ & _ & Ht).
  destruct (Ht _ _ Ho Hne) as [Htest _]. unfold id_used in Hu. rewrite Hb in Hu. rewrite Z2Nat.id in Htest by lia. congruence.
Qed.

(** The identifier table around the creation of a timer: an id is reserved,
    the object gets an invalid handle, then it is installed. *)
Lemma pool_create p m1 m2 m3 a :
  pool_wf p -> a ∉ pool_table p -> a <> 0 ->
  (exists id p1 p2, get_unused_timer_id m1 m2 m3 p = Ret (id, p1) /\ 0 <= id /\
     __timer_id_install id a (MkPool (pool_bits p1) (pool_table p1) (pool_size p1) (pool_life p1)
       (<[a := AOSL_MPQ_TIMER_INVALID]> (pool_objs p1))) = Ret (tt, p2) /\
     pool_wf p2 /\ id_used p id = false /\
     (exists h, pool_objs p2 !! a = Some h /\ get_timer_id h = id /\ pool_table p2 !! Z.to_nat id = Some a) /\
     (forall b, b <> a -> pool_objs p2 !! b = pool_objs p !! b) /\
     (forall i b, pool_table p !! i = Some b -> b <> 0 -> pool_table p2 !! i = Some b)) \/
  (exists r, get_unused_timer_id m1 m2 m3 p = Ret (r, p) /\ (r = - AOSL_EOVERFLOW \/ r = - AOSL_ENOMEM)).
Proof.
  intros Hp Hn Ha0. unfold get_unused_timer_id, __timer_id_install.
  destruct (get_unused_id_cases timer_cfg m1 m2 m3 p Hp) as
    [(id & p1 & Hg & Hwf1 & Hid & Hfree & Hset & _ & _ & Hobj & Hcase)|[_ [[_ Hg]|[_ [_ Hg]]]]];
    [left|right; eexists; split; [done|auto]..].
  assert (Hn1 : a ∉ pool_table p1).
  { destruct Hcase as [Hp1|(_ & _ & Ht)]; [by rewrite Hp1|]. rewrite Ht, not_elem_of_app, elem_of_replicate. naive_solver. }
  assert (Hold : forall i b, pool_table p !! i = Some b -> pool_table p1 !! i = Some b).
  { intros i b Hi. destruct Hcase as [Hp1|(_ & _ & Ht)]; [by rewrite Hp1|]. rewrite Ht. by apply lookup_app_l_Some. }
  assert (Hslot : pool_table p1 !! Z.to_nat id = Some 0).
  { destruct Hcase as [Hp1|(Hs & -> & Ht)].
    - rewrite Hp1 in Hid |- *. cbn in *. by apply unused_slot.
    - rewrite Ht. destruct Hp as (bm & _ & _ & _ & Hl & _). rewrite lookup_app_r by lia.
      replace (_ - _)%nat with 0%nat by lia. done. }
  set (p1' := MkPool (pool_bits p1) (pool_table p1) (pool_size p1) (pool_life p1) (<[a := AOSL_MPQ_TIMER_INVALID]> (pool_objs p1))).
  assert (Hwf1' : pool_wf p1') by (by apply pool_wf_objs).
  destruct (id_install_ok timer_cfg p1' id a) as [Hi Hwf2]; try done.
  { change (id_used p1 id = true). rewrite Hset by lia. by rewrite Z.eqb_refl. }
  exists id, p1. eexists. split_and!; [done|lia|exact Hi|exact Hwf2|done|..].
  - eexists. cbn [pool_objs pool_table]. rewrite lookup_insert_eq. split; [done|].
    pose proof (pool_size_bound _ Hwf1). destruct Hwf1 as (_ & _ & _ & _ & Hl & _ & Hlife & _).
    split; [apply (get_id_make timer_cfg); cbn; lia|]. rewrite list_lookup_insert_eq; [done|].
    apply lookup_lt_Some in Hslot. done.
  - intros b Hb. cbn. rewrite !lookup_insert_ne by done. by rewrite Hobj.
  - intros i b Hib Hb0. cbn. rewrite list_lookup_insert_ne; [by apply Hold|]. intros <-.
    apply Hold in Hib. congruence.
Qed.

Lemma create_timer_wp s l a nd junk m1 m2 m3 ival f d args :
  q_inv s l -> ts_tmr s !! a = None -> mem (ts_rb s) !! a = None -> a ∉ pool_table (ts_pool s) -> 0 < a -> a mod 4 = 0 ->
  wp (__create_timer_on_q (Some (a, (nd, junk))) m1 m2 m3 ival f d args) s (fun r s' =>
    (r = a /\ q_inv s' l /\ ts_timers s' = ts_timers s ++ [a] /\
     ts_tmr s' = <[a := MkTimer AOSL_LIST_POISON2 AOSL_LIST_POISON1 1 (ts_qid s) ival ULLONG_MAX f d args]> (ts_tmr s) /\
     (exists h, pool_objs (ts_pool s') !! a = Some h /\ timer_lookup h (ts_pool s') = Ret (a, ts_pool s')) /\
     ts_errno s' = ts_errno s /\ ts_reads s' = ts_reads s) \/
    ((r = - AOSL_EOVERFLOW \/ r = - AOSL_ENOMEM) /\ s' = s)).
Proof.
  intros Hq Ha Hm Hn H0 H4. unfold __create_timer_on_q. apply wp_bind, modify_wp.
  destruct (pool_create (ts_pool s) m1 m2 m3 a (qi_pool _ _ Hq) Hn ltac:(lia)) as
    [(id & p1 & p2 & Hg & Hid & Hins & Hwf2 & _ & (h & Hh & Hgid & Hslot) & Hobj & Htab)|(r & Hg & Hr)].
  2: { apply wp_bind, on_pool_wp. eapply wp_eq; [exact Hg|].
       assert (Hneg : r < 0) by (unfold AOSL_EOVERFLOW, AOSL_ENOMEM, AOSL_EBASE in Hr; lia).
       rewrite (proj2 (Z.ltb_lt r 0) Hneg). apply wp_bind, modify_wp, wp_ret. right. split; [done|].
       cbn. rewrite !delete_insert_id by done. by destruct s as [[] ?]. }
  apply wp_bind, on_pool_wp. eapply wp_eq; [exact Hg|]. rewrite (proj2 (Z.ltb_ge id 0) Hid).
  apply wp_bind, wp_get. apply wp_bind, modify_wp. apply wp_bind. eapply tmod_wp; [apply lookup_insert_eq|].
  apply wp_bind, modify_wp. apply wp_bind, on_pool_wp. eapply wp_eq; [exact Hins|]. apply wp_ret. left.
  cbn [ts_tmr ts_timers ts_count ts_pool ts_rb set_tmr set_timers set_pool set_rb ts_qid ts_errno ts_reads]. rewrite insert_insert_eq.
  assert (Hnt : a ∉ ts_timers s) by (intros (t & ? & ? & _)%(qi_live _ _ Hq); congruence).
  split; [done|]. split; [|split; [done|split; [done|split; [|done]]]].
  - split; cbn [ts_pool ts_timers ts_count ts_tmr set_tmr set_timers set_pool set_rb].
    + pose proof (sched_alloc s l a nd (MkTimer AOSL_LIST_POISON2 AOSL_LIST_POISON1 1 (ts_qid s) ival ULLONG_MAX f d args)
        (qi_sched _ _ Hq) Ha H0 H4 eq_refl eq_refl) as Hs. by eapply sched_inv_same, Hs.
    + done.
    + apply NoDup_app. split_and!; [apply Hq|set_solver|apply NoDup_singleton].
    + rewrite (qi_count _ _ Hq), u64_add_l, length_app. cbn. f_equal. lia.
    + intros b Hb. apply (qi_in _ _ Hq) in Hb. set_solver.
    + intros b [Hb|Hb]%elem_of_app.
      * destruct (qi_live _ _ Hq b Hb) as (t & hb & Htb & Hu & Hhb & Hgb & Hsb). exists t, hb.
        assert (b <> a) by congruence. rewrite lookup_insert_ne, Hobj by done. split_and!; try done; try lia.
        apply Htab; [done|]. destruct (si_addr _ _ (qi_sched _ _ Hq) _ _ Htb). lia.
      * apply list_elem_of_singleton in Hb as ->. eexists _, h. rewrite lookup_insert_eq. split; [done|]. cbn.
        rewrite Hgid. split_and!; [lia|lia|done|lia|done].
  - exists h. split; [done|]. destruct (id_lookup_ok p2 h Hwf2) as (o & Ho & Hiff & Hne). unfold timer_lookup.
    rewrite Ho. assert (Ho0 : o <> 0). { apply Hiff. exists (Z.to_nat id), a. split_and!; [done|lia|done]. }
    destruct (Hne Ho0) as (Ht & _). change (get_id h) with (get_timer_id h) in Ht. rewrite Hgid, Hslot in Ht.
    by injection Ht as <-.
Qed.

(** ** Destruction *)

Section Kill.
Context (fuel : nat) (call_dtor : Z -> list Z -> CM tstate unit).
Hypothesis dtor_passive : forall d args s, call_dtor d args s = Ret (tt, s).

(** The timer after the last reference is dropped, or one less. *)
Definition put_result (s : tstate) (a : Z) (t : timer_node) (id : Z) (s' : tstate) : Prop :=
  if usage t =? 1
  then ts_tmr s' = delete a (ts_tmr s) /\ id_used (ts_pool s') id = false
  else ts_tmr s' = <[a := upd_usage (usage t - 1) t]> (ts_tmr s) /\ ts_pool s' = ts_pool s.

Lemma timer_put_wp s l a t h :
  sched_inv s l -> pool_wf (ts_pool s) -> a ∉ l -> ts_tmr s !! a = Some t -> 1 <= usage t < 2 ^ 62 ->
  pool_objs (ts_pool s) !! a = Some h -> 0 <= get_timer_id h ->
  pool_table (ts_pool s) !! Z.to_nat (get_timer_id h) = Some 0 ->
  wp (__timer_put call_dtor a) s (fun _ s' => sched_inv s' l /\ pool_wf (ts_pool s') /\
    pool_table (ts_pool s') = pool_table (ts_pool s) /\ pool_objs (ts_pool s') = pool_objs (ts_pool s) /\
    ts_timers s' = ts_timers s /\ ts_count s' = ts_count s /\ put_result s a t (get_timer_id h) s').
Proof.
  intros Hi Hp Hn Ha Hu Hh Hid Hslot. unfold __timer_put. apply wp_bind. eapply tget_wp; [done|]. cbv zeta.
  rewrite wraps_id by lia. apply wp_bind. eapply tmod_wp; [done|].
  assert (Hi1 : sched_inv (set_tmr (<[a := upd_usage (usage t - 1) t]> (ts_tmr s)) s) l) by by eapply sched_inv_field.
  unfold put_result. destruct (Z.eqb_spec (usage t - 1) 0) as [He|Hne].
  2: { rewrite (proj2 (Z.eqb_neq _ 1)) by lia. apply wp_ret. by split_and!. }
  rewrite (proj2 (Z.eqb_eq _ 1)) by lia. unfold __free_timer, timer_obj_id.
  apply wp_bind, wp_bind, wp_get. cbn [ts_pool set_tmr]. rewrite Hh. apply wp_ret. cbv zeta.
  apply wp_bind. eapply tget_wp; [apply lookup_insert_eq|].
  assert (Hd : wp (when negb (dtor (upd_usage (usage t - 1) t) =? 0) then
      call_dtor (dtor (upd_usage (usage t - 1) t)) (argv (upd_usage (usage t - 1) t)))
      (set_tmr (<[a := upd_usage (usage t - 1) t]> (ts_tmr s)) s)
      (fun _ s' => s' = set_tmr (<[a := upd_usage (usage t - 1) t]> (ts_tmr s)) s)).
  { destruct (negb _); [by eapply wp_eq|by apply wp_ret]. }
  wstep Hd. intros _ s2 ->.
  assert (Hsz : 0 <= get_timer_id h < pool_size (ts_pool s)).
  { destruct Hp as (_ & _ & _ & _ & Hl & _). apply lookup_lt_Some in Hslot. lia. }
  destruct (put_unused_id_ok (ts_pool s) (get_timer_id h) Hp Hsz) as (p' & Hput & Hwf & _ & Htab & _ & Hobj & Hus).
  { intros o Ho. congruence. }
  apply wp_bind, on_pool_wp. eapply wp_eq; [exact Hput|]. apply modify_wp.
  assert (Hi2 := sched_free _ l a Hi1 Hn). cbn [ts_rb ts_tmr set_tmr] in Hi2.
  cbn [ts_rb ts_tmr ts_pool ts_timers ts_count set_tmr set_pool set_rb]. split_and!; try done.
  - by eapply sched_inv_same, Hi2.
  - by rewrite delete_insert_eq.
  - rewrite Hus by lia. by rewrite Z.eqb_refl.
Qed.

Lemma kill_timer_wp s l a t h :
  q_inv s l -> a ∈ ts_timers s -> ts_tmr s !! a = Some t -> pool_objs (ts_pool s) !! a = Some h -> enough l fuel ->
  wp (__kill_timer_on_q call_dtor fuel a) s (fun r s' => r = 0 /\
    q_inv s' (filter (fun x => x <> a) l) /\ ts_timers s' = filter (fun x => x <> a) (ts_timers s) /\
    timer_lookup h (ts_pool s') = Ret (0, ts_pool s') /\
    (usage t = 1 -> ts_tmr s' !! a = None /\ id_used (ts_pool s') (get_timer_id h) = false)).
Proof.
  intros Hq Hin Ha Hh He. destruct (qi_live _ _ Hq a Hin) as (t' & h' & Ht' & Hu & Hh' & Hid & Hslot).
  rewrite Ha in Ht'. injection Ht' as <-. rewrite Hh in Hh'. injection Hh' as <-.
  pose proof (qi_pool _ _ Hq) as Hp. unfold __kill_timer_on_q, timer_obj_id.
  apply wp_bind, wp_bind, wp_get. rewrite Hh. apply wp_ret.
  assert (Hsz : 0 <= get_timer_id h < pool_size (ts_pool s)).
  { destruct Hp as (_ & _ & _ & _ & Hl & _). apply lookup_lt_Some in Hslot. lia. }
  destruct (id_uninstall_ok (ts_pool s) (get_timer_id h) a Hp Hsz) as (r & p1 & Hun & Hwf1 & [(-> & _ & Hp1)|(_ & ? & _)]);
    [|done].
  apply wp_bind, on_pool_wp. eapply wp_eq; [exact Hun|]. change (0 <? 0) with false. cbv iota.
  assert (Hi1 : sched_inv (set_pool p1 s) l) by by eapply sched_inv_same, Hq.
  wstep cancel_wp; [exact Hi1|done|done|]. intros _ s2 [Hi2 Hr2].
  destruct (cancel_lookup _ _ _ _ Hr2 Ha) as (t2 & Ha2 & Hst2).
  assert (Hu2 : usage t2 = usage t) by (clear - Hst2; destruct t, t2; by injection Hst2).
  destruct (relinked_rest _ _ Hr2) as [(E1 & E2 & E3 & _ & _ & _) _]. cbn in E1, E2, E3.
  apply wp_bind, modify_wp. set (s3 := set_timers _ _ s2).
  assert (Hi3 : sched_inv s3 (filter (fun x => x <> a) l)) by by eapply sched_inv_same, Hi2.
  assert (Hslot1 : pool_table p1 !! Z.to_nat (get_timer_id h) = Some 0).
  { rewrite Hp1. cbn. apply list_lookup_insert_eq. by apply lookup_lt_Some in Hslot. }
  wstep (timer_put_wp s3 (filter (fun x => x <> a) l) a t2 h);
    [exact Hi3|cbn; by rewrite E3|apply filter_ne_not_elem|done|by rewrite Hu2|cbn; by rewrite E3, Hp1|done|cbn; by rewrite E3|].
  intros _ s4 (Hi4 & Hwf4 & Htab4 & Hobj4 & Htm4 & Hct4 & Hres). apply wp_ret.
  cbn in Htm4, Hct4. rewrite E1 in Htm4. rewrite E2 in Hct4.
  split; [done|]. split; [|split; [done|split]].
  - split; try done.
    + rewrite Htm4. apply NoDup_filter, Hq.
    + rewrite Htm4, Hct4, (qi_count _ _ Hq). pose proof (qi_nodup _ _ Hq) as Hnd.
      apply list_elem_of_split in Hin as (L & R & HLR). rewrite HLR in Hnd |- *. rewrite filter_ne_split by done.
      apply count_erase.
    + intros b Hb. rewrite Htm4. apply list_elem_of_filter in Hb as [Hb1 Hb2]. apply list_elem_of_filter.
      split; [done|]. by apply (qi_in _ _ Hq).
    + intros b Hb. rewrite Htm4 in Hb. apply list_elem_of_filter in Hb as [Hb1 Hb2].
      destruct (qi_live _ _ Hq b Hb2) as (tb & hb & Htb & Hub & Hhb & Hgb & Hsb).
      destruct (cancel_lookup _ _ _ _ Hr2 Htb) as (tb2 & Htb2 & Hstb).
      exists tb2, hb. rewrite Htab4, Hobj4. cbn [ts_pool s3 set_timers]. rewrite E3, Hp1. cbn [pool_table pool_objs].
      assert (Hub2 : usage tb2 = usage tb) by (clear - Hstb; destruct tb, tb2; by injection Hstb).
      split_and!; [|lia|lia|done|done|].
      * unfold put_result in Hres. destruct (usage t2 =? 1); destruct Hres as [-> _]; cbn;
          [by rewrite lookup_delete_ne|by rewrite lookup_insert_ne].
      * rewrite list_lookup_insert_ne; [done|]. intros Heq. rewrite <-Heq, Hslot in Hsb. congruence.
  - destruct (id_lookup_ok _ h Hwf4) as (o & Ho & _ & Hne). unfold timer_lookup. rewrite Ho.
    destruct (Z.eq_dec o 0) as [->|Ho0]; [done|]. destruct (Hne Ho0) as (Ht & _).
    rewrite Htab4 in Ht. cbn [ts_pool s3 set_timers] in Ht. rewrite E3 in Ht.
    change (get_id h) with (get_timer_id h) in Ht. rewrite Hslot1 in Ht. congruence.
  - intros Hu1. unfold put_result in Hres. rewrite Hu2, Hu1 in Hres. change (1 =? 1) with true in Hres. cbv iota in Hres.
    destruct Hres as [-> Hfree]. split; [apply lookup_delete_eq|done].
Qed.
End Kill.
