(* ===== verification/TimerSpec.v ===== *)
(** * The theorems on timers *)
From S2P Require Import Prelude Bitmap IdPool RbTree RbModel RbRefine RbInsert RbErase RbProps.
From S2P Require Import Timer TimerList TimerProps TimerLife.
#[local] Open Scope aosl_scope.

(** ** Setting a timer *)

Lemma q_inv_sched s l s' l' a iv e :
  q_inv s l -> sched_inv s' l' -> sched_frame s s' a iv e -> (forall b, b ∈ l' -> b ∈ ts_timers s) -> q_inv s' l'.
Proof.
  intros [H1 H2 H3 H4 H5 H6] Hi ((t & t' & Ht & Ht' & Hst) & Hb & E1 & E2 & E3 & _) Hin.
  split; rewrite ?E1, ?E2, ?E3; try done.
  intros b Hbt. destruct (H6 b Hbt) as (tb & hb & Htb & Hu & Hrest).
  destruct (decide (b = a)) as [->|Hne].
  - rewrite Ht in Htb. injection Htb as <-. exists t', hb. split; [done|].
    replace (usage t') with (usage t) by (clear - Hst; destruct t, t'; by injection Hst). done.
  - destruct (strip_lookup _ _ _ _ (Hb b Hne) Htb) as (tb' & Htb' & Hstb). exists tb', hb. split; [done|].
    replace (usage tb') with (usage tb) by (clear - Hstb; destruct tb, tb'; by injection Hstb). done.
Qed.

Lemma set_timer_wp clock fuel s l a nd junk m1 m2 m3 ival expire f d args :
  q_inv s l -> ts_tmr s !! a = None -> mem (ts_rb s) !! a = None -> a ∉ pool_table (ts_pool s) ->
  0 < a -> a mod 4 = 0 -> enough l fuel ->
  let t := MkTimer AOSL_LIST_POISON2 AOSL_LIST_POISON1 1 (ts_qid s) ival ULLONG_MAX f d args in
  let '(iv, e) := sched_target clock s t expire in
  wp (__set_timer_on_q clock fuel (Some (a, (nd, junk))) m1 m2 m3 ival expire f d args) s (fun r s' =>
    (r = a /\ q_inv s' (place (later (ts_tmr s) e) a l) /\ ts_timers s' = ts_timers s ++ [a] /\
     (exists t', ts_tmr s' !! a = Some t' /\ strip t' = strip (upd_expire e (upd_interval iv t))) /\
     (exists h, pool_objs (ts_pool s') !! a = Some h /\ timer_lookup h (ts_pool s') = Ret (a, ts_pool s'))) \/
    ((r = - AOSL_EOVERFLOW \/ r = - AOSL_ENOMEM) /\ s' = s)).
Proof.
  intros Hq Ha Hm Hn H0 H4 He t. destruct (sched_target clock s t expire) as [iv e] eqn:Et.
  unfold __set_timer_on_q. wstep create_timer_wp; [done..|]. intros r s1 [Hc|[Hr ->]].
  2: { replace (IS_ERR r) with true.
       - apply wp_bind, wp_ret, wp_ret. by right.
       - symmetry. unfold IS_ERR, AOSL_EOVERFLOW, AOSL_ENOMEM, AOSL_EBASE in *. destruct Hr as [-> | ->]; done. }
  destruct Hc as (-> & Hq1 & Htm & Htmr & Hlook & _ & Hrd).
  replace (IS_ERR a) with false by (symmetry; apply andb_false_intro2, Z.ltb_ge; lia). cbn [negb].
  assert (Hal : a ∉ l).
  { intros Hin. destruct (sched_timer _ _ _ (qi_sched _ _ Hq) Hin) as [? ?]. congruence. }
  wstep (sched_timer_wp clock fuel s1 l a t expire); [apply Hq1|by rewrite Htmr, lookup_insert_eq|done|done|].
  assert (Et1 : sched_target clock s1 t expire = (iv, e)) by (unfold sched_target in *; by rewrite Hrd).
  rewrite Et1. intros _ s2 [Hi2 Hf2]. apply wp_ret. left. split; [done|].
  rewrite (place_ext _ (later (ts_tmr s) e)) in Hi2.
  2: { rewrite Htmr. by apply later_insert. }
  pose proof Hf2 as (Hat & Hb & E1 & E2 & E3 & E4). split_and!.
  - eapply q_inv_sched; [exact Hq1|exact Hi2|exact Hf2|].
    intros b [->|Hbl]%place_notin; rewrite Htm; [set_solver|]. apply elem_of_app. left. by apply (qi_in _ _ Hq).
  - congruence.
  - destruct Hat as (t1 & t2 & Ht1 & Ht2 & Hst). rewrite Htmr, lookup_insert_eq in Ht1. injection Ht1 as <-. eauto.
  - rewrite E3. done.
Qed.

(** ** A queue for the witnesses *)

Definition idle_stack : mpq_stack := MkStk 0 0 0 0 0 0.
Definition demo_q : tstate := MkTs (MkRb ∅ 0 0) 0 ∅ [] 0 (demo_pool 0) 7 idle_stack 0 0 [].
Definition demo_node : aosl_rb_node := MkNode 0 0 0.
Definition demo_junk : timer_node := MkTimer 0 0 0 0 0 0 0 0 [].
Definition demo_clock : nat -> Z := fun _ => 1000.
Definition noting_func : Z -> Z -> Z -> list Z -> CM tstate unit := fun f h now args => modify (fun s => set_calls (ts_calls s ++ [(f, h, now, args)]) s).
Definition quiet_dtor : Z -> list Z -> CM tstate unit := fun _ _ => cret tt.

Lemma demo_q_inv : q_inv demo_q [].
Proof.
  split; cbn.
  - split; cbn; try done; [|constructor|set_solver..].
    exists ∅, E, 0%nat. split; [|split; [constructor|done]]. unfold rb_rep, zrep. cbn. split_and!; try done. split; constructor.
  - apply demo_pool_wf.
  - constructor.
  - done.
  - set_solver.
  - set_solver.
Qed.

(** The queue after [n] timers were set, at addresses 4096, 8192, ..., with
    intervals 300, 200, 100. *)
Definition demo_set (a ival : Z) (s : tstate) : tstate :=
  run_state (__set_timer_on_q demo_clock 8 (Some (a, (demo_node, demo_junk))) true true true ival 0 1 0 [5]) s.
Definition demo_q1 : tstate := demo_set 4096 300 demo_q.
Definition demo_q2 : tstate := demo_set 8192 200 demo_q1.

Lemma demo_set_inv s l a ival s' :
  q_inv s l -> ts_tmr s !! a = None -> mem (ts_rb s) !! a = None -> a ∉ pool_table (ts_pool s) ->
  0 < a -> a mod 4 = 0 -> enough l 8 -> 0 <= ival < 1000 ->
  __set_timer_on_q demo_clock 8 (Some (a, (demo_node, demo_junk))) true true true ival 0 1 0 [5] s = Ret (a, s') ->
  q_inv (demo_set a ival s) (place (later (ts_tmr s) (1000 + ival)) a l).
Proof.
  intros Hq Ha Hm Hn H0 H4 He Hiv Hrun.
  pose proof (set_timer_wp demo_clock 8 s l a demo_node demo_junk true true true ival 0 1 0 [5] Hq Ha Hm Hn H0 H4 He) as Hw.
  cbv zeta in Hw. unfold sched_target in Hw. cbn [interval] in Hw. change (0 =? 0) with true in Hw. cbv iota in Hw.
  rewrite (proj2 (Z.eqb_neq ival _)) in Hw by (unfold AOSL_INVALID_TIMER_INTERVAL; lia).
  change (demo_clock (ts_reads s)) with 1000 in Hw. rewrite (wrapu_id 64 1000), wrapu_id in Hw by lia.
  unfold wp in Hw. unfold demo_set, run_state. rewrite Hrun in Hw |- *.
  destruct Hw as [(_ & ? & _)|[Hr _]]; [done|].
  unfold AOSL_EOVERFLOW, AOSL_ENOMEM, AOSL_EBASE in Hr. lia.
Qed.

Lemma demo_q1_inv : q_inv demo_q1 [4096].
Proof.
  eapply (demo_set_inv demo_q [] 4096 300); [apply demo_q_inv|done|done|not_in_list|lia|done|unfold enough; cbn; lia|lia|].
  vm_compute. reflexivity.
Qed.

Lemma demo_q2_inv : q_inv demo_q2 [8192; 4096].
Proof.
  eapply (demo_set_inv demo_q1 [4096] 8192 200); [apply demo_q1_inv|by vm_compute|by vm_compute|not_in_list|lia|done|unfold enough; cbn; lia|lia|].
  vm_compute. reflexivity.
Qed.

(** ** The theorems *)

(** Setting a timer either fails with [-AOSL_EOVERFLOW] or [-AOSL_ENOMEM]
    and changes nothing, or adds the timer to the queue with a handle that
    resolves to it and schedules it: tree and linked list hold the same
    sequence, sorted by expiry time, the new timer after every timer that
    expires no later and before every one that expires later. *)
Theorem timer_set_correct clock fuel s l a nd junk m1 m2 m3 ival f d args
  (Hq : q_inv s l) (Ha : ts_tmr s !! a = None) (Hm : mem (ts_rb s) !! a = None)
  (Hn : a ∉ pool_table (ts_pool s)) (H0 : 0 < a) (H4 : a mod 4 = 0) (He : enough l fuel)
  (Hiv : 0 <= ival < 2 ^ 62) (Hc : 0 <= clock (ts_reads s) < 2 ^ 62) :
  exists r s', __set_timer_on_q clock fuel (Some (a, (nd, junk))) m1 m2 m3 ival 0 f d args s = Ret (r, s') /\
    (((r = - AOSL_EOVERFLOW \/ r = - AOSL_ENOMEM) /\ s' = s) \/
     (r = a /\ exists L R, l = L ++ R /\ q_inv s' (L ++ a :: R) /\ ts_timers s' = ts_timers s ++ [a] /\
       expire_of (ts_tmr s') a = clock (ts_reads s) + ival /\
       Forall (fun b => expire_of (ts_tmr s) b <= clock (ts_reads s) + ival) L /\
       Forall (fun b => clock (ts_reads s) + ival < expire_of (ts_tmr s) b) R /\
       exists h, pool_objs (ts_pool s') !! a = Some h /\ timer_lookup h (ts_pool s') = Ret (a, ts_pool s'))).
Proof.
  pose proof (set_timer_wp clock fuel s l a nd junk m1 m2 m3 ival 0 f d args Hq Ha Hm Hn H0 H4 He) as Hw.
  cbv zeta in Hw. unfold sched_target in Hw. cbn [interval] in Hw. change (0 =? 0) with true in Hw. cbv iota in Hw.
  rewrite (proj2 (Z.eqb_neq ival _)) in Hw by (unfold AOSL_INVALID_TIMER_INTERVAL; lia).
  rewrite (wrapu_id 64 (clock _)), wrapu_id in Hw by lia.
  apply wp_elim in Hw as (r & s' & Hr & Hcase). exists r, s'. split; [done|].
  destruct Hcase as [(-> & Hq' & Htm & (t' & Ht' & Hst) & Hlook)|?]; [right|by left]. split; [done|].
  set (e := clock (ts_reads s) + ival) in *.
  assert (Hspl : exists L R, l = L ++ R /\ split_at (later (ts_tmr s) e) L R).
  { pose proof (si_sorted _ _ (qi_sched _ _ Hq)) as Hs. clear - Hs. unfold sorted_by in Hs.
    induction Hs as [|b l Hl (L & R & -> & HL & HR) HF]; [by exists [], []|].
    destruct (Z.le_gt_cases (later (ts_tmr s) e b) 0).
    - exists (b :: L), R. split; [done|]. split; [by constructor|done].
    - exists [], (b :: L ++ R). split; [done|]. split; [done|]. constructor; [lia|].
      eapply Forall_impl; [done|]. unfold later in *. cbn. lia. }
  destruct Hspl as (L & R & -> & Hsp). rewrite place_split in Hq' by done. exists L, R.
  destruct Hsp as [HL HR]. unfold later in HL, HR. split_and!; try done.
  - unfold expire_of. rewrite Ht'. by apply strip_interval in Hst as [_ ->].
  - eapply Forall_impl; [done|]. cbn. lia.
  - eapply Forall_impl; [done|]. cbn. lia.
Qed.

Lemma timer_set_correct_witness :
  exists r s', __set_timer_on_q demo_clock 8 (Some (12288, (demo_node, demo_junk))) true true true 250 0 1 0 [6] demo_q2 = Ret (r, s') /\
    (((r = - AOSL_EOVERFLOW \/ r = - AOSL_ENOMEM) /\ s' = demo_q2) \/
     (r = 12288 /\ exists L R, [8192; 4096] = L ++ R /\ q_inv s' (L ++ 12288 :: R) /\
       ts_timers s' = ts_timers demo_q2 ++ [12288] /\
       expire_of (ts_tmr s') 12288 = demo_clock (ts_reads demo_q2) + 250 /\
       Forall (fun b => expire_of (ts_tmr demo_q2) b <= demo_clock (ts_reads demo_q2) + 250) L /\
       Forall (fun b => demo_clock (ts_reads demo_q2) + 250 < expire_of (ts_tmr demo_q2) b) R /\
       exists h, pool_objs (ts_pool s') !! 12288 = Some h /\ timer_lookup h (ts_pool s') = Ret (12288, ts_pool s'))).
Proof.
  apply (timer_set_correct demo_clock 8 demo_q2 [8192; 4096] 12288 demo_node demo_junk true true true 250 1 0 [6]);
    [apply demo_q2_inv|by vm_compute|by vm_compute|not_in_list|lia|done|unfold enough; cbn; lia|lia|unfold demo_clock; lia].
Defined.

(** Rescheduling moves a timer, scheduled or not, to the place of its new
    expiry time, and cancelling takes it out of the schedule; in both cases
    the tree, the linked list and the "not scheduled" marks stay consistent
    and no field of another timer changes but the links. *)
Theorem timer_resched_cancel_correct clock fuel s l a t ival expire
  (Hi : sched_inv s l) (Ha : ts_tmr s !! a = Some t) (He : enough l fuel) :
  let '(iv, e) := sched_target clock s (resched_fields t ival expire) expire in
  (exists s', __resched_timer clock fuel a ival expire s = Ret (tt, s') /\
     sched_inv s' (place (later (ts_tmr s) e) a (filter (fun x => x <> a) l)) /\ sched_frame s s' a iv e) /\
  (exists s', __cancel_timer_on_q fuel a s = Ret (tt, s') /\
     sched_inv s' (filter (fun x => x <> a) l) /\ relinked s s').
Proof.
  pose proof (resched_wp clock fuel s l a t ival expire Hi Ha He) as Hw. destruct (sched_target _ _ _ _) as [iv e].
  split.
  - apply wp_elim in Hw as ([] & s' & ? & ?). eauto.
  - destruct (wp_elim _ _ _ (cancel_wp fuel s l a t Hi Ha He)) as ([] & s' & ? & ?). eauto.
Qed.

Lemma timer_resched_cancel_correct_witness : exists t, ts_tmr demo_q2 !! 8192 = Some t /\
  let '(iv, e) := sched_target demo_clock demo_q2 (resched_fields t 500 0) 0 in
  (exists s', __resched_timer demo_clock 8 8192 500 0 demo_q2 = Ret (tt, s') /\
     sched_inv s' (place (later (ts_tmr demo_q2) e) 8192 (filter (fun x => x <> 8192) [8192; 4096])) /\
     sched_frame demo_q2 s' 8192 iv e) /\
  (exists s', __cancel_timer_on_q 8 8192 demo_q2 = Ret (tt, s') /\
     sched_inv s' (filter (fun x => x <> 8192) [8192; 4096]) /\ relinked demo_q2 s').
Proof.
  destruct (ts_tmr demo_q2 !! 8192) as [t|] eqn:Ht; [|vm_compute in Ht; discriminate].
  exists t. split; [reflexivity|].
  apply (timer_resched_cancel_correct demo_clock 8 demo_q2 [8192; 4096] 8192 t 500 0 (qi_sched _ _ demo_q2_inv) Ht).
  unfold enough. cbn. lia.
Defined.

(** C12: [__check_and_run_timers], when the timer functions leave the queue alone (they are
    free to do anything else, here they note that they were called), time does not run
    backwards, and the timers have expiry times below 2^63 and intervals of at least 1 and
    below 2^62.  The loop terminates after at most as many iterations as the timers are
    behind, in ticks; it calls the functions of the timers [F], with their handles, the time
    and their arguments, and counts the calls; [F] are the scheduled timers that are due, the
    one-shot ones exactly once; then no scheduled timer is due, the periodic timers are still
    scheduled, the due one-shot timers are not, and those that were not due are. *)
Theorem run_due_timers_correct clock fuel call_func s l now iters
  (Hpas : recording call_func) (Hcl : forall n, now <= clock n < 2 ^ 62) (Hnow : 0 <= now)
  (Hri : run_inv fuel now s l) (Hbeh : (behind now (ts_tmr s) l < iters)%nat) :
  exists c s' l', run_timers_loop clock call_func fuel iters now 0 s = Ret (c, s') /\ sched_inv s' l' /\
    (forall a, a ∈ l' -> now < expire_of (ts_tmr s') a) /\
    (forall b, b ∈ l' <-> b ∈ l /\ (periodic (ts_tmr s) b \/ now < expire_of (ts_tmr s) b)) /\
    (exists F, ts_calls s' = ts_calls s ++ map (call_of s now) F /\ due_called now s l F /\ c = Z.of_nat (length F)) /\
    0 <= c <= Z.of_nat (behind now (ts_tmr s) l).
Proof.
  destruct (wp_elim _ _ _ (run_loop_wp clock fuel call_func now iters 0 s l Hpas Hcl Hnow Hri Hbeh))
    as (c & s' & Hr & l' & Hri' & H1 & H2 & HF & H3).
  exists c, s', l'. split_and!; try done; [apply Hri'|lia|lia].
Qed.

Lemma demo_run_inv : run_inv 8 1250 demo_q2 [8192; 4096].
Proof.
  split.
  - apply demo_q2_inv.
  - unfold enough. cbn. lia.
  - intros a [->|[->|[]%elem_of_nil]%elem_of_cons]%elem_of_cons; eexists; (split; [vm_compute; reflexivity|]); cbn; lia.
  - intros a [->|[->|[]%elem_of_nil]%elem_of_cons]%elem_of_cons; eexists; vm_compute; reflexivity.
Qed.

Lemma run_due_timers_correct_witness :
  exists c s' l', run_timers_loop (fun _ => 1250) noting_func 8 60 1250 0 demo_q2 = Ret (c, s') /\ sched_inv s' l' /\
    (forall a, a ∈ l' -> 1250 < expire_of (ts_tmr s') a) /\
    (forall b, b ∈ l' <-> b ∈ [8192; 4096] /\ (periodic (ts_tmr demo_q2) b \/ 1250 < expire_of (ts_tmr demo_q2) b)) /\
    (exists F, ts_calls s' = ts_calls demo_q2 ++ map (call_of demo_q2 1250) F /\ due_called 1250 demo_q2 [8192; 4096] F /\ c = Z.of_nat (length F)) /\
    0 <= c <= Z.of_nat (behind 1250 (ts_tmr demo_q2) [8192; 4096]).
Proof.
  apply (run_due_timers_correct (fun _ => 1250) 8 noting_func demo_q2 [8192; 4096] 1250 60);
    [done|intros; lia|lia|apply demo_run_inv|vm_compute; lia].
Defined.

(** A periodic timer that is [k] whole periods late fires [k + 1] times in
    one call of [__check_and_run_timers]: the new expiry time is the old one
    plus the interval, so missed periods are made up one by one, although
    the comment in the code says that the expression was chosen to avoid
    that. *)
Theorem periodic_timer_catches_up clock fuel call_func s a t now k iters
  (Hpas : recording call_func) (Hcl : forall n, clock n = now) (Hnow : 0 <= now < 2 ^ 62)
  (Hri : run_inv fuel now s [a]) (Ha : ts_tmr s !! a = Some t)
  (Hper : interval t <> AOSL_INVALID_TIMER_INTERVAL) (Hk : 0 <= k)
  (Hlate : expire_time t + interval t * k <= now < expire_time t + interval t * (k + 1))
  (Hit : (Z.to_nat k + 2 <= iters)%nat) :
  exists s', run_timers_loop clock call_func fuel iters now 0 s = Ret (k + 1, s') /\
    expire_of (ts_tmr s') a = expire_time t + interval t * (k + 1).
Proof.
  destruct (wp_elim _ _ _ (catch_up_wp clock fuel call_func now iters k 0 s a t Hpas Hcl Hnow Hri Ha Hper Hk Hlate Hit))
    as (c & s' & Hr & -> & He). eauto.
Qed.

Lemma demo_run_inv1 : run_inv 8 2000 demo_q1 [4096].
Proof.
  split.
  - apply demo_q1_inv.
  - unfold enough. cbn. lia.
  - intros a ->%list_elem_of_singleton; eexists; (split; [vm_compute; reflexivity|]); cbn; lia.
  - intros a ->%list_elem_of_singleton; eexists; vm_compute; reflexivity.
Qed.

Lemma periodic_timer_catches_up_witness : exists t, ts_tmr demo_q1 !! 4096 = Some t /\
  exists s', run_timers_loop (fun _ => 2000) noting_func 8 5 2000 0 demo_q1 = Ret (2 + 1, s') /\
    expire_of (ts_tmr s') 4096 = expire_time t + interval t * (2 + 1).
Proof.
  eexists. split; [vm_compute; reflexivity|].
  eapply (periodic_timer_catches_up (fun _ => 2000) 8 noting_func demo_q1 4096 _ 2000 2 5);
    [done|done|lia|apply demo_run_inv1|vm_compute; reflexivity|cbn; unfold AOSL_INVALID_TIMER_INTERVAL; lia|lia|cbn; lia|cbn; lia].
Defined.

(** Killing a timer of the queue succeeds, takes it out of the schedule
    and of the queue's list, and its handle no longer resolves; when nobody
    else holds a reference the timer is freed and its id is free again. *)
Theorem timer_kill_correct fuel call_dtor s l a t h
  (Hd : forall d args s, call_dtor d args s = Ret (tt, s)) (Hq : q_inv s l) (Hin : a ∈ ts_timers s)
  (Ha : ts_tmr s !! a = Some t) (Hh : pool_objs (ts_pool s) !! a = Some h) (He : enough l fuel) :
  exists s', __kill_timer_on_q call_dtor fuel a s = Ret (0, s') /\
    q_inv s' (filter (fun x => x <> a) l) /\ ts_timers s' = filter (fun x => x <> a) (ts_timers s) /\
    timer_lookup h (ts_pool s') = Ret (0, ts_pool s') /\
    (usage t = 1 -> ts_tmr s' !! a = None /\ id_used (ts_pool s') (get_timer_id h) = false).
Proof.
  destruct (wp_elim _ _ _ (kill_timer_wp fuel call_dtor Hd s l a t h Hq Hin Ha Hh He)) as (r & s' & Hr & -> & H). eauto.
Qed.

Lemma timer_kill_correct_witness : exists t h, ts_tmr demo_q2 !! 4096 = Some t /\
  pool_objs (ts_pool demo_q2) !! 4096 = Some h /\
  exists s', __kill_timer_on_q quiet_dtor 8 4096 demo_q2 = Ret (0, s') /\
    q_inv s' (filter (fun x => x <> 4096) [8192; 4096]) /\
    ts_timers s' = filter (fun x => x <> 4096) (ts_timers demo_q2) /\
    timer_lookup h (ts_pool s') = Ret (0, ts_pool s') /\
    (usage t = 1 -> ts_tmr s' !! 4096 = None /\ id_used (ts_pool s') (get_timer_id h) = false).
Proof.
  do 2 eexists. split; [vm_compute; reflexivity|]. split; [vm_compute; reflexivity|].
  apply (timer_kill_correct 8 quiet_dtor demo_q2 [8192; 4096] 4096);
    [done|apply demo_q2_inv| |vm_compute; reflexivity|vm_compute; reflexivity|unfold enough; cbn; lia].
  replace (ts_timers demo_q2) with [4096; 8192] by (vm_compute; reflexivity). set_solver.
Defined.

(** A one-shot timer set on a queue with expiry time 0 is not rejected
    (the variant for the current queue rejects it with [AOSL_EINVAL]); it is
    given the largest expiry time, which means "never" in the order of the
    timers but counts as due at any moment, so it fires as soon as it is the
    first. *)
Theorem oneshot_on_q_zero_fires_at_once clock fuel s l a nd junk m1 m2 m3 f d args now (Q : Queues) qid
  (Hq : q_inv s l) (Ha : ts_tmr s !! a = None) (Hm : mem (ts_rb s) !! a = None)
  (Hn : a ∉ pool_table (ts_pool s)) (H0 : 0 < a) (H4 : a mod 4 = 0) (He : enough l fuel)
  (Hnow : 0 <= now < 2 ^ 63 - 1) (Hf : f <> 0) (Hargs : Z.of_nat (length args) <= MPQ_ARGC_MAX)
  (Hex : q_exists qid = true)
  (Hcall : forall A (c : CM tstate A) s, mpq_call qid c s = (do x <- c; cret (Some x)) s) :
  aosl_mpq_set_oneshot_timer clock fuel (Some (a, (nd, junk))) m1 m2 m3 0 f d args s =
    Ret (-1, set_errno AOSL_EINVAL s) /\
  exists r s', aosl_mpq_set_oneshot_timer_on_q clock fuel (Some (a, (nd, junk))) m1 m2 m3 qid 0 f d args s = Ret (r, s') /\
    (r = -1 /\ (ts_errno s' = AOSL_EOVERFLOW \/ ts_errno s' = AOSL_ENOMEM) \/
     expire_of (ts_tmr s') a = 2 ^ 64 - 1) /\
    time_after_eq now (2 ^ 64 - 1) = true.
Proof.
  assert (Hguard : (f =? 0) = false /\ (MPQ_ARGC_MAX <? Z.of_nat (length args)) = false).
  { split; [by apply Z.eqb_neq|by apply Z.ltb_ge]. }
  destruct Hguard as [Hf0 Ha0]. split; [unfold aosl_mpq_set_oneshot_timer; by rewrite Hf0, Ha0|].
  pose proof (set_timer_wp clock fuel s l a nd junk m1 m2 m3 AOSL_INVALID_TIMER_INTERVAL 0 f d args Hq Ha Hm Hn H0 H4 He) as Hw.
  cbv zeta in Hw. unfold sched_target in Hw. cbn [interval] in Hw.
  rewrite Z.eqb_refl in Hw. change (0 =? 0) with true in Hw. cbv iota in Hw.
  apply wp_elim in Hw as (r & s' & Hr & Hcase).
  assert (Hdue : time_after_eq now (2 ^ 64 - 1) = true).
  { unfold time_after_eq. apply Z.leb_le. unfold wraps.
    replace (now - (2 ^ 64 - 1) + 2 ^ (64 - 1)) with ((now + 1 + 2 ^ 63) + (-1) * 2 ^ 64) by lia.
    rewrite Z.mod_add by lia. rewrite Z.mod_small; lia. }
  unfold aosl_mpq_set_oneshot_timer_on_q, mpq_set_timer_on_q_args, timer_on_q, ____target_q_set_timer. rewrite Hf0, Ha0, Hex. cbn [negb].
  unfold cbind at 1. rewrite Hcall. unfold cbind at 1. cbn [from_option id]. rewrite Hr. cbn [cret]. run.
  unfold return_timer. destruct Hcase as [(-> & _ & _ & (t' & Ht' & Hst) & (h & Hh & _))|[Hneg ->]].
  - replace (IS_ERR a) with false by (symmetry; apply andb_false_intro2, Z.ltb_ge; lia).
    unfold timer_obj_id. run. rewrite Hh. do 2 eexists. split; [done|]. split; [right|done].
    unfold expire_of. rewrite Ht'. by apply strip_interval in Hst as [_ ->].
  - replace (IS_ERR r) with true
      by (symmetry; unfold IS_ERR, AOSL_EOVERFLOW, AOSL_ENOMEM, AOSL_EBASE in *; by destruct Hneg as [-> | ->]).
    do 2 eexists. split; [done|]. split; [left|done]. split; [done|]. cbn.
    destruct Hneg as [-> | ->]; [left|right]; lia.
Qed.

(** Queues on which every call runs, for the witnesses. *)
Program Definition demo_queues : Queues := {|
  has_current := true; q_exists := fun _ => true;
  mpq_call := fun A _ f => (do a <- f; cret (Some a))
|}.
Next Obligation. intros. by left. Qed.

Lemma oneshot_on_q_zero_fires_at_once_witness :
  aosl_mpq_set_oneshot_timer demo_clock 8 (H := demo_queues) (Some (4096, (demo_node, demo_junk))) true true true 0 1 0 [5] demo_q =
    Ret (-1, set_errno AOSL_EINVAL demo_q) /\
  exists r s', aosl_mpq_set_oneshot_timer_on_q demo_clock 8 (H := demo_queues) (Some (4096, (demo_node, demo_junk))) true true true
      7 0 1 0 [5] demo_q = Ret (r, s') /\
    (r = -1 /\ (ts_errno s' = AOSL_EOVERFLOW \/ ts_errno s' = AOSL_ENOMEM) \/
     expire_of (ts_tmr s') 4096 = 2 ^ 64 - 1) /\
    time_after_eq 1000 (2 ^ 64 - 1) = true.
Proof.
  apply (oneshot_on_q_zero_fires_at_once demo_clock 8 demo_q [] 4096);
    [apply demo_q_inv|done|done|not_in_list|lia|done|unfold enough; cbn; lia|lia|lia|cbn; unfold MPQ_ARGC_MAX; lia|done|done].
Defined.
