(* ===== verification/Mpq.v ===== *)
(** * The function queue of a multiplex queue: [kernel/mpq.c], [kernel/osmp.c]

    A multiplex queue is a thread with a linked list of function objects.
    Any thread appends to the list under the lock of the queue and wakes the
    queue's thread through a pipe (or an event); the queue's thread takes the
    whole list at once and runs its functions.  This file has the state and
    the code between two points where threads can interleave: each definition
    that starts with [add_f_], [mp_kick_], [take_], [process_], [poll_] is one
    section of the function named in its comment that runs under the lock, or
    makes one access to a shared word.  [MpqProto] interleaves them. *)
From S2P Require Import Prelude.
#[local] Open Scope aosl_scope.

(** ** Data *)

(** What a caller asks to be run: [done_qid], [ref], [f], [argc] and the words
    of [argv] of [struct q_func_obj]. *)
Record call := MkCall {
  c_done_qid : Z;
  c_ref : Z;
  c_f : Z;
  c_argc : Z;
  c_argv : list Z
}.
#[export] Instance call_eq_dec : EqDecision call.
Proof. solve_decision. Defined.

(** [struct q_func_obj]; [fo_sync] is [sync_obj], the synchronization object
    in the frame of the calling thread, named by that thread. *)
Record q_func_obj := MkFo {
  fo_next : Z;
  fo_queued_ts : Z;
  fo_sync : option nat;
  fo_call : call
}.

(** The part of [struct mp_queue] that several threads use, with the memory
    of the function objects, the synchronization objects of the threads that
    wait for a call ([true]: the result is [FO_EXECUTED]), and the signals in
    the pipe (or, with [AOSL_MPQ_FLAG_SIGP_EVENT], 1 when the event is set).
    Counters of objects and threads are not wrapped: memory bounds them. *)
Record mp_queue := MkQ {
  q_head : Z;
  q_tail : Z;
  q_count : Z;
  kick_q_count : Z;
  need_kicking : bool;
  terminated : bool;
  wait_q_count : Z;
  q_usage : Z;
  q_installed : bool;
  q_fos : gmap Z q_func_obj;
  q_syncs : gmap nat bool;
  q_pipe : Z
}.

Definition w_head (x : Z) (q : mp_queue) : mp_queue :=
  MkQ x (q_tail q) (q_count q) (kick_q_count q) (need_kicking q) (terminated q) (wait_q_count q) (q_usage q) (q_installed q) (q_fos q) (q_syncs q) (q_pipe q).
Definition w_tail (x : Z) (q : mp_queue) : mp_queue :=
  MkQ (q_head q) x (q_count q) (kick_q_count q) (need_kicking q) (terminated q) (wait_q_count q) (q_usage q) (q_installed q) (q_fos q) (q_syncs q) (q_pipe q).
Definition w_count (x : Z) (q : mp_queue) : mp_queue :=
  MkQ (q_head q) (q_tail q) x (kick_q_count q) (need_kicking q) (terminated q) (wait_q_count q) (q_usage q) (q_installed q) (q_fos q) (q_syncs q) (q_pipe q).
Definition w_kick_q_count (x : Z) (q : mp_queue) : mp_queue :=
  MkQ (q_head q) (q_tail q) (q_count q) x (need_kicking q) (terminated q) (wait_q_count q) (q_usage q) (q_installed q) (q_fos q) (q_syncs q) (q_pipe q).
Definition w_need_kicking (x : bool) (q : mp_queue) : mp_queue :=
  MkQ (q_head q) (q_tail q) (q_count q) (kick_q_count q) x (terminated q) (wait_q_count q) (q_usage q) (q_installed q) (q_fos q) (q_syncs q) (q_pipe q).
Definition w_terminated (x : bool) (q : mp_queue) : mp_queue :=
  MkQ (q_head q) (q_tail q) (q_count q) (kick_q_count q) (need_kicking q) x (wait_q_count q) (q_usage q) (q_installed q) (q_fos q) (q_syncs q) (q_pipe q).
Definition w_wait_q_count (x : Z) (q : mp_queue) : mp_queue :=
  MkQ (q_head q) (q_tail q) (q_count q) (kick_q_count q) (need_kicking q) (terminated q) x (q_usage q) (q_installed q) (q_fos q) (q_syncs q) (q_pipe q).
Definition w_usage (x : Z) (q : mp_queue) : mp_queue :=
  MkQ (q_head q) (q_tail q) (q_count q) (kick_q_count q) (need_kicking q) (terminated q) (wait_q_count q) x (q_installed q) (q_fos q) (q_syncs q) (q_pipe q).
Definition w_installed (x : bool) (q : mp_queue) : mp_queue :=
  MkQ (q_head q) (q_tail q) (q_count q) (kick_q_count q) (need_kicking q) (terminated q) (wait_q_count q) (q_usage q) x (q_fos q) (q_syncs q) (q_pipe q).
Definition w_fos (x : gmap Z q_func_obj) (q : mp_queue) : mp_queue :=
  MkQ (q_head q) (q_tail q) (q_count q) (kick_q_count q) (need_kicking q) (terminated q) (wait_q_count q) (q_usage q) (q_installed q) x (q_syncs q) (q_pipe q).
Definition w_syncs (x : gmap nat bool) (q : mp_queue) : mp_queue :=
  MkQ (q_head q) (q_tail q) (q_count q) (kick_q_count q) (need_kicking q) (terminated q) (wait_q_count q) (q_usage q) (q_installed q) (q_fos q) x (q_pipe q).
Definition w_pipe (x : Z) (q : mp_queue) : mp_queue :=
  MkQ (q_head q) (q_tail q) (q_count q) (kick_q_count q) (need_kicking q) (terminated q) (wait_q_count q) (q_usage q) (q_installed q) (q_fos q) (q_syncs q) x.

Definition modq (f : mp_queue -> mp_queue) : CM mp_queue unit := do q <- cget; cput (f q).

(** [*fo]; an access to a freed object is a fault. *)
Definition fo_get (a : Z) : CM mp_queue q_func_obj :=
  do q <- cget; match q_fos q !! a with Some fo => cret fo | None => cfault end.
Definition fo_set (a : Z) (fo : q_func_obj) : CM mp_queue unit :=
  do _ <- fo_get a; modq (fun q => w_fos (<[a := fo]> (q_fos q)) q).

Definition with_next (n : Z) (fo : q_func_obj) : q_func_obj := MkFo n (fo_queued_ts fo) (fo_sync fo) (fo_call fo).
Definition with_ts (ts : Z) (fo : q_func_obj) : q_func_obj := MkFo (fo_next fo) ts (fo_sync fo) (fo_call fo).

Definition AOSL_MPQ_FLAG_NONBLOCK : Z := 1.
Definition AOSL_MPQ_FLAG_SIGP_EVENT : Z := 2.
Definition flag_set (flags bit : Z) : bool := negb (Z.land flags bit =? 0).

(** ** Adding a function: [____add_f] *)

Inductive add_outcome := Queued | Failed (err : Z) | Waiting.

Definition ____q_get : CM mp_queue unit := modq (fun q => w_usage (q_usage q + 1) q).
Definition ____q_put : CM mp_queue unit := modq (fun q => w_usage (q_usage q - 1) q).

(** Freeing an object that is not allocated is a fault. *)
Definition __free_fo (a : Z) : CM mp_queue unit :=
  do _ <- fo_get a; modq (fun q => w_fos (delete a (q_fos q)) q).

(** [add_f_alloc]: the function object is allocated at the address [a] and
    filled in; for a synchronous call the synchronization object of the thread
    is initialized. *)
Definition add_f_alloc (t : nat) (sync : bool) (a : Z) (c : call) (junk_next junk_ts : Z) : CM mp_queue unit :=
  modq (fun q => w_fos (<[a := MkFo junk_next junk_ts (if sync then Some t else None) c]> (q_fos q)) q) ;;
  when sync then modq (fun q => w_syncs (<[t := false]> (q_syncs q)) q).

(** Appending to the list; [ts] is the reading of the clock. *)
Definition add_f_link (fo ts : Z) : CM mp_queue unit :=
  do o <- fo_get fo;
  fo_set fo (with_next 0 o) ;;
  do q <- cget;
  (if negb (q_tail q =? 0) then
     do t <- fo_get (q_tail q);
     fo_set (q_tail q) (with_next fo t)
   else modq (w_head fo)) ;;
  modq (w_tail fo) ;;
  do o <- fo_get fo;
  fo_set fo (with_ts ts o) ;;
  modq (fun q => w_count (q_count q + 1) q).

Section Sections.
(** [q_max] and [q_flags], set when the queue is created. *)
Context (q_max q_flags : Z).

(** The body of the loop of [____add_f] after the lock is taken, up to the
    point where the lock is given up; [self_term] is
    [this_q != NULL && this_q->terminated]. *)
Definition add_f_locked (no_fail self_term : bool) (fo ts : Z) : CM mp_queue add_outcome :=
  do q <- cget;
  if no_fail || (q_count q <? q_max) then add_f_link fo ts ;; cret Queued
  else if flag_set q_flags AOSL_MPQ_FLAG_NONBLOCK then __free_fo fo ;; cret (Failed (- AOSL_EAGAIN))
  else if self_term then __free_fo fo ;; cret (Failed (- AOSL_EINTR))
  else modq (fun q => w_wait_q_count (wait_q_count q + 1) q) ;; cret Waiting.

(** The same after [k_cond_wait] returned. *)
Definition add_f_resume (no_fail self_term : bool) (fo ts : Z) : CM mp_queue add_outcome :=
  modq (fun q => w_wait_q_count (wait_q_count q - 1) q) ;;
  add_f_locked no_fail self_term fo ts.

(** [mp_kick_q] up to the call of [os_mp_kick]; the result says whether that
    call is made. *)
Definition mp_kick_check : CM mp_queue bool :=
  do q <- cget;
  if need_kicking q then modq (fun q => w_kick_q_count (kick_q_count q + 1) q) ;; cret true
  else cret false.

(** [os_mp_kick]; [wr] is the result of the write of one byte. *)
Definition os_mp_kick (wr : Z) : CM mp_queue unit :=
  if flag_set q_flags AOSL_MPQ_FLAG_SIGP_EVENT then modq (w_pipe 1)
  else if wr =? 1 then modq (fun q => w_pipe (q_pipe q + 1) q)
  else modq (fun q => w_kick_q_count (kick_q_count q - 1) q).

(** [os_drain_sigp] (and the reset of the event by [k_event_timedwait]) when
    its reads return [n] bytes in all. *)
Definition os_drain_sigp (n : Z) : CM mp_queue unit :=
  if flag_set q_flags AOSL_MPQ_FLAG_SIGP_EVENT then modq (w_pipe 0)
  else modq (fun q => w_kick_q_count (kick_q_count q - n) (w_pipe (q_pipe q - n) q)).

(** ** Running the functions: [__check_and_call_funcs], [__process_fo] *)

(** Take the whole list. *)
Definition take_funcs : CM mp_queue Z :=
  do q <- cget;
  if negb (q_head q =? 0) then modq (fun q => w_head 0 (w_tail 0 q)) ;; cret (q_head q)
  else cret 0.

(** [fo = head; head = head->next] before [__process_fo]. *)
Definition process_begin (fo : Z) : CM mp_queue Z := do o <- fo_get fo; cret (fo_next o).

(** [__process_fo] after the function returned. *)
Definition process_end (fo : Z) : CM mp_queue (option nat * call) :=
  do o <- fo_get fo;
  __free_fo fo ;;
  modq (fun q => w_count (q_count q - 1) q) ;;
  cret (fo_sync o, fo_call o).

(** [sync_obj->result = FO_EXECUTED]: a fault when the frame is gone. *)
Definition process_sync (so : option nat) : CM mp_queue unit :=
  match so with
  | None => cret tt
  | Some t =>
    do q <- cget;
    match q_syncs q !! t with
    | None => cfault
    | Some _ => modq (w_syncs (<[t := true]> (q_syncs q)))
    end
  end.

(** ** Going idle: [os_poll_dispatch] *)

Context (iofd_count : Z).

(** The first test; the result says whether the thread goes on. *)
Definition poll_enter (timeo : Z) : CM mp_queue bool :=
  do q <- cget;
  if negb (terminated q) && ((0 <? kick_q_count q) || (0 <? iofd_count) || negb (timeo =? 0))
  then modq (w_need_kicking true) ;; cret true
  else cret false.

(** The test of the queued functions: [None] returns at once, otherwise the
    time to wait. *)
Definition poll_count (timeo : Z) : CM mp_queue (option Z) :=
  do q <- cget;
  if 0 <? q_count q then
    modq (w_need_kicking false) ;;
    do q <- cget;
    if (kick_q_count q =? 0) && (iofd_count =? 0) then cret None else cret (Some 0)
  else cret (Some timeo).
End Sections.
