(* ===== verification/MpqProto.v ===== *)
(** * Threads that use a multiplex queue

    The interleavings of the threads that add functions to a queue, wake it
    and wait for it, with the thread that runs it, from its creation to its
    destruction: a step relation over the sections of [Mpq]. *)
From S2P Require Import Prelude Mpq.
#[local] Open Scope aosl_scope.

(** Where a thread is in [__mpq_get]; [____add_f]; [__mpq_put]: outside; about
    to take the lock; in [k_cond_wait]; woken from it; unlocked and about to
    call [mp_kick_q]; about to call [os_mp_kick]; waiting for the
    synchronization object; about to call [__mpq_put].  [PQueued] with
    [sync = false] is also [__mpq_destroy] after [q->terminated = 1].
    Thread 0 is the queue's own thread when it runs user code. *)
Inductive pstate :=
| PIdle
| PTry (no_fail sync : bool) (fo : Z)
| PWait (sync : bool) (fo : Z)
| PWoken (sync : bool) (fo : Z)
| PQueued (sync : bool) (fo : Z)
| PKick (sync : bool) (fo : Z)
| PSync (fo : Z)
| PDone (err : Z).

(** What [__check_and_call_funcs] returns to: [__mp_queue_poll_loop], or one
    of the two loops of [__q_wait_destroy]. *)
Inductive kont := KLoop | KEnd1 | KEnd2.

(** Where the queue's thread is. *)
Inductive cstate :=
| CLoop
| CBatch (k : kont) (head : Z)
| CRun (k : kont) (fo head : Z)
| CSyn (k : kont) (so : option nat) (head : Z)
| CSignal (k : kont) (head : Z)
| CTimers
| CPoll
| CPoll2 (timeo : Z)
| CPoll3 (timeo : Z)
| CWait (timeo : Z)
| CBlocked (timeo : Z)
| CDispatch
| CExiting
| CEnd1
| CEnd2
| CDead.

(** The system: the queue, the threads, the queue's thread, and the history
    of the calls that were queued and of those that were run. *)
Record sys := MkSys {
  sq : mp_queue;
  ths : list pstate;
  cons : cstate;
  h_in : list call;
  h_out : list call
}.

Section Proto.
Context (q_max q_flags iofd_count : Z).

(** The queue's thread runs user code: a queued function, timers, or the
    functions of file descriptors. *)
Definition user_code (c : cstate) : bool :=
  match c with CRun _ _ _ | CTimers | CDispatch => true | _ => false end.

(** Thread [t] can act: the queue's thread only from user code. *)
Definition may_act (t : nat) (c : cstate) : Prop := t = 0%nat -> user_code c = true.
(** No user code is in the middle of an addition. *)
Definition settled (l : list pstate) : Prop := l !! 0%nat = Some PIdle.

(** After the lock was given up with outcome [o]. *)
Definition after_try (t : nat) (sync : bool) (fo : Z) (o : add_outcome) : pstate :=
  match o with
  | Queued => if (t =? 0)%nat then PIdle else PQueued sync fo
  | Failed e => if (t =? 0)%nat then PIdle else PDone e
  | Waiting => PWait sync fo
  end.
Definition after_kick (sync : bool) (fo : Z) : pstate := if sync then PSync fo else PDone 0.

(** The call recorded when [o] says it was queued. *)
Definition queued_call (o : add_outcome) (q : mp_queue) (fo : Z) : list call :=
  match o, q_fos q !! fo with Queued, Some f => [fo_call f] | _, _ => [] end.

(** The synchronization object dies with the frame when the call failed. *)
Definition drop_sync (t : nat) (o : add_outcome) (q : mp_queue) : mp_queue :=
  match o with Failed _ => w_syncs (delete t (q_syncs q)) q | _ => q end.

Definition next_cons (k : kont) : cstate :=
  match k with KLoop => CTimers | KEnd1 => CEnd1 | KEnd2 => CEnd2 end.
(** After [take_funcs] returned [h]. *)
Definition taken (k : kont) (h : Z) : cstate :=
  if h =? 0 then match k with KLoop => CTimers | KEnd1 => CEnd1 | KEnd2 => CDead end else CBatch k h.
Definition waits (p : pstate) : bool := match p with PWait _ _ => true | _ => false end.
Definition wake (p : pstate) : pstate := match p with PWait s fo => PWoken s fo | _ => p end.

Inductive step : sys -> sys -> Prop :=
(** Callers. *)
| s_call t no_fail sync a c jn jt q l cs hi ho q' :
    l !! t = Some PIdle -> may_act t cs -> (t = 0%nat \/ q_installed q = true) ->
    no_fail && sync = false -> (t = 0%nat -> sync = false) ->
    a <> 0 -> q_fos q !! a = None ->
    ((when negb (t =? 0)%nat then ____q_get) ;; add_f_alloc t sync a c jn jt) q = Ret (tt, q') ->
    step (MkSys q l cs hi ho) (MkSys q' (<[t := PTry no_fail sync a]> l) cs hi ho)
| s_try t no_fail sync fo st ts o q l cs hi ho q' :
    l !! t = Some (PTry no_fail sync fo) -> may_act t cs ->
    add_f_locked q_max q_flags no_fail st fo ts q = Ret (o, q') ->
    step (MkSys q l cs hi ho)
         (MkSys (drop_sync t o q') (<[t := after_try t sync fo o]> l) cs (hi ++ queued_call o q' fo) ho)
| s_wakeup t q l cs hi ho p :
    l !! t = Some p -> waits p = true ->
    step (MkSys q l cs hi ho) (MkSys q (<[t := wake p]> l) cs hi ho)
| s_resume t sync fo st ts o q l cs hi ho q' :
    l !! t = Some (PWoken sync fo) -> may_act t cs ->
    add_f_resume q_max q_flags false st fo ts q = Ret (o, q') ->
    step (MkSys q l cs hi ho)
         (MkSys (drop_sync t o q') (<[t := after_try t sync fo o]> l) cs (hi ++ queued_call o q' fo) ho)
| s_kick_check t sync fo b q l cs hi ho q' :
    l !! t = Some (PQueued sync fo) ->
    mp_kick_check q = Ret (b, q') ->
    step (MkSys q l cs hi ho) (MkSys q' (<[t := if b then PKick sync fo else after_kick sync fo]> l) cs hi ho)
| s_kick t sync fo wr q l cs hi ho q' :
    l !! t = Some (PKick sync fo) ->
    (** a write to the pipe fails only when the pipe is full *)
    (wr <> 1 -> 0 < q_pipe q) ->
    os_mp_kick q_flags wr q = Ret (tt, q') ->
    step (MkSys q l cs hi ho) (MkSys q' (<[t := after_kick sync fo]> l) cs hi ho)
| s_sync_done t fo q l cs hi ho :
    l !! t = Some (PSync fo) -> q_syncs q !! t = Some true ->
    step (MkSys q l cs hi ho) (MkSys (w_syncs (delete t (q_syncs q)) q) (<[t := PDone 0]> l) cs hi ho)
| s_put t e q l cs hi ho q' :
    l !! t = Some (PDone e) -> ____q_put q = Ret (tt, q') ->
    step (MkSys q l cs hi ho) (MkSys q' (<[t := PIdle]> l) cs hi ho)
| s_destroy t q l cs hi ho :
    l !! t = Some PIdle -> t <> 0%nat -> q_installed q = true ->
    step (MkSys q l cs hi ho)
         (MkSys (w_terminated true (w_usage (q_usage q + 1) q)) (<[t := PQueued false 0]> l) cs hi ho)
| s_destroy_self q l cs hi ho :
    user_code cs = true -> settled l ->
    step (MkSys q l cs hi ho) (MkSys (w_terminated true q) l cs hi ho)
(** The queue's thread: [__check_and_call_funcs]. *)
| c_take k c h q l hi ho q' :
    (k = KLoop /\ c = CLoop) \/ (k = KEnd1 /\ c = CEnd1 /\ 1 < q_usage q) \/ (k = KEnd2 /\ c = CEnd2) ->
    take_funcs q = Ret (h, q') ->
    step (MkSys q l c hi ho) (MkSys q' l (taken k h) hi ho)
| c_begin k h nx q l hi ho q' :
    h <> 0 -> process_begin h q = Ret (nx, q') ->
    step (MkSys q l (CBatch k h) hi ho) (MkSys q' l (CRun k h nx) hi ho)
| c_batch_end k q l hi ho :
    step (MkSys q l (CBatch k 0) hi ho) (MkSys q l (next_cons k) hi ho)
| c_end k fo h so c q l hi ho q' :
    settled l -> process_end fo q = Ret ((so, c), q') ->
    step (MkSys q l (CRun k fo h) hi ho) (MkSys q' l (CSyn k so h) hi (ho ++ [c]))
| c_sync k so h q l hi ho q' :
    process_sync so q = Ret (tt, q') ->
    step (MkSys q l (CSyn k so h) hi ho) (MkSys q' l (CSignal k h) hi ho)
| c_signal k h t p q l hi ho :
    0 < wait_q_count q -> l !! t = Some p -> waits p = true ->
    step (MkSys q l (CSignal k h) hi ho) (MkSys q (<[t := wake p]> l) (CBatch k h) hi ho)
| c_no_signal k h q l hi ho :
    (wait_q_count q <= 0 \/ Forall (fun p => waits p = false) l) ->
    step (MkSys q l (CSignal k h) hi ho) (MkSys q l (CBatch k h) hi ho)
(** [__mp_queue_poll_loop] and [os_poll_dispatch]. *)
| c_timers q l hi ho :
    settled l ->
    step (MkSys q l CTimers hi ho) (MkSys q l (if terminated q then CExiting else CPoll) hi ho)
| c_poll_enter timeo b q l hi ho q' :
    poll_enter iofd_count timeo q = Ret (b, q') ->
    step (MkSys q l CPoll hi ho) (MkSys q' l (if b then CPoll2 timeo else CLoop) hi ho)
| c_poll_term timeo q l hi ho :
    step (MkSys q l (CPoll2 timeo) hi ho) (MkSys q l (if terminated q then CLoop else CPoll3 timeo) hi ho)
| c_poll_count timeo o q l hi ho q' :
    poll_count iofd_count timeo q = Ret (o, q') ->
    step (MkSys q l (CPoll3 timeo) hi ho) (MkSys q' l (match o with Some t => CWait t | None => CLoop end) hi ho)
| c_wait timeo q l hi ho :
    step (MkSys q l (CWait timeo) hi ho) (MkSys (w_need_kicking true q) l (CBlocked timeo) hi ho)
| c_wake timeo q l hi ho :
    (0 < q_pipe q \/ 0 <= timeo \/ 0 < iofd_count) ->
    step (MkSys q l (CBlocked timeo) hi ho) (MkSys (w_need_kicking false q) l CDispatch hi ho)
| c_drain n q l hi ho q' :
    0 <= n <= q_pipe q -> os_drain_sigp q_flags n q = Ret (tt, q') ->
    step (MkSys q l CDispatch hi ho) (MkSys q' l CDispatch hi ho)
| c_dispatch_end q l hi ho :
    settled l ->
    step (MkSys q l CDispatch hi ho) (MkSys q l CLoop hi ho)
(** [__q_wait_destroy]. *)
| c_uninstall q l hi ho :
    step (MkSys q l CExiting hi ho) (MkSys (w_installed false q) l CEnd1 hi ho)
| c_unused q l hi ho :
    q_usage q <= 1 ->
    step (MkSys q l CEnd1 hi ho) (MkSys q l CEnd2 hi ho).

(** A queue just created, used by [n] other threads. *)
Definition q_init : mp_queue := MkQ 0 0 0 0 false false 0 1 true ∅ ∅ 0.
Definition sys_init (n : nat) : sys := MkSys q_init (replicate (S n) PIdle) CLoop [] [].

Inductive reachable (n : nat) : sys -> Prop :=
| reach_init : reachable n (sys_init n)
| reach_step s s' : reachable n s -> step s s' -> reachable n s'.
End Proto.
