(* ===== verification/MpqInv.v ===== *)
(** * Invariants of the threads around a queue

    The shape of the list and of the memory, the counters, the
    synchronization objects, and who still has to wake whom. *)
From S2P Require Import Prelude Mpq MpqProto.
#[local] Open Scope aosl_scope.

(** ** The linked list *)

(** [h] is the head of the list of objects [l]. *)
Fixpoint fseg (F : gmap Z q_func_obj) (h : Z) (l : list Z) : Prop :=
  match l with
  | [] => h = 0
  | a :: r => h = a /\ a <> 0 /\ exists o, F !! a = Some o /\ fseg F (fo_next o) r
  end.

(** The calls of a list of objects, in order. *)
Definition calls (F : gmap Z q_func_obj) (l : list Z) : list call := omap (fun a => fo_call <$> F !! a) l.

(** The same objects, but for the links and time stamps. *)
Definition fview (o : q_func_obj) : option nat * call := (fo_sync o, fo_call o).
Definition same_fos (F F' : gmap Z q_func_obj) : Prop := forall a, fview <$> F' !! a = fview <$> F !! a.

Lemma fseg_frame F F' h l : (forall a, a ∈ l -> F' !! a = F !! a) -> fseg F h l -> fseg F' h l.
Proof.
  revert h. induction l as [|a l IH]; intros h Hf; [done|]. intros (-> & Ha & o & Ho & Hl).
  split; [done|]. split; [done|]. exists o. rewrite Hf by set_solver. split; [done|]. apply IH; [set_solver|done].
Qed.

Lemma fseg_elem F h l a : fseg F h l -> a ∈ l -> a <> 0 /\ is_Some (F !! a).
Proof.
  revert h. induction l as [|b l IH]; intros h; [set_solver|]. intros (-> & Hb & o & Ho & Hl) [->|Ha]%elem_of_cons; eauto.
Qed.

Lemma fseg_head F h l : fseg F h l -> h = default 0 (head l).
Proof. destruct l; [done|]. by intros (-> & _). Qed.

(** Appending an object: the last one points to it. *)
Lemma fseg_snoc F F' h l a o :
  NoDup (l ++ [a]) -> a <> 0 -> fseg F h l -> F' !! a = Some o -> fo_next o = 0 ->
  (forall b, b ∈ l -> Some b <> last l -> F' !! b = F !! b) ->
  (forall b, last l = Some b -> exists o', F' !! b = Some o' /\ fo_next o' = a) ->
  fseg F' (if (h =? 0) then a else h) (l ++ [a]).
Proof.
  intros Hnd Ha. revert h. induction l as [|b l IH]; intros h.
  - cbn. intros -> Ho Hn _ _. cbn. split; [done|]. split; [done|]. exists o. split; [done|]. by rewrite Hn.
  - intros (-> & Hb & ob & Hob & Hl) Ho Hn Hf Hlast. rewrite (proj2 (Z.eqb_neq b 0)) by done.
    cbn [app fseg]. split; [done|]. split; [done|]. cbn in Hnd. apply NoDup_cons in Hnd as [Hbl Hnd].
    destruct l as [|c l].
    + destruct (Hlast b eq_refl) as (o' & Ho' & Hn'). exists o'. split; [done|]. cbn. split; [done|]. split; [done|].
      exists o. split; [done|]. by rewrite Hn.
    + exists ob. rewrite Hf; [|by left|].
      2:{ rewrite last_cons_cons. intros Hl'. symmetry in Hl'. apply last_Some_elem_of in Hl'. apply Hbl.
          rewrite elem_of_app. by left. }
      split; [done|].
      specialize (IH Hnd (fo_next ob) Hl Ho Hn).
      destruct Hl as (Hx & Hc & Hl). rewrite Hx in *. rewrite (proj2 (Z.eqb_neq c 0)) in IH by done.
      apply IH; [intros; apply Hf; [by right|by rewrite last_cons_cons]|intros; apply Hlast; by rewrite last_cons_cons].
Qed.

Lemma same_fos_calls F F' l : same_fos F F' -> calls F' l = calls F l.
Proof.
  intros Hs. unfold calls. induction l as [|a l IH]; [done|]. cbn. specialize (Hs a). rewrite IH.
  destruct (F' !! a), (F !! a); cbn in *; try done. injection Hs as _ ->. done.
Qed.

Lemma same_fos_dom F F' a : same_fos F F' -> (is_Some (F' !! a) <-> is_Some (F !! a)).
Proof. intros Hs. specialize (Hs a). destruct (F' !! a), (F !! a); cbn in Hs; try done; split; eauto. Qed.

Lemma calls_app F l k : calls F (l ++ k) = calls F l ++ calls F k.
Proof. unfold calls. apply omap_app. Qed.

Lemma calls_frame F F' l : (forall a, a ∈ l -> F' !! a = F !! a) -> calls F' l = calls F l.
Proof.
  intros Hf. unfold calls. induction l as [|a l IH]; [done|]. cbn. rewrite Hf by set_solver. rewrite IH by set_solver. done.
Qed.

(** [add_f_link] on a list with the given last object. *)
Definition linked_fos (F : gmap Z q_func_obj) (qu : list Z) (fo ts : Z) (o : q_func_obj) : gmap Z q_func_obj :=
  <[fo := with_ts ts (with_next 0 o)]>
    (match last qu with
     | Some b => match F !! b with Some ob => <[b := with_next fo ob]> F | None => F end
     | None => F
     end).

Definition q_linked (q : mp_queue) (qu : list Z) (fo ts : Z) (o : q_func_obj) : mp_queue :=
  MkQ (if q_head q =? 0 then fo else q_head q) fo (q_count q + 1) (kick_q_count q) (need_kicking q) (terminated q)
    (wait_q_count q) (q_usage q) (q_installed q) (linked_fos (q_fos q) qu fo ts o) (q_syncs q) (q_pipe q).

Lemma add_f_link_spec q qu fo ts o :
  fseg (q_fos q) (q_head q) qu -> q_tail q = default 0 (last qu) -> fo ∉ qu -> q_fos q !! fo = Some o ->
  add_f_link fo ts q = Ret (tt, q_linked q qu fo ts o).
Proof.
  intros Hs Ht Hn Hf. unfold add_f_link, fo_set, modq, fo_get. run. rewrite Hf. cbn. rewrite Hf. cbn.
  unfold q_linked, linked_fos. rewrite Ht. destruct (last qu) as [b|] eqn:Hl; cbn.
  - assert (Hb : b ∈ qu) by (by apply last_Some_elem_of).
    destruct (fseg_elem _ _ _ _ Hs Hb) as [Hb0 [ob Hob]].
    rewrite (proj2 (Z.eqb_neq b 0)) by done. cbn. assert (b <> fo) by set_solver.
    rewrite lookup_insert_ne, Hob by done. cbn. rewrite lookup_insert_ne, Hob by done. cbn.
    rewrite lookup_insert_ne, lookup_insert by done. rewrite decide_True by done. cbn.
    rewrite lookup_insert_ne, lookup_insert by done. rewrite decide_True by done. cbn.
    destruct qu as [|c qu]; [done|]. destruct Hs as (Hh & Hc & _). rewrite Hh.
    rewrite (proj2 (Z.eqb_neq c 0)) by done. unfold w_count, w_tail, w_fos; cbn. rewrite Hh. do 3 f_equal.
    by rewrite (insert_insert_ne _ b fo), insert_insert, decide_True by done.
  - apply last_None in Hl as ->. cbn in Hs. rewrite Hs. cbn. rewrite lookup_insert, decide_True by done. cbn.
    rewrite lookup_insert, decide_True by done. cbn.
    unfold w_count, w_tail, w_head, w_fos; cbn. do 3 f_equal.
    by rewrite insert_insert, decide_True by done.
Qed.

Lemma linked_fos_other F qu fo ts o a :
  a <> fo -> Some a <> last qu -> linked_fos F qu fo ts o !! a = F !! a.
Proof.
  intros Ha Hl. unfold linked_fos. rewrite lookup_insert_ne by done. destruct (last qu) as [b|]; [|done].
  destruct (F !! b); [|done]. rewrite lookup_insert_ne by congruence. done.
Qed.

Lemma linked_fos_same F qu fo ts o : F !! fo = Some o -> fo ∉ qu -> same_fos F (linked_fos F qu fo ts o).
Proof.
  intros Hf Hn a. unfold linked_fos. destruct (decide (a = fo)) as [->|Ha].
  { by rewrite lookup_insert, decide_True, Hf by done. }
  rewrite lookup_insert_ne by done. destruct (last qu) as [b|]; [|done]. destruct (F !! b) eqn:Hb; [|done].
  destruct (decide (a = b)) as [->|Hab]; [|by rewrite lookup_insert_ne by done].
  by rewrite lookup_insert, decide_True, Hb by done.
Qed.

Lemma linked_fos_seg F h qu fo ts o :
  fseg F h qu -> fo ∉ qu -> fo <> 0 -> NoDup qu -> fseg (linked_fos F qu fo ts o) (if h =? 0 then fo else h) (qu ++ [fo]).
Proof.
  intros Hs Hn H0 Hnd. eapply (fseg_snoc F _ h qu fo (with_ts ts (with_next 0 o))); try done.
  - apply NoDup_app; split; [done|]. split; [set_solver|apply NoDup_singleton].
  - unfold linked_fos. by rewrite lookup_insert, decide_True by done.
  - intros b Hb Hl. apply linked_fos_other; [set_solver|done].
  - intros b Hl. unfold linked_fos. rewrite Hl. assert (Hb : b ∈ qu) by (by apply last_Some_elem_of).
    destruct (fseg_elem _ _ _ _ Hs Hb) as [_ [ob Hob]]. rewrite Hob.
    exists (with_next fo ob). rewrite lookup_insert_ne, lookup_insert, decide_True by set_solver. done.
Qed.

(** ** The shape of the system *)

(** The object a thread has allocated and not yet queued. *)
Definition held (p : pstate) : option Z :=
  match p with PTry _ _ fo | PWait _ fo | PWoken _ fo => Some fo | _ => None end.
(** The object being run, and the rest of the list taken. *)
Definition cur (c : cstate) : list Z := match c with CRun _ fo _ => [fo] | _ => [] end.
Definition rest (c : cstate) : Z :=
  match c with CBatch _ h | CRun _ _ h | CSyn _ _ h | CSignal _ h => h | _ => 0 end.
(** The objects queued and not finished, oldest first. *)
Definition chain (c : cstate) (ba qu : list Z) : list Z := cur c ++ ba ++ qu.

Record shape (s : sys) (ba qu : list Z) : Prop := MkShape {
  sh_queue : fseg (q_fos (sq s)) (q_head (sq s)) qu;
  sh_tail : q_tail (sq s) = default 0 (last qu);
  sh_batch : fseg (q_fos (sq s)) (rest (cons s)) ba;
  sh_nodup : NoDup (chain (cons s) ba qu);
  sh_dom : forall a, is_Some (q_fos (sq s) !! a) <->
    (a ∈ chain (cons s) ba qu \/ exists t p, ths s !! t = Some p /\ held p = Some a);
  sh_held : forall t p a, ths s !! t = Some p -> held p = Some a ->
    a <> 0 /\ (a ∉ chain (cons s) ba qu) /\ forall t' p', ths s !! t' = Some p' -> held p' = Some a -> t' = t;
  sh_count : q_count (sq s) = Z.of_nat (length (chain (cons s) ba qu));
  sh_hist : h_in s = h_out s ++ calls (q_fos (sq s)) (chain (cons s) ba qu)
}.

(** Steps that change neither the list nor what is held. *)
Lemma shape_keep q l c hi ho q' l' c' ba qu :
  shape (MkSys q l c hi ho) ba qu ->
  q_head q' = q_head q -> q_tail q' = q_tail q -> q_count q' = q_count q -> q_fos q' = q_fos q ->
  (forall t, (l' !! t ≫= held) = (l !! t ≫= held)) -> cur c' = cur c -> rest c' = rest c ->
  shape (MkSys q' l' c' hi ho) ba qu.
Proof.
  intros [H1 H2 H3 H4 H5 H6 H7 H8] Eh Et Ec Ef Hl Hcur Hrest.
  assert (Hin : forall t p a, l' !! t = Some p -> held p = Some a -> exists p0, l !! t = Some p0 /\ held p0 = Some a).
  { intros t p a Hp Ha. specialize (Hl t). rewrite Hp in Hl. cbn in Hl. rewrite Ha in Hl.
    destruct (l !! t) as [p0|]; [|done]. eauto. }
  assert (Hout : forall t p a, l !! t = Some p -> held p = Some a -> exists p0, l' !! t = Some p0 /\ held p0 = Some a).
  { intros t p a Hp Ha. specialize (Hl t). rewrite Hp in Hl. cbn in Hl. rewrite Ha in Hl.
    destruct (l' !! t) as [p0|]; [|done]. eauto. }
  unfold chain in *. cbn in *. split; unfold chain; cbn; rewrite ?Eh, ?Et, ?Ec, ?Ef, ?Hcur, ?Hrest; try done.
  - intros a. rewrite H5. split; (intros [?|(t & p & Hp & Ha)]; [by left|right]).
    + destruct (Hout _ _ _ Hp Ha) as (p0 & ? & ?). eauto.
    + destruct (Hin _ _ _ Hp Ha) as (p0 & ? & ?). eauto.
  - intros t p a Hp Ha. destruct (Hin _ _ _ Hp Ha) as (p0 & Hp0 & Ha0).
    destruct (H6 _ _ _ Hp0 Ha0) as (? & ? & Hu). split; [done|]. split; [done|].
    intros t' p' Hp' Ha'. destruct (Hin _ _ _ Hp' Ha') as (p1 & ? & ?). eauto.
Qed.

(** A thread moves on with the same object, or with none before and after. *)
Lemma held_insert (l : list pstate) (t : nat) p p' : l !! t = Some p -> held p' = held p ->
  forall i : nat, (<[t := p']> l !! i ≫= held) = (l !! i ≫= held).
Proof.
  intros Hp Hh i. destruct (decide (i = t)) as [->|Hi]; [|by rewrite list_lookup_insert_ne by done].
  rewrite list_lookup_insert_eq by (by apply lookup_lt_Some in Hp). by rewrite Hp.
Qed.

(** Cases of a lookup after one thread moved. *)
Lemma ths_insert {A} (l : list A) (t : nat) p p' i x :
  l !! t = Some p -> <[t := p']> l !! i = Some x -> (i = t /\ x = p') \/ (i <> t /\ l !! i = Some x).
Proof.
  intros Hp. rewrite list_lookup_insert_Some. naive_solver.
Qed.
Lemma ths_insert_same {A} (l : list A) (t : nat) p p' : l !! t = Some p -> <[t := p']> l !! t = Some p'.
Proof. intros Hp. apply list_lookup_insert_eq. by apply lookup_lt_Some in Hp. Qed.
Lemma ths_insert_other {A} (l : list A) (t : nat) p' i : i <> t -> <[t := p']> l !! i = l !! i.
Proof. intros. by apply list_lookup_insert_ne. Qed.

Lemma shape_call q l c hi ho ba qu t p nf sy a o q' :
  shape (MkSys q l c hi ho) ba qu -> l !! t = Some p -> held p = None -> a <> 0 -> q_fos q !! a = None ->
  q_head q' = q_head q -> q_tail q' = q_tail q -> q_count q' = q_count q -> q_fos q' = <[a := o]> (q_fos q) ->
  shape (MkSys q' (<[t := PTry nf sy a]> l) c hi ho) ba qu.
Proof.
  intros [H1 H2 H3 H4 H5 H6 H7 H8] Hp Hh H0 Hf Eh Et Ec Ef. cbn in *.
  assert (Hna : (a ∉ chain c ba qu) /\ forall t p, l !! t = Some p -> held p <> Some a).
  { split; [intros Hin|intros t' p' Hp' Ha']; (destruct (H5 a) as [_ [? Hx]]; [eauto|congruence]). }
  destruct Hna as [Hnc Hnh].
  assert (Hfr : forall b, b ∈ chain c ba qu -> <[a := o]> (q_fos q) !! b = q_fos q !! b).
  { intros b Hb. apply lookup_insert_ne. by intros ->. }
  split; cbn; rewrite ?Eh, ?Et, ?Ec, ?Ef; try done.
  - eapply fseg_frame; [|done]. intros; apply Hfr; unfold chain; set_solver.
  - eapply fseg_frame; [|done]. intros; apply Hfr; unfold chain; set_solver.
  - intros b. rewrite lookup_insert_is_Some, H5. split.
    + intros [<-|[Hb [Hc|(t' & p' & Hp' & Ha')]]]; [|by left|].
      * right. exists t, (PTry nf sy a). by rewrite (ths_insert_same _ _ _ _ Hp).
      * right. exists t', p'. rewrite ths_insert_other by (intros ->; congruence). done.
    + intros [Hc|(t' & p' & Hp' & Ha')].
      * right. split; [by intros ->|by left].
      * destruct (ths_insert _ _ _ _ _ _ Hp Hp') as [[-> ->]|[? ?]]; [left; by injection Ha'|].
        right. split; [intros ->; eapply Hnh; eauto|]. right. eauto.
  - intros t' p' b Hp' Hb. destruct (ths_insert _ _ _ _ _ _ Hp Hp') as [[-> ->]|[? Hl']].
    + injection Hb as <-. split; [done|]. split; [done|]. intros t2 p2 Hp2 Hb2.
      destruct (ths_insert _ _ _ _ _ _ Hp Hp2) as [[-> _]|[? ?]]; [done|]. exfalso. eapply Hnh; eauto.
    + destruct (H6 _ _ _ Hl' Hb) as (? & ? & Hu). split; [done|]. split; [done|]. intros t2 p2 Hp2 Hb2.
      destruct (ths_insert _ _ _ _ _ _ Hp Hp2) as [[-> ->]|[? ?]]; [|eauto].
      injection Hb2 as <-. exfalso. eapply Hnh; eauto.
  - rewrite H8. f_equal. symmetry. apply calls_frame. done.
Qed.

(** An object that a thread holds is queued ([p'] holds none). *)
Lemma shape_queue q l c hi ho ba qu t p fo ts o p' :
  shape (MkSys q l c hi ho) ba qu -> l !! t = Some p -> held p = Some fo -> q_fos q !! fo = Some o -> held p' = None ->
  shape (MkSys (q_linked q qu fo ts o) (<[t := p']> l) c (hi ++ [fo_call o]) ho) ba (qu ++ [fo]).
Proof.
  intros [H1 H2 H3 H4 H5 H6 H7 H8] Hp Hh Ho Hh'. cbn in *.
  destruct (H6 _ _ _ Hp Hh) as (H0 & Hnc & Hu). unfold chain in *. rewrite !elem_of_app in Hnc.
  assert (Hndq : NoDup qu) by (rewrite !NoDup_app in H4; naive_solver).
  assert (Hba : forall a, a ∈ cur c ++ ba -> linked_fos (q_fos q) qu fo ts o !! a = q_fos q !! a).
  { intros a Ha. apply linked_fos_other; [set_solver|]. intros Hl. symmetry in Hl. apply last_Some_elem_of in Hl.
    rewrite app_assoc, NoDup_app in H4. naive_solver. }
  assert (Hs := linked_fos_same (q_fos q) qu fo ts o Ho ltac:(set_solver)).
  assert (Hch : cur c ++ ba ++ qu ++ [fo] = (cur c ++ ba ++ qu) ++ [fo]) by (by rewrite <-!app_assoc).
  split; cbn; unfold chain; rewrite ?Hch.
  - apply linked_fos_seg; [done|set_solver|done|done].
  - by rewrite last_snoc.
  - eapply fseg_frame; [|done]. intros a Ha. apply Hba. set_solver.
  - apply NoDup_app. split; [done|]. split; [|apply NoDup_singleton]. intros a Ha Hf%list_elem_of_singleton. set_solver.
  - intros a. rewrite same_fos_dom by done. rewrite H5, (elem_of_app (cur c ++ ba ++ qu)), list_elem_of_singleton.
    split.
    + intros [?|(t' & p1 & Hp1 & Ha)]; [auto|]. destruct (decide (t' = t)) as [->|Ht]; [left; right; congruence|].
      right. exists t', p1. by rewrite ths_insert_other.
    + intros [[?|Ha]|(t' & p1 & Hp1 & Ha)]; [by left|subst; right; eauto|].
      destruct (ths_insert _ _ _ _ _ _ Hp Hp1) as [[-> ->]|[? ?]]; [congruence|right; eauto].
  - intros t' p1 a Hp1 Ha. destruct (ths_insert _ _ _ _ _ _ Hp Hp1) as [[-> ->]|[Ht Hl']]; [congruence|].
    destruct (H6 _ _ _ Hl' Ha) as (? & Hna & Hu'). split; [done|]. split.
    + rewrite elem_of_app, list_elem_of_singleton. intros [?|Hx]; [done|]. subst a. apply Ht. eauto.
    + intros t2 p2 Hp2 Ha2. destruct (ths_insert _ _ _ _ _ _ Hp Hp2) as [[-> ->]|[? ?]]; [congruence|eauto].
  - rewrite length_app. cbn. lia.
  - rewrite (same_fos_calls _ _ _ Hs), calls_app, H8, <-!app_assoc. do 2 f_equal. unfold calls. cbn. by rewrite Ho.
Qed.

(** A thread frees the object it holds. *)
Lemma shape_free q l c hi ho ba qu t p fo p' q' :
  shape (MkSys q l c hi ho) ba qu -> l !! t = Some p -> held p = Some fo -> held p' = None ->
  q_head q' = q_head q -> q_tail q' = q_tail q -> q_count q' = q_count q -> q_fos q' = delete fo (q_fos q) ->
  shape (MkSys q' (<[t := p']> l) c hi ho) ba qu.
Proof.
  intros [H1 H2 H3 H4 H5 H6 H7 H8] Hp Hh Hh' Eh Et Ec Ef. cbn in *.
  destruct (H6 _ _ _ Hp Hh) as (H0 & Hnc & Hu).
  assert (Hfr : forall b, b ∈ chain c ba qu -> delete fo (q_fos q) !! b = q_fos q !! b).
  { intros b Hb. apply lookup_delete_ne. intros ->. done. }
  split; cbn; rewrite ?Eh, ?Et, ?Ec, ?Ef; try done.
  - eapply fseg_frame; [|done]. intros; apply Hfr; unfold chain; set_solver.
  - eapply fseg_frame; [|done]. intros; apply Hfr; unfold chain; set_solver.
  - intros a. rewrite lookup_delete_is_Some, H5. split.
    + intros [Hne [?|(t' & p1 & Hp1 & Ha)]]; [by left|right]. exists t', p1.
      rewrite ths_insert_other by (intros ->; congruence). done.
    + intros [Hc|(t' & p1 & Hp1 & Ha)]; [split; [by intros ->|by left]|].
      destruct (ths_insert _ _ _ _ _ _ Hp Hp1) as [[-> ->]|[? ?]]; [congruence|].
      split; [|right; eauto]. intros ->. eauto.
  - intros t' p1 a Hp1 Ha. destruct (ths_insert _ _ _ _ _ _ Hp Hp1) as [[-> ->]|[Ht Hl']]; [congruence|].
    destruct (H6 _ _ _ Hl' Ha) as (? & ? & Hu'). split; [done|]. split; [done|].
    intros t2 p2 Hp2 Ha2. destruct (ths_insert _ _ _ _ _ _ Hp Hp2) as [[-> ->]|[? ?]]; [congruence|eauto].
  - rewrite H8. f_equal. symmetry. by apply calls_frame.
Qed.

(** The queue's thread finishes an object. *)
Lemma shape_end q l k so fo h hi ho ba qu o q' :
  shape (MkSys q l (CRun k fo h) hi ho) ba qu -> q_fos q !! fo = Some o ->
  q_head q' = q_head q -> q_tail q' = q_tail q -> q_count q' = q_count q - 1 -> q_fos q' = delete fo (q_fos q) ->
  shape (MkSys q' l (CSyn k so h) hi (ho ++ [fo_call o])) ba qu.
Proof.
  intros [H1 H2 H3 H4 H5 H6 H7 H8] Ho Eh Et Ec Ef. cbn in *. unfold chain in *. cbn in *.
  apply NoDup_cons in H4 as [Hfo Hnd].
  assert (Hfr : forall b, b ∈ ba ++ qu -> delete fo (q_fos q) !! b = q_fos q !! b).
  { intros b Hb. apply lookup_delete_ne. intros ->. done. }
  split; cbn; unfold chain; cbn; rewrite ?Eh, ?Et, ?Ec, ?Ef; try done.
  - eapply fseg_frame; [|done]. intros; apply Hfr; set_solver.
  - eapply fseg_frame; [|done]. intros; apply Hfr; set_solver.
  - intros a. rewrite lookup_delete_is_Some, H5, elem_of_cons. split; [naive_solver|].
    intros [Hc|(t' & p1 & Hp1 & Ha)]; [split; [by intros ->|auto]|]. split; [|eauto].
    intros ->. destruct (H6 _ _ _ Hp1 Ha) as (_ & Hx & _). apply Hx. by left.
  - intros t p a Hp Ha. destruct (H6 _ _ _ Hp Ha) as (? & Hx & ?). split; [done|]. split; [|done].
    intros ?. apply Hx. by right.
  - lia.
  - rewrite H8. cbn. rewrite Ho. cbn. rewrite <-app_assoc. cbn. do 2 f_equal. symmetry. by apply calls_frame.
Qed.

(** The cases of a step, named. *)
Ltac step_cases Hst := destruct Hst as
    [t nf sy a c jn jt q l cs hi ho q' Hl Hm Hin Hns H0s Ha Hf Hr
    |t nf sy fo st ts o q l cs hi ho q' Hl Hm Hr
    |t q l cs hi ho p Hl Hw
    |t sy fo st ts o q l cs hi ho q' Hl Hm Hr
    |t sy fo b q l cs hi ho q' Hl Hr
    |t sy fo wr q l cs hi ho q' Hl Hw Hr
    |t fo q l cs hi ho Hl Hy
    |t e q l cs hi ho q' Hl Hr
    |t q l cs hi ho Hl Ht Hin
    |q l cs hi ho Hu Hset
    |k c h q l hi ho q' Hk Hr
    |k h nx q l hi ho q' H0 Hr
    |k q l hi ho
    |k fo h so c q l hi ho q' Hset Hr
    |k so h q l hi ho q' Hr
    |k h t p q l hi ho Hw Hl Hp
    |k h q l hi ho Hn
    |q l hi ho Hset
    |timeo b q l hi ho q' Hr
    |timeo q l hi ho
    |timeo o q l hi ho q' Hr
    |timeo q l hi ho
    |timeo q l hi ho Hw
    |n q l hi ho q' Hn Hr
    |q l hi ho Hset
    |q l hi ho
    |q l hi ho Hu].

Ltac keep := eapply shape_keep; [eassumption|reflexivity..| | |]; try done.
Ltac ths_cases Hl H := destruct (ths_insert _ _ _ _ _ _ Hl H) as [[-> ->]|[? ?]].

Section Inv.
Context (q_max q_flags iofd_count : Z).
#[local] Abbreviation step := (step q_max q_flags iofd_count).
#[local] Abbreviation add_f_locked := (add_f_locked q_max q_flags).

(** The three outcomes of an attempt to add. *)
Inductive add_spec (q : mp_queue) (qu : list Z) (no_fail : bool) (fo ts : Z) (ob : q_func_obj) : add_outcome -> mp_queue -> Prop :=
| add_queued : no_fail = true \/ q_count q < q_max -> add_spec q qu no_fail fo ts ob Queued (q_linked q qu fo ts ob)
| add_failed e : no_fail = false -> q_max <= q_count q ->
    add_spec q qu no_fail fo ts ob (Failed e) (w_fos (delete fo (q_fos q)) q)
| add_waiting : no_fail = false -> q_max <= q_count q ->
    add_spec q qu no_fail fo ts ob Waiting (w_wait_q_count (wait_q_count q + 1) q).

Lemma add_f_locked_spec q qu no_fail st fo ts ob :
  fseg (q_fos q) (q_head q) qu -> q_tail q = default 0 (last qu) -> fo ∉ qu -> q_fos q !! fo = Some ob ->
  exists o q', add_f_locked no_fail st fo ts q = Ret (o, q') /\ add_spec q qu no_fail fo ts ob o q'.
Proof.
  intros Hs Ht Hn Ho. unfold Mpq.add_f_locked, cbind, cget.
  destruct (no_fail || (q_count q <? q_max)) eqn:Hg.
  - rewrite (add_f_link_spec q qu fo ts ob) by done. do 2 eexists. split; [done|]. constructor.
    apply orb_true_iff in Hg as [|?%Z.ltb_lt]; auto.
  - apply orb_false_iff in Hg as [? ?%Z.ltb_ge]. unfold __free_fo, modq, fo_get. run.
    destruct (flag_set q_flags AOSL_MPQ_FLAG_NONBLOCK); [|destruct st]; rewrite ?Ho; do 2 eexists;
      (split; [reflexivity|by constructor]).
Qed.

Lemma held_alloc s ba qu t p fo :
  shape s ba qu -> ths s !! t = Some p -> held p = Some fo -> exists ob, q_fos (sq s) !! fo = Some ob /\ fo ∉ qu.
Proof.
  intros Hs Hp Hh. destruct (proj2 (sh_dom _ _ _ Hs fo)) as [ob Hob]; [right; eauto|].
  destruct (sh_held _ _ _ Hs _ _ _ Hp Hh) as (_ & Hnc & _). exists ob. split; [done|]. unfold chain in Hnc. set_solver.
Qed.

(** An attempt by a thread that holds [fo]. *)
Lemma shape_add q l c hi ho ba qu t p nf st sy fo ts o q' :
  shape (MkSys q l c hi ho) ba qu -> l !! t = Some p -> held p = Some fo ->
  add_f_locked nf st fo ts q = Ret (o, q') ->
  (exists ob, q_fos q !! fo = Some ob /\ add_spec q qu nf fo ts ob o q') /\
  exists qu', shape (MkSys (drop_sync t o q') (<[t := after_try t sy fo o]> l) c (hi ++ queued_call o q' fo) ho) ba qu'.
Proof.
  intros Hs Hp Hh Hr. destruct (held_alloc _ _ _ _ _ _ Hs Hp Hh) as (ob & Hob & Hnq). cbn in Hob.
  destruct (add_f_locked_spec q qu nf st fo ts ob) as (o1 & q1 & Hr1 & Hsp); [apply Hs|apply Hs|done|done|].
  rewrite Hr in Hr1. injection Hr1 as <- <-. split; [eauto|].
  destruct Hsp as [Hroom|e Hnf Hfull|Hnf Hfull]; cbn.
  - exists (qu ++ [fo]). unfold linked_fos at 1. rewrite lookup_insert, decide_True by done. cbn.
    eapply shape_queue; [done..|]. by destruct (t =? 0)%nat.
  - exists qu. rewrite app_nil_r. eapply shape_free; [done..| | | | |]; try done. cbn. by destruct (t =? 0)%nat.
  - exists qu. rewrite app_nil_r. eapply shape_keep; try done. eapply held_insert; [done|]. by rewrite Hh.
Qed.

(** Waking a thread does not change what it holds. *)
Lemma held_wake p : held (wake p) = held p.
Proof. by destruct p. Qed.


Lemma shape_step s s' ba qu : shape s ba qu -> step s s' -> exists ba' qu', shape s' ba' qu'.
Proof.
  intros Hs Hst. step_cases Hst.
  - exists ba, qu. unfold add_f_alloc, ____q_get, modq in Hr. run_in Hr.
    eapply (shape_call _ _ _ _ _ _ _ _ _ _ _ _ (MkFo jn jt (if sy then Some t else None) c)); [done|done|done|done|done|..];
      (destruct (t =? 0)%nat, sy; cbn in Hr; injection Hr as <-; done).
  - destruct (shape_add _ _ _ _ _ _ _ _ _ nf st sy fo ts o q' Hs Hl eq_refl Hr) as [_ [qu' H']]. eauto.
  - exists ba, qu. keep. eapply held_insert; [done|]. apply held_wake.
  - exists ba. unfold add_f_resume, modq in Hr. run_in Hr.
    assert (Hs' : shape (MkSys (w_wait_q_count (wait_q_count q - 1) q) l cs hi ho) ba qu) by keep.
    destruct (shape_add _ _ _ _ _ _ _ _ _ false st sy fo ts o q' Hs' Hl eq_refl Hr) as [_ ?]. done.
  - exists ba, qu. unfold mp_kick_check, modq in Hr. run_in Hr. destruct (need_kicking q); injection Hr as <- <-; keep;
      (eapply held_insert; [done|]); [done|by destruct sy].
  - exists ba, qu. unfold os_mp_kick, modq in Hr. run_in Hr.
    destruct (flag_set _ _); [|destruct (wr =? 1)]; injection Hr as <-; keep; (eapply held_insert; [done|]); by destruct sy.
  - exists ba, qu. keep. by eapply held_insert.
  - exists ba, qu. injection Hr as <-. keep. by eapply held_insert.
  - exists ba, qu. keep. by eapply held_insert.
  - exists ba, qu. keep.
  - unfold take_funcs, modq in Hr. run_in Hr.
    assert (Hba : ba = [] /\ cur c = [] /\ rest c = 0).
    { pose proof (sh_batch _ _ _ Hs) as Hb. destruct Hk as [[-> ->]|[(-> & -> & _)|[-> ->]]]; cbn in Hb;
        (destruct ba as [|b ba]; [done|]; destruct Hb as (? & ? & _); congruence). }
    destruct Hba as (-> & Hcur & Hrest). destruct Hs as [H1 H2 H3 H4 H5 H6 H7 H8]; cbn in *.
    unfold chain in *. rewrite Hcur in *. cbn in *.
    destruct (Z.eqb_spec (q_head q) 0) as [E|E]; injection Hr as <- <-.
    + destruct qu as [|b qu]; [|destruct H1 as (? & ? & _); congruence].
      exists [], []. unfold taken. cbn. destruct k; split; unfold chain; cbn; done.
    + exists qu, []. unfold taken. rewrite (proj2 (Z.eqb_neq _ _)) by done.
      split; unfold chain; cbn; rewrite ?app_nil_r; done.
  - unfold process_begin, fo_get in Hr. run_in Hr. destruct Hs as [H1 H2 H3 H4 H5 H6 H7 H8]; cbn in *.
    destruct ba as [|b ba]; [done|]. destruct H3 as (-> & Hb0 & o & Ho & H3). rewrite Ho in Hr. injection Hr as <- <-.
    exists ba, qu. by split.
  - exists ba, qu. keep; destruct k; done.
  - exists ba, qu. unfold process_end, __free_fo, fo_get, modq in Hr. run_in Hr.
    destruct (q_fos q !! fo) as [ob|] eqn:Ho; [|done]. cbn in Hr. rewrite Ho in Hr. injection Hr as <- <- <-.
    eapply shape_end; done.
  - exists ba, qu. unfold process_sync, modq in Hr. destruct so as [t|]; run_in Hr; [|injection Hr as <-; keep].
    destruct (q_syncs q !! t); [|done]. injection Hr as <-. keep.
  - exists ba, qu. keep. eapply held_insert; [done|]. apply held_wake.
  - exists ba, qu. keep.
  - exists ba, qu. keep; by destruct (terminated q).
  - exists ba, qu. unfold poll_enter, modq in Hr. run_in Hr. destruct (_ && _); injection Hr as <- <-; keep.
  - exists ba, qu. keep; by destruct (terminated q).
  - exists ba, qu. unfold poll_count, modq in Hr. run_in Hr. destruct (0 <? q_count q); [|injection Hr as <- <-; keep].
    cbn in Hr. destruct (_ && _); injection Hr as <- <-; keep.
  - exists ba, qu. keep.
  - exists ba, qu. keep.
  - exists ba, qu. unfold os_drain_sigp, modq in Hr. run_in Hr. destruct (flag_set _ _); injection Hr as <-; keep.
  - exists ba, qu. keep.
  - exists ba, qu. keep.
  - exists ba, qu. keep.
Qed.

(** ** Counting threads *)

(** Threads inside a call other than the queue's own. *)
Definition busy (p : pstate) : bool := match p with PIdle => false | _ => true end.
Definition others (l : list pstate) : list pstate := tail l.

Lemma others_lookup (l : list pstate) (t : nat) : t <> 0%nat -> others l !! pred t = l !! t.
Proof. destruct t; [done|]. by destruct l. Qed.
Lemma others_insert (l : list pstate) (t : nat) p : t <> 0%nat -> others (<[t := p]> l) = <[pred t := p]> (others l).
Proof. destruct t; [done|]. by destruct l. Qed.
Lemma others_insert0 (l : list pstate) p : others (<[0%nat := p]> l) = others l.
Proof. by destruct l. Qed.

(** ** The queue's own thread and the references *)

Definition ending (c : cstate) : bool :=
  match c with
  | CBatch k _ | CRun k _ _ | CSyn k _ _ | CSignal k _ => match k with KLoop => false | _ => true end
  | CEnd1 | CEnd2 | CDead => true
  | _ => false
  end.
Definition final (c : cstate) : bool :=
  match c with
  | CBatch KEnd2 _ | CRun KEnd2 _ _ | CSyn KEnd2 _ _ | CSignal KEnd2 _ | CEnd2 | CDead => true
  | _ => false
  end.
Definition owner_call (p : pstate) : bool :=
  match p with PTry _ false _ | PWait false _ | PWoken false _ => true | _ => false end.

Record refs (s : sys) : Prop := MkRefs {
  rf_owner : exists p, ths s !! 0%nat = Some p /\ (p = PIdle \/ (user_code (cons s) = true /\ owner_call p = true));
  rf_usage : q_usage (sq s) = 1 + cnt busy (others (ths s));
  rf_installed : ending (cons s) = true -> q_installed (sq s) = false;
  rf_final : final (cons s) = true -> q_usage (sq s) = 1
}.


(** A thread other than the queue's moves. *)
Lemma refs_other q l c hi ho q' hi' ho' (t : nat) p p' :
  refs (MkSys q l c hi ho) -> l !! t = Some p -> t <> 0%nat ->
  q_usage q' = q_usage q - (if busy p then 1 else 0) + (if busy p' then 1 else 0) ->
  q_installed q' = q_installed q -> (final c = true -> busy p = busy p') ->
  refs (MkSys q' (<[t := p']> l) c hi' ho').
Proof.
  intros [(p0 & Hp0 & Ho) H2 H3 H4] Hp Ht Hu Hi Hf. split; cbn in *.
  - exists p0. rewrite ths_insert_other by done. done.
  - rewrite Hu, H2, others_insert by done.
    rewrite (cnt_insert busy (others l) (pred t) p) by (by rewrite others_lookup). lia.
  - by rewrite Hi.
  - intros Hc. rewrite Hu, (Hf Hc), H4 by done. lia.
Qed.

(** The queue's own thread moves in user code. *)
Lemma refs_owner q l c hi ho q' hi' ho' p' :
  refs (MkSys q l c hi ho) -> user_code c = true -> (p' = PIdle \/ owner_call p' = true) ->
  q_usage q' = q_usage q -> q_installed q' = q_installed q ->
  refs (MkSys q' (<[0%nat := p']> l) c hi' ho').
Proof.
  intros [(p0 & Hp0 & Ho) H2 H3 H4] Hc Hp' Hu Hi. split; cbn in *; rewrite ?Hu, ?Hi, ?others_insert0; try done.
  exists p'. rewrite (ths_insert_same _ _ _ _ Hp0). naive_solver.
Qed.

(** Only the queue's thread moves, with no call of its own pending. *)
Lemma refs_cons q l c hi ho q' c' hi' ho' :
  refs (MkSys q l c hi ho) -> (l !! 0%nat = Some PIdle \/ user_code c = false) ->
  q_usage q' = q_usage q -> (ending c' = true -> q_installed q' = false \/ (q_installed q' = q_installed q /\ ending c = true)) ->
  (final c' = true -> final c = true \/ q_usage q = 1) ->
  refs (MkSys q' l c' hi' ho').
Proof.
  intros [(p0 & Hp0 & Ho) H2 H3 H4] Hs Hu Hi Hf. split; cbn in *; rewrite ?Hu; try done.
  - exists p0. split; [done|]. left. destruct Hs as [Hs|Hs]; [congruence|]. destruct Ho as [?|[? _]]; congruence.
  - intros Hc. destruct (Hi Hc) as [?|[-> ?]]; auto.
  - intros Hc. destruct (Hf Hc); auto.
Qed.

Lemma refs_not_owner s t p : refs s -> ths s !! t = Some p -> busy p = true -> owner_call p = false -> t <> 0%nat.
Proof. intros [(p0 & Hp0 & Ho) _ _ _] Hp Hb Hc ->. rewrite Hp in Hp0. injection Hp0 as <-. destruct Ho as [->|[_ ?]]; [done|congruence]. Qed.

Lemma refs_owner_user s p : refs s -> ths s !! 0%nat = Some p -> busy p = true -> user_code (cons s) = true /\ owner_call p = true.
Proof. intros [(p0 & Hp0 & Ho) _ _ _] Hp Hb. rewrite Hp in Hp0. injection Hp0 as <-. destruct Ho as [->|?]; done. Qed.

(** A thread in a call is counted, so the queue is not in its last phase. *)
Lemma refs_busy s t p : refs s -> ths s !! t = Some p -> busy p = true -> t <> 0%nat -> final (cons s) = false.
Proof.
  intros Hr Hp Hb Ht. destruct (final (cons s)) eqn:Hf; [|done]. pose proof (rf_final _ Hr Hf). pose proof (rf_usage _ Hr).
  pose proof (cnt_pos busy (others (ths s)) (pred t) p ltac:(by rewrite others_lookup) Hb). lia.
Qed.

(** What an attempt to add leaves alone. *)
Lemma add_spec_keep q qu nf fo ts ob o q' t : add_spec q qu nf fo ts ob o q' ->
  q_usage (drop_sync t o q') = q_usage q /\ q_installed (drop_sync t o q') = q_installed q /\
  need_kicking (drop_sync t o q') = need_kicking q /\ terminated (drop_sync t o q') = terminated q /\
  q_pipe (drop_sync t o q') = q_pipe q.
Proof. by intros []. Qed.

(** The thread of an attempt stays in its call, unless it is the owner's. *)
Lemma after_try_busy t sy fo o : t <> 0%nat -> busy (after_try t sy fo o) = true.
Proof. intros Ht. destruct o; cbn; rewrite ?(proj2 (Nat.eqb_neq t 0)) by done; done. Qed.
Lemma after_try_owner fo o : after_try 0 false fo o = PIdle \/ owner_call (after_try 0 false fo o) = true.
Proof. destruct o; cbn; auto. Qed.

Lemma refs_add q l c hi ho hi' ba qu t p nf st sy fo ts o q' :
  shape (MkSys q l c hi ho) ba qu -> refs (MkSys q l c hi ho) -> l !! t = Some p -> held p = Some fo -> may_act t c ->
  busy p = true -> (owner_call p = true -> sy = false) -> add_f_locked nf st fo ts q = Ret (o, q') ->
  refs (MkSys (drop_sync t o q') (<[t := after_try t sy fo o]> l) c hi' ho).
Proof.
  intros Hs Hrf Hl Hh Hm Hb Hsy Hr.
  destruct (proj1 (shape_add _ _ _ _ _ _ _ _ _ nf st sy fo ts o q' Hs Hl Hh Hr)) as (ob & Hob & Hsp).
  destruct (add_spec_keep _ _ _ _ _ _ _ _ t Hsp) as (Hu & Hi & _). destruct (decide (t = 0%nat)) as [->|Ht].
  - destruct (refs_owner_user _ _ Hrf Hl Hb) as [_ Hoc]. rewrite (Hsy Hoc).
    eapply refs_owner; [done|by apply Hm|apply after_try_owner|done|done].
  - eapply refs_other; [done|done|done| |done|]; rewrite after_try_busy, Hb by done; [lia|done].
Qed.

Lemma refs_step s s' ba qu : shape s ba qu -> refs s -> step s s' -> refs s'.
Proof.
  intros Hs Hrf Hst.
  assert (Hno : forall t p, ths s !! t = Some p -> busy p = true -> owner_call p = false -> t <> 0%nat /\ final (cons s) = false).
  { intros t p Hp Hb Ho. assert (Ht : t <> 0%nat) by (by eapply refs_not_owner). split; [done|by eapply refs_busy]. }
  step_cases Hst.
  - unfold add_f_alloc, ____q_get, modq in Hr. run_in Hr. destruct (decide (t = 0%nat)) as [->|Ht].
    + rewrite (H0s eq_refl) in *. cbn in Hr. injection Hr as <-. eapply refs_owner; [done|by apply Hm|by right|done|done].
    + destruct Hin as [?|Hin]; [done|]. rewrite (proj2 (Nat.eqb_neq t 0)) in Hr by done.
      assert (Hf' : final cs = false).
      { destruct (final cs) eqn:E; [|done]. pose proof (rf_installed _ Hrf) as Hi. cbn in Hi. rewrite Hin in Hi.
        destruct cs as [|[]|[]|[]|[]| | | | | | | | | | |]; try done; by specialize (Hi eq_refl). }
      eapply (refs_other _ _ _ _ _ _ _ _ _ PIdle); [done|done|done|..]; cbn; rewrite ?Hf'; try done; destruct sy; cbn in Hr; injection Hr as <-; cbn; lia || done.
  - eapply refs_add; [done|done|done|done|done|done|by destruct sy|done].
  - destruct p as [| |sy fo| | | | |]; try done. destruct (decide (t = 0%nat)) as [->|Ht].
    + destruct (refs_owner_user _ _ Hrf Hl eq_refl) as [? ?]. eapply refs_owner; [done|done|by right|done|done].
    + eapply refs_other; [done..| |done|done]. cbn. lia.
  - unfold add_f_resume, modq in Hr. run_in Hr.
    assert (Hs' : shape (MkSys (w_wait_q_count (wait_q_count q - 1) q) l cs hi ho) ba qu) by keep.
    assert (Hrf' : refs (MkSys (w_wait_q_count (wait_q_count q - 1) q) l cs hi ho)) by (by destruct Hrf).
    eapply (refs_add _ _ _ _ _ _ _ _ _ _ _ _ _ _ _ _ _ Hs' Hrf'); [done|done|done|done|by destruct sy|done].
  - destruct (Hno _ _ Hl eq_refl eq_refl) as [Ht Hf]. eapply refs_other; [done..| | |]; cbn in Hf; rewrite ?Hf; try done;
      unfold mp_kick_check, modq in Hr; run_in Hr; destruct (need_kicking q); injection Hr as <- <-; destruct sy; cbn; lia || done.
  - destruct (Hno _ _ Hl eq_refl eq_refl) as [Ht Hf]. eapply refs_other; [done..| | |]; cbn in Hf; rewrite ?Hf; try done;
      unfold os_mp_kick, modq in Hr; run_in Hr; destruct (flag_set _ _); [|destruct (wr =? 1)| |destruct (wr =? 1)];
      injection Hr as <-; destruct sy; cbn; lia || done.
  - destruct (Hno _ _ Hl eq_refl eq_refl) as [Ht Hf]. eapply refs_other; [done..| |done|done]. cbn. lia.
  - destruct (Hno _ _ Hl eq_refl eq_refl) as [Ht Hf]. injection Hr as <-. eapply refs_other; [done..| |done|].
    + cbn. lia.
    + cbn in Hf. by rewrite Hf.
  - assert (Hf' : final cs = false).
    { destruct (final cs) eqn:E; [|done]. pose proof (rf_installed _ Hrf) as Hi. cbn in Hi. rewrite Hin in Hi.
      destruct cs as [|[]|[]|[]|[]| | | | | | | | | | |]; try done; by specialize (Hi eq_refl). }
    eapply refs_other; [done..| |done|]; cbn; rewrite ?Hf'; [lia|done].
  - destruct Hrf as [? ? ? ?]. by split.
  - unfold take_funcs, modq in Hr. run_in Hr.
    eapply refs_cons; [done|right; by destruct Hk as [[-> ->]|[(-> & -> & _)|[-> ->]]]|..];
      destruct Hk as [[-> ->]|[(-> & -> & _)|[-> ->]]]; destruct (q_head q =? 0) eqn:E; cbn in Hr; injection Hr as <- <-;
      unfold taken; rewrite ?E; cbn; auto.
  - unfold process_begin, fo_get in Hr. run_in Hr. destruct (q_fos q !! h); [|done]. injection Hr as <- <-.
    eapply refs_cons; [done|by right|done|..]; destruct k; cbn; auto.
  - eapply refs_cons; [done|by right|done|..]; destruct k; cbn; auto.
  - unfold process_end, __free_fo, fo_get, modq in Hr. run_in Hr.
    destruct (q_fos q !! fo) as [ob|] eqn:Ho; [|done]. cbn in Hr. rewrite Ho in Hr. injection Hr as <- <- <-.
    eapply refs_cons; [done|by left|done|..]; destruct k; cbn; auto.
  - unfold process_sync, modq in Hr. destruct so as [t|]; run_in Hr.
    + destruct (q_syncs q !! t); [|done]. injection Hr as <-. eapply refs_cons; [done|by right|done|..]; destruct k; cbn; auto.
    + injection Hr as <-. eapply refs_cons; [done|by right|done|..]; destruct k; cbn; auto.
  - destruct p as [| |sy fo| | | | |]; try done.
    assert (Ht : t <> 0%nat). { intros ->. by destruct (refs_owner_user _ _ Hrf Hl eq_refl). }
    assert (Hrf' : refs (MkSys q (<[t := wake (PWait sy fo)]> l) (CSignal k h) hi ho)).
    { eapply refs_other; [done..| |done|done]. cbn. lia. }
    eapply refs_cons; [exact Hrf'|by right|done|..]; destruct k; cbn; auto.
  - eapply refs_cons; [done|by right|done|..]; destruct k; cbn; auto.
  - eapply refs_cons; [done|by left|done|..]; destruct (terminated q); cbn; done.
  - unfold poll_enter, modq in Hr. run_in Hr. destruct (_ && _); injection Hr as <- <-; (eapply refs_cons; [done|by right|done|done|done]).
  - eapply refs_cons; [done|by right|done|..]; destruct (terminated q); cbn; done.
  - unfold poll_count, modq in Hr. run_in Hr. destruct (0 <? q_count q); [cbn in Hr; destruct (_ && _)|]; injection Hr as <- <-;
      (eapply refs_cons; [done|by right|done|done|done]).
  - eapply refs_cons; [done|by right|done|done|done].
  - eapply refs_cons; [done|by right|done|done|done].
  - unfold os_drain_sigp, modq in Hr. run_in Hr. destruct Hrf as [? ? ? ?]. destruct (flag_set _ _); injection Hr as <-; by split.
  - eapply refs_cons; [done|by left|done|done|done].
  - eapply refs_cons; [done|by right|done|..]; cbn; auto.
  - eapply refs_cons; [done|by right|done|..]; cbn; [auto|]. intros _. right.
    pose proof (rf_usage _ Hrf) as Hx. cbn in Hx. pose proof (cnt_nonneg busy (others l)). lia.
Qed.
End Inv.
