(* ===== verification/MpqLive.v ===== *)
(** * Nobody is forgotten

    The invariants on the waiters of a full queue, on the sleeping thread of
    the queue, and on the callers that wait for their function. *)
From S2P Require Import Prelude Mpq MpqProto MpqInv.
#[local] Open Scope aosl_scope.

(** ** Threads that wait for room *)

Definition waiting (p : pstate) : bool := match p with PWait _ _ | PWoken _ _ => true | _ => false end.
Definition woken (p : pstate) : bool := match p with PWoken _ _ => true | _ => false end.
(** The queue's thread is about to signal the waiters. *)
Definition signals (c : cstate) : bool := match c with CSyn _ _ _ | CSignal _ _ => true | _ => false end.

Record room (s : sys) : Prop := MkRoom {
  rm_count : wait_q_count (sq s) = cnt waiting (ths s);
  rm_live : 0 < cnt waits (ths s) -> 0 < q_count (sq s) \/ signals (cons s) = true \/ 0 < cnt woken (ths s)
}.

(** A thread moves outside of the waiting loop; the queue does not shrink. *)
Lemma room_move q l c hi ho q' c' hi' ho' t p p' :
  room (MkSys q l c hi ho) -> l !! t = Some p -> waiting p = false -> waiting p' = false ->
  wait_q_count q' = wait_q_count q -> q_count q <= q_count q' -> (signals c = true -> signals c' = true) ->
  room (MkSys q' (<[t := p']> l) c' hi' ho').
Proof.
  intros [H1 H2] Hp Hw Hw' Ewc Hc Hs. split; cbn in *.
  - rewrite Ewc, H1, (cnt_insert _ _ _ _ _ Hp), Hw, Hw'. lia.
  - assert (E : forall f, (forall x, f x = true -> waiting x = true) -> cnt f (<[t := p']> l) = cnt f l).
    { intros f Hf. rewrite (cnt_insert _ _ _ _ _ Hp). destruct (f p) eqn:E1; [by rewrite Hf in Hw|].
      destruct (f p') eqn:E2; [by rewrite Hf in Hw'|]. lia. }
    rewrite !E by (by intros []). intros Hpos. destruct (H2 Hpos) as [?|[?|?]]; [left; lia|auto|auto].
Qed.

(** No thread moves. *)
Lemma room_cons q l c hi ho q' c' hi' ho' :
  room (MkSys q l c hi ho) -> wait_q_count q' = wait_q_count q -> (q_count q <= q_count q' \/ signals c' = true) ->
  (signals c = true -> signals c' = true) ->
  room (MkSys q' l c' hi' ho').
Proof.
  intros [H1 H2] Ewc Hc Hs. split; cbn in *; [by rewrite Ewc|]. intros Hpos.
  destruct (H2 Hpos) as [?|[?|?]], Hc; auto. left; lia.
Qed.

(** A waiting thread is woken. *)
Lemma room_wake q l c hi ho c' t p :
  room (MkSys q l c hi ho) -> l !! t = Some p -> waits p = true -> room (MkSys q (<[t := wake p]> l) c' hi ho).
Proof.
  intros [H1 H2] Hp Hw. destruct p as [| |sy fo| | | | |]; try done. cbn in *. split; cbn.
  - rewrite H1, (cnt_insert _ _ _ _ _ Hp). cbn. lia.
  - intros _. right; right. eapply (cnt_pos _ _ t); [by eapply ths_insert_same|done].
Qed.

Section Live.
Context (q_max q_flags iofd_count : Z).
#[local] Abbreviation step := (step q_max q_flags iofd_count).
(** [__mpq_create] refuses a queue with [max < 1]. *)
Context (Hmax : 1 <= q_max).

Lemma room_add q q0 l c hi ho hi' ba qu t p nf sy fo ts ob o q' :
  room (MkSys q l c hi ho) -> shape (MkSys q l c hi ho) ba qu -> l !! t = Some p -> waits p = false ->
  wait_q_count q0 = wait_q_count q - (if waiting p then 1 else 0) -> q_count q0 = q_count q ->
  add_spec q_max q0 qu nf fo ts ob o q' ->
  room (MkSys (drop_sync t o q') (<[t := after_try t sy fo o]> l) c hi' ho).
Proof.
  intros [H1 H2] Hs Hp Hnw Ew Ec Hsp. pose proof (sh_count _ _ _ Hs) as Hc. cbn in *.
  assert (Hpos : 0 < q_count (drop_sync t o q')) by (destruct Hsp; cbn; lia).
  split; cbn; [|auto]. rewrite (cnt_insert _ _ _ _ _ Hp), <-H1. destruct Hsp; cbn; try destruct (t =? 0)%nat; cbn; lia.
Qed.

Lemma shape_add_spec q l c hi ho ba qu t p nf st fo ts o q' :
  shape (MkSys q l c hi ho) ba qu -> l !! t = Some p -> held p = Some fo -> add_f_locked q_max q_flags nf st fo ts q = Ret (o, q') ->
  exists ob, q_fos q !! fo = Some ob /\ add_spec q_max q qu nf fo ts ob o q'.
Proof. intros Hs Hl Hh Hr. by destruct (shape_add q_max q_flags _ _ _ _ _ _ _ _ _ nf st false fo ts o q' Hs Hl Hh Hr). Qed.

Lemma shape_unwait q l c hi ho ba qu : shape (MkSys q l c hi ho) ba qu ->
  shape (MkSys (w_wait_q_count (wait_q_count q - 1) q) l c hi ho) ba qu.
Proof. intros. keep. Qed.

Lemma room_step s s' ba qu : shape s ba qu -> room s -> step s s' -> room s'.
Proof.
  intros Hs Hrm Hst. step_cases Hst.
  - unfold add_f_alloc, ____q_get, modq in Hr. run_in Hr.
    destruct (t =? 0)%nat, sy; cbn in Hr; injection Hr as <-; (eapply room_move; [done|done|done|done|done|done|done]).
  - destruct (shape_add_spec _ _ _ _ _ _ _ _ _ _ _ _ _ _ _ Hs Hl eq_refl Hr) as (ob & Hob & Hsp).
    eapply room_add; [done|done|done|done| |done|done]. cbn. lia.
  - by eapply room_wake.
  - unfold add_f_resume, modq in Hr. run_in Hr.
    destruct (shape_add_spec _ _ _ _ _ _ _ _ _ _ _ _ _ _ _ (shape_unwait _ _ _ _ _ _ _ Hs) Hl eq_refl Hr) as (ob & Hob & Hsp).
    eapply (room_add q (w_wait_q_count (wait_q_count q - 1) q)); done.
  - unfold mp_kick_check, modq in Hr. run_in Hr.
    destruct (need_kicking q); injection Hr as <- <-; (eapply room_move; [done|done|done|by destruct sy|done|done|done]).
  - unfold os_mp_kick, modq in Hr. run_in Hr. destruct (flag_set _ _); [|destruct (wr =? 1)]; injection Hr as <-;
      (eapply room_move; [done|done|done|by destruct sy|done|done|done]).
  - eapply room_move; done.
  - injection Hr as <-. eapply room_move; done.
  - eapply room_move; done.
  - eapply room_cons; [done|done|by left|done].
  - unfold take_funcs, modq in Hr. run_in Hr.
    assert (Hsg : signals c = false) by (by destruct Hk as [[_ ->]|[(_ & -> & _)|[_ ->]]]).
    destruct (q_head q =? 0); cbn in Hr; injection Hr as <- <-; (eapply room_cons; [done|done|by left|by rewrite Hsg]).
  - unfold process_begin, fo_get in Hr. run_in Hr. destruct (q_fos q !! h); [|done]. injection Hr as <- <-.
    eapply room_cons; [done|done|by left|done].
  - eapply room_cons; [done|done|by left|done].
  - unfold process_end, __free_fo, fo_get, modq in Hr. run_in Hr.
    destruct (q_fos q !! fo) as [ob|] eqn:Ho; [|done]. cbn in Hr. rewrite Ho in Hr. injection Hr as <- <- <-.
    eapply room_cons; [done|done|by right|done].
  - unfold process_sync, modq in Hr. destruct so as [t|]; run_in Hr; [destruct (q_syncs q !! t); [|done]|]; injection Hr as <-;
      (eapply room_cons; [done|done|by left|done]).
  - by eapply room_wake.
  - destruct Hrm as [H1 H2]. cbn in *. split; cbn; [done|]. intros Hpos. exfalso. destruct Hn as [Hn|Hn].
    + assert (Hle : cnt waits l <= cnt waiting l); [|lia]. clear. induction l as [|x l IH]; cbn; [done|].
      destruct x; cbn; lia.
    + assert (Hz : cnt waits l = 0); [|lia]. clear -Hn. induction Hn as [|x l Hx _ IH]; cbn; [done|]. rewrite Hx. lia.
  - eapply room_cons; [done|done|by left|done].
  - unfold poll_enter, modq in Hr. run_in Hr. destruct (_ && _); injection Hr as <- <-; (eapply room_cons; [done|done|by left|done]).
  - eapply room_cons; [done|done|by left|done].
  - unfold poll_count, modq in Hr. run_in Hr. destruct (0 <? q_count q); [cbn in Hr; destruct (_ && _)|]; injection Hr as <- <-;
      (eapply room_cons; [done|done|by left|done]).
  - eapply room_cons; [done|done|by left|done].
  - eapply room_cons; [done|done|by left|done].
  - unfold os_drain_sigp, modq in Hr. run_in Hr. destruct (flag_set _ _); injection Hr as <-; (eapply room_cons; [done|done|by left|done]).
  - eapply room_cons; [done|done|by left|done].
  - eapply room_cons; [done|done|by left|done].
  - eapply room_cons; [done|done|by left|done].
Qed.

(** ** The sleeping queue *)

(** A thread that has changed the queue and not yet looked at [need_kicking],
    or is about to write to the pipe. *)
Definition kicking (p : pstate) : bool := match p with PQueued _ _ | PKick _ _ => true | _ => false end.
(** The queue's thread relies on being kicked. *)
Definition needs (c : cstate) : bool :=
  match c with CPoll2 _ | CPoll3 _ | CBlocked _ => true | CWait timeo => negb (timeo =? 0) | _ => false end.
(** It has looked for functions for the last time before it sleeps. *)
Definition asleep (c : cstate) : bool := match c with CWait timeo | CBlocked timeo => negb (timeo =? 0) | _ => false end.
(** It has looked at [terminated] for the last time before it sleeps. *)
Definition committed (c : cstate) : bool := match c with CPoll3 _ => true | _ => asleep c end.

Record awake (s : sys) : Prop := MkAwake {
  ak_pipe : 0 <= q_pipe (sq s);
  ak_need : needs (cons s) = true -> need_kicking (sq s) = true;
  ak_funcs : asleep (cons s) = true -> 0 < q_count (sq s) -> 0 < q_pipe (sq s) \/ 0 < cnt kicking (ths s);
  ak_term : committed (cons s) = true -> terminated (sq s) = true -> 0 < q_pipe (sq s) \/ 0 < cnt kicking (ths s)
}.

Lemma committed_needs c : committed c = true -> needs c = true.
Proof. by destruct c. Qed.
Lemma asleep_committed c : asleep c = true -> committed c = true.
Proof. by destruct c. Qed.

(** A thread moves that is not about to kick, or will still kick, or has. *)
Lemma awake_move q l c hi ho q' hi' ho' t p p' :
  awake (MkSys q l c hi ho) -> l !! t = Some p ->
  (kicking p' = true \/ 0 < q_pipe q' \/ committed c = false \/
    (kicking p = false /\ q_count q' <= q_count q /\ terminated q' = terminated q /\ q_pipe q' = q_pipe q)) ->
  need_kicking q' = need_kicking q -> 0 <= q_pipe q' ->
  awake (MkSys q' (<[t := p']> l) c hi' ho').
Proof.
  intros [H1 H2 H3 H4] Hp Hk Hn Hq. cbn in *.
  assert (Hcases : committed c = true -> 0 < q_pipe q' \/ 0 < cnt kicking (<[t := p']> l) \/
    (cnt kicking l <= cnt kicking (<[t := p']> l) /\ q_count q' <= q_count q /\ terminated q' = terminated q /\ q_pipe q' = q_pipe q)).
  { intros Hc. destruct Hk as [Hk|[?|[?|(Hk & ? & ? & ?)]]]; [|auto|congruence|].
    - right; left. eapply (cnt_pos _ _ t); [by eapply ths_insert_same|done].
    - right; right. rewrite (cnt_insert _ _ _ _ _ Hp), Hk. destruct (kicking p'); (split; [lia|done]). }
  split; cbn; [lia|by rewrite Hn|..].
  - intros Ha Hc. destruct (Hcases (asleep_committed _ Ha)) as [?|[?|(Hle & ? & _ & ?)]]; [auto..|].
    destruct (H3 Ha) as [?|?]; lia.
  - intros Ha Ht. destruct (Hcases Ha) as [?|[?|(Hle & _ & E & ?)]]; [auto..|]. rewrite E in Ht.
    destruct (H4 Ha Ht) as [?|?]; lia.
Qed.

(** The queue's thread moves to where it relies on nobody. *)
Lemma awake_cons q l c hi ho q' c' hi' ho' :
  awake (MkSys q l c hi ho) -> needs c' = false -> 0 <= q_pipe q' -> awake (MkSys q' l c' hi' ho').
Proof.
  intros [H1 H2 H3 H4] Hc Hp.
  assert (committed c' = false) by (destruct (committed c') eqn:E; [|done]; apply committed_needs in E; congruence).
  split; cbn; [done|congruence|intros ?%asleep_committed; congruence|congruence].
Qed.

Lemma user_not_committed c : user_code c = true -> committed c = false.
Proof. by destruct c. Qed.

Lemma awake_add q l c hi ho hi' t p qu nf sy fo ts ob o q0 q' :
  awake (MkSys q l c hi ho) -> l !! t = Some p -> kicking p = false -> may_act t c ->
  need_kicking q0 = need_kicking q -> q_pipe q0 = q_pipe q -> terminated q0 = terminated q -> q_count q0 = q_count q ->
  add_spec q_max q0 qu nf fo ts ob o q' ->
  awake (MkSys (drop_sync t o q') (<[t := after_try t sy fo o]> l) c hi' ho).
Proof.
  intros Haw Hp Hk Hm E1 E2 E3 E4 Hsp. destruct (add_spec_keep _ _ _ _ _ _ _ _ _ t Hsp) as (_ & _ & F1 & F2 & F3).
  eapply awake_move; [done|done| |congruence|rewrite F3, E2; apply Haw].
  destruct (decide (t = 0%nat)) as [->|Ht]; [right; right; left; by apply user_not_committed, Hm|].
  destruct Hsp; cbn; rewrite ?(proj2 (Nat.eqb_neq t 0)) by done; [by left|..]; right; right; right; (split; [done|split; [cbn; lia|done]]).
Qed.

(** A move that has nothing to do with the queue. *)
Ltac quiet := right; right; right; cbn in *; (split; [done|split; [lia|done]]).

Lemma awake_step s s' ba qu : shape s ba qu -> awake s -> step s s' -> awake s'.
Proof.
  intros Hs Haw Hst. pose proof (ak_pipe _ Haw) as Hpipe. cbn in Hpipe.
  step_cases Hst; cbn in Hpipe.
  - unfold add_f_alloc, ____q_get, modq in Hr. run_in Hr.
    destruct (t =? 0)%nat, sy; cbn in Hr; injection Hr as <-; (eapply awake_move; [done|done|quiet|done|done]).
  - destruct (shape_add_spec _ _ _ _ _ _ _ _ _ _ _ _ _ _ _ Hs Hl eq_refl Hr) as (ob & Hob & Hsp). by eapply awake_add.
  - eapply awake_move; [done|done|destruct p; quiet|done|done].
  - unfold add_f_resume, modq in Hr. run_in Hr.
    destruct (shape_add_spec _ _ _ _ _ _ _ _ _ _ _ _ _ _ _ (shape_unwait _ _ _ _ _ _ _ Hs) Hl eq_refl Hr) as (ob & Hob & Hsp).
    eapply (awake_add q l cs hi ho _ t _ qu _ _ _ _ _ _ (w_wait_q_count (wait_q_count q - 1) q)); done.
  - unfold mp_kick_check, modq in Hr. run_in Hr. destruct (need_kicking q) eqn:En; injection Hr as <- <-.
    + eapply awake_move; [done|done|by left|done|done].
    + eapply awake_move; [done|done| |done|done]. right; right; left. destruct (committed cs) eqn:Ec; [|done].
      apply committed_needs in Ec. pose proof (ak_need _ Haw Ec) as Hx. cbn in Hx. congruence.
  - unfold os_mp_kick, modq in Hr. run_in Hr. destruct (flag_set _ _); [|destruct (Z.eqb_spec wr 1)]; injection Hr as <-.
    + eapply awake_move; [done|done|right; left; cbn; lia|done|cbn; lia].
    + eapply awake_move; [done|done|right; left; cbn; lia|done|cbn; lia].
    + eapply awake_move; [done|done|right; left; cbn; auto|done|cbn; lia].
  - eapply awake_move; [done|done|quiet|done|done].
  - injection Hr as <-. eapply awake_move; [done|done|quiet|done|done].
  - eapply awake_move; [done|done|by left|done|done].
  - destruct Haw as [H1 H2 H3 H4]. pose proof (user_not_committed _ Hu) as Hc. cbn in *.
    split; cbn; [done|done|by intros ?%asleep_committed; congruence|congruence].
  - unfold take_funcs, modq in Hr. run_in Hr. destruct (q_head q =? 0) eqn:E; cbn in Hr; injection Hr as <- <-;
      (eapply awake_cons; [done| |done]); unfold taken; rewrite ?E; by destruct k.
  - unfold process_begin, fo_get in Hr. run_in Hr. destruct (q_fos q !! h); [|done]. injection Hr as <- <-. by eapply awake_cons.
  - eapply awake_cons; [done|by destruct k|done].
  - unfold process_end, __free_fo, fo_get, modq in Hr. run_in Hr.
    destruct (q_fos q !! fo) as [ob|] eqn:Ho; [|done]. cbn in Hr. rewrite Ho in Hr. injection Hr as <- <- <-. by eapply awake_cons.
  - unfold process_sync, modq in Hr. destruct so as [t|]; run_in Hr; [destruct (q_syncs q !! t); [|done]|]; injection Hr as <-;
      by eapply awake_cons.
  - assert (Hw' : awake (MkSys q (<[t := wake p]> l) (CSignal k h) hi ho))
      by (eapply awake_move; [done|done|destruct p; quiet|done|done]).
    by eapply awake_cons.
  - by eapply awake_cons.
  - eapply awake_cons; [done|by destruct (terminated q)|done].
  - unfold poll_enter, modq in Hr. run_in Hr. destruct (_ && _); injection Hr as <- <-; [by split|by eapply awake_cons].
  - destruct (terminated q) eqn:Et; [by eapply awake_cons|]. destruct Haw as [H1 H2 H3 H4].
    split; cbn in *; [done|done|done|congruence].
  - unfold poll_count, modq in Hr. run_in Hr. destruct (Z.ltb_spec 0 (q_count q)) as [Hpos|Hz].
    + cbn in Hr. destruct (_ && _); injection Hr as <- <-; by eapply awake_cons.
    + injection Hr as <- <-. destruct Haw as [H1 H2 H3 H4]. split; cbn in *; [done|auto|lia|auto].
  - destruct Haw as [H1 H2 H3 H4]. by split.
  - by eapply awake_cons.
  - unfold os_drain_sigp, modq in Hr. run_in Hr. destruct (flag_set _ _); injection Hr as <-; (eapply awake_cons; [done|done|cbn; lia]).
  - by eapply awake_cons.
  - by eapply awake_cons.
  - by eapply awake_cons.
Qed.

(** ** Callers that wait for their function *)

(** The object of a synchronous call in progress. *)
Definition sobj (p : pstate) : option Z :=
  match p with
  | PTry _ true a | PWait true a | PWoken true a | PQueued true a | PKick true a | PSync a => Some a
  | _ => None
  end.
(** Its object was queued. *)
Definition squeued (p : pstate) : bool := match p with PQueued _ _ | PKick _ _ | PSync _ => true | _ => false end.
Definition csync (c : cstate) : option nat := match c with CSyn _ so _ => so | _ => None end.
Definition syncf (F : gmap Z q_func_obj) (a : Z) : option nat := F !! a ≫= fo_sync.

Record synced (s : sys) : Prop := MkSynced {
  sy_fos : forall a t, syncf (q_fos (sq s)) a = Some t ->
    exists p, ths s !! t = Some p /\ sobj p = Some a /\ q_syncs (sq s) !! t = Some false;
  sy_obj : forall t p a, ths s !! t = Some p -> sobj p = Some a ->
    (syncf (q_fos (sq s)) a = Some t /\ q_syncs (sq s) !! t = Some false) \/
    (squeued p = true /\ (q_syncs (sq s) !! t = Some true \/ (q_syncs (sq s) !! t = Some false /\ csync (cons s) = Some t)));
  sy_run : forall t, csync (cons s) = Some t ->
    (exists p a, ths s !! t = Some p /\ sobj p = Some a /\ squeued p = true) /\
    q_syncs (sq s) !! t = Some false /\ (forall a, syncf (q_fos (sq s)) a <> Some t);
  sy_held : forall t p a, ths s !! t = Some p -> held p = Some a -> sobj p = None -> syncf (q_fos (sq s)) a = None
}.

Lemma same_fos_syncf F F' a : same_fos F F' -> syncf F' a = syncf F a.
Proof.
  intros Hs. specialize (Hs a). unfold syncf. destruct (F' !! a), (F !! a); cbn in *; try done. by injection Hs as -> _.
Qed.

(** A move that keeps the synchronous call of the thread. *)
Lemma synced_keep q l c hi ho q' c' hi' ho' t p p' :
  synced (MkSys q l c hi ho) -> l !! t = Some p -> sobj p' = sobj p -> (squeued p = true -> sobj p' = None \/ squeued p' = true) ->
  (held p' = held p \/ held p' = None) ->
  (forall a, syncf (q_fos q') a = syncf (q_fos q) a) -> q_syncs q' = q_syncs q -> csync c' = csync c ->
  synced (MkSys q' (<[t := p']> l) c' hi' ho').
Proof.
  intros [H1 H2 H3 H4] Hp Ho Hq Hh Hf Hsy Hc. split; cbn in *; rewrite ?Hsy, ?Hc.
  - intros a t1. rewrite Hf. intros Ha. destruct (H1 _ _ Ha) as (p1 & Hp1 & Ho1 & Hs1).
    destruct (decide (t1 = t)) as [->|Ht]; [exists p'; rewrite (ths_insert_same _ _ _ _ Hp)|exists p1; by rewrite ths_insert_other].
    split; [done|]. split; [congruence|done].
  - intros t1 p1 a Hp1 Ha. rewrite Hf. destruct (ths_insert _ _ _ _ _ _ Hp Hp1) as [[-> ->]|[? Hl]]; [|eauto].
    rewrite Ho in Ha. destruct (H2 _ _ _ Hp Ha) as [?|[Hsq ?]]; [auto|]. right. split; [|done].
    destruct (Hq Hsq) as [?|?]; [congruence|done].
  - intros t1 Ht1. destruct (H3 _ Ht1) as ((p1 & a & Hp1 & Ho1 & Hq1) & Hs1 & Hn). split; [|split; [done|intros; by rewrite Hf]].
    destruct (decide (t1 = t)) as [->|Ht]; [exists p', a; rewrite (ths_insert_same _ _ _ _ Hp)|exists p1, a; by rewrite ths_insert_other].
    rewrite Hp in Hp1. injection Hp1 as <-. split; [done|]. split; [congruence|]. destruct (Hq Hq1); [congruence|done].
  - intros t1 p1 a Hp1 Ha Hn. rewrite Hf. destruct (ths_insert _ _ _ _ _ _ Hp Hp1) as [[-> ->]|[? Hl]]; [|eauto].
    eapply H4; [done|destruct Hh; congruence|congruence].
Qed.

(** No thread moves, and the memory and the synchronization objects stay. *)
Lemma synced_cons q l c hi ho q' c' hi' ho' :
  synced (MkSys q l c hi ho) -> q_fos q' = q_fos q -> q_syncs q' = q_syncs q -> csync c' = csync c ->
  synced (MkSys q' l c' hi' ho').
Proof. intros [H1 H2 H3 H4] E1 E2 E3. split; cbn in *; rewrite ?E1, ?E2, ?E3; done. Qed.

Lemma synced_call q l c hi ho q' hi' ho' (t : nat) nf (sy : bool) a o :
  synced (MkSys q l c hi ho) -> l !! t = Some PIdle -> q_fos q !! a = None ->
  (forall t p, l !! t = Some p -> held p <> Some a) ->
  q_fos q' = <[a := o]> (q_fos q) -> fo_sync o = (if sy then Some t else None) ->
  q_syncs q' = (if sy then <[t := false]> (q_syncs q) else q_syncs q) ->
  synced (MkSys q' (<[t := PTry nf sy a]> l) c hi' ho').
Proof.
  intros [H1 H2 H3 H4] Hp Ha Hnh E1 Eo E2. cbn in *.
  assert (Hft : forall b, syncf (q_fos q) b <> Some t) by (intros b Hb; destruct (H1 _ _ Hb) as (p & Hp1 & Ho1 & _); rewrite Hp in Hp1; by simplify_eq).
  assert (Hne : forall b t1, syncf (q_fos q) b = Some t1 -> b <> a) by (intros b t1 Hb ->; unfold syncf in Hb; by rewrite Ha in Hb).
  assert (Hf : forall b, syncf (q_fos q') b = if decide (b = a) then (if sy then Some t else None) else syncf (q_fos q) b).
  { intros b. unfold syncf. rewrite E1. destruct (decide (b = a)) as [->|Hb]; [|by rewrite lookup_insert_ne].
    rewrite lookup_insert, decide_True by done. done. }
  assert (Hsy : forall t1, t1 <> t -> q_syncs q' !! t1 = q_syncs q !! t1)
    by (intros t1 Ht1; rewrite E2; destruct sy; [by rewrite lookup_insert_ne|done]).
  split; cbn.
  - intros b t1. rewrite Hf. destruct (decide (b = a)) as [->|Hb].
    + destruct sy; [|done]. intros [= <-]. exists (PTry nf true a). rewrite (ths_insert_same _ _ _ _ Hp), E2.
      by rewrite lookup_insert, decide_True by done.
    + intros Hb1. destruct (H1 _ _ Hb1) as (p1 & Hp1 & Ho1 & Hs1). assert (t1 <> t) by (intros ->; by apply (Hft b)).
      exists p1. by rewrite ths_insert_other, Hsy.
  - intros t1 p1 b Hp1 Hb. destruct (ths_insert _ _ _ _ _ _ Hp Hp1) as [[-> ->]|[? Hl]].
    + left. destruct sy; [|done]. injection Hb as <-. rewrite Hf, decide_True, E2 by done.
      by rewrite lookup_insert, decide_True by done.
    + rewrite Hsy by done. destruct (H2 _ _ _ Hl Hb) as [[Hs1 ?]|?]; [left|by right].
      rewrite Hf, decide_False by eauto. done.
  - intros t1 Ht1. destruct (H3 _ Ht1) as ((p1 & b & Hp1 & Ho1 & Hq1) & Hs1 & Hn). assert (t1 <> t) by (intros ->; rewrite Hp in Hp1; by simplify_eq).
    rewrite Hsy by done. split; [exists p1, b; by rewrite ths_insert_other|]. split; [done|].
    intros b1. rewrite Hf. destruct (decide (b1 = a)); [destruct sy; congruence|auto].
  - intros t1 p1 b Hp1 Hb Hn. rewrite Hf. destruct (ths_insert _ _ _ _ _ _ Hp Hp1) as [[-> ->]|[? Hl]].
    + injection Hb as <-. rewrite decide_True by done. by destruct sy.
    + rewrite decide_False by (intros ->; by apply (Hnh _ _ Hl)). eauto.
Qed.

(** A call ends: its object, if any is left, is freed and its
    synchronization object dies. *)
Lemma synced_leave q l c hi ho q' hi' ho' t p p' :
  synced (MkSys q l c hi ho) -> l !! t = Some p -> sobj p' = None -> held p' = None -> csync c <> Some t ->
  (forall a, syncf (q_fos q') a <> Some t) ->
  (forall a t1, t1 <> t -> (syncf (q_fos q') a = Some t1 <-> syncf (q_fos q) a = Some t1)) ->
  q_syncs q' = delete t (q_syncs q) ->
  synced (MkSys q' (<[t := p']> l) c hi' ho').
Proof.
  intros [H1 H2 H3 H4] Hp Ho Hh Hc Hn Hf Hsy. cbn in *.
  assert (Hd : forall t1, t1 <> t -> q_syncs q' !! t1 = q_syncs q !! t1) by (intros; rewrite Hsy; by apply lookup_delete_ne).
  split; cbn.
  - intros a t1 Ha. assert (t1 <> t) by (intros ->; by apply (Hn a)). apply Hf in Ha; [|done].
    destruct (H1 _ _ Ha) as (p1 & ? & ? & ?). exists p1. by rewrite ths_insert_other, Hd.
  - intros t1 p1 a Hp1 Ha. destruct (ths_insert _ _ _ _ _ _ Hp Hp1) as [[-> ->]|[? Hl]]; [congruence|].
    rewrite Hd, Hf by done. eauto.
  - intros t1 Ht1. assert (t1 <> t) by congruence. destruct (H3 _ Ht1) as ((p1 & a & Hp1 & Ho1 & Hq1) & Hs1 & Hx).
    rewrite Hd by done. split; [exists p1, a; by rewrite ths_insert_other|]. split; [done|]. intros b Hb. apply Hf in Hb; [|done].
    by apply (Hx b).
  - intros t1 p1 a Hp1 Ha Ho1. destruct (ths_insert _ _ _ _ _ _ Hp Hp1) as [[-> ->]|[? Hl]]; [congruence|].
    pose proof (H4 _ _ _ Hl Ha Ho1) as Hx. destruct (syncf (q_fos q') a) as [t2|] eqn:E; [|done].
    assert (t2 <> t) by (intros ->; by apply (Hn a)). apply Hf in E; [congruence|done].
Qed.

Lemma syncf_delete F fo a t : syncf (delete fo F) a = Some t <-> a <> fo /\ syncf F a = Some t.
Proof.
  unfold syncf. destruct (decide (a = fo)) as [->|Ha]; [|rewrite lookup_delete_ne by done; naive_solver].
  rewrite lookup_delete, decide_True by done. naive_solver.
Qed.

(** [p] is a state from which an attempt to add is made. *)
Definition tries (p : pstate) (sy : bool) (fo : Z) : Prop :=
  held p = Some fo /\ sobj p = (if sy then Some fo else None) /\ squeued p = false.

Lemma synced_add q q0 l c hi ho hi' ba qu t p nf sy fo ts ob o q' :
  synced (MkSys q l c hi ho) -> shape (MkSys q l c hi ho) ba qu -> l !! t = Some p -> tries p sy fo -> (t = 0%nat -> sy = false) ->
  q_fos q0 = q_fos q -> q_syncs q0 = q_syncs q -> q_fos q !! fo = Some ob -> fo ∉ qu ->
  add_spec q_max q0 qu nf fo ts ob o q' ->
  synced (MkSys (drop_sync t o q') (<[t := after_try t sy fo o]> l) c hi' ho).
Proof.
  intros Hsy Hs Hp (Hh & Ho & Hq) Ht Ef Es Hob Hnq Hsp. destruct Hsp as [Hroom|e Hnf Hfull|Hnf Hfull]; cbn.
  - eapply synced_keep; [done|done| | | | | |done]; cbn.
    + rewrite Ho. destruct (Nat.eqb_spec t 0) as [E|E]; [by rewrite (Ht E)|by destruct sy].
    + by rewrite Hq.
    + right. by destruct (t =? 0)%nat.
    + intros a. rewrite Ef. apply same_fos_syncf, linked_fos_same; done.
    + done.
  - assert (Hfo : syncf (q_fos q) fo = if sy then Some t else None).
    { destruct sy; [|by eapply (sy_held _ Hsy)]. destruct (sy_obj _ Hsy t p fo Hp Ho) as [[? _]|[? _]]; [done|congruence]. }
    assert (Hmine : forall a, syncf (q_fos q) a = Some t -> a = fo).
    { intros a Ha. destruct (sy_fos _ Hsy _ _ Ha) as (p1 & Hp1 & Ho1 & _). cbn in Hp1. destruct sy; simplify_eq; congruence. }
    eapply synced_leave; [done|done|..]; cbn; try (by destruct (t =? 0)%nat).
    + intros Hc. destruct (sy_run _ Hsy _ Hc) as ((p1 & a & Hp1 & _ & Hq1) & _). cbn in Hp1. congruence.
    + intros a. rewrite syncf_delete, Ef. intros [Hne Ha]. by apply Hne, Hmine.
    + intros a t1 Ht1. rewrite syncf_delete, Ef. split; [naive_solver|]. intros Ha. split; [|done]. intros ->.
      rewrite Hfo in Ha. destruct sy; congruence.
    + by rewrite Es.
  - eapply synced_keep; [done|done| | | | |done|done]; cbn.
    + rewrite Ho. by destruct sy.
    + by rewrite Hq.
    + left. by rewrite Hh.
    + by rewrite Ef.
Qed.

(** The queue's thread has run an object. *)
Lemma synced_end q l k fo h hi ho hi' ho' ba qu ob q' :
  synced (MkSys q l (CRun k fo h) hi ho) -> shape (MkSys q l (CRun k fo h) hi ho) ba qu -> q_fos q !! fo = Some ob ->
  q_fos q' = delete fo (q_fos q) -> q_syncs q' = q_syncs q ->
  synced (MkSys q' l (CSyn k (fo_sync ob) h) hi' ho').
Proof.
  intros [H1 H2 H3 H4] Hs Hob Ef Es. cbn in *. assert (Hfo : syncf (q_fos q) fo = fo_sync ob) by (unfold syncf; by rewrite Hob).
  assert (Hnh : forall t p, l !! t = Some p -> held p <> Some fo).
  { intros t p Hp Hh. destruct (sh_held _ _ _ Hs t p fo Hp Hh) as (_ & Hx & _). apply Hx. unfold chain. cbn. set_solver. }
  split; cbn; rewrite ?Ef, ?Es.
  - intros a t Ha%syncf_delete. naive_solver.
  - intros t p a Hp Ha. destruct (H2 _ _ _ Hp Ha) as [[Hx Hy]|[Hq [Hx|[_ ?]]]]; [|by auto|done].
    destruct (decide (a = fo)) as [->|Hne]; [|left; by rewrite syncf_delete].
    right. split; [|right; split; [done|congruence]]. destruct p as [|? [] ?|[] ?|[] ?| | | |]; try done; by destruct (Hnh _ _ Hp).
  - intros t Ht. rewrite <-Hfo in Ht. destruct (H1 _ _ Ht) as (p & Hp & Ha & Hy). split; [|split; [done|]].
    + exists p, fo. split; [done|]. split; [done|]. destruct p as [|? [] ?|[] ?|[] ?| | | |]; try done; by destruct (Hnh _ _ Hp).
    + intros a [Hne Hx]%syncf_delete. destruct (H1 _ _ Hx) as (p1 & Hp1 & Ha1 & _). congruence.
  - intros t p a Hp Ha Ho. pose proof (H4 _ _ _ Hp Ha Ho) as Hx. destruct (syncf (delete fo (q_fos q)) a) eqn:E; [|done].
    apply syncf_delete in E as [_ E]. congruence.
Qed.

(** It tells the caller. *)
Lemma synced_signal q l k t h hi ho hi' ho' :
  synced (MkSys q l (CSyn k (Some t) h) hi ho) ->
  synced (MkSys (w_syncs (<[t := true]> (q_syncs q)) q) l (CSignal k h) hi' ho').
Proof.
  intros [H1 H2 H3 H4]. cbn in *. destruct (H3 t eq_refl) as ((p0 & a0 & Hp0 & Ha0 & Hq0) & Hs0 & Hn0). split; cbn; [| |done|done].
  - intros a t1 Ha. assert (t1 <> t) by (intros ->; by apply (Hn0 a)). rewrite lookup_insert_ne by done. eauto.
  - intros t1 p a Hp Ha. destruct (decide (t1 = t)) as [->|Ht].
    + right. rewrite Hp0 in Hp. injection Hp as <-. split; [done|]. left. by rewrite lookup_insert, decide_True by done.
    + rewrite lookup_insert_ne by done. destruct (H2 _ _ _ Hp Ha) as [?|[? [?|[_ ?]]]]; [auto|auto|congruence].
Qed.

Lemma synced_step s s' ba qu : shape s ba qu -> refs s -> synced s -> step s s' -> synced s'.
Proof.
  intros Hs Hrf Hsy Hst. step_cases Hst.
  - unfold add_f_alloc, ____q_get, modq in Hr. run_in Hr.
    assert (Hnh : forall t p, l !! t = Some p -> held p <> Some a).
    { intros t1 p1 Hp1 Hh1. destruct (held_alloc _ _ _ _ _ _ Hs Hp1 Hh1) as (ob & Hob & _). cbn in Hob. congruence. }
    eapply (synced_call _ _ _ _ _ _ _ _ _ _ sy a (MkFo jn jt (if sy then Some t else None) c)); [done|done|done|done|..];
      destruct (t =? 0)%nat, sy; cbn in Hr; injection Hr as <-; done.
  - destruct (shape_add_spec _ _ _ _ _ _ _ _ _ _ _ _ _ _ _ Hs Hl eq_refl Hr) as (ob & Hob & Hsp).
    destruct (held_alloc _ _ _ _ _ _ Hs Hl eq_refl) as (_ & _ & Hnq).
    eapply (synced_add q q); [done|done|done|by destruct sy| |done|done|done|done|done].
    intros ->. destruct (refs_owner_user _ _ Hrf Hl eq_refl) as [_ ?]. by destruct sy.
  - destruct p as [| |sy fo| | | | |]; try done. eapply synced_keep; [done|done|done|done|by left|done|done|done].
  - unfold add_f_resume, modq in Hr. run_in Hr.
    destruct (shape_add_spec _ _ _ _ _ _ _ _ _ _ _ _ _ _ _ (shape_unwait _ _ _ _ _ _ _ Hs) Hl eq_refl Hr) as (ob & Hob & Hsp).
    destruct (held_alloc _ _ _ _ _ _ Hs Hl eq_refl) as (_ & _ & Hnq).
    eapply (synced_add q (w_wait_q_count (wait_q_count q - 1) q)); [done|done|done|by destruct sy| |done|done|done|done|done].
    intros ->. destruct (refs_owner_user _ _ Hrf Hl eq_refl) as [_ ?]. by destruct sy.
  - unfold mp_kick_check, modq in Hr. run_in Hr. destruct (need_kicking q); injection Hr as <- <-;
      (eapply synced_keep; [done|done|by destruct sy|destruct sy; auto|right; by destruct sy|done|done|done]).
  - unfold os_mp_kick, modq in Hr. run_in Hr. destruct (flag_set _ _); [|destruct (wr =? 1)]; injection Hr as <-;
      (eapply synced_keep; [done|done|by destruct sy|destruct sy; auto|right; by destruct sy|done|done|done]).
  - eapply synced_leave; [done|done|done|done| | | |done].
    + intros Hc. destruct (sy_run _ Hsy _ Hc) as (_ & Hx & _). cbn in Hx. congruence.
    + cbn. intros a Ha. destruct (sy_fos _ Hsy _ _ Ha) as (p1 & _ & _ & Hx). cbn in Hx. congruence.
    + done.
  - injection Hr as <-. eapply synced_keep; [done|done|done|done|by left|done|done|done].
  - eapply synced_keep; [done|done|done|done|by left|done|done|done].
  - by eapply synced_cons.
  - unfold take_funcs, modq in Hr. run_in Hr.
    assert (Hc : csync c = None) by (by destruct Hk as [[_ ->]|[(_ & -> & _)|[_ ->]]]).
    destruct (q_head q =? 0) eqn:E; cbn in Hr; injection Hr as <- <-; (eapply synced_cons; [done|done|done|]); rewrite Hc;
      unfold taken; rewrite ?E; by destruct k.
  - unfold process_begin, fo_get in Hr. run_in Hr. destruct (q_fos q !! h); [|done]. injection Hr as <- <-. by eapply synced_cons.
  - eapply synced_cons; [done..|]. by destruct k.
  - unfold process_end, __free_fo, fo_get, modq in Hr. run_in Hr.
    destruct (q_fos q !! fo) as [ob|] eqn:Ho; [|done]. cbn in Hr. rewrite Ho in Hr. injection Hr as <- <- <-. by eapply synced_end.
  - unfold process_sync, modq in Hr. destruct so as [t|]; run_in Hr; [|injection Hr as <-; by eapply synced_cons].
    destruct (q_syncs q !! t) eqn:E; [|done]. injection Hr as <-. by eapply synced_signal.
  - destruct p as [| |sy fo| | | | |]; try done. eapply synced_keep; [done|done|done|done|by left|done|done|done].
  - by eapply synced_cons.
  - eapply synced_cons; [done..|]. by destruct (terminated q).
  - unfold poll_enter, modq in Hr. run_in Hr. destruct (_ && _); injection Hr as <- <-; by eapply synced_cons.
  - eapply synced_cons; [done..|]. by destruct (terminated q).
  - unfold poll_count, modq in Hr. run_in Hr. destruct (0 <? q_count q); [cbn in Hr; destruct (_ && _)|]; injection Hr as <- <-;
      by eapply synced_cons.
  - by eapply synced_cons.
  - by eapply synced_cons.
  - unfold os_drain_sigp, modq in Hr. run_in Hr. destruct (flag_set _ _); injection Hr as <-; by eapply synced_cons.
  - by eapply synced_cons.
  - by eapply synced_cons.
  - by eapply synced_cons.
Qed.
End Live.
