(* ===== verification/MpqSpec.v ===== *)
(** * What a multiplex queue promises

    The theorems on the queue, its callers and its thread, in every state
    that any interleaving can reach. *)
From S2P Require Import Prelude Mpq MpqProto MpqInv MpqLive.
#[local] Open Scope aosl_scope.

Section Reach.
Context (q_max q_flags iofd_count : Z).
Context (Hmax : 1 <= q_max).

(** The list of a queue that is gone is empty. *)
Definition gone (s : sys) : Prop := cons s = CDead -> q_head (sq s) = 0.

Lemma gone_step s s' ba qu : shape s ba qu -> refs s -> gone s -> step q_max q_flags iofd_count s s' -> gone s'.
Proof.
  intros Hs Hrf Hg Hst.
  assert (Hquiet : cons s = CDead -> forall t p, ths s !! t = Some p -> busy p = false).
  { intros Hd t p Hp. destruct (busy p) eqn:Hb; [|done]. destruct (decide (t = 0%nat)) as [->|Ht].
    - destruct (refs_owner_user _ _ Hrf Hp Hb) as [Hu _]. by rewrite Hd in Hu.
    - pose proof (refs_busy _ _ _ Hrf Hp Hb Ht) as Hx. by rewrite Hd in Hx. }
  unfold gone in *. step_cases Hst; cbn in *; intros Hd; try done;
    try (by specialize (Hquiet Hd _ _ Hl)); try (by destruct (terminated q)); try (by destruct b); try (by destruct o).
  - subst cs. unfold add_f_alloc, ____q_get, modq in Hr. run_in Hr.
    destruct (t =? 0)%nat, sy; cbn in Hr; injection Hr as <-; auto.
  - subst cs. auto.
  - auto.
  - auto.
  - unfold take_funcs, modq in Hr. run_in Hr. unfold taken in Hd.
    destruct (Z.eqb_spec (q_head q) 0) as [E|E]; cbn in Hr; injection Hr as <- <-; [done|].
    by rewrite (proj2 (Z.eqb_neq _ _)) in Hd.
  - by destruct k.
Qed.

(** All the invariants. *)
Definition good (s : sys) : Prop :=
  (exists ba qu, shape s ba qu) /\ refs s /\ room s /\ awake s /\ synced s /\ gone s.


Lemma good_init n : good (sys_init n).
Proof.
  assert (Hi : forall t p, replicate (S n) PIdle !! t = Some p -> p = PIdle) by (intros t p [-> _]%lookup_replicate; done).
  split; [|split; [|split; [|split; [|split]]]].
  - exists [], []. split; try done.
    + unfold chain. cbn. constructor.
    + intros a. split; [intros [? Hx]; done|]. intros [Hx|(t & p & Hp & Hh)]; [by apply elem_of_nil in Hx|].
      apply Hi in Hp as ->. done.
    + intros t p a Hp Hh. apply Hi in Hp as ->. done.
  - split; try done; cbn.
    + exists PIdle. auto.
    + by rewrite cnt_replicate.
  - split; unfold sys_init, q_init; cbn [ths sq wait_q_count q_count cons]; rewrite ?cnt_replicate by done; [done|lia].
  - by split.
  - split; try done; intros t p a Hp Hh; by apply Hi in Hp as ->.
  - done.
Qed.

Lemma good_step s s' : good s -> step q_max q_flags iofd_count s s' -> good s'.
Proof.
  intros ((ba & qu & Hs) & Hr & Hm & Ha & Hy & Hg) Hst.
  split; [by eapply shape_step|]. split; [by eapply refs_step|]. split; [by eapply room_step|].
  split; [by eapply awake_step|]. split; [by eapply synced_step|by eapply gone_step].
Qed.

Lemma reach_good n s : reachable q_max q_flags iofd_count n s -> good s.
Proof. induction 1; [apply good_init|by eapply good_step]. Qed.
End Reach.

(** ** The properties *)

(** C1: every function runs exactly once and in the order of queueing: in
    every reachable state the calls queued so far are those run so far
    followed by those whose objects wait in memory, and [q->count] is the
    number of the latter. *)
Theorem mpq_fifo q_max q_flags iofd_count n s (Hmax : 1 <= q_max) (Hr : reachable q_max q_flags iofd_count n s) :
  exists objs, NoDup objs /\ Forall (fun a => is_Some (q_fos (sq s) !! a)) objs /\
    h_in s = h_out s ++ calls (q_fos (sq s)) objs /\ q_count (sq s) = Z.of_nat (length objs).
Proof.
  destruct (reach_good _ _ _ Hmax _ _ Hr) as ((ba & qu & Hs) & _). exists (chain (cons s) ba qu).
  split; [apply Hs|]. split; [|split; apply Hs].
  apply Forall_forall. intros a Ha. apply Hs. by left.
Qed.

(** C3: when the queue's thread is through with [__q_wait_destroy] and the
    queue can be freed, every function that was queued has run, no function
    object is left in memory and no thread is inside a call on the queue. *)
Theorem mpq_destroy_complete q_max q_flags iofd_count n s (Hmax : 1 <= q_max)
  (Hr : reachable q_max q_flags iofd_count n s) (Hd : cons s = CDead) :
  h_in s = h_out s /\ q_fos (sq s) = ∅ /\ forall t p, ths s !! t = Some p -> p = PIdle.
Proof.
  destruct (reach_good _ _ _ Hmax _ _ Hr) as ((ba & qu & Hs) & Hrf & _ & _ & _ & Hq). specialize (Hq Hd).
  assert (Hidle : forall t p, ths s !! t = Some p -> p = PIdle).
  { intros t p Hp. destruct (busy p) eqn:Hb; [|by destruct p]. destruct (decide (t = 0%nat)) as [->|Ht].
    - destruct (refs_owner_user _ _ Hrf Hp Hb) as [Hu _]. by rewrite Hd in Hu.
    - pose proof (refs_busy _ _ _ Hrf Hp Hb Ht) as Hx. by rewrite Hd in Hx. }
  assert (Hc : chain (cons s) ba qu = []).
  { pose proof (sh_batch _ _ _ Hs) as Hb. pose proof (sh_queue _ _ _ Hs) as Hq1. rewrite Hd in Hb. rewrite Hq in Hq1.
    rewrite Hd. unfold chain. cbn in *. destruct ba; [|by destruct Hb as (? & ? & _)]. by destruct qu; [|destruct Hq1 as (? & ? & _)]. }
  split; [|split; [|done]].
  - rewrite (sh_hist _ _ _ Hs), Hc. by rewrite app_nil_r.
  - apply map_empty. intros a. destruct (q_fos (sq s) !! a) eqn:E; [|done].
    destruct (proj1 (sh_dom _ _ _ Hs a)) as [Hx|(t & p & Hp & Hh)]; [by rewrite E|by rewrite Hc in Hx; apply elem_of_nil in Hx|].
    by rewrite (Hidle _ _ Hp) in Hh.
Qed.

(** C2: no thread ever touches memory that is gone: in every reachable state
    the next section of each thread that holds a function object, and of the
    queue's thread, returns without a fault, and a function object that points
    to the synchronization object of a thread does so only while that thread is
    inside its synchronous call. *)
Theorem mpq_memory_safe q_max q_flags iofd_count n s (Hmax : 1 <= q_max) (Hr : reachable q_max q_flags iofd_count n s) :
  (forall t p fo nf st ts, ths s !! t = Some p -> held p = Some fo ->
     (exists r, add_f_locked q_max q_flags nf st fo ts (sq s) = Ret r) /\
     (exists r, add_f_resume q_max q_flags nf st fo ts (sq s) = Ret r)) /\
  (forall k h, cons s = CBatch k h -> h <> 0 -> exists r, process_begin h (sq s) = Ret r) /\
  (forall k fo h, cons s = CRun k fo h -> exists r, process_end fo (sq s) = Ret r) /\
  (forall k so h, cons s = CSyn k so h -> exists r, process_sync so (sq s) = Ret r) /\
  (forall a o t, q_fos (sq s) !! a = Some o -> fo_sync o = Some t ->
     exists p, ths s !! t = Some p /\ sobj p = Some a /\ q_syncs (sq s) !! t = Some false).
Proof.
  destruct (reach_good _ _ _ Hmax _ _ Hr) as ((ba & qu & Hs) & _ & _ & _ & Hy & _).
  split; [|split; [|split; [|split]]].
  - intros t p fo nf st ts Hp Hh. destruct (held_alloc _ _ _ _ _ _ Hs Hp Hh) as (ob & Hob & Hnq).
    destruct (add_f_locked_spec q_max q_flags (sq s) qu nf st fo ts ob) as (o & q' & Ho & _); [apply Hs|apply Hs|done|done|].
    destruct (add_f_locked_spec q_max q_flags (w_wait_q_count (wait_q_count (sq s) - 1) (sq s)) qu nf st fo ts ob)
      as (o2 & q2 & Ho2 & _); [apply Hs|apply Hs|done|done|]. split; [by rewrite Ho; eauto|].
    unfold add_f_resume, modq. run. rewrite Ho2. eauto.
  - intros k h Hc Hh. pose proof (sh_batch _ _ _ Hs) as Hb. rewrite Hc in Hb. cbn in Hb. destruct ba as [|a ba]; [done|].
    destruct Hb as (-> & _ & o & Ho & _). unfold process_begin, fo_get. run. rewrite Ho. eauto.
  - intros k fo h Hc. destruct (proj2 (sh_dom _ _ _ Hs fo)) as [o Ho]; [left; unfold chain; rewrite Hc; set_solver|].
    unfold process_end, __free_fo, fo_get, modq. run. rewrite Ho. cbn. rewrite Ho. eauto.
  - intros k so h Hc. unfold process_sync, modq. destruct so as [t|]; run; [|eauto].
    destruct (sy_run _ Hy t) as (_ & Hx & _); [by rewrite Hc|]. rewrite Hx. eauto.
  - intros a o t Ho Ht. apply (sy_fos _ Hy). unfold syncf. by rewrite Ho.
Qed.

(** C25: a caller that waits for its function is not forgotten: either its
    function has run and it was told, or its function object is still queued
    or running, or the queue's thread is just about to tell it. *)
Theorem mpq_sync_caller_told q_max q_flags iofd_count n s t a (Hmax : 1 <= q_max)
  (Hr : reachable q_max q_flags iofd_count n s) (Ht : ths s !! t = Some (PSync a)) :
  q_syncs (sq s) !! t = Some true \/
  (q_syncs (sq s) !! t = Some false /\
   ((exists o, q_fos (sq s) !! a = Some o /\ fo_sync o = Some t) \/ exists k h, cons s = CSyn k (Some t) h)).
Proof.
  destruct (reach_good _ _ _ Hmax _ _ Hr) as (_ & _ & _ & _ & Hy & _).
  destruct (sy_obj _ Hy t _ a Ht eq_refl) as [[Hf Hs]|[_ [Hs|[Hs Hc]]]].
  - right. split; [done|]. left. unfold syncf in Hf. destruct (q_fos (sq s) !! a) as [o|]; [eauto|done].
  - by left.
  - right. split; [done|]. right. destruct (cons s); try done. cbn in Hc. subst. eauto.
Qed.

(** C4: no wake-up is lost: when the queue's thread sleeps (or has decided to
    sleep) although functions are queued, or although it was told to
    terminate, then a signal is in the pipe, or some thread is on its way to
    write one. *)
Theorem mpq_no_lost_wakeup q_max q_flags iofd_count n s timeo (Hmax : 1 <= q_max)
  (Hr : reachable q_max q_flags iofd_count n s) (Hc : cons s = CWait timeo \/ cons s = CBlocked timeo) (Ht : timeo <> 0)
  (Hw : 0 < q_count (sq s) \/ terminated (sq s) = true) :
  need_kicking (sq s) = true /\
  (0 < q_pipe (sq s) \/ exists t sync fo, ths s !! t = Some (PQueued sync fo) \/ ths s !! t = Some (PKick sync fo)).
Proof.
  destruct (reach_good _ _ _ Hmax _ _ Hr) as (_ & _ & _ & Ha & _).
  assert (Has : asleep (cons s) = true) by (destruct Hc as [-> | ->]; cbn; by rewrite (proj2 (Z.eqb_neq timeo 0))).
  split; [by apply Ha, committed_needs, asleep_committed|].
  assert (Hk : 0 < q_pipe (sq s) \/ 0 < cnt kicking (ths s)).
  { destruct Hw; [by apply (ak_funcs _ Ha)|by apply (ak_term _ Ha); [apply asleep_committed|]]. }
  destruct Hk as [?|Hk]; [by left|right]. clear -Hk. induction (ths s) as [|p l IH]; cbn in Hk; [lia|].
  destruct (kicking p) eqn:E; [destruct p; try done; exists 0%nat; cbn; eauto|].
  destruct (IH ltac:(lia)) as (t & sy & fo & Hx). by exists (S t), sy, fo.
Qed.

(** C24: no thread is left waiting for room in a queue that has room and
    nothing to run: a waiter implies that functions are still queued, or that
    the queue's thread is about to signal, or that another waiter has been
    signalled; and [wait_q_count] counts the waiters. *)
Theorem mpq_no_stranded_waiter q_max q_flags iofd_count n s t sync fo (Hmax : 1 <= q_max)
  (Hr : reachable q_max q_flags iofd_count n s) (Ht : ths s !! t = Some (PWait sync fo)) :
  0 < wait_q_count (sq s) /\
  (0 < q_count (sq s) \/ signals (cons s) = true \/ exists t' sync' fo', ths s !! t' = Some (PWoken sync' fo')).
Proof.
  destruct (reach_good _ _ _ Hmax _ _ Hr) as (_ & _ & [H1 H2] & _). split.
  - rewrite H1. by eapply cnt_pos.
  - destruct H2 as [?|[?|Hw]]; [by eapply cnt_pos|auto|auto|]. right; right.
    clear -Hw. induction (ths s) as [|p l IH]; cbn in Hw; [lia|].
    destruct (woken p) eqn:E; [destruct p; try done; exists 0%nat; cbn; eauto|].
    destruct (IH ltac:(lia)) as (t & sy & fo & Hx). by exists (S t), sy, fo.
Qed.

(** ** Runs *)

Definition demo_call : call := MkCall (-1) (-1) 7 2 [5; 6].

(** One more step of a run. *)
Tactic Notation "go" hyp(H) uconstr(c) :=
  eapply reach_step in H; [|eapply c; first [reflexivity|by intros|by left|by right|cbn; lia|by right; left|left; cbn; lia|cbn; auto]]; vm_compute in H.

(** Another thread makes a synchronous call; the queue's thread takes it. *)
Lemma demo_run_sync : exists s, reachable 1 0 0 1 s /\ ths s !! 1%nat = Some (PSync 64) /\ cons s = CRun KLoop 64 0 /\ q_count (sq s) = 1.
Proof.
  pose proof (reach_init 1 0 0 1) as H.
  go H (s_call 1 0 0 1 false true 64 demo_call 0 0). go H (s_try 1 0 0 1 false true 64 false 100). go H (s_kick_check 1 0 0 1).
  go H (c_take 1 0 0 KLoop). go H (c_begin 1 0 0 KLoop 64).
  eexists. split; [exact H|]. done.
Qed.

(** The queue's thread goes to sleep; another thread queues a function. *)
Lemma demo_run_sleep : exists s, reachable 1 0 0 1 s /\ cons s = CBlocked (-1) /\ q_count (sq s) = 1.
Proof.
  pose proof (reach_init 1 0 0 1) as H.
  go H (c_take 1 0 0 KLoop). go H (c_timers 1 0 0). go H (c_poll_enter 1 0 0 (-1)). go H (c_poll_term 1 0 0).
  go H (c_poll_count 1 0 0). go H (c_wait 1 0 0).
  go H (s_call 1 0 0 1 false false 64 demo_call 0 0). go H (s_try 1 0 0 1 false false 64 false 100).
  eexists. split; [exact H|]. done.
Qed.

(** Two threads call; the second finds the queue full and waits. *)
Lemma demo_run_full : exists s, reachable 1 0 0 2 s /\ ths s !! 2%nat = Some (PWait false 128).
Proof.
  pose proof (reach_init 1 0 0 2) as H.
  go H (s_call 1 0 0 1 false false 64 demo_call 0 0). go H (s_try 1 0 0 1 false false 64 false 100).
  go H (s_call 1 0 0 2 false false 128 demo_call 0 0). go H (s_try 1 0 0 2 false false 128 false 101).
  eexists. split; [exact H|]. done.
Qed.

(** The queue is destroyed with a function queued. *)
Lemma demo_run_dead : exists s, reachable 1 0 0 1 s /\ cons s = CDead /\ h_out s = [demo_call].
Proof.
  pose proof (reach_init 1 0 0 1) as H.
  go H (s_call 1 0 0 1 false false 64 demo_call 0 0). go H (s_try 1 0 0 1 false false 64 false 100).
  go H (s_kick_check 1 0 0 1). go H (s_put 1 0 0 1). go H (s_destroy 1 0 0 1).
  go H (c_take 1 0 0 KLoop). go H (c_begin 1 0 0 KLoop 64). go H (c_end 1 0 0 KLoop 64). go H (c_sync 1 0 0).
  go H (c_no_signal 1 0 0). go H (c_batch_end 1 0 0). go H (c_timers 1 0 0). go H (c_uninstall 1 0 0).
  go H (s_kick_check 1 0 0 1). go H (s_put 1 0 0 1).
  go H (c_unused 1 0 0). go H (c_take 1 0 0 KEnd2).
  eexists. split; [exact H|]. done.
Qed.

Lemma mpq_fifo_witness : exists s objs, reachable 1 0 0 1 s /\ q_count (sq s) = 1 /\
  h_in s = h_out s ++ calls (q_fos (sq s)) objs /\ q_count (sq s) = Z.of_nat (length objs).
Proof.
  destruct demo_run_sync as (s & Hr & _ & _ & Hc).
  destruct (mpq_fifo 1 0 0 1 s ltac:(lia) Hr) as (objs & _ & _ & H1 & H2). by exists s, objs.
Defined.

Lemma mpq_destroy_complete_witness : exists s, reachable 1 0 0 1 s /\ cons s = CDead /\ h_in s = [demo_call] /\ q_fos (sq s) = ∅.
Proof.
  destruct demo_run_dead as (s & Hr & Hd & Ho). exists s.
  destruct (mpq_destroy_complete 1 0 0 1 s ltac:(lia) Hr Hd) as (H1 & H2 & _). by rewrite H1, Ho.
Defined.

Lemma mpq_memory_safe_witness : exists s r, reachable 1 0 0 1 s /\ process_end 64 (sq s) = Ret r.
Proof.
  destruct demo_run_sync as (s & Hr & _ & Hc & _).
  destruct (mpq_memory_safe 1 0 0 1 s ltac:(lia) Hr) as (_ & _ & H & _). destruct (H _ _ _ Hc) as [r Hx]. by exists s, r.
Defined.

Lemma mpq_sync_caller_told_witness : exists s, reachable 1 0 0 1 s /\ ths s !! 1%nat = Some (PSync 64) /\
  (q_syncs (sq s) !! 1%nat = Some true \/
   (q_syncs (sq s) !! 1%nat = Some false /\
    ((exists o, q_fos (sq s) !! 64 = Some o /\ fo_sync o = Some 1%nat) \/ exists k h, cons s = CSyn k (Some 1%nat) h))).
Proof.
  destruct demo_run_sync as (s & Hr & Ht & _). exists s. split; [done|]. split; [done|].
  apply (mpq_sync_caller_told 1 0 0 1 s 1 64); [lia|done|done].
Defined.

Lemma mpq_no_lost_wakeup_witness : exists s, reachable 1 0 0 1 s /\ cons s = CBlocked (-1) /\
  (0 < q_pipe (sq s) \/ exists t sync fo, ths s !! t = Some (PQueued sync fo) \/ ths s !! t = Some (PKick sync fo)).
Proof.
  destruct demo_run_sleep as (s & Hr & Hc & Hq). exists s. split; [done|]. split; [done|].
  apply (mpq_no_lost_wakeup 1 0 0 1 s (-1)); [lia|done|by right|lia|left; lia].
Defined.

Lemma mpq_no_stranded_waiter_witness : exists s, reachable 1 0 0 2 s /\ 0 < wait_q_count (sq s) /\
  (0 < q_count (sq s) \/ signals (cons s) = true \/ exists t' sync' fo', ths s !! t' = Some (PWoken sync' fo')).
Proof.
  destruct demo_run_full as (s & Hr & Ht). exists s. split; [done|].
  apply (mpq_no_stranded_waiter 1 0 0 2 s 2 false 128); [lia|done|done].
Defined.
