(* ===== verification/RwLock.v ===== *)
(** * Reader-writer locks: [lib/rwlockimpl.c], [include/kernel/rwlock-generic.h]

    One word holds the state of a lock: the active threads in its low half,
    and a negative bias for a writer and for a non-empty list of waiters.
    The fast paths are single atomic operations on the word; the slow paths
    run under a mutex that protects the list.  The definitions named after a
    function compute its atomic sections; [step] interleaves the threads. *)
From S2P Require Import Prelude.

(** ** The word *)

(** 64-bit constants of [rwlock-generic.h]. *)
Definition RWLOCK_ACTIVE_MASK : Z := 0xffffffff.
Definition RWLOCK_UNLOCKED_VALUE : Z := 0.
Definition RWLOCK_ACTIVE_BIAS : Z := 1.
Definition RWLOCK_WAITING_BIAS : Z := - (RWLOCK_ACTIVE_MASK + 1).
Definition RWLOCK_ACTIVE_READ_BIAS : Z := RWLOCK_ACTIVE_BIAS.
Definition RWLOCK_ACTIVE_WRITE_BIAS : Z := RWLOCK_WAITING_BIAS + RWLOCK_ACTIVE_BIAS.

(** Each fast path: the new word, and whether the lock was taken (or, for the
    unlocks, whether the waiters have to be woken). *)
Definition __rwlock_rdlock (count : Z) : Z * bool :=
  let c := count + 1 in (c, negb (c <=? 0)).
Definition __rwlock_wrlock (count : Z) : Z * bool :=
  let c := count + RWLOCK_ACTIVE_WRITE_BIAS in (c, c =? RWLOCK_ACTIVE_WRITE_BIAS).
Definition __rwlock_tryrdlock (count : Z) : Z * bool :=
  if 0 <=? count then (count + RWLOCK_ACTIVE_READ_BIAS, true) else (count, false).
Definition __rwlock_trywrlock (count : Z) : Z * bool :=
  if count =? RWLOCK_UNLOCKED_VALUE then (RWLOCK_ACTIVE_WRITE_BIAS, true) else (count, false).
Definition __rwlock_rdunlock (count : Z) : Z * bool :=
  let c := count - 1 in (c, (c <? -1) && (Z.land c RWLOCK_ACTIVE_MASK =? 0)).
Definition __rwlock_wrunlock (count : Z) : Z * bool :=
  let c := count - RWLOCK_ACTIVE_WRITE_BIAS in (c, c <? 0).
Definition __rwlock_wr2rd_lock (count : Z) : Z * bool :=
  let c := count - RWLOCK_WAITING_BIAS in (c, c <? 0).

(** ** The list of waiters *)

Inductive rwlock_waiter_type := RWLOCK_WAITING_FOR_WRITE | RWLOCK_WAITING_FOR_READ.
Inductive rwlock_wake_type := RWLOCK_WAKE_ANY | RWLOCK_WAKE_READERS | RWLOCK_WAKE_READ_OWNED.

(** The waiters, first to last: the thread and what it waits for. *)
Abbreviation wait_list := (list (nat * rwlock_waiter_type)).

Definition is_reader (ty : rwlock_waiter_type) : bool :=
  match ty with RWLOCK_WAITING_FOR_READ => true | RWLOCK_WAITING_FOR_WRITE => false end.
Definition list_empty (wl : wait_list) : bool := match wl with [] => true | _ => false end.
Definition list_is_singular (wl : wait_list) : bool := match wl with [_] => true | _ => false end.

(** [rwlock_read_lock_failed] and [rwlock_write_lock_failed] under the mutex,
    before the waiter is appended: the new word and whether to wake. *)
Definition read_failed (wl : wait_list) (count : Z) : Z * bool :=
  let adjustment := - RWLOCK_ACTIVE_READ_BIAS + (if list_empty wl then RWLOCK_WAITING_BIAS else 0) in
  let c := count + adjustment in
  (c, (c =? RWLOCK_WAITING_BIAS) || ((RWLOCK_WAITING_BIAS <? c) && negb (adjustment =? - RWLOCK_ACTIVE_READ_BIAS))).
Definition write_failed (wl : wait_list) (count : Z) : Z * bool :=
  let adjustment := - RWLOCK_ACTIVE_WRITE_BIAS + (if list_empty wl then RWLOCK_WAITING_BIAS else 0) in
  let c := count + adjustment in
  (c, (RWLOCK_WAITING_BIAS <? c) && (adjustment =? - RWLOCK_ACTIVE_WRITE_BIAS)).

(** The attempt of a waiting writer that last read [c]: the new word. *)
Definition write_try (c : Z) (wl : wait_list) (count : Z) : option Z :=
  if Z.land c RWLOCK_ACTIVE_MASK =? 0 then
    if count =? RWLOCK_WAITING_BIAS then
      Some (RWLOCK_ACTIVE_WRITE_BIAS + (if list_is_singular wl then 0 else RWLOCK_WAITING_BIAS))
    else None
  else None.

(** The readers at the head of the list that [__rwlock_do_wake] wakes, and
    the rest. *)
Fixpoint wake_readers (wl : wait_list) : list nat * wait_list :=
  match wl with
  | (t, ty) :: r => if is_reader ty then let '(w, rest) := wake_readers r in (t :: w, rest) else ([], wl)
  | [] => ([], [])
  end.

(** What [__rwlock_do_wake] adds to the word for them. *)
Definition wake_adjustment (woken : list nat) (rest : wait_list) (adjustment : Z) : Z :=
  Z.of_nat (length woken) * RWLOCK_ACTIVE_READ_BIAS - adjustment -
  (if list_empty rest then RWLOCK_WAITING_BIAS else 0).

(** ** Threads *)

(** What a thread inside [__rwlock_do_wake] returns to. *)
Inductive wkont := KRead | KWrite (count : Z) | KWake | KDown.

(** Where a thread is: outside; holding the lock; before the slow path;
    waiting; a waiting writer with the mutex; before [rwlock_wake] and
    [rwlock_downgrade_wake]; and the points of [__rwlock_do_wake]. *)
Inductive pc :=
| Idle | RHeld | WHeld | RFail | WFail
| RWait | WTry (count : Z) | WWait
| Wake | Down
| DStart (ty : rwlock_wake_type) (k : wkont)
| DGrant (k : wkont)
| DUndo (k : wkont)
| DCount (granted : bool) (k : wkont)
| DNull (woken : list nat) (k : wkont)
| DPulse (t : nat) (woken : list nat) (k : wkont).

(** The [struct rwlock_waiter] of a thread: none; in the list; given the
    lock; and with [event] set to NULL. *)
Inductive wstatus := WNone | WQueued | WGranted | WNull.
Record thread := MkTh { t_pc : pc; t_ws : wstatus }.

Record rwst := MkRw {
  rw_count : Z;
  rw_mutex : option nat;
  rw_list : wait_list;
  rw_ths : list thread
}.

(** The end of [__rwlock_do_wake] in thread [t]: the next point, and the mutex. *)
Definition finish (t : nat) (k : wkont) : pc * option nat :=
  match k with
  | KRead => (RWait, None)
  | KWrite c => (WTry c, Some t)
  | KWake => (Idle, None)
  | KDown => (RHeld, None)
  end.

Definition set_ws (ws : wstatus) (l : list thread) (t : nat) : list thread :=
  match l !! t with Some th => <[t := MkTh (t_pc th) ws]> l | None => l end.
Definition grant (woken : list nat) (l : list thread) : list thread := foldl (set_ws WGranted) l woken.

Inductive step : rwst -> rwst -> Prop :=
(** Fast paths. *)
| st_rdlock t w c ok n m wl l : l !! t = Some (MkTh Idle w) -> __rwlock_rdlock n = (c, ok) ->
    step (MkRw n m wl l) (MkRw c m wl (<[t := MkTh (if ok then RHeld else RFail) w]> l))
| st_wrlock t w c ok n m wl l : l !! t = Some (MkTh Idle w) -> __rwlock_wrlock n = (c, ok) ->
    step (MkRw n m wl l) (MkRw c m wl (<[t := MkTh (if ok then WHeld else WFail) w]> l))
| st_tryrdlock t w c ok n m wl l : l !! t = Some (MkTh Idle w) -> __rwlock_tryrdlock n = (c, ok) ->
    step (MkRw n m wl l) (MkRw c m wl (<[t := MkTh (if ok then RHeld else Idle) w]> l))
| st_trywrlock t w c ok n m wl l : l !! t = Some (MkTh Idle w) -> __rwlock_trywrlock n = (c, ok) ->
    step (MkRw n m wl l) (MkRw c m wl (<[t := MkTh (if ok then WHeld else Idle) w]> l))
| st_rdunlock t w c wk n m wl l : l !! t = Some (MkTh RHeld w) -> __rwlock_rdunlock n = (c, wk) ->
    step (MkRw n m wl l) (MkRw c m wl (<[t := MkTh (if wk then Wake else Idle) w]> l))
| st_wrunlock t w c wk n m wl l : l !! t = Some (MkTh WHeld w) -> __rwlock_wrunlock n = (c, wk) ->
    step (MkRw n m wl l) (MkRw c m wl (<[t := MkTh (if wk then Wake else Idle) w]> l))
| st_wr2rd t w c wk n m wl l : l !! t = Some (MkTh WHeld w) -> __rwlock_wr2rd_lock n = (c, wk) ->
    step (MkRw n m wl l) (MkRw c m wl (<[t := MkTh (if wk then Down else RHeld) w]> l))
(** [rwlock_read_lock_failed]. *)
| st_read_failed t w c wk n wl l : l !! t = Some (MkTh RFail w) -> read_failed wl n = (c, wk) ->
    step (MkRw n None wl l)
         (MkRw c (if wk then Some t else None) (wl ++ [(t, RWLOCK_WAITING_FOR_READ)])
            (<[t := MkTh (if wk then DStart RWLOCK_WAKE_ANY KRead else RWait) WQueued]> l))
| st_read_given t n m wl l : l !! t = Some (MkTh RWait WNull) ->
    step (MkRw n m wl l) (MkRw n m wl (<[t := MkTh RHeld WNone]> l))
(** [rwlock_write_lock_failed]; a wait may return at any time. *)
| st_write_failed t w c wk n wl l : l !! t = Some (MkTh WFail w) -> write_failed wl n = (c, wk) ->
    step (MkRw n None wl l)
         (MkRw c (Some t) (wl ++ [(t, RWLOCK_WAITING_FOR_WRITE)])
            (<[t := MkTh (if wk then DStart RWLOCK_WAKE_READERS (KWrite c) else WTry c) WQueued]> l))
| st_write_got t w c c' n m wl l : l !! t = Some (MkTh (WTry c) w) -> write_try c wl n = Some c' ->
    step (MkRw n m wl l)
         (MkRw c' None (filter (fun x => fst x <> t) wl) (<[t := MkTh WHeld WNone]> l))
| st_write_wait t w c n m wl l : l !! t = Some (MkTh (WTry c) w) -> write_try c wl n = None ->
    step (MkRw n m wl l) (MkRw n None wl (<[t := MkTh WWait w]> l))
| st_write_again t w n wl l : l !! t = Some (MkTh WWait w) ->
    step (MkRw n None wl l) (MkRw n (Some t) wl (<[t := MkTh (WTry n) w]> l))
(** [rwlock_wake], [rwlock_downgrade_wake]. *)
| st_wake t w n wl l : l !! t = Some (MkTh Wake w) ->
    step (MkRw n None wl l)
         (if list_empty wl then MkRw n None wl (<[t := MkTh Idle w]> l)
          else MkRw n (Some t) wl (<[t := MkTh (DStart RWLOCK_WAKE_ANY KWake) w]> l))
| st_down t w n wl l : l !! t = Some (MkTh Down w) ->
    step (MkRw n None wl l)
         (if list_empty wl then MkRw n None wl (<[t := MkTh RHeld w]> l)
          else MkRw n (Some t) wl (<[t := MkTh (DStart RWLOCK_WAKE_READ_OWNED KDown) w]> l))
(** [__rwlock_do_wake]. *)
| st_start_writer t w ty k u n m r l : l !! t = Some (MkTh (DStart ty k) w) ->
    step (MkRw n m ((u, RWLOCK_WAITING_FOR_WRITE) :: r) l)
         (MkRw n (snd (finish t k)) ((u, RWLOCK_WAITING_FOR_WRITE) :: r) (<[t := MkTh (fst (finish t k)) w]> l))
| st_start_reader t w ty k u n m r l : l !! t = Some (MkTh (DStart ty k) w) ->
    step (MkRw n m ((u, RWLOCK_WAITING_FOR_READ) :: r) l)
         (MkRw n m ((u, RWLOCK_WAITING_FOR_READ) :: r)
            (<[t := MkTh (match ty with RWLOCK_WAKE_READ_OWNED => DCount false k | _ => DGrant k end) w]> l))
| st_grant t w k n m wl l : l !! t = Some (MkTh (DGrant k) w) ->
    step (MkRw n m wl l)
         (MkRw (n + RWLOCK_ACTIVE_READ_BIAS) m wl
            (<[t := MkTh (if n <? RWLOCK_WAITING_BIAS then DUndo k else DCount true k) w]> l))
| st_undo t w k n m wl l : l !! t = Some (MkTh (DUndo k) w) ->
    step (MkRw n m wl l)
         (if Z.land (n - RWLOCK_ACTIVE_READ_BIAS) RWLOCK_ACTIVE_MASK =? 0
          then MkRw (n - RWLOCK_ACTIVE_READ_BIAS) m wl (<[t := MkTh (DGrant k) w]> l)
          else MkRw (n - RWLOCK_ACTIVE_READ_BIAS) (snd (finish t k)) wl (<[t := MkTh (fst (finish t k)) w]> l))
| st_count t w g k n m wl l woken rest : l !! t = Some (MkTh (DCount g k) w) -> wake_readers wl = (woken, rest) ->
    step (MkRw n m wl l)
         (MkRw (n + wake_adjustment woken rest (if g then RWLOCK_ACTIVE_READ_BIAS else 0)) m rest
            (grant woken (<[t := MkTh (DNull woken k) w]> l)))
| st_null t w u woken k n m wl l : l !! t = Some (MkTh (DNull (u :: woken) k) w) ->
    step (MkRw n m wl l) (MkRw n m wl (set_ws WNull (<[t := MkTh (DPulse u woken k) w]> l) u))
| st_pulse t w u woken k n m wl l : l !! t = Some (MkTh (DPulse u woken k) w) ->
    step (MkRw n m wl l) (MkRw n m wl (<[t := MkTh (DNull woken k) w]> l))
| st_done t w k n m wl l : l !! t = Some (MkTh (DNull [] k) w) ->
    step (MkRw n m wl l) (MkRw n (snd (finish t k)) wl (<[t := MkTh (fst (finish t k)) w]> l)).

(** [rwlock_init], with [n] threads about to use the lock. *)
Definition rwlock_init (n : nat) : rwst := MkRw RWLOCK_UNLOCKED_VALUE None [] (replicate n (MkTh Idle WNone)).

Inductive reachable (n : nat) : rwst -> Prop :=
| rw_init : reachable n (rwlock_init n)
| rw_step s s' : reachable n s -> step s s' -> reachable n s'.
