(* ===== verification/RwProps.v ===== *)
(** * Mutual exclusion of the reader-writer lock

    The word of the lock is, in every reachable state, the sum of what its
    threads and the list of waiters have added to it; from this follows that a
    writer excludes everybody else. *)
From S2P Require Import Prelude RwLock.

(** ** Sums over the threads *)

Fixpoint total (f : thread -> Z) (l : list thread) : Z :=
  match l with [] => 0 | x :: r => f x + total f r end.

Lemma total_insert f (l : list thread) (t : nat) x x' :
  l !! t = Some x -> total f (<[t := x']> l) = total f l - f x + f x'.
Proof.
  revert t. induction l as [|y l IH]; intros [|t] Hx; try done.
  - injection Hx as ->. cbn. lia.
  - change (<[S t := x']> (y :: l)) with (y :: <[t := x']> l). cbn [total]. rewrite (IH t) by done. lia.
Qed.

Lemma total_le f g l : (forall x, f x <= g x) -> total f l <= total g l.
Proof. intros H. induction l as [|x l IH]; cbn; [lia|]. specialize (H x). lia. Qed.
Lemma total_bounds f l b : (forall x, 0 <= f x <= b) -> 0 <= total f l <= b * Z.of_nat (length l).
Proof. intros H. induction l as [|x l IH]; cbn [total length]; [lia|]. specialize (H x). lia. Qed.
Lemma total_elem f (l : list thread) (t : nat) x : (forall y, 0 <= f y) -> l !! t = Some x -> f x <= total f l.
Proof.
  intros H. revert t. induction l as [|y l IH]; intros [|t] Hx; try done; cbn in *.
  - injection Hx as ->. assert (Ht : 0 <= total f l); [|lia]. clear -H. induction l as [|x l IH]; cbn; [lia|]. specialize (H x). lia.
  - specialize (IH _ Hx). specialize (H y). lia.
Qed.

(** ** Contributions to the word *)

Definition down_kont (k : wkont) : Z := match k with KDown => 1 | _ => 0 end.
(** The lock held for reading: by the code of the thread, or given to it. *)
Definition reads_pc (p : pc) : Z :=
  match p with
  | RHeld | Down => 1
  | DStart _ k | DGrant k | DUndo k | DCount _ k | DNull _ k | DPulse _ _ k => down_kont k
  | _ => 0
  end.
Definition given (w : wstatus) : Z := match w with WGranted | WNull => 1 | _ => 0 end.
Definition reads (x : thread) : Z := reads_pc (t_pc x) + given (t_ws x).
(** Counted as active without holding the lock: a reader before the slow
    path, the provisional grant of [__rwlock_do_wake]. *)
Definition extra (x : thread) : Z :=
  match t_pc x with RFail | DUndo _ | DCount true _ => 1 | _ => 0 end.
Definition writes (x : thread) : Z := match t_pc x with WHeld => 1 | _ => 0 end.
Definition wfails (x : thread) : Z := match t_pc x with WFail => 1 | _ => 0 end.

Definition B : Z := 2 ^ 32.
Definition waiting (wl : wait_list) : Z := if list_empty wl then 0 else 1.

(** ** The invariant *)

(** Points with the mutex. *)
Definition has_mutex (p : pc) : bool :=
  match p with
  | WTry _ | DStart _ _ | DGrant _ | DUndo _ | DCount _ _ | DNull _ _ | DPulse _ _ _ => true
  | _ => false
  end.
(** The waiter record a point goes with: [Some WRITE]: in the list as a
    writer; [Some READ]: a reader's, in the list or given; [None]: none. *)
Definition kont_type (k : wkont) : option rwlock_waiter_type :=
  match k with KRead => Some RWLOCK_WAITING_FOR_READ | KWrite _ => Some RWLOCK_WAITING_FOR_WRITE | _ => None end.
Definition pc_type (p : pc) : option rwlock_waiter_type :=
  match p with
  | RWait => Some RWLOCK_WAITING_FOR_READ
  | WTry _ | WWait => Some RWLOCK_WAITING_FOR_WRITE
  | DStart _ k | DGrant k | DUndo k | DCount _ k | DNull _ k | DPulse _ _ k => kont_type k
  | _ => None
  end.
(** The points of [__rwlock_do_wake] that look at the head of the list. *)
Definition looks (p : pc) : bool := match p with DStart _ _ | DGrant _ | DUndo _ | DCount _ _ => true | _ => false end.
(** [RWLOCK_WAKE_READ_OWNED] is used by a thread that holds the lock. *)
Definition owned_ok (p : pc) : Prop :=
  match p with DStart RWLOCK_WAKE_READ_OWNED k | DCount false k => k = KDown | _ => True end.
(** The readers being woken were given the lock. *)
Definition to_wake (p : pc) : list nat := match p with DNull l _ | DPulse _ l _ => l | _ => [] end.

Record inv (s : rwst) : Prop := MkInv {
  i_count : rw_count s = total reads (rw_ths s) + total extra (rw_ths s)
    - (B - 1) * (total writes (rw_ths s) + total wfails (rw_ths s)) - B * waiting (rw_list s);
  i_mutex : forall t x, rw_ths s !! t = Some x -> has_mutex (t_pc x) = true -> rw_mutex s = Some t;
  i_nodup : NoDup (rw_list s).*1;
  i_list : forall t ty, (t, ty) ∈ rw_list s -> exists x, rw_ths s !! t = Some x /\ t_ws x = WQueued /\ pc_type (t_pc x) = Some ty;
  i_none : forall t x, rw_ths s !! t = Some x -> pc_type (t_pc x) = None -> t_ws x = WNone;
  i_queued : forall t x ty, rw_ths s !! t = Some x -> pc_type (t_pc x) = Some ty ->
    (ty = RWLOCK_WAITING_FOR_WRITE \/ t_ws x = WQueued) -> (t, ty) ∈ rw_list s;
  i_looks : forall t x, rw_ths s !! t = Some x -> looks (t_pc x) = true -> rw_list s <> [] /\ owned_ok (t_pc x);
  i_wake : forall t x u, rw_ths s !! t = Some x -> u ∈ to_wake (t_pc x) ->
    exists y, rw_ths s !! u = Some y /\ t_ws y = WGranted;
  i_wake_nodup : forall t x, rw_ths s !! t = Some x -> NoDup (to_wake (t_pc x));
  i_excl : 0 < total writes (rw_ths s) ->
    total writes (rw_ths s) = 1 /\ total reads (rw_ths s) = 0 /\
    forall t x k, rw_ths s !! t = Some x -> t_pc x <> DCount true k
}.

(** What a thread adds to the word. *)
Definition adds (x : thread) : Z := reads x + extra x - (B - 1) * (writes x + wfails x).

Lemma reads_range x : 0 <= reads x <= 2.
Proof.
  unfold reads. assert (0 <= reads_pc (t_pc x) <= 1) by (destruct (t_pc x) as [| | | | | | | | | |? []|[]|[]|? []|? []|? ? []]; cbn; lia).
  assert (0 <= given (t_ws x) <= 1) by (destruct (t_ws x); cbn; lia). lia.
Qed.
Lemma extra_range x : 0 <= extra x <= 1.
Proof. unfold extra. destruct (t_pc x) as [| | | | | | | | | | | | |[]| |]; lia. Qed.
Lemma writes_range x : 0 <= writes x <= 1.
Proof. unfold writes. destruct (t_pc x); lia. Qed.
Lemma wfails_range x : 0 <= wfails x <= 1.
Proof. unfold wfails. destruct (t_pc x); lia. Qed.

(** The bounds that keep the two halves of the word apart. *)
Lemma totals_range l : Z.of_nat (length l) < 2 ^ 29 ->
  0 <= total reads l < 2 ^ 30 /\ 0 <= total extra l < 2 ^ 29 /\ 0 <= total writes l < 2 ^ 29 /\ 0 <= total wfails l < 2 ^ 29.
Proof.
  intros Hn. pose proof (total_bounds reads l 2 reads_range). pose proof (total_bounds extra l 1 extra_range).
  pose proof (total_bounds writes l 1 writes_range). pose proof (total_bounds wfails l 1 wfails_range). lia.
Qed.

(** The thread of an update, and the others. *)
Lemma upd_cases {A} (l : list A) (t : nat) x x' i y :
  l !! t = Some x -> <[t := x']> l !! i = Some y -> (i = t /\ y = x') \/ (i <> t /\ l !! i = Some y).
Proof. intros Hx. rewrite list_lookup_insert_Some. naive_solver. Qed.
Lemma upd_same {A} (l : list A) (t : nat) x x' : l !! t = Some x -> <[t := x']> l !! t = Some x'.
Proof. intros Hx. apply list_lookup_insert_eq. by apply lookup_lt_Some in Hx. Qed.
Lemma upd_other {A} (l : list A) (t : nat) x' i : i <> t -> <[t := x']> l !! i = l !! i.
Proof. intros. by apply list_lookup_insert_ne. Qed.

(** Exclusion after one thread moves without taking the lock for writing. *)
Definition excl (l : list thread) : Prop :=
  0 < total writes l ->
  total writes l = 1 /\ total reads l = 0 /\ forall t x k, l !! t = Some x -> t_pc x <> DCount true k.

Lemma excl_move l (t : nat) x x' :
  excl l -> l !! t = Some x -> writes x' <= writes x ->
  (reads x' <= reads x \/ total writes l - writes x + writes x' = 0) ->
  ((forall k, t_pc x' <> DCount true k) \/ total writes l - writes x + writes x' = 0) ->
  excl (<[t := x']> l).
Proof.
  intros He Hx Hw Hr Hc. unfold excl. rewrite !(total_insert _ _ _ _ _ Hx). intros Hpos.
  pose proof (total_elem writes l t x (fun y => proj1 (writes_range y)) Hx) as Hxw.
  pose proof (total_elem reads l t x (fun y => proj1 (reads_range y)) Hx) as Hxr.
  pose proof (reads_range x'). pose proof (writes_range x'). pose proof (writes_range x).
  destruct He as (He1 & He2 & He3); [lia|]. split; [lia|]. split; [destruct Hr; lia|].
  intros i y k Hy. destruct (upd_cases _ _ _ _ _ _ Hx Hy) as [[-> ->]|[? Hl]]; [destruct Hc; [auto|lia]|eauto].
Qed.

(** Exclusion after a thread takes the lock for writing. *)
Lemma excl_take l (t : nat) x x' :
  l !! t = Some x -> total writes l = 0 -> total reads l = 0 -> total extra l = 0 ->
  writes x' = 1 -> reads x' = 0 -> (forall k, t_pc x' <> DCount true k) -> excl (<[t := x']> l).
Proof.
  intros Hx Hw Hr He Hw' Hr' Hc _. rewrite !(total_insert _ _ _ _ _ Hx).
  pose proof (total_elem writes l t x (fun y => proj1 (writes_range y)) Hx).
  pose proof (total_elem reads l t x (fun y => proj1 (reads_range y)) Hx).
  pose proof (writes_range x). pose proof (reads_range x). split; [lia|]. split; [lia|].
  intros i y k Hy. destruct (upd_cases _ _ _ _ _ _ Hx Hy) as [[-> ->]|[? Hl]]; [auto|]. intros Ec.
  pose proof (total_elem extra l i y (fun y => proj1 (extra_range y)) Hl) as Hx2. unfold extra at 1 in Hx2. rewrite Ec in Hx2. lia.
Qed.

(** A thread moves and leaves the list and the waiter records alone. *)
Lemma inv_move n m wl l (t : nat) x c m' x' :
  inv (MkRw n m wl l) -> l !! t = Some x -> c = n - adds x + adds x' ->
  (has_mutex (t_pc x') = true -> m' = Some t) -> (m' = m \/ m = None \/ m = Some t) ->
  pc_type (t_pc x') = pc_type (t_pc x) -> t_ws x' = t_ws x ->
  (looks (t_pc x') = true -> wl <> [] /\ owned_ok (t_pc x')) ->
  (forall u, u ∈ to_wake (t_pc x') -> u ∈ to_wake (t_pc x)) -> NoDup (to_wake (t_pc x')) ->
  excl (<[t := x']> l) ->
  inv (MkRw c m' wl (<[t := x']> l)).
Proof.
  intros [J1 J2 J3 J4 J5 J6 J7 J8 J9 J10] Hx Hc Hm Hmm Ht Hw Hl Hk Hnd He. cbn in *. split; cbn.
  - rewrite !(total_insert _ _ _ _ _ Hx), Hc, J1. unfold adds. lia.
  - intros i y Hy Hh. destruct (upd_cases _ _ _ _ _ _ Hx Hy) as [[-> ->]|[? Hl']]; [auto|].
    pose proof (J2 _ _ Hl' Hh). destruct Hmm as [->|[?|?]]; congruence.
  - done.
  - intros i ty Hi. destruct (J4 _ _ Hi) as (y & Hy & Hq & Hty). destruct (decide (i = t)) as [->|Hne].
    + exists x'. rewrite (upd_same _ _ _ _ Hx). split; [done|]. simplify_eq. split; congruence.
    + exists y. by rewrite upd_other.
  - intros i y Hy Hn. destruct (upd_cases _ _ _ _ _ _ Hx Hy) as [[-> ->]|[? Hl']]; [|eauto]. rewrite Hw. eapply J5; [done|congruence].
  - intros i y ty Hy Hty Hq. destruct (upd_cases _ _ _ _ _ _ Hx Hy) as [[-> ->]|[? Hl']]; [|eauto].
    eapply J6; [done|congruence|]. by rewrite <-Hw.
  - intros i y Hy Hlk. destruct (upd_cases _ _ _ _ _ _ Hx Hy) as [[-> ->]|[? Hl']]; [auto|eauto].
  - assert (Hg : forall u, (exists y, l !! u = Some y /\ t_ws y = WGranted) -> exists y, <[t := x']> l !! u = Some y /\ t_ws y = WGranted).
    { intros u (y & Hy & Hg). destruct (decide (u = t)) as [->|Hne]; [exists x'; rewrite (upd_same _ _ _ _ Hx)|exists y; by rewrite upd_other].
      split; [done|]. simplify_eq. congruence. }
    intros i y u Hy Hu. apply Hg. destruct (upd_cases _ _ _ _ _ _ Hx Hy) as [[-> ->]|[? Hl']]; eauto.
  - intros i y Hy. destruct (upd_cases _ _ _ _ _ _ Hx Hy) as [[-> ->]|[? Hl']]; eauto.
  - done.
Qed.

(** A thread moves and its waiter record changes. *)
Lemma inv_record n m wl l (t : nat) x c m' wl' x' :
  inv (MkRw n m wl l) -> l !! t = Some x -> c = n - adds x + adds x' + B * waiting wl - B * waiting wl' ->
  (has_mutex (t_pc x') = true -> m' = Some t) -> (m' = m \/ m = None \/ m = Some t) ->
  NoDup wl'.*1 -> (forall i ty, i <> t -> ((i, ty) ∈ wl' <-> (i, ty) ∈ wl)) ->
  (forall ty, (t, ty) ∈ wl' -> t_ws x' = WQueued /\ pc_type (t_pc x') = Some ty) ->
  (pc_type (t_pc x') = None -> t_ws x' = WNone) ->
  (forall ty, pc_type (t_pc x') = Some ty -> ty = RWLOCK_WAITING_FOR_WRITE \/ t_ws x' = WQueued -> (t, ty) ∈ wl') ->
  t_ws x <> WGranted -> to_wake (t_pc x') = [] ->
  (looks (t_pc x') = true -> wl' <> [] /\ owned_ok (t_pc x')) ->
  (wl' <> [] \/ wl = wl' \/ m = None \/ m = Some t) ->
  excl (<[t := x']> l) ->
  inv (MkRw c m' wl' (<[t := x']> l)).
Proof.
  intros [J1 J2 J3 J4 J5 J6 J7 J8 J9 J10] Hx Hc Hm Hmm Hnd Hsame Hin Hnone Hty Hng Hnw Hlk Hne He. cbn in *.
  split; cbn; try done.
  - rewrite !(total_insert _ _ _ _ _ Hx), Hc, J1. unfold adds. lia.
  - intros i y Hy Hh. destruct (upd_cases _ _ _ _ _ _ Hx Hy) as [[-> ->]|[? Hl']]; [auto|].
    pose proof (J2 _ _ Hl' Hh). destruct Hmm as [->|[?|?]]; congruence.
  - intros i ty Hi. destruct (decide (i = t)) as [->|Hit].
    + exists x'. rewrite (upd_same _ _ _ _ Hx). split; [done|by apply Hin].
    + apply Hsame in Hi; [|done]. destruct (J4 _ _ Hi) as (y & Hy & ?). exists y. by rewrite upd_other.
  - intros i y Hy Hn. destruct (upd_cases _ _ _ _ _ _ Hx Hy) as [[-> ->]|[? Hl']]; eauto.
  - intros i y ty Hy Ht Hq. destruct (upd_cases _ _ _ _ _ _ Hx Hy) as [[-> ->]|[? Hl']]; [auto|]. apply Hsame; eauto.
  - intros i y Hy Hlo. destruct (upd_cases _ _ _ _ _ _ Hx Hy) as [[-> ->]|[Hit Hl']]; [auto|].
    destruct (J7 _ _ Hl' Hlo) as [Hwl Ho]. split; [|done]. destruct Hne as [?|[<-|Hm2]]; [done|done|].
    assert (Hhm : has_mutex (t_pc y) = true) by (by destruct (t_pc y)).
    pose proof (J2 _ _ Hl' Hhm). destruct Hm2; congruence.
  - intros i y u Hy Hu. destruct (upd_cases _ _ _ _ _ _ Hx Hy) as [[-> ->]|[? Hl']]; [rewrite Hnw in Hu; set_solver|].
    destruct (J8 _ _ _ Hl' Hu) as (z & Hz & Hg). exists z. rewrite upd_other; [done|]. intros ->. congruence.
  - intros i y Hy. destruct (upd_cases _ _ _ _ _ _ Hx Hy) as [[-> ->]|[? Hl']]; [rewrite Hnw; constructor|eauto].
Qed.

(** Appending a new waiter. *)
Lemma inv_enqueue n wl l (t : nat) x c m' ty x' :
  inv (MkRw n None wl l) -> l !! t = Some x -> pc_type (t_pc x) = None ->
  c = n - adds x + adds x' - (if list_empty wl then B else 0) ->
  (has_mutex (t_pc x') = true -> m' = Some t) -> pc_type (t_pc x') = Some ty -> t_ws x' = WQueued -> to_wake (t_pc x') = [] ->
  owned_ok (t_pc x') -> excl (<[t := x']> l) ->
  inv (MkRw c m' (wl ++ [(t, ty)]) (<[t := x']> l)).
Proof.
  intros Hi Hx Hn Hc Hm Ht Hq Hw Ho He.
  assert (Hni : forall ty', (t, ty') ∉ wl).
  { intros ty' Hin. destruct (i_list _ Hi _ _ Hin) as (y & Hy & _ & Hty). cbn in Hy. rewrite Hx in Hy. injection Hy as <-. congruence. }
  eapply (inv_record _ _ wl); [done|done| |done|by right; left| | | | | | |done| |by right; right; left|done].
  - rewrite Hc. unfold waiting. destruct wl; cbn; lia.
  - rewrite fmap_app. cbn. apply NoDup_app. split; [apply Hi|]. split; [|apply NoDup_singleton].
    intros i (p & -> & Hin)%list_elem_of_fmap Hs%list_elem_of_singleton. destruct p as [i ty']. cbn in Hs. subst i. by apply (Hni ty').
  - intros i ty' Hit. rewrite elem_of_app, list_elem_of_singleton. naive_solver.
  - intros ty'. rewrite elem_of_app, list_elem_of_singleton. intros [Hin|[= ->]]; [by destruct (Hni ty')|done].
  - congruence.
  - intros ty' Hty _. rewrite elem_of_app, list_elem_of_singleton. right. congruence.
  - pose proof (i_none _ Hi _ _ Hx Hn) as Hws. congruence.
  - intros _. split; [by destruct wl|done].
Qed.

(** ** Waking readers *)

Lemma wake_readers_spec wl woken rest : wake_readers wl = (woken, rest) ->
  wl = ((fun t => (t, RWLOCK_WAITING_FOR_READ)) <$> woken) ++ rest.
Proof.
  revert woken. induction wl as [|[t []] wl IH]; intros woken; cbn.
  - by intros [= <- <-].
  - by intros [= <- <-].
  - destruct (wake_readers wl) as [w r]. intros [= <- <-]. cbn. f_equal. by apply IH.
Qed.

Lemma grant_lookup woken l (i : nat) :
  grant woken l !! i = if decide (i ∈ woken) then (fun x => MkTh (t_pc x) WGranted) <$> l !! i else l !! i.
Proof.
  unfold grant. revert l. induction woken as [|u w IH]; intros l; [done|]. cbn [foldl]. rewrite IH.
  assert (E : set_ws WGranted l u !! i = if decide (i = u) then (fun x => MkTh (t_pc x) WGranted) <$> l !! i else l !! i).
  { unfold set_ws. destruct (decide (i = u)) as [->|Hi].
    - destruct (l !! u) as [y|] eqn:Hy; [by rewrite (upd_same _ _ _ _ Hy)|by rewrite Hy].
    - destruct (l !! u); [by rewrite upd_other|done]. }
  rewrite E. destruct (decide (i = u)) as [->|Hi].
  - rewrite (decide_True (P := u ∈ u :: w)) by (by left). destruct (decide (u ∈ w)), (l !! u); done.
  - destruct (decide (i ∈ w)); [rewrite decide_True by (by right)|rewrite decide_False by set_solver]; done.
Qed.

(** Sums of what only the program point decides do not change, and each
    reader given the lock counts. *)
Lemma grant_total_pc f woken l : (forall p w w', f (MkTh p w) = f (MkTh p w')) -> total f (grant woken l) = total f l.
Proof.
  intros Hf. unfold grant. revert l. induction woken as [|u w IH]; intros l; [done|]. cbn [foldl]. rewrite IH. unfold set_ws.
  destruct (l !! u) as [[p ws]|] eqn:Hy; [|done]. rewrite (total_insert _ _ _ _ _ Hy). cbn. rewrite (Hf p WGranted ws). lia.
Qed.

Lemma grant_total_reads woken l : NoDup woken -> (forall u, u ∈ woken -> exists y, l !! u = Some y /\ t_ws y = WQueued) ->
  total reads (grant woken l) = total reads l + Z.of_nat (length woken).
Proof.
  unfold grant. revert l. induction woken as [|u w IH]; intros l Hnd Hq; cbn [foldl length]; [lia|].
  apply NoDup_cons in Hnd as [Hu Hnd]. destruct (Hq u) as ([p ws] & Hy & Hws); [by left|]. cbn in Hws. subst ws.
  rewrite IH; [|done|].
  - unfold set_ws. rewrite Hy, (total_insert _ _ _ _ _ Hy). cbn. unfold reads. cbn. lia.
  - intros v Hv. destruct (Hq v) as (y & Hyv & Hws); [by right|]. exists y. split; [|done].
    unfold set_ws. rewrite Hy. rewrite upd_other; [done|]. by intros ->.
Qed.

(** Only the holder of the mutex is in [__rwlock_do_wake]. *)
Lemma mutex_unique s (t i : nat) x y : inv s -> rw_ths s !! t = Some x -> has_mutex (t_pc x) = true ->
  rw_ths s !! i = Some y -> has_mutex (t_pc y) = true -> i = t.
Proof. intros Hi Hx Hm Hy Hm'. pose proof (i_mutex _ Hi _ _ Hx Hm). pose proof (i_mutex _ Hi _ _ Hy Hm'). congruence. Qed.
Lemma to_wake_mutex p u : u ∈ to_wake p -> has_mutex p = true.
Proof. destruct p; cbn; set_solver. Qed.
Lemma looks_mutex p : looks p = true -> has_mutex p = true.
Proof. by destruct p. Qed.

(** While readers are being counted nobody holds the lock for writing. *)
Lemma count_no_writer n m wl l (t : nat) w g k :
  inv (MkRw n m wl l) -> l !! t = Some (MkTh (DCount g k) w) -> total writes l = 0.
Proof.
  intros Hi Hx. destruct (Z.eq_dec (total writes l) 0) as [|Hnz]; [done|]. exfalso.
  pose proof (total_bounds writes l 1 writes_range). destruct (i_excl _ Hi) as (_ & Hr & Hc); [cbn; lia|]. cbn in Hr, Hc.
  destruct g; [by apply (Hc _ _ k Hx)|].
  destruct (i_looks _ Hi _ _ Hx eq_refl) as [_ Ho]. cbn in Ho. subst k.
  pose proof (total_elem reads l t _ (fun y => proj1 (reads_range y)) Hx) as He. unfold reads at 1 in He. cbn in He.
  assert (0 <= given w) by (destruct w; cbn; lia). lia.
Qed.

Lemma inv_count_step n m wl l (t : nat) w g k woken rest :
  inv (MkRw n m wl l) -> l !! t = Some (MkTh (DCount g k) w) -> wake_readers wl = (woken, rest) ->
  inv (MkRw (n + wake_adjustment woken rest (if g then RWLOCK_ACTIVE_READ_BIAS else 0)) m rest
         (grant woken (<[t := MkTh (DNull woken k) w]> l))).
Proof.
  intros Hi Hx Hwk. apply wake_readers_spec in Hwk as Hwl. pose proof (count_no_writer _ _ _ _ _ _ _ _ Hi Hx) as Hnw.
  assert (Hne : wl <> []) by (by apply (i_looks _ Hi _ _ Hx)).
  assert (Hnd := i_nodup _ Hi). cbn in Hnd. rewrite Hwl, fmap_app, <-list_fmap_compose in Hnd. cbn in Hnd.
  rewrite list_fmap_id in Hnd. apply NoDup_app in Hnd as (Hndw & Hdis & Hndr).
  set (l1 := <[t := MkTh (DNull woken k) w]> l).
  assert (Hwq : forall u, u ∈ woken -> exists y, l1 !! u = Some y /\ t_ws y = WQueued /\ pc_type (t_pc y) = Some RWLOCK_WAITING_FOR_READ).
  { intros u Hu. destruct (i_list _ Hi u RWLOCK_WAITING_FOR_READ) as (y & Hy & Hq & Ht).
    { cbn. rewrite Hwl. apply elem_of_app. left. apply list_elem_of_fmap. eauto. }
    cbn in Hy. destruct (decide (u = t)) as [->|Hut].
    - exists (MkTh (DNull woken k) w). unfold l1. rewrite (upd_same _ _ _ _ Hx). by simplify_eq.
    - exists y. unfold l1. by rewrite upd_other. }
  assert (Hmine : forall i y, l1 !! i = Some y -> (i = t /\ y = MkTh (DNull woken k) w) \/ (i <> t /\ l !! i = Some y))
    by (intros; by eapply upd_cases).
  assert (Hnr : forall i, i ∈ rest.*1 -> i ∉ woken) by (intros i Hr Hw; by apply (Hdis i)).
  split; cbn.
  - rewrite (grant_total_pc extra), (grant_total_pc writes), (grant_total_pc wfails), grant_total_reads;
      [|done|intros u Hu; destruct (Hwq u Hu) as (y & ? & ? & _); eauto|done..].
    unfold l1. rewrite !(total_insert _ _ _ _ _ Hx). pose proof (i_count _ Hi) as Hc. cbn in Hc. rewrite Hc.
    unfold wake_adjustment, waiting, RWLOCK_WAITING_BIAS, RWLOCK_ACTIVE_MASK, RWLOCK_ACTIVE_READ_BIAS, RWLOCK_ACTIVE_BIAS, B.
    unfold reads, extra, writes, wfails. cbn [t_pc t_ws reads_pc].
    destruct wl; [done|]. cbn [list_empty]. destruct g, rest; cbn [list_empty]; lia.
  - intros i y Hy Hm. rewrite grant_lookup in Hy.
    assert (Hex : exists y1, l1 !! i = Some y1 /\ t_pc y1 = t_pc y).
    { destruct (decide (i ∈ woken)); [|eauto]. destruct (l1 !! i); [|done]. injection Hy as <-. eauto. }
    destruct Hex as (y1 & Hy1 & Hp). destruct (Hmine _ _ Hy1) as [[-> ->]|[_ Hl]].
    + by apply (i_mutex _ Hi _ _ Hx).
    + apply (i_mutex _ Hi _ _ Hl). by rewrite Hp.
  - done.
  - intros i ty Hin. assert (Hiw : i ∉ woken) by (apply Hnr, list_elem_of_fmap; by exists (i, ty)).
    rewrite grant_lookup, decide_False by done. destruct (i_list _ Hi i ty) as (y & Hy & Hq & Ht).
    { cbn. rewrite Hwl. apply elem_of_app. by right. }
    cbn in Hy. destruct (decide (i = t)) as [->|Hit].
    + exists (MkTh (DNull woken k) w). unfold l1. rewrite (upd_same _ _ _ _ Hx). by simplify_eq.
    + exists y. unfold l1. by rewrite upd_other.
  - intros i y Hy Hn. rewrite grant_lookup in Hy. destruct (decide (i ∈ woken)) as [Hw|Hw].
    + destruct (Hwq _ Hw) as (y1 & Hy1 & _ & Ht). rewrite Hy1 in Hy. injection Hy as <-. cbn in Hn. congruence.
    + destruct (Hmine _ _ Hy) as [[-> ->]|[_ Hl]]; [by apply (i_none _ Hi _ _ Hx)|by apply (i_none _ Hi _ _ Hl)].
  - intros i y ty Hy Ht Hq. rewrite grant_lookup in Hy. destruct (decide (i ∈ woken)) as [Hw|Hw].
    + destruct (Hwq _ Hw) as (y1 & Hy1 & _ & Ht1). rewrite Hy1 in Hy. injection Hy as <-. cbn in Ht, Hq. destruct Hq; congruence.
    + assert (Hin : (i, ty) ∈ wl).
      { destruct (Hmine _ _ Hy) as [[-> ->]|[_ Hl]]; [by apply (i_queued _ Hi _ _ _ Hx)|by apply (i_queued _ Hi _ _ _ Hl)]. }
      rewrite Hwl in Hin. apply elem_of_app in Hin as [(u & [= -> ->] & Hu)%list_elem_of_fmap|Hin]; done.
  - intros i y Hy Hlk. exfalso. rewrite grant_lookup in Hy.
    assert (Hex : exists y1, l1 !! i = Some y1 /\ t_pc y1 = t_pc y).
    { destruct (decide (i ∈ woken)); [|eauto]. destruct (l1 !! i); [|done]. injection Hy as <-. eauto. }
    destruct Hex as (y1 & Hy1 & Hp). rewrite <-Hp in Hlk. destruct (Hmine _ _ Hy1) as [[-> ->]|[Hit Hl]]; [done|].
    apply Hit. by apply (mutex_unique _ _ _ _ _ Hi Hx eq_refl Hl), looks_mutex.
  - intros i y u Hy Hu. rewrite grant_lookup in Hy.
    assert (Hex : exists y1, l1 !! i = Some y1 /\ t_pc y1 = t_pc y).
    { destruct (decide (i ∈ woken)); [|eauto]. destruct (l1 !! i); [|done]. injection Hy as <-. eauto. }
    destruct Hex as (y1 & Hy1 & Hp). rewrite <-Hp in Hu. destruct (Hmine _ _ Hy1) as [[-> ->]|[Hit Hl]].
    + cbn in Hu. destruct (Hwq u Hu) as (z & Hz & _). rewrite grant_lookup, decide_True, Hz by done. eauto.
    + exfalso. apply Hit. by eapply (mutex_unique _ _ _ _ _ Hi Hx eq_refl Hl), to_wake_mutex.
  - intros i y Hy. rewrite grant_lookup in Hy.
    assert (Hex : exists y1, l1 !! i = Some y1 /\ t_pc y1 = t_pc y).
    { destruct (decide (i ∈ woken)); [|eauto]. destruct (l1 !! i); [|done]. injection Hy as <-. eauto. }
    destruct Hex as (y1 & Hy1 & Hp). rewrite <-Hp. destruct (Hmine _ _ Hy1) as [[-> ->]|[Hit Hl]]; [done|by apply (i_wake_nodup _ Hi _ _ Hl)].
  - rewrite grant_total_pc by done. unfold l1. rewrite (total_insert _ _ _ _ _ Hx), Hnw. unfold writes. cbn. lia.
Qed.

(** [waiter->event = NULL] for a reader that was given the lock. *)
Lemma inv_null n m wl l (u : nat) y :
  inv (MkRw n m wl l) -> l !! u = Some y -> t_ws y = WGranted -> (forall i x, l !! i = Some x -> u ∉ to_wake (t_pc x)) ->
  inv (MkRw n m wl (<[u := MkTh (t_pc y) WNull]> l)).
Proof.
  intros [J1 J2 J3 J4 J5 J6 J7 J8 J9 J10] Hy Hg Hno. cbn in *.
  assert (Ew : forall f, (forall p w w', f (MkTh p w) = f (MkTh p w')) -> total f (<[u := MkTh (t_pc y) WNull]> l) = total f l).
  { intros f Hf. rewrite (total_insert _ _ _ _ _ Hy). destruct y as [p w]. cbn. rewrite (Hf p WNull w). lia. }
  assert (Er : total reads (<[u := MkTh (t_pc y) WNull]> l) = total reads l).
  { rewrite (total_insert _ _ _ _ _ Hy). unfold reads. cbn. rewrite Hg. cbn. lia. }
  assert (Hp : forall i x, <[u := MkTh (t_pc y) WNull]> l !! i = Some x ->
    exists x1, l !! i = Some x1 /\ t_pc x1 = t_pc x /\ (i = u /\ x1 = y /\ t_ws x = WNull \/ i <> u /\ x1 = x)).
  { intros i x Hx. destruct (upd_cases _ _ _ _ _ _ Hy Hx) as [[-> ->]|[? Hl]]; eauto 10. }
  split; cbn; try done.
  - rewrite Er, (Ew extra), (Ew writes), (Ew wfails) by done. done.
  - intros i x Hx Hm. destruct (Hp _ _ Hx) as (x1 & Hx1 & E & _). eapply J2; [done|by rewrite E].
  - intros i ty Hi. destruct (J4 _ _ Hi) as (x & Hx & Hq & Ht). exists x. rewrite upd_other; [done|]. intros ->. congruence.
  - intros i x Hx Hn. destruct (Hp _ _ Hx) as (x1 & Hx1 & E & [(-> & -> & ?)|[? ->]]); [|eauto].
    rewrite <-E in Hn. pose proof (J5 _ _ Hx1 Hn). congruence.
  - intros i x ty Hx Ht Hq. destruct (Hp _ _ Hx) as (x1 & Hx1 & E & [(-> & -> & ?)|[? ->]]); [|eauto].
    eapply J6; [done|congruence|]. left. destruct Hq; [done|congruence].
  - intros i x Hx Hk. destruct (Hp _ _ Hx) as (x1 & Hx1 & E & _). rewrite <-E in *. eauto.
  - intros i x v Hx Hv. destruct (Hp _ _ Hx) as (x1 & Hx1 & E & _). rewrite <-E in Hv. destruct (J8 _ _ _ Hx1 Hv) as (z & Hz & ?).
    exists z. rewrite upd_other; [done|]. intros ->. by apply (Hno _ _ Hx1).
  - intros i x Hx. destruct (Hp _ _ Hx) as (x1 & Hx1 & E & _). rewrite <-E. eauto.
  - rewrite (Ew writes), Er by done. intros Hpos. destruct (J10 Hpos) as (? & ? & Hc). split; [done|]. split; [done|].
    intros i x k Hx. destruct (Hp _ _ Hx) as (x1 & Hx1 & E & _). rewrite <-E. eauto.
Qed.

(** ** Every step keeps the invariant *)

Ltac consts := unfold RWLOCK_ACTIVE_WRITE_BIAS, RWLOCK_WAITING_BIAS, RWLOCK_ACTIVE_READ_BIAS, RWLOCK_ACTIVE_BIAS,
  RWLOCK_UNLOCKED_VALUE, RWLOCK_ACTIVE_MASK in *.
Ltac consts_adds := unfold adds, reads, extra, writes, wfails, B in *; consts; cbn [t_pc t_ws reads_pc given down_kont] in *.

(** The word tells who is there. *)
Lemma word_nonneg n m wl l : inv (MkRw n m wl l) -> Z.of_nat (length l) < 2 ^ 29 -> 0 <= n ->
  total writes l = 0 /\ wl = [].
Proof.
  intros Hi Hlen Hn. pose proof (i_count _ Hi) as Hc. cbn in Hc. pose proof (totals_range l Hlen).
  unfold waiting, B in Hc. destruct wl; cbn in Hc; [split; [lia|done]|lia].
Qed.
Lemma word_zero n m wl l : inv (MkRw n m wl l) -> Z.of_nat (length l) < 2 ^ 29 -> n = 0 ->
  total writes l = 0 /\ total reads l = 0 /\ total extra l = 0.
Proof.
  intros Hi Hlen Hn. pose proof (i_count _ Hi) as Hc. cbn in Hc. pose proof (totals_range l Hlen).
  unfold waiting, B in Hc. destruct wl; cbn in Hc; lia.
Qed.
Lemma word_waiting n m wl l : inv (MkRw n m wl l) -> Z.of_nat (length l) < 2 ^ 29 -> wl <> [] -> RWLOCK_WAITING_BIAS <= n ->
  total writes l = 0.
Proof.
  intros Hi Hlen Hne Hn. pose proof (i_count _ Hi) as Hc. cbn in Hc. pose proof (totals_range l Hlen).
  unfold waiting, B in Hc. consts. destruct wl; [done|]. cbn in Hc. lia.
Qed.
Lemma word_only_waiting n m wl l : inv (MkRw n m wl l) -> Z.of_nat (length l) < 2 ^ 29 -> wl <> [] -> n = RWLOCK_WAITING_BIAS ->
  total writes l = 0 /\ total reads l = 0 /\ total extra l = 0.
Proof.
  intros Hi Hlen Hne Hn. pose proof (i_count _ Hi) as Hc. cbn in Hc. pose proof (totals_range l Hlen).
  unfold waiting, B in Hc. consts. destruct wl; [done|]. cbn in Hc. lia.
Qed.

(** Removing a waiter from the list. *)
Lemma filter_waiter (wl : wait_list) (t : nat) ty : NoDup wl.*1 -> (t, ty) ∈ wl ->
  (list_is_singular wl = list_empty (filter (fun x => fst x <> t) wl)).
Proof.
  intros Hnd Hin. destruct wl as [|[a b] [|[c d] r]]; [set_solver| |].
  - assert (a = t) as -> by set_solver.
    by rewrite filter_cons_False by naive_solver.
  - cbn in Hnd. apply NoDup_cons in Hnd as [Ha _]. destruct (decide (a = t)) as [->|Hat].
    + rewrite filter_cons_False by naive_solver. rewrite filter_cons_True by (cbn; set_solver). done.
    + by rewrite filter_cons_True by done.
Qed.

Lemma nodup_filter (wl : wait_list) (t : nat) : NoDup wl.*1 -> NoDup (filter (fun x => fst x <> t) wl).*1.
Proof.
  induction wl as [|[a b] wl IH]; [done|]. rewrite fmap_cons. intros [Ha Hnd]%NoDup_cons. destruct (decide (a = t)) as [->|Hat].
  - rewrite filter_cons_False by naive_solver. auto.
  - rewrite filter_cons_True by done. rewrite fmap_cons. apply NoDup_cons. split; [|auto]. intros (p & Ep & Hp)%list_elem_of_fmap.
    apply Ha, list_elem_of_fmap. exists p. split; [done|]. by apply list_elem_of_filter in Hp as [_ ?].
Qed.

Lemma length_insert_th (l : list thread) (t : nat) x : length (<[t := x]> l) = length l.
Proof. apply length_insert. Qed.
Lemma length_set_ws ws l t : length (set_ws ws l t) = length l.
Proof. unfold set_ws. destruct (l !! t); [apply length_insert|done]. Qed.
Lemma length_grant woken l : length (grant woken l) = length l.
Proof. unfold grant. revert l. induction woken as [|u w IH]; intros l; [done|]. cbn [foldl]. by rewrite IH, length_set_ws. Qed.

Lemma length_step s s' : step s s' -> length (rw_ths s') = length (rw_ths s).
Proof.
  destruct 1; cbn [rw_ths]; repeat case_match; cbn [rw_ths];
    rewrite ?length_grant, ?length_set_ws, ?length_insert_th; done.
Qed.

(** The end of [__rwlock_do_wake]: the thread returns to its caller. *)
Lemma inv_finish n m wl l (t : nat) p k w c :
  inv (MkRw n m wl l) -> l !! t = Some (MkTh p w) -> has_mutex p = true -> pc_type p = kont_type k -> reads_pc p = down_kont k ->
  writes (MkTh p w) = 0 -> wfails (MkTh p w) = 0 -> c = n - extra (MkTh p w) ->
  inv (MkRw c (snd (finish t k)) wl (<[t := MkTh (fst (finish t k)) w]> l)).
Proof.
  intros Hi Hx Hm Ht Hr Hw Hf Hc. pose proof (i_mutex _ Hi _ _ Hx Hm) as Hmu. cbn in Hmu.
  assert (Hk : reads (MkTh (fst (finish t k)) w) = reads (MkTh p w)) by (unfold reads; cbn; rewrite Hr; by destruct k).
  assert (Hk2 : writes (MkTh (fst (finish t k)) w) = 0 /\ wfails (MkTh (fst (finish t k)) w) = 0 /\ extra (MkTh (fst (finish t k)) w) = 0)
    by (by destruct k).
  destruct Hk2 as (Hk2 & Hk3 & Hk4).
  eapply inv_move; [done|done|..]; cbn; try done.
  - unfold adds. rewrite Hk, Hk2, Hk3, Hk4, Hw, Hf. lia.
  - by destruct k.
  - by right; right.
  - rewrite Ht. by destruct k.
  - by destruct k.
  - by destruct k; cbn; set_solver.
  - destruct k; constructor.
  - eapply excl_move; [exact (i_excl _ Hi)|done|lia|left; lia|left; by destruct k].
Qed.

Lemma inv_step s s' : Z.of_nat (length (rw_ths s)) < 2 ^ 29 -> inv s -> step s s' -> inv s'.
Proof.
  intros Hlen Hi Hst. destruct Hst as
    [t w c ok n m wl l Hx Hr|t w c ok n m wl l Hx Hr|t w c ok n m wl l Hx Hr|t w c ok n m wl l Hx Hr
    |t w c wk n m wl l Hx Hr|t w c wk n m wl l Hx Hr|t w c wk n m wl l Hx Hr
    |t w c wk n wl l Hx Hr|t n m wl l Hx|t w c wk n wl l Hx Hr|t w c c' n m wl l Hx Hr|t w c n m wl l Hx Hr|t w n wl l Hx
    |t w n wl l Hx|t w n wl l Hx
    |t w ty k u n m r l Hx|t w ty k u n m r l Hx|t w k n m wl l Hx|t w k n m wl l Hx
    |t w g k n m wl l woken rest Hx Hwk|t w u woken k n m wl l Hx|t w u woken k n m wl l Hx|t w k n m wl l Hx];
    cbn [rw_ths] in Hlen; pose proof (i_excl _ Hi) as He; cbn [rw_ths] in He; fold (excl l) in He.
  - unfold __rwlock_rdlock in Hr. injection Hr as <- <-. destruct (Z.leb_spec (n + 1) 0); cbn [negb].
    + eapply inv_move; [done|done|..]; try done; [consts_adds; lia|by left|constructor|].
      eapply excl_move; [done|done|done|by left|by left].
    + destruct (word_nonneg _ _ _ _ Hi Hlen ltac:(lia)) as [Hw ->].
      eapply inv_move; [done|done|..]; try done; [consts_adds; lia|by left|constructor|].
      eapply excl_move; [done|done|done|right; rewrite Hw; done|by left].
  - unfold __rwlock_wrlock in Hr. injection Hr as <- <-. destruct (Z.eqb_spec (n + RWLOCK_ACTIVE_WRITE_BIAS) RWLOCK_ACTIVE_WRITE_BIAS).
    + destruct (word_zero _ _ _ _ Hi Hlen ltac:(lia)) as (H1 & H2 & H3). pose proof (i_none _ Hi _ _ Hx eq_refl) as Hws. cbn in Hws.
      eapply inv_move; [done|done|..]; try done; [consts_adds; lia|by left|constructor|].
      eapply excl_take; [done|done|done|done|done|subst; done|done].
    + eapply inv_move; [done|done|..]; try done; [consts_adds; lia|by left|constructor|].
      eapply excl_move; [done|done|done|by left|by left].
  - unfold __rwlock_tryrdlock in Hr. destruct (Z.leb_spec 0 n); injection Hr as <- <-.
    + destruct (word_nonneg _ _ _ _ Hi Hlen ltac:(lia)) as [Hw ->].
      eapply inv_move; [done|done|..]; try done; [consts_adds; lia|by left|constructor|].
      eapply excl_move; [done|done|done|right; rewrite Hw; done|by left].
    + eapply inv_move; [done|done|..]; try done; [consts_adds; lia|by left|constructor|].
      eapply excl_move; [done|done|done|by left|by left].
  - unfold __rwlock_trywrlock in Hr. destruct (Z.eqb_spec n RWLOCK_UNLOCKED_VALUE); injection Hr as <- <-.
    + destruct (word_zero _ _ _ _ Hi Hlen ltac:(done)) as (H1 & H2 & H3). pose proof (i_none _ Hi _ _ Hx eq_refl) as Hws. cbn in Hws.
      eapply inv_move; [done|done|..]; try done; [consts_adds; lia|by left|constructor|].
      eapply excl_take; [done|done|done|done|done|subst; done|done].
    + eapply inv_move; [done|done|..]; try done; [consts_adds; lia|by left|constructor|].
      eapply excl_move; [done|done|done|by left|by left].
  - unfold __rwlock_rdunlock in Hr. injection Hr as <- <-. destruct (_ && _);
      (eapply inv_move; [done|done|..]; try done; [consts_adds; lia|by left|constructor|]);
      (eapply excl_move; [done|done|done|left; unfold reads; cbn; lia|by left]).
  - unfold __rwlock_wrunlock in Hr. injection Hr as <- <-. destruct (_ <? 0);
      (eapply inv_move; [done|done|..]; try done; [consts_adds; lia|by left|constructor|]);
      (eapply excl_move; [done|done|done|by left|by left]).
  - unfold __rwlock_wr2rd_lock in Hr. injection Hr as <- <-.
    assert (Hone : total writes l - writes (MkTh WHeld w) = 0).
    { pose proof (total_elem writes l t _ (fun y => proj1 (writes_range y)) Hx) as H1. cbn in H1.
      destruct He as [H2 _]; [lia|]. unfold writes at 2. cbn. lia. }
    destruct (_ <? 0);
      (eapply inv_move; [done|done|..]; try done; [consts_adds; lia|by left|constructor|]);
      (eapply excl_move; [done|done|done|right; rewrite Hone; done|by left]).
  - unfold read_failed in Hr. injection Hr as <- <-. pose proof (i_none _ Hi _ _ Hx eq_refl) as Hws. cbn in Hws. subst w.
    destruct (_ || _); (eapply inv_enqueue; [done|done|done|..]; try done;
      [destruct (list_empty wl); consts_adds; lia|]);
      (eapply excl_move; [done|done|done|by left|by left]).
  - eapply inv_record; [done|done|..]; try done; cbn.
    + consts_adds. lia.
    + by left.
    + apply Hi.
    + intros ty Hin. destruct (i_list _ Hi _ _ Hin) as (y & Hy & Hq & _). cbn in Hy. by simplify_eq.
    + right; left. done.
    + eapply excl_move; [done|done|done|by left|by left].
  - unfold write_failed in Hr. injection Hr as <- <-. pose proof (i_none _ Hi _ _ Hx eq_refl) as Hws. cbn in Hws. subst w.
    destruct (_ && _); (eapply inv_enqueue; [done|done|done|..]; try done;
      [destruct (list_empty wl); consts_adds; lia|]);
      (eapply excl_move; [done|done|done|by left|by left]).
  - unfold write_try in Hr. destruct (_ =? 0); [|done]. destruct (Z.eqb_spec n RWLOCK_WAITING_BIAS) as [En|]; [|done].
    injection Hr as <-. assert (Hin : (t, RWLOCK_WAITING_FOR_WRITE) ∈ wl) by (apply (i_queued _ Hi _ _ _ Hx); [done|by left]).
    assert (Hne : wl <> []) by (intros ->; set_solver).
    destruct (i_list _ Hi _ _ Hin) as (y & Hy & Hq & _). cbn in Hy. rewrite Hx in Hy. injection Hy as <-. cbn in Hq. subst w.
    destruct (word_only_waiting _ _ _ _ Hi Hlen Hne En) as (H1 & H2 & H3).
    pose proof (i_mutex _ Hi _ _ Hx eq_refl) as Hmu. cbn in Hmu.
    rewrite (filter_waiter wl t _ (i_nodup _ Hi) Hin).
    eapply (inv_record _ _ wl); [done|done|..]; try done; cbn.
    + assert (Ew : waiting wl = 1) by (by destruct wl). rewrite Ew. unfold waiting.
      destruct (list_empty (filter _ _)); consts_adds; lia.
    + by right; right.
    + apply nodup_filter, Hi.
    + intros i ty Hit. rewrite list_elem_of_filter. naive_solver.
    + intros ty. rewrite list_elem_of_filter. naive_solver.
    + by right; right; right.
    + eapply excl_take; done.
  - eapply inv_move; [done|done|..]; try done; [consts_adds; lia|right; right; by apply (i_mutex _ Hi _ _ Hx)|constructor|].
    eapply excl_move; [done|done|done|by left|by left].
  - eapply inv_move; [done|done|..]; try done; [consts_adds; lia|by right; left|constructor|].
    eapply excl_move; [done|done|done|by left|by left].
  - destruct (list_empty wl) eqn:Ew; (eapply inv_move; [done|done|..]; try done; cbn;
      [consts_adds; lia|by right; left|..]); try (by constructor); try (by destruct wl);
      (eapply excl_move; [done|done|done|by left|by left]).
  - destruct (list_empty wl) eqn:Ew; (eapply inv_move; [done|done|..]; try done; cbn;
      [consts_adds; lia|by right; left|..]); try (by constructor); try (by destruct wl);
      (eapply excl_move; [done|done|done|by left|by left]).
  - eapply inv_finish; [done|done|done|done|done|done|done|]. unfold extra. cbn. lia.
  - pose proof (i_mutex _ Hi _ _ Hx eq_refl) as Hmu. cbn in Hmu. destruct (i_looks _ Hi _ _ Hx eq_refl) as [_ Ho]. cbn in Ho.
    assert (Hns : 0 < total writes l -> ty <> RWLOCK_WAKE_READ_OWNED).
    { intros Hpos ->. subst k. destruct (He Hpos) as (_ & Hrd & _).
      pose proof (total_elem reads l t _ (fun y => proj1 (reads_range y)) Hx) as Hel. unfold reads at 1 in Hel. cbn in Hel.
      assert (0 <= given w) by (destruct w; cbn; lia). lia. }
    destruct ty; (eapply inv_move; [done|done|..]; try done; [consts_adds; lia|by left|constructor|]);
      (eapply excl_move; [done|done|done|by left|by left]).
  - pose proof (i_mutex _ Hi _ _ Hx eq_refl) as Hmu. cbn in Hmu. destruct (i_looks _ Hi _ _ Hx eq_refl) as [Hne _]. cbn in Hne.
    destruct (Z.ltb_spec n RWLOCK_WAITING_BIAS) as [Hlt|Hge].
    + eapply inv_move; [done|done|..]; try done; [consts_adds; lia|by left|constructor|].
      eapply excl_move; [done|done|done|by left|by left].
    + pose proof (word_waiting _ _ _ _ Hi Hlen Hne Hge) as Hw0.
      eapply inv_move; [done|done|..]; try done; [consts_adds; lia|by left|constructor|].
      eapply excl_move; [done|done|done|by left|right; rewrite Hw0; done].
  - pose proof (i_mutex _ Hi _ _ Hx eq_refl) as Hmu. cbn in Hmu. destruct (i_looks _ Hi _ _ Hx eq_refl) as [Hne _]. cbn in Hne.
    destruct (_ =? 0).
    + eapply inv_move; [done|done|..]; try done; [consts_adds; lia|by left|constructor|].
      eapply excl_move; [done|done|done|by left|by left].
    + by eapply inv_finish.
  - by eapply inv_count_step.
  - pose proof (i_mutex _ Hi _ _ Hx eq_refl) as Hmu. cbn in Hmu.
    pose proof (i_wake_nodup _ Hi _ _ Hx) as Hnd. cbn in Hnd. apply NoDup_cons in Hnd as [Hu Hnd].
    destruct (i_wake _ Hi _ _ u Hx) as (y & Hy & Hg); [by left|]. cbn in Hy.
    set (l1 := <[t := MkTh (DPulse u woken k) w]> l).
    assert (Hi1 : inv (MkRw n m wl l1)).
    { eapply inv_move; [done|done|..]; try done; cbn; [consts_adds; lia|by left|set_solver|].
      eapply excl_move; [done|done|done|by left|by left]. }
    assert (Hy1 : exists y1, l1 !! u = Some y1 /\ t_ws y1 = WGranted).
    { unfold l1. destruct (decide (u = t)) as [->|Hut]; [rewrite (upd_same _ _ _ _ Hx); simplify_eq; eauto|rewrite upd_other by done; eauto]. }
    destruct Hy1 as (y1 & Hy1 & Hg1). unfold set_ws. rewrite Hy1. apply inv_null; [done|done|done|].
    intros i x Hxi. destruct (upd_cases _ _ _ _ _ _ Hx Hxi) as [[-> ->]|[Hit Hl]]; [done|]. intros Hin.
    apply Hit. by eapply (mutex_unique _ _ _ _ _ Hi Hx eq_refl Hl), to_wake_mutex.
  - pose proof (i_mutex _ Hi _ _ Hx eq_refl) as Hmu. cbn in Hmu. pose proof (i_wake_nodup _ Hi _ _ Hx) as Hnd.
    eapply inv_move; [done|done|..]; try done; [consts_adds; lia|by left|].
    eapply excl_move; [done|done|done|by left|by left].
  - eapply inv_finish; [done|done|done|done|done|done|done|]. unfold extra. cbn. lia.
Qed.

Lemma total_idle f n : f (MkTh Idle WNone) = 0 -> total f (replicate n (MkTh Idle WNone)) = 0.
Proof. intros Hf. induction n as [|n IH]; [done|]. cbn. by rewrite Hf, IH. Qed.

Lemma inv_init n : inv (rwlock_init n).
Proof.
  assert (Hidle : forall t x, replicate n (MkTh Idle WNone) !! t = Some x -> x = MkTh Idle WNone)
    by (intros t x [-> _]%lookup_replicate; done).
  split; cbn.
  - rewrite !total_idle by done. done.
  - by intros t x ->%Hidle.
  - constructor.
  - intros t ty Hin. set_solver.
  - by intros t x ->%Hidle.
  - by intros t x ty ->%Hidle.
  - by intros t x ->%Hidle.
  - intros t x u ->%Hidle Hu. set_solver.
  - intros t x ->%Hidle. constructor.
  - rewrite !total_idle by done. lia.
Qed.

Lemma reach_inv n s : Z.of_nat n < 2 ^ 29 -> reachable n s -> inv s /\ length (rw_ths s) = n.
Proof.
  intros Hn. induction 1 as [|s s' _ [IH Hl] Hst]; [split; [apply inv_init|by cbn; rewrite length_replicate]|].
  split; [eapply inv_step; [by rewrite Hl|done|done]|]. by rewrite (length_step _ _ Hst).
Qed.

(** ** The properties *)

(** C7: a writer excludes everybody: in every state that any interleaving of
    the fast and slow paths can reach, while a thread holds the lock for
    writing no other thread holds it, for writing or for reading, and no
    waiting reader has been given it. *)
Theorem rwlock_mutual_exclusion n s t x (Hn : Z.of_nat n < 2 ^ 29) (Hr : reachable n s)
  (Ht : rw_ths s !! t = Some x) (Hw : t_pc x = WHeld) :
  forall u y, rw_ths s !! u = Some y -> u <> t ->
    t_pc y <> WHeld /\ t_pc y <> RHeld /\ t_ws y <> WGranted /\ t_ws y <> WNull.
Proof.
  destruct (reach_inv _ _ Hn Hr) as [Hi _]. intros u y Hy Hut.
  pose proof (total_elem writes _ t x (fun z => proj1 (writes_range z)) Ht) as H1. unfold writes at 1 in H1. rewrite Hw in H1.
  destruct (i_excl _ Hi) as (Hone & Hzero & _); [lia|].
  pose proof (total_elem reads _ u y (fun z => proj1 (reads_range z)) Hy) as H2. rewrite Hzero in H2. unfold reads in H2.
  assert (Hy2 : t_pc y <> WHeld).
  { intros Ey. pose proof (total_insert writes _ t x (MkTh Idle WNone) Ht) as H3.
    pose proof (total_elem writes (<[t := MkTh Idle WNone]> (rw_ths s)) u y (fun z => proj1 (writes_range z))) as H4.
    rewrite upd_other in H4 by done. specialize (H4 Hy). unfold writes in H3 at 3 4. unfold writes in H4 at 1. cbn in H3. rewrite Hw in H3.
    rewrite Ey in H4. lia. }
  assert (0 <= reads_pc (t_pc y)) by (destruct (t_pc y) as [| | | | | | | | | |? []|[]|[]|? []|? []|? ? []]; cbn; lia).
  assert (0 <= given (t_ws y)) by (destruct (t_ws y); cbn; lia).
  split; [done|]. split; [intros E; rewrite E in H2; cbn in H2; lia|].
  split; intros E; rewrite E in H2; cbn in H2; lia.
Qed.

(** The word is restored: once every thread is back outside, the word is
    [RWLOCK_UNLOCKED_VALUE] and nobody is in the list, whatever fast and slow
    paths were taken. *)
Theorem rwlock_word_restored n s (Hn : Z.of_nat n < 2 ^ 29) (Hr : reachable n s)
  (Hq : forall t x, rw_ths s !! t = Some x -> t_pc x = Idle) :
  rw_count s = RWLOCK_UNLOCKED_VALUE /\ rw_list s = [].
Proof.
  destruct (reach_inv _ _ Hn Hr) as [Hi _].
  assert (Hwl : rw_list s = []).
  { destruct (rw_list s) as [|[t ty] r] eqn:E; [done|]. destruct (i_list _ Hi t ty) as (x & Hx & _ & Hty); [rewrite E; by left|].
    by rewrite (Hq _ _ Hx) in Hty. }
  split; [|done]. rewrite (i_count _ Hi), Hwl.
  assert (Hz : forall f, f (MkTh Idle WNone) = 0 -> total f (rw_ths s) = 0).
  { intros f Hf. assert (Hall : forall t x, rw_ths s !! t = Some x -> x = MkTh Idle WNone).
    { intros t [p w] Hx. pose proof (Hq _ _ Hx) as Hp. cbn in Hp. subst p. pose proof (i_none _ Hi _ _ Hx eq_refl) as Hw. cbn in Hw. by subst. }
    clear -Hf Hall. induction (rw_ths s) as [|x l IH]; [done|]. cbn. rewrite IH by (intros t y Hy; by apply (Hall (S t))).
    by rewrite (Hall 0%nat x eq_refl), Hf. }
  by rewrite !Hz.
Qed.

(** Waking a reader is not safe: some interleaving reaches a state in
    which a thread inside [__rwlock_do_wake] is about to call [k_event_pulse]
    on the event of a reader that has already seen [waiter.event == NULL],
    destroyed the event and returned with the lock: the event lived in the
    frame of [rwlock_read_lock_failed], which is gone. *)
Theorem rwlock_pulse_after_return : exists s woken k w,
  reachable 2 s /\ rw_ths s !! 0%nat = Some (MkTh (DPulse 1 woken k) w) /\ rw_ths s !! 1%nat = Some (MkTh RHeld WNone).
Proof.
  pose proof (rw_init 2) as H.
  eapply rw_step in H; [|eapply (st_wrlock 0); reflexivity]. vm_compute in H.
  eapply rw_step in H; [|eapply (st_rdlock 1); reflexivity]. vm_compute in H.
  eapply rw_step in H; [|eapply (st_read_failed 1); reflexivity]. vm_compute in H.
  eapply rw_step in H; [|eapply (st_wrunlock 0); reflexivity]. vm_compute in H.
  eapply rw_step in H; [|eapply (st_wake 0); reflexivity]. vm_compute in H.
  eapply rw_step in H; [|eapply (st_start_reader 0); reflexivity]. vm_compute in H.
  eapply rw_step in H; [|eapply (st_grant 0); reflexivity]. vm_compute in H.
  eapply rw_step in H; [|eapply (st_count 0); reflexivity]. vm_compute in H.
  eapply rw_step in H; [|eapply (st_null 0); reflexivity]. vm_compute in H.
  eapply rw_step in H; [|eapply (st_read_given 1); reflexivity]. vm_compute in H.
  do 4 eexists. split; [exact H|]. done.
Qed.

Lemma rwlock_mutual_exclusion_witness : exists s, reachable 2 s /\ rw_ths s !! 0%nat = Some (MkTh WHeld WNone) /\
  forall u y, rw_ths s !! u = Some y -> u <> 0%nat -> t_pc y <> WHeld /\ t_pc y <> RHeld /\ t_ws y <> WGranted /\ t_ws y <> WNull.
Proof.
  pose proof (rw_init 2) as H.
  eapply rw_step in H; [|eapply (st_wrlock 0); reflexivity]. vm_compute in H.
  eapply rw_step in H; [|eapply (st_rdlock 1); reflexivity]. vm_compute in H.
  eexists. split; [exact H|]. split; [done|]. apply (rwlock_mutual_exclusion 2 _ 0 (MkTh WHeld WNone)); [done|exact H|done|done].
Defined.

Lemma rwlock_word_restored_witness : exists s, reachable 2 s /\ rw_count s = RWLOCK_UNLOCKED_VALUE /\ rw_list s = [].
Proof.
  pose proof (rw_init 2) as H.
  eapply rw_step in H; [|eapply (st_wrlock 0); reflexivity]. vm_compute in H.
  eapply rw_step in H; [|eapply (st_wrunlock 0); reflexivity]. vm_compute in H.
  eexists. split; [exact H|]. apply (rwlock_word_restored 2); [done|exact H|].
  intros [|[|t]] x Hx; [by injection Hx as <-|by injection Hx as <-|done].
Defined.
