(* ===== verification/KRwLock.v ===== *)
(** * The upgradable reader-writer lock: [k_rwlock_t] of [kernel/thread.c]

    A [k_rwlock_t] is a raw reader-writer lock ([RwLock]) with a mutex [lk]
    that every writer holds.  A reader becomes a writer with
    [k_rwlock_rd2wrlock], which gives the read lock back while it holds the
    mutex, and turns back with [k_rwlock_wr2rdlock].

    The raw lock is seen through the numbers of its readers and writers; what is
    used of it is that it never has a writer next to another holder, which
    [raw_of_legal] takes from the proof of its implementation. *)
From S2P Require Import Prelude RwLock RwProps.

(** ** The raw lock *)

Record raw := MkRaw { r_readers : Z; r_writers : Z }.

Definition raw_legal (r : raw) : bool :=
  (0 <=? r_readers r) && (0 <=? r_writers r) && (r_writers r <=? 1) && ((r_writers r =? 0) || (r_readers r =? 0)).

(** An operation that returns leaves the lock legal; until then it waits, or
    fails if it is a [try]. *)
Definition raw_upd (dr dw : Z) (r : raw) : option raw :=
  let r' := MkRaw (r_readers r + dr) (r_writers r + dw) in if raw_legal r' then Some r' else None.
Definition k_raw_rwlock_rdlock : raw -> option raw := raw_upd 1 0.
Definition k_raw_rwlock_wrlock : raw -> option raw := raw_upd 0 1.
Definition k_raw_rwlock_rdunlock : raw -> option raw := raw_upd (-1) 0.
Definition k_raw_rwlock_wrunlock : raw -> option raw := raw_upd 0 (-1).

(** What a state of the implementation is as a raw lock. *)
Definition raw_of (s : rwst) : raw := MkRaw (total reads (rw_ths s)) (total writes (rw_ths s)).

Lemma raw_legal_iff r :
  raw_legal r = true <-> 0 <= r_readers r /\ 0 <= r_writers r <= 1 /\ (r_writers r = 0 \/ r_readers r = 0).
Proof. unfold raw_legal. rewrite !andb_true_iff, orb_true_iff, !Z.leb_le, !Z.eqb_eq. lia. Qed.

(** The implementation never leaves the legal states. *)
Lemma raw_of_legal n s : Z.of_nat n < 2 ^ 29 -> reachable n s -> raw_legal (raw_of s) = true.
Proof.
  intros Hn Hr. destruct (reach_inv _ _ Hn Hr) as [Hi Hl]. rewrite raw_legal_iff. cbn.
  assert (Z.of_nat (length (rw_ths s)) < 2 ^ 29) as Hlen by (by rewrite Hl).
  destruct (totals_range _ Hlen) as (H1 & _ & H2 & _). pose proof (i_excl _ Hi).
  destruct (decide (0 < total writes (rw_ths s))) as [Hp|]; [destruct H as (E1 & E2 & _); lia|lia].
Qed.

(** ** The functions *)

(** Where a thread is.  [KRead] and [KWrite]: it holds the lock.  In
    [k_rwlock_wrlock]: [KWrMutex] with the mutex, [KWrFail] after a failed try,
    [KWrSleep] before the next round.  In [k_rwlock_trywrlock]: [KTryMutex],
    [KTryFail].  [KWrDone]: in [k_rwlock_wrunlock] before the mutex is given
    back.  In [k_rwlock_rd2wrlock]: [KUpLoop], [KUpCheck] after the mutex was
    busy, [KUpMutex] with it, [KUpCount] after [rd2wrlock_count = 1], [KUpWait]
    after the read lock was given back; [KUpWrite]: it holds the lock for writing
    through an upgrade.  In [k_rwlock_wr2rdlock]: [KDownWait] after the write
    lock was given back, [KDownRead] with the read lock, [KDownCount] after
    [rd2wrlock_count = 0]. *)
Inductive kpc :=
| KIdle | KRead | KWrite
| KWrMutex | KWrFail | KWrSleep | KTryMutex | KTryFail | KWrDone
| KUpLoop | KUpCheck | KUpMutex | KUpCount | KUpWait | KUpWrite
| KDownWait | KDownRead | KDownCount
| KAborted.

(** [k_rwlock_t], with the holder of the mutex, and the threads. *)
Record kst := MkK { k_lk : option nat; k_count : Z; k_raw : raw; k_pcs : list kpc }.

Definition k_rwlock_init (n : nat) : kst := MkK None 0 (MkRaw 0 0) (replicate n KIdle).

(** What thread [t] does next at point [p]: the new mutex, [rd2wrlock_count],
    raw lock and point; [None] when it has to wait. *)
Definition k_lock_lock (t : nat) (p : kpc) (s : kst) : option (option nat * Z * raw * kpc) :=
  match k_lk s with None => Some (Some t, k_count s, k_raw s, p) | Some _ => None end.
Definition k_lock_unlock (p : kpc) (s : kst) : option (option nat * Z * raw * kpc) :=
  Some (None, k_count s, k_raw s, p).
Definition k_raw_op (op : raw -> option raw) (p : kpc) (s : kst) : option (option nat * Z * raw * kpc) :=
  match op (k_raw s) with Some r => Some (k_lk s, k_count s, r, p) | None => None end.
Definition k_goto (p : kpc) (s : kst) : option (option nat * Z * raw * kpc) := Some (k_lk s, k_count s, k_raw s, p).
Definition k_set_count (c : Z) (p : kpc) (s : kst) : option (option nat * Z * raw * kpc) :=
  Some (k_lk s, c, k_raw s, p).

Inductive kcall := CRdLock | CWrLock | CTryRdLock | CTryWrLock | CRdUnlock | CWrUnlock | CRd2Wr | CWr2Rd.

(** The first step of a call from a point where the thread runs its own code;
    [ok] is the outcome of a [try], which may fail although the lock is free. *)
Definition k_begin (t : nat) (ok : bool) (c : kcall) (p : kpc) (s : kst) : option (option nat * Z * raw * kpc) :=
  match c, p with
  | CRdLock, KIdle => k_raw_op k_raw_rwlock_rdlock KRead s
  | CWrLock, KIdle => k_lock_lock t KWrMutex s
  | CTryRdLock, KIdle => if ok then k_raw_op k_raw_rwlock_rdlock KRead s else k_goto KIdle s
  | CTryWrLock, KIdle => k_lock_lock t KTryMutex s
  | CRdUnlock, KRead => k_raw_op k_raw_rwlock_rdunlock KIdle s
  | CWrUnlock, KWrite => k_raw_op k_raw_rwlock_wrunlock KWrDone s
  | CRd2Wr, KRead => k_goto KUpLoop s
  | CWr2Rd, KUpWrite => k_raw_op k_raw_rwlock_wrunlock KDownWait s
  | _, _ => None
  end.

(** The next step inside a call. *)
Definition k_continue (t : nat) (ok : bool) (p : kpc) (s : kst) : option (option nat * Z * raw * kpc) :=
  match p with
  | KWrMutex => if ok then k_raw_op k_raw_rwlock_wrlock KWrite s else k_goto KWrFail s
  | KWrFail => k_lock_unlock KWrSleep s
  | KWrSleep => k_lock_lock t KWrMutex s
  | KTryMutex => if ok then k_raw_op k_raw_rwlock_wrlock KWrite s else k_goto KTryFail s
  | KTryFail => k_lock_unlock KIdle s
  | KWrDone => k_lock_unlock KIdle s
  | KUpLoop => match k_lock_lock t KUpMutex s with Some r => Some r | None => k_goto KUpCheck s end
  | KUpCheck => if negb (k_count s =? 0) then k_goto KAborted s else k_goto KUpLoop s
  | KUpMutex => k_set_count 1 KUpCount s
  | KUpCount => k_raw_op k_raw_rwlock_rdunlock KUpWait s
  | KUpWait => k_raw_op k_raw_rwlock_wrlock KUpWrite s
  | KDownWait => k_raw_op k_raw_rwlock_rdlock KDownRead s
  | KDownRead => k_set_count 0 KDownCount s
  | KDownCount => k_lock_unlock KRead s
  | KIdle | KRead | KWrite | KUpWrite | KAborted => None
  end.

Definition k_commit (t : nat) (r : option nat * Z * raw * kpc) (s : kst) : kst :=
  let '(lk, c, rw, p) := r in MkK lk c rw (<[t := p]> (k_pcs s)).

Inductive kstep : kst -> kst -> Prop :=
| ks_begin t ok c p r s : k_pcs s !! t = Some p -> k_begin t ok c p s = Some r -> kstep s (k_commit t r s)
| ks_continue t ok p r s : k_pcs s !! t = Some p -> k_continue t ok p s = Some r -> kstep s (k_commit t r s).

Inductive kreach (n : nat) : kst -> Prop :=
| kr_init : kreach n (k_rwlock_init n)
| kr_step s s' : kreach n s -> kstep s s' -> kreach n s'.

(** ** The specification *)

(** The number of readers, whether there is a writer, and whether a reader is
    between giving the lock back to become a writer and being a reader again. *)
Record klock := MkKl { kl_r : Z; kl_w : bool; kl_up : bool }.

Definition kl_rdlock (l : klock) : option klock := if kl_w l then None else Some (MkKl (kl_r l + 1) false (kl_up l)).
Definition kl_rdunlock (l : klock) : option klock := if 0 <? kl_r l then Some (MkKl (kl_r l - 1) (kl_w l) (kl_up l)) else None.
Definition kl_wrlock (l : klock) : option klock :=
  if (kl_r l =? 0) && negb (kl_w l) && negb (kl_up l) then Some (MkKl 0 true false) else None.
Definition kl_wrunlock (l : klock) : option klock := if kl_w l && negb (kl_up l) then Some (MkKl (kl_r l) false false) else None.
(** The upgrade: the read lock is given back, then the write lock taken. *)
Definition kl_up1 (l : klock) : option klock :=
  if negb (kl_up l) && (0 <? kl_r l) then Some (MkKl (kl_r l - 1) (kl_w l) true) else None.
Definition kl_up2 (l : klock) : option klock :=
  if kl_up l && (kl_r l =? 0) && negb (kl_w l) then Some (MkKl 0 true true) else None.
(** The way back. *)
Definition kl_down1 (l : klock) : option klock := if kl_up l && kl_w l then Some (MkKl (kl_r l) false true) else None.
Definition kl_down2 (l : klock) : option klock := if kl_up l && negb (kl_w l) then Some (MkKl (kl_r l + 1) false true) else None.
Definition kl_down3 (l : klock) : option klock := if kl_up l then Some (MkKl (kl_r l) (kl_w l) false) else None.

Definition kl_ops : list (klock -> option klock) :=
  [kl_rdlock; kl_rdunlock; kl_wrlock; kl_wrunlock; kl_up1; kl_up2; kl_down1; kl_down2; kl_down3].
Definition kl_step (l l' : klock) : Prop := l' = l \/ exists op, In op kl_ops /\ op l = Some l'.

(** ** The invariant *)

(** Points with the raw lock held for reading and for writing, with the mutex,
    in an upgrade as the specification sees it, and with [rd2wrlock_count] set. *)
Definition k_reads (p : kpc) : Z :=
  match p with KRead | KUpLoop | KUpCheck | KUpMutex | KUpCount | KDownRead | KDownCount | KAborted => 1 | _ => 0 end.
Definition k_writes (p : kpc) : Z := match p with KWrite | KUpWrite => 1 | _ => 0 end.
Definition k_zone (p : kpc) : Z := match p with KUpWait | KUpWrite | KDownWait | KDownRead | KDownCount => 1 | _ => 0 end.
Definition k_counted (p : kpc) : Z := match p with KUpCount | KUpWait | KUpWrite | KDownWait | KDownRead => 1 | _ => 0 end.
Definition k_mutex (p : kpc) : Z :=
  match p with
  | KWrite | KWrMutex | KWrFail | KTryMutex | KTryFail | KWrDone | KUpMutex | KUpCount | KUpWait | KUpWrite
  | KDownWait | KDownRead | KDownCount => 1
  | _ => 0
  end.

Fixpoint ksum (f : kpc -> Z) (l : list kpc) : Z := match l with [] => 0 | p :: l => f p + ksum f l end.

Lemma ksum_insert f (l : list kpc) (t : nat) p p' : l !! t = Some p -> ksum f (<[t := p']> l) = ksum f l - f p + f p'.
Proof.
  revert t. induction l as [|q l IH]; intros [|t] E; try done.
  - injection E as ->. cbn. lia.
  - change (<[S t := p']> (q :: l)) with (q :: <[t := p']> l). cbn [ksum]. rewrite (IH t) by done. lia.
Qed.
Lemma ksum_nonneg f l : (forall p, 0 <= f p) -> 0 <= ksum f l.
Proof. intros H. induction l as [|p l IH]; cbn; [lia|]. specialize (H p). lia. Qed.
Lemma ksum_elem f (l : list kpc) (t : nat) p : (forall p, 0 <= f p) -> l !! t = Some p -> f p <= ksum f l.
Proof.
  intros H. revert t. induction l as [|q l IH]; intros [|t] E; try done; cbn in *.
  - injection E as ->. pose proof (ksum_nonneg f l H). lia.
  - specialize (IH t E). specialize (H q). lia.
Qed.
Lemma ksum_pos f l : (forall p, 0 <= f p) -> 0 < ksum f l -> exists t p, l !! t = Some p /\ 0 < f p.
Proof.
  intros H. induction l as [|q l IH]; cbn; intros Hp; [lia|]. destruct (decide (0 < f q)); [by exists O, q|].
  destruct IH as (t & p & E & Hf); [specialize (H q); lia|]. by exists (S t), p.
Qed.
Lemma k_nonneg p : 0 <= k_reads p <= 1 /\ 0 <= k_writes p <= 1 /\ 0 <= k_zone p <= 1 /\ 0 <= k_counted p <= 1 /\ 0 <= k_mutex p <= 1.
Proof. destruct p; cbn; lia. Qed.
Lemma k_mutex_covers p : k_writes p <= k_mutex p /\ k_zone p <= k_mutex p /\ k_counted p <= k_mutex p.
Proof. destruct p; cbn; lia. Qed.
Lemma ksum_le f g l : (forall p, f p <= g p) -> ksum f l <= ksum g l.
Proof. intros H. induction l as [|p l IH]; cbn; [lia|]. specialize (H p). lia. Qed.

(** The raw lock has the holders the threads say; the mutex is held by the one
    thread that says so; [rd2wrlock_count] is set by the one that upgrades. *)
Record kinv (s : kst) : Prop := {
  ki_readers : r_readers (k_raw s) = ksum k_reads (k_pcs s);
  ki_writers : r_writers (k_raw s) = ksum k_writes (k_pcs s);
  ki_legal : raw_legal (k_raw s) = true;
  ki_mutex : ksum k_mutex (k_pcs s) = match k_lk s with Some _ => 1 | None => 0 end;
  ki_owner : forall t p, k_pcs s !! t = Some p -> k_mutex p = 1 -> k_lk s = Some t;
  ki_count : k_count s = ksum k_counted (k_pcs s)
}.

Lemma kinv_init n : kinv (k_rwlock_init n).
Proof.
  assert (forall f, f KIdle = 0 -> ksum f (replicate n KIdle) = 0) as H.
  { intros f Hf. induction n as [|n IH]; cbn; [done|]. rewrite Hf, IH. done. }
  split; cbn; rewrite ?H; try done. intros t p [-> _]%lookup_replicate. done.
Qed.

(** A step of one thread preserves the invariant when the sums and the mutex
    move together. *)
Lemma kinv_move s t p lk c rw p' :
  kinv s -> k_pcs s !! t = Some p -> raw_legal rw = true ->
  r_readers rw = r_readers (k_raw s) - k_reads p + k_reads p' ->
  r_writers rw = r_writers (k_raw s) - k_writes p + k_writes p' ->
  c = k_count s - k_counted p + k_counted p' ->
  ((lk = k_lk s /\ k_mutex p' = k_mutex p) \/ (lk = Some t /\ k_lk s = None /\ k_mutex p' = 1 /\ k_mutex p = 0) \/
   (lk = None /\ k_mutex p' = 0 /\ k_mutex p = 1)) ->
  kinv (k_commit t (lk, c, rw, p') s).
Proof.
  intros [I1 I2 I3 I4 I5 I6] E Hl Hr Hw Hc Hm. split; cbn; rewrite ?(ksum_insert _ _ _ _ _ E); try lia; [done| |].
  - destruct Hm as [(-> & ?)|[(-> & Hn & ? & ?)|(-> & ? & ?)]]; [lia|rewrite Hn in I4; lia|].
    rewrite (I5 t p E) in I4 by done. lia.
  - intros u q Eu Hq. apply (upd_cases _ _ _ _ _ _ E) in Eu as [[-> ->]|[Hne Eu]].
    + destruct Hm as [(-> & Hm)|[(-> & _)|(_ & ? & _)]]; [|done|lia]. apply (I5 t p E). lia.
    + pose proof (I5 u q Eu Hq) as Hlk. destruct Hm as [(-> & _)|[(_ & Hn & _)|(_ & _ & Hm)]]; [done|congruence|].
      pose proof (I5 t p E Hm). congruence.
Qed.

Lemma raw_upd_inv dr dw r r' : raw_upd dr dw r = Some r' ->
  raw_legal r' = true /\ r_readers r' = r_readers r + dr /\ r_writers r' = r_writers r + dw.
Proof. unfold raw_upd. destruct (raw_legal _) eqn:E; [|done]. intros [= <-]. done. Qed.

(** Whoever has the mutex is the only one at the points that need it. *)
Lemma mutex_alone f s t p :
  kinv s -> k_pcs s !! t = Some p -> k_mutex p = 1 -> (forall q, f q <= k_mutex q) -> ksum f (k_pcs s) <= f p.
Proof.
  intros I E Hm Hf. pose proof (ksum_elem (fun q => k_mutex q - f q) (k_pcs s) t p) as H. cbn in H.
  assert (forall l, ksum (fun q => k_mutex q - f q) l = ksum k_mutex l - ksum f l) as Hs.
  { induction l as [|q l IH]; cbn; lia. }
  rewrite Hs, (ki_mutex _ I), (ki_owner _ I t p E Hm) in H. specialize (H ltac:(intros q; specialize (Hf q); lia) E). lia.
Qed.

(** The cases of one step. *)
Ltac kstep_cases :=
  repeat match goal with
  | H : (if ?b then _ else _) = Some _ |- _ => destruct b eqn:?; try discriminate
  | H : match ?x with Some _ => _ | None => _ end = _ |- _ => destruct x eqn:?; try discriminate
  end; simplify_eq; repeat match goal with H : raw_upd _ _ _ = Some _ |- _ => apply raw_upd_inv in H as (? & ? & ?) end.

Lemma kinv_step s s' : kinv s -> kstep s s' -> kinv s'.
Proof.
  intros I Hst. destruct Hst as [t ok c p r s E H|t ok p r s E H]; pose proof (ki_owner _ I t p E) as Hown.
  - destruct c, p; cbn in H; try discriminate; unfold k_raw_op, k_lock_lock, k_goto, k_raw_rwlock_rdlock, k_raw_rwlock_wrlock, k_raw_rwlock_rdunlock, k_raw_rwlock_wrunlock in H; kstep_cases;
      (eapply kinv_move; [done|exact E|first [done|apply (ki_legal _ I)]|cbn; lia|cbn; lia|cbn; lia|cbn; naive_solver]).
  - assert (0 <= ksum k_counted (k_pcs s)) by (apply ksum_nonneg; intros q; pose proof (k_nonneg q); lia).
    assert (k_mutex p = 1 -> ksum k_counted (k_pcs s) <= k_counted p) as Halone.
    { intros Hm. eapply mutex_alone; [done..|]. intros q. pose proof (k_mutex_covers q). lia. }
    assert (k_counted p <= ksum k_counted (k_pcs s)).
    { eapply ksum_elem; [|done]. intros q. pose proof (k_nonneg q). lia. }
    pose proof (ki_count _ I) as Hc.
    destruct p; cbn in H; try discriminate; cbn in Hown, Halone, H1;
      unfold k_raw_op, k_lock_lock, k_lock_unlock, k_goto, k_set_count, k_raw_rwlock_rdlock, k_raw_rwlock_wrlock, k_raw_rwlock_rdunlock, k_raw_rwlock_wrunlock in H; kstep_cases;
      (eapply kinv_move; [done|exact E|first [done|apply (ki_legal _ I)]|cbn; lia|cbn; lia|cbn; lia|cbn; naive_solver]).
Qed.

Lemma kreach_inv n s : kreach n s -> kinv s.
Proof. induction 1; [apply kinv_init|by eapply kinv_step]. Qed.

(** ** The theorems *)

(** The state as the specification sees it. *)
Definition kl_of (s : kst) : klock :=
  MkKl (ksum k_reads (k_pcs s)) (0 <? ksum k_writes (k_pcs s)) (0 <? ksum k_zone (k_pcs s)).

(** Facts about the sums that decide every case of the simulation. *)
Lemma k_facts s t p :
  kinv s -> k_pcs s !! t = Some p ->
  0 <= ksum k_reads (k_pcs s) /\ 0 <= ksum k_writes (k_pcs s) <= 1 /\ 0 <= ksum k_zone (k_pcs s) /\
  (ksum k_writes (k_pcs s) = 0 \/ ksum k_reads (k_pcs s) = 0) /\
  k_reads p <= ksum k_reads (k_pcs s) /\ k_writes p <= ksum k_writes (k_pcs s) /\ k_zone p <= ksum k_zone (k_pcs s) /\
  (k_mutex p = 1 -> ksum k_zone (k_pcs s) <= k_zone p /\ ksum k_writes (k_pcs s) <= k_writes p).
Proof.
  intros I E. pose proof (ki_legal _ I) as L. rewrite raw_legal_iff, (ki_readers _ I), (ki_writers _ I) in L.
  assert (0 <= ksum k_zone (k_pcs s)) by (apply ksum_nonneg; intros q; pose proof (k_nonneg q); lia).
  split; [lia|]. split; [lia|]. split; [lia|]. split; [lia|].
  split; [eapply ksum_elem; [|done]; intros q; pose proof (k_nonneg q); lia|].
  split; [eapply ksum_elem; [|done]; intros q; pose proof (k_nonneg q); lia|].
  split; [eapply ksum_elem; [|done]; intros q; pose proof (k_nonneg q); lia|].
  intros Hm. split; (eapply mutex_alone; [done..|]; intros q; pose proof (k_mutex_covers q); lia).
Qed.

(** Every step is one of the specification. *)
Ltac kl_pick op := right; exists op; split; [cbn; auto 12|]; unfold kl_rdlock, kl_rdunlock, kl_wrlock, kl_wrunlock, kl_up1, kl_up2, kl_down1, kl_down2, kl_down3; cbn;
  repeat match goal with |- context [?a <? ?b] => destruct (Z.ltb_spec a b); try lia end;
  repeat match goal with |- context [?a =? ?b] => destruct (Z.eqb_spec a b); try lia end; cbn; try (f_equal; f_equal; lia).
Ltac kl_same := left; cbn; f_equal; [lia|..];
  repeat match goal with |- context [?a <? ?b] => destruct (Z.ltb_spec a b); try lia end; done.

Lemma kl_of_commit s t lk c rw p p' :
  k_pcs s !! t = Some p ->
  kl_of (k_commit t (lk, c, rw, p') s) =
  MkKl (ksum k_reads (k_pcs s) - k_reads p + k_reads p') (0 <? ksum k_writes (k_pcs s) - k_writes p + k_writes p')
       (0 <? ksum k_zone (k_pcs s) - k_zone p + k_zone p').
Proof. intros E. unfold kl_of. cbn. by rewrite !(ksum_insert _ _ _ _ _ E). Qed.

Lemma k_simulation s s' : kinv s -> kstep s s' -> kl_step (kl_of s) (kl_of s').
Proof.
  intros I Hst. destruct Hst as [t ok c p r s E H|t ok p r s E H];
    destruct (k_facts _ _ _ I E) as (F1 & F2 & F3 & F4 & F5 & F6 & F7 & F8).
  - destruct c, p; cbn in H; try discriminate; cbn in F5, F6, F7, F8;
      unfold k_raw_op, k_lock_lock, k_goto, k_raw_rwlock_rdlock, k_raw_rwlock_wrlock, k_raw_rwlock_rdunlock, k_raw_rwlock_wrunlock in H; kstep_cases;
      rewrite (kl_of_commit _ _ _ _ _ _ _ E); unfold kl_of; cbn [k_reads k_writes k_zone];
      rewrite ?raw_legal_iff, ?(ki_readers _ I), ?(ki_writers _ I) in *;
      first [kl_same|kl_pick kl_rdlock; done|kl_pick kl_rdunlock; done|kl_pick kl_wrunlock; done|kl_pick kl_down1; done].
  - destruct p; cbn in H; try discriminate; cbn in F5, F6, F7, F8;
      unfold k_raw_op, k_lock_lock, k_lock_unlock, k_goto, k_set_count, k_raw_rwlock_rdlock, k_raw_rwlock_wrlock, k_raw_rwlock_rdunlock, k_raw_rwlock_wrunlock in H; kstep_cases;
      rewrite (kl_of_commit _ _ _ _ _ _ _ E); unfold kl_of; cbn [k_reads k_writes k_zone];
      rewrite ?raw_legal_iff, ?(ki_readers _ I), ?(ki_writers _ I) in *;
      first [kl_same|kl_pick kl_wrlock; done|kl_pick kl_up1; done|kl_pick kl_up2; done|kl_pick kl_down2; done|kl_pick kl_down3; done].
Qed.

(** C21: the lock of [kernel/thread.c] implements its specification: in every
    interleaving of the locking, trying, unlocking, upgrading and downgrading of
    any number of threads, each step is one of [kl_ops] on the number of readers,
    the writer and the upgrade in progress, or changes none of them; in
    particular a writer enters only when there is no reader, no writer and no
    upgrade. *)
Theorem krwlock_refines n s s' (Hr : kreach n s) (Hs : kstep s s') : kl_step (kl_of s) (kl_of s').
Proof. apply k_simulation; [by eapply kreach_inv|done]. Qed.

(** From [k_rwlock_rdlock] to the last unlock, conversions included. *)
Definition k_reader (p : kpc) : bool :=
  match p with
  | KRead | KUpLoop | KUpCheck | KUpMutex | KUpCount | KUpWait | KUpWrite | KDownWait | KDownRead | KDownCount => true
  | _ => false
  end.

Lemma k_reader_alone s t u p q :
  kinv s -> k_pcs s !! t = Some p -> k_pcs s !! u = Some q -> t <> u -> k_reader p = true -> k_writes q = 0.
Proof.
  intros I Et Eu Hne Hp. destruct (k_facts _ _ _ I Et) as (_ & F2 & _ & F4 & F5 & _). destruct (k_facts _ _ _ I Eu) as (_ & _ & _ & _ & _ & F6 & _).
  pose proof (k_nonneg q). destruct (decide (k_writes q = 1)) as [Hq|]; [exfalso|lia].
  assert (k_mutex q = 1) as Hm by (destruct q; cbn in *; lia). pose proof (ki_owner _ I u q Eu Hm) as Hlk.
  destruct (decide (k_mutex p = 1)) as [Hmp|Hmp]; [pose proof (ki_owner _ I t p Et Hmp); congruence|].
  assert (k_reads p = 1) by (destruct p; cbn in *; done || lia). lia.
Qed.

(** An upgrade is atomic.  While a thread is between [k_rwlock_rdlock] and
    its last unlock, also when it turns itself into a writer and back, no other
    thread is a writer: what it has read stays valid until it writes.  And the
    [abort] in [k_rwlock_rd2wrlock] is reached only while another thread is
    upgrading. *)
Theorem krwlock_upgrade_atomic n s (Hr : kreach n s) :
  (forall t u p q, k_pcs s !! t = Some p -> k_pcs s !! u = Some q -> t <> u -> k_reader p = true ->
     q <> KWrite /\ q <> KUpWrite) /\
  (forall t s', k_pcs s !! t = Some KUpCheck -> kstep s s' -> k_pcs s' !! t = Some KAborted ->
     exists u q, u <> t /\ k_pcs s !! u = Some q /\ k_counted q = 1).
Proof.
  pose proof (kreach_inv _ _ Hr) as I. split.
  - intros t u p q Et Eu Hne Hp. pose proof (k_reader_alone _ _ _ _ _ I Et Eu Hne Hp) as H. split; intros ->; cbn in H; lia.
  - intros t s' Et Hst Ea. enough (0 < k_count s) as Hc.
    { rewrite (ki_count _ I) in Hc. apply ksum_pos in Hc as (u & q & Eu & Hq); [|intros q; pose proof (k_nonneg q); lia].
      exists u, q. split; [|split; [done|pose proof (k_nonneg q); lia]]. intros ->. rewrite Et in Eu. injection Eu as <-. cbn in Hq. lia. }
    assert (0 <= k_count s) by (rewrite (ki_count _ I); apply ksum_nonneg; intros q; pose proof (k_nonneg q); lia).
    destruct Hst as [u ok c p r s E H0|u ok p r s E H0]; destruct r as [[[lk c'] rw] p']; cbn in Ea;
      apply (upd_cases _ _ _ _ _ _ E) in Ea as [[-> <-]|[Hne Ea]]; rewrite ?Et in *; try congruence.
    + injection E as <-. by destruct c.
    + injection E as <-. cbn in H0. destruct (Z.eqb_spec (k_count s) 0); cbn in H0; [|lia]. unfold k_goto in H0. congruence.
Qed.

(** ** An execution *)

(** A schedule: which thread moves, and the call it begins, if it begins one. *)
Fixpoint k_exec (l : list (nat * option kcall)) (s : kst) : option kst :=
  match l with
  | [] => Some s
  | (t, c) :: l =>
    match k_pcs s !! t with
    | Some p =>
      match (match c with Some c => k_begin t true c p s | None => k_continue t true p s end) with
      | Some r => k_exec l (k_commit t r s)
      | None => None
      end
    | None => None
    end
  end.

Lemma k_exec_reach n l : forall s s', kreach n s -> k_exec l s = Some s' -> kreach n s'.
Proof.
  induction l as [|[t c] l IH]; intros s s' Hr; cbn; [by intros [= <-]|].
  destruct (k_pcs s !! t) as [p|] eqn:E; [|done].
  destruct c as [c|]; [destruct (k_begin t true c p s) as [r|] eqn:H|destruct (k_continue t true p s) as [r|] eqn:H]; try done;
    apply IH; (eapply kr_step; [done|]); [by eapply ks_begin|by eapply ks_continue].
Qed.

(** Two readers; the first has given its read lock back to become a writer, the
    second wants to do the same. *)
Definition k_demo : kst := MkK (Some 0%nat) 1 (MkRaw 1 0) [KUpWait; KUpCheck].
Definition k_demo_steps : list (nat * option kcall) :=
  [(0%nat, Some CRdLock); (1%nat, Some CRdLock); (0%nat, Some CRd2Wr); (0%nat, None); (0%nat, None); (0%nat, None);
   (1%nat, Some CRd2Wr); (1%nat, None)].

Lemma k_demo_reach : kreach 2 k_demo.
Proof. apply (k_exec_reach 2 k_demo_steps (k_rwlock_init 2)); [constructor|]. vm_compute. reflexivity. Qed.

Lemma krwlock_refines_witness : kl_step (kl_of k_demo) (kl_of (MkK (Some 0%nat) 1 (MkRaw 1 0) [KUpWait; KAborted])).
Proof.
  apply (krwlock_refines 2 k_demo); [apply k_demo_reach|].
  apply (ks_continue 1%nat true KUpCheck (Some 0%nat, 1, MkRaw 1 0, KAborted) k_demo); reflexivity.
Defined.

Lemma krwlock_upgrade_atomic_witness :
  (forall t u p q, k_pcs k_demo !! t = Some p -> k_pcs k_demo !! u = Some q -> t <> u -> k_reader p = true ->
     q <> KWrite /\ q <> KUpWrite) /\
  (forall t s', k_pcs k_demo !! t = Some KUpCheck -> kstep k_demo s' -> k_pcs s' !! t = Some KAborted ->
     exists u q, u <> t /\ k_pcs k_demo !! u = Some q /\ k_counted q = 1).
Proof. apply (krwlock_upgrade_atomic 2). apply k_demo_reach. Defined.
