(* ===== verification/Refobj.v ===== *)
(** * Reference objects: [kernel/refobj.c]

    A reference object is a piece of user data with a handle, a usage count, a
    reader-writer lock that protects its use against its destruction, and for
    every thread that uses it a node with the thread's references and locks.

    The model is one object and any number of threads.  A thread is a stack of
    calls into this file, because the user's functions that [aosl_ref_hold],
    [aosl_ref_read], [aosl_ref_write] and the queues run may call into it again.
    [frame_step] is the next step of the call on top of a stack, between two
    accesses to what threads share; [rstep] interleaves the threads.  The lock is
    the specification of [k_rwlock_t] proved in [KRwLock].  The handle table is
    reduced to whether the object is installed ([IdPool] has the table). *)
From S2P Require Import Prelude KRwLock.

(** ** The node of a thread *)

(** [struct robj_thread_node], without the tree links, the thread and the time. *)
Record robj_thread_node := MkNode { n_usage : Z; get_count : Z; lock_count : Z }.

Definition thread_rdlock_count (n : robj_thread_node) : Z := Z.land (lock_count n) 0x7fffffff.
Definition thread_wrlocked (n : robj_thread_node) : bool := negb (Z.land (lock_count n) 0x80000000 =? 0).
Definition thread_lock_free (n : robj_thread_node) : bool := lock_count n =? 0.
Definition thread_inc_rdlock_count (n : robj_thread_node) : robj_thread_node :=
  MkNode (n_usage n) (get_count n) (s32 (lock_count n + 1)).
Definition thread_dec_rdlock_count (n : robj_thread_node) : robj_thread_node :=
  MkNode (n_usage n) (get_count n) (s32 (lock_count n - 1)).
Definition thread_set_wrlocked (n : robj_thread_node) : robj_thread_node :=
  MkNode (n_usage n) (get_count n) (s32 0x80000000).
Definition thread_clr_wrlocked (n : robj_thread_node) : robj_thread_node :=
  MkNode (n_usage n) (get_count n) 0.

Definition __thread_node_get (n : robj_thread_node) : robj_thread_node := MkNode (u32 (n_usage n + 1)) (get_count n) (lock_count n).
(** [None]: the node is freed. *)
Definition __thread_node_put (n : robj_thread_node) : option robj_thread_node :=
  let u := u32 (n_usage n - 1) in if u =? 0 then None else Some (MkNode u (get_count n) (lock_count n)).

(** The node of the calling thread in the tree, and the same with the caller's
    hold on it; memory for a new node is there (the code aborts otherwise). *)
Definition robj_this_thread_node_get (create : bool) (tree : option robj_thread_node) : option robj_thread_node :=
  match tree with
  | Some n => Some (__thread_node_get n)
  | None => if create then Some (__thread_node_get (MkNode 1 0 0)) else None
  end.
Definition robj_this_thread_node_put (n : robj_thread_node) : option robj_thread_node := __thread_node_put n.

(** [__check_erase_node], apart from the idle time. *)
Definition node_idle (n : robj_thread_node) : bool := (n_usage n =? 1) && (get_count n =? 0) && thread_lock_free n.

(** ** Calls *)

(** The calls on a handle, on an object that the caller has, of a queue that
    runs a function with the object ([mpq_invoke_refobj_get], the function,
    [mpq_invoke_refobj_put]), and [aosl_ref_destroy]. *)
Inductive rop := OpHold | OpRead | OpWrite | OpObjRead | OpRun | OpDestroy (do_delete : bool).

(** How a running function is protected: not at all; by the read lock of the
    queue that runs it; by the thread's read lock, which it may have had already;
    by the write lock; by a read lock turned into a write lock; and for functions
    run by a queue, by the queue's read lock or, for the asynchronous objects,
    not at all. *)
Inductive how := HNo | HNoQ | HRd (first : bool) | HWr | HUp | HQ | HQA.

(** Where a call is.  [own] is [robj_this_thread_get_count], [e] the result. *)
Inductive rpc :=
| PGet | PLock | PRdWait | PQWait | PWrWait | PUp1 | PUp2
| PChk (h : how) | PRun (h : how)
| PDown2 | PDown3
| PPut (e : Z) | PDrop (e : Z) | PFree1 | PFree2
| PDNode | PDUninstall (own : Z) | PDFlag (own : Z) | PDWait (own : Z) | PDMark (own : Z) | PDUnlock (own e : Z)
| PDPut (own e : Z) | PDSpin (own : Z).

Record frame := MkFr { f_op : rop; f_pc : rpc }.
Record rthread := MkRt { rt_node : option robj_thread_node; rt_stack : list frame }.

(** The object: whether its memory is there, [usage], whether its handle is in
    the table, [REFOBJ_DESTROYED], [stop_lock]; the threads that ran the
    destructor and the one that took the handle out of the table, in order. *)
Record robj := MkObj {
  o_alive : bool;
  o_usage : Z;
  o_installed : bool;
  o_destroyed : bool;
  o_lock : klock;
  o_dtors : list nat;
  o_deleter : option nat;
  o_ths : list rthread
}.

(** The [abort ()]s: by [refobj_thread_rdlock] and [refobj_thread_wrlock] and
    [aosl_ref_destroy] for calls that would deadlock; for a missing node; in
    [refobj_wrlock] when an object is destroyed under the read lock; in
    [k_rwlock_rd2wrlock] for a second upgrade, which may also wait. *)
Inductive abort_site := ADeadlock | ANoNode | ADestroyed | AUpgrade.

(** The outcome of a step: wait, [abort ()], or the new object and the new
    state of the thread. *)
Inductive outcome := Wait | Aborts (a : abort_site) | Go (o : robj) (th : rthread).

Definition set_usage (u : Z) (o : robj) : robj :=
  MkObj (o_alive o) u (o_installed o) (o_destroyed o) (o_lock o) (o_dtors o) (o_deleter o) (o_ths o).
Definition set_lock (l : klock) (o : robj) : robj :=
  MkObj (o_alive o) (o_usage o) (o_installed o) (o_destroyed o) l (o_dtors o) (o_deleter o) (o_ths o).
Definition set_uninstalled (t : nat) (o : robj) : robj :=
  MkObj (o_alive o) (o_usage o) false (o_destroyed o) (o_lock o) (o_dtors o) (Some t) (o_ths o).
Definition refobj_set_destroyed (o : robj) : robj :=
  MkObj (o_alive o) (o_usage o) (o_installed o) true (o_lock o) (o_dtors o) (o_deleter o) (o_ths o).
Definition run_dtor (t : nat) (o : robj) : robj :=
  MkObj (o_alive o) (o_usage o) (o_installed o) (o_destroyed o) (o_lock o) (o_dtors o ++ [t]) (o_deleter o) (o_ths o).
(** [refobj_dtor] frees all the nodes, [refobj_free] then the object. *)
Definition free_robj (o : robj) : robj :=
  MkObj false (o_usage o) (o_installed o) (o_destroyed o) (o_lock o) (o_dtors o) (o_deleter o)
    (map (fun th => MkRt None (rt_stack th)) (o_ths o)).
Definition set_ths (l : list rthread) (o : robj) : robj :=
  MkObj (o_alive o) (o_usage o) (o_installed o) (o_destroyed o) (o_lock o) (o_dtors o) (o_deleter o) l.

Section Refobj.
(** [REFOBJ_MODIFY_ASYNC], [REFOBJ_RDLOCK_RECURSIVE], [REFOBJ_CALLER_FREE] of the
    object. *)
Context (modify_async rdlock_recursive caller_free : bool).

(** ** Locks and nodes *)

(** [refobj_thread_rdlock] up to the lock: the node, and whether the lock has
    to be taken. *)
Definition refobj_thread_rdlock (tree : option robj_thread_node) : abort_site + (option robj_thread_node * bool) :=
  match robj_this_thread_node_get true tree with
  | None => inl ANoNode
  | Some n =>
    if thread_wrlocked n then inl ADeadlock else
    if negb rdlock_recursive && (0 <? thread_rdlock_count n) then inl ADeadlock else
    let n := thread_inc_rdlock_count n in
    inr (robj_this_thread_node_put n, thread_rdlock_count n =? 1)
  end.

(** [refobj_thread_rdunlock]: the node, and whether the lock has to be given
    back. *)
Definition refobj_thread_rdunlock (tree : option robj_thread_node) : abort_site + (option robj_thread_node * bool) :=
  match robj_this_thread_node_get false tree with
  | None => inl ANoNode
  | Some n =>
    let n := thread_dec_rdlock_count n in
    inr (robj_this_thread_node_put n, thread_rdlock_count n =? 0)
  end.

Definition refobj_thread_wrlock (tree : option robj_thread_node) : abort_site + option robj_thread_node :=
  match robj_this_thread_node_get true tree with
  | None => inl ANoNode
  | Some n =>
    if negb (thread_lock_free n) then inl ADeadlock else
    inr (robj_this_thread_node_put (thread_set_wrlocked n))
  end.

Definition refobj_thread_wrunlock (tree : option robj_thread_node) : abort_site + option robj_thread_node :=
  match robj_this_thread_node_get false tree with
  | None => inl ANoNode
  | Some n => inr (robj_this_thread_node_put (thread_clr_wrlocked n))
  end.

(** The count of references of [__refobj_get] and [refobj_put]. *)
Definition node_inc_get (tree : option robj_thread_node) : abort_site + option robj_thread_node :=
  if caller_free then
    match robj_this_thread_node_get true tree with
    | None => inl ANoNode
    | Some n => inr (robj_this_thread_node_put (MkNode (n_usage n) (u32 (get_count n + 1)) (lock_count n)))
    end
  else inr tree.
Definition node_dec_get (tree : option robj_thread_node) : abort_site + option robj_thread_node :=
  if caller_free then
    match robj_this_thread_node_get false tree with
    | None => inl ANoNode
    | Some n => inr (robj_this_thread_node_put (MkNode (n_usage n) (u32 (get_count n - 1)) (lock_count n)))
    end
  else inr tree.

(** A function run by a queue with this object is below in the stack. *)
Definition is_queue_run (f : frame) : bool := match f_pc f with PRun HQ | PRun HQA => true | _ => false end.
Definition refobj_on_this_q (stack : list frame) : bool := existsb is_queue_run stack.

(** ** The steps of a call *)

Definition goto (o : robj) (n : option robj_thread_node) (op : rop) (p : rpc) (rest : list frame) : outcome :=
  Go o (MkRt n (MkFr op p :: rest)).
Definition with_lock (op : klock -> option klock) (o : robj) (k : robj -> outcome) : outcome :=
  match op (o_lock o) with Some l => k (set_lock l o) | None => Wait end.
Definition with_node {A} (r : abort_site + A) (k : A -> outcome) : outcome :=
  match r with inl a => Aborts a | inr x => k x end.

(** The call ends: a call on an object just returns, a call on a handle gives
    its reference back. *)
Definition finish_op (o : robj) (n : option robj_thread_node) (op : rop) (e : Z) (rest : list frame) : outcome :=
  match op with OpObjRead => Go o (MkRt n rest) | _ => goto o n op (PPut e) rest end.

(** [__refobj_get]: an installed object gets a reference; otherwise the call
    returns an error. *)
Definition __refobj_get (o : robj) (n : option robj_thread_node) (op : rop) (rest : list frame) : outcome :=
  if o_installed o then
    let o := set_usage (o_usage o + 1) o in
    match op with
    | OpDestroy _ => goto o n op PDNode rest
    | _ => with_node (node_inc_get n) (fun n => goto o n op PLock rest)
    end
  else Go o (MkRt n rest).

(** [__refobj_put]. *)
Definition __refobj_put (o : robj) (n : option robj_thread_node) (op : rop) (rest : list frame) : outcome :=
  let o := set_usage (o_usage o - 1) o in
  if o_usage o =? 0 then goto o n op PFree1 rest else Go o (MkRt n rest).

(** [refobj_rdlock], [refobj_wrlock] and the lock of
    [mpq_invoke_refobj_get] up to the point where the lock is waited for. *)
Definition lock_begin (o : robj) (n : option robj_thread_node) (op : rop) (rest : list frame) : outcome :=
  let on_q := refobj_on_this_q rest && negb modify_async in
  match op with
  | OpHold | OpDestroy _ => goto o n op (PRun HNo) rest
  | OpRead | OpObjRead =>
    if on_q then goto o n op (PRun HNoQ) rest else
    with_node (refobj_thread_rdlock n) (fun '(n, take) => goto o n op (if take then PRdWait else PChk (HRd false)) rest)
  | OpWrite => with_node (refobj_thread_wrlock n) (fun n => goto o n op (if on_q then PUp1 else PWrWait) rest)
  | OpRun => goto o n op (if modify_async then PChk HQA else PQWait) rest
  end.

(** The end of a protected function, or of a call that found the object
    destroyed. *)
Definition unlock_step (o : robj) (n : option robj_thread_node) (op : rop) (h : how) (e : Z) (rest : list frame) : outcome :=
  match h with
  | HNo | HNoQ | HQA => finish_op o n op e rest
  | HRd _ =>
    with_node (refobj_thread_rdunlock n) (fun '(n, give) =>
      if give then with_lock kl_rdunlock o (fun o => finish_op o n op e rest) else finish_op o n op e rest)
  | HWr => with_node (refobj_thread_wrunlock n) (fun n => with_lock kl_wrunlock o (fun o => finish_op o n op e rest))
  | HUp => with_node (refobj_thread_wrunlock n) (fun n => with_lock kl_down1 o (fun o => goto o n op PDown2 rest))
  | HQ => with_lock kl_rdunlock o (fun o => finish_op o n op e rest)
  end.

(** The steps of [aosl_ref_destroy] after it has its reference. *)
Definition destroy_step (t : nat) (o : robj) (n : option robj_thread_node) (do_delete : bool) (p : rpc) (rest : list frame) : outcome :=
  let op := OpDestroy do_delete in
  match p with
  | PDNode =>
    if refobj_on_this_q rest && negb modify_async then Aborts ADeadlock else
    match robj_this_thread_node_get false n with
    | None => goto o n op (PDUninstall 0) rest
    | Some n' =>
      if 0 <? thread_rdlock_count n' then Aborts ADeadlock else
      goto o (robj_this_thread_node_put n') op (PDUninstall (get_count n')) rest
    end
  | PDUninstall own =>
    if do_delete then
      if o_installed o then goto (set_uninstalled t o) n op (PDFlag own) rest
      else goto o n op (PDrop (- AOSL_EINVAL)) rest
    else goto o n op (PDFlag own) rest
  | PDFlag own => goto o n op (if o_destroyed o then PDPut own (- AOSL_EPERM) else PDWait own) rest
  | PDWait own => with_lock kl_wrlock o (fun o => goto o n op (PDMark own) rest)
  | PDMark own =>
    goto (refobj_set_destroyed o) n op (PDUnlock own (if o_destroyed o then - AOSL_EPERM else 0)) rest
  | PDUnlock own e => with_lock kl_wrunlock o (fun o => goto o n op (PDPut own e) rest)
  | PDPut own e =>
    if do_delete then
      let o := set_usage (o_usage o - 1) o in
      let o := if o_usage o =? 0 then free_robj (run_dtor t o) else o in
      goto o n op (PDSpin own) rest
    else goto o n op (PDrop e) rest
  | PDSpin own =>
    if caller_free && negb modify_async && (1 + own <? o_usage o) then Wait else goto o n op (PDrop 0) rest
  | _ => Wait
  end.

Definition frame_step (t : nat) (o : robj) (n : option robj_thread_node) (f : frame) (rest : list frame) : outcome :=
  let op := f_op f in
  match f_pc f with
  | PGet => __refobj_get o n op rest
  | PLock => lock_begin o n op rest
  | PRdWait => with_lock kl_rdlock o (fun o => goto o n op (PChk (HRd true)) rest)
  | PQWait => with_lock kl_rdlock o (fun o => goto o n op (PChk HQ) rest)
  | PWrWait => with_lock kl_wrlock o (fun o => goto o n op (PChk HWr) rest)
  | PUp1 => if kl_up (o_lock o) then Aborts AUpgrade else with_lock kl_up1 o (fun o => goto o n op PUp2 rest)
  | PUp2 => with_lock kl_up2 o (fun o => goto o n op (PChk HUp) rest)
  | PChk h =>
    if o_destroyed o then match h with HUp => Aborts ADestroyed | _ => unlock_step o n op h (- AOSL_EPERM) rest end
    else goto o n op (PRun h) rest
  | PRun h => unlock_step o n op h 0 rest
  | PDown2 => with_lock kl_down2 o (fun o => goto o n op PDown3 rest)
  | PDown3 => with_lock kl_down3 o (fun o => finish_op o n op 0 rest)
  | PPut e => with_node (node_dec_get n) (fun n => goto o n op (PDrop e) rest)
  | PDrop _ => __refobj_put o n op rest
  | PFree1 => goto (run_dtor t o) n op PFree2 rest
  | PFree2 => Go (free_robj o) (MkRt None rest)
  | p => match op with OpDestroy d => destroy_step t o n d p rest | _ => Wait end
  end.

(** ** Interleavings *)

(** A function that runs may call into the object again, as may a thread that
    runs none; a call on the object needs a function that has it.  The stack of
    a thread is finite. *)
Definition DEPTH_MAX : Z := 2 ^ 30.
Definition is_running (f : frame) : bool := match f_pc f with PRun _ => true | _ => false end.
Definition may_call (stack : list frame) (op : rop) : bool :=
  match stack with
  | [] => match op with OpObjRead => false | _ => true end
  | f :: _ => is_running f
  end.
Definition first_pc (op : rop) : rpc := match op with OpObjRead => PLock | _ => PGet end.

Inductive rstep : robj -> robj -> Prop :=
(** A call begins. *)
| rs_call t n stack op o : o_ths o !! t = Some (MkRt n stack) -> may_call stack op = true -> Z.of_nat (length stack) < DEPTH_MAX ->
    rstep o (set_ths (<[t := MkRt n (MkFr op (first_pc op) :: stack)]> (o_ths o)) o)
(** The call on top of a stack makes a step. *)
| rs_step t n f stack o o' th : o_ths o !! t = Some (MkRt n (f :: stack)) -> frame_step t o n f stack = Go o' th ->
    rstep o (set_ths (<[t := th]> (o_ths o')) o')
(** [refobj_lock_threads_cleanup] of any thread takes an idle node out of the
    tree. *)
| rs_cleanup t n stack o : o_ths o !! t = Some (MkRt (Some n) stack) -> node_idle n = true ->
    rstep o (set_ths (<[t := MkRt None stack]> (o_ths o)) o).

(** [refobj_create], with [k] threads about to use the object. *)
Definition refobj_create (k : nat) : robj :=
  MkObj true 1 true false (MkKl 0 false false) [] None (replicate k (MkRt None [])).

Inductive rreach (k : nat) : robj -> Prop :=
| rr_init : rreach k (refobj_create k)
| rr_step o o' : rreach k o -> rstep o o' -> rreach k o'.

End Refobj.
