(* ===== verification/RefobjInv.v ===== *)
(** * The invariant of reference objects

    Sums over the calls of all threads account for the usage count, the lock,
    the nodes and the destruction of the object. *)
From S2P Require Import Prelude KRwLock Refobj.

(** ** What a call holds *)

(** A reference; the reference that the table had; a reference counted in the
    thread's node; the duty to free the object. *)
Definition f_ref (f : frame) : Z :=
  match f_op f, f_pc f with OpObjRead, _ | _, PGet | _, PFree1 | _, PFree2 => 0 | _, _ => 1 end.
Definition f_base (f : frame) : Z :=
  match f_op f, f_pc f with
  | OpDestroy true, PDFlag _ | OpDestroy true, PDWait _ | OpDestroy true, PDMark _ | OpDestroy true, PDUnlock _ _
  | OpDestroy true, PDPut _ _ => 1
  | _, _ => 0
  end.
Definition f_spin (f : frame) : Z := match f_op f, f_pc f with OpDestroy true, PDSpin _ => 1 | _, _ => 0 end.
Definition f_get (f : frame) : Z :=
  match f_op f, f_pc f with
  | OpObjRead, _ | OpDestroy _, _ | _, PGet | _, PDrop _ | _, PFree1 | _, PFree2 => 0
  | _, _ => 1
  end.
Definition f_free (f : frame) : Z := match f_pc f with PFree1 | PFree2 => 1 | _ => 0 end.
Definition f_free2 (f : frame) : Z := match f_pc f with PFree2 => 1 | _ => 0 end.
(** A read lock and the write lock counted in the node. *)
Definition f_rdc (f : frame) : Z := match f_pc f with PRdWait | PChk (HRd _) | PRun (HRd _) => 1 | _ => 0 end.
Definition f_wrc (f : frame) : Z :=
  match f_pc f with PUp1 | PUp2 | PWrWait | PChk HWr | PRun HWr | PChk HUp | PRun HUp => 1 | _ => 0 end.
(** The lock for reading (an upgrade has given one back), for writing, for
    writing after an upgrade, and an upgrade. *)
Definition f_raw (f : frame) : Z :=
  match f_pc f with
  | PChk (HRd true) | PRun (HRd true) | PChk HQ | PRun HQ => 1
  | PUp2 | PChk HUp | PRun HUp | PDown2 => -1
  | _ => 0
  end.
Definition f_wp (f : frame) : Z := match f_pc f with PChk HWr | PRun HWr | PDMark _ | PDUnlock _ _ => 1 | _ => 0 end.
Definition f_wu (f : frame) : Z := match f_pc f with PChk HUp | PRun HUp => 1 | _ => 0 end.
Definition f_up (f : frame) : Z := match f_pc f with PUp2 | PChk HUp | PRun HUp | PDown2 | PDown3 => 1 | _ => 0 end.
(** A function runs under the protection of the lock. *)
Definition f_prot (f : frame) : Z :=
  match f_pc f with PRun (HRd _) | PRun HWr | PRun HUp | PRun HQ | PRun HNoQ => 1 | _ => 0 end.
(** A function runs with the read lock of its queue, of its thread. *)
Definition f_q (f : frame) : Z := match f_pc f with PRun HQ => 1 | _ => 0 end.

(** ** Sums *)

Fixpoint ssum (h : frame -> Z) (st : list frame) : Z := match st with [] => 0 | f :: st => h f + ssum h st end.
Fixpoint rsum (h : frame -> Z) (l : list rthread) : Z := match l with [] => 0 | th :: l => ssum h (rt_stack th) + rsum h l end.

Lemma rsum_insert h (l : list rthread) (t : nat) th th' :
  l !! t = Some th -> rsum h (<[t := th']> l) = rsum h l - ssum h (rt_stack th) + ssum h (rt_stack th').
Proof.
  revert t. induction l as [|x l IH]; intros [|t] E; try done.
  - injection E as ->. cbn. lia.
  - change (<[S t := th']> (x :: l)) with (x :: <[t := th']> l). cbn [rsum]. rewrite (IH t) by done. lia.
Qed.

Lemma ssum_nonneg h st : (forall f, 0 <= h f) -> 0 <= ssum h st.
Proof. intros H. induction st as [|f st IH]; cbn; [lia|]. specialize (H f). lia. Qed.
Lemma rsum_nonneg h l : (forall f, 0 <= h f) -> 0 <= rsum h l.
Proof. intros H. induction l as [|x l IH]; cbn; [lia|]. pose proof (ssum_nonneg h (rt_stack x) H). lia. Qed.
Lemma rsum_elem h (l : list rthread) (t : nat) th :
  (forall f, 0 <= h f) -> l !! t = Some th -> ssum h (rt_stack th) <= rsum h l.
Proof.
  intros H. revert t. induction l as [|x l IH]; intros [|t] E; try done; cbn in *.
  - injection E as ->. pose proof (rsum_nonneg h l H). lia.
  - specialize (IH t E). pose proof (ssum_nonneg h (rt_stack x) H). lia.
Qed.
(** Two threads together. *)
Lemma rsum_elem2 h (l : list rthread) (t u : nat) x y :
  (forall f, 0 <= h f) -> l !! t = Some x -> l !! u = Some y -> t <> u -> ssum h (rt_stack x) + ssum h (rt_stack y) <= rsum h l.
Proof.
  intros H Et Eu Hne. pose proof (rsum_insert h l t x (MkRt None []) Et) as E. cbn in E.
  pose proof (rsum_elem h (<[t := MkRt None []]> l) u y H) as Hu. rewrite list_lookup_insert_ne in Hu by done.
  specialize (Hu Eu). lia.
Qed.
Lemma rsum_map_stack h (g : rthread -> rthread) l : (forall th, rt_stack (g th) = rt_stack th) -> rsum h (map g l) = rsum h l.
Proof. intros Hg. induction l as [|x l IH]; cbn; [done|]. by rewrite Hg, IH. Qed.
Lemma ssum_le h k st : (forall f, h f <= k f) -> ssum h st <= ssum k st.
Proof. intros H. induction st as [|f st IH]; cbn; [lia|]. specialize (H f). lia. Qed.
Lemma ssum_length h st : (forall f, h f <= 1) -> ssum h st <= Z.of_nat (length st).
Proof. intros H. induction st as [|f st IH]; cbn [ssum length]; [lia|]. specialize (H f). lia. Qed.
Lemma ssum_elem h st f : (forall f, 0 <= h f) -> f ∈ st -> h f <= ssum h st.
Proof.
  intros H. induction st as [|g st IH]; [intros E; by apply not_elem_of_nil in E|]. pose proof (ssum_nonneg h st H).
  intros [->|E]%elem_of_cons; cbn; [lia|]. specialize (IH E). specialize (H g). lia.
Qed.

(** How the contributions compare. *)
Lemma nonneg_h f : 0 <= f_ref f <= 1 /\ 0 <= f_base f /\ 0 <= f_spin f /\ f_base f + f_spin f <= f_ref f /\ 0 <= f_get f <= f_ref f /\
  0 <= f_free2 f <= f_free f /\ 0 <= f_rdc f <= 1 /\ 0 <= f_wrc f <= 1 /\ 0 <= f_wp f /\ 0 <= f_wu f <= f_up f /\ 0 <= f_prot f /\ 0 <= f_q f <= f_prot f /\
  0 <= f_raw f + f_up f + f_wp f /\ f_q f <= f_raw f + f_up f + f_wp f.
Proof.
  destruct f as [op p]. destruct op as [| | | | |[]], p as [| | | | | | |[| |[]| | | |]|[| |[]| | | |]| | | | | | | | | | | | | |]; cbn; lia.
Qed.

(** ** Stacks *)

Section Inv.
Context (modify_async rdlock_recursive caller_free : bool).

(** Which points a call can be at. *)
Definition pc_ok (op : rop) (p : rpc) : bool :=
  match op, p with
  | OpObjRead, (PLock | PRdWait | PChk (HRd _) | PRun (HRd _) | PRun HNoQ) => true
  | OpHold, (PGet | PLock | PRun HNo | PPut _ | PDrop _ | PFree1 | PFree2) => true
  | OpRead, (PGet | PLock | PRdWait | PChk (HRd _) | PRun (HRd _) | PRun HNoQ | PPut _ | PDrop _ | PFree1 | PFree2) => true
  | OpWrite, (PGet | PLock | PWrWait | PUp1 | PUp2 | PChk HWr | PRun HWr | PChk HUp | PRun HUp | PDown2 | PDown3 | PPut _ | PDrop _ | PFree1 | PFree2) => true
  | OpRun, (PGet | PLock | PQWait | PChk HQ | PRun HQ | PChk HQA | PRun HQA | PPut _ | PDrop _ | PFree1 | PFree2) => true
  | OpDestroy _, (PGet | PDNode | PDUninstall _ | PDFlag _ | PDWait _ | PDMark _ | PDUnlock _ _ | PDPut _ _ | PDrop _ | PFree1 | PFree2) => true
  | OpDestroy true, PDSpin _ => true
  | _, _ => false
  end.

(** [own], the thread's references when [aosl_ref_destroy] looked. *)
Definition own_of (p : rpc) : option Z :=
  match p with
  | PDUninstall w | PDFlag w | PDWait w | PDMark w | PDUnlock w _ | PDPut w _ | PDSpin w => Some w
  | _ => None
  end.
Definition gets (st : list frame) : Z := if caller_free then ssum f_get st else 0.

(** A call above [rest]: the thread's first read lock is the one that has the
    lock; a function that runs without a lock or turns the read lock into a write
    lock runs above a function with the queue's read lock; a call on the object
    runs above a call with a reference. *)
Record frame_ok (f : frame) (rest : list frame) : Prop := {
  ok_pc : pc_ok (f_op f) (f_pc f) = true;
  ok_first : match f_pc f with PRdWait | PChk (HRd true) | PRun (HRd true) => ssum f_rdc rest = 0 | _ => True end;
  ok_again : match f_pc f with PChk (HRd false) | PRun (HRd false) => 0 < ssum f_rdc rest | _ => True end;
  ok_queue : match f_pc f with PRun HNoQ | PUp1 | PUp2 | PChk HUp | PRun HUp | PDown2 | PDown3 => 0 < ssum f_q rest | _ => True end;
  ok_own : forall w, own_of (f_pc f) = Some w -> w = gets rest;
  ok_obj : f_op f = OpObjRead -> 0 < ssum f_ref rest;
  ok_mode : match f_pc f with PQWait | PChk HQ | PRun HQ => modify_async = false | PChk HQA | PRun HQA => modify_async = true | _ => True end
}.

Fixpoint swf (st : list frame) : Prop :=
  match st with
  | [] => True
  | f :: rest => frame_ok f rest /\ (forall g, g ∈ rest -> is_running g = true) /\ swf rest
  end.

(** The node of a thread agrees with its stack. *)
Definition node_lock (n : option robj_thread_node) : Z := match n with Some n => lock_count n | None => 0 end.
Definition node_get (n : option robj_thread_node) : Z := match n with Some n => get_count n | None => 0 end.
Record node_ok (n : option robj_thread_node) (st : list frame) : Prop := {
  no_usage : forall x, n = Some x -> n_usage x = 1;
  no_get : node_get n = gets st;
  no_wr : ssum f_wrc st <= 1;
  no_lock : node_lock n = if 0 <? ssum f_wrc st then - 2 ^ 31 else ssum f_rdc st;
  no_excl : 0 < ssum f_wrc st -> ssum f_rdc st = 0
}.

(** ** The invariant *)

Record rinv (o : robj) : Prop := {
  v_usage : o_usage o = Z.b2z (o_installed o) + rsum f_ref (o_ths o) + rsum f_base (o_ths o);
  v_zero : Z.b2z (o_usage o =? 0) = rsum f_free (o_ths o) + Z.b2z (negb (o_alive o));
  v_dtors : Z.of_nat (length (o_dtors o)) = rsum f_free2 (o_ths o) + Z.b2z (negb (o_alive o));
  v_readers : kl_r (o_lock o) = rsum f_raw (o_ths o);
  v_writer : Z.b2z (kl_w (o_lock o)) = rsum f_wp (o_ths o) + rsum f_wu (o_ths o);
  v_upgrade : Z.b2z (kl_up (o_lock o)) = rsum f_up (o_ths o);
  v_legal : kl_w (o_lock o) = true -> kl_r (o_lock o) = 0;
  v_plain : 0 < rsum f_wp (o_ths o) -> kl_up (o_lock o) = false;
  v_destroyed : o_destroyed o = true -> rsum f_prot (o_ths o) = 0;
  v_stacks : forall t n st, o_ths o !! t = Some (MkRt n st) ->
    swf st /\ node_ok n st /\ Z.of_nat (length st) <= DEPTH_MAX;
  v_deleter : o_installed o = match o_deleter o with Some _ => false | None => true end;
  v_deletes : forall t n st, o_ths o !! t = Some (MkRt n st) -> 0 < ssum f_base st + ssum f_spin st -> o_deleter o = Some t;
  v_alone : caller_free = true -> modify_async = false -> forall t u n st, o_deleter o = Some t ->
    rsum f_base (o_ths o) + rsum f_spin (o_ths o) = 0 -> o_ths o !! u = Some (MkRt n st) -> u <> t -> ssum f_ref st = 0;
  v_frees : caller_free = true -> modify_async = false -> forall u n st, o_ths o !! u = Some (MkRt n st) ->
    0 < ssum f_free st -> o_deleter o = Some u;
  v_freed : caller_free = true -> modify_async = false -> forall u, u ∈ o_dtors o -> o_deleter o = Some u
}.

(** ** Arithmetic of nodes *)

Lemma land_low c : 0 <= c < 2 ^ 31 -> Z.land c 0x7fffffff = c.
Proof. intros H. change 0x7fffffff with (Z.ones 31). rewrite Z.land_ones by lia. by apply Z.mod_small. Qed.
Lemma land_high c : 0 <= c < 2 ^ 31 -> Z.land c 0x80000000 = 0.
Proof.
  intros H. apply Z.bits_inj'. intros i Hi. rewrite Z.land_spec, Z.bits_0. change 0x80000000 with (2 ^ 31).
  rewrite Z.pow2_bits_eqb by lia. destruct (Z.eqb_spec 31 i) as [<-|]; [|by rewrite andb_false_r].
  rewrite <-(Z.mod_small c (2 ^ 31)) by lia. by rewrite Z.mod_pow2_bits_high by lia.
Qed.

(** A node in the tree, or none, with these counts. *)
Definition node_is (n : option robj_thread_node) (g l : Z) : Prop :=
  n = Some (MkNode 1 g l) \/ (n = None /\ g = 0 /\ l = 0).

Lemma node_ok_is n st : node_ok n st -> node_is n (node_get n) (node_lock n).
Proof.
  intros [H _ _ _ _]. destruct n as [[u g l]|]; [|by right]. left. cbn. pose proof (H _ eq_refl) as Hu. cbn in Hu. by rewrite Hu.
Qed.

Lemma rdlock_spec n g c r :
  node_is n g c -> 0 <= c <= 2 ^ 30 -> refobj_thread_rdlock rdlock_recursive n = r ->
  r = inl ADeadlock \/ r = inr (Some (MkNode 1 g (c + 1)), c =? 0).
Proof.
  intros Hn Hc <-. unfold refobj_thread_rdlock, robj_this_thread_node_get.
  assert (robj_this_thread_node_get true n = Some (MkNode 2 g c)) as E by (destruct Hn as [->|(-> & -> & ->)]; done).
  unfold robj_this_thread_node_get in E. rewrite E. unfold thread_wrlocked, thread_rdlock_count. cbn [lock_count].
  rewrite land_high by lia. cbn [Z.eqb negb]. destruct (_ && _); [by left|]. right.
  unfold robj_this_thread_node_put, __thread_node_put, thread_inc_rdlock_count. cbn [n_usage get_count lock_count].
  rewrite wraps_id by lia. rewrite land_low by lia. do 2 f_equal. destruct (Z.eqb_spec (c + 1) 1), (Z.eqb_spec c 0); lia || done.
Qed.

Lemma rdunlock_spec n g c :
  node_is n g c -> 0 < c <= 2 ^ 30 -> refobj_thread_rdunlock n = inr (Some (MkNode 1 g (c - 1)), c - 1 =? 0).
Proof.
  intros [->|(-> & -> & ->)] Hc; [|lia]. unfold refobj_thread_rdunlock, robj_this_thread_node_get, __thread_node_get.
  unfold robj_this_thread_node_put, __thread_node_put, thread_dec_rdlock_count, thread_rdlock_count. cbn [n_usage get_count lock_count].
  rewrite wraps_id by lia. rewrite land_low by lia. done.
Qed.

Lemma wrlock_spec n g c r :
  node_is n g c -> refobj_thread_wrlock n = r -> r = inl ADeadlock \/ (c = 0 /\ r = inr (Some (MkNode 1 g (- 2 ^ 31)))).
Proof.
  intros Hn <-. unfold refobj_thread_wrlock.
  assert (robj_this_thread_node_get true n = Some (MkNode 2 g c)) as -> by (destruct Hn as [->|(-> & -> & ->)]; done).
  unfold thread_lock_free. cbn [lock_count]. destruct (Z.eqb_spec c 0) as [->|]; cbn [negb]; [|by left]. by right.
Qed.

Lemma wrunlock_spec n g c : node_is n g c -> c <> 0 -> refobj_thread_wrunlock n = inr (Some (MkNode 1 g 0)).
Proof. intros [->|(-> & -> & ->)] Hc; [done|lia]. Qed.

Lemma inc_get_spec n g c : node_is n g c -> 0 <= g < 2 ^ 31 ->
  node_inc_get caller_free n = inr (if caller_free then Some (MkNode 1 (g + 1) c) else n).
Proof.
  intros Hn Hg. unfold node_inc_get. destruct caller_free; [|done].
  assert (robj_this_thread_node_get true n = Some (MkNode 2 g c)) as -> by (destruct Hn as [->|(-> & -> & ->)]; done).
  cbn. by rewrite wrapu_id by lia.
Qed.

Lemma dec_get_spec n g c : node_is n g c -> (caller_free = true -> 0 < g < 2 ^ 31) ->
  node_dec_get caller_free n = inr (if caller_free then Some (MkNode 1 (g - 1) c) else n).
Proof.
  intros Hn Hg. unfold node_dec_get. destruct caller_free; [|done]. specialize (Hg eq_refl).
  destruct Hn as [->|(-> & -> & ->)]; [|lia]. unfold robj_this_thread_node_put, __thread_node_put.
  cbn [robj_this_thread_node_get __thread_node_get n_usage get_count lock_count]. by rewrite (wrapu_id 32 (g - 1)) by lia.
Qed.

(** ** Lemmas on sums *)

Lemma gets_cons f st : gets (f :: st) = (if caller_free then f_get f else 0) + gets st.
Proof. unfold gets. destruct caller_free; cbn; lia. Qed.
Lemma gets_range st : 0 <= gets st <= Z.of_nat (length st).
Proof.
  unfold gets. destruct caller_free; [|lia]. split; [apply ssum_nonneg|apply ssum_length]; intros f; pose proof (nonneg_h f); lia.
Qed.

(** How much a sum changes when the stack of one thread does. *)
Definition delta (h : frame -> Z) (st st' : list frame) : Z := ssum h st' - ssum h st.

Lemma rsum_delta h (l : list rthread) (t : nat) n n' st st' :
  l !! t = Some (MkRt n st) -> rsum h (<[t := MkRt n' st']> l) = rsum h l + delta h st st'.
Proof. intros E. rewrite (rsum_insert _ _ _ _ _ E). unfold delta. cbn. lia. Qed.

(** A step that neither frees nor deletes the object. *)
Lemma rinv_plain t n st o o1 n' st' :
  rinv o -> o_ths o !! t = Some (MkRt n st) ->
  o_ths o1 = o_ths o -> o_alive o1 = o_alive o -> o_dtors o1 = o_dtors o ->
  o_installed o1 = o_installed o -> o_deleter o1 = o_deleter o ->
  swf st' -> node_ok n' st' -> Z.of_nat (length st') <= DEPTH_MAX ->
  o_usage o1 = o_usage o + delta f_ref st st' -> (o_usage o1 = 0 <-> o_usage o = 0) ->
  delta f_free st st' = 0 -> delta f_free2 st st' = 0 -> delta f_base st st' = 0 -> delta f_spin st st' = 0 ->
  (delta f_ref st st' <= 0 \/ o_installed o = true) ->
  kl_r (o_lock o1) = kl_r (o_lock o) + delta f_raw st st' ->
  Z.b2z (kl_w (o_lock o1)) = Z.b2z (kl_w (o_lock o)) + delta f_wp st st' + delta f_wu st st' ->
  Z.b2z (kl_up (o_lock o1)) = Z.b2z (kl_up (o_lock o)) + delta f_up st st' ->
  (kl_w (o_lock o1) = true -> kl_r (o_lock o1) = 0) ->
  (0 < rsum f_wp (o_ths o) + delta f_wp st st' -> kl_up (o_lock o1) = false) ->
  (o_destroyed o1 = true -> rsum f_prot (o_ths o) + delta f_prot st st' = 0) ->
  rinv (set_ths (<[t := MkRt n' st']> (o_ths o1)) o1).
Proof.
  intros I E Eths Eal Edt Ein Ede Hs Hn Hl Hu Hz D1 D2 D3 D4 D5 Kr Kw Ku Kl Kp Kd.
  destruct I as [V1 V2 V3 V4 V5 V6 V7 V8 V9 V10 V11 V12 V13 V14 V15].
  assert (forall u x, <[t := MkRt n' st']> (o_ths o) !! u = Some x -> (u = t /\ x = MkRt n' st') \/ (u <> t /\ o_ths o !! u = Some x)) as Hcase.
  { intros u x. rewrite list_lookup_insert_Some. naive_solver. }
  split; cbn; rewrite ?Eths, ?(rsum_delta _ _ _ _ _ _ _ E), ?Eal, ?Edt, ?Ein, ?Ede; try lia; try done.
  - assert ((o_usage o1 =? 0) = (o_usage o =? 0)) as ->; [|lia].
    destruct (Z.eqb_spec (o_usage o1) 0), (Z.eqb_spec (o_usage o) 0); tauto.
  - intros u m s Hu'. destruct (Hcase _ _ Hu') as [[-> [= -> ->]]|[Hne Hu2]]; [done|by eapply V10].
  - intros u m s Hu' Hp. destruct (Hcase _ _ Hu') as [[-> [= -> ->]]|[Hne Hu2]]; [|by eapply V12].
    apply (V12 t n st E). unfold delta in D3, D4. lia.
  - intros Hc Ha u w m s Hd Hb Hw Hwu. destruct (Hcase _ _ Hw) as [[-> [= -> ->]]|[Hne Hw2]].
    + pose proof (V13 Hc Ha u t n st Hd ltac:(lia) E Hwu) as H0. destruct D5 as [D5|D5]; [|rewrite V11, Hd in D5; done].
      assert (0 <= ssum f_ref st') by (apply ssum_nonneg; intros f; pose proof (nonneg_h f); lia). unfold delta in D5. lia.
    + eapply V13; [done..|lia|done|done].
  - intros Hc Ha u m s Hu' Hp. destruct (Hcase _ _ Hu') as [[-> [= -> ->]]|[Hne Hu2]]; [|by eapply V14].
    apply (V14 Hc Ha t n st E). unfold delta in D1. lia.
Qed.

End Inv.
