(* ===== verification/RefobjStep.v ===== *)
(** * Every step of a call on a reference object preserves the invariant *)
From S2P Require Import Prelude KRwLock Refobj RefobjInv.

Ltac fok := split; cbn; intros; try done; try congruence.
(** The cases of an operation on the lock. *)
Ltac kl_case H :=
  unfold kl_rdlock, kl_rdunlock, kl_wrlock, kl_wrunlock, kl_up1, kl_up2, kl_down1, kl_down2, kl_down3 in H;
  repeat match type of H with
  | (if ?b then _ else _) = Some _ => let E := fresh "K" in destruct b eqn:E; try discriminate H
  end; injection H as <-;
  repeat match goal with
  | E : _ && _ = true |- _ => apply andb_true_iff in E as [? ?]
  | E : negb _ = true |- _ => apply negb_true_iff in E
  | E : (_ =? _) = true |- _ => apply Z.eqb_eq in E
  | E : (_ <? _) = true |- _ => apply Z.ltb_lt in E
  end; cbn [kl_r kl_w kl_up] in *.

(** Arithmetic about the lock. *)
Ltac kl_arith :=
  intros; cbn [kl_r kl_w kl_up] in *;
  repeat match goal with E : kl_w _ = _ |- _ => rewrite E in * end;
  repeat match goal with E : kl_up _ = _ |- _ => rewrite E in * end; cbn in *; try lia; try done.

(** The threads are not part of the lock. *)
Ltac fold_ths := repeat match goal with |- context [o_ths (set_lock ?l ?o)] => change (o_ths (set_lock l o)) with (o_ths o) end.

Section Steps.
Context (modify_async rdlock_recursive caller_free : bool).
Abbreviation rinv := (RefobjInv.rinv modify_async caller_free).
Abbreviation swf := (RefobjInv.swf modify_async caller_free).
Abbreviation frame_ok := (RefobjInv.frame_ok modify_async caller_free).
Abbreviation node_ok := (RefobjInv.node_ok caller_free).
Abbreviation gets := (RefobjInv.gets caller_free).

(** The call on top of thread [t]. *)
Record top (o : robj) (t : nat) (n : option robj_thread_node) (f : frame) (rest : list frame) : Prop := {
  tp_at : o_ths o !! t = Some (MkRt n (f :: rest));
  tp_frame : frame_ok f rest;
  tp_running : forall g, g ∈ rest -> is_running g = true;
  tp_rest : swf rest;
  tp_node : node_ok n (f :: rest);
  tp_depth : Z.of_nat (length rest) + 1 <= DEPTH_MAX
}.
Arguments tp_at {o t n f rest}.
Arguments tp_frame {o t n f rest}.
Arguments tp_running {o t n f rest}.
Arguments tp_rest {o t n f rest}.
Arguments tp_node {o t n f rest}.
Arguments tp_depth {o t n f rest}.

Lemma top_of o t n f rest : rinv o -> o_ths o !! t = Some (MkRt n (f :: rest)) -> top o t n f rest.
Proof.
  intros I E. destruct (v_stacks _ _ _ I t n _ E) as ((H1 & H2 & H3) & H4 & H5). split; try done. cbn [length] in H5. lia.
Qed.

Lemma swf_cons o t n f rest f' : top o t n f rest -> frame_ok f' rest -> swf (f' :: rest).
Proof. intros T H. split; [done|]. split; [apply (tp_running T)|apply (tp_rest T)]. Qed.

Lemma node_same n f f' rest :
  node_ok n (f :: rest) -> f_get f' = f_get f -> f_wrc f' = f_wrc f -> f_rdc f' = f_rdc f -> node_ok n (f' :: rest).
Proof. intros [H1 H2 H3 H4 H5] E1 E2 E3. split; rewrite ?gets_cons in *; cbn [ssum] in *; rewrite ?E1, ?E2, ?E3; done. Qed.

Lemma node_pop n f rest :
  node_ok n (f :: rest) -> f_get f = 0 -> f_wrc f = 0 -> f_rdc f = 0 -> node_ok n rest.
Proof.
  intros [H1 H2 H3 H4 H5] E1 E2 E3. rewrite gets_cons in H2. cbn [ssum] in *. rewrite E1, E2, E3, ?Z.add_0_l in *.
  split; try done. rewrite H2. destruct caller_free; done.
Qed.

Lemma node_push n f rest :
  node_ok n rest -> f_get f = 0 -> f_wrc f = 0 -> f_rdc f = 0 -> node_ok n (f :: rest).
Proof.
  intros [H1 H2 H3 H4 H5] E1 E2 E3. split; rewrite ?gets_cons; cbn [ssum]; rewrite ?E1, ?E2, ?E3, ?Z.add_0_l; try done.
  rewrite H2. destruct caller_free; done.
Qed.

(** A new node for a stack. *)
Lemma node_new g l st :
  g = gets st -> ssum f_wrc st <= 1 -> (0 < ssum f_wrc st -> ssum f_rdc st = 0) ->
  l = (if 0 <? ssum f_wrc st then - 2 ^ 31 else ssum f_rdc st) -> node_ok (Some (MkNode 1 g l)) st.
Proof. intros Hg H1 H2 Hl. split; cbn; try done. by intros x [= <-]. Qed.

(** The count of references changes by [d]. *)
Lemma node_counted d n f f' rest :
  node_ok n (f :: rest) -> f_get f' = f_get f + d -> f_wrc f' = f_wrc f -> f_rdc f' = f_rdc f ->
  node_ok (if caller_free then Some (MkNode 1 (node_get n + d) (node_lock n)) else n) (f' :: rest).
Proof.
  intros [H1 H2 H3 H4 H5] E1 E2 E3. split; rewrite ?gets_cons in *; cbn [ssum] in *; rewrite ?E1, ?E2, ?E3.
  - intros x. destruct caller_free; [by intros [= <-]|by apply H1].
  - destruct caller_free; cbn [node_get get_count]; lia.
  - done.
  - by destruct caller_free.
  - done.
Qed.

(** The sums are at least what one thread has. *)
Lemma top_le h o t n f rest : (forall f, 0 <= h f) -> top o t n f rest -> h f + ssum h rest <= rsum h (o_ths o) /\ 0 <= ssum h rest.
Proof. intros Hh T. pose proof (rsum_elem h _ _ _ Hh (tp_at T)) as H. cbn in H. pose proof (ssum_nonneg h rest Hh). lia. Qed.

(** A thread with a reference keeps the object. *)
Lemma usage_pos o t n f rest : rinv o -> top o t n f rest -> 0 < f_ref f + ssum f_ref rest -> 0 < o_usage o.
Proof.
  intros I T Hp. rewrite (v_usage _ _ _ I).
  assert (0 <= rsum f_base (o_ths o)) by (apply rsum_nonneg; intros g; pose proof (nonneg_h g); lia).
  destruct (top_le f_ref _ _ _ _ _ ltac:(intros g; pose proof (nonneg_h g); lia) T). destruct (o_installed o); cbn; lia.
Qed.


(** A step that only moves the call on, with the node and the object as they
    are. *)
Lemma move_inv o t n f rest f' :
  rinv o -> top o t n f rest -> frame_ok f' rest ->
  f_get f' = f_get f -> f_wrc f' = f_wrc f -> f_rdc f' = f_rdc f ->
  f_ref f' = f_ref f -> f_free f' = f_free f -> f_free2 f' = f_free2 f -> f_base f' = f_base f -> f_spin f' = f_spin f ->
  f_raw f' = f_raw f -> f_wp f' = f_wp f -> f_wu f' = f_wu f -> f_up f' = f_up f ->
  (o_destroyed o = true -> f_prot f' <= f_prot f) ->
  rinv (set_ths (<[t := MkRt n (f' :: rest)]> (o_ths o)) o).
Proof.
  intros I T Hf E1 E2 E3 E4 E5 E6 E7 E8 E9 E10 E11 E12 Hd.
  eapply rinv_plain; [exact I|exact (tp_at T)|done|done|done|done|done|by eapply swf_cons| | | | | | | | | | | | | | |];
    try (unfold delta; cbn [ssum]; lia).
  - eapply node_same; [exact (tp_node T)|done..].
  - pose proof (tp_depth T). cbn [length]. lia.
  - apply (v_legal _ _ _ I).
  - intros Hp. apply (v_plain _ _ _ I). unfold delta in Hp. cbn [ssum] in Hp. lia.
  - intros Hx. pose proof (v_destroyed _ _ _ I Hx) as Hz. specialize (Hd Hx).
    destruct (top_le f_prot _ _ _ _ _ ltac:(intros g; pose proof (nonneg_h g); lia) T).
    pose proof (nonneg_h f). pose proof (nonneg_h f'). unfold delta. cbn [ssum]. lia.
Qed.

(** A step that takes or gives back the lock. *)
Lemma lock_inv o t n f rest n' st' l :
  rinv o -> top o t n f rest -> swf st' -> node_ok n' st' -> Z.of_nat (length st') <= DEPTH_MAX ->
  delta f_ref (f :: rest) st' = 0 ->
  delta f_free (f :: rest) st' = 0 -> delta f_free2 (f :: rest) st' = 0 -> delta f_base (f :: rest) st' = 0 -> delta f_spin (f :: rest) st' = 0 ->
  kl_r l = kl_r (o_lock o) + delta f_raw (f :: rest) st' ->
  Z.b2z (kl_w l) = Z.b2z (kl_w (o_lock o)) + delta f_wp (f :: rest) st' + delta f_wu (f :: rest) st' ->
  Z.b2z (kl_up l) = Z.b2z (kl_up (o_lock o)) + delta f_up (f :: rest) st' ->
  (kl_w l = true -> kl_r l = 0) -> (0 < rsum f_wp (o_ths o) + delta f_wp (f :: rest) st' -> kl_up l = false) ->
  delta f_prot (f :: rest) st' <= 0 ->
  rinv (set_ths (<[t := MkRt n' st']> (o_ths o)) (set_lock l o)).
Proof.
  intros I T Hs Hn Hl D1 D2 D3 D4 D5 Kr Kw Ku Kl Kp Hd. change (o_ths o) with (o_ths (set_lock l o)) at 1.
  eapply rinv_plain; [exact I|exact (tp_at T)|done|done|done|done|done|done|done|done|cbn; lia|done|done|done|done|done|left; lia
    |cbn; lia|cbn; lia|cbn; lia|done|done|].
  intros Hx. pose proof (v_destroyed _ _ _ I Hx) as Hz.
  assert (0 <= ssum f_prot st') by (apply ssum_nonneg; intros g; pose proof (nonneg_h g); lia).
  destruct (top_le f_prot _ _ _ _ _ ltac:(intros g; pose proof (nonneg_h g); lia) T). pose proof (nonneg_h f).
  unfold delta in *. cbn [ssum] in *. lia.
Qed.

(** A function run by a synchronous queue has the queue's read lock. *)
Lemma on_queue rest : swf rest -> refobj_on_this_q rest && negb modify_async = true -> 0 < ssum f_q rest.
Proof.
  intros Hs [Hq Ha]%andb_true_iff. apply negb_true_iff in Ha.
  induction rest as [|f rest IH]; [done|]. destruct Hs as (Hf & _ & Hs). cbn in Hq. apply orb_true_iff in Hq as [Hq|Hq].
  - pose proof (ssum_nonneg f_q rest ltac:(intros g; pose proof (nonneg_h g); lia)). pose proof (ok_mode _ _ _ _ Hf) as Hm.
    unfold is_queue_run in Hq. cbn [ssum]. unfold f_q at 1. destruct (f_pc f) as [| | | | | | |h|h| | | | | | | | | | | | | |]; try done.
    destruct h; try done; [lia|congruence].
  - specialize (IH Hs Hq). pose proof (nonneg_h f). cbn [ssum]. lia.
Qed.

Lemma not_destroyed_q o t n f rest : rinv o -> top o t n f rest -> 0 < ssum f_q rest -> o_destroyed o = false.
Proof.
  intros I T Hq. destruct (o_destroyed o) eqn:E; [exfalso|done]. pose proof (v_destroyed _ _ _ I E) as Hz.
  destruct (top_le f_prot _ _ _ _ _ ltac:(intros g; pose proof (nonneg_h g); lia) T).
  pose proof (ssum_le f_q f_prot rest ltac:(intros g; pose proof (nonneg_h g); lia)). pose proof (nonneg_h f). lia.
Qed.


(** The counts of the node under a call that holds no lock yet. *)
Lemma node_counts o t n f rest :
  top o t n f rest -> f_wrc f = 0 -> f_rdc f = 0 ->
  0 <= ssum f_rdc rest <= 2 ^ 30 /\ 0 <= ssum f_wrc rest <= 1 /\ 0 <= node_get n <= 2 ^ 30 /\
  node_lock n = (if 0 <? ssum f_wrc rest then - 2 ^ 31 else ssum f_rdc rest) /\ (0 < ssum f_wrc rest -> ssum f_rdc rest = 0).
Proof.
  intros T H1 H2. destruct (tp_node T) as [_ N2 N3 N4 N5]. cbn [ssum] in *. rewrite H1, H2, !Z.add_0_l in *.
  pose proof (ssum_nonneg f_rdc rest ltac:(intros g; pose proof (nonneg_h g); lia)).
  pose proof (ssum_length f_rdc rest ltac:(intros g; pose proof (nonneg_h g); lia)).
  pose proof (ssum_nonneg f_wrc rest ltac:(intros g; pose proof (nonneg_h g); lia)).
  pose proof (gets_range caller_free (f :: rest)). cbn [length] in *. pose proof (tp_depth T). unfold DEPTH_MAX in *.
  split; [lia|]. split; [lia|]. split; [lia|]. done.
Qed.

Lemma get_step o t n op rest o' th :
  rinv o -> top o t n (MkFr op PGet) rest -> __refobj_get caller_free o n op rest = Go o' th ->
  rinv (set_ths (<[t := th]> (o_ths o')) o').
Proof.
  intros I T H. unfold __refobj_get in H. pose proof (ok_pc _ _ _ _ (tp_frame T)) as Hop. cbn in Hop.
  assert (op <> OpObjRead) as Hnobj by (intros ->; done). pose proof (tp_depth T) as Hdep.
  destruct (o_installed o) eqn:Ein.
  2: { injection H as <- <-. eapply rinv_plain; [exact I|exact (tp_at T)|done|done|done|done|done|apply (tp_rest T)| | | |done
         | | | | |left| | | | | |]; try (unfold delta; destruct op as [| | | | |[]]; cbn; done || lia).
       - eapply node_pop; [exact (tp_node T)|by destruct op..].
       - apply (v_legal _ _ _ I).
       - intros Hp. apply (v_plain _ _ _ I). unfold delta in Hp. cbn in Hp. lia.
       - intros Hx. pose proof (v_destroyed _ _ _ I Hx). unfold delta. cbn. lia. }
  assert (0 < o_usage o) as Hu.
  { rewrite (v_usage _ _ _ I), Ein. pose proof (rsum_nonneg f_ref (o_ths o) ltac:(intros g; pose proof (nonneg_h g); lia)).
    pose proof (rsum_nonneg f_base (o_ths o) ltac:(intros g; pose proof (nonneg_h g); lia)). cbn. lia. }
  assert (forall n' p, frame_ok (MkFr op p) rest -> node_ok n' (MkFr op p :: rest) ->
    f_ref (MkFr op p) = 1 -> f_free (MkFr op p) = 0 -> f_free2 (MkFr op p) = 0 -> f_base (MkFr op p) = 0 -> f_spin (MkFr op p) = 0 ->
    f_raw (MkFr op p) = 0 -> f_wp (MkFr op p) = 0 -> f_wu (MkFr op p) = 0 -> f_up (MkFr op p) = 0 -> f_prot (MkFr op p) = 0 ->
    rinv (set_ths (<[t := MkRt n' (MkFr op p :: rest)]> (o_ths o)) (set_usage (o_usage o + 1) o))) as Hgo.
  { intros n' p Hf Hn E1 E2 E3 E4 E5 E6 E7 E8 E9 E10. change (o_ths o) with (o_ths (set_usage (o_usage o + 1) o)) at 1.
    assert (f_ref (MkFr op PGet) = 0) as R0 by (destruct op; done). assert (f_base (MkFr op PGet) = 0) as B0 by (by destruct op as [| | | | |[]]).
    assert (f_spin (MkFr op PGet) = 0) as S0 by (by destruct op as [| | | | |[]]).
    eapply rinv_plain; [exact I|exact (tp_at T)|done|done|done|done|done|by eapply swf_cons|done|cbn [length]; lia
      | | | | | | |right; done| | | | | |]; cbn [o_usage set_usage set_lock o_lock]; unfold delta; cbn [ssum]; rewrite ?E1, ?E2, ?E3, ?E4, ?E5, ?E6, ?E7, ?E8, ?E9, ?E10, ?R0, ?B0, ?S0; try (cbn; lia).
    - apply (v_legal _ _ _ I).
    - intros Hp. apply (v_plain _ _ _ I). cbn in Hp. lia.
    - intros Hx. pose proof (v_destroyed _ _ _ I Hx). cbn. lia. }
  destruct (node_counts _ _ _ _ _ T eq_refl eq_refl) as (C1 & C2 & C3 & C4 & C5).
  pose proof (no_get _ _ _ (tp_node T)) as Hg. rewrite gets_cons in Hg.
  assert (f_get (MkFr op PGet) = 0) as G0 by (destruct op; done). rewrite G0 in Hg.
  assert (node_get n = gets rest) as Hg' by (rewrite Hg; by destruct caller_free). clear Hg.
  assert (op <> OpDestroy true /\ op <> OpDestroy false -> with_node (node_inc_get caller_free n) (fun n => goto (set_usage (o_usage o + 1) o) n op PLock rest) = Go o' th ->
    rinv (set_ths (<[t := th]> (o_ths o')) o')) as Hlock.
  { intros Hnd. rewrite (inc_get_spec caller_free n (node_get n) (node_lock n)); [|by eapply node_ok_is, (tp_node T)|lia].
    cbn [with_node]. intros [= <- <-]. apply Hgo; try (by destruct op as [| | | | |[]]; naive_solver).
    - split; cbn; try done. by destruct op as [| | | | |[]]; naive_solver.
    - assert (f_get (MkFr op PLock) = 1) as G1 by (destruct op as [| | | | |[]]; naive_solver).
      eapply (node_counted 1); [exact (tp_node T)|by rewrite G0, G1|done|done]. }
  destruct op as [| | | | |d]; try (apply Hlock; [split; discriminate|exact H]).
  cbn in H. injection H as <- <-. apply Hgo; [by fok|eapply node_same; [exact (tp_node T)|done..]|..]; by destruct d.
Qed.

Lemma rdlock_wrlocked n g : node_is n g (- 2 ^ 31) -> refobj_thread_rdlock rdlock_recursive n = inl ADeadlock.
Proof. intros [->|(_ & _ & ?)]; [reflexivity|lia]. Qed.

(** The node changes with the call. *)
Lemma node_inv o t n f rest n' f' :
  rinv o -> top o t n f rest -> frame_ok f' rest -> node_ok n' (f' :: rest) ->
  f_ref f' = f_ref f -> f_free f' = f_free f -> f_free2 f' = f_free2 f -> f_base f' = f_base f -> f_spin f' = f_spin f ->
  f_raw f' = f_raw f -> f_wp f' = f_wp f -> f_wu f' = f_wu f -> f_up f' = f_up f -> f_prot f' = f_prot f ->
  rinv (set_ths (<[t := MkRt n' (f' :: rest)]> (o_ths o)) o).
Proof.
  intros I T Hf Hn E4 E5 E6 E7 E8 E9 E10 E11 E12 Hd.
  eapply rinv_plain; [exact I|exact (tp_at T)|done|done|done|done|done|by eapply swf_cons|exact Hn| | | | | | | | | | | | | |];
    try (unfold delta; cbn [ssum]; lia).
  - pose proof (tp_depth T). cbn [length]. lia.
  - apply (v_legal _ _ _ I).
  - intros Hp. apply (v_plain _ _ _ I). unfold delta in Hp. cbn [ssum] in Hp. lia.
  - intros Hx. pose proof (v_destroyed _ _ _ I Hx) as Hz. unfold delta. cbn [ssum]. lia.
Qed.

Lemma lock_step o t n op rest o' th :
  rinv o -> top o t n (MkFr op PLock) rest -> lock_begin modify_async rdlock_recursive o n op rest = Go o' th ->
  rinv (set_ths (<[t := th]> (o_ths o')) o').
Proof.
  intros I T H. unfold lock_begin in H. pose proof (ok_pc _ _ _ _ (tp_frame T)) as Hop. cbn in Hop.
  destruct (node_counts _ _ _ _ _ T eq_refl eq_refl) as (C1 & C2 & C3 & C4 & C5).
  pose proof (node_ok_is _ _ _ (tp_node T)) as Hn. pose proof (no_get _ _ _ (tp_node T)) as Hg.
  set (on_q := refobj_on_this_q rest && negb modify_async) in *.
  assert (on_q = true -> 0 < ssum f_q rest) as Hq by (apply on_queue, (tp_rest T)).
  assert (forall f', f_op f' = op -> f_op f' = OpObjRead -> 0 < ssum f_ref rest) as Hobj.
  { intros f' <- E. apply (ok_obj _ _ _ _ (tp_frame T)). exact E. }
  assert (op = OpRead \/ op = OpObjRead -> (if on_q then goto o n op (PRun HNoQ) rest else
    with_node (refobj_thread_rdlock rdlock_recursive n) (fun '(n, take) => goto o n op (if take then PRdWait else PChk (HRd false)) rest)) = Go o' th ->
    rinv (set_ths (<[t := th]> (o_ths o')) o')) as Hread.
  { intros Ho H'. destruct on_q.
    - injection H' as <- <-. eapply move_inv; [done|done| | | | | | | | | | | | | |]; try (by destruct Ho as [->| ->]).
      + split; cbn; try done; [by destruct Ho as [->| ->]|by apply Hq|by apply (Hobj (MkFr op PLock))].
      + intros Hx. rewrite (not_destroyed_q _ _ _ _ _ I T (Hq eq_refl)) in Hx. done.
    - destruct (Z.ltb_spec 0 (ssum f_wrc rest)) as [Hw|Hw].
      { rewrite C4 in Hn. rewrite (rdlock_wrlocked _ _ Hn) in H'. done. }
      rewrite C4 in Hn. destruct (rdlock_spec rdlock_recursive n (node_get n) (ssum f_rdc rest) _ Hn C1 eq_refl) as [E|E]; rewrite E in H'; [done|].
      cbn [with_node] in H'. injection H' as <- <-.
      eapply node_inv; [done|done| | | | | | | | | | | |]; try (destruct (ssum f_rdc rest =? 0); by destruct Ho as [->| ->]).
      + destruct (Z.eqb_spec (ssum f_rdc rest) 0) as [Ez|Ez]; split; cbn; try done;
          [by destruct Ho as [->| ->]|by apply (Hobj (MkFr op PLock))|by destruct Ho as [->| ->]|lia|by apply (Hobj (MkFr op PLock))].
      + assert (f_rdc (MkFr op (if ssum f_rdc rest =? 0 then PRdWait else PChk (HRd false))) = 1) as R1 by (by destruct (_ =? _)).
        assert (f_wrc (MkFr op (if ssum f_rdc rest =? 0 then PRdWait else PChk (HRd false))) = 0) as W0 by (by destruct (_ =? _)).
        apply node_new; cbn [ssum]; rewrite ?R1, ?W0, ?gets_cons.
        * rewrite Hg, gets_cons. f_equal. destruct caller_free; [|done]. destruct (_ =? _); by destruct Ho as [->| ->].
        * lia.
        * lia.
        * destruct (Z.ltb_spec 0 (0 + ssum f_wrc rest)); lia. }
  destruct op as [| | | | |d]; [| | | | |by destruct d].
  - injection H as <- <-. eapply move_inv; [done|done|by fok|done..].
  - apply Hread; [by left|exact H].
  - destruct (wrlock_spec n (node_get n) (node_lock n) _ Hn eq_refl) as [E|[Ec E]]; rewrite E in H; [done|].
    cbn [with_node] in H. injection H as <- <-. rewrite C4 in Ec.
    assert (ssum f_wrc rest = 0 /\ ssum f_rdc rest = 0) as [Hw Hr] by (destruct (Z.ltb_spec 0 (ssum f_wrc rest)); lia).
    eapply node_inv; [done|done| | | | | | | | | | | |]; try (by destruct on_q).
    + destruct on_q; split; cbn; try done. by apply Hq.
    + apply node_new; cbn [ssum]; rewrite ?gets_cons; (destruct on_q; cbn; rewrite ?Hw, ?Hr; try lia; try done);
        rewrite Hg, gets_cons; destruct caller_free; done.
  - apply Hread; [by right|exact H].
  - injection H as <- <-. eapply move_inv; [done|done| | | | | | | | | | | | | |]; try (by destruct modify_async).
Qed.

Lemma lock_move o t n f rest f' l :
  rinv o -> top o t n f rest -> frame_ok f' rest ->
  f_get f' = f_get f -> f_wrc f' = f_wrc f -> f_rdc f' = f_rdc f ->
  f_ref f' = f_ref f -> f_free f' = f_free f -> f_free2 f' = f_free2 f -> f_base f' = f_base f -> f_spin f' = f_spin f ->
  kl_r l = kl_r (o_lock o) + (f_raw f' - f_raw f) ->
  Z.b2z (kl_w l) = Z.b2z (kl_w (o_lock o)) + (f_wp f' - f_wp f) + (f_wu f' - f_wu f) ->
  Z.b2z (kl_up l) = Z.b2z (kl_up (o_lock o)) + (f_up f' - f_up f) ->
  (kl_w l = true -> kl_r l = 0) -> (0 < rsum f_wp (o_ths o) + (f_wp f' - f_wp f) -> kl_up l = false) ->
  f_prot f' <= f_prot f ->
  rinv (set_ths (<[t := MkRt n (f' :: rest)]> (o_ths o)) (set_lock l o)).
Proof.
  intros I T Hf E1 E2 E3 E4 E5 E6 E7 E8 Kr Kw Ku Kl Kp Hd. pose proof (tp_depth T).
  eapply lock_inv; [done|done|by eapply swf_cons|eapply node_same; [exact (tp_node T)|done..]|cbn [length]; lia|..];
    try (unfold delta; cbn [ssum]; lia); [done|].
  intros Hp. apply Kp. unfold delta in Hp. cbn [ssum] in Hp. lia.
Qed.

(** The lock and the sums it stands for. *)
Lemma lock_facts o : rinv o ->
  0 <= rsum f_wp (o_ths o) /\ 0 <= rsum f_wu (o_ths o) <= rsum f_up (o_ths o) /\
  Z.b2z (kl_w (o_lock o)) = rsum f_wp (o_ths o) + rsum f_wu (o_ths o) /\ Z.b2z (kl_up (o_lock o)) = rsum f_up (o_ths o) /\
  (kl_w (o_lock o) = true -> kl_r (o_lock o) = 0) /\ (0 < rsum f_wp (o_ths o) -> kl_up (o_lock o) = false).
Proof.
  intros I. split; [apply rsum_nonneg; intros g; pose proof (nonneg_h g); lia|].
  split; [split; [apply rsum_nonneg; intros g; pose proof (nonneg_h g); lia|]|].
  { assert (forall l, rsum f_wu l <= rsum f_up l) as H; [|apply H]. induction l as [|x l IH]; cbn; [lia|].
    pose proof (ssum_le f_wu f_up (rt_stack x) ltac:(intros g; pose proof (nonneg_h g); lia)). lia. }
  split; [apply (v_writer _ _ _ I)|]. split; [apply (v_upgrade _ _ _ I)|]. split; [apply (v_legal _ _ _ I)|apply (v_plain _ _ _ I)].
Qed.

Lemma with_lock_inv op o k o' th :
  with_lock op o k = Go o' th -> exists l, op (o_lock o) = Some l /\ k (set_lock l o) = Go o' th.
Proof. unfold with_lock. destruct (op (o_lock o)) as [l|]; [eauto|done]. Qed.


Lemma wait_step o t n op p rest o' th :
  rinv o -> top o t n (MkFr op p) rest -> (p = PRdWait \/ p = PQWait \/ p = PWrWait \/ p = PUp2 \/ p = PDown2) ->
  frame_step modify_async rdlock_recursive caller_free t o n (MkFr op p) rest = Go o' th -> rinv (set_ths (<[t := th]> (o_ths o')) o').
Proof.
  intros I T Hp H. pose proof (tp_frame T) as [F1 F2 F3 F4 F5 F6 F7]. cbn in F1.
  destruct (lock_facts _ I) as (L1 & L2 & L3 & L4 & L5 & L6). unfold frame_step in H. cbn [f_pc f_op] in H.
  destruct Hp as [->|[->|[->|[->| ->]]]]; apply with_lock_inv in H as (l & Hl & [= <- <-]); kl_case Hl; fold_ths;
    (eapply lock_move; [done|done|split; cbn; (assumption || done || (by destruct op as [| | | | |[]]))|
      destruct op as [| | | | |[]]; done..| | | | | |]); cbn -[Z.b2z]; kl_arith;
    destruct (kl_w (o_lock o)), (kl_up (o_lock o)); cbn in *; try lia; try done.
Qed.

Lemma up_step o t n op rest o' th :
  rinv o -> top o t n (MkFr op PUp1) rest ->
  frame_step modify_async rdlock_recursive caller_free t o n (MkFr op PUp1) rest = Go o' th -> rinv (set_ths (<[t := th]> (o_ths o')) o').
Proof.
  intros I T H. pose proof (tp_frame T) as [F1 F2 F3 F4 F5 F6 F7]. cbn in F1.
  destruct (lock_facts _ I) as (L1 & L2 & L3 & L4 & L5 & L6). unfold frame_step in H. cbn [f_pc f_op] in H.
  destruct (kl_up (o_lock o)) eqn:Eu; [done|]. apply with_lock_inv in H as (l & Hl & [= <- <-]). kl_case Hl. fold_ths.
  assert (kl_w (o_lock o) = false) as Ew by (destruct (kl_w (o_lock o)); [specialize (L5 eq_refl); lia|done]).
  rewrite Ew in L3. cbn in L3.
  eapply lock_move; [done|done|split; cbn; (assumption || done || (by destruct op as [| | | | |[]]))|
      destruct op as [| | | | |[]]; done..| | | | | |]; cbn -[Z.b2z]; rewrite ?Ew, ?Eu; cbn; intros; try lia; try done.
Qed.

(** The stack after the protected part of a call. *)
Definition fin (op : rop) (e : Z) (rest : list frame) : list frame :=
  match op with OpObjRead => rest | _ => MkFr op (PPut e) :: rest end.

Lemma fin_sum h op e rest : h (MkFr op (PPut e)) = 0 -> ssum h (fin op e rest) = ssum h rest.
Proof. intros Hh. destruct op; cbn; rewrite ?Hh; lia || done. Qed.

Lemma finish_fin o n op e rest o' th : finish_op o n op e rest = Go o' th -> o' = o /\ th = MkRt n (fin op e rest).
Proof. destruct op; cbn; by intros [= <- <-]. Qed.

Lemma fin_swf o t n f rest e : top o t n f rest -> (forall d, f_op f <> OpDestroy d) -> swf (fin (f_op f) e rest).
Proof.
  intros T Hd. destruct (f_op f) eqn:E; cbn [fin]; first [by destruct (Hd do_delete)|apply (tp_rest T)|eapply swf_cons; [exact T|by fok]].
Qed.

(** The call gives up the lock counted in its node and the lock itself. *)
Lemma fin_inv o t n f rest n' e l :
  rinv o -> top o t n f rest -> (forall d, f_op f <> OpDestroy d) -> f_get f = f_ref f -> f_ref f = f_ref (MkFr (f_op f) (PPut e)) ->
  f_free f = 0 -> f_free2 f = 0 -> f_base f = 0 -> f_spin f = 0 ->
  node_is n' (gets (f :: rest)) (if 0 <? ssum f_wrc rest then - 2 ^ 31 else ssum f_rdc rest) ->
  kl_r l = kl_r (o_lock o) - f_raw f ->
  Z.b2z (kl_w l) = Z.b2z (kl_w (o_lock o)) - f_wp f - f_wu f -> Z.b2z (kl_up l) = Z.b2z (kl_up (o_lock o)) - f_up f ->
  (kl_w l = true -> kl_r l = 0) -> (0 < rsum f_wp (o_ths o) - f_wp f -> kl_up l = false) ->
  rinv (set_ths (<[t := MkRt n' (fin (f_op f) e rest)]> (o_ths o)) (set_lock l o)).
Proof.
  intros I T Hd Eg Er E1 E2 E3 E4 Hn Kr Kw Ku Kl Kp. pose proof (nonneg_h f) as Hf.
  assert (forall h, h (MkFr (f_op f) (PPut e)) = 0 -> delta h (f :: rest) (fin (f_op f) e rest) = - h f) as Hdel.
  { intros h Hh. unfold delta. rewrite fin_sum by done. cbn [ssum]. lia. }
  assert (forall h, h (MkFr OpObjRead (PPut e)) = 0 -> f_op f = OpObjRead \/ h f = h (MkFr (f_op f) (PPut e)) -> h f = h (MkFr (f_op f) (PPut e)) ->
    ssum h (fin (f_op f) e rest) = h f + ssum h rest) as Hkeep.
  { intros h H0 _ Hh. rewrite Hh. destruct (f_op f); cbn; lia. }
  assert (f_get f = f_get (MkFr (f_op f) (PPut e))) as Egp.
  { rewrite Eg, Er. destruct (f_op f) eqn:Eo; try done. by destruct (Hd do_delete). }
  pose proof (tp_depth T) as Hdep. destruct (tp_node T) as [N1 N2 N3 N4 N5]. cbn [ssum] in N3, N5.
  assert (f_wrc (MkFr (f_op f) (PPut e)) = 0 /\ f_rdc (MkFr (f_op f) (PPut e)) = 0) as [W0 R0] by (destruct (f_op f); done).
  eapply lock_inv; [done|done|by eapply fin_swf| |destruct (f_op f); cbn [fin length]; lia| | | | | | | | | | |].
  - assert (gets (fin (f_op f) e rest) = gets (f :: rest)) as Eget.
    { unfold RefobjInv.gets. destruct caller_free; [|done]. rewrite (Hkeep f_get); [done|done|by right|done]. }
    split; rewrite ?fin_sum by done.
    + intros x Hx. destruct Hn as [E|(E & _)]; rewrite E in Hx; [by injection Hx as <-|done].
    + rewrite Eget. destruct Hn as [->|(-> & E & _)]; [done|by rewrite E].
    + pose proof (nonneg_h f). lia.
    + destruct Hn as [->|(-> & _ & E)]; [done|by rewrite E].
    + intros Hp. specialize (N5 ltac:(lia)). pose proof (ssum_nonneg f_rdc rest ltac:(intros g; pose proof (nonneg_h g); lia)). lia.
  - unfold delta. rewrite (Hkeep f_ref); [cbn [ssum]; lia|done|by right|done].
  - rewrite Hdel; [lia|by destruct (f_op f)].
  - rewrite Hdel; [lia|by destruct (f_op f)].
  - rewrite Hdel; [lia|by destruct (f_op f) as [| | | | |[]]].
  - rewrite Hdel; [lia|by destruct (f_op f) as [| | | | |[]]].
  - rewrite Hdel; [lia|by destruct (f_op f)].
  - rewrite !Hdel; [lia|by destruct (f_op f)..].
  - rewrite Hdel; [lia|by destruct (f_op f)].
  - done.
  - rewrite Hdel; [|by destruct (f_op f)]. intros Hp. apply Kp. lia.
  - rewrite Hdel; [lia|by destruct (f_op f)].
Qed.

Lemma set_lock_id o : set_lock (o_lock o) o = o.
Proof. by destruct o. Qed.

(** The node under a call that has its lock counted. *)
Lemma node_under o t n f rest :
  top o t n f rest -> node_is n (gets (f :: rest)) (if 0 <? f_wrc f + ssum f_wrc rest then - 2 ^ 31 else f_rdc f + ssum f_rdc rest).
Proof.
  intros T. pose proof (node_ok_is _ _ _ (tp_node T)) as H. rewrite (no_get _ _ _ (tp_node T)), (no_lock _ _ _ (tp_node T)) in H. exact H.
Qed.

Lemma unlock_inv o t n op h e rest f o' th :
  rinv o -> top o t n f rest -> f_op f = op -> f_pc f = PChk h \/ f_pc f = PRun h ->
  unlock_step o n op h e rest = Go o' th -> rinv (set_ths (<[t := th]> (o_ths o')) o').
Proof.
  intros I T Hop Hp H. pose proof (tp_frame T) as [F1 F2 F3 F4 F5 F6 F7]. subst op.
  destruct f as [op p]. cbn [f_op f_pc] in *.
  destruct (lock_facts _ I) as (L1 & L2 & L3 & L4 & L5 & L6). pose proof (node_under _ _ _ _ _ T) as Hn.
  destruct (tp_node T) as [_ _ N3 _ N5]. cbn [ssum] in N3, N5.
  assert (forall d, op <> OpDestroy d) as Hnd by (intros d ->; destruct Hp as [->| ->], d; done).
  pose proof (ssum_nonneg f_rdc rest ltac:(intros g; pose proof (nonneg_h g); lia)).
  pose proof (ssum_nonneg f_wrc rest ltac:(intros g; pose proof (nonneg_h g); lia)).
  pose proof (ssum_length f_rdc rest ltac:(intros g; pose proof (nonneg_h g); lia)). pose proof (tp_depth T) as Hdep. unfold DEPTH_MAX in Hdep.
  assert (f_get (MkFr op p) = f_ref (MkFr op p) /\ f_ref (MkFr op p) = f_ref (MkFr op (PPut e)) /\ f_free (MkFr op p) = 0 /\
    f_free2 (MkFr op p) = 0 /\ f_base (MkFr op p) = 0 /\ f_spin (MkFr op p) = 0) as (E1 & E2 & E3 & E4 & E5 & E6).
  { destruct op as [| | | | |d]; [..|by destruct (Hnd d)]; destruct Hp as [->| ->]; done. }
  assert (h = HNo \/ h = HNoQ \/ h = HQA -> finish_op o n op e rest = Go o' th -> rinv (set_ths (<[t := th]> (o_ths o')) o')) as Hplain.
  { intros Hh H'. apply finish_fin in H' as [-> ->]. rewrite <-(set_lock_id o) at 2.
    eapply (fin_inv o t n (MkFr op p) rest n e (o_lock o)); try done.
    - destruct Hp as [->| ->], Hh as [->|[->| ->]]; cbn in Hn |- *; exact Hn.
    - destruct Hp as [->| ->], Hh as [->|[->| ->]]; cbn; lia.
    - destruct Hp as [->| ->], Hh as [->|[->| ->]]; cbn; lia.
    - destruct Hp as [->| ->], Hh as [->|[->| ->]]; cbn; lia.
    - destruct Hp as [->| ->], Hh as [->|[->| ->]]; cbn; rewrite ?Z.sub_0_r; done. }
  destruct h as [| |b| | | |]; cbn [unlock_step] in H; try (apply Hplain; [tauto|exact H]).
  - (* the thread's read lock *)
    assert (f_rdc (MkFr op p) = 1 /\ f_wrc (MkFr op p) = 0) as [R1 W0] by (destruct Hp as [->| ->]; done). rewrite R1, W0 in *.
    assert (ssum f_wrc rest = 0) as Hw by (destruct (Z.ltb_spec 0 (0 + ssum f_wrc rest)); [specialize (N5 ltac:(lia)); lia|lia]).
    rewrite Hw in Hn. cbn [Z.add Z.ltb Z.compare] in Hn.
    rewrite (rdunlock_spec n _ (1 + ssum f_rdc rest) Hn) in H by lia. cbn [with_node] in H.
    replace (1 + ssum f_rdc rest - 1) with (ssum f_rdc rest) in H by lia.
    assert (node_is (Some (MkNode 1 (gets (MkFr op p :: rest)) (ssum f_rdc rest))) (gets (MkFr op p :: rest))
      (if 0 <? ssum f_wrc rest then - 2 ^ 31 else ssum f_rdc rest)) as Hn' by (rewrite Hw; by left).
    destruct b.
    + assert (ssum f_rdc rest = 0) as Hz by (destruct Hp as [->| ->]; exact F2). destruct (Z.eqb_spec (ssum f_rdc rest) 0); [|lia].
      apply with_lock_inv in H as (l & Hl & H). apply finish_fin in H as [-> ->]. kl_case Hl. fold_ths.
      eapply (fin_inv o t n (MkFr op p) rest _ e); try done; destruct Hp as [->| ->]; cbn -[Z.b2z]; intros; try lia; try (by apply L6; lia);
        specialize (L5 ltac:(assumption)); lia.
    + assert (0 < ssum f_rdc rest) as Hz by (destruct Hp as [->| ->]; exact F3). destruct (Z.eqb_spec (ssum f_rdc rest) 0); [lia|].
      apply finish_fin in H as [-> ->]. rewrite <-(set_lock_id o) at 2.
      eapply (fin_inv o t n (MkFr op p) rest _ e (o_lock o)); try done; destruct Hp as [->| ->]; cbn -[Z.b2z]; intros; try lia; try (by apply L6; lia).
  - (* the write lock *)
    assert (f_wrc (MkFr op p) = 1) as W1 by (destruct Hp as [->| ->]; done). rewrite W1 in *.
    destruct (Z.ltb_spec 0 (1 + ssum f_wrc rest)); [|lia].
    rewrite (wrunlock_spec n _ _ Hn) in H by done. cbn [with_node] in H. apply with_lock_inv in H as (l & Hl & H).
    apply finish_fin in H as [-> ->]. kl_case Hl. fold_ths. specialize (N5 ltac:(lia)). pose proof (nonneg_h (MkFr op p)).
    eapply (fin_inv o t n (MkFr op p) rest _ e); try done.
    + left. do 2 f_equal. destruct (Z.ltb_spec 0 (ssum f_wrc rest)); lia.
    + destruct Hp as [->| ->]; cbn; lia.
    + destruct Hp as [->| ->]; kl_arith.
    + destruct Hp as [->| ->]; kl_arith.
  - (* the upgraded lock *)
    assert (f_wrc (MkFr op p) = 1) as W1 by (destruct Hp as [->| ->]; done). rewrite W1 in *.
    destruct (Z.ltb_spec 0 (1 + ssum f_wrc rest)); [|lia].
    rewrite (wrunlock_spec n _ _ Hn) in H by done. cbn [with_node] in H. apply with_lock_inv in H as (l & Hl & H).
    injection H as <- <-. kl_case Hl. fold_ths. specialize (N5 ltac:(lia)). pose proof (nonneg_h (MkFr op p)).
    eapply lock_inv; [done|done|eapply swf_cons; [exact T|]| |cbn [length]; unfold DEPTH_MAX; lia|..];
      try (unfold delta; cbn [ssum]; destruct op as [| | | | |[]], Hp as [->| ->]; cbn -[Z.b2z]; kl_arith; fail).
    + apply node_new; cbn [ssum]; [|cbn; lia|cbn; lia|cbn [f_wrc f_rdc f_pc]; destruct (Z.ltb_spec 0 (0 + ssum f_wrc rest)); lia].
      rewrite !gets_cons. f_equal. destruct caller_free; [|done]. destruct op as [| | | | |[]], Hp as [->| ->]; done.
  - (* the queue's read lock *)
    apply with_lock_inv in H as (l & Hl & H). apply finish_fin in H as [-> ->]. kl_case Hl. fold_ths.
    eapply (fin_inv o t n (MkFr op p) rest n e); try done; destruct Hp as [->| ->]; cbn -[Z.b2z] in *; intros; try lia; try (by apply L6; lia); try exact Hn;
      specialize (L5 ltac:(assumption)); lia.
Qed.

(** The check of [REFOBJ_DESTROYED] and the end of a function. *)
Lemma chk_step o t n op h rest o' th :
  rinv o -> top o t n (MkFr op (PChk h)) rest ->
  frame_step modify_async rdlock_recursive caller_free t o n (MkFr op (PChk h)) rest = Go o' th -> rinv (set_ths (<[t := th]> (o_ths o')) o').
Proof.
  intros I T H. cbn [frame_step f_pc f_op] in H. destruct (o_destroyed o) eqn:Ed.
  - assert (unlock_step o n op h (- AOSL_EPERM) rest = Go o' th) as H' by (destruct h; done).
    eapply unlock_inv; [exact I|exact T|done|by left|exact H'].
  - injection H as <- <-. pose proof (tp_frame T) as [F1 F2 F3 F4 F5 F6 F7]. cbn [f_op f_pc] in *.
    eapply move_inv; [exact I|exact T| | | | | | | | | | | | | |congruence];
      try (destruct h as [| |[]| | | |], op as [| | | | |[]]; done).
Qed.

Lemma run_step o t n op h rest o' th :
  rinv o -> top o t n (MkFr op (PRun h)) rest ->
  frame_step modify_async rdlock_recursive caller_free t o n (MkFr op (PRun h)) rest = Go o' th -> rinv (set_ths (<[t := th]> (o_ths o')) o').
Proof. intros I T H. eapply unlock_inv; [exact I|exact T|done|by right|exact H]. Qed.

(** The end of the way back from the write lock. *)
Lemma down_step o t n op rest o' th :
  rinv o -> top o t n (MkFr op PDown3) rest ->
  frame_step modify_async rdlock_recursive caller_free t o n (MkFr op PDown3) rest = Go o' th -> rinv (set_ths (<[t := th]> (o_ths o')) o').
Proof.
  intros I T H. cbn [frame_step f_pc f_op] in H. destruct (lock_facts _ I) as (L1 & L2 & L3 & L4 & L5 & L6).
  pose proof (ok_pc _ _ _ _ (tp_frame T)) as F1. cbn in F1.
  apply with_lock_inv in H as (l & Hl & H). apply finish_fin in H as [-> ->]. kl_case Hl. fold_ths.
  eapply (fin_inv o t n (MkFr op PDown3) rest n 0); try done; try (by destruct op as [| | | | |[]]);
    [exact (node_under _ _ _ _ _ T)|cbn -[Z.b2z]; kl_arith..].
Qed.

(** The thread's count of references. *)
Lemma put_step o t n op e rest o' th :
  rinv o -> top o t n (MkFr op (PPut e)) rest ->
  frame_step modify_async rdlock_recursive caller_free t o n (MkFr op (PPut e)) rest = Go o' th -> rinv (set_ths (<[t := th]> (o_ths o')) o').
Proof.
  intros I T H. cbn [frame_step f_pc f_op] in H. pose proof (ok_pc _ _ _ _ (tp_frame T)) as F1. cbn in F1.
  destruct (node_counts _ _ _ _ _ T eq_refl eq_refl) as (_ & _ & C3 & _ & _). pose proof (no_get _ _ _ (tp_node T)) as Hg.
  pose proof (gets_range caller_free rest) as Hr. rewrite gets_cons in Hg.
  assert (f_get (MkFr op (PPut e)) = 1) as G1 by (destruct op as [| | | | |[]]; done). rewrite G1 in Hg.
  rewrite (dec_get_spec caller_free n (node_get n) (node_lock n)) in H; [|by eapply node_ok_is, (tp_node T)|intros Hc; rewrite Hc in Hg, Hr; lia].
  injection H as <- <-. eapply node_inv; [exact I|exact T| |eapply (node_counted (-1)); [exact (tp_node T)|..]|..];
    try (by destruct op as [| | | | |[]]).
Qed.

End Steps.

Arguments tp_at {_ _ _ _ _ _ _}.
Arguments tp_frame {_ _ _ _ _ _ _}.
Arguments tp_running {_ _ _ _ _ _ _}.
Arguments tp_rest {_ _ _ _ _ _ _}.
Arguments tp_node {_ _ _ _ _ _ _}.
Arguments tp_depth {_ _ _ _ _ _ _}.
