(* ===== verification/RefobjFree.v ===== *)
(** * Reference objects: destruction and the invariant of all runs

    The steps of [aosl_ref_destroy], of the last [refobj_put] and of the cleanup
    of nodes preserve the invariant of [RefobjInv]; with the steps of
    [RefobjStep] it holds in every reachable state. *)
From S2P Require Import Prelude KRwLock Refobj RefobjInv RefobjStep.

Section Free.
Context (modify_async rdlock_recursive caller_free : bool).
Abbreviation rinv := (RefobjInv.rinv modify_async caller_free).
Abbreviation swf := (RefobjInv.swf modify_async caller_free).
Abbreviation frame_ok := (RefobjInv.frame_ok modify_async caller_free).
Abbreviation node_ok := (RefobjInv.node_ok caller_free).
Abbreviation gets := (RefobjInv.gets caller_free).
Abbreviation top := (RefobjStep.top modify_async caller_free).
Abbreviation step := (frame_step modify_async rdlock_recursive caller_free).

Ltac nonneg := let g := fresh "g" in intros g; pose proof (nonneg_h g); lia.

Lemma lookup_update (l : list rthread) (t u : nat) x y :
  <[t := x]> l !! u = Some y -> (u = t /\ y = x) \/ (u <> t /\ l !! u = Some y).
Proof. rewrite list_lookup_insert_Some. naive_solver. Qed.

Lemma rsum_sub h k l : rsum (fun f => h f - k f) l = rsum h l - rsum k l.
Proof.
  induction l as [|x l IH]; cbn; [done|]. rewrite IH.
  assert (ssum (fun f => h f - k f) (rt_stack x) = ssum h (rt_stack x) - ssum k (rt_stack x)) as ->; [|lia].
  induction (rt_stack x) as [|f st IHs]; cbn; lia.
Qed.
Lemma rsum_add h k l : rsum (fun f => h f + k f) l = rsum h l + rsum k l.
Proof.
  induction l as [|x l IH]; cbn; [done|]. rewrite IH.
  assert (ssum (fun f => h f + k f) (rt_stack x) = ssum h (rt_stack x) + ssum k (rt_stack x)) as ->; [|lia].
  induction (rt_stack x) as [|f st IHs]; cbn; lia.
Qed.

(** A step of the call on top of thread [t] that leaves the lock alone and may
    delete the object, run its destructor or mark it destroyed. *)
Lemma rinv_life o t n f rest o1 n' f' :
  rinv o -> top o t n f rest -> o_ths o1 = o_ths o -> o_alive o1 = o_alive o -> o_lock o1 = o_lock o ->
  frame_ok f' rest -> node_ok n' (f' :: rest) ->
  f_raw f' = f_raw f -> f_wp f' = f_wp f -> f_wu f' = f_wu f -> f_up f' = f_up f ->
  o_usage o1 = o_usage o + (f_ref f' - f_ref f) + (f_base f' - f_base f) + (Z.b2z (o_installed o1) - Z.b2z (o_installed o)) ->
  Z.b2z (o_usage o1 =? 0) = Z.b2z (o_usage o =? 0) + (f_free f' - f_free f) ->
  Z.of_nat (length (o_dtors o1)) = Z.of_nat (length (o_dtors o)) + (f_free2 f' - f_free2 f) ->
  (o_destroyed o1 = true -> rsum f_prot (o_ths o) + (f_prot f' - f_prot f) = 0) ->
  (o_installed o1 = match o_deleter o1 with Some _ => false | None => true end) ->
  (forall u m s, <[t := MkRt n' (f' :: rest)]> (o_ths o) !! u = Some (MkRt m s) -> 0 < ssum f_base s + ssum f_spin s -> o_deleter o1 = Some u) ->
  (caller_free = true -> modify_async = false ->
    (forall d u m s, o_deleter o1 = Some d -> rsum f_base (o_ths o) + (f_base f' - f_base f) + (rsum f_spin (o_ths o) + (f_spin f' - f_spin f)) = 0 ->
       <[t := MkRt n' (f' :: rest)]> (o_ths o) !! u = Some (MkRt m s) -> u <> d -> ssum f_ref s = 0) /\
    (forall u m s, <[t := MkRt n' (f' :: rest)]> (o_ths o) !! u = Some (MkRt m s) -> 0 < ssum f_free s -> o_deleter o1 = Some u) /\
    (forall u, u ∈ o_dtors o1 -> o_deleter o1 = Some u)) ->
  rinv (set_ths (<[t := MkRt n' (f' :: rest)]> (o_ths o1)) o1).
Proof.
  intros I T Eths Eal El Hf Hn R1 R2 R3 R4 Hu Hz Hd Hx Hi Hdel Hcf.
  destruct I as [V1 V2 V3 V4 V5 V6 V7 V8 V9 V10 V11 V12 V13 V14 V15]. pose proof (tp_depth T) as Hdep.
  assert (forall h, rsum h (<[t := MkRt n' (f' :: rest)]> (o_ths o)) = rsum h (o_ths o) + (h f' - h f)) as Hs.
  { intros h. rewrite (rsum_delta _ _ _ _ _ _ _ (tp_at T)). unfold delta. cbn [ssum]. lia. }
  split; cbn -[Z.b2z]; rewrite ?Eths, ?El, ?Eal, ?Hs; try lia; try done.
  - intros Hp. apply V8. lia.
  - intros u m s Hl. destruct (lookup_update _ _ _ _ _ Hl) as [[-> [= -> ->]]|[Hne Hl']]; [|by eapply V10].
    split; [by eapply swf_cons|]. split; [done|]. cbn [length]. lia.
  - intros Hc Ha d u m s Hd' Hb Hl Hne. destruct (Hcf Hc Ha) as (A & _ & _). eapply A; [done|lia|done|done].
  - intros Hc Ha. apply (Hcf Hc Ha).
  - intros Hc Ha. apply (Hcf Hc Ha).
Qed.

(** What [rinv_life] asks for when the deletion of the object is not concerned. *)
Lemma keeps_deletes o t n f rest n' f' :
  rinv o -> top o t n f rest -> f_base f' = f_base f -> f_spin f' = f_spin f ->
  forall u m s, <[t := MkRt n' (f' :: rest)]> (o_ths o) !! u = Some (MkRt m s) -> 0 < ssum f_base s + ssum f_spin s -> o_deleter o = Some u.
Proof.
  intros I T E1 E2 u m s Hl Hp. destruct (lookup_update _ _ _ _ _ Hl) as [[-> [= -> ->]]|[Hne Hl']]; [|by eapply (v_deletes _ _ _ I)].
  eapply (v_deletes _ _ _ I); [exact (tp_at T)|]. cbn [ssum] in *. lia.
Qed.
Lemma keeps_alone o t n f rest n' f' :
  rinv o -> top o t n f rest -> f_base f' = f_base f -> f_spin f' = f_spin f -> f_ref f' <= f_ref f ->
  caller_free = true -> modify_async = false ->
  forall d u m s, o_deleter o = Some d -> rsum f_base (o_ths o) + (f_base f' - f_base f) + (rsum f_spin (o_ths o) + (f_spin f' - f_spin f)) = 0 ->
    <[t := MkRt n' (f' :: rest)]> (o_ths o) !! u = Some (MkRt m s) -> u <> d -> ssum f_ref s = 0.
Proof.
  intros I T E1 E2 Er Hc Ha d u m s Hd Hb Hl Hne.
  destruct (lookup_update _ _ _ _ _ Hl) as [[-> [= -> ->]]|[Hne' Hl']]; [|eapply (v_alone _ _ _ I); [done|done|done|lia|done|done]].
  pose proof (v_alone _ _ _ I Hc Ha d t n _ Hd ltac:(lia) (tp_at T) Hne) as H0. cbn [ssum] in *.
  pose proof (nonneg_h f'). pose proof (ssum_nonneg f_ref rest ltac:(nonneg)). lia.
Qed.
Lemma keeps_frees o t n f rest n' f' :
  rinv o -> top o t n f rest -> f_free f' = f_free f -> caller_free = true -> modify_async = false ->
  forall u m s, <[t := MkRt n' (f' :: rest)]> (o_ths o) !! u = Some (MkRt m s) -> 0 < ssum f_free s -> o_deleter o = Some u.
Proof.
  intros I T E Hc Ha u m s Hl Hp. destruct (lookup_update _ _ _ _ _ Hl) as [[-> [= -> ->]]|[Hne Hl']].
  - eapply (v_frees _ _ _ I Hc Ha); [exact (tp_at T)|]. cbn [ssum] in *. lia.
  - eapply (v_frees _ _ _ I Hc Ha); done.
Qed.

(** The sums of a state as this thread sees them. *)
Lemma top_sums o t n f rest : rinv o -> top o t n f rest ->
  f_ref f + ssum f_ref rest <= rsum f_ref (o_ths o) /\ 0 <= ssum f_ref rest /\ 0 <= rsum f_base (o_ths o) /\ 0 <= rsum f_spin (o_ths o) /\
  0 <= rsum f_free2 (o_ths o) <= rsum f_free (o_ths o) /\ f_free f <= rsum f_free (o_ths o) /\
  rsum f_base (o_ths o) + rsum f_spin (o_ths o) <= rsum f_ref (o_ths o) - (f_ref f - f_base f - f_spin f) /\
  o_usage o = Z.b2z (o_installed o) + rsum f_ref (o_ths o) + rsum f_base (o_ths o).
Proof.
  intros I T. destruct (top_le _ _ f_ref _ _ _ _ _ ltac:(nonneg) T). destruct (top_le _ _ f_free _ _ _ _ _ ltac:(nonneg) T).
  pose proof (rsum_nonneg f_base (o_ths o) ltac:(nonneg)). pose proof (rsum_nonneg f_spin (o_ths o) ltac:(nonneg)).
  pose proof (rsum_nonneg f_free2 (o_ths o) ltac:(nonneg)).
  pose proof (rsum_nonneg (fun f => f_free f - f_free2 f) (o_ths o) ltac:(nonneg)) as Hf. rewrite rsum_sub in Hf.
  destruct (top_le _ _ (fun f => f_ref f - (f_base f + f_spin f)) _ _ _ _ _ ltac:(nonneg) T) as [Hr ?].
  rewrite rsum_sub, rsum_add in Hr. pose proof (v_usage _ _ _ I). lia.
Qed.

Lemma drop_step o t n op e rest o' th :
  rinv o -> top o t n (MkFr op (PDrop e)) rest -> step t o n (MkFr op (PDrop e)) rest = Go o' th -> rinv (set_ths (<[t := th]> (o_ths o')) o').
Proof.
  intros I T H. cbn [frame_step f_pc f_op] in H. unfold __refobj_put in H. cbn [o_usage set_usage] in H.
  pose proof (ok_pc _ _ _ _ (tp_frame T)) as F1. cbn in F1. pose proof (tp_depth T) as Hdep.
  assert (f_ref (MkFr op (PDrop e)) = 1 /\ f_base (MkFr op (PDrop e)) = 0 /\ f_spin (MkFr op (PDrop e)) = 0) as (R1 & B0 & S0)
    by (destruct op as [| | | | |[]]; done).
  pose proof (top_sums _ _ _ _ _ I T) as Hs. rewrite R1, B0, S0 in Hs.
  destruct (Z.eqb_spec (o_usage o - 1) 0) as [Hz|Hz]; injection H as <- <-.
  - assert (o_installed o = false) as Hin by (destruct (o_installed o); [cbn in Hs; lia|done]). rewrite Hin in Hs. cbn [Z.b2z] in Hs.
    assert (exists d, o_deleter o = Some d) as [d Hd] by (pose proof (v_deleter _ _ _ I) as E; rewrite Hin in E; destruct (o_deleter o); [eauto|done]).
    eapply (rinv_life o t n (MkFr op (PDrop e)) rest (set_usage (o_usage o - 1) o) n (MkFr op PFree1)); try done; try (by destruct op as [| | | | |[]]).
    + eapply node_same; [exact (tp_node T)|by destruct op as [| | | | |[]]..].
    + cbn [o_usage set_usage o_installed]. destruct op as [| | | | |[]]; cbn -[Z.b2z]; try done; lia.
    + cbn [o_usage set_usage]. destruct (Z.eqb_spec (o_usage o - 1) 0), (Z.eqb_spec (o_usage o) 0); cbn; lia.
    + cbn. lia.
    + intros Hx. pose proof (v_destroyed _ _ _ I Hx). cbn. lia.
    + apply (v_deleter _ _ _ I).
    + cbn [o_deleter set_usage run_dtor]. eapply keeps_deletes; [exact I|exact T|by destruct op as [| | | | |[]]..].
    + intros Hc Ha. split; [|split; [|apply (v_freed _ _ _ I Hc Ha)]].
      * cbn [o_deleter set_usage run_dtor]. eapply keeps_alone; [exact I|exact T|..]; try done; try (by destruct op as [| | | | |[]]).
      * intros u m s Hl Hp. cbn. destruct (lookup_update _ _ _ _ _ Hl) as [[-> [= -> ->]]|[Hne Hl']].
        -- rewrite Hd. f_equal. destruct (decide (t = d)) as [|Hne]; [done|exfalso].
           pose proof (v_alone _ _ _ I Hc Ha d t n _ Hd ltac:(lia) (tp_at T) Hne) as H0. cbn [ssum] in H0. lia.
        -- eapply (v_frees _ _ _ I Hc Ha); done.
  - assert (0 < o_usage o) by (destruct (o_installed o); cbn in Hs; lia).
    eapply (rinv_plain _ _ t n _ o (set_usage (o_usage o - 1) o)); [exact I|exact (tp_at T)|done|done|done|done|done|apply (tp_rest T)| |lia| |
      | | | | |left| | | | | |]; cbn [set_usage o_usage o_lock]; unfold delta; cbn [ssum]; rewrite ?R1, ?B0, ?S0; try (cbn; lia).
    + eapply node_pop; [exact (tp_node T)|by destruct op as [| | | | |[]]..].
    + apply (v_legal _ _ _ I).
    + intros Hp. apply (v_plain _ _ _ I). cbn in Hp. lia.
    + intros Hx. pose proof (v_destroyed _ _ _ I Hx). cbn. lia.
Qed.

Lemma free1_step o t n op rest o' th :
  rinv o -> top o t n (MkFr op PFree1) rest -> step t o n (MkFr op PFree1) rest = Go o' th -> rinv (set_ths (<[t := th]> (o_ths o')) o').
Proof.
  intros I T H. cbn [frame_step f_pc f_op] in H. injection H as <- <-. pose proof (ok_pc _ _ _ _ (tp_frame T)) as F1. cbn in F1.
  eapply (rinv_life o t n (MkFr op PFree1) rest (run_dtor t o) n (MkFr op PFree2)); try done; try (by destruct op as [| | | | |[]]).
  - eapply node_same; [exact (tp_node T)|by destruct op as [| | | | |[]]..].
  - cbn [o_usage run_dtor o_installed]. destruct op as [| | | | |[]]; cbn -[Z.b2z]; lia.
  - cbn [o_usage run_dtor]. cbn. lia.
  - cbn. rewrite length_app. cbn. lia.
  - intros Hx. pose proof (v_destroyed _ _ _ I Hx). cbn. lia.
  - apply (v_deleter _ _ _ I).
  - cbn [o_deleter set_usage run_dtor]. eapply keeps_deletes; [exact I|exact T|by destruct op as [| | | | |[]]..].
  - intros Hc Ha. split; [|split].
    + cbn [o_deleter set_usage run_dtor]. eapply keeps_alone; [exact I|exact T|..]; try done; try (by destruct op as [| | | | |[]]).
    + cbn [o_deleter set_usage run_dtor]. eapply keeps_frees; done.
    + cbn. intros u [Hu|Hu]%elem_of_app; [by apply (v_freed _ _ _ I Hc Ha)|]. apply list_elem_of_singleton in Hu as ->.
      eapply (v_frees _ _ _ I Hc Ha); [exact (tp_at T)|]. cbn. pose proof (ssum_nonneg f_free rest ltac:(nonneg)). lia.
Qed.

(** A thread without a reference holds no lock. *)
Lemma no_refs st : swf st -> ssum f_ref st = 0 -> gets st = 0 /\ ssum f_wrc st = 0 /\ ssum f_rdc st = 0.
Proof.
  induction st as [|f st IH]; [by unfold RefobjInv.gets; destruct caller_free|]. intros (Hf & _ & Hs) Hz. cbn [ssum] in *.
  pose proof (nonneg_h f) as Hn. pose proof (ssum_nonneg f_ref st ltac:(nonneg)). specialize (IH Hs ltac:(lia)) as (E1 & E2 & E3).
  rewrite gets_cons, E1, E2, E3. assert (f_ref f = 0) as Hr by lia. pose proof (ok_obj _ _ _ _ Hf) as Ho.
  destruct f as [op p]. cbn in *. assert (f_get (MkFr op p) = 0) as -> by lia.
  assert (op <> OpObjRead) as Hno by (intros ->; specialize (Ho eq_refl); lia).
  assert (p = PGet \/ p = PFree1 \/ p = PFree2) as Hp by (destruct op, p; cbn in Hr; try done; tauto).
  destruct Hp as [->|[->| ->]]; destruct caller_free; done.
Qed.

Lemma free2_step o t n op rest o' th :
  rinv o -> top o t n (MkFr op PFree2) rest -> step t o n (MkFr op PFree2) rest = Go o' th -> rinv (set_ths (<[t := th]> (o_ths o')) o').
Proof.
  intros I T H. cbn [frame_step f_pc f_op] in H. injection H as <- <-. pose proof (ok_pc _ _ _ _ (tp_frame T)) as F1. cbn in F1.
  pose proof (top_sums _ _ _ _ _ I T) as Hs. pose proof (tp_depth T) as Hdep.
  assert (forall h, h (MkFr op PFree2) = 0 -> rsum h (<[t := MkRt None rest]> (map (fun th => MkRt None (rt_stack th)) (o_ths o))) = rsum h (o_ths o)) as Hsame.
  { intros h Hh. erewrite rsum_insert; [|rewrite list_lookup_fmap, (tp_at T); reflexivity]. rewrite rsum_map_stack by done. cbn. lia. }
  assert (forall h, h (MkFr op PFree2) = 1 -> rsum h (<[t := MkRt None rest]> (map (fun th => MkRt None (rt_stack th)) (o_ths o))) = rsum h (o_ths o) - 1) as Hless.
  { intros h Hh. erewrite rsum_insert; [|rewrite list_lookup_fmap, (tp_at T); reflexivity]. rewrite rsum_map_stack by done. cbn. lia. }
  destruct I as [V1 V2 V3 V4 V5 V6 V7 V8 V9 V10 V11 V12 V13 V14 V15].
  assert (f_free (MkFr op PFree2) = 1) as Fr by done. rewrite Fr in Hs.
  assert (o_alive o = true /\ o_usage o = 0) as [Hal Huz] by (destruct (o_alive o), (Z.eqb_spec (o_usage o) 0); cbn in V2; lia || done).
  assert (forall u m s, <[t := MkRt None rest]> (map (fun th => MkRt None (rt_stack th)) (o_ths o)) !! u = Some (MkRt m s) ->
    m = None /\ exists m' s', o_ths o !! u = Some (MkRt m' s') /\ (forall h, (forall f, 0 <= h f) -> ssum h s <= ssum h s') /\ swf s /\
      Z.of_nat (length s) <= DEPTH_MAX) as Hlk.
  { intros u m s Hl. destruct (lookup_update _ _ _ _ _ Hl) as [[-> [= -> ->]]|[Hne Hl']].
    - split; [done|]. exists n, (MkFr op PFree2 :: rest). split; [apply (tp_at T)|]. split; [intros h Hh; cbn; specialize (Hh (MkFr op PFree2)); lia|].
      split; [apply (tp_rest T)|lia].
    - rewrite list_lookup_fmap in Hl'. destruct (o_ths o !! u) as [[m' s']|] eqn:E; [|done]. injection Hl' as <- <-. split; [done|].
      exists m', s'. destruct (V10 _ _ _ E) as (? & ? & ?). repeat split; try done; intros; lia. }
  split; cbn -[Z.b2z]; rewrite ?(Hsame f_ref), ?(Hsame f_base), ?(Hless f_free), ?(Hless f_free2), ?(Hsame f_raw), ?(Hsame f_wp), ?(Hsame f_wu),
    ?(Hsame f_up), ?(Hsame f_prot), ?(Hsame f_spin) by (by destruct op as [| | | | |[]]); try done.
  - rewrite Hal in V2. rewrite V2. cbn. lia.
  - rewrite Hal in V3. rewrite V3. cbn. lia.
  - intros u m s Hl. destruct (Hlk _ _ _ Hl) as (-> & m' & s' & E & Hle & Hw & Hd). split; [done|]. split; [|done].
    pose proof (rsum_elem f_ref _ _ _ ltac:(nonneg) E) as He. cbn in He. specialize (Hle f_ref ltac:(nonneg)).
    assert (ssum f_ref s = 0) as Hz by (pose proof (ssum_nonneg f_ref s ltac:(nonneg)); destruct (o_installed o); cbn in Hs; lia).
    destruct (no_refs s Hw Hz) as (G0 & W0 & R0). split; cbn; rewrite ?G0, ?W0, ?R0; done.
  - intros u m s Hl Hp. destruct (Hlk _ _ _ Hl) as (-> & m' & s' & E & Hle & _). eapply V12; [exact E|].
    pose proof (Hle f_base ltac:(nonneg)). pose proof (Hle f_spin ltac:(nonneg)). lia.
  - intros Hc Ha d u m s Hd Hb Hl Hne. destruct (Hlk _ _ _ Hl) as (-> & m' & s' & E & Hle & _).
    pose proof (V13 Hc Ha d u _ _ Hd Hb E Hne). pose proof (Hle f_ref ltac:(nonneg)). pose proof (ssum_nonneg f_ref s ltac:(nonneg)). lia.
  - intros Hc Ha u m s Hl Hp. destruct (Hlk _ _ _ Hl) as (-> & m' & s' & E & Hle & _). eapply (V14 Hc Ha); [exact E|].
    pose proof (Hle f_free ltac:(nonneg)). lia.
Qed.

(** The object's memory holds on to the thread's node. *)
Lemma node_get_put n g l : node_is n g l -> n = None \/ exists n', robj_this_thread_node_get false n = Some n' /\
  robj_this_thread_node_put n' = n /\ get_count n' = g.
Proof. intros [->|(-> & _ & _)]; [right; eexists; done|by left]. Qed.

Lemma dnode_step o t n d rest o' th :
  rinv o -> top o t n (MkFr (OpDestroy d) PDNode) rest -> step t o n (MkFr (OpDestroy d) PDNode) rest = Go o' th ->
  rinv (set_ths (<[t := th]> (o_ths o')) o').
Proof.
  intros I T H. cbn [frame_step f_pc f_op destroy_step] in H. destruct (_ && _); [done|].
  pose proof (no_get _ _ _ (tp_node T)) as Hg. rewrite gets_cons in Hg. cbn [f_get f_op] in Hg.
  assert (node_get n = gets rest) as Hg' by (rewrite Hg; by destruct caller_free).
  assert (forall own, own = gets rest -> rinv (set_ths (<[t := MkRt n (MkFr (OpDestroy d) (PDUninstall own) :: rest)]> (o_ths o)) o)) as Hgo.
  { intros own ->. eapply move_inv; [exact I|exact T| |by destruct d..]. split; cbn; try done; [by destruct d|congruence]. }
  destruct (node_get_put n _ _ (node_ok_is _ _ _ (tp_node T))) as [->|(n' & E & Ep & Eg)].
  - injection H as <- <-. by apply Hgo.
  - rewrite E in H. destruct (_ <? _); [done|]. injection H as <- <-. rewrite Ep, Eg. by apply Hgo.
Qed.

Ltac fok_own T := split; cbn; try done; try exact (ok_own _ _ _ _ (tp_frame T)); try (intros; done).

Lemma duninstall_step o t n d own rest o' th :
  rinv o -> top o t n (MkFr (OpDestroy d) (PDUninstall own)) rest -> step t o n (MkFr (OpDestroy d) (PDUninstall own)) rest = Go o' th ->
  rinv (set_ths (<[t := th]> (o_ths o')) o').
Proof.
  intros I T H. cbn [frame_step f_pc f_op destroy_step] in H. destruct d.
  2: { injection H as <- <-. eapply move_inv; [exact I|exact T|by fok_own T|done..]. }
  destruct (o_installed o) eqn:Ein; injection H as <- <-; [|eapply move_inv; [exact I|exact T|by fok|done..]].
  assert (o_deleter o = None) as Hno by (pose proof (v_deleter _ _ _ I) as E; rewrite Ein in E; by destruct (o_deleter o)).
  eapply (rinv_life o t n (MkFr (OpDestroy true) (PDUninstall own)) rest (set_uninstalled t o) n (MkFr (OpDestroy true) (PDFlag own))); try done.
  - by fok_own T.
  - eapply node_same; [exact (tp_node T)|done..].
  - cbn. rewrite Ein. cbn. lia.
  - cbn. lia.
  - cbn. lia.
  - intros Hx. pose proof (v_destroyed _ _ _ I Hx). cbn. lia.
  - intros u m s Hl Hp. destruct (lookup_update _ _ _ _ _ Hl) as [[-> [= -> ->]]|[Hne Hl']]; [done|].
    pose proof (v_deletes _ _ _ I _ _ _ Hl' Hp). congruence.
  - intros Hc Ha. split; [|split].
    + intros x u m s _ Hb. pose proof (top_sums _ _ _ _ _ I T). cbn in Hb. lia.
    + intros u m s Hl Hp. destruct (lookup_update _ _ _ _ _ Hl) as [[-> [= -> ->]]|[Hne Hl']]; [done|].
      pose proof (v_frees _ _ _ I Hc Ha _ _ _ Hl' Hp). congruence.
    + intros u Hu. pose proof (v_freed _ _ _ I Hc Ha _ Hu). congruence.
Qed.

Lemma dlock_step o t n d p rest o' th :
  rinv o -> top o t n (MkFr (OpDestroy d) p) rest -> (exists own, p = PDFlag own \/ p = PDWait own \/ exists e, p = PDUnlock own e) ->
  step t o n (MkFr (OpDestroy d) p) rest = Go o' th -> rinv (set_ths (<[t := th]> (o_ths o')) o').
Proof.
  intros I T (own & Hp) H. destruct (lock_facts _ _ _ I) as (L1 & L2 & L3 & L4 & L5 & L6). cbn [frame_step f_pc f_op] in H.
  assert (forall q, own_of p = own_of q -> pc_ok (OpDestroy d) q = true ->
    match q with PDPut _ _ | PDMark _ | PDWait _ => True | _ => False end -> frame_ok (MkFr (OpDestroy d) q) rest) as Hf.
  { intros q Eo Hq Hc. split; cbn; try done; try (by destruct q). rewrite <-Eo. exact (ok_own _ _ _ _ (tp_frame T)). }
  destruct Hp as [->|[->|(e & ->)]]; cbn [destroy_step] in H.
  - injection H as <- <-. destruct (o_destroyed o) eqn:Ed;
      (eapply move_inv; [exact I|exact T|apply Hf; by destruct d|by destruct d..]).
  - apply with_lock_inv in H as (l & Hl & [= <- <-]). kl_case Hl. fold_ths.
    eapply lock_move; [exact I|exact T|apply Hf; by destruct d|by destruct d..| | | | | |]; cbn -[Z.b2z]; kl_arith.
  - apply with_lock_inv in H as (l & Hl & [= <- <-]). kl_case Hl. fold_ths.
    eapply lock_move; [exact I|exact T|apply Hf; by destruct d|by destruct d..| | | | | |]; cbn -[Z.b2z]; kl_arith.
Qed.

(** The lock that a call holds, an upgrade included. *)
Definition f_held (f : frame) : Z := f_raw f + f_up f + f_wp f.
Lemma f_held_nonneg f : 0 <= f_held f.
Proof. unfold f_held. pose proof (nonneg_h f). lia. Qed.
Lemma rsum_held l : rsum f_held l = rsum f_raw l + rsum f_up l + rsum f_wp l.
Proof. unfold f_held. by rewrite (rsum_add (fun f => f_raw f + f_up f) f_wp), rsum_add. Qed.

Lemma not_held_rdc st : swf st -> (forall g, g ∈ st -> is_running g = true) -> ssum f_held st = 0 -> ssum f_rdc st = 0.
Proof.
  induction st as [|f st IH]; [done|]. intros (Hf & _ & Hs) Hr Hz. cbn [ssum] in *.
  pose proof (f_held_nonneg f). pose proof (ssum_nonneg f_held st f_held_nonneg).
  assert (ssum f_rdc st = 0) as Hz' by (apply IH; [done|intros g Hg; apply Hr; by right|lia]).
  pose proof (Hr f ltac:(left)) as Hrun. pose proof (ok_again _ _ _ _ Hf) as Ha. assert (f_held f = 0) as Hh by lia.
  rewrite Hz'. destruct f as [op p]. unfold f_held in Hh. destruct p as [| | | | | | | |h| | | | | | | | | | | | | |]; try done.
  destruct h as [| |[]| | | |]; cbn in *; lia.
Qed.

(** Without the lock no thread runs a protected function. *)
Lemma not_held_prot st : swf st -> ssum f_held st = 0 -> ssum f_prot st = 0.
Proof.
  induction st as [|f st IH]; [done|]. intros (Hf & Hr & Hs) Hz. cbn [ssum] in *.
  pose proof (f_held_nonneg f). pose proof (ssum_nonneg f_held st f_held_nonneg).
  rewrite IH by (done || lia). pose proof (not_held_rdc st Hs Hr ltac:(lia)) as Hd. pose proof (ok_again _ _ _ _ Hf) as Ha.
  pose proof (ok_queue _ _ _ _ Hf) as Hq. assert (f_held f = 0) as Hh by lia.
  pose proof (ssum_le f_q f_held st ltac:(intros g; unfold f_held; pose proof (nonneg_h g); lia)).
  destruct f as [op p]. unfold f_held in Hh. destruct p as [| | | | | | | |h| | | | | | | | | | | | | |]; try done.
  destruct h as [| |[]| | | |]; cbn in *; lia.
Qed.

(** Who holds the write lock holds all of it. *)
Lemma held_by_writer o t n f rest : rinv o -> top o t n f rest -> f_wp f = 1 ->
  f_held f = 1 /\ ssum f_held rest = 0 /\ rsum f_held (o_ths o) = 1.
Proof.
  intros I T Hw. destruct (lock_facts _ _ _ I) as (L1 & L2 & L3 & L4 & L5 & L6).
  destruct (top_le _ _ f_wp _ _ _ _ _ ltac:(nonneg) T). destruct (top_le _ _ f_held _ _ _ _ _ f_held_nonneg T) as [H1 H2].
  rewrite rsum_held in H1 |- *. rewrite L6 in L4 by lia. cbn in L4.
  destruct (kl_w (o_lock o)) eqn:Ew; cbn in L3; [|lia]. pose proof (v_readers _ _ _ I) as Hr. rewrite L5 in Hr by done.
  assert (f_held f = 1) as Hf; [|lia]. unfold f_held. rewrite Hw. destruct f as [op p].
  destruct p as [| | | | | | |h|h| | | | | | | | | | | | | |]; try done; destruct h as [| |[]| | | |]; done.
Qed.

Lemma prot_none (l : list rthread) :
  (forall t n st, l !! t = Some (MkRt n st) -> swf st /\ ssum f_prot st = 0) -> rsum f_prot l = 0.
Proof.
  induction l as [|[n st] l IH]; [done|]. intros H. cbn. destruct (H 0%nat n st eq_refl) as [_ ->]. rewrite IH; [done|].
  intros t n' st' E. exact (H (S t) n' st' E).
Qed.

Lemma writer_alone o t n f rest : rinv o -> top o t n f rest -> f_wp f = 1 -> ssum f_prot rest = 0 /\
  forall u m s, u <> t -> o_ths o !! u = Some (MkRt m s) -> ssum f_prot s = 0.
Proof.
  intros I T Hw. destruct (held_by_writer _ _ _ _ _ I T Hw) as (H1 & H2 & H3).
  split; [apply not_held_prot; [apply (tp_rest T)|done]|]. intros u m s Hne E.
  pose proof (rsum_elem2 f_held _ _ _ _ _ f_held_nonneg (tp_at T) E ltac:(done)) as H4. cbn in H4.
  destruct (v_stacks _ _ _ I _ _ _ E) as (Hs & _). apply not_held_prot; [done|].
  pose proof (ssum_nonneg f_held s f_held_nonneg). lia.
Qed.

Lemma dmark_step o t n d own rest o' th :
  rinv o -> top o t n (MkFr (OpDestroy d) (PDMark own)) rest -> step t o n (MkFr (OpDestroy d) (PDMark own)) rest = Go o' th ->
  rinv (set_ths (<[t := th]> (o_ths o')) o').
Proof.
  intros I T H. cbn [frame_step f_pc f_op destroy_step] in H. injection H as <- <-.
  destruct (writer_alone _ _ _ _ _ I T eq_refl) as [P1 P2].
  set (e := if o_destroyed o then _ else _).
  eapply (rinv_life o t n (MkFr (OpDestroy d) (PDMark own)) rest (refobj_set_destroyed o) n (MkFr (OpDestroy d) (PDUnlock own e))); try done.
  - split; cbn; try done; [by destruct d|exact (ok_own _ _ _ _ (tp_frame T))].
  - eapply node_same; [exact (tp_node T)|done..].
  - destruct d; cbn; lia.
  - destruct d; cbn; lia.
  - destruct d; cbn; lia.
  - intros _. rewrite prot_none; [done|]. intros u m s E. split; [by apply (v_stacks _ _ _ I _ _ _ E)|].
    destruct (decide (u = t)) as [->|Hne]; [|by eapply P2]. rewrite (tp_at T) in E. injection E as <- <-. cbn. exact P1.
  - apply (v_deleter _ _ _ I).
  - cbn [o_deleter refobj_set_destroyed]. eapply keeps_deletes; [exact I|exact T|by destruct d..].
  - intros Hc Ha. cbn [o_deleter refobj_set_destroyed o_dtors]. split; [|split; [|by apply (v_freed _ _ _ I)]].
    + eapply keeps_alone; [exact I|exact T|..]; try done; by destruct d.
    + by eapply keeps_frees.
Qed.

Lemma dput_step o t n d own e rest o' th :
  rinv o -> top o t n (MkFr (OpDestroy d) (PDPut own e)) rest -> step t o n (MkFr (OpDestroy d) (PDPut own e)) rest = Go o' th ->
  rinv (set_ths (<[t := th]> (o_ths o')) o').
Proof.
  intros I T H. cbn [frame_step f_pc f_op destroy_step] in H. destruct d.
  2: { injection H as <- <-. eapply move_inv; [exact I|exact T|by fok|done..]. }
  pose proof (top_sums _ _ _ _ _ I T) as Hs. destruct (top_le _ _ f_base _ _ _ _ _ ltac:(nonneg) T) as [Hb Hb0]. cbn in Hb, Hs.
  assert (1 < o_usage o) as Hu by (destruct (o_installed o); cbn in Hs; lia).
  cbn [o_usage set_usage] in H. destruct (Z.eqb_spec (o_usage o - 1) 0); [lia|]. injection H as <- <-.
  eapply (rinv_life o t n (MkFr (OpDestroy true) (PDPut own e)) rest (set_usage (o_usage o - 1) o) n (MkFr (OpDestroy true) (PDSpin own))); try done.
  - by fok_own T.
  - eapply node_same; [exact (tp_node T)|done..].
  - cbn. lia.
  - cbn [o_usage set_usage]. destruct (Z.eqb_spec (o_usage o - 1) 0), (Z.eqb_spec (o_usage o) 0); cbn; lia.
  - cbn. lia.
  - intros Hx. pose proof (v_destroyed _ _ _ I Hx). cbn. lia.
  - apply (v_deleter _ _ _ I).
  - cbn [o_deleter set_usage]. intros u m s Hl Hp. destruct (lookup_update _ _ _ _ _ Hl) as [[-> [= -> ->]]|[Hne Hl']]; [|by eapply (v_deletes _ _ _ I)].
    eapply (v_deletes _ _ _ I); [exact (tp_at T)|]. cbn [ssum] in *. cbn in *. lia.
  - intros Hc Ha. cbn [o_deleter set_usage o_dtors]. split; [|split; [|by apply (v_freed _ _ _ I)]].
    + intros x u m s _ Hz. cbn in Hz. lia.
    + by eapply keeps_frees.
Qed.

(** [aosl_ref_destroy] waits until the other threads have no reference. *)
Lemma dspin_step o t n d own rest o' th :
  rinv o -> top o t n (MkFr (OpDestroy d) (PDSpin own)) rest -> step t o n (MkFr (OpDestroy d) (PDSpin own)) rest = Go o' th ->
  rinv (set_ths (<[t := th]> (o_ths o')) o').
Proof.
  intros I T H. cbn [frame_step f_pc f_op destroy_step] in H. pose proof (ok_pc _ _ _ _ (tp_frame T)) as Hd. cbn in Hd. destruct d; [clear Hd|done].
  destruct (caller_free && negb modify_async && (1 + own <? o_usage o)) eqn:Ew; [done|]. injection H as <- <-.
  pose proof (top_sums _ _ _ _ _ I T) as Hs. destruct (top_le _ _ f_spin _ _ _ _ _ ltac:(nonneg) T) as [Hb Hb0]. cbn in Hb, Hs.
  assert (o_deleter o = Some t) as Hdel by (eapply (v_deletes _ _ _ I); [exact (tp_at T)|]; cbn; pose proof (ssum_nonneg f_base rest ltac:(nonneg)); lia).
  eapply (rinv_life o t n (MkFr (OpDestroy true) (PDSpin own)) rest o n (MkFr (OpDestroy true) (PDrop 0))); try done.
  - eapply node_same; [exact (tp_node T)|done..].
  - cbn. lia.
  - cbn. lia.
  - cbn. lia.
  - intros Hx. pose proof (v_destroyed _ _ _ I Hx). cbn. lia.
  - apply (v_deleter _ _ _ I).
  - intros u m s Hl Hp. destruct (lookup_update _ _ _ _ _ Hl) as [[-> [= -> ->]]|[Hne Hl']]; [done|by eapply (v_deletes _ _ _ I)].
  - intros Hc Ha. split; [|split; [|by apply (v_freed _ _ _ I)]]; [|by eapply keeps_frees].
    intros x u m s Hx Hz Hl Hne. rewrite Hdel in Hx. injection Hx as <-.
    destruct (lookup_update _ _ _ _ _ Hl) as [[-> _]|[_ Hl']]; [done|].
    rewrite Hc, Ha in Ew. cbn [negb andb] in Ew. apply Z.ltb_ge in Ew.
    assert (own = ssum f_get rest) as Hown by (rewrite (ok_own _ _ _ _ (tp_frame T) own eq_refl); unfold RefobjInv.gets; by rewrite Hc).
    pose proof (ssum_le f_get f_ref rest ltac:(nonneg)). pose proof (rsum_elem2 f_ref _ _ _ _ _ ltac:(nonneg) (tp_at T) Hl' ltac:(done)) as H2.
    cbn in H2. pose proof (ssum_nonneg f_ref s ltac:(nonneg)). destruct (o_installed o); cbn in Hs; lia.
Qed.

(** ** Every step *)

Lemma frame_step_inv o t n f rest o' th :
  rinv o -> o_ths o !! t = Some (MkRt n (f :: rest)) -> step t o n f rest = Go o' th -> rinv (set_ths (<[t := th]> (o_ths o')) o').
Proof.
  intros I E H. pose proof (top_of _ _ _ _ _ _ _ I E) as T. pose proof (ok_pc _ _ _ _ (tp_frame T)) as Hp. destruct f as [op p]. cbn in Hp.
  assert (match p with PDNode | PDUninstall _ | PDFlag _ | PDWait _ | PDMark _ | PDUnlock _ _ | PDPut _ _ | PDSpin _ => exists d, op = OpDestroy d | _ => True end) as Hop.
  { destruct p; try done; destruct op as [| | | | |[]]; try done; by eexists. }
  destruct p.
  - exact (get_step _ _ _ _ _ _ _ _ _ I T H).
  - exact (lock_step _ _ _ _ _ _ _ _ _ _ I T H).
  - exact (wait_step _ _ _ _ _ _ _ _ _ _ _ I T ltac:(tauto) H).
  - exact (wait_step _ _ _ _ _ _ _ _ _ _ _ I T ltac:(tauto) H).
  - exact (wait_step _ _ _ _ _ _ _ _ _ _ _ I T ltac:(tauto) H).
  - exact (up_step _ _ _ _ _ _ _ _ _ _ I T H).
  - exact (wait_step _ _ _ _ _ _ _ _ _ _ _ I T ltac:(tauto) H).
  - exact (chk_step _ _ _ _ _ _ _ _ _ _ _ I T H).
  - exact (run_step _ _ _ _ _ _ _ _ _ _ _ I T H).
  - exact (wait_step _ _ _ _ _ _ _ _ _ _ _ I T ltac:(tauto) H).
  - exact (down_step _ _ _ _ _ _ _ _ _ _ I T H).
  - exact (put_step _ _ _ _ _ _ _ _ _ _ _ I T H).
  - exact (drop_step _ _ _ _ _ _ _ _ I T H).
  - exact (free1_step _ _ _ _ _ _ _ I T H).
  - exact (free2_step _ _ _ _ _ _ _ I T H).
  - destruct Hop as [d ->]. exact (dnode_step _ _ _ _ _ _ _ I T H).
  - destruct Hop as [d ->]. exact (duninstall_step _ _ _ _ _ _ _ _ I T H).
  - destruct Hop as [d ->]. refine (dlock_step _ _ _ _ _ _ _ _ I T _ H); eauto 10.
  - destruct Hop as [d ->]. refine (dlock_step _ _ _ _ _ _ _ _ I T _ H); eauto 10.
  - destruct Hop as [d ->]. exact (dmark_step _ _ _ _ _ _ _ _ I T H).
  - destruct Hop as [d ->]. refine (dlock_step _ _ _ _ _ _ _ _ I T _ H); eauto 10.
  - destruct Hop as [d ->]. exact (dput_step _ _ _ _ _ _ _ _ _ I T H).
  - destruct Hop as [d ->]. exact (dspin_step _ _ _ _ _ _ _ _ I T H).
Qed.

(** A running function has a reference to the object. *)
Lemma running_ref f rest : frame_ok f rest -> is_running f = true -> 0 < f_ref f + ssum f_ref rest.
Proof.
  intros Hf Hr. pose proof (ok_obj _ _ _ _ Hf) as Ho. pose proof (ssum_nonneg f_ref rest ltac:(nonneg)). destruct f as [op p]. cbn in *.
  destruct p; try done. destruct op; cbn; try lia. by specialize (Ho eq_refl).
Qed.

Lemma call_inv o t n st op :
  rinv o -> o_ths o !! t = Some (MkRt n st) -> may_call st op = true -> Z.of_nat (length st) < DEPTH_MAX ->
  rinv (set_ths (<[t := MkRt n (MkFr op (first_pc op) :: st)]> (o_ths o)) o).
Proof.
  intros I E Hm Hl. destruct (v_stacks _ _ _ I _ _ _ E) as (Hs & Hn & _).
  assert (forall h, h (MkFr op (first_pc op)) = 0 -> delta h st (MkFr op (first_pc op) :: st) = 0) as Hd by (intros h Hh; unfold delta; cbn; lia).
  assert (swf (MkFr op (first_pc op) :: st)) as Hsw.
  { split; [|split; [|done]].
    - split; cbn; try (by destruct op as [| | | | |[]]). intros ->. destruct st as [|f st]; [done|]. destruct Hs as (Hf & _). by apply running_ref.
    - destruct st as [|f st]; [by intros g ?%not_elem_of_nil|]. destruct Hs as (_ & Hr & _). intros g [->|Hg]%elem_of_cons; [done|by apply Hr]. }
  eapply rinv_plain; [exact I|exact E|done|done|done|done|done|exact Hsw|eapply node_push; [done|by destruct op..]|cbn [length]; lia|..];
    rewrite ?(Hd f_ref), ?(Hd f_free), ?(Hd f_free2), ?(Hd f_base), ?(Hd f_spin), ?(Hd f_raw), ?(Hd f_wp), ?(Hd f_wu), ?(Hd f_up), ?(Hd f_prot)
      by (by destruct op as [| | | | |[]]); try lia; try done.
  - apply (v_legal _ _ _ I).
  - intros Hp. apply (v_plain _ _ _ I). lia.
  - intros Hx. pose proof (v_destroyed _ _ _ I Hx). lia.
Qed.

Lemma cleanup_inv o t n st :
  rinv o -> o_ths o !! t = Some (MkRt (Some n) st) -> node_idle n = true -> rinv (set_ths (<[t := MkRt None st]> (o_ths o)) o).
Proof.
  intros I E Hi. destruct (v_stacks _ _ _ I _ _ _ E) as (Hs & Hn & Hl).
  assert (forall h, delta h st st = 0) as Hd by (intros h; unfold delta; lia).
  eapply rinv_plain; [exact I|exact E|done|done|done|done|done|exact Hs| |exact Hl|..]; rewrite ?Hd; try lia; try done.
  - unfold node_idle, thread_lock_free in Hi. apply andb_true_iff in Hi as [[_ Hg%Z.eqb_eq]%andb_true_iff Hk%Z.eqb_eq].
    destruct Hn as [N1 N2 N3 N4 N5]. cbn in N2, N4. split; cbn; congruence || done.
  - apply (v_legal _ _ _ I).
  - intros Hp. apply (v_plain _ _ _ I). lia.
  - intros Hx. pose proof (v_destroyed _ _ _ I Hx). lia.
Qed.

Lemma rinv_step o o' : rinv o -> rstep modify_async rdlock_recursive caller_free o o' -> rinv o'.
Proof.
  intros I Hstep. destruct Hstep as [t n st op o E Hm Hl|t n f st o o1 th E H|t n st o E Hi].
  - by apply call_inv.
  - exact (frame_step_inv _ _ _ _ _ _ _ I E H).
  - exact (cleanup_inv _ _ _ _ I E Hi).
Qed.

Lemma rinv_create k : rinv (refobj_create k).
Proof.
  assert (forall h, rsum h (replicate k (MkRt None [])) = 0) as Hz by (intros h; induction k; cbn; lia).
  assert (forall t n st, replicate k (MkRt None []) !! t = Some (MkRt n st) -> n = None /\ st = []) as Hk.
  { intros t n st [[= -> ->] _]%lookup_replicate. done. }
  split; cbn; rewrite ?Hz; try done.
  - intros t n st [-> ->]%Hk. split; [done|]. split; [|by vm_compute]. split; cbn; try done. by unfold RefobjInv.gets; destruct caller_free.
  - by intros t n st [-> ->]%Hk.
  - by intros _ _ u n st [-> ->]%Hk.
  - intros _ _ u Hu. by apply not_elem_of_nil in Hu.
Qed.

Lemma rreach_inv k o : rreach modify_async rdlock_recursive caller_free k o -> rinv o.
Proof. induction 1 as [|o o' _ IH H]; [apply rinv_create|by eapply rinv_step]. Qed.

End Free.
