(* ===== verification/RefobjProps.v ===== *)
(** * Reference objects: correctness

    What the invariant says about every run of any number of threads that use,
    lock, destroy and delete one reference object, whatever the functions they
    run call again. *)
From S2P Require Import Prelude KRwLock Refobj RefobjInv RefobjStep RefobjFree.

(** A function that runs under the protection of the object's lock. *)
Definition protected (p : rpc) : bool :=
  match p with PRun (HRd _) | PRun HWr | PRun HUp | PRun HQ | PRun HNoQ => true | _ => false end.
(** A function that runs with the object locked for writing. *)
Definition writing (p : rpc) : bool := match p with PRun HWr | PRun HUp => true | _ => false end.

Lemma protected_prot f : protected (f_pc f) = true -> f_prot f = 1.
Proof. destruct f as [op p]. unfold f_prot. cbn. by destruct p as [| | | | | | | |[]| | | | | | | | | | | | | |]. Qed.

Section Props.
Context (modify_async rdlock_recursive caller_free : bool).
Abbreviation reach := (rreach modify_async rdlock_recursive caller_free).
Abbreviation rinv := (RefobjInv.rinv modify_async caller_free).
Abbreviation swf := (RefobjInv.swf modify_async caller_free).
Abbreviation step := (frame_step modify_async rdlock_recursive caller_free).

Ltac nonneg := let g := fresh "g" in intros g; pose proof (nonneg_h g); lia.

Lemma swf_at st f : swf st -> f ∈ st -> exists above rest, st = above ++ f :: rest /\ swf (f :: rest).
Proof.
  intros Hs Hf. apply list_elem_of_split in Hf as (l1 & l2 & ->). exists l1, l2. split; [done|].
  induction l1 as [|g l1 IH]; [done|]. apply IH. by destruct Hs as (_ & _ & Hs).
Qed.
Lemma ssum_app h l1 l2 : ssum h (l1 ++ l2) = ssum h l1 + ssum h l2.
Proof. induction l1 as [|f l1 IH]; cbn; lia. Qed.

(** A call that has started keeps the object, or frees it. *)
Lemma started_counts st f : swf st -> f ∈ st -> f_pc f <> PGet -> 0 < ssum f_ref st + ssum f_free st.
Proof.
  intros Hs Hin Hp. destruct (swf_at _ _ Hs Hin) as (l1 & rest & -> & Hf & _). rewrite !ssum_app. cbn [ssum].
  pose proof (ssum_nonneg f_ref l1 ltac:(nonneg)). pose proof (ssum_nonneg f_free l1 ltac:(nonneg)).
  pose proof (ssum_nonneg f_ref rest ltac:(nonneg)). pose proof (ssum_nonneg f_free rest ltac:(nonneg)).
  pose proof (nonneg_h f). enough (0 < f_ref f + f_free f + ssum f_ref rest) by lia.
  pose proof (ok_obj _ _ _ _ Hf) as Ho. destruct f as [op p]. cbn in *.
  destruct op, p; try done; cbn; try lia; specialize (Ho eq_refl); lia.
Qed.

Lemma usage_facts o : rinv o -> 0 <= rsum f_ref (o_ths o) /\ 0 <= rsum f_base (o_ths o) <= rsum f_ref (o_ths o) /\
  0 <= rsum f_free2 (o_ths o) <= rsum f_free (o_ths o) /\ o_usage o = Z.b2z (o_installed o) + rsum f_ref (o_ths o) + rsum f_base (o_ths o).
Proof.
  intros I. pose proof (rsum_nonneg f_ref (o_ths o) ltac:(nonneg)). pose proof (rsum_nonneg f_base (o_ths o) ltac:(nonneg)).
  pose proof (rsum_nonneg (fun f => f_ref f - f_base f) (o_ths o) ltac:(nonneg)) as H1. rewrite rsum_sub in H1.
  pose proof (rsum_nonneg f_free2 (o_ths o) ltac:(nonneg)).
  pose proof (rsum_nonneg (fun f => f_free f - f_free2 f) (o_ths o) ltac:(nonneg)) as Hff. rewrite rsum_sub in Hff.
  pose proof (v_usage _ _ _ I). lia.
Qed.

Lemma alive_iff o : rinv o -> o_alive o = true <-> 0 < o_usage o \/ 0 < rsum f_free (o_ths o).
Proof.
  intros I. destruct (usage_facts _ I) as (U1 & U2 & U3 & U4). pose proof (v_zero _ _ _ I) as Z.
  destruct (o_alive o), (Z.eqb_spec (o_usage o) 0), (o_installed o); cbn in *; split; intros; try done; lia.
Qed.

Lemma all_empty (l : list rthread) h : (forall t n st, l !! t = Some (MkRt n st) -> st = []) -> rsum h l = 0.
Proof.
  induction l as [|[n st] l IH]; [done|]. intros H. cbn. rewrite (H 0%nat n st eq_refl), IH; [done|]. intros t m s E. exact (H (S t) m s E).
Qed.

(** C8: the memory of a reference object is safe and is not lost.  While a call
    of any thread on the object is past its [__refobj_get], the object's memory is
    there; the destructor runs at most once, after the handle has left the table
    and only when no function runs with the object; and when the handle has left
    the table and the last call has ended, the destructor has run and the memory
    has been freed. *)
Theorem refobj_lifetime k o (Hr : reach k o) :
  (forall t n st f, o_ths o !! t = Some (MkRt n st) -> f ∈ st -> f_pc f <> PGet -> o_alive o = true) /\
  (length (o_dtors o) <= 1)%nat /\
  (o_dtors o <> [] \/ o_alive o = false -> o_installed o = false /\
     forall t n st f, o_ths o !! t = Some (MkRt n st) -> f ∈ st -> is_running f = false) /\
  (o_installed o = false -> (forall t n st, o_ths o !! t = Some (MkRt n st) -> st = []) -> o_alive o = false /\ length (o_dtors o) = 1%nat).
Proof.
  pose proof (rreach_inv _ _ _ _ _ Hr) as I. destruct (usage_facts _ I) as (U1 & U2 & U3 & U4). pose proof (v_zero _ _ _ I) as Z.
  pose proof (v_dtors _ _ _ I) as D.
  split; [|split; [|split]].
  - intros t n st f E Hf Hp. rewrite (alive_iff _ I). destruct (v_stacks _ _ _ I _ _ _ E) as (Hs & _).
    pose proof (started_counts _ _ Hs Hf Hp). pose proof (rsum_elem f_ref _ _ _ ltac:(nonneg) E) as H1.
    pose proof (rsum_elem f_free _ _ _ ltac:(nonneg) E) as H2. cbn in H1, H2. destruct (o_installed o); cbn in U4; lia.
  - destruct (Z.eqb_spec (o_usage o) 0); cbn [Z.b2z] in Z; lia.
  - intros Hd. assert (o_usage o = 0) as Hz.
    { destruct (Z.eqb_spec (o_usage o) 0) as [|Hne]; [done|]. cbn [Z.b2z] in Z. destruct (o_alive o); [|cbn in Z; lia].
      destruct Hd as [Hd|]; [|done]. destruct (o_dtors o); [done|]. cbn in D, Z. lia. }
    split; [destruct (o_installed o); [cbn in U4; lia|done]|]. intros t n st f E Hf. destruct (is_running f) eqn:Er; [exfalso|done].
    destruct (v_stacks _ _ _ I _ _ _ E) as (Hs & _). destruct (swf_at _ _ Hs Hf) as (l1 & rest & -> & Hok & _).
    pose proof (running_ref _ _ _ _ Hok Er). pose proof (rsum_elem f_ref _ _ _ ltac:(nonneg) E) as H1. cbn [rt_stack] in H1.
    rewrite ssum_app in H1. cbn [ssum] in H1. pose proof (ssum_nonneg f_ref l1 ltac:(nonneg)). destruct (o_installed o); cbn in U4; lia.
  - intros Hin He. rewrite Hin, !(all_empty _ _ He) in *. cbn in U4. rewrite U4 in Z. change (0 + 0 + 0 =? 0) with true in Z.
    destruct (o_alive o); cbn in Z, D; [lia|]. split; [done|lia].
Qed.

(** Once an object is marked destroyed no function runs under its
    protection, on any thread, nested or not: [aosl_ref_destroy] returns only
    after the last one has ended, and none is started afterwards. *)
Theorem refobj_destroyed_quiet k o (Hr : reach k o) (Hd : o_destroyed o = true) t n st f :
  o_ths o !! t = Some (MkRt n st) -> f ∈ st -> protected (f_pc f) = false.
Proof.
  intros E Hf. pose proof (rreach_inv _ _ _ _ _ Hr) as I. destruct (protected (f_pc f)) eqn:Ep; [exfalso|done].
  apply protected_prot in Ep. pose proof (ssum_elem f_prot _ _ ltac:(nonneg) Hf).
  pose proof (rsum_elem f_prot _ _ _ ltac:(nonneg) E) as H2. cbn in H2. rewrite (v_destroyed _ _ _ I Hd) in H2. lia.
Qed.

(** The stack of a thread that writes holds all there is of the lock. *)
Lemma writing_held o t n st f : rinv o -> o_ths o !! t = Some (MkRt n st) -> f ∈ st -> writing (f_pc f) = true ->
  rsum f_held (o_ths o) = 1 /\ 1 <= ssum f_held st.
Proof.
  intros I E Hf Hw. destruct (lock_facts _ _ _ I) as (L1 & L2 & L3 & L4 & L5 & L6). pose proof (v_readers _ _ _ I) as Hr.
  destruct (v_stacks _ _ _ I _ _ _ E) as (Hs & _). destruct (swf_at _ _ Hs Hf) as (l1 & rest & -> & Hok & _).
  pose proof (rsum_elem f_wp _ _ _ ltac:(nonneg) E) as H1. pose proof (rsum_elem f_wu _ _ _ ltac:(nonneg) E) as H2. cbn [rt_stack] in H1, H2.
  pose proof (ssum_elem f_wp _ _ ltac:(nonneg) Hf). pose proof (ssum_elem f_wu _ _ ltac:(nonneg) Hf). rewrite rsum_held, ssum_app. cbn [ssum].
  pose proof (ssum_nonneg f_held l1 f_held_nonneg). pose proof (ssum_nonneg f_held rest f_held_nonneg).
  pose proof (ok_queue _ _ _ _ Hok) as Hq. pose proof (ssum_le f_q f_held rest ltac:(intros g; unfold f_held; pose proof (nonneg_h g); lia)).
  destruct f as [op p]. destruct p as [| | | | | | | |h| | | | | | | | | | | | | |]; try done. destruct h; try done; unfold f_held at 2; cbn in *.
  - destruct (kl_w (o_lock o)); cbn in L3; [|lia]. rewrite L6 in L4 by lia. rewrite L5 in Hr by done. cbn in L4. lia.
  - destruct (kl_w (o_lock o)); cbn in L3; [|lia]. rewrite L5 in Hr by done. destruct (kl_up (o_lock o)); cbn in L4; lia.
Qed.

(** C22: a function run by [aosl_ref_write], with the write lock or with the queue's read lock
    turned into a write lock, is alone among those that run under the object's protection: no
    other thread runs a function of [aosl_ref_read], [aosl_ref_write] or [refobj_read], or a
    function of its queue with the object.  Functions that take no lock are not kept out:
    those of [aosl_ref_hold], and those of queues when the object is modified
    asynchronously. *)
Theorem refobj_write_exclusive k o (Hr : reach k o) t u n m st s f g :
  o_ths o !! t = Some (MkRt n st) -> f ∈ st -> writing (f_pc f) = true ->
  o_ths o !! u = Some (MkRt m s) -> g ∈ s -> u <> t -> protected (f_pc g) = false.
Proof.
  intros Et Hf Hw Eu Hg Hne. pose proof (rreach_inv _ _ _ _ _ Hr) as I. destruct (writing_held _ _ _ _ _ I Et Hf Hw) as [H1 H2].
  pose proof (rsum_elem2 f_held _ _ _ _ _ f_held_nonneg Et Eu ltac:(done)) as H3. cbn in H3.
  destruct (v_stacks _ _ _ I _ _ _ Eu) as (Hs & _). pose proof (ssum_nonneg f_held s f_held_nonneg).
  pose proof (not_held_prot _ _ s Hs ltac:(lia)) as H5. destruct (protected (f_pc g)) eqn:Ep; [exfalso|done].
  apply protected_prot in Ep. pose proof (ssum_elem f_prot _ _ ltac:(nonneg) Hg). lia.
Qed.

(** An object with [REFOBJ_CALLER_FREE] that is not modified asynchronously
    is destructed on the thread whose [aosl_ref_destroy] took its handle out of
    the table, whoever else used it until then. *)
Theorem refobj_caller_free_thread k o (Hr : reach k o) (Hc : caller_free = true) (Ha : modify_async = false) :
  forall u, u ∈ o_dtors o -> o_deleter o = Some u.
Proof. exact (v_freed _ _ _ (rreach_inv _ _ _ _ _ Hr) Hc Ha). Qed.

(** ** Aborts *)

Lemma ssum_pos h st : (forall f, 0 <= h f) -> 0 < ssum h st -> exists f, f ∈ st /\ 0 < h f.
Proof.
  intros Hh. induction st as [|f st IH]; cbn; [lia|]. intros Hp. destruct (decide (0 < h f)); [exists f; split; [left|done]|].
  destruct IH as (g & Hg & ?); [specialize (Hh f); lia|]. exists g. split; [by right|done].
Qed.

(** A thread that holds a lock through a function that runs below. *)
Lemma holds_protected rest : (forall g, g ∈ rest -> is_running g = true) -> 0 < ssum f_rdc rest \/ 0 < ssum f_wrc rest \/ 0 < ssum f_q rest ->
  exists g, g ∈ rest /\ protected (f_pc g) = true.
Proof.
  intros Hr H. assert (exists g, g ∈ rest /\ (0 < f_rdc g \/ 0 < f_wrc g \/ 0 < f_q g)) as (g & Hg & Hp).
  { destruct H as [H|[H|H]]; apply ssum_pos in H as (g & Hg & Hp); try (by exists g; tauto); nonneg. }
  exists g. split; [done|]. specialize (Hr g Hg). destruct g as [op p]. destruct p as [| | | | | | | |[]| | | | | | | | | | | | | |]; cbn in *; done || lia.
Qed.

Lemma with_lock_abort op o k a : with_lock op o k = Aborts a -> exists l, k (set_lock l o) = Aborts a.
Proof. unfold with_lock. destruct (op (o_lock o)); [eauto|done]. Qed.
Lemma finish_no_abort o n op e rest a : finish_op o n op e rest <> Aborts a.
Proof. by destruct op. Qed.

Lemma unlock_no_abort o t n op p h e rest a :
  rinv o -> top modify_async caller_free o t n (MkFr op p) rest -> p = PChk h \/ p = PRun h -> unlock_step o n op h e rest <> Aborts a.
Proof.
  intros I T Hp H. pose proof (node_under _ _ _ _ _ _ _ T) as Hn. destruct (tp_node T) as [_ _ N3 _ N5]. cbn [ssum] in N3, N5.
  pose proof (ssum_nonneg f_rdc rest ltac:(nonneg)). pose proof (ssum_nonneg f_wrc rest ltac:(nonneg)).
  pose proof (ssum_length f_rdc rest ltac:(nonneg)). pose proof (tp_depth T) as Hdep. unfold DEPTH_MAX in Hdep.
  destruct h as [| |b| | | |]; cbn [unlock_step] in H; try (by apply finish_no_abort in H).
  - assert (f_rdc (MkFr op p) = 1 /\ f_wrc (MkFr op p) = 0) as [R1 W0] by (destruct Hp as [->| ->]; done). rewrite R1, W0 in *.
    destruct (Z.ltb_spec 0 (0 + ssum f_wrc rest)); [specialize (N5 ltac:(lia)); lia|].
    rewrite (rdunlock_spec n _ (1 + ssum f_rdc rest) Hn) in H by lia. cbn [with_node] in H.
    destruct (_ =? _); [apply with_lock_abort in H as [l H]|]; by apply finish_no_abort in H.
  - assert (f_wrc (MkFr op p) = 1) as W1 by (destruct Hp as [->| ->]; done). rewrite W1 in *. destruct (Z.ltb_spec 0 (1 + ssum f_wrc rest)); [|lia].
    rewrite (wrunlock_spec n _ _ Hn) in H by done. cbn [with_node] in H. apply with_lock_abort in H as [l H]. by apply finish_no_abort in H.
  - assert (f_wrc (MkFr op p) = 1) as W1 by (destruct Hp as [->| ->]; done). rewrite W1 in *. destruct (Z.ltb_spec 0 (1 + ssum f_wrc rest)); [|lia].
    rewrite (wrunlock_spec n _ _ Hn) in H by done. cbn [with_node] in H. by apply with_lock_abort in H as [l H].
  - apply with_lock_abort in H as [l H]. by apply finish_no_abort in H.
Qed.

(** A thread without a lock gets through the checks for deadlocks. *)
Lemma rdlock_free n g : node_is n g 0 -> exists x, refobj_thread_rdlock rdlock_recursive n = inr x.
Proof. intros [->|(-> & _ & _)]; eexists; unfold refobj_thread_rdlock; cbn; rewrite andb_false_r; reflexivity. Qed.
Lemma wrlock_free n g : node_is n g 0 -> exists x, refobj_thread_wrlock n = inr x.
Proof. intros [->|(-> & _ & _)]; by eexists. Qed.

Lemma lock_no_abort o t n op rest a :
  rinv o -> top modify_async caller_free o t n (MkFr op PLock) rest -> lock_begin modify_async rdlock_recursive o n op rest = Aborts a ->
  a = ADeadlock /\ (0 < ssum f_rdc rest \/ 0 < ssum f_wrc rest).
Proof.
  intros I T H. pose proof (node_ok_is _ _ _ (tp_node T)) as Hn.
  destruct (node_counts _ _ _ _ _ _ _ T eq_refl eq_refl) as (C1 & C2 & C3 & C4 & C5).
  destruct (decide (0 < ssum f_rdc rest \/ 0 < ssum f_wrc rest)) as [Hl|Hl].
  - split; [|done]. destruct (Z.ltb_spec 0 (ssum f_wrc rest)) as [Hw|Hw]; rewrite C4 in Hn; unfold lock_begin in H; destruct op; try done.
    all: try (destruct (refobj_on_this_q rest && negb modify_async); [done|]).
    all: try (rewrite (rdlock_wrlocked _ _ _ Hn) in H; unfold with_node, goto in H; congruence).
    all: try (destruct (rdlock_spec rdlock_recursive n _ _ _ Hn C1 eq_refl) as [E|E]; rewrite E in H; unfold with_node, goto in H; congruence).
    all: destruct (wrlock_spec n _ _ _ Hn eq_refl) as [E|[_ E]]; rewrite E in H; unfold with_node, goto in H; congruence.
  - exfalso. assert (node_lock n = 0) as H0 by (rewrite C4; destruct (Z.ltb_spec 0 (ssum f_wrc rest)); lia). rewrite H0 in Hn.
    destruct (rdlock_free _ _ Hn) as [[x b] E1]. destruct (wrlock_free _ _ Hn) as [y E2].
    unfold lock_begin in H. destruct op; try done; rewrite ?E1, ?E2 in H; by destruct (refobj_on_this_q rest && negb modify_async).
Qed.

(** A call that has its queue's read lock turned into a write lock, or is about to. *)
Definition upgrading (p : rpc) : bool := match p with PUp2 | PChk HUp | PRun HUp | PDown2 | PDown3 => true | _ => false end.

Lemma rsum_pos h (l : list rthread) : (forall f, 0 <= h f) -> 0 < rsum h l -> exists u x, l !! u = Some x /\ 0 < ssum h (rt_stack x).
Proof.
  intros Hh. induction l as [|x l IH]; cbn; [lia|]. intros Hp. destruct (decide (0 < ssum h (rt_stack x))); [by exists 0%nat, x|].
  destruct IH as (u & y & Hu & ?); [pose proof (ssum_nonneg h (rt_stack x) Hh); lia|]. by exists (S u), y.
Qed.

(** A thread that asks for an upgrade while there is one is not the one that has it. *)
Lemma upgrade_other o t n op rest : rinv o -> top modify_async caller_free o t n (MkFr op PUp1) rest -> kl_up (o_lock o) = true ->
  exists u m st g, u <> t /\ o_ths o !! u = Some (MkRt m st) /\ g ∈ st /\ upgrading (f_pc g) = true.
Proof.
  intros I T Hu. pose proof (v_upgrade _ _ _ I) as Hs. rewrite Hu in Hs. cbn in Hs.
  destruct (rsum_pos f_up (o_ths o) ltac:(nonneg) ltac:(lia)) as (u & [m st] & Eu & Hp). cbn in Hp. apply ssum_pos in Hp as (g & Hg & Hup); [|nonneg].
  exists u, m, st, g. split; [|split; [done|split; [done|]]].
  - intros ->. rewrite (tp_at T) in Eu. injection Eu as <- <-. apply elem_of_cons in Hg as [-> |Hg]; [done|].
    pose proof (no_wr _ _ _ (tp_node T)) as Hw. cbn [ssum] in Hw. change (f_wrc (MkFr op PUp1)) with 1 in Hw. pose proof (ssum_elem f_wrc _ _ ltac:(nonneg) Hg) as Hge.
    pose proof (tp_running T g Hg) as Hr. destruct g as [op' p]. destruct p as [| | | | | | | |[]| | | | | | | | | | | | | |]; cbn in *; done || lia.
  - destruct g as [op' p]. by destruct p as [| | | | | | |[]|[]| | | | | | | | | | | | | |].
Qed.

(** C38: the [abort]s of the calls on a reference object are reached for nothing but what they
    report.  A step aborts only because the thread would wait for itself, while it runs a
    function under the object's protection, or because the thread runs on its queue's read
    lock and asks to turn it into a write lock while another thread is doing just that; the
    other two, a thread without a node and an object destroyed under the queue's read lock,
    are never reached. *)
Theorem refobj_aborts k o (Hr : reach k o) t n f rest a :
  o_ths o !! t = Some (MkRt n (f :: rest)) -> step t o n f rest = Aborts a ->
  (a = ADeadlock /\ exists g, g ∈ rest /\ protected (f_pc g) = true) \/
  (a = AUpgrade /\ (exists g, g ∈ rest /\ f_pc g = PRun HQ) /\ exists u m st g, u <> t /\ o_ths o !! u = Some (MkRt m st) /\ g ∈ st /\ upgrading (f_pc g) = true).
Proof.
  intros E H. pose proof (rreach_inv _ _ _ _ _ Hr) as I. pose proof (top_of _ _ _ _ _ _ _ I E) as T. destruct f as [op p].
  pose proof (holds_protected rest (tp_running T)) as Hprot. pose proof (ok_pc _ _ _ _ (tp_frame T)) as Hp. cbn in Hp.
  destruct p; cbn [frame_step f_pc f_op] in H; try done; try (by apply with_lock_abort in H as [l H]).
  - exfalso. unfold __refobj_get in H. destruct (o_installed o); [|done]. destruct op; try done;
      (rewrite (inc_get_spec caller_free n (node_get n) (node_lock n)) in H; [done|by eapply node_ok_is, (tp_node T)|]);
      destruct (node_counts _ _ _ _ _ _ _ T eq_refl eq_refl) as (_ & _ & C3 & _); lia.
  - left. destruct (lock_no_abort _ _ _ _ _ _ I T H) as [-> Hl]. split; [done|]. apply Hprot. tauto.
  - destruct (kl_up (o_lock o)) eqn:Eu; [right; split; [congruence|]; split; [|by eapply upgrade_other]|].
    { pose proof (ok_queue _ _ _ _ (tp_frame T)) as Hq. cbn in Hq. apply ssum_pos in Hq as (g & Hg & Hq); [|nonneg]. exists g. split; [done|]. unfold f_q in Hq. by destruct (f_pc g) as [| | | | | | | |[]| | | | | | | | | | | | | |]. }
    by apply with_lock_abort in H as [l H].
  - exfalso. destruct (o_destroyed o) eqn:Ed; [|done].
    assert (h <> HUp) as Hh by (intros ->; pose proof (ok_queue _ _ _ _ (tp_frame T)) as Hq; cbn in Hq;
      pose proof (not_destroyed_q _ _ _ _ _ _ _ I T Hq); congruence).
    assert (unlock_step o n op h (- AOSL_EPERM) rest = Aborts a) as H' by (destruct h; done).
    by apply (unlock_no_abort _ _ _ _ _ _ _ _ _ I T (or_introl eq_refl)) in H'.
  - exfalso. by apply (unlock_no_abort _ _ _ _ _ _ _ _ _ I T (or_intror eq_refl)) in H.
  - exfalso. apply with_lock_abort in H as [l H]. by apply finish_no_abort in H.
  - exfalso. pose proof (no_get _ _ _ (tp_node T)) as Hg. pose proof (gets_range caller_free rest) as Hrg. rewrite gets_cons in Hg.
    assert (f_get (MkFr op (PPut e)) = 1) as G1 by (destruct op as [| | | | |[]]; done). rewrite G1 in Hg. pose proof (tp_depth T) as Hdep. unfold DEPTH_MAX in Hdep.
    rewrite (dec_get_spec caller_free n (node_get n) (node_lock n)) in H; [done|by eapply node_ok_is, (tp_node T)|].
    intros Hc. rewrite Hc in Hg, Hrg. lia.
  - unfold __refobj_put in H. by destruct (_ =? _).
  - destruct op; try done. cbn [destroy_step] in H. left.
    destruct (refobj_on_this_q rest && negb modify_async) eqn:Eq.
    { split; [congruence|]. apply Hprot. right. right. by eapply on_queue; [apply (tp_rest T)|]. }
    destruct (node_counts _ _ _ _ _ _ _ T eq_refl eq_refl) as (C1 & C2 & C3 & C4 & C5). pose proof (node_ok_is _ _ _ (tp_node T)) as Hn.
    destruct Hn as [En|(En & _)]; rewrite En in H; [|done]. cbn [robj_this_thread_node_get __thread_node_get] in H.
    match type of H with context [0 <? ?x] => destruct (Z.ltb_spec 0 x) as [Hc|]; [|done] end.
    split; [congruence|]. apply Hprot. unfold thread_rdlock_count in Hc. cbn [lock_count] in Hc.
    revert Hc. rewrite C4. destruct (Z.ltb_spec 0 (ssum f_wrc rest)); [right; by left|]. unfold __thread_node_get. cbn [lock_count]. rewrite land_low by lia. tauto.
  - destruct op; try done. cbn [destroy_step] in H. destruct do_delete; [|done]. by destruct (o_installed o).
  - by destruct op.
  - destruct op; try done. cbn [destroy_step] in H. by apply with_lock_abort in H as [l H].
  - by destruct op.
  - destruct op; try done. cbn [destroy_step] in H. by apply with_lock_abort in H as [l H].
  - destruct op; try done. cbn [destroy_step] in H. destruct do_delete; done.
  - destruct op; try done. cbn [destroy_step] in H. by destruct (caller_free && negb modify_async && (1 + own <? o_usage o)).
Qed.

(** ** A call that waits for itself *)

(** Only the thread itself changes its stack. *)
Lemma other_stack o o' t n st : o_ths o !! t = Some (MkRt n st) -> rstep modify_async rdlock_recursive caller_free o o' ->
  (forall op, may_call st op = false) -> (forall f rest o1 th, st = f :: rest -> step t o n f rest <> Go o1 th) ->
  exists n', o_ths o' !! t = Some (MkRt n' st).
Proof.
  intros E Hst Hc Hf. destruct Hst as [u m s op o Eu Hm Hl|u m f s o o1 th Eu H|u m s o Eu Hi]; cbn.
  - destruct (decide (u = t)) as [->|Hne]; [|rewrite list_lookup_insert_ne by done; eauto].
    rewrite E in Eu. injection Eu as <- <-. rewrite Hc in Hm. done.
  - destruct (decide (u = t)) as [->|Hne].
    { rewrite E in Eu. injection Eu as <- ->. by destruct (Hf f s o1 th eq_refl). }
    rewrite list_lookup_insert_ne by done. assert (o_ths o1 = o_ths o \/ o_ths o1 = map (fun th => MkRt None (rt_stack th)) (o_ths o)) as [->| ->].
    { clear -H. destruct f as [op p]. unfold frame_step, __refobj_get, __refobj_put, lock_begin, unlock_step, finish_op, destroy_step, with_lock, with_node, goto in H.
      repeat (case_match; try discriminate); simplify_eq; cbn; auto. }
    + eauto.
    + rewrite list_lookup_fmap, E. cbn. eauto.
  - destruct (decide (u = t)) as [->|Hne]; [|rewrite list_lookup_insert_ne by done; eauto].
    rewrite E in Eu. injection Eu as -> ->. exists None. apply list_lookup_insert_eq. eapply lookup_lt_Some. exact E.
Qed.

(** A function run by [aosl_ref_write] that destroys the object waits for
    itself for ever: the check for this, which aborts in the same case inside
    [aosl_ref_read], does not see the write lock.  Whatever the other threads do,
    the thread stays in [__refobj_wrlock_raw]. *)
Theorem refobj_destroy_in_write_waits k o (Hr : reach k o) t n d own rest g :
  o_ths o !! t = Some (MkRt n (MkFr (OpDestroy d) (PDWait own) :: rest)) -> g ∈ rest -> f_pc g = PRun HWr ->
  step t o n (MkFr (OpDestroy d) (PDWait own)) rest = Wait /\
  forall o', rstep modify_async rdlock_recursive caller_free o o' ->
    exists n', o_ths o' !! t = Some (MkRt n' (MkFr (OpDestroy d) (PDWait own) :: rest)).
Proof.
  intros E Hg Hw. pose proof (rreach_inv _ _ _ _ _ Hr) as I.
  assert (step t o n (MkFr (OpDestroy d) (PDWait own)) rest = Wait) as Hwait.
  { cbn [frame_step f_pc f_op destroy_step]. unfold with_lock, kl_wrlock.
    assert (kl_w (o_lock o) = true) as ->; [|by rewrite ?andb_false_r, ?andb_false_l].
    destruct (lock_facts _ _ _ I) as (_ & L2 & L3 & _). pose proof (rsum_elem f_wp _ _ _ ltac:(nonneg) E) as H1. cbn in H1.
    pose proof (ssum_elem f_wp _ _ ltac:(nonneg) Hg) as H2. unfold f_wp at 1 in H2. rewrite Hw in H2. destruct (kl_w (o_lock o)); [done|cbn in L3; lia]. }
  split; [done|]. intros o' Hst. eapply other_stack; [exact E|exact Hst|done|].
  intros f r o1 th [= <- <-] Hgo. rewrite Hwait in Hgo. done.
Qed.

End Props.

(** ** Executions *)

(** A schedule: which thread moves, and the call it begins, if it begins one. *)
Fixpoint r_exec (ma rr cf : bool) (l : list (nat * option rop)) (o : robj) : option robj :=
  match l with
  | [] => Some o
  | (t, c) :: l =>
    match o_ths o !! t with
    | Some (MkRt n st) =>
      match c with
      | Some op =>
        if may_call st op && (Z.of_nat (length st) <? DEPTH_MAX)
        then r_exec ma rr cf l (set_ths (<[t := MkRt n (MkFr op (first_pc op) :: st)]> (o_ths o)) o) else None
      | None =>
        match st with
        | f :: st =>
          match frame_step ma rr cf t o n f st with Go o' th => r_exec ma rr cf l (set_ths (<[t := th]> (o_ths o')) o') | _ => None end
        | [] => None
        end
      end
    | None => None
    end
  end.

Lemma r_exec_reach ma rr cf k l : forall o o', rreach ma rr cf k o -> r_exec ma rr cf l o = Some o' -> rreach ma rr cf k o'.
Proof.
  induction l as [|[t c] l IH]; intros o o' Hr; cbn; [by intros [= <-]|].
  destruct (o_ths o !! t) as [[n st]|] eqn:E; [|done]. destruct c as [op|].
  - destruct (may_call st op) eqn:Hm; [|done]. destruct (Z.ltb_spec (Z.of_nat (length st)) DEPTH_MAX); [|done]. cbn [andb].
    apply IH. eapply rr_step; [done|by apply rs_call].
  - destruct st as [|f st]; [done|]. destruct (frame_step ma rr cf t o n f st) as [| |o1 th] eqn:H; try done.
    apply IH. eapply rr_step; [done|by eapply rs_step].
Qed.

(** A schedule given as the calls of a thread and numbers of steps. *)
Definition calls (t : nat) (op : rop) (steps : nat) : list (nat * option rop) := (t, Some op) :: replicate steps (t, None).
Definition r_run (ma rr cf : bool) (k : nat) (l : list (list (nat * option rop))) : robj :=
  default (refobj_create 0) (r_exec ma rr cf (concat l) (refobj_create k)).

Lemma r_run_reach ma rr cf k l : is_Some (r_exec ma rr cf (concat l) (refobj_create k)) -> rreach ma rr cf k (r_run ma rr cf k l).
Proof.
  intros [o E]. unfold r_run. rewrite E. cbn. eapply r_exec_reach; [|exact E]. constructor.
Qed.

(** Thread 0 holds the object while thread 1 deletes it, and frees it when it is
    done; with [REFOBJ_CALLER_FREE] thread 1 waits for it. *)
Definition demo_free : list (list (nat * option rop)) :=
  [calls 0 OpHold 2; calls 1 (OpDestroy true) 10; replicate 5 (0%nat, None)].
Definition demo_caller_free : list (list (nat * option rop)) :=
  [calls 0 OpHold 2; calls 1 (OpDestroy true) 8; replicate 3 (0%nat, None); replicate 4 (1%nat, None)].
(** Thread 1 has marked the object while thread 0 is about to read. *)
Definition demo_mark : list (list (nat * option rop)) := [calls 0 OpRead 2; calls 1 (OpDestroy false) 6].
(** Thread 0 writes and thread 1 waits to read. *)
Definition demo_write : list (list (nat * option rop)) := [calls 0 OpWrite 4; calls 1 OpRead 2].
(** A function that reads, and one that writes, destroys the object. *)
Definition demo_read_destroy : list (list (nat * option rop)) := [calls 0 OpRead 4; calls 0 (OpDestroy true) 1].
Definition demo_write_destroy : list (list (nat * option rop)) := [calls 0 OpWrite 4; calls 0 (OpDestroy true) 4].

Ltac demo := apply r_run_reach; vm_compute; eexists; reflexivity.

Lemma refobj_lifetime_witness :
  o_alive (r_run false false false 2 demo_free) = false /\ length (o_dtors (r_run false false false 2 demo_free)) = 1%nat.
Proof.
  apply (refobj_lifetime false false false 2); [demo|reflexivity|].
  intros [|[|t]] n st; vm_compute; intros H; [by injection H as <- <-..|done].
Defined.

Lemma refobj_destroyed_quiet_witness : protected PRdWait = false.
Proof.
  apply (refobj_destroyed_quiet false false false 2 (r_run false false false 2 demo_mark) ltac:(demo) eq_refl 0%nat (Some (MkNode 1 0 1)) [MkFr OpRead PRdWait] (MkFr OpRead PRdWait));
    [reflexivity|left].
Defined.

Lemma refobj_write_exclusive_witness : protected PRdWait = false.
Proof.
  apply (refobj_write_exclusive false false false 2 (r_run false false false 2 demo_write) ltac:(demo) 0%nat 1%nat (Some (MkNode 1 0 (- 2 ^ 31))) (Some (MkNode 1 0 1))
    [MkFr OpWrite (PRun HWr)] [MkFr OpRead PRdWait] (MkFr OpWrite (PRun HWr)) (MkFr OpRead PRdWait)); [reflexivity|left|reflexivity|reflexivity|left|done].
Defined.

Lemma refobj_caller_free_thread_witness :
  o_dtors (r_run false false true 2 demo_caller_free) = [1%nat] /\ o_deleter (r_run false false true 2 demo_caller_free) = Some 1%nat.
Proof.
  split; [reflexivity|]. apply (refobj_caller_free_thread false false true 2); [demo|reflexivity|reflexivity|]. vm_compute. left.
Defined.

Lemma refobj_aborts_witness :
  (ADeadlock = ADeadlock /\ exists g, g ∈ [MkFr OpRead (PRun (HRd true))] /\ protected (f_pc g) = true) \/
  (ADeadlock = AUpgrade /\ (exists g, g ∈ [MkFr OpRead (PRun (HRd true))] /\ f_pc g = PRun HQ) /\
   exists u m st g, u <> 0%nat /\ o_ths (r_run false false false 1 demo_read_destroy) !! u = Some (MkRt m st) /\ g ∈ st /\ upgrading (f_pc g) = true).
Proof.
  apply (refobj_aborts false false false 1 (r_run false false false 1 demo_read_destroy) ltac:(demo) 0%nat (Some (MkNode 1 0 1)) (MkFr (OpDestroy true) PDNode)
    [MkFr OpRead (PRun (HRd true))] ADeadlock); reflexivity.
Defined.

Lemma refobj_destroy_in_write_waits_witness :
  frame_step false false false 0 (r_run false false false 1 demo_write_destroy) (Some (MkNode 1 0 (- 2 ^ 31)))
    (MkFr (OpDestroy true) (PDWait 0)) [MkFr OpWrite (PRun HWr)] = Wait /\
  forall o', rstep false false false (r_run false false false 1 demo_write_destroy) o' ->
    exists n', o_ths o' !! 0%nat = Some (MkRt n' [MkFr (OpDestroy true) (PDWait 0); MkFr OpWrite (PRun HWr)]).
Proof.
  apply (refobj_destroy_in_write_waits false false false 1 (r_run false false false 1 demo_write_destroy) ltac:(demo) 0%nat _ true 0 [MkFr OpWrite (PRun HWr)]
    (MkFr OpWrite (PRun HWr))); [reflexivity|left|reflexivity].
Defined.
