(* ===== verification/MpqCall.v ===== *)
(** * Calling and running functions on queues: the interface of [kernel/mpq.c]

    What one thread does when it asks a queue to run a function, and what the
    queue's thread does when it runs one: the reference to the queue taken
    and given back, the limits on arguments, the running-function context,
    the reference object around the function, and the "done" queue.  The
    waiting list of each queue is seen from outside: a function handed to a
    queue is recorded ([MpqProto] has what happens to it there). *)
From S2P Require Import Prelude Mpq.
#[local] Open Scope aosl_scope.

Definition AOSL_MPQ_INVALID : Z := -1.
Definition AOSL_FREE_ONLY_OBJ : Z := 1.
Definition ARGC_TYPE_DATA_LEN : Z := 0x80000000.
Definition MPQ_DATA_LEN_MAX : Z := 8192.
Definition AOSL_VAR_ARGS_MAX : Z := 64.
Definition BITOP_OR : Z := 0.
Definition BITOP_AND : Z := 1.
Definition BITOP_XOR : Z := 2.
Definition aosl_mpq_invalid (q : Z) : bool := s16 q <? 0.
Definition aosl_ref_invalid (r : Z) : bool := s16 r <? 0.
Definition aosl_is_free_only (robj : Z) : bool := robj =? AOSL_FREE_ONLY_OBJ.

(** [fo->argc]: the number of words, or the length of the data with the bit
    that marks data. *)
Definition fo_argc (type_argv : bool) (len : Z) : Z := if type_argv then len / 8 else Z.lor len ARGC_TYPE_DATA_LEN.
Definition is_data (argc : Z) : bool := negb (Z.land argc ARGC_TYPE_DATA_LEN =? 0).
(** [argc & ~ARGC_TYPE_DATA_LEN]; the mask is a 32-bit constant. *)
Definition argc_value (argc : Z) : Z := Z.land argc (2 ^ 32 - 1 - ARGC_TYPE_DATA_LEN).

(** The part of [struct refobj] used here: references, read locks, and the
    flags [REFOBJ_MODIFY_ASYNC] and [REFOBJ_DESTROYED]. *)
Record refobj := MkRobj {
  ro_usage : Z;
  ro_readers : Z;
  ro_async : bool;
  ro_destroyed : bool
}.

(** One invocation of a user function: the function, the reference object it
    is given (NULL, [AOSL_FREE_ONLY_OBJ] or an object, named by its handle),
    its arguments. *)
Record invocation := MkInvo { i_f : Z; i_robj : Z; i_argc : Z; i_argv : list Z }.

(** The installed queues with their usage counts and flags, the reference
    objects by handle, the running-function context of this thread's queue,
    [q_arg] and [exiting] of it, [aosl_errno], and the record of the
    functions invoked and of those handed to queues. *)
Record world := MkW {
  w_queues : gmap Z (Z * Z);
  w_robjs : gmap Z refobj;
  w_done_qid : Z;
  w_refobj : list Z;
  w_argc : Z;
  w_argv : option (list Z);
  w_qarg : Z;
  w_exiting : bool;
  w_errno : Z;
  w_log : list invocation;
  w_sent : list (Z * call)
}.

Definition set_queues (x : gmap Z (Z * Z)) (w : world) : world :=
  MkW x (w_robjs w) (w_done_qid w) (w_refobj w) (w_argc w) (w_argv w) (w_qarg w) (w_exiting w) (w_errno w) (w_log w) (w_sent w).
Definition set_robjs (x : gmap Z refobj) (w : world) : world :=
  MkW (w_queues w) x (w_done_qid w) (w_refobj w) (w_argc w) (w_argv w) (w_qarg w) (w_exiting w) (w_errno w) (w_log w) (w_sent w).
Definition set_run (d : Z) (r : list Z) (c : Z) (v : option (list Z)) (w : world) : world :=
  MkW (w_queues w) (w_robjs w) d r c v (w_qarg w) (w_exiting w) (w_errno w) (w_log w) (w_sent w).
Definition set_qarg (x : Z) (w : world) : world :=
  MkW (w_queues w) (w_robjs w) (w_done_qid w) (w_refobj w) (w_argc w) (w_argv w) x (w_exiting w) (w_errno w) (w_log w) (w_sent w).
Definition set_err (x : Z) (w : world) : world :=
  MkW (w_queues w) (w_robjs w) (w_done_qid w) (w_refobj w) (w_argc w) (w_argv w) (w_qarg w) (w_exiting w) x (w_log w) (w_sent w).
Definition add_log (x : invocation) (w : world) : world :=
  MkW (w_queues w) (w_robjs w) (w_done_qid w) (w_refobj w) (w_argc w) (w_argv w) (w_qarg w) (w_exiting w) (w_errno w) (w_log w ++ [x]) (w_sent w).
Definition add_sent (x : Z * call) (w : world) : world :=
  MkW (w_queues w) (w_robjs w) (w_done_qid w) (w_refobj w) (w_argc w) (w_argv w) (w_qarg w) (w_exiting w) (w_errno w) (w_log w) (w_sent w ++ [x]).

Definition modw (f : world -> world) : CM world unit := do w <- cget; cput (f w).
Definition failw (e : Z) : CM world Z := modw (set_err e) ;; cret (-1).
(** [return_err (err)] *)
Definition return_errw (err : Z) : CM world Z :=
  if (- 4095 <=? err) && (err <? 0) then failw (- err) else cret err.

Section Calls.
(** [THIS_MPQ ()], by its handle ([AOSL_MPQ_INVALID] when the thread runs no
    queue), the user functions, and the outcome of a queue's lock section
    for a function that may fail: 0, or an error. *)
Context (this_q : Z).
Context (user_f : Z -> Z -> Z -> list Z -> CM world unit).
Context (room_of : Z -> call -> Z).

Definition has_this : bool := negb (this_q =? AOSL_MPQ_INVALID).
Definition this_mpq_id : Z := this_q.

(** ** References to queues *)

Definition __mpq_get (qid : Z) : CM world bool :=
  if s16 qid <? 0 then cret false else
  do w <- cget;
  match w_queues w !! qid with
  | Some (u, fl) => modw (set_queues (<[qid := (u + 1, fl)]> (w_queues w))) ;; cret true
  | None => cret false
  end.
Definition __mpq_put (qid : Z) : CM world unit :=
  do w <- cget;
  match w_queues w !! qid with
  | Some (u, fl) => modw (set_queues (<[qid := (u - 1, fl)]> (w_queues w)))
  | None => cret tt
  end.
Definition __mpq_get_or_this (qid : Z) : CM world bool :=
  if negb (aosl_mpq_invalid qid) then
    if qid =? this_mpq_id then cret true else __mpq_get qid
  else cret false.
Definition __mpq_put_or_this (qid : Z) : CM world unit :=
  if negb (qid =? this_q) then __mpq_put qid else cret tt.

(** ** Handing a function to a queue: [____add_f] as its caller sees it *)

Definition ____add_f (q : Z) (no_fail : bool) (done_qid ref : Z) (type_argv : bool) (f len : Z) (data : list Z)
  : CM world Z :=
  do w <- cget;
  if has_this && w_exiting w && (done_qid =? this_q) then cret (- AOSL_EPERM) else
  let c := MkCall done_qid ref f (fo_argc type_argv len) data in
  let r := if no_fail then 0 else room_of q c in
  if r =? 0 then modw (add_sent (q, c)) ;; cret 0 else cret r.

Definition __mpq_queue_no_fail_argv (q done_qid ref f argc : Z) (argv : list Z) : CM world Z :=
  do _ <- ____add_f q true done_qid ref true f (8 * argc) argv; cret 0.
Definition __mpq_queue_no_fail_data (q done_qid ref f len : Z) (data : list Z) : CM world Z :=
  do _ <- ____add_f q true done_qid ref false f len data; cret 0.
Definition mpq_queue_no_fail_argv (tq dq ref f argc : Z) (argv : list Z) : CM world Z :=
  do q <- __mpq_get tq;
  if q then
    do _ <- ____add_f tq true dq ref true f (8 * argc) argv;
    __mpq_put tq ;; cret 0
  else failw AOSL_ESRCH.

(** ** Running a function *)

Definition refobj_on_this_q (robj : Z) : CM world bool :=
  do w <- cget;
  if has_this then cret (bool_decide (robj ∈ w_refobj w)) else cret false.

(** The context is saved, set for the function, and restored; the
    performance hook is not modelled. *)
Definition q_invoke_f (done_qid robj f argc : Z) (argv : list Z) : CM world unit :=
  do w <- cget;
  let prev_qid := w_done_qid w in
  let prev_refobj := w_refobj w in
  let prev_argc := w_argc w in
  let prev_argv := w_argv w in
  modw (set_run done_qid (robj :: prev_refobj) argc (Some argv)) ;;
  modw (add_log (MkInvo f robj (argc_value argc) argv)) ;;
  user_f f robj (argc_value argc) argv ;;
  modw (set_run prev_qid prev_refobj prev_argc prev_argv).

Definition ro_mod (ref : Z) (g : refobj -> refobj) : CM world unit :=
  modw (fun w => set_robjs (alter g ref (w_robjs w)) w).
Definition inc_usage (d : Z) (o : refobj) : refobj := MkRobj (ro_usage o + d) (ro_readers o) (ro_async o) (ro_destroyed o).
Definition inc_readers (d : Z) (o : refobj) : refobj := MkRobj (ro_usage o) (ro_readers o + d) (ro_async o) (ro_destroyed o).

(** The reference object to run with, and whether its read lock is held. *)
Definition mpq_invoke_refobj_get (ref : Z) : CM world (Z * bool) :=
  if negb (aosl_ref_invalid ref) then
    do w <- cget;
    match w_robjs w !! ref with
    | Some o =>
      ro_mod ref (inc_usage 1) ;;
      (when negb (ro_async o) then ro_mod ref (inc_readers 1)) ;;
      if ro_destroyed o then
        (when negb (ro_async o) then ro_mod ref (inc_readers (-1))) ;;
        ro_mod ref (inc_usage (-1)) ;;
        cret (AOSL_FREE_ONLY_OBJ, false)
      else cret (ref, negb (ro_async o))
    | None => cret (AOSL_FREE_ONLY_OBJ, false)
    end
  else cret (0, false).

Definition mpq_invoke_refobj_put (ref robj : Z) (locked : bool) : CM world unit :=
  if negb (aosl_is_free_only robj) && negb (robj =? 0) then
    (when locked then ro_mod ref (inc_readers (-1))) ;;
    ro_mod ref (inc_usage (-1))
  else cret tt.

Definition __invoke_f (done_qid ref f argc : Z) (argv : list Z) : CM world unit :=
  do rl <- mpq_invoke_refobj_get ref;
  let '(robj, locked) := rl in
  q_invoke_f done_qid robj f argc argv ;;
  mpq_invoke_refobj_put ref robj locked ;;
  if negb (aosl_mpq_invalid done_qid) && negb (aosl_is_free_only robj) then
    do done_q <- __mpq_get done_qid;
    if done_q then
      do _ <- (if negb (is_data argc)
               then ____add_f done_qid true AOSL_MPQ_INVALID ref true f (8 * argc) argv
               else ____add_f done_qid true AOSL_MPQ_INVALID ref false f (argc_value argc) argv);
      __mpq_put done_qid
    else q_invoke_f AOSL_MPQ_INVALID AOSL_FREE_ONLY_OBJ f argc argv
  else cret tt.

(** ** Queueing, calling and running *)

Definition __add_or_invoke_f (q : Z) (sync : bool) (done_qid ref : Z) (type_argv : bool) (f len : Z) (data : list Z)
  : CM world Z :=
  if sync && negb (aosl_mpq_invalid done_qid) then cabort else
  if sync && (q =? this_q) then
    __invoke_f done_qid ref f (fo_argc type_argv len) data ;; cret 0
  else ____add_f q false done_qid ref type_argv f len data.

(** [__add_func_args] and [__add_func_argv]: the arguments of the former come
    from a [va_list]. *)
Definition __add_func_argv (q : Z) (sync : bool) (done_qid ref f : Z) (argv : list Z) : CM world Z :=
  let argc := Z.of_nat (length argv) in
  if AOSL_VAR_ARGS_MAX <? argc then failw AOSL_E2BIG else
  do r <- __add_or_invoke_f q sync done_qid ref true f (argc * 8) argv; return_errw r.
Definition __add_func_args (q : Z) (sync : bool) (done_qid ref f : Z) (args : list Z) : CM world Z :=
  __add_func_argv q sync done_qid ref f args.
Definition __add_func_data (q : Z) (sync : bool) (done_qid ref f : Z) (data : list Z) : CM world Z :=
  let len := Z.of_nat (length data) in
  if MPQ_DATA_LEN_MAX <? len then failw AOSL_EMSGSIZE else
  do r <- __add_or_invoke_f q sync done_qid ref false f len data; return_errw r.

(** The three functions that take the handle of the target queue. *)
Definition with_queue (tq : Z) (treat_this : bool) (body : CM world Z) : CM world Z :=
  do q <- (if treat_this then __mpq_get_or_this tq else __mpq_get tq);
  if q then
    do err <- body;
    (if treat_this then __mpq_put_or_this tq else __mpq_put tq) ;;
    cret err
  else failw AOSL_EINVAL.
Definition __add_func_args_qid (tq : Z) (treat_this sync : bool) (dq ref f : Z) (args : list Z) : CM world Z :=
  with_queue tq treat_this (__add_func_args tq sync dq ref f args).
Definition __add_func_argv_qid (tq : Z) (treat_this sync : bool) (dq ref f : Z) (argv : list Z) : CM world Z :=
  with_queue tq treat_this (__add_func_argv tq sync dq ref f argv).
Definition __add_func_data_qid (tq : Z) (treat_this sync : bool) (dq ref f : Z) (data : list Z) : CM world Z :=
  with_queue tq treat_this (__add_func_data tq sync dq ref f data).

Definition aosl_mpq_queue (tq dq ref f : Z) (args : list Z) : CM world Z := __add_func_args_qid tq false false dq ref f args.
Definition aosl_mpq_queue_args (tq dq ref f : Z) (args : list Z) : CM world Z := __add_func_args_qid tq false false dq ref f args.
Definition aosl_mpq_queue_argv (tq dq ref f : Z) (argv : list Z) : CM world Z := __add_func_argv_qid tq false false dq ref f argv.
Definition aosl_mpq_queue_data (tq dq ref f : Z) (data : list Z) : CM world Z := __add_func_data_qid tq false false dq ref f data.
Definition aosl_mpq_call (qid ref f : Z) (args : list Z) : CM world Z := __add_func_args_qid qid true true AOSL_MPQ_INVALID ref f args.
Definition aosl_mpq_call_args (qid ref f : Z) (args : list Z) : CM world Z := __add_func_args_qid qid true true AOSL_MPQ_INVALID ref f args.
Definition aosl_mpq_call_argv (qid ref f : Z) (argv : list Z) : CM world Z := __add_func_argv_qid qid true true AOSL_MPQ_INVALID ref f argv.
Definition aosl_mpq_call_data (qid ref f : Z) (data : list Z) : CM world Z := __add_func_data_qid qid true true AOSL_MPQ_INVALID ref f data.
Definition aosl_mpq_run (qid ref f : Z) (args : list Z) : CM world Z :=
  __add_func_args_qid qid true (this_mpq_id =? qid) AOSL_MPQ_INVALID ref f args.
Definition aosl_mpq_run_args (qid ref f : Z) (args : list Z) : CM world Z :=
  __add_func_args_qid qid true (this_mpq_id =? qid) AOSL_MPQ_INVALID ref f args.
Definition aosl_mpq_run_argv (qid ref f : Z) (argv : list Z) : CM world Z :=
  __add_func_argv_qid qid true (this_mpq_id =? qid) AOSL_MPQ_INVALID ref f argv.
Definition aosl_mpq_run_data (qid ref f : Z) (data : list Z) : CM world Z :=
  __add_func_data_qid qid true (this_mpq_id =? qid) AOSL_MPQ_INVALID ref f data.

(** ** What a running function can ask *)

Definition aosl_mpq_run_func_arg (n : Z) : CM world (Z + Z) :=
  do w <- cget;
  let bad e := do r <- failw e; cret (inl r) in
  if negb has_this then bad AOSL_EINVAL else
  match w_argv w with
  | None => bad AOSL_EPERM
  | Some argv =>
    if is_data (w_argc w) then bad AOSL_EINVAL else
    if w_argc w <=? n then bad AOSL_ENOENT else
    match argv !! Z.to_nat n with Some a => cret (inr a) | None => cfault end
  end.

Definition aosl_mpq_run_func_data : CM world (Z + (Z * list Z)) :=
  do w <- cget;
  let bad e := do r <- failw e; cret (inl r) in
  if negb has_this then bad AOSL_EINVAL else
  match w_argv w with
  | None => bad AOSL_EPERM
  | Some argv => if negb (is_data (w_argc w)) then bad AOSL_EINVAL else cret (inr (argc_value (w_argc w), argv))
  end.

Definition aosl_mpq_run_func_done_qid : CM world Z :=
  do w <- cget; if negb has_this then failw AOSL_EINVAL else cret (w_done_qid w).
Definition aosl_mpq_running_refobj (robj : Z) : CM world bool :=
  if negb (aosl_is_free_only robj) && negb (robj =? 0) then refobj_on_this_q robj else cret false.
Definition aosl_mpq_get_q_arg : CM world Z :=
  do w <- cget; if negb has_this then modw (set_err AOSL_EINVAL) ;; cret 0 else cret (w_qarg w).
Definition aosl_mpq_set_q_arg (arg : Z) : CM world Z :=
  if negb has_this then failw AOSL_EINVAL else modw (set_qarg arg) ;; cret 0.

(** ** Flags *)

Definition __queue_change_flags (qid bit_op bits : Z) : CM world Z :=
  do w <- cget;
  match w_queues w !! qid with
  | Some (u, fl) =>
    let fl' := if bit_op =? BITOP_OR then Z.lor fl bits
               else if bit_op =? BITOP_AND then Z.land fl bits
               else if bit_op =? BITOP_XOR then Z.lxor fl bits else fl in
    modw (set_queues (<[qid := (u, fl')]> (w_queues w))) ;; cret 0
  | None => cfault
  end.
Definition aosl_mpq_change_flags (qid bit_op bits : Z) : CM world Z :=
  with_queue qid true (__queue_change_flags qid bit_op bits).
Definition aosl_mpq_get_flags (qid : Z) : CM world Z :=
  with_queue qid true
    (do w <- cget; match w_queues w !! qid with Some (_, fl) => cret fl | None => cfault end).
End Calls.
