(* ===== verification/MpqCallProps.v ===== *)
(** * Properties of calling and running functions on queues *)
From S2P Require Import Prelude Mpq MpqCall.
#[local] Open Scope aosl_scope.

(** ** The encoding of arguments *)

Lemma fo_argc_argv n : 0 <= n -> fo_argc true (8 * n) = n.
Proof. intros. unfold fo_argc. rewrite Z.mul_comm. by apply Z.div_mul. Qed.

Lemma data_bit_range n : 0 <= n < 2 ^ 31 -> Z.land n ARGC_TYPE_DATA_LEN = 0.
Proof.
  intros Hn. unfold ARGC_TYPE_DATA_LEN. change 0x80000000 with (2 ^ 31). apply Z.bits_inj'. intros i Hi.
  rewrite Z.land_spec, Z.bits_0, Z.pow2_bits_eqb by lia. destruct (Z.eqb_spec 31 i) as [<-|]; [|by rewrite andb_false_r].
  rewrite andb_true_r. destruct (Z.eq_dec n 0) as [->|]; [by rewrite Z.bits_0|].
  apply Z.bits_above_log2; [lia|]. apply Z.log2_lt_pow2; lia.
Qed.

Lemma argc_value_low n : argc_value n = n mod 2 ^ 31.
Proof. unfold argc_value. change (2 ^ 32 - 1 - ARGC_TYPE_DATA_LEN) with (Z.ones 31). by rewrite Z.land_ones. Qed.

Lemma fo_argc_data n : 0 <= n < 2 ^ 31 -> fo_argc false n = n + 2 ^ 31.
Proof.
  intros Hn. unfold fo_argc. pose proof (data_bit_range n Hn) as Hl. pose proof (Z.add_lor_land n ARGC_TYPE_DATA_LEN).
  unfold ARGC_TYPE_DATA_LEN in *. lia.
Qed.

Lemma fo_argc_kind (type_argv : bool) n : 0 <= n < 2 ^ 31 ->
  is_data (fo_argc type_argv (if type_argv then 8 * n else n)) = negb type_argv /\
  argc_value (fo_argc type_argv (if type_argv then 8 * n else n)) = n.
Proof.
  intros Hn. destruct type_argv; [rewrite fo_argc_argv by lia|rewrite fo_argc_data by done]; rewrite argc_value_low; unfold is_data.
  - rewrite data_bit_range by done. split; [done|]. by apply Z.mod_small.
  - split.
    + rewrite <-fo_argc_data by done. unfold fo_argc. rewrite Z.land_comm, Z.land_lor_distr_r, Z.land_diag.
      rewrite Z.land_comm, data_bit_range by done. done.
    + rewrite Z.add_mod by lia. rewrite Z.mod_same, Z.add_0_r, Z.mod_mod by lia. by apply Z.mod_small.
Qed.

(** ** Functions that leave the bookkeeping alone *)

(** The running-function context. *)
Definition context (w : world) : Z * list Z * Z * option (list Z) := (w_done_qid w, w_refobj w, w_argc w, w_argv w).

Section Props.
Context (this_q : Z) (user_f : Z -> Z -> Z -> list Z -> CM world unit) (room_of : Z -> call -> Z).
(** The user functions return, and keep no reference and no context. *)
Context (quiet : forall f robj argc argv w, user_f f robj argc argv w = Ret (tt, w)).

Lemma q_invoke_f_spec d robj f argc argv w :
  q_invoke_f user_f d robj f argc argv w = Ret (tt, add_log (MkInvo f robj (argc_value argc) argv) w).
Proof. unfold q_invoke_f, modw. run. rewrite quiet. by destruct w. Qed.

Lemma alter_cancel (g h : refobj -> refobj) r (m : gmap Z refobj) : (forall o, h (g o) = o) -> alter h r (alter g r m) = m.
Proof.
  intros Hgh. apply map_eq. intros i. destruct (decide (i = r)) as [->|Hi]; [|by rewrite !lookup_alter_ne].
  rewrite !lookup_alter, !decide_True by done. destruct (m !! r); cbn; [by rewrite Hgh|done].
Qed.

(** The object a function is run with. *)
Definition run_robj (w : world) (ref : Z) : Z :=
  if aosl_ref_invalid ref then 0 else
  match w_robjs w !! ref with
  | Some o => if ro_destroyed o then AOSL_FREE_ONLY_OBJ else ref
  | None => AOSL_FREE_ONLY_OBJ
  end.

Lemma set_robjs_same x w : x = w_robjs w -> set_robjs x w = w.
Proof. intros ->. by destruct w. Qed.

(** Taking the reference object, running, and putting it back. *)
Lemma invoke_ref_spec d ref f argc argv w (K : Z -> CM world unit) :
  (forall o, w_robjs w !! ref = Some o -> ref <> 0 /\ ref <> AOSL_FREE_ONLY_OBJ) ->
  (do rl <- mpq_invoke_refobj_get ref;
   let '(robj, locked) := rl in
   q_invoke_f user_f d robj f argc argv ;;
   mpq_invoke_refobj_put ref robj locked ;; K robj) w =
  K (run_robj w ref) (add_log (MkInvo f (run_robj w ref) (argc_value argc) argv) w).
Proof.
  intros Hh. unfold mpq_invoke_refobj_get, run_robj, ro_mod, modw.
  destruct (aosl_ref_invalid ref) eqn:Hv; cbn [negb]; run; [by rewrite q_invoke_f_spec|].
  destruct (w_robjs w !! ref) as [o|] eqn:Ho; [|by rewrite q_invoke_f_spec].
  destruct (Hh o eq_refl) as [H0 H1].
  assert (Hp : mpq_invoke_refobj_put ref ref (negb (ro_async o)) =
    ((when negb (ro_async o) then ro_mod ref (inc_readers (-1))) ;; ro_mod ref (inc_usage (-1)))).
  { unfold mpq_invoke_refobj_put, aosl_is_free_only. by rewrite (proj2 (Z.eqb_neq ref _)), (proj2 (Z.eqb_neq ref 0)) by done. }
  destruct (ro_async o) eqn:Ha, (ro_destroyed o) eqn:Hd; cbn [negb] in *; rewrite q_invoke_f_spec; rewrite ?Hp; clear Hp; cbn;
    unfold ro_mod, modw; run; f_equal; destruct w as [qs ro ? ? ? ? ? ? ? ? ?]; unfold add_log, set_robjs; cbn; f_equal;
    rewrite ?(alter_cancel (inc_readers 1) (inc_readers (-1))), ?(alter_cancel (inc_usage 1) (inc_usage (-1))); try done;
    intros []; unfold inc_usage, inc_readers; cbn; f_equal; lia.
Qed.

(** Where the function goes after it ran. *)
Definition done_world (done_qid ref f argc : Z) (argv : list Z) (w : world) : world :=
  let robj := run_robj w ref in
  let w1 := add_log (MkInvo f robj (argc_value argc) argv) w in
  if aosl_mpq_invalid done_qid || aosl_is_free_only robj then w1 else
  match w_queues w !! done_qid with
  | Some _ => add_sent (done_qid, MkCall AOSL_MPQ_INVALID ref f argc argv) w1
  | None => add_log (MkInvo f AOSL_FREE_ONLY_OBJ (argc_value argc) argv) w1
  end.

Lemma resend_argc argc : 0 <= argc < 2 ^ 32 ->
  (is_data argc = false /\ fo_argc true (8 * argc) = argc) \/ (is_data argc = true /\ fo_argc false (argc_value argc) = argc).
Proof.
  intros Ha. destruct (Z.lt_ge_cases argc (2 ^ 31)) as [Hlt|Hge].
  - left. split; [|apply fo_argc_argv; lia]. unfold is_data. by rewrite data_bit_range by lia.
  - right. assert (E : argc = fo_argc false (argc - 2 ^ 31)) by (rewrite fo_argc_data; lia).
    destruct (fo_argc_kind false (argc - 2 ^ 31) ltac:(lia)) as [H1 H2]. rewrite <-E in H1, H2. split; [done|]. rewrite H2. by rewrite <-E.
Qed.

(** Handing over without fail never meets the refusal of an exiting thread
    when there is no done queue. *)
Lemma add_no_fail q ref type_argv f len data w :
  ____add_f this_q room_of q true AOSL_MPQ_INVALID ref type_argv f len data w =
  Ret (0, add_sent (q, MkCall AOSL_MPQ_INVALID ref f (fo_argc type_argv len) data) w).
Proof.
  unfold ____add_f, modw. run. replace (has_this this_q && w_exiting w && (AOSL_MPQ_INVALID =? this_q)) with false; [done|].
  unfold has_this. rewrite (Z.eqb_sym this_q). destruct (AOSL_MPQ_INVALID =? this_q), (w_exiting w); done.
Qed.

Lemma invoke_f_spec done_qid ref f argc argv w :
  (forall o, w_robjs w !! ref = Some o -> ref <> 0 /\ ref <> AOSL_FREE_ONLY_OBJ) -> 0 <= argc < 2 ^ 32 ->
  __invoke_f this_q user_f room_of done_qid ref f argc argv w = Ret (tt, done_world done_qid ref f argc argv w).
Proof.
  intros Hh Ha. unfold __invoke_f. rewrite (invoke_ref_spec done_qid ref f argc argv w (fun robj => _)) by done.
  unfold done_world. set (robj := run_robj w ref). set (w1 := add_log _ w).
  destruct (aosl_mpq_invalid done_qid) eqn:Hd; cbn [negb andb orb]; [done|].
  destruct (aosl_is_free_only robj) eqn:Hf; cbn [negb]; [done|].
  unfold __mpq_get. fold (aosl_mpq_invalid done_qid). rewrite Hd. change (w_queues w) with (w_queues w1). run.
  destruct (w_queues w1 !! done_qid) as [[u fl]|] eqn:Hq; [|by rewrite q_invoke_f_spec].
  unfold modw, __mpq_put. run.
  assert (Hput : forall x, set_queues (<[done_qid := (u, fl)]> (<[done_qid := (u + 1, fl)]> (w_queues w1)))
     (add_sent x (set_queues (<[done_qid := (u + 1, fl)]> (w_queues w1)) w1)) = add_sent x w1).
  { intros x. rewrite insert_insert, decide_True, insert_id by done. by destruct w1. }
  destruct (resend_argc argc Ha) as [[-> Hr]|[-> Hr]]; cbn [negb]; rewrite add_no_fail, Hr; cbn [add_sent set_queues w_queues];
    rewrite lookup_insert, decide_True by done; cbn; unfold cput; replace (u + 1 - 1) with u by lia; f_equal; f_equal; apply Hput.
Qed.

(** ** Asking a queue *)

(** Whether the arguments are within the limit. *)
Definition fits (kind : bool) (data : list Z) : bool :=
  if kind then Z.of_nat (length data) <=? AOSL_VAR_ARGS_MAX else Z.of_nat (length data) <=? MPQ_DATA_LEN_MAX.
Definition add_func (kind : bool) := if kind then __add_func_argv this_q user_f room_of else __add_func_data this_q user_f room_of.
Definition data_argc (kind : bool) (data : list Z) : Z :=
  let n := Z.of_nat (length data) in fo_argc kind (if kind then 8 * n else n).

(** What a request does, once the queue was found. *)
Definition request (kind : bool) (q : Z) (sync : bool) (dq ref f : Z) (data : list Z) (w : world) : Z * world :=
  if negb (fits kind data) then (-1, set_err (if kind then AOSL_E2BIG else AOSL_EMSGSIZE) w) else
  if sync && (q =? this_q) then (0, done_world dq ref f (data_argc kind data) data w) else
  if has_this this_q && w_exiting w && (dq =? this_q) then (-1, set_err AOSL_EPERM w) else
  let c := MkCall dq ref f (data_argc kind data) data in
  if room_of q c =? 0 then (0, add_sent (q, c) w) else (-1, set_err (- room_of q c) w).

Lemma data_argc_range kind data : fits kind data = true -> 0 <= data_argc kind data < 2 ^ 32.
Proof.
  unfold fits, data_argc, AOSL_VAR_ARGS_MAX, MPQ_DATA_LEN_MAX. destruct kind; intros H%Z.leb_le;
    [rewrite fo_argc_argv by lia|rewrite fo_argc_data by lia]; lia.
Qed.

Lemma return_errw_err e w : -4095 <= e < 0 -> return_errw e w = Ret (-1, set_err (- e) w).
Proof.
  intros He. unfold return_errw, failw, modw. rewrite (proj2 (Z.leb_le _ _)), (proj2 (Z.ltb_lt _ _)) by lia. done.
Qed.

Context (room_ok : forall q c, room_of q c = 0 \/ -4095 <= room_of q c < 0).

Lemma add_func_spec kind q sync dq ref f data w :
  (forall o, w_robjs w !! ref = Some o -> ref <> 0 /\ ref <> AOSL_FREE_ONLY_OBJ) ->
  (sync = true -> aosl_mpq_invalid dq = true) ->
  add_func kind q sync dq ref f data w = Ret (request kind q sync dq ref f data w).
Proof.
  intros Hh Hs. unfold request.
  assert (Hbody : fits kind data = true ->
    (do r <- __add_or_invoke_f this_q user_f room_of q sync dq ref kind f
       (if kind then 8 * Z.of_nat (length data) else Z.of_nat (length data)) data; return_errw r) w =
    Ret (if sync && (q =? this_q) then (0, done_world dq ref f (data_argc kind data) data w) else
      if has_this this_q && w_exiting w && (dq =? this_q) then (-1, set_err AOSL_EPERM w) else
      let c := MkCall dq ref f (data_argc kind data) data in
      if room_of q c =? 0 then (0, add_sent (q, c) w) else (-1, set_err (- room_of q c) w))).
  { intros Hf. unfold __add_or_invoke_f. replace (sync && negb (aosl_mpq_invalid dq)) with false
      by (destruct sync; [by rewrite Hs|done]).
    destruct (sync && (q =? this_q)); run.
    - fold (data_argc kind data). rewrite invoke_f_spec by (done || by apply data_argc_range). done.
    - unfold ____add_f, modw. run. fold (data_argc kind data).
      destruct (has_this this_q && w_exiting w && (dq =? this_q)); [by rewrite return_errw_err by (unfold AOSL_EPERM, AOSL_EBASE; lia)|].
      destruct (Z.eqb_spec (room_of q (MkCall dq ref f (data_argc kind data) data)) 0); [done|].
      destruct (room_ok q (MkCall dq ref f (data_argc kind data) data)); [done|]. by rewrite return_errw_err. }
  unfold add_func, fits in *. destruct kind; unfold __add_func_argv, __add_func_data, failw, modw.
  - destruct (Z.leb_spec (Z.of_nat (length data)) AOSL_VAR_ARGS_MAX) as [Hle|Hgt]; cbn [negb].
    + rewrite (proj2 (Z.ltb_ge _ _)) by lia. rewrite (Z.mul_comm _ 8). by apply Hbody.
    + rewrite (proj2 (Z.ltb_lt _ _)) by lia. done.
  - destruct (Z.leb_spec (Z.of_nat (length data)) MPQ_DATA_LEN_MAX) as [Hle|Hgt]; cbn [negb].
    + rewrite (proj2 (Z.ltb_ge _ _)) by lia. by apply Hbody.
    + rewrite (proj2 (Z.ltb_lt _ _)) by lia. done.
Qed.

(** What no request changes. *)
Definition same_books (w w' : world) : Prop :=
  w_queues w' = w_queues w /\ w_robjs w' = w_robjs w /\ context w' = context w.

Lemma request_books kind q sync dq ref f data w : same_books w (snd (request kind q sync dq ref f data w)).
Proof. unfold request, done_world. repeat case_match; done. Qed.
(** Usage counts do not matter to a request. *)
Lemma request_frame kind q sync dq ref f data w x :
  (forall k, is_Some (x !! k) <-> is_Some (w_queues w !! k)) ->
  request kind q sync dq ref f data (set_queues x w) =
    (fst (request kind q sync dq ref f data w), set_queues x (snd (request kind q sync dq ref f data w))).
Proof.
  intros Hx. unfold request, done_world, run_robj. cbn [w_robjs w_exiting w_queues set_queues].
  destruct (negb (fits kind data)); [done|].
  destruct (sync && (q =? this_q)).
  - destruct (aosl_mpq_invalid dq || aosl_is_free_only _); [done|]. specialize (Hx dq).
    destruct (x !! dq), (w_queues w !! dq); try done.
    + destruct (proj1 Hx); [eauto|done].
    + destruct (proj2 Hx); [eauto|done].
  - destruct (has_this this_q && w_exiting w && (dq =? this_q)); [done|]. by destruct (room_of _ _ =? 0).
Qed.

(** The queue is found: itself without a count when it is this thread's. *)
Definition found (tq : Z) (treat_this : bool) (w : world) : bool :=
  negb (aosl_mpq_invalid tq) && ((treat_this && (tq =? this_q)) || bool_decide (is_Some (w_queues w !! tq))).

Definition add_func_qid (kind : bool) :=
  if kind then __add_func_argv_qid this_q user_f room_of else __add_func_data_qid this_q user_f room_of.

Lemma add_func_qid_spec kind tq treat_this sync dq ref f data w :
  (forall o, w_robjs w !! ref = Some o -> ref <> 0 /\ ref <> AOSL_FREE_ONLY_OBJ) ->
  (sync = true -> aosl_mpq_invalid dq = true) ->
  add_func_qid kind tq treat_this sync dq ref f data w =
    Ret (if found tq treat_this w then request kind tq sync dq ref f data w else (-1, set_err AOSL_EINVAL w)).
Proof.
  intros Hh Hs.
  assert (E : add_func_qid kind tq treat_this sync dq ref f data =
    with_queue this_q tq treat_this (add_func kind tq sync dq ref f data)) by (by destruct kind).
  rewrite E. unfold with_queue, found.
  assert (Hcount : aosl_mpq_invalid tq = false ->
    (do q <- __mpq_get tq;
     if q then do err <- add_func kind tq sync dq ref f data; __mpq_put tq ;; cret err else failw AOSL_EINVAL) w =
    Ret (if bool_decide (is_Some (w_queues w !! tq)) then request kind tq sync dq ref f data w else (-1, set_err AOSL_EINVAL w))).
  { intros Hv. unfold __mpq_get. fold (aosl_mpq_invalid tq). rewrite Hv. run.
    destruct (w_queues w !! tq) as [[u fl]|] eqn:Hq; [rewrite bool_decide_true by eauto|rewrite bool_decide_false by (intros []; done); done].
    unfold modw. run. rewrite add_func_spec by (by destruct w). rewrite request_frame.
    2:{ intros k. rewrite lookup_insert_is_Some. destruct (decide (tq = k)) as [->|]; [rewrite Hq|]; naive_solver. }
    destruct (request kind tq sync dq ref f data w) as [r w'] eqn:Hreq. cbn [fst snd].
    pose proof (request_books kind tq sync dq ref f data w) as (Hqs & _). rewrite Hreq in Hqs. cbn in Hqs.
    unfold __mpq_put, modw. run. cbn [w_queues set_queues]. rewrite lookup_insert, decide_True by done.
    unfold cput. do 2 f_equal. rewrite insert_insert, decide_True by done. replace (u + 1 - 1) with u by lia.
    rewrite insert_id by done. rewrite <-Hqs. by destruct w'. }
  destruct (aosl_mpq_invalid tq) eqn:Hv; cbn [negb andb].
  - destruct treat_this; unfold __mpq_get_or_this, __mpq_get; fold (aosl_mpq_invalid tq); rewrite Hv; done.
  - destruct treat_this; cbn [andb orb]; [|by apply Hcount].
    unfold __mpq_get_or_this, __mpq_put_or_this, this_mpq_id. rewrite Hv. cbn [negb].
    destruct (tq =? this_q) eqn:Et; cbn [orb negb]; [|by apply Hcount].
    run. rewrite add_func_spec by done. by destruct (request _ _ _ _ _ _ _ _).
Qed.

End Props.

(** ** The properties *)

(** C26: the outcome of asking a queue to run a function, for word arguments
    and for data, queued, called or run, when functions that run at once do nothing to the
    queues and objects ([quiet]): a handle that names no queue is refused with [AOSL_EINVAL],
    too many arguments with [AOSL_E2BIG] or [AOSL_EMSGSIZE]; a synchronous request to the
    thread's own queue runs the function at once; anything else is handed to the queue once,
    unless this thread is the one of a queue that is exiting and names that queue as the
    one to tell, which is refused with [AOSL_EPERM], or the queue has no room, which is
    refused with the queue's error.  On every path the usage counts of the
    queues, the references and locks of the reference objects and the
    running-function context are as before, and a refused request runs and
    queues nothing. *)
Theorem mpq_request_outcome this_q user_f room_of kind tq treat_this sync dq ref f data w
  (quiet : forall f robj argc argv w, user_f f robj argc argv w = Ret (tt, w))
  (room_ok : forall q c, room_of q c = 0 \/ -4095 <= room_of q c < 0)
  (Href : forall o, w_robjs w !! ref = Some o -> ref <> 0 /\ ref <> AOSL_FREE_ONLY_OBJ)
  (Hsync : sync = true -> aosl_mpq_invalid dq = true) :
  exists r w', add_func_qid this_q user_f room_of kind tq treat_this sync dq ref f data w = Ret (r, w') /\
    same_books w w' /\
    (found this_q tq treat_this w = false -> r = -1 /\ w' = set_err AOSL_EINVAL w) /\
    (found this_q tq treat_this w = true ->
       (fits kind data = false -> r = -1 /\ w' = set_err (if kind then AOSL_E2BIG else AOSL_EMSGSIZE) w) /\
       (fits kind data = true -> sync = true -> tq = this_q ->
          r = 0 /\ w' = add_log (MkInvo f (run_robj w ref) (Z.of_nat (length data)) data) w) /\
       (fits kind data = true -> (sync = false \/ tq <> this_q) ->
          let c := MkCall dq ref f (data_argc kind data) data in
          let barred := this_q <> AOSL_MPQ_INVALID /\ w_exiting w = true /\ dq = this_q in
          (barred -> r = -1 /\ w' = set_err AOSL_EPERM w) /\
          (~ barred -> room_of tq c = 0 -> r = 0 /\ w' = add_sent (tq, c) w) /\
          (~ barred -> room_of tq c <> 0 -> r = -1 /\ w' = set_err (- room_of tq c) w))).
Proof.
  rewrite (add_func_qid_spec _ _ _ quiet room_ok) by done.
  destruct (found this_q tq treat_this w) eqn:Hf; [|by do 2 eexists].
  destruct (request this_q room_of kind tq sync dq ref f data w) as [r w'] eqn:Hq. exists r, w'. split; [done|].
  split; [by pose proof (request_books this_q room_of kind tq sync dq ref f data w) as H; rewrite Hq in H|].
  split; [done|]. intros _. unfold request in Hq. destruct (fits kind data) eqn:Hfit; cbn [negb] in Hq;
    [|split; [intros _; by injection Hq as <- <-|done]].
  split; [done|]. split.
  - intros _ -> ->. rewrite Z.eqb_refl in Hq. cbn in Hq. injection Hq as <- <-. split; [done|]. unfold done_world.
    rewrite (Hsync eq_refl). cbn [orb]. unfold data_argc. f_equal. f_equal.
    destruct (fo_argc_kind kind (Z.of_nat (length data))) as [_ ->]; [|done].
    unfold fits, AOSL_VAR_ARGS_MAX, MPQ_DATA_LEN_MAX in Hfit. destruct kind; apply Z.leb_le in Hfit; lia.
  - intros _ Hns. replace (sync && (tq =? this_q)) with false in Hq.
    2:{ destruct Hns as [->|Hne]; [done|]. rewrite (proj2 (Z.eqb_neq _ _)) by done. by rewrite andb_false_r. }
    cbv zeta in *. set (c := MkCall dq ref f (data_argc kind data) data) in *.
    assert (Hb : has_this this_q && w_exiting w && (dq =? this_q) = true <-> this_q <> AOSL_MPQ_INVALID /\ w_exiting w = true /\ dq = this_q).
    { unfold has_this. rewrite !andb_true_iff, negb_true_iff, Z.eqb_neq, Z.eqb_eq. naive_solver. }
    destruct (has_this this_q && w_exiting w && (dq =? this_q)).
    + injection Hq as <- <-. split; [done|]. split; intros Hn; by destruct Hn; apply Hb.
    + split; [intros Hx; by apply Hb in Hx|]. destruct (Z.eqb_spec (room_of tq c) 0); injection Hq as <- <-; by split.
Qed.

(** A function with a "done" queue is passed on exactly once: when its
    reference object is dead it is run once, to free its resources only;
    otherwise it is run with the object, and then either queued on the done
    queue with the same arguments, or, when that queue is gone, run a second
    time to free its resources only. *)
Theorem invoke_done_protocol this_q user_f room_of done_qid ref f argc argv w
  (quiet : forall f robj argc argv w, user_f f robj argc argv w = Ret (tt, w))
  (Href : forall o, w_robjs w !! ref = Some o -> ref <> 0 /\ ref <> AOSL_FREE_ONLY_OBJ)
  (Hargc : 0 <= argc < 2 ^ 32) (Hd : aosl_mpq_invalid done_qid = false) :
  let inv robj := MkInvo f robj (argc_value argc) argv in
  __invoke_f this_q user_f room_of done_qid ref f argc argv w = Ret (tt,
    if aosl_is_free_only (run_robj w ref) then add_log (inv AOSL_FREE_ONLY_OBJ) w else
    match w_queues w !! done_qid with
    | Some _ => add_sent (done_qid, MkCall AOSL_MPQ_INVALID ref f argc argv) (add_log (inv (run_robj w ref)) w)
    | None => add_log (inv AOSL_FREE_ONLY_OBJ) (add_log (inv (run_robj w ref)) w)
    end).
Proof.
  cbn. rewrite invoke_f_spec by done. unfold done_world. rewrite Hd. cbn [orb].
  destruct (aosl_is_free_only (run_robj w ref)) eqn:Hf; [|done]. unfold aosl_is_free_only in Hf. apply Z.eqb_eq in Hf. by rewrite Hf.
Qed.

(** A running function sees its own arguments: [aosl_mpq_run_func_arg]
    gives each word of a call with words and [AOSL_ENOENT] beyond them,
    [aosl_mpq_run_func_data] gives the length and the bytes of a call with
    data, and each refuses the other kind; its reference object counts as
    running on this queue; and whatever the function did to the context, it
    is restored afterwards. *)
Theorem run_context_correct this_q user_f d robj f kind data w (Hthis : this_q <> AOSL_MPQ_INVALID)
  (Hfit : fits kind data = true) (Hobj : robj <> 0 /\ robj <> AOSL_FREE_ONLY_OBJ) :
  let argc := data_argc kind data in
  exists w1, context w1 = (d, robj :: w_refobj w, argc, Some data) /\
    (forall w', q_invoke_f user_f d robj f argc data w = Ret (tt, w') -> context w' = context w /\
       exists w2, user_f f robj (Z.of_nat (length data)) data w1 = Ret (tt, w2)) /\
    (forall n : nat, aosl_mpq_run_func_arg this_q (Z.of_nat n) w1 =
       if kind then match data !! n with Some a => Ret (inr a, w1) | None => Ret (inl (-1), set_err AOSL_ENOENT w1) end
       else Ret (inl (-1), set_err AOSL_EINVAL w1)) /\
    aosl_mpq_run_func_data this_q w1 =
      (if kind then Ret (inl (-1), set_err AOSL_EINVAL w1) else Ret (inr (Z.of_nat (length data), data), w1)) /\
    aosl_mpq_running_refobj this_q robj w1 = Ret (true, w1).
Proof.
  cbn. set (argc := data_argc kind data).
  assert (Hlen : Z.of_nat (length data) < 2 ^ 31)
    by (unfold fits, AOSL_VAR_ARGS_MAX, MPQ_DATA_LEN_MAX in Hfit; destruct kind; apply Z.leb_le in Hfit; lia).
  destruct (fo_argc_kind kind (Z.of_nat (length data)) ltac:(lia)) as [Hk Hv]. fold (data_argc kind data) in Hk, Hv. fold argc in Hk, Hv.
  assert (Ht : has_this this_q = true) by (unfold has_this; by rewrite (proj2 (Z.eqb_neq _ _))).
  exists (add_log (MkInvo f robj (Z.of_nat (length data)) data) (set_run d (robj :: w_refobj w) argc (Some data) w)).
  split; [done|]. split; [|split; [|split]].
  - intros w'. unfold q_invoke_f, modw. run. rewrite Hv. destruct (user_f _ _ _ _ _) as [[[] w2]| | |]; [|done..].
    intros [= <-]. split; [by destruct w|eauto].
  - intros n. unfold aosl_mpq_run_func_arg, failw, modw. run. rewrite Ht. cbn. rewrite Hk. destruct kind; cbn [negb]; [|done].
    assert (Ha : argc = Z.of_nat (length data)) by (unfold argc, data_argc; rewrite fo_argc_argv by lia; done). rewrite Ha.
    destruct (Z.leb_spec (Z.of_nat (length data)) (Z.of_nat n)).
    + rewrite lookup_ge_None_2 by lia. done.
    + destruct (lookup_lt_is_Some_2 data n ltac:(lia)) as [a Hx]. rewrite Nat2Z.id, Hx. done.
  - unfold aosl_mpq_run_func_data, failw, modw. run. rewrite Ht. cbn. rewrite Hk, Hv. by destruct kind.
  - unfold aosl_mpq_running_refobj, refobj_on_this_q, aosl_is_free_only. rewrite !(proj2 (Z.eqb_neq _ _)) by naive_solver.
    cbn. rewrite Ht. run. cbn. rewrite bool_decide_true by (by left). done.
Qed.

(** Queueing "without fail" is not without fail: when the thread's own
    queue is exiting and is the done queue of the request,
    [mpq_queue_no_fail_argv] reports success although the function was
    neither queued nor run, so that its resources are never freed. *)
Theorem no_fail_request_dropped this_q room_of tq ref f argc argv w u fl (Hthis : this_q <> AOSL_MPQ_INVALID)
  (Hexit : w_exiting w = true) (Htq : aosl_mpq_invalid tq = false) (Hq : w_queues w !! tq = Some (u, fl)) :
  mpq_queue_no_fail_argv this_q room_of tq this_q ref f argc argv w = Ret (0, w).
Proof.
  unfold mpq_queue_no_fail_argv, __mpq_get, __mpq_put, ____add_f, modw. fold (aosl_mpq_invalid tq). rewrite Htq. run. rewrite Hq. cbn.
  unfold has_this. rewrite Hexit, (proj2 (Z.eqb_neq this_q _)), Z.eqb_refl by done. cbn.
  rewrite lookup_insert, decide_True by done. unfold cput. do 2 f_equal.
  rewrite insert_insert, decide_True by done. replace (u + 1 - 1) with u by lia. rewrite insert_id by done. by destruct w.
Qed.

(** ** Witnesses *)

Definition demo_user (f robj argc : Z) (argv : list Z) : CM world unit := cret tt.
Definition demo_room (q : Z) (c : call) : Z := 0.
(** Queue 65536 is this thread's, 131073 another; reference object 65538. *)
Definition demo_world : world :=
  MkW {[65536 := (1, 0); 131073 := (1, 0)]} {[65538 := MkRobj 1 0 false false]} (-1) [] 0 None 0 false 0 [] [].
Lemma demo_refs o : w_robjs demo_world !! 65538 = Some o -> 65538 <> 0 /\ 65538 <> AOSL_FREE_ONLY_OBJ.
Proof. done. Qed.

Lemma mpq_request_outcome_witness : exists w',
  add_func_qid 65536 demo_user demo_room true 131073 false false 65536 65538 7 [5; 6] demo_world = Ret (0, w') /\ same_books demo_world w'.
Proof.
  destruct (mpq_request_outcome 65536 demo_user demo_room true 131073 false false 65536 65538 7 [5; 6] demo_world
    ltac:(done) ltac:(by left) demo_refs ltac:(done)) as (r & w' & H1 & H2 & _).
  exists w'. split; [|done]. rewrite H1. vm_compute in H1. injection H1 as <- _. done.
Defined.

Lemma invoke_done_protocol_witness :
  __invoke_f 65536 demo_user demo_room 131073 65538 7 2 [5; 6] demo_world =
  Ret (tt, add_sent (131073, MkCall AOSL_MPQ_INVALID 65538 7 2 [5; 6]) (add_log (MkInvo 7 65538 2 [5; 6]) demo_world)).
Proof. exact (invoke_done_protocol 65536 demo_user demo_room 131073 65538 7 2 [5; 6] demo_world ltac:(done) demo_refs ltac:(lia) ltac:(done)). Defined.

Lemma run_context_correct_witness : exists w1, aosl_mpq_run_func_arg 65536 1 w1 = Ret (inr 6, w1).
Proof.
  destruct (run_context_correct 65536 demo_user (-1) 65538 7 true [5; 6] demo_world ltac:(done) ltac:(done) ltac:(done))
    as (w1 & _ & _ & H & _). exists w1. exact (H 1%nat).
Defined.

Definition exiting_world : world :=
  MkW {[65536 := (1, 0); 131073 := (1, 0)]} ∅ (-1) [] 0 None 0 true 0 [] [].
Lemma no_fail_request_dropped_witness :
  mpq_queue_no_fail_argv 65536 demo_room 131073 65536 (-1) 7 2 [5; 6] exiting_world = Ret (0, exiting_world).
Proof. by apply (no_fail_request_dropped 65536 demo_room 131073 (-1) 7 2 [5; 6] exiting_world 1 0). Defined.
