(* ===== verification/Bytes.v ===== *)
(** * Byte-addressed memory

    Memory as a finite map from addresses to bytes, the sequences of bytes it
    holds, and the copying of such sequences, for the parts of the library that
    work on raw bytes: packet buffers ([lib/psbuff.c]) and marshalling
    ([lib/marshalling.c]).  Integers are little endian: [le_split n z] are the
    [n] bytes of [z], [le_combine] is its inverse. *)
From Stdlib Require Strings.Byte.
From coqutil Require Byte Word.LittleEndianList.
From S2P Require Import Prelude.
Export LittleEndianList.

Abbreviation byte := Init.Byte.byte.
Abbreviation bytemap := (gmap Z byte).

#[global] Instance byte_eq_dec : EqDecision byte := Strings.Byte.byte_eq_dec.

(** The character that ends a C string. *)
Definition NUL : byte := Init.Byte.x00.

(** The [n] bytes at [a], when all of them are mapped. *)
Fixpoint read_bytes (m : bytemap) (a : Z) (n : nat) : option (list byte) :=
  match n with
  | O => Some []
  | S n => match m !! a, read_bytes m (a + 1) n with
           | Some b, Some l => Some (b :: l)
           | _, _ => None
           end
  end.

(** Overwrite mapped bytes from [a] on. *)
Fixpoint write_bytes (m : bytemap) (a : Z) (l : list byte) : option bytemap :=
  match l with
  | [] => Some m
  | b :: l => match m !! a with
              | Some _ => write_bytes (<[a := b]> m) (a + 1) l
              | None => None
              end
  end.

(** Map [n] new bytes from [a] on, with contents [f]. *)
Fixpoint alloc_bytes (m : bytemap) (a : Z) (n : nat) (f : Z -> byte) : bytemap :=
  match n with
  | O => m
  | S n => <[a := f a]> (alloc_bytes m (a + 1) n f)
  end.

(** Unmap [n] bytes from [a] on. *)
Fixpoint free_bytes (m : bytemap) (a : Z) (n : nat) : bytemap :=
  match n with
  | O => m
  | S n => delete a (free_bytes m (a + 1) n)
  end.

(** ** Specifications *)

(** [m] holds the bytes [l] at [a]. *)
Definition at_bytes (m : bytemap) (a : Z) (l : list byte) : Prop :=
  forall i b, l !! i = Some b -> m !! (a + Z.of_nat i) = Some b.

(** The [n] bytes from [a] on. *)
Definition inside (a n x : Z) : Prop := a <= x < a + n.

(** All the bytes that satisfy [P] are mapped. *)
Definition mapped (m : bytemap) (P : Z -> Prop) : Prop := forall x, P x -> is_Some (m !! x).

(** [m'] has the bytes of [m] wherever [P] holds. *)
Definition same_on (P : Z -> Prop) (m m' : bytemap) : Prop :=
  forall x b, P x -> m !! x = Some b -> m' !! x = Some b.

Lemma at_bytes_nil m a : at_bytes m a [].
Proof. intros i b H. by rewrite lookup_nil in H. Qed.

Lemma at_bytes_cons m a b l : at_bytes m a (b :: l) <-> m !! a = Some b /\ at_bytes m (a + 1) l.
Proof.
  split.
  - intros H. split.
    + specialize (H 0%nat b eq_refl). by rewrite Z.add_0_r in H.
    + intros i c Hi. specialize (H (S i) c Hi). by replace (a + 1 + Z.of_nat i) with (a + Z.of_nat (S i)) by lia.
  - intros [H0 H] [|i] c Hi; cbn in Hi.
    + injection Hi as <-. by rewrite Z.add_0_r.
    + specialize (H i c Hi). by replace (a + Z.of_nat (S i)) with (a + 1 + Z.of_nat i) by lia.
Qed.

Lemma at_bytes_app m a l1 l2 :
  at_bytes m a (l1 ++ l2) <-> at_bytes m a l1 /\ at_bytes m (a + Z.of_nat (length l1)) l2.
Proof.
  revert a. induction l1 as [|b l1 IH]; intros a; cbn [app length].
  - rewrite Z.add_0_r. split; [intros H; split; [apply at_bytes_nil|done]|by intros [_ ?]].
  - rewrite !at_bytes_cons, IH. replace (a + 1 + Z.of_nat (length l1)) with (a + Z.of_nat (S (length l1))) by lia.
    tauto.
Qed.

Lemma at_bytes_inj m a l1 l2 : length l1 = length l2 -> at_bytes m a l1 -> at_bytes m a l2 -> l1 = l2.
Proof.
  revert a l2. induction l1 as [|b l1 IH]; intros a [|c l2] Hl; try done.
  rewrite !at_bytes_cons. intros [Hb H1] [Hc H2]. rewrite Hb in Hc. injection Hc as ->. f_equal.
  eapply IH; [by injection Hl|done..].
Qed.

Lemma at_bytes_mapped m a l : at_bytes m a l -> mapped m (inside a (Z.of_nat (length l))).
Proof.
  intros H x Hx. unfold inside in Hx.
  destruct (lookup_lt_is_Some_2 l (Z.to_nat (x - a))) as [b Hb]; [lia|].
  exists b. replace x with (a + Z.of_nat (Z.to_nat (x - a))) by lia. by apply H.
Qed.

Lemma at_bytes_same (P : Z -> Prop) m m' a l :
  at_bytes m a l -> same_on P m m' -> (forall x, inside a (Z.of_nat (length l)) x -> P x) -> at_bytes m' a l.
Proof.
  intros H Hs HP i b Hi. apply Hs; [|by apply H]. apply HP. apply lookup_lt_Some in Hi. unfold inside. lia.
Qed.

(** Bytes that are all mapped are some sequence. *)
Lemma mapped_at_bytes m a n :
  mapped m (inside a (Z.of_nat n)) -> exists l, length l = n /\ at_bytes m a l.
Proof.
  revert a. induction n as [|n IH]; intros a H.
  - exists []. split; [done|apply at_bytes_nil].
  - destruct (H a) as [b Hb]; [unfold inside; lia|].
    destruct (IH (a + 1)) as (l & Hl & Hal). { intros x Hx. apply H. unfold inside in *. lia. }
    exists (b :: l). split; [cbn; lia|]. by rewrite at_bytes_cons.
Qed.

Lemma read_bytes_spec m a n l : read_bytes m a n = Some l <-> length l = n /\ at_bytes m a l.
Proof.
  revert a l. induction n as [|n IH]; intros a l; cbn.
  - split; [intros [= <-]; split; [done|apply at_bytes_nil]|]. intros [H _]. by destruct l.
  - destruct (m !! a) as [b|] eqn:Hb.
    + destruct (read_bytes m (a + 1) n) as [l'|] eqn:Hr.
      * apply IH in Hr as [Hl Hr]. split.
        -- intros [= <-]. split; [cbn; lia|]. by rewrite at_bytes_cons.
        -- intros [Hl2 H2]. destruct l as [|c l]; [done|]. apply at_bytes_cons in H2 as [Hc H2].
           rewrite Hb in Hc. injection Hc as ->. do 2 f_equal. eapply at_bytes_inj; [|done..]. cbn in Hl2; lia.
      * split; [done|]. intros [Hl2 H2]. destruct l as [|c l]; [done|]. apply at_bytes_cons in H2 as [Hc H2].
        assert (read_bytes m (a + 1) n = Some l) by (apply IH; cbn in Hl2; split; [lia|done]). congruence.
    + split; [done|]. intros [Hl2 H2]. destruct l as [|c l]; [done|]. apply at_bytes_cons in H2 as [Hc H2]. congruence.
Qed.

Lemma read_bytes_at m a l : at_bytes m a l -> read_bytes m a (length l) = Some l.
Proof. intros H. by apply read_bytes_spec. Qed.

(** A write to mapped bytes succeeds, leaves its bytes there and changes
    nothing else. *)
Lemma write_bytes_spec m a l :
  mapped m (inside a (Z.of_nat (length l))) ->
  exists m', write_bytes m a l = Some m' /\ at_bytes m' a l /\
    (forall x, ~ inside a (Z.of_nat (length l)) x -> m' !! x = m !! x).
Proof.
  revert m a. induction l as [|b l IH]; intros m a Hm.
  - exists m. split; [done|]. split; [apply at_bytes_nil|done].
  - cbn. destruct (Hm a) as [c Hc]; [unfold inside; cbn; lia|]. rewrite Hc.
    destruct (IH (<[a:=b]> m) (a + 1)) as (m' & E & Ha & Ho).
    { intros x Hx. rewrite lookup_insert_ne by (unfold inside in Hx; lia). apply Hm. unfold inside in *; cbn; lia. }
    exists m'. split; [done|]. split.
    + rewrite at_bytes_cons. split; [|done]. rewrite Ho by (unfold inside; lia). by rewrite lookup_insert_eq.
    + intros x Hx. rewrite Ho by (unfold inside in *; cbn in Hx; lia).
      rewrite lookup_insert_ne; [done|]. unfold inside in Hx; cbn in Hx; lia.
Qed.

Lemma alloc_bytes_lookup m a n f x :
  alloc_bytes m a n f !! x = if decide (inside a (Z.of_nat n) x) then Some (f x) else m !! x.
Proof.
  revert a. induction n as [|n IH]; intros a; cbn [alloc_bytes].
  - rewrite decide_False; [done|]. unfold inside; lia.
  - destruct (decide (a = x)) as [->|Hne].
    + rewrite lookup_insert_eq, decide_True; [done|]. unfold inside; lia.
    + rewrite lookup_insert_ne, IH by done. apply decide_ext. unfold inside; lia.
Qed.

Lemma free_bytes_lookup m a n x :
  free_bytes m a n !! x = if decide (inside a (Z.of_nat n) x) then None else m !! x.
Proof.
  revert a. induction n as [|n IH]; intros a; cbn [free_bytes].
  - rewrite decide_False; [done|]. unfold inside; lia.
  - destruct (decide (a = x)) as [->|Hne].
    + rewrite lookup_delete_eq, decide_True; [done|]. unfold inside; lia.
    + rewrite lookup_delete_ne, IH by done. apply decide_ext. unfold inside; lia.
Qed.

Lemma same_on_refl P m : same_on P m m.
Proof. by intros x b _ ?. Qed.

Lemma same_on_trans (P Q : Z -> Prop) m1 m2 m3 :
  same_on P m1 m2 -> same_on Q m2 m3 -> (forall x, P x -> Q x) -> same_on P m1 m3.
Proof. intros H1 H2 H x b Hx Hb. apply H2; [by apply H|]. by apply H1. Qed.

Lemma mapped_same P m m' : mapped m P -> (forall x, is_Some (m !! x) -> is_Some (m' !! x)) -> mapped m' P.
Proof. intros H1 H2 x Hx. auto. Qed.

#[export] Hint Resolve at_bytes_nil same_on_refl : aosl.
