(* ===== verification/Psb.v ===== *)
(** * Packet segment buffers: [lib/psbuff.c], [include/kernel/psbuff.h]

    A [ps_buff] describes the used part [data .. data + len) of a buffer
    [head .. head + size); buffers are chained by [next].  The structures are
    records in a map keyed by address, the buffers are ranges of the byte
    memory.  [aosl_malloc] and [aosl_free] are modelled over an abstract
    allocator. *)
From S2P Require Import Prelude Bytes.
#[local] Open Scope aosl_scope.

(** ** State *)

(** [struct ps_buff]. *)
Record ps_buff := MkPsb {
  b_data : Z;
  b_len : Z;
  b_next : Z;
  b_head : Z;
  b_size : Z;
  b_flags : Z
}.

#[global] Instance ps_buff_eq_dec : EqDecision ps_buff.
Proof. solve_decision. Defined.

(** Bytes, live blocks of the allocator with their sizes, buffer structures,
    [aosl_errno]. *)
Record mstate := MkM {
  bytes : bytemap;
  blocks : gmap Z Z;
  psbs : gmap Z ps_buff;
  errno : Z
}.

Definition PSB_USER_BUFFER : Z := 0x00800000.
Definition MAX_SPB_SIZE : Z := Z.shiftl 8 20.
Definition DFLT_MAX_PSB_PKT : Z := Z.shiftl 4 10.
Definition sizeof_ps_buff : Z := 48.

(** ** The allocator

    [malloc_addr s n] is the address of a new block of [n] bytes, or 0; the
    contents of a new block are arbitrary.  Documented behaviour: a block that
    is given out does not overlap anything in use. *)
Class Allocator := {
  malloc_addr : mstate -> Z -> Z;
  malloc_junk : mstate -> Z -> byte;
  malloc_junk_psb : mstate -> ps_buff
}.

(** The last page of addresses holds the error pointers. *)
Definition ADDR_END : Z := 2 ^ 64 - 4096.

Definition unused (s : mstate) (a n : Z) : Prop :=
  (forall x, inside a n x -> bytes s !! x = None) /\ blocks s !! a = None /\ psbs s !! a = None.

Class AllocatorOk `{AL : Allocator} : Prop :=
  malloc_fresh : forall s n, 0 <= n -> malloc_addr s n <> 0 ->
    0 < malloc_addr s n /\ malloc_addr s n + n <= ADDR_END /\ unused s (malloc_addr s n) n.

Section Psb.
Context `{AL : Allocator}.

Definition upd_bytes (f : bytemap -> bytemap) (s : mstate) : mstate :=
  MkM (f (bytes s)) (blocks s) (psbs s) (errno s).
Definition upd_blocks (f : gmap Z Z -> gmap Z Z) (s : mstate) : mstate :=
  MkM (bytes s) (f (blocks s)) (psbs s) (errno s).
Definition upd_psbs (f : gmap Z ps_buff -> gmap Z ps_buff) (s : mstate) : mstate :=
  MkM (bytes s) (blocks s) (f (psbs s)) (errno s).
Definition modify (f : mstate -> mstate) : CM mstate unit := fun s => Ret (tt, f s).

(** [aosl_malloc] of a block of bytes. *)
Definition aosl_malloc (n : Z) : CM mstate Z := fun s =>
  let a := malloc_addr s n in
  if a =? 0 then Ret (0, s)
  else Ret (a, MkM (alloc_bytes (bytes s) a (Z.to_nat n) (malloc_junk s)) (<[a := n]> (blocks s)) (psbs s) (errno s)).

(** [aosl_malloc (sizeof (struct ps_buff))]. *)
Definition malloc_psb : CM mstate Z := fun s =>
  let a := malloc_addr s sizeof_ps_buff in
  if a =? 0 then Ret (0, s)
  else Ret (a, MkM (bytes s) (<[a := sizeof_ps_buff]> (blocks s)) (<[a := malloc_junk_psb s]> (psbs s)) (errno s)).

(** [aosl_free]: a no-op on NULL, and only defined on a live block. *)
Definition aosl_free (p : Z) : CM mstate unit := fun s =>
  if p =? 0 then Ret (tt, s) else
  match blocks s !! p with
  | None => Fault
  | Some n => Ret (tt, MkM (free_bytes (bytes s) p (Z.to_nat n)) (delete p (blocks s)) (delete p (psbs s)) (errno s))
  end.

(** Access to bytes. *)
Definition load (a : Z) (n : nat) : CM mstate (list byte) := fun s =>
  match read_bytes (bytes s) a n with Some l => Ret (l, s) | None => Fault end.
Definition store (a : Z) (l : list byte) : CM mstate unit := fun s =>
  match write_bytes (bytes s) a l with Some m => Ret (tt, MkM m (blocks s) (psbs s) (errno s)) | None => Fault end.
Definition memcpy (dst src n : Z) : CM mstate unit :=
  do l <- load src (Z.to_nat n); store dst l.

(** Access to buffer structures. *)
Definition get_psb (p : Z) : CM mstate ps_buff := fun s =>
  match psbs s !! p with Some b => Ret (b, s) | None => Fault end.
Definition set_psb (p : Z) (b : ps_buff) : CM mstate unit := fun s =>
  match psbs s !! p with Some _ => Ret (tt, upd_psbs <[p := b]> s) | None => Fault end.

Definition upd_data_len (d l : Z) (b : ps_buff) : ps_buff :=
  MkPsb d l (b_next b) (b_head b) (b_size b) (b_flags b).
Definition upd_next (q : Z) (b : ps_buff) : ps_buff :=
  MkPsb (b_data b) (b_len b) q (b_head b) (b_size b) (b_flags b).

(** ** Operations of [psbuff.h] *)

Definition psb_headroom (b : ps_buff) : Z := u32 (b_data b - b_head b).
Definition psb_tailroom (b : ps_buff) : Z := u32 (b_size b - b_len b - (b_data b - b_head b)).
Definition psb_data (b : ps_buff) : Z := b_data b.
Definition psb_tail (b : ps_buff) : Z := b_data b + b_len b.
Definition psb_len (b : ps_buff) : Z := u32 (b_len b).

Definition psb_reserve (p len : Z) : CM mstate Z :=
  do b <- get_psb p;
  if 0 <? b_len b then cret (- AOSL_EPERM) else
  if u32 len <=? u64 (b_size b - (b_data b - b_head b)) then
    set_psb p (upd_data_len (b_data b + u32 len) (b_len b) b) ;; cret 0
  else cret (- AOSL_ENOSPC).

Definition psb_put (p len : Z) : CM mstate Z :=
  do b <- get_psb p;
  if b_data b + b_len b + u32 len <=? b_head b + b_size b then
    set_psb p (upd_data_len (b_data b) (b_len b + u32 len) b) ;; cret (b_data b + b_len b)
  else cret (- AOSL_ENOSPC).

Definition psb_get (p len : Z) : CM mstate Z :=
  do b <- get_psb p;
  if u32 len <=? b_len b then
    set_psb p (upd_data_len (b_data b + u32 len) (b_len b - u32 len) b) ;; cret (b_data b)
  else cret (- AOSL_ENOSPC).

Definition psb_peek (p len : Z) : CM mstate Z :=
  do b <- get_psb p;
  if u32 len <=? b_len b then cret (b_data b) else cret (- AOSL_ENOSPC).

Definition psb_push (p len : Z) : CM mstate Z :=
  do b <- get_psb p;
  if b_data b - b_head b <? s32 len then cret (- AOSL_ENOSPC) else
  set_psb p (upd_data_len (b_data b - u32 len) (b_len b + u32 len) b) ;;
  cret (b_data b - u32 len).

Definition psb_pull (p len : Z) : CM mstate Z :=
  do b <- get_psb p;
  if b_len b <? u32 len then cret (- AOSL_ENOSPC) else
  set_psb p (upd_data_len (b_data b + u32 len) (b_len b - u32 len) b) ;;
  cret (b_data b + u32 len).

(** ** Operations of [psbuff.c] *)

Definition alloc_user_psb (buf bufsz : Z) : CM mstate Z :=
  do psb <- malloc_psb;
  if psb =? 0 then cret (- AOSL_ENOMEM) else
  let h := if 0 <? bufsz then buf else 0 in
  set_psb psb (MkPsb h 0 0 h bufsz PSB_USER_BUFFER) ;;
  cret psb.

Definition alloc_psb (size : Z) : CM mstate Z :=
  if MAX_SPB_SIZE <? size then cret (- AOSL_E2BIG) else
  do psb <- malloc_psb;
  if psb =? 0 then cret (- AOSL_ENOMEM) else
  if 0 <? size then
    do h <- aosl_malloc size;
    if h =? 0 then aosl_free psb ;; cret (- AOSL_ENOMEM) else
    set_psb psb (MkPsb h 0 0 h size 0) ;;
    cret psb
  else
    set_psb psb (MkPsb 0 0 0 0 size 0) ;;
    cret psb.

Definition is_user (b : ps_buff) : bool := negb (Z.land (b_flags b) PSB_USER_BUFFER =? 0).

Definition free_psb (psb : Z) : CM mstate unit :=
  do b <- get_psb psb;
  (when negb (is_user b) && negb (b_head b =? 0) then aosl_free (b_head b)) ;;
  aosl_free psb.

Definition psb_attach_buf (psb buf bufsz : Z) : CM mstate unit :=
  do b <- get_psb psb;
  (when (0 <? b_size b) && negb (is_user b) then aosl_free (b_head b)) ;;
  let h := if 0 <? bufsz then buf else 0 in
  set_psb psb (MkPsb h 0 (b_next b) h bufsz (b_flags b)).

Definition __psb_detach_buf (psb : Z) : CM mstate unit :=
  do b <- get_psb psb;
  (when negb (is_user b) then aosl_free (b_head b)) ;;
  set_psb psb (MkPsb 0 0 (b_next b) 0 0 (b_flags b)).

Definition psb_detach_buf (psb : Z) : CM mstate unit :=
  do b <- get_psb psb;
  when 0 <? b_size b then __psb_detach_buf psb.

Definition set_errno (e : Z) : CM mstate unit := fun s => Ret (tt, MkM (bytes s) (blocks s) (psbs s) e).

(** [return_err]: an error is stored in [aosl_errno] and replaced by -1. *)
Definition psb_return_err (r : Z) : CM mstate Z :=
  if IS_ERR r then set_errno (- r) ;; cret (-1) else cret r.

(** [return_ptr_err]: an error is stored in [aosl_errno] and replaced by NULL;
    a NULL that is no error clears [aosl_errno]. *)
Definition psb_return_ptr_err (r : Z) : CM mstate Z :=
  if IS_ERR r then set_errno (- r) ;; cret 0 else
  if r =? 0 then set_errno 0 ;; cret 0 else cret r.

Definition aosl_alloc_user_psb (buf bufsz : Z) : CM mstate Z :=
  do r <- alloc_user_psb buf bufsz; psb_return_ptr_err r.
Definition aosl_alloc_psb (size : Z) : CM mstate Z := do r <- alloc_psb size; psb_return_ptr_err r.
Definition aosl_psb_attach_buf (psb buf bufsz : Z) : CM mstate unit := psb_attach_buf psb buf bufsz.
Definition aosl_psb_detach_buf (psb : Z) : CM mstate unit := psb_detach_buf psb.
Definition aosl_psb_headroom (p : Z) : CM mstate Z := do b <- get_psb p; cret (psb_headroom b).
Definition aosl_psb_tailroom (p : Z) : CM mstate Z := do b <- get_psb p; cret (psb_tailroom b).
Definition aosl_psb_data (p : Z) : CM mstate Z := do b <- get_psb p; cret (b_data b).
Definition aosl_psb_len (p : Z) : CM mstate Z := do b <- get_psb p; cret (b_len b).
Definition aosl_psb_reserve (p len : Z) : CM mstate Z := do r <- psb_reserve p len; psb_return_err r.
Definition aosl_psb_put (p len : Z) : CM mstate Z := do r <- psb_put p len; psb_return_ptr_err r.
Definition aosl_psb_get (p len : Z) : CM mstate Z := do r <- psb_get p len; psb_return_ptr_err r.
Definition aosl_psb_peek (p len : Z) : CM mstate Z := do r <- psb_peek p len; psb_return_ptr_err r.
Definition aosl_psb_push (p len : Z) : CM mstate Z := do r <- psb_push p len; psb_return_ptr_err r.
Definition aosl_psb_pull (p len : Z) : CM mstate Z := do r <- psb_pull p len; psb_return_ptr_err r.
Definition aosl_psb_single (p : Z) : CM mstate Z := do b <- get_psb p; cret (if b_next b =? 0 then 1 else 0).

Fixpoint aosl_psb_total_len (fuel : nat) (psb : Z) (total : Z) : CM mstate Z :=
  if psb =? 0 then cret total else
  match fuel with
  | O => cnofuel
  | S fuel => do b <- get_psb psb; aosl_psb_total_len fuel (b_next b) (u64 (total + b_len b))
  end.

Fixpoint aosl_psb_reset (fuel : nat) (psb : Z) : CM mstate unit :=
  if psb =? 0 then cret tt else
  match fuel with
  | O => cnofuel
  | S fuel =>
    do b <- get_psb psb;
    set_psb psb (upd_data_len (b_head b) 0 b) ;;
    aosl_psb_reset fuel (b_next b)
  end.

Fixpoint aosl_free_psb_list (fuel : nat) (psb : Z) : CM mstate unit :=
  if psb =? 0 then cret tt else
  match fuel with
  | O => cnofuel
  | S fuel => do b <- get_psb psb; free_psb psb ;; aosl_free_psb_list fuel (b_next b)
  end.

End Psb.
