(* ===== verification/PsbProps.v ===== *)
(** * Chains of packet buffers

    A chain of buffers as a stream of bytes: what it means for a chain to be
    well formed, how the stream grows when bytes are put at the end of the
    current buffer and in new buffers, and how it shrinks when bytes are taken
    from the front. *)
From S2P Require Import Prelude Bytes Psb.
#[local] Open Scope aosl_scope.

(** ** Well-formed buffers *)

(** The whole buffer, used or not. *)
Definition buf_of (b : ps_buff) : Z -> Prop := inside (b_head b) (b_size b).

(** Room left behind the data. *)
Definition room (b : ps_buff) : Z := b_head b + b_size b - (b_data b + b_len b).

Record psb_ok (m : bytemap) (b : ps_buff) : Prop := {
  ok_head : 0 <= b_head b <= b_data b;
  ok_len : 0 <= b_len b;
  ok_room : 0 <= room b;
  ok_size : b_size b < 2 ^ 31;
  ok_mapped : mapped m (buf_of b)
}.

(** The buffers of a list are distinct, well formed and do not overlap. *)
Record psbs_ok (s : mstate) (W : list Z) : Prop := {
  ok_nodup : NoDup W;
  ok_each : forall p, p ∈ W -> exists b, psbs s !! p = Some b /\ psb_ok (bytes s) b;
  ok_apart : forall p q bp bq x, p ∈ W -> q ∈ W -> p <> q ->
    psbs s !! p = Some bp -> psbs s !! q = Some bq -> buf_of bp x -> buf_of bq x -> False
}.

Arguments ok_head {m b}.
Arguments ok_len {m b}.
Arguments ok_room {m b}.
Arguments ok_size {m b}.
Arguments ok_mapped {m b}.
Arguments ok_nodup {s W}.
Arguments ok_each {s W}.
Arguments ok_apart {s W}.

(** The chain from [p] goes through [W] and arrives at [q]. *)
Fixpoint seg (ps : gmap Z ps_buff) (p : Z) (W : list Z) (q : Z) : Prop :=
  match W with
  | [] => p = q
  | r :: W => p = r /\ r <> 0 /\ exists b, ps !! r = Some b /\ seg ps (b_next b) W q
  end.

(** The bytes in one buffer, and in a list of buffers. *)
Definition psb_bytes (s : mstate) (p : Z) : option (list byte) :=
  b ← psbs s !! p; read_bytes (bytes s) (b_data b) (Z.to_nat (b_len b)).
Fixpoint stream (s : mstate) (W : list Z) : option (list byte) :=
  match W with
  | [] => Some []
  | p :: W => l1 ← psb_bytes s p; l2 ← stream s W; Some (l1 ++ l2)
  end.

(** The bytes of memory that belong to the buffers of a list. *)
Definition bufs (s : mstate) (W : list Z) (x : Z) : Prop :=
  exists p b, p ∈ W /\ psbs s !! p = Some b /\ buf_of b x.

Definition psb_empty (s : mstate) (p : Z) : Prop := exists b, psbs s !! p = Some b /\ b_len b = 0.
Definition psb_full (s : mstate) (p : Z) : Prop := exists b, psbs s !! p = Some b /\ room b = 0.
(** There is space from [data] on. *)
Definition psb_roomy (s : mstate) (p : Z) : Prop :=
  exists b, psbs s !! p = Some b /\ b_data b < b_head b + b_size b.

(** ** Single steps of the operations *)

Section Steps.
Context `{AL : Allocator}.

Lemma get_psb_wp s p b Q : psbs s !! p = Some b -> Q b s -> wp (get_psb p) s Q.
Proof. intros E HQ. unfold wp, get_psb. by rewrite E. Qed.

Lemma set_psb_wp s p b b' Q : psbs s !! p = Some b -> Q tt (upd_psbs <[p := b']> s) -> wp (set_psb p b') s Q.
Proof. intros E HQ. unfold wp, set_psb. by rewrite E. Qed.

Lemma load_bytes_wp s a n l Q : at_bytes (bytes s) a l -> length l = n -> Q l s -> wp (load a n) s Q.
Proof. intros Hl <- HQ. unfold wp, load. by rewrite read_bytes_at. Qed.

Lemma store_bytes_wp s a l Q :
  mapped (bytes s) (inside a (Z.of_nat (length l))) ->
  (forall m', at_bytes m' a l -> (forall x, ~ inside a (Z.of_nat (length l)) x -> m' !! x = bytes s !! x) ->
     Q tt (MkM m' (blocks s) (psbs s) (errno s))) ->
  wp (store a l) s Q.
Proof.
  intros Hm HQ. destruct (write_bytes_spec _ _ _ Hm) as (m' & E & H1 & H2). unfold wp, store. rewrite E. by apply HQ.
Qed.

Lemma psb_put_wp s p b n Q :
  psbs s !! p = Some b -> 0 <= n < 2 ^ 32 -> n <= room b ->
  Q (b_data b + b_len b) (upd_psbs <[p := upd_data_len (b_data b) (b_len b + n) b]> s) -> wp (psb_put p n) s Q.
Proof.
  intros E Hn Hr HQ. unfold psb_put. apply wp_bind. eapply get_psb_wp; [done|].
  rewrite (wrapu_id 32) by done. destruct (Z.leb_spec (b_data b + b_len b + n) (b_head b + b_size b)) as [_|Hlt].
  2: { unfold room in Hr; lia. }
  apply wp_bind. eapply set_psb_wp; [done|]. by apply wp_ret.
Qed.

Lemma psb_put_full_wp s p b n Q :
  psbs s !! p = Some b -> 0 <= n < 2 ^ 32 -> room b < n -> Q (- AOSL_ENOSPC) s -> wp (psb_put p n) s Q.
Proof.
  intros E Hn Hr HQ. unfold psb_put. apply wp_bind. eapply get_psb_wp; [done|].
  rewrite (wrapu_id 32) by done. destruct (Z.leb_spec (b_data b + b_len b + n) (b_head b + b_size b)) as [Hle|_].
  { unfold room in Hr; lia. }
  by apply wp_ret.
Qed.

Lemma psb_get_wp s p b n Q :
  psbs s !! p = Some b -> 0 <= n < 2 ^ 32 -> n <= b_len b ->
  Q (b_data b) (upd_psbs <[p := upd_data_len (b_data b + n) (b_len b - n) b]> s) -> wp (psb_get p n) s Q.
Proof.
  intros E Hn Hr HQ. unfold psb_get. apply wp_bind. eapply get_psb_wp; [done|].
  rewrite (wrapu_id 32) by done. destruct (Z.leb_spec n (b_len b)) as [_|Hlt]; [|lia].
  apply wp_bind. eapply set_psb_wp; [done|]. by apply wp_ret.
Qed.

Lemma psb_get_short_wp s p b n Q :
  psbs s !! p = Some b -> 0 <= n < 2 ^ 32 -> b_len b < n -> Q (- AOSL_ENOSPC) s -> wp (psb_get p n) s Q.
Proof.
  intros E Hn Hr HQ. unfold psb_get. apply wp_bind. eapply get_psb_wp; [done|].
  rewrite (wrapu_id 32) by done. destruct (Z.leb_spec n (b_len b)) as [Hle|_]; [lia|]. by apply wp_ret.
Qed.

Lemma psb_pull_wp s p b n Q :
  psbs s !! p = Some b -> 0 <= n < 2 ^ 32 -> n <= b_len b ->
  Q (b_data b + n) (upd_psbs <[p := upd_data_len (b_data b + n) (b_len b - n) b]> s) -> wp (psb_pull p n) s Q.
Proof.
  intros E Hn Hr HQ. unfold psb_pull. apply wp_bind. eapply get_psb_wp; [done|].
  rewrite (wrapu_id 32) by done. destruct (Z.ltb_spec (b_len b) n) as [Hlt|_]; [lia|].
  apply wp_bind. eapply set_psb_wp; [done|]. by apply wp_ret.
Qed.

Lemma psb_tailroom_ok m b : psb_ok m b -> psb_tailroom b = room b.
Proof. intros [H1 H2 H3 H4 _]. unfold psb_tailroom. rewrite wrapu_id; unfold room in *; lia. Qed.

Lemma psb_len_ok m b : psb_ok m b -> psb_len b = b_len b.
Proof. intros [H1 H2 H3 H4 _]. unfold psb_len. rewrite wrapu_id; unfold room in *; lia. Qed.

(** A block of bytes from the allocator: none, when the allocator has none, or
    new bytes. *)
Lemma aosl_malloc_cases_wp `{!AllocatorOk} s n Q :
  0 <= n -> (malloc_addr s n = 0 -> Q 0 s) ->
  (forall a m', 0 < a -> a + n <= ADDR_END -> unused s a n ->
     (forall x, inside a n x -> is_Some (m' !! x)) -> (forall x, ~ inside a n x -> m' !! x = bytes s !! x) ->
     Q a (MkM m' (<[a := n]> (blocks s)) (psbs s) (errno s))) ->
  wp (aosl_malloc n) s Q.
Proof.
  intros Hn Q0 Q1. unfold wp, aosl_malloc. destruct (Z.eqb_spec (malloc_addr s n) 0) as [Hz|Hne]; [by apply Q0|].
  destruct (malloc_fresh s n Hn Hne) as (H0 & H1 & H2). apply Q1; [done..| |].
  - intros x Hx. rewrite alloc_bytes_lookup, decide_True; [eauto|]. by rewrite Z2Nat.id.
  - intros x Hx. rewrite alloc_bytes_lookup, decide_False; [done|]. by rewrite Z2Nat.id.
Qed.

Lemma aosl_malloc_wp `{!AllocatorOk} s n Q :
  0 <= n -> Q 0 s ->
  (forall a m', 0 < a -> a + n <= ADDR_END -> unused s a n ->
     (forall x, inside a n x -> is_Some (m' !! x)) -> (forall x, ~ inside a n x -> m' !! x = bytes s !! x) ->
     Q a (MkM m' (<[a := n]> (blocks s)) (psbs s) (errno s))) ->
  wp (aosl_malloc n) s Q.
Proof. intros Hn Q0. by apply aosl_malloc_cases_wp. Qed.

End Steps.

(** ** Streams *)

Lemma stream_app s A B :
  stream s (A ++ B) = (a ← stream s A; b ← stream s B; Some (a ++ b)).
Proof.
  induction A as [|p A IH]; cbn.
  - by destruct (stream s B).
  - rewrite IH. destruct (psb_bytes s p), (stream s A), (stream s B); cbn; try done. by rewrite (assoc_L (++)).
Qed.

Lemma stream_app_Some s A B a b : stream s A = Some a -> stream s B = Some b -> stream s (A ++ B) = Some (a ++ b).
Proof. intros HA HB. by rewrite stream_app, HA, HB. Qed.

Lemma psb_bytes_ok s W p : psbs_ok s W -> p ∈ W -> is_Some (psb_bytes s p).
Proof.
  intros Hok Hp. destruct (ok_each Hok p Hp) as (b & E & [H1 H2 H3 H4 H5]). unfold psb_bytes. rewrite E. cbn.
  destruct (mapped_at_bytes (bytes s) (b_data b) (Z.to_nat (b_len b))) as (l & Hl & Ha).
  { intros x Hx. apply H5. unfold buf_of, inside, room in *. lia. }
  exists l. by apply read_bytes_spec.
Qed.

Lemma stream_ok s W : psbs_ok s W -> forall W', (forall p, p ∈ W' -> p ∈ W) -> exists l, stream s W' = Some l.
Proof.
  intros Hok. induction W' as [|p W' IH]; intros Hin; [by exists []|].
  destruct (psb_bytes_ok s W p Hok) as [l1 E1]; [apply Hin; set_solver|].
  destruct IH as [l2 E2]; [set_solver|]. exists (l1 ++ l2). cbn. by rewrite E1, E2.
Qed.

Lemma psb_bytes_spec s p b l :
  psbs s !! p = Some b -> 0 <= b_len b ->
  psb_bytes s p = Some l <-> Z.of_nat (length l) = b_len b /\ at_bytes (bytes s) (b_data b) l.
Proof.
  intros E Hl. unfold psb_bytes. rewrite E. cbn. rewrite read_bytes_spec. split; intros [? ?]; split; (done || lia).
Qed.

Lemma psb_bytes_empty s p : psb_empty s p -> psb_bytes s p = Some [].
Proof. intros (b & E & Hb). unfold psb_bytes. rewrite E. cbn. by rewrite Hb. Qed.

Lemma stream_empty s W : (forall p, p ∈ W -> psb_empty s p) -> stream s W = Some [].
Proof.
  induction W as [|p W IH]; intros He; [done|]. cbn. rewrite psb_bytes_empty by (apply He; set_solver). cbn.
  rewrite IH by set_solver. done.
Qed.

(** Buffers that are not touched keep their bytes. *)
Lemma stream_frame s s' W :
  psbs_ok s W -> (forall p, p ∈ W -> psbs s' !! p = psbs s !! p) -> same_on (bufs s W) (bytes s) (bytes s') ->
  forall W', (forall p, p ∈ W' -> p ∈ W) -> stream s' W' = stream s W'.
Proof.
  intros Hok Hps Hs. induction W' as [|p W' IH]; intros Hin; [done|]. cbn. rewrite IH by set_solver.
  replace (psb_bytes s' p) with (psb_bytes s p); [done|].
  assert (p ∈ W) as Hp by (apply Hin; set_solver).
  destruct (ok_each Hok p Hp) as (b & E & Hb). destruct (psb_bytes_ok s W p Hok Hp) as [l El]. rewrite El. symmetry.
  destruct Hb as [H1 H2 H3 H4 H5]. apply (psb_bytes_spec s p b l E H2) in El as [L1 L2].
  apply (psb_bytes_spec s' p b l); [by rewrite Hps|done|]. split; [done|].
  eapply at_bytes_same; [done..|]. intros x Hx. exists p, b. split; [done|]. split; [done|].
  unfold buf_of, inside, room in *. lia.
Qed.

Lemma seg_app ps p A B q : seg ps p (A ++ B) q <-> exists r, seg ps p A r /\ seg ps r B q.
Proof.
  revert p. induction A as [|a A IH]; intros p; cbn.
  - split; [by eauto|]. by intros (r & -> & ?).
  - split.
    + intros (-> & H0 & b & E & Hs). apply IH in Hs as (r & H1 & H2). naive_solver.
    + intros (r & (-> & H0 & b & E & H1) & H2). split; [done|]. split; [done|]. exists b. split; [done|]. apply IH; eauto.
Qed.

Lemma seg_frame ps ps' p W q :
  (forall r b, r ∈ W -> ps !! r = Some b -> exists b', ps' !! r = Some b' /\ b_next b' = b_next b) ->
  seg ps p W q -> seg ps' p W q.
Proof.
  revert p. induction W as [|a W IH]; intros p Hf; [done|]. intros (-> & H0 & b & E & Hs). cbn.
  split; [done|]. split; [done|]. destruct (Hf a b) as (b' & E' & En); [set_solver|done|]. exists b'. split; [done|].
  rewrite En. apply IH; [|done]. intros; apply Hf; [set_solver|done].
Qed.

Lemma psbs_ok_sub s W W' : psbs_ok s W -> NoDup W' -> (forall p, p ∈ W' -> p ∈ W) -> psbs_ok s W'.
Proof.
  intros [H1 H2 H3] Hn Hin. split; [done| |].
  - intros p Hp. apply H2, Hin, Hp.
  - intros p q bp bq x Hp Hq. apply H3; by apply Hin.
Qed.

Lemma bufs_mapped s W : psbs_ok s W -> mapped (bytes s) (bufs s W).
Proof.
  intros Hok x (p & b & Hp & E & Hx). destruct (ok_each Hok p Hp) as (b' & E' & Hb). rewrite E in E'.
  injection E' as <-. by apply (ok_mapped Hb).
Qed.

Lemma psb_ok_mono m m' b : psb_ok m b -> (forall x, is_Some (m !! x) -> is_Some (m' !! x)) -> psb_ok m' b.
Proof. intros [H1 H2 H3 H4 H5] Hm. split; try done. by eapply mapped_same. Qed.

(** ** Writing to a chain

    [p] is the buffer being filled, [rest] the buffers behind it, which are
    empty and have room. *)
Record ready (s : mstate) (p : Z) (rest : list Z) : Prop := {
  rd_ok : psbs_ok s (p :: rest);
  rd_seg : seg (psbs s) p (p :: rest) 0;
  rd_rest : forall q, q ∈ rest -> psb_empty s q /\ psb_roomy s q
}.

(** From [s] to [s'] the bytes [l] were appended; the buffers [full] were
    filled up on the way, [p'] is the one being filled now. *)
Record filled (s : mstate) (p : Z) (rest : list Z) (l : list byte)
    (s' : mstate) (full : list Z) (p' : Z) (rest' : list Z) : Prop := {
  fl_seg : seg (psbs s') p (full ++ p' :: rest') 0;
  fl_head : seg (psbs s') p full p';
  fl_ok : psbs_ok s' (full ++ p' :: rest');
  fl_rest : forall q, q ∈ rest' -> psb_empty s' q /\ psb_roomy s' q;
  fl_full : forall q, q ∈ full -> psb_full s' q;
  fl_roomy : forall q, q ∈ full ++ [p'] -> q = p \/ psb_roomy s' q;
  fl_stream : forall l0, stream s [p] = Some l0 -> stream s' (full ++ [p']) = Some (l0 ++ l);
  fl_bytes : same_on (fun x => ~ bufs s (p :: rest) x) (bytes s) (bytes s');
  fl_mapped : forall x, is_Some (bytes s !! x) -> is_Some (bytes s' !! x);
  fl_psbs : forall q b, q ∉ p :: rest -> psbs s !! q = Some b -> psbs s' !! q = Some b;
  fl_shape : forall q b, psbs s !! q = Some b -> exists b', psbs s' !! q = Some b' /\
    b_data b' = b_data b /\ b_head b' = b_head b /\ b_size b' = b_size b;
  fl_new : forall q, q ∈ full ++ p' :: rest' -> q ∈ p :: rest \/ psbs s !! q = None;
  fl_bufs : forall x, bufs s' (full ++ p' :: rest') x -> bufs s (p :: rest) x \/ bytes s !! x = None;
  fl_blocks : blocks s ⊆ blocks s';
  fl_length : (length rest' <= length rest)%nat
}.

Arguments fl_seg {s p rest l s' full p' rest'}.
Arguments fl_head {s p rest l s' full p' rest'}.
Arguments fl_ok {s p rest l s' full p' rest'}.
Arguments fl_rest {s p rest l s' full p' rest'}.
Arguments fl_full {s p rest l s' full p' rest'}.
Arguments fl_roomy {s p rest l s' full p' rest'}.
Arguments fl_stream {s p rest l s' full p' rest'}.
Arguments fl_bytes {s p rest l s' full p' rest'}.
Arguments fl_mapped {s p rest l s' full p' rest'}.
Arguments fl_psbs {s p rest l s' full p' rest'}.
Arguments fl_shape {s p rest l s' full p' rest'}.
Arguments fl_new {s p rest l s' full p' rest'}.
Arguments fl_bufs {s p rest l s' full p' rest'}.
Arguments fl_blocks {s p rest l s' full p' rest'}.
Arguments fl_length {s p rest l s' full p' rest'}.

Definition extends s p rest l s' p' rest' : Prop := exists full, filled s p rest l s' full p' rest'.

Lemma filled_ready s p rest l s' full p' rest' : filled s p rest l s' full p' rest' -> ready s' p' rest'.
Proof.
  intros F. pose proof (fl_ok F) as Hok. split.
  - eapply psbs_ok_sub; [done| |set_solver]. pose proof (ok_nodup Hok) as Hn. by apply NoDup_app in Hn as (_ & _ & ?).
  - pose proof (fl_seg F) as Hs. apply seg_app in Hs as (r & _ & Hr).
    assert (r = p') as -> by (cbn in Hr; tauto). done.
  - apply (fl_rest F).
Qed.

Lemma extends_ready s p rest l s' p' rest' : extends s p rest l s' p' rest' -> ready s' p' rest'.
Proof. intros [full F]. by eapply filled_ready. Qed.

Lemma extends_refl s p rest : ready s p rest -> extends s p rest [] s p rest.
Proof.
  intros [H1 H2 H3]. exists []. split; cbn [app]; try done; try set_solver; try (intros; by left).
  - intros l0 E. by rewrite app_nil_r.
  - apply same_on_refl.
Qed.

(** Appending twice. *)
Section Trans.
Context (s : mstate) (p : Z) (rest : list Z) (l1 : list byte) (s1 : mstate) (full1 : list Z) (p1 : Z) (rest1 : list Z).
Context (l2 : list byte) (s2 : mstate) (full2 : list Z) (p2 : Z) (rest2 : list Z).
Context (F1 : filled s p rest l1 s1 full1 p1 rest1) (F2 : filled s1 p1 rest1 l2 s2 full2 p2 rest2).

Lemma full1_out q : q ∈ full1 -> q ∉ p1 :: rest1.
Proof. pose proof (ok_nodup (fl_ok F1)) as Hn. apply NoDup_app in Hn as (_ & Hn & _). apply Hn. Qed.

Lemma full1_keep q : q ∈ full1 -> exists b, psbs s1 !! q = Some b /\ psbs s2 !! q = Some b /\ psb_ok (bytes s1) b.
Proof.
  intros Hq. destruct (ok_each (fl_ok F1) q) as (b & E & Hb); [set_solver|]. exists b. split; [done|]. split; [|done].
  eapply (fl_psbs F2); [by apply full1_out|done].
Qed.

Lemma full1_apart x : bufs s1 full1 x -> ~ bufs s1 (p1 :: rest1) x.
Proof.
  intros (q & b & Hq & E & Hx) (q' & b' & Hq' & E' & Hx').
  eapply (ok_apart (fl_ok F1) q q' b b' x); [set_solver|set_solver| |done..]. intros ->. by apply (full1_out q').
Qed.

Lemma full1_ok : psbs_ok s1 full1.
Proof.
  eapply psbs_ok_sub; [apply (fl_ok F1)| |set_solver].
  pose proof (ok_nodup (fl_ok F1)) as Hn. by apply NoDup_app in Hn as (? & _ & _).
Qed.

Lemma full1_stream : stream s2 full1 = stream s1 full1.
Proof.
  eapply stream_frame; [exact full1_ok| | |done].
  - intros q Hq. destruct (full1_keep q Hq) as (b & -> & -> & _). done.
  - intros x b Hx. eapply (fl_bytes F2). by apply full1_apart.
Qed.

Lemma full1_seg q : seg (psbs s1) p full1 q -> seg (psbs s2) p full1 q.
Proof.
  apply seg_frame. intros r b Hr E. destruct (full1_keep r Hr) as (b' & E' & E2 & _). simplify_eq. eauto.
Qed.

Lemma full1_cross q1 q2 b1 b2 x :
  q1 ∈ full1 -> q2 ∈ full2 ++ p2 :: rest2 -> psbs s2 !! q1 = Some b1 -> psbs s2 !! q2 = Some b2 ->
  buf_of b1 x -> buf_of b2 x -> False.
Proof.
  intros H1 H2 E1 E2 Hx1 Hx2. destruct (full1_keep q1 H1) as (b1' & E1' & E1'' & _). simplify_eq.
  assert (bufs s1 full1 x) as Hb1 by (exists q1, b1; done).
  destruct (fl_bufs F2 x) as [Hb|Hnone]; [by exists q2, b2|by apply (full1_apart x)|].
  destruct (bufs_mapped _ _ full1_ok x Hb1) as [? ?]. congruence.
Qed.

Lemma filled_trans_ok : psbs_ok s2 (full1 ++ full2 ++ p2 :: rest2).
Proof.
  split.
  - apply NoDup_app. split; [apply (ok_nodup full1_ok)|]. split; [|apply (ok_nodup (fl_ok F2))]. intros q Hq Hq2.
    destruct (fl_new F2 q Hq2) as [Hin|Hnone]; [by apply (full1_out q)|].
    destruct (full1_keep q Hq) as (b & E & _). congruence.
  - intros q Hq. apply elem_of_app in Hq as [Hq|Hq]; [|by apply (ok_each (fl_ok F2))].
    destruct (full1_keep q Hq) as (b & E & E2 & Hb). exists b. split; [done|].
    eapply psb_ok_mono; [done|]. apply (fl_mapped F2).
  - intros q1 q2 b1 b2 x H1 H2 Hne E1 E2 Hx1 Hx2. apply elem_of_app in H1 as [H1|H1]; apply elem_of_app in H2 as [H2|H2].
    + destruct (full1_keep q1 H1) as (b1' & Ea & Eb & _), (full1_keep q2 H2) as (b2' & Ec & Ed & _). simplify_eq.
      by eapply (ok_apart full1_ok q1 q2).
    + by eapply (full1_cross q1 q2).
    + by eapply (full1_cross q2 q1).
    + by eapply (ok_apart (fl_ok F2) q1 q2).
Qed.

Lemma filled_trans_roomy q : q ∈ (full1 ++ full2) ++ [p2] -> q = p \/ psb_roomy s2 q.
Proof.
  assert (forall q, psb_roomy s1 q -> psb_roomy s2 q) as Hroomy.
  { intros r (b & E & Hr). destruct (fl_shape F2 r b E) as (b' & E' & S1 & S2 & S3). exists b'. split; [done|lia]. }
  intros Hq. rewrite <-(assoc_L (++)) in Hq. apply elem_of_app in Hq as [Hq|Hq].
  - destruct (fl_roomy F1 q) as [->|?]; [set_solver|by left|right; by apply Hroomy].
  - destruct (fl_roomy F2 q Hq) as [->|?]; [|by right].
    destruct (fl_roomy F1 p1) as [->|?]; [set_solver|by left|right; by apply Hroomy].
Qed.

Lemma filled_trans_stream l0 : stream s [p] = Some l0 -> stream s2 ((full1 ++ full2) ++ [p2]) = Some (l0 ++ l1 ++ l2).
Proof.
  intros E. apply (fl_stream F1) in E. rewrite stream_app in E.
  destruct (stream s1 full1) as [a|] eqn:Ea; [|done]. cbn [mbind option_bind] in E.
  destruct (stream s1 [p1]) as [c|] eqn:Ec; [|done]. cbn in E. injection E as E.
  rewrite <-(assoc_L (++)). erewrite stream_app_Some; [|by rewrite full1_stream|apply (fl_stream F2 _ Ec)].
  rewrite !(assoc_L (++)), E. done.
Qed.

Lemma filled_trans_new q : q ∈ (full1 ++ full2) ++ p2 :: rest2 -> q ∈ p :: rest \/ psbs s !! q = None.
Proof.
  intros Hq. assert (q ∈ full1 \/ q ∈ full2 ++ p2 :: rest2) as [Hq1|Hq2] by set_solver; [apply (fl_new F1); set_solver|].
  destruct (fl_new F2 q Hq2) as [Hin|Hnone]; [apply (fl_new F1); set_solver|].
  right. destruct (psbs s !! q) as [b|] eqn:E; [|done]. destruct (fl_shape F1 q b E) as (b' & E' & _). congruence.
Qed.

Lemma filled_trans_bufs x : bufs s2 ((full1 ++ full2) ++ p2 :: rest2) x -> bufs s (p :: rest) x \/ bytes s !! x = None.
Proof.
  intros (q & b & Hq & E & Hx). assert (q ∈ full1 \/ q ∈ full2 ++ p2 :: rest2) as [Hq1|Hq2] by set_solver.
  - destruct (full1_keep q Hq1) as (b' & E1 & E2 & _). simplify_eq. apply (fl_bufs F1).
    exists q, b. split; [set_solver|done].
  - destruct (fl_bufs F2 x) as [(q' & b' & Hq' & E' & Hx')|Hnone]; [by exists q, b| |].
    + apply (fl_bufs F1). exists q', b'. split; [set_solver|done].
    + right. destruct (bytes s !! x) eqn:Eb; [|done]. destruct (fl_mapped F1 x) as [? ?]; [by rewrite Eb|congruence].
Qed.

Lemma filled_trans : filled s p rest (l1 ++ l2) s2 (full1 ++ full2) p2 rest2.
Proof.
  split; auto using filled_trans_roomy, filled_trans_stream, filled_trans_new, filled_trans_bufs.
  - rewrite <-(assoc_L (++)). apply seg_app. exists p1. split; [apply full1_seg, (fl_head F1)|apply (fl_seg F2)].
  - apply seg_app. exists p1. split; [apply full1_seg, (fl_head F1)|apply (fl_head F2)].
  - rewrite <-(assoc_L (++)). apply filled_trans_ok.
  - apply (fl_rest F2).
  - intros q [Hq|Hq]%elem_of_app; [|by apply (fl_full F2)].
    destruct (fl_full F1 q Hq) as (b & E & Hr). destruct (full1_keep q Hq) as (b' & E' & E2 & _). simplify_eq. by exists b.
  - intros x b Hx Hb. apply (fl_bytes F1) in Hb as Hb1; [|done]. apply (fl_bytes F2); [|done].
    intros (q & b' & Hq & Hrest). destruct (fl_bufs F1 x) as [?|?]; [exists q, b'; split; [set_solver|done]|by apply Hx|congruence].
  - intros x Hx. by apply (fl_mapped F2), (fl_mapped F1).
  - intros q b Hq E. apply (fl_psbs F1) in E as E1; [|done]. apply (fl_psbs F2); [|done]. intros Hin.
    destruct (fl_new F1 q) as [?|?]; [set_solver|by apply Hq|congruence].
  - intros q b E. destruct (fl_shape F1 q b E) as (b1 & E1 & S1 & S2 & S3).
    destruct (fl_shape F2 q b1 E1) as (b2 & E2 & T1 & T2 & T3). exists b2. split; [done|]. split; [congruence|].
    split; congruence.
  - etransitivity; [apply (fl_blocks F1)|apply (fl_blocks F2)].
  - etransitivity; [apply (fl_length F2)|apply (fl_length F1)].
Qed.
End Trans.

Lemma extends_trans s p rest l1 s1 p1 rest1 l2 s2 p2 rest2 :
  extends s p rest l1 s1 p1 rest1 -> extends s1 p1 rest1 l2 s2 p2 rest2 -> extends s p rest (l1 ++ l2) s2 p2 rest2.
Proof. intros [f1 F1] [f2 F2]. exists (f1 ++ f2). by eapply filled_trans. Qed.

(** The state after [data] and [len] of [p] were changed and memory too. *)
Definition with_psb (p : Z) (b : ps_buff) (m : bytemap) (s : mstate) : mstate :=
  MkM m (blocks s) (<[p := b]> (psbs s)) (errno s).

Lemma with_psb_lookup p b m s q :
  psbs (with_psb p b m s) !! q = if decide (q = p) then Some b else psbs s !! q.
Proof.
  cbn. destruct (decide (q = p)) as [->|Hne]; [by rewrite lookup_insert_eq|by rewrite lookup_insert_ne].
Qed.

(** Changing the used part of one buffer keeps the others well formed. *)
Lemma with_psb_ok s p b W b' m' :
  psbs_ok s W -> psbs s !! p = Some b -> b_head b' = b_head b -> b_size b' = b_size b -> psb_ok m' b' ->
  (forall x, is_Some (bytes s !! x) -> is_Some (m' !! x)) -> psbs_ok (with_psb p b' m' s) W.
Proof.
  intros [H1 H2 H3] E Hh Hs Hb Hm. split; [done| |].
  - intros q Hq. rewrite with_psb_lookup. destruct (decide (q = p)) as [->|Hne]; [by exists b'|].
    destruct (H2 q Hq) as (c & Ec & Hc). exists c. split; [done|]. by eapply psb_ok_mono.
  - assert (forall q c, psbs (with_psb p b' m' s) !! q = Some c -> exists c', psbs s !! q = Some c' /\
              forall x, buf_of c x -> buf_of c' x) as Hbuf.
    { intros q c. rewrite with_psb_lookup. destruct (decide (q = p)) as [->|Hne]; [|by eauto].
      intros [= <-]. exists b. split; [done|]. unfold buf_of. by rewrite Hh, Hs. }
    intros q1 q2 b1 b2 x Hq1 Hq2 Hne E1 E2 Hx1 Hx2.
    destruct (Hbuf _ _ E1) as (c1 & C1 & D1), (Hbuf _ _ E2) as (c2 & C2 & D2).
    eapply (H3 q1 q2 c1 c2 x); auto.
Qed.

(** Buffers keep their place, so the same bytes of memory belong to them. *)
Lemma with_psb_bufs s p b W b' m' x :
  psbs s !! p = Some b -> b_head b' = b_head b -> b_size b' = b_size b ->
  bufs (with_psb p b' m' s) W x <-> bufs s W x.
Proof.
  intros E Hh Hs. split; intros (q & c & Hq & Ec & Hx).
  - rewrite with_psb_lookup in Ec. destruct (decide (q = p)) as [->|Hne].
    + injection Ec as <-. exists p, b. split; [done|]. split; [done|]. unfold buf_of in *. by rewrite <-Hh, <-Hs.
    + by exists q, c.
  - destruct (decide (q = p)) as [->|Hne].
    + rewrite E in Ec. injection Ec as <-. exists p, b'. split; [done|]. rewrite with_psb_lookup, decide_True by done.
      split; [done|]. unfold buf_of in *. by rewrite Hh, Hs.
    + exists q, c. split; [done|]. by rewrite with_psb_lookup, decide_False.
Qed.

Lemma with_psb_seg s p b b' m' r W q :
  psbs s !! p = Some b -> b_next b' = b_next b -> seg (psbs s) r W q -> seg (psbs (with_psb p b' m' s)) r W q.
Proof.
  intros E Hn. apply seg_frame. intros a c Ha Ec. rewrite with_psb_lookup.
  destruct (decide (a = p)) as [->|Hne]; [exists b'; split; [done|]; congruence|by exists c].
Qed.

(** Bytes put behind the data of the current buffer. *)
Lemma put_extends s p rest b l m' :
  ready s p rest -> psbs s !! p = Some b -> Z.of_nat (length l) <= room b ->
  at_bytes m' (b_data b + b_len b) l ->
  (forall x, ~ inside (b_data b + b_len b) (Z.of_nat (length l)) x -> m' !! x = bytes s !! x) ->
  extends s p rest l (with_psb p (upd_data_len (b_data b) (b_len b + Z.of_nat (length l)) b) m' s) p rest.
Proof.
  intros [Hok Hseg Hrest] E Hl Ha Ho. set (b' := upd_data_len _ _ _).
  destruct (ok_each Hok p) as (b0 & E0 & Hb); [set_solver|]. rewrite E in E0. injection E0 as <-.
  pose proof (ok_nodup Hok) as Hnd. apply NoDup_cons in Hnd as [Hp _].
  assert (forall x, is_Some (bytes s !! x) -> is_Some (m' !! x)) as Hm.
  { intros x Hx. destruct (decide (inside (b_data b + b_len b) (Z.of_nat (length l)) x)) as [Hi|Hi].
    - by apply (at_bytes_mapped _ _ _ Ha).
    - by rewrite Ho. }
  assert (psb_ok m' b') as Hb'.
  { destruct Hb as [B1 B2 B3 B4 B5]. split; cbn; try lia; [unfold room in *; cbn; lia|]. by eapply mapped_same. }
  exists []. split; cbn [app]; try done; try (intros q Hq; by left).
  - by eapply with_psb_seg.
  - by eapply with_psb_ok.
  - intros q Hq. destruct (Hrest q Hq) as [(c & Ec & Hc) (d & Ed & Hd)]. assert (q <> p) by (by intros ->).
    split; [exists c|exists d]; by rewrite with_psb_lookup, decide_False.
  - intros q Hq. by apply not_elem_of_nil in Hq.
  - intros q Hq. apply list_elem_of_singleton in Hq. by left.
  - intros l0. cbn [stream]. unfold psb_bytes at 1. rewrite E. cbn. intros El.
    destruct (read_bytes (bytes s) (b_data b) (Z.to_nat (b_len b))) as [l1|] eqn:Er; [|done]. cbn in El.
    rewrite app_nil_r in El. injection El as ->. apply read_bytes_spec in Er as [Er1 Er2].
    enough (psb_bytes (with_psb p b' m' s) p = Some (l0 ++ l)) as -> by (cbn; by rewrite app_nil_r).
    pose proof (ok_len Hb). eapply (psb_bytes_spec _ _ b'); [by rewrite with_psb_lookup, decide_True|cbn; lia|].
    rewrite length_app, at_bytes_app. cbn. split; [lia|]. rewrite Er1, Z2Nat.id by done. split; [|done].
    eapply (at_bytes_same (fun x => ~ inside (b_data b + b_len b) (Z.of_nat (length l)) x)); [done| |].
    + intros x c Hx Hc. by rewrite Ho.
    + intros x Hx. unfold inside in *. lia.
  - intros x c Hx Hc. cbn. rewrite Ho; [done|]. intros Hi. apply Hx. exists p, b. split; [set_solver|]. split; [done|].
    destruct Hb. unfold buf_of, inside, room in *. lia.
  - intros q c Hq Ec. rewrite with_psb_lookup, decide_False by set_solver. done.
  - intros q c Ec. rewrite with_psb_lookup. destruct (decide (q = p)) as [->|Hne]; [|by exists c].
    simplify_eq. by exists b'.
  - intros x Hx. left. by apply (with_psb_bufs _ _ _ _ _ _ _ E) in Hx.
Qed.

(** On to the next buffer of the chain, when the current one is full. *)
Lemma next_extends s p q rest b :
  ready s p (q :: rest) -> psbs s !! p = Some b -> room b = 0 -> b_next b = q /\ extends s p (q :: rest) [] s q rest.
Proof.
  intros [Hok Hseg Hrest] E Hr. destruct Hseg as (_ & Hp0 & b0 & E0 & Hseg). rewrite E in E0. injection E0 as <-.
  assert (b_next b = q) as Hq by (cbn in Hseg; tauto). split; [done|]. exists [p].
  split; cbn [app]; try done; try (intros x Hx; by left).
  - cbn. split; [done|]. split; [done|]. by exists b.
  - cbn. split; [done|]. split; [done|]. by exists b.
  - intros r Hr'. apply Hrest. set_solver.
  - intros r ->%list_elem_of_singleton. by exists b.
  - intros r Hr'. assert (r = p \/ r = q) as [->| ->] by set_solver; [by left|]. right. apply Hrest. set_solver.
  - intros l0 El. change [p; q] with ([p] ++ [q]).
    rewrite (stream_app_Some s [p] [q] l0 [] El); [done|]. apply stream_empty. intros r ->%list_elem_of_singleton.
    apply Hrest. set_solver.
  - apply same_on_refl.
  - intros r c Ec. by exists c.
  - cbn. lia.
Qed.

Lemma ready_last s p b : ready s p [] -> psbs s !! p = Some b -> b_next b = 0.
Proof. intros [_ (_ & _ & b0 & E & Hn) _] E'. rewrite E' in E. injection E as <-. done. Qed.

Lemma ready_next s p q rest b : ready s p (q :: rest) -> psbs s !! p = Some b -> b_next b = q /\ q <> 0.
Proof. intros [_ (_ & _ & b0 & E & Hn) _] E'. rewrite E' in E. injection E as <-. cbn in Hn. tauto. Qed.

Section Alloc.
Context `{AL : Allocator} `{OK : !AllocatorOk}.

Lemma alloc_psb_wp s n Q :
  0 < n <= MAX_SPB_SIZE -> (forall s', Q (- AOSL_ENOMEM) s') ->
  (forall q h m', 0 < q -> psbs s !! q = None -> blocks s !! q = None -> 0 < h -> h + n <= ADDR_END ->
     (<[q := sizeof_ps_buff]> (blocks s)) !! h = None ->
     (forall x, inside h n x -> bytes s !! x = None) ->
     mapped m' (inside h n) -> (forall x, ~ inside h n x -> m' !! x = bytes s !! x) ->
     Q q (MkM m' (<[h := n]> (<[q := sizeof_ps_buff]> (blocks s))) (<[q := MkPsb h 0 0 h n 0]> (psbs s)) (errno s))) ->
  wp (alloc_psb n) s Q.
Proof.
  intros Hn Q0 Q1. unfold alloc_psb. destruct (Z.ltb_spec MAX_SPB_SIZE n) as [?|_]; [lia|].
  apply wp_bind. unfold wp at 1, malloc_psb. destruct (Z.eqb_spec (malloc_addr s sizeof_ps_buff) 0) as [E0|Hne].
  { cbn. by apply wp_ret. }
  destruct (malloc_fresh s sizeof_ps_buff ltac:(unfold sizeof_ps_buff; lia) Hne) as (U0 & U1 & U2 & U3 & U4).
  set (q := malloc_addr s sizeof_ps_buff) in *. destruct (Z.eqb_spec q 0) as [?|_]; [lia|].
  destruct (Z.ltb_spec 0 n) as [_|?]; [|lia]. set (s1 := MkM _ _ _ _).
  apply wp_bind, aosl_malloc_wp; [lia| |].
  - rewrite Z.eqb_refl. apply wp_bind. unfold wp at 1, aosl_free. destruct (Z.eqb_spec q 0) as [?|_]; [lia|].
    cbn. rewrite lookup_insert_eq. by apply wp_ret.
  - intros h m' H0 H1 (V1 & V2 & V3) Hm Ho. destruct (Z.eqb_spec h 0) as [?|_]; [lia|].
    apply wp_bind. eapply set_psb_wp; [cbn; by rewrite lookup_insert_eq|]. apply wp_ret. unfold upd_psbs; cbn.
    rewrite insert_insert_eq. by apply Q1.
Qed.

(** A new buffer at the end of the chain, when the current one is full. *)
Lemma new_extends s p b q h n m' :
  ready s p [] -> psbs s !! p = Some b -> room b = 0 ->
  0 < q -> psbs s !! q = None -> blocks s !! q = None -> 0 < h -> 0 < n < 2 ^ 31 ->
  (<[q := sizeof_ps_buff]> (blocks s)) !! h = None -> (forall x, inside h n x -> bytes s !! x = None) ->
  mapped m' (inside h n) -> (forall x, ~ inside h n x -> m' !! x = bytes s !! x) ->
  extends s p [] [] (MkM m' (<[h := n]> (<[q := sizeof_ps_buff]> (blocks s)))
    (<[p := upd_next q b]> (<[q := MkPsb h 0 0 h n 0]> (psbs s))) (errno s)) q [].
Proof.
  intros Hrd E Hr Hq Eq Bq Hh Hn Bh Hfree Hm Ho. destruct Hrd as [Hok Hseg _].
  assert (q <> p) as Hne by congruence. set (nb := MkPsb h 0 0 h n 0). set (s' := MkM _ _ _ _).
  assert (psbs s' !! p = Some (upd_next q b)) as Ep by (cbn; by rewrite lookup_insert_eq).
  assert (psbs s' !! q = Some nb) as Enq by (cbn; by rewrite lookup_insert_ne, lookup_insert_eq).
  destruct (ok_each Hok p) as (b0 & E0 & Hb); [set_solver|]. rewrite E in E0. injection E0 as <-.
  assert (p <> 0) as Hp0 by (cbn in Hseg; tauto).
  assert (forall x, is_Some (bytes s !! x) -> is_Some (bytes s' !! x)) as Hmap.
  { intros x Hx. cbn. destruct (decide (inside h n x)) as [Hi|Hi]; [by apply Hm|by rewrite Ho]. }
  assert (forall x y, bytes s !! x = Some y -> bytes s' !! x = Some y) as Hsame.
  { intros x y Hx. cbn. rewrite Ho; [done|]. intros Hi. rewrite Hfree in Hx by done. done. }
  assert (psb_ok (bytes s') (upd_next q b)) as Hpb.
  { destruct Hb as [B1 B2 B3 B4 B5]. split; try done. by eapply mapped_same. }
  assert (psb_ok (bytes s') nb) as Hnb by (split; unfold room; cbn; try lia; done).
  assert (forall x, buf_of b x -> buf_of nb x -> False) as Hap.
  { intros x Hx Hx'. destruct (ok_mapped Hb x Hx) as [y Hy]. rewrite Hfree in Hy by done. done. }
  exists [p]. split; cbn [app].
  - cbn [seg]. split; [done|]. split; [done|]. eexists; split; [done|]. cbn. split; [done|]. split; [lia|]. by exists nb.
  - cbn [seg]. split; [done|]. split; [done|]. by eexists.
  - split.
    + apply NoDup_cons. split; [set_solver|apply NoDup_singleton].
    + intros r Hr'. assert (r = p \/ r = q) as [->| ->] by set_solver; eauto.
    + intros r1 r2 b1 b2 x H1 H2 Hne' E1 E2. assert (r1 = p \/ r1 = q) as [->| ->] by set_solver;
        assert (r2 = p \/ r2 = q) as [->| ->] by set_solver; simplify_eq; intros; by eapply (Hap x).
  - intros r Hr'. by apply not_elem_of_nil in Hr'.
  - intros r ->%list_elem_of_singleton. by eexists.
  - intros r Hr'. assert (r = p \/ r = q) as [->| ->] by set_solver; [by left|]. right. exists nb. split; [done|cbn; lia].
  - intros l0 El. rewrite app_nil_r. change [p; q] with ([p] ++ [q]). rewrite <-(app_nil_r l0).
    apply stream_app_Some; [|apply stream_empty; intros r ->%list_elem_of_singleton; by exists nb].
    cbn in El |- *. unfold psb_bytes in El |- *. rewrite Ep. rewrite E in El. cbn in El |- *.
    destruct (read_bytes (bytes s) (b_data b) (Z.to_nat (b_len b))) as [l1|] eqn:Er; [|done].
    apply read_bytes_spec in Er as [<- Er]. rewrite read_bytes_at; [done|].
    eapply (at_bytes_same (fun _ => True)); [done| |done]. intros x y _. apply Hsame.
  - intros x y _. apply Hsame.
  - done.
  - intros r c Hr' Ec. cbn. rewrite lookup_insert_ne by set_solver. rewrite lookup_insert_ne; [done|congruence].
  - intros r c Ec. destruct (decide (r = p)) as [->|?]; [simplify_eq; by eexists|]. exists c.
    cbn. rewrite lookup_insert_ne, lookup_insert_ne by congruence. done.
  - intros r Hr'. assert (r = p \/ r = q) as [->| ->] by set_solver; [left; set_solver|by right].
  - intros x (r & c & Hr' & Ec & Hx). assert (r = p \/ r = q) as [->| ->] by set_solver; simplify_eq.
    + left. exists p, b. split; [set_solver|done].
    + right. by apply Hfree.
  - cbn. etransitivity; [apply (insert_subseteq _ q sizeof_ps_buff Bq)|by apply insert_subseteq].
  - done.
Qed.

End Alloc.
