(* ===== verification/PsbSpec.v ===== *)
(** * The theorems on packet buffers *)
From S2P Require Import Prelude Bytes Psb PsbProps.
#[local] Open Scope aosl_scope.

(** ** Sequences of operations on one buffer *)

Inductive psb_op := OpReserve (n : Z) | OpPut (n : Z) | OpGet (n : Z) | OpPeek (n : Z) | OpPush (n : Z) | OpPull (n : Z).

Definition op_len (o : psb_op) : Z :=
  match o with OpReserve n | OpPut n | OpGet n | OpPeek n | OpPush n | OpPull n => n end.

Definition run_op (p : Z) (o : psb_op) : CM mstate Z :=
  match o with
  | OpReserve n => psb_reserve p n
  | OpPut n => psb_put p n
  | OpGet n => psb_get p n
  | OpPeek n => psb_peek p n
  | OpPush n => psb_push p n
  | OpPull n => psb_pull p n
  end.

Fixpoint run_ops (p : Z) (l : list psb_op) : CM mstate (list Z) :=
  match l with
  | [] => cret []
  | o :: l => do r <- run_op p o; do rs <- run_ops p l; cret (r :: rs)
  end.

(** What the operations mean on the window [lo, hi) of used bytes in a buffer
    of [size] bytes: the result is an offset or an error. *)
Definition window_op (size : Z) (o : psb_op) (w : Z * Z) : Z * (Z * Z) :=
  let '(lo, hi) := w in
  match o with
  | OpReserve n =>
    if negb (lo =? hi) then (- AOSL_EPERM, w) else if n <=? size - lo then (0, (lo + n, hi + n)) else (- AOSL_ENOSPC, w)
  | OpPut n => if n <=? size - hi then (hi, (lo, hi + n)) else (- AOSL_ENOSPC, w)
  | OpGet n => if n <=? hi - lo then (lo, (lo + n, hi)) else (- AOSL_ENOSPC, w)
  | OpPeek n => if n <=? hi - lo then (lo, w) else (- AOSL_ENOSPC, w)
  | OpPush n => if n <=? lo then (lo - n, (lo - n, hi)) else (- AOSL_ENOSPC, w)
  | OpPull n => if n <=? hi - lo then (lo + n, (lo + n, hi)) else (- AOSL_ENOSPC, w)
  end.

Fixpoint window_ops (size : Z) (l : list psb_op) (w : Z * Z) : list Z * (Z * Z) :=
  match l with
  | [] => ([], w)
  | o :: l => let '(r, w) := window_op size o w in let '(rs, w) := window_ops size l w in (r :: rs, w)
  end.

(** A result of the window as a result of the code: [psb_reserve] gives 0, the
    others an address. *)
Definition op_result (head : Z) (o : psb_op) (r : Z) : Z :=
  match o with OpReserve _ => r | _ => if r <? 0 then r else head + r end.

Definition window_psb (b : ps_buff) (w : Z * Z) : ps_buff := upd_data_len (b_head b + w.1) (w.2 - w.1) b.

Lemma psb_window m b : psb_ok m b -> exists lo hi, 0 <= lo <= hi /\ hi <= b_size b /\ b = window_psb b (lo, hi).
Proof.
  intros [H1 H2 H3 H4 _]. exists (b_data b - b_head b), (b_data b - b_head b + b_len b). unfold room in H3.
  split; [lia|]. split; [lia|]. destruct b; unfold window_psb, upd_data_len; cbn in *. f_equal; lia.
Qed.


(** Before an operation the buffer is the window [w], after it [w']. *)
Definition set_window (p : Z) (b : ps_buff) (w : Z * Z) (s : mstate) : mstate := upd_psbs <[p := window_psb b w]> s.

Lemma get_window p b w s : get_psb p (set_window p b w s) = Ret (window_psb b w, set_window p b w s).
Proof. unfold get_psb, set_window, upd_psbs. cbn. by rewrite lookup_insert_eq. Qed.

Lemma set_window_eq p b w w' s b' :
  b' = window_psb b w' -> set_psb p b' (set_window p b w s) = Ret (tt, set_window p b w' s).
Proof. intros ->. unfold set_psb, set_window, upd_psbs. cbn. by rewrite lookup_insert_eq, insert_insert_eq. Qed.

Lemma run_op_window p b lo hi s o :
  0 <= lo <= hi -> hi <= b_size b < 2 ^ 31 -> 0 <= op_len o < 2 ^ 31 ->
  let '(r, w') := window_op (b_size b) o (lo, hi) in
  run_op p o (set_window p b (lo, hi) s) = Ret (op_result (b_head b) o r, set_window p b w' s) /\
  0 <= w'.1 <= w'.2 /\ w'.2 <= b_size b.
Proof.
  intros H1 H2 H3. destruct o as [n|n|n|n|n|n]; cbn [op_len] in H3; cbn [window_op run_op];
    unfold psb_reserve, psb_put, psb_get, psb_peek, psb_push, psb_pull;
    unfold cbind at 1; rewrite get_window; cbn [b_data b_len b_head b_size window_psb upd_data_len fst snd];
    rewrite ?(wrapu_id 32) by lia; rewrite ?wraps_id by lia; rewrite ?(wrapu_id 64) by lia.
  - destruct (Z.eqb_spec lo hi) as [->|Hne]; cbn [negb].
    + rewrite Z.sub_diag, Z.ltb_irrefl. replace (b_size b - (b_head b + hi - b_head b)) with (b_size b - hi) by lia.
      destruct (Z.leb_spec n (b_size b - hi)); [|split; [done|cbn; lia]]. unfold cbind.
      erewrite set_window_eq; [split; [done|cbn; lia]|]. unfold window_psb, upd_data_len; cbn; f_equal; lia.
    + destruct (Z.ltb_spec 0 (hi - lo)); [|lia]. split; [done|cbn; lia].
  - replace (b_head b + lo + (hi - lo) + n <=? b_head b + b_size b) with (n <=? b_size b - hi).
    2: { destruct (Z.leb_spec n (b_size b - hi)), (Z.leb_spec (b_head b + lo + (hi - lo) + n) (b_head b + b_size b)); lia || done. }
    destruct (Z.leb_spec n (b_size b - hi)); [|split; [done|cbn; lia]]. unfold cbind.
    erewrite (set_window_eq p b _ (lo, hi + n)); [|unfold window_psb, upd_data_len; cbn; f_equal; lia].
    cbn [op_result]. destruct (Z.ltb_spec hi 0); [lia|]. split; [unfold cret; do 2 f_equal; lia|cbn; lia].
  - destruct (Z.leb_spec n (hi - lo)); [|split; [done|cbn; lia]]. unfold cbind.
    erewrite (set_window_eq p b _ (lo + n, hi)); [|unfold window_psb, upd_data_len; cbn; f_equal; lia].
    cbn [op_result]. destruct (Z.ltb_spec lo 0); [lia|]. split; [done|cbn; lia].
  - destruct (Z.leb_spec n (hi - lo)); [|split; [done|cbn; lia]].
    cbn [op_result]. destruct (Z.ltb_spec lo 0); [lia|]. split; [done|cbn; lia].
  - replace (b_head b + lo - b_head b) with lo by lia. destruct (Z.leb_spec n lo), (Z.ltb_spec lo n); try lia.
    + unfold cbind. erewrite (set_window_eq p b _ (lo - n, hi)); [|unfold window_psb, upd_data_len; cbn; f_equal; lia].
      cbn [op_result]. destruct (Z.ltb_spec (lo - n) 0); [lia|]. split; [unfold cret; do 2 f_equal; lia|cbn; lia].
    + split; [done|cbn; lia].
  - destruct (Z.leb_spec n (hi - lo)), (Z.ltb_spec (hi - lo) n); try lia.
    + unfold cbind. erewrite (set_window_eq p b _ (lo + n, hi)); [|unfold window_psb, upd_data_len; cbn; f_equal; lia].
      cbn [op_result]. destruct (Z.ltb_spec (lo + n) 0); [lia|]. split; [unfold cret; do 2 f_equal; lia|cbn; lia].
    + split; [done|cbn; lia].
Qed.

Lemma run_ops_window p b s l : forall lo hi,
  0 <= lo <= hi -> hi <= b_size b < 2 ^ 31 -> (forall o, o ∈ l -> 0 <= op_len o < 2 ^ 31) ->
  let '(rs, w') := window_ops (b_size b) l (lo, hi) in
  run_ops p l (set_window p b (lo, hi) s) = Ret (zip_with (op_result (b_head b)) l rs, set_window p b w' s) /\
  0 <= w'.1 <= w'.2 /\ w'.2 <= b_size b.
Proof.
  induction l as [|o l IH]; intros lo hi H1 H2 H3; [cbn; split; [done|lia]|]. cbn [window_ops run_ops].
  pose proof (run_op_window p b lo hi s o H1 H2 (H3 o ltac:(set_solver))) as Ho.
  destruct (window_op (b_size b) o (lo, hi)) as [r [lo' hi']]. destruct Ho as (E & W1 & W2). cbn in W1, W2.
  specialize (IH lo' hi' W1 ltac:(lia) ltac:(intros; apply H3; set_solver)).
  destruct (window_ops (b_size b) l (lo', hi')) as [rs w]. destruct IH as (E' & W). unfold cbind. rewrite E, E'. done.
Qed.

(** C33: a packet buffer is a window on its memory, for lengths below 2^31.  Every sequence
    of [psb_reserve], [psb_put], [psb_get], [psb_peek], [psb_push] and [psb_pull]
    with such lengths on a well-formed buffer returns what the same
    sequence does on the pair of offsets of the used part, errors included, and
    the used part stays inside the buffer; no operation touches memory or another
    buffer.  (A length of 2^31 or more is negative as an [int]: see
    [psb_push_negative_length].) *)
Theorem psb_ops_window p b s l :
  psbs s !! p = Some b -> psb_ok (bytes s) b -> (forall o, o ∈ l -> 0 <= op_len o < 2 ^ 31) ->
  exists lo hi, b = window_psb b (lo, hi) /\
  let '(rs, w') := window_ops (b_size b) l (lo, hi) in
  run_ops p l s = Ret (zip_with (op_result (b_head b)) l rs, upd_psbs <[p := window_psb b w']> s) /\
  psb_ok (bytes s) (window_psb b w').
Proof.
  intros E Hb Hl. destruct (psb_window _ _ Hb) as (lo & hi & H1 & H2 & Hw). exists lo, hi. split; [done|].
  pose proof (run_ops_window p b s l lo hi H1 (conj H2 (ok_size Hb)) Hl) as H.
  destruct (window_ops (b_size b) l (lo, hi)) as [rs [lo' hi']]. destruct H as (Er & W1 & W2). cbn in W1, W2.
  replace s with (set_window p b (lo, hi) s) at 1.
  - split; [exact Er|]. destruct Hb as [B1 B2 B3 B4 B5]. split; unfold room; cbn; try lia. exact B5.
  - unfold set_window, upd_psbs. rewrite <-Hw, insert_id by done. by destruct s.
Qed.

Definition window_state : mstate := MkM (alloc_bytes ∅ 512 16 (fun _ => NUL)) ∅ {[64 := MkPsb 512 0 0 512 16 0]} 0.

Lemma psb_ops_window_witness :
  exists lo hi, MkPsb 512 0 0 512 16 0 = window_psb (MkPsb 512 0 0 512 16 0) (lo, hi) /\
  let '(rs, w') := window_ops 16 [OpReserve 4; OpPut 10; OpGet 3; OpPush 5; OpPut 3; OpPull 9] (lo, hi) in
  run_ops 64 [OpReserve 4; OpPut 10; OpGet 3; OpPush 5; OpPut 3; OpPull 9] window_state =
    Ret (zip_with (op_result 512) [OpReserve 4; OpPut 10; OpGet 3; OpPush 5; OpPut 3; OpPull 9] rs,
         upd_psbs <[64 := window_psb (MkPsb 512 0 0 512 16 0) w']> window_state) /\
  psb_ok (bytes window_state) (window_psb (MkPsb 512 0 0 512 16 0) w').
Proof.
  apply (psb_ops_window 64 (MkPsb 512 0 0 512 16 0) window_state [OpReserve 4; OpPut 10; OpGet 3; OpPush 5; OpPut 3; OpPull 9]).
  - reflexivity.
  - split; try (unfold room; cbn; lia). intros x Hx. unfold window_state, bytes.
    rewrite alloc_bytes_lookup, decide_True; [eauto|exact Hx].
  - intros o Ho. rewrite !elem_of_cons in Ho. destruct Ho as [->|[->|[->|[->|[->|[->|Ho]]]]]]; cbn; try lia.
    by apply not_elem_of_nil in Ho.
Defined.

(** A length of 2^31 or more is negative as an [int]: [psb_push] then moves
    [data] in front of the buffer. *)
Lemma psb_push_negative_length p b s n :
  psbs s !! p = Some b -> b_head b <= b_data b -> 2 ^ 31 <= n < 2 ^ 32 ->
  psb_push p n s = Ret (b_data b - n, upd_psbs <[p := upd_data_len (b_data b - n) (b_len b + n) b]> s).
Proof.
  intros E Hh Hn. unfold psb_push, cbind, get_psb, set_psb. rewrite E. rewrite (wrapu_id 32) by lia.
  replace (s32 n) with (n - 2 ^ 32); [|unfold wraps; rewrite <-(Z.mod_unique (n + 2 ^ (32 - 1)) (2 ^ 32) 1 (n - 2 ^ 31)); lia].
  destruct (Z.ltb_spec (b_data b - b_head b) (n - 2 ^ 32)); [lia|]. by rewrite E.
Qed.

(** ** The chain *)

Lemma total_len_wp W : forall fuel s p l total,
  seg (psbs s) p W 0 -> psbs_ok s W -> stream s W = Some l -> 0 <= total -> total + Z.of_nat (length l) < 2 ^ 64 ->
  (length W <= fuel)%nat -> aosl_psb_total_len fuel p total s = Ret (total + Z.of_nat (length l), s).
Proof.
  induction W as [|q W IH]; intros fuel s p l total Hseg Hok Hl Ht H64 Hf.
  - cbn in Hseg, Hl. subst p. injection Hl as <-. destruct fuel; cbn; by rewrite Z.add_0_r.
  - destruct Hseg as (-> & Hq0 & b & E & Hseg). destruct fuel as [|fuel]; [cbn in Hf; lia|].
    cbn [aosl_psb_total_len]. destruct (Z.eqb_spec q 0); [done|]. unfold cbind, get_psb. rewrite E.
    cbn [stream] in Hl. destruct (psb_bytes s q) as [l1|] eqn:E1; [|done]. destruct (stream s W) as [l2|] eqn:E2; [|done].
    cbn in Hl. injection Hl as <-. rewrite length_app in *.
    destruct (ok_each Hok q) as (b' & E' & Hb); [set_solver|]. rewrite E in E'. injection E' as <-.
    apply (psb_bytes_spec s q b l1 E (ok_len Hb)) in E1 as [L1 _]. rewrite wrapu_id by lia.
    rewrite (IH fuel s (b_next b) l2); [do 2 f_equal; lia|done| |done|lia|lia|cbn in Hf; lia].
    eapply psbs_ok_sub; [done| |set_solver]. pose proof (ok_nodup Hok) as Hnd. by apply NoDup_cons in Hnd as [_ ?].
Qed.

(** [aosl_psb_total_len] is the length of the stream a chain holds, and
    changes nothing. *)
Theorem psb_total_len_stream s p W l :
  seg (psbs s) p W 0 -> psbs_ok s W -> stream s W = Some l -> Z.of_nat (length l) < 2 ^ 64 ->
  aosl_psb_total_len (length W) p 0 s = Ret (Z.of_nat (length l), s).
Proof. intros H1 H2 H3 H4. exact (total_len_wp W (length W) s p l 0 H1 H2 H3 ltac:(lia) H4 ltac:(lia)). Qed.

(** A chain of two buffers with 3 and 2 bytes in use. *)
Definition chain_state : mstate :=
  MkM (alloc_bytes (alloc_bytes ∅ 512 8 (fun _ => NUL)) 544 8 (fun _ => NUL)) ∅
    (<[64 := MkPsb 512 3 128 512 8 0]> {[128 := MkPsb 545 2 0 544 8 0]}) 0.

Lemma psb_total_len_stream_witness :
  aosl_psb_total_len 2 64 0 chain_state = Ret (5, chain_state).
Proof.
  apply (psb_total_len_stream chain_state 64 [64; 128] (repeat NUL 5)).
  - cbn. split; [done|]. split; [lia|]. eexists. split; [reflexivity|]. cbn. split; [done|]. split; [lia|].
    eexists. split; reflexivity.
  - split.
    + repeat (apply NoDup_cons; split; [set_solver|]). constructor.
    + intros p Hp. rewrite !elem_of_cons in Hp. destruct Hp as [->|[->|Hp]]; [| |by apply not_elem_of_nil in Hp];
        eexists; (split; [reflexivity|]); (split; try (unfold room; cbn; lia)); intros x Hx; unfold buf_of in Hx; cbn in Hx;
        unfold chain_state, bytes; rewrite !alloc_bytes_lookup; repeat case_decide; eauto; exfalso; unfold inside in *; lia.
    + intros p q bp bq x Hp Hq Hn Ep Eq Hx Hy. rewrite !elem_of_cons in Hp, Hq.
      destruct Hp as [->|[->|Hp]]; [| |by apply not_elem_of_nil in Hp]; (destruct Hq as [->|[->|Hq]]; [| |by apply not_elem_of_nil in Hq]);
        try done; vm_compute in Ep, Eq; injection Ep as <-; injection Eq as <-; unfold buf_of, inside in *; cbn in *; lia.
  - reflexivity.
  - cbn. lia.
Defined.
