(* ===== verification/Marshal.v ===== *)
(** * Marshalling: [lib/marshalling.c]

    [aosl_marshal] walks an object in memory along a description of its type
    and appends its encoding to a chain of packet buffers; [aosl_unmarshal]
    reads it back into another object and allocates what pointers, strings and
    dynamic arrays need; [aosl_init_typed_obj] and [aosl_fini_typed_obj] set up
    and release such an object.

    Type descriptions live in a table [T] keyed by address, so that they can
    share parts and be recursive, as the C structures can; [type++] is an
    addition of [sizeof (aosl_type_info_t)].  Objects live in byte memory.  The
    machine is little endian with 64-bit pointers. *)
From S2P Require Import Prelude Bytes Psb.
#[local] Open Scope aosl_scope.

(** ** Types *)

(** [aosl_type_id]; a C [enum] may also hold a number that is none of these. *)
Inductive aosl_type_id :=
| AOSL_TYPE_VOID
| AOSL_TYPE_INT8
| AOSL_TYPE_INT16
| AOSL_TYPE_INT32
| AOSL_TYPE_INT64
| AOSL_TYPE_FLOAT
| AOSL_TYPE_DOUBLE
| AOSL_TYPE_V4_IPADDR
| AOSL_TYPE_V6_IPADDR
| AOSL_TYPE_POINTER
| AOSL_TYPE_REFERENCE
| AOSL_TYPE_STRING
| AOSL_TYPE_STRUCT
| AOSL_TYPE_FIXED_BYTES
| AOSL_TYPE_VAR_BYTES
| AOSL_TYPE_BYTES_WITH_NIL
| AOSL_TYPE_DYNAMIC_BYTES
| AOSL_TYPE_DYNAMIC_STRING
| AOSL_TYPE_FIXED_ARRAY
| AOSL_TYPE_VAR_ARRAY
| AOSL_TYPE_DYNAMIC_ARRAY
| AOSL_TYPE_OTHER (n : Z).

#[global] Instance aosl_type_id_eq_dec : EqDecision aosl_type_id.
Proof. solve_decision. Defined.

(** [aosl_type_info_t].  [is_have] is a function of the application that looks
    at the object. *)
Record aosl_type_info_t := MkType {
  type_id : aosl_type_id;
  obj_size : Z;
  array_size : Z;
  count_var_addr : Z;
  obj_addr : Z;
  is_have : option (bytemap -> Z -> bool);
  child : Z
}.

Definition sizeof_type_info : Z := 48.
Definition sizeof_in_addr : nat := 4.
Definition sizeof_in6_addr : nat := 16.
Definition sizeof_pointer : nat := 8.
(** [aosl_dynamic_array_t]: [count], [allocated], padding, [values]. *)
Definition sizeof_dynamic_array : nat := 16.

(** ** Integers in memory and on the wire *)

Definition load16 (a : Z) : CM mstate Z := do l <- load a 2; cret (le_combine l).
Definition store16 (a v : Z) : CM mstate unit := store a (le_split 2 v).
Definition load_ptr (a : Z) : CM mstate Z := do l <- load a sizeof_pointer; cret (le_combine l).
Definition store_ptr (a v : Z) : CM mstate unit := store a (le_split sizeof_pointer v).

Definition __encode_int8 (v : Z) : Z := v.
Definition __encode_int16 (v : Z) : Z := u16 v.
Definition __encode_int32 (v : Z) : Z := u32 v.
Definition __encode_int64 (v : Z) : Z := u64 v.
Definition __encode_ipv4 (v : Z) : Z := v.
Definition __encode_ipv6 (v : Z) : Z := v.
Definition __decode_int8 (v : Z) : Z := v.
Definition __decode_int16 (v : Z) : Z := u16 v.
Definition __decode_int32 (v : Z) : Z := u32 v.
Definition __decode_int64 (v : Z) : Z := u64 v.
Definition __decode_ipv4 (v : Z) : Z := v.
Definition __decode_ipv6 (v : Z) : Z := v.

Section Marshal.
Context `{AL : Allocator}.

(** The type descriptions of the program. *)
Variable T : gmap Z aosl_type_info_t.

(** [helper_type] is a local variable whose [is_have] is never set: whether the
    stack happens to hold something else than NULL there, for a call with this
    type and object. *)
Variable stack_is_have : Z -> Z -> bool.

Definition get_type (t : Z) : CM mstate aosl_type_info_t := fun s =>
  match T !! t with Some ti => Ret (ti, s) | None => Fault end.

(** [get_type_size]: the size, or [None] for [-AOSL_EINVAL]. *)
Fixpoint get_type_size (fuel : nat) (t : Z) : res (option Z) :=
  match fuel with
  | O => NoFuel
  | S fuel =>
    match T !! t with
    | None => Fault
    | Some ti =>
      match type_id ti with
      | AOSL_TYPE_VOID => Ret (Some 0)
      | AOSL_TYPE_INT8 => Ret (Some 1)
      | AOSL_TYPE_INT16 => Ret (Some 2)
      | AOSL_TYPE_INT32 => Ret (Some 4)
      | AOSL_TYPE_INT64 => Ret (Some 8)
      | AOSL_TYPE_V4_IPADDR => Ret (Some (Z.of_nat sizeof_in_addr))
      | AOSL_TYPE_V6_IPADDR => Ret (Some (Z.of_nat sizeof_in6_addr))
      | AOSL_TYPE_FLOAT => Ret (Some 4)
      | AOSL_TYPE_DOUBLE => Ret (Some 8)
      | AOSL_TYPE_POINTER => Ret (Some (Z.of_nat sizeof_pointer))
      | AOSL_TYPE_REFERENCE => get_type_size fuel (child ti)
      | AOSL_TYPE_STRING => Ret (Some (Z.of_nat sizeof_pointer))
      | AOSL_TYPE_STRUCT => Ret (Some (obj_size ti))
      | AOSL_TYPE_FIXED_BYTES => Ret (Some (array_size ti))
      | AOSL_TYPE_VAR_BYTES => Ret (Some (array_size ti))
      | AOSL_TYPE_BYTES_WITH_NIL => Ret (Some (array_size ti))
      | AOSL_TYPE_DYNAMIC_BYTES => Ret (Some (Z.of_nat sizeof_dynamic_array))
      | AOSL_TYPE_DYNAMIC_STRING => Ret (Some (Z.of_nat sizeof_dynamic_array))
      | AOSL_TYPE_FIXED_ARRAY | AOSL_TYPE_VAR_ARRAY =>
        match get_type_size fuel (child ti) with
        | Ret (Some n) => Ret (Some (u64 (n * array_size ti)))
        | r => r
        end
      | AOSL_TYPE_DYNAMIC_ARRAY => Ret (Some (Z.of_nat sizeof_dynamic_array))
      | AOSL_TYPE_OTHER _ => Ret None
      end
    end
  end.

(** [strlen]. *)
Fixpoint strlen (fuel : nat) (a : Z) : CM mstate Z :=
  match fuel with
  | O => cnofuel
  | S fuel =>
    do l <- load a 1;
    if decide (l = [NUL]) then cret 0 else do n <- strlen fuel (a + 1); cret (n + 1)
  end.

(** [type->is_have && !type->is_have (this_obj_addr)] *)
Definition absent (ti : aosl_type_info_t) (this : Z) : CM mstate bool :=
  do s <- cget;
  cret (match is_have ti with Some f => negb (f (bytes s) this) | None => false end).

(** ** Encoding *)

(** The buffer behind a full one: the next of the chain or a new one.  The
    first component is 0 or an error. *)
Definition next_psb (psb : Z) : CM mstate (Z * Z) :=
  do b <- get_psb psb;
  if b_next b =? 0 then
    do next <- alloc_psb DFLT_MAX_PSB_PKT;
    if IS_ERR next then cret (next, psb) else
    do b <- get_psb psb;
    set_psb psb (upd_next next b) ;;
    cret (0, next)
  else cret (0, b_next b).

(** The slow path of [__CHECK_AND_ENCODE_BASETYPE]: the bytes of [____var] are
    spread over several buffers. *)
Fixpoint encode_split (fuel : nat) (psb : Z) (var : list byte) : CM mstate (Z * Z) :=
  match fuel with
  | O => cnofuel
  | S fuel =>
    do b <- get_psb psb;
    let copy := Z.min (psb_tailroom b) (Z.of_nat (length var)) in
    do dst <- psb_put psb copy;
    store dst (take (Z.to_nat copy) var) ;;
    let var := drop (Z.to_nat copy) var in
    if (length var =? 0)%nat then cret (0, psb) else
    do ' (e, next) <- next_psb psb;
    if e <? 0 then cret (e, psb) else encode_split fuel next var
  end.

(** [__CHECK_AND_ENCODE_BASETYPE], given the bytes of [____var]; 0 or an error,
    and the buffer that is now being filled. *)
Definition check_and_encode_basetype (fuel : nat) (psb : Z) (var : list byte) : CM mstate (Z * Z) :=
  do dst <- psb_put psb (Z.of_nat (length var));
  if IS_ERR dst then encode_split fuel psb var
  else store dst var ;; cret (0, psb).

(** [__CHECK_AND_ENCODE_BYTES]. *)
Fixpoint check_and_encode_bytes (fuel : nat) (psb src n : Z) : CM mstate (Z * Z) :=
  if n <=? 0 then cret (0, psb) else
  match fuel with
  | O => cnofuel
  | S fuel =>
    do b <- get_psb psb;
    let copy := Z.min (psb_tailroom b) n in
    do dst <- psb_put psb copy;
    memcpy dst src copy ;;
    if n - copy =? 0 then cret (0, psb) else
    do ' (e, next) <- next_psb psb;
    if e <? 0 then cret (e, psb) else check_and_encode_bytes fuel next (src + copy) (n - copy)
  end.

(** A call of the marshaller on [helper_type], which describes the local
    variable [bool_val]. *)
Definition marshal_bool (fuel : nat) (type typed_obj_p psb : Z) (bool_val : bool) : CM mstate (Z * Z) :=
  if stack_is_have type typed_obj_p then cfault else
  do ' (e, psb') <- check_and_encode_basetype fuel psb [if bool_val then Init.Byte.x01 else Init.Byte.x00];
  if e <? 0 then cret (e, psb) else cret (1, psb').

(** [*psb_p = psb; return len;] after a piece that either failed with [e] or
    wrote [n] bytes behind the [len] there were. *)
Definition marshal_out (psb_p : Z) (r : Z * Z) (len : Z) : CM mstate (Z * Z) :=
  if r.1 <? 0 then cret (r.1, psb_p) else cret (len, r.2).

Definition encode_int (n : nat) (encode : Z -> Z) (fuel : nat) (psb this : Z) : CM mstate (Z * Z) :=
  do l <- load this n;
  do r <- check_and_encode_basetype fuel psb (le_split n (encode (le_combine l)));
  marshal_out psb r (Z.of_nat n).

(** [_____marshal]: the return value and [*psb_p] afterwards.  [marshal_fields]
    is the loop over the members of a structure and [marshal_elems] the loop
    over the elements of an array, both with the bytes written so far; [psb_p]
    is the buffer the caller gave. *)
Fixpoint _____marshal (fuel : nat) (type typed_obj_p psb_p : Z) : CM mstate (Z * Z) :=
  match fuel with
  | O => cnofuel
  | S fuel =>
    do ti <- get_type type;
    let this_obj_addr := typed_obj_p + obj_addr ti in
    do out <- absent ti this_obj_addr;
    if out then cret (0, psb_p) else
    match type_id ti with
    | AOSL_TYPE_VOID => cret (0, psb_p)
    | AOSL_TYPE_INT8 => encode_int 1 __encode_int8 fuel psb_p this_obj_addr
    | AOSL_TYPE_INT16 => encode_int 2 __encode_int16 fuel psb_p this_obj_addr
    | AOSL_TYPE_INT32 => encode_int 4 __encode_int32 fuel psb_p this_obj_addr
    | AOSL_TYPE_INT64 => encode_int 8 __encode_int64 fuel psb_p this_obj_addr
    | AOSL_TYPE_FLOAT => encode_int 4 __encode_int32 fuel psb_p this_obj_addr
    | AOSL_TYPE_DOUBLE => encode_int 8 __encode_int64 fuel psb_p this_obj_addr
    | AOSL_TYPE_V4_IPADDR => encode_int sizeof_in_addr __encode_ipv4 fuel psb_p this_obj_addr
    | AOSL_TYPE_V6_IPADDR => encode_int sizeof_in6_addr __encode_ipv6 fuel psb_p this_obj_addr
    | AOSL_TYPE_POINTER =>
      do pointer_val <- load_ptr this_obj_addr;
      let bool_val := negb (pointer_val =? 0) in
      do ' (ret, psb) <- marshal_bool fuel type typed_obj_p psb_p bool_val;
      if ret <? 0 then cret (ret, psb_p) else
      let len := ret in
      if bool_val then
        do ' (ret, psb) <- _____marshal fuel (child ti) pointer_val psb;
        marshal_out psb_p (ret, psb) (len + ret)
      else cret (len, psb)
    | AOSL_TYPE_REFERENCE =>
      do ' (ret, psb) <- _____marshal fuel (child ti) this_obj_addr psb_p;
      marshal_out psb_p (ret, psb) ret
    | AOSL_TYPE_STRING =>
      do pointer_val <- load_ptr this_obj_addr;
      let bool_val := negb (pointer_val =? 0) in
      do ' (ret, psb) <- marshal_bool fuel type typed_obj_p psb_p bool_val;
      if ret <? 0 then cret (ret, psb_p) else
      let len := ret in
      if bool_val then
        do n <- strlen fuel pointer_val;
        let val := u16 (n + 1) in
        do r <- check_and_encode_bytes fuel psb pointer_val val;
        marshal_out psb_p r (len + val)
      else cret (len, psb)
    | AOSL_TYPE_STRUCT => marshal_fields fuel psb_p (child ti) this_obj_addr psb_p 0
    | AOSL_TYPE_FIXED_BYTES =>
      do r <- check_and_encode_bytes fuel psb_p this_obj_addr (array_size ti);
      marshal_out psb_p r (array_size ti)
    | AOSL_TYPE_VAR_BYTES =>
      do val <- load16 (typed_obj_p + count_var_addr ti);
      do ' (e, psb) <- check_and_encode_basetype fuel psb_p (le_split 2 (__encode_int16 val));
      if e <? 0 then cret (e, psb_p) else
      do r <- check_and_encode_bytes fuel psb this_obj_addr val;
      marshal_out psb_p r (2 + val)
    | AOSL_TYPE_BYTES_WITH_NIL =>
      do n <- strlen fuel this_obj_addr;
      let val := u16 (n + 1) in
      if array_size ti <? val then cret (- AOSL_EINVAL, psb_p) else
      do r <- check_and_encode_bytes fuel psb_p this_obj_addr val;
      marshal_out psb_p r val
    | AOSL_TYPE_DYNAMIC_BYTES | AOSL_TYPE_DYNAMIC_STRING =>
      do val <- load16 this_obj_addr;
      do ' (e, psb) <- check_and_encode_basetype fuel psb_p (le_split 2 (__encode_int16 val));
      if e <? 0 then cret (e, psb_p) else
      if 0 <? val then
        do pointer_val <- load_ptr (this_obj_addr + 8);
        do r <- check_and_encode_bytes fuel psb pointer_val val;
        marshal_out psb_p r (2 + val)
      else cret (2, psb)
    | AOSL_TYPE_FIXED_ARRAY =>
      do size <- lift (get_type_size fuel (child ti));
      match size with
      | None => cret (0, psb_p)
      | Some obj_size => marshal_elems fuel psb_p (child ti) this_obj_addr obj_size 0 (array_size ti) psb_p 0
      end
    | AOSL_TYPE_VAR_ARRAY =>
      do size <- lift (get_type_size fuel (child ti));
      match size with
      | None => cret (0, psb_p)
      | Some obj_size =>
        do val <- load16 (typed_obj_p + count_var_addr ti);
        do ' (e, psb) <- check_and_encode_basetype fuel psb_p (le_split 2 (__encode_int16 val));
        if e <? 0 then cret (e, psb_p) else
        marshal_elems fuel psb_p (child ti) this_obj_addr obj_size 0 val psb 2
      end
    | AOSL_TYPE_DYNAMIC_ARRAY =>
      do val <- load16 this_obj_addr;
      do ' (e, psb) <- check_and_encode_basetype fuel psb_p (le_split 2 (__encode_int16 val));
      if e <? 0 then cret (e, psb_p) else
      if 0 <? val then
        do size <- lift (get_type_size fuel (child ti));
        match size with
        | None => cret (- AOSL_EINVAL, psb_p)
        | Some obj_size =>
          do pointer_val <- load_ptr (this_obj_addr + 8);
          marshal_elems fuel psb_p (child ti) pointer_val obj_size 0 val psb 2
        end
      else cret (2, psb)
    | AOSL_TYPE_OTHER _ => cret (- AOSL_EINVAL, psb_p)
    end
  end
with marshal_fields (fuel : nat) (psb_p type this_obj_addr psb len : Z) : CM mstate (Z * Z) :=
  match fuel with
  | O => cnofuel
  | S fuel =>
    do ti <- get_type type;
    if decide (type_id ti = AOSL_TYPE_VOID) then cret (len, psb) else
    do ' (ret, psb) <- _____marshal fuel type this_obj_addr psb;
    if ret <? 0 then cret (ret, psb_p) else
    marshal_fields fuel psb_p (type + sizeof_type_info) this_obj_addr psb (len + ret)
  end
with marshal_elems (fuel : nat) (psb_p child base obj_size i count psb len : Z) : CM mstate (Z * Z) :=
  match fuel with
  | O => cnofuel
  | S fuel =>
    if i <? count then
      do ' (ret, psb) <- _____marshal fuel child (base + obj_size * i) psb;
      if ret <? 0 then cret (ret, psb_p) else
      marshal_elems fuel psb_p child base obj_size (u16 (i + 1)) count psb (len + ret)
    else cret (len, psb)
  end.

Definition smart_marshal (fuel : nat) (obj_type obj_addr psb : Z) : CM mstate Z :=
  do r <- _____marshal fuel obj_type obj_addr psb; cret r.1.

Definition aosl_marshal (fuel : nat) (type typed_obj_p psb : Z) : CM mstate Z :=
  do err <- smart_marshal fuel type typed_obj_p psb; psb_return_err err.

(** ** Decoding *)

(** [SAFE_STRSIZE]: the length of the string at the front of the chain with its
    terminator.  The buffer reached at the end of another one is read without a
    test that it holds a byte. *)
Fixpoint strsize_loop (fuel : nat) (b i l : Z) : CM mstate Z :=
  match fuel with
  | O => cnofuel
  | S fuel =>
    do pb <- get_psb b;
    if s32 (b_len pb) <=? i then
      if b_next pb =? 0 then cret (- AOSL_EMSGSIZE) else
      do pn <- get_psb (b_next pb);
      do c <- load (psb_data pn) 1;
      if decide (c = [NUL]) then cret (l + 1) else strsize_loop fuel (b_next pb) 1 (l + 1)
    else
      do c <- load (psb_data pb + i) 1;
      if decide (c = [NUL]) then cret (l + 1) else strsize_loop fuel b (i + 1) (l + 1)
  end.

Definition SAFE_STRSIZE (fuel : nat) (psb : Z) : CM mstate Z := strsize_loop fuel psb 0 0.

(** The slow path of [__CHECK_AND_DECODE_BASETYPE] (without peeking, which no
    caller asks for): an error or 0, the buffer arrived at, the bytes of
    [__pkt_var]. *)
Fixpoint decode_split (fuel : nat) (psb b needed : Z) (var : list byte) : CM mstate (Z * Z * list byte) :=
  match fuel with
  | O => cnofuel
  | S fuel =>
    do pb <- get_psb b;
    let copy := Z.min (psb_len pb) needed in
    do l <- load (psb_data pb) (Z.to_nat copy);
    psb_pull b copy ;;
    if needed - copy =? 0 then cret (0, b, var ++ l) else
    do pb <- get_psb b;
    if b_next pb =? 0 then cret (- AOSL_EMSGSIZE, psb, []) else
    decode_split fuel psb (b_next pb) (needed - copy) (var ++ l)
  end.

Definition check_and_decode_basetype (fuel : nat) (psb : Z) (n : nat) : CM mstate (Z * Z * list byte) :=
  do src <- psb_get psb (Z.of_nat n);
  if IS_ERR src then decode_split fuel psb psb (Z.of_nat n) []
  else do l <- load src n; cret (0, psb, l).

(** [__CHECK_AND_DECODE_BYTES]. *)
Fixpoint check_and_decode_bytes (fuel : nat) (psb dst n : Z) : CM mstate (Z * Z) :=
  match fuel with
  | O => cnofuel
  | S fuel =>
    do b <- get_psb psb;
    let copy := Z.min (psb_len b) n in
    do src <- psb_get psb copy;
    memcpy dst src copy ;;
    if n - copy =? 0 then cret (0, psb) else
    do b <- get_psb psb;
    if b_next b =? 0 then cret (- AOSL_EMSGSIZE, psb) else
    check_and_decode_bytes fuel (b_next b) (dst + copy) (n - copy)
  end.

Definition decode_int (n : nat) (decode : Z -> Z) (fuel : nat) (psb this : Z) : CM mstate (Z * Z) :=
  do ' (e, psb', l) <- check_and_decode_basetype fuel psb n;
  if e <? 0 then cret (e, psb) else
  store this (le_split n (decode (le_combine l))) ;;
  cret (Z.of_nat n, psb').

(** A 16-bit number into the local variable [val]: an error or 0, the buffer
    arrived at, the number. *)
Definition decode_val (fuel : nat) (psb : Z) : CM mstate (Z * Z * Z) :=
  do ' (e, psb', l) <- check_and_decode_basetype fuel psb 2;
  cret (e, psb', __decode_int16 (le_combine l)).

(** A call of the unmarshaller on [helper_type], which describes the local
    variable [bool_val]: the return value, the buffer, the byte read. *)
Definition unmarshal_bool (fuel : nat) (type typed_obj_p psb : Z) : CM mstate (Z * Z * bool) :=
  if stack_is_have type typed_obj_p then cfault else
  do ' (e, psb', l) <- check_and_decode_basetype fuel psb 1;
  if e <? 0 then cret (e, psb, false) else
  cret (1, psb', negb (le_combine l =? 0)).

(** The stores to the fields of an [aosl_dynamic_array_t]. *)
Definition set_count (a v : Z) : CM mstate unit := store16 a v.
Definition set_allocated (a v : Z) : CM mstate unit := store16 (a + 2) v.
Definition set_values (a v : Z) : CM mstate unit := store_ptr (a + 8) v.

(** [_____unmarshal]: the return value and [*psb_p] afterwards. *)
Fixpoint _____unmarshal (fuel : nat) (type typed_obj_p psb_p : Z) : CM mstate (Z * Z) :=
  match fuel with
  | O => cnofuel
  | S fuel =>
    do ti <- get_type type;
    let this_obj_addr := typed_obj_p + obj_addr ti in
    do out <- absent ti this_obj_addr;
    if out then cret (0, psb_p) else
    match type_id ti with
    | AOSL_TYPE_VOID => cret (0, psb_p)
    | AOSL_TYPE_INT8 => decode_int 1 __decode_int8 fuel psb_p this_obj_addr
    | AOSL_TYPE_INT16 => decode_int 2 __decode_int16 fuel psb_p this_obj_addr
    | AOSL_TYPE_INT32 => decode_int 4 __decode_int32 fuel psb_p this_obj_addr
    | AOSL_TYPE_INT64 => decode_int 8 __decode_int64 fuel psb_p this_obj_addr
    | AOSL_TYPE_FLOAT => decode_int 4 __decode_int32 fuel psb_p this_obj_addr
    | AOSL_TYPE_DOUBLE => decode_int 8 __decode_int64 fuel psb_p this_obj_addr
    | AOSL_TYPE_V4_IPADDR => decode_int sizeof_in_addr __decode_ipv4 fuel psb_p this_obj_addr
    | AOSL_TYPE_V6_IPADDR => decode_int sizeof_in6_addr __decode_ipv6 fuel psb_p this_obj_addr
    | AOSL_TYPE_POINTER =>
      do ' (ret, psb, bool_val) <- unmarshal_bool fuel type typed_obj_p psb_p;
      if ret <? 0 then cret (ret, psb_p) else
      let len := ret in
      if bool_val then
        do size <- lift (get_type_size fuel (child ti));
        match size with
        | None => cret (ret, psb_p)
        | Some obj_size =>
          do pointer_val <- aosl_malloc obj_size;
          if pointer_val =? 0 then cret (- AOSL_ENOMEM, psb_p) else
          store_ptr this_obj_addr pointer_val ;;
          do ' (ret, psb) <- _____unmarshal fuel (child ti) pointer_val psb;
          marshal_out psb_p (ret, psb) (len + ret)
        end
      else store_ptr this_obj_addr 0 ;; cret (len, psb)
    | AOSL_TYPE_REFERENCE =>
      do ' (ret, psb) <- _____unmarshal fuel (child ti) this_obj_addr psb_p;
      marshal_out psb_p (ret, psb) ret
    | AOSL_TYPE_STRING =>
      do ' (ret, psb, bool_val) <- unmarshal_bool fuel type typed_obj_p psb_p;
      if ret <? 0 then cret (ret, psb_p) else
      let len := ret in
      if bool_val then
        do ret <- SAFE_STRSIZE fuel psb;
        if ret <? 0 then cret (ret, psb_p) else
        let val := u16 ret in
        do pointer_val <- aosl_malloc val;
        if pointer_val =? 0 then cret (- AOSL_ENOMEM, psb_p) else
        store_ptr this_obj_addr pointer_val ;;
        do r <- check_and_decode_bytes fuel psb pointer_val val;
        marshal_out psb_p r (len + val)
      else store_ptr this_obj_addr 0 ;; cret (len, psb)
    | AOSL_TYPE_STRUCT => unmarshal_fields fuel psb_p (child ti) this_obj_addr psb_p 0
    | AOSL_TYPE_FIXED_BYTES =>
      do r <- check_and_decode_bytes fuel psb_p this_obj_addr (array_size ti);
      marshal_out psb_p r (array_size ti)
    | AOSL_TYPE_VAR_BYTES =>
      do ' (e, psb, val) <- decode_val fuel psb_p;
      if e <? 0 then cret (e, psb_p) else
      if array_size ti <? val then cret (- AOSL_ENOSPC, psb_p) else
      store16 (typed_obj_p + count_var_addr ti) val ;;
      do r <- check_and_decode_bytes fuel psb this_obj_addr val;
      marshal_out psb_p r (2 + val)
    | AOSL_TYPE_BYTES_WITH_NIL =>
      do ret <- SAFE_STRSIZE fuel psb_p;
      if ret <? 0 then cret (ret, psb_p) else
      let val := u16 ret in
      if array_size ti <? val then cret (- AOSL_ENOSPC, psb_p) else
      do r <- check_and_decode_bytes fuel psb_p this_obj_addr val;
      marshal_out psb_p r val
    | AOSL_TYPE_DYNAMIC_BYTES | AOSL_TYPE_DYNAMIC_STRING =>
      let extra := if decide (type_id ti = AOSL_TYPE_DYNAMIC_STRING) then 1 else 0 in
      do ' (e, psb, val) <- decode_val fuel psb_p;
      if e <? 0 then cret (e, psb_p) else
      set_count this_obj_addr val ;;
      set_allocated this_obj_addr (u16 (val + extra)) ;;
      if 0 <? val + extra then
        do pointer_val <- aosl_malloc (val + extra);
        if pointer_val =? 0 then
          set_count this_obj_addr 0 ;; set_allocated this_obj_addr 0 ;; cret (- AOSL_ENOMEM, psb_p)
        else
        set_values this_obj_addr pointer_val ;;
        do ' (e, psb) <- (if 0 <? val then check_and_decode_bytes fuel psb pointer_val val else cret (0, psb));
        if e <? 0 then cret (e, psb_p) else
        (when 0 <? extra then store (pointer_val + val) [NUL]) ;;
        cret (2 + val, psb)
      else cret (2, psb)
    | AOSL_TYPE_FIXED_ARRAY =>
      do size <- lift (get_type_size fuel (child ti));
      match size with
      | None => cret (0, psb_p)
      | Some obj_size => unmarshal_elems fuel psb_p (child ti) this_obj_addr obj_size 0 (array_size ti) psb_p 0
      end
    | AOSL_TYPE_VAR_ARRAY =>
      do size <- lift (get_type_size fuel (child ti));
      match size with
      | None => cret (0, psb_p)
      | Some obj_size =>
        do ' (e, psb, val) <- decode_val fuel psb_p;
        if e <? 0 then cret (e, psb_p) else
        if array_size ti <? val then cret (- AOSL_ENOSPC, psb_p) else
        store16 (typed_obj_p + count_var_addr ti) val ;;
        unmarshal_elems fuel psb_p (child ti) this_obj_addr obj_size 0 val psb 2
      end
    | AOSL_TYPE_DYNAMIC_ARRAY =>
      do ' (e, psb, val) <- decode_val fuel psb_p;
      if e <? 0 then cret (e, psb_p) else
      set_count this_obj_addr val ;;
      set_allocated this_obj_addr val ;;
      if 0 <? val then
        do size <- lift (get_type_size fuel (child ti));
        match size with
        | None => set_count this_obj_addr 0 ;; set_allocated this_obj_addr 0 ;; cret (- AOSL_EINVAL, psb_p)
        | Some obj_size =>
          do pointer_val <- aosl_malloc (u64 (obj_size * val));
          if pointer_val =? 0 then
            set_count this_obj_addr 0 ;; set_allocated this_obj_addr 0 ;; cret (- AOSL_ENOMEM, psb_p)
          else
          set_values this_obj_addr pointer_val ;;
          unmarshal_elems fuel psb_p (child ti) pointer_val obj_size 0 val psb 2
        end
      else cret (2, psb)
    | AOSL_TYPE_OTHER _ => cret (- AOSL_EINVAL, psb_p)
    end
  end
with unmarshal_fields (fuel : nat) (psb_p type this_obj_addr psb len : Z) : CM mstate (Z * Z) :=
  match fuel with
  | O => cnofuel
  | S fuel =>
    do ti <- get_type type;
    if decide (type_id ti = AOSL_TYPE_VOID) then cret (len, psb) else
    do ' (ret, psb) <- _____unmarshal fuel type this_obj_addr psb;
    if ret <? 0 then cret (ret, psb_p) else
    unmarshal_fields fuel psb_p (type + sizeof_type_info) this_obj_addr psb (len + ret)
  end
with unmarshal_elems (fuel : nat) (psb_p child base obj_size i count psb len : Z) : CM mstate (Z * Z) :=
  match fuel with
  | O => cnofuel
  | S fuel =>
    if i <? count then
      do ' (ret, psb) <- _____unmarshal fuel child (base + obj_size * i) psb;
      if ret <? 0 then cret (ret, psb_p) else
      unmarshal_elems fuel psb_p child base obj_size (u16 (i + 1)) count psb (len + ret)
    else cret (len, psb)
  end.

Definition smart_unmarshal (fuel : nat) (obj_type obj_addr psb : Z) : CM mstate Z :=
  do r <- _____unmarshal fuel obj_type obj_addr psb; cret r.1.

Definition aosl_unmarshal (fuel : nat) (type typed_obj_p psb : Z) : CM mstate Z :=
  do err <- smart_unmarshal fuel type typed_obj_p psb; psb_return_err err.

(** ** Set-up and release of objects *)

Definition memset0 (a n : Z) : CM mstate unit := store a (replicate (Z.to_nat n) NUL).

Definition clear_dynamic (a : Z) : CM mstate unit := set_count a 0 ;; set_allocated a 0 ;; set_values a 0.

Fixpoint smart_init_typed_obj (fuel : nat) (type typed_obj_p : Z) : CM mstate unit :=
  match fuel with
  | O => cnofuel
  | S fuel =>
    do ti <- get_type type;
    let this_obj_addr := typed_obj_p + obj_addr ti in
    match type_id ti with
    | AOSL_TYPE_INT8 => store this_obj_addr (le_split 1 0)
    | AOSL_TYPE_INT16 => store this_obj_addr (le_split 2 0)
    | AOSL_TYPE_INT32 => store this_obj_addr (le_split 4 0)
    | AOSL_TYPE_INT64 => store this_obj_addr (le_split 8 0)
    | AOSL_TYPE_FLOAT => store this_obj_addr (le_split 4 0)
    | AOSL_TYPE_DOUBLE => store this_obj_addr (le_split 8 0)
    | AOSL_TYPE_V4_IPADDR => store this_obj_addr (le_split 4 0)
    | AOSL_TYPE_V6_IPADDR => memset0 this_obj_addr (Z.of_nat sizeof_in6_addr)
    | AOSL_TYPE_POINTER => store_ptr this_obj_addr 0
    | AOSL_TYPE_REFERENCE => smart_init_typed_obj fuel (child ti) this_obj_addr
    | AOSL_TYPE_STRING => store_ptr this_obj_addr 0
    | AOSL_TYPE_STRUCT => init_fields fuel (child ti) this_obj_addr
    | AOSL_TYPE_FIXED_BYTES => memset0 this_obj_addr (array_size ti)
    | AOSL_TYPE_VAR_BYTES => store16 (typed_obj_p + count_var_addr ti) 0
    | AOSL_TYPE_BYTES_WITH_NIL => store this_obj_addr [NUL]
    | AOSL_TYPE_DYNAMIC_BYTES | AOSL_TYPE_DYNAMIC_STRING => clear_dynamic this_obj_addr
    | AOSL_TYPE_FIXED_ARRAY =>
      do size <- lift (get_type_size fuel (child ti));
      match size with
      | None => cret tt
      | Some obj_size => init_elems fuel (child ti) this_obj_addr obj_size 0 (array_size ti)
      end
    | AOSL_TYPE_VAR_ARRAY => store16 (typed_obj_p + count_var_addr ti) 0
    | AOSL_TYPE_DYNAMIC_ARRAY => clear_dynamic this_obj_addr
    | AOSL_TYPE_VOID | AOSL_TYPE_OTHER _ => cret tt
    end
  end
with init_fields (fuel : nat) (type this_obj_addr : Z) : CM mstate unit :=
  match fuel with
  | O => cnofuel
  | S fuel =>
    do ti <- get_type type;
    if decide (type_id ti = AOSL_TYPE_VOID) then cret tt else
    smart_init_typed_obj fuel type this_obj_addr ;;
    init_fields fuel (type + sizeof_type_info) this_obj_addr
  end
with init_elems (fuel : nat) (child base obj_size v count : Z) : CM mstate unit :=
  match fuel with
  | O => cnofuel
  | S fuel =>
    if v <? count then
      smart_init_typed_obj fuel child (base + obj_size * v) ;;
      init_elems fuel child base obj_size (v + 1) count
    else cret tt
  end.

Fixpoint smart_fini_typed_obj (fuel : nat) (type typed_obj_p : Z) : CM mstate unit :=
  match fuel with
  | O => cnofuel
  | S fuel =>
    do ti <- get_type type;
    let this_obj_addr := typed_obj_p + obj_addr ti in
    match type_id ti with
    | AOSL_TYPE_POINTER =>
      do p <- load_ptr this_obj_addr;
      if p =? 0 then cret tt else
      smart_fini_typed_obj fuel (child ti) p ;;
      aosl_free p ;;
      store_ptr this_obj_addr 0
    | AOSL_TYPE_REFERENCE => smart_fini_typed_obj fuel (child ti) this_obj_addr
    | AOSL_TYPE_STRING =>
      do p <- load_ptr this_obj_addr;
      if p =? 0 then cret tt else
      aosl_free p ;;
      store_ptr this_obj_addr 0
    | AOSL_TYPE_STRUCT => fini_fields fuel (child ti) this_obj_addr
    | AOSL_TYPE_DYNAMIC_BYTES | AOSL_TYPE_DYNAMIC_STRING =>
      do allocated <- load16 (this_obj_addr + 2);
      (if 0 <? allocated then do p <- load_ptr (this_obj_addr + 8); aosl_free p else cret tt) ;;
      clear_dynamic this_obj_addr
    | AOSL_TYPE_FIXED_ARRAY =>
      do size <- lift (get_type_size fuel (child ti));
      match size with
      | None => cret tt
      | Some obj_size => fini_elems fuel (child ti) this_obj_addr obj_size 0 (cret (array_size ti))
      end
    | AOSL_TYPE_VAR_ARRAY =>
      do size <- lift (get_type_size fuel (child ti));
      match size with
      | None => cret tt
      | Some obj_size =>
        fini_elems fuel (child ti) this_obj_addr obj_size 0 (load16 (typed_obj_p + count_var_addr ti)) ;;
        store16 (typed_obj_p + count_var_addr ti) 0
      end
    | AOSL_TYPE_DYNAMIC_ARRAY =>
      do allocated <- load16 (this_obj_addr + 2);
      (if 0 <? allocated then
         do p <- load_ptr (this_obj_addr + 8);
         do count <- load16 this_obj_addr;
         (if 0 <? count then
            do size <- lift (get_type_size fuel (child ti));
            match size with
            | None => cret tt
            | Some obj_size => fini_elems fuel (child ti) p obj_size 0 (cret count)
            end
          else cret tt) ;;
         aosl_free p
       else cret tt) ;;
      clear_dynamic this_obj_addr
    | _ => cret tt
    end
  end
with fini_fields (fuel : nat) (type this_obj_addr : Z) : CM mstate unit :=
  match fuel with
  | O => cnofuel
  | S fuel =>
    do ti <- get_type type;
    if decide (type_id ti = AOSL_TYPE_VOID) then cret tt else
    smart_fini_typed_obj fuel type this_obj_addr ;;
    fini_fields fuel (type + sizeof_type_info) this_obj_addr
  end
(** The bound is read again in each round, as the condition of the loop does. *)
with fini_elems (fuel : nat) (child base obj_size v : Z) (count : CM mstate Z) : CM mstate unit :=
  match fuel with
  | O => cnofuel
  | S fuel =>
    do n <- count;
    if v <? n then
      smart_fini_typed_obj fuel child (base + obj_size * v) ;;
      fini_elems fuel child base obj_size (v + 1) count
    else cret tt
  end.

Definition aosl_init_typed_obj := smart_init_typed_obj.
Definition aosl_fini_typed_obj := smart_fini_typed_obj.

End Marshal.

(** The conversions offered to the application; the decoders call the encoders. *)
Definition aosl_encode_int16 (v : Z) : Z := __encode_int16 v.
Definition aosl_encode_int32 (v : Z) : Z := __encode_int32 v.
Definition aosl_encode_int64 (v : Z) : Z := __encode_int64 v.
Definition aosl_decode_int16 (v : Z) : Z := __encode_int16 v.
Definition aosl_decode_int32 (v : Z) : Z := __encode_int32 v.
Definition aosl_decode_int64 (v : Z) : Z := __encode_int64 v.
