(* ===== verification/MarshalVal.v ===== *)
(** * Values of typed objects

    What an object in memory means to the marshaller: the tree of its values
    ([repr]), the blocks its pointers lead to, the bytes it occupies ([own]),
    and the encoding of a value on the wire ([enc]). *)
From S2P Require Import Prelude Bytes Psb Marshal.

(** ** Values *)

Inductive val :=
| VRaw (bs : list byte)             (* numbers, addresses, runs of bytes *)
| VText (bs : list byte)            (* a string, without its terminator *)
| VCount (n : nat) (v : val)        (* a counted sequence *)
| VNull                             (* a null pointer *)
| VBox (v : val)                    (* a pointer to a value *)
| VGroup (v : val)                  (* members or elements, or a reference *)
| VNil
| VCons (v w : val).

(** The encoding. *)
Fixpoint enc (v : val) : list byte :=
  match v with
  | VRaw bs => bs
  | VText bs => bs ++ [NUL]
  | VCount n v => le_split 2 (Z.of_nat n) ++ enc v
  | VNull => [Init.Byte.x00]
  | VBox v => Init.Byte.x01 :: enc v
  | VGroup v => enc v
  | VNil => []
  | VCons v w => enc v ++ enc w
  end.

(** Fuel that is enough to walk through a value. *)
Fixpoint cost (v : val) : nat :=
  match v with
  | VRaw bs => 2 + length bs
  | VText bs => 3 + length bs
  | VCount _ v => 4 + cost v
  | VNull => 3
  | VBox v => 3 + cost v
  | VGroup v => 1 + cost v
  | VNil => 1
  | VCons v w => 1 + cost v + cost w
  end.

Section Repr.
(** The type table, and a bound on how deep types without pointers nest. *)
Context (T : gmap Z aosl_type_info_t) (D : nat).

(** A type that is present in every object. *)
Definition entry (t : Z) (ti : aosl_type_info_t) : Prop := T !! t = Some ti /\ is_have ti = None.

(** Types whose bytes are copied as they are. *)
Definition flat_size (ty : aosl_type_id) : option nat :=
  match ty with
  | AOSL_TYPE_VOID => Some 0%nat
  | AOSL_TYPE_INT8 => Some 1%nat
  | AOSL_TYPE_INT16 => Some 2%nat
  | AOSL_TYPE_INT32 | AOSL_TYPE_FLOAT | AOSL_TYPE_V4_IPADDR => Some 4%nat
  | AOSL_TYPE_INT64 | AOSL_TYPE_DOUBLE => Some 8%nat
  | AOSL_TYPE_V6_IPADDR => Some 16%nat
  | _ => None
  end.

(** ** The bytes of an object *)

(** Types that occupy one run of bytes. *)
Definition span (ti : aosl_type_info_t) : option Z :=
  match type_id ti with
  | AOSL_TYPE_POINTER | AOSL_TYPE_STRING => Some 8
  | AOSL_TYPE_FIXED_BYTES | AOSL_TYPE_VAR_BYTES | AOSL_TYPE_BYTES_WITH_NIL => Some (array_size ti)
  | AOSL_TYPE_DYNAMIC_BYTES | AOSL_TYPE_DYNAMIC_STRING | AOSL_TYPE_DYNAMIC_ARRAY => Some 16
  | ty => Z.of_nat <$> flat_size ty
  end.

(** [f] is one of the members described from [c] on. *)
Inductive field : Z -> Z -> Prop :=
| field_here c ti : T !! c = Some ti -> type_id ti <> AOSL_TYPE_VOID -> field c c
| field_next c f ti :
    T !! c = Some ti -> type_id ti <> AOSL_TYPE_VOID -> field (c + sizeof_type_info) f -> field c f.

(** [x] is a byte of the object of type [t] in the structure at [base]. *)
Inductive own : Z -> Z -> Z -> Prop :=
| own_span t ti n base x :
    T !! t = Some ti -> span ti = Some n -> inside (base + obj_addr ti) n x -> own t base x
| own_count t ti base x :
    T !! t = Some ti -> type_id ti = AOSL_TYPE_VAR_BYTES \/ type_id ti = AOSL_TYPE_VAR_ARRAY ->
    inside (base + count_var_addr ti) 2 x -> own t base x
| own_ref t ti base x :
    T !! t = Some ti -> type_id ti = AOSL_TYPE_REFERENCE -> own (child ti) (base + obj_addr ti) x -> own t base x
| own_field t ti f base x :
    T !! t = Some ti -> type_id ti = AOSL_TYPE_STRUCT -> field (child ti) f -> own f (base + obj_addr ti) x ->
    own t base x
| own_elem t ti sz i base x :
    T !! t = Some ti -> type_id ti = AOSL_TYPE_FIXED_ARRAY \/ type_id ti = AOSL_TYPE_VAR_ARRAY ->
    get_type_size T D (child ti) = Ret (Some sz) -> 0 <= i < array_size ti ->
    own (child ti) (base + obj_addr ti + sz * i) x -> own t base x.

(** Descriptions that fit C types: a pointed-to object or an array element lies
    within its size, members do not overlap, nor does the counter of an array
    overlap its elements. *)
Record Layout : Prop := {
  lay_child t ti sz :
    T !! t = Some ti ->
    type_id ti ∈ [AOSL_TYPE_POINTER; AOSL_TYPE_FIXED_ARRAY; AOSL_TYPE_VAR_ARRAY; AOSL_TYPE_DYNAMIC_ARRAY] ->
    get_type_size T D (child ti) = Ret (Some sz) ->
    0 <= sz < 2 ^ 32 /\ forall b x, own (child ti) b x -> inside b sz x;
  lay_fields t ti f g b x :
    T !! t = Some ti -> type_id ti = AOSL_TYPE_STRUCT -> field (child ti) f -> field (child ti) g -> f <> g ->
    own f b x -> own g b x -> False;
  lay_bytes t ti b x :
    T !! t = Some ti -> type_id ti = AOSL_TYPE_VAR_BYTES ->
    inside (b + count_var_addr ti) 2 x -> inside (b + obj_addr ti) (array_size ti) x -> False;
  lay_array t ti sz i b x :
    T !! t = Some ti -> type_id ti = AOSL_TYPE_VAR_ARRAY -> get_type_size T D (child ti) = Ret (Some sz) ->
    0 <= i < array_size ti -> inside (b + count_var_addr ti) 2 x ->
    own (child ti) (b + obj_addr ti + sz * i) x -> False
}.

(** ** Representation *)

(** An [aosl_dynamic_array_t] at [a]. *)
Definition dyn_at (m : bytemap) (a cnt al q : Z) : Prop :=
  0 <= cnt <= al /\ al < 2 ^ 16 /\ 0 <= q < 2 ^ 64 /\
  at_bytes m a (le_split 2 cnt) /\ at_bytes m (a + 2) (le_split 2 al) /\ at_bytes m (a + 8) (le_split 8 q).

(** The block behind a dynamic array, if it has one. *)
Definition dyn_block (q n al : Z) : list (Z * Z) := if 0 <? al then [(q, n)] else [].

(** [repr t base v B m]: in memory [m] the object of type [t] in the structure
    at [base] has the value [v]; [B] are the addresses and sizes of the blocks
    that belong to it. *)
Inductive repr : Z -> Z -> val -> list (Z * Z) -> bytemap -> Prop :=
| R_flat t ti base n bs m :
    entry t ti -> flat_size (type_id ti) = Some n -> length bs = n ->
    at_bytes m (base + obj_addr ti) bs -> repr t base (VRaw bs) [] m
| R_fixed_bytes t ti base bs m :
    entry t ti -> type_id ti = AOSL_TYPE_FIXED_BYTES -> Z.of_nat (length bs) = array_size ti -> array_size ti < 2 ^ 32 ->
    at_bytes m (base + obj_addr ti) bs -> repr t base (VRaw bs) [] m
| R_var_bytes t ti base bs m :
    entry t ti -> type_id ti = AOSL_TYPE_VAR_BYTES ->
    Z.of_nat (length bs) <= array_size ti -> Z.of_nat (length bs) < 2 ^ 16 ->
    at_bytes m (base + count_var_addr ti) (le_split 2 (Z.of_nat (length bs))) ->
    at_bytes m (base + obj_addr ti) bs -> repr t base (VCount (length bs) (VRaw bs)) [] m
| R_nil t ti base bs m :
    entry t ti -> type_id ti = AOSL_TYPE_BYTES_WITH_NIL -> NUL ∉ bs ->
    Z.of_nat (length bs) + 1 <= array_size ti -> Z.of_nat (length bs) + 1 < 2 ^ 16 ->
    at_bytes m (base + obj_addr ti) (bs ++ [NUL]) -> repr t base (VText bs) [] m
| R_null t ti base m :
    entry t ti -> type_id ti = AOSL_TYPE_POINTER \/ type_id ti = AOSL_TYPE_STRING ->
    at_bytes m (base + obj_addr ti) (le_split 8 0) -> repr t base VNull [] m
| R_ptr t ti base q sz v B m :
    entry t ti -> type_id ti = AOSL_TYPE_POINTER -> 0 < q < 2 ^ 64 ->
    at_bytes m (base + obj_addr ti) (le_split 8 q) -> get_type_size T D (child ti) = Ret (Some sz) ->
    repr (child ti) q v B m -> repr t base (VBox v) ((q, sz) :: B) m
| R_str t ti base q bs m :
    entry t ti -> type_id ti = AOSL_TYPE_STRING -> 0 < q < 2 ^ 64 ->
    at_bytes m (base + obj_addr ti) (le_split 8 q) -> NUL ∉ bs -> Z.of_nat (length bs) + 1 < 2 ^ 16 ->
    at_bytes m q (bs ++ [NUL]) -> repr t base (VBox (VText bs)) [(q, Z.of_nat (length bs) + 1)] m
| R_ref t ti base v B m :
    entry t ti -> type_id ti = AOSL_TYPE_REFERENCE -> repr (child ti) (base + obj_addr ti) v B m ->
    repr t base (VGroup v) B m
| R_struct t ti base v B m :
    entry t ti -> type_id ti = AOSL_TYPE_STRUCT -> repr_fields (child ti) (base + obj_addr ti) v B m ->
    repr t base (VGroup v) B m
| R_dyn_bytes t ti base al q bs m :
    entry t ti -> type_id ti = AOSL_TYPE_DYNAMIC_BYTES ->
    dyn_at m (base + obj_addr ti) (Z.of_nat (length bs)) al q -> at_bytes m q bs ->
    repr t base (VCount (length bs) (VRaw bs)) (dyn_block q al al) m
| R_dyn_string t ti base al q bs m :
    entry t ti -> type_id ti = AOSL_TYPE_DYNAMIC_STRING -> Z.of_nat (length bs) + 1 < 2 ^ 16 ->
    dyn_at m (base + obj_addr ti) (Z.of_nat (length bs)) al q -> at_bytes m q bs ->
    repr t base (VCount (length bs) (VRaw bs)) (dyn_block q al al) m
| R_fixed_array t ti base sz n v B m :
    entry t ti -> type_id ti = AOSL_TYPE_FIXED_ARRAY -> get_type_size T D (child ti) = Ret (Some sz) ->
    Z.of_nat n = array_size ti -> Z.of_nat n < 2 ^ 16 ->
    repr_elems (child ti) (base + obj_addr ti) sz 0 n v B m -> repr t base (VGroup v) B m
| R_var_array t ti base sz n v B m :
    entry t ti -> type_id ti = AOSL_TYPE_VAR_ARRAY -> get_type_size T D (child ti) = Ret (Some sz) ->
    Z.of_nat n <= array_size ti -> Z.of_nat n < 2 ^ 16 ->
    at_bytes m (base + count_var_addr ti) (le_split 2 (Z.of_nat n)) ->
    repr_elems (child ti) (base + obj_addr ti) sz 0 n v B m -> repr t base (VCount n v) B m
| R_dyn_array t ti base al q sz n v B m :
    entry t ti -> type_id ti = AOSL_TYPE_DYNAMIC_ARRAY -> get_type_size T D (child ti) = Ret (Some sz) ->
    dyn_at m (base + obj_addr ti) (Z.of_nat n) al q ->
    repr_elems (child ti) q sz 0 n v B m -> repr t base (VCount n v) (dyn_block q (sz * al) al ++ B) m
(** The members described from [t] on. *)
with repr_fields : Z -> Z -> val -> list (Z * Z) -> bytemap -> Prop :=
| F_end t ti base m :
    T !! t = Some ti -> type_id ti = AOSL_TYPE_VOID -> repr_fields t base VNil [] m
| F_cons t ti base v w B1 B2 m :
    T !! t = Some ti -> type_id ti <> AOSL_TYPE_VOID -> repr t base v B1 m ->
    repr_fields (t + sizeof_type_info) base w B2 m -> repr_fields t base (VCons v w) (B1 ++ B2) m
(** [n] elements of size [sz] from the [i]-th on. *)
with repr_elems : Z -> Z -> Z -> Z -> nat -> val -> list (Z * Z) -> bytemap -> Prop :=
| E_end c base sz i m : repr_elems c base sz i 0 VNil [] m
| E_cons c base sz i n v w B1 B2 m :
    repr c (base + sz * i) v B1 m -> repr_elems c base sz (i + 1) n w B2 m ->
    repr_elems c base sz i (S n) (VCons v w) (B1 ++ B2) m.

Scheme repr_ind' := Minimality for repr Sort Prop
with repr_fields_ind' := Minimality for repr_fields Sort Prop
with repr_elems_ind' := Minimality for repr_elems Sort Prop.
Combined Scheme repr_mut from repr_ind', repr_fields_ind', repr_elems_ind'.

(** The bytes of an object and of the blocks that belong to it. *)
Definition in_blocks (B : list (Z * Z)) (x : Z) : Prop := exists q n, (q, n) ∈ B /\ inside q n x.
Definition reach (t base : Z) (B : list (Z * Z)) (x : Z) : Prop := own t base x \/ in_blocks B x.
Definition own_fields (t base x : Z) : Prop := exists f, field t f /\ own f base x.
Definition own_elems (c base sz i : Z) (n : nat) (x : Z) : Prop :=
  exists j, i <= j < i + Z.of_nat n /\ own c (base + sz * j) x.

Lemma in_blocks_app B1 B2 x : in_blocks (B1 ++ B2) x <-> in_blocks B1 x \/ in_blocks B2 x.
Proof. unfold in_blocks. set_solver. Qed.

Lemma in_blocks_cons q n B x : in_blocks ((q, n) :: B) x <-> inside q n x \/ in_blocks B x.
Proof.
  unfold in_blocks. split.
  - intros (q' & n' & [[= -> ->]|Hin]%elem_of_cons & Hx); [by left|right; eauto].
  - intros [Hx|(q' & n' & Hin & Hx)]; [exists q, n|exists q', n']; (split; [set_solver|done]).
Qed.

Lemma in_blocks_dyn q n al x : 0 < al -> inside q n x -> in_blocks (dyn_block q n al) x.
Proof. intros Ha Hx. unfold dyn_block. destruct (Z.ltb_spec 0 al); [|lia]. apply in_blocks_cons. by left. Qed.

Lemma reach_span t ti n base B x :
  T !! t = Some ti -> span ti = Some n -> inside (base + obj_addr ti) n x -> reach t base B x.
Proof. intros. left. by eapply own_span. Qed.

Lemma flat_span ti n : flat_size (type_id ti) = Some n -> span ti = Some (Z.of_nat n).
Proof. unfold span. destruct (type_id ti); cbn; try done; by intros [= <-]. Qed.

(** Bytes of a run of the object are unchanged. *)
Lemma at_bytes_reach t ti n base B m m' a l :
  same_on (reach t base B) m m' -> T !! t = Some ti -> span ti = Some n ->
  (forall x, inside a (Z.of_nat (length l)) x -> inside (base + obj_addr ti) n x) ->
  at_bytes m a l -> at_bytes m' a l.
Proof. intros Hs Ht Hn Hi Ha. eapply at_bytes_same; [done..|]. intros x Hx. eapply reach_span; eauto. Qed.

Lemma dyn_at_reach t ti base B m m' cnt al q :
  same_on (reach t base B) m m' -> T !! t = Some ti -> span ti = Some 16 ->
  dyn_at m (base + obj_addr ti) cnt al q -> dyn_at m' (base + obj_addr ti) cnt al q.
Proof.
  intros Hs Ht Hn (H1 & H2 & H3 & H4 & H5 & H6). do 3 (split; [done|]).
  split; [|split]; (eapply at_bytes_reach; [done..| |done]); rewrite length_le_split; unfold inside; lia.
Qed.

(** An object's value depends only on the bytes it reaches. *)
Lemma repr_local_mut (L : Layout) :
  (forall t base v B m, repr t base v B m -> forall m', same_on (reach t base B) m m' -> repr t base v B m') /\
  (forall t base v B m, repr_fields t base v B m ->
     forall m', same_on (fun x => own_fields t base x \/ in_blocks B x) m m' -> repr_fields t base v B m') /\
  (forall c base sz i n v B m, repr_elems c base sz i n v B m ->
     forall m', same_on (fun x => own_elems c base sz i n x \/ in_blocks B x) m m' -> repr_elems c base sz i n v B m').
Proof.
  apply repr_mut.
  - intros t ti base n bs m [Et Eh] Hf Hl Ha m' Hs. eapply R_flat; [done..|].
    eapply at_bytes_reach; [done..|by apply flat_span| |done]. by rewrite Hl.
  - intros t ti base bs m [Et Eh] Hty Hl H32 Ha m' Hs. eapply R_fixed_bytes; [done..|].
    eapply at_bytes_reach; [done..|by unfold span; rewrite Hty| |done]. by rewrite Hl.
  - intros t ti base bs m [Et Eh] Hty Hl Hl2 Hc Ha m' Hs. eapply R_var_bytes; [done..| |].
    + eapply at_bytes_same; [done..|]. rewrite length_le_split. intros x Hx. left. eapply own_count; eauto.
    + eapply at_bytes_reach; [done..|by unfold span; rewrite Hty| |done]. unfold inside; lia.
  - intros t ti base bs m [Et Eh] Hty Hn Hl Hl2 Ha m' Hs. eapply R_nil; [done..|].
    eapply at_bytes_reach; [done..|by unfold span; rewrite Hty| |done]. rewrite length_app. cbn. unfold inside; lia.
  - intros t ti base m [Et Eh] Hty Ha m' Hs. eapply R_null; [done..|].
    eapply at_bytes_reach; [done..|unfold span; by destruct Hty as [-> | ->]| |done]. by rewrite length_le_split.
  - intros t ti base q sz v B m [Et Eh] Hty Hq Ha Hsz _ IH m' Hs. eapply R_ptr; [done..| |done|].
    + eapply at_bytes_reach; [done..|by unfold span; rewrite Hty| |done]. by rewrite length_le_split.
    + apply IH. intros x b Hx. apply Hs. right. apply in_blocks_cons. destruct Hx as [Hx|Hx]; [left|by right].
      destruct (lay_child L t ti sz Et) as [_ Hin]; [rewrite Hty; set_solver|done|by apply Hin].
  - intros t ti base q bs m [Et Eh] Hty Hq Ha Hn Hl Hb m' Hs. eapply R_str; [done..| |done|done|].
    + eapply at_bytes_reach; [done..|by unfold span; rewrite Hty| |done]. by rewrite length_le_split.
    + eapply at_bytes_same; [done..|]. rewrite length_app. cbn. intros x Hx. right. apply in_blocks_cons. left.
      unfold inside in *; lia.
  - intros t ti base v B m [Et Eh] Hty _ IH m' Hs. eapply R_ref; [done..|]. apply IH.
    intros x b [Hx|Hx]; apply Hs; [left; by eapply own_ref|by right].
  - intros t ti base v B m [Et Eh] Hty _ IH m' Hs. eapply R_struct; [done..|]. apply IH.
    intros x b [(f & Hf & Hx)|Hx]; apply Hs; [left; by eapply own_field|by right].
  - intros t ti base al q bs m [Et Eh] Hty Hd Ha m' Hs. assert (span ti = Some 16) by (unfold span; by rewrite Hty).
    eapply R_dyn_bytes; [done..|by eapply dyn_at_reach|]. eapply at_bytes_same; [done..|]. intros x Hx. right.
    destruct Hd as (H1 & _). apply in_blocks_dyn; unfold inside in *; lia.
  - intros t ti base al q bs m [Et Eh] Hty Hl Hd Ha m' Hs. assert (span ti = Some 16) by (unfold span; by rewrite Hty).
    eapply R_dyn_string; [done..|by eapply dyn_at_reach|]. eapply at_bytes_same; [done..|]. intros x Hx. right.
    destruct Hd as (H1 & _). apply in_blocks_dyn; unfold inside in *; lia.
  - intros t ti base sz n v B m [Et Eh] Hty Hsz Hn Hn2 _ IH m' Hs. eapply R_fixed_array; [done..|]. apply IH.
    intros x b [(j & Hj & Hx)|Hx]; apply Hs; [left|by right]. eapply (own_elem t ti sz j); [done|by left|done|lia|done].
  - intros t ti base sz n v B m [Et Eh] Hty Hsz Hn Hn2 Hc _ IH m' Hs. eapply R_var_array; [done..| |].
    + eapply at_bytes_same; [done..|]. rewrite length_le_split. intros x Hx. left. eapply own_count; eauto.
    + apply IH. intros x b [(j & Hj & Hx)|Hx]; apply Hs; [left|by right]. eapply (own_elem t ti sz j); [done|by right|done|lia|done].
  - intros t ti base al q sz n v B m [Et Eh] Hty Hsz Hd _ IH m' Hs.
    assert (span ti = Some 16) by (unfold span; by rewrite Hty).
    eapply R_dyn_array; [done..|by eapply dyn_at_reach|]. apply IH. destruct Hd as (H1 & _).
    destruct (lay_child L t ti sz Et) as [Hsz0 Hin]; [rewrite Hty; set_solver|done|].
    intros x b [(j & Hj & Hx)|Hx]; apply Hs; right; apply in_blocks_app; [left|by right].
    apply Hin in Hx. apply in_blocks_dyn; [lia|]. unfold inside in *. nia.
  - intros t ti base m Et Hty m' Hs. by eapply F_end.
  - intros t ti base v w B1 B2 m Et Hty _ IH1 _ IH2 m' Hs. eapply F_cons; [done..| |].
    + apply IH1. intros x b [Hx|Hx]; apply Hs; [left; exists t; split; [by eapply field_here|done]|].
      right. apply in_blocks_app. by left.
    + apply IH2. intros x b [(f & Hf & Hx)|Hx]; apply Hs; [left; exists f; split; [by eapply field_next|done]|].
      right. apply in_blocks_app. by right.
  - intros c base sz i m m' Hs. apply E_end.
  - intros c base sz i n v w B1 B2 m _ IH1 _ IH2 m' Hs. eapply E_cons.
    + apply IH1. intros x b [Hx|Hx]; apply Hs; [left; exists i; split; [lia|done]|].
      right. apply in_blocks_app. by left.
    + apply IH2. intros x b [(j & Hj & Hx)|Hx]; apply Hs; [left; exists j; split; [lia|done]|].
      right. apply in_blocks_app. by right.
Qed.

Definition repr_local (L : Layout) := proj1 (repr_local_mut L).
Definition repr_fields_local (L : Layout) := proj1 (proj2 (repr_local_mut L)).
Definition repr_elems_local (L : Layout) := proj2 (proj2 (repr_local_mut L)).

End Repr.
