(* ===== verification/MarshalEnc.v ===== *)
(** * The marshaller writes the encoding

    [_____marshal] on an object with value [v] appends [enc v] to the chain of
    buffers, or reports that memory ran out. *)
From S2P Require Import Prelude Bytes Psb PsbProps Marshal MarshalVal.
#[local] Open Scope aosl_scope.

Section Enc.
Context `{AL : Allocator} `{OK : !AllocatorOk}.

(** The outcome of a piece that appends [l]. *)
Definition appended (s : mstate) (p : Z) (rest : list Z) (l : list byte) (r : Z * Z) (s' : mstate) : Prop :=
  (r.1 = 0 /\ exists rest', extends s p rest l s' r.2 rest') \/ r.1 = - AOSL_ENOMEM.

(** The same for the marshaller, which returns the number of bytes. *)
Definition written (s : mstate) (p : Z) (rest : list Z) (l : list byte) (r : Z * Z) (s' : mstate) : Prop :=
  (r.1 = Z.of_nat (length l) /\ exists rest', extends s p rest l s' r.2 rest') \/ r.1 = - AOSL_ENOMEM.

(** ** One buffer after the other *)

Lemma ready_psb s p rest : ready s p rest -> exists b, psbs s !! p = Some b /\ psb_ok (bytes s) b.
Proof. intros H. apply (ok_each (rd_ok _ _ _ H)). set_solver. Qed.

Lemma next_psb_wp s p rest b :
  ready s p rest -> psbs s !! p = Some b -> room b = 0 ->
  wp (next_psb p) s (fun r s' => appended s p rest [] r s' /\
    (r.1 = 0 -> exists bq, psbs s' !! r.2 = Some bq /\ 0 < room bq)).
Proof.
  intros Hrd E Hr. unfold next_psb. apply wp_bind. eapply get_psb_wp; [done|]. destruct rest as [|q rest].
  - rewrite (ready_last _ _ _ Hrd E), Z.eqb_refl. apply wp_bind, alloc_psb_wp; [done| |].
    + intros s'. apply wp_ret. split; [by right|done].
    + intros q h m' Hq Eq Bq Hh Hend Bh Hfree Hm Ho.
      replace (IS_ERR q) with false by (symmetry; apply andb_false_intro2, Z.ltb_ge; lia).
      apply wp_bind. eapply get_psb_wp; [cbn; rewrite lookup_insert_ne; [done|congruence]|].
      apply wp_bind. eapply set_psb_wp; [cbn; rewrite lookup_insert_ne; [done|congruence]|].
      apply wp_ret. unfold upd_psbs; cbn. split.
      * left. split; [done|]. exists []. by apply new_extends.
      * intros _. eexists. rewrite lookup_insert_ne by congruence. split; [by rewrite lookup_insert_eq|]. unfold room; change DFLT_MAX_PSB_PKT with 4096; cbn [b_head b_size b_data b_len]; lia.
  - destruct (ready_next _ _ _ _ _ Hrd E) as [Hn Hq0]. rewrite Hn. destruct (Z.eqb_spec q 0) as [?|_]; [done|].
    destruct (next_extends _ _ _ _ _ Hrd E Hr) as [_ Hext]. apply wp_ret. split; [left; eauto|]. intros _.
    destruct (rd_rest _ _ _ Hrd q) as [(c & Ec & Hc) (d & Ed & Hd)]; [set_solver|]. exists c. split; [done|].
    rewrite Ec in Ed. injection Ed as <-. unfold room. lia.
Qed.

(** Put the first bytes of [l] into the current buffer. *)
Lemma put_store_wp {A} s p rest b n l (k : CM mstate A) Q :
  ready s p rest -> psbs s !! p = Some b -> n = Z.of_nat (length l) -> n <= room b -> n < 2 ^ 32 ->
  (forall s', extends s p rest l s' p rest -> psbs s' !! p = Some (upd_data_len (b_data b) (b_len b + n) b) -> wp k s' Q) ->
  wp (do dst <- psb_put p n; (store dst l ;; k)) s Q.
Proof.
  intros Hrd E -> Hn Hn2 HQ. destruct (ready_psb _ _ _ Hrd) as (b0 & E0 & Hb). rewrite E in E0. injection E0 as <-.
  apply wp_bind. eapply psb_put_wp; [done|lia|done|]. apply wp_bind, store_bytes_wp.
  - cbn. intros x Hx. apply (ok_mapped Hb). destruct Hb. unfold buf_of, inside, room in *. lia.
  - intros m' Ha Ho. apply HQ; [|cbn; by rewrite lookup_insert_eq].
    by apply (put_extends s p rest b l m').
Qed.

Lemma appended_trans s p rest l1 s1 p1 rest1 l2 r s2 :
  extends s p rest l1 s1 p1 rest1 -> appended s1 p1 rest1 l2 r s2 -> appended s p rest (l1 ++ l2) r s2.
Proof. intros He [[E [rest' H]]|?]; [left|by right]. split; [done|]. exists rest'. by eapply extends_trans. Qed.

Lemma room_after_put b n : room (upd_data_len (b_data b) (b_len b + n) b) = room b - n.
Proof. unfold room; cbn. lia. Qed.

(** Rounds needed for [n] bytes: every buffer but the first has room. *)
Definition rounds (b : ps_buff) (n : nat) : nat := n + (if 0 <? room b then 0 else 1).

Lemma encode_split_wp fuel : forall l s p rest b,
  ready s p rest -> psbs s !! p = Some b -> l <> [] -> (rounds b (length l) <= fuel)%nat -> Z.of_nat (length l) < 2 ^ 32 ->
  wp (encode_split fuel p l) s (appended s p rest l).
Proof.
  induction fuel as [|fuel IH]; intros l s p rest b Hrd E Hl Hf H32.
  { unfold rounds in Hf. destruct l; [done|cbn in Hf; lia]. }
  cbn [encode_split]. apply wp_bind. eapply get_psb_wp; [done|].
  destruct (ready_psb _ _ _ Hrd) as (b0 & E0 & Hb). rewrite E in E0. injection E0 as <-.
  rewrite (psb_tailroom_ok _ _ Hb). pose proof (ok_room Hb) as Hroom. set (copy := Z.min _ _).
  pose proof (take_drop (Z.to_nat copy) l) as Hsplit.
  assert (copy = Z.of_nat (length (take (Z.to_nat copy) l))) as Hc by (rewrite length_take; lia).
  eapply put_store_wp; [done..|lia|lia|]. intros s1 He1 E1.
  destruct (Nat.eqb_spec (length (drop (Z.to_nat copy) l)) 0) as [H0|H0].
  { apply nil_length_inv in H0. rewrite H0, app_nil_r in Hsplit. rewrite Hsplit in He1. apply wp_ret. left. split; [done|]. eauto. }
  rewrite length_drop in H0. assert (copy = room b) as Hcr by lia.
  apply wp_bind. eapply wp_mono; [eapply next_psb_wp; [by eapply extends_ready|done|rewrite room_after_put; lia]|].
  intros [e q] s2 [[[E2 [rest2 He2]]|E2] Hq]; cbn in E2; subst e; cbn [fst snd] in *.
  - destruct (Hq eq_refl) as (bq & Ebq & Hrq). eapply wp_mono.
    + eapply IH; [by eapply extends_ready|done|intros Hd; by rewrite <-length_drop, Hd in H0| |rewrite length_drop; lia].
      unfold rounds in *. rewrite length_drop. destruct (Z.ltb_spec 0 (room bq)); [|lia].
      destruct (Z.ltb_spec 0 (room b)); lia.
    + intros r s3 Ha. rewrite <-Hsplit. eapply appended_trans; [|exact Ha]. rewrite <-(app_nil_r (take _ _)). by eapply extends_trans.
  - apply wp_ret. by right.
Qed.

Lemma check_and_encode_basetype_wp fuel l s p rest :
  ready s p rest -> l <> [] -> (length l < fuel)%nat -> Z.of_nat (length l) < 2 ^ 32 ->
  wp (check_and_encode_basetype fuel p l) s (appended s p rest l).
Proof.
  intros Hrd Hl Hf H32. unfold check_and_encode_basetype.
  destruct (ready_psb _ _ _ Hrd) as (b & E & Hb). destruct (Z.leb_spec (Z.of_nat (length l)) (room b)) as [Hle|Hgt].
  - apply wp_bind. eapply psb_put_wp; [done|lia|done|]. destruct Hb as [B1 B2 B3 B4 B5].
    replace (IS_ERR (b_data b + b_len b)) with false by (symmetry; apply andb_false_intro2, Z.ltb_ge; lia).
    apply wp_bind, store_bytes_wp.
    + cbn. intros x Hx. apply B5. unfold buf_of, inside, room in *. lia.
    + intros m' Ha Ho. apply wp_ret. left. split; [done|]. exists rest. by apply (put_extends s p rest b l m').
  - apply wp_bind. eapply psb_put_full_wp; [done|lia|done|]. eapply encode_split_wp; [done..| |done].
    unfold rounds. destruct (0 <? room b); lia.
Qed.

(** ** Bytes that are not in the chain *)

(** The bytes in [P] exist and do not belong to the buffers. *)
Definition safe (s : mstate) (p : Z) (rest : list Z) (P : Z -> Prop) : Prop :=
  mapped (bytes s) P /\ forall x, P x -> ~ bufs s (p :: rest) x.

Lemma extends_safe s p rest l s' p' rest' P :
  extends s p rest l s' p' rest' -> safe s p rest P -> same_on P (bytes s) (bytes s') /\ safe s' p' rest' P.
Proof.
  intros [full F] [Hm Hs]. split; [|split].
  - intros x b Hx. apply (fl_bytes F). by apply Hs.
  - intros x Hx. by apply (fl_mapped F), Hm.
  - intros x Hx (q & b & Hq & Hb). destruct (fl_bufs F x) as [?|Hnone].
    + exists q, b. split; [set_solver|done].
    + by apply (Hs x).
    + destruct (Hm x Hx) as [? ?]. congruence.
Qed.

Lemma safe_sub s p rest (P Q : Z -> Prop) : safe s p rest P -> (forall x, Q x -> P x) -> safe s p rest Q.
Proof. intros [H1 H2] H. split; intros x Hx; auto. Qed.

Lemma check_and_encode_bytes_wp fuel : forall l s p rest b src,
  ready s p rest -> psbs s !! p = Some b -> (rounds b (length l) <= fuel)%nat -> Z.of_nat (length l) < 2 ^ 32 ->
  at_bytes (bytes s) src l -> safe s p rest (inside src (Z.of_nat (length l))) ->
  wp (check_and_encode_bytes fuel p src (Z.of_nat (length l))) s (appended s p rest l).
Proof.
  induction fuel as [|fuel IH]; intros l s p rest b src Hrd E Hf H32 Ha Hsafe;
    destruct (decide (l = [])) as [->|Hl]; try (apply wp_ret; left; split; [done|exists rest; by apply extends_refl]).
  { unfold rounds in Hf. destruct l; [done|cbn in Hf; lia]. }
  assert (0 < length l)%nat as Hpos by (destruct l; [done|cbn; lia]).
  cbn [check_and_encode_bytes]. destruct (Z.leb_spec (Z.of_nat (length l)) 0) as [?|_]; [lia|].
  apply wp_bind. eapply get_psb_wp; [done|].
  destruct (ready_psb _ _ _ Hrd) as (b0 & E0 & Hb). rewrite E in E0. injection E0 as <-.
  rewrite (psb_tailroom_ok _ _ Hb). pose proof (ok_room Hb) as Hroom. set (copy := Z.min _ _).
  pose proof (take_drop (Z.to_nat copy) l) as Hsplit. set (l1 := take _ l) in *. set (l2 := drop _ l) in *.
  assert (copy = Z.of_nat (length l1)) as Hc by (unfold l1; rewrite length_take; lia).
  assert (Z.of_nat (length l) - copy = Z.of_nat (length l2)) as Hc2 by (unfold l2; rewrite length_drop; lia).
  rewrite <-Hsplit in Ha. apply at_bytes_app in Ha as [Ha1 Ha2]. rewrite <-Hc in Ha2.
  apply wp_bind. eapply psb_put_wp; [done|lia|lia|].
  apply wp_bind. unfold memcpy. apply wp_bind. eapply load_bytes_wp; [exact Ha1|lia|].
  apply store_bytes_wp. { cbn. intros x Hx. apply (ok_mapped Hb). destruct Hb. unfold buf_of, inside, room in *. lia. }
  cbn. intros m' Hm1 Hm2.
  pose proof (put_extends s p rest b l1 m' Hrd E ltac:(lia) Hm1 Hm2) as He1.
  rewrite <-Hc in He1. rewrite Hc2. destruct (Z.eqb_spec (Z.of_nat (length l2)) 0) as [H0|H0].
  { apply wp_ret. assert (l2 = []) as Hl2 by (apply nil_length_inv; lia). rewrite Hl2, app_nil_r in Hsplit.
    rewrite Hsplit in He1. left. split; [done|]. eauto. }
  destruct (extends_safe _ _ _ _ _ _ _ _ He1 Hsafe) as [Hsame Hsafe1].
  apply wp_bind. eapply wp_mono; [eapply next_psb_wp; [by eapply extends_ready|by apply lookup_insert_eq|]|].
  { rewrite room_after_put. lia. }
  intros [e q] s2 [[[E2 [rest2 He2]]|E2] Hq]; cbn in E2; subst e; cbn [fst snd] in *; [|apply wp_ret; by right].
  destruct (Hq eq_refl) as (bq & Ebq & Hrq). destruct (extends_safe _ _ _ _ _ _ _ _ He2 Hsafe1) as [Hsame2 Hsafe2].
  eapply wp_mono; [eapply IH; [by eapply extends_ready|done| |lia| |]|].
  - unfold rounds in *. destruct (Z.ltb_spec 0 (room bq)); [|lia]. destruct (Z.ltb_spec 0 (room b)); lia.
  - eapply at_bytes_same; [exact Ha2| |].
    + eapply same_on_trans; [exact Hsame|exact Hsame2|done].
    + intros x Hx. unfold inside in *. lia.
  - eapply safe_sub; [done|]. intros x Hx. unfold inside in *. lia.
  - intros r s3 Hap. rewrite <-Hsplit. eapply appended_trans; [|exact Hap]. rewrite <-(app_nil_r l1). by eapply extends_trans.
Qed.

Lemma encode_bytes_wp fuel l s p rest src n :
  ready s p rest -> (length l < fuel)%nat -> n = Z.of_nat (length l) -> n < 2 ^ 32 ->
  at_bytes (bytes s) src l -> safe s p rest (inside src n) ->
  wp (check_and_encode_bytes fuel p src n) s (appended s p rest l).
Proof.
  intros Hrd Hf -> Hn Ha Hs. destruct (ready_psb _ _ _ Hrd) as (b & E & Hb).
  eapply check_and_encode_bytes_wp; [done..| |done|done|done]. unfold rounds. destruct (0 <? room b); lia.
Qed.

Lemma strlen_wp fuel : forall bs a s Q,
  at_bytes (bytes s) a (bs ++ [NUL]) -> NUL ∉ bs -> (length bs < fuel)%nat -> Q (Z.of_nat (length bs)) s ->
  wp (strlen fuel a) s Q.
Proof.
  induction fuel as [|fuel IH]; intros bs a s Q Ha Hn Hf HQ; [lia|]. cbn [strlen]. destruct bs as [|b bs].
  - apply wp_bind. eapply load_bytes_wp; [exact Ha|done|]. by apply wp_ret.
  - cbn [app] in Ha. apply at_bytes_cons in Ha as [Hb Ha]. apply wp_bind.
    eapply (load_bytes_wp s a 1 [b]); [rewrite at_bytes_cons; split; [done|apply at_bytes_nil]|done|].
    rewrite decide_False by set_solver. apply wp_bind. eapply IH; [exact Ha|set_solver|cbn in Hf; lia|].
    apply wp_ret. cbn [length] in HQ. by replace (Z.of_nat (length bs) + 1) with (Z.of_nat (S (length bs))) by lia.
Qed.

(** ** The walk through an object *)

Context (T : gmap Z aosl_type_info_t) (D : nat) (stk : Z -> Z -> bool).

Lemma get_type_wp s t ti Q : T !! t = Some ti -> Q ti s -> wp (get_type T t) s Q.
Proof. intros E HQ. unfold wp, get_type. by rewrite E. Qed.

Lemma absent_wp s ti a Q : is_have ti = None -> Q false s -> wp (absent ti a) s Q.
Proof. intros E HQ. unfold wp, absent. run. by rewrite E. Qed.

Lemma get_type_size_mono k k' t r : get_type_size T k t = Ret r -> (k <= k')%nat -> get_type_size T k' t = Ret r.
Proof.
  revert k' t r. induction k as [|k IH]; intros k' t r E Hk; [done|]. destruct k' as [|k']; [lia|].
  cbn [get_type_size] in *. destruct (T !! t) as [ti|]; [|done].
  destruct (type_id ti); try done; [by apply IH; [|lia]|..];
    destruct (get_type_size T k (child ti)) as [o| | |] eqn:Ek; try done; by rewrite (IH k' _ o Ek) by lia.
Qed.

Lemma size_wp fuel t sz (s : mstate) Q :
  get_type_size T D t = Ret (Some sz) -> (D <= fuel)%nat -> Q (Some sz) s -> wp (lift (get_type_size T fuel t)) s Q.
Proof. intros E Hf HQ. unfold wp, lift. by rewrite (get_type_size_mono _ _ _ _ E Hf). Qed.

Lemma load16_wp s a v Q : at_bytes (bytes s) a (le_split 2 v) -> 0 <= v < 2 ^ 16 -> Q v s -> wp (load16 a) s Q.
Proof.
  intros Ha Hv HQ. unfold load16. apply wp_bind. eapply load_bytes_wp; [exact Ha|apply length_le_split|]. apply wp_ret.
  rewrite le_combine_split, Z.mod_small; done.
Qed.

Lemma load_ptr_wp s a v Q : at_bytes (bytes s) a (le_split 8 v) -> 0 <= v < 2 ^ 64 -> Q v s -> wp (load_ptr a) s Q.
Proof.
  intros Ha Hv HQ. unfold load_ptr. apply wp_bind. eapply load_bytes_wp; [exact Ha|apply length_le_split|]. apply wp_ret.
  rewrite le_combine_split, Z.mod_small; done.
Qed.

Lemma written_app s p rest l1 s1 p1 rest1 l2 r s2 len :
  extends s p rest l1 s1 p1 rest1 -> len = Z.of_nat (length l1) -> written s1 p1 rest1 l2 r s2 ->
  wp (marshal_out p r (len + r.1)) s2 (written s p rest (l1 ++ l2)).
Proof.
  intros He -> [[E [rest' H]]|E]; unfold marshal_out; rewrite E.
  - destruct (Z.ltb_spec (Z.of_nat (length l2)) 0); [lia|]. apply wp_ret. left. rewrite length_app. cbn. split; [lia|].
    exists rest'. by eapply extends_trans.
  - apply wp_ret. by right.
Qed.

Lemma appended_out s p rest l1 s1 p1 rest1 l2 r s2 len :
  extends s p rest l1 s1 p1 rest1 -> len = Z.of_nat (length (l1 ++ l2)) -> appended s1 p1 rest1 l2 r s2 ->
  wp (marshal_out p r len) s2 (written s p rest (l1 ++ l2)).
Proof.
  intros He -> [[E [rest' H]]|E]; unfold marshal_out; rewrite E.
  - apply wp_ret. left. split; [done|]. exists rest'. by eapply extends_trans.
  - apply wp_ret. by right.
Qed.

Lemma appended_out0 s p rest l r s' len :
  len = Z.of_nat (length l) -> appended s p rest l r s' -> wp (marshal_out p r len) s' (written s p rest l).
Proof.
  intros -> [[E [rest' H]]|E]; unfold marshal_out; rewrite E; apply wp_ret; [left|by right]. split; [done|]. by exists rest'.
Qed.

(** Numbers go to the wire as the bytes they have in memory. *)
Definition identity_on (n : nat) (f : Z -> Z) : Prop := forall bs : list byte, length bs = n -> f (le_combine bs) = le_combine bs.

Lemma identity_wrap n w : w = 8 * Z.of_nat n -> identity_on n (wrapu w).
Proof. intros -> bs Hl. apply wrapu_id. pose proof (le_combine_bound bs) as H. by rewrite Hl in H. Qed.

Lemma identity_id n : identity_on n (fun v => v).
Proof. done. Qed.

Lemma encode_int_wp n f fuel s p rest a bs :
  identity_on n f -> ready s p rest -> at_bytes (bytes s) a bs -> length bs = n -> (0 < n < fuel)%nat -> (n <= 16)%nat ->
  wp (encode_int n f fuel p a) s (written s p rest bs).
Proof.
  intros Hid Hrd Ha Hl Hf H16. unfold encode_int. apply wp_bind. eapply load_bytes_wp; [done..|].
  rewrite (Hid bs Hl), (split_le_combine' bs n Hl).
  wstep check_and_encode_basetype_wp; [done|by intros ->; cbn in Hl; lia|lia|lia|].
  intros r s' Hap. apply appended_out0; [lia|done].
Qed.

Lemma marshal_bool_wp fuel t base s p rest (b : bool) :
  (forall t a, stk t a = false) -> ready s p rest -> (1 < fuel)%nat ->
  wp (marshal_bool stk fuel t base p b) s (written s p rest [if b then Init.Byte.x01 else Init.Byte.x00]).
Proof.
  intros Hstk Hrd Hf. unfold marshal_bool. rewrite Hstk. wstep check_and_encode_basetype_wp; [done|done|done|done|].
  intros [e q] s' [[E [rest' H]]|E]; cbn in E; subst e; apply wp_ret; [left|by right]. split; [done|]. by exists rest'.
Qed.

Hypothesis no_stack_garbage : forall t a, stk t a = false.
Hypothesis L : Layout T D.

(** The object can be read and lies apart from the buffers. *)
Definition readable (m : bytemap) (s : mstate) (p : Z) (rest : list Z) (P : Z -> Prop) : Prop :=
  same_on P m (bytes s) /\ safe s p rest P.

Lemma readable_sub m s p rest (P Q : Z -> Prop) : readable m s p rest P -> (forall x, Q x -> P x) -> readable m s p rest Q.
Proof. intros [H1 H2] H. split; [intros x b Hx; apply H1; auto|by eapply safe_sub]. Qed.

Lemma readable_extends m s p rest l s' p' rest' P :
  readable m s p rest P -> extends s p rest l s' p' rest' -> readable m s' p' rest' P.
Proof.
  intros [H1 H2] He. destruct (extends_safe _ _ _ _ _ _ _ _ He H2) as [H3 H4]. split; [|done].
  by eapply same_on_trans.
Qed.

Lemma readable_at m s p rest P a l :
  readable m s p rest P -> at_bytes m a l -> (forall x, inside a (Z.of_nat (length l)) x -> P x) ->
  at_bytes (bytes s) a l /\ safe s p rest (inside a (Z.of_nat (length l))).
Proof. intros [H1 H2] Ha Hi. split; [by eapply at_bytes_same|by eapply safe_sub]. Qed.

Definition marshal_ok (t base : Z) (v : val) (B : list (Z * Z)) (m : bytemap) : Prop :=
  forall s p rest fuel, readable m s p rest (reach T D t base B) -> ready s p rest -> (cost v + D <= fuel)%nat ->
    wp (_____marshal T stk fuel t base p) s (written s p rest (enc v)).

Definition marshal_fields_ok (t base : Z) (v : val) (B : list (Z * Z)) (m : bytemap) : Prop :=
  forall s p rest fuel s0 p0 rest0 l0,
    readable m s p rest (fun x => own_fields T D t base x \/ in_blocks B x) ->
    extends s0 p0 rest0 l0 s p rest -> (cost v + D <= fuel)%nat ->
    wp (marshal_fields T stk fuel p0 t base p (Z.of_nat (length l0))) s (written s0 p0 rest0 (l0 ++ enc v)).

Definition marshal_elems_ok (c base sz i : Z) (n : nat) (v : val) (B : list (Z * Z)) (m : bytemap) : Prop :=
  forall s p rest fuel s0 p0 rest0 l0,
    readable m s p rest (fun x => own_elems T D c base sz i n x \/ in_blocks B x) ->
    extends s0 p0 rest0 l0 s p rest -> 0 <= i -> i + Z.of_nat n < 2 ^ 16 -> (cost v + D <= fuel)%nat ->
    wp (marshal_elems T stk fuel p0 c base sz i (i + Z.of_nat n) p (Z.of_nat (length l0))) s
       (written s0 p0 rest0 (l0 ++ enc v)).

(** Enter a call on a type that is present. *)
Ltac enter fuel Et Eh Hty :=
  destruct fuel as [|fuel]; [cbn in *; lia|]; cbn [_____marshal]; apply wp_bind; eapply get_type_wp; [exact Et|];
  apply wp_bind; apply absent_wp; [exact Eh|]; cbn iota; rewrite ?Hty.

Lemma marshal_flat_ok t ti base n bs m :
  entry T t ti -> flat_size (type_id ti) = Some n -> length bs = n ->
  at_bytes m (base + obj_addr ti) bs -> marshal_ok t base (VRaw bs) [] m.
Proof.
  intros [Et Eh] Hf Hl Ha s p rest fuel Hr Hrd Hc.
  eapply readable_at in Ha as [Ha _]; [|done|intros x; rewrite Hl; eapply reach_span; [done|by apply flat_span]].
  enter fuel Et Eh I. cbn [cost enc] in *.
  destruct (type_id ti); try done; injection Hf as <-;
    try (unfold sizeof_in_addr, sizeof_in6_addr; eapply encode_int_wp; [first [by apply identity_wrap|apply identity_id]|done..|lia|lia]).
  apply wp_ret. left. apply nil_length_inv in Hl as ->. split; [done|]. exists rest. by apply extends_refl.
Qed.

Lemma le_split_u16 n : Z.of_nat n < 2 ^ 16 -> le_split 2 (__encode_int16 (Z.of_nat n)) = le_split 2 (Z.of_nat n).
Proof. intros H. unfold __encode_int16. by rewrite wrapu_id by lia. Qed.

(** A counter, then what follows it. *)
Lemma encode_count_wp {A} fuel n s p rest Q (k : Z * Z -> CM mstate A) :
  ready s p rest -> Z.of_nat n < 2 ^ 16 -> (2 < fuel)%nat ->
  (forall q s' rest', extends s p rest (le_split 2 (Z.of_nat n)) s' q rest' -> wp (k (0, q)) s' Q) ->
  (forall q s', wp (k (- AOSL_ENOMEM, q)) s' Q) ->
  wp (cbind (check_and_encode_basetype fuel p (le_split 2 (__encode_int16 (Z.of_nat n)))) k) s Q.
Proof.
  intros Hrd Hn Hf H1 H2. rewrite le_split_u16 by done.
  wstep check_and_encode_basetype_wp; [done|done|by rewrite length_le_split|by rewrite length_le_split|].
  intros [e q] s' [[E [rest' H]]|E]; cbn in E; subst e; [by eapply H1|apply H2].
Qed.

Lemma marshal_fixed_bytes_ok t ti base bs m :
  entry T t ti -> type_id ti = AOSL_TYPE_FIXED_BYTES -> Z.of_nat (length bs) = array_size ti -> array_size ti < 2 ^ 32 ->
  at_bytes m (base + obj_addr ti) bs -> marshal_ok t base (VRaw bs) [] m.
Proof.
  intros [Et Eh] Hty Hl H32 Ha s p rest fuel Hr Hrd Hc.
  eapply readable_at in Ha as [Ha Hs]; [|done|].
  2: { intros x. rewrite Hl. eapply reach_span; [done|unfold span; by rewrite Hty]. }
  enter fuel Et Eh Hty. cbn [cost enc] in *.
  wstep (encode_bytes_wp _ bs); [exact Hrd|lia|by rewrite Hl|done|exact Ha|by rewrite <-Hl|].
  intros r s' Hap. apply appended_out0; [lia|done].
Qed.

Lemma marshal_var_bytes_ok t ti base bs m :
  entry T t ti -> type_id ti = AOSL_TYPE_VAR_BYTES ->
  Z.of_nat (length bs) <= array_size ti -> Z.of_nat (length bs) < 2 ^ 16 ->
  at_bytes m (base + count_var_addr ti) (le_split 2 (Z.of_nat (length bs))) ->
  at_bytes m (base + obj_addr ti) bs -> marshal_ok t base (VCount (length bs) (VRaw bs)) [] m.
Proof.
  intros [Et Eh] Hty Hl H16 Hcnt Ha s p rest fuel Hr Hrd Hc.
  eapply readable_at in Hcnt as [Hcnt _]; [|done|].
  2: { intros x. rewrite length_le_split. intros Hx. left. eapply own_count; eauto. }
  enter fuel Et Eh Hty. cbn [cost enc] in *.
  apply wp_bind. eapply load16_wp; [exact Hcnt|lia|]. apply encode_count_wp with (rest := rest); [done|done|lia| |].
  - intros q s1 rest1 He. cbn. eapply readable_at in Ha as [Ha Hs]; [|by eapply readable_extends|].
    2: { intros x Hx. eapply reach_span; [done|by unfold span; rewrite Hty|]. unfold inside in *; lia. }
    wstep (encode_bytes_wp _ bs); [by eapply extends_ready|lia|done|lia|exact Ha|done|].
    intros r s2 Hap. eapply appended_out; [exact He|rewrite length_app, length_le_split; lia|done].
  - intros q s'. apply wp_ret. by right.
Qed.

Lemma marshal_nil_ok t ti base bs m :
  entry T t ti -> type_id ti = AOSL_TYPE_BYTES_WITH_NIL -> NUL ∉ bs ->
  Z.of_nat (length bs) + 1 <= array_size ti -> Z.of_nat (length bs) + 1 < 2 ^ 16 ->
  at_bytes m (base + obj_addr ti) (bs ++ [NUL]) -> marshal_ok t base (VText bs) [] m.
Proof.
  intros [Et Eh] Hty Hn Hl H16 Ha s p rest fuel Hr Hrd Hc.
  assert (Z.of_nat (length (bs ++ [NUL])) = Z.of_nat (length bs) + 1) as Hlen by (rewrite length_app; cbn; lia).
  eapply readable_at in Ha as [Ha Hs]; [|done|].
  2: { intros x. rewrite Hlen. intros Hx. eapply reach_span; [done|by unfold span; rewrite Hty|]. unfold inside in *; lia. }
  enter fuel Et Eh Hty. cbn [cost enc] in *.
  apply wp_bind. eapply strlen_wp; [exact Ha|done|lia|]. rewrite wrapu_id by lia.
  destruct (Z.ltb_spec (array_size ti) (Z.of_nat (length bs) + 1)) as [?|_]; [lia|].
  wstep (encode_bytes_wp _ (bs ++ [NUL])); [exact Hrd| |by rewrite Hlen|lia|exact Ha|by rewrite <-Hlen|]; [rewrite length_app; cbn; lia|].
  intros r s' Hap. by apply appended_out0.
Qed.

(** The byte that says whether a pointer is null, then what follows. *)
Lemma encode_bool_wp fuel t base n s p rest (b : bool) (k : Z * Z -> CM mstate (Z * Z)) :
  ready s p rest -> (1 < fuel)%nat ->
  (forall q s' rest', extends s p rest [if b then Init.Byte.x01 else Init.Byte.x00] s' q rest' -> wp (k (1, q)) s' (written s p rest n)) ->
  (forall q s', wp (k (- AOSL_ENOMEM, q)) s' (written s p rest n)) ->
  wp (cbind (marshal_bool stk fuel t base p b) k) s (written s p rest n).
Proof.
  intros Hrd Hf H1 H2. wstep marshal_bool_wp; [done|done|done|].
  intros [e q] s' [[E [rest' H]]|E]; cbn in E; subst e; [by eapply H1|apply H2].
Qed.

Lemma marshal_null_ok t ti base m :
  entry T t ti -> type_id ti = AOSL_TYPE_POINTER \/ type_id ti = AOSL_TYPE_STRING ->
  at_bytes m (base + obj_addr ti) (le_split 8 0) -> marshal_ok t base VNull [] m.
Proof.
  intros [Et Eh] Hty Ha s p rest fuel Hr Hrd Hc. eapply readable_at in Ha as [Ha _]; [|done|].
  2: { intros x. rewrite length_le_split. eapply reach_span; [done|unfold span; by destruct Hty as [-> | ->]]. }
  destruct Hty as [Hty|Hty]; enter fuel Et Eh Hty; cbn [cost enc] in *;
    (apply wp_bind; eapply load_ptr_wp; [exact Ha|done|]; apply encode_bool_wp; [done|lia| |intros; apply wp_ret; by right];
     intros q s' rest' He; apply wp_ret; left; split; [done|by exists rest']).
Qed.

Lemma marshal_ptr_ok t ti base q sz v B m :
  entry T t ti -> type_id ti = AOSL_TYPE_POINTER -> 0 < q < 2 ^ 64 ->
  at_bytes m (base + obj_addr ti) (le_split 8 q) -> get_type_size T D (child ti) = Ret (Some sz) ->
  marshal_ok (child ti) q v B m -> marshal_ok t base (VBox v) ((q, sz) :: B) m.
Proof.
  intros [Et Eh] Hty Hq Ha Hsz IH s p rest fuel Hr Hrd Hc. eapply readable_at in Ha as [Ha _]; [|done|].
  2: { intros x. rewrite length_le_split. eapply reach_span; [done|by unfold span; rewrite Hty]. }
  enter fuel Et Eh Hty. cbn [cost enc] in *. apply wp_bind. eapply load_ptr_wp; [exact Ha|lia|].
  destruct (Z.eqb_spec q 0) as [?|_]; [lia|]. cbn [negb]. apply encode_bool_wp; [done|lia| |intros; apply wp_ret; by right].
  intros p1 s1 rest1 He. cbn. apply wp_bind. eapply wp_mono; [apply (IH s1 p1 rest1); [|by eapply extends_ready|lia]|].
  - eapply readable_sub; [by eapply readable_extends|]. intros x Hx. right. apply in_blocks_cons.
    destruct Hx as [Hx|Hx]; [left|by right].
    destruct (lay_child _ _ L t ti sz Et) as [_ Hin]; [rewrite Hty; set_solver|done|by apply Hin].
  - intros [e p2] s2 Hw. eapply (written_app _ _ _ _ _ _ _ _ (e, p2) s2 1 He); done.
Qed.

Lemma marshal_str_ok t ti base q bs m :
  entry T t ti -> type_id ti = AOSL_TYPE_STRING -> 0 < q < 2 ^ 64 ->
  at_bytes m (base + obj_addr ti) (le_split 8 q) -> NUL ∉ bs -> Z.of_nat (length bs) + 1 < 2 ^ 16 ->
  at_bytes m q (bs ++ [NUL]) -> marshal_ok t base (VBox (VText bs)) [(q, Z.of_nat (length bs) + 1)] m.
Proof.
  intros [Et Eh] Hty Hq Ha Hn Hl Hb s p rest fuel Hr Hrd Hc. eapply readable_at in Ha as [Ha _]; [|done|].
  2: { intros x. rewrite length_le_split. eapply reach_span; [done|by unfold span; rewrite Hty]. }
  assert (Z.of_nat (length (bs ++ [NUL])) = Z.of_nat (length bs) + 1) as Hlen by (rewrite length_app; cbn; lia).
  enter fuel Et Eh Hty. cbn [cost enc] in *. apply wp_bind. eapply load_ptr_wp; [exact Ha|lia|].
  destruct (Z.eqb_spec q 0) as [?|_]; [lia|]. cbn [negb]. apply encode_bool_wp; [done|lia| |intros; apply wp_ret; by right].
  intros p1 s1 rest1 He. cbn. eapply readable_at in Hb as [Hb Hs]; [|by eapply readable_extends|].
  2: { intros x. rewrite Hlen. intros Hx. right. apply in_blocks_cons. by left. }
  apply wp_bind. eapply strlen_wp; [exact Hb|done|lia|]. rewrite wrapu_id by lia.
  wstep (encode_bytes_wp _ (bs ++ [NUL])); [by eapply extends_ready| |by rewrite Hlen|lia|exact Hb|by rewrite <-Hlen|]; [rewrite length_app; cbn; lia|].
  intros r s2 Hap. eapply (appended_out _ _ _ _ _ _ _ _ r s2 _ He); [cbn [length app]; lia|done].
Qed.

Lemma marshal_ref_ok t ti base v B m :
  entry T t ti -> type_id ti = AOSL_TYPE_REFERENCE -> marshal_ok (child ti) (base + obj_addr ti) v B m ->
  marshal_ok t base (VGroup v) B m.
Proof.
  intros [Et Eh] Hty IH s p rest fuel Hr Hrd Hc. enter fuel Et Eh Hty. cbn [cost enc] in *.
  apply wp_bind. eapply wp_mono; [apply (IH s p rest); [|done|lia]|].
  - eapply readable_sub; [done|]. intros x [Hx|Hx]; [left; by eapply own_ref|by right].
  - intros [e p2] s2 Hw. by eapply (written_app _ _ _ [] _ _ _ _ (e, p2) s2 0 (extends_refl _ _ _ Hrd)).
Qed.

Lemma marshal_struct_ok t ti base v B m :
  entry T t ti -> type_id ti = AOSL_TYPE_STRUCT -> marshal_fields_ok (child ti) (base + obj_addr ti) v B m ->
  marshal_ok t base (VGroup v) B m.
Proof.
  intros [Et Eh] Hty IH s p rest fuel Hr Hrd Hc. enter fuel Et Eh Hty. cbn [cost enc] in *.
  apply (IH s p rest fuel s p rest []); [|by apply extends_refl|lia].
  eapply readable_sub; [done|]. intros x [(f & Hf & Hx)|Hx]; [left; by eapply own_field|by right].
Qed.

Lemma marshal_fields_cons_ok t ti base v w B1 B2 m :
  T !! t = Some ti -> type_id ti <> AOSL_TYPE_VOID -> marshal_ok t base v B1 m ->
  marshal_fields_ok (t + sizeof_type_info) base w B2 m -> marshal_fields_ok t base (VCons v w) (B1 ++ B2) m.
Proof.
  intros Et Hty IH1 IH2 s p rest fuel s0 p0 rest0 l0 Hr He Hc. cbn [cost enc] in *. destruct fuel as [|fuel]; [lia|].
  cbn [marshal_fields]. apply wp_bind. eapply get_type_wp; [exact Et|]. rewrite decide_False by done.
  apply wp_bind. eapply wp_mono; [apply (IH1 s p rest); [|by eapply extends_ready|lia]|].
  - eapply readable_sub; [done|]. intros x [Hx|Hx]; [left; exists t; split; [by eapply field_here|done]|].
    right. apply in_blocks_app. by left.
  - intros [e p1] s1 [[E [rest1 He1]]|E]; cbn [fst snd] in *; subst e; [|apply wp_ret; by right].
    destruct (Z.ltb_spec (Z.of_nat (length (enc v))) 0) as [?|_]; [lia|].
    replace (Z.of_nat (length l0) + Z.of_nat (length (enc v))) with (Z.of_nat (length (l0 ++ enc v))) by (rewrite length_app; lia).
    rewrite (assoc_L (++)). apply (IH2 s1 p1 rest1); [|by eapply extends_trans|lia].
    eapply readable_sub; [by eapply readable_extends|].
    intros x [(f & Hf & Hx)|Hx]; [left; exists f; split; [by eapply field_next|done]|]. right. apply in_blocks_app. by right.
Qed.

Lemma marshal_elems_cons_ok c base sz i n v w B1 B2 m :
  marshal_ok c (base + sz * i) v B1 m -> marshal_elems_ok c base sz (i + 1) n w B2 m ->
  marshal_elems_ok c base sz i (S n) (VCons v w) (B1 ++ B2) m.
Proof.
  intros IH1 IH2 s p rest fuel s0 p0 rest0 l0 Hr He Hi Hn Hc. cbn [cost enc] in *. destruct fuel as [|fuel]; [lia|].
  cbn [marshal_elems]. destruct (Z.ltb_spec i (i + Z.of_nat (S n))) as [_|?]; [|lia].
  apply wp_bind. eapply wp_mono; [apply (IH1 s p rest); [|by eapply extends_ready|lia]|].
  - eapply readable_sub; [done|]. intros x [Hx|Hx]; [left; exists i; split; [lia|done]|].
    right. apply in_blocks_app. by left.
  - intros [e p1] s1 [[E [rest1 He1]]|E]; cbn [fst snd] in *; subst e; [|apply wp_ret; by right].
    destruct (Z.ltb_spec (Z.of_nat (length (enc v))) 0) as [?|_]; [lia|]. rewrite wrapu_id by lia.
    replace (Z.of_nat (length l0) + Z.of_nat (length (enc v))) with (Z.of_nat (length (l0 ++ enc v))) by (rewrite length_app; lia).
    replace (i + Z.of_nat (S n)) with (i + 1 + Z.of_nat n) by lia.
    rewrite (assoc_L (++)). apply (IH2 s1 p1 rest1); [|by eapply extends_trans|lia|lia|lia].
    eapply readable_sub; [by eapply readable_extends|].
    intros x [(j & Hj & Hx)|Hx]; [left; exists j; split; [lia|done]|]. right. apply in_blocks_app. by right.
Qed.

Lemma marshal_fixed_array_ok t ti base sz n v B m :
  entry T t ti -> type_id ti = AOSL_TYPE_FIXED_ARRAY -> get_type_size T D (child ti) = Ret (Some sz) ->
  Z.of_nat n = array_size ti -> Z.of_nat n < 2 ^ 16 ->
  marshal_elems_ok (child ti) (base + obj_addr ti) sz 0 n v B m -> marshal_ok t base (VGroup v) B m.
Proof.
  intros [Et Eh] Hty Hsz Hn Hn2 IH s p rest fuel Hr Hrd Hc. enter fuel Et Eh Hty. cbn [cost enc] in *.
  apply wp_bind. eapply size_wp; [done|lia|]. rewrite <-Hn.
  apply (IH s p rest fuel s p rest []); [|by apply extends_refl|lia|lia|lia].
  eapply readable_sub; [done|]. intros x [(j & Hj & Hx)|Hx]; [left|by right].
  eapply (own_elem _ _ t ti sz j); [done|by left|done|lia|done].
Qed.

Lemma marshal_var_array_ok t ti base sz n v B m :
  entry T t ti -> type_id ti = AOSL_TYPE_VAR_ARRAY -> get_type_size T D (child ti) = Ret (Some sz) ->
  Z.of_nat n <= array_size ti -> Z.of_nat n < 2 ^ 16 ->
  at_bytes m (base + count_var_addr ti) (le_split 2 (Z.of_nat n)) ->
  marshal_elems_ok (child ti) (base + obj_addr ti) sz 0 n v B m -> marshal_ok t base (VCount n v) B m.
Proof.
  intros [Et Eh] Hty Hsz Hn Hn2 Hcnt IH s p rest fuel Hr Hrd Hc. enter fuel Et Eh Hty. cbn [cost enc] in *.
  apply wp_bind. eapply size_wp; [done|lia|]. eapply readable_at in Hcnt as [Hcnt _]; [|done|].
  2: { intros x. rewrite length_le_split. intros Hx. left. eapply own_count; eauto. }
  apply wp_bind. eapply load16_wp; [exact Hcnt|lia|]. apply encode_count_wp with (rest := rest); [done|done|lia| |].
  - intros q s1 rest1 He. cbn [fst snd]. apply (IH s1 q rest1 fuel s p rest (le_split 2 (Z.of_nat n))); [|done|lia|lia|lia].
    eapply readable_sub; [by eapply readable_extends|]. intros x [(j & Hj & Hx)|Hx]; [left|by right].
    eapply (own_elem _ _ t ti sz j); [done|by right|done|lia|done].
  - intros q s'. apply wp_ret. by right.
Qed.

(** The counter of a dynamic array and its pointer can be read. *)
Lemma readable_dyn m s p rest t ti base B cnt al q :
  readable m s p rest (reach T D t base B) -> T !! t = Some ti -> span ti = Some 16 ->
  dyn_at m (base + obj_addr ti) cnt al q -> dyn_at (bytes s) (base + obj_addr ti) cnt al q.
Proof. intros [H _] Et Hs. by eapply dyn_at_reach. Qed.

Lemma marshal_dyn_bytes_ok t ti base al q bs m :
  entry T t ti -> type_id ti = AOSL_TYPE_DYNAMIC_BYTES \/ type_id ti = AOSL_TYPE_DYNAMIC_STRING ->
  dyn_at m (base + obj_addr ti) (Z.of_nat (length bs)) al q -> at_bytes m q bs ->
  marshal_ok t base (VCount (length bs) (VRaw bs)) (dyn_block q al al) m.
Proof.
  intros [Et Eh] Hty Hd Ha s p rest fuel Hr Hrd Hc.
  assert (span ti = Some 16) as Hspan by (unfold span; by destruct Hty as [-> | ->]).
  assert (forall s1 p1 rest1 n, readable m s1 p1 rest1 (reach T D t base (dyn_block q al al)) -> (length bs < n)%nat ->
    ready s1 p1 rest1 -> wp (check_and_encode_bytes n p1 q (Z.of_nat (length bs))) s1 (appended s1 p1 rest1 bs)) as Hbytes.
  { intros s1 p1 rest1 n Hr1 Hn Hrd1. eapply readable_at in Ha as [Ha Hs]; [|exact Hr1|].
    - apply encode_bytes_wp; [done|done|done| |done|done]. destruct Hd; lia.
    - intros x Hx. right. destruct Hd as (H1 & _). apply in_blocks_dyn; unfold inside in *; lia. }
  pose proof (readable_dyn _ _ _ _ _ _ _ _ _ _ _ Hr Et Hspan Hd) as (D1 & D2 & D3 & D4 & D5 & D6).
  destruct Hty as [Hty|Hty]; enter fuel Et Eh Hty; cbn [cost enc] in *;
    (apply wp_bind; eapply load16_wp; [exact D4|lia|]; apply encode_count_wp with (rest := rest); [done|lia|lia| |];
     [|intros q' s'; apply wp_ret; by right]); intros p1 s1 rest1 He; cbn [fst snd];
    (destruct (Z.ltb_spec 0 (Z.of_nat (length bs))) as [Hpos|Hz];
     [|assert (bs = []) as -> by (apply nil_length_inv; lia); apply wp_ret; left;
       rewrite app_nil_r; split; [by rewrite length_le_split|by exists rest1]]);
    pose proof (readable_extends _ _ _ _ _ _ _ _ _ Hr He) as Hr1;
    pose proof (readable_dyn _ _ _ _ _ _ _ _ _ _ _ Hr1 Et Hspan Hd) as (_ & _ & _ & _ & _ & E6);
    (apply wp_bind; eapply load_ptr_wp; [exact E6|lia|]; wstep (Hbytes s1 p1 rest1); [done|lia|by eapply extends_ready|];
     intros r s2 Hap; eapply appended_out; [exact He|rewrite length_app, length_le_split; lia|done]).
Qed.

Lemma marshal_dyn_array_ok t ti base al q sz n v B m :
  entry T t ti -> type_id ti = AOSL_TYPE_DYNAMIC_ARRAY -> get_type_size T D (child ti) = Ret (Some sz) ->
  dyn_at m (base + obj_addr ti) (Z.of_nat n) al q -> marshal_elems_ok (child ti) q sz 0 n v B m ->
  (n = 0%nat -> enc v = []) -> marshal_ok t base (VCount n v) (dyn_block q (sz * al) al ++ B) m.
Proof.
  intros [Et Eh] Hty Hsz Hd IH Hnil s p rest fuel Hr Hrd Hc.
  assert (span ti = Some 16) as Hspan by (unfold span; by rewrite Hty).
  pose proof (readable_dyn _ _ _ _ _ _ _ _ _ _ _ Hr Et Hspan Hd) as (D1 & D2 & D3 & D4 & D5 & D6).
  enter fuel Et Eh Hty. cbn [cost enc] in *.
  apply wp_bind. eapply load16_wp; [exact D4|lia|]. apply encode_count_wp with (rest := rest); [done|lia|lia| |].
  2: { intros q' s'. apply wp_ret. by right. }
  intros p1 s1 rest1 He. cbn [fst snd]. destruct (Z.ltb_spec 0 (Z.of_nat n)) as [Hpos|Hz].
  2: { rewrite Hnil, app_nil_r by lia. apply wp_ret. left. split; [done|]. by exists rest1. }
  pose proof (readable_extends _ _ _ _ _ _ _ _ _ Hr He) as Hr1.
  pose proof (readable_dyn _ _ _ _ _ _ _ _ _ _ _ Hr1 Et Hspan Hd) as (_ & _ & _ & _ & _ & E6).
  apply wp_bind. eapply size_wp; [done|lia|]. apply wp_bind. eapply load_ptr_wp; [exact E6|lia|].
  apply (IH s1 p1 rest1 fuel s p rest (le_split 2 (Z.of_nat n))); [|done|lia|lia|lia]. eapply readable_sub; [done|].
  destruct (lay_child _ _ L t ti sz Et) as [Hsz0 Hin]; [rewrite Hty; set_solver|done|].
  intros x [(j & Hj & Hx)|Hx]; right; apply in_blocks_app; [left|by right].
  apply Hin in Hx. apply in_blocks_dyn; [lia|]. unfold inside in *. nia.
Qed.

(** The marshaller appends the encoding of the object's value. *)
Lemma marshal_mut :
  (forall t base v B m, repr T D t base v B m -> marshal_ok t base v B m) /\
  (forall t base v B m, repr_fields T D t base v B m -> marshal_fields_ok t base v B m) /\
  (forall c base sz i n v B m, repr_elems T D c base sz i n v B m ->
     marshal_elems_ok c base sz i n v B m /\ (n = 0%nat -> enc v = [])).
Proof.
  apply repr_mut.
  - intros; by eapply marshal_flat_ok.
  - intros; by eapply marshal_fixed_bytes_ok.
  - intros; by eapply marshal_var_bytes_ok.
  - intros; by eapply marshal_nil_ok.
  - intros; by eapply marshal_null_ok.
  - intros; by eapply marshal_ptr_ok.
  - intros; by eapply marshal_str_ok.
  - intros; by eapply marshal_ref_ok.
  - intros; by eapply marshal_struct_ok.
  - intros; eapply marshal_dyn_bytes_ok; eauto.
  - intros; eapply marshal_dyn_bytes_ok; eauto.
  - intros t ti base sz n v B m H1 H2 H3 H4 H5 _ [IH _]. by eapply marshal_fixed_array_ok.
  - intros t ti base sz n v B m H1 H2 H3 H4 H5 H6 _ [IH _]. by eapply marshal_var_array_ok.
  - intros t ti base al q sz n v B m H1 H2 H3 H4 _ [IH1 IH2]. by eapply marshal_dyn_array_ok.
  - intros t ti base m Et Hty s p rest fuel s0 p0 rest0 l0 Hr He Hc. destruct fuel as [|fuel]; [cbn in Hc; lia|].
    cbn [marshal_fields]. apply wp_bind. eapply get_type_wp; [exact Et|]. rewrite decide_True by done.
    apply wp_ret. left. cbn. rewrite app_nil_r. split; [done|]. by exists rest.
  - intros; by eapply marshal_fields_cons_ok.
  - intros c base sz i m. split; [|done]. intros s p rest fuel s0 p0 rest0 l0 Hr He Hi Hn Hc.
    destruct fuel as [|fuel]; [cbn in Hc; lia|]. cbn [marshal_elems]. destruct (Z.ltb_spec i (i + Z.of_nat 0)); [lia|].
    apply wp_ret. left. cbn. rewrite app_nil_r. split; [done|]. by exists rest.
  - intros c base sz i n v w B1 B2 m _ IH1 _ [IH2 _]. split; [by apply marshal_elems_cons_ok|done].
Qed.

End Enc.
