(* ===== verification/MarshalDec.v ===== *)
(** * The unmarshaller reads the encoding

    Reading a stream of bytes from the front of a chain of buffers, then
    [_____unmarshal] on a stream that starts with the encoding of a value: it
    builds an object with that value, or reports that memory ran out. *)
From S2P Require Import Prelude Bytes Psb PsbProps Marshal MarshalVal MarshalEnc.
#[local] Open Scope aosl_scope.

(** ** A chain as a source *)

(** Behind an empty buffer there are only empty ones. *)
Definition tidy (s : mstate) (rest : list Z) : Prop :=
  forall A q C, rest = A ++ q :: C -> psb_empty s q -> forall r, r ∈ C -> psb_empty s r.

(** The chain from [p] through [rest] holds the bytes [l]. *)
Record source (s : mstate) (p : Z) (rest : list Z) (l : list byte) : Prop := {
  so_ok : psbs_ok s (p :: rest);
  so_seg : seg (psbs s) p (p :: rest) 0;
  so_stream : stream s (p :: rest) = Some l;
  so_tidy : tidy s rest
}.
Arguments so_ok {s p rest l}.
Arguments so_seg {s p rest l}.
Arguments so_stream {s p rest l}.
Arguments so_tidy {s p rest l}.

(** What reading does to the buffers: the ones in front of [p'] are used up,
    all keep their place. *)
Record took (s : mstate) (p : Z) (rest : list Z) (s' : mstate) (p' : Z) (rest' : list Z) : Prop := {
  tk_suffix : exists done, p :: rest = done ++ p' :: rest';
  tk_shape : forall q b, psbs s !! q = Some b -> exists b', psbs s' !! q = Some b' /\
    b_head b' = b_head b /\ b_size b' = b_size b;
  tk_shape' : forall q b', psbs s' !! q = Some b' -> exists b, psbs s !! q = Some b /\
    b_head b' = b_head b /\ b_size b' = b_size b
}.

Lemma took_refl s p rest : took s p rest s p rest.
Proof. split; [by exists []|eauto..]. Qed.

Lemma took_trans s p rest s1 p1 rest1 s2 p2 rest2 :
  took s p rest s1 p1 rest1 -> took s1 p1 rest1 s2 p2 rest2 -> took s p rest s2 p2 rest2.
Proof.
  intros [[d1 E1] H1 H1'] [[d2 E2] H2 H2']. split.
  - exists (d1 ++ d2). by rewrite E1, E2, (assoc_L (++)).
  - intros q b E. destruct (H1 q b E) as (b1 & F1 & G1 & G2), (H2 q b1 F1) as (b2 & F2 & G3 & G4). exists b2.
    split; [done|]. split; congruence.
  - intros q b E. destruct (H2' q b E) as (b1 & F1 & G1 & G2), (H1' q b1 F1) as (b2 & F2 & G3 & G4). exists b2.
    split; [done|]. split; congruence.
Qed.

(** The bytes of memory that the remaining buffers occupy were theirs before. *)
Lemma took_bufs s p rest s' p' rest' x : took s p rest s' p' rest' -> bufs s' (p' :: rest') x -> bufs s (p :: rest) x.
Proof.
  intros [[d E] _ H] (q & b & Hq & Eb & Hx). destruct (H q b Eb) as (b0 & E0 & Hh & Hs). exists q, b0.
  split; [rewrite E; set_solver|]. split; [done|]. unfold buf_of in *. by rewrite <-Hh, <-Hs.
Qed.

Lemma source_psb s p rest l : source s p rest l -> exists b, psbs s !! p = Some b /\ psb_ok (bytes s) b.
Proof. intros H. apply (ok_each (so_ok H)). set_solver. Qed.

(** The front of the stream is in the current buffer. *)
Lemma source_front s p rest l b :
  source s p rest l -> psbs s !! p = Some b ->
  exists l1 l2, l = l1 ++ l2 /\ Z.of_nat (length l1) = b_len b /\ at_bytes (bytes s) (b_data b) l1 /\
    stream s rest = Some l2.
Proof.
  intros H E. pose proof (so_stream H) as Hs. destruct (source_psb _ _ _ _ H) as (b0 & E0 & Hb).
  rewrite E in E0. injection E0 as <-. cbn [stream] in Hs.
  destruct (psb_bytes s p) as [l1|] eqn:E1; [|done]. destruct (stream s rest) as [l2|] eqn:E2; [|done].
  cbn in Hs. injection Hs as <-. apply (psb_bytes_spec s p b l1 E (ok_len Hb)) in E1 as [? ?]. by exists l1, l2.
Qed.

(** Bytes taken from the current buffer; memory may change outside the
    buffers. *)
Lemma get_source s p rest l1 l2 b m' :
  source s p rest (l1 ++ l2) -> psbs s !! p = Some b -> Z.of_nat (length l1) <= b_len b ->
  same_on (bufs s (p :: rest)) (bytes s) m' -> (forall x, is_Some (bytes s !! x) -> is_Some (m' !! x)) ->
  let n := Z.of_nat (length l1) in
  let s' := with_psb p (upd_data_len (b_data b + n) (b_len b - n) b) m' s in
  source s' p rest l2 /\ took s p rest s' p rest.
Proof.
  intros Hso E Hn Hsame Hmap n. set (b' := upd_data_len _ _ _). cbn zeta.
  destruct (source_front _ _ _ _ _ Hso E) as (l1' & l2' & El & Hl & Ha & Hrest).
  destruct (source_psb _ _ _ _ Hso) as (b0 & E0 & Hb). rewrite E in E0. injection E0 as <-.
  assert (exists l3, l1' = l1 ++ l3 /\ l2 = l3 ++ l2') as (l3 & -> & ->).
  { exists (drop (length l1) l1'). apply app_eq_inv in El as [(k & -> & ->)|(k & -> & ->)].
    - rewrite length_app in Hn. assert (length k = 0)%nat as Hk%nil_length_inv by lia. subst k. rewrite !app_nil_r.
      rewrite drop_ge by lia. by rewrite app_nil_r.
    - rewrite drop_app_length. done. }
  rewrite length_app in Hl. apply at_bytes_app in Ha as [_ Ha]. pose proof (ok_nodup (so_ok Hso)) as Hnd.
  apply NoDup_cons in Hnd as [Hp Hnd].
  assert (psb_ok m' b') as Hb'.
  { destruct Hb as [B1 B2 B3 B4 B5]. split; cbn; unfold n, room in *; cbn; try lia. by eapply mapped_same. }
  split; [split|split].
  - eapply with_psb_ok; [apply (so_ok Hso)|done..].
  - eapply with_psb_seg; [done|done|apply (so_seg Hso)].
  - cbn [stream]. assert (psb_bytes (with_psb p b' m' s) p = Some l3) as ->.
    { apply (psb_bytes_spec _ _ b'); [by rewrite with_psb_lookup, decide_True|cbn; unfold n; lia|].
      split; [cbn; unfold n; lia|]. cbn. eapply at_bytes_same; [exact Ha|exact Hsame|]. intros x Hx.
      exists p, b. split; [set_solver|]. split; [done|]. destruct Hb. unfold buf_of, inside, room in *. lia. }
    assert (psbs_ok s rest) as Hok by (eapply psbs_ok_sub; [apply (so_ok Hso)|done|set_solver]).
    rewrite (stream_frame s (with_psb p b' m' s) rest Hok); [cbn; by rewrite Hrest| | |done].
    + intros q Hq. rewrite with_psb_lookup, decide_False; [done|set_solver].
    + intros x y (q & c & Hq & Hx). apply Hsame. exists q, c. split; [set_solver|done].
  - intros A q C -> Hq r Hr. assert (q <> p /\ r <> p) as [Hqp Hrp] by (split; set_solver).
    assert (psb_empty s q) as Hq' by (destruct Hq as (c & Ec & Hc); rewrite with_psb_lookup, decide_False in Ec by done; by exists c).
    destruct (so_tidy Hso A q C eq_refl Hq' r Hr) as (c & Ec & Hc). exists c. by rewrite with_psb_lookup, decide_False.
  - by exists [].
  - intros q c Ec. rewrite with_psb_lookup. destruct (decide (q = p)) as [->|?]; [|eauto]. exists b'. split; [done|].
    rewrite E in Ec. by injection Ec as <-.
  - intros q c. rewrite with_psb_lookup. destruct (decide (q = p)) as [->|?]; [|eauto]. intros [= <-]. by exists b.
Qed.

(** On to the next buffer, when the current one is used up and bytes are left. *)
Lemma next_source s p rest l b :
  source s p rest l -> psbs s !! p = Some b -> b_len b = 0 -> l <> [] ->
  exists q rest' bq, rest = q :: rest' /\ b_next b = q /\ q <> 0 /\ source s q rest' l /\ took s p rest s q rest' /\
    psbs s !! q = Some bq /\ 0 < b_len bq.
Proof.
  intros Hso E Hb Hl. destruct (source_front _ _ _ _ _ Hso E) as (l1 & l2 & El & Hl1 & Ha & Hrest).
  assert (l1 = []) as -> by (apply nil_length_inv; lia). cbn in El. subst l2.
  destruct rest as [|q rest]; [cbn in Hrest; congruence|]. pose proof (so_seg Hso) as Hseg.
  destruct Hseg as (_ & _ & b0 & E0 & Hseg). rewrite E in E0. injection E0 as <-.
  assert (b_next b = q /\ q <> 0) as [Hq Hq0] by (cbn in Hseg; tauto).
  destruct (ok_each (so_ok Hso) q) as (bq & Eq & Hok); [set_solver|].
  exists q, rest, bq. split; [done|]. split; [done|]. split; [done|]. split; [split|].
  - eapply psbs_ok_sub; [apply (so_ok Hso)| |set_solver].
    pose proof (ok_nodup (so_ok Hso)) as Hnd. by apply NoDup_cons in Hnd as [_ ?].
  - by rewrite Hq in Hseg.
  - done.
  - intros A r C -> . apply (so_tidy Hso (q :: A) r C eq_refl).
  - split; [split; [by exists [p]|eauto..]|]. split; [done|]. pose proof (ok_len Hok) as Hlen.
    destruct (decide (b_len bq = 0)) as [Hz|Hz]; [|lia]. exfalso. apply Hl.
    assert (stream s (q :: rest) = Some []) as Hs; [|congruence]. apply stream_empty. intros r [->|Hr]%elem_of_cons.
    + by exists bq.
    + apply (so_tidy Hso [] q rest eq_refl); [by exists bq|done].
Qed.

Section Dec.
Context `{AL : Allocator} `{OK : !AllocatorOk}.

(** ** Reading pieces *)

(** The bytes up to [l] were read and only the memory in [P] changed. *)
Record fetched (s : mstate) (p : Z) (rest : list Z) (P : Z -> Prop) (l : list byte) (s' : mstate) (p' : Z) (rest' : list Z) : Prop := {
  fe_source : source s' p' rest' l;
  fe_took : took s p rest s' p' rest';
  fe_bytes : forall x, ~ P x -> bytes s' !! x = bytes s !! x;
  fe_blocks : blocks s' = blocks s
}.

Lemma fetched_trans s p rest (P Q R : Z -> Prop) l1 s1 p1 rest1 l2 s2 p2 rest2 :
  fetched s p rest P l1 s1 p1 rest1 -> fetched s1 p1 rest1 Q l2 s2 p2 rest2 ->
  (forall x, ~ R x -> ~ P x /\ ~ Q x) -> fetched s p rest R l2 s2 p2 rest2.
Proof.
  intros [A1 A2 A3 A4] [B1 B2 B3 B4] H. split; [done|by eapply took_trans| |congruence].
  intros x Hx. destruct (H x Hx). rewrite B3, A3; done.
Qed.

Definition none (_ : Z) : Prop := False.

(** Nothing but the current buffer's bookkeeping changed. *)
Lemma get_fetched s p rest l1 l2 b :
  source s p rest (l1 ++ l2) -> psbs s !! p = Some b -> Z.of_nat (length l1) <= b_len b ->
  let n := Z.of_nat (length l1) in
  fetched s p rest none l2 (upd_psbs <[p := upd_data_len (b_data b + n) (b_len b - n) b]> s) p rest.
Proof.
  intros Hso E Hn. destruct (get_source s p rest l1 l2 b (bytes s) Hso E Hn) as [H1 H2]; [apply same_on_refl|done|].
  by split.
Qed.

Lemma source_split s p rest l b n :
  source s p rest l -> psbs s !! p = Some b -> 0 <= n <= b_len b -> n <= Z.of_nat (length l) ->
  at_bytes (bytes s) (b_data b) (take (Z.to_nat n) l).
Proof.
  intros Hso E Hn Hl. destruct (source_front _ _ _ _ _ Hso E) as (l1 & l2 & -> & Hl1 & Ha & _).
  rewrite take_app_le by lia. rewrite <-(take_drop (Z.to_nat n) l1) in Ha. by apply at_bytes_app in Ha as [? _].
Qed.

Definition rounds_in (b : ps_buff) (n : nat) : nat := n + (if 0 <? b_len b then 0 else 1).

Lemma decode_split_wp fuel : forall l1 l2 s psb p rest b var,
  source s p rest (l1 ++ l2) -> psbs s !! p = Some b -> l1 <> [] -> (rounds_in b (length l1) <= fuel)%nat ->
  wp (decode_split fuel psb p (Z.of_nat (length l1)) var) s (fun r s' =>
    exists p' rest', r = (0, p', var ++ l1) /\ fetched s p rest none l2 s' p' rest').
Proof.
  induction fuel as [|fuel IH]; intros l1 l2 s psb p rest b var Hso E Hl Hf.
  { unfold rounds_in in Hf. destruct l1; [done|cbn in Hf; lia]. }
  cbn [decode_split]. apply wp_bind. eapply get_psb_wp; [done|].
  destruct (source_psb _ _ _ _ Hso) as (b0 & E0 & Hb). rewrite E in E0. injection E0 as <-.
  rewrite (psb_len_ok _ _ Hb). pose proof (ok_len Hb) as Hlen. set (copy := Z.min _ _).
  assert (0 <= copy < 2 ^ 32) as Hc32 by (destruct Hb; unfold room in *; lia).
  pose proof (take_drop (Z.to_nat copy) l1) as Hsplit. set (k1 := take _ l1) in *. set (k2 := drop _ l1) in *.
  assert (copy = Z.of_nat (length k1)) as Hc by (unfold k1; rewrite length_take; lia).
  assert (Z.of_nat (length l1) - copy = Z.of_nat (length k2)) as Hc2 by (unfold k2; rewrite length_drop; lia).
  pose proof (source_split _ _ _ _ _ copy Hso E ltac:(lia) ltac:(rewrite length_app; lia)) as Hfront.
  rewrite take_app_le in Hfront by lia. fold k1 in Hfront.
  apply wp_bind. eapply load_bytes_wp; [exact Hfront|lia|]. apply wp_bind. eapply psb_pull_wp; [done|lia|lia|].
  rewrite <-Hsplit, <-(assoc_L (++)) in Hso. pose proof (get_fetched _ _ _ _ _ _ Hso E ltac:(lia)) as Hfe.
  cbn zeta in Hfe. rewrite <-Hc in Hfe. rewrite Hc2. destruct (Z.eqb_spec (Z.of_nat (length k2)) 0) as [H0|H0].
  { apply wp_ret. assert (k2 = []) as Hk2 by (apply nil_length_inv; lia). rewrite Hk2 in *. rewrite app_nil_r in Hsplit.
    rewrite Hsplit. by exists p, rest. }
  apply wp_bind. eapply get_psb_wp; [cbn; by rewrite lookup_insert_eq|]. cbn [b_next upd_data_len].
  edestruct next_source as (q & rest' & bq & Hr & Hn & Hq0 & Hso2 & Htk & Eq & Hlq); [apply Hfe|cbn; by rewrite lookup_insert_eq|cbn; lia| |].
  { intros Hnil. apply app_nil in Hnil as [-> _]. done. }
  cbn [b_next upd_data_len] in Hn. rewrite Hn. destruct (Z.eqb_spec q 0) as [?|_]; [done|].
  eapply wp_mono; [eapply IH; [exact Hso2|exact Eq|by intros ->|]|].
  - unfold rounds_in in *. destruct (Z.ltb_spec 0 (b_len bq)); [|lia]. destruct (Z.ltb_spec 0 (b_len b)); lia.
  - intros r s3 (p' & rest3 & -> & Hfe3). exists p', rest3. rewrite <-(assoc_L (++)), Hsplit. split; [done|].
    eapply fetched_trans; [exact Hfe| |].
    + split; [apply Hfe3|eapply took_trans; [exact Htk|apply Hfe3]|apply Hfe3|apply Hfe3].
    + done.
Qed.

Lemma check_and_decode_basetype_wp fuel l1 l2 s p rest n Q :
  source s p rest (l1 ++ l2) -> n = length l1 -> l1 <> [] -> (n < fuel)%nat -> Z.of_nat n < 2 ^ 32 ->
  (forall s' p' rest', fetched s p rest none l2 s' p' rest' -> Q (0, p', l1) s') ->
  wp (check_and_decode_basetype fuel p n) s Q.
Proof.
  intros Hso -> Hl Hf H32 HQ. unfold check_and_decode_basetype. destruct (source_psb _ _ _ _ Hso) as (b & E & Hb).
  destruct (Z.leb_spec (Z.of_nat (length l1)) (b_len b)) as [Hle|Hgt].
  - apply wp_bind. eapply psb_get_wp; [done|lia|done|]. destruct Hb as [B1 B2 B3 B4 B5].
    replace (IS_ERR (b_data b)) with false by (symmetry; apply andb_false_intro2, Z.ltb_ge; lia).
    pose proof (source_split _ _ _ _ _ (Z.of_nat (length l1)) Hso E ltac:(lia) ltac:(rewrite length_app; lia)) as Hfront.
    rewrite Nat2Z.id, take_app_length in Hfront. apply wp_bind. eapply load_bytes_wp; [exact Hfront|done|]. apply wp_ret.
    apply (HQ _ _ rest). by apply get_fetched.
  - apply wp_bind. eapply psb_get_short_wp; [done|lia|done|]. eapply wp_mono; [eapply decode_split_wp; [done|done|done|]|].
    + unfold rounds_in. destruct (0 <? b_len b); lia.
    + intros r s' (p' & rest' & -> & Hfe). by apply (HQ _ _ rest').
Qed.

(** Bytes copied from the front of the current buffer to [dst]. *)
Lemma copy_fetched s p rest l1 l2 b dst m' :
  source s p rest (l1 ++ l2) -> psbs s !! p = Some b -> Z.of_nat (length l1) <= b_len b ->
  safe s p rest (inside dst (Z.of_nat (length l1))) -> at_bytes m' dst l1 ->
  (forall x, ~ inside dst (Z.of_nat (length l1)) x -> m' !! x = bytes s !! x) ->
  let n := Z.of_nat (length l1) in
  fetched s p rest (inside dst n) l2 (with_psb p (upd_data_len (b_data b + n) (b_len b - n) b) m' s) p rest.
Proof.
  intros Hso E Hn [Hm Hs] Ha Ho. destruct (get_source s p rest l1 l2 b m' Hso E Hn) as [H1 H2]; [| |by split].
  - intros x y Hx Hy. rewrite Ho; [done|]. intros Hi. by apply (Hs x Hi).
  - intros x Hx. destruct (decide (inside dst (Z.of_nat (length l1)) x)) as [Hi|Hi]; [by apply (at_bytes_mapped _ _ _ Ha)|].
    by rewrite Ho.
Qed.

Lemma fetched_safe s p rest P l s' p' rest' (R : Z -> Prop) :
  fetched s p rest P l s' p' rest' -> (forall x, is_Some (bytes s !! x) -> is_Some (bytes s' !! x)) ->
  safe s p rest R -> safe s' p' rest' R.
Proof.
  intros F Hmap [Hm Hs]. split; [intros x Hx; by apply Hmap, Hm|]. intros x Hx Hb. apply (Hs x Hx).
  eapply took_bufs; [apply (fe_took _ _ _ _ _ _ _ _ F)|done].
Qed.

Lemma check_and_decode_bytes_wp fuel : forall l1 l2 s p rest b dst,
  source s p rest (l1 ++ l2) -> psbs s !! p = Some b -> (rounds_in b (length l1) <= fuel)%nat -> (0 < fuel)%nat ->
  safe s p rest (inside dst (Z.of_nat (length l1))) ->
  wp (check_and_decode_bytes fuel p dst (Z.of_nat (length l1))) s (fun r s' =>
    exists p' rest', r = (0, p') /\ fetched s p rest (inside dst (Z.of_nat (length l1))) l2 s' p' rest' /\
      at_bytes (bytes s') dst l1).
Proof.
  induction fuel as [|fuel IH]; intros l1 l2 s p rest b dst Hso E Hf Hpos Hsafe; [lia|].
  cbn [check_and_decode_bytes]. apply wp_bind. eapply get_psb_wp; [done|].
  destruct (source_psb _ _ _ _ Hso) as (b0 & E0 & Hb). rewrite E in E0. injection E0 as <-.
  rewrite (psb_len_ok _ _ Hb). pose proof (ok_len Hb) as Hlen. set (copy := Z.min _ _).
  assert (0 <= copy < 2 ^ 32) as Hc32 by (destruct Hb; unfold room in *; lia).
  pose proof (take_drop (Z.to_nat copy) l1) as Hsplit. set (k1 := take _ l1) in *. set (k2 := drop _ l1) in *.
  assert (copy = Z.of_nat (length k1)) as Hc by (unfold k1; rewrite length_take; lia).
  assert (Z.of_nat (length l1) - copy = Z.of_nat (length k2)) as Hc2 by (unfold k2; rewrite length_drop; lia).
  pose proof (source_split _ _ _ _ _ copy Hso E ltac:(lia) ltac:(rewrite length_app; lia)) as Hfront.
  rewrite take_app_le in Hfront by lia. fold k1 in Hfront.
  apply wp_bind. eapply psb_get_wp; [done|lia|lia|]. apply wp_bind. unfold memcpy. apply wp_bind.
  eapply load_bytes_wp; [exact Hfront|lia|]. rewrite <-Hsplit, <-(assoc_L (++)) in Hso.
  assert (safe s p rest (inside dst (Z.of_nat (length k1)))) as Hsafe1.
  { eapply safe_sub; [done|]. intros x Hx. unfold inside in *. lia. }
  apply store_bytes_wp; [cbn; apply Hsafe1|]. cbn. intros m' Hm1 Hm2.
  pose proof (copy_fetched _ _ _ _ _ _ dst m' Hso E ltac:(lia) Hsafe1 Hm1 Hm2) as Hfe. cbn zeta in Hfe. rewrite <-Hc in Hfe.
  assert (forall x, is_Some (bytes s !! x) -> is_Some (m' !! x)) as Hmap.
  { intros x Hx. destruct (decide (inside dst (Z.of_nat (length k1)) x)) as [Hi|Hi]; [by apply (at_bytes_mapped _ _ _ Hm1)|].
    by rewrite Hm2. }
  rewrite Hc2. destruct (Z.eqb_spec (Z.of_nat (length k2)) 0) as [H0|H0].
  { apply wp_ret. assert (k2 = []) as Hk2 by (apply nil_length_inv; lia). rewrite Hk2 in *. rewrite app_nil_r in Hsplit.
    exists p, rest. split; [done|]. replace (Z.of_nat (length l1)) with copy by (rewrite <-Hsplit; lia).
    rewrite <-Hsplit. done. }
  apply wp_bind. eapply get_psb_wp; [cbn; by rewrite lookup_insert_eq|]. cbn [b_next upd_data_len].
  edestruct next_source as (q & rest' & bq & Hr & Hn & Hq0 & Hso2 & Htk & Eq & Hlq); [apply Hfe|cbn; by rewrite lookup_insert_eq|cbn; lia| |].
  { intros Hnil. apply app_nil in Hnil as [-> _]. done. }
  cbn [b_next upd_data_len] in Hn. rewrite Hn. destruct (Z.eqb_spec q 0) as [?|_]; [done|].
  eapply wp_mono; [eapply IH; [exact Hso2|exact Eq| | |]|].
  - unfold rounds_in in *. destruct (Z.ltb_spec 0 (b_len bq)); [|lia]. destruct (Z.ltb_spec 0 (b_len b)); lia.
  - unfold rounds_in in *. destruct (Z.ltb_spec 0 (b_len b)); lia.
  - eapply safe_sub; [eapply fetched_safe; [|done|exact Hsafe]|].
    + split; [exact Hso2|eapply took_trans; [apply Hfe|exact Htk]|apply Hfe|done].
    + intros x Hx. unfold inside in *. lia.
  - intros r s3 (p' & rest3 & -> & Hfe3 & Ha3). exists p', rest3. split; [done|]. split.
    + eapply fetched_trans; [exact Hfe| |].
      * split; [apply Hfe3|eapply took_trans; [exact Htk|apply Hfe3]|apply Hfe3|apply Hfe3].
      * intros x Hx. unfold inside in *. lia.
    + rewrite <-Hsplit. apply at_bytes_app. split; [|by rewrite <-Hc].
      intros i c Hi. rewrite (fe_bytes _ _ _ _ _ _ _ _ Hfe3); [by apply Hm1|].
      apply lookup_lt_Some in Hi. unfold inside. lia.
Qed.

Lemma decode_bytes_wp fuel l1 l2 s p rest dst n Q :
  source s p rest (l1 ++ l2) -> (length l1 < fuel)%nat -> n = Z.of_nat (length l1) -> safe s p rest (inside dst n) ->
  (forall s' p' rest', fetched s p rest (inside dst n) l2 s' p' rest' -> at_bytes (bytes s') dst l1 -> Q (0, p') s') ->
  wp (check_and_decode_bytes fuel p dst n) s Q.
Proof.
  intros Hso Hf -> Hs HQ. destruct (source_psb _ _ _ _ Hso) as (b & E & Hb).
  eapply wp_mono; [eapply check_and_decode_bytes_wp; [done|done| |lia|done]|].
  - unfold rounds_in. destruct (0 <? b_len b); lia.
  - intros r s' (p' & rest' & -> & Hfe & Ha). by eapply HQ.
Qed.

(** The length of the string at the front of the stream. *)
Lemma strsize_wp fuel : forall bs l2 s p rest l b l0 lr i n Q,
  source s p rest l -> psbs s !! p = Some b -> 0 <= i -> Z.of_nat (length l0) = b_len b - i ->
  at_bytes (bytes s) (b_data b + i) l0 -> stream s rest = Some lr -> l0 ++ lr = bs ++ NUL :: l2 ->
  NUL ∉ bs -> (length bs < fuel)%nat -> Q (n + Z.of_nat (length bs) + 1) s ->
  wp (strsize_loop fuel p i n) s Q.
Proof.
  induction fuel as [|fuel IH]; intros bs l2 s p rest l b l0 lr i n Q Hso E Hi Hl0 Ha Hr Heq Hn Hf HQ; [lia|].
  cbn [strsize_loop]. apply wp_bind. eapply get_psb_wp; [done|].
  destruct (source_psb _ _ _ _ Hso) as (b0 & E0 & Hb). rewrite E in E0. injection E0 as <-.
  rewrite wraps_id by (destruct Hb; unfold room in *; lia).
  assert (forall c a m, at_bytes (bytes s) a (c :: m) -> at_bytes (bytes s) a [c] /\ at_bytes (bytes s) (a + 1) m) as Hone.
  { intros c a m Hc. apply at_bytes_cons in Hc as [? ?]. split; [|done]. rewrite at_bytes_cons. split; [done|apply at_bytes_nil]. }
  destruct (Z.leb_spec (b_len b) i) as [Hle|Hgt].
  - assert (l0 = []) as -> by (apply nil_length_inv; lia). cbn in Heq. subst lr.
    destruct rest as [|q rest]; [cbn in Hr; by destruct bs|]. pose proof (so_seg Hso) as Hseg.
    destruct Hseg as (_ & _ & b0 & E0 & Hseg). rewrite E in E0. injection E0 as <-.
    assert (b_next b = q /\ q <> 0) as [Hq Hq0] by (cbn in Hseg; tauto). rewrite Hq.
    destruct (Z.eqb_spec q 0) as [?|_]; [done|].
    assert (source s q rest (bs ++ NUL :: l2)) as Hso2.
    { split; [|by rewrite Hq in Hseg|done|intros A r C ->; apply (so_tidy Hso (q :: A) r C eq_refl)].
      eapply psbs_ok_sub; [apply (so_ok Hso)| |set_solver].
      pose proof (ok_nodup (so_ok Hso)) as Hnd. by apply NoDup_cons in Hnd as [_ ?]. }
    destruct (source_psb _ _ _ _ Hso2) as (bq & Eq & Hbq). apply wp_bind. eapply get_psb_wp; [done|].
    destruct (source_front _ _ _ _ _ Hso2 Eq) as (k1 & k2 & Hk & Hlk & Hak & Hrk).
    destruct k1 as [|c k1].
    { exfalso. assert (stream s (q :: rest) = Some []) as Hs.
      { apply stream_empty. intros r [->|Hrr]%elem_of_cons; [by exists bq|].
        apply (so_tidy Hso [] q rest eq_refl); [by exists bq|done]. }
      rewrite Hs in Hr. injection Hr as Hr. by destruct bs. }
    destruct (Hone _ _ _ Hak) as [Hc1 Hc2]. apply wp_bind. eapply load_bytes_wp; [exact Hc1|done|].
    destruct bs as [|b1 bs]; cbn in Hk; injection Hk as <- Hk.
    + rewrite decide_True by done. apply wp_ret. by replace (n + 1) with (n + Z.of_nat (length (@nil byte)) + 1) by (cbn; lia).
    + rewrite decide_False by set_solver. cbn [length] in *.
      eapply (IH bs l2 s q rest _ bq k1 k2 1); [done|done|lia|lia|done|done|done|set_solver|lia|].
      by replace (n + 1 + Z.of_nat (length bs) + 1) with (n + Z.of_nat (S (length bs)) + 1) by lia.
  - destruct l0 as [|c l0]; [cbn in Hl0; lia|]. destruct (Hone _ _ _ Ha) as [Hc1 Hc2].
    apply wp_bind. eapply load_bytes_wp; [exact Hc1|done|]. destruct bs as [|b1 bs]; cbn in Heq; injection Heq as -> Heq.
    + rewrite decide_True by done. apply wp_ret. by replace (n + 1) with (n + Z.of_nat (length (@nil byte)) + 1) by (cbn; lia).
    + rewrite decide_False by set_solver. cbn [length] in *.
      eapply (IH bs l2 s p rest _ b l0 lr (i + 1)); [done|done|lia|lia| |done|done|set_solver|lia|].
      * by rewrite Z.add_assoc.
      * by replace (n + 1 + Z.of_nat (length bs) + 1) with (n + Z.of_nat (S (length bs)) + 1) by lia.
Qed.

Lemma SAFE_STRSIZE_wp fuel bs l2 s p rest Q :
  source s p rest ((bs ++ [NUL]) ++ l2) -> NUL ∉ bs -> (length bs < fuel)%nat -> Q (Z.of_nat (length bs) + 1) s ->
  wp (SAFE_STRSIZE fuel p) s Q.
Proof.
  intros Hso Hn Hf HQ. rewrite <-(assoc_L (++)) in Hso. destruct (source_psb _ _ _ _ Hso) as (b & E & Hb).
  destruct (source_front _ _ _ _ _ Hso E) as (l1 & lr & Hk & Hlk & Hak & Hrk). unfold SAFE_STRSIZE.
  eapply strsize_wp; [done|done|done| | |done|by rewrite <-Hk|done|done|done]; [lia|by rewrite Z.add_0_r].
Qed.

End Dec.
