(* ===== verification/MarshalBuild.v ===== *)
(** * Building an object from a stream

    [built]: what an initial part of the unmarshaller's work has done to the
    chain, to memory and to the allocator; and the theorem that it builds an
    object with the encoded value. *)
From S2P Require Import Prelude Bytes Psb PsbProps Marshal MarshalVal MarshalEnc MarshalDec.
#[local] Open Scope aosl_scope.

(** No two blocks of the list overlap. *)
Fixpoint apart (B : list (Z * Z)) : Prop :=
  match B with
  | [] => True
  | (q, n) :: B => (forall x, inside q n x -> in_blocks B x -> False) /\ apart B
  end.

Lemma apart_app A B :
  apart A -> apart B -> (forall x, in_blocks A x -> in_blocks B x -> False) -> apart (A ++ B).
Proof.
  induction A as [|[q n] A IH]; intros HA HB H; [done|]. destruct HA as [H1 HA]. cbn. split.
  - intros x Hx [Hy|Hy]%in_blocks_app; [by eapply H1|]. eapply H; [|done]. apply in_blocks_cons. by left.
  - apply IH; [done..|]. intros x Hx. apply H. apply in_blocks_cons. by right.
Qed.

(** From [s] to [s'] the chain was read up to [l], memory that existed changed
    only in [P], and the blocks [B] are new. *)
Record built (P : Z -> Prop) (s : mstate) (p : Z) (rest : list Z) (l : list byte) (B : list (Z * Z))
    (s' : mstate) (p' : Z) (rest' : list Z) : Prop := {
  bu_source : source s' p' rest' l;
  bu_took : took s p rest s' p' rest';
  bu_bytes : same_on (fun x => ~ P x) (bytes s) (bytes s');
  bu_map : forall x, is_Some (bytes s !! x) -> is_Some (bytes s' !! x);
  bu_new : forall x, in_blocks B x -> bytes s !! x = None;
  bu_newmap : mapped (bytes s') (in_blocks B);
  bu_in : forall q n, (q, n) ∈ B -> 0 < q < 2 ^ 64 /\ blocks s' !! q = Some n;
  bu_out : forall q, q ∉ B.*1 -> blocks s' !! q = blocks s !! q;
  bu_fresh : forall q, q ∈ B.*1 -> blocks s !! q = None;
  bu_nodup : NoDup B.*1;
  bu_apart : apart B
}.
Arguments bu_source {P s p rest l B s' p' rest'}.
Arguments bu_took {P s p rest l B s' p' rest'}.
Arguments bu_bytes {P s p rest l B s' p' rest'}.
Arguments bu_map {P s p rest l B s' p' rest'}.
Arguments bu_new {P s p rest l B s' p' rest'}.
Arguments bu_newmap {P s p rest l B s' p' rest'}.
Arguments bu_in {P s p rest l B s' p' rest'}.
Arguments bu_out {P s p rest l B s' p' rest'}.
Arguments bu_fresh {P s p rest l B s' p' rest'}.
Arguments bu_nodup {P s p rest l B s' p' rest'}.
Arguments bu_apart {P s p rest l B s' p' rest'}.

Lemma no_blocks x : ~ in_blocks [] x.
Proof. intros (q & n & H & _). by apply not_elem_of_nil in H. Qed.

Lemma built_nil (P : Z -> Prop) s p rest l s' p' rest' :
  source s' p' rest' l -> took s p rest s' p' rest' -> same_on (fun x => ~ P x) (bytes s) (bytes s') ->
  (forall x, is_Some (bytes s !! x) -> is_Some (bytes s' !! x)) -> blocks s' = blocks s ->
  built P s p rest l [] s' p' rest'.
Proof.
  intros H1 H2 H3 H4 H5. split; try done.
  - intros x Hx. by apply no_blocks in Hx.
  - intros x Hx. by apply no_blocks in Hx.
  - intros q n Hq. by apply not_elem_of_nil in Hq.
  - intros q _. by rewrite H5.
  - intros q Hq. by apply not_elem_of_nil in Hq.
  - apply NoDup_nil_2.
Qed.

Lemma built_trans (P Q R : Z -> Prop) s p rest l1 B1 s1 p1 rest1 l2 B2 s2 p2 rest2 :
  built P s p rest l1 B1 s1 p1 rest1 -> built Q s1 p1 rest1 l2 B2 s2 p2 rest2 ->
  (forall x, ~ R x -> is_Some (bytes s !! x) -> ~ P x /\ ~ Q x) -> built R s p rest l2 (B1 ++ B2) s2 p2 rest2.
Proof.
  intros A C H.
  assert (forall q, q ∈ B1.*1 -> q ∉ B2.*1) as Hdisj.
  { intros q Hq Hq2. apply (bu_fresh C) in Hq2. apply list_elem_of_fmap in Hq as ([q' n] & -> & Hin).
    apply (bu_in A) in Hin as [_ Hin]. cbn in Hq2. congruence. }
  split.
  - apply (bu_source C).
  - eapply took_trans; [apply (bu_took A)|apply (bu_took C)].
  - intros x b Hx Hb. destruct (H x Hx) as [HP HQ]; [by rewrite Hb|]. apply (bu_bytes C); [done|]. by apply (bu_bytes A).
  - intros x Hx. by apply (bu_map C), (bu_map A).
  - intros x [Hx|Hx]%in_blocks_app; [by apply (bu_new A)|]. destruct (bytes s !! x) eqn:E; [|done].
    destruct (bu_map A x) as [? ?]; [by rewrite E|]. rewrite (bu_new C) in *; done.
  - intros x [Hx|Hx]%in_blocks_app; [by apply (bu_map C), (bu_newmap A)|by apply (bu_newmap C)].
  - intros q n [Hq|Hq]%elem_of_app; [|by apply (bu_in C)]. destruct (bu_in A q n Hq) as [Hr Hb]. split; [done|].
    rewrite (bu_out C); [done|]. apply Hdisj. apply list_elem_of_fmap. by exists (q, n).
  - intros q. rewrite fmap_app. intros Hq. rewrite (bu_out C), (bu_out A) by set_solver. done.
  - intros q. rewrite fmap_app. intros Hq. destruct (decide (q ∈ B1.*1)) as [Hin|Hout]; [by apply (bu_fresh A)|].
    rewrite <-(bu_out A q Hout). apply (bu_fresh C). set_solver.
  - rewrite fmap_app. apply NoDup_app. split; [apply (bu_nodup A)|]. split; [done|apply (bu_nodup C)].
  - apply apart_app; [apply (bu_apart A)|apply (bu_apart C)|]. intros x H1 H2. apply (bu_newmap A) in H1 as [? ?].
    rewrite (bu_new C) in *; done.
Qed.

Lemma built_safe (P : Z -> Prop) s p rest l B s' p' rest' (R : Z -> Prop) :
  built P s p rest l B s' p' rest' -> safe s p rest R -> safe s' p' rest' R.
Proof.
  intros A [Hm Hs]. split; [intros x Hx; by apply (bu_map A), Hm|]. intros x Hx Hb. apply (Hs x Hx).
  eapply took_bufs; [apply (bu_took A)|done].
Qed.

Lemma built_weaken (P R : Z -> Prop) s p rest l B s' p' rest' :
  built P s p rest l B s' p' rest' -> (forall x, P x -> is_Some (bytes s !! x) -> R x) -> built R s p rest l B s' p' rest'.
Proof.
  intros [] H. split; try done. intros x b Hx Hb. apply bu_bytes0; [|done]. intros HP. apply Hx, H; [done|by rewrite Hb].
Qed.

(** A change of memory outside the buffers. *)
Lemma source_bytes s p rest l m' bl e :
  source s p rest l -> same_on (bufs s (p :: rest)) (bytes s) m' ->
  (forall x, is_Some (bytes s !! x) -> is_Some (m' !! x)) -> source (MkM m' bl (psbs s) e) p rest l.
Proof.
  intros Hso Hs Hm. destruct (so_ok Hso) as [H1 H2 H3]. split.
  - split; [done| |done]. intros q Hq. destruct (H2 q Hq) as (b & E & Hb). exists b. split; [done|]. by eapply psb_ok_mono.
  - apply (so_seg Hso).
  - rewrite <-(so_stream Hso). by apply (stream_frame s _ (p :: rest)).
  - apply (so_tidy Hso).
Qed.

Section Build.
Context `{AL : Allocator} `{OK : !AllocatorOk}.

Lemma fetched_built (P : Z -> Prop) s p rest l s' p' rest' :
  fetched s p rest P l s' p' rest' -> (forall x, P x -> is_Some (bytes s' !! x)) -> built P s p rest l [] s' p' rest'.
Proof.
  intros [F1 F2 F3 F4] HP. apply built_nil; [done|done| | |done].
  - intros x b Hx Hb. by rewrite F3.
  - intros x Hx. destruct (decide (is_Some (bytes s' !! x))) as [?|Hn]; [done|]. exfalso. apply Hn. rewrite F3; [done|].
    intros Hp. by apply Hn, HP.
Qed.

(** One store into memory that is apart from the buffers. *)
Lemma store_built s p rest L a l n Q :
  source s p rest L -> n = Z.of_nat (length l) -> safe s p rest (inside a n) ->
  (forall s', built (inside a n) s p rest L [] s' p rest -> at_bytes (bytes s') a l -> Q tt s') -> wp (store a l) s Q.
Proof.
  intros Hso -> [Hm Hs] HQ. apply store_bytes_wp; [done|]. intros m' Ha Ho.
  assert (forall x, is_Some (bytes s !! x) -> is_Some (m' !! x)) as Hmap.
  { intros x Hx. destruct (decide (inside a (Z.of_nat (length l)) x)) as [Hi|Hi]; [by apply (at_bytes_mapped _ _ _ Ha)|].
    by rewrite Ho. }
  apply HQ; [|done]. apply built_nil; [|split; [by exists []|eauto..]| |done|done].
  - apply source_bytes; [done| |done]. intros x b Hx Hb. rewrite Ho; [done|]. intros Hi. by apply (Hs x Hi).
  - intros x b Hx Hb. cbn. by rewrite Ho.
Qed.

(** A new block. *)
Lemma malloc_built s p rest L n Q :
  source s p rest L -> 0 <= n -> Q 0 s ->
  (forall a s', 0 < a < 2 ^ 64 -> built none s p rest L [(a, n)] s' p rest -> safe s' p rest (inside a n) ->
     (forall x, inside a n x -> bytes s !! x = None) -> Q a s') ->
  wp (aosl_malloc n) s Q.
Proof.
  intros Hso Hn Q0 Q1. apply aosl_malloc_wp; [done|done|]. intros a m' Ha Hend (U1 & U2 & U3) Hm Ho.
  assert (forall x b, bytes s !! x = Some b -> m' !! x = Some b) as Hsame.
  { intros x b Hb. rewrite Ho; [done|]. intros Hi. rewrite U1 in Hb; done. }
  assert (forall x, is_Some (bytes s !! x) -> is_Some (m' !! x)) as Hmap by (intros x [b Hb]; eauto).
  assert (forall x, in_blocks [(a, n)] x -> inside a n x) as Hin.
  { intros x Hx. apply in_blocks_cons in Hx as [?|Hx]; [done|]. by apply no_blocks in Hx. }
  assert (0 < a < 2 ^ 64) as Har by (unfold ADDR_END in *; lia).
  apply Q1; [done| |split; [done|]|done].
  - split; cbn; try done.
    + apply source_bytes; [done|by intros x b _; apply Hsame|done].
    + split; [by exists []|eauto..].
    + intros x b _. apply Hsame.
    + intros x Hx. by apply U1, Hin.
    + intros x Hx. by apply Hm, Hin.
    + intros q k Hq. apply list_elem_of_singleton in Hq as [= -> ->]. by rewrite lookup_insert_eq.
    + intros q Hq. rewrite lookup_insert_ne; [done|set_solver].
    + intros q Hq. by apply list_elem_of_singleton in Hq as ->.
    + apply NoDup_singleton.
    + split; [|done]. intros x _ Hx. by apply no_blocks in Hx.
  - intros x Hx (q & b & Hq & Eb & Hb). assert (bufs s (p :: rest) x) as Hbuf by (by exists q, b).
    apply (bufs_mapped _ _ (so_ok Hso)) in Hbuf as [? ?]. rewrite U1 in *; done.
Qed.

Lemma marshal_out_wp psb q n len (s : mstate) Q : 0 <= n -> Q (len, q) s -> wp (marshal_out psb (n, q) len) s Q.
Proof. intros Hn HQ. unfold marshal_out. cbn. destruct (Z.ltb_spec n 0); [lia|done]. Qed.

Lemma built_refl s p rest l : source s p rest l -> built none s p rest l [] s p rest.
Proof. intros H. apply built_nil; [done|apply took_refl|apply same_on_refl|done..]. Qed.

Lemma fetched_none s p rest l s' p' rest' : fetched s p rest none l s' p' rest' -> built none s p rest l [] s' p' rest'.
Proof. intros F. by apply fetched_built. Qed.

(** A step that only reads, or allocates, in front. *)
Lemma built_none_l (P : Z -> Prop) s p rest l1 B1 s1 p1 rest1 l2 B2 s2 p2 rest2 :
  built none s p rest l1 B1 s1 p1 rest1 -> built P s1 p1 rest1 l2 B2 s2 p2 rest2 ->
  built P s p rest l2 (B1 ++ B2) s2 p2 rest2.
Proof. intros A C. eapply built_trans; [exact A|exact C|]. intros x Hx _. split; [by intros ?|done]. Qed.

(** Memory outside [P] that existed is still the same. *)
Lemma built_at (P : Z -> Prop) s p rest l B s' p' rest' a bs :
  built P s p rest l B s' p' rest' -> at_bytes (bytes s) a bs ->
  (forall x, inside a (Z.of_nat (length bs)) x -> ~ P x) -> at_bytes (bytes s') a bs.
Proof. intros A Ha H. eapply at_bytes_same; [exact Ha|apply (bu_bytes A)|done]. Qed.

Context (T : gmap Z aosl_type_info_t) (D : nat) (stk : Z -> Z -> bool).
Hypothesis no_stack_garbage : forall t a, stk t a = false.
Hypothesis L : Layout T D.

(** The outcome of the unmarshaller on a stream that starts with [enc v]. *)
Definition rebuilt (t dst : Z) (v : val) (s : mstate) (p : Z) (rest : list Z) (tail : list byte) (r : Z * Z) (s' : mstate) : Prop :=
  r.1 = - AOSL_ENOMEM \/
  (r.1 = Z.of_nat (length (enc v)) /\ exists B rest',
     built (own T D t dst) s p rest tail B s' r.2 rest' /\ repr T D t dst v B (bytes s')).

Definition unmarshal_ok (t : Z) (v : val) : Prop :=
  forall s p rest tail dst fuel, source s p rest (enc v ++ tail) -> safe s p rest (own T D t dst) ->
    (cost v + D <= fuel)%nat -> wp (_____unmarshal T stk fuel t dst p) s (rebuilt t dst v s p rest tail).

Ltac enter fuel Et Eh Hty :=
  destruct fuel as [|fuel]; [cbn in *; lia|]; cbn [_____unmarshal]; apply wp_bind; eapply get_type_wp; [exact Et|];
  apply wp_bind; apply absent_wp; [exact Eh|]; cbn iota; rewrite ?Hty.

Lemma safe_span s p rest t ti n dst :
  safe s p rest (own T D t dst) -> T !! t = Some ti -> span ti = Some n -> safe s p rest (inside (dst + obj_addr ti) n).
Proof. intros Hs Et Hn. eapply safe_sub; [done|]. intros x Hx. by eapply own_span. Qed.

Lemma built_span (P : Z -> Prop) s p rest l B s' p' rest' t ti n dst :
  built P s p rest l B s' p' rest' -> T !! t = Some ti -> span ti = Some n ->
  (forall x, P x -> is_Some (bytes s !! x) -> inside (dst + obj_addr ti) n x) -> built (own T D t dst) s p rest l B s' p' rest'.
Proof. intros A Et Hn H. eapply built_weaken; [done|]. intros x Hx Hm. eapply own_span; eauto. Qed.

Lemma decode_int_wp n f fuel s p rest bs tail a :
  identity_on n f -> source s p rest (bs ++ tail) -> length bs = n -> (0 < n < fuel)%nat -> (n <= 16)%nat ->
  safe s p rest (inside a (Z.of_nat n)) ->
  wp (decode_int n f fuel p a) s (fun r s' => exists rest', r.1 = Z.of_nat n /\
    built (inside a (Z.of_nat n)) s p rest tail [] s' r.2 rest' /\ at_bytes (bytes s') a bs).
Proof.
  intros Hid Hso Hl Hf H16 Hsafe. unfold decode_int. apply wp_bind.
  eapply check_and_decode_basetype_wp; [exact Hso|done|by intros ->; cbn in Hl; lia|lia|lia|].
  intros s1 p1 rest1 F. cbn. rewrite (Hid bs Hl), (split_le_combine' bs n Hl). apply fetched_none in F.
  apply wp_bind. eapply store_built; [apply F|by rewrite Hl|by eapply built_safe|].
  intros s2 F2 Ha. apply wp_ret. exists rest1. split; [done|]. split; [|done]. by eapply (built_none_l _ _ _ _ _ []).
Qed.

Lemma unmarshal_flat_ok t ti n bs :
  entry T t ti -> flat_size (type_id ti) = Some n -> length bs = n -> unmarshal_ok t (VRaw bs).
Proof.
  intros [Et Eh] Hf Hl s p rest tail dst fuel Hso Hsafe Hc. cbn [enc cost] in *.
  pose proof (safe_span _ _ _ _ _ _ _ Hsafe Et (flat_span _ _ Hf)) as Hsp.
  assert (forall r s', (exists rest', r.1 = Z.of_nat n /\ built (inside (dst + obj_addr ti) (Z.of_nat n)) s p rest tail [] s' r.2 rest' /\
    at_bytes (bytes s') (dst + obj_addr ti) bs) -> rebuilt t dst (VRaw bs) s p rest tail r s') as Hdone.
  { intros r s' (rest' & E & A & Ha). right. cbn [enc]. rewrite Hl. split; [done|]. exists [], rest'. split; [|by eapply R_flat].
    eapply built_span; [done..|by apply flat_span|done]. }
  enter fuel Et Eh I. destruct (type_id ti) eqn:Hty; try done; injection Hf as <-;
    try (unfold sizeof_in_addr, sizeof_in6_addr; eapply wp_mono; [eapply decode_int_wp; [first [by apply identity_wrap|apply identity_id]|exact Hso|done|lia|lia|done]|apply Hdone]).
  apply nil_length_inv in Hl as ->. apply wp_ret, Hdone. exists rest. split; [done|]. split; [|apply at_bytes_nil].
  eapply built_weaken; [by apply built_refl|done].
Qed.

Lemma unmarshal_fixed_bytes_ok t ti bs :
  entry T t ti -> type_id ti = AOSL_TYPE_FIXED_BYTES -> Z.of_nat (length bs) = array_size ti -> array_size ti < 2 ^ 32 ->
  unmarshal_ok t (VRaw bs).
Proof.
  intros [Et Eh] Hty Hl H32 s p rest tail dst fuel Hso Hsafe Hc. cbn [enc cost] in *.
  assert (span ti = Some (array_size ti)) as Hspan by (unfold span; by rewrite Hty).
  pose proof (safe_span _ _ _ _ _ _ _ Hsafe Et Hspan) as Hsp. enter fuel Et Eh Hty. apply wp_bind.
  eapply decode_bytes_wp; [exact Hso|lia|done|done|]. intros s1 p1 rest1 F Ha. cbn. apply wp_ret. right. split; [done|].
  exists [], rest1. split; [|by eapply R_fixed_bytes]. eapply built_span; [|done|done|by intros x Hx _].
  apply fetched_built; [done|]. rewrite <-Hl. by apply at_bytes_mapped.
Qed.

(** A counter read into a local variable. *)
Lemma decode_val_wp fuel n l2 s p rest Q :
  source s p rest (le_split 2 (Z.of_nat n) ++ l2) -> Z.of_nat n < 2 ^ 16 -> (2 < fuel)%nat ->
  (forall s' p' rest', built none s p rest l2 [] s' p' rest' -> Q (0, p', Z.of_nat n) s') ->
  wp (decode_val fuel p) s Q.
Proof.
  intros Hso Hn Hf HQ. unfold decode_val. apply wp_bind.
  eapply check_and_decode_basetype_wp; [exact Hso|done|done|lia|lia|]. intros s1 p1 rest1 F. apply wp_ret.
  unfold __decode_int16. rewrite le_combine_split, Z.mod_small by lia. rewrite wrapu_id by lia.
  apply (HQ _ _ rest1). by apply fetched_none.
Qed.

Lemma unmarshal_bool_wp fuel t base (b : bool) l2 s p rest Q :
  source s p rest ([if b then Init.Byte.x01 else Init.Byte.x00] ++ l2) -> (1 < fuel)%nat ->
  (forall s' p' rest', built none s p rest l2 [] s' p' rest' -> Q (1, p', b) s') ->
  wp (unmarshal_bool stk fuel t base p) s Q.
Proof.
  intros Hso Hf HQ. unfold unmarshal_bool. rewrite no_stack_garbage. apply wp_bind.
  eapply check_and_decode_basetype_wp; [exact Hso|done|done|lia|lia|]. intros s1 p1 rest1 F. apply wp_ret.
  replace (negb (le_combine [if b then Init.Byte.x01 else Init.Byte.x00] =? 0)) with b by (by destruct b).
  apply (HQ _ _ rest1). by apply fetched_none.
Qed.

Lemma unmarshal_null_ok t ti :
  entry T t ti -> type_id ti = AOSL_TYPE_POINTER \/ type_id ti = AOSL_TYPE_STRING -> unmarshal_ok t VNull.
Proof.
  intros [Et Eh] Hty s p rest tail dst fuel Hso Hsafe Hc. cbn [enc cost] in *.
  assert (span ti = Some 8) as Hspan by (unfold span; by destruct Hty as [-> | ->]).
  pose proof (safe_span _ _ _ _ _ _ _ Hsafe Et Hspan) as Hsp.
  assert (forall s1 p1 rest1, built none s p rest tail [] s1 p1 rest1 ->
    wp (store_ptr (dst + obj_addr ti) 0 ;; cret (1, p1)) s1 (rebuilt t dst VNull s p rest tail)) as Hdone.
  { intros s1 p1 rest1 A. apply wp_bind. unfold store_ptr.
    eapply store_built; [apply A|by rewrite length_le_split|by eapply built_safe|]. intros s2 A2 Ha. apply wp_ret. right.
    split; [done|]. exists [], rest1. split; [|by eapply R_null]. eapply (built_span _ _ _ _ _ ([] ++ [])); [|done|done|].
    - eapply built_none_l; [exact A|exact A2].
    - done. }
  destruct Hty as [Hty|Hty]; enter fuel Et Eh Hty; apply wp_bind; eapply (unmarshal_bool_wp _ _ _ false); [exact Hso|lia|done|exact Hso|lia|done].
Qed.

Lemma unmarshal_var_bytes_ok t ti bs :
  entry T t ti -> type_id ti = AOSL_TYPE_VAR_BYTES ->
  Z.of_nat (length bs) <= array_size ti -> Z.of_nat (length bs) < 2 ^ 16 -> unmarshal_ok t (VCount (length bs) (VRaw bs)).
Proof.
  intros [Et Eh] Hty Hl H16 s p rest tail dst fuel Hso Hsafe Hc. cbn [enc cost] in *. rewrite <-(assoc_L (++)) in Hso.
  assert (span ti = Some (array_size ti)) as Hspan by (unfold span; by rewrite Hty).
  assert (forall x, inside (dst + count_var_addr ti) 2 x -> own T D t dst x) as Hcnt by (intros; eapply own_count; eauto).
  pose proof (safe_span _ _ _ _ _ _ _ Hsafe Et Hspan) as Hsp. enter fuel Et Eh Hty.
  apply wp_bind. eapply decode_val_wp; [exact Hso|done|lia|]. intros s1 p1 rest1 A1. cbn.
  destruct (Z.ltb_spec (array_size ti) (Z.of_nat (length bs))) as [?|_]; [lia|]. apply wp_bind. unfold store16.
  eapply store_built; [apply A1|by rewrite length_le_split|eapply built_safe; [exact A1|eapply safe_sub; [exact Hsafe|exact Hcnt]]|].
  intros s2 A2 Ha2. pose proof (built_none_l _ _ _ _ _ _ _ _ _ _ _ _ _ _ A1 A2) as A12. apply wp_bind.
  eapply decode_bytes_wp; [apply A2|lia|done| |].
  { eapply built_safe; [exact A12|]. eapply safe_sub; [done|]. unfold inside; lia. }
  intros s3 p3 rest3 F Ha3. apply fetched_built in F; [|by apply at_bytes_mapped]. apply marshal_out_wp; [done|]. right.
  split; [cbn [fst enc]; rewrite length_app, length_le_split; lia|]. exists ([] ++ []), rest3. split.
  - eapply built_trans; [exact A12|exact F|]. intros x Hx _. split; [intros Hi; by apply Hx, Hcnt|].
    intros Hi. apply Hx. eapply own_span; [done..|]. unfold inside in *; lia.
  - eapply R_var_bytes; [done..| |done]. eapply built_at; [exact F|done|]. rewrite length_le_split. intros x Hx Hx'.
    eapply (lay_bytes _ _ L t ti dst x); [done..|]. unfold inside in *; lia.
Qed.

Lemma unmarshal_nil_ok t ti bs :
  entry T t ti -> type_id ti = AOSL_TYPE_BYTES_WITH_NIL -> NUL ∉ bs ->
  Z.of_nat (length bs) + 1 <= array_size ti -> Z.of_nat (length bs) + 1 < 2 ^ 16 -> unmarshal_ok t (VText bs).
Proof.
  intros [Et Eh] Hty Hn Hl H16 s p rest tail dst fuel Hso Hsafe Hc. cbn [enc cost] in *.
  assert (span ti = Some (array_size ti)) as Hspan by (unfold span; by rewrite Hty).
  assert (Z.of_nat (length (bs ++ [NUL])) = Z.of_nat (length bs) + 1) as Hlen by (rewrite length_app; cbn; lia).
  pose proof (safe_span _ _ _ _ _ _ _ Hsafe Et Hspan) as Hsp. enter fuel Et Eh Hty.
  apply wp_bind. eapply SAFE_STRSIZE_wp; [exact Hso|done|lia|].
  destruct (Z.ltb_spec (Z.of_nat (length bs) + 1) 0) as [?|_]; [lia|]. rewrite wrapu_id by lia.
  destruct (Z.ltb_spec (array_size ti) (Z.of_nat (length bs) + 1)) as [?|_]; [lia|]. apply wp_bind.
  eapply decode_bytes_wp; [exact Hso|rewrite length_app; cbn; lia|done| |].
  { eapply safe_sub; [done|]. unfold inside; lia. }
  intros s1 p1 rest1 F Ha. rewrite <-Hlen in F. apply fetched_built in F; [|by apply at_bytes_mapped]. apply marshal_out_wp; [done|]. right.
  split; [cbn [fst enc]; by rewrite Hlen|]. exists [], rest1. split; [|by eapply R_nil]. eapply built_span; [done..|].
  intros x Hx _. unfold inside in *; lia.
Qed.

(** The bytes of a run of the destination stay clear of a new block. *)
Lemma span_not_new s p rest t ti n dst a k x :
  safe s p rest (own T D t dst) -> T !! t = Some ti -> span ti = Some n ->
  (forall x, inside a k x -> bytes s !! x = None) -> inside (dst + obj_addr ti) n x -> inside a k x -> False.
Proof.
  intros Hs Et Hn Hnew Hx Hi. destruct (safe_span _ _ _ _ _ _ _ Hs Et Hn) as [Hm _]. destruct (Hm x Hx). by rewrite Hnew in *.
Qed.

(** Memory that did not exist before an initial part does not belong to what is
    new only in [s1]. *)
Lemma built_unused (P : Z -> Prop) s p rest l B s' p' rest' (R : Z -> Prop) :
  built P s p rest l B s' p' rest' -> (forall x, R x -> bytes s' !! x = None) -> forall x, R x -> bytes s !! x = None.
Proof.
  intros A H x Hx. destruct (bytes s !! x) eqn:E; [|done]. destruct (bu_map A x) as [? ?]; [by rewrite E|]. rewrite H in *; done.
Qed.

Lemma unmarshal_ptr_ok t ti sz v :
  entry T t ti -> type_id ti = AOSL_TYPE_POINTER -> get_type_size T D (child ti) = Ret (Some sz) ->
  unmarshal_ok (child ti) v -> unmarshal_ok t (VBox v).
Proof.
  intros [Et Eh] Hty Hsz IH s p rest tail dst fuel Hso Hsafe Hc. cbn [enc cost] in *.
  assert (span ti = Some 8) as Hspan by (unfold span; by rewrite Hty).
  destruct (lay_child _ _ L t ti sz Et) as [Hsz0 Hin]; [rewrite Hty; set_solver|done|]. enter fuel Et Eh Hty.
  apply wp_bind. eapply (unmarshal_bool_wp _ _ _ true (enc v ++ tail) _ _ _ _ Hso); [lia|]. intros s1 p1 rest1 A1. cbn.
  apply wp_bind. eapply size_wp; [done|lia|]. apply wp_bind. eapply malloc_built; [apply A1|lia|apply wp_ret; by left|].
  intros a s2 Ha A2 Hsa Hnew. destruct (Z.eqb_spec a 0) as [?|_]; [lia|].
  pose proof (built_none_l _ _ _ _ _ _ _ _ _ _ _ _ _ _ A1 A2) as A12. apply wp_bind. unfold store_ptr.
  pose proof (built_unused _ _ _ _ _ _ _ _ _ _ A1 Hnew) as Hnew0.
  eapply store_built; [apply A2|by rewrite length_le_split|eapply built_safe; [exact A12|by eapply safe_span]|].
  intros s3 A3 Ha3. apply wp_bind. eapply wp_mono; [apply (IH s3 p1 rest1 tail a fuel); [apply A3| |lia]|].
  { eapply built_safe; [exact A3|]. eapply safe_sub; [exact Hsa|apply Hin]. }
  intros [e p4] s4 [E|(E & B & rest4 & A4 & HR)]; cbn in E; subst e; [apply wp_ret; by left|].
  apply marshal_out_wp; [lia|]. right. cbn [fst snd enc length] in *. split; [lia|].
  pose proof (built_none_l _ _ _ _ _ _ _ _ _ _ _ _ _ _ A12 A3) as A123. exists ([(a, sz)] ++ B), rest4. split.
  - eapply built_trans; [exact A123|exact A4|].
    intros x Hx Hm. split; [intros Hi; apply Hx; by eapply own_span|].
    intros Hi. apply Hin in Hi. rewrite Hnew0 in Hm by done. by destruct Hm.
  - eapply R_ptr; [done..| |done|done]. eapply built_at; [exact A4|exact Ha3|]. rewrite length_le_split. intros x Hx Hi.
    apply Hin in Hi. by eapply span_not_new.
Qed.

Lemma unmarshal_str_ok t ti bs :
  entry T t ti -> type_id ti = AOSL_TYPE_STRING -> NUL ∉ bs -> Z.of_nat (length bs) + 1 < 2 ^ 16 ->
  unmarshal_ok t (VBox (VText bs)).
Proof.
  intros [Et Eh] Hty Hn Hl s p rest tail dst fuel Hso Hsafe Hc. cbn [enc cost] in *.
  assert (span ti = Some 8) as Hspan by (unfold span; by rewrite Hty).
  assert (Z.of_nat (length (bs ++ [NUL])) = Z.of_nat (length bs) + 1) as Hlen by (rewrite length_app; cbn; lia).
  enter fuel Et Eh Hty. apply wp_bind.
  eapply (unmarshal_bool_wp _ _ _ true ((bs ++ [NUL]) ++ tail) _ _ _ _ Hso); [lia|]. intros s1 p1 rest1 A1. cbn [fst snd].
  apply wp_bind. eapply SAFE_STRSIZE_wp; [apply A1|done|lia|].
  destruct (Z.ltb_spec (Z.of_nat (length bs) + 1) 0) as [?|_]; [lia|]. rewrite wrapu_id by lia.
  apply wp_bind. eapply malloc_built; [apply A1|lia|apply wp_ret; by left|].
  intros a s2 Ha A2 Hsa Hnew. destruct (Z.eqb_spec a 0) as [?|_]; [lia|].
  pose proof (built_none_l _ _ _ _ _ _ _ _ _ _ _ _ _ _ A1 A2) as A12. apply wp_bind. unfold store_ptr.
  pose proof (built_unused _ _ _ _ _ _ _ _ _ _ A1 Hnew) as Hnew0.
  eapply store_built; [apply A2|by rewrite length_le_split|eapply built_safe; [exact A12|by eapply safe_span]|].
  intros s3 A3 Ha3. pose proof (built_none_l _ _ _ _ _ _ _ _ _ _ _ _ _ _ A12 A3) as A123. apply wp_bind.
  eapply decode_bytes_wp; [apply A3|rewrite length_app; cbn; lia|by rewrite Hlen|eapply built_safe; [exact A3|exact Hsa]|].
  intros s4 p4 rest4 F Ha4. rewrite <-Hlen in F. apply fetched_built in F; [|by apply at_bytes_mapped].
  apply marshal_out_wp; [done|]. right. cbn [fst snd enc length]. split; [lia|]. rewrite Hlen in F.
  exists ([(a, Z.of_nat (length bs) + 1)] ++ []), rest4. split.
  - eapply built_trans; [exact A123|exact F|]. intros x Hx Hm. split; [intros Hi; apply Hx; by eapply own_span|].
    intros Hi. rewrite Hnew0 in Hm by done. by destruct Hm.
  - eapply R_str; [done..| |done|done|done]. eapply built_at; [exact F|exact Ha3|]. rewrite length_le_split. intros x Hx Hi.
    by eapply span_not_new.
Qed.

Lemma unmarshal_ref_ok t ti v :
  entry T t ti -> type_id ti = AOSL_TYPE_REFERENCE -> unmarshal_ok (child ti) v -> unmarshal_ok t (VGroup v).
Proof.
  intros [Et Eh] Hty IH s p rest tail dst fuel Hso Hsafe Hc. cbn [enc cost] in *. enter fuel Et Eh Hty.
  apply wp_bind. eapply wp_mono; [apply (IH s p rest tail); [done| |lia]|].
  { eapply safe_sub; [done|]. intros x Hx. by eapply own_ref. }
  intros [e p1] s1 [E|(E & B & rest1 & A & HR)]; cbn in E; subst e; [apply wp_ret; by left|].
  apply marshal_out_wp; [lia|]. right. cbn [fst snd enc] in *. split; [done|]. exists B, rest1. split; [|by eapply R_ref].
  eapply built_weaken; [done|]. intros x Hx _. by eapply own_ref.
Qed.

(** ** Members and elements *)

(** The members from [t] on are members of one structure. *)
Definition members (t : Z) : Prop :=
  exists st si, T !! st = Some si /\ type_id si = AOSL_TYPE_STRUCT /\ forall g, field T t g -> field T (child si) g.

Definition unmarshal_fields_ok (t : Z) (v : val) : Prop :=
  members t -> forall s p rest tail dst fuel psb_p len,
    source s p rest (enc v ++ tail) -> safe s p rest (own_fields T D t dst) -> (cost v + D <= fuel)%nat -> 0 <= len ->
    wp (unmarshal_fields T stk fuel psb_p t dst p len) s (fun r s' =>
      r.1 = - AOSL_ENOMEM \/
      (r.1 = len + Z.of_nat (length (enc v)) /\ exists B rest',
         built (own_fields T D t dst) s p rest tail B s' r.2 rest' /\ repr_fields T D t dst v B (bytes s'))).

Definition unmarshal_elems_ok (c sz i : Z) (n : nat) (v : val) : Prop :=
  (forall b x, own T D c b x -> inside b sz x) -> 0 <= sz -> 0 <= i -> i + Z.of_nat n < 2 ^ 16 ->
  forall s p rest tail dst fuel psb_p len,
    source s p rest (enc v ++ tail) -> safe s p rest (own_elems T D c dst sz i n) -> (cost v + D <= fuel)%nat -> 0 <= len ->
    wp (unmarshal_elems T stk fuel psb_p c dst sz i (i + Z.of_nat n) p len) s (fun r s' =>
      r.1 = - AOSL_ENOMEM \/
      (r.1 = len + Z.of_nat (length (enc v)) /\ exists B rest',
         built (own_elems T D c dst sz i n) s p rest tail B s' r.2 rest' /\ repr_elems T D c dst sz i n v B (bytes s'))).

Lemma unmarshal_struct_ok t ti v :
  entry T t ti -> type_id ti = AOSL_TYPE_STRUCT -> unmarshal_fields_ok (child ti) v -> unmarshal_ok t (VGroup v).
Proof.
  intros [Et Eh] Hty IH s p rest tail dst fuel Hso Hsafe Hc. cbn [enc cost] in *. enter fuel Et Eh Hty.
  assert (forall x, own_fields T D (child ti) (dst + obj_addr ti) x -> own T D t dst x) as Hown.
  { intros x (f & Hf & Hx). by eapply own_field. }
  eapply wp_mono; [eapply IH; [by exists t, ti|done|by eapply safe_sub|lia|done]|].
  intros r s1 [E|(E & B & rest1 & A & HR)]; [by left|]. right. split; [done|]. exists B, rest1.
  split; [|by eapply R_struct]. eapply built_weaken; [done|]. intros x Hx _. by apply Hown.
Qed.

Lemma field_ge c f : field T c f -> c <= f.
Proof. induction 1; unfold sizeof_type_info in *; lia. Qed.

(** New blocks are clear of the rest of the object. *)
Lemma built_clear (P R : Z -> Prop) s p rest l B s' p' rest' x :
  built P s p rest l B s' p' rest' -> mapped (bytes s) R -> in_blocks B x -> R x -> False.
Proof. intros A Hm Hx HR. destruct (Hm x HR) as [? ?]. rewrite (bu_new A) in *; done. Qed.

Lemma unmarshal_fields_cons_ok t ti v w :
  T !! t = Some ti -> type_id ti <> AOSL_TYPE_VOID -> unmarshal_ok t v -> unmarshal_fields_ok (t + sizeof_type_info) w ->
  unmarshal_fields_ok t (VCons v w).
Proof.
  intros Et Hty IH1 IH2 (st & si & Es & Hst & Hmem) s p rest tail dst fuel psb_p len Hso Hsafe Hc Hlen. cbn [enc cost] in *.
  rewrite <-(assoc_L (++)) in Hso. destruct fuel as [|fuel]; [lia|].
  assert (forall x, own T D t dst x -> own_fields T D t dst x) as Hown1.
  { intros x Hx. exists t. split; [by eapply field_here|done]. }
  assert (forall x, own_fields T D (t + sizeof_type_info) dst x -> own_fields T D t dst x) as Hown2.
  { intros x (f & Hf & Hx). exists f. split; [by eapply field_next|done]. }
  assert (forall x, own T D t dst x -> own_fields T D (t + sizeof_type_info) dst x -> False) as Hdis.
  { intros x Hx (g & Hg & Hx'). eapply (lay_fields _ _ L st si t g); [done|done|apply Hmem; by eapply field_here|apply Hmem; by eapply field_next| |done..].
    apply field_ge in Hg. unfold sizeof_type_info in *. lia. }
  cbn [unmarshal_fields]. apply wp_bind. eapply get_type_wp; [exact Et|]. rewrite decide_False by done.
  apply wp_bind. eapply wp_mono; [apply (IH1 s p rest (enc w ++ tail) dst); [done|by eapply safe_sub|lia]|].
  intros [e p1] s1 [E|(E & B1 & rest1 & A1 & R1)]; cbn [fst snd] in *; subst e; [apply wp_ret; by left|].
  destruct (Z.ltb_spec (Z.of_nat (length (enc v))) 0) as [?|_]; [lia|].
  eapply wp_mono; [eapply IH2; [|apply A1|eapply built_safe; [exact A1|by eapply safe_sub]|lia|lia]|].
  { exists st, si. split; [done|]. split; [done|]. intros g Hg. apply Hmem. by eapply field_next. }
  intros r s2 [E|(E & B2 & rest2 & A2 & R2)]; [by left|]. right. rewrite length_app. split; [lia|].
  exists (B1 ++ B2), rest2. split.
  - eapply built_trans; [exact A1|exact A2|]. intros x Hx _. split; intros Hi; apply Hx; eauto.
  - eapply F_cons; [done|done| |done]. eapply repr_local; [done|exact R1|]. intros x b Hx Hb. apply (bu_bytes A2); [|done].
    intros Hi. destruct Hx as [Hx|Hx]; [by eapply Hdis|]. eapply built_clear; [exact A1|apply Hsafe|done|by apply Hown2].
Qed.

Lemma unmarshal_elems_cons_ok c sz i n v w :
  unmarshal_ok c v -> unmarshal_elems_ok c sz (i + 1) n w -> unmarshal_elems_ok c sz i (S n) (VCons v w).
Proof.
  intros IH1 IH2 Hin Hsz Hi Hn s p rest tail dst fuel psb_p len Hso Hsafe Hc Hlen. cbn [enc cost] in *.
  rewrite <-(assoc_L (++)) in Hso. destruct fuel as [|fuel]; [lia|].
  assert (forall x, own T D c (dst + sz * i) x -> own_elems T D c dst sz i (S n) x) as Hown1.
  { intros x Hx. exists i. split; [lia|done]. }
  assert (forall x, own_elems T D c dst sz (i + 1) n x -> own_elems T D c dst sz i (S n) x) as Hown2.
  { intros x (j & Hj & Hx). exists j. split; [lia|done]. }
  assert (forall x, own T D c (dst + sz * i) x -> own_elems T D c dst sz (i + 1) n x -> False) as Hdis.
  { intros x Hx (j & Hj & Hx'). apply Hin in Hx, Hx'. unfold inside in *. nia. }
  cbn [unmarshal_elems]. destruct (Z.ltb_spec i (i + Z.of_nat (S n))) as [_|?]; [|lia].
  apply wp_bind. eapply wp_mono; [apply (IH1 s p rest (enc w ++ tail)); [done|by eapply safe_sub|lia]|].
  intros [e p1] s1 [E|(E & B1 & rest1 & A1 & R1)]; cbn [fst snd] in *; subst e; [apply wp_ret; by left|].
  destruct (Z.ltb_spec (Z.of_nat (length (enc v))) 0) as [?|_]; [lia|]. rewrite wrapu_id by lia.
  replace (i + Z.of_nat (S n)) with (i + 1 + Z.of_nat n) by lia.
  eapply wp_mono; [eapply IH2; [done|done|lia|lia|apply A1|eapply built_safe; [exact A1|by eapply safe_sub]|lia|lia]|].
  intros r s2 [E|(E & B2 & rest2 & A2 & R2)]; [by left|]. right. rewrite length_app. split; [lia|].
  exists (B1 ++ B2), rest2. split.
  - eapply built_trans; [exact A1|exact A2|]. intros x Hx _. split; intros Hi'; apply Hx; eauto.
  - eapply E_cons; [|done]. eapply repr_local; [done|exact R1|]. intros x b Hx Hb. apply (bu_bytes A2); [|done].
    intros Hi'. destruct Hx as [Hx|Hx]; [by eapply Hdis|]. eapply built_clear; [exact A1|apply Hsafe|done|by apply Hown2].
Qed.

Lemma unmarshal_fixed_array_ok t ti sz n v :
  entry T t ti -> type_id ti = AOSL_TYPE_FIXED_ARRAY -> get_type_size T D (child ti) = Ret (Some sz) ->
  Z.of_nat n = array_size ti -> Z.of_nat n < 2 ^ 16 -> unmarshal_elems_ok (child ti) sz 0 n v -> unmarshal_ok t (VGroup v).
Proof.
  intros [Et Eh] Hty Hsz Hn Hn2 IH s p rest tail dst fuel Hso Hsafe Hc. cbn [enc cost] in *. enter fuel Et Eh Hty.
  destruct (lay_child _ _ L t ti sz Et) as [Hsz0 Hin]; [rewrite Hty; set_solver|done|].
  apply wp_bind. eapply size_wp; [done|lia|]. rewrite <-Hn.
  assert (forall x, own_elems T D (child ti) (dst + obj_addr ti) sz 0 n x -> own T D t dst x) as Hown.
  { intros x (j & Hj & Hx). eapply (own_elem _ _ t ti sz j); [done|by left|done|lia|done]. }
  eapply wp_mono; [eapply (IH Hin); [lia|lia|lia|exact Hso|by eapply safe_sub|lia|lia]|].
  intros r s1 [E|(E & B & rest1 & A & HR)]; [by left|]. right. split; [done|]. exists B, rest1.
  split; [|by eapply R_fixed_array]. eapply built_weaken; [done|]. intros x Hx _. by apply Hown.
Qed.

Lemma unmarshal_var_array_ok t ti sz n v :
  entry T t ti -> type_id ti = AOSL_TYPE_VAR_ARRAY -> get_type_size T D (child ti) = Ret (Some sz) ->
  Z.of_nat n <= array_size ti -> Z.of_nat n < 2 ^ 16 -> unmarshal_elems_ok (child ti) sz 0 n v -> unmarshal_ok t (VCount n v).
Proof.
  intros [Et Eh] Hty Hsz Hn Hn2 IH s p rest tail dst fuel Hso Hsafe Hc. cbn [enc cost] in *. rewrite <-(assoc_L (++)) in Hso.
  enter fuel Et Eh Hty. destruct (lay_child _ _ L t ti sz Et) as [Hsz0 Hin]; [rewrite Hty; set_solver|done|].
  apply wp_bind. eapply size_wp; [done|lia|].
  assert (forall x, own_elems T D (child ti) (dst + obj_addr ti) sz 0 n x -> own T D t dst x) as Hown.
  { intros x (j & Hj & Hx). eapply (own_elem _ _ t ti sz j); [done|by right|done|lia|done]. }
  assert (forall x, inside (dst + count_var_addr ti) 2 x -> own T D t dst x) as Hcnt by (intros; eapply own_count; eauto).
  apply wp_bind. eapply decode_val_wp; [exact Hso|done|lia|]. intros s1 p1 rest1 A1. cbn [fst snd].
  destruct (Z.ltb_spec (array_size ti) (Z.of_nat n)) as [?|_]; [lia|]. apply wp_bind. unfold store16.
  eapply store_built; [apply A1|by rewrite length_le_split|eapply built_safe; [exact A1|eapply safe_sub; [exact Hsafe|exact Hcnt]]|].
  intros s2 A2 Ha2. pose proof (built_none_l _ _ _ _ _ _ _ _ _ _ _ _ _ _ A1 A2) as A12.
  eapply wp_mono; [eapply (IH Hin); [lia|lia|lia|apply A2|eapply built_safe; [exact A12|by eapply safe_sub]|lia|lia]|].
  intros r s3 [E|(E & B & rest3 & A3 & HR)]; [by left|]. right. cbn [enc]. rewrite length_app, length_le_split. split; [lia|].
  exists ([] ++ B), rest3. split.
  - eapply built_trans; [exact A12|exact A3|]. intros x Hx _. split; intros Hi; apply Hx; eauto.
  - eapply R_var_array; [done..| |done]. eapply built_at; [exact A3|exact Ha2|]. rewrite length_le_split.
    intros x Hx (j & Hj & Hx'). eapply (lay_array _ _ L t ti sz j dst x); [done..|lia|done|done].
Qed.

(** ** Dynamic arrays *)

Lemma header_wp {A} a c al s p rest l (k : CM mstate A) Q :
  source s p rest l -> safe s p rest (inside a 16) ->
  (forall s', built (inside a 4) s p rest l [] s' p rest -> at_bytes (bytes s') a (le_split 2 c) ->
     at_bytes (bytes s') (a + 2) (le_split 2 al) -> wp k s' Q) ->
  wp (set_count a c ;; set_allocated a al ;; k) s Q.
Proof.
  intros Hso Hs HQ. apply wp_bind. unfold set_count, store16.
  eapply store_built; [exact Hso|by rewrite length_le_split|eapply safe_sub; [exact Hs|unfold inside; lia]|].
  intros s1 A1 Ha1. apply wp_bind. unfold set_allocated, store16.
  eapply store_built; [apply A1|by rewrite length_le_split| |].
  { eapply built_safe; [exact A1|]. eapply safe_sub; [exact Hs|unfold inside; lia]. }
  intros s2 A2 Ha2. apply HQ; [| |done].
  - eapply (built_trans _ _ _ _ _ _ _ []); [exact A1|exact A2|]. intros x Hx _. unfold inside in *; lia.
  - eapply built_at; [exact A2|done|]. rewrite length_le_split. unfold inside; lia.
Qed.

(** Whatever the pointer holds is some address. *)
Lemma some_pointer m a : mapped m (inside a 8) -> exists q, 0 <= q < 2 ^ 64 /\ at_bytes m a (le_split 8 q).
Proof.
  intros Hm. destruct (mapped_at_bytes m a 8 Hm) as (l & Hl & Ha). exists (le_combine l). split.
  - pose proof (le_combine_bound l) as H. rewrite Hl in H. exact H.
  - by rewrite (split_le_combine' l 8 Hl).
Qed.

Lemma no_memory_wp a s p rest l q r (Q : Z * Z -> mstate -> Prop) :
  source s p rest l -> safe s p rest (inside a 16) -> (forall s', Q (r, q) s') ->
  wp (set_count a 0 ;; set_allocated a 0 ;; cret (r, q)) s Q.
Proof. intros Hso Hs HQ. eapply header_wp; [done..|]. intros. by apply wp_ret. Qed.

(** Counter, room and a new block of [k] bytes for a dynamic array: the state
    in which the elements are read into the block. *)
Record dyn_ready (t dst : Z) (ti : aosl_type_info_t) (s : mstate) (p : Z) (rest : list Z) (l : list byte)
    (n al k a : Z) (s' : mstate) (p' : Z) (rest' : list Z) : Prop := {
  dr_built : built (own T D t dst) s p rest l [(a, k)] s' p' rest';
  dr_addr : 0 < a < 2 ^ 64;
  dr_at : dyn_at (bytes s') (dst + obj_addr ti) n al a;
  dr_safe : safe s' p' rest' (inside a k);
  dr_new : forall x, inside a k x -> bytes s !! x = None
}.

Lemma dyn_alloc_wp {A} t ti dst s p rest l n al k s1 p1 rest1 (f0 : CM mstate A) (f : Z -> CM mstate A) Q :
  T !! t = Some ti -> span ti = Some 16 -> safe s p rest (own T D t dst) ->
  built none s p rest l [] s1 p1 rest1 -> 0 <= n <= al -> al < 2 ^ 16 -> 0 <= k ->
  (forall s', source s' p1 rest1 l -> safe s' p1 rest1 (inside (dst + obj_addr ti) 16) -> wp f0 s' Q) ->
  (forall a s', dyn_ready t dst ti s p rest l n al k a s' p1 rest1 -> wp (f a) s' Q) ->
  wp (set_count (dst + obj_addr ti) n ;; set_allocated (dst + obj_addr ti) al ;;
      do a <- aosl_malloc k; if a =? 0 then f0 else set_values (dst + obj_addr ti) a ;; f a) s1 Q.
Proof.
  intros Et Hspan Hsafe A1 Hn Hal Hk H0 H1. pose proof (safe_span _ _ _ _ _ _ _ Hsafe Et Hspan) as Hsp.
  eapply header_wp; [apply A1|by eapply built_safe|]. intros s2 A2 Ha2 Hb2.
  pose proof (built_none_l _ _ _ _ _ _ _ _ _ _ _ _ _ _ A1 A2) as A12. apply wp_bind.
  eapply malloc_built; [apply A2|lia| |].
  { rewrite Z.eqb_refl. eapply H0; [apply A2|]. by eapply built_safe. }
  intros a s3 Ha A3 Hsa Hnew. destruct (Z.eqb_spec a 0) as [?|_]; [lia|]. apply wp_bind. unfold set_values, store_ptr.
  pose proof (built_trans _ _ (inside (dst + obj_addr ti) 4) _ _ _ _ _ _ _ _ _ _ _ _ _ A12 A3 ltac:(intros x Hx _; split; [exact Hx|intros []])) as A123.
  eapply store_built; [apply A3|by rewrite length_le_split| |].
  { eapply built_safe; [exact A123|]. eapply safe_sub; [exact Hsp|unfold inside, sizeof_pointer; lia]. }
  intros s4 A4 Ha4. apply H1. split.
  - eapply (built_trans _ _ _ _ _ _ _ ([] ++ [(a, k)]) _ _ _ _ []); [exact A123|exact A4|].
    intros x Hx _. split; intros Hi; apply Hx; eapply own_span; [done..| |done|done|]; unfold inside, sizeof_pointer in *; lia.
  - done.
  - split; [done|]. split; [done|]. split; [lia|]. split; [|split; [|done]].
    + eapply built_at; [exact A4| |rewrite length_le_split; unfold inside, sizeof_pointer; lia].
      eapply built_at; [exact A3|done|by intros x _ []].
    + eapply built_at; [exact A4| |rewrite length_le_split; unfold inside, sizeof_pointer; lia].
      eapply built_at; [exact A3|done|by intros x _ []].
  - by eapply built_safe.
  - eapply built_unused; [exact A12|done].
Qed.

(** An empty dynamic array keeps the pointer it had. *)
Lemma dyn_empty_wp t ti dst s p rest l s1 p1 rest1 v :
  T !! t = Some ti -> span ti = Some 16 -> safe s p rest (own T D t dst) -> built none s p rest l [] s1 p1 rest1 ->
  (forall q s', dyn_at (bytes s') (dst + obj_addr ti) 0 0 q -> repr T D t dst v [] (bytes s')) ->
  2 = Z.of_nat (length (enc v)) ->
  wp (set_count (dst + obj_addr ti) 0 ;; set_allocated (dst + obj_addr ti) 0 ;; cret (2, p1)) s1
     (rebuilt t dst v s p rest l).
Proof.
  intros Et Hspan Hsafe A1 HR Hlen. pose proof (safe_span _ _ _ _ _ _ _ Hsafe Et Hspan) as Hsp.
  eapply header_wp; [apply A1|by eapply built_safe|]. intros s2 A2 Ha2 Hb2.
  pose proof (built_none_l _ _ _ _ _ _ _ _ _ _ _ _ _ _ A1 A2) as A12. apply wp_ret. right. split; [done|].
  exists [], rest1. split; [eapply built_span; [exact A12|done|done|]; intros x Hx _; unfold inside in *; lia|].
  destruct (some_pointer (bytes s2) (dst + obj_addr ti + 8)) as (q & Hq & Haq).
  { intros x Hx. apply (bu_map A12). apply Hsp. unfold inside in *; lia. }
  by apply (HR q).
Qed.

(** The bytes of a dynamic array are in its block. *)
Lemma dyn_filled t ti dst s p rest l n al k a s' p' rest' (P : Z -> Prop) B l2 s2 p2 rest2 :
  dyn_ready t dst ti s p rest l n al k a s' p' rest' -> T !! t = Some ti -> span ti = Some 16 ->
  safe s p rest (own T D t dst) -> built P s' p' rest' l2 B s2 p2 rest2 -> (forall x, P x -> inside a k x) ->
  built (own T D t dst) s p rest l2 ([(a, k)] ++ B) s2 p2 rest2 /\ dyn_at (bytes s2) (dst + obj_addr ti) n al a.
Proof.
  intros [R1 R2 R3 R4 R5] Et Hspan Hsafe A HP. split.
  - eapply built_trans; [exact R1|exact A|]. intros x Hx Hm. split; [done|]. intros Hp. apply HP in Hp.
    rewrite R5 in Hm by done. by destruct Hm.
  - assert (forall x, inside (dst + obj_addr ti) 16 x -> ~ P x) as Hout.
    { intros x Hx Hp. apply HP in Hp. by eapply span_not_new. }
    destruct R3 as (D1 & D2 & D3 & D4 & D5 & D6). do 3 (split; [done|]).
    split; [|split]; (eapply built_at; [exact A|done|]); rewrite length_le_split; intros x Hx; apply Hout; unfold inside in *; lia.
Qed.

Lemma unmarshal_dyn_bytes_ok t ti bs :
  entry T t ti -> type_id ti = AOSL_TYPE_DYNAMIC_BYTES -> Z.of_nat (length bs) < 2 ^ 16 ->
  unmarshal_ok t (VCount (length bs) (VRaw bs)).
Proof.
  intros [Et Eh] Hty Hl s p rest tail dst fuel Hso Hsafe Hc. cbn [enc cost] in *. rewrite <-(assoc_L (++)) in Hso.
  assert (span ti = Some 16) as Hspan by (unfold span; by rewrite Hty). enter fuel Et Eh Hty.
  rewrite decide_False by done. apply wp_bind. eapply decode_val_wp; [exact Hso|done|lia|]. intros s1 p1 rest1 A1.
  cbn [fst snd]. rewrite Z.add_0_r, (wrapu_id 16) by lia. destruct (Z.ltb_spec 0 (Z.of_nat (length bs))) as [Hpos|Hz].
  - eapply dyn_alloc_wp; [done..|lia|lia|lia| |].
    + intros s2 Hso2 Hs2. eapply no_memory_wp; [done..|]. by left.
    + intros a s2 R. cbn. apply wp_bind. eapply decode_bytes_wp; [apply R|lia|done|apply R|]. intros s3 p3 rest3 F Ha. cbn.
      apply fetched_built in F; [|by apply at_bytes_mapped]. apply wp_ret.
      destruct (dyn_filled _ _ _ _ _ _ _ _ _ _ _ _ _ _ _ _ _ _ _ _ R Et Hspan Hsafe F ltac:(done)) as [A3 Hd]. right.
      cbn [fst snd enc]. split; [rewrite length_app, length_le_split; lia|].
      exists (dyn_block a (Z.of_nat (length bs)) (Z.of_nat (length bs))), rest3. split; [|by eapply R_dyn_bytes].
      unfold dyn_block. destruct (Z.ltb_spec 0 (Z.of_nat (length bs))); [done|lia].
  - assert (bs = []) as -> by (apply nil_length_inv; lia).
    eapply (dyn_empty_wp _ _ _ _ _ _ _ _ _ _ (VCount 0 (VRaw []))); [exact Et|exact Hspan|exact Hsafe|exact A1| |done].
    intros q s' Hd. eapply (R_dyn_bytes _ _ t ti dst 0 q [] (bytes s')); [done..|apply at_bytes_nil].
Qed.

Lemma unmarshal_dyn_string_ok t ti bs :
  entry T t ti -> type_id ti = AOSL_TYPE_DYNAMIC_STRING -> Z.of_nat (length bs) + 1 < 2 ^ 16 ->
  unmarshal_ok t (VCount (length bs) (VRaw bs)).
Proof.
  intros [Et Eh] Hty Hl s p rest tail dst fuel Hso Hsafe Hc. cbn [enc cost] in *. rewrite <-(assoc_L (++)) in Hso.
  assert (span ti = Some 16) as Hspan by (unfold span; by rewrite Hty). enter fuel Et Eh Hty.
  rewrite decide_True by done. apply wp_bind. eapply decode_val_wp; [exact Hso|lia|lia|]. intros s1 p1 rest1 A1.
  cbn [fst snd]. rewrite (wrapu_id 16) by lia. destruct (Z.ltb_spec 0 (Z.of_nat (length bs) + 1)) as [Hpos|Hz]; [|lia].
  eapply dyn_alloc_wp; [done..|lia|lia|lia| |].
  { intros s2 Hso2 Hs2. eapply no_memory_wp; [done..|]. by left. }
  intros a s2 R. assert (forall s3 p3 rest3, built (inside a (Z.of_nat (length bs))) s2 p1 rest1 tail [] s3 p3 rest3 ->
    at_bytes (bytes s3) a bs ->
    wp (store (a + Z.of_nat (length bs)) [NUL] ;; cret (2 + Z.of_nat (length bs), p3)) s3
       (rebuilt t dst (VCount (length bs) (VRaw bs)) s p rest tail)) as Hend.
  { intros s3 p3 rest3 A3 Ha3. apply wp_bind. eapply store_built; [apply A3|done| |].
    - eapply built_safe; [exact A3|]. eapply safe_sub; [apply R|]. cbn. unfold inside; lia.
    - intros s4 A4 Ha4. apply wp_ret. cbn [length] in A4.
      pose proof (built_trans _ _ (inside a (Z.of_nat (length bs) + 1)) _ _ _ _ _ _ _ _ _ _ _ _ _ A3 A4
        ltac:(intros x Hx _; unfold inside in *; lia)) as A34.
      destruct (dyn_filled _ _ _ _ _ _ _ _ _ _ _ _ _ _ _ _ _ _ _ _ R Et Hspan Hsafe A34 ltac:(done)) as [A5 Hd]. right.
      cbn [fst snd enc]. split; [rewrite length_app, length_le_split; lia|].
      exists (dyn_block a (Z.of_nat (length bs) + 1) (Z.of_nat (length bs) + 1)), rest3. split.
      + unfold dyn_block. destruct (Z.ltb_spec 0 (Z.of_nat (length bs) + 1)); [done|lia].
      + eapply R_dyn_string; [done..|]. eapply built_at; [exact A4|done|]. unfold inside; lia. }
  destruct (Z.ltb_spec 0 (Z.of_nat (length bs))) as [Hb|Hb]; apply wp_bind.
  - eapply decode_bytes_wp; [apply R|lia|done|eapply safe_sub; [apply R|unfold inside; lia]|]. intros s3 p3 rest3 F Ha.
    apply fetched_built in F; [|by apply at_bytes_mapped]. by eapply Hend.
  - assert (bs = []) as -> by (apply nil_length_inv; lia). apply wp_ret. cbn [fst snd]. eapply Hend; [|apply at_bytes_nil].
    eapply built_weaken; [apply built_refl, R|done].
Qed.

Lemma unmarshal_dyn_array_ok t ti sz n v :
  entry T t ti -> type_id ti = AOSL_TYPE_DYNAMIC_ARRAY -> get_type_size T D (child ti) = Ret (Some sz) ->
  Z.of_nat n < 2 ^ 16 -> unmarshal_elems_ok (child ti) sz 0 n v -> (n = 0%nat -> v = VNil) -> unmarshal_ok t (VCount n v).
Proof.
  intros [Et Eh] Hty Hsz Hn IH Hnil s p rest tail dst fuel Hso Hsafe Hc. cbn [enc cost] in *. rewrite <-(assoc_L (++)) in Hso.
  assert (span ti = Some 16) as Hspan by (unfold span; by rewrite Hty). enter fuel Et Eh Hty.
  destruct (lay_child _ _ L t ti sz Et) as [Hsz0 Hin]; [rewrite Hty; set_solver|done|].
  apply wp_bind. eapply decode_val_wp; [exact Hso|done|lia|]. intros s1 p1 rest1 A1.
  cbn [fst snd]. destruct (Z.ltb_spec 0 (Z.of_nat n)) as [Hpos|Hz].
  2: { assert (n = 0%nat) as -> by lia. rewrite (Hnil eq_refl) in *.
       eapply (dyn_empty_wp _ _ _ _ _ _ _ _ _ _ (VCount 0 VNil)); [exact Et|exact Hspan|exact Hsafe|exact A1| |done].
       intros q s' Hd. eapply (R_dyn_array _ _ t ti dst 0 q sz 0 VNil [] (bytes s')); [done..|apply E_end]. }
  pose proof (safe_span _ _ _ _ _ _ _ Hsafe Et Hspan) as Hsp.
  pose proof (get_type_size_mono T D fuel _ _ Hsz ltac:(lia)) as Hsz'. unfold lift. rewrite Hsz'.
  change (fun s0 : mstate => Ret (Some sz, s0)) with (cret (S := mstate) (Some sz)).
  enough (wp (set_count (dst + obj_addr ti) (Z.of_nat n) ;; set_allocated (dst + obj_addr ti) (Z.of_nat n) ;;
    do a <- aosl_malloc (u64 (sz * Z.of_nat n));
    if a =? 0 then set_count (dst + obj_addr ti) 0 ;; set_allocated (dst + obj_addr ti) 0 ;; cret (- AOSL_ENOMEM, p)
    else set_values (dst + obj_addr ti) a ;; unmarshal_elems T stk fuel p (child ti) a sz 0 (Z.of_nat n) p1 2) s1
    (rebuilt t dst (VCount n v) s p rest tail)) as Hgoal by exact Hgoal.
  rewrite (wrapu_id 64) by nia. eapply dyn_alloc_wp; [done..|lia|lia|nia| |].
  { intros s2 Hso2 Hs2. eapply no_memory_wp; [done..|]. by left. }
  intros a s2 R. assert (forall x, own_elems T D (child ti) a sz 0 n x -> inside a (sz * Z.of_nat n) x) as Hel.
  { intros x (j & Hj & Hx). apply Hin in Hx. unfold inside in *. nia. }
  eapply wp_mono; [eapply (IH Hin); [lia|lia|lia|apply R|eapply safe_sub; [apply R|done]|lia|lia]|].
  intros r s3 [E|(E & B & rest3 & A3 & HR)]; [by left|]. right. cbn [enc]. rewrite length_app, length_le_split. split; [lia|].
  destruct (dyn_filled _ _ _ _ _ _ _ _ _ _ _ _ _ _ _ _ _ _ _ _ R Et Hspan Hsafe A3 Hel) as [A4 Hd].
  exists (dyn_block a (sz * Z.of_nat n) (Z.of_nat n) ++ B), rest3. split; [|by eapply R_dyn_array].
  unfold dyn_block. destruct (Z.ltb_spec 0 (Z.of_nat n)); [done|lia].
Qed.

(** A stream that starts with the encoding of a value of type [t] is rebuilt
    as an object with that value. *)
Lemma unmarshal_mut :
  (forall t base v B m, repr T D t base v B m -> unmarshal_ok t v) /\
  (forall t base v B m, repr_fields T D t base v B m -> unmarshal_fields_ok t v) /\
  (forall c base sz i n v B m, repr_elems T D c base sz i n v B m ->
     unmarshal_elems_ok c sz i n v /\ (n = 0%nat -> v = VNil)).
Proof.
  apply repr_mut.
  - intros; by eapply unmarshal_flat_ok.
  - intros; by eapply unmarshal_fixed_bytes_ok.
  - intros; by eapply unmarshal_var_bytes_ok.
  - intros; by eapply unmarshal_nil_ok.
  - intros; by eapply unmarshal_null_ok.
  - intros; by eapply unmarshal_ptr_ok.
  - intros; by eapply unmarshal_str_ok.
  - intros; by eapply unmarshal_ref_ok.
  - intros; by eapply unmarshal_struct_ok.
  - intros t ti base al q bs m He Hty (H1 & H2 & _) _. eapply unmarshal_dyn_bytes_ok; [done..|lia].
  - intros; by eapply unmarshal_dyn_string_ok.
  - intros t ti base sz n v B m H1 H2 H3 H4 H5 _ [IH _]. by eapply unmarshal_fixed_array_ok.
  - intros t ti base sz n v B m H1 H2 H3 H4 H5 H6 _ [IH _]. by eapply unmarshal_var_array_ok.
  - intros t ti base al q sz n v B m He Hty Hsz (H1 & H2 & _) _ [IH1 IH2]. eapply unmarshal_dyn_array_ok; [done..|lia|done|done].
  - intros t ti base m Et Hty _ s p rest tail dst fuel psb_p len Hso Hsafe Hc Hlen.
    destruct fuel as [|fuel]; [cbn in Hc; lia|]. cbn [unmarshal_fields]. apply wp_bind. eapply get_type_wp; [exact Et|].
    rewrite decide_True by done. apply wp_ret. right. split; [cbn; lia|]. exists [], rest. split; [|by eapply F_end].
    eapply built_weaken; [by apply built_refl|done].
  - intros; by eapply unmarshal_fields_cons_ok.
  - intros c base sz i m. split; [|done]. intros Hin Hsz Hi Hn s p rest tail dst fuel psb_p len Hso Hsafe Hc Hlen.
    destruct fuel as [|fuel]; [cbn in Hc; lia|]. cbn [unmarshal_elems]. destruct (Z.ltb_spec i (i + Z.of_nat 0)); [lia|].
    apply wp_ret. right. split; [cbn; lia|]. exists [], rest. split; [|apply E_end].
    eapply built_weaken; [by apply built_refl|done].
  - intros c base sz i n v w B1 B2 m _ IH1 _ [IH2 _]. split; [by apply unmarshal_elems_cons_ok|done].
Qed.

End Build.
