(* ===== verification/MarshalFini.v ===== *)
(** * Releasing an object

    [smart_fini_typed_obj] on an object that owns its blocks gives back exactly
    these blocks. *)
From S2P Require Import Prelude Bytes Psb PsbProps Marshal MarshalVal MarshalEnc MarshalDec MarshalBuild.
#[local] Open Scope aosl_scope.

(** From [s] to [s'] the blocks [B] were freed; of the memory outside them only
    [P] changed. *)
Record released (P : Z -> Prop) (B : list (Z * Z)) (s s' : mstate) : Prop := {
  re_in : forall q, q ∈ B.*1 -> blocks s' !! q = None;
  re_out : forall q, q ∉ B.*1 -> blocks s' !! q = blocks s !! q;
  re_bytes : forall x, ~ P x -> ~ in_blocks B x -> bytes s' !! x = bytes s !! x;
  re_map : forall x, is_Some (bytes s !! x) -> ~ in_blocks B x -> is_Some (bytes s' !! x)
}.
Arguments re_in {P B s s'}.
Arguments re_out {P B s s'}.
Arguments re_bytes {P B s s'}.
Arguments re_map {P B s s'}.

Lemma released_refl P s : released P [] s s.
Proof. split; [intros q Hq; by apply not_elem_of_nil in Hq|done..]. Qed.

Lemma released_trans (P Q R : Z -> Prop) B1 B2 s s1 s2 :
  released P B1 s s1 -> released Q B2 s1 s2 ->
  (forall x, ~ R x -> ~ in_blocks B1 x -> ~ in_blocks B2 x -> ~ P x /\ ~ Q x) -> released R (B1 ++ B2) s s2.
Proof.
  intros A C H. split.
  - intros q. rewrite fmap_app. intros Hq. destruct (decide (q ∈ B2.*1)) as [Hin|Hout]; [by apply (re_in C)|].
    rewrite (re_out C q Hout). apply (re_in A). set_solver.
  - intros q. rewrite fmap_app. intros Hq. rewrite (re_out C), (re_out A) by set_solver. done.
  - intros x Hx. rewrite in_blocks_app. intros Hb. destruct (H x Hx) as [HP HQ]; [tauto..|].
    rewrite (re_bytes C), (re_bytes A) by tauto. done.
  - intros x Hx. rewrite in_blocks_app. intros Hb. apply (re_map C); [apply (re_map A)|]; tauto.
Qed.

Lemma released_weaken (P R : Z -> Prop) B s s' :
  released P B s s' -> (forall x, P x -> ~ in_blocks B x -> R x) -> released R B s s'.
Proof. intros [H1 H2 H3 H4] H. split; try done. intros x Hx Hb. apply H3; [|done]. intros HP. by apply Hx, H. Qed.

(** The object's bytes are there, its blocks are live, distinct and disjoint. *)
Record owned (P : Z -> Prop) (B : list (Z * Z)) (s : mstate) : Prop := {
  ow_map : mapped (bytes s) P;
  ow_blocks : forall q n, (q, n) ∈ B -> 0 < q < 2 ^ 64 /\ blocks s !! q = Some n;
  ow_nodup : NoDup B.*1;
  ow_apart : apart B;
  ow_clear : forall x, P x -> in_blocks B x -> False;
  ow_blockmap : mapped (bytes s) (in_blocks B)
}.
Arguments ow_map {P B s}.
Arguments ow_blocks {P B s}.
Arguments ow_nodup {P B s}.
Arguments ow_apart {P B s}.
Arguments ow_clear {P B s}.
Arguments ow_blockmap {P B s}.

Lemma apart_inv A B : apart (A ++ B) -> apart A /\ apart B /\ forall x, in_blocks A x -> in_blocks B x -> False.
Proof.
  induction A as [|[q n] A IH]; cbn.
  - intros HB. split; [done|]. split; [done|]. intros x Hx. by apply no_blocks in Hx.
  - intros [H1 H2]. destruct (IH H2) as (HA & HB & Hd). split; [split; [|done]|split; [done|]].
    + intros x Hx Hy. eapply H1; [done|]. apply in_blocks_app. by left.
    + intros x [Hx|Hx]%in_blocks_cons Hy; [|by eapply Hd]. eapply H1; [done|]. apply in_blocks_app. by right.
Qed.

Lemma owned_sub (P Q : Z -> Prop) A B s : owned P (A ++ B) s -> (forall x, Q x -> P x) -> owned Q A s.
Proof.
  intros [O1 O2 O3 O4 O5 O6] H. apply apart_inv in O4 as (HA & _ & _). rewrite fmap_app in O3. apply NoDup_app in O3 as (N & _ & _).
  split; try done.
  - intros x Hx. by apply O1, H.
  - intros q n Hq. apply O2. set_solver.
  - intros x Hx Hb. eapply O5; [by apply H|]. apply in_blocks_app. by left.
  - intros x Hx. apply O6, in_blocks_app. by left.
Qed.

(** After the first part of an object is released, the rest is still there. *)
Lemma owned_rest (P P1 Q : Z -> Prop) A B s s' :
  owned P (A ++ B) s -> released P1 A s s' -> (forall x, P1 x -> P x) -> (forall x, Q x -> P x) ->
  (forall x, P1 x -> Q x -> False) ->
  owned Q B s' /\ (forall x, Q x \/ in_blocks B x -> bytes s' !! x = bytes s !! x).
Proof.
  intros [O1 O2 O3 O4 O5 O6] HR H1 HQ Hd. apply apart_inv in O4 as (_ & HB & Hab). rewrite fmap_app in O3.
  apply NoDup_app in O3 as (_ & Nd & N).
  assert (forall x, Q x \/ in_blocks B x -> bytes s' !! x = bytes s !! x) as Hsame.
  { intros x Hx. apply (re_bytes HR).
    - intros Hp. destruct Hx as [Hx|Hx]; [by eapply Hd|]. eapply O5; [by apply H1|]. apply in_blocks_app. by right.
    - intros Hb. destruct Hx as [Hx|Hx]; [|by eapply Hab]. eapply O5; [by apply HQ|]. apply in_blocks_app. by left. }
  split; [|done]. split; try done.
  - intros x Hx. rewrite Hsame by (by left). by apply O1, HQ.
  - intros q n Hq. destruct (O2 q n) as [Hr Hb]; [set_solver|]. split; [done|]. rewrite (re_out HR); [done|].
    intros Hin. apply (Nd q Hin). apply list_elem_of_fmap. by exists (q, n).
  - intros x Hx Hb. eapply O5; [by apply HQ|]. apply in_blocks_app. by right.
  - intros x Hx. rewrite Hsame by (by right). apply O6, in_blocks_app. by right.
Qed.

Section Fini.
Context `{AL : Allocator}.

Lemma free_wp s q n Q :
  0 < q -> 0 <= n -> blocks s !! q = Some n -> (forall s', released none [(q, n)] s s' -> Q tt s') -> wp (aosl_free q) s Q.
Proof.
  intros Hq Hn E HQ. unfold wp, aosl_free. destruct (Z.eqb_spec q 0) as [?|_]; [lia|]. rewrite E. apply HQ. split; cbn.
  - intros r ->%list_elem_of_singleton. by rewrite lookup_delete_eq.
  - intros r Hr. rewrite lookup_delete_ne; [done|set_solver].
  - intros x _ Hx. rewrite free_bytes_lookup, decide_False; [done|]. rewrite Z2Nat.id by done. intros Hi. apply Hx.
    apply in_blocks_cons. by left.
  - intros x Hs Hx. rewrite free_bytes_lookup, decide_False; [done|]. rewrite Z2Nat.id by done. intros Hi. apply Hx.
    apply in_blocks_cons. by left.
Qed.

Lemma store_released s a l n Q :
  n = Z.of_nat (length l) -> mapped (bytes s) (inside a n) ->
  (forall s', released (inside a n) [] s s' -> Q tt s') -> wp (store a l) s Q.
Proof.
  intros -> Hm HQ. apply store_bytes_wp; [done|]. intros m' Ha Ho. apply HQ. split; cbn; try done.
  - intros q Hq. by apply not_elem_of_nil in Hq.
  - intros x Hx _. by rewrite Ho.
  - intros x Hx _. destruct (decide (inside a (Z.of_nat (length l)) x)) as [Hi|Hi]; [by apply (at_bytes_mapped _ _ _ Ha)|].
    by rewrite Ho.
Qed.

Lemma load16_eq s a v : at_bytes (bytes s) a (le_split 2 v) -> 0 <= v < 2 ^ 16 -> load16 a s = Ret (v, s).
Proof.
  intros Ha Hv. destruct (wp_elim _ _ _ (load16_wp s a v (fun r s' => r = v /\ s' = s) Ha Hv (conj eq_refl eq_refl))) as (r & s' & E & -> & ->).
  done.
Qed.

Context (T : gmap Z aosl_type_info_t) (D : nat).
Hypothesis L : Layout T D.

Definition fini_ok (t base : Z) (v : val) (B : list (Z * Z)) (m : bytemap) : Prop :=
  forall s fuel, same_on (reach T D t base B) m (bytes s) -> owned (own T D t base) B s -> (cost v + D <= fuel)%nat ->
    wp (smart_fini_typed_obj T fuel t base) s (fun _ s' => released (own T D t base) B s s').

Definition fini_fields_ok (t base : Z) (v : val) (B : list (Z * Z)) (m : bytemap) : Prop :=
  members T t -> forall s fuel, same_on (fun x => own_fields T D t base x \/ in_blocks B x) m (bytes s) ->
    owned (own_fields T D t base) B s -> (cost v + D <= fuel)%nat ->
    wp (fini_fields T fuel t base) s (fun _ s' => released (own_fields T D t base) B s s').

(** [count] reads the bound of the loop as long as memory outside the elements
    is as it was. *)
Definition fini_elems_ok (c base sz i : Z) (n : nat) (v : val) (B : list (Z * Z)) (m : bytemap) : Prop :=
  (forall b x, own T D c b x -> inside b sz x) -> 0 <= sz ->
  forall s fuel (count : CM mstate Z), same_on (fun x => own_elems T D c base sz i n x \/ in_blocks B x) m (bytes s) ->
    owned (own_elems T D c base sz i n) B s -> (cost v + D <= fuel)%nat ->
    (forall s', (forall x, ~ own_elems T D c base sz i n x -> ~ in_blocks B x -> bytes s' !! x = bytes s !! x) ->
       count s' = Ret (i + Z.of_nat n, s')) ->
    wp (fini_elems T fuel c base sz i count) s (fun _ s' => released (own_elems T D c base sz i n) B s s').

Ltac enter fuel Et Hty :=
  destruct fuel as [|fuel]; [cbn in *; lia|]; cbn [smart_fini_typed_obj]; apply wp_bind; eapply get_type_wp; [exact Et|];
  rewrite ?Hty; cbn iota.

(** Types that own nothing. *)
Lemma fini_plain_ok t ti base v m :
  T !! t = Some ti ->
  match type_id ti with
  | AOSL_TYPE_POINTER | AOSL_TYPE_REFERENCE | AOSL_TYPE_STRING | AOSL_TYPE_STRUCT | AOSL_TYPE_DYNAMIC_BYTES
  | AOSL_TYPE_DYNAMIC_STRING | AOSL_TYPE_FIXED_ARRAY | AOSL_TYPE_VAR_ARRAY | AOSL_TYPE_DYNAMIC_ARRAY => False
  | _ => True
  end -> (1 <= cost v)%nat -> fini_ok t base v [] m.
Proof.
  intros Et Hty Hv s fuel Hs Ho Hc. enter fuel Et I.
  destruct (type_id ti); try done; apply wp_ret; apply released_refl.
Qed.

Lemma fini_null_ok t ti base m :
  T !! t = Some ti -> type_id ti = AOSL_TYPE_POINTER \/ type_id ti = AOSL_TYPE_STRING ->
  at_bytes m (base + obj_addr ti) (le_split 8 0) -> fini_ok t base VNull [] m.
Proof.
  intros Et Hty Ha s fuel Hs Ho Hc. eapply at_bytes_reach in Ha; [|done..|unfold span; by destruct Hty as [-> | ->]|by rewrite length_le_split].
  destruct Hty as [Hty|Hty]; enter fuel Et Hty; apply wp_bind; (eapply load_ptr_wp; [exact Ha|done|]); apply wp_ret, released_refl.
Qed.

(** The pointer is read, what it leads to is released, the block is freed and
    the pointer cleared. *)
Lemma fini_block_wp t ti base q k B s (act : Z -> CM mstate unit) (P : Z -> Prop) :
  T !! t = Some ti -> span ti = Some 8 -> at_bytes (bytes s) (base + obj_addr ti) (le_split 8 q) ->
  owned (own T D t base) ((q, k) :: B) s -> 0 <= k -> (forall x, P x -> inside q k x) ->
  (forall x, inside q k x -> in_blocks B x -> False) ->
  (owned P B s -> wp (act q) s (fun _ s' => released P B s s')) -> mapped (bytes s) P ->
  wp (do p <- load_ptr (base + obj_addr ti); if p =? 0 then cret tt else act p ;; aosl_free p ;; store_ptr (base + obj_addr ti) 0)
    s (fun _ s' => released (own T D t base) ((q, k) :: B) s s').
Proof.
  intros Et Hspan Ha Ho Hk HP Hqb Hact HPm. destruct (ow_blocks Ho q k) as [Hq Hb]; [set_solver|].
  assert (forall x, inside (base + obj_addr ti) 8 x -> own T D t base x) as Hown by (intros; by eapply own_span).
  apply wp_bind. eapply load_ptr_wp; [exact Ha|lia|]. destruct (Z.eqb_spec q 0) as [?|_]; [lia|].
  pose proof (ow_nodup Ho) as Hnd. cbn in Hnd. apply NoDup_cons in Hnd as [Hnq Hnd].
  wstep Hact.
  { split; [done| |done|by destruct (ow_apart Ho)| |].
    - intros q' n' Hq'. apply (ow_blocks Ho). set_solver.
    - intros x Hx. by apply Hqb, HP.
    - intros x Hx. apply (ow_blockmap Ho). apply in_blocks_cons. by right. }
  intros [] s1 R1. apply wp_bind. eapply (free_wp s1 q k); [lia|done|by rewrite (re_out R1)|].
  intros s2 R2. unfold store_ptr. eapply store_released; [by rewrite length_le_split| |].
  - intros x Hx. apply Hown in Hx. apply (re_map R2).
    + apply (re_map R1); [by apply (ow_map Ho)|]. intros Hbx. eapply (ow_clear Ho); [done|]. apply in_blocks_cons. by right.
    + intros Hbx. eapply (ow_clear Ho); [done|]. apply in_blocks_cons. left. apply in_blocks_cons in Hbx as [?|Hbx]; [done|]. by apply no_blocks in Hbx.
  - intros s3 R3. pose proof (released_trans _ _ (inside q k) _ _ _ _ _ R1 R2 ltac:(intros x Hx _ _; split; [by intros ?%HP|by intros []])) as R12.
    pose proof (released_trans _ _ (own T D t base) _ _ _ _ _ R12 R3) as R.
    assert (released (own T D t base) ((B ++ [(q, k)]) ++ []) s s3) as R'.
    { apply R. intros x Hx Hb1 _. split; [|by intros ?%Hown]. intros Hi. apply Hb1. apply in_blocks_app. right. apply in_blocks_cons. by left. }
    rewrite app_nil_r in R'. destruct R' as [E1 E2 E3 E4]. rewrite fmap_app in E1, E2. cbn in E1, E2.
    assert (forall x, in_blocks (B ++ [(q, k)]) x <-> in_blocks ((q, k) :: B) x) as Hperm.
    { intros x. rewrite in_blocks_app, !in_blocks_cons. split; [|tauto]. intros [?|[?|Hn]]; [tauto..|]. by apply no_blocks in Hn. }
    split; cbn.
    + intros r Hr. apply E1. set_solver.
    + intros r Hr. apply E2. set_solver.
    + intros x Hx Hb1. apply E3; [done|by rewrite Hperm].
    + intros x Hx Hb1. apply E4; [done|by rewrite Hperm].
Qed.

Lemma fini_ptr_ok t ti base q sz v B m :
  T !! t = Some ti -> type_id ti = AOSL_TYPE_POINTER -> at_bytes m (base + obj_addr ti) (le_split 8 q) ->
  get_type_size T D (child ti) = Ret (Some sz) -> fini_ok (child ti) q v B m -> fini_ok t base (VBox v) ((q, sz) :: B) m.
Proof.
  intros Et Hty Ha Hsz IH s fuel Hs Ho Hc. assert (span ti = Some 8) as Hspan by (unfold span; by rewrite Hty).
  eapply at_bytes_reach in Ha; [|done..|by rewrite length_le_split].
  destruct (lay_child _ _ L t ti sz Et) as [Hsz0 Hin]; [rewrite Hty; set_solver|done|]. enter fuel Et Hty. cbn [cost] in *.
  eapply (fini_block_wp t ti base q sz B s (smart_fini_typed_obj T fuel (child ti)) (own T D (child ti) q)); [done..|lia|apply Hin|by destruct (ow_apart Ho)| |].
  - intros Ho'. apply IH; [|done|lia]. intros x b Hx. apply Hs. right. apply in_blocks_cons.
    destruct Hx as [Hx|Hx]; [left; by apply Hin|by right].
  - intros x Hx. apply (ow_blockmap Ho). apply in_blocks_cons. left. by apply Hin.
Qed.

Lemma fini_str_ok t ti base q bs m :
  T !! t = Some ti -> type_id ti = AOSL_TYPE_STRING -> at_bytes m (base + obj_addr ti) (le_split 8 q) ->
  fini_ok t base (VBox (VText bs)) [(q, Z.of_nat (length bs) + 1)] m.
Proof.
  intros Et Hty Ha s fuel Hs Ho Hc. assert (span ti = Some 8) as Hspan by (unfold span; by rewrite Hty).
  eapply at_bytes_reach in Ha; [|done..|by rewrite length_le_split]. enter fuel Et Hty.
  eapply (fini_block_wp t ti base q _ [] s (fun _ => cret tt) none); [done..|lia|by intros x []| | |by intros x []].
  - intros x _ Hx. by apply no_blocks in Hx.
  - intros _. apply wp_ret, released_refl.
Qed.

Lemma fini_ref_ok t ti base v B m :
  T !! t = Some ti -> type_id ti = AOSL_TYPE_REFERENCE -> fini_ok (child ti) (base + obj_addr ti) v B m ->
  fini_ok t base (VGroup v) B m.
Proof.
  intros Et Hty IH s fuel Hs Ho Hc. enter fuel Et Hty. cbn [cost] in *.
  assert (forall x, own T D (child ti) (base + obj_addr ti) x -> own T D t base x) as Hown by (intros; by eapply own_ref).
  eapply wp_mono; [apply IH; [|eapply (owned_sub _ _ B []); [rewrite app_nil_r; exact Ho|done]|lia]|].
  - intros x b [Hx|Hx]; apply Hs; [left; by apply Hown|by right].
  - intros [] s' R. eapply released_weaken; [done|]. intros x Hx _. by apply Hown.
Qed.

Lemma fini_struct_ok t ti base v B m :
  T !! t = Some ti -> type_id ti = AOSL_TYPE_STRUCT -> fini_fields_ok (child ti) (base + obj_addr ti) v B m ->
  fini_ok t base (VGroup v) B m.
Proof.
  intros Et Hty IH s fuel Hs Ho Hc. enter fuel Et Hty. cbn [cost] in *.
  assert (forall x, own_fields T D (child ti) (base + obj_addr ti) x -> own T D t base x) as Hown.
  { intros x (f & Hf & Hx). by eapply own_field. }
  eapply wp_mono; [apply IH; [by exists t, ti| |eapply (owned_sub _ _ B []); [rewrite app_nil_r; exact Ho|done]|lia]|].
  - intros x b [Hx|Hx]; apply Hs; [left; by apply Hown|by right].
  - intros [] s' R. eapply released_weaken; [done|]. intros x Hx _. by apply Hown.
Qed.

Lemma fini_fields_cons_ok t ti base v w B1 B2 m :
  T !! t = Some ti -> type_id ti <> AOSL_TYPE_VOID -> fini_ok t base v B1 m ->
  fini_fields_ok (t + sizeof_type_info) base w B2 m -> fini_fields_ok t base (VCons v w) (B1 ++ B2) m.
Proof.
  intros Et Hty IH1 IH2 (st & si & Es & Hst & Hmem) s fuel Hs Ho Hc. cbn [cost] in *. destruct fuel as [|fuel]; [lia|].
  assert (forall x, own T D t base x -> own_fields T D t base x) as Hown1.
  { intros x Hx. exists t. split; [by eapply field_here|done]. }
  assert (forall x, own_fields T D (t + sizeof_type_info) base x -> own_fields T D t base x) as Hown2.
  { intros x (f & Hf & Hx). exists f. split; [by eapply field_next|done]. }
  assert (forall x, own T D t base x -> own_fields T D (t + sizeof_type_info) base x -> False) as Hdis.
  { intros x Hx (g & Hg & Hx'). eapply (lay_fields _ _ L st si t g); [done|done|apply Hmem; by eapply field_here|apply Hmem; by eapply field_next| |done..].
    apply field_ge in Hg. unfold sizeof_type_info in *. lia. }
  cbn [fini_fields]. apply wp_bind. eapply get_type_wp; [exact Et|]. rewrite decide_False by done.
  apply wp_bind. eapply wp_mono; [apply IH1; [|eapply owned_sub; [exact Ho|done]|lia]|].
  { intros x b [Hx|Hx]; apply Hs; [left; by apply Hown1|right; apply in_blocks_app; by left]. }
  intros [] s1 R1. destruct (owned_rest _ _ (own_fields T D (t + sizeof_type_info) base) _ _ _ _ Ho R1 Hown1 Hown2 Hdis) as [Ho2 Hsame].
  eapply wp_mono; [apply IH2; [|  |exact Ho2|lia]|].
  - exists st, si. split; [done|]. split; [done|]. intros g Hg. apply Hmem. by eapply field_next.
  - intros x b Hx Hb. rewrite Hsame by done. apply Hs; [|done]. destruct Hx as [Hx|Hx]; [left; by apply Hown2|right; apply in_blocks_app; by right].
  - intros [] s2 R2. eapply released_trans; [exact R1|exact R2|]. intros x Hx _ _. split; intros Hi; apply Hx; eauto.
Qed.

Lemma fini_elems_cons_ok c base sz i n v w B1 B2 m :
  fini_ok c (base + sz * i) v B1 m -> fini_elems_ok c base sz (i + 1) n w B2 m ->
  fini_elems_ok c base sz i (S n) (VCons v w) (B1 ++ B2) m.
Proof.
  intros IH1 IH2 Hin Hsz s fuel count Hs Ho Hc Hcnt. cbn [cost] in *. destruct fuel as [|fuel]; [lia|].
  assert (forall x, own T D c (base + sz * i) x -> own_elems T D c base sz i (S n) x) as Hown1.
  { intros x Hx. exists i. split; [lia|done]. }
  assert (forall x, own_elems T D c base sz (i + 1) n x -> own_elems T D c base sz i (S n) x) as Hown2.
  { intros x (j & Hj & Hx). exists j. split; [lia|done]. }
  assert (forall x, own T D c (base + sz * i) x -> own_elems T D c base sz (i + 1) n x -> False) as Hdis.
  { intros x Hx (j & Hj & Hx'). apply Hin in Hx, Hx'. unfold inside in *. nia. }
  cbn [fini_elems]. apply wp_bind. eapply wp_eq; [by apply Hcnt|].
  destruct (Z.ltb_spec i (i + Z.of_nat (S n))) as [_|?]; [|lia].
  apply wp_bind. eapply wp_mono; [apply IH1; [|eapply owned_sub; [exact Ho|done]|lia]|].
  { intros x b [Hx|Hx]; apply Hs; [left; by apply Hown1|right; apply in_blocks_app; by left]. }
  intros [] s1 R1. destruct (owned_rest _ _ (own_elems T D c base sz (i + 1) n) _ _ _ _ Ho R1 Hown1 Hown2 Hdis) as [Ho2 Hsame].
  eapply wp_mono; [apply IH2; [done|done| |exact Ho2|lia|]|].
  - intros x b Hx Hb. rewrite Hsame by done. apply Hs; [|done]. destruct Hx as [Hx|Hx]; [left; by apply Hown2|right; apply in_blocks_app; by right].
  - intros s' Hs'. replace (i + 1 + Z.of_nat n) with (i + Z.of_nat (S n)) by lia. apply Hcnt. intros x Hx Hb.
    rewrite in_blocks_app in Hb. rewrite Hs'; [|by intros ?%Hown2|tauto]. apply (re_bytes R1); [by intros ?%Hown1|tauto].
  - intros [] s2 R2. eapply released_trans; [exact R1|exact R2|]. intros x Hx _ _. split; intros Hi; apply Hx; eauto.
Qed.

Lemma fini_fixed_array_ok t ti base sz n v B m :
  T !! t = Some ti -> type_id ti = AOSL_TYPE_FIXED_ARRAY -> get_type_size T D (child ti) = Ret (Some sz) ->
  Z.of_nat n = array_size ti -> fini_elems_ok (child ti) (base + obj_addr ti) sz 0 n v B m -> fini_ok t base (VGroup v) B m.
Proof.
  intros Et Hty Hsz Hn IH s fuel Hs Ho Hc. enter fuel Et Hty. cbn [cost] in *.
  destruct (lay_child _ _ L t ti sz Et) as [Hsz0 Hin]; [rewrite Hty; set_solver|done|].
  apply wp_bind. eapply size_wp; [done|lia|].
  assert (forall x, own_elems T D (child ti) (base + obj_addr ti) sz 0 n x -> own T D t base x) as Hown.
  { intros x (j & Hj & Hx). eapply (own_elem _ _ t ti sz j); [done|by left|done|lia|done]. }
  eapply wp_mono; [apply (IH Hin); [lia| |eapply (owned_sub _ _ B []); [rewrite app_nil_r; exact Ho|done]|lia|]|].
  - intros x b [Hx|Hx]; apply Hs; [left; by apply Hown|by right].
  - intros s' _. by rewrite <-Hn.
  - intros [] s' R. eapply released_weaken; [done|]. intros x Hx _. by apply Hown.
Qed.

Lemma fini_var_array_ok t ti base sz n v B m :
  T !! t = Some ti -> type_id ti = AOSL_TYPE_VAR_ARRAY -> get_type_size T D (child ti) = Ret (Some sz) ->
  Z.of_nat n <= array_size ti -> Z.of_nat n < 2 ^ 16 ->
  at_bytes m (base + count_var_addr ti) (le_split 2 (Z.of_nat n)) ->
  fini_elems_ok (child ti) (base + obj_addr ti) sz 0 n v B m -> fini_ok t base (VCount n v) B m.
Proof.
  intros Et Hty Hsz Hn Hn2 Hcnt IH s fuel Hs Ho Hc. enter fuel Et Hty. cbn [cost] in *.
  destruct (lay_child _ _ L t ti sz Et) as [Hsz0 Hin]; [rewrite Hty; set_solver|done|].
  assert (forall x, own_elems T D (child ti) (base + obj_addr ti) sz 0 n x -> own T D t base x) as Hown.
  { intros x (j & Hj & Hx). eapply (own_elem _ _ t ti sz j); [done|by right|done|lia|done]. }
  assert (forall x, inside (base + count_var_addr ti) 2 x -> own T D t base x) as Hc2 by (intros; eapply own_count; eauto).
  assert (forall x, inside (base + count_var_addr ti) 2 x -> ~ own_elems T D (child ti) (base + obj_addr ti) sz 0 n x) as Hdis.
  { intros x Hx (j & Hj & Hx'). eapply (lay_array _ _ L t ti sz j base x); [done..|lia|done|done]. }
  assert (at_bytes (bytes s) (base + count_var_addr ti) (le_split 2 (Z.of_nat n))) as Hcs.
  { eapply at_bytes_same; [exact Hcnt|exact Hs|]. rewrite length_le_split. intros x Hx. left. by apply Hc2. }
  apply wp_bind. eapply size_wp; [done|lia|]. apply wp_bind.
  eapply wp_mono; [apply (IH Hin); [lia| |eapply (owned_sub _ _ B []); [rewrite app_nil_r; exact Ho|done]|lia|]|].
  - intros x b [Hx|Hx]; apply Hs; [left; by apply Hown|by right].
  - intros s' Hs'. assert (at_bytes (bytes s') (base + count_var_addr ti) (le_split 2 (Z.of_nat n))) as Hc3.
    { intros j b Hj. pose proof (lookup_lt_Some _ _ _ Hj) as Hlt. rewrite length_le_split in Hlt. rewrite Hs'; [by apply Hcs| |].
      - apply Hdis. unfold inside; lia.
      - intros Hb. eapply (ow_clear Ho); [apply Hc2|exact Hb]. unfold inside; lia. }
    apply load16_eq; [done|lia].
  - intros [] s1 R1. unfold store16. eapply store_released; [by rewrite length_le_split| |].
    + intros x Hx. apply (re_map R1); [by apply (ow_map Ho), Hc2|]. intros Hb. eapply (ow_clear Ho); [by apply Hc2|done].
    + intros s2 R2. rewrite <-(app_nil_r B). eapply released_trans; [exact R1|exact R2|].
      intros x Hx _ _. split; intros Hi; apply Hx; eauto.
Qed.

(** The header of a dynamic array is cleared. *)
Lemma clear_dynamic_wp a s Q :
  mapped (bytes s) (inside a 16) -> (forall s', released (inside a 16) [] s s' -> Q tt s') -> wp (clear_dynamic a) s Q.
Proof.
  intros Hm HQ. unfold clear_dynamic, set_count, set_allocated, set_values, store16, store_ptr, sizeof_pointer.
  assert (forall (s1 s2 : mstate) P, released P [] s1 s2 -> mapped (bytes s1) (inside a 16) -> mapped (bytes s2) (inside a 16)) as Hkeep.
  { intros s1 s2 P R Hm1 x Hx. apply (re_map R); [by apply Hm1|]. apply no_blocks. }
  apply wp_bind. eapply (store_released _ _ _ 2); [done|intros x Hx; apply Hm; unfold inside in *; lia|].
  intros s1 R1. pose proof (Hkeep _ _ _ R1 Hm) as Hm1.
  apply wp_bind. eapply (store_released _ _ _ 2); [done|intros x Hx; apply Hm1; unfold inside in *; lia|].
  intros s2 R2. pose proof (Hkeep _ _ _ R2 Hm1) as Hm2.
  eapply (store_released _ _ _ 8); [done|intros x Hx; apply Hm2; unfold inside in *; lia|].
  intros s3 R3. apply HQ. eapply (released_trans _ _ _ ([] ++ []) [] s s2 s3); [|exact R3|].
  - eapply (released_trans _ _ (inside a 4)); [exact R1|exact R2|]. intros x Hx _ _. unfold inside in *; lia.
  - intros x Hx _ _. unfold inside in *; lia.
Qed.

(** The elements, then the block, then the header of a dynamic array. *)
Lemma fini_dyn_wp t ti base al q k n B s (act : Z -> CM mstate unit) (P : Z -> Prop) :
  T !! t = Some ti -> span ti = Some 16 -> dyn_at (bytes s) (base + obj_addr ti) n al q -> 0 <= k ->
  owned (own T D t base) (dyn_block q k al ++ B) s -> (al = 0 -> B = []) ->
  (forall x, P x -> inside q k x) -> (0 < al -> mapped (bytes s) P) ->
  (0 < al -> owned P B s -> wp (act q) s (fun _ s' => released P B s s')) ->
  wp (do allocated <- load16 (base + obj_addr ti + 2);
      (if 0 <? allocated then do p <- load_ptr (base + obj_addr ti + 8); act p ;; aosl_free p else cret tt) ;;
      clear_dynamic (base + obj_addr ti)) s (fun _ s' => released (own T D t base) (dyn_block q k al ++ B) s s').
Proof.
  intros Et Hspan (D1 & D2 & D3 & D4 & D5 & D6) Hk Ho HB HP HPm Hact.
  assert (forall x, inside (base + obj_addr ti) 16 x -> own T D t base x) as Hown by (intros; by eapply own_span).
  apply wp_bind. eapply load16_wp; [exact D5|lia|]. unfold dyn_block in *. destruct (Z.ltb_spec 0 al) as [Hal|Hal].
  2: { rewrite HB by lia. apply wp_bind, wp_ret, clear_dynamic_wp; [intros x Hx; by apply (ow_map Ho), Hown|].
       intros s' R. eapply released_weaken; [done|]. intros x Hx _. by apply Hown. }
  cbn [app] in *. destruct (ow_blocks Ho q k) as [Hq Hb]; [set_solver|].
  pose proof (ow_nodup Ho) as Hnd. cbn in Hnd. apply NoDup_cons in Hnd as [Hnq Hnd]. destruct (ow_apart Ho) as [Hap1 Hap2].
  apply wp_bind, wp_bind. eapply load_ptr_wp; [exact D6|lia|]. wstep Hact; [done| |].
  { split; [by apply HPm| |done|done| |].
    - intros q' n' Hq'. apply (ow_blocks Ho). set_solver.
    - intros x Hx. by apply Hap1, HP.
    - intros x Hx. apply (ow_blockmap Ho). apply in_blocks_cons. by right. }
  intros _ s1 R1. eapply (free_wp s1 q k); [lia|done|by rewrite (re_out R1)|]. intros s2 R2.
  assert (released (inside q k) (B ++ [(q, k)]) s s2) as R12.
  { eapply released_trans; [exact R1|exact R2|]. intros x Hx _ _. split; [by intros ?%HP|by intros []]. }
  assert (forall x, in_blocks (B ++ [(q, k)]) x <-> in_blocks ((q, k) :: B) x) as Hperm.
  { intros x. rewrite in_blocks_app, !in_blocks_cons. split; [|tauto]. intros [?|[?|Hn]]; [tauto..|]. by apply no_blocks in Hn. }
  apply clear_dynamic_wp.
  { intros x Hx. apply Hown in Hx. apply (re_map R12); [by apply (ow_map Ho)|]. rewrite Hperm. intros Hbx. by eapply (ow_clear Ho). }
  intros s3 R3. destruct R12 as [E1 E2 E3 E4]. rewrite fmap_app in E1, E2. cbn in E1, E2. split; cbn.
  - intros r Hr. rewrite (re_out R3) by (apply not_elem_of_nil). apply E1. set_solver.
  - intros r Hr. rewrite (re_out R3) by (apply not_elem_of_nil). apply E2. set_solver.
  - intros x Hx Hbx. rewrite (re_bytes R3); [|by intros ?%Hown|apply no_blocks]. apply E3; [|by rewrite Hperm].
    intros Hi. apply Hbx. apply in_blocks_cons. by left.
  - intros x Hx Hbx. apply (re_map R3); [|apply no_blocks]. apply E4; [done|by rewrite Hperm].
Qed.

Lemma fini_dyn_bytes_ok t ti base al q bs m :
  T !! t = Some ti -> type_id ti = AOSL_TYPE_DYNAMIC_BYTES \/ type_id ti = AOSL_TYPE_DYNAMIC_STRING ->
  dyn_at m (base + obj_addr ti) (Z.of_nat (length bs)) al q ->
  fini_ok t base (VCount (length bs) (VRaw bs)) (dyn_block q al al) m.
Proof.
  intros Et Hty Hd s fuel Hs Ho Hc. assert (span ti = Some 16) as Hspan by (unfold span; by destruct Hty as [-> | ->]).
  eapply dyn_at_reach in Hd; [|done..]. rewrite <-(app_nil_r (dyn_block q al al)) in *.
  assert (wp (do allocated <- load16 (base + obj_addr ti + 2);
      (if 0 <? allocated then do p <- load_ptr (base + obj_addr ti + 8); cret tt ;; aosl_free p else cret tt) ;;
      clear_dynamic (base + obj_addr ti)) s (fun _ s' => released (own T D t base) (dyn_block q al al ++ []) s s')) as Hgoal.
  { eapply (fini_dyn_wp t ti base al q al _ [] s (fun _ => cret tt) none); [done|done|exact Hd| |done|done|by intros x []|by intros _ x []|].
    - destruct Hd as (? & _). lia.
    - intros _ _. apply wp_ret, released_refl. }
  destruct Hty as [Hty|Hty]; enter fuel Et Hty; exact Hgoal.
Qed.

Lemma fini_dyn_array_ok t ti base al q sz n v B m :
  T !! t = Some ti -> type_id ti = AOSL_TYPE_DYNAMIC_ARRAY -> get_type_size T D (child ti) = Ret (Some sz) ->
  dyn_at m (base + obj_addr ti) (Z.of_nat n) al q -> fini_elems_ok (child ti) q sz 0 n v B m -> (n = 0%nat -> B = []) ->
  fini_ok t base (VCount n v) (dyn_block q (sz * al) al ++ B) m.
Proof.
  intros Et Hty Hsz Hd IH HB s fuel Hs Ho Hc. assert (span ti = Some 16) as Hspan by (unfold span; by rewrite Hty).
  eapply dyn_at_reach in Hd; [|done..]. destruct Hd as (D1 & D2 & D3 & D4 & D5 & D6).
  destruct (lay_child _ _ L t ti sz Et) as [Hsz0 Hin]; [rewrite Hty; set_solver|done|]. enter fuel Et Hty. cbn [cost] in *.
  assert (forall x, own_elems T D (child ti) q sz 0 n x -> inside q (sz * al) x) as Hel.
  { intros x (j & Hj & Hx). apply Hin in Hx. unfold inside in *. nia. }
  assert (0 < al -> forall x, inside q (sz * al) x -> in_blocks (dyn_block q (sz * al) al ++ B) x) as Hblk.
  { intros Hal x Hx. apply in_blocks_app. left. by apply in_blocks_dyn. }
  set (act := fun p => do count <- load16 (base + obj_addr ti);
    if 0 <? count then do size <- lift (get_type_size T fuel (child ti));
      match size with None => cret tt | Some obj_size => fini_elems T fuel (child ti) p obj_size 0 (cret count) end
    else cret tt).
  enough (wp (do allocated <- load16 (base + obj_addr ti + 2);
      (if 0 <? allocated then do p <- load_ptr (base + obj_addr ti + 8); act p ;; aosl_free p else cret tt) ;;
      clear_dynamic (base + obj_addr ti)) s (fun _ s' => released (own T D t base) (dyn_block q (sz * al) al ++ B) s s')) as Hgoal.
  { eapply wp_unbind in Hgoal. apply wp_bind. eapply wp_mono; [exact Hgoal|]. cbn beta. intros al' s0 H0. apply wp_bind.
    apply wp_unbind in H0. destruct (0 <? al'); [|exact H0]. apply wp_bind. apply wp_unbind in H0. eapply wp_mono; [exact H0|]. cbn beta.
    intros p s3 H3. apply wp_unbind in H3. apply wp_unbind in H3. apply wp_bind. eapply wp_mono; [exact H3|]. cbn beta.
    intros c s4 H4. apply wp_bind. exact H4. }
  eapply (fini_dyn_wp t ti base al q (sz * al) (Z.of_nat n) B s act (own_elems T D (child ti) q sz 0 n));
    [done|done|done|nia|done|intros ->; apply HB; lia|done| |].
  - intros Hal x Hx. apply (ow_blockmap Ho). by apply Hblk, Hel.
  - intros Hal Ho'. unfold act. apply wp_bind. eapply load16_wp; [exact D4|lia|].
    destruct (Z.ltb_spec 0 (Z.of_nat n)) as [Hpos|Hz].
    + apply wp_bind. eapply size_wp; [done|lia|]. apply (IH Hin); [lia| |done|lia|done].
      intros x b [Hx|Hx]; apply Hs; right; [by apply Hblk, Hel|]. apply in_blocks_app. by right.
    + rewrite HB by lia. apply wp_ret, released_refl.
Qed.

(** Releasing an object frees exactly the blocks it owns. *)
Lemma fini_mut :
  (forall t base v B m, repr T D t base v B m -> fini_ok t base v B m) /\
  (forall t base v B m, repr_fields T D t base v B m -> fini_fields_ok t base v B m) /\
  (forall c base sz i n v B m, repr_elems T D c base sz i n v B m ->
     fini_elems_ok c base sz i n v B m /\ (n = 0%nat -> B = [])).
Proof.
  apply repr_mut.
  - intros t ti base n bs m [Et _] Hf _ _. eapply fini_plain_ok; [done| |cbn; lia]. by destruct (type_id ti).
  - intros t ti base bs m [Et _] Hty _ _ _. eapply fini_plain_ok; [done|by rewrite Hty|cbn; lia].
  - intros t ti base bs m [Et _] Hty _ _ _ _. eapply fini_plain_ok; [done|by rewrite Hty|cbn; lia].
  - intros t ti base bs m [Et _] Hty _ _ _ _. eapply fini_plain_ok; [done|by rewrite Hty|cbn; lia].
  - intros t ti base m [Et _]. by eapply fini_null_ok.
  - intros t ti base q sz v B m [Et _] Hty _ Ha Hsz _. by eapply fini_ptr_ok.
  - intros t ti base q bs m [Et _] Hty _ Ha _ _ _. by eapply fini_str_ok.
  - intros t ti base v B m [Et _] Hty _. by eapply fini_ref_ok.
  - intros t ti base v B m [Et _] Hty _. by eapply fini_struct_ok.
  - intros t ti base al q bs m [Et _] Hty Hd _. eapply fini_dyn_bytes_ok; eauto.
  - intros t ti base al q bs m [Et _] Hty _ Hd _. eapply fini_dyn_bytes_ok; eauto.
  - intros t ti base sz n v B m [Et _] H2 H3 H4 H5 _ [IH _]. by eapply fini_fixed_array_ok.
  - intros t ti base sz n v B m [Et _] H2 H3 H4 H5 H6 _ [IH _]. by eapply fini_var_array_ok.
  - intros t ti base al q sz n v B m [Et _] H2 H3 H4 _ [IH1 IH2]. by eapply fini_dyn_array_ok.
  - intros t ti base m Et Hty _ s fuel Hs Ho Hc. destruct fuel as [|fuel]; [cbn in Hc; lia|]. cbn [fini_fields].
    apply wp_bind. eapply get_type_wp; [exact Et|]. rewrite decide_True by done. apply wp_ret, released_refl.
  - intros t ti base v w B1 B2 m Et Hty _ IH1 _ IH2. by eapply fini_fields_cons_ok.
  - intros c base sz i m. split; [|done]. intros Hin Hsz s fuel count Hs Ho Hc Hcnt. destruct fuel as [|fuel]; [cbn in Hc; lia|].
    cbn [fini_elems]. apply wp_bind. eapply wp_eq; [by apply Hcnt|]. destruct (Z.ltb_spec i (i + Z.of_nat 0)); [lia|].
    apply wp_ret, released_refl.
  - intros c base sz i n v w B1 B2 m _ IH1 _ [IH2 _]. split; [by apply fini_elems_cons_ok|done].
Qed.

End Fini.
