(* ===== verification/MarshalExample.v ===== *)
(** * A concrete allocator and a recursive type

    A linked list of numbered strings, with an allocator and a memory in which
    the theorems on marshalling apply. *)
From S2P Require Import Prelude Bytes Psb PsbProps Marshal MarshalVal MarshalEnc MarshalDec MarshalBuild.

(** ** An allocator *)

(** The [n]-th block is at a fixed place, if that is unused. *)
Definition bump_addr (s : mstate) (n : Z) : Z :=
  let a := 2 ^ 20 + 8192 * Z.of_nat (size (blocks s)) in
  if (0 <=? n) && (a + n <=? ADDR_END) &&
     forallb (fun i => bool_decide (bytes s !! (a + i) = None)) (seqZ 0 n) &&
     bool_decide (blocks s !! a = None) && bool_decide (psbs s !! a = None)
  then a else 0.

#[global] Instance bump : Allocator := {|
  malloc_addr := bump_addr;
  malloc_junk := fun _ _ => Init.Byte.xa5;
  malloc_junk_psb := fun _ => MkPsb 0 0 0 0 0 0
|}.

#[global] Instance bump_ok : AllocatorOk.
Proof.
  intros s n Hn Ha. cbn in *. unfold bump_addr in *. set (a := 2 ^ 20 + _) in *.
  destruct (_ && _) eqn:E in Ha |- *; [|done].
  apply andb_true_iff in E as [E E5]. apply andb_true_iff in E as [E E4]. apply andb_true_iff in E as [E E3].
  apply andb_true_iff in E as [E1 E2]. apply Z.leb_le in E2. apply bool_decide_eq_true in E4, E5.
  split; [lia|]. split; [done|]. split; [|done]. intros x Hx. rewrite forallb_forall in E3.
  specialize (E3 (x - a)). replace (a + (x - a)) with x in E3 by lia.
  assert (In (x - a) (seqZ 0 n)) as Hin by (apply list_elem_of_In, elem_of_seqZ; unfold inside in Hx; lia).
  apply E3 in Hin. by apply bool_decide_eq_true in Hin.
Qed.

(** ** A type *)

(** [struct node { int32_t num; char *name; struct node *next; }] *)
Definition node_type : Z := 4096.
Definition num_type : Z := 8192.
Definition name_type : Z := 8240.
Definition next_type : Z := 8288.
Definition end_type : Z := 8336.
Definition list_types : gmap Z aosl_type_info_t := list_to_map [
  (node_type, MkType AOSL_TYPE_STRUCT 24 0 0 0 None num_type);
  (num_type, MkType AOSL_TYPE_INT32 0 0 0 0 None 0);
  (name_type, MkType AOSL_TYPE_STRING 0 0 0 8 None 0);
  (next_type, MkType AOSL_TYPE_POINTER 0 0 0 16 None node_type);
  (end_type, MkType AOSL_TYPE_VOID 0 0 0 0 None 0)].

Lemma list_types_inv t ti :
  list_types !! t = Some ti ->
  (t = node_type /\ ti = MkType AOSL_TYPE_STRUCT 24 0 0 0 None num_type) \/
  (t = num_type /\ ti = MkType AOSL_TYPE_INT32 0 0 0 0 None 0) \/
  (t = name_type /\ ti = MkType AOSL_TYPE_STRING 0 0 0 8 None 0) \/
  (t = next_type /\ ti = MkType AOSL_TYPE_POINTER 0 0 0 16 None node_type) \/
  (t = end_type /\ ti = MkType AOSL_TYPE_VOID 0 0 0 0 None 0).
Proof.
  unfold list_types. cbn [list_to_map foldr]. intros H.
  repeat (apply lookup_insert_Some in H as [[<- <-]|[_ H]]; [tauto|]). by rewrite lookup_empty in H.
Qed.

Ltac types_inv :=
  repeat match goal with
  | H : list_types !! _ = Some _ |- _ =>
      apply list_types_inv in H as [[-> ->]|[[-> ->]|[[-> ->]|[[-> ->]|[-> ->]]]]]; unfold span in *;
      cbn [type_id obj_addr child array_size is_have count_var_addr flat_size option_fmap fmap option_map] in *; try discriminate
  end.

Lemma list_field c f :
  field list_types c f -> c = num_type \/ c = name_type \/ c = next_type ->
  f = num_type \/ f = name_type \/ f = next_type.
Proof.
  induction 1 as [c ti E Ht|c f ti E Ht Hf IH]; [done|]. intros Hc. destruct Hc as [->|[->| ->]].
  - apply IH. by right; left.
  - apply IH. by right; right.
  - inversion Hf as [c' ti' E'|c' f' ti' E']; subst; by vm_compute in E'; simplify_eq.
Qed.

(** The bytes of a node and of its members. *)
Lemma list_own t b x :
  own list_types 8 t b x ->
  (t = num_type -> inside b 4 x) /\ (t = name_type -> inside (b + 8) 8 x) /\
  (t = next_type -> inside (b + 16) 8 x) /\ (t = node_type -> inside b 24 x).
Proof.
  induction 1 as [t ti n base x E Hs Hx|t ti base x E Ht Hx|t ti base x E Ht Ho IH|t ti f base x E Ht Hf Ho IH|t ti sz i base x E Ht Hsz Hi Ho IH];
    types_inv; try (by destruct Ht).
  - injection Hs as <-. rewrite Z.add_0_r in Hx. done.
  - injection Hs as <-. done.
  - injection Hs as <-. done.
  - injection Hs as <-. done.
  - do 3 (split; [done|]). intros _. apply list_field in Hf; [|by left]. destruct IH as (I1 & I2 & I3 & _).
    destruct Hf as [->|[->| ->]]; [specialize (I1 eq_refl)|specialize (I2 eq_refl)|specialize (I3 eq_refl)]; unfold inside in *; lia.
Qed.

Lemma list_layout : Layout list_types 8.
Proof.
  split.
  - intros t ti sz E Hin Hsz. types_inv;
      try (repeat (apply elem_of_cons in Hin as [?|Hin]; [discriminate|]); by apply not_elem_of_nil in Hin).
    vm_compute in Hsz. injection Hsz as <-. split; [done|]. intros b x Hx. by apply list_own in Hx as (_ & _ & _ & H); apply H.
  - intros t ti f g b x E Ht Hf Hg Hne H1 H2. types_inv. apply list_field in Hf; [|by left]. apply list_field in Hg; [|by left].
    apply list_own in H1 as (A1 & A2 & A3 & _), H2 as (B1 & B2 & B3 & _). unfold inside in *.
    destruct Hf as [->|[->| ->]], Hg as [->|[->| ->]]; try done;
      first [pose proof (A1 eq_refl)|pose proof (A2 eq_refl)|pose proof (A3 eq_refl)];
      first [pose proof (B1 eq_refl)|pose proof (B2 eq_refl)|pose proof (B3 eq_refl)]; lia.
  - intros t ti b x E Ht. types_inv.
  - intros t ti sz i b x E Ht. types_inv.
Qed.

(** ** A memory

    Two nodes at 256 and 288 with their names at 320 and 328, room for a third
    node at 384, and a buffer of ten bytes at 512, too small for the list. *)
Definition example_data : list byte :=
  le_split 4 7 ++ replicate 4 NUL ++ le_split 8 320 ++ le_split 8 288 ++ replicate 8 NUL ++
  le_split 4 9 ++ replicate 4 NUL ++ le_split 8 328 ++ le_split 8 0 ++ replicate 8 NUL ++
  [Init.Byte.x61; Init.Byte.x62; NUL] ++ replicate 5 NUL ++ [Init.Byte.x63; NUL] ++ replicate 194 NUL.

Definition example_state : mstate :=
  MkM (alloc_bytes ∅ 256 266 (fun x => nth (Z.to_nat (x - 256)) example_data NUL)) ∅
    {[64 := MkPsb 512 0 0 512 10 PSB_USER_BUFFER]} 0.

Definition example_value : val :=
  VGroup (VCons (VRaw (le_split 4 7)) (VCons (VBox (VText [Init.Byte.x61; Init.Byte.x62])) (VCons
    (VBox (VGroup (VCons (VRaw (le_split 4 9)) (VCons (VBox (VText [Init.Byte.x63])) (VCons VNull VNil))))) VNil))).

Definition example_blocks : list (Z * Z) := [(320, 3); (288, 24); (328, 2)].

Lemma example_mapped x : inside 256 266 x -> is_Some (bytes example_state !! x).
Proof. intros Hx. cbn [bytes example_state]. rewrite alloc_bytes_lookup, decide_True; [eauto|exact Hx]. Qed.

Lemma example_at a l : read_bytes (bytes example_state) a (length l) = Some l -> at_bytes (bytes example_state) a l.
Proof. intros H. by apply read_bytes_spec in H as [_ ?]. Qed.

Lemma example_ready : ready example_state 64 [].
Proof.
  split.
  - split.
    + apply NoDup_singleton.
    + intros p ->%list_elem_of_singleton. eexists. split; [reflexivity|]. split; try (unfold room; cbn; lia).
      intros x Hx. apply example_mapped. unfold buf_of, inside in *. cbn in Hx. lia.
    + intros p q bp bq x Hp%list_elem_of_singleton Hq%list_elem_of_singleton. congruence.
  - split; [done|]. split; [done|]. by eexists.
  - intros q Hq. by apply not_elem_of_nil in Hq.
Qed.

Lemma example_empty : psb_empty example_state 64.
Proof. by eexists. Qed.

Ltac example_at := apply example_at; vm_compute; reflexivity.

Lemma example_repr : repr list_types 8 node_type 256 example_value example_blocks (bytes example_state).
Proof.
  eapply R_struct; [by split|done|]. unfold example_blocks.
  eapply (F_cons _ _ num_type _ 256 _ _ [] _); [done|done|eapply R_flat; [by split|done|done|example_at]|].
  eapply (F_cons _ _ name_type _ 256 _ _ [(320, 3)] _); [done|done|eapply (R_str _ _ name_type _ 256 320); [by split|done|lia|example_at|set_solver|done|example_at]|].
  eapply (F_cons _ _ next_type _ 256 _ _ [(288, 24); (328, 2)] []); [done|done| |by eapply F_end].
  eapply (R_ptr _ _ next_type _ 256 288); [by split|done|lia|example_at|done|].
  eapply R_struct; [by split|done|].
  eapply (F_cons _ _ num_type _ 288 _ _ [] _); [done|done|eapply R_flat; [by split|done|done|example_at]|].
  eapply (F_cons _ _ name_type _ 288 _ _ [(328, 2)] _); [done|done|eapply (R_str _ _ name_type _ 288 328); [by split|done|lia|example_at|set_solver|done|example_at]|].
  eapply (F_cons _ _ next_type _ 288 _ _ [] []); [done|done|eapply R_null; [by split|by left|example_at]|by eapply F_end].
Qed.

Lemma example_reach x : reach list_types 8 node_type 256 example_blocks x -> inside 256 80 x.
Proof.
  intros [Hx|(q & n & Hin & Hx)].
  - apply list_own in Hx as (_ & _ & _ & H). specialize (H eq_refl). unfold inside in *. lia.
  - unfold example_blocks in Hin. rewrite !elem_of_cons in Hin. unfold inside in *.
    destruct Hin as [[= -> ->]|[[= -> ->]|[[= -> ->]|Hin]]]; [lia..|]. by apply not_elem_of_nil in Hin.
Qed.

Lemma example_dst x : own list_types 8 node_type 384 x -> inside 384 24 x.
Proof. intros Hx. apply list_own in Hx as (_ & _ & _ & H). by apply H. Qed.

Lemma example_safe P : (forall x, P x -> inside 256 152 x) -> safe example_state 64 [] P.
Proof.
  intros HP. split.
  - intros x Hx. apply example_mapped. apply HP in Hx. unfold inside in *. lia.
  - intros x Hx (p & b & ->%list_elem_of_singleton & Eb & Hb). apply HP in Hx. vm_compute in Eb. injection Eb as <-.
    unfold buf_of, inside in *. cbn in Hb. lia.
Qed.
