(* ===== verification/MarshalProps.v ===== *)
(** * The theorems on marshalling *)
From S2P Require Import Prelude Bytes Psb PsbProps Marshal MarshalVal MarshalEnc MarshalDec MarshalBuild MarshalFini MarshalExample.
#[local] Open Scope aosl_scope.

(** ** From the writing end of a chain to the reading end *)

Lemma filled_tidy s p rest l s' full p' rest' W :
  filled s p rest l s' full p' rest' -> full ++ p' :: rest' = p :: W -> tidy s' W.
Proof.
  intros F HW A q C -> Hq r Hr. pose proof (ok_nodup (fl_ok F)) as Hnd. rewrite HW in Hnd.
  apply NoDup_cons in Hnd as [Hp _]. assert (q <> p) as Hqp by set_solver.
  assert (q ∉ full) as Hqf.
  { intros Hin. destruct (fl_full F q Hin) as (b & E & Hb), Hq as (b' & E' & Hb'). rewrite E in E'. injection E' as <-.
    destruct (fl_roomy F q) as [?|(b2 & E2 & Hb2)]; [set_solver|done|]. rewrite E in E2. injection E2 as <-.
    unfold room in Hb. lia. }
  enough (r ∈ rest') by (by apply (fl_rest F)).
  change (p :: A ++ q :: C) with ((p :: A) ++ q :: C) in HW. apply app_eq_inv in HW as [(k & E1 & E2)|(k & E1 & E2)].
  - destruct k as [|y k]; cbn in E2; injection E2 as -> E2; [by rewrite <-E2|]. exfalso. apply Hqf. rewrite E1. set_solver.
  - destruct k as [|y k]; cbn in E2; injection E2 as -> ->; set_solver.
Qed.

(** What was written from an empty buffer on can be read from there. *)
Lemma extends_source s p rest l s' p' rest' :
  ready s p rest -> psb_empty s p -> extends s p rest l s' p' rest' ->
  exists W, source s' p W l /\ forall x, bufs s' (p :: W) x -> bufs s (p :: rest) x \/ bytes s !! x = None.
Proof.
  intros Hrd He [full F]. pose proof (fl_seg F) as Hseg.
  assert (exists W, full ++ p' :: rest' = p :: W) as [W HW].
  { destruct full as [|r full]; cbn in Hseg |- *; destruct Hseg as [-> _]; eauto. }
  rewrite HW in Hseg. pose proof (fl_ok F) as Hok. rewrite HW in Hok. exists W. split; [split; [done|done| |by eapply filled_tidy]|].
  - rewrite <-HW. assert (stream s [p] = Some []) as H0 by (apply stream_empty; by intros q ->%list_elem_of_singleton).
    apply (fl_stream F) in H0. change (p' :: rest') with ([p'] ++ rest'). rewrite (assoc_L (++)), stream_app, H0. cbn.
    rewrite stream_empty by (intros q Hq; by apply (fl_rest F)). cbn. by rewrite app_nil_r.
  - rewrite <-HW. apply (fl_bufs F).
Qed.

Section Roundtrip.
Context `{AL : Allocator} `{OK : !AllocatorOk}.
Context (T : gmap Z aosl_type_info_t) (D : nat) (stk : Z -> Z -> bool).

(** Marshal the object at [src] and unmarshal the result into the one at [dst]. *)
Definition copy_through (fuel : nat) (t src dst p : Z) : CM mstate (Z * Z) :=
  do n <- aosl_marshal T stk fuel t src p;
  if n <? 0 then cret (n, 0) else
  do k <- aosl_unmarshal T stk fuel t dst p; cret (n, k).

Lemma return_err_nomem s Q :
  (forall s', errno s' = AOSL_ENOMEM -> Q (-1) s') -> wp (psb_return_err (- AOSL_ENOMEM)) s Q.
Proof. intros H. unfold wp. cbn. by apply H. Qed.

Lemma return_err_wp (r : Z) (s : mstate) (Q : Z -> mstate -> Prop) : 0 <= r -> Q r s -> wp (psb_return_err r) s Q.
Proof.
  intros Hr HQ. unfold psb_return_err. replace (IS_ERR r) with false by (symmetry; apply andb_false_intro2, Z.ltb_ge; lia).
  by apply wp_ret.
Qed.

Lemma marshal_roundtrip_ok s p rest t src dst v B fuel :
  (forall t a, stk t a = false) -> Layout T D -> ready s p rest -> psb_empty s p ->
  repr T D t src v B (bytes s) -> safe s p rest (fun x => reach T D t src B x \/ own T D t dst x) ->
  (forall x, own T D t dst x -> reach T D t src B x -> False) -> (cost v + D <= fuel)%nat ->
  wp (copy_through fuel t src dst p) s (fun r s' =>
    let len := Z.of_nat (length (enc v)) in
    (r.1 = -1 /\ errno s' = AOSL_ENOMEM) \/ (r = (len, -1) /\ errno s' = AOSL_ENOMEM) \/
    (r = (len, len) /\ repr T D t src v B (bytes s') /\
     exists s1 W B' p2 rest2, repr T D t dst v B' (bytes s') /\ built (own T D t dst) s1 p W [] B' s' p2 rest2)).
Proof.
  intros Hstk L Hrd He HR Hsafe Hdis Hf. unfold copy_through, aosl_marshal, smart_marshal. apply wp_bind, wp_bind, wp_bind.
  eapply wp_mono; [apply (proj1 (marshal_mut T D stk Hstk L) t src v B (bytes s) HR s p rest fuel); [|done|done]|].
  { split; [apply same_on_refl|]. eapply safe_sub; [done|]. by left. }
  intros r s1 Hw. apply wp_ret. destruct Hw as [[E [rest1 Hext]]|E]; rewrite E.
  2: { apply return_err_nomem. intros s2 He2. cbn. apply wp_ret. by left. }
  apply return_err_wp; [lia|]. destruct (Z.ltb_spec (Z.of_nat (length (enc v))) 0) as [?|_]; [lia|].
  destruct (extends_source _ _ _ _ _ _ _ Hrd He Hext) as (W & Hso & Hbufs).
  destruct (extends_safe _ _ _ _ _ _ _ _ Hext Hsafe) as [Hsame Hsafe1].
  assert (safe s1 p W (own T D t dst)) as Hs1.
  { split; [intros x Hx; apply Hsafe1; by right|]. intros x Hx Hb. destruct Hsafe as [Hm Hs].
    destruct (Hbufs x Hb) as [?|Hn]; [eapply Hs; [right; exact Hx|done]|].
    destruct (Hm x (or_intror Hx)). congruence. }
  unfold aosl_unmarshal, smart_unmarshal. apply wp_bind, wp_bind, wp_bind.
  eapply wp_mono; [apply (proj1 (unmarshal_mut T D stk Hstk L) t src v B (bytes s) HR s1 p W [] dst fuel); [by rewrite app_nil_r|done|done]|].
  intros k s2 [E2|(E2 & B' & rest2 & A & HR2)]; apply wp_ret; rewrite E2.
  { apply return_err_nomem. intros s3 He3. apply wp_ret. right. by left. }
  apply return_err_wp; [lia|]. apply wp_ret. right. right. split; [done|]. split.
  - eapply repr_local; [done|exact HR|]. intros x b Hx Hb. apply (bu_bytes A).
    + intros Ho. by apply (Hdis x).
    + apply Hsame; [by left|done].
  - exists s1, W, B', k.2, rest2. done.
Qed.
End Roundtrip.

Section Release.
Context `{AL : Allocator} `{OK : !AllocatorOk}.
Context (T : gmap Z aosl_type_info_t) (D : nat) (stk : Z -> Z -> bool).

(** A freshly built object owns its blocks. *)
Lemma built_owned (P : Z -> Prop) s p rest l B s' p' rest' :
  built P s p rest l B s' p' rest' -> mapped (bytes s) P -> owned P B s'.
Proof.
  intros A Hm. split; [|apply (bu_in A)|apply (bu_nodup A)|apply (bu_apart A)| |apply (bu_newmap A)].
  - intros x Hx. by apply (bu_map A), Hm.
  - intros x Hx Hb. by eapply built_clear.
Qed.

(** Unmarshal, and release the object when that succeeded. *)
Definition receive_and_release (fuel : nat) (t dst p : Z) : CM mstate Z :=
  do r <- smart_unmarshal T stk fuel t dst p;
  if r <? 0 then cret r else smart_fini_typed_obj T fuel t dst ;; cret r.

Lemma receive_and_release_ok s p rest t src m B v tail dst fuel :
  (forall t a, stk t a = false) -> Layout T D -> repr T D t src v B m ->
  source s p rest (enc v ++ tail) -> safe s p rest (own T D t dst) -> (cost v + D <= fuel)%nat ->
  wp (receive_and_release fuel t dst p) s (fun r s' =>
    r = - AOSL_ENOMEM \/ (r = Z.of_nat (length (enc v)) /\ blocks s' = blocks s)).
Proof.
  intros Hstk L HR Hso Hsafe Hf. unfold receive_and_release, smart_unmarshal. apply wp_bind, wp_bind.
  eapply wp_mono; [apply (proj1 (unmarshal_mut T D stk Hstk L) t src v B m HR s p rest tail dst fuel); done|].
  intros r s1 [E|(E & B' & rest1 & A & HR')]; apply wp_ret; rewrite E; [apply wp_ret; by left|].
  destruct (Z.ltb_spec (Z.of_nat (length (enc v))) 0) as [?|_]; [lia|]. apply wp_bind.
  eapply wp_mono; [apply (proj1 (fini_mut T D L) t dst v B' (bytes s1) HR'); [apply same_on_refl|eapply built_owned; [exact A|apply Hsafe]|done]|].
  intros [] s2 R. apply wp_ret. right. split; [done|]. apply map_eq. intros q.
  destruct (decide (q ∈ B'.*1)) as [Hin|Hout].
  - by rewrite (re_in R), (bu_fresh A).
  - by rewrite (re_out R), (bu_out A).
Qed.
End Release.

(** ** The theorems *)

(** C9: marshalling an object and unmarshalling the result gives an object with
    the same value.  For every table of types in which the parts of an object
    lie apart ([Layout]; recursive types and the sharing of descriptions included), every
    object of a type without optional members ([is_have] is NULL, also in the local
    [helper_type], where it is not set: [stk]) that represents a value [v] with strings and
    arrays shorter than 65536 ([repr]) and lies apart from the buffers and from the
    destination, and an empty buffer in front of a chain: both calls return the
    length of the encoding, the destination represents [v] and so does the
    source still, however the encoding is cut into buffers; the only other
    outcome is that one of the two calls fails for lack of memory. *)
Theorem marshal_roundtrip `{AL : Allocator} `{OK : !AllocatorOk} T D stk s p rest t src dst v B fuel :
  (forall t a, stk t a = false) -> Layout T D -> ready s p rest -> psb_empty s p ->
  repr T D t src v B (bytes s) -> safe s p rest (fun x => reach T D t src B x \/ own T D t dst x) ->
  (forall x, own T D t dst x -> reach T D t src B x -> False) -> (cost v + D <= fuel)%nat ->
  wp (copy_through T stk fuel t src dst p) s (fun r s' =>
    let len := Z.of_nat (length (enc v)) in
    (r.1 = -1 /\ errno s' = AOSL_ENOMEM) \/ (r = (len, -1) /\ errno s' = AOSL_ENOMEM) \/
    (r = (len, len) /\ repr T D t src v B (bytes s') /\ exists B', repr T D t dst v B' (bytes s'))).
Proof.
  intros H1 H2 H3 H4 H5 H6 H7 H8. eapply wp_mono; [by apply (marshal_roundtrip_ok T D stk s p rest t src dst v B fuel)|].
  intros r s' [?|[?|(E & HR & s1 & W & B' & p2 & rest2 & HR' & _)]]; [by left|right; by left|]. right. right. eauto.
Qed.

Lemma marshal_roundtrip_witness :
  wp (copy_through list_types (fun _ _ => false) 100 node_type 256 384 64) example_state (fun r s' =>
    let len := Z.of_nat (length (enc example_value)) in
    (r.1 = -1 /\ errno s' = AOSL_ENOMEM) \/ (r = (len, -1) /\ errno s' = AOSL_ENOMEM) \/
    (r = (len, len) /\ repr list_types 8 node_type 256 example_value example_blocks (bytes s') /\
     exists B', repr list_types 8 node_type 384 example_value B' (bytes s'))).
Proof.
  eapply (marshal_roundtrip list_types 8 (fun _ _ => false) example_state 64 []).
  - done.
  - exact list_layout.
  - exact example_ready.
  - exact example_empty.
  - exact example_repr.
  - apply example_safe. intros x [Hx%example_reach|Hx%example_dst]; unfold inside in *; lia.
  - intros x Hx%example_dst Hy%example_reach. unfold inside in *; lia.
  - vm_compute. lia.
Defined.

(** The run of the example: 17 bytes through a chain of two buffers. *)
Example marshal_example_run :
  match copy_through list_types (fun _ _ => false) 100 node_type 256 384 64 example_state with
  | Ret (r, s) => Some (r, size (psbs s), size (blocks s))
  | _ => None
  end = Some ((17, 17), 2%nat, 5%nat).
Proof. vm_compute. reflexivity. Qed.

(** C23: what unmarshalling a valid encoding allocates, releasing gives back.  On a stream
    that starts with the encoding of a value of type [t] (with the layout, without optional
    members and with the lengths of [marshal_roundtrip]),
    [smart_unmarshal] followed by [smart_fini_typed_obj] returns normally and leaves exactly
    the blocks that were live before, unless memory ran out.  Nothing is said of streams
    that are no encodings. *)
Theorem unmarshal_fini_no_leak `{AL : Allocator} `{OK : !AllocatorOk} T D stk s p rest t src m B v tail dst fuel :
  (forall t a, stk t a = false) -> Layout T D -> repr T D t src v B m ->
  source s p rest (enc v ++ tail) -> safe s p rest (own T D t dst) -> (cost v + D <= fuel)%nat ->
  wp (receive_and_release T stk fuel t dst p) s (fun r s' =>
    r = - AOSL_ENOMEM \/ (r = Z.of_nat (length (enc v)) /\ blocks s' = blocks s)).
Proof. apply receive_and_release_ok. Qed.

(** The example's encoding in one buffer at 512. *)
Definition example_packet : mstate :=
  MkM (alloc_bytes ∅ 256 273 (fun x => nth (Z.to_nat (x - 512)) (enc example_value) NUL)) ∅
    {[64 := MkPsb 512 17 0 512 17 PSB_USER_BUFFER]} 0.

Lemma example_packet_mapped x : inside 256 273 x -> is_Some (bytes example_packet !! x).
Proof. intros Hx. cbn [bytes example_packet]. rewrite alloc_bytes_lookup, decide_True; [eauto|exact Hx]. Qed.

Lemma example_source : source example_packet 64 [] (enc example_value).
Proof.
  split.
  - split.
    + apply NoDup_singleton.
    + intros p ->%list_elem_of_singleton. eexists. split; [reflexivity|]. split; try (unfold room; cbn; lia).
      intros x Hx. apply example_packet_mapped. unfold buf_of, inside in *. cbn in Hx. lia.
    + intros p q bp bq x Hp%list_elem_of_singleton Hq%list_elem_of_singleton. congruence.
  - split; [done|]. split; [done|]. by eexists.
  - vm_compute. reflexivity.
  - intros A q C E. by destruct A.
Qed.

Lemma unmarshal_fini_no_leak_witness :
  wp (receive_and_release list_types (fun _ _ => false) 100 node_type 384 64) example_packet (fun r s' =>
    r = - AOSL_ENOMEM \/ (r = Z.of_nat (length (enc example_value)) /\ blocks s' = blocks example_packet)).
Proof.
  eapply (unmarshal_fini_no_leak list_types 8 _ example_packet 64 [] node_type 256 (bytes example_state) example_blocks example_value []).
  - done.
  - exact list_layout.
  - exact example_repr.
  - rewrite app_nil_r. exact example_source.
  - split.
    + intros x Hx%example_dst. apply example_packet_mapped. unfold inside in *. lia.
    + intros x Hx%example_dst (p & b & ->%list_elem_of_singleton & Eb & Hb). vm_compute in Eb. injection Eb as <-.
      unfold buf_of, inside in *. cbn in Hb. lia.
  - vm_compute. lia.
Defined.

(** The first three bytes of a list: a pointer that is not null, and half a
    number. *)
Definition truncated_packet : mstate :=
  MkM (alloc_bytes ∅ 256 273 (fun x => nth (Z.to_nat (x - 512)) [Init.Byte.x01; Init.Byte.x07; Init.Byte.x00] NUL)) ∅
    {[64 := MkPsb 512 3 0 512 3 PSB_USER_BUFFER]} 0.

(** Releasing an object after a message that was cut short frees a wild
    pointer.  The object is set up with [smart_init_typed_obj]; unmarshalling
    allocates a node, stores the pointer to it and fails with
    [-AOSL_EMSGSIZE] before it has written the members of the node, which still
    hold what the allocator left there; [smart_fini_typed_obj], which a
    comment in the code says can then be called, frees the garbage. *)
Theorem truncated_message_wild_free :
  wp (smart_init_typed_obj list_types 100 next_type 384 ;;
      smart_unmarshal list_types (fun _ _ => false) 100 next_type 384 64) truncated_packet (fun r s' =>
    r = - AOSL_EMSGSIZE /\ smart_fini_typed_obj list_types 100 next_type 384 s' = Fault).
Proof. vm_compute. split; reflexivity. Qed.

(** ** Limits of the code *)

(** An array of [N] elements of type [void]. *)
Definition wide_types (N : Z) : gmap Z aosl_type_info_t :=
  list_to_map [(4096, MkType AOSL_TYPE_FIXED_ARRAY 0 N 0 0 None 8192); (8192, MkType AOSL_TYPE_VOID 0 0 0 0 None 0)].

Lemma wide_elems_loop `{AL : Allocator} N stk fuel : 2 ^ 16 <= N -> forall base i p0 p len s, 0 <= i < 2 ^ 16 ->
  marshal_elems (wide_types N) stk fuel p0 8192 base 0 i N p len s = NoFuel.
Proof.
  intros HN. induction fuel as [|fuel IH]; intros base i p0 p len s Hi; [done|]. cbn [marshal_elems].
  destruct (Z.ltb_spec i N) as [_|?]; [|lia]. destruct fuel as [|fuel]; [done|]. cbn [_____marshal].
  unfold cbind at 1 2. change (get_type (wide_types N) 8192 s) with (Ret (MkType AOSL_TYPE_VOID 0 0 0 0 None 0, s)).
  cbn -[marshal_elems]. apply IH. unfold wrapu. apply Z.mod_pos_bound. done.
Qed.

(** The 16-bit index of the loop over a fixed array never reaches the end
    of an array of 65536 or more elements, although [array_size] has 32 bits:
    whatever the fuel, [_____marshal] does not come back. *)
Theorem fixed_array_index_wraps `{AL : Allocator} N stk fuel base p s :
  2 ^ 16 <= N < 2 ^ 32 -> _____marshal (wide_types N) stk fuel 4096 base p s = NoFuel.
Proof.
  intros HN. destruct fuel as [|fuel]; [done|]. cbn [_____marshal].
  rewrite (cbind_ret _ _ s (MkType AOSL_TYPE_FIXED_ARRAY 0 N 0 0 None 8192) s eq_refl).
  rewrite (cbind_ret _ _ s false s eq_refl). cbn [type_id child obj_addr array_size is_have].
  destruct fuel as [|fuel]; [done|]. rewrite (cbind_ret _ _ s (Some 0) s eq_refl). exact (wide_elems_loop N stk (S fuel) ltac:(lia) (base + 0) 0 p p 0 s ltac:(lia)).
Qed.

Lemma fixed_array_index_wraps_witness :
  _____marshal (wide_types 65536) (fun _ _ => false) 1000 4096 256 64 example_state = NoFuel.
Proof. apply (fixed_array_index_wraps 65536 (fun _ _ => false) 1000 256 64 example_state). lia. Defined.

(** With garbage in the uninitialised [helper_type.is_have] every pointer that
    is marshalled makes the code call it. *)
Lemma helper_type_garbage `{AL : Allocator} T stk fuel t ti base p q s :
  T !! t = Some ti -> is_have ti = None -> type_id ti = AOSL_TYPE_POINTER -> stk t base = true ->
  load_ptr (base + obj_addr ti) s = Ret (q, s) -> _____marshal T stk (S fuel) t base p s = Fault.
Proof.
  intros Et Eh Hty Hs Hl. cbn [_____marshal]. unfold cbind at 1, get_type. rewrite Et. unfold cbind at 1, absent. run.
  rewrite Eh, Hty, Hl. unfold marshal_bool. by rewrite Hs.
Qed.

(** [SAFE_STRSIZE] reads a byte of an empty buffer: in the chain "a", empty,
    "b" with its terminator the string has three bytes, but two are counted,
    because a stale zero is read behind the first buffer. *)
Definition gap_packet : mstate :=
  MkM (list_to_map [(512, Init.Byte.x61); (520, NUL); (528, Init.Byte.x62); (529, NUL)]) ∅
    (list_to_map [(64, MkPsb 512 1 72 512 1 0); (72, MkPsb 520 0 80 520 1 0); (80, MkPsb 528 2 0 528 2 0)]) 0.

Lemma strsize_reads_empty_buffer :
  stream gap_packet [64; 72; 80] = Some [Init.Byte.x61; Init.Byte.x62; NUL] /\
  SAFE_STRSIZE 10 64 gap_packet = Ret (2, gap_packet).
Proof. split; vm_compute; reflexivity. Qed.
