(* ===== verification/Dyn.v ===== *)
(** * Dynamic arrays, bytes and strings: [lib/marshalling.c]

    An [aosl_dynamic_array_t] is a header of sixteen bytes: the number of
    elements, the number of elements there is room for, and the block that holds
    them.  Dynamic bytes and dynamic strings are dynamic arrays of bytes; a
    string has a NUL behind its bytes.  The memory is that of [Psb]. *)
From coqutil Require Import Byte.
From S2P Require Import Prelude Bytes Psb Marshal.
#[local] Open Scope aosl_scope.

Definition DYNAMIC_ARRAY_MAX_COUNT : Z := 10240.
Definition DYNAMIC_ARRAY_GROW_STRIDE : Z := 4.
Definition DYNAMIC_BYTES_GROW_STRIDE : Z := 16.

Section Dyn.
Context `{AL : Allocator}.

(** [arr->count], [arr->allocated], [arr->values]. *)
Definition get_count (a : Z) : CM mstate Z := load16 a.
Definition get_allocated (a : Z) : CM mstate Z := load16 (a + 2).
Definition get_values (a : Z) : CM mstate Z := load_ptr (a + 8).

Definition aosl_dynamic_array_init (arr : Z) : CM mstate unit :=
  set_count arr 0 ;; set_allocated arr 0 ;; set_values arr 0.

Definition aosl_dynamic_array_init_with (arr data len : Z) : CM mstate unit :=
  set_count arr (u16 len) ;; set_allocated arr (u16 len) ;; set_values arr data.

(** [while (allocated < needed) allocated += stride;] on [uint16_t]. *)
Fixpoint grow_loop (fuel : nat) (allocated needed stride : Z) : CM mstate Z :=
  if allocated <? needed then
    match fuel with
    | O => cnofuel
    | S fuel => grow_loop fuel (u16 (allocated + stride)) needed stride
    end
  else cret allocated.

(** The part of [aosl_dynamic_array_add_elems] and
    [aosl_dynamic_string_strcat] that makes room for [needed] elements; 0 or an
    error. *)
Definition dyn_grow (fuel : nat) (arr elem_size needed stride : Z) : CM mstate Z :=
  do old <- get_allocated arr;
  do allocated <- grow_loop fuel old needed stride;
  if old <? allocated then
    do new_values <- aosl_malloc (u64 (elem_size * allocated));
    if new_values =? 0 then cret (- AOSL_ENOMEM) else
    do count <- get_count arr;
    (when 0 <? count then do values <- get_values arr; memcpy new_values values (u64 (elem_size * count))) ;;
    (when 0 <? old then do values <- get_values arr; aosl_free values) ;;
    set_values arr new_values ;;
    set_allocated arr allocated ;;
    cret 0
  else cret 0.

(** [memcpy] behind the last element and [count += n]. *)
Definition dyn_append (arr elems elem_size n : Z) : CM mstate unit :=
  when 0 <? n then
    (do count <- get_count arr;
     do values <- get_values arr;
     memcpy (values + u64 (elem_size * count)) elems (u64 (elem_size * n)) ;;
     set_count arr (u16 (count + n))).

Definition aosl_dynamic_array_add_elems (fuel : nat) (arr elems elem_size nelems : Z) : CM mstate Z :=
  do count <- get_count arr;
  if DYNAMIC_ARRAY_MAX_COUNT <=? count then cret (- AOSL_E2BIG) else
  if DYNAMIC_ARRAY_MAX_COUNT <=? nelems then cret (- AOSL_E2BIG) else
  if DYNAMIC_ARRAY_MAX_COUNT <=? u64 (nelems + count) then cret (- AOSL_E2BIG) else
  do err <- dyn_grow fuel arr elem_size (u16 (count + nelems)) DYNAMIC_ARRAY_GROW_STRIDE;
  if err <? 0 then cret err else
  dyn_append arr elems elem_size nelems ;;
  cret 0.

Definition aosl_dynamic_array_take (dst src : Z) : CM mstate unit :=
  do allocated <- get_allocated dst;
  (when 0 <? allocated then do values <- get_values dst; aosl_free values) ;;
  do c <- get_count src; set_count dst c ;;
  do al <- get_allocated src; set_allocated dst al ;;
  do v <- get_values src; set_values dst v ;;
  set_count src 0 ;; set_allocated src 0 ;; set_values src 0.

Definition aosl_dynamic_array_is_empty (arr : Z) : CM mstate Z :=
  do count <- get_count arr; cret (if count =? 0 then 1 else 0).

Definition aosl_dynamic_bytes_copy (dst src : Z) : CM mstate Z :=
  do sal <- get_allocated src;
  do ' (e, values) <-
    (if 0 <? sal then
       do values <- aosl_malloc sal;
       if values =? 0 then cret (-1, 0) else
       do sv <- get_values src;
       do sc <- get_count src;
       memcpy values sv sc ;;
       (when sc <? sal then store (values + sc) [NUL]) ;;
       cret (0, values)
     else cret (0, 0));
  if e <? 0 then cret e else
  do dal <- get_allocated dst;
  (when 0 <? dal then do dv <- get_values dst; aosl_free dv) ;;
  do c <- get_count src; set_count dst c ;;
  do al <- get_allocated src; set_allocated dst al ;;
  set_values dst values ;;
  cret 0.

(** [memcmp]: only the sign of its result is specified. *)
Fixpoint compare_bytes (l1 l2 : list byte) : Z :=
  match l1, l2 with
  | b1 :: l1, b2 :: l2 =>
    match Z.compare (byte.unsigned b1) (byte.unsigned b2) with Lt => -1 | Gt => 1 | Eq => compare_bytes l1 l2 end
  | _, _ => 0
  end.
Definition memcmp (p q n : Z) : CM mstate Z :=
  do l1 <- load p (Z.to_nat n); do l2 <- load q (Z.to_nat n); cret (compare_bytes l1 l2).

Definition aosl_dynamic_bytes_compare (b1 b2 : Z) : CM mstate Z :=
  do c1 <- get_count b1;
  do c2 <- get_count b2;
  if negb (c1 =? c2) then cret (c1 - c2) else
  do v1 <- get_values b1;
  do v2 <- get_values b2;
  memcmp v1 v2 c1.

Definition aosl_dynamic_bytes_add_data (fuel : nat) (dyn_bytes data len : Z) : CM mstate Z :=
  aosl_dynamic_array_add_elems fuel dyn_bytes data 1 len.

Definition aosl_dynamic_bytes_copy_data (fuel : nat) (dyn_bytes data len : Z) : CM mstate Z :=
  set_count dyn_bytes 0 ;;
  aosl_dynamic_array_add_elems fuel dyn_bytes data 1 len.

Definition aosl_dynamic_string_strcat (fuel : nat) (dyn_str str : Z) : CM mstate Z :=
  do len <- strlen fuel str;
  do count <- get_count dyn_str;
  if DYNAMIC_ARRAY_MAX_COUNT <=? count then cret (- AOSL_E2BIG) else
  if DYNAMIC_ARRAY_MAX_COUNT <=? len then cret (- AOSL_E2BIG) else
  if DYNAMIC_ARRAY_MAX_COUNT <=? u64 (len + count) then cret (- AOSL_E2BIG) else
  do err <- dyn_grow fuel dyn_str 1 (u16 (count + len + 1)) DYNAMIC_BYTES_GROW_STRIDE;
  if err <? 0 then cret err else
  dyn_append dyn_str str 1 len ;;
  do values <- get_values dyn_str;
  do count <- get_count dyn_str;
  store (values + count) [NUL] ;;
  cret 0.

Definition aosl_dynamic_string_strcpy (fuel : nat) (dyn_str str : Z) : CM mstate Z :=
  set_count dyn_str 0 ;;
  aosl_dynamic_string_strcat fuel dyn_str str.

Definition aosl_dynamic_string_strcpy_out (buf buf_sz dyn_str : Z) : CM mstate Z :=
  do n <- get_count dyn_str;
  let n := if buf_sz <=? n then u64 (buf_sz - 1) else n in
  do values <- get_values dyn_str;
  memcpy buf values n ;;
  store (buf + n) [NUL] ;;
  cret buf.

End Dyn.
