(* ===== verification/DynProps.v ===== *)
(** * The theorems on dynamic arrays, bytes and strings *)
From S2P Require Import Prelude Bytes Psb PsbProps Marshal MarshalVal MarshalEnc MarshalExample Dyn.
#[local] Open Scope aosl_scope.

(** ** A dynamic array in memory *)

(** The bytes of the block of an array with room for [al] elements of [k]
    bytes. *)
Definition region (k al q x : Z) : Prop := 0 < al /\ inside q (k * al) x.

(** In [s] the array at [a] has the elements [l], each of [k] bytes. *)
Record dyn_ok (s : mstate) (a k cnt al q : Z) (l : list byte) : Prop := {
  d_at : dyn_at (bytes s) a cnt al q;
  d_head : mapped (bytes s) (inside a 16);
  d_len : Z.of_nat (length l) = k * cnt;
  d_block : 0 < al -> 0 < q /\ blocks s !! q = Some (k * al);
  d_map : mapped (bytes s) (region k al q);
  d_val : 0 < al -> at_bytes (bytes s) q l;
  d_sep : forall x, inside a 16 x -> region k al q x -> False
}.
Arguments d_at {s a k cnt al q l}.
Arguments d_head {s a k cnt al q l}.
Arguments d_len {s a k cnt al q l}.
Arguments d_block {s a k cnt al q l}.
Arguments d_map {s a k cnt al q l}.
Arguments d_val {s a k cnt al q l}.
Arguments d_sep {s a k cnt al q l}.

(** The live blocks apart from the array's. *)
Definition others (s : mstate) (al q : Z) : gmap Z Z := if 0 <? al then delete q (blocks s) else blocks s.

(** An operation on the array at [a] touches nothing but the header and the
    block of the array, and frees the old block when it takes a new one. *)
Record dyn_frame (s : mstate) (a k al q : Z) (s' : mstate) (al' q' : Z) : Prop := {
  f_bytes : forall x, ~ inside a 16 x -> ~ region k al q x -> is_Some (bytes s !! x) -> bytes s' !! x = bytes s !! x;
  f_new : forall x, region k al' q' x -> region k al q x \/ bytes s !! x = None;
  f_head : forall x, inside a 16 x -> is_Some (bytes s !! x) -> is_Some (bytes s' !! x);
  f_blocks : others s' al' q' = others s al q
}.
Arguments f_bytes {s a k al q s' al' q'}.
Arguments f_new {s a k al q s' al' q'}.
Arguments f_head {s a k al q s' al' q'}.
Arguments f_blocks {s a k al q s' al' q'}.

Lemma frame_refl s a k al q : dyn_frame s a k al q s al q.
Proof. split; [done|by left|done|done]. Qed.

Lemma frame_trans s a k al q s1 al1 q1 s2 al2 q2 :
  dyn_frame s a k al q s1 al1 q1 -> dyn_frame s1 a k al1 q1 s2 al2 q2 ->
  (forall x, inside a 16 x -> region k al2 q2 x -> False) -> dyn_frame s a k al q s2 al2 q2.
Proof.
  intros [A1 A2 A3 A4] [B1 B2 B3 B4] Hsep. split.
  - intros x Hh Hr Hs. rewrite <-(A1 x Hh Hr Hs). apply B1; [done| |by rewrite A1].
    intros [?|E]%A2; [done|]. rewrite E in Hs. by destruct Hs.
  - intros x Hx. destruct (B2 x Hx) as [?|E]; [by apply A2|].
    destruct (bytes s !! x) eqn:Ex; [|by right]. left.
    destruct (decide (0 < al /\ inside q (k * al) x)) as [?|Hn]; [done|].
    rewrite A1 in E; [by rewrite E in Ex| |done|by rewrite Ex]. intros Hi. by eapply Hsep.
  - intros x Hx Hs. by apply B3, A3.
  - by rewrite B4.
Qed.

(** Memory behind an address that the array does not occupy survives. *)
Lemma frame_at s a k al q s' al' q' b l :
  dyn_frame s a k al q s' al' q' -> at_bytes (bytes s) b l ->
  (forall x, inside b (Z.of_nat (length l)) x -> ~ inside a 16 x /\ ~ region k al q x) -> at_bytes (bytes s') b l.
Proof.
  intros F Hb Hd i c Hi. pose proof (Hb i c Hi) as E. rewrite (f_bytes F); [done| | |by rewrite E];
    (destruct (Hd (b + Z.of_nat i)); [apply lookup_lt_Some in Hi; unfold inside; lia|done]).
Qed.

Lemma dyn_empty s a k cnt al q l : 0 <= k -> dyn_ok s a k cnt al q l -> al <= 0 -> cnt = 0 /\ l = [].
Proof.
  intros Hk H Hal. destruct (d_at H) as (H1 & _). assert (cnt = 0) as -> by lia. split; [done|].
  apply nil_length_inv. pose proof (d_len H). lia.
Qed.

Lemma dyn_at_same m m' a cnt al q :
  dyn_at m a cnt al q -> (forall x b, inside a 16 x -> m !! x = Some b -> m' !! x = Some b) -> dyn_at m' a cnt al q.
Proof.
  intros (H1 & H2 & H3 & A1 & A2 & A3) Hs. split; [done|]. split; [done|]. split; [done|].
  split; [|split]; eapply at_bytes_same; [exact A1|intros x b Hx; by apply (Hs x b Hx)|rewrite length_le_split; unfold inside; lia
    |exact A2|intros x b Hx; by apply (Hs x b Hx)|rewrite length_le_split; unfold inside; lia
    |exact A3|intros x b Hx; by apply (Hs x b Hx)|rewrite length_le_split; unfold inside; lia].
Qed.

(** A write elsewhere leaves the bytes at [a]. *)
Lemma at_bytes_out m m' b k a l :
  at_bytes m a l -> (forall x, ~ inside b k x -> m' !! x = m !! x) ->
  (forall x, inside a (Z.of_nat (length l)) x -> ~ inside b k x) -> at_bytes m' a l.
Proof. intros Ha Ho Hd. eapply (at_bytes_same (fun x => ~ inside b k x)); [done| |done]. intros x c Hx Hc. by rewrite Ho. Qed.

Section Dyn.
Context `{AL : Allocator} {AOK : AllocatorOk}.

(** The allocator can run out of memory. *)
Definition no_memory : Prop := exists s n, malloc_addr s n = 0.

Lemma get_count_wp s a k cnt al q l Q : dyn_ok s a k cnt al q l -> Q cnt s -> wp (get_count a) s Q.
Proof. intros H HQ. destruct (d_at H) as (? & ? & ? & A & _). eapply load16_wp; [done|lia|done]. Qed.

Lemma get_allocated_wp s a k cnt al q l Q : dyn_ok s a k cnt al q l -> Q al s -> wp (get_allocated a) s Q.
Proof. intros H HQ. destruct (d_at H) as (? & ? & ? & _ & A & _). eapply load16_wp; [done|lia|done]. Qed.

Lemma get_values_wp s a k cnt al q l Q : dyn_ok s a k cnt al q l -> Q q s -> wp (get_values a) s Q.
Proof. intros H HQ. destruct (d_at H) as (? & ? & ? & _ & _ & A). eapply load_ptr_wp; [done|lia|done]. Qed.

Lemma memcpy_wp s dst src n l Q :
  at_bytes (bytes s) src l -> Z.of_nat (length l) = n -> mapped (bytes s) (inside dst n) ->
  (forall m', at_bytes m' dst l -> (forall x, ~ inside dst n x -> m' !! x = bytes s !! x) ->
     Q tt (MkM m' (blocks s) (psbs s) (errno s))) ->
  wp (memcpy dst src n) s Q.
Proof.
  intros Ha <- Hm HQ. unfold memcpy. apply wp_bind. eapply load_bytes_wp; [exact Ha|lia|]. by apply store_bytes_wp.
Qed.

Lemma grow_loop_wp fuel : forall allocated needed stride s Q,
  0 <= allocated < 2 ^ 16 -> 0 < stride -> needed + stride <= 2 ^ 16 -> needed - allocated <= Z.of_nat fuel ->
  (forall r, allocated <= r < 2 ^ 16 -> needed <= r -> (allocated < r -> allocated < needed /\ r < needed + stride) -> Q r s) ->
  wp (grow_loop fuel allocated needed stride) s Q.
Proof.
  induction fuel as [|fuel IH]; intros allocated needed stride s Q Ha Hs Hn Hf HQ; cbn [grow_loop];
    (destruct (Z.ltb_spec allocated needed); [|apply HQ; lia]); [lia|].
  rewrite wrapu_id by lia. apply IH; [lia..|]. intros r Hr Hnr Heq. apply HQ; lia.
Qed.

(** A write to part of the header. *)
Lemma store_head_wp s a o l Q :
  0 <= o -> o + Z.of_nat (length l) <= 16 -> mapped (bytes s) (inside (a + o) (Z.of_nat (length l))) ->
  (forall m', at_bytes m' (a + o) l -> (forall x, ~ inside (a + o) (Z.of_nat (length l)) x -> m' !! x = bytes s !! x) ->
     (forall x, is_Some (bytes s !! x) -> is_Some (m' !! x)) ->
     Q tt (MkM m' (blocks s) (psbs s) (errno s))) ->
  wp (store (a + o) l) s Q.
Proof.
  intros Ho Hl Hm HQ. apply store_bytes_wp; [done|]. intros m' H1 H2. apply HQ; [done..|]. intros x Hx.
  destruct (decide (inside (a + o) (Z.of_nat (length l)) x)); [by apply (at_bytes_mapped _ _ _ H1)|by rewrite H2].
Qed.

(** [arr->count = c] for a [c] that is covered by the block. *)
Lemma set_count_wp s a k cnt al q l c l' Q :
  0 <= k -> dyn_ok s a k cnt al q l -> 0 <= c <= al -> Z.of_nat (length l') = k * c ->
  (0 < al -> at_bytes (bytes s) q l') ->
  (forall s', dyn_ok s' a k c al q l' -> dyn_frame s a k al q s' al q -> (forall x, ~ inside a 16 x -> bytes s' !! x = bytes s !! x) -> Q tt s') ->
  wp (set_count a c) s Q.
Proof.
  intros Hk H Hc Hl Hv HQ. unfold set_count, store16. destruct (d_at H) as (H1 & H2 & H3 & A1 & A2 & A3).
  replace a with (a + 0) at 1 by lia. apply store_head_wp; rewrite ?length_le_split; [lia|lia| |].
  { replace (a + 0) with a by lia. intros x Hx. apply (at_bytes_mapped _ _ _ A1). by rewrite length_le_split. }
  rewrite Z.add_0_r. intros m' B1 B2 B3.
  assert (forall x, ~ inside a 16 x -> m' !! x = bytes s !! x) as Hout by (intros x Hx; apply B2; unfold inside in *; lia).
  apply HQ; [| |done].
  - split; cbn; [| |done|apply (d_block H)| | |apply (d_sep H)].
    + split; [done|]. split; [done|]. split; [done|]. split; [done|].
      split; (eapply at_bytes_out; [eassumption|exact B2|rewrite length_le_split; unfold inside; lia]).
    + intros x Hx. by apply B3, (d_head H).
    + intros x Hx. rewrite Hout; [by apply (d_map H)|]. intros Hi. by eapply (d_sep H).
    + intros Hal. eapply at_bytes_same; [by apply Hv|intros x b Hx Hb; rewrite Hout; [exact Hb|exact Hx]|].
      intros x Hx Hi. eapply (d_sep H); [exact Hi|]. split; [done|]. unfold inside in *. nia.
  - split; cbn; [auto|by left|auto|done].
Qed.

(** The elements move to a new block and the old one is freed. *)
Lemma grow_move_wp s a k cnt al q l n v m1 (Q : unit -> mstate -> Prop) :
  0 < k < 2 ^ 50 -> dyn_ok s a k cnt al q l -> al < n < 2 ^ 14 ->
  0 < v -> v + k * n <= ADDR_END -> unused s v (k * n) ->
  (forall x, inside v (k * n) x -> is_Some (m1 !! x)) -> (forall x, ~ inside v (k * n) x -> m1 !! x = bytes s !! x) ->
  (forall s', dyn_at (bytes s') a cnt al q -> at_bytes (bytes s') v l -> mapped (bytes s') (inside v (k * n)) ->
     blocks s' = <[v := k * n]> (others s al q) ->
     (forall x, ~ inside v (k * n) x -> ~ region k al q x -> bytes s' !! x = bytes s !! x) ->
     wp (set_values a v ;; set_allocated a n ;; cret 0) s' (fun r s2 => Q tt s2 /\ r = 0)) ->
  wp (do count <- get_count a;
      (when 0 <? count then do values <- get_values a; memcpy v values (u64 (k * count))) ;;
      (when 0 <? al then do values <- get_values a; aosl_free values) ;;
      set_values a v ;; set_allocated a n ;; cret 0)
    (MkM m1 (<[v := k * n]> (blocks s)) (psbs s) (errno s)) (fun r s2 => Q tt s2 /\ r = 0).
Proof.
  intros Hk H Hn Hv Hend [U1 [U2 U3]] M1 M2 HQ. destruct (d_at H) as (Hcnt & Hal & Hq & _).
  assert (forall x, is_Some (bytes s !! x) -> ~ inside v (k * n) x) as Hold.
  { intros x [b Hb] Hi. rewrite U1 in Hb; done. }
  assert (forall x, region k al q x -> ~ inside v (k * n) x) as Hreg by (intros x Hx; by apply Hold, (d_map H)).
  assert (dyn_at m1 a cnt al q) as D1.
  { eapply dyn_at_same; [exact (d_at H)|]. intros x b _ Hb. rewrite M2; [done|]. apply Hold. by rewrite Hb. }
  destruct D1 as (_ & _ & _ & A1 & A2 & A3).
  apply wp_bind. eapply load16_wp; [exact A1|lia|].
  (* the copy *)
  apply wp_bind. eapply (wp_mono _ _ (fun _ s2 => exists m2, s2 = MkM m2 (<[v := k * n]> (blocks s)) (psbs s) (errno s) /\
    at_bytes m2 v l /\ (forall x, ~ inside v (k * n) x -> m2 !! x = bytes s !! x) /\ mapped m2 (inside v (k * n)))).
  { destruct (Z.ltb_spec 0 cnt) as [Hc|Hc].
    - apply wp_bind. eapply load_ptr_wp; [exact A3|lia|]. rewrite wrapu_id by nia.
      assert (k * cnt <= k * n) as Hle by nia.
      apply (memcpy_wp _ _ _ _ l).
      + cbn. eapply (at_bytes_same (region k al q)); [apply (d_val H); lia| |].
        * intros x b Hx Hb. rewrite M2; [done|]. by apply Hreg.
        * intros x Hx. split; [lia|]. pose proof (d_len H). unfold inside in *. nia.
      + apply (d_len H).
      + intros x Hx. apply M1. unfold inside in *. lia.
      + intros m2 B1 B2. exists m2. split; [done|]. split; [done|]. split.
        * intros x Hx. cbn in B2. rewrite B2 by (unfold inside in *; lia). by apply M2.
        * intros x Hx. destruct (decide (inside v (k * cnt) x)) as [Hi|Hi]; [apply (at_bytes_mapped _ _ _ B1); by rewrite (d_len H)|].
          rewrite B2 by done. by apply M1.
    - apply wp_ret. exists m1. split; [done|]. assert (cnt = 0) as -> by lia.
      assert (l = []) as -> by (apply nil_length_inv; pose proof (d_len H); lia). split; [apply at_bytes_nil|]. done. }
  cbn beta. intros _ s2 (m2 & -> & V & M & Mp).
  assert (dyn_at m2 a cnt al q) as D2.
  { eapply dyn_at_same; [exact (d_at H)|]. intros x b _ Hb. rewrite M; [done|]. apply Hold. by rewrite Hb. }
  destruct D2 as (D21 & D22 & D23 & C1 & C2 & C3).
  (* the free *)
  destruct (Z.ltb_spec 0 al) as [Hpos|Hpos].
  - apply wp_bind. apply wp_bind. eapply load_ptr_wp; [exact C3|lia|].
    destruct (d_block H Hpos) as [Hq0 Hqb]. assert (q <> v) as Hqv by (intros ->; congruence).
    unfold wp at 1, aosl_free. destruct (Z.eqb_spec q 0); [lia|]. cbn [blocks bytes psbs errno].
    rewrite lookup_insert_ne, Hqb by done.
    assert (forall x, ~ region k al q x -> free_bytes m2 q (Z.to_nat (k * al)) !! x = m2 !! x) as Hf.
    { intros x Hx. rewrite free_bytes_lookup, decide_False; [done|]. rewrite Z2Nat.id by nia. intros Hi. apply Hx. by split. }
    apply HQ; cbn [blocks bytes psbs errno].
    + eapply dyn_at_same; [exact (d_at H)|]. intros x b Hx Hb. rewrite Hf; [rewrite M; [done|]; apply Hold; by rewrite Hb|].
      intros Hr. by eapply (d_sep H).
    + eapply (at_bytes_same (inside v (k * n))); [exact V| |].
      * intros x b Hx Hb. rewrite Hf; [done|]. intros Hr. by apply (Hreg x).
      * intros x Hx. pose proof (d_len H). unfold inside in *. nia.
    + intros x Hx. rewrite Hf; [by apply Mp|]. intros Hr. by apply (Hreg x).
    + unfold others. destruct (Z.ltb_spec 0 al); [|lia]. by rewrite delete_insert_ne.
    + intros x Hx Hr. rewrite Hf by done. by apply M.
  - apply wp_bind, wp_ret. apply HQ; cbn; [done|done|done| |].
    + unfold others. by destruct (Z.ltb_spec 0 al); [lia|].
    + intros x Hx _. by apply M.
Qed.

(** The header gets the new block and its size. *)
Lemma grow_head_wp s s' a k cnt al q l n v :
  0 < k < 2 ^ 50 -> dyn_ok s a k cnt al q l -> al < n < 2 ^ 14 ->
  0 < v -> v + k * n <= ADDR_END -> unused s v (k * n) ->
  dyn_at (bytes s') a cnt al q -> at_bytes (bytes s') v l -> mapped (bytes s') (inside v (k * n)) ->
  blocks s' = <[v := k * n]> (others s al q) ->
  (forall x, ~ inside v (k * n) x -> ~ region k al q x -> bytes s' !! x = bytes s !! x) ->
  wp (set_values a v ;; set_allocated a n ;; cret 0) s'
    (fun r s2 => (dyn_ok s2 a k cnt n v l /\ dyn_frame s a k al q s2 n v) /\ r = 0).
Proof.
  intros Hk H Hn Hv Hend [U1 [U2 U3]] D V Mp B M. destruct D as (D1 & D2 & D3 & A1 & A2 & A3).
  assert (forall x, inside a 16 x -> ~ inside v (k * n) x) as Hsep.
  { intros x Hx Hi. destruct (d_head H x Hx) as [b Hb]. by rewrite U1 in Hb. }
  unfold set_values, set_allocated, store_ptr, store16, sizeof_pointer.
  apply wp_bind. apply store_head_wp; rewrite ?length_le_split; [lia|lia| |].
  { intros x Hx. apply (at_bytes_mapped _ _ _ A3). by rewrite length_le_split. }
  intros m2 E1 E2 E3. apply wp_bind. apply store_head_wp; rewrite ?length_le_split; [lia|lia| |].
  { cbn. intros x Hx. apply E3. apply (at_bytes_mapped _ _ _ A2). by rewrite length_le_split. }
  cbn [bytes blocks psbs errno]. intros m3 F1 F2 F3. apply wp_ret. split; [|done].
  assert (forall x, ~ inside a 16 x -> m3 !! x = bytes s' !! x) as Hout.
  { intros x Hx. rewrite F2, E2; [done|unfold inside in *; lia..]. }
  split.
  - split; cbn.
    + split; [lia|]. split; [lia|]. split; [unfold ADDR_END in Hend; nia|]. split; [|split; [done|]].
      * eapply at_bytes_out; [eapply at_bytes_out; [exact A1|exact E2|]|exact F2|]; rewrite length_le_split; unfold inside; lia.
      * eapply at_bytes_out; [exact E1|exact F2|]; rewrite length_le_split; unfold inside; lia.
    + intros x Hx. apply F3, E3. rewrite M; [by apply (d_head H)|by apply Hsep|]. intros Hr. by eapply (d_sep H).
    + apply (d_len H).
    + intros _. split; [done|]. by rewrite B, lookup_insert_eq.
    + intros x [_ Hx]. rewrite Hout; [by apply Mp|]. intros Hi. by eapply Hsep.
    + intros _. eapply (at_bytes_same (inside v (k * n))); [exact V| |].
      * intros x b Hx Hb. rewrite Hout; [done|]. intros Hi. by eapply Hsep.
      * intros x Hx. pose proof (d_len H). unfold inside in *. nia.
    + intros x Hx [_ Hi]. by eapply Hsep.
  - split; cbn.
    + intros x Hx Hr Hs. rewrite Hout by done. apply M; [|done]. intros Hi. rewrite U1 in Hs; [by destruct Hs|done].
    + intros x [_ Hx]. right. by apply U1.
    + intros x Hx Hs. apply F3, E3. rewrite M; [done|by apply Hsep|]. intros Hr. by eapply (d_sep H).
    + unfold others at 1. cbn. destruct (Z.ltb_spec 0 n); [|lia]. rewrite B.
      rewrite delete_insert_id; [done|]. unfold others. destruct (0 <? al); [|done].
      destruct (decide (v = q)) as [->|?]; [by rewrite lookup_delete_eq|by rewrite lookup_delete_ne].
Qed.

Lemma dyn_grow_wp fuel s a k cnt al q l needed stride (Q : Z -> mstate -> Prop) :
  0 < k < 2 ^ 50 -> dyn_ok s a k cnt al q l -> 0 < stride <= 16 -> needed <= 10240 -> 10240 <= Z.of_nat fuel ->
  (al < needed -> no_memory -> Q (- AOSL_ENOMEM) s) ->
  (forall s' al' q', dyn_ok s' a k cnt al' q' l -> needed <= al' -> dyn_frame s a k al q s' al' q' -> Q 0 s') ->
  wp (dyn_grow fuel a k needed stride) s Q.
Proof.
  intros Hk H Hst Hn Hf Q1 Q2. destruct (d_at H) as (Hcnt & Hal & _). unfold dyn_grow.
  apply wp_bind. eapply get_allocated_wp; [done|]. apply wp_bind. apply grow_loop_wp; [lia..|].
  intros n Hr Hnr Heq. destruct (Z.ltb_spec al n) as [Hlt|Hge].
  2: { apply wp_ret. apply (Q2 s al q); [done|lia|apply frame_refl]. }
  assert (n < 2 ^ 14) as Hn14 by lia.
  rewrite wrapu_id by nia. apply wp_bind. apply aosl_malloc_cases_wp; [nia| |].
  { intros Hz. apply wp_ret. apply Q1; [lia|]. by eexists _, _. }
  intros v m1 Hv Hend Hu M1 M2. destruct (Z.eqb_spec v 0); [lia|].
  eapply wp_mono; [eapply (grow_move_wp s a k cnt al q l n v m1 (fun _ s2 => dyn_ok s2 a k cnt n v l /\ dyn_frame s a k al q s2 n v)); try done|].
  - intros s' D V Mp B M. by eapply grow_head_wp.
  - cbn beta. intros r s2 [[O F] ->]. by apply (Q2 s2 n v).
Qed.

Lemma dyn_append_wp s a k cnt al q l elems n d (Q : unit -> mstate -> Prop) :
  0 < k < 2 ^ 50 -> dyn_ok s a k cnt al q l -> 0 <= n -> cnt + n <= al -> cnt + n <= 10240 ->
  at_bytes (bytes s) elems d -> Z.of_nat (length d) = k * n ->
  (forall s', dyn_ok s' a k (cnt + n) al q (l ++ d) -> dyn_frame s a k al q s' al q -> Q tt s') ->
  wp (dyn_append a elems k n) s Q.
Proof.
  intros Hk H Hn Hle Hmax Hd Hld HQ. destruct (d_at H) as (Hcnt & Hal & Hq & _). unfold dyn_append.
  destruct (Z.ltb_spec 0 n) as [Hpos|Hz].
  2: { apply wp_ret. assert (n = 0) as -> by lia. assert (d = []) as -> by (apply nil_length_inv; lia).
       apply HQ; [|apply frame_refl]. by rewrite app_nil_r, Z.add_0_r. }
  apply wp_bind. eapply get_count_wp; [done|]. apply wp_bind. eapply get_values_wp; [done|].
  rewrite !wrapu_id by nia. assert (k * (cnt + n) <= k * al) as Hka by nia. assert (0 <= k * cnt) as Hkc by nia.
  assert (forall x, inside (q + k * cnt) (k * n) x -> region k al q x) as Hin.
  { intros x Hx. split; [lia|]. unfold inside in *. lia. }
  apply wp_bind. apply (memcpy_wp _ _ _ _ d); [done|done| |].
  { intros x Hx. by apply (d_map H), Hin. }
  intros m' A1 A2. set (s1 := MkM m' _ _ _). assert (mapped m' (region k al q)) as Hmap.
  { intros x Hx. destruct (decide (inside (q + k * cnt) (k * n) x)) as [Hi|Hi]; [apply (at_bytes_mapped _ _ _ A1); by rewrite Hld|].
    rewrite A2 by done. by apply (d_map H). }
  assert (at_bytes m' q l) as Hl.
  { eapply at_bytes_out; [apply (d_val H); lia|exact A2|]. rewrite (d_len H). unfold inside. lia. }
  assert (forall x, ~ region k al q x -> m' !! x = bytes s !! x) as Hout by (intros x Hx; apply A2; by intros Hi%Hin).
  assert (dyn_ok s1 a k cnt al q l) as O1.
  { split; cbn; [|intros x Hx; rewrite Hout; [by apply (d_head H)|intros Hr; by eapply (d_sep H)]
      |apply (d_len H)|apply (d_block H)|done|done|apply (d_sep H)].
    eapply dyn_at_same; [exact (d_at H)|]. intros x b Hx Hb. rewrite Hout; [done|]. intros Hr. by eapply (d_sep H). }
  assert (dyn_frame s a k al q s1 al q) as F1.
  { split; cbn; [intros x _ Hr _; by apply Hout|by left|intros x Hx Hs; rewrite Hout; [done|intros Hr; by eapply (d_sep H)]|done]. }
  eapply (set_count_wp s1 a k cnt al q l (cnt + n) (l ++ d)); [lia|done|lia| | |].
  - rewrite length_app, Nat2Z.inj_add, (d_len H), Hld. lia.
  - intros _. apply at_bytes_app. split; [done|]. by rewrite (d_len H).
  - intros s' O2 F2 _. apply HQ; [done|]. eapply frame_trans; [exact F1|exact F2|apply (d_sep O2)].
Qed.

(** What the array does not occupy. *)
Definition clear_of (a k al q b n : Z) : Prop := forall x, inside b n x -> ~ inside a 16 x /\ ~ region k al q x.

(** Appending: refused when the array would reach its greatest count; otherwise
    done, or refused for want of memory; a refusal changes nothing. *)
Definition appended_to (s : mstate) (a k cnt al q : Z) (l d : list byte) (n slack r : Z) (s' : mstate) : Prop :=
  if 10240 <=? cnt + n then r = - AOSL_E2BIG /\ s' = s
  else (r = - AOSL_ENOMEM /\ s' = s /\ al < cnt + n + slack /\ no_memory) \/
       (r = 0 /\ exists al' q', dyn_ok s' a k (cnt + n) al' q' (l ++ d) /\ dyn_frame s a k al q s' al' q' /\ cnt + n + slack <= al').

Lemma add_elems_wp fuel s a k cnt al q l elems n d :
  0 < k < 2 ^ 50 -> dyn_ok s a k cnt al q l -> 0 <= n < 2 ^ 64 -> 10240 <= Z.of_nat fuel ->
  at_bytes (bytes s) elems d -> Z.of_nat (length d) = k * n -> clear_of a k al q elems (k * n) ->
  wp (aosl_dynamic_array_add_elems fuel a elems k n) s (appended_to s a k cnt al q l d n 0).
Proof.
  intros Hk H Hn Hf Hd Hld Hc. destruct (d_at H) as (Hcnt & Hal & _). unfold aosl_dynamic_array_add_elems, appended_to, DYNAMIC_ARRAY_MAX_COUNT.
  apply wp_bind. eapply get_count_wp; [done|].
  destruct (Z.leb_spec 10240 cnt), (Z.leb_spec 10240 (cnt + n)); try lia; try (by apply wp_ret);
    (destruct (Z.leb_spec 10240 n); [try lia; by apply wp_ret|]); rewrite (wrapu_id 64) by lia;
    (destruct (Z.leb_spec 10240 (n + cnt)); [try lia; by apply wp_ret|]); [lia|].
  rewrite wrapu_id by lia. unfold DYNAMIC_ARRAY_GROW_STRIDE. apply wp_bind.
  eapply dyn_grow_wp; [done|done|lia|lia|done| |].
  - intros Hlt Hno. apply wp_ret. left. split; [done|]. split; [done|]. split; [lia|done].
  - intros s1 al1 q1 O1 Hle F1. cbn [Z.ltb Z.compare]. apply wp_bind. eapply dyn_append_wp; [done|exact O1|lia|lia|lia| |done|].
    + eapply frame_at; [exact F1|exact Hd|]. by rewrite Hld.
    + intros s2 O2 F2. apply wp_ret. right. split; [done|]. exists al1, q1. split; [done|]. split; [|lia].
      eapply frame_trans; [exact F1|exact F2|apply (d_sep O2)].
Qed.

(** A write of one byte into the block behind the elements. *)
Lemma terminate_wp s a cnt al q l :
  dyn_ok s a 1 cnt al q l -> cnt < al ->
  wp (do values <- get_values a; do count <- get_count a; store (values + count) [NUL] ;; cret 0) s
    (fun r s' => r = 0 /\ dyn_ok s' a 1 cnt al q l /\ dyn_frame s a 1 al q s' al q /\ at_bytes (bytes s') q (l ++ [NUL])).
Proof.
  intros H Hlt. destruct (d_at H) as (Hcnt & Hal & Hq & _).
  apply wp_bind. eapply get_values_wp; [done|]. apply wp_bind. eapply get_count_wp; [done|].
  assert (forall x, inside (q + cnt) 1 x -> region 1 al q x) as Hin by (intros x Hx; split; unfold inside in *; lia).
  apply wp_bind. apply store_bytes_wp; [intros x Hx; by apply (d_map H), Hin|]. intros m' A1 A2. apply wp_ret. cbn [length] in A2.
  pose proof (d_len H) as Hlen. assert (at_bytes m' q l) as Hl.
  { eapply at_bytes_out; [apply (d_val H); lia|exact A2|]. unfold inside. lia. }
  assert (forall x, ~ region 1 al q x -> m' !! x = bytes s !! x) as Hout by (intros x Hx; apply A2; by intros Hi%Hin).
  split; [done|]. split; [|split].
  - split; cbn; [|intros x Hx; rewrite Hout; [by apply (d_head H)|intros Hr; by eapply (d_sep H)]
      |done|apply (d_block H)| |done|apply (d_sep H)].
    + eapply dyn_at_same; [exact (d_at H)|]. intros x b Hx Hb. rewrite Hout; [done|]. intros Hr. by eapply (d_sep H).
    + intros x Hx. destruct (decide (inside (q + cnt) 1 x)) as [Hi|Hi]; [by apply (at_bytes_mapped _ _ _ A1)|].
      rewrite A2 by done. by apply (d_map H).
  - split; cbn; [intros x _ Hr _; by apply Hout|by left|intros x Hx Hs; rewrite Hout; [done|intros Hr; by eapply (d_sep H)]|done].
  - cbn. apply at_bytes_app. split; [done|]. replace (Z.of_nat (length l)) with cnt by lia. done.
Qed.

(** [aosl_dynamic_string_strcat] also leaves a NUL behind the string. *)
Definition catenated_to (s : mstate) (a cnt al q : Z) (l d : list byte) (r : Z) (s' : mstate) : Prop :=
  appended_to s a 1 cnt al q l d (Z.of_nat (length d)) 1 r s' /\
  (r = 0 -> exists q', at_bytes (bytes s') (a + 8) (le_split 8 q') /\ at_bytes (bytes s') q' (l ++ d ++ [NUL])).

Lemma strcat_wp fuel s a cnt al q l str d :
  dyn_ok s a 1 cnt al q l -> 10240 <= Z.of_nat fuel -> (length d < fuel)%nat ->
  at_bytes (bytes s) str (d ++ [NUL]) -> NUL ∉ d -> Z.of_nat (length d) < 2 ^ 64 ->
  clear_of a 1 al q str (Z.of_nat (length d) + 1) ->
  wp (aosl_dynamic_string_strcat fuel a str) s (catenated_to s a cnt al q l d).
Proof.
  intros H Hf Hf' Hd Hnul H64 Hc. destruct (d_at H) as (Hcnt & Hal & _).
  unfold aosl_dynamic_string_strcat, catenated_to, appended_to, DYNAMIC_ARRAY_MAX_COUNT. set (n := Z.of_nat (length d)) in *.
  assert (at_bytes (bytes s) str d) as Hd' by (by apply at_bytes_app in Hd as [? _]).
  apply wp_bind. eapply strlen_wp; [exact Hd|done|done|]. fold n. apply wp_bind. eapply get_count_wp; [done|].
  destruct (Z.leb_spec 10240 cnt), (Z.leb_spec 10240 (cnt + n)); try lia; try (by apply wp_ret);
    (destruct (Z.leb_spec 10240 n); [try lia; by apply wp_ret|]); rewrite (wrapu_id 64) by lia;
    (destruct (Z.leb_spec 10240 (n + cnt)); [try lia; by apply wp_ret|]); [lia|].
  rewrite wrapu_id by lia. unfold DYNAMIC_BYTES_GROW_STRIDE. apply wp_bind.
  eapply dyn_grow_wp; [lia|done|lia|lia|done| |].
  - intros Hlt Hno. apply wp_ret. split; [left; split; [done|split; [done|split; [lia|done]]]|done].
  - intros s1 al1 q1 O1 Hle F1. cbn [Z.ltb Z.compare]. apply wp_bind. eapply (dyn_append_wp _ _ 1 _ _ _ _ _ n d); [lia|exact O1|lia|lia|lia| |lia|].
    + eapply frame_at; [exact F1|exact Hd'|]. intros x Hx. apply Hc. fold n in Hx. unfold inside in *. lia.
    + intros s2 O2 F2. eapply wp_mono; [apply (terminate_wp _ _ _ _ _ _ O2); lia|]. cbn beta.
      intros r s3 (-> & O3 & F3 & A). split.
      * right. split; [done|]. exists al1, q1. split; [done|]. split; [|lia].
        eapply frame_trans; [eapply frame_trans; [exact F1|exact F2|apply (d_sep O2)]|exact F3|apply (d_sep O3)].
      * intros _. exists q1. split; [apply (d_at O3)|]. by rewrite <-(assoc_L (++)) in A.
Qed.

(** ** Sequences of operations on bytes and strings *)

(** An operation with the address of its source and the bytes that are there. *)
Inductive dyn_op := OpAdd (p : Z) (d : list byte) | OpCopy (p : Z) (d : list byte) | OpCat (p : Z) (d : list byte) | OpCpy (p : Z) (d : list byte).

Definition op_source (o : dyn_op) : Z * list byte :=
  match o with OpAdd p d | OpCopy p d => (p, d) | OpCat p d | OpCpy p d => (p, d ++ [NUL]) end.

(** The source of a string operation is a C string. *)
Definition op_valid (fuel : nat) (o : dyn_op) : Prop :=
  ((length (op_source o).2 <= fuel)%nat /\ Z.of_nat (length (op_source o).2) < 2 ^ 64) /\
  match o with OpCat _ d | OpCpy _ d => NUL ∉ d | _ => True end.

Definition run_dyn_op (fuel : nat) (a : Z) (o : dyn_op) : CM mstate Z :=
  match o with
  | OpAdd p d => aosl_dynamic_bytes_add_data fuel a p (Z.of_nat (length d))
  | OpCopy p d => aosl_dynamic_bytes_copy_data fuel a p (Z.of_nat (length d))
  | OpCat p _ => aosl_dynamic_string_strcat fuel a p
  | OpCpy p _ => aosl_dynamic_string_strcpy fuel a p
  end.

Fixpoint run_dyn_ops (fuel : nat) (a : Z) (os : list dyn_op) : CM mstate (list Z) :=
  match os with
  | [] => cret []
  | o :: os => do r <- run_dyn_op fuel a o; do rs <- run_dyn_ops fuel a os; cret (r :: rs)
  end.

(** What an operation means on a list of bytes: its result and the new list. *)
Definition dyn_result (o : dyn_op) (l : list byte) (r : Z) (l' : list byte) : Prop :=
  let '(base, d) := match o with OpAdd _ d | OpCat _ d => (l, d) | OpCopy _ d | OpCpy _ d => ([], d) end in
  if 10240 <=? Z.of_nat (length base + length d) then r = - AOSL_E2BIG /\ l' = base
  else (r = - AOSL_ENOMEM /\ l' = base /\ no_memory) \/ (r = 0 /\ l' = base ++ d).

Inductive dyn_results : list dyn_op -> list byte -> list Z -> list byte -> Prop :=
| results_nil l : dyn_results [] l [] l
| results_cons o os l r l1 rs l2 : dyn_result o l r l1 -> dyn_results os l1 rs l2 -> dyn_results (o :: os) l (r :: rs) l2.

Lemma appended_result s a cnt al q l d slack r s' base :
  0 <= slack -> dyn_ok s a 1 cnt al q l -> appended_to s a 1 cnt al q l d (Z.of_nat (length d)) slack r s' ->
  base = l ->
  exists al' q' l', dyn_ok s' a 1 (Z.of_nat (length l')) al' q' l' /\ dyn_frame s a 1 al q s' al' q' /\
    (if 10240 <=? Z.of_nat (length base + length d) then r = - AOSL_E2BIG /\ l' = base
     else (r = - AOSL_ENOMEM /\ l' = base /\ no_memory) \/ (r = 0 /\ l' = base ++ d)).
Proof.
  intros Hs H Ha ->. pose proof (d_len H) as Hlen. unfold appended_to in Ha.
  replace (Z.of_nat (length l + length d)) with (cnt + Z.of_nat (length d)) by lia.
  replace cnt with (Z.of_nat (length l)) in H by lia.
  destruct (Z.leb_spec 10240 (cnt + Z.of_nat (length d))).
  - destruct Ha as [-> ->]. exists al, q, l. split; [done|]. split; [apply frame_refl|done].
  - destruct Ha as [(-> & -> & _ & Hno)|(-> & al' & q' & O & F & _)].
    + exists al, q, l. split; [done|]. split; [apply frame_refl|]. by left.
    + exists al', q', (l ++ d). split; [|split; [done|by right]]. pose proof (d_len O) as E. replace (Z.of_nat (length (l ++ d))) with (cnt + Z.of_nat (length d)) by lia. done.
Qed.

Lemma clear_of_sub a k al q b n n' : clear_of a k al q b n -> n' <= n -> clear_of a k al q b n'.
Proof. intros H Hn x Hx. apply H. unfold inside in *. lia. Qed.

(** [arr->count = 0]. *)
Lemma reset_count_wp s a cnt al q l Q :
  dyn_ok s a 1 cnt al q l ->
  (forall s', dyn_ok s' a 1 0 al q [] -> dyn_frame s a 1 al q s' al q -> Q tt s') -> wp (set_count a 0) s Q.
Proof.
  intros H HQ. destruct (d_at H) as (? & _). eapply (set_count_wp s a 1 cnt al q l 0 []); [lia|done|lia|done| |].
  - intros _. apply at_bytes_nil.
  - intros s' O F _. by apply HQ.
Qed.

Lemma run_dyn_op_wp fuel s a cnt al q l o :
  dyn_ok s a 1 cnt al q l -> 10240 <= Z.of_nat fuel -> op_valid fuel o ->
  at_bytes (bytes s) (op_source o).1 (op_source o).2 ->
  clear_of a 1 al q (op_source o).1 (Z.of_nat (length (op_source o).2)) ->
  wp (run_dyn_op fuel a o) s (fun r s' => exists al' q' l',
    dyn_ok s' a 1 (Z.of_nat (length l')) al' q' l' /\ dyn_frame s a 1 al q s' al' q' /\ dyn_result o l r l').
Proof.
  intros H Hf [Hl Hv] Ha Hc.
  assert (forall s1, dyn_ok s1 a 1 0 al q [] -> dyn_frame s a 1 al q s1 al q -> forall d slack r s',
    appended_to s1 a 1 0 al q [] d (Z.of_nat (length d)) slack r s' -> 0 <= slack -> exists al' q' l',
    dyn_ok s' a 1 (Z.of_nat (length l')) al' q' l' /\ dyn_frame s a 1 al q s' al' q' /\
    (if 10240 <=? Z.of_nat (length (A := byte) [] + length d) then r = - AOSL_E2BIG /\ l' = []
     else (r = - AOSL_ENOMEM /\ l' = [] /\ no_memory) \/ (r = 0 /\ l' = [] ++ d))) as Hreset.
  { intros s1 O1 F1 d slack r s' Hap Hs. destruct (appended_result _ _ _ _ _ _ _ _ _ _ [] Hs O1 Hap eq_refl) as (al' & q' & l' & O & F & R).
    exists al', q', l'. split; [done|]. split; [|done]. eapply frame_trans; [exact F1|exact F|apply (d_sep O)]. }
  destruct o as [p d|p d|p d|p d]; cbn [op_source fst snd run_dyn_op dyn_result] in *.
  - eapply wp_mono; [eapply (add_elems_wp fuel s a 1 cnt al q l p _ d); [lia|done|lia|lia|done|lia|by rewrite Z.mul_1_l]|].
    cbn beta. intros r s' Hap. by apply (appended_result _ _ _ _ _ _ _ 0 _ _ _ ltac:(lia) H Hap).
  - apply wp_bind. eapply reset_count_wp; [done|]. intros s1 O1 F1.
    eapply wp_mono; [eapply (add_elems_wp fuel s1 a 1 0 al q [] p _ d); [lia|done|lia|lia|by eapply frame_at|lia|by rewrite Z.mul_1_l]|].
    cbn beta. intros r s' Hap. by apply (Hreset s1 O1 F1 d 0 r s' Hap).
  - rewrite length_app in *. cbn [length] in *.
    eapply wp_mono; [eapply (strcat_wp fuel s a cnt al q l p d); [done|lia|lia|done|done|lia|eapply clear_of_sub; [exact Hc|lia]]|].
    cbn beta. intros r s' [Hap _]. by apply (appended_result _ _ _ _ _ _ _ 1 _ _ _ ltac:(lia) H Hap).
  - apply wp_bind. eapply reset_count_wp; [done|]. intros s1 O1 F1. pose proof Hc as Hc'. rewrite length_app in Hl, Hc'. cbn [length] in *.
    eapply wp_mono; [eapply (strcat_wp fuel s1 a 0 al q [] p d); [done|lia|lia|by eapply frame_at|done|lia|eapply clear_of_sub; [exact Hc'|lia]]|].
    cbn beta. intros r s' [Hap _]. by apply (Hreset s1 O1 F1 d 1 r s' Hap).
Qed.

Lemma run_dyn_ops_wp fuel a : forall os s cnt al q l,
  dyn_ok s a 1 cnt al q l -> 10240 <= Z.of_nat fuel ->
  (forall o, o ∈ os -> op_valid fuel o /\ at_bytes (bytes s) (op_source o).1 (op_source o).2 /\
     clear_of a 1 al q (op_source o).1 (Z.of_nat (length (op_source o).2))) ->
  wp (run_dyn_ops fuel a os) s (fun rs s' => exists al' q' l',
    dyn_ok s' a 1 (Z.of_nat (length l')) al' q' l' /\ dyn_frame s a 1 al q s' al' q' /\ dyn_results os l rs l').
Proof.
  induction os as [|o os IH]; intros s cnt al q l H Hf Hos; cbn [run_dyn_ops].
  - apply wp_ret. exists al, q, l. pose proof (d_len H). replace (Z.of_nat (length l)) with cnt by lia.
    split; [done|]. split; [apply frame_refl|constructor].
  - destruct (Hos o) as (V & A & C); [set_solver|]. apply wp_bind. eapply wp_mono; [by eapply run_dyn_op_wp|].
    cbn beta. intros r s1 (al1 & q1 & l1 & O1 & F1 & R1). apply wp_bind. eapply wp_mono; [eapply (IH s1); [exact O1|done|]|].
    + intros o' Ho'. destruct (Hos o') as (V' & A' & C'); [set_solver|]. split; [done|]. split; [by eapply frame_at|].
      intros x Hx. split; [by apply C'|]. intros [Hr|Hn]%(f_new F1); [by apply (C' x Hx)|].
      apply (at_bytes_mapped _ _ _ A') in Hx. rewrite Hn in Hx. by destruct Hx.
    + cbn beta. intros rs s2 (al2 & q2 & l2 & O2 & F2 & R2). apply wp_ret. exists al2, q2, l2. split; [done|].
      split; [eapply frame_trans; [exact F1|exact F2|apply (d_sep O2)]|by econstructor].
Qed.

(** C34: a dynamic array of bytes is a list.  Every sequence of
    [aosl_dynamic_bytes_add_data], [aosl_dynamic_bytes_copy_data],
    [aosl_dynamic_string_strcat] and [aosl_dynamic_string_strcpy] on a well-formed
    array, with sources outside it, ends without a fault; each call appends to
    (or replaces) the list, or reports that the list would reach 10240 bytes, or
    that the allocator had no memory; the array ends with exactly the resulting
    list in a block of its own, every block it gave up was freed, and no other
    memory has changed. *)
Theorem dynamic_bytes_history fuel a os s cnt al q l :
  dyn_ok s a 1 cnt al q l -> 10240 <= Z.of_nat fuel ->
  (forall o, o ∈ os -> op_valid fuel o /\ at_bytes (bytes s) (op_source o).1 (op_source o).2 /\
     clear_of a 1 al q (op_source o).1 (Z.of_nat (length (op_source o).2))) ->
  exists rs s' al' q' l', run_dyn_ops fuel a os s = Ret (rs, s') /\ dyn_results os l rs l' /\
    dyn_ok s' a 1 (Z.of_nat (length l')) al' q' l' /\ others s' al' q' = others s al q /\
    (forall x, ~ inside a 16 x -> ~ region 1 al q x -> is_Some (bytes s !! x) -> bytes s' !! x = bytes s !! x).
Proof.
  intros H Hf Hos. destruct (wp_elim _ _ _ (run_dyn_ops_wp fuel a os s cnt al q l H Hf Hos)) as (rs & s' & E & al' & q' & l' & O & F & R).
  exists rs, s', al', q', l'. split; [done|]. split; [done|]. split; [done|]. split; [apply (f_blocks F)|apply (f_bytes F)].
Qed.

(** ** Comparison *)

Lemma compare_bytes_zero : forall l1 l2, length l1 = length l2 -> compare_bytes l1 l2 = 0 <-> l1 = l2.
Proof.
  induction l1 as [|b1 l1 IH]; intros [|b2 l2] Hl; try done. cbn [compare_bytes]. injection Hl as Hl.
  destruct (Z.compare_spec (Byte.byte.unsigned b1) (Byte.byte.unsigned b2)) as [E|E|E].
  - rewrite IH by done. apply (f_equal Byte.byte.of_Z) in E. rewrite !Byte.byte.of_Z_unsigned in E. split; [by intros ->; rewrite E|by intros [= _ ->]].
  - split; [done|]. intros [= -> _]. lia.
  - split; [done|]. intros [= -> _]. lia.
Qed.

(** [aosl_dynamic_bytes_compare] returns 0 exactly for equal contents. *)
Lemma dynamic_bytes_compare_zero s a1 a2 c1 c2 al1 al2 q1 q2 l1 l2 :
  dyn_ok s a1 1 c1 al1 q1 l1 -> dyn_ok s a2 1 c2 al2 q2 l2 ->
  exists r, aosl_dynamic_bytes_compare a1 a2 s = Ret (r, s) /\ (r = 0 <-> l1 = l2).
Proof.
  intros H1 H2. pose proof (d_len H1) as L1. pose proof (d_len H2) as L2.
  assert (forall a c al q l, dyn_ok s a 1 c al q l -> at_bytes (bytes s) q l) as Hv.
  { intros a c al q l H. destruct (decide (0 < al)); [by apply (d_val H)|].
    destruct (dyn_empty s a 1 c al q l ltac:(lia) H ltac:(lia)) as [_ ->]. apply at_bytes_nil. }
  enough (wp (aosl_dynamic_bytes_compare a1 a2) s (fun r s' => s' = s /\ (r = 0 <-> l1 = l2))) as Hw.
  { destruct (wp_elim _ _ _ Hw) as (r & s' & E & -> & Hr). by exists r. }
  unfold aosl_dynamic_bytes_compare.
  apply wp_bind. eapply get_count_wp; [exact H1|]. apply wp_bind. eapply get_count_wp; [exact H2|].
  destruct (Z.eqb_spec c1 c2) as [->|Hne]; cbn [negb].
  - apply wp_bind. eapply get_values_wp; [exact H1|]. apply wp_bind. eapply get_values_wp; [exact H2|]. unfold memcmp.
    apply wp_bind. eapply load_bytes_wp; [by eapply Hv|lia|]. apply wp_bind. eapply load_bytes_wp; [by eapply Hv|lia|].
    apply wp_ret. split; [done|]. apply compare_bytes_zero. lia.
  - apply wp_ret. split; [done|]. split; [intros Hz; exfalso; lia|intros ->; lia].
Qed.

End Dyn.

(** ** Examples *)

Lemma at_bytes_read m a l : read_bytes m a (length l) = Some l -> at_bytes m a l.
Proof. by intros [_ H]%read_bytes_spec. Qed.

(** An empty array at 4096, the bytes "ab" at 8192 and the string "xy" at
    8200. *)
Definition dyn_state : mstate :=
  MkM (alloc_bytes (alloc_bytes ∅ 4096 16 (fun _ => NUL)) 8192 11
        (fun x => if x =? 8192 then Init.Byte.x61 else if x =? 8193 then Init.Byte.x62
                  else if x =? 8200 then Init.Byte.x78 else if x =? 8201 then Init.Byte.x79 else NUL))
    ∅ ∅ 0.

Definition dyn_calls : list dyn_op :=
  [OpAdd 8192 [Init.Byte.x61; Init.Byte.x62]; OpCat 8200 [Init.Byte.x78; Init.Byte.x79];
   OpCopy 8192 [Init.Byte.x61]; OpCpy 8200 [Init.Byte.x78; Init.Byte.x79]].

Lemma dyn_state_ok : dyn_ok dyn_state 4096 1 0 0 0 [].
Proof.
  split; [|intros x Hx; unfold dyn_state; cbn [bytes]; rewrite !alloc_bytes_lookup; repeat case_decide; eauto; done
    |done|lia|intros x [? _]; lia|lia|intros x _ [? _]; lia].
  assert (forall a n, 4096 <= a -> a + Z.of_nat n <= 4112 -> at_bytes (bytes dyn_state) a (replicate n NUL)) as H.
  { intros a n H1 H2 i b Hi. apply lookup_replicate in Hi as [-> Hi]. unfold dyn_state; cbn [bytes].
    rewrite !alloc_bytes_lookup. rewrite decide_False, decide_True by (unfold inside; lia). done. }
  split; [lia|]. split; [lia|]. split; [lia|]. split; [apply (H 4096 2%nat)|split; [apply (H 4098 2%nat)|apply (H 4104 8%nat)]]; lia.
Qed.

Lemma dynamic_bytes_history_witness :
  exists rs s' al' q' l', run_dyn_ops (Z.to_nat 10240) 4096 dyn_calls dyn_state = Ret (rs, s') /\ dyn_results dyn_calls [] rs l' /\
    dyn_ok s' 4096 1 (Z.of_nat (length l')) al' q' l' /\ others s' al' q' = others dyn_state 0 0 /\
    (forall x, ~ inside 4096 16 x -> ~ region 1 0 0 x -> is_Some (bytes dyn_state !! x) -> bytes s' !! x = bytes dyn_state !! x).
Proof.
  apply (dynamic_bytes_history (Z.to_nat 10240) 4096 dyn_calls dyn_state 0 0 0 []); [apply dyn_state_ok|lia|].
  intros o Ho. unfold dyn_calls in Ho. rewrite !elem_of_cons in Ho.
  destruct Ho as [->|[->|[->|[->|Ho]]]]; [| | | |by apply not_elem_of_nil in Ho];
    (split; [split; [split; cbn [op_source snd length app]; lia|try done; not_in_list]|]);
    (split; [apply at_bytes_read; vm_compute; reflexivity|]); intros x Hx; unfold inside, region in *; cbn in *; lia.
Defined.

(** The calls of the example give 0 each and leave the string "xy". *)
Example dynamic_example_run :
  match run_dyn_ops (Z.to_nat 10240) 4096 dyn_calls dyn_state with
  | Ret (rs, s') => (rs, read_bytes (bytes s') 4096 4, blocks s' !! (2 ^ 20 + 8192), size (blocks s'))
  | _ => ([], None, None, 0%nat)
  end = ([0; 0; 0; 0], Some [Init.Byte.x02; NUL; Init.Byte.x14; NUL], Some 20, 1%nat).
Proof. vm_compute. reflexivity. Qed.

(** With a buffer of no bytes [aosl_dynamic_string_strcpy_out] copies 2^64 - 1
    bytes: no memory holds that many. *)
Lemma strcpy_out_no_room buf s a cnt al q l :
  dyn_ok s a 1 cnt al q l -> (exists x, inside q (2 ^ 64 - 1) x /\ bytes s !! x = None) ->
  aosl_dynamic_string_strcpy_out buf 0 a s = Fault.
Proof.
  intros H (x & Hx & Hn). unfold aosl_dynamic_string_strcpy_out.
  destruct (wp_elim _ _ _ (get_count_wp s a 1 cnt al q l (fun c s' => c = cnt /\ s' = s) H (conj eq_refl eq_refl))) as (c & s1 & E & -> & ->).
  destruct (wp_elim _ _ _ (get_values_wp s a 1 cnt al q l (fun c s' => c = q /\ s' = s) H (conj eq_refl eq_refl))) as (v & s1 & E' & -> & ->).
  destruct (d_at H) as (Hc & _). unfold cbind at 1. rewrite E. destruct (Z.leb_spec 0 cnt); [|lia].
  unfold cbind at 1. rewrite E'. change (u64 (0 - 1)) with (2 ^ 64 - 1).
  unfold cbind at 1, memcpy. unfold cbind at 1, load. destruct (read_bytes _ _ _) as [d|] eqn:Er; [|done].
  apply read_bytes_spec in Er as [Hd Ha]. apply at_bytes_mapped in Ha. rewrite Hd in Ha.
  destruct (Ha x) as [b Hb]; [rewrite Z2Nat.id by lia; done|]. congruence.
Qed.
