(* ===== verification/Refs.v ===== *)
(** * References as lists

    The references that threads hold to counted objects are a list; a counter is
    right when it is the number of occurrences.  Addresses that are not in use are
    above all those that are. *)
From S2P Require Import Prelude.

(** How often [q] occurs. *)
Definition occ (q : Z) (l : list Z) : Z := Z.of_nat (length (List.filter (Z.eqb q) l)).

(** The list without one occurrence. *)
Fixpoint drop_one {A} `{EqDecision A} (a : A) (l : list A) : list A :=
  match l with [] => [] | b :: l => if decide (a = b) then l else b :: drop_one a l end.

Lemma occ_nil q : occ q [] = 0.
Proof. done. Qed.
Lemma occ_cons q a l : occ q (a :: l) = (if decide (q = a) then 1 else 0) + occ q l.
Proof. unfold occ. cbn. destruct (Z.eqb_spec q a), (decide (q = a)); cbn [length]; lia || done. Qed.
Lemma occ_nonneg q l : 0 <= occ q l.
Proof. unfold occ. lia. Qed.
Lemma occ_elem q l : q ∈ l <-> 0 < occ q l.
Proof.
  induction l as [|a l IH]; [rewrite occ_nil, elem_of_nil; lia|]. rewrite occ_cons, elem_of_cons, IH. pose proof (occ_nonneg q l).
  destruct (decide (q = a)); [subst|]; split; try lia; try tauto.
Qed.
Lemma occ_drop q a l : a ∈ l -> occ q (drop_one a l) = occ q l - (if decide (q = a) then 1 else 0).
Proof.
  induction l as [|b l IH]; [by intros ?%elem_of_nil|]. intros Ha. cbn [drop_one]. destruct (decide (a = b)) as [->|Hne]; rewrite !occ_cons; [lia|].
  apply elem_of_cons in Ha as [?|Ha]; [done|]. rewrite IH by done. lia.
Qed.
Lemma drop_one_sub {A} `{EqDecision A} (a b : A) l : b ∈ drop_one a l -> b ∈ l.
Proof. induction l as [|c l IH]; [done|]. cbn. destruct (decide (a = c)); set_solver. Qed.
Lemma occ_app q l1 l2 : occ q (l1 ++ l2) = occ q l1 + occ q l2.
Proof. induction l1 as [|a l1 IH]; [done|]. cbn [app]. rewrite !occ_cons, IH. lia. Qed.
Lemma occ_zero q l : q ∉ l -> occ q l = 0.
Proof. rewrite occ_elem. pose proof (occ_nonneg q l). lia. Qed.
Lemma drop_one_perm {A} `{EqDecision A} (a : A) l : a ∈ l -> l ≡ₚ a :: drop_one a l.
Proof.
  induction l as [|b l IH]; [by intros ?%elem_of_nil|]. intros Ha. cbn. destruct (decide (a = b)) as [->|Hn]; [done|].
  apply elem_of_cons in Ha as [?|Ha]; [done|]. rewrite Permutation_swap. f_equiv. by apply IH.
Qed.

(** The greatest value of [f] on a map, and an address that is not in use. *)
Definition max_of {A} (f : Z -> A -> Z) (m : gmap Z A) : Z := map_fold (fun k x r => Z.max (f k x) r) 0 m.
Lemma max_of_ge {A} (f : Z -> A -> Z) (m : gmap Z A) : 0 <= max_of f m /\ forall k x, m !! k = Some x -> f k x <= max_of f m.
Proof.
  unfold max_of. apply (map_fold_weak_ind (fun r m => 0 <= r /\ forall k x, m !! k = Some x -> f k x <= r)); [split; [done|]; by intros ? ?|].
  intros k x m' r E [H0 IH]. split; [lia|]. intros k' x'. destruct (decide (k' = k)) as [->|Hn]; [rewrite lookup_insert_eq; intros [= <-]; lia|].
  rewrite lookup_insert_ne by done. intros E'. apply IH in E'. lia.
Qed.
Lemma max_of_fresh {A} (m : gmap Z A) k : max_of (fun k _ => k) m < k -> m !! k = None.
Proof. intros Hk. destruct (m !! k) as [x|] eqn:E; [|done]. destruct (max_of_ge (fun k _ => k) m) as [_ Ht]. apply Ht in E. lia. Qed.
