(* ===== verification/Mpqp.v ===== *)
(** * Pools of queues: [kernel/mpqp.c]

    A pool is an array of queues that grows when all its queues are busy and
    shrinks when they are idle.  Functions are queued to the queue with the
    fewest functions; queues can also be lent for dedicated use
    ([aosl_mpq_alloc]); a function can be queued so that it runs when all the
    queues have run what they had ([aosl_mpqp_pool_tail_queue]).

    The queues themselves ([MpqProto]) are seen as their list of functions: what
    is queued goes to the tail, the thread of the queue runs the head.  What is
    used of the rest of the system is the interface [PoolEnv]: the creation of a
    queue, the allocator, and whether a queue has room. *)
From S2P Require Import Prelude.
#[local] Open Scope aosl_scope.

Definition MPQP_MAX_SIZE : Z := 65536.
Definition MPQ_MAX_SIZE : Z := 1000000.
Definition MPQ_ARGC_MAX : Z := 64.
Definition AOSL_THRD_PRI_HIGH : Z := 3.
Definition AOSL_MPQ_FLAG_SIGP_EVENT : Z := 2.
Definition AOSL_MPQ_FLAG_DESTROY_NOT_ALLOWED : Z := 0x80000000.

(** ** Data *)

Record pool_entry := MkEnt { e_q : Z; e_usage : Z }.
Record mpq_pool := MkPool {
  pool_size : Z;
  pool_entries : list pool_entry;
  q_count : Z;
  q_pri : Z;
  q_max : Z;
  q_max_idles : Z;
  q_flags : Z;
  q_stack_size : Z
}.

(** A function in a queue: one of the users', or [____each_pool_promise_f] with
    its counter and the function and done queue it stands for. *)
Inductive job := JUser (id : Z) | JPromise (count_p f done_qid : Z).

(** What a pool sees of a queue: its handle, [count], [usage], [terminated], its
    functions, the number of entries in its list of those that wait for its
    end, and the number of functions it has run. *)
Record pq := MkPq {
  pq_qid : Z;
  pq_count : Z;
  pq_usage : Z;
  pq_terminated : bool;
  pq_jobs : list job;
  pq_waits : Z;
  pq_execs : Z
}.

(** What the queues have done: a function of a user run by a queue; the function
    of a tail request run, with the counter of the request, and passed on to its
    done queue or run again only to free. *)
Inductive pevent := EvRun (q id : Z) | EvTail (q count_p f : Z) | EvDone (done_qid f : Z) | EvFree (f : Z).

(** The pools and queues by address, the counters of tail requests, the four
    pools of the system, [aosl_errno], the number of requests made to the
    environment, and what the queues have done. *)
Record pworld := MkPw {
  pw_pools : gmap Z mpq_pool;
  pw_queues : gmap Z pq;
  pw_counters : gmap Z Z;
  cpu_pool : Z;
  gpu_pool : Z;
  gen_pool : Z;
  ltw_pool : Z;
  pw_errno : Z;
  pw_tick : Z;
  pw_log : list pevent
}.

Definition set_pools (x : gmap Z mpq_pool) (w : pworld) : pworld :=
  MkPw x (pw_queues w) (pw_counters w) (cpu_pool w) (gpu_pool w) (gen_pool w) (ltw_pool w) (pw_errno w) (pw_tick w) (pw_log w).
Definition set_pqueues (x : gmap Z pq) (w : pworld) : pworld :=
  MkPw (pw_pools w) x (pw_counters w) (cpu_pool w) (gpu_pool w) (gen_pool w) (ltw_pool w) (pw_errno w) (pw_tick w) (pw_log w).
Definition set_counters (x : gmap Z Z) (w : pworld) : pworld :=
  MkPw (pw_pools w) (pw_queues w) x (cpu_pool w) (gpu_pool w) (gen_pool w) (ltw_pool w) (pw_errno w) (pw_tick w) (pw_log w).
Definition set_ltw (x : Z) (w : pworld) : pworld :=
  MkPw (pw_pools w) (pw_queues w) (pw_counters w) (cpu_pool w) (gpu_pool w) (gen_pool w) x (pw_errno w) (pw_tick w) (pw_log w).
Definition set_cpup (x : Z) (w : pworld) : pworld :=
  MkPw (pw_pools w) (pw_queues w) (pw_counters w) x (gpu_pool w) (gen_pool w) (ltw_pool w) (pw_errno w) (pw_tick w) (pw_log w).
Definition set_gpup (x : Z) (w : pworld) : pworld :=
  MkPw (pw_pools w) (pw_queues w) (pw_counters w) (cpu_pool w) x (gen_pool w) (ltw_pool w) (pw_errno w) (pw_tick w) (pw_log w).
Definition set_genp (x : Z) (w : pworld) : pworld :=
  MkPw (pw_pools w) (pw_queues w) (pw_counters w) (cpu_pool w) (gpu_pool w) x (ltw_pool w) (pw_errno w) (pw_tick w) (pw_log w).
Definition set_perr (x : Z) (w : pworld) : pworld :=
  MkPw (pw_pools w) (pw_queues w) (pw_counters w) (cpu_pool w) (gpu_pool w) (gen_pool w) (ltw_pool w) x (pw_tick w) (pw_log w).
Definition tick (w : pworld) : pworld :=
  MkPw (pw_pools w) (pw_queues w) (pw_counters w) (cpu_pool w) (gpu_pool w) (gen_pool w) (ltw_pool w) (pw_errno w) (pw_tick w + 1) (pw_log w).
Definition logw (e : pevent) (w : pworld) : pworld :=
  MkPw (pw_pools w) (pw_queues w) (pw_counters w) (cpu_pool w) (gpu_pool w) (gen_pool w) (ltw_pool w) (pw_errno w) (pw_tick w) (pw_log w ++ [e]).

(** What the pools use of the system.  A queue is created ([__mpq_create]), with
    an address and a handle that no queue has, or an error; [aosl_malloc] gives a
    new address or NULL; a queue takes a function ([____add_f]) or has an error;
    a done queue is there or not; a function is invoked with its object, or only to
    free what it has, when the object is destroyed or the queue is at its end. *)
Class PoolEnv := {
  env_create : pworld -> Z + Z * Z;
  env_malloc : pworld -> Z;
  env_room : pworld -> Z -> Z;
  env_done : pworld -> Z -> bool;
  env_free_only : pworld -> bool;
  env_create_ok : forall w q id, env_create w = inr (q, id) ->
    0 < q /\ pw_queues w !! q = None /\ 0 < id /\ forall q' x, pw_queues w !! q' = Some x -> pq_qid x <> id;
  env_create_err : forall w e, env_create w = inl e -> 0 < e <= 4095;
  env_malloc_ok : forall w, env_malloc w <> 0 ->
    0 < env_malloc w /\ pw_pools w !! env_malloc w = None /\ pw_counters w !! env_malloc w = None;
  env_room_ok : forall w q, env_room w q <= 0
}.

Section Pools.
Context `{PoolEnv}.

Definition modp (f : pworld -> pworld) : CM pworld unit := do w <- cget; cput (f w).
Definition failp (e : Z) : CM pworld Z := modp (set_perr e) ;; cret (-1).

(** ** Queues *)

Definition get_q (q : Z) : CM pworld pq :=
  do w <- cget; match pw_queues w !! q with Some x => cret x | None => cfault end.
Definition put_q (q : Z) (x : pq) : CM pworld unit :=
  do _ <- get_q q; modp (fun w => set_pqueues (<[q := x]> (pw_queues w)) w).

Definition add_usage (d : Z) (x : pq) : pq := MkPq (pq_qid x) (pq_count x) (pq_usage x + d) (pq_terminated x) (pq_jobs x) (pq_waits x) (pq_execs x).
Definition add_count (d : Z) (x : pq) : pq := MkPq (pq_qid x) (pq_count x + d) (pq_usage x) (pq_terminated x) (pq_jobs x) (pq_waits x) (pq_execs x).
Definition add_wait (x : pq) : pq := MkPq (pq_qid x) (pq_count x) (pq_usage x) (pq_terminated x) (pq_jobs x) (pq_waits x + 1) (pq_execs x).
Definition terminate (x : pq) : pq := MkPq (pq_qid x) (pq_count x) (pq_usage x) true (pq_jobs x) (pq_waits x) (pq_execs x).
Definition add_job (j : job) (x : pq) : pq := MkPq (pq_qid x) (pq_count x + 1) (pq_usage x) (pq_terminated x) (pq_jobs x ++ [j]) (pq_waits x) (pq_execs x).

Definition mod_q (q : Z) (f : pq -> pq) : CM pworld unit := do x <- get_q q; put_q q (f x).
Definition ____q_get (q : Z) : CM pworld unit := mod_q q (add_usage 1).
Definition ____q_put (q : Z) : CM pworld unit := mod_q q (add_usage (-1)).
Definition __mpq_add_wait (q : Z) : CM pworld unit := mod_q q add_wait.
Definition __mpq_destroy (q : Z) : CM pworld unit := mod_q q terminate.

(** A queue that starts, or NULL and [aosl_errno]. *)
Definition __mpq_create : CM pworld Z :=
  do w <- cget;
  modp tick ;;
  match env_create w with
  | inl e => modp (set_perr e) ;; cret 0
  | inr (q, id) => modp (fun w => set_pqueues (<[q := MkPq id 0 0 false [] 0 0]> (pw_queues w)) w) ;; cret q
  end.

(** [__mpq_queue_args], [__mpq_queue_argv], [__mpq_queue_data], [__mpq_call_*] and
    the two that do not fail. *)
Definition __mpq_queue (q : Z) (no_fail : bool) (j : job) : CM pworld Z :=
  do w <- cget;
  modp tick ;;
  let r := if no_fail then 0 else env_room w q in
  if r =? 0 then mod_q q (add_job j) ;; cret 0 else failp (- r).

(** ** Entries *)

Definition get_pool (qp : Z) : CM pworld mpq_pool :=
  do w <- cget; match pw_pools w !! qp with Some p => cret p | None => cfault end.
Definition put_pool (qp : Z) (p : mpq_pool) : CM pworld unit :=
  do _ <- get_pool qp; modp (fun w => set_pools (<[qp := p]> (pw_pools w)) w).
Definition entry_at (p : mpq_pool) (i : Z) : CM pworld pool_entry :=
  if i <? 0 then cfault else match pool_entries p !! Z.to_nat i with Some e => cret e | None => cfault end.
Definition set_entries (l : list pool_entry) (n : Z) (p : mpq_pool) : mpq_pool :=
  MkPool (pool_size p) l n (q_pri p) (q_max p) (q_max_idles p) (q_flags p) (q_stack_size p).
Definition set_entry (i : Z) (e : pool_entry) (n : Z) (p : mpq_pool) : mpq_pool :=
  set_entries (<[Z.to_nat i := e]> (pool_entries p)) n p.

(** The loop of [__mpqp_find_best_q_locked]: [n] more entries from [i]. *)
Fixpoint find_best_q (p : mpq_pool) (n : nat) (i best : Z) : CM pworld Z :=
  match n with
  | O => cret best
  | S n =>
    do entry <- entry_at p i;
    let q := e_q entry in
    do better <- (if best =? 0 then cret true else do x <- get_q q; do b <- get_q best; cret (pq_count x <? pq_count b));
    find_best_q p n (i + 1) (if better then q else best)
  end.
Definition __mpqp_find_best_q_locked (p : mpq_pool) : CM pworld Z := find_best_q p (Z.to_nat (q_count p)) 0 0.

(** An entry by its index; [-1] for NULL. *)
Fixpoint find_best_entry (p : mpq_pool) (n : nat) (i best : Z) : CM pworld Z :=
  match n with
  | O => cret best
  | S n =>
    do entry <- entry_at p i;
    do better <- (if best <? 0 then cret true else do b <- entry_at p best; cret (e_usage entry <? e_usage b));
    find_best_entry p n (i + 1) (if better then i else best)
  end.
Definition __mpqp_find_best_alloc_entry_locked (p : mpq_pool) : CM pworld Z := find_best_entry p (Z.to_nat (q_count p)) 0 (-1).

Fixpoint find_entry_qid (p : mpq_pool) (qid : Z) (n : nat) (i : Z) : CM pworld Z :=
  match n with
  | O => cret (-1)
  | S n =>
    do entry <- entry_at p i;
    do x <- get_q (e_q entry);
    if pq_qid x =? qid then cret i else find_entry_qid p qid n (i + 1)
  end.
Definition __mpqp_find_entry_with_qid_locked (p : mpq_pool) (qid : Z) : CM pworld Z :=
  find_entry_qid p qid (Z.to_nat (q_count p)) 0.

(** A new queue in the next entry: its index, or an error. *)
Definition __pool_create_add_mpq_locked (qp : Z) : CM pworld (Z + Z) :=
  do q <- __mpq_create;
  if q =? 0 then do w <- cget; cret (inl (- pw_errno w)) else
  do p <- get_pool qp;
  do entry <- entry_at p (q_count p);
  if negb (e_q entry =? 0) || negb (e_usage entry =? 0) then cabort else
  put_pool qp (set_entry (q_count p) (MkEnt q 1) (q_count p + 1) p) ;;
  cret (inr (q_count p)).

(** ** Queueing to the best queue *)

(** The best queue with a reference and a place in its count, or an error. *)
Definition __mpqp_best_q_get (qp : Z) : CM pworld Z :=
  do p <- get_pool qp;
  do q <- __mpqp_find_best_q_locked p;
  do busy <- (if q =? 0 then cret true else do x <- get_q q; cret ((0 <? pq_count x) && (q_count p <? pool_size p)));
  do q <- (if busy then
             do r <- __pool_create_add_mpq_locked qp;
             match r with
             | inl e => cret (if q =? 0 then e else q)
             | inr i => do p <- get_pool qp; do entry <- entry_at p i; cret (e_q entry)
             end
           else cret q);
  (when negb (IS_ERR q) && negb (q =? 0) then (____q_get q ;; mod_q q (add_count 1))) ;;
  cret q.

Definition __mpqp_best_q_put (q : Z) : CM pworld unit := mod_q q (add_count (-1)) ;; ____q_put q.

(** By handle: the queue of the general pool, and giving it back, with the
    reference that [__mpq_get] takes meanwhile. *)
Definition genp_best_q_get : CM pworld Z :=
  do w <- cget;
  do q <- __mpqp_best_q_get (gen_pool w);
  if IS_ERR q || (q =? 0) then cret (-1) else do x <- get_q q; cret (pq_qid x).
Definition q_of_qid (w : pworld) (qid : Z) : option Z :=
  fst <$> List.find (fun '(_, x) => pq_qid x =? qid) (map_to_list (pw_queues w)).
Definition mpqp_best_q_put (qid : Z) : CM pworld Z :=
  do w <- cget;
  match q_of_qid w qid with
  | Some q => ____q_get q ;; __mpqp_best_q_put q ;; ____q_put q ;; cret 0
  | None => cret (-1)
  end.

(** [__mpqp_best_q_queue] and [__mpqp_best_q_call]: the result is the handle of
    the queue. *)
Definition __mpqp_best_q_queue (qp : Z) (no_fail : bool) (j : job) : CM pworld Z :=
  do q <- __mpqp_best_q_get qp;
  if IS_ERR q || (q =? 0) then failp (- q) else
  do err <- __mpq_queue q no_fail j;
  do r <- (if 0 <=? err then do x <- get_q q; cret (pq_qid x) else cret err);
  __mpqp_best_q_put q ;;
  cret r.

(** [aosl_mpqp_queue], [aosl_mpqp_queue_args], [aosl_mpqp_queue_argv] and the
    three [aosl_mpqp_call]s check the number of arguments; [aosl_mpqp_queue_data]
    and [aosl_mpqp_call_data] do not. *)
Definition aosl_mpqp_queue (qp argc : Z) (j : job) : CM pworld Z :=
  if MPQ_ARGC_MAX <? argc then failp AOSL_E2BIG else __mpqp_best_q_queue qp false j.
Definition genp_queue_no_fail_argv (argc : Z) (j : job) : CM pworld Z :=
  if MPQ_ARGC_MAX <? argc then failp AOSL_E2BIG else do w <- cget; __mpqp_best_q_queue (gen_pool w) true j.
Definition aosl_mpqp_queue_data (qp : Z) (j : job) : CM pworld Z := __mpqp_best_q_queue qp false j.

(** ** Lending queues *)

Definition __mpqp_best_entry_get_or_alloc (qp : Z) : CM pworld (Z + Z) :=
  do p <- get_pool qp;
  do i <- __mpqp_find_best_alloc_entry_locked p;
  do more <- (if i <? 0 then cret true else do entry <- entry_at p i; cret ((1 <? e_usage entry) && (q_count p <? pool_size p)));
  do r <- (if more then
             do r <- __pool_create_add_mpq_locked qp;
             match r with
             | inl e => cret (if i <? 0 then inl e else inr i)
             | inr k => cret (inr k)
             end
           else cret (inr i));
  match r with
  | inl e => cret (inl e)
  | inr i =>
    do p <- get_pool qp;
    do entry <- entry_at p i;
    put_pool qp (set_entry i (MkEnt (e_q entry) (u32 (e_usage entry + 1))) (q_count p) p) ;;
    cret (inr i)
  end.

(** [aosl_mpq_alloc]; [entry->q->qid] is read after the lock has been given back. *)
Definition entry_qid (qp i : Z) : CM pworld Z :=
  do p <- get_pool qp;
  do entry <- entry_at p i;
  do x <- get_q (e_q entry);
  cret (pq_qid x).
Definition aosl_mpq_alloc : CM pworld Z :=
  do w <- cget;
  do r <- __mpqp_best_entry_get_or_alloc (gen_pool w);
  match r with
  | inl e => failp (- e)
  | inr i => entry_qid (gen_pool w) i
  end.

Definition mpq_free (qp qid : Z) : CM pworld Z :=
  do p <- get_pool qp;
  do i <- __mpqp_find_entry_with_qid_locked p qid;
  if i <? 0 then failp (- AOSL_EINVAL) else
  do entry <- entry_at p i;
  if 1 <? e_usage entry then
    put_pool qp (set_entry i (MkEnt (e_q entry) (u32 (e_usage entry - 1))) (q_count p) p) ;; cret 0
  else failp (- AOSL_EPERM).
Definition aosl_mpq_free (qid : Z) : CM pworld Z := do w <- cget; mpq_free (gen_pool w) qid.

(** ** Tail requests *)

Fixpoint queue_each (p : mpq_pool) (j : job) (n : nat) (i : Z) : CM pworld unit :=
  match n with
  | O => cret tt
  | S n => do entry <- entry_at p i; do _ <- __mpq_queue (e_q entry) true j; queue_each p j n (i + 1)
  end.

Definition __mpqp_pool_tail_queue_argv (qp done_qid f : Z) : CM pworld Z :=
  do w <- cget;
  let count_p := env_malloc w in
  modp tick ;;
  if count_p =? 0 then cret (-1) else
  modp (fun w => set_counters (<[count_p := 0]> (pw_counters w)) w) ;;
  do p <- get_pool qp;
  do r <- (if q_count p =? 0 then __pool_create_add_mpq_locked qp else cret (inr 0));
  match r with
  | inl e => modp (fun w => set_counters (delete count_p (pw_counters w)) w) ;; failp (- e)
  | inr _ =>
    do p <- get_pool qp;
    modp (fun w => set_counters (<[count_p := q_count p]> (pw_counters w)) w) ;;
    queue_each p (JPromise count_p f done_qid) (Z.to_nat (q_count p)) 0 ;;
    cret 0
  end.
Definition aosl_mpqp_pool_tail_queue (qp done_qid f argc : Z) : CM pworld Z :=
  if MPQ_ARGC_MAX <? argc then failp AOSL_E2BIG else __mpqp_pool_tail_queue_argv qp done_qid f.

(** What the thread of queue [q] does for a tail request: the last one runs the
    function. *)
Definition ____each_pool_promise_f (q count_p f done_qid : Z) : CM pworld unit :=
  do w <- cget;
  match pw_counters w !! count_p with
  | None => cfault
  | Some c =>
    modp (fun w => set_counters (<[count_p := c - 1]> (pw_counters w)) w) ;;
    if c - 1 =? 0 then
      modp (fun w => set_counters (delete count_p (pw_counters w)) w) ;;
      modp (logw (EvTail q count_p f)) ;;
      do w <- cget;
      if (0 <=? done_qid) && negb (env_free_only w) then
        modp tick ;;
        if env_done w done_qid then modp (logw (EvDone done_qid f)) else modp (logw (EvFree f))
      else cret tt
    else cret tt
  end.

(** ** Shrinking *)

(** The locked part of [__mpqp_shrink]: the queue to destroy, if any. *)
Definition shrink_take (qp : Z) : CM pworld Z :=
  do p <- get_pool qp;
  if 1 <? q_count p then
    do entry <- entry_at p (q_count p - 1);
    if e_usage entry =? 0 then cabort else
    if e_usage entry =? 1 then
      put_pool qp (set_entry (q_count p - 1) (MkEnt 0 0) (q_count p - 1) p) ;;
      cret (e_q entry)
    else cret 0
  else cret 0.

Definition destroy_q (q : Z) (wait : bool) : CM pworld unit :=
  (when wait then __mpq_add_wait q) ;; ____q_get q ;; __mpq_destroy q ;; ____q_put q.

(** [__mpqp_shrink] on the thread of [this_q]: the result, and the queue that
    [__mpq_destroy_wait] then waits for, 0 for none. *)
Definition __mpqp_shrink (this_q qp : Z) (wait : bool) : CM pworld (Z * Z) :=
  if qp =? 0 then cret (-1, 0) else
  do q <- shrink_take qp;
  if q =? 0 then do r <- failp AOSL_EPERM; cret (r, 0) else
  let should_wait := wait && negb (this_q =? q) in
  destroy_q q should_wait ;;
  cret (0, if should_wait then q else 0).

(** The loop of [__mpqp_shrink_all]: the queues that are waited for. *)
Fixpoint shrink_each (this_q qp : Z) (wait : bool) (n : nat) (i : Z) : CM pworld (list Z) :=
  match n with
  | O => cret []
  | S n =>
    do p <- get_pool qp;
    do entry <- entry_at p i;
    let q := e_q entry in
    put_pool qp (set_entry i (MkEnt 0 0) (q_count p) p) ;;
    do here <- (if q =? 0 then cret [] else
                let w := wait && negb (this_q =? q) in destroy_q q w ;; cret (if w then [q] else []));
    do rest <- shrink_each this_q qp wait n (i + 1);
    cret (here ++ rest)
  end.
Definition __mpqp_shrink_all (this_q qp : Z) (wait : bool) : CM pworld (list Z) :=
  if qp =? 0 then cret [] else
  do p <- get_pool qp;
  if 0 <? q_count p then
    do l <- shrink_each this_q qp wait (Z.to_nat (q_count p)) 0;
    do p <- get_pool qp;
    put_pool qp (set_entries (pool_entries p) 0 p) ;;
    cret l
  else cret [].

Definition mpqp_shrink_pools (this_q : Z) : CM pworld (list Z) :=
  do w <- cget;
  do a <- __mpqp_shrink_all this_q (cpu_pool w) true;
  do b <- __mpqp_shrink_all this_q (gpu_pool w) true;
  do c <- __mpqp_shrink_all this_q (gen_pool w) true;
  do d <- __mpqp_shrink_all this_q (ltw_pool w) true;
  cret (a ++ b ++ c ++ d).

(** ** The idle timer of a queue *)

Record mpqp_q_idle_stat := MkIdle { idle_counter : Z; last_exec_funcs_count : Z }.

(** [__mpqp_q_init] on the thread of a new queue: the result and the statistics
    that the timer has; [timer_ok] tells whether [aosl_mpq_set_timer] gave a
    timer, [init] is the result of the user's function if there is one. *)
Definition __mpqp_q_init (qp : Z) (timer_ok : bool) (init : option Z) : CM pworld (Z * option mpqp_q_idle_stat) :=
  do p <- get_pool qp;
  let q_init := match init with Some r => r | None => 0 end in
  if 0 <? q_max_idles p then
    do w <- cget;
    modp tick ;;
    if env_malloc w =? 0 then cret (-1, None) else
    if negb timer_ok then cret (-1, None) else cret (q_init, Some (MkIdle 0 0))
  else cret (q_init, None).

(** [__mpqp_q_check_shrink], every second on the thread of each queue of a pool
    with [q_max_idles > 0]: the new statistics and the queues waited for. *)
Definition __mpqp_q_check_shrink (this_q qp : Z) (st : mpqp_q_idle_stat) : CM pworld (mpqp_q_idle_stat * list Z) :=
  do p <- get_pool qp;
  if q_max_idles p <? 0 then cabort else
  do x <- get_q this_q;
  let c := if (pq_execs x =? last_exec_funcs_count st) && (pq_count x =? 0) then s32 (idle_counter st + 1) else 0 in
  let st := MkIdle c (pq_execs x) in
  if 2 * q_max_idles p <=? c then do l <- __mpqp_shrink_all this_q qp true; cret (st, l) else
  if q_max_idles p <=? c then do '(_, q) <- __mpqp_shrink this_q qp true; cret (st, if q =? 0 then [] else [q]) else
  cret (st, []).

(** ** Creation and destruction of pools *)

Definition __mpqp_create (size pri stack_size max max_idles flags : Z) : CM pworld Z :=
  if ((size <? 1) || (MPQP_MAX_SIZE <? size)) || ((max <? 1) || (MPQ_MAX_SIZE <? max)) || ((max_idles =? 0) || (0x7fffffff / 3 <? max_idles))
  then modp (set_perr AOSL_EINVAL) ;; cret 0 else
  do w <- cget;
  let qp := env_malloc w in
  modp tick ;;
  if qp =? 0 then modp (set_perr AOSL_ENOMEM) ;; cret 0 else
  do w <- cget;
  let entries := env_malloc w in
  modp tick ;;
  if entries =? 0 then modp (set_perr AOSL_ENOMEM) ;; cret 0 else
  modp (fun w => set_pools (<[qp := MkPool size (replicate (Z.to_nat size) (MkEnt 0 0)) 0 pri max max_idles flags stack_size]> (pw_pools w)) w) ;;
  cret qp.

Definition LTWP_SIZE : Z := 2.
Definition LTWP_MAX_IDLES : Z := 5.
Definition __mpqp_create_ltw_pool : CM pworld Z :=
  let ltwp_size := if (LTWP_SIZE <? 1) || (64 <? LTWP_SIZE) then 32 else LTWP_SIZE in
  do qp <- __mpqp_create ltwp_size 0 (Z.shiftl 4 10) 100 LTWP_MAX_IDLES AOSL_MPQ_FLAG_SIGP_EVENT;
  modp (set_ltw qp) ;;
  cret (if qp =? 0 then -1 else 0).
(** The three other pools, by the number of processors. *)
Definition pool_cpus (cpus : Z) : Z := if (cpus <? 1) || (MPQP_MAX_SIZE <? cpus) then 1 else cpus.
Definition __mpqp_create_cpu_pool (cpus : Z) : CM pworld Z :=
  do qp <- __mpqp_create (pool_cpus cpus) AOSL_THRD_PRI_HIGH 0 10000 (-1) 0;
  modp (set_cpup qp) ;; cret (if qp =? 0 then -1 else 0).
Definition __mpqp_create_gpu_pool (cpus : Z) : CM pworld Z :=
  do qp <- __mpqp_create (pool_cpus cpus) AOSL_THRD_PRI_HIGH 0 10000 (-1) 0;
  modp (set_gpup qp) ;; cret (if qp =? 0 then -1 else 0).
Definition __mpqp_create_gen_pool (cpus : Z) : CM pworld Z :=
  do qp <- __mpqp_create (pool_cpus cpus * 2) AOSL_THRD_PRI_HIGH 0 10000 (-1) 0;
  modp (set_genp qp) ;; cret (if qp =? 0 then -1 else 0).
Definition k_mpqp_init : CM pworld unit := do r <- __mpqp_create_ltw_pool; if r <? 0 then cabort else cret tt.

Definition aosl_mpqp_destroy (this_q qp : Z) (wait : bool) : CM pworld (list Z) :=
  do l <- __mpqp_shrink_all this_q qp wait;
  do _ <- get_pool qp;
  modp (fun w => set_pools (delete qp (pw_pools w)) w) ;;
  cret l.
Definition k_mpqp_fini (this_q : Z) : CM pworld (list Z) :=
  do w <- cget; do l <- aosl_mpqp_destroy this_q (ltw_pool w) true; modp (set_ltw 0) ;; cret l.

(** ** The thread of a queue *)

(** It runs the function at the head of its list. *)
Definition run_job (q : Z) : CM pworld unit :=
  do x <- get_q q;
  match pq_jobs x with
  | [] => cret tt
  | j :: jobs =>
    put_q q (MkPq (pq_qid x) (pq_count x) (pq_usage x) (pq_terminated x) jobs (pq_waits x) (pq_execs x + 1)) ;;
    match j with
    | JUser id => modp (logw (EvRun q id))
    | JPromise c f d => ____each_pool_promise_f q c f d
    end ;;
    mod_q q (add_count (-1))
  end.

(** A terminated queue ends when it has run all its functions and nobody has a
    reference; those that wait for it go on. *)
Definition exit_queue (q : Z) : CM pworld bool :=
  do x <- get_q q;
  if pq_terminated x && bool_decide (pq_jobs x = []) && (pq_usage x =? 0)
  then modp (fun w => set_pqueues (delete q (pw_queues w)) w) ;; cret true
  else cret false.

End Pools.
