(* ===== verification/MpqpInv.v ===== *)
(** * Pools of queues: interleavings and their invariant

    Any number of threads use one pool: they queue functions, borrow queues,
    make tail requests and shrink the pool, while the threads of the queues run
    the functions, look whether they are idle, and end.  [h_step] is a step of one
    of them between two points where it gives the pool's lock back. *)
From S2P Require Import Prelude Refs Mpqp.
#[local] Open Scope aosl_scope.

(** ** Interleavings *)

(** The state: the world; the queues that threads have a reference to from
    [__mpqp_best_q_get]; the queues that a thread has taken out of the pool and
    not yet destroyed; the queues that the thread of a queue waits for.  A thread
    is named by its queue, 0 stands for the threads without one. *)
Record hst := MkH {
  h_w : pworld;
  h_held : list Z;
  h_taken : list (Z * Z);
  h_waits : list (Z * Z)
}.

Inductive hop :=
| HGet
| HQueue (q : Z) (no_fail : bool) (id : Z)
| HPut (q : Z)
| HAlloc
| HFree (qid : Z)
| HTail (done_qid f : Z)
| HTake (by_q : Z)
| HDestroy (by_q q : Z) (wait : bool)
| HShrinkAll (by_q : Z) (wait : bool)
| HRun (q : Z)
| HExit (q : Z).

Definition known (q : Z) (w : pworld) : bool := match pw_queues w !! q with Some _ => true | None => false end.

(** The thread of queue [q] can go on: it is not in the middle of shrinking the
    pool and what it waited for has ended. *)
Definition h_free (s : hst) (q : Z) : bool :=
  (q =? 0) ||
  (known q (h_w s) && negb (existsb (fun '(b, _) => b =? q) (h_taken s)) && negb (existsb (fun '(b, _) => b =? q) (h_waits s))).

Definition USAGE_MAX : Z := 2 ^ 32 - 1.

Section History.
Context `{PoolEnv} (qp : Z).

Definition h_enabled (op : hop) (s : hst) : bool :=
  match op with
  | HGet | HFree _ | HTail _ _ => true
  | HQueue q _ _ | HPut q => bool_decide (q ∈ h_held s)
  | HAlloc =>
    match pw_pools (h_w s) !! qp with Some p => forallb (fun e => e_usage e <? USAGE_MAX) (pool_entries p) | None => true end
  | HTake b => h_free s b
  | HDestroy b q _ => bool_decide ((b, q) ∈ h_taken s)
  | HShrinkAll b _ => h_free s b
  | HRun q | HExit q => negb (q =? 0) && h_free s q
  end.

Definition on_w {A} (c : CM pworld A) : CM hst A := fun s =>
  match c (h_w s) with
  | Ret (a, w) => Ret (a, MkH w (h_held s) (h_taken s) (h_waits s))
  | Abort => Abort
  | Fault => Fault
  | NoFuel => NoFuel
  end.
Definition modh (f : hst -> hst) : CM hst unit := do s <- cget; cput (f s).

Definition set_held (l : list Z) (s : hst) : hst := MkH (h_w s) l (h_taken s) (h_waits s).
Definition set_taken (l : list (Z * Z)) (s : hst) : hst := MkH (h_w s) (h_held s) l (h_waits s).
Definition add_waits (b : Z) (l : list Z) (s : hst) : hst :=
  if b =? 0 then s else MkH (h_w s) (h_held s) (h_taken s) (map (pair b) l ++ h_waits s).
(** The end of a queue wakes those that wait for it. *)
Definition wake_waits (q : Z) (s : hst) : hst :=
  MkH (h_w s) (h_held s) (h_taken s) (List.filter (fun '(_, a) => negb (a =? q)) (h_waits s)).

Definition h_step (op : hop) : CM hst unit :=
  match op with
  | HGet =>
    do q <- on_w (__mpqp_best_q_get qp);
    when negb (IS_ERR q) && negb (q =? 0) then modh (fun s => set_held (q :: h_held s) s)
  | HQueue q no_fail id => do _ <- on_w (__mpq_queue q no_fail (JUser id)); cret tt
  | HPut q => on_w (__mpqp_best_q_put q) ;; modh (fun s => set_held (drop_one q (h_held s)) s)
  | HAlloc => do _ <- on_w (__mpqp_best_entry_get_or_alloc qp); cret tt (* then [entry_qid] *)
  | HFree qid => do _ <- on_w (mpq_free qp qid); cret tt
  | HTail d f => do _ <- on_w (__mpqp_pool_tail_queue_argv qp d f); cret tt
  | HTake b =>
    do q <- on_w (shrink_take qp);
    when negb (q =? 0) then modh (fun s => set_taken ((b, q) :: h_taken s) s)
  | HDestroy b q wait =>
    let should_wait := wait && negb (b =? q) in
    on_w (destroy_q q should_wait) ;;
    modh (fun s => set_taken (drop_one (b, q) (h_taken s)) s) ;;
    when should_wait then modh (add_waits b [q])
  | HShrinkAll b wait => do l <- on_w (__mpqp_shrink_all b qp wait); modh (add_waits b l)
  | HRun q => on_w (run_job q)
  | HExit q => do ended <- on_w (exit_queue q); when ended then modh (wake_waits q)
  end.

(** A new pool and nothing else. *)
Definition h_start (s : hst) : Prop :=
  exists n, 1 <= n <= MPQP_MAX_SIZE /\ 0 < qp /\
    (exists p, pw_pools (h_w s) !! qp = Some p /\ pool_size p = n /\ q_count p = 0 /\ pool_entries p = replicate (Z.to_nat n) (MkEnt 0 0)) /\
    pw_queues (h_w s) = ∅ /\ pw_counters (h_w s) = ∅ /\ h_held s = [] /\ h_taken s = [] /\ h_waits s = [].

Inductive hreach (s0 : hst) : hst -> Prop :=
| hr_init : hreach s0 s0
| hr_step s op u s' : hreach s0 s -> h_enabled op s = true -> h_step op s = Ret (u, s') -> hreach s0 s'.

(** ** The invariant *)

(** The entries in use, of queues that are there. *)
Definition lives (p : mpq_pool) (L : list pool_entry) : Prop :=
  exists k, pool_entries p = L ++ replicate k (MkEnt 0 0) /\ q_count p = Z.of_nat (length L) /\
    pool_size p = Z.of_nat (length L + k).
Definition qs (L : list pool_entry) : list Z := map e_q L.

Definition live (w : pworld) (q : Z) : Prop := exists x, pw_queues w !! q = Some x /\ pq_terminated x = false.

(** [q] has a promise with counter [c] to run. *)
Definition is_promise (c : Z) (j : job) : bool := match j with JPromise c' _ _ => c' =? c | _ => false end.
Definition promised (c : Z) (js : list job) : nat := length (List.filter (is_promise c) js).
Definition owes (w : pworld) (q c : Z) : Prop := exists x, pw_queues w !! q = Some x /\ promised c (pq_jobs x) = 1%nat.

Record hinv_at (s : hst) (p : mpq_pool) (L : list pool_entry) : Prop := {
  hi_pool : pw_pools (h_w s) !! qp = Some p;
  hi_lives : lives p L;
  hi_size : 1 <= pool_size p;
  hi_usage : Forall (fun e => 1 <= e_usage e < 2 ^ 32) L;
  hi_nodup : NoDup (qs L ++ map snd (h_taken s));
  hi_live : forall q, live (h_w s) q <-> q ∈ qs L ++ map snd (h_taken s);
  hi_queue : forall q x, pw_queues (h_w s) !! q = Some x ->
    0 < q /\ pq_usage x = occ q (h_held s) /\ pq_count x = Z.of_nat (length (pq_jobs x)) + occ q (h_held s);
  hi_held : forall q, q ∈ h_held s -> is_Some (pw_queues (h_w s) !! q);
  hi_once : forall q x c, pw_queues (h_w s) !! q = Some x -> (promised c (pq_jobs x) <= 1)%nat;
  hi_counter : forall c v, pw_counters (h_w s) !! c = Some v ->
    exists l, NoDup l /\ v = Z.of_nat (length l) /\ l <> [] /\ forall q, q ∈ l <-> owes (h_w s) q c;
  hi_promise : forall q c, owes (h_w s) q c -> is_Some (pw_counters (h_w s) !! c)
}.
Definition hinv (s : hst) : Prop := exists p L, hinv_at s p L.

(** ** Reading and writing *)

Lemma get_q_wp w q x Q : pw_queues w !! q = Some x -> Q x w -> wp (get_q q) w Q.
Proof. intros E HQ. unfold wp, get_q. run. by rewrite E. Qed.
Lemma put_q_wp w q x y Q : pw_queues w !! q = Some x -> Q tt (set_pqueues (<[q := y]> (pw_queues w)) w) -> wp (put_q q y) w Q.
Proof. intros E HQ. unfold wp, put_q, get_q, modp. run. by rewrite E. Qed.
Lemma mod_q_wp w q x f Q : pw_queues w !! q = Some x -> Q tt (set_pqueues (<[q := f x]> (pw_queues w)) w) -> wp (mod_q q f) w Q.
Proof. intros E HQ. unfold mod_q. apply wp_bind. eapply get_q_wp; [done|]. by eapply put_q_wp. Qed.
Lemma modp_wp w f Q : Q tt (f w) -> wp (modp f) w Q.
Proof. done. Qed.
Lemma failp_wp w e Q : Q (-1) (set_perr e w) -> wp (failp e) w Q.
Proof. done. Qed.
Lemma get_pool_wp w p a Q : pw_pools w !! a = Some p -> Q p w -> wp (get_pool a) w Q.
Proof. intros E HQ. unfold wp, get_pool. run. by rewrite E. Qed.
Lemma put_pool_wp w p a p' Q : pw_pools w !! a = Some p -> Q tt (set_pools (<[a := p']> (pw_pools w)) w) -> wp (put_pool a p') w Q.
Proof. intros E HQ. unfold wp, put_pool, get_pool, modp. run. by rewrite E. Qed.
Lemma entry_at_wp w p i e Q : pool_entries p !! i = Some e -> Q e w -> wp (entry_at p (Z.of_nat i)) w Q.
Proof. intros E HQ. unfold wp, entry_at. destruct (Z.ltb_spec (Z.of_nat i) 0); [lia|]. rewrite Nat2Z.id, E. done. Qed.

(** The entries of a pool by their position in the list in use. *)
Lemma lives_at p A e B : lives p (A ++ e :: B) -> pool_entries p !! length A = Some e.
Proof. intros (k & -> & _). rewrite <-app_assoc. by apply list_lookup_middle. Qed.
Lemma lives_next p L : lives p L -> q_count p < pool_size p -> pool_entries p !! length L = Some (MkEnt 0 0).
Proof. intros (k & -> & Hc & Hs) Hlt. destruct k as [|k]; [lia|]. cbn. by apply list_lookup_middle. Qed.
Lemma lives_count p L : lives p L -> Z.to_nat (q_count p) = length L /\ q_count p = Z.of_nat (length L) /\ q_count p <= pool_size p.
Proof. intros (k & _ & Hc & Hs). lia. Qed.
Lemma lives_add p L e : lives p L -> q_count p < pool_size p -> lives (set_entry (q_count p) e (q_count p + 1) p) (L ++ [e]).
Proof.
  intros (k & Hl & Hc & Hs) Hlt. destruct k as [|k]; [lia|]. exists k. unfold set_entry, set_entries. cbn. rewrite Hc, Nat2Z.id, Hl.
  split; [|split; [rewrite length_app; cbn; lia|rewrite Hs, length_app; cbn; lia]].
  cbn [replicate]. rewrite insert_app_r_alt by lia. rewrite Nat.sub_diag. by rewrite <-app_assoc.
Qed.
Lemma lives_set p A e B e' : lives p (A ++ e :: B) -> lives (set_entry (Z.of_nat (length A)) e' (q_count p) p) (A ++ e' :: B).
Proof.
  intros (k & Hl & Hc & Hs). exists k. unfold set_entry, set_entries. cbn. rewrite Nat2Z.id, Hl, !length_app in *. cbn in *.
  split; [|done]. rewrite <-!app_assoc. rewrite insert_app_r_alt by lia. by rewrite Nat.sub_diag.
Qed.

(** ** Choosing *)

Definition cnt (w : pworld) (q : Z) : Z := match pw_queues w !! q with Some x => pq_count x | None => 0 end.

Lemma find_best_q_wp w p L (HL : lives p L) (Hq : forall q, q ∈ qs L -> q <> 0 /\ is_Some (pw_queues w !! q)) : forall B A best,
  L = A ++ B -> (A = [] /\ best = 0) \/ (best ∈ qs A /\ forall q, q ∈ qs A -> cnt w best <= cnt w q) ->
  wp (find_best_q p (length B) (Z.of_nat (length A)) best) w (fun q w' => w' = w /\
    ((L = [] /\ q = 0) \/ (q ∈ qs L /\ forall q', q' ∈ qs L -> cnt w q <= cnt w q'))).
Proof.
  induction B as [|e B IH]; intros A best E Hb.
  { apply wp_ret. split; [done|]. rewrite app_nil_r in E. subst. tauto. }
  cbn [find_best_q length]. apply wp_bind. eapply entry_at_wp; [rewrite E in HL; by eapply lives_at|].
  assert (e_q e ∈ qs L) as Hin by (rewrite E; unfold qs; rewrite map_app; set_solver).
  destruct (Hq _ Hin) as [He0 [x Ex]]. replace (Z.of_nat (length A) + 1) with (Z.of_nat (length (A ++ [e]))) by (rewrite length_app; cbn; lia).
  destruct Hb as [[-> ->]|[Hb Hmin]].
  - cbn [Z.eqb]. apply wp_bind, wp_ret. apply IH; [by rewrite <-app_assoc|]. right. cbn. split; [left|].
    intros q [->|?%not_elem_of_nil]%elem_of_cons; done.
  - assert (best ∈ qs L) as Hbl by (rewrite E; unfold qs; rewrite map_app; set_solver).
    destruct (Hq _ Hbl) as [Hb0 [b Eb]]. destruct (Z.eqb_spec best 0); [done|]. apply wp_bind. apply wp_bind. eapply get_q_wp; [done|].
    apply wp_bind. eapply get_q_wp; [done|]. apply wp_ret. apply IH; [by rewrite <-app_assoc|]. right.
    assert (cnt w (e_q e) = pq_count x) as Cx by (unfold cnt; by rewrite Ex). assert (cnt w best = pq_count b) as Cb by (unfold cnt; by rewrite Eb).
    unfold qs in *. rewrite map_app. destruct (Z.ltb_spec (pq_count x) (pq_count b)).
    + split; [set_solver|]. intros q [Hq'|[->|?%not_elem_of_nil]%elem_of_cons]%elem_of_app; [|lia|done]. specialize (Hmin q Hq'). lia.
    + split; [set_solver|]. intros q [Hq'|[->|?%not_elem_of_nil]%elem_of_cons]%elem_of_app; [by apply Hmin|lia|done].
Qed.

Lemma find_best_wp w p L : lives p L -> (forall q, q ∈ qs L -> q <> 0 /\ is_Some (pw_queues w !! q)) ->
  wp (__mpqp_find_best_q_locked p) w (fun q w' => w' = w /\
    ((L = [] /\ q = 0) \/ (q ∈ qs L /\ forall q', q' ∈ qs L -> cnt w q <= cnt w q'))).
Proof.
  intros HL Hq. unfold __mpqp_find_best_q_locked. destruct (lives_count _ _ HL) as (-> & _ & _).
  exact (find_best_q_wp w p L HL Hq L [] 0 eq_refl (or_introl (conj eq_refl eq_refl))).
Qed.

Lemma find_best_entry_wp w p L (HL : lives p L) : forall B A best,
  L = A ++ B -> (A = [] /\ best = -1) \/ (exists i, best = Z.of_nat i /\ (i < length A)%nat) ->
  wp (find_best_entry p (length B) (Z.of_nat (length A)) best) w (fun i w' => w' = w /\
    ((L = [] /\ i = -1) \/ (exists j, i = Z.of_nat j /\ (j < length L)%nat))).
Proof.
  induction B as [|e B IH]; intros A best E Hb.
  { apply wp_ret. split; [done|]. rewrite app_nil_r in E. subst. tauto. }
  cbn [find_best_entry length]. apply wp_bind. eapply entry_at_wp; [rewrite E in HL; by eapply lives_at|].
  replace (Z.of_nat (length A) + 1) with (Z.of_nat (length (A ++ [e]))) by (rewrite length_app; cbn; lia).
  destruct Hb as [[-> ->]|(i & -> & Hi)].
  - cbn [Z.ltb Z.compare]. apply wp_bind, wp_ret. apply IH; [by rewrite <-app_assoc|]. right. exists 0%nat. cbn. lia.
  - destruct (Z.ltb_spec (Z.of_nat i) 0); [lia|]. apply wp_bind. apply wp_bind.
    assert (exists b, pool_entries p !! i = Some b) as [b Eb].
    { destruct HL as (k & Hl & _). rewrite Hl, E, <-app_assoc. destruct (lookup_lt_is_Some_2 A i Hi) as [b Eb]. exists b. by rewrite lookup_app_l. }
    eapply entry_at_wp; [done|]. apply wp_ret. apply IH; [by rewrite <-app_assoc|]. right. rewrite length_app. cbn.
    destruct (_ <? _); eexists; split; [done|lia|done|lia].
Qed.

Lemma find_entry_qid_wp w p L qid (HL : lives p L) (Hq : forall q, q ∈ qs L -> q <> 0 /\ is_Some (pw_queues w !! q)) : forall B A, L = A ++ B ->
  wp (find_entry_qid p qid (length B) (Z.of_nat (length A))) w (fun i w' => w' = w /\ (i = -1 \/ exists j, i = Z.of_nat j /\ (j < length L)%nat)).
Proof.
  induction B as [|e B IH]; intros A E; [apply wp_ret; tauto|].
  cbn [find_entry_qid length]. apply wp_bind. eapply entry_at_wp; [rewrite E in HL; by eapply lives_at|].
  assert (e_q e ∈ qs L) as Hin by (rewrite E; unfold qs; rewrite map_app; set_solver).
  destruct (Hq _ Hin) as [_ [x Ex]]. apply wp_bind. eapply get_q_wp; [done|].
  destruct (_ =? _); [apply wp_ret; split; [done|right; exists (length A); rewrite E, length_app; cbn; split; [done|lia]]|].
  replace (Z.of_nat (length A) + 1) with (Z.of_nat (length (A ++ [e]))) by (rewrite length_app; cbn; lia).
  apply IH. by rewrite <-app_assoc.
Qed.

(** ** The invariant under changes *)

(** It does not depend on the rest of the state. *)
Lemma hinv_same s p L w held waits :
  hinv_at s p L -> pw_pools w !! qp = Some p -> pw_queues w = pw_queues (h_w s) -> pw_counters w = pw_counters (h_w s) -> held = h_held s ->
  hinv_at (MkH w held (h_taken s) waits) p L.
Proof.
  intros [H1 H2 H3 H4 H5 H6 H7 H8 H9 H10 H11] Ep Eq Ec ->.
  assert (forall q c, owes w q c <-> owes (h_w s) q c) as Hw by (intros q c; unfold owes; by rewrite Eq).
  split; cbn; rewrite ?Eq, ?Ec; try done.
  - intros q. rewrite <-H6. unfold live. by rewrite Eq.
  - intros c v E. destruct (H10 c v E) as (l & ? & ? & ? & Hl). exists l. repeat split; try done; intros Hx; [by apply Hw, Hl|by apply Hl, Hw].
  - intros q c Ho. apply (H11 q c). by apply Hw.
Qed.

Lemma live_insert w q y q' : live (set_pqueues (<[q := y]> (pw_queues w)) w) q' <-> (q' = q /\ pq_terminated y = false) \/ (q' <> q /\ live w q').
Proof.
  unfold live. cbn. destruct (decide (q' = q)) as [->|Hne].
  - rewrite lookup_insert_eq. naive_solver.
  - rewrite lookup_insert_ne by done. naive_solver.
Qed.
Lemma owes_insert w q y q' c :
  owes (set_pqueues (<[q := y]> (pw_queues w)) w) q' c <-> (q' = q /\ promised c (pq_jobs y) = 1%nat) \/ (q' <> q /\ owes w q' c).
Proof.
  unfold owes. cbn. destruct (decide (q' = q)) as [->|Hne].
  - rewrite lookup_insert_eq. naive_solver.
  - rewrite lookup_insert_ne by done. naive_solver.
Qed.
Lemma owes_lookup w q x c : pw_queues w !! q = Some x -> owes w q c <-> promised c (pq_jobs x) = 1%nat.
Proof. intros E. unfold owes. rewrite E. naive_solver. Qed.

(** One queue changes, its promises do not. *)
Lemma hinv_upd s p L q x y held waits :
  hinv_at s p L -> pw_queues (h_w s) !! q = Some x -> pq_terminated y = pq_terminated x ->
  pq_usage y = occ q held -> pq_count y = Z.of_nat (length (pq_jobs y)) + occ q held ->
  (forall c, promised c (pq_jobs y) = promised c (pq_jobs x)) ->
  (forall q', q' <> q -> occ q' held = occ q' (h_held s)) ->
  hinv_at (MkH (set_pqueues (<[q := y]> (pw_queues (h_w s))) (h_w s)) held (h_taken s) waits) p L.
Proof.
  intros [H1 H2 H3 H4 H5 H6 H7 H8 H9 H10 H11] E Et Eu Ec Ep Eo.
  assert (forall q' c, owes (set_pqueues (<[q := y]> (pw_queues (h_w s))) (h_w s)) q' c <-> owes (h_w s) q' c) as Hw.
  { intros q' c. rewrite owes_insert. destruct (decide (q' = q)) as [->|]; [|tauto]. rewrite Ep, (owes_lookup _ _ _ _ E). tauto. }
  split; cbn [h_w h_held h_taken]; try done.
  - intros q'. rewrite live_insert, <-H6. destruct (decide (q' = q)) as [->|]; [|tauto]. unfold live. rewrite E. naive_solver.
  - intros q' x'. cbn. destruct (decide (q' = q)) as [->|Hne]; [rewrite lookup_insert_eq; intros [= <-]|rewrite lookup_insert_ne by done].
    + split; [apply (H7 _ _ E)|done].
    + intros Ex'. rewrite (Eo q' Hne). by apply H7.
  - intros q' Hin. cbn. destruct (decide (q' = q)) as [->|Hne]; [by rewrite lookup_insert_eq|]. rewrite lookup_insert_ne by done.
    apply H8. rewrite occ_elem, <-(Eo q' Hne), <-occ_elem. done.
  - intros q' x' c. cbn. destruct (decide (q' = q)) as [->|Hne]; [rewrite lookup_insert_eq; intros [= <-]|rewrite lookup_insert_ne by done; apply H9].
    rewrite Ep. by eapply H9.
  - intros c v Ev. destruct (H10 c v Ev) as (l & ? & ? & ? & Hl). exists l. repeat split; try done; intros Hx; [by apply Hw, Hl|by apply Hl, Hw].
  - intros q' c Ho. apply (H11 q' c). by apply Hw.
Qed.

(** The usage of entries changes. *)
Lemma hinv_entries s p L p' L' :
  hinv_at s p L -> lives p' L' -> pool_size p' = pool_size p -> qs L' = qs L -> Forall (fun e => 1 <= e_usage e < 2 ^ 32) L' ->
  hinv_at (MkH (set_pools (<[qp := p']> (pw_pools (h_w s))) (h_w s)) (h_held s) (h_taken s) (h_waits s)) p' L'.
Proof.
  intros [H1 H2 H3 H4 H5 H6 H7 H8 H9 H10 H11] Hl Hs Hq Hu. split; cbn; rewrite ?Hq; try done; [by rewrite lookup_insert_eq|by rewrite Hs].
Qed.

(** A new queue in a new entry. *)
Lemma hinv_add s p L q id :
  hinv_at s p L -> q_count p < pool_size p -> 0 < q -> pw_queues (h_w s) !! q = None ->
  hinv_at (MkH (set_pools (<[qp := set_entry (q_count p) (MkEnt q 1) (q_count p + 1) p]> (pw_pools (h_w s)))
    (set_pqueues (<[q := MkPq id 0 0 false [] 0 0]> (pw_queues (h_w s))) (h_w s))) (h_held s) (h_taken s) (h_waits s))
    (set_entry (q_count p) (MkEnt q 1) (q_count p + 1) p) (L ++ [MkEnt q 1]).
Proof.
  intros [H1 H2 H3 H4 H5 H6 H7 H8 H9 H10 H11] Hr Hq E.
  assert (q ∉ h_held s) as Hh by (intros Hin; destruct (H8 _ Hin) as [x Ex]; congruence).
  assert (occ q (h_held s) = 0) as Ho by (pose proof (occ_nonneg q (h_held s)); rewrite occ_elem in Hh; lia).
  assert (q ∉ qs L ++ map snd (h_taken s)) as Hl by (rewrite <-H6; intros (x & Ex & _); congruence).
  assert (forall q' c, owes (set_pools (<[qp := set_entry (q_count p) (MkEnt q 1) (q_count p + 1) p]> (pw_pools (h_w s)))
    (set_pqueues (<[q := MkPq id 0 0 false [] 0 0]> (pw_queues (h_w s))) (h_w s))) q' c <-> owes (h_w s) q' c) as Hw.
  { intros q' c. transitivity (owes (set_pqueues (<[q := MkPq id 0 0 false [] 0 0]> (pw_queues (h_w s))) (h_w s)) q' c); [done|].
    rewrite owes_insert. cbn. destruct (decide (q' = q)) as [->|]; [|tauto]. split; [naive_solver|]. intros (x & Ex & _). congruence. }
  assert (forall q', q' ∈ qs (L ++ [MkEnt q 1]) ++ map snd (h_taken s) <-> q' = q \/ q' ∈ qs L ++ map snd (h_taken s)) as Hqs.
  { intros q'. unfold qs. rewrite map_app, !elem_of_app. cbn. rewrite list_elem_of_singleton. tauto. }
  split; cbn [h_w h_held h_taken pw_pools pw_queues pw_counters set_pools set_pqueues]; try done.
  - by rewrite lookup_insert_eq.
  - by apply lives_add.
  - apply Forall_app. split; [done|]. repeat constructor; cbn; lia.
  - unfold qs. rewrite map_app, <-app_assoc. cbn. rewrite NoDup_app in H5 |- *. rewrite NoDup_cons.
    destruct H5 as (N1 & N2 & N3). rewrite elem_of_app in Hl. split; [done|]. split; [|split; [tauto|done]].
    intros a Ha [->|Ha']%elem_of_cons; [tauto|by eapply N2].
  - intros q'. rewrite Hqs. pose proof (live_insert (h_w s) q (MkPq id 0 0 false [] 0 0) q') as Hli. unfold live in Hli |- *. cbn in Hli |- *. rewrite Hli.
    fold (live (h_w s) q'). rewrite <-H6. destruct (decide (q' = q)); tauto.
  - intros q' x. destruct (decide (q' = q)) as [->|Hne]; [rewrite lookup_insert_eq; intros [= <-]; cbn; lia|rewrite lookup_insert_ne by done; apply H7].
  - intros q' Hin. rewrite lookup_insert_ne; [by apply H8|]. intros ->. done.
  - intros q' x c. destruct (decide (q' = q)) as [->|Hne]; [rewrite lookup_insert_eq; intros [= <-]; cbn; lia|rewrite lookup_insert_ne by done; apply H9].
  - intros c v Ev. destruct (H10 c v Ev) as (l & ? & ? & ? & Hll). exists l. repeat split; try done; intros Hx; [by apply Hw, Hll|by apply Hll, Hw].
  - intros q' c Hx. apply (H11 q' c). by apply Hw.
Qed.

End History.
