(* ===== verification/MpqpStep.v ===== *)
(** * Pools of queues: every step succeeds and preserves the invariant *)
From S2P Require Import Prelude Refs Mpqp MpqpInv.
#[local] Open Scope aosl_scope.

Section Steps.
Context `{PoolEnv} (qp : Z).
Abbreviation hinv_at := (MpqpInv.hinv_at qp).
Abbreviation hinv := (MpqpInv.hinv qp).

(** The pool with one more queue. *)
Definition grown (w : pworld) (p : mpq_pool) (q id : Z) : pworld :=
  set_pools (<[qp := set_entry (q_count p) (MkEnt q 1) (q_count p + 1) p]> (pw_pools w))
    (set_pqueues (<[q := MkPq id 0 0 false [] 0 0]> (pw_queues w)) (tick w)).

Lemma create_add_wp w p L :
  pw_pools w !! qp = Some p -> lives p L -> q_count p < pool_size p ->
  wp (__pool_create_add_mpq_locked qp) w (fun r w' =>
    (exists e, 0 < e <= 4095 /\ r = inl (- e) /\ w' = set_perr e (tick w)) \/
    (exists q id, 0 < q /\ pw_queues w !! q = None /\ 0 < id /\ (forall q' x, pw_queues w !! q' = Some x -> pq_qid x <> id) /\
       r = inr (Z.of_nat (length L)) /\ w' = grown w p q id)).
Proof.
  intros Ep HL Hr. unfold __pool_create_add_mpq_locked, __mpq_create. destruct (lives_count _ _ HL) as (_ & Hc & _).
  apply wp_bind. apply wp_bind, wp_get. apply wp_bind, modp_wp.
  destruct (env_create w) as [e|[q id]] eqn:Ec; apply wp_bind, modp_wp, wp_ret.
  - cbn [Z.eqb]. apply wp_bind, wp_get, wp_ret. left. exists e. split; [by eapply env_create_err|]. done.
  - destruct (env_create_ok _ _ _ Ec) as (Hq & Hf & Hid & Hu). destruct (Z.eqb_spec q 0); [lia|].
    apply wp_bind. eapply get_pool_wp; [exact Ep|]. apply wp_bind. rewrite Hc. eapply entry_at_wp; [by apply lives_next|]. cbn [e_q e_usage Z.eqb negb orb].
    apply wp_bind. eapply put_pool_wp; [exact Ep|]. apply wp_ret. right. exists q, id. rewrite <-Hc. repeat split; try done.
Qed.

Lemma hinv_tick s p L e : hinv_at s p L -> hinv_at (MkH (set_perr e (tick (h_w s))) (h_held s) (h_taken s) (h_waits s)) p L.
Proof. intros I. eapply hinv_same; [exact I|apply (hi_pool _ _ _ _ I)|done..]. Qed.

Lemma hinv_grown s p L q id :
  hinv_at s p L -> q_count p < pool_size p -> 0 < q -> pw_queues (h_w s) !! q = None ->
  hinv_at (MkH (grown (h_w s) p q id) (h_held s) (h_taken s) (h_waits s)) (set_entry (q_count p) (MkEnt q 1) (q_count p + 1) p) (L ++ [MkEnt q 1]).
Proof.
  intros I Hr Hq Hf. pose proof (hinv_add qp s p L q id I Hr Hq Hf) as I'. apply (hinv_same _ _ _ _ (grown (h_w s) p q id) (h_held s) (h_waits s) I'); try done.
  cbn. by rewrite lookup_insert_eq.
Qed.

(** The queues of the pool are there. *)
Lemma pool_queues s p L : hinv_at s p L -> forall q, q ∈ qs L -> q <> 0 /\ exists x, pw_queues (h_w s) !! q = Some x /\ pq_terminated x = false.
Proof.
  intros I q Hq. assert (live (h_w s) q) as (x & E & Et) by (apply (hi_live _ _ _ _ I); set_solver).
  split; [|by exists x]. pose proof (hi_queue _ _ _ _ I _ _ E). lia.
Qed.
Lemma pool_known s p L : hinv_at s p L -> forall q, q ∈ qs L -> q <> 0 /\ is_Some (pw_queues (h_w s) !! q).
Proof. intros I q Hq. destruct (pool_queues _ _ _ I q Hq) as (? & x & E & _). split; [done|by exists x]. Qed.
Lemma counts_nonneg s p L q : hinv_at s p L -> 0 <= cnt (h_w s) q.
Proof.
  intros I. unfold cnt. destruct (pw_queues (h_w s) !! q) as [x|] eqn:E; [|lia]. destruct (hi_queue _ _ _ _ I _ _ E) as (_ & _ & ->).
  pose proof (occ_nonneg q (h_held s)). lia.
Qed.

(** The queue that [__mpqp_best_q_get] chooses in a pool, and the world when it
    has been chosen: one with the fewest functions, if it has none or there is no
    room for another queue; the same if a new queue cannot be created; or a new
    queue when all have functions. *)
Inductive picked (w : pworld) (p : mpq_pool) (L : list pool_entry) (q : Z) : pworld -> mpq_pool -> list pool_entry -> Prop :=
| pk_old : q ∈ qs L -> (forall q', q' ∈ qs L -> cnt w q <= cnt w q') -> cnt w q = 0 \/ q_count p = pool_size p -> picked w p L q w p L
| pk_fail e : q ∈ qs L -> (forall q', q' ∈ qs L -> cnt w q <= cnt w q') -> 0 < e <= 4095 -> picked w p L q (set_perr e (tick w)) p L
| pk_new id : (forall q', q' ∈ qs L -> 0 < cnt w q') -> q_count p < pool_size p -> 0 < q -> pw_queues w !! q = None -> 0 < id ->
    (forall q' x, pw_queues w !! q' = Some x -> pq_qid x <> id) ->
    picked w p L q (grown w p q id) (set_entry (q_count p) (MkEnt q 1) (q_count p + 1) p) (L ++ [MkEnt q 1]).

Lemma picked_inv s p L q w1 p1 L1 :
  hinv_at s p L -> picked (h_w s) p L q w1 p1 L1 -> hinv_at (MkH w1 (h_held s) (h_taken s) (h_waits s)) p1 L1 /\ q ∈ qs L1.
Proof.
  intros I [Hq _ _|e Hq _ _|id _ Hr Hp Hf _ _].
  - split; [|done]. by destruct s.
  - split; [|done]. by apply hinv_tick.
  - split; [by apply hinv_grown|]. unfold qs. rewrite map_app. set_solver.
Qed.

Lemma pos_ptr q : 0 < q -> IS_ERR q = false /\ (q =? 0) = false.
Proof. intros Hq. unfold IS_ERR. split; [|lia]. destruct (Z.ltb_spec q 0); [lia|]. by rewrite andb_false_r. Qed.
Lemma neg_ptr e : 0 < e <= 4095 -> IS_ERR (- e) = true.
Proof. intros He. unfold IS_ERR. destruct (Z.leb_spec (-4095) (- e)), (Z.ltb_spec (- e) 0); lia || done. Qed.

Lemma best_get_wp s p L : hinv_at s p L ->
  wp (__mpqp_best_q_get qp) (h_w s) (fun q w' =>
    (exists e, L = [] /\ 0 < e <= 4095 /\ q = - e /\ w' = set_perr e (tick (h_w s))) \/
    (exists w1 p1 L1 x, 0 < q /\ picked (h_w s) p L q w1 p1 L1 /\ pw_queues w1 !! q = Some x /\
       w' = set_pqueues (<[q := add_count 1 (add_usage 1 x)]> (pw_queues w1)) w1)).
Proof.
  intros I. unfold __mpqp_best_q_get. pose proof (hi_lives _ _ _ _ I) as HL. pose proof (hi_pool _ _ _ _ I) as Ep.
  destruct (lives_count _ _ HL) as (_ & Hc & Hle). pose proof (hi_size _ _ _ _ I) as Hsz.
  apply wp_bind. eapply get_pool_wp; [exact Ep|]. apply wp_bind. eapply wp_mono; [apply find_best_wp; [exact HL|by apply (pool_known _ _ _ I)]|].
  cbn beta. intros b w' [-> Hb].
  (* the reference to the chosen queue *)
  assert (forall q w1 p1 L1, picked (h_w s) p L q w1 p1 L1 -> wp
    ((when negb (IS_ERR q) && negb (q =? 0) then (____q_get q ;; mod_q q (add_count 1))) ;; cret q) w1 (fun q w' =>
    (exists e, L = [] /\ 0 < e <= 4095 /\ q = - e /\ w' = set_perr e (tick (h_w s))) \/
    (exists w1 p1 L1 x, 0 < q /\ picked (h_w s) p L q w1 p1 L1 /\ pw_queues w1 !! q = Some x /\
       w' = set_pqueues (<[q := add_count 1 (add_usage 1 x)]> (pw_queues w1)) w1))) as Href.
  { intros q w1 p1 L1 Hp. destruct (picked_inv _ _ _ _ _ _ _ I Hp) as [I1 Hin]. destruct (pool_queues _ _ _ I1 _ Hin) as (_ & x & Ex & _).
    pose proof (hi_queue _ _ _ _ I1 _ _ Ex) as (Hpos & _). destruct (pos_ptr q Hpos) as [-> ->]. cbn [negb andb].
    apply wp_bind. apply wp_bind. eapply mod_q_wp; [exact Ex|]. eapply mod_q_wp; [cbn; by rewrite lookup_insert_eq|]. apply wp_ret. right.
    exists w1, p1, L1, x. repeat split; try done. unfold set_pqueues. cbn. by rewrite insert_insert_eq. }
  (* a new queue, if it can be had *)
  assert ((forall q', q' ∈ qs L -> 0 < cnt (h_w s) q') -> q_count p < pool_size p ->
    (L = [] /\ b = 0) \/ (b ∈ qs L /\ forall q', q' ∈ qs L -> cnt (h_w s) b <= cnt (h_w s) q') -> wp
    (do q <- (do r <- __pool_create_add_mpq_locked qp;
              match r with inl e => cret (if b =? 0 then e else b) | inr i => do p <- get_pool qp; do entry <- entry_at p i; cret (e_q entry) end);
     (when negb (IS_ERR q) && negb (q =? 0) then (____q_get q ;; mod_q q (add_count 1))) ;; cret q) (h_w s) (fun q w' =>
    (exists e, L = [] /\ 0 < e <= 4095 /\ q = - e /\ w' = set_perr e (tick (h_w s))) \/
    (exists w1 p1 L1 x, 0 < q /\ picked (h_w s) p L q w1 p1 L1 /\ pw_queues w1 !! q = Some x /\
       w' = set_pqueues (<[q := add_count 1 (add_usage 1 x)]> (pw_queues w1)) w1))) as Hnew.
  { intros Hall Hr Hb'. apply wp_bind. apply wp_bind. eapply wp_mono; [eapply create_add_wp; [exact Ep|exact HL|exact Hr]|].
    cbn beta. intros r w' [(e & He & -> & ->)|(q & id & Hq & Hf & Hid & Hu & -> & ->)].
    - apply wp_ret. destruct Hb' as [[-> ->]|[Hin Hmin]].
      + cbn [Z.eqb]. rewrite neg_ptr by done. apply wp_bind, wp_ret, wp_ret. left. by exists e.
      + destruct (pool_known _ _ _ I b Hin) as [Hb0 _]. destruct (Z.eqb_spec b 0); [done|]. eapply Href. by apply (pk_fail _ _ _ _ e).
    - apply wp_bind. eapply get_pool_wp; [cbn; by rewrite lookup_insert_eq|]. apply wp_bind.
      eapply entry_at_wp; [eapply (lives_at _ L _ []); by apply lives_add|]. apply wp_ret. eapply Href. by apply pk_new. }
  destruct Hb as [[-> ->]|[Hin Hmin]].
  - cbn [Z.eqb]. apply wp_bind, wp_ret. apply Hnew; [by intros q' ?%elem_of_nil| |by left]. cbn in Hc. lia.
  - destruct (pool_queues _ _ _ I b Hin) as (Hb0 & x & Ex & _). destruct (Z.eqb_spec b 0); [done|].
    assert (cnt (h_w s) b = pq_count x) as Cb by (unfold cnt; by rewrite Ex). pose proof (counts_nonneg _ _ _ b I).
    apply wp_bind. apply wp_bind. eapply get_q_wp; [exact Ex|]. apply wp_ret.
    destruct (Z.ltb_spec 0 (pq_count x)), (Z.ltb_spec (q_count p) (pool_size p)); cbn [andb].
    + destruct (Z.eqb_spec b 0); [done|]. specialize (Hnew ltac:(intros q' Hq'; specialize (Hmin q' Hq'); lia) ltac:(done) ltac:(by right)).
      destruct (Z.eqb_spec b 0); [done|]. exact Hnew.
    + apply wp_bind, wp_ret. eapply Href. apply pk_old; [done|done|]. lia.
    + apply wp_bind, wp_ret. eapply Href. apply pk_old; [done|done|]. lia.
    + apply wp_bind, wp_ret. eapply Href. apply pk_old; [done|done|]. lia.
Qed.

(** ** The steps of the users *)

Lemma on_w_wp {A} (c : CM pworld A) s Q : wp c (h_w s) (fun a w => Q a (MkH w (h_held s) (h_taken s) (h_waits s))) -> wp (on_w c) s Q.
Proof. unfold wp, on_w. by destruct (c (h_w s)) as [[a w]| | |]. Qed.
Lemma modh_wp f s Q : Q tt (f s) -> wp (modh f) s Q.
Proof. done. Qed.

Lemma h_get_step s : hinv s -> wp (h_step qp HGet) s (fun _ s' => hinv s').
Proof.
  intros (p & L & I). cbn [h_step]. apply wp_bind, on_w_wp. eapply wp_mono; [exact (best_get_wp _ _ _ I)|].
  cbn beta. intros q w' [(e & -> & He & -> & ->)|(w1 & p1 & L1 & x & Hq & Hp & Ex & ->)].
  - rewrite neg_ptr by done. apply wp_ret. exists p, []. by apply hinv_tick.
  - destruct (pos_ptr q Hq) as [-> ->]. apply modh_wp. destruct (picked_inv _ _ _ _ _ _ _ I Hp) as [I1 Hin]. exists p1, L1.
    destruct (hi_queue _ _ _ _ I1 _ _ Ex) as (_ & Hu & Hc). cbn [h_held] in *.
    apply (hinv_upd qp _ _ _ q x _ (q :: h_held s) (h_waits s) I1 Ex); cbn [h_held add_count add_usage pq_usage pq_count pq_jobs]; try done;
      rewrite ?occ_cons, ?decide_True by done; [lia|lia|]. intros q' Hne. rewrite occ_cons, decide_False by done. lia.
Qed.

Lemma promised_app c l1 l2 : promised c (l1 ++ l2) = (promised c l1 + promised c l2)%nat.
Proof. unfold promised. by rewrite List.filter_app, length_app. Qed.

Lemma h_queue_step s q no_fail id : hinv s -> q ∈ h_held s -> wp (h_step qp (HQueue q no_fail id)) s (fun _ s' => hinv s').
Proof.
  intros (p & L & I) Hh. cbn [h_step]. apply wp_bind, on_w_wp. unfold __mpq_queue. apply wp_bind, wp_get. apply wp_bind, modp_wp.
  destruct (hi_held _ _ _ _ I _ Hh) as [x Ex]. destruct (hi_queue _ _ _ _ I _ _ Ex) as (_ & Hu & Hc).
  destruct (_ =? _).
  - apply wp_bind. eapply mod_q_wp; [exact Ex|]. apply wp_ret, wp_ret. exists p, L.
    assert (hinv_at (MkH (tick (h_w s)) (h_held s) (h_taken s) (h_waits s)) p L) as I' by (eapply hinv_same; [exact I|apply (hi_pool _ _ _ _ I)|done..]).
    apply (hinv_upd qp _ _ _ q x (add_job (JUser id) x) (h_held s) (h_waits s) I' Ex); cbn -[promised]; try done.
    + rewrite length_app. cbn. lia.
    + intros c. rewrite promised_app. cbn. lia.
  - apply failp_wp, wp_ret. exists p, L. by apply hinv_tick.
Qed.

Lemma h_put_step s q : hinv s -> q ∈ h_held s -> wp (h_step qp (HPut q)) s (fun _ s' => hinv s').
Proof.
  intros (p & L & I) Hh. cbn [h_step]. apply wp_bind, on_w_wp. destruct (hi_held _ _ _ _ I _ Hh) as [x Ex].
  destruct (hi_queue _ _ _ _ I _ _ Ex) as (_ & Hu & Hc). unfold __mpqp_best_q_put. apply wp_bind. eapply mod_q_wp; [exact Ex|].
  eapply mod_q_wp; [cbn; by rewrite lookup_insert_eq|]. apply modh_wp. exists p, L. cbn [h_held]. unfold set_pqueues at 1. cbn. rewrite insert_insert_eq.
  apply (hinv_upd qp s p L q x _ (drop_one q (h_held s)) (h_waits s) I Ex); cbn; try done;
    rewrite ?occ_drop, ?decide_True by done; [lia|lia|]. intros q' Hne. rewrite occ_drop, decide_False by done. lia.
Qed.

Lemma split_entry {A} (l : list A) i : (i < length l)%nat -> exists l1 a l2, l = l1 ++ a :: l2 /\ length l1 = i.
Proof. intros Hi. destruct (lookup_lt_is_Some_2 l i Hi) as [a E]. exists (take i l), a, (drop (S i) l). split; [by rewrite take_drop_middle|]. rewrite length_take. lia. Qed.

(** The usage of one entry changes. *)
Lemma entry_set_wp s p A e B u :
  hinv_at s p (A ++ e :: B) -> 1 <= u < 2 ^ 32 ->
  wp (put_pool qp (set_entry (Z.of_nat (length A)) (MkEnt (e_q e) u) (q_count p) p)) (h_w s)
    (fun _ w' => hinv (MkH w' (h_held s) (h_taken s) (h_waits s))).
Proof.
  intros I Hu. eapply put_pool_wp; [apply (hi_pool _ _ _ _ I)|]. eexists _, (A ++ MkEnt (e_q e) u :: B).
  eapply hinv_entries; [exact I|by eapply lives_set, (hi_lives _ _ _ _ I)|done|unfold qs; by rewrite !map_app|].
  pose proof (hi_usage _ _ _ _ I) as HF. rewrite Forall_app, Forall_cons in HF |- *. tauto.
Qed.

Lemma h_alloc_step s : hinv s -> h_enabled qp HAlloc s = true -> wp (h_step qp HAlloc) s (fun _ s' => hinv s').
Proof.
  intros (p & L & I) He. cbn [h_enabled] in He. rewrite (hi_pool _ _ _ _ I) in He. rewrite forallb_forall in He.
  cbn [h_step]. apply wp_bind, on_w_wp. unfold __mpqp_best_entry_get_or_alloc. pose proof (hi_lives _ _ _ _ I) as HL. pose proof (hi_pool _ _ _ _ I) as Ep.
  destruct (lives_count _ _ HL) as (Hn & Hc & Hle). pose proof (hi_size _ _ _ _ I) as Hsz.
  apply wp_bind. eapply get_pool_wp; [exact Ep|]. apply wp_bind. unfold __mpqp_find_best_alloc_entry_locked. rewrite Hn.
  eapply wp_mono; [apply (find_best_entry_wp (h_w s) p L HL L [] (-1) eq_refl); by left|]. cbn beta. intros i w' [-> Hi].
  (* the usage of the entry *)
  assert (forall s1 p1 L1 j, hinv_at s1 p1 L1 -> h_held s1 = h_held s -> h_taken s1 = h_taken s -> h_waits s1 = h_waits s -> (j < length L1)%nat ->
    (forall e, e ∈ L1 -> e_usage e < USAGE_MAX) ->
    wp (do p <- get_pool qp; do entry <- entry_at p (Z.of_nat j);
        put_pool qp (set_entry (Z.of_nat j) (MkEnt (e_q entry) (u32 (e_usage entry + 1))) (q_count p) p) ;; cret (@inr Z Z (Z.of_nat j))) (h_w s1)
      (fun a w => wp (cret tt) (MkH w (h_held s) (h_taken s) (h_waits s)) (fun _ s' => hinv s'))) as Hput.
  { intros s1 p1 L1 j I1 E1 E2 E3 Hj Hmax. destruct (split_entry L1 j Hj) as (A & e & B & -> & <-).
    apply wp_bind. eapply get_pool_wp; [apply (hi_pool _ _ _ _ I1)|]. apply wp_bind. eapply entry_at_wp; [apply (lives_at _ _ _ _ (hi_lives _ _ _ _ I1))|].
    pose proof (hi_usage _ _ _ _ I1) as HF. rewrite Forall_app, Forall_cons in HF. destruct HF as (_ & Hu & _).
    specialize (Hmax e ltac:(set_solver)). unfold USAGE_MAX in Hmax. rewrite wrapu_id by lia.
    apply wp_bind. eapply wp_mono; [eapply (entry_set_wp s1 p1 A e B); [exact I1|lia]|]. cbn beta. intros _ w1 I2. rewrite E1, E2, E3 in I2. done. }
  assert (forall e, e ∈ L -> e_usage e < USAGE_MAX) as Hmax.
  { intros e HIn. destruct HL as (k & Hl & _). specialize (He e). rewrite Hl in He. apply Z.ltb_lt, He, in_app_iff. left. by apply list_elem_of_In. }
  assert (q_count p < pool_size p -> wp
    (do r <- (do r <- __pool_create_add_mpq_locked qp; match r with inl e => cret (if i <? 0 then inl e else inr i) | inr k => cret (inr k) end);
     match r with inl e => cret (inl e) | inr i => do p <- get_pool qp; do entry <- entry_at p i;
        put_pool qp (set_entry i (MkEnt (e_q entry) (u32 (e_usage entry + 1))) (q_count p) p) ;; cret (inr i) end) (h_w s)
      (fun a w => wp (cret tt) (MkH w (h_held s) (h_taken s) (h_waits s)) (fun _ s' => hinv s'))) as Hnew.
  { intros Hr. apply wp_bind. apply wp_bind. eapply wp_mono; [eapply create_add_wp; [exact Ep|exact HL|exact Hr]|].
    cbn beta. intros r w' [(e & Hle' & -> & ->)|(q & id & Hq & Hf & _ & _ & -> & ->)]; apply wp_ret.
    - destruct Hi as [[-> ->]|(j & -> & Hj)].
      + apply wp_ret, wp_ret. exists p, []. by apply hinv_tick.
      + destruct (Z.ltb_spec (Z.of_nat j) 0); [lia|]. eapply (Hput (MkH (set_perr e (tick (h_w s))) (h_held s) (h_taken s) (h_waits s))); try done. by apply hinv_tick.
    - apply (Hput (MkH (grown (h_w s) p q id) (h_held s) (h_taken s) (h_waits s)) _ (L ++ [MkEnt q 1]) (length L)
        (hinv_grown s p L q id I Hr Hq Hf)); try done; [rewrite length_app; cbn; lia|].
      intros e [?|He1%list_elem_of_singleton]%elem_of_app; [by apply Hmax|subst e]. unfold USAGE_MAX. cbn. lia. }
  destruct Hi as [[-> ->]|(j & -> & Hj)].
  - cbn [Z.ltb Z.compare]. apply wp_bind, wp_ret. apply Hnew. cbn in Hc. lia.
  - destruct (Z.ltb_spec (Z.of_nat j) 0); [lia|]. destruct (split_entry L j Hj) as (A & e & B & -> & <-).
    apply wp_bind. apply wp_bind. eapply entry_at_wp; [by apply lives_at in HL|]. apply wp_ret.
    destruct (1 <? e_usage e), (Z.ltb_spec (q_count p) (pool_size p)); cbn [andb];
      first [by apply Hnew|apply wp_bind, wp_ret; eapply (Hput s); done].
Qed.

Lemma h_free_step s qid : hinv s -> wp (h_step qp (HFree qid)) s (fun _ s' => hinv s').
Proof.
  intros (p & L & I). cbn [h_step]. apply wp_bind, on_w_wp. unfold mpq_free. pose proof (hi_lives _ _ _ _ I) as HL. pose proof (hi_pool _ _ _ _ I) as Ep.
  destruct (lives_count _ _ HL) as (Hn & _ & _). apply wp_bind. eapply get_pool_wp; [exact Ep|]. apply wp_bind.
  unfold __mpqp_find_entry_with_qid_locked. rewrite Hn.
  eapply wp_mono; [apply (find_entry_qid_wp (h_w s) p L qid HL (pool_known _ _ _ I) L [] eq_refl)|]. cbn beta. intros i w' [-> Hi].
  assert (forall e, wp (failp e) (h_w s) (fun _ w => wp (cret tt) (MkH w (h_held s) (h_taken s) (h_waits s)) (fun _ s' => hinv s'))) as Hfail.
  { intros e. apply failp_wp, wp_ret. exists p, L. eapply hinv_same; [exact I|done..]. }
  destruct Hi as [->|(j & -> & Hj)]; [apply Hfail|]. destruct (Z.ltb_spec (Z.of_nat j) 0); [lia|].
  destruct (split_entry L j Hj) as (A & e & B & -> & <-). apply wp_bind. eapply entry_at_wp; [by apply lives_at in HL|].
  destruct (Z.ltb_spec 1 (e_usage e)); [|apply Hfail].
  pose proof (hi_usage _ _ _ _ I) as HF. rewrite Forall_app, Forall_cons in HF. destruct HF as (_ & Hu & _). rewrite wrapu_id by lia.
  apply wp_bind. eapply wp_mono; [eapply (entry_set_wp s p A e B); [exact I|lia]|]. done.
Qed.

(** A queue leaves the pool. *)
Lemma hinv_take s p A q b :
  hinv_at s p (A ++ [MkEnt q 1]) ->
  hinv_at (MkH (set_pools (<[qp := set_entry (q_count p - 1) (MkEnt 0 0) (q_count p - 1) p]> (pw_pools (h_w s))) (h_w s))
    (h_held s) ((b, q) :: h_taken s) (h_waits s)) (set_entry (q_count p - 1) (MkEnt 0 0) (q_count p - 1) p) A.
Proof.
  intros [H1 H2 H3 H4 H5 H6 H7 H8 H9 H10 H11].
  assert (qs (A ++ [MkEnt q 1]) ++ map snd (h_taken s) ≡ₚ qs A ++ map snd ((b, q) :: h_taken s)) as Hp.
  { unfold qs. rewrite map_app, <-app_assoc. done. }
  split; cbn [h_w h_held h_taken pw_pools pw_queues pw_counters set_pools]; try done.
  - by rewrite lookup_insert_eq.
  - destruct H2 as (k & Hl & Hc & Hs). exists (S k). rewrite length_app in *. cbn [length] in *. cbn. rewrite Hl, Hs, Hc, <-app_assoc.
    split; [|split; [lia|lia]]. rewrite insert_app_r_alt by lia. f_equal. by replace (Z.to_nat (Z.of_nat (length A + 1) - 1) - length A)%nat with 0%nat by lia.
  - by apply Forall_app in H4 as [? _].
  - by rewrite <-Hp.
  - intros q'. transitivity (live (h_w s) q'); [done|]. rewrite H6. by rewrite Hp.
Qed.

Lemma h_take_step s b : hinv s -> wp (h_step qp (HTake b)) s (fun _ s' => hinv s').
Proof.
  intros (p & L & I). cbn [h_step]. apply wp_bind, on_w_wp. unfold shrink_take. pose proof (hi_lives _ _ _ _ I) as HL. pose proof (hi_pool _ _ _ _ I) as Ep.
  destruct (lives_count _ _ HL) as (_ & Hc & _). apply wp_bind. eapply get_pool_wp; [exact Ep|].
  assert (wp (cret 0) (h_w s) (fun q w => wp (when negb (q =? 0) then modh (fun s => set_taken ((b, q) :: h_taken s) s))
    (MkH w (h_held s) (h_taken s) (h_waits s)) (fun _ s' => hinv s'))) as Hno.
  { apply wp_ret, wp_ret. exists p, L. by destruct s. }
  destruct (Z.ltb_spec 1 (q_count p)); [|exact Hno].
  destruct L as [|e A _] using rev_ind; [cbn in Hc; lia|]. rewrite length_app in Hc. cbn in Hc.
  replace (q_count p - 1) with (Z.of_nat (length A)) at 1 by lia. apply wp_bind. eapply entry_at_wp; [by eapply lives_at|].
  pose proof (hi_usage _ _ _ _ I) as HF. rewrite Forall_app, Forall_singleton in HF. destruct HF as (_ & Hu).
  destruct (Z.eqb_spec (e_usage e) 0); [lia|]. destruct (Z.eqb_spec (e_usage e) 1) as [E1|]; [|exact Hno].
  destruct e as [q u]. cbn in E1. subst u. apply wp_bind. eapply put_pool_wp; [exact Ep|]. apply wp_ret. cbn [e_q].
  assert (0 < q) as Hq by (pose proof (pool_known _ _ _ I q ltac:(unfold qs; rewrite map_app; set_solver)) as [? [x Ex]]; by destruct (hi_queue _ _ _ _ I _ _ Ex)).
  destruct (pos_ptr q Hq) as [_ ->]. apply modh_wp. eexists _, A. exact (hinv_take s p A q b I).
Qed.

(** A queue is marked terminated. *)
Definition ended (wait : bool) (x : pq) : pq :=
  MkPq (pq_qid x) (pq_count x) (pq_usage x) true (pq_jobs x) (pq_waits x + Z.b2z wait) (pq_execs x).

Lemma destroy_q_wp w q x wait Q : pw_queues w !! q = Some x -> Q tt (set_pqueues (<[q := ended wait x]> (pw_queues w)) w) -> wp (destroy_q q wait) w Q.
Proof.
  intros E HQ. unfold destroy_q.
  assert (forall y, ended wait x = add_usage (-1) (terminate (add_usage 1 y)) -> forall w', set_pqueues (<[q := ended wait x]> (pw_queues w')) w' =
    set_pqueues (<[q := ended wait x]> (pw_queues w)) w -> pw_queues w' !! q = Some y -> wp (____q_get q ;; __mpq_destroy q ;; ____q_put q) w' Q) as Hrest.
  { intros y Ey w' Ew' Ey'. apply wp_bind. eapply mod_q_wp; [exact Ey'|]. apply wp_bind. eapply mod_q_wp; [cbn; by rewrite lookup_insert_eq|].
    eapply mod_q_wp; [cbn; by rewrite lookup_insert_eq|]. rewrite <-Ey. unfold set_pqueues in *. cbn in *. by rewrite !insert_insert_eq, Ew'. }
  destruct wait; apply wp_bind.
  - eapply mod_q_wp; [exact E|]. eapply (Hrest (add_wait x)).
    + destruct x. unfold ended, add_wait, add_usage, terminate. cbn. f_equal; lia.
    + unfold set_pqueues. cbn. by rewrite insert_insert_eq.
    + cbn. by rewrite lookup_insert_eq.
  - apply wp_ret. eapply (Hrest x); [|done|done]. destruct x. unfold ended, add_usage, terminate. cbn. f_equal; lia.
Qed.

Lemma taken_perm (b q : Z) (l : list (Z * Z)) : (b, q) ∈ l -> map snd l ≡ₚ q :: map snd (drop_one (b, q) l).
Proof.
  induction l as [|[b' q'] l IH]; [by intros ?%elem_of_nil|]. intros Hin. cbn [drop_one]. destruct (decide ((b, q) = (b', q'))) as [[= -> ->]|Hne]; [done|].
  apply elem_of_cons in Hin as [?|Hin]; [done|]. cbn. rewrite (IH Hin). apply Permutation_swap.
Qed.

Lemma h_destroy_step s b q wait : hinv s -> (b, q) ∈ h_taken s -> wp (h_step qp (HDestroy b q wait)) s (fun _ s' => hinv s').
Proof.
  intros (p & L & I) Hin. cbn [h_step]. set (sw := wait && negb (b =? q)).
  pose proof (taken_perm _ _ _ Hin) as Hp. destruct I as [H1 H2 H3 H4 H5 H6 H7 H8 H9 H10 H11].
  assert (live (h_w s) q) as (x & Ex & Et) by (rewrite H6, Hp; set_solver).
  assert (hinv_at (MkH (set_pqueues (<[q := ended sw x]> (pw_queues (h_w s))) (h_w s)) (h_held s) (drop_one (b, q) (h_taken s)) (h_waits s)) p L) as I'.
  { assert (forall q' c, owes (set_pqueues (<[q := ended sw x]> (pw_queues (h_w s))) (h_w s)) q' c <-> owes (h_w s) q' c) as Hw.
    { intros q' c. rewrite owes_insert. destruct (decide (q' = q)) as [->|]; [|tauto]. rewrite (owes_lookup _ _ _ _ Ex). cbn. tauto. }
    rewrite Hp, (Permutation_app_comm (qs L)) in H5. cbn in H5. rewrite NoDup_cons, (Permutation_app_comm _ (qs L)) in H5. destruct H5 as [Hni Hnd].
    split; cbn [h_w h_held h_taken]; try done.
    - intros q'. rewrite live_insert. cbn [pq_terminated ended]. rewrite H6, Hp. rewrite !elem_of_app, elem_of_cons in *. split; [|intros Hq'; right; split; [|tauto]]; [naive_solver|].
      intros ->. apply Hni. tauto.
    - intros q' x'. cbn. destruct (decide (q' = q)) as [->|Hne]; [rewrite lookup_insert_eq; intros [= <-]; exact (H7 _ _ Ex)|rewrite lookup_insert_ne by done; apply H7].
    - intros q' Hq'. cbn. destruct (decide (q' = q)) as [->|Hne]; [by rewrite lookup_insert_eq|rewrite lookup_insert_ne by done; by apply H8].
    - intros q' x' c. cbn. destruct (decide (q' = q)) as [->|Hne]; [rewrite lookup_insert_eq; intros [= <-]; cbn; by eapply H9|rewrite lookup_insert_ne by done; apply H9].
    - intros c v Ev. destruct (H10 c v Ev) as (l & ? & ? & ? & Hl). exists l. repeat split; try done; intros Hx; [by apply Hw, Hl|by apply Hl, Hw].
    - intros q' c Ho. apply (H11 q' c). by apply Hw. }
  apply wp_bind, on_w_wp. eapply destroy_q_wp; [exact Ex|]. apply wp_bind, modh_wp. cbn [h_taken].
  destruct sw; [apply modh_wp|apply wp_ret]; exists p, L; [|exact I']. unfold add_waits. destruct (b =? 0); [exact I'|].
  eapply hinv_same; [exact I'|apply (hi_pool _ _ _ _ I')|done..].
Qed.

(** ** The steps of the queues *)

Lemma h_exit_step s q : hinv s -> known q (h_w s) = true -> wp (h_step qp (HExit q)) s (fun _ s' => hinv s').
Proof.
  intros (p & L & I) Hk. unfold known in Hk. destruct (pw_queues (h_w s) !! q) as [x|] eqn:Ex; [|done]. cbn [h_step]. apply wp_bind, on_w_wp.
  unfold exit_queue. apply wp_bind. eapply get_q_wp; [exact Ex|].
  destruct (pq_terminated x && bool_decide (pq_jobs x = []) && (pq_usage x =? 0)) eqn:Eb.
  2: { apply wp_ret, wp_ret. exists p, L. by destruct s. }
  apply andb_true_iff in Eb as [[Et Ej%bool_decide_eq_true]%andb_true_iff Eu%Z.eqb_eq]. apply wp_bind, modp_wp, wp_ret, modh_wp. exists p, L.
  destruct I as [H1 H2 H3 H4 H5 H6 H7 H8 H9 H10 H11]. destruct (H7 _ _ Ex) as (_ & Hu & _).
  assert (q ∉ h_held s) as Hh by (rewrite occ_elem; lia).
  assert (forall q' c, owes (set_pqueues (delete q (pw_queues (h_w s))) (h_w s)) q' c <-> owes (h_w s) q' c) as Hw.
  { intros q' c. unfold owes. cbn. destruct (decide (q' = q)) as [->|]; [|by rewrite lookup_delete_ne]. rewrite lookup_delete_eq, Ex.
    split; [naive_solver|]. intros (x' & [= <-] & Hx). rewrite Ej in Hx. done. }
  split; cbn [h_w h_held h_taken wake_waits pw_queues set_pqueues pw_counters pw_pools]; try done.
  - intros q'. rewrite <-H6. unfold live. cbn. destruct (decide (q' = q)) as [->|]; [|by rewrite lookup_delete_ne]. rewrite lookup_delete_eq, Ex. naive_solver congruence.
  - intros q' x' [_ E]%lookup_delete_Some. by apply H7.
  - intros q' Hq'. cbn. rewrite lookup_delete_ne; [by apply H8|]. by intros ->.
  - intros q' x' c [_ E]%lookup_delete_Some. by apply (H9 q').
  - intros c v Ev. destruct (H10 c v Ev) as (l & ? & ? & ? & Hl). exists l. repeat split; try done; intros Hx; [by apply Hw, Hl|by apply Hl, Hw].
  - intros q' c Ho. apply (H11 q' c). by apply Hw.
Qed.

(** The queue after it has run its first function. *)
Definition ran_one (js : list job) (x : pq) : pq :=
  MkPq (pq_qid x) (pq_count x - 1) (pq_usage x) (pq_terminated x) js (pq_waits x) (pq_execs x + 1).

(** The counters after one promise. *)
Definition counted (c v : Z) (m : gmap Z Z) : gmap Z Z := if v - 1 =? 0 then delete c m else <[c := v - 1]> m.

Lemma promised_cons c j js : promised c (j :: js) = ((if is_promise c j then 1 else 0) + promised c js)%nat.
Proof. unfold promised. cbn. by destruct (is_promise c j). Qed.

Lemma hinv_promise s p L q x c f d js :
  hinv_at s p L -> pw_queues (h_w s) !! q = Some x -> pq_jobs x = JPromise c f d :: js -> exists v, pw_counters (h_w s) !! c = Some v /\ 0 < v /\
    hinv_at (MkH (set_counters (counted c v (pw_counters (h_w s))) (set_pqueues (<[q := ran_one js x]> (pw_queues (h_w s))) (h_w s)))
      (h_held s) (h_taken s) (h_waits s)) p L.
Proof.
  intros [H1 H2 H3 H4 H5 H6 H7 H8 H9 H10 H11] Ex Ej.
  assert (forall c', promised c' (pq_jobs x) = ((if decide (c = c') then 1 else 0) + promised c' js)%nat) as Hpr.
  { intros c'. rewrite Ej, promised_cons. cbn. destruct (Z.eqb_spec c c'), (decide (c = c')); done. }
  pose proof (H9 q x c Ex) as Hone. rewrite Hpr, decide_True in Hone by done. assert (promised c js = 0%nat) as Hz by lia.
  assert (owes (h_w s) q c) as How by (rewrite (owes_lookup _ _ _ _ Ex), Hpr, decide_True by done; lia).
  destruct (H11 _ _ How) as [v Ev]. destruct (H10 c v Ev) as (l & Nl & Hv & Hne & Hl). exists v. split; [done|].
  assert (q ∈ l) as Hql by (by apply Hl). split; [destruct l; [done|]; cbn in Hv; lia|].
  set (w' := set_counters _ _).
  assert (forall q' c', owes w' q' c' <-> owes (h_w s) q' c' /\ ~ (q' = q /\ c' = c)) as Hw.
  { intros q' c'. transitivity (owes (set_pqueues (<[q := ran_one js x]> (pw_queues (h_w s))) (h_w s)) q' c'); [done|]. rewrite owes_insert. cbn [pq_jobs ran_one].
    destruct (decide (q' = q)) as [->|]; [|tauto]. rewrite (owes_lookup _ _ _ _ Ex), Hpr. destruct (decide (c = c')) as [<-|Hnc]; [lia|].
    cbn. split; [intros [[_ ?]|?]; [split; [done|naive_solver]|tauto]|]. intros [? _]. by left. }
  assert (forall c', c' <> c -> pw_counters w' !! c' = pw_counters (h_w s) !! c') as Hoth.
  { intros c' Hn. subst w'. cbn. unfold counted. destruct (_ =? _); [by rewrite lookup_delete_ne|by rewrite lookup_insert_ne]. }
  set (l' := filter (fun a => a <> q) l).
  assert (length l = S (length l')) as Hlen.
  { subst l'. apply list_elem_of_split in Hql as (l1 & l2 & ->). rewrite filter_ne_split by done. rewrite !length_app. cbn. lia. }
  split; cbn [h_w h_held h_taken]; try done.
  - intros q'. rewrite <-H6. transitivity (live (set_pqueues (<[q := ran_one js x]> (pw_queues (h_w s))) (h_w s)) q'); [done|]. rewrite live_insert.
    destruct (decide (q' = q)) as [->|]; [|tauto]. unfold live. rewrite Ex. cbn. naive_solver.
  - intros q' x'. subst w'. cbn. destruct (decide (q' = q)) as [->|]; [rewrite lookup_insert_eq; intros [= <-]|rewrite lookup_insert_ne by done; apply H7].
    destruct (H7 _ _ Ex) as (? & ? & Hc). rewrite Ej in Hc. cbn in Hc |- *. lia.
  - intros q' Hq'. subst w'. cbn. destruct (decide (q' = q)) as [->|]; [by rewrite lookup_insert_eq|rewrite lookup_insert_ne by done; by apply H8].
  - intros q' x' c'. subst w'. cbn -[promised]. destruct (decide (q' = q)) as [->|]; [rewrite lookup_insert_eq; intros [= <-]|rewrite lookup_insert_ne by done; apply H9].
    cbn -[promised]. pose proof (H9 q x c' Ex) as Hc. rewrite Hpr in Hc. lia.
  - intros c' v' Ev'. destruct (decide (c' = c)) as [->|Hnc].
    + subst w'. cbn in Ev'. unfold counted in Ev'. destruct (Z.eqb_spec (v - 1) 0); [by rewrite lookup_delete_eq in Ev'|]. rewrite lookup_insert_eq in Ev'.
      injection Ev' as <-. exists l'. split; [by apply NoDup_filter|]. split; [lia|]. split; [intros E; rewrite E in Hlen; cbn in Hlen; lia|].
      intros q'. subst l'. rewrite list_elem_of_filter, Hw, Hl. naive_solver.
    + rewrite (Hoth c' Hnc) in Ev'. destruct (H10 c' v' Ev') as (l0 & ? & ? & ? & Hl0). exists l0. repeat split; try done.
      * intros Hx. apply Hw. split; [by apply Hl0|naive_solver].
      * intros Hx. apply Hl0. apply Hw in Hx. tauto.
  - intros q' c' Ho. apply Hw in Ho as [Ho Hnot]. destruct (decide (c' = c)) as [->|Hnc]; [|rewrite (Hoth c' Hnc); by apply (H11 q')].
    subst w'. cbn. unfold counted. destruct (Z.eqb_spec (v - 1) 0) as [E0|]; [exfalso|by rewrite lookup_insert_eq].
    assert (l' = []) as E by (apply nil_length_inv; rewrite Hlen in Hv; lia). apply Hl in Ho.
    assert (q' ∈ l') as Hin by (subst l'; rewrite list_elem_of_filter; naive_solver). rewrite E in Hin. by apply elem_of_nil in Hin.
Qed.

Lemma promise_wp w q c f d v (Q : unit -> pworld -> Prop) :
  pw_counters w !! c = Some v ->
  (forall w', pw_pools w' = pw_pools w -> pw_queues w' = pw_queues w -> pw_counters w' = counted c v (pw_counters w) -> Q tt w') ->
  wp (____each_pool_promise_f q c f d) w Q.
Proof.
  intros Ev HQ. unfold ____each_pool_promise_f. apply wp_bind, wp_get. rewrite Ev. apply wp_bind, modp_wp. unfold counted in HQ.
  destruct (v - 1 =? 0); [|apply wp_ret; by apply HQ].
  apply wp_bind, modp_wp, wp_bind, modp_wp, wp_bind, wp_get.
  destruct (_ && _); [|apply wp_ret; apply HQ; cbn; try done].
  2: by rewrite delete_insert_eq.
  apply wp_bind, modp_wp. destruct (env_done _ _); apply modp_wp; apply HQ; cbn; try done; by rewrite delete_insert_eq.
Qed.

Lemma h_run_step s q : hinv s -> known q (h_w s) = true -> wp (h_step qp (HRun q)) s (fun _ s' => hinv s').
Proof.
  intros (p & L & I) Hk. unfold known in Hk. destruct (pw_queues (h_w s) !! q) as [x|] eqn:Ex; [|done]. cbn [h_step]. apply on_w_wp.
  unfold run_job. apply wp_bind. eapply get_q_wp; [exact Ex|]. destruct (pq_jobs x) as [|j js] eqn:Ej; [apply wp_ret; exists p, L; by destruct s|].
  apply wp_bind. eapply put_q_wp; [exact Ex|]. apply wp_bind. destruct (hi_queue _ _ _ _ I _ _ Ex) as (_ & Hu & Hc). rewrite Ej in Hc. cbn [length] in Hc.
  destruct j as [id|c f d].
  - apply modp_wp. eapply mod_q_wp; [cbn; by rewrite lookup_insert_eq|]. exists p, L.
    assert (hinv_at (MkH (set_pqueues (<[q := ran_one js x]> (pw_queues (h_w s))) (h_w s)) (h_held s) (h_taken s) (h_waits s)) p L) as I'.
    { apply (hinv_upd qp s p L q x _ (h_held s) (h_waits s) I Ex); cbn -[promised]; try done; [lia|]. intros c. by rewrite Ej, promised_cons. }
    refine (hinv_same _ _ _ _ _ _ _ I' _ _ _ _); [apply (hi_pool _ _ _ _ I')| |done..]. cbn. by rewrite insert_insert_eq.
  - destruct (hinv_promise _ _ _ _ _ _ _ _ _ I Ex Ej) as (v & Ev & _ & I'). eapply promise_wp; [exact Ev|].
    intros w' E1 E2 E3. eapply mod_q_wp; [rewrite E2; cbn; by rewrite lookup_insert_eq|]. exists p, L.
    refine (hinv_same _ _ _ _ _ _ _ I' _ _ _ _); [cbn; rewrite E1; apply (hi_pool _ _ _ _ I)| |cbn; by rewrite E3|done]. cbn. rewrite E2. cbn. by rewrite insert_insert_eq.
Qed.

(** ** Shrinking to nothing *)

Lemma shrink_each_wp b wait : forall B a k w p,
  pw_pools w !! qp = Some p -> pool_entries p = replicate a (MkEnt 0 0) ++ B ++ replicate k (MkEnt 0 0) -> NoDup (qs B) ->
  (forall q, q ∈ qs B -> q <> 0 /\ is_Some (pw_queues w !! q)) ->
  wp (shrink_each b qp wait (length B) (Z.of_nat a)) w (fun _ w' => exists m p',
    w' = set_pqueues m (set_pools (<[qp := p']> (pw_pools w)) w) /\
    pool_entries p' = replicate (a + length B + k) (MkEnt 0 0) /\ q_count p' = q_count p /\ pool_size p' = pool_size p /\
    (forall q, q ∉ qs B -> m !! q = pw_queues w !! q) /\ (forall q x, q ∈ qs B -> pw_queues w !! q = Some x -> exists sw, m !! q = Some (ended sw x))).
Proof.
  induction B as [|e B IH]; intros a k w p Ep Hl Hn Hq; cbn [shrink_each length].
  { apply wp_ret. exists (pw_queues w), p. split; [destruct w; unfold set_pqueues, set_pools; cbn in *; by rewrite insert_id|].
    split; [rewrite Hl; cbn; by rewrite <-replicate_add, Nat.add_0_r|]. repeat split; try done. by intros q x ?%elem_of_nil. }
  apply wp_bind. eapply get_pool_wp; [exact Ep|]. apply wp_bind.
  eapply entry_at_wp; [rewrite Hl, lookup_app_r; rewrite length_replicate; [by rewrite Nat.sub_diag|done]|].
  apply wp_bind. eapply put_pool_wp; [exact Ep|]. cbn [qs map] in Hn, Hq. rewrite NoDup_cons in Hn. destruct Hn as [Hni Hn].
  destruct (Hq (e_q e) ltac:(left)) as [He0 [x Ex]]. destruct (Z.eqb_spec (e_q e) 0); [done|]. set (sw := wait && negb (b =? e_q e)).
  apply wp_bind. apply wp_bind. eapply destroy_q_wp; [exact Ex|]. apply wp_ret. apply wp_bind.
  replace (Z.of_nat a + 1) with (Z.of_nat (S a)) by lia.
  eapply wp_mono; [eapply (IH (S a) k); [cbn; by rewrite lookup_insert_eq| |done|]|].
  - cbn [set_entry set_entries pool_entries]. rewrite Nat2Z.id, Hl, insert_app_r_alt by (rewrite length_replicate; lia). rewrite length_replicate, Nat.sub_diag.
    cbn [app insert list_insert]. rewrite (replicate_S_end a), <-app_assoc. done.
  - intros q Hqb. cbn. destruct (decide (q = e_q e)) as [->|]; [done|]. rewrite lookup_insert_ne by done. apply Hq. by right.
  - cbn beta. intros l w' (m & p' & -> & E1 & E2 & E3 & E4 & E5). apply wp_ret. exists m, p'. cbn [set_entry set_entries q_count pool_size pw_queues set_pqueues set_pools pw_pools] in *.
    split; [unfold set_pqueues, set_pools; cbn; by rewrite insert_insert_eq|]. split; [rewrite E1; cbn [length]; f_equal; lia|]. split; [done|]. split; [done|]. split.
    + intros q Hqn. rewrite E4 by set_solver. rewrite lookup_insert_ne; [done|]. set_solver.
    + intros q y [->|Hqb]%elem_of_cons Ey.
      * rewrite Ex in Ey. injection Ey as <-. exists sw. rewrite E4 by done. by rewrite lookup_insert_eq.
      * apply E5; [done|]. rewrite lookup_insert_ne; [done|]. intros <-. done.
Qed.

Lemma h_shrink_all_step s b wait : hinv s -> wp (h_step qp (HShrinkAll b wait)) s (fun _ s' => hinv s').
Proof.
  intros (p & L & I). cbn [h_step]. apply wp_bind, on_w_wp. unfold __mpqp_shrink_all. pose proof (hi_lives _ _ _ _ I) as HL. pose proof (hi_pool _ _ _ _ I) as Ep.
  destruct (lives_count _ _ HL) as (Hn & Hc & _).
  assert (forall s1 l, hinv s1 -> wp (modh (add_waits b l)) s1 (fun _ s' => hinv s')) as Hmod.
  { intros s1 l (p1 & L1 & I1). apply modh_wp. exists p1, L1. unfold add_waits. destruct (b =? 0); [done|]. eapply hinv_same; [exact I1|apply (hi_pool _ _ _ _ I1)|done..]. }
  assert (forall l, wp (cret l) (h_w s) (fun l w => wp (modh (add_waits b l)) (MkH w (h_held s) (h_taken s) (h_waits s)) (fun _ s' => hinv s'))) as Hno.
  { intros l. apply wp_ret, Hmod. exists p, L. by destruct s. }
  destruct (qp =? 0); [apply Hno|]. apply wp_bind. eapply get_pool_wp; [exact Ep|]. destruct (Z.ltb_spec 0 (q_count p)); [|apply Hno].
  destruct I as [H1 H2 H3 H4 H5 H6 H7 H8 H9 H10 H11]. assert (hinv_at s p L) as I by (by split).
  destruct HL as (k & Hl & Hc' & Hs). rewrite NoDup_app in H5. destruct H5 as (N1 & N2 & N3).
  apply wp_bind. rewrite Hn. eapply wp_mono; [eapply (shrink_each_wp b wait L 0 k); [exact Ep|exact Hl|done|by apply (pool_known _ _ _ I)]|].
  cbn beta. intros l w' (m & p' & -> & E1 & E2 & E3 & E4 & E5). apply wp_bind. eapply get_pool_wp; [cbn; by rewrite lookup_insert_eq|].
  apply wp_bind. eapply put_pool_wp; [cbn; by rewrite lookup_insert_eq|]. apply wp_ret, Hmod. exists (set_entries (pool_entries p') 0 p'), [].
  assert (forall q x', m !! q = Some x' -> exists x, pw_queues (h_w s) !! q = Some x /\ (x' = x \/ exists sw, x' = ended sw x)) as Hback.
  { intros q x' Ex'. destruct (decide (q ∈ qs L)) as [Hin|Hni]; [|rewrite E4 in Ex' by done; eauto].
    destruct (pool_known _ _ _ I q Hin) as [_ [x Ex]]. destruct (E5 q x Hin Ex) as [sw Esw]. exists x. split; [done|]. right. exists sw. congruence. }
  assert (forall q c, owes (set_pqueues m (h_w s)) q c <-> owes (h_w s) q c) as Hw.
  { intros q c. unfold owes. cbn. split.
    - intros (x' & Ex' & Hp). destruct (Hback _ _ Ex') as (x & Ex & [->|[sw ->]]); by exists x.
    - intros (x & Ex & Hp). destruct (decide (q ∈ qs L)) as [Hin|Hni]; [destruct (E5 q x Hin Ex) as [sw Esw]; by exists (ended sw x)|exists x; by rewrite E4]. }
  split; cbn [h_w h_held h_taken pw_pools pw_queues pw_counters set_pools set_pqueues]; try done.
  - by rewrite lookup_insert_eq.
  - exists (length L + k)%nat. cbn. rewrite E1, E3, Hs. done.
  - cbn. by rewrite E3.
  - intros q. cbn. unfold live. cbn. split.
    + intros (x' & Ex' & Et). destruct (Hback _ _ Ex') as (x & Ex & [->|[sw ->]]); [|done].
      assert (q ∈ qs L ++ map snd (h_taken s)) as [Hin|Hin]%elem_of_app by (apply H6; by exists x); [|done].
      destruct (E5 q x Hin Ex) as [sw Esw]. rewrite Esw in Ex'. injection Ex' as Ex'. rewrite <-Ex' in Et. done.
    + intros Hin. assert (live (h_w s) q) as (x & Ex & Et) by (apply H6; set_solver). exists x. split; [|done]. rewrite E4; [done|].
      intros Hin'. by apply (N2 q).
  - intros q x' Ex'. destruct (Hback _ _ Ex') as (x & Ex & [->|[sw ->]]); exact (H7 _ _ Ex).
  - intros q Hh. destruct (H8 q Hh) as [x Ex]. destruct (decide (q ∈ qs L)) as [Hin|Hni]; [destruct (E5 q x Hin Ex) as [sw ->]; done|rewrite E4 by done; by exists x].
  - intros q x' c Ex'. destruct (Hback _ _ Ex') as (x & Ex & [->|[sw ->]]); exact (H9 _ _ c Ex).
  - intros c v Ev. destruct (H10 c v Ev) as (l0 & ? & ? & ? & Hl0). exists l0. repeat split; try done; intros Hx; [by apply Hw, Hl0|by apply Hl0, Hw].
  - intros q c Ho. apply (H11 q c). by apply Hw.
Qed.

End Steps.
