(* ===== verification/MpqpTail.v ===== *)
(** * Pools of queues: tail requests and all runs *)
From S2P Require Import Prelude Refs Mpqp MpqpInv MpqpStep.
#[local] Open Scope aosl_scope.

Section Tail.
Context `{PoolEnv} (qp : Z).
Abbreviation hinv_at := (MpqpInv.hinv_at qp).
Abbreviation hinv := (MpqpInv.hinv qp).

Lemma promised_elem c js : promised c js = 0%nat <-> forall f d, JPromise c f d ∉ js.
Proof.
  induction js as [|j js IH]; [split; [by intros _ f d ?%elem_of_nil|done]|]. rewrite promised_cons. split.
  - intros E f d [Ej|Hin]%elem_of_cons; [subst j; cbn in E; rewrite Z.eqb_refl in E; lia|]. assert (promised c js = 0%nat) as E' by lia. by eapply IH in E'.
  - intros Hn. assert (promised c js = 0%nat) as -> by (apply IH; intros f d Hin; apply (Hn f d); by right).
    destruct j as [|c' f d]; [done|]. cbn. destruct (Z.eqb_spec c' c) as [->|]; [|done]. destruct (Hn f d). by left.
Qed.

(** The same function goes to the tail of each queue of the pool. *)
Lemma queue_each_wp p j L (HL : lives p L) : forall B A w,
  L = A ++ B -> NoDup (qs B) -> (forall q, q ∈ qs B -> is_Some (pw_queues w !! q)) ->
  wp (queue_each p j (length B) (Z.of_nat (length A))) w (fun _ w' =>
    pw_pools w' = pw_pools w /\ pw_counters w' = pw_counters w /\ pw_log w' = pw_log w /\
    (forall q, q ∉ qs B -> pw_queues w' !! q = pw_queues w !! q) /\
    (forall q x, q ∈ qs B -> pw_queues w !! q = Some x -> pw_queues w' !! q = Some (add_job j x))).
Proof.
  induction B as [|e B IH]; intros A w E Hn Hq; cbn [queue_each length].
  { apply wp_ret. repeat split; try done. by intros q x ?%elem_of_nil. }
  apply wp_bind. eapply entry_at_wp; [rewrite E in HL; by eapply lives_at|]. cbn [qs map] in Hn, Hq. rewrite NoDup_cons in Hn. destruct Hn as [Hni Hn].
  destruct (Hq (e_q e) ltac:(left)) as [x Ex]. apply wp_bind. unfold __mpq_queue. apply wp_bind, wp_get, wp_bind, modp_wp. cbn [Z.eqb].
  apply wp_bind. eapply mod_q_wp; [exact Ex|]. apply wp_ret.
  replace (Z.of_nat (length A) + 1) with (Z.of_nat (length (A ++ [e]))) by (rewrite length_app; cbn; lia).
  eapply wp_mono; [apply IH; [by rewrite <-app_assoc|done|]|].
  - intros q Hqb. cbn. destruct (decide (q = e_q e)) as [->|]; [done|]. rewrite lookup_insert_ne by done. apply Hq. by right.
  - cbn beta. intros _ w' (E1 & E2 & E3 & E4 & E5). cbn in *. repeat split; try done.
    + intros q Hqn. rewrite E4 by set_solver. rewrite lookup_insert_ne; [done|]. set_solver.
    + intros q y [->|Hqb]%elem_of_cons Ey.
      * rewrite Ex in Ey. injection Ey as <-. rewrite E4 by done. by rewrite lookup_insert_eq.
      * apply E5; [done|]. rewrite lookup_insert_ne; [done|]. intros <-. done.
Qed.

(** Each queue of the pool has a promise more, and there is a counter for them. *)
Lemma hinv_tail s p L c f d w' :
  hinv_at s p L -> L <> [] -> pw_counters (h_w s) !! c = None -> pw_pools w' !! qp = Some p ->
  pw_counters w' = <[c := Z.of_nat (length L)]> (pw_counters (h_w s)) ->
  (forall q, q ∉ qs L -> pw_queues w' !! q = pw_queues (h_w s) !! q) ->
  (forall q x, q ∈ qs L -> pw_queues (h_w s) !! q = Some x -> pw_queues w' !! q = Some (add_job (JPromise c f d) x)) ->
  hinv_at (MkH w' (h_held s) (h_taken s) (h_waits s)) p L.
Proof.
  intros I HL Hc Ep Ec E4 E5. destruct I as [H1 H2 H3 H4 H5 H6 H7 H8 H9 H10 H11]. assert (hinv_at s p L) as I by (by split).
  rewrite NoDup_app in H5. destruct H5 as (N1 & N2 & N3).
  assert (forall q x', pw_queues w' !! q = Some x' -> exists x, pw_queues (h_w s) !! q = Some x /\
    (((q ∉ qs L) /\ x' = x) \/ (q ∈ qs L /\ x' = add_job (JPromise c f d) x))) as Hback.
  { intros q x' Ex'. destruct (decide (q ∈ qs L)) as [Hin|Hni]; [|rewrite E4 in Ex' by done; eauto].
    destruct (pool_known qp _ _ _ I q Hin) as [_ [x Ex]]. exists x. split; [done|]. right. split; [done|]. rewrite (E5 q x Hin Ex) in Ex'. congruence. }
  assert (forall q x c', pw_queues (h_w s) !! q = Some x -> promised c' (pq_jobs (add_job (JPromise c f d) x)) =
    (promised c' (pq_jobs x) + (if decide (c' = c) then 1 else 0))%nat) as Hpr.
  { intros q x c' Ex. cbn -[promised]. rewrite promised_app, promised_cons. cbn. destruct (Z.eqb_spec c c'), (decide (c' = c)); lia || congruence. }
  assert (forall q x, pw_queues (h_w s) !! q = Some x -> promised c (pq_jobs x) = 0%nat) as Hz.
  { intros q x Ex. destruct (promised c (pq_jobs x)) as [|[|k]] eqn:E; [done| |pose proof (H9 q x c Ex); lia].
    destruct (H11 q c) as [v Ev]; [exists x; done|]. congruence. }
  assert (forall q c', c' <> c -> owes w' q c' <-> owes (h_w s) q c') as Hw.
  { intros q c' Hn. unfold owes. split.
    - intros (x' & Ex' & Hp). destruct (Hback _ _ Ex') as (x & Ex & [[_ ->]|[_ ->]]); exists x; [done|]. rewrite (Hpr q x c' Ex), decide_False in Hp by done. split; [done|lia].
    - intros (x & Ex & Hp). destruct (decide (q ∈ qs L)) as [Hin|Hni]; [|exists x; by rewrite E4]. exists (add_job (JPromise c f d) x).
      split; [by apply E5|]. rewrite (Hpr q x c' Ex), decide_False by done. lia. }
  assert (forall q, owes w' q c <-> q ∈ qs L) as Hwc.
  { intros q. split.
    - intros (x' & Ex' & Hp). destruct (Hback _ _ Ex') as (x & Ex & [[_ ->]|[Hin _]]); [|done]. rewrite (Hz q x Ex) in Hp. done.
    - intros Hin. destruct (pool_known qp _ _ _ I q Hin) as [_ [x Ex]]. exists (add_job (JPromise c f d) x). split; [by apply E5|].
      rewrite (Hpr q x c Ex), decide_True, (Hz q x Ex) by done. done. }
  split; cbn [h_w h_held h_taken]; try done.
  - rewrite NoDup_app. done.
  - intros q. rewrite <-H6. unfold live. split.
    + intros (x' & Ex' & Et). destruct (Hback _ _ Ex') as (x & Ex & [[_ ->]|[_ ->]]); by exists x.
    + intros (x & Ex & Et). destruct (decide (q ∈ qs L)) as [Hin|Hni]; [exists (add_job (JPromise c f d) x); split; [by apply E5|done]|exists x; by rewrite E4].
  - intros q x' Ex'. destruct (Hback _ _ Ex') as (x & Ex & [[_ ->]|[_ ->]]); destruct (H7 _ _ Ex) as (? & ? & ?); [done|]. cbn. rewrite length_app. cbn. lia.
  - intros q Hh. destruct (H8 q Hh) as [x Ex]. destruct (decide (q ∈ qs L)) as [Hin|Hni]; [rewrite (E5 q x Hin Ex); done|rewrite E4 by done; by exists x].
  - intros q x' c' Ex'. destruct (Hback _ _ Ex') as (x & Ex & [[_ ->]|[_ ->]]); [by eapply H9|]. rewrite (Hpr q x c' Ex).
    destruct (decide (c' = c)) as [->|]; [rewrite (Hz q x Ex); lia|]. pose proof (H9 _ _ c' Ex). lia.
  - intros c' v Ev. rewrite Ec in Ev. destruct (decide (c' = c)) as [->|Hn].
    + rewrite lookup_insert_eq in Ev. injection Ev as <-. exists (qs L). split; [done|]. split; [unfold qs; by rewrite length_map|].
      split; [by destruct L|]. intros q. by rewrite Hwc.
    + rewrite lookup_insert_ne in Ev by done. destruct (H10 c' v Ev) as (l & ? & ? & ? & Hl). exists l. repeat split; try done; intros Hx; [by apply Hw, Hl|by apply Hl, Hw].
  - intros q c' Ho. rewrite Ec. destruct (decide (c' = c)) as [->|Hn]; [by rewrite lookup_insert_eq|]. rewrite lookup_insert_ne by done. apply (H11 q c'). by apply Hw.
Qed.

Lemma no_promise s p L c q x f d : hinv_at s p L -> pw_counters (h_w s) !! c = None -> pw_queues (h_w s) !! q = Some x -> JPromise c f d ∉ pq_jobs x.
Proof.
  intros I Hc Ex. assert (promised c (pq_jobs x) = 0%nat) as H0; [|by apply (proj1 (promised_elem c (pq_jobs x)) H0)].
  pose proof (hi_once _ _ _ _ I q x c Ex) as H1. destruct (decide (promised c (pq_jobs x) = 1%nat)) as [E|]; [|lia].
  destruct (hi_promise _ _ _ _ I q c) as [v Ev]; [by exists x|congruence].
Qed.

(** The last part of the request, on a pool with a queue; [w] differs from the
    state [s] by the new counter. *)
Lemma tail_each_wp s p L c f d w :
  hinv_at s p L -> L <> [] -> pw_counters (h_w s) !! c = None ->
  pw_pools w = pw_pools (h_w s) -> pw_queues w = pw_queues (h_w s) -> pw_log w = pw_log (h_w s) -> pw_counters w = <[c := 0]> (pw_counters (h_w s)) ->
  wp (do p <- get_pool qp;
      modp (fun w => set_counters (<[c := q_count p]> (pw_counters w)) w) ;;
      queue_each p (JPromise c f d) (Z.to_nat (q_count p)) 0 ;;
      cret 0) w (fun r w' =>
    r = 0 /\ hinv_at (MkH w' (h_held s) (h_taken s) (h_waits s)) p L /\ pw_log w' = pw_log (h_w s) /\ is_Some (pw_counters w' !! c) /\
    (forall q x, q ∈ qs L -> pw_queues (h_w s) !! q = Some x -> pw_queues w' !! q = Some (add_job (JPromise c f d) x)) /\
    (forall q x f' d', pw_queues w' !! q = Some x -> JPromise c f' d' ∈ pq_jobs x -> f' = f /\ d' = d)).
Proof.
  intros I Hne Hc E1 E2 E3 E4. pose proof (hi_lives _ _ _ _ I) as HL. destruct (lives_count _ _ HL) as (Hn & Hq & _).
  pose proof (hi_nodup _ _ _ _ I) as Nd. rewrite NoDup_app in Nd. destruct Nd as (N1 & _ & _).
  apply wp_bind. eapply get_pool_wp; [rewrite E1; apply (hi_pool _ _ _ _ I)|]. apply wp_bind, modp_wp, wp_bind. rewrite Hn.
  eapply wp_mono; [eapply (queue_each_wp p _ L HL L []); [done|exact N1|cbn; rewrite E2; intros q Hin; by apply (pool_known qp _ _ _ I)]|].
  cbn beta. intros _ w' (F1 & F2 & F3 & F4 & F5). cbn in F1, F2, F3, F4, F5. apply wp_ret. rewrite E2 in F4, F5. rewrite E4, insert_insert_eq, Hq in F2.
  split; [done|]. split.
  - eapply (hinv_tail s p L c f d w' I Hne Hc); try done. rewrite F1, E1. apply (hi_pool _ _ _ _ I).
  - split; [by rewrite F3|]. split; [by rewrite F2, lookup_insert_eq|]. split; [done|]. intros q x f' d' Ex Hin.
    destruct (decide (q ∈ qs L)) as [Hq'|Hq']; [|rewrite F4 in Ex by done; by destruct (no_promise s p L c q x f' d' I Hc Ex)].
    destruct (pool_known qp _ _ _ I q Hq') as [_ [y Ey]]. rewrite (F5 q y Hq' Ey) in Ex. injection Ex as <-. cbn in Hin.
    apply elem_of_app in Hin as [Hin|[[= -> ->]|?%elem_of_nil]%elem_of_cons]; [by destruct (no_promise s p L c q y f' d' I Hc Ey)|done..].
Qed.

Lemma tail_wp s p L d f : hinv_at s p L ->
  wp (__mpqp_pool_tail_queue_argv qp d f) (h_w s) (fun r w' => hinv (MkH w' (h_held s) (h_taken s) (h_waits s)) /\ pw_log w' = pw_log (h_w s) /\
    (r = -1 \/ (r = 0 /\ exists c, pw_counters (h_w s) !! c = None /\ is_Some (pw_counters w' !! c) /\
       (forall q x, q ∈ qs L -> pw_queues (h_w s) !! q = Some x -> pw_queues w' !! q = Some (add_job (JPromise c f d) x)) /\
       (forall q x f' d', pw_queues w' !! q = Some x -> JPromise c f' d' ∈ pq_jobs x -> f' = f /\ d' = d)))).
Proof.
  intros I. unfold __mpqp_pool_tail_queue_argv. pose proof (hi_lives _ _ _ _ I) as HL. pose proof (hi_pool _ _ _ _ I) as Ep.
  destruct (lives_count _ _ HL) as (_ & Hc & _). pose proof (hi_size _ _ _ _ I) as Hsz.
  apply wp_bind, wp_get. set (c := env_malloc (h_w s)). apply wp_bind, modp_wp.
  assert (hinv_at (MkH (tick (h_w s)) (h_held s) (h_taken s) (h_waits s)) p L) as It by (eapply hinv_same; [exact I|exact Ep|done..]).
  destruct (Z.eqb_spec c 0) as [|Hc0]; [apply wp_ret; split; [by exists p, L|]; split; [done|by left]|].
  destruct (env_malloc_ok _ Hc0) as (_ & _ & Hfresh). fold c in Hfresh. apply wp_bind, modp_wp, wp_bind. eapply get_pool_wp; [exact Ep|].
  destruct (Z.eqb_spec (q_count p) 0) as [Hz|Hnz].
  - assert (L = []) as -> by (destruct L; [done|cbn in Hc; lia]). apply wp_bind.
    eapply wp_mono; [eapply (create_add_wp qp _ p []); [exact Ep|exact HL|lia]|]. cbn beta.
    intros r w' [(e & He & -> & ->)|(q & id & Hq & Hf & _ & _ & -> & ->)].
    + apply wp_bind, modp_wp, failp_wp. split; [|split; [done|by left]]. exists p, []. eapply hinv_same; [exact I|exact Ep|done| |done].
      cbn. by rewrite delete_insert_id.
    + eapply wp_mono; [eapply (tail_each_wp _ _ _ c f d); [eapply (hinv_grown qp _ p [] q id It); [lia|done|done]| |exact Hfresh|done..]|]; [done|].
      cbn beta. intros r w' (-> & I' & E1 & E2 & E3 & E4). split; [eexists _, _; exact I'|]. split; [exact E1|]. right. split; [done|]. exists c.
      split; [done|]. split; [done|]. split; [by intros ? ? ?%elem_of_nil|done].
  - apply wp_bind, wp_ret. eapply wp_mono; [eapply (tail_each_wp _ _ _ c f d _ It); [by destruct L|exact Hfresh|done..]|].
    cbn beta. intros r w' (-> & I' & E1 & E2 & E3 & E4). split; [eexists _, _; exact I'|]. split; [exact E1|]. right. split; [done|]. exists c.
    split; [done|]. by split.
Qed.

Lemma h_tail_step s d f : hinv s -> wp (h_step qp (HTail d f)) s (fun _ s' => hinv s').
Proof.
  intros (p & L & I). cbn [h_step]. apply wp_bind, on_w_wp. eapply wp_mono; [exact (tail_wp s p L d f I)|]. cbn beta. intros r w' (I' & _). by apply wp_ret.
Qed.

(** ** All steps *)

Lemma h_step_ok s op : hinv s -> h_enabled qp op s = true -> wp (h_step qp op) s (fun _ s' => hinv s').
Proof.
  intros I He. destruct op; cbn [h_enabled] in He.
  - by apply h_get_step.
  - apply bool_decide_eq_true in He. by apply h_queue_step.
  - apply bool_decide_eq_true in He. by apply h_put_step.
  - by apply h_alloc_step.
  - by apply h_free_step.
  - by apply h_tail_step.
  - by apply h_take_step.
  - apply bool_decide_eq_true in He. by apply h_destroy_step.
  - by apply h_shrink_all_step.
  - apply andb_true_iff in He as [Hq He]. unfold h_free in He. destruct (q =? 0); [done|]. apply andb_true_iff in He as [[He _]%andb_true_iff _]. by apply h_run_step.
  - apply andb_true_iff in He as [Hq He]. unfold h_free in He. destruct (q =? 0); [done|]. apply andb_true_iff in He as [[He _]%andb_true_iff _]. by apply h_exit_step.
Qed.

Lemma h_start_inv s : h_start qp s -> hinv s.
Proof.
  intros (n & Hn & _ & (p & Ep & Es & Ec & El) & Eq & Ek & Eh & Et & _). exists p, [].
  assert (forall q, pw_queues (h_w s) !! q = None) as Hq by (intros q; rewrite Eq; apply lookup_empty).
  split; rewrite ?Eh, ?Et, ?Eq, ?Ek; try done.
  - exists (Z.to_nat n). rewrite El, Ec, Es. cbn. split; [done|]. split; [done|lia].
  - lia.
  - apply NoDup_nil_2.
  - intros q. split; [intros (x & Ex & _); by rewrite Hq in Ex|by intros ?%elem_of_nil].
  - by intros q ?%elem_of_nil.
  - intros q c (x & Ex & _). by rewrite Hq in Ex.
Qed.

Lemma hreach_inv s0 s : h_start qp s0 -> hreach qp s0 s -> hinv s.
Proof.
  intros H0. induction 1 as [|s op u s' _ IH He Hs]; [by apply h_start_inv|].
  pose proof (h_step_ok _ _ IH He) as Hw. unfold wp in Hw. by rewrite Hs in Hw.
Qed.

End Tail.
