(* ===== verification/MpqpProps.v ===== *)
(** * Pools of queues: correctness

    The choice of a queue, the safety of all runs, the meaning of a tail request,
    and two defects: queues of a pool that shrink it at the same time can wait
    for each other, and the pool behind [aosl_mpq_alloc] is never created. *)
From S2P Require Import Prelude Refs Mpqp MpqpInv MpqpStep MpqpTail.
#[local] Open Scope aosl_scope.

(** ** What a step leaves alone *)

(** As far as the counter [c] goes: nothing is run, the counter stays, and the
    queues keep their functions and get none with a promise for [c]. *)
Record keeps (c : Z) (w w' : pworld) : Prop := {
  k_log : pw_log w' = pw_log w;
  k_counter : is_Some (pw_counters w !! c) -> is_Some (pw_counters w' !! c);
  k_jobs : forall q x, pw_queues w !! q = Some x -> exists x' extra, pw_queues w' !! q = Some x' /\ pq_jobs x' = pq_jobs x ++ extra /\ promised c extra = 0%nat;
  k_new : forall q x', pw_queues w !! q = None -> pw_queues w' !! q = Some x' -> promised c (pq_jobs x') = 0%nat
}.

Lemma keeps_refl c w : keeps c w w.
Proof. split; try done; [|congruence]. intros q x E. exists x, []. by rewrite app_nil_r. Qed.
Lemma keeps_eq c w w' : pw_log w' = pw_log w -> pw_counters w' = pw_counters w -> pw_queues w' = pw_queues w -> keeps c w w'.
Proof. intros E1 E2 E3. destruct (keeps_refl c w) as [A1 A2 A3 A4]. split; rewrite ?E1, ?E2, ?E3; done. Qed.
Lemma keeps_trans c w1 w2 w3 : keeps c w1 w2 -> keeps c w2 w3 -> keeps c w1 w3.
Proof.
  intros [A1 A2 A3 A4] [B1 B2 B3 B4]. split; [congruence|tauto| |].
  - intros q x E. destruct (A3 q x E) as (x2 & e2 & E2 & J2 & P2). destruct (B3 q x2 E2) as (x3 & e3 & E3 & J3 & P3).
    exists x3, (e2 ++ e3). split; [done|]. split; [by rewrite J3, J2, app_assoc|]. rewrite promised_app. lia.
  - intros q x' E E'. destruct (pw_queues w2 !! q) as [x2|] eqn:E2; [|by eapply B4].
    destruct (B3 q x2 E2) as (x3 & e3 & E3 & J3 & P3). rewrite E' in E3. injection E3 as ->. rewrite J3, promised_app, (A4 q x2 E E2). lia.
Qed.

(** A computation with this property. *)
Definition pres {A} (c : Z) (m : CM pworld A) : Prop := forall w a w', m w = Ret (a, w') -> keeps c w w'.

Section Pres.
Context `{PoolEnv} (c : Z).

Lemma pres_ret {A} (a : A) : pres c (cret a).
Proof. intros w b w' [= _ <-]. apply keeps_refl. Qed.
Lemma pres_get : pres c cget.
Proof. intros w b w' [= _ <-]. apply keeps_refl. Qed.
Lemma pres_fault {A} : pres c (@cfault pworld A).
Proof. done. Qed.
Lemma pres_abort {A} : pres c (@cabort pworld A).
Proof. done. Qed.
Lemma pres_bind {A B} (m : CM pworld A) (k : A -> CM pworld B) : pres c m -> (forall a, pres c (k a)) -> pres c (cbind m k).
Proof. intros Hm Hk w b w' E. apply cbind_inv in E as (a & w1 & E1 & E2). eapply keeps_trans; [by eapply Hm|by eapply Hk]. Qed.
Lemma pres_modp f : (forall w, keeps c w (f w)) -> pres c (modp f).
Proof. intros Hf w a w' [= _ <-]. apply Hf. Qed.
Lemma pres_get_q q : pres c (get_q q).
Proof. intros w a w'. unfold get_q. run. destruct (_ !! _); [|done]. intros [= _ <-]. apply keeps_refl. Qed.
Lemma pres_get_pool a : pres c (get_pool a).
Proof. intros w b w'. unfold get_pool. run. destruct (_ !! _); [|done]. intros [= _ <-]. apply keeps_refl. Qed.
Lemma pres_entry_at p i : pres c (entry_at p i).
Proof. unfold entry_at. destruct (_ <? _); [done|]. destruct (_ !! _); [apply pres_ret|done]. Qed.
Lemma pres_put_pool a p : pres c (put_pool a p).
Proof. unfold put_pool. apply pres_bind; [apply pres_get_pool|]. intros _. apply pres_modp. intros w. by apply keeps_eq. Qed.
Lemma pres_mod_q q f : (forall x, exists extra, pq_jobs (f x) = pq_jobs x ++ extra /\ promised c extra = 0%nat) -> pres c (mod_q q f).
Proof.
  intros Hf w a w'. unfold mod_q, put_q, get_q, modp. run. destruct (pw_queues w !! q) as [x|] eqn:E; [|done]. rewrite E. intros [= _ <-].
  split; try done; cbn.
  - intros q' x'. destruct (decide (q' = q)) as [->|Hne]; [|rewrite lookup_insert_ne by done; intros E'; exists x', []; by rewrite app_nil_r].
    rewrite lookup_insert_eq, E. intros [= <-]. destruct (Hf x) as (extra & ? & ?). by exists (f x), extra.
  - intros q' x' E' E2. rewrite lookup_insert_ne in E2 by congruence. congruence.
Qed.
Lemma pres_same q f : (forall x, pq_jobs (f x) = pq_jobs x) -> pres c (mod_q q f).
Proof. intros Hf. apply pres_mod_q. intros x. exists []. by rewrite app_nil_r. Qed.
Lemma pres_failp e : pres c (failp e).
Proof. unfold failp. apply pres_bind; [apply pres_modp; intros w; by apply keeps_eq|]. intros. apply pres_ret. Qed.

Lemma pres_create : pres c __mpq_create.
Proof.
  unfold __mpq_create. intros w a w' E. apply cbind_inv in E as (w0 & w1 & [= <- <-] & E). apply cbind_inv in E as (u & w2 & [= _ <-] & E).
  destruct (env_create w) as [e|[q id]] eqn:Ec.
  - apply cbind_inv in E as (u' & w3 & [= _ <-] & [= _ <-]). by apply keeps_eq.
  - apply cbind_inv in E as (u' & w3 & [= _ <-] & [= _ <-]). destruct (env_create_ok _ _ _ Ec) as (_ & Hf & _). split; try done; cbn.
    + intros q' x E'. rewrite lookup_insert_ne by congruence. exists x, []. by rewrite app_nil_r.
    + intros q' x' E' E2. destruct (decide (q' = q)) as [->|Hne]; [rewrite lookup_insert_eq in E2; by injection E2 as <-|].
      rewrite lookup_insert_ne in E2 by done. congruence.
Qed.

End Pres.

(** Take a computation apart. *)
Ltac keep :=
  repeat first
  [ match goal with |- pres _ (cbind _ _) => apply pres_bind; [|intros ?] end | apply pres_ret | apply pres_get | apply pres_fault | apply pres_abort | apply pres_get_q | apply pres_get_pool
  | apply pres_entry_at | apply pres_put_pool | apply pres_failp | apply pres_create | (apply pres_same; done)
  | (apply pres_modp; intros ?; by apply keeps_eq) | match goal with |- pres _ (if ?b then _ else _) => destruct b end
  | match goal with |- pres _ (match ?b with _ => _ end) => destruct b end ].

Section Pres2.
Context `{PoolEnv} (c qp : Z).

Lemma pres_queue q nf j : promised c [j] = 0%nat -> pres c (__mpq_queue q nf j).
Proof. intros Hj. unfold __mpq_queue. keep. apply pres_mod_q. intros x. by exists [j]. Qed.
Lemma pres_find_best p n : forall i best, pres c (find_best_q p n i best).
Proof. induction n as [|n IH]; intros i best; cbn [find_best_q]; keep; apply IH. Qed.
Lemma pres_find_entry p n : forall i best, pres c (find_best_entry p n i best).
Proof. induction n as [|n IH]; intros i best; cbn [find_best_entry]; keep; apply IH. Qed.
Lemma pres_find_qid p qid n : forall i, pres c (find_entry_qid p qid n i).
Proof. induction n as [|n IH]; intros i; cbn [find_entry_qid]; keep; apply IH. Qed.
Lemma pres_create_add : pres c (__pool_create_add_mpq_locked qp).
Proof. unfold __pool_create_add_mpq_locked. keep. Qed.
Lemma pres_best_get : pres c (__mpqp_best_q_get qp).
Proof. unfold __mpqp_best_q_get, __mpqp_find_best_q_locked, ____q_get. keep; apply pres_find_best || apply pres_create_add. Qed.
Lemma pres_alloc : pres c (__mpqp_best_entry_get_or_alloc qp).
Proof. unfold __mpqp_best_entry_get_or_alloc, __mpqp_find_best_alloc_entry_locked. keep; apply pres_find_entry || apply pres_create_add. Qed.
Lemma pres_free qid : pres c (mpq_free qp qid).
Proof. unfold mpq_free, __mpqp_find_entry_with_qid_locked. keep; apply pres_find_qid. Qed.
Lemma pres_destroy q wait : pres c (destroy_q q wait).
Proof. unfold destroy_q, __mpq_add_wait, ____q_get, __mpq_destroy, ____q_put. keep. Qed.
Lemma pres_shrink_each b wait n : forall i, pres c (shrink_each b qp wait n i).
Proof. induction n as [|n IH]; intros i; cbn [shrink_each]; keep; apply IH || apply pres_destroy. Qed.
Lemma pres_shrink_all b wait : pres c (__mpqp_shrink_all b qp wait).
Proof. unfold __mpqp_shrink_all. keep; apply pres_shrink_each. Qed.
Lemma pres_each p j n : promised c [j] = 0%nat -> forall i, pres c (queue_each p j n i).
Proof. intros Hj. induction n as [|n IH]; intros i; cbn [queue_each]; keep; [by apply pres_queue|apply IH]. Qed.

End Pres2.

(** ** Tail requests *)

(** The functions of users that a queue has run, and that are in a list. *)
Fixpoint ran (q : Z) (log : list pevent) : list Z :=
  match log with
  | [] => []
  | EvRun q' id :: log => if q' =? q then id :: ran q log else ran q log
  | _ :: log => ran q log
  end.
Fixpoint users (js : list job) : list Z :=
  match js with [] => [] | JUser id :: js => id :: users js | _ :: js => users js end.
(** The function of a tail request has run. *)
Definition tailed (c : Z) (log : list pevent) : Prop := exists q f, EvTail q c f ∈ log.

Lemma ran_app q l1 l2 : ran q (l1 ++ l2) = ran q l1 ++ ran q l2.
Proof. induction l1 as [|[q' id| | |] l1 IH]; cbn; [done| |done|done|done]. destruct (_ =? _); [by rewrite IH|done]. Qed.

Section Barrier.
Context `{PoolEnv} (qp : Z).
Abbreviation hinv := (MpqpInv.hinv qp).

Lemma on_w_inv {A} (m : CM pworld A) s a s' :
  on_w m s = Ret (a, s') -> exists w', m (h_w s) = Ret (a, w') /\ s' = MkH w' (h_held s) (h_taken s) (h_waits s).
Proof. unfold on_w. destruct (m (h_w s)) as [[b w']| | |]; try done. intros [= <- <-]. by exists w'. Qed.

Lemma tail_keeps c w r w' d f :
  env_malloc w = 0 \/ env_malloc w <> c -> __mpqp_pool_tail_queue_argv qp d f w = Ret (r, w') -> keeps c w w'.
Proof.
  intros Ev E. unfold __mpqp_pool_tail_queue_argv in E. apply cbind_inv in E as (w0 & w1 & [= <- <-] & E).
  destruct (decide (env_malloc w = 0)) as [Hz|Hnz].
  - rewrite Hz in E. apply cbind_inv in E as (u & w1 & [= _ <-] & [= _ <-]). by apply keeps_eq.
  - destruct Ev as [?|Hc]; [done|]. set (k := env_malloc w) in *. clearbody k.
    assert (forall v, pres c (modp (fun w => set_counters (<[k := v]> (pw_counters w)) w))) as P1.
    { intros v'. apply pres_modp. intros w2. destruct (keeps_refl c w2) as [A1 A2 A3 A4]. split; try done. cbn. by rewrite lookup_insert_ne. }
    assert (pres c (modp (fun w => set_counters (delete k (pw_counters w)) w))) as P2.
    { apply pres_modp. intros w2. destruct (keeps_refl c w2) as [A1 A2 A3 A4]. split; try done. cbn. by rewrite lookup_delete_ne. }
    assert (promised c [JPromise k f d] = 0%nat) as P3 by (unfold promised; cbn; destruct (Z.eqb_spec k c); done).
    revert E. match goal with |- ?m w = Ret (r, w') -> _ => assert (pres c m) as Hp end.
    { keep; auto using pres_create_add, pres_each. }
    apply Hp.
Qed.

Lemma counter_other w c : is_Some (pw_counters w !! c) -> env_malloc w = 0 \/ env_malloc w <> c.
Proof. intros [v E]. destruct (decide (env_malloc w = 0)) as [|Hn]; [by left|right]. destruct (env_malloc_ok w Hn) as (_ & _ & Hf). congruence. Qed.

(** A step that does not run a function or end a queue. *)
Lemma step_keeps c op s u s' :
  env_malloc (h_w s) = 0 \/ env_malloc (h_w s) <> c -> h_step qp op s = Ret (u, s') -> (forall q, op <> HRun q /\ op <> HExit q) ->
  keeps c (h_w s) (h_w s').
Proof.
  intros Hc E Hop. assert (forall A (m : CM pworld A) (g : A -> CM hst unit), pres c m ->
    (forall a s1 u s2, g a s1 = Ret (u, s2) -> h_w s2 = h_w s1) -> cbind (on_w m) g s = Ret (u, s') -> keeps c (h_w s) (h_w s')) as Hgo.
  { intros A m g Hm Hg E'. apply cbind_inv in E' as (a & s1 & E1 & E2). apply on_w_inv in E1 as (w1 & E1 & ->). apply Hg in E2. rewrite E2. by eapply Hm. }
  destruct op; cbn [h_step] in E; try (by destruct (Hop q)).
  - refine (Hgo _ _ _ _ _ E); [apply pres_best_get|]. cbn beta. intros a s1 v s2. destruct (_ && _); [|by intros [= _ <-]]. by intros [= _ <-].
  - refine (Hgo _ _ _ _ _ E); [apply pres_queue; reflexivity|]. by intros a s1 v s2 [= _ <-].
  - refine (Hgo _ _ _ _ _ E); [unfold __mpqp_best_q_put, ____q_put; keep|]. by intros a s1 v s2 [= _ <-].
  - refine (Hgo _ _ _ _ _ E); [apply pres_alloc|]. by intros a s1 v s2 [= _ <-].
  - refine (Hgo _ _ _ _ _ E); [apply pres_free|]. by intros a s1 v s2 [= _ <-].
  - apply cbind_inv in E as (a & s1 & E1 & [= _ <-]). apply on_w_inv in E1 as (w1 & E1 & ->).
    by eapply tail_keeps.
  - refine (Hgo _ _ _ _ _ E); [unfold shrink_take; keep|]. cbn beta. intros a s1 v s2. destruct (negb _); by intros [= _ <-].
  - refine (Hgo _ _ _ _ _ E); [apply pres_destroy|]. cbn beta. intros a s1 v s2. unfold modh. run. destruct (_ && _); [|by intros [= _ <-]].
    intros [= _ <-]. unfold add_waits. by destruct (_ =? _).
  - refine (Hgo _ _ _ _ _ E); [apply pres_shrink_all|]. cbn beta. intros a s1 v s2 [= _ <-]. unfold add_waits. by destruct (_ =? _).
Qed.

(** Where a queue is with what it had before the request, [N]: its promise is
    behind all of it, or it has run it. *)
Definition placed (c f d : Z) (N : list Z) (w : pworld) (q : Z) : Prop :=
  (exists x a b, pw_queues w !! q = Some x /\ pq_jobs x = a ++ JPromise c f d :: b /\ ran q (pw_log w) ++ users a = N) \/
  N `prefix_of` ran q (pw_log w).

Record waiting (c f d : Z) (l0 : list pevent) (Q : list (Z * list Z)) (w : pworld) (new : list pevent) : Prop := {
  wt_log : pw_log w = l0 ++ new;
  wt_none : ~ tailed c new;
  wt_counter : is_Some (pw_counters w !! c);
  wt_same : forall q x f' d', pw_queues w !! q = Some x -> JPromise c f' d' ∈ pq_jobs x -> f' = f /\ d' = d;
  wt_placed : forall q N, (q, N) ∈ Q -> placed c f d N w q
}.
Definition finished (c f : Z) (l0 : list pevent) (Q : list (Z * list Z)) (w : pworld) (new : list pevent) : Prop :=
  pw_log w = l0 ++ new /\ (exists q, EvTail q c f ∈ new) /\ forall q N, (q, N) ∈ Q -> N `prefix_of` ran q (pw_log w).

Lemma placed_keeps c f d N w w' q : keeps c w w' -> placed c f d N w q -> placed c f d N w' q.
Proof.
  intros [A1 A2 A3 A4] [(x & a & b & E & J & R)|P]; [left|right; by rewrite A1].
  destruct (A3 q x E) as (x' & extra & E' & J' & _). exists x', a, (b ++ extra). split; [done|]. split; [by rewrite J', J, <-app_assoc|]. by rewrite A1.
Qed.

Lemma waiting_keeps c f d l0 Q w w' new : keeps c w w' -> waiting c f d l0 Q w new -> waiting c f d l0 Q w' new.
Proof.
  intros K [W1 W2 W3 W4 W5]. pose proof K as [A1 A2 A3 A4]. split; [by rewrite A1|done|by apply A2| |intros q N Hq; by eapply placed_keeps; [|apply W5]].
  intros q x' f' d' E' Hin. destruct (pw_queues w !! q) as [x|] eqn:E.
  - destruct (A3 q x E) as (x2 & extra & E2 & J & P). rewrite E' in E2. injection E2 as ->. rewrite J in Hin. apply elem_of_app in Hin as [Hin|Hin]; [by eapply W4|].
    rewrite promised_elem in P. by apply P in Hin.
  - pose proof (A4 q x' E E') as P. rewrite promised_elem in P. by apply P in Hin.
Qed.

(** What the thread of a queue does with its first function. *)
Lemma promise_run w q c f d v : pw_counters w !! c = Some v -> exists w' e, ____each_pool_promise_f q c f d w = Ret (tt, w') /\
  pw_queues w' = pw_queues w /\ pw_counters w' = counted c v (pw_counters w) /\ pw_log w' = pw_log w ++ e /\ (forall q', ran q' e = []) /\
  (forall q' c' f', EvTail q' c' f' ∈ e -> c' = c /\ v = 1) /\ (v = 1 -> EvTail q c f ∈ e).
Proof.
  intros Ev. unfold ____each_pool_promise_f, counted, modp. run. rewrite Ev. destruct (Z.eqb_spec (v - 1) 0) as [Hz|Hz].
  - destruct (_ && _); [destruct (env_done _ _)|];
      (eexists _, _; split; [reflexivity|]; cbn; split; [done|]; split; [by rewrite delete_insert_eq|]; split; [rewrite <-?app_assoc; reflexivity|];
       split; [done|]; split; [intros q' c' f' Hin; set_unfold; naive_solver lia|intros _; set_solver]).
  - eexists _, []. split; [reflexivity|]. cbn. rewrite app_nil_r. split; [done|]. split; [done|]. split; [done|]. split; [done|].
    split; [by intros ? ? ? ?%elem_of_nil|lia].
Qed.

Lemma run_wp s q x : hinv s -> pw_queues (h_w s) !! q = Some x -> wp (run_job q) (h_w s) (fun _ w' => exists e, pw_log w' = pw_log (h_w s) ++ e /\
  match pq_jobs x with
  | [] => w' = h_w s
  | JUser id :: js => e = [EvRun q id] /\ pw_queues w' = <[q := ran_one js x]> (pw_queues (h_w s)) /\ pw_counters w' = pw_counters (h_w s)
  | JPromise c f d :: js => exists v, pw_counters (h_w s) !! c = Some v /\ pw_queues w' = <[q := ran_one js x]> (pw_queues (h_w s)) /\
      pw_counters w' = counted c v (pw_counters (h_w s)) /\ (forall q', ran q' e = []) /\
      (forall q' c' f', EvTail q' c' f' ∈ e -> c' = c /\ v = 1) /\ (v = 1 -> EvTail q c f ∈ e)
  end).
Proof.
  intros (p & L & I) Ex. unfold run_job. apply wp_bind. eapply get_q_wp; [exact Ex|]. destruct (pq_jobs x) as [|[id|c f d] js] eqn:Ej.
  - apply wp_ret. exists []. by rewrite app_nil_r.
  - apply wp_bind. eapply put_q_wp; [exact Ex|]. apply wp_bind, modp_wp. eapply mod_q_wp; [cbn; by rewrite lookup_insert_eq|].
    exists [EvRun q id]. cbn. rewrite insert_insert_eq. done.
  - apply wp_bind. eapply put_q_wp; [exact Ex|]. apply wp_bind. destruct (hinv_promise _ _ _ _ _ _ _ _ _ _ I Ex Ej) as (v & Ev & _ & _).
    edestruct (promise_run (set_pqueues (<[q := MkPq (pq_qid x) (pq_count x) (pq_usage x) (pq_terminated x) js (pq_waits x) (pq_execs x + 1)]> (pw_queues (h_w s))) (h_w s)) q c f d v)
      as (w' & e & E1 & E2 & E3 & E4 & E5 & E6 & E7); [exact Ev|]. cbn [pw_queues set_pqueues pw_log pw_counters] in E2, E3, E4.
    unfold wp at 1. rewrite E1. eapply mod_q_wp; [rewrite E2; by rewrite lookup_insert_eq|].
    exists e. split; [done|]. exists v. split; [done|]. split; [cbn; by rewrite E2, insert_insert_eq|]. done.
Qed.

Lemma tailed_app c l1 l2 : tailed c (l1 ++ l2) -> tailed c l1 \/ tailed c l2.
Proof. intros (q & f & [Hin|Hin]%elem_of_app); [left|right]; by exists q, f. Qed.

(** A queue has run its first function, [e] is what was logged, and the promise
    for [c], if it was one, was not the last. *)
Lemma waiting_pop c f d l0 Q w w' new e q x j js :
  waiting c f d l0 Q w new -> pw_queues w !! q = Some x -> pq_jobs x = j :: js ->
  pw_log w' = pw_log w ++ e -> pw_queues w' = <[q := ran_one js x]> (pw_queues w) -> is_Some (pw_counters w' !! c) -> ~ tailed c e ->
  (forall q', ran q' e = if decide (q' = q) then users [j] else []) -> waiting c f d l0 Q w' (new ++ e).
Proof.
  intros [W1 W2 W3 W4 W5] Ex Ej El Eq Ec He Hr. split; [by rewrite El, W1, app_assoc|by intros [?|?]%tailed_app|done| |].
  - intros q' x' f' d'. rewrite Eq. destruct (decide (q' = q)) as [->|Hn]; [|rewrite lookup_insert_ne by done; apply W4].
    rewrite lookup_insert_eq. intros [= <-] Hin. eapply W4; [exact Ex|]. rewrite Ej. by right.
  - intros q' N Hin. destruct (W5 q' N Hin) as [(y & a & b & Ey & J & R)|P]; [|right; rewrite El, ran_app; by apply prefix_app_r].
    destruct (decide (q' = q)) as [->|Hn].
    + rewrite Ex in Ey. injection Ey as <-. rewrite Ej in J. destruct a as [|j' a].
      * right. exists (users [j]). rewrite El, ran_app, Hr, decide_True by done. cbn in R. rewrite app_nil_r in R. by rewrite R.
      * injection J as -> ->. left. exists (ran_one (a ++ JPromise c f d :: b) x), a, b. rewrite Eq, lookup_insert_eq. split; [done|]. split; [done|].
        rewrite El, ran_app, Hr, decide_True, <-app_assoc by done. rewrite <-R. f_equal. by destruct j'.
    + left. exists y, a, b. rewrite Eq, lookup_insert_ne by done. split; [done|]. split; [done|]. by rewrite El, ran_app, Hr, decide_False, app_nil_r.
Qed.

(** The last promise has run: all the queues are past theirs. *)
Lemma waiting_last c f d l0 Q s new e q x js w' :
  hinv s -> waiting c f d l0 Q (h_w s) new -> pw_queues (h_w s) !! q = Some x -> pq_jobs x = JPromise c f d :: js ->
  pw_counters (h_w s) !! c = Some 1 -> pw_log w' = pw_log (h_w s) ++ e -> EvTail q c f ∈ e -> finished c f l0 Q w' (new ++ e).
Proof.
  intros (p & L & I) [W1 W2 W3 W4 W5] Ex Ej Ev El He. split; [by rewrite El, W1, app_assoc|]. split; [exists q; apply elem_of_app; by right|].
  assert (owes (h_w s) q c) as Ho.
  { exists x. split; [done|]. pose proof (hi_once _ _ _ _ I q x c Ex) as H1. rewrite Ej, promised_cons in H1 |- *. cbn [is_promise] in *. rewrite Z.eqb_refl in *. lia. }
  destruct (hi_counter _ _ _ _ I c 1 Ev) as (l & _ & Hl & _ & Hin). destruct l as [|q0 [|]]; cbn in Hl; [lia| |lia].
  intros q' N HQ. rewrite El, ran_app. apply prefix_app_r. destruct (W5 q' N HQ) as [(y & a & b & Ey & J & R)|P]; [|done].
  pose proof (hi_once _ _ _ _ I q' y c Ey) as H1. rewrite J, promised_app, promised_cons in H1. cbn [is_promise] in H1. rewrite Z.eqb_refl in H1.
  assert (owes (h_w s) q' c) as Ho'.
  { exists y. split; [done|]. rewrite J, promised_app, promised_cons. cbn [is_promise]. rewrite Z.eqb_refl. lia. }
  apply Hin, list_elem_of_singleton in Ho, Ho'. subst q' q0. rewrite Ex in Ey. injection Ey as <-. rewrite Ej in J. destruct a as [|j' a].
  - cbn in R. rewrite app_nil_r in R. by rewrite R.
  - injection J as <- ->. rewrite promised_cons in H1. cbn [is_promise] in H1. rewrite Z.eqb_refl in H1. lia.
Qed.

Lemma waiting_run c f d l0 Q s new q u s' :
  hinv s -> known q (h_w s) = true -> waiting c f d l0 Q (h_w s) new -> h_step qp (HRun q) s = Ret (u, s') ->
  exists new', waiting c f d l0 Q (h_w s') new' \/ finished c f l0 Q (h_w s') new'.
Proof.
  intros I Hk W E. unfold known in Hk. destruct (pw_queues (h_w s) !! q) as [x|] eqn:Ex; [|done]. apply on_w_inv in E as (w' & E & ->). cbn [h_w].
  pose proof (run_wp s q x I Ex) as Hr. unfold wp in Hr. rewrite E in Hr. destruct Hr as (e & El & Hr).
  destruct (pq_jobs x) as [|[id|c' f' d'] js] eqn:Ej.
  - subst w'. eauto.
  - destruct Hr as (-> & Eq & Ec). eexists. left. eapply (waiting_pop _ _ _ _ _ _ w' _ _ q x _ js W Ex Ej El Eq).
    + rewrite Ec. apply (wt_counter _ _ _ _ _ _ _ W).
    + intros (q' & f' & [?|?%elem_of_nil]%elem_of_cons); done.
    + intros q'. cbn. destruct (Z.eqb_spec q q'), (decide (q' = q)); done || congruence.
  - destruct Hr as (v & Ev & Eq & Ec & Hz & Ht & H1). destruct (decide (c' = c)) as [->|Hn].
    + destruct (wt_same _ _ _ _ _ _ _ W q x f' d' Ex) as [-> ->]; [rewrite Ej; left|]. destruct (decide (v = 1)) as [->|Hv].
      * eexists. right. eapply waiting_last; [done|exact W|exact Ex|exact Ej|exact Ev|exact El|by apply H1].
      * eexists. left. eapply (waiting_pop _ _ _ _ _ _ w' _ _ q x _ js W Ex Ej El Eq).
        -- rewrite Ec. unfold counted. destruct (Z.eqb_spec (v - 1) 0); [lia|]. by rewrite lookup_insert_eq.
        -- intros (q' & f' & Hin). by destruct (Ht _ _ _ Hin).
        -- intros q'. rewrite Hz. by destruct (decide _).
    + eexists. left. eapply (waiting_pop _ _ _ _ _ _ w' _ _ q x _ js W Ex Ej El Eq).
      * rewrite Ec. unfold counted. destruct (v - 1 =? 0); [rewrite lookup_delete_ne by done|rewrite lookup_insert_ne by done]; apply (wt_counter _ _ _ _ _ _ _ W).
      * intros (q' & f1 & Hin). by destruct (Ht _ _ _ Hin).
      * intros q'. rewrite Hz. by destruct (decide _).
Qed.

(** The end of a queue: it has nothing to run. *)
Lemma exit_inv s q u s' : h_step qp (HExit q) s = Ret (u, s') -> pw_log (h_w s') = pw_log (h_w s) /\ pw_counters (h_w s') = pw_counters (h_w s) /\
  (pw_queues (h_w s') = pw_queues (h_w s) \/ (pw_queues (h_w s') = delete q (pw_queues (h_w s)) /\ exists x, pw_queues (h_w s) !! q = Some x /\ pq_jobs x = [])).
Proof.
  cbn [h_step]. intros E. apply cbind_inv in E as (b & s1 & E1 & E2). apply on_w_inv in E1 as (w1 & E1 & ->).
  assert (h_w s' = w1) as -> by (destruct b; by injection E2 as _ <-). clear E2. unfold exit_queue in E1. apply cbind_inv in E1 as (x & w2 & E1 & E2).
  unfold get_q in E1. apply cbind_inv in E1 as (w3 & w4 & [= <- <-] & E1). destruct (pw_queues (h_w s) !! q) as [y|] eqn:Ey; [|done]. injection E1 as -> <-.
  destruct (bool_decide_reflect (pq_jobs x = [])) as [Hj|Hj]; [|rewrite andb_false_r in E2; cbn in E2; injection E2 as _ <-; tauto].
  destruct (_ && _); [|injection E2 as _ <-; tauto]. injection E2 as _ <-. split; [done|]. split; [done|]. right. split; [done|]. by exists x.
Qed.

Lemma waiting_exit c f d l0 Q s new q u s' :
  waiting c f d l0 Q (h_w s) new -> h_step qp (HExit q) s = Ret (u, s') -> waiting c f d l0 Q (h_w s') new.
Proof.
  intros [W1 W2 W3 W4 W5] E. apply exit_inv in E as (El & Ec & [Eq|(Eq & x & Ex & Hj)]); split; rewrite ?El, ?Ec, ?Eq; try done.
  - intros q' N HQ. specialize (W5 q' N HQ). unfold placed in *. by rewrite El, Eq.
  - intros q' y f' d' Ey. apply lookup_delete_Some in Ey as [_ Ey]. by eapply W4.
  - intros q' N HQ. destruct (W5 q' N HQ) as [(y & a & b & Ey & J & R)|P]; [|right; by rewrite El]. left. exists y, a, b. rewrite El, Eq. split; [|done].
    rewrite lookup_delete_ne; [done|]. intros <-. rewrite Ex in Ey. injection Ey as <-. rewrite Hj in J. by destruct a.
Qed.

Lemma run_enabled s q : h_enabled qp (HRun q) s = true -> exists x, pw_queues (h_w s) !! q = Some x.
Proof.
  cbn [h_enabled]. intros He. apply andb_true_iff in He as [Hq He]. unfold h_free in He. destruct (q =? 0); [done|]. apply andb_true_iff in He as [[He _]%andb_true_iff _].
  unfold known in He. destruct (pw_queues (h_w s) !! q) as [x|]; [by exists x|done].
Qed.

(** What every step keeps. *)
Lemma step_mono s op u s' : hinv s -> h_enabled qp op s = true -> h_step qp op s = Ret (u, s') ->
  (exists e, pw_log (h_w s') = pw_log (h_w s) ++ e) /\
  forall q, op <> HExit q -> is_Some (pw_queues (h_w s) !! q) -> is_Some (pw_queues (h_w s') !! q).
Proof.
  intros I He E. assert ((forall q, op <> HRun q /\ op <> HExit q) -> keeps (env_malloc (h_w s) + 1) (h_w s) (h_w s')) as Hk.
  { intros H2. eapply step_keeps; [right; lia|exact E|done]. }
  assert (keeps (env_malloc (h_w s) + 1) (h_w s) (h_w s') -> (exists e, pw_log (h_w s') = pw_log (h_w s) ++ e) /\
    forall q, op <> HExit q -> is_Some (pw_queues (h_w s) !! q) -> is_Some (pw_queues (h_w s') !! q)) as Hdone.
  { intros K. split; [exists []; rewrite app_nil_r; apply (k_log _ _ _ K)|]. intros q _ [x Ex]. destruct (k_jobs _ _ _ K q x Ex) as (x' & _ & -> & _). done. }
  destruct op; try (by apply Hdone, Hk).
  - destruct (run_enabled _ _ He) as [x Ex]. apply on_w_inv in E as (w' & E & ->).
    pose proof (run_wp s q x I Ex) as Hr. unfold wp in Hr. rewrite E in Hr. destruct Hr as (e & El & Hr). split; [by exists e|]. cbn [h_w]. intros q' _ Hq'.
    assert (w' = h_w s \/ exists js, pw_queues w' = <[q := ran_one js x]> (pw_queues (h_w s))) as [->|(js & ->)]; [|done|].
    { destruct (pq_jobs x) as [|[id|c f d] js]; [by left|right; exists js; apply Hr|right]. destruct Hr as (v & _ & Hr & _). by exists js. }
    destruct (decide (q' = q)) as [->|]; [by rewrite lookup_insert_eq|by rewrite lookup_insert_ne].
  - apply exit_inv in E as (El & _ & Eq). split; [exists []; by rewrite app_nil_r|]. intros q' Hne [y Ey].
    destruct Eq as [->|(-> & _)]; [done|]. rewrite lookup_delete_ne; [done|]. congruence.
Qed.

Lemma barrier_step c f d l0 Q s op u s' new :
  hinv s -> h_enabled qp op s = true -> h_step qp op s = Ret (u, s') -> waiting c f d l0 Q (h_w s) new \/ finished c f l0 Q (h_w s) new ->
  exists new', waiting c f d l0 Q (h_w s') new' \/ finished c f l0 Q (h_w s') new'.
Proof.
  intros I He E [W|(F1 & (q & F2) & F3)].
  - assert ((forall q, op <> HRun q /\ op <> HExit q) -> exists new', waiting c f d l0 Q (h_w s') new' \/ finished c f l0 Q (h_w s') new') as Hk.
    { intros Hop. exists new. left. eapply waiting_keeps; [|exact W]. eapply step_keeps; [apply counter_other, (wt_counter _ _ _ _ _ _ _ W)|exact E|done]. }
    destruct op; try (by apply Hk).
    + destruct (run_enabled _ _ He) as [x Ex]. eapply waiting_run; [done| |exact W|exact E]. unfold known. by rewrite Ex.
    + exists new. left. by eapply waiting_exit.
  - destruct (step_mono _ _ _ _ I He E) as ((e & El) & _). exists (new ++ e). right. split; [by rewrite El, F1, app_assoc|]. split; [exists q; set_solver|].
    intros q' N HQ. rewrite El, ran_app. by apply prefix_app_r, F3.
Qed.


(** ** The theorems *)

Definition in_use (p : mpq_pool) : list pool_entry := take (Z.to_nat (q_count p)) (pool_entries p).
Lemma lives_in_use p L : lives p L -> in_use p = L.
Proof. intros (k & E & Ec & _). unfold in_use. rewrite E, Ec, Nat2Z.id. by apply take_app_length. Qed.

Lemma reach_at s0 s : h_start qp s0 -> hreach qp s0 s -> exists p, hinv_at qp s p (in_use p).
Proof. intros H0 Hr. destruct (hreach_inv qp _ _ H0 Hr) as (p & L & I). exists p. by rewrite (lives_in_use _ _ (hi_lives _ _ _ _ I)). Qed.

Lemma inv_from s s' : hinv s -> hreach qp s s' -> hinv s'.
Proof. intros I. induction 1 as [|s' op u s'' _ IH He Hs]; [done|]. pose proof (h_step_ok qp _ _ IH He) as Hw. unfold wp in Hw. by rewrite Hs in Hw. Qed.
Lemma hreach_trans s0 s1 s2 : hreach qp s0 s1 -> hreach qp s1 s2 -> hreach qp s0 s2.
Proof. intros H1. induction 1; [done|]. by econstructor. Qed.

(** The read of [aosl_mpq_alloc] after it has given the lock back. *)
Lemma entry_read s p i : hinv_at qp s p (in_use p) ->
  (0 <= i < q_count p -> exists qid, entry_qid qp i (h_w s) = Ret (qid, h_w s)) /\ (q_count p <= i < pool_size p -> entry_qid qp i (h_w s) = Fault).
Proof.
  intros I. pose proof (hi_lives _ _ _ _ I) as (k & E1 & E2 & E3). unfold entry_qid, get_pool, entry_at, get_q. run. rewrite (hi_pool _ _ _ _ I). run.
  split; intros Hi; (destruct (Z.ltb_spec i 0); [lia|]); rewrite E1.
  - rewrite lookup_app_l by lia. destruct (lookup_lt_is_Some_2 (in_use p) (Z.to_nat i)) as [e He]; [lia|]. rewrite He. run.
    assert (live (h_w s) (e_q e)) as (x & Hx & _). { apply (hi_live _ _ _ _ I), elem_of_app. left. unfold qs. apply list_elem_of_In, in_map, list_elem_of_In. by eapply list_elem_of_lookup_2. }
    rewrite Hx. by eexists.
  - rewrite lookup_app_r by lia. rewrite lookup_replicate_2 by lia. run.
    change (e_q (MkEnt 0 0)) with 0. destruct (pw_queues (h_w s) !! 0) as [x|] eqn:Ex; [|done]. destruct (hi_queue _ _ _ _ I 0 x Ex). lia.
Qed.

(** C14: Any number of threads use a pool: get and put queues, queue functions, borrow and
    give back, tail requests, shrink, while the queues run, idle and end (with memory for
    the function objects: [____add_f] aborts without, and with fewer than 2^32 loans of a
    queue).  No section of these operations that holds the pool's lock, and none that has
    taken a queue out or a reference to one, reaches a [BUG_ON] or a queue that is gone.
    The one access that does neither is the read of [entry->q->qid] at the end of
    [aosl_mpq_alloc]: at whatever time it comes, it finds a queue if the entry is still in
    use, and faults if the pool has been shrunk below the entry in between.  The entries in
    use are the first [q_count], the others are empty; their queues are distinct and each
    counts at least the pool's own use; the queues that are not told to end are those of
    the pool and those just taken out of it; the references and the count of a
    queue are exact. *)
Theorem mpqp_runs_safe s0 s :
  h_start qp s0 -> hreach qp s0 s ->
  (forall op, h_enabled qp op s = true -> exists s', h_step qp op s = Ret (tt, s')) /\
  exists p, pw_pools (h_w s) !! qp = Some p /\
    (forall i, 0 <= i < q_count p -> exists qid, entry_qid qp i (h_w s) = Ret (qid, h_w s)) /\
    (forall i, q_count p <= i < pool_size p -> entry_qid qp i (h_w s) = Fault) /\
    0 <= q_count p <= pool_size p /\ pool_entries p = in_use p ++ replicate (Z.to_nat (pool_size p - q_count p)) (MkEnt 0 0) /\
    Forall (fun e => 1 <= e_usage e < 2 ^ 32) (in_use p) /\ NoDup (qs (in_use p) ++ map snd (h_taken s)) /\
    (forall q, live (h_w s) q <-> q ∈ qs (in_use p) ++ map snd (h_taken s)) /\
    (forall q x, pw_queues (h_w s) !! q = Some x ->
       pq_usage x = occ q (h_held s) /\ pq_count x = Z.of_nat (length (pq_jobs x)) + occ q (h_held s)).
Proof.
  intros H0 Hr. split.
  - intros op He. pose proof (h_step_ok qp s op (hreach_inv qp _ _ H0 Hr) He) as Hw. unfold wp in Hw.
    destruct (h_step qp op s) as [[[] s']| | |]; [by exists s'|done..].
  - destruct (reach_at _ _ H0 Hr) as (p & I). exists p. pose proof I as [H1 H2 H3 H4 H5 H6 H7 H8 H9 H10 H11]. destruct H2 as (k & E1 & E2 & E3).
    split; [done|]. split; [intros i Hi; by apply (entry_read s p)|]. split; [intros i Hi; by apply (entry_read s p)|].
    split; [lia|]. split; [|split; [done|]; split; [done|]; split; [done|]; intros q x Ex; by apply H7].
    replace (Z.to_nat (pool_size p - q_count p)) with k by lia. done.
Qed.

(** C13: [aosl_mpqp_pool_tail_queue] makes a barrier.  At any later time, in any
    run, either the function of the request has been called, and then every queue
    that was in the pool has run all the functions it had at the request; or it
    has not, and then some queue still has its promise to run. *)
Theorem mpqp_tail_barrier s0 s d f w1 s2 :
  h_start qp s0 -> hreach qp s0 s -> __mpqp_pool_tail_queue_argv qp d f (h_w s) = Ret (0, w1) ->
  hreach qp (MkH w1 (h_held s) (h_taken s) (h_waits s)) s2 ->
  exists p c new, pw_pools (h_w s) !! qp = Some p /\ pw_log (h_w s2) = pw_log (h_w s) ++ new /\
    (((exists q, EvTail q c f ∈ new) /\
      forall q x, q ∈ qs (in_use p) -> pw_queues (h_w s) !! q = Some x ->
        (ran q (pw_log (h_w s)) ++ users (pq_jobs x)) `prefix_of` ran q (pw_log (h_w s2))) \/
     (~ tailed c new /\ exists q, owes (h_w s2) q c)).
Proof.
  intros H0 Hr E H2. destruct (reach_at _ _ H0 Hr) as (p & I). pose proof (tail_wp qp s p _ d f I) as Hw. unfold wp in Hw. rewrite E in Hw.
  destruct Hw as (I1 & El & [?|(_ & c & Hc & Hc1 & Hj & Hsame)]); [done|].
  set (Q := map (fun q => (q, ran q (pw_log (h_w s)) ++ match pw_queues (h_w s) !! q with Some x => users (pq_jobs x) | None => [] end)) (qs (in_use p))).
  assert (forall q x, q ∈ qs (in_use p) -> pw_queues (h_w s) !! q = Some x -> (q, ran q (pw_log (h_w s)) ++ users (pq_jobs x)) ∈ Q) as HQ.
  { intros q x Hin Ex. apply list_elem_of_fmap. exists q. by rewrite Ex. }
  assert (exists new, waiting c f d (pw_log (h_w s)) Q (h_w s2) new \/ finished c f (pw_log (h_w s)) Q (h_w s2) new) as (new & Hn).
  { clear E. induction H2 as [|s' op u s'' H2 IH He Hs]; [exists []; left; cbn [h_w]|].
    - split; [by rewrite app_nil_r|by intros (? & ? & ?%elem_of_nil)|done|done|]. intros q N (q' & [= -> ->] & Hin)%list_elem_of_fmap. left.
      destruct (pool_known qp _ _ _ I q' Hin) as [_ [x Ex]]. exists (add_job (JPromise c f d) x), (pq_jobs x), []. rewrite Ex, El. split; [by apply Hj|done].
    - destruct IH as (new & IH). eapply (barrier_step c f d _ Q s' op u s'' new); try done. by eapply inv_from. }
  destruct Hn as [W|(F1 & F2 & F3)].
  - exists p, c, new. split; [apply (hi_pool _ _ _ _ I)|]. split; [apply (wt_log _ _ _ _ _ _ _ W)|]. right. split; [apply (wt_none _ _ _ _ _ _ _ W)|].
    destruct (wt_counter _ _ _ _ _ _ _ W) as [v Ev]. destruct (inv_from _ _ I1 H2) as (p2 & L2 & I2).
    destruct (hi_counter _ _ _ _ I2 c v Ev) as ([|q l] & _ & _ & Hl & Ho); [done|]. exists q. apply Ho. left.
  - exists p, c, new. split; [apply (hi_pool _ _ _ _ I)|]. split; [done|]. left. split; [done|]. intros q x Hin Ex. by apply F3, HQ.
Qed.

(** A queue after a function has been queued through a reference that is given
    back, and after a failure to queue it. *)
Lemma put_queued id x : add_usage (-1) (add_count (-1) (add_job (JUser id) (add_count 1 (add_usage 1 x)))) = add_job (JUser id) x.
Proof. destruct x. unfold add_usage, add_count, add_job. cbn. f_equal; lia. Qed.
Lemma put_failed x : add_usage (-1) (add_count (-1) (add_count 1 (add_usage 1 x))) = x.
Proof. destruct x. unfold add_usage, add_count. cbn. f_equal; lia. Qed.

(** [__mpqp_best_q_put] of a queue with the record [y]. *)
Lemma best_put_wp w q y Q : pw_queues w !! q = Some y ->
  Q tt (set_pqueues (<[q := add_usage (-1) (add_count (-1) y)]> (pw_queues w)) w) -> wp (__mpqp_best_q_put q) w Q.
Proof.
  intros E HQ. unfold __mpqp_best_q_put, ____q_put. apply wp_bind. eapply mod_q_wp; [exact E|]. eapply mod_q_wp; [cbn; by rewrite lookup_insert_eq|].
  unfold set_pqueues in *. cbn. by rewrite insert_insert_eq.
Qed.

(** C27: A function queued to a pool goes to the tail of a queue with the fewest
    functions; to a new one when all are busy and there is room; to the least busy
    one when the new one cannot be made; with the handle of that queue as the result
    and references and counts as before.  When the queue does not take it, or
    an empty pool cannot make a queue, the result is -1 with [aosl_errno] set and
    no queue has changed. *)
Theorem mpqp_best_queue_correct s0 s no_fail id :
  h_start qp s0 -> hreach qp s0 s ->
  exists p r w', pw_pools (h_w s) !! qp = Some p /\ __mpqp_best_q_queue qp no_fail (JUser id) (h_w s) = Ret (r, w') /\
    ((exists e, in_use p = [] /\ 0 < e <= 4095 /\ r = -1 /\ w' = set_perr e (tick (h_w s))) \/
     exists q w1 p1 L1 x, picked qp (h_w s) p (in_use p) q w1 p1 L1 /\ pw_queues w1 !! q = Some x /\ pw_pools w' = pw_pools w1 /\ pw_log w' = pw_log w1 /\
       ((r = pq_qid x /\ pw_queues w' = <[q := add_job (JUser id) x]> (pw_queues w1)) \/
        (no_fail = false /\ r = -1 /\ 0 < pw_errno w' /\ pw_queues w' = pw_queues w1))).
Proof.
  intros H0 Hr. destruct (reach_at _ _ H0 Hr) as (p & I). exists p.
  match goal with |- exists r w', _ /\ ?m _ = _ /\ @?P r w' => assert (wp m (h_w s) P) as Hw end.
  - unfold __mpqp_best_q_queue. apply wp_bind. eapply wp_mono; [exact (best_get_wp qp s p _ I)|]. cbn beta.
    intros q w' [(e & El & He & -> & ->)|(w1 & p1 & L1 & x & Hq & Hp & Ex & ->)].
    + rewrite neg_ptr by done. apply failp_wp. left. exists e. rewrite Z.opp_involutive. done.
    + destruct (pos_ptr q Hq) as [-> ->]. cbn [orb]. apply wp_bind. unfold __mpq_queue. apply wp_bind, wp_get, wp_bind, modp_wp.
      set (w2 := set_pqueues _ w1). pose proof (env_room_ok w2 q) as Hroom. destruct (Z.eqb_spec (if no_fail then 0 else env_room w2 q) 0) as [Hz|Hnz].
      * apply wp_bind. eapply mod_q_wp; [cbn; by rewrite lookup_insert_eq|]. apply wp_ret. cbn [Z.leb Z.compare]. apply wp_bind, wp_bind.
        eapply get_q_wp; [cbn; by rewrite lookup_insert_eq|]. apply wp_ret, wp_bind. eapply best_put_wp; [cbn; by rewrite lookup_insert_eq|]. apply wp_ret.
        right. exists q, w1, p1, L1, x. cbn. rewrite !insert_insert_eq, put_queued. tauto.
      * destruct no_fail; [done|]. apply failp_wp. cbn [Z.leb Z.compare]. apply wp_bind, wp_ret, wp_bind. eapply best_put_wp; [cbn; by rewrite lookup_insert_eq|].
        apply wp_ret. right. exists q, w1, p1, L1, x. cbn. rewrite !insert_insert_eq, put_failed, insert_id by done.
        repeat (split; [done|]). right. split; [done|]. split; [done|]. split; [lia|done].
  - unfold wp in Hw. destruct (__mpqp_best_q_queue _ _ _ _) as [[r w']| | |]; [|done..]. exists r, w'. split; [apply (hi_pool _ _ _ _ I)|done].
Qed.

(** ** Two defects *)

(** [a] waits for [b] and [b] for [a]. *)
Definition stuck (a b : Z) (s : hst) : Prop :=
  (a, b) ∈ h_waits s /\ (b, a) ∈ h_waits s /\ known a (h_w s) = true /\ known b (h_w s) = true.

Lemma waits_not_free s a b : a <> 0 -> (a, b) ∈ h_waits s -> h_free s a = false.
Proof.
  intros Ha Hin. unfold h_free. destruct (Z.eqb_spec a 0); [done|]. cbn [orb]. apply andb_false_iff. right. apply negb_false_iff, existsb_exists.
  exists (a, b). split; [by apply list_elem_of_In|apply Z.eqb_refl].
Qed.

(** Nobody else ends a queue or takes back what it waits for. *)
Lemma step_waits s op u s' e : h_step qp op s = Ret (u, s') -> e ∈ h_waits s -> op <> HExit (snd e) -> e ∈ h_waits s'.
Proof.
  intros E Hin Hne. assert (forall A (m : CM pworld A) (g : A -> CM hst unit),
    (forall a s1 u s2, g a s1 = Ret (u, s2) -> e ∈ h_waits s1 -> e ∈ h_waits s2) -> cbind (on_w m) g s = Ret (u, s') -> e ∈ h_waits s') as Hgo.
  { intros A m g Hg E'. apply cbind_inv in E' as (a & s1 & E1 & E2). apply on_w_inv in E1 as (w1 & E1 & ->). eapply Hg; [exact E2|done]. }
  assert (forall b l s1, e ∈ h_waits s1 -> e ∈ h_waits (add_waits b l s1)) as Hadd.
  { intros b l s1 H1. unfold add_waits. destruct (b =? 0); [done|]. cbn. apply elem_of_app. by right. }
  destruct op; cbn [h_step] in E.
  1-6: refine (Hgo _ _ _ _ E); cbn beta; intros a s1 v s2; try (by intros [= _ <-]). 1: destruct (_ && _); by intros [= _ <-].
  - refine (Hgo _ _ _ _ E); cbn beta. intros a s1 v s2. destruct (negb _); by intros [= _ <-].
  - refine (Hgo _ _ _ _ E); cbn beta. intros a s1 v s2. unfold modh. run. destruct (_ && _); intros [= _ <-] H1; [by apply Hadd|done].
  - refine (Hgo _ _ _ _ E); cbn beta. intros a s1 v s2 [= _ <-] H1. by apply Hadd.
  - apply on_w_inv in E as (w1 & _ & ->). done.
  - refine (Hgo _ _ _ _ E); cbn beta. intros [] s1 v s2; intros [= _ <-]; [|done]. intros H1. unfold wake_waits. cbn.
    destruct e as [a b]. apply list_elem_of_In, filter_In. split; [by apply list_elem_of_In|]. apply negb_true_iff, Z.eqb_neq. cbn in Hne. congruence.
Qed.

Lemma stuck_step s op u s' a b : a <> 0 -> b <> 0 -> hinv s -> h_enabled qp op s = true -> h_step qp op s = Ret (u, s') -> stuck a b s -> stuck a b s'.
Proof.
  intros Ha Hb I He E (H1 & H2 & H3 & H4). pose proof (waits_not_free _ _ _ Ha H1) as Fa. pose proof (waits_not_free _ _ _ Hb H2) as Fb.
  assert (op <> HExit a /\ op <> HExit b) as [Na Nb].
  { split; intros ->; cbn [h_enabled] in He; apply andb_true_iff in He as [_ He]; congruence. }
  destruct (step_mono _ _ _ _ I He E) as [_ Hm]. unfold known in H3, H4.
  split; [by eapply step_waits|]. split; [by eapply step_waits|]. unfold known. split.
  - destruct (Hm a Na) as [x ->]; [by destruct (pw_queues (h_w s) !! a)|done].
  - destruct (Hm b Nb) as [x ->]; [by destruct (pw_queues (h_w s) !! b)|done].
Qed.

Lemma wp_run {S : Type} (m : CM S unit) s t : wp m s (fun _ s' => s' = t) -> m s = Ret (tt, t).
Proof. unfold wp. destruct (m s) as [[[] s']| | |]; [by intros ->|done..]. Qed.

(** The thread of a queue takes the last queue of the pool. *)
Lemma take_run s p A q b : hinv_at qp s p (A ++ [MkEnt q 1]) -> A <> [] ->
  exists w', h_step qp (HTake b) s = Ret (tt, MkH w' (h_held s) ((b, q) :: h_taken s) (h_waits s)) /\ pw_queues w' = pw_queues (h_w s) /\
    exists p', hinv_at qp (MkH w' (h_held s) ((b, q) :: h_taken s) (h_waits s)) p' A.
Proof.
  intros I HA. pose proof (hi_lives _ _ _ _ I) as HL. destruct (lives_count _ _ HL) as (_ & Hc & _). rewrite length_app in Hc. cbn in Hc.
  assert (0 < length A)%nat by (destruct A; [done|cbn; lia]). destruct (pool_known qp _ _ _ I q) as [Hq _]; [unfold qs; rewrite map_app; set_solver|].
  pose proof (hinv_take qp s p A q b I) as I'.
  assert (h_step qp (HTake b) s = Ret (tt, MkH (set_pools (<[qp := set_entry (q_count p - 1) (MkEnt 0 0) (q_count p - 1) p]> (pw_pools (h_w s))) (h_w s)) (h_held s) ((b, q) :: h_taken s) (h_waits s))) as Hw.
  { apply wp_run. cbn [h_step]. apply wp_bind, on_w_wp. unfold shrink_take. apply wp_bind. eapply get_pool_wp; [apply (hi_pool _ _ _ _ I)|].
    destruct (Z.ltb_spec 1 (q_count p)); [|lia]. apply wp_bind. replace (q_count p - 1) with (Z.of_nat (length A)) by lia.
    eapply entry_at_wp; [by eapply lives_at|]. cbn [e_usage e_q Z.eqb Pos.eqb]. apply wp_bind. eapply put_pool_wp; [apply (hi_pool _ _ _ _ I)|]. apply wp_ret.
    destruct (Z.eqb_spec q 0); [done|]. cbn [negb]. by apply modh_wp. }
  rewrite Hw. eexists. split; [done|]. split; [done|]. by eexists.
Qed.

(** The thread of a queue destroys another one and waits for it. *)
Lemma destroy_run s b q : b <> 0 -> b <> q -> is_Some (pw_queues (h_w s) !! q) ->
  exists x, pw_queues (h_w s) !! q = Some x /\ h_step qp (HDestroy b q true) s =
    Ret (tt, MkH (set_pqueues (<[q := ended true x]> (pw_queues (h_w s))) (h_w s)) (h_held s) (drop_one (b, q) (h_taken s)) ((b, q) :: h_waits s)).
Proof.
  intros Hb Hne [x Ex]. exists x. split; [done|]. cbn [h_step]. destruct (Z.eqb_spec b q); [done|]. cbn [andb negb].
  apply wp_run. apply wp_bind, on_w_wp. eapply destroy_q_wp; [exact Ex|]. apply wp_bind, modh_wp, modh_wp. unfold add_waits. by destruct (Z.eqb_spec b 0).
Qed.

(** Two queues of a pool whose idle timers shrink it at the same time never
    end.  When the two last entries are free for it, the thread of the one can take
    the other and the other way round before either destroys what it took; both
    then wait, and in every continuation both are still there and neither can
    run anything. *)
Theorem mpqp_shrink_deadlock s0 s p A a b :
  h_start qp s0 -> hreach qp s0 s -> pw_pools (h_w s) !! qp = Some p -> in_use p = A ++ [MkEnt a 1; MkEnt b 1] -> A <> [] ->
  h_free s a = true -> h_free s b = true ->
  exists s1 s2 s3 s4,
    h_step qp (HTake a) s = Ret (tt, s1) /\ h_enabled qp (HTake b) s1 = true /\ h_step qp (HTake b) s1 = Ret (tt, s2) /\
    h_enabled qp (HDestroy a b true) s2 = true /\ h_step qp (HDestroy a b true) s2 = Ret (tt, s3) /\
    h_enabled qp (HDestroy b a true) s3 = true /\ h_step qp (HDestroy b a true) s3 = Ret (tt, s4) /\
    forall s5, hreach qp s4 s5 -> forall q, q = a \/ q = b ->
      known q (h_w s5) = true /\ h_enabled qp (HRun q) s5 = false /\ h_enabled qp (HExit q) s5 = false.
Proof.
  intros H0 Hr Ep Eu HA Fa Fb. destruct (reach_at _ _ H0 Hr) as (p0 & I). pose proof (hi_pool _ _ _ _ I) as Ep0. rewrite Ep in Ep0. injection Ep0 as <-.
  rewrite Eu in I. assert (a ∈ qs (A ++ [MkEnt a 1; MkEnt b 1]) /\ b ∈ qs (A ++ [MkEnt a 1; MkEnt b 1])) as [Ia Ib] by (unfold qs; rewrite map_app; set_solver).
  destruct (pool_known qp _ _ _ I a Ia) as [Ha [xa Exa]]. destruct (pool_known qp _ _ _ I b Ib) as [Hb [xb Exb]].
  assert (a <> b) as Hab.
  { pose proof (hi_nodup _ _ _ _ I) as Nd. unfold qs in Nd. rewrite map_app in Nd. cbn in Nd. rewrite !NoDup_app, !NoDup_cons in Nd. set_solver. }
  replace (A ++ [MkEnt a 1; MkEnt b 1]) with ((A ++ [MkEnt a 1]) ++ [MkEnt b 1]) in I by by rewrite <-app_assoc.
  destruct (take_run s p _ b a I ltac:(by destruct A)) as (w1 & E1 & Q1 & p1 & I1). destruct (take_run _ p1 _ a b I1 HA) as (w2 & E2 & Q2 & p2 & I2).
  cbn [h_held h_taken h_waits h_w] in *.
  destruct (destroy_run (MkH w2 (h_held s) ((b, a) :: (a, b) :: h_taken s) (h_waits s)) a b Ha Hab ltac:(cbn; rewrite Q2, Q1; done)) as (x & Ex & E3).
  cbn [h_held h_taken h_waits h_w] in *.
  match type of E3 with _ = Ret (tt, ?t) => destruct (destroy_run t b a Hb ltac:(done) ltac:(cbn; rewrite lookup_insert_ne, Q2, Q1 by done; done)) as (y & Ey & E4); set (s3 := t) in * end.
  match type of E4 with _ = Ret (tt, ?t) => set (s4 := t) in * end.
  match type of E3 with h_step _ _ ?t = _ => set (s2 := t) in * end. match type of E1 with _ = Ret (tt, ?t) => set (s1 := t) in * end.
  assert (h_enabled qp (HTake b) s1 = true) as N1.
  { cbn [h_enabled]. unfold h_free, known, s1 in *. cbn [h_w h_taken h_waits existsb]. rewrite Q1. by destruct (Z.eqb_spec a b). }
  assert (h_enabled qp (HDestroy a b true) s2 = true) as N2 by (apply bool_decide_eq_true; right; left).
  assert (h_enabled qp (HDestroy b a true) s3 = true) as N3.
  { apply bool_decide_eq_true. unfold s3. cbn [h_taken drop_one]. rewrite decide_False by congruence. left. }
  assert (hreach qp s2 s4) as R4 by (econstructor; [econstructor; [apply hr_init|exact N2|exact E3]|exact N3|exact E4]).
  assert (hinv s4) as I4 by (eapply inv_from; [by eexists _, _|exact R4]).
  exists s1, s2, s3, s4. repeat (split; [done|]).
  assert (stuck a b s4) as St.
  { split; [right; left|]. split; [left|]. unfold known, s4. cbn [h_w pw_queues set_pqueues]. rewrite lookup_insert_eq. split; [done|].
    rewrite lookup_insert_ne by done. unfold s3. cbn. by rewrite lookup_insert_eq. }
  intros s5 H5.
  assert (stuck a b s5) as (S1 & S2 & S3 & S4).
  { clear E4. induction H5 as [|s5 op u s6 H5 IH He Hs]; [done|]. eapply (stuck_step s5 op u s6); try done. by eapply inv_from. }
  pose proof (waits_not_free _ _ _ Ha S1) as F1. pose proof (waits_not_free _ _ _ Hb S2) as F2.
  intros q [->| ->]; (split; [done|]); cbn [h_enabled]; rewrite ?F1, ?F2, andb_false_r; done.
Qed.

End Barrier.

(** After [k_mpqp_init] the general pool does not exist, so that
    [aosl_mpq_alloc], [aosl_mpq_free] and [genp_best_q_get] go through a NULL pointer. *)
Theorem mpq_alloc_no_pool `{PoolEnv} w w' :
  gen_pool w = 0 -> pw_pools w !! 0 = None -> k_mpqp_init w = Ret (tt, w') ->
  aosl_mpq_alloc w' = Fault /\ (forall qid, aosl_mpq_free qid w' = Fault) /\ genp_best_q_get w' = Fault.
Proof.
  intros Hg Hp E. assert (gen_pool w' = 0 /\ pw_pools w' !! 0 = None) as [Hg' Hp'].
  - unfold k_mpqp_init, __mpqp_create_ltw_pool, __mpqp_create, modp in E. revert E. cbn -[env_malloc replicate insert Z.of_nat].
    replace (2147483647 / 3 <? LTWP_MAX_IDLES) with false by reflexivity. run.
    destruct (Z.eqb_spec (env_malloc w) 0) as [|H1]; [done|]. destruct (Z.eqb_spec (env_malloc (tick w)) 0) as [|H2]; [done|]. run.
    destruct (Z.eqb_spec (env_malloc w) 0) as [|_]; [done|].
    intros [= <-]. destruct (env_malloc_ok w H1) as (Hpos & _). cbn -[env_malloc replicate insert]. split; [done|]. rewrite lookup_insert_ne by lia. done.
  - unfold aosl_mpq_alloc, aosl_mpq_free, mpq_free, genp_best_q_get, __mpqp_best_entry_get_or_alloc, __mpqp_best_q_get, get_pool. run. rewrite Hg', Hp'. done.
Qed.

(** ** A run *)

(** An environment in which nothing fails: addresses and handles are the next
    ones. *)
#[local] Instance simple_env : PoolEnv.
Proof.
  refine (Build_PoolEnv
    (fun w => inr (1 + max_of (fun k _ => k) (pw_queues w), 1 + max_of (fun _ x => pq_qid x) (pw_queues w)))
    (fun w => 1 + Z.max (max_of (fun k _ => k) (pw_pools w)) (max_of (fun k _ => k) (pw_counters w)))
    (fun _ _ => 0) (fun _ _ => true) (fun _ => false) _ _ _ _).
  - intros w q id [= <- <-]. destruct (max_of_ge (fun k _ => k) (pw_queues w)) as [H0 _]. destruct (max_of_ge (fun _ x => pq_qid x) (pw_queues w)) as [H1 H2].
    split; [lia|]. split; [apply max_of_fresh; lia|]. split; [lia|]. intros q' x E. apply H2 in E. lia.
  - done.
  - intros w _. destruct (max_of_ge (fun k _ => k) (pw_pools w)) as [H0 _]. split; [lia|]. split; apply max_of_fresh; lia.
  - done.
Defined.

Section Hrun.
Context `{PoolEnv} (qp : Z).
Fixpoint hrun (ops : list hop) (s : hst) : option hst :=
  match ops with
  | [] => Some s
  | op :: ops => if h_enabled qp op s then match h_step qp op s with Ret (_, s') => hrun ops s' | _ => None end else None
  end.
Lemma hrun_reach ops : forall s s', hrun ops s = Some s' -> hreach qp s s'.
Proof.
  induction ops as [|op ops IH]; intros s s'; cbn [hrun]; [intros [= <-]; constructor|]. destruct (h_enabled qp op s) eqn:He; [|done].
  destruct (h_step qp op s) as [[u s1]| | |] eqn:Hs; [|done..]. intros E. eapply hreach_trans; [|by apply IH]. econstructor; [constructor|done|done].
Qed.
End Hrun.

(** A new pool of three; three queues, all idle; a state with work in two of them;
    a tail request there, before and after all has run. *)
Definition world0 : pworld := MkPw {[1 := MkPool 3 (replicate 3 (MkEnt 0 0)) 0 0 100 5 0 0]} ∅ ∅ 0 0 0 1 0 0 [].
Definition state0 : hst := MkH world0 [] [] [].
Definition idle3 : hst := default state0 (hrun 1 [HGet; HGet; HGet; HPut 1; HPut 2; HPut 3] state0).
Definition busy2 : hst := default state0 (hrun 1 [HGet; HQueue 1 false 10; HGet; HQueue 2 true 20; HQueue 1 false 11] state0).
Definition tail_w : pworld := match __mpqp_pool_tail_queue_argv 1 (-1) 7 (h_w busy2) with Ret (_, w) => w | _ => world0 end.
Definition tail2 : hst := MkH tail_w (h_held busy2) (h_taken busy2) (h_waits busy2).
Definition tail_done : hst := default state0 (hrun 1 [HRun 2; HRun 1; HRun 2; HRun 1; HRun 1] tail2).

Lemma state0_start : h_start 1 state0.
Proof. exists 3. split; [unfold MPQP_MAX_SIZE; lia|]. split; [lia|]. split; [by eexists|]. done. Qed.
Lemma reach_idle3 : hreach 1 state0 idle3.
Proof. apply (hrun_reach 1 [HGet; HGet; HGet; HPut 1; HPut 2; HPut 3]). vm_compute. reflexivity. Qed.
Lemma reach_busy2 : hreach 1 state0 busy2.
Proof. apply (hrun_reach 1 [HGet; HQueue 1 false 10; HGet; HQueue 2 true 20; HQueue 1 false 11]). vm_compute. reflexivity. Qed.
Lemma reach_tail : hreach 1 tail2 tail_done.
Proof. apply (hrun_reach 1 [HRun 2; HRun 1; HRun 2; HRun 1; HRun 1]). vm_compute. reflexivity. Qed.

Lemma mpqp_runs_safe_witness :
  hreach 1 state0 busy2 /\ forall op, h_enabled 1 op busy2 = true -> exists s', h_step 1 op busy2 = Ret (tt, s').
Proof. split; [exact reach_busy2|]. exact (proj1 (mpqp_runs_safe 1 state0 busy2 state0_start reach_busy2)). Defined.

Lemma mpqp_tail_barrier_witness :
  exists p c new, pw_pools (h_w busy2) !! 1 = Some p /\ pw_log (h_w tail_done) = pw_log (h_w busy2) ++ new /\
    (((exists q, EvTail q c 7 ∈ new) /\
      forall q x, q ∈ qs (in_use p) -> pw_queues (h_w busy2) !! q = Some x ->
        (ran q (pw_log (h_w busy2)) ++ users (pq_jobs x)) `prefix_of` ran q (pw_log (h_w tail_done))) \/
     (~ tailed c new /\ exists q, owes (h_w tail_done) q c)).
Proof. apply (mpqp_tail_barrier 1 state0 busy2 (-1) 7 tail_w tail_done state0_start reach_busy2); [vm_compute; reflexivity|exact reach_tail]. Defined.

(** The function has been called there. *)
Example tail_done_log : pw_log (h_w tail_done) = [EvRun 2 20; EvRun 1 10; EvRun 1 11; EvTail 1 2 7].
Proof. vm_compute. reflexivity. Qed.

Lemma mpqp_best_queue_correct_witness :
  exists p r w', pw_pools (h_w busy2) !! 1 = Some p /\ __mpqp_best_q_queue 1 false (JUser 30) (h_w busy2) = Ret (r, w') /\ r = 3.
Proof.
  destruct (mpqp_best_queue_correct 1 state0 busy2 false 30 state0_start reach_busy2) as (p & r & w' & Ep & E & _).
  exists p, r, w'. split; [exact Ep|]. split; [exact E|]. vm_compute in E. injection E as <- _. reflexivity.
Defined.

Lemma mpqp_shrink_deadlock_witness : exists s4, hreach 1 state0 s4 /\ forall s5, hreach 1 s4 s5 -> known 2 (h_w s5) = true /\ known 3 (h_w s5) = true.
Proof.
  destruct (mpqp_shrink_deadlock 1 state0 idle3 (MkPool 3 [MkEnt 1 1; MkEnt 2 1; MkEnt 3 1] 3 0 100 5 0 0) [MkEnt 1 1] 2 3 state0_start reach_idle3)
    as (s1 & s2 & s3 & s4 & E1 & N1 & E2 & N2 & E3 & N3 & E4 & Hall); [vm_compute; reflexivity|reflexivity|done|vm_compute; reflexivity|vm_compute; reflexivity|].
  exists s4. split.
  - eapply hreach_trans; [exact reach_idle3|]. econstructor; [econstructor; [econstructor; [econstructor; [constructor| |exact E1]|exact N1|exact E2]|exact N2|exact E3]|exact N3|exact E4].
    vm_compute. reflexivity.
  - intros s5 H5. split; [apply (Hall s5 H5 2); by left|apply (Hall s5 H5 3); by right].
Defined.

Lemma mpq_alloc_no_pool_witness :
  let w := MkPw ∅ ∅ ∅ 0 0 0 0 0 0 [] in exists w', k_mpqp_init w = Ret (tt, w') /\ aosl_mpq_alloc w' = Fault.
Proof.
  intros w. destruct (k_mpqp_init w) as [[[] w']| | |] eqn:E; [|vm_compute in E; discriminate..]. exists w'. split; [reflexivity|].
  exact (proj1 (mpq_alloc_no_pool w w' eq_refl (lookup_empty 0) E)).
Defined.
