(* ===== verification/Iofd.v ===== *)
(** * Watched descriptors: [kernel/fileobj.c] and [kernel/iofd.c]

    A descriptor that is added to a queue becomes an object with a read buffer
    and a list of buffers to be written.  The objects are counted, found by their
    descriptor in a table, and kept in the list of their queue.  The queue's
    thread reads, cuts packets out of the stream, and calls the user's functions
    with them.

    The user's functions can do what they like on the thread of the queue: close
    the descriptor they are called for or another one, write, add descriptors.
    Meanwhile other threads look up objects and let them go.  Both are scripts of
    [io_act]s that the interface [IoEnv] gives for every call of a user's
    function; so is everything else that is not of this component. *)
From S2P Require Import Prelude Refs.
#[local] Open Scope aosl_scope.

Definition AOSL_EBADF : Z := AOSL_EBASE + 9.
Definition AOSL_ENONET : Z := AOSL_EBASE + 64.
Definition AOSL_ETIMEDOUT : Z := AOSL_EBASE + 110.
Definition AOSL_EINPROGRESS : Z := AOSL_EBASE + 115.
Definition AOSL_EHAL : Z := AOSL_EBASE + 1000.
Definition AOSL_HAL_RET_EAGAIN : Z := -2001.
Definition AOSL_HAL_RET_EINTR : Z := -2002.
Definition AOSL_HAL_RET_EINPROGRESS : Z := -2003.

Definition FD_MAX_PACKET_SIZE_MIN : Z := 1024.
Definition FD_MAX_PACKET_SIZE_MAX : Z := Z.shiftl 4 20.
Definition FD_MAX_EXTRA_BYTES : Z := 4096.
Definition FD_MAX_WBUF_SIZE : Z := Z.shiftl 128 10.
Definition MAX_LW_COPY_SIZE : Z := 96.
Definition MIN_SYSCALL_SIZE : Z := 1024.
Definition AOSL_POLLIN : Z := 1.
Definition AOSL_POLLOUT : Z := 2.
Definition AOSL_POLLERR : Z := 4.
Definition AOSL_POLLHUP : Z := 8.
Definition IOFD_NOT_READY : Z := 256.
Definition IOFD_READ_RETURN_0 : Z := 1024.
Definition AOSL_IOFD_READY_FOR_WRITING : Z := 1.
Definition AOSL_IOFD_HUP : Z := 2.
Definition AOSL_IOFD_ERROR : Z := -20000.
Definition AOSL_INVALID_FD : Z := -1.
Definition AOSL_MPQ_TIMER_INVALID : Z := -1.
Definition aosl_fd_invalid (fd : Z) : bool := fd =? AOSL_INVALID_FD.
Definition has_flag (flags b : Z) : bool := negb (Z.land flags b =? 0).
Definition AOSL_I_ALIGN_PTR (x : Z) : Z := (x + 7) / 8 * 8.

(** ** Data *)

(** What is fixed when a descriptor is added: the queue, the sizes, which of the
    user's functions there are, and the arguments. *)
Record ioconf := MkConf {
  c_q : Z;
  c_max : Z;
  c_extra : Z;
  c_read : bool;
  c_write : bool;
  c_chk : bool;
  c_post : bool;
  c_event : bool;
  c_putfd : bool;
  c_argv : list Z
}.

(** [w_buffer_t]: the bytes from [w_data] to [w_tail], the size at creation, and the
    [w_extra_size] bytes after the data: flags and an address. *)
Record wbuf := MkWb { wb_bytes : list Z; wb_size : Z; wb_extra : list Z }.

(** [struct iofd] with its [struct file_obj]: [r_data] and [r_tail] as offsets from
    [r_head], the bytes of the read buffer, the list of buffers to be written with
    their [total_len]. *)
Record iofd := MkIofd {
  f_conf : ioconf;
  f_fd : Z;
  f_usage : Z;
  f_life : Z;
  f_flags : Z;
  f_timer : Z;
  f_buf : list Z;
  f_data : Z;
  f_tail : Z;
  f_wq : list wbuf;
  f_wlen : Z
}.

(** What happens outside: bytes read for an object, a packet given to its
    [data_f], bytes written to a descriptor, an event, a closed descriptor. *)
Inductive ioevent :=
| EvRead (f : Z) (bs : list Z)
| EvData (f : Z) (bs : list Z)
| EvWrite (fd : Z) (bs : list Z)
| EvEvent (fd ev : Z)
| EvClose (fd : Z).

(** The objects by address, the table, [__fobj_life_id], the list and the count
    of each queue, [aosl_errno], the number of calls to the environment, what has
    happened, and the references that other threads hold. *)
Record ioworld := MkIo {
  io_objs : gmap Z iofd;
  attached_fds : gmap Z Z;
  __fobj_life_id : Z;
  io_lists : gmap Z (list Z);
  io_counts : gmap Z Z;
  io_errno : Z;
  io_tick : Z;
  io_log : list ioevent;
  io_held : list Z
}.

Definition set_objs x w := MkIo x (attached_fds w) (__fobj_life_id w) (io_lists w) (io_counts w) (io_errno w) (io_tick w) (io_log w) (io_held w).
Definition set_table x w := MkIo (io_objs w) x (__fobj_life_id w) (io_lists w) (io_counts w) (io_errno w) (io_tick w) (io_log w) (io_held w).
Definition next_life w := MkIo (io_objs w) (attached_fds w) (u32 (__fobj_life_id w + 1)) (io_lists w) (io_counts w) (io_errno w) (io_tick w) (io_log w) (io_held w).
Definition set_list q l n w := MkIo (io_objs w) (attached_fds w) (__fobj_life_id w) (<[q := l]> (io_lists w)) (<[q := n]> (io_counts w)) (io_errno w) (io_tick w) (io_log w) (io_held w).
Definition set_ioerr x w := MkIo (io_objs w) (attached_fds w) (__fobj_life_id w) (io_lists w) (io_counts w) x (io_tick w) (io_log w) (io_held w).
Definition io_next w := MkIo (io_objs w) (attached_fds w) (__fobj_life_id w) (io_lists w) (io_counts w) (io_errno w) (io_tick w + 1) (io_log w) (io_held w).
Definition io_note e w := MkIo (io_objs w) (attached_fds w) (__fobj_life_id w) (io_lists w) (io_counts w) (io_errno w) (io_tick w) (io_log w ++ [e]) (io_held w).
Definition set_ioheld l w := MkIo (io_objs w) (attached_fds w) (__fobj_life_id w) (io_lists w) (io_counts w) (io_errno w) (io_tick w) (io_log w) l.

Definition set_ffd x f := MkIofd (f_conf f) x (f_usage f) (f_life f) (f_flags f) (f_timer f) (f_buf f) (f_data f) (f_tail f) (f_wq f) (f_wlen f).
Definition set_fusage x f := MkIofd (f_conf f) (f_fd f) x (f_life f) (f_flags f) (f_timer f) (f_buf f) (f_data f) (f_tail f) (f_wq f) (f_wlen f).
Definition set_flife x f := MkIofd (f_conf f) (f_fd f) (f_usage f) x (f_flags f) (f_timer f) (f_buf f) (f_data f) (f_tail f) (f_wq f) (f_wlen f).
Definition set_fflags x f := MkIofd (f_conf f) (f_fd f) (f_usage f) (f_life f) x (f_timer f) (f_buf f) (f_data f) (f_tail f) (f_wq f) (f_wlen f).
Definition set_ftimer x f := MkIofd (f_conf f) (f_fd f) (f_usage f) (f_life f) (f_flags f) x (f_buf f) (f_data f) (f_tail f) (f_wq f) (f_wlen f).
Definition set_fbuf b d t f := MkIofd (f_conf f) (f_fd f) (f_usage f) (f_life f) (f_flags f) (f_timer f) b d t (f_wq f) (f_wlen f).
Definition set_fwq l n f := MkIofd (f_conf f) (f_fd f) (f_usage f) (f_life f) (f_flags f) (f_timer f) (f_buf f) (f_data f) (f_tail f) l n.

(** The arguments of [__mpq_add_fd_argv]. *)
Record add_args := MkAdd {
  a_fd : Z;
  a_timeo : Z;
  a_flags : Z;
  a_conf : ioconf;
  a_data : bool;
  a_sigp : bool
}.

(** What runs while a user's function runs: calls of the application's interface
    on this thread; other threads that look up an object or let one go; the
    functions that other threads have queued for this queue, with a reference
    that they hold meanwhile. *)
Inductive io_act :=
| AClose (fd : Z)
| ADel (fd : Z)
| AWrite (fd : Z) (bs : list Z)
| AAdd (a : add_args)
| AGet (fd : Z)
| APut (f : Z)
| ATargetClose (f : Z)
| ATargetDel (f : Z)
| ATargetWrite (f : Z) (bs : list Z).

(** The environment.  A read gives an error or at most as many bytes as asked
    for; a write takes at most what it is given; [aosl_malloc] gives an
    address that is not in use.  [env_iocall] tells of a queue whether a call to it is
    made, fails with an error number, or whether it is gone. *)
Inductive call_outcome := CallDone | CallFails (e : Z) | CallNoQueue.
(** The poll back end that the library is built with. *)
Inductive io_backend := Epoll | Poll | Select.
Class IoEnv := {
  env_backend : io_backend;
  env_chk : ioworld -> Z -> list Z -> Z * list io_act;
  env_post : ioworld -> Z -> list Z -> Z * list Z * list io_act;
  env_data : ioworld -> Z -> list Z -> list io_act;
  env_read : ioworld -> Z -> Z -> (Z + list Z) * list io_act;
  env_write : ioworld -> Z -> list Z -> Z * list io_act;
  env_event : ioworld -> Z -> Z -> list io_act;
  env_getfd : ioworld -> Z * Z;
  env_putfd : ioworld -> Z -> Z;
  env_sk_write : ioworld -> Z -> list Z -> Z;
  env_sk_close : ioworld -> Z -> Z;
  env_iomalloc : ioworld -> Z;
  env_wmalloc : ioworld -> bool;
  env_add_event : ioworld -> Z -> Z;
  env_del_event : ioworld -> Z -> Z;
  env_set_timer : ioworld -> Z;
  env_iocall : ioworld -> Z -> call_outcome;
  env_read_len : forall w f n bs acts, env_read w f n = (inr bs, acts) -> Z.of_nat (length bs) <= n;
  env_read_err : forall w f n e acts, env_read w f n = (inl e, acts) -> e < 0;
  env_write_len : forall w f bs, fst (env_write w f bs) <= Z.of_nat (length bs);
  env_sk_write_len : forall w f bs, env_sk_write w f bs <= Z.of_nat (length bs);
  env_iomalloc_ok : forall w, env_iomalloc w <> 0 -> 0 < env_iomalloc w /\ io_objs w !! env_iomalloc w = None;
  env_call_err : forall w q e, env_iocall w q = CallFails e -> 0 < e
}.

(** The bytes of a buffer from [a] to [b]. *)
Definition slice (a b : Z) (l : list Z) : list Z := take (Z.to_nat (b - a)) (drop (Z.to_nat a) l).
(** [l] with [bs] written at [a]. *)
Definition splice (a : Z) (bs l : list Z) : list Z := take (Z.to_nat a) l ++ bs ++ drop (Z.to_nat a + length bs) l.

Section Iofd.
Context `{IoEnv}.

Definition modw (f : ioworld -> ioworld) : CM ioworld unit := do w <- cget; cput (f w).
(** A question to the environment. *)
Definition ask {A} (g : ioworld -> A) : CM ioworld A := do w <- cget; modw io_next ;; cret (g w).
Definition get_f (f : Z) : CM ioworld iofd := do w <- cget; match io_objs w !! f with Some o => cret o | None => cfault end.
Definition mod_f (f : Z) (g : iofd -> iofd) : CM ioworld unit :=
  do o <- get_f f; modw (fun w => set_objs (<[f := g o]> (io_objs w)) w).

(** [aosl_hal_set_error] *)
Definition aosl_hal_set_error (err : Z) : CM ioworld Z :=
  if err <? 0 then
    let newerr := if err =? AOSL_HAL_RET_EINTR then AOSL_EINTR else if err =? AOSL_HAL_RET_EAGAIN then AOSL_EAGAIN
                  else if err =? AOSL_HAL_RET_EINPROGRESS then AOSL_EINPROGRESS else AOSL_EHAL in
    modw (set_ioerr newerr) ;; cret (- newerr)
  else cret 0.
(** [return_err] *)
Definition return_err (err : Z) : CM ioworld Z := if IS_ERR err then modw (set_ioerr (- err)) ;; cret (-1) else cret err.

(** ** [kernel/fileobj.c] *)

Definition __fget (f : Z) : CM ioworld unit := do o <- get_f f; mod_f f (set_fusage (f_usage o + 1)).
Definition fget (fd : Z) : CM ioworld Z :=
  if aosl_fd_invalid fd then cret 0 else
  do w <- cget;
  match attached_fds w !! fd with
  | Some f => __fget f ;; cret f
  | None => cret 0
  end.
(** With the last reference the destructor frees the buffers that were not
    written, and the object is freed. *)
Definition fput (f : Z) : CM ioworld unit :=
  do o <- get_f f;
  if f_usage o - 1 =? 0 then modw (fun w => set_objs (delete f (io_objs w)) w)
  else mod_f f (set_fusage (f_usage o - 1)).
Definition install_fd (fd f : Z) : CM ioworld Z :=
  if aosl_fd_invalid fd then cret (- AOSL_EBADF) else
  do w <- cget;
  match attached_fds w !! fd with
  | Some _ => cret (- AOSL_EBUSY)
  | None =>
    mod_f f (set_flife (__fobj_life_id w)) ;; modw next_life ;;
    modw (fun w => set_table (<[fd := f]> (attached_fds w)) w) ;; cret 0
  end.
Definition remove_fd (f : Z) : CM ioworld Z :=
  do o <- get_f f;
  do w <- cget;
  let node := attached_fds w !! f_fd o in
  modw (fun w => set_table (delete (f_fd o) (attached_fds w)) w) ;;
  cret (if decide (node = Some f) then 0 else - AOSL_ENONET).

(** ** Adding *)

Definition q_list (w : ioworld) (q : Z) : list Z := default [] (io_lists w !! q).
Definition q_iofds (w : ioworld) (q : Z) : Z := default 0 (io_counts w !! q).
Definition buff_size (c : ioconf) : Z := if c_chk c then c_max c * 2 else c_max c.

(** [mpq_init_iofds] *)
Definition mpq_init_iofds (q : Z) : CM ioworld unit := modw (set_list q [] 0).

(** [os_add_event_fd_epoll] registers the descriptor; [os_add_event_fd_poll] and
    [os_add_event_fd_select] keep the events to poll for in the flags. *)
Definition armed_flags (o : iofd) : Z :=
  Z.lor (Z.lor (f_flags o) (if c_read (f_conf o) then AOSL_POLLIN else 0)) (if c_write (f_conf o) then AOSL_POLLOUT else 0).
Definition os_add_event_fd (f : Z) : CM ioworld Z :=
  match env_backend with
  | Epoll => ask (fun w => env_add_event w f)
  | Poll | Select => mod_f f (fun o => set_fflags (armed_flags o) o) ;; cret 0
  end.
Definition __q_add_fd (q f : Z) : CM ioworld Z :=
  do err <- os_add_event_fd f;
  if err <? 0 then cret err else
  modw (fun w => set_list q (q_list w q ++ [f]) (q_iofds w q + 1) w) ;; cret 0.

(** The part of [__mpq_add_fd_argv] up to the point where the object can be found by
    others: an error or the object. *)
Definition add_install (a : add_args) : CM ioworld (Z + Z) :=
  let c := a_conf a in
  let max_pkt_size := u64 (c_max c) in
  if a_sigp a then cret (inl (- AOSL_EPERM)) else
  if (c_chk c && (max_pkt_size <? FD_MAX_PACKET_SIZE_MIN)) || (FD_MAX_PACKET_SIZE_MAX <? max_pkt_size) then cret (inl (- AOSL_EINVAL)) else
  if FD_MAX_EXTRA_BYTES <=? c_extra c then cret (inl (- AOSL_EINVAL)) else
  if negb (a_data a) then cret (inl (- AOSL_EINVAL)) else
  do found <- (if a_fd a =? AOSL_INVALID_FD then cret 0 else fget (a_fd a));
  if negb (found =? 0) then fput found ;; cret (inl (- AOSL_EEXIST)) else
  do f <- ask env_iomalloc;
  if f =? 0 then cret (inl (- AOSL_ENOMEM)) else
  let c := MkConf (c_q c) (AOSL_I_ALIGN_PTR max_pkt_size) (c_extra c) (c_read c) (c_write c) (c_chk c) (c_post c) (c_event c)
             ((a_fd a =? AOSL_INVALID_FD) && c_putfd c) (c_argv c) in
  modw (fun w => set_objs (<[f := MkIofd c 0 1 0 (a_flags a) AOSL_MPQ_TIMER_INVALID (replicate (Z.to_nat (buff_size c)) 0) 0 0 [] 0]> (io_objs w)) w) ;;
  do '(err, fd) <- (if a_fd a =? AOSL_INVALID_FD then ask env_getfd else cret (0, a_fd a));
  if (err <? 0) || (fd =? AOSL_INVALID_FD) then modw (fun w => set_objs (delete f (io_objs w)) w) ;; cret (inl err) else
  mod_f f (set_ffd fd) ;;
  do err <- install_fd fd f;
  if err <? 0 then modw (fun w => set_objs (delete f (io_objs w)) w) ;; cret (inl err) else
  cret (inr f).

Definition add_finish (a : add_args) (f : Z) : CM ioworld Z :=
  do o <- get_f f;
  do err <- __q_add_fd (c_q (f_conf o)) f;
  if err <? 0 then do _ <- remove_fd f; modw (fun w => set_objs (delete f (io_objs w)) w) ;; cret err else
  (when has_flag (f_flags o) IOFD_NOT_READY && (0 <=? a_timeo a) then
     (do t <- ask env_set_timer; mod_f f (set_ftimer t))) ;;
  cret 0.

Definition __mpq_add_fd_argv (a : add_args) : CM ioworld Z :=
  do r <- add_install a;
  match r with inl err => cret err | inr f => add_finish a f end.

(** [aosl_mpq_add_fd]; [this_q] is 0 when there is no queue and none can be made. *)
Definition aosl_mpq_add_fd (this_q : Z) (a : add_args) : CM ioworld Z :=
  if 64 <? Z.of_nat (length (c_argv (a_conf a))) then modw (set_ioerr AOSL_E2BIG) ;; cret (-1) else
  if this_q =? 0 then modw (set_ioerr AOSL_EINVAL) ;; cret (-1) else
  do err <- __mpq_add_fd_argv a; return_err err.
(** [aosl_mpq_add_fd_on_q]: [err] is uninitialized when the function is not run, and
    then gets [aosl_errno]. *)
Definition aosl_mpq_add_fd_on_q (a : add_args) : CM ioworld Z :=
  if 64 <? Z.of_nat (length (c_argv (a_conf a))) then return_err (- AOSL_E2BIG) else
  do r <- ask (fun w => env_iocall w (c_q (a_conf a)));
  match r with
  | CallNoQueue => return_err (- AOSL_EINVAL)
  | CallFails e => modw (set_ioerr e) ;; return_err e
  | CallDone => do err <- __mpq_add_fd_argv a; return_err err
  end.

(** ** Removing and closing *)

Definition __q_del_f (q f : Z) : CM ioworld Z :=
  do o <- get_f f;
  if negb (c_q (f_conf o) =? q) then cret (- AOSL_EPERM) else
  mod_f f (set_ftimer AOSL_MPQ_TIMER_INVALID) ;;
  do _ <- ask (fun w => env_del_event w f);
  do err <- remove_fd f;
  if err <? 0 then cret err else
  modw (fun w => set_list q (drop_one f (q_list w q)) (q_iofds w q - 1) w) ;;
  fput f ;;
  cret err.

Definition __mpq_del_fd (q fd : Z) : CM ioworld Z :=
  do f <- fget fd;
  if f =? 0 then cret (- AOSL_ENOENT) else
  do err <- __q_del_f q f; fput f ;; cret err.

Definition ____close (fd : Z) : CM ioworld Z :=
  do err <- ask (fun w => env_sk_close w fd);
  modw (io_note (EvClose fd)) ;;
  if err <? 0 then aosl_hal_set_error err else cret err.

Definition __this_q_close_f (q f : Z) : CM ioworld Z :=
  do o <- get_f f;
  let fd := f_fd o in
  __fget f ;;
  do err <- __q_del_f q f;
  if err <? 0 then fput f ;; cret err else
  do err <- (if c_putfd (f_conf o) then modw (io_note (EvClose fd)) ;; ask (fun w => env_putfd w fd) else ____close fd);
  mod_f f (set_ffd AOSL_INVALID_FD) ;;
  fput f ;;
  cret err.

(** A function [g] run by the queue [q] for a caller that waits: on this thread
    when it is this queue, else by the queue's thread, if it does. *)
Definition on_q (this_q q : Z) (g : CM ioworld Z) : CM ioworld Z :=
  if q =? this_q then g else
  do r <- ask (fun w => env_iocall w q);
  match r with
  | CallNoQueue => cret (- AOSL_EINVAL)
  | CallFails e => modw (set_ioerr e) ;; cret e
  | CallDone => g
  end.

Definition __iofd_close (this_q fd : Z) : CM ioworld Z :=
  do f <- fget fd;
  if f =? 0 then ____close fd else
  do o <- get_f f;
  do err <- on_q this_q (c_q (f_conf o)) (__this_q_close_f (c_q (f_conf o)) f);
  fput f ;;
  cret err.
Definition aosl_close (this_q fd : Z) : CM ioworld Z := do err <- __iofd_close this_q fd; return_err err.

Definition __iofd_del (this_q fd : Z) : CM ioworld Z :=
  do f <- fget fd;
  if f =? 0 then cret (- AOSL_EBADF) else
  do o <- get_f f;
  do err <- on_q this_q (c_q (f_conf o)) (__q_del_f (c_q (f_conf o)) f);
  fput f ;;
  cret err.
Definition aosl_mpq_del_fd (this_q fd : Z) : CM ioworld Z := do err <- __iofd_del this_q fd; return_err err.

(** ** Writing *)

Definition w_queue_add (b : wbuf) (o : iofd) : iofd := set_fwq (f_wq o ++ [b]) (f_wlen o + wb_size b) o.
Definition w_queue_remove_head (o : iofd) : iofd :=
  match f_wq o with [] => o | b :: l => set_fwq l (f_wlen o - wb_size b) o end.
Definition w_queue_space (o : iofd) : Z := if f_wlen o <? FD_MAX_WBUF_SIZE then FD_MAX_WBUF_SIZE - f_wlen o else 0.

(** The part of [____write] from [__queue_it]: [bs] is what is left to write. *)
Definition queue_it (f : Z) (extra bs : list Z) (len : Z) : CM ioworld Z :=
  do ok <- ask env_wmalloc;
  if negb ok then cret (- AOSL_ENOMEM) else
  mod_f f (w_queue_add (MkWb bs (Z.of_nat (length bs)) extra)) ;; cret len.
Definition ____write (f : Z) (bs : list Z) : CM ioworld Z :=
  let len := Z.of_nat (length bs) in
  if FD_MAX_WBUF_SIZE <? len then cret (- AOSL_EMSGSIZE) else
  do o <- get_f f;
  if w_queue_space o <? len then cret (- AOSL_EAGAIN) else
  if negb (bool_decide (f_wq o = [])) || has_flag (f_flags o) IOFD_NOT_READY then queue_it f [] bs len else
  do err <- ask (fun w => env_sk_write w (f_fd o) bs);
  modw (io_note (EvWrite (f_fd o) (take (Z.to_nat err) bs))) ;;
  mod_f f (fun o => set_fflags (Z.lor (f_flags o) AOSL_POLLOUT) o) ;;
  if err <=? 0 then aosl_hal_set_error err else
  if err <? len then queue_it f [] (drop (Z.to_nat err) bs) len else cret len.

Definition aosl_write (this_q fd : Z) (bs : list Z) : CM ioworld Z :=
  do f <- fget fd;
  do err <- (if f =? 0 then cret (- AOSL_EINVAL) else
             do o <- get_f f;
             do err <- on_q this_q (c_q (f_conf o)) (____write f bs);
             fput f ;;
             cret err);
  return_err err.

Definition aosl_mpq_fd_arg (fd n : Z) : CM ioworld (Z * option Z) :=
  do f <- fget fd;
  do '(err, arg) <- (if f =? 0 then cret (- AOSL_EINVAL, None) else
                     do o <- get_f f;
                     let argv := c_argv (f_conf o) in
                     fput f ;;
                     cret (if n <? Z.of_nat (length argv) then (0, argv !! Z.to_nat n) else (- AOSL_ENOENT, None)));
  do err <- return_err err;
  cret (err, arg).

(** ** Scripts

    With [poll] and [select], applications give every descriptor a [read_f], and write
    only to descriptors with a [write_f]. *)
Definition level : bool := match env_backend with Epoll => false | _ => true end.
Definition writable (w : ioworld) (f : option Z) : bool :=
  negb level || match f with Some f => match io_objs w !! f with Some o => c_write (f_conf o) | None => true end | None => true end.

Definition run_act (this_q : Z) (a : io_act) : CM ioworld unit :=
  match a with
  | AClose fd => do _ <- aosl_close this_q fd; cret tt
  | ADel fd => do _ <- aosl_mpq_del_fd this_q fd; cret tt
  | AWrite fd bs => do w <- cget; when writable w (attached_fds w !! fd) then (do _ <- aosl_write this_q fd bs; cret tt)
  | AAdd a => when negb level || c_read (a_conf a) then (do _ <- aosl_mpq_add_fd this_q a; cret tt)
  | AGet fd => do f <- fget fd; when negb (f =? 0) then modw (fun w => set_ioheld (f :: io_held w) w)
  | APut f =>
    do w <- cget;
    when bool_decide (f ∈ io_held w) then (modw (fun w => set_ioheld (drop_one f (io_held w)) w) ;; fput f)
  | ATargetClose f => do w <- cget; when bool_decide (f ∈ io_held w) then (do o <- get_f f; do _ <- __this_q_close_f (c_q (f_conf o)) f; cret tt)
  | ATargetDel f => do w <- cget; when bool_decide (f ∈ io_held w) then (do o <- get_f f; do _ <- __q_del_f (c_q (f_conf o)) f; cret tt)
  | ATargetWrite f bs => do w <- cget; when bool_decide (f ∈ io_held w) && writable w (Some f) then (do _ <- ____write f bs; cret tt)
  end.
Fixpoint run_acts (this_q : Z) (l : list io_act) : CM ioworld unit :=
  match l with [] => cret tt | a :: l => run_act this_q a ;; run_acts this_q l end.

(** A user's function: its result, after what it did. *)
Definition callback {A} (this_q : Z) (g : ioworld -> A * list io_act) : CM ioworld A :=
  do '(a, acts) <- ask g; run_acts this_q acts ;; cret a.

Definition f_event_and_close (q f iofd_err : Z) : CM ioworld unit :=
  do o <- get_f f;
  when negb (aosl_fd_invalid (f_fd o)) then (
    (when c_event (f_conf o) then (modw (io_note (EvEvent (f_fd o) iofd_err)) ;; callback q (fun w => (tt, env_event w f iofd_err)))) ;;
    do o <- get_f f;
    when negb (aosl_fd_invalid (f_fd o)) then (do _ <- __this_q_close_f q f; cret tt)).

(** ** Reading *)

Definition __iofd_better_move_buffer (o : iofd) : bool :=
  negb (c_chk (f_conf o)) ||
  (c_max (f_conf o) * 2 - f_tail o <? MIN_SYSCALL_SIZE) ||
  ((c_max (f_conf o) <? f_data o) && (f_tail o - f_data o <? MIN_SYSCALL_SIZE)) ||
  ((f_tail o - f_data o <=? MAX_LW_COPY_SIZE) && (c_max (f_conf o) / 2 <=? f_data o)).

(** How the body of the inner loop ends: the next round, [break] to read more, or
    [return]. *)
Inductive inner := Next | Again | Return (err : Z).

(** [data_f] is called with [data_len] bytes, and the window moves by [err]; the
    result tells whether the descriptor has been closed. *)
Definition hand_out (q f err data_len : Z) : CM ioworld bool :=
  do o <- get_f f;
  do closed <-
    (if 0 <=? data_len then
       let bs := slice (f_data o) (f_data o + data_len) (f_buf o) in
       modw (io_note (EvData f bs)) ;;
       callback q (fun w => (tt, env_data w f bs)) ;;
       do o <- get_f f; cret (aosl_fd_invalid (f_fd o))
     else cret false);
  if closed then cret true else
  mod_f f (fun o => set_fbuf (f_buf o) (f_data o + err) (f_tail o) o) ;; cret false.

(** The part with a packet: [post_f], which may change the packet in place, then
    [data_f]. *)
Definition deliver (q f err : Z) : CM ioworld bool :=
  do o <- get_f f;
  if c_post (f_conf o) then
    do '(n, bs) <- callback q (fun w => env_post w f (slice (f_data o) (f_data o + err) (f_buf o)));
    mod_f f (fun o => set_fbuf (splice (f_data o) (take (Z.to_nat err) bs) (f_buf o)) (f_data o) (f_tail o) o) ;;
    do o <- get_f f;
    if aosl_fd_invalid (f_fd o) then cret true else hand_out q f err n
  else hand_out q f err err.

(** The body of the inner loop of [__iofd_read_data]. *)
Definition packet_step (q f : Z) : CM ioworld inner :=
  do o <- get_f f;
  let avail := f_tail o - f_data o in
  let check := c_chk (f_conf o) && (0 <? avail) in
  do err <- (if check then callback q (fun w => env_chk w f (slice (f_data o) (f_tail o) (f_buf o))) else cret avail);
  do o <- get_f f;
  if check && aosl_fd_invalid (f_fd o) then cret (Return 0) else
  if check && ((err <? 0) || (f_tail o - f_data o <? err)) then
    f_event_and_close q f (if err <? 0 then err else - AOSL_EINVAL) ;;
    cret (Return (if 0 <? err then - AOSL_EINVAL else err))
  else
  do closed <- (if (0 <? err) || has_flag (f_flags o) IOFD_READ_RETURN_0 then deliver q f err else cret false);
  if closed then cret (Return 0) else
  do o <- get_f f;
  if has_flag (f_flags o) IOFD_READ_RETURN_0 then
    if c_chk (f_conf o) then cret (Return 0) else
    mod_f f (fun o => set_fflags (Z.ldiff (f_flags o) IOFD_READ_RETURN_0) o) ;; cret Again
  else cret (if err =? 0 then Again else Next).

Fixpoint read_packets (fuel : nat) (q f : Z) : CM ioworld inner :=
  match fuel with
  | O => cnofuel
  | S fuel =>
    do r <- packet_step q f;
    match r with Next => read_packets fuel q f | _ => cret r end
  end.

(** [memmove] of what is left to the head of the buffer. *)
Definition move_buffer (o : iofd) : iofd :=
  set_fbuf (splice 0 (slice (f_data o) (f_tail o) (f_buf o)) (f_buf o)) 0 (f_tail o - f_data o) o.

(** [__iofd_read_data]: the outer loop.  A function that is not there cannot be
    called. *)
Fixpoint read_loop (fuel : nat) (q f : Z) : CM ioworld Z :=
  match fuel with
  | O => cnofuel
  | S fuel =>
    do r <- read_packets fuel q f;
    match r with
    | Return err => cret err
    | _ =>
      do o <- get_f f;
      (when __iofd_better_move_buffer o then mod_f f move_buffer) ;;
      do o <- get_f f;
      do r <- (if c_read (f_conf o) then callback q (fun w => env_read w f (buff_size (f_conf o) - f_tail o)) else cfault);
      mod_f f (fun o => set_fflags (Z.lor (f_flags o) AOSL_POLLIN) o) ;;
      match r with
      | inl err => if negb (err =? - AOSL_EAGAIN) then f_event_and_close q f err ;; cret err else cret 0
      | inr bs =>
        modw (io_note (EvRead f bs)) ;;
        (if bool_decide (bs = []) then mod_f f (fun o => set_fflags (Z.lor (f_flags o) IOFD_READ_RETURN_0) o)
         else mod_f f (fun o => set_fbuf (splice (f_tail o) bs (f_buf o)) (f_data o) (f_tail o + Z.of_nat (length bs)) o)) ;;
        read_loop fuel q f
      end
    end
  end.
Definition __iofd_read_data (fuel : nat) (q f : Z) : CM ioworld Z := read_loop fuel q f.

(** ** Writing what is queued *)

(** What follows the write of [node]; [again] is the rest of the loop. *)
Definition write_after (q f : Z) (node : wbuf) (err : Z) (again : CM ioworld Z) : CM ioworld Z :=
  if err <? 0 then
    if negb (err =? - AOSL_EAGAIN) then f_event_and_close q f err ;; cret err else cret 0
  else
  let rest := drop (Z.to_nat err) (wb_bytes node) in
  mod_f f (fun o => match f_wq o with b :: l => set_fwq (MkWb rest (wb_size b) (wb_extra b) :: l) (f_wlen o) o | [] => o end) ;;
  if bool_decide (rest = []) then mod_f f w_queue_remove_head ;; again else cret 0.

Fixpoint write_loop (fuel : nat) (q f : Z) : CM ioworld Z :=
  match fuel with
  | O => cnofuel
  | S fuel =>
    do o <- get_f f;
    match f_wq o with
    | [] =>
      (when c_event (f_conf o) then
         (modw (io_note (EvEvent (f_fd o) AOSL_IOFD_READY_FOR_WRITING)) ;; callback q (fun w => (tt, env_event w f AOSL_IOFD_READY_FOR_WRITING)))) ;;
      cret 0
    | node :: _ =>
      do err <- (if c_write (f_conf o) then callback q (fun w => env_write w f (wb_bytes node)) else cfault);
      modw (io_note (EvWrite (f_fd o) (take (Z.to_nat err) (wb_bytes node)))) ;;
      mod_f f (fun o => set_fflags (Z.lor (f_flags o) AOSL_POLLOUT) o) ;;
      write_after q f node err (write_loop fuel q f)
    end
  end.
Definition __iofd_write_data (fuel : nat) (q f : Z) : CM ioworld Z :=
  do o <- get_f f;
  (when has_flag (f_flags o) IOFD_NOT_READY then
     mod_f f (fun o => set_ftimer AOSL_MPQ_TIMER_INVALID (set_fflags (Z.ldiff (f_flags o) IOFD_NOT_READY) o))) ;;
  write_loop fuel q f.

(** ** The queue's thread *)

(** [__iofd_not_ready_timeout], called with the raw address. *)
Definition __iofd_not_ready_timeout (q f : Z) : CM ioworld unit :=
  __fget f ;;
  do o <- get_f f;
  (when has_flag (f_flags o) IOFD_NOT_READY then f_event_and_close q f (- AOSL_ETIMEDOUT)) ;;
  mod_f f (set_ftimer AOSL_MPQ_TIMER_INVALID) ;;
  fput f.

(** One event of [os_mp_dispatch_epoll]. *)
Definition dispatch_event (fuel : nat) (q fd events : Z) : CM ioworld unit :=
  do f <- fget fd;
  if f =? 0 then cret tt else
  (if has_flag events AOSL_POLLERR then f_event_and_close q f AOSL_IOFD_ERROR else
   do err <- (if has_flag events AOSL_POLLOUT then __iofd_write_data fuel q f else cret 0);
   if err <? 0 then cret tt else
   do err <- (if has_flag events AOSL_POLLIN then __iofd_read_data fuel q f else cret 0);
   if err <? 0 then cret tt else
   when has_flag events AOSL_POLLHUP then f_event_and_close q f AOSL_IOFD_HUP) ;;
  fput f.
(** [piper] is the pipe that wakes the queue; [os_drain_sigp] is in [Mpq]. *)
Fixpoint os_mp_dispatch_epoll (fuel : nat) (q piper : Z) (events : list (Z * Z)) : CM ioworld unit :=
  match events with
  | [] => cret tt
  | (fd, ev) :: events => (if fd =? piper then cret tt else dispatch_event fuel q fd ev) ;; os_mp_dispatch_epoll fuel q piper events
  end.

(** [mpq_fini_iofds] *)
Fixpoint fini_iofds (fuel : nat) (q : Z) : CM ioworld unit :=
  match fuel with
  | O => cnofuel
  | S fuel =>
    do w <- cget;
    match q_list w q with
    | [] => cret tt
    | f :: _ => do _ <- __this_q_close_f q f; fini_iofds fuel q
    end
  end.
Definition mpq_fini_iofds (fuel : nat) (q : Z) : CM ioworld unit :=
  fini_iofds fuel q ;; modw (fun w => set_list q (q_list w q) 0 w).

End Iofd.
