(* ===== verification/IofdInv.v ===== *)
(** * Watched descriptors: references

    Every operation, with whatever the user's functions and other threads do
    meanwhile, finds its objects allocated and keeps the accounting of references
    right. *)
From S2P Require Import Prelude Refs Iofd.
#[local] Open Scope aosl_scope.

(** ** The invariant *)

Definition listed (w : ioworld) (f : Z) (o : iofd) : bool := bool_decide (f ∈ q_list w (c_q (f_conf o))).

(** The buffers of an object: the window of the read buffer, and the accounting of
    what is to be written. *)
Fixpoint wsum (l : list wbuf) : Z := match l with [] => 0 | b :: l => wb_size b + wsum l end.
Record bufs_ok (o : iofd) : Prop := {
  bo_window : 0 <= f_data o <= f_tail o /\ f_tail o <= buff_size (f_conf o);
  bo_size : Z.of_nat (length (f_buf o)) = buff_size (f_conf o);
  bo_max : 0 <= c_max (f_conf o) <= FD_MAX_PACKET_SIZE_MAX /\ (c_chk (f_conf o) = true -> FD_MAX_PACKET_SIZE_MIN <= c_max (f_conf o));
  bo_wlen : f_wlen o = wsum (f_wq o) /\ f_wlen o <= FD_MAX_WBUF_SIZE;
  bo_wbytes : Forall (fun b => Z.of_nat (length (wb_bytes b)) <= wb_size b) (f_wq o)
}.

(** With [poll] and [select] the flags say what to wait for.  A descriptor that
    still has something to read is [loud]: it is waited for; an end of the stream has
    been told.  One with something to write is [awake]. *)
Definition loud `{IoEnv} (o : iofd) : Prop :=
  env_backend = Epoll \/ c_read (f_conf o) = false \/ has_flag (f_flags o) AOSL_POLLIN = true \/
  (c_chk (f_conf o) = true /\ has_flag (f_flags o) IOFD_READ_RETURN_0 = true).
Definition awake `{IoEnv} (o : iofd) : Prop :=
  env_backend = Epoll \/ c_write (f_conf o) = false \/ has_flag (f_flags o) AOSL_POLLOUT = true \/
  (f_wq o = [] /\ has_flag (f_flags o) IOFD_NOT_READY = false).
(** The functions that can be needed are there. *)
Definition full `{IoEnv} (o : iofd) : Prop := level = true -> c_read (f_conf o) = true /\ (c_write (f_conf o) = true \/ f_wq o = []).
(** The events that have been reported to a queue for its objects and not handled
    yet.  Nothing is said of a descriptor with the number of the queue's own pipe. *)
Class Unheard := MkUnheard { unheard_q : Z; unheard_pipe : Z; unheard : list (Z * Z * Z) }.
Definition pending `{Unheard} (fd f : Z) (o : iofd) (b : Z) : Prop :=
  fd = unheard_pipe \/ (c_q (f_conf o) = unheard_q /\ exists ev, (fd, f, ev) ∈ unheard /\ has_flag ev b = true).
Definition hears `{IoEnv, Unheard} (fd f : Z) (o : iofd) : Prop := (loud o \/ pending fd f o AOSL_POLLIN) /\ (awake o \/ pending fd f o AOSL_POLLOUT).

(** [F] are the references of the code that runs. *)
Record ioinv `{IoEnv, Unheard} (F : list Z) (w : ioworld) : Prop := {
  oi_usage : forall f o, io_objs w !! f = Some o ->
    0 < f /\ 0 < f_usage o /\ f_usage o = Z.b2z (listed w f o) + occ f (io_held w) + occ f F;
  oi_ref : forall f, f ∈ io_held w \/ f ∈ F -> is_Some (io_objs w !! f);
  oi_list : forall q f, f ∈ q_list w q -> exists o, io_objs w !! f = Some o /\ c_q (f_conf o) = q;
  oi_nodup : forall q, NoDup (q_list w q);
  oi_table : forall fd f, attached_fds w !! fd = Some f ->
    fd <> AOSL_INVALID_FD /\ exists o, io_objs w !! f = Some o /\ f_fd o = fd /\ listed w f o = true;
  oi_timer : forall f o, io_objs w !! f = Some o -> f_timer o <> AOSL_MPQ_TIMER_INVALID -> listed w f o = true;
  oi_count : forall q, q_iofds w q = Z.of_nat (length (q_list w q));
  oi_bufs : forall f o, io_objs w !! f = Some o -> bufs_ok o;
  oi_tick : 0 <= io_tick w;
  oi_hears : forall fd f o, attached_fds w !! fd = Some f -> io_objs w !! f = Some o -> hears fd f o;
  oi_full : forall f o, io_objs w !! f = Some o -> full o
}.

(** A change of an object after which it still hears what it heard. *)
Definition arms `{IoEnv} (o o' : iofd) : Prop := (loud o -> loud o') /\ (awake o -> awake o') /\ (full o -> full o').
Lemma arms_hears `{IoEnv, Unheard} fd f o o' : arms o o' -> f_conf o' = f_conf o -> hears fd f o -> hears fd f o'.
Proof. unfold hears, pending. intros (A1 & A2 & _) -> [? ?]. split; tauto. Qed.
Lemma arms_same `{IoEnv} o o' : f_conf o' = f_conf o -> f_flags o' = f_flags o -> f_wq o' = f_wq o -> arms o o'.
Proof. unfold arms, loud, awake, full. by intros -> -> ->. Qed.

(** What no operation that a user's function can do changes of an object. *)
Definition same_read (o o' : iofd) : Prop :=
  f_conf o' = f_conf o /\ f_buf o' = f_buf o /\ f_data o' = f_data o /\ f_tail o' = f_tail o /\
  has_flag (f_flags o') IOFD_READ_RETURN_0 = has_flag (f_flags o) IOFD_READ_RETURN_0 /\ f_wq o `prefix_of` f_wq o'.
Lemma same_read_trans o1 o2 o3 : same_read o1 o2 -> same_read o2 o3 -> same_read o1 o3.
Proof.
  intros (? & ? & ? & ? & ? & ?) (? & ? & ? & ? & ? & ?). repeat (split; [congruence|]). by etrans.
Qed.
Definition quiet (e : ioevent) : Prop := match e with EvRead _ _ | EvData _ _ => False | _ => True end.

Section Keep.
Context `{IoEnv, Unheard} (F0 : list Z) (w0 : ioworld).

Definition evolves (w : ioworld) : Prop :=
  (forall f o, f ∈ F0 -> io_objs w0 !! f = Some o -> exists o', io_objs w !! f = Some o' /\ same_read o o') /\
  (exists new, io_log w = io_log w0 ++ new /\ Forall quiet new) /\ io_tick w0 <= io_tick w.
(** [F0] are the references of the callers since the world [w0], [X] those taken
    since. *)
Definition J (X : list Z) (w : ioworld) : Prop := ioinv (X ++ F0) w /\ evolves w.

Lemma J_known X w f : J X w -> f ∈ X \/ f ∈ F0 \/ f ∈ io_held w -> exists o, io_objs w !! f = Some o.
Proof. intros [I _] Hf. destruct (oi_ref _ _ I f) as [o Eo]; [rewrite elem_of_app; tauto|by exists o]. Qed.

Lemma J_frame X w w' e : J X w -> io_tick w <= io_tick w' -> io_objs w' = io_objs w -> attached_fds w' = attached_fds w -> io_lists w' = io_lists w -> io_counts w' = io_counts w ->
  io_held w' = io_held w -> io_log w' = io_log w ++ e -> Forall quiet e -> J X w'.
Proof.
  intros [[U R L N T Ti C B K G W] [E1 [(new & E2 & E3) E4]]] Q0 Q1 Q2 Q3 Q4 Q5 Q6 Q7.
  assert (forall q, q_list w' q = q_list w q) as Hq by (intros; unfold q_list; by rewrite Q3).
  assert (forall f o, listed w' f o = listed w f o) as Hl by (intros; unfold listed; by rewrite Hq).
  split; [split|split].
  - intros f o. rewrite Q1, Q5, Hl. apply U.
  - intros f. rewrite Q1, Q5. apply R.
  - intros q f. rewrite Q1, Hq. apply L.
  - intros q. rewrite Hq. apply N.
  - intros fd f. rewrite Q1, Q2. intros Hfd. destruct (T fd f Hfd) as (? & o & ? & ? & ?). split; [done|]. exists o. by rewrite Hl.
  - intros f o. rewrite Q1, Hl. apply Ti.
  - intros q. unfold q_iofds in *. rewrite Q4, Hq. apply C.
  - intros f o. rewrite Q1. apply B.
  - lia.
  - intros fd f o. rewrite Q1, Q2. apply G.
  - intros f o. rewrite Q1. apply W.
  - rewrite Q1. exact E1.
  - split; [|lia]. exists (new ++ e). rewrite Q6, E2, app_assoc. split; [done|]. by apply Forall_app.
Qed.
Lemma J_next X w : J X w -> J X (io_next w).
Proof. intros HJ. eapply (J_frame X w _ []); try done; cbn; [lia|by rewrite app_nil_r]. Qed.
Lemma J_err X w e : J X w -> J X (set_ioerr e w).
Proof. intros HJ. eapply (J_frame X w _ []); try done. cbn. by rewrite app_nil_r. Qed.
Lemma J_note X w e : quiet e -> J X w -> J X (io_note e w).
Proof. intros He HJ. eapply (J_frame X w _ [e]); try done. by constructor. Qed.

(** An object changes; nothing that counts does. *)
Lemma J_change X w f o o' : J X w -> io_objs w !! f = Some o -> f_usage o' = f_usage o -> f_conf o' = f_conf o -> (f ∈ F0 -> same_read o o') -> bufs_ok o' ->
  (full o -> full o') -> (forall fd, attached_fds w !! fd = Some f -> hears fd f o -> hears fd f o') ->
  f_fd o' = f_fd o \/ (forall fd, attached_fds w !! fd <> Some f) ->
  f_timer o' = f_timer o \/ f_timer o' = AOSL_MPQ_TIMER_INVALID \/ listed w f o = true ->
  J X (set_objs (<[f := o']> (io_objs w)) w).
Proof.
  intros [[U R L N T Ti C B K G W] [E1 E2]] Eo Hu S1 Hsame Hb Hfull Hhear Hfd Ht.
  assert (listed w f o' = listed w f o) as Hl by (unfold listed; by rewrite S1).
  assert (forall g p, io_objs w !! g = Some p -> exists p', (<[f := o']> (io_objs w)) !! g = Some p' /\ f_conf p' = f_conf p /\ (g ∈ F0 -> same_read p p')) as Hup.
  { intros g p Ep. destruct (decide (g = f)) as [->|Hn]; [|rewrite lookup_insert_ne by done; exists p; done].
    rewrite Eo in Ep. injection Ep as <-. exists o'. rewrite lookup_insert_eq. done. }
  split; [split|split]; cbn [io_objs attached_fds io_held io_log io_lists io_counts set_objs].
  - intros g p. destruct (decide (g = f)) as [->|Hn]; [rewrite lookup_insert_eq; intros [= <-]|rewrite lookup_insert_ne by done; apply U].
    change (listed (set_objs (<[f:=o']> (io_objs w)) w) f o') with (listed w f o'). rewrite Hl, Hu. by apply U.
  - intros g Hg. destruct (R g Hg) as [p Ep]. destruct (Hup g p Ep) as (p' & -> & _). done.
  - intros q g Hg. destruct (L q g Hg) as (p & Ep & Hq). destruct (Hup g p Ep) as (p' & E' & Ec & _). exists p'. by rewrite Ec.
  - exact N.
  - intros fd g Hg. destruct (T fd g Hg) as (Hi & p & Ep & Hp & Hpl). split; [done|]. destruct (decide (g = f)) as [->|Hn]; [|exists p; by rewrite lookup_insert_ne].
    rewrite Eo in Ep. injection Ep as <-. exists o'. rewrite lookup_insert_eq. split; [done|].
    destruct Hfd as [->|Hno]; [|by destruct (Hno fd)]. split; [done|]. by rewrite <-Hpl.
  - intros g p. destruct (decide (g = f)) as [->|Hn]; [rewrite lookup_insert_eq; intros [= <-] Hp|rewrite lookup_insert_ne by done; apply Ti].
    change (listed w f o' = true). rewrite Hl. destruct Ht as [Ht|[Ht|Ht]]; [|done|done]. apply (Ti f o Eo). by rewrite <-Ht.
  - exact C.
  - intros g p. destruct (decide (g = f)) as [->|Hn]; [rewrite lookup_insert_eq; by intros [= <-]|rewrite lookup_insert_ne by done; apply B].
  - exact K.
  - intros fd g p Hg. destruct (decide (g = f)) as [->|Hn]; [rewrite lookup_insert_eq; intros [= <-]|rewrite lookup_insert_ne by done; by apply G].
    apply Hhear; [done|by apply (G fd f)].
  - intros g p. destruct (decide (g = f)) as [->|Hn]; [rewrite lookup_insert_eq; intros [= <-]; apply Hfull; by apply (W f)|rewrite lookup_insert_ne by done; apply W].
  - intros g p Hg Ep. destruct (E1 g p Hg Ep) as (p1 & Ep1 & Hs1). destruct (Hup g p1 Ep1) as (p' & E' & _ & Hs2). specialize (Hs2 Hg). exists p'. split; [done|].
    by eapply same_read_trans.
  - exact E2.
Qed.

Lemma J_upd X w f o o' : J X w -> io_objs w !! f = Some o -> f_usage o' = f_usage o -> f_conf o' = f_conf o -> (f ∈ F0 -> same_read o o') -> bufs_ok o' -> arms o o' ->
  f_fd o' = f_fd o \/ (forall fd, attached_fds w !! fd <> Some f) ->
  f_timer o' = f_timer o \/ f_timer o' = AOSL_MPQ_TIMER_INVALID \/ listed w f o = true ->
  J X (set_objs (<[f := o']> (io_objs w)) w).
Proof. intros HJ E Hu Hc Hs Hb Har Hf Ht. eapply J_change; try done; [apply Har|]. intros fd _. by apply arms_hears. Qed.

(** ** References *)

Lemma same_usage n o : same_read o (set_fusage n o).
Proof. done. Qed.
Lemma bufs_usage n o : bufs_ok o -> bufs_ok (set_fusage n o).
Proof. intros [? ? ? ? ?]. by split. Qed.

(** A new usage count is right when the references change with it. *)
Lemma J_usage X X' w f o n held : J X w -> io_objs w !! f = Some o -> 0 < n ->
  (forall g, occ g held + occ g X' = occ g (io_held w) + occ g X + if decide (g = f) then n - f_usage o else 0) ->
  J X' (set_ioheld held (set_objs (<[f := set_fusage n o]> (io_objs w)) w)).
Proof.
  intros [[U R L N T Ti C B K G W] [E1 E2]] Eo Hn Hocc.
  assert (forall g p, io_objs w !! g = Some p -> exists p', (<[f := set_fusage n o]> (io_objs w)) !! g = Some p' /\ f_conf p' = f_conf p /\ f_fd p' = f_fd p /\
    f_timer p' = f_timer p /\ same_read p p' /\ (bufs_ok p -> bufs_ok p')) as Hup.
  { intros g p Ep. destruct (decide (g = f)) as [->|Hn']; [|rewrite lookup_insert_ne by done; exists p; done].
    rewrite Eo in Ep. injection Ep as <-. exists (set_fusage n o). rewrite lookup_insert_eq. repeat (split; [done|]). apply bufs_usage. }
  split; [split|split]; cbn [io_objs attached_fds io_held io_log io_lists io_counts set_objs set_ioheld].
  - intros g p Ep. specialize (Hocc g). rewrite occ_app. destruct (decide (g = f)) as [->|Hng].
    + rewrite lookup_insert_eq in Ep. injection Ep as <-. destruct (U f o Eo) as (? & ? & Hu). rewrite occ_app in Hu.
      change (listed _ f (set_fusage n o)) with (listed w f o). cbn [f_usage set_fusage]. lia.
    + rewrite lookup_insert_ne in Ep by done. destruct (U g p Ep) as (? & ? & Hu). rewrite occ_app in Hu. change (listed _ g p) with (listed w g p). lia.
  - intros g Hg. destruct (decide (g = f)) as [->|Hng]; [by rewrite lookup_insert_eq|]. rewrite lookup_insert_ne by done. apply R. specialize (Hocc g).
    rewrite decide_False in Hocc by done. rewrite elem_of_app, !occ_elem in Hg |- *.
    pose proof (occ_nonneg g held). pose proof (occ_nonneg g X). pose proof (occ_nonneg g X'). pose proof (occ_nonneg g (io_held w)). lia.
  - intros q g Hg. destruct (L q g Hg) as (p & Ep & Hq). destruct (Hup g p Ep) as (p' & E' & Ec & _). exists p'. by rewrite Ec.
  - exact N.
  - intros fd g Hg. destruct (T fd g Hg) as (Hi & p & Ep & Hp & Hpl). split; [done|]. destruct (Hup g p Ep) as (p' & E' & Ec & Ef & _). exists p'. rewrite Ef.
    split; [done|]. split; [done|]. unfold listed in *. by rewrite Ec.
  - intros g p. destruct (decide (g = f)) as [->|Hng]; [rewrite lookup_insert_eq; intros [= <-]; apply (Ti f o Eo)|rewrite lookup_insert_ne by done; apply Ti].
  - exact C.
  - intros g p. destruct (decide (g = f)) as [->|Hng]; [rewrite lookup_insert_eq; intros [= <-]; apply bufs_usage, (B f o Eo)|rewrite lookup_insert_ne by done; apply B].
  - exact K.
  - intros fd g p Hg. destruct (decide (g = f)) as [->|Hng]; [rewrite lookup_insert_eq; intros [= <-]; by apply (G fd f o)|rewrite lookup_insert_ne by done; by apply G].
  - intros g p. destruct (decide (g = f)) as [->|Hng]; [rewrite lookup_insert_eq; intros [= <-]; by apply (W f o)|rewrite lookup_insert_ne by done; apply W].
  - intros g p Hg Ep. destruct (E1 g p Hg Ep) as (p1 & Ep1 & Hs1). destruct (Hup g p1 Ep1) as (p' & E' & _ & _ & _ & Hs2 & _). exists p'. split; [done|].
    by eapply same_read_trans.
  - exact E2.
Qed.

(** The object of the last reference goes. *)
Lemma J_free X w f o : J (f :: X) w -> io_objs w !! f = Some o -> f_usage o = 1 -> J X (set_objs (delete f (io_objs w)) w).
Proof.
  intros [[U R L N T Ti C B K G W] [E1 E2]] Eo Hn. destruct (U f o Eo) as (_ & _ & Hu). cbn [app] in Hu. rewrite occ_cons, decide_True, occ_app in Hu by done.
  pose proof (occ_nonneg f X). pose proof (occ_nonneg f F0). pose proof (occ_nonneg f (io_held w)).
  assert (listed w f o = false) as Hl by (destruct (listed w f o); cbn in Hu; lia || done). rewrite Hl in Hu. cbn in Hu.
  assert (f ∉ F0) as HF by (rewrite occ_elem; lia). assert (forall q, f ∉ q_list w q) as Hnl.
  { intros q Hq. destruct (L q f Hq) as (p & Ep & <-). rewrite Eo in Ep. injection Ep as <-. unfold listed in Hl. by apply bool_decide_eq_false in Hl. }
  split; [split|split]; cbn [io_objs attached_fds io_held io_log io_lists io_counts set_objs].
  - intros g p [Hng Ep]%lookup_delete_Some. destruct (U g p Ep) as (? & ? & Hu'). cbn [app] in Hu'. rewrite occ_cons, decide_False in Hu' by done. done.
  - intros g Hg. assert (g <> f). { intros ->. rewrite elem_of_app, !occ_elem in Hg. lia. } rewrite lookup_delete_ne by done. apply R. set_solver.
  - intros q g Hg. destruct (L q g Hg) as (p & Ep & Hq). exists p. rewrite lookup_delete_ne; [done|]. intros <-. by apply (Hnl q).
  - exact N.
  - intros fd g Hg. destruct (T fd g Hg) as (Hi & p & Ep & Hp & Hpl). split; [done|]. exists p. rewrite lookup_delete_ne; [done|].
    intros <-. rewrite Eo in Ep. injection Ep as <-. congruence.
  - intros g p [_ Ep]%lookup_delete_Some. by apply Ti.
  - exact C.
  - intros g p [_ Ep]%lookup_delete_Some. by eapply B.
  - exact K.
  - intros fd g p Hg [_ Ep]%lookup_delete_Some. by eapply G.
  - intros g p [_ Ep]%lookup_delete_Some. by eapply W.
  - intros g p Hg Ep. destruct (E1 g p Hg Ep) as (p1 & Ep1 & Hs1). exists p1. rewrite lookup_delete_ne; [done|]. intros <-. done.
  - exact E2.
Qed.

(** ** Reading and writing the world *)

Lemma modw_wp f w Q : Q tt (f w) -> wp (modw f) w Q.
Proof. done. Qed.
Lemma ask_wp {A} (g : ioworld -> A) w Q : Q (g w) (io_next w) -> wp (ask g) w Q.
Proof. done. Qed.
Lemma get_f_wp w f o Q : io_objs w !! f = Some o -> Q o w -> wp (get_f f) w Q.
Proof. intros E HQ. unfold wp, get_f. run. by rewrite E. Qed.
Lemma mod_f_wp w f g o Q : io_objs w !! f = Some o -> Q tt (set_objs (<[f := g o]> (io_objs w)) w) -> wp (mod_f f g) w Q.
Proof. intros E HQ. unfold mod_f. apply wp_bind. eapply get_f_wp; [done|]. by apply modw_wp. Qed.

Lemma __fget_wp X w f o : J X w -> io_objs w !! f = Some o ->
  wp (__fget f) w (fun _ w' => w' = set_objs (<[f := set_fusage (f_usage o + 1) o]> (io_objs w)) w /\ J (f :: X) w').
Proof.
  intros HJ E. unfold __fget. apply wp_bind. eapply get_f_wp; [done|]. eapply mod_f_wp; [done|]. split; [done|].
  destruct (oi_usage _ _ (proj1 HJ) f o E) as (_ & Hu & _). apply (J_usage X (f :: X) w f o (f_usage o + 1) (io_held w) HJ E); [lia|].
  intros g. rewrite occ_cons. destruct (decide (g = f)); lia.
Qed.

Lemma fget_wp X w fd : J X w -> wp (fget fd) w (fun f w' => (f = 0 /\ J X w' /\ (attached_fds w !! fd = None \/ fd = AOSL_INVALID_FD)) \/
  (0 < f /\ J (f :: X) w' /\ attached_fds w !! fd = Some f)).
Proof.
  intros HJ. unfold fget, aosl_fd_invalid. destruct (Z.eqb_spec fd AOSL_INVALID_FD) as [|Hfd]; [apply wp_ret; left; tauto|].
  apply wp_bind, wp_get. destruct (attached_fds w !! fd) as [f|] eqn:E; [|apply wp_ret; left; tauto].
  destruct (oi_table _ _ (proj1 HJ) fd f E) as (_ & o & Eo & _). apply wp_bind. eapply wp_mono; [by eapply __fget_wp|]. cbn beta. intros _ w' (-> & HJ').
  apply wp_ret. right. split; [|done]. apply (oi_usage _ _ (proj1 HJ) f o Eo).
Qed.

Lemma fput_wp X w f : J (f :: X) w -> wp (fput f) w (fun _ w' => J X w' /\ attached_fds w' = attached_fds w).
Proof.
  intros HJ. destruct (J_known _ _ f HJ) as [o Eo]; [left; left|]. unfold fput. apply wp_bind. eapply get_f_wp; [done|].
  destruct (Z.eqb_spec (f_usage o - 1) 0) as [Hz|Hnz].
  - apply modw_wp. split; [|done]. eapply J_free; [done|done|lia].
  - eapply mod_f_wp; [done|]. split; [|done]. destruct (oi_usage _ _ (proj1 HJ) f o Eo) as (_ & Hu & _).
    apply (J_usage (f :: X) X w f o (f_usage o - 1) (io_held w) HJ Eo); [lia|]. intros g. rewrite occ_cons. destruct (decide (g = f)); lia.
Qed.

(** The table gets smaller. *)
Lemma J_table X w m : J X w -> m ⊆ attached_fds w -> J X (set_table m w).
Proof.
  intros [[U R L N T Ti C B K G W] [E1 E2]] Hm. split; [split|split]; try done; cbn [attached_fds set_table].
  - intros fd f Hf. apply (T fd f). by eapply lookup_weaken.
  - intros fd f o Hf. apply (G fd f o). by eapply lookup_weaken.
Qed.

Lemma remove_fd_wp X w f o : J X w -> io_objs w !! f = Some o ->
  wp (remove_fd f) w (fun err w' => w' = set_table (delete (f_fd o) (attached_fds w)) w /\ J X w' /\
    (forall fd, attached_fds w' !! fd <> Some f) /\ ((err = 0 /\ listed w f o = true) \/ err = - AOSL_ENONET)).
Proof.
  intros HJ E. unfold remove_fd. apply wp_bind. eapply get_f_wp; [done|]. apply wp_bind, wp_get, wp_bind, modw_wp, wp_ret. split; [done|].
  split; [apply J_table; [done|apply delete_subseteq]|]. split.
  - cbn. intros fd Hfd. apply lookup_delete_Some in Hfd as [Hne Hfd]. destruct (oi_table _ _ (proj1 HJ) _ _ Hfd) as (_ & o2 & E2 & Hf2 & _). rewrite E in E2. injection E2 as <-. done.
  - destruct (decide _) as [Hin|]; [left|by right]. split; [done|]. destruct (oi_table _ _ (proj1 HJ) _ _ Hin) as (_ & o1 & E1 & _ & Hl). rewrite E in E1. by injection E1 as <-.
Qed.

(** An object leaves the list of its queue: what was the reference of the list is
    one of the code. *)
Lemma J_unlist X w f o : J X w -> io_objs w !! f = Some o -> listed w f o = true -> f_timer o = AOSL_MPQ_TIMER_INVALID -> (forall fd, attached_fds w !! fd <> Some f) ->
  J (f :: X) (set_list (c_q (f_conf o)) (drop_one f (q_list w (c_q (f_conf o)))) (q_iofds w (c_q (f_conf o)) - 1) w).
Proof.
  intros [[U R L N T Ti C B K G W] [E1 E2]] Eo Hl Ht Hno. set (q := c_q (f_conf o)) in *. set (w' := set_list _ _ _ w).
  assert (forall q', q_list w' q' = if decide (q' = q) then drop_one f (q_list w q) else q_list w q') as Hq.
  { intros q'. unfold q_list, w'. cbn. destruct (decide (q' = q)) as [->|]; [by rewrite lookup_insert_eq|by rewrite lookup_insert_ne]. }
  assert (f ∈ q_list w q) as Hf by (unfold listed in Hl; by apply bool_decide_eq_true in Hl).
  pose proof (N q) as Nq. rewrite (drop_one_perm f (q_list w q) Hf), NoDup_cons in Nq. destruct Nq as [Nf Nq].
  assert (forall q' g, g ∈ q_list w' q' <-> g ∈ q_list w q' /\ g <> f) as Hin.
  { intros q' g. rewrite Hq. destruct (decide (q' = q)) as [->|Hne].
    - rewrite (drop_one_perm f (q_list w q)) at 2 by done. rewrite elem_of_cons. split; [|tauto]. intros Hg. split; [by right|].
      intros Hgf. subst g. done.
    - split; [|tauto]. intros Hg. split; [done|]. intros Hgf. subst g. destruct (L q' f Hg) as (p & Ep & Hp). rewrite Eo in Ep. injection Ep as <-. done. }
  assert (forall g p, io_objs w !! g = Some p -> listed w' g p = if decide (g = f) then false else listed w g p) as Hls.
  { intros g p Ep. unfold listed. destruct (decide (g = f)) as [->|Hng].
    - apply bool_decide_eq_false. rewrite Hin. tauto.
    - apply bool_decide_ext. rewrite Hin. tauto. }
  split; [split|split]; change (io_objs w') with (io_objs w); change (attached_fds w') with (attached_fds w); change (io_held w') with (io_held w).
  - intros g p Ep. destruct (U g p Ep) as (? & ? & Hu). cbn [app]. rewrite occ_cons, (Hls g p Ep). destruct (decide (g = f)) as [->|]; [|done].
    rewrite Eo in Ep. injection Ep as <-. rewrite Hl in Hu. cbn in Hu |- *. lia.
  - intros g Hg. cbn [app] in Hg. rewrite elem_of_cons in Hg. destruct Hg as [Hg|[->|Hg]]; [apply R; tauto|by exists o|apply R; tauto].
  - intros q' g Hg. apply Hin in Hg as [Hg _]. by apply L.
  - intros q'. rewrite Hq. by destruct (decide _).
  - intros fd g Hg. destruct (T fd g Hg) as (? & p & Ep & Hp & Hpl). split; [done|]. exists p. rewrite (Hls g p Ep), decide_False; [done|]. intros ->. by apply (Hno fd).
  - intros g p Ep Hp. rewrite (Hls g p Ep). destruct (decide (g = f)) as [->|]; [rewrite Eo in Ep; injection Ep as <-; done|by apply (Ti g p)].
  - intros q'. rewrite Hq. unfold q_iofds, w'. cbn. destruct (decide (q' = q)) as [->|Hne]; [rewrite lookup_insert_eq; cbn|rewrite lookup_insert_ne by done; apply C].
    rewrite C, (drop_one_perm f (q_list w q) Hf) at 1. cbn [length]. lia.
  - exact B.
  - exact K.
  - exact G.
  - exact W.
  - exact E1.
  - exact E2.
Qed.

End Keep.
