(* ===== verification/IofdKeep.v ===== *)
(** * Watched descriptors: every operation keeps the references right *)
From S2P Require Import Prelude Refs Iofd IofdInv.
#[local] Open Scope aosl_scope.

(** The flag of an end of the stream and the other flags. *)
Lemma has_flag_bit x n : 0 <= n -> has_flag x (2 ^ n) = Z.testbit x n.
Proof.
  intros Hn. unfold has_flag. rewrite Z.land_comm. destruct (Z.testbit x n) eqn:E.
  - apply negb_true_iff, Z.eqb_neq. intros Hz. assert (Z.testbit (Z.land (2 ^ n) x) n = false) as Hb by (rewrite Hz; apply Z.bits_0).
    rewrite Z.land_spec, Z.pow2_bits_true, E in Hb by done. done.
  - apply negb_false_iff, Z.eqb_eq, Z.bits_inj. intros k. rewrite Z.bits_0, Z.land_spec. destruct (decide (k = n)) as [->|Hk]; [by rewrite E, andb_false_r|].
    by rewrite Z.pow2_bits_false.
Qed.
Lemma zero_lor x m : Z.testbit m 10 = false -> has_flag (Z.lor x m) IOFD_READ_RETURN_0 = has_flag x IOFD_READ_RETURN_0.
Proof. intros Hm. change IOFD_READ_RETURN_0 with (2 ^ 10). rewrite !has_flag_bit, Z.lor_spec, Hm by lia. apply orb_false_r. Qed.
Lemma zero_armed o : has_flag (armed_flags o) IOFD_READ_RETURN_0 = has_flag (f_flags o) IOFD_READ_RETURN_0.
Proof. unfold armed_flags. rewrite !zero_lor; [done|by destruct (c_read _)|by destruct (c_write _)]. Qed.
Lemma flag_lor x m n : 0 <= n -> has_flag x (2 ^ n) = true -> has_flag (Z.lor x m) (2 ^ n) = true.
Proof. intros Hn. rewrite !has_flag_bit, Z.lor_spec by lia. by intros ->. Qed.
Lemma flag_ldiff x m n : 0 <= n -> Z.testbit m n = false -> has_flag (Z.ldiff x m) (2 ^ n) = has_flag x (2 ^ n).
Proof. intros Hn Hm. rewrite !has_flag_bit, Z.ldiff_spec, Hm by lia. apply andb_true_r. Qed.
(** Which changes of the flags keep what is waited for. *)
Lemma arms_lor `{IoEnv} m o : Z.testbit m 8 = false -> arms o (set_fflags (Z.lor (f_flags o) m) o).
Proof.
  intros Hm. split; [|split; [|done]]; intros [?|[?|[?|[? Hr]]]].
  - by left.
  - right; by left.
  - do 2 right. left. by apply (flag_lor _ _ 0).
  - do 3 right. split; [done|]. by apply (flag_lor _ _ 10).
  - by left.
  - right; by left.
  - do 2 right. left. by apply (flag_lor _ _ 1).
  - do 3 right. split; [done|]. change IOFD_NOT_READY with (2 ^ 8) in *. cbn [f_flags set_fflags]. rewrite has_flag_bit in * by lia. by rewrite Z.lor_spec, Hr, Hm.
Qed.
Lemma arms_ldiff `{IoEnv} m o : Z.testbit m 0 = false -> Z.testbit m 1 = false -> c_chk (f_conf o) = false \/ Z.testbit m 10 = false -> arms o (set_fflags (Z.ldiff (f_flags o) m) o).
Proof.
  intros H0 H1 H10. split; [|split; [|done]]; intros [?|[?|[Hf|[Hc Hr]]]].
  - by left.
  - right; by left.
  - do 2 right. left. cbn. by rewrite (flag_ldiff _ _ 0).
  - destruct H10 as [?|H10]; [congruence|]. do 3 right. split; [done|]. cbn. by rewrite (flag_ldiff _ _ 10).
  - by left.
  - right; by left.
  - do 2 right. left. cbn. by rewrite (flag_ldiff _ _ 1).
  - do 3 right. split; [done|]. change IOFD_NOT_READY with (2 ^ 8) in *. cbn [f_flags set_fflags]. rewrite has_flag_bit in * by lia. by rewrite Z.ldiff_spec, Hr.
Qed.
(** Something is added to what is to be written of a descriptor that waits to write. *)
Definition busy (o : iofd) : Prop := f_wq o <> [] \/ has_flag (f_flags o) IOFD_NOT_READY = true \/ has_flag (f_flags o) AOSL_POLLOUT = true.
Lemma arms_queue `{IoEnv} b o : (level = true -> busy o) -> (level = true -> c_write (f_conf o) = true) -> arms o (w_queue_add b o).
Proof.
  intros Hb Hw. split; [done|]. split; [|intros Hfu Hl; split; [by apply Hfu|left; by apply Hw]]. intros [?|[?|[?|[? ?]]]]; [by left|right; by left|do 2 right; by left|].
  unfold level in Hb. destruct env_backend eqn:Eb; [by left|..]; (destruct (Hb eq_refl) as [?|[?|?]]; [done|congruence|do 2 right; by left]).
Qed.
Lemma armed_loud `{IoEnv} o : loud (set_fflags (armed_flags o) o) /\ awake (set_fflags (armed_flags o) o).
Proof.
  unfold loud, awake, armed_flags. cbn [f_flags f_conf set_fflags f_wq]. change AOSL_POLLIN with (2 ^ 0). change AOSL_POLLOUT with (2 ^ 1). rewrite !has_flag_bit, !Z.lor_spec by lia. split.
  - destruct (c_read (f_conf o)); [do 2 right; left|by right; left]. cbn. by rewrite orb_true_r.
  - destruct (c_write (f_conf o)); [do 2 right; left|by right; left]. cbn. by rewrite orb_true_r.
Qed.
Lemma zero_ldiff x m : Z.testbit m 10 = false -> has_flag (Z.ldiff x m) IOFD_READ_RETURN_0 = has_flag x IOFD_READ_RETURN_0.
Proof. intros Hm. change IOFD_READ_RETURN_0 with (2 ^ 10). rewrite !has_flag_bit, Z.ldiff_spec, Hm by lia. apply andb_true_r. Qed.

Section Keep.
Context `{IoEnv, Unheard} (F0 : list Z) (w0 : ioworld).
Abbreviation J := (IofdInv.J F0 w0).
Lemma bufs_ext o o' : same_read o o' -> f_wq o' = f_wq o -> f_wlen o' = f_wlen o -> bufs_ok o -> bufs_ok o'.
Proof. intros (S1 & S2 & S3 & S4 & S5 & S6) W1 W2 [? ? ? ? ?]. split; rewrite ?S1, ?S2, ?S3, ?S4, ?W1, ?W2; done. Qed.
Lemma J_bufs X w f o : J X w -> io_objs w !! f = Some o -> bufs_ok o.
Proof. intros [I _]. apply (oi_bufs _ _ I). Qed.
(** A change of the descriptor's flags, timer, life or number. *)
Lemma J_field X w f o o' : J X w -> io_objs w !! f = Some o -> f_usage o' = f_usage o -> same_read o o' -> f_wq o' = f_wq o -> f_wlen o' = f_wlen o -> f_flags o' = f_flags o ->
  f_fd o' = f_fd o \/ (forall fd, attached_fds w !! fd <> Some f) ->
  f_timer o' = f_timer o \/ f_timer o' = AOSL_MPQ_TIMER_INVALID \/ listed w f o = true ->
  J X (set_objs (<[f := o']> (io_objs w)) w).
Proof. intros HJ E Hu Hs W1 W2 W3 Hf Ht. eapply J_upd; try done; [apply Hs|by eapply bufs_ext, J_bufs|apply arms_same; [apply Hs|done..]]. Qed.

Lemma hal_err_wp X w e : J X w -> wp (aosl_hal_set_error e) w (fun _ w' => J X w' /\ attached_fds w' = attached_fds w).
Proof. intros HJ. unfold aosl_hal_set_error. destruct (e <? 0); [|by apply wp_ret]. apply wp_bind, modw_wp, wp_ret. split; [by apply J_err|done]. Qed.
Lemma ret_err_wp X w e : J X w -> wp (return_err e) w (fun _ w' => J X w').
Proof. intros HJ. unfold return_err. destruct (IS_ERR e); [|by apply wp_ret]. apply wp_bind, modw_wp, wp_ret. by apply J_err. Qed.

(** ** Removing and closing *)

Lemma del_wp X w q f o : J X w -> io_objs w !! f = Some o ->
  wp (__q_del_f q f) w (fun err w' => J X w' /\ (0 <= err \/ c_q (f_conf o) = q -> forall fd, attached_fds w' !! fd <> Some f)).
Proof.
  intros HJ E. unfold __q_del_f. apply wp_bind. eapply get_f_wp; [done|]. destruct (Z.eqb_spec (c_q (f_conf o)) q) as [Hq|Hq]; cbn [negb].
  2: { apply wp_ret. split; [done|]. intros [He|?]; [|done]. unfold AOSL_EPERM, AOSL_EBASE in He. lia. }
  subst q. apply wp_bind. eapply mod_f_wp; [done|]. apply wp_bind, ask_wp, wp_bind.
  assert (J X (io_next (set_objs (<[f := set_ftimer AOSL_MPQ_TIMER_INVALID o]> (io_objs w)) w))) as J1.
  { apply J_next. eapply J_field; try done; [by left|right; by left]. }
  eapply wp_mono; [eapply remove_fd_wp; [exact J1|cbn; by rewrite lookup_insert_eq]|]. cbn beta. intros err w2 (Ew2 & J2 & Hno & [(-> & Hl)| ->]).
  2: { by apply wp_ret. }
  cbn [Z.ltb Z.compare]. apply wp_bind, modw_wp, wp_bind.
  assert (io_objs w2 !! f = Some (set_ftimer AOSL_MPQ_TIMER_INVALID o)) as E2 by (rewrite Ew2; cbn; by rewrite lookup_insert_eq).
  assert (J (f :: X) (set_list (c_q (f_conf o)) (drop_one f (q_list w2 (c_q (f_conf o)))) (q_iofds w2 (c_q (f_conf o)) - 1) w2)) as J3.
  { apply (J_unlist F0 w0 X w2 f (set_ftimer AOSL_MPQ_TIMER_INVALID o)); try done. rewrite Ew2. exact Hl. }
  eapply wp_mono; [eapply fput_wp; exact J3|]. cbn beta. intros _ w3 (J4 & Ea). apply wp_ret. split; [done|]. intros _ fd. rewrite Ea. apply Hno.
Qed.

Lemma hclose_wp X w fd : J X w -> wp (____close fd) w (fun _ w' => J X w' /\ attached_fds w' = attached_fds w).
Proof.
  intros HJ. unfold ____close. apply wp_bind, ask_wp, wp_bind, modw_wp. assert (J X (io_note (EvClose fd) (io_next w))) as J1 by (by apply J_note, J_next).
  destruct (_ <? 0); [eapply hal_err_wp in J1; exact J1|apply wp_ret; done].
Qed.

Lemma closef_gone X w q f o : J X w -> io_objs w !! f = Some o ->
  wp (__this_q_close_f q f) w (fun _ w' => J X w' /\ (c_q (f_conf o) = q -> forall fd, attached_fds w' !! fd <> Some f)).
Proof.
  intros HJ E. unfold __this_q_close_f. apply wp_bind. eapply get_f_wp; [done|]. apply wp_bind. eapply wp_mono; [by eapply __fget_wp|].
  cbn beta. intros _ w1 (Ew1 & J1). apply wp_bind. eapply wp_mono; [eapply del_wp; [exact J1|rewrite Ew1; cbn; by rewrite lookup_insert_eq]|].
  cbn beta. intros err w2 (J2 & Hno). destruct (Z.ltb_spec err 0).
  { apply wp_bind. eapply wp_mono; [eapply fput_wp; exact J2|]. intros _ w3 (J3 & Ea). apply wp_ret. split; [done|]. intros Hq. rewrite Ea. apply Hno. by right. }
  apply wp_bind. match goal with |- wp (if _ then ?m1 else ?m2) _ ?Q => assert (forall w', J (f :: X) w' /\ attached_fds w' = attached_fds w2 -> forall a, Q a w') as HQ end.
  - intros w3 (J3 & Ea) a. destruct (J_known _ _ _ _ f J3) as [o3 E3]; [left; left|]. apply wp_bind. eapply mod_f_wp; [done|]. apply wp_bind.
    eapply wp_mono; [eapply fput_wp, (J_field (f :: X) w3 f o3 (set_ffd AOSL_INVALID_FD o3)); try done; [right; rewrite Ea; apply Hno; left; lia|by left]|].
    intros _ w4 (J4 & Ea4). apply wp_ret. split; [done|]. intros _. rewrite Ea4. cbn. rewrite Ea. apply Hno. left. lia.
  - destruct (c_putfd _).
    + apply wp_bind, modw_wp, ask_wp. apply HQ. split; [|done]. by apply J_next, J_note.
    + eapply wp_mono; [eapply hclose_wp; exact J2|]. intros a w3 Hw3. by apply HQ.
Qed.

Lemma closef_wp X w q f o : J X w -> io_objs w !! f = Some o -> wp (__this_q_close_f q f) w (fun _ w' => J X w').
Proof. intros HJ E. eapply wp_mono; [by eapply closef_gone|]. by intros ? ? [? _]. Qed.

Lemma on_q_wp X w this_q q g : J X w -> (forall w1, J X w1 -> io_objs w1 = io_objs w -> wp g w1 (fun _ w' => J X w')) -> wp (on_q this_q q g) w (fun _ w' => J X w').
Proof.
  intros HJ Hg. unfold on_q. destruct (_ =? _); [by apply Hg|]. apply wp_bind, ask_wp. pose proof (J_next _ _ _ _ HJ) as J1. destruct (env_iocall _ _).
  - by apply Hg.
  - apply wp_bind, modw_wp, wp_ret. by apply J_err.
  - by apply wp_ret.
Qed.

(** Look an object up, let its queue do something with it, and let it go. *)
Lemma wp_conj {S A} (c : CM S A) s (P Q : A -> S -> Prop) : wp c s P -> wp c s Q -> wp c s (fun a s' => P a s' /\ Q a s').
Proof. unfold wp. destruct (c s) as [[a s']| | |]; done. Qed.
Lemma fget_same F w fd : ioinv F w -> wp (fget fd) w (fun f w' => forall o', 0 < f -> io_objs w' !! f = Some o' ->
  exists o, attached_fds w !! fd = Some f /\ io_objs w !! f = Some o /\ f_conf o' = f_conf o).
Proof.
  intros I. unfold fget. destruct (aosl_fd_invalid fd); [apply wp_ret; lia|]. apply wp_bind, wp_get. destruct (attached_fds w !! fd) as [f|] eqn:E; [|apply wp_ret; lia].
  destruct (oi_table _ _ I fd f E) as (_ & o & Eo & _). apply wp_bind. unfold __fget. apply wp_bind. eapply get_f_wp; [done|]. eapply mod_f_wp; [done|]. apply wp_ret. cbn.
  rewrite lookup_insert_eq. intros o' _ [= <-]. by exists o.
Qed.
Lemma with_fd_wp X w fd no this_q g : J X w -> (forall w, J X w -> wp no w (fun _ w' => J X w')) ->
  (forall q f o w1 o0, J (f :: X) w1 -> io_objs w1 !! f = Some o -> attached_fds w !! fd = Some f -> io_objs w !! f = Some o0 -> f_conf o = f_conf o0 ->
     wp (g q f) w1 (fun _ w' => J (f :: X) w')) ->
  wp (do f <- fget fd; if f =? 0 then no else
      do o <- get_f f; do err <- on_q this_q (c_q (f_conf o)) (g (c_q (f_conf o)) f); fput f ;; cret err) w (fun _ w' => J X w').
Proof.
  intros HJ Hno Hg. apply wp_bind. eapply wp_mono; [apply wp_conj; [by eapply fget_wp|eapply fget_same, HJ]|]. cbn beta. intros f w1 [[(-> & J1 & _)|(Hf & J1 & _)] Hsame]; [by apply Hno|].
  destruct (Z.eqb_spec f 0); [lia|]. destruct (J_known _ _ _ _ f J1) as [o Eo]; [left; left|]. apply wp_bind. eapply get_f_wp; [done|]. apply wp_bind.
  destruct (Hsame o Hf Eo) as (o0 & Et & E0 & Ec).
  assert (forall w2, J (f :: X) w2 -> io_objs w2 = io_objs w1 -> wp (g (c_q (f_conf o)) f) w2 (fun _ w' => J (f :: X) w')) as Hg'.
  { intros w2 J2 Eq. eapply Hg; [done|by rewrite Eq|done..]. }
  eapply wp_mono; [eapply on_q_wp; [exact J1|exact Hg']|]. cbn beta. intros err w2 J2. apply wp_bind. eapply wp_mono; [by eapply fput_wp|].
  intros _ w3 (J3 & _). by apply wp_ret.
Qed.

(** Then the result is returned. *)
Lemma ret_wp X w m : wp m w (fun _ w' => J X w') -> wp (do err <- m; return_err err) w (fun _ w' => J X w').
Proof. intros Hm. apply wp_bind. eapply wp_mono; [exact Hm|]. cbn beta. intros err w' J'. by apply ret_err_wp. Qed.

Lemma close_wp X w this_q fd : J X w -> wp (aosl_close this_q fd) w (fun _ w' => J X w').
Proof.
  intros HJ. unfold aosl_close, __iofd_close. apply ret_wp, (with_fd_wp X w fd (____close fd) this_q __this_q_close_f HJ).
  - intros w1 J1. eapply wp_mono; [by eapply hclose_wp|]. by intros ? ? [? _].
  - intros q f o w1 o0 J1 E _ _ _. by eapply closef_wp.
Qed.
Lemma del_fd_wp X w this_q fd : J X w -> wp (aosl_mpq_del_fd this_q fd) w (fun _ w' => J X w').
Proof.
  intros HJ. unfold aosl_mpq_del_fd, __iofd_del. apply ret_wp, (with_fd_wp X w fd (cret (- AOSL_EBADF)) this_q __q_del_f HJ).
  - intros w1 J1. by apply wp_ret.
  - intros q f o w1 o0 J1 E _ _ _. eapply wp_mono; [by eapply del_wp|]. by intros ? ? [? _].
Qed.

(** ** Writing *)

Lemma wsum_app l1 l2 : wsum (l1 ++ l2) = wsum l1 + wsum l2.
Proof. induction l1 as [|b l1 IH]; cbn; lia. Qed.

Lemma queue_it_wp X w f o extra bs len : J X w -> io_objs w !! f = Some o -> f_wlen o + Z.of_nat (length bs) <= FD_MAX_WBUF_SIZE -> (level = true -> busy o) -> (level = true -> c_write (f_conf o) = true) ->
  wp (queue_it f extra bs len) w (fun _ w' => J X w').
Proof.
  intros HJ E Hl Hbusy Hcw. unfold queue_it. apply wp_bind, ask_wp. pose proof (J_next _ _ _ _ HJ) as J1. destruct (env_wmalloc w); cbn [negb]; [|by apply wp_ret].
  apply wp_bind. eapply mod_f_wp; [done|]. apply wp_ret. eapply J_upd; try done; [intros _; repeat (split; [done|]); by apply prefix_app_r| |by apply arms_queue|by left..].
  destruct (J_bufs _ _ _ _ HJ E) as [B1 B2 B3 [B4 B5] B6]. split; try done; cbn.
  - rewrite wsum_app. cbn. lia.
  - apply Forall_app. split; [done|]. repeat constructor. cbn. lia.
Qed.

Lemma write_wp X w f o bs : J X w -> io_objs w !! f = Some o -> (level = true -> c_write (f_conf o) = true) -> wp (____write f bs) w (fun _ w' => J X w').
Proof.
  intros HJ E Hcw. unfold ____write. destruct (_ <? _); [by apply wp_ret|]. apply wp_bind. eapply get_f_wp; [done|].
  destruct (Z.ltb_spec (w_queue_space o) (Z.of_nat (length bs))) as [|Hsp]; [by apply wp_ret|].
  assert (f_wlen o + Z.of_nat (length bs) <= FD_MAX_WBUF_SIZE) as Hlen.
  { destruct (bo_wlen _ (J_bufs _ _ _ _ HJ E)) as [_ Hw]. unfold w_queue_space in Hsp. destruct (Z.ltb_spec (f_wlen o) FD_MAX_WBUF_SIZE); lia. }
  destruct (_ || _) eqn:Hq.
  { eapply queue_it_wp; try done. intros _. apply orb_true_iff in Hq as [Hq|Hq]; [left|by right; left]. by apply negb_true_iff, bool_decide_eq_false in Hq. }
  apply wp_bind, ask_wp, wp_bind, modw_wp, wp_bind. eapply mod_f_wp; [done|].
  set (w1 := io_note _ _). assert (J X w1) as J1 by (by apply J_note, J_next).
  assert (J X (set_objs (<[f := set_fflags (Z.lor (f_flags o) AOSL_POLLOUT) o]> (io_objs w1)) w1)) as J2.
  { eapply J_upd; try done; [|destruct (J_bufs _ _ _ _ HJ E); by split|by apply arms_lor|by left..]. intros _. repeat (split; [done|]). split; [by apply zero_lor|done]. }
  destruct (_ <=? 0); [eapply wp_mono; [by eapply hal_err_wp|]; by intros ? ? [? _]|]. destruct (_ <? _); [|by apply wp_ret].
  eapply queue_it_wp; [exact J2|cbn; by rewrite lookup_insert_eq|cbn; rewrite length_drop; lia| |done]. intros _. right; right. cbn. change AOSL_POLLOUT with (2 ^ 1). rewrite has_flag_bit, Z.lor_spec by lia. apply orb_true_r.
Qed.
Lemma aosl_write_wp X w this_q fd bs : J X w -> writable w (attached_fds w !! fd) = true -> wp (aosl_write this_q fd bs) w (fun _ w' => J X w').
Proof.
  intros HJ Hcw. unfold aosl_write. assert (wp (do f <- fget fd; if f =? 0 then cret (- AOSL_EINVAL) else
    do o <- get_f f; do err <- on_q this_q (c_q (f_conf o)) (____write f bs); fput f ;; cret err) w (fun _ w' => J X w')) as Hw.
  { apply (with_fd_wp X w fd (cret (- AOSL_EINVAL)) this_q (fun _ f => ____write f bs) HJ); [intros; by apply wp_ret|].
    intros q f o w1 o0 J1 E Et E0 Ec. eapply write_wp; [done|done|]. unfold writable in Hcw. rewrite Et, E0, <-Ec in Hcw. intros Hl. by rewrite Hl in Hcw. }
  apply wp_unbind in Hw. apply wp_bind. eapply wp_mono; [exact Hw|]. cbn beta. intros f w1 Hf. apply wp_bind. eapply wp_mono; [exact Hf|].
  cbn beta. intros err w2 J2. by apply ret_err_wp.
Qed.

(** ** Adding *)

Lemma J_new X w f o : J X w -> io_objs w !! f = None -> 0 < f -> bufs_ok o -> f_usage o = 1 -> f_timer o = AOSL_MPQ_TIMER_INVALID -> full o ->
  J (f :: X) (set_objs (<[f := o]> (io_objs w)) w) /\ (forall q, f ∉ q_list w q) /\ (forall fd, attached_fds w !! fd <> Some f).
Proof.
  intros [[U R L N T Ti C B K G W] [E1 E2]] Ef Hf Hb Hu Ht Hfull.
  assert (forall q, f ∉ q_list w q) as Hl by (intros q Hq; destruct (L q f Hq) as (p & Ep & _); congruence).
  assert (forall fd, attached_fds w !! fd <> Some f) as Hno by (intros fd Hfd; destruct (T fd f Hfd) as (_ & p & Ep & _); congruence).
  assert ((f ∉ io_held w) /\ (f ∉ X ++ F0)) as [Hh HF] by (split; intros Hin; destruct (R f ltac:(tauto)) as [p Ep]; congruence).
  split; [|done]. split; [split|split]; cbn [io_objs attached_fds io_held io_log io_lists io_counts set_objs app].
  - intros g p. destruct (decide (g = f)) as [->|Hn].
    + rewrite lookup_insert_eq. intros [= <-]. rewrite occ_cons, decide_True, !occ_zero by done. split; [done|]. split; [lia|].
      replace (listed _ f o) with false; [cbn; lia|]. symmetry. unfold listed. apply bool_decide_eq_false. apply Hl.
    + rewrite lookup_insert_ne by done. rewrite occ_cons, decide_False by done. apply U.
  - intros g Hg. destruct (decide (g = f)) as [->|Hn]; [by rewrite lookup_insert_eq|]. rewrite lookup_insert_ne by done. apply R. set_solver.
  - intros q g Hg. destruct (L q g Hg) as (p & Ep & Hq). exists p. rewrite lookup_insert_ne; [done|]. intros <-. by apply (Hl q).
  - exact N.
  - intros fd g Hg. destruct (T fd g Hg) as (? & p & Ep & Hp). split; [done|]. exists p. rewrite lookup_insert_ne; [done|]. intros <-. by apply (Hno fd).
  - intros g p. destruct (decide (g = f)) as [->|Hn]; [rewrite lookup_insert_eq; intros [= <-]; done|rewrite lookup_insert_ne by done; apply Ti].
  - exact C.
  - intros g p. destruct (decide (g = f)) as [->|Hn]; [rewrite lookup_insert_eq; by intros [= <-]|rewrite lookup_insert_ne by done; apply B].
  - exact K.
  - intros fd g p Hg. assert (g <> f) by (intros ->; by apply (Hno fd)). rewrite lookup_insert_ne by done. by apply G.
  - intros g p. destruct (decide (g = f)) as [->|Hn]; [rewrite lookup_insert_eq; by intros [= <-]|rewrite lookup_insert_ne by done; apply W].
  - intros g p Hg Ep. destruct (E1 g p Hg Ep) as (p1 & Ep1 & Hs). exists p1. rewrite lookup_insert_ne; [done|]. intros <-. set_solver.
  - exact E2.
Qed.

(** The object goes into the table and the list of its queue, which then has the
    reference. *)
Lemma J_list X w f o : J (f :: X) w -> io_objs w !! f = Some o -> (forall q, f ∉ q_list w q) -> attached_fds w !! f_fd o = None -> f_fd o <> AOSL_INVALID_FD -> loud o /\ awake o ->
  J X (set_list (c_q (f_conf o)) (q_list w (c_q (f_conf o)) ++ [f]) (q_iofds w (c_q (f_conf o)) + 1) (set_table (<[f_fd o := f]> (attached_fds w)) w)).
Proof.
  intros [[U R L N T Ti C B K G W] [E1 E2]] Eo Hl Hfd Hi Hlo. set (q := c_q (f_conf o)). set (w' := set_list _ _ _ _).
  assert (forall q', q_list w' q' = if decide (q' = q) then q_list w q ++ [f] else q_list w q') as Hq.
  { intros q'. unfold q_list, w'. cbn. destruct (decide (q' = q)) as [->|]; [by rewrite lookup_insert_eq|by rewrite lookup_insert_ne]. }
  assert (forall g p, io_objs w !! g = Some p -> listed w' g p = if decide (g = f) then true else listed w g p) as Hls.
  { intros g p Ep. unfold listed. rewrite Hq. destruct (decide (g = f)) as [->|Hng].
    - rewrite Eo in Ep. injection Ep as <-. apply bool_decide_eq_true. fold q. rewrite decide_True by done. set_solver.
    - apply bool_decide_ext. destruct (decide (c_q (f_conf p) = q)) as [->|]; [|done]. set_solver. }
  assert (listed w f o = false) as Hlf by (apply bool_decide_eq_false, Hl).
  split; [split|split]; change (io_objs w') with (io_objs w); change (io_held w') with (io_held w).
  - intros g p Ep. destruct (U g p Ep) as (? & ? & Hu). cbn [app] in Hu. rewrite occ_cons in Hu. rewrite (Hls g p Ep). destruct (decide (g = f)) as [->|]; [|done].
    rewrite Eo in Ep. injection Ep as <-. rewrite Hlf in Hu. cbn in Hu |- *. lia.
  - intros g Hg. apply R. set_solver.
  - intros q' g. rewrite Hq. destruct (decide (q' = q)) as [->|]; [|apply L]. intros [Hg|[->|?%elem_of_nil]%elem_of_cons]%elem_of_app; [by apply L|by exists o|done].
  - intros q'. rewrite Hq. destruct (decide (q' = q)) as [->|]; [|done]. apply NoDup_app. split; [done|]. split; [|apply NoDup_singleton].
    intros g Hg ->%list_elem_of_singleton. by apply (Hl q).
  - intros fd g. unfold w'. cbn. destruct (decide (fd = f_fd o)) as [->|Hn].
    + rewrite lookup_insert_eq. intros [= <-]. split; [done|]. exists o. fold w'. by rewrite (Hls f o Eo), decide_True.
    + rewrite lookup_insert_ne by done. intros Hg. destruct (T fd g Hg) as (? & p & Ep & Hp & Hpl). split; [done|]. exists p. fold w'. rewrite (Hls g p Ep).
      by destruct (decide (g = f)).
  - intros g p Ep Hp. rewrite (Hls g p Ep). destruct (decide (g = f)); [done|by apply (Ti g p)].
  - intros q'. rewrite Hq. unfold q_iofds, w'. cbn. destruct (decide (q' = q)) as [->|Hne]; [rewrite lookup_insert_eq; cbn|rewrite lookup_insert_ne by done; apply C].
    rewrite C, length_app. cbn. lia.
  - exact B.
  - exact K.
  - intros fd g p. unfold w'. cbn. destruct (decide (fd = f_fd o)) as [->|Hn].
    + rewrite lookup_insert_eq. intros [= <-] Ep. rewrite Eo in Ep. injection Ep as <-. destruct Hlo. split; by left.
    + rewrite lookup_insert_ne by done. apply G.
  - exact W.
  - exact E1.
  - exact E2.
Qed.

Lemma align_ok x : 0 <= x <= FD_MAX_PACKET_SIZE_MAX -> x <= AOSL_I_ALIGN_PTR x <= FD_MAX_PACKET_SIZE_MAX.
Proof. intros Hx. unfold AOSL_I_ALIGN_PTR, FD_MAX_PACKET_SIZE_MAX in *. change (Z.shiftl 4 20) with 4194304 in *. pose proof (Z.div_mod (x + 7) 8 ltac:(lia)). pose proof (Z.mod_pos_bound (x + 7) 8 ltac:(lia)). lia. Qed.
Lemma new_bufs c fd n fl : 0 <= c_max c <= FD_MAX_PACKET_SIZE_MAX -> (c_chk c = true -> FD_MAX_PACKET_SIZE_MIN <= c_max c) ->
  bufs_ok (MkIofd c fd n 0 fl AOSL_MPQ_TIMER_INVALID (replicate (Z.to_nat (buff_size c)) 0) 0 0 [] 0).
Proof.
  intros Hm Hc. assert (0 <= buff_size c) by (unfold buff_size; destruct (c_chk c); lia).
  split; cbn -[buff_size]; [lia|rewrite length_replicate; lia|done|done|constructor].
Qed.

(** The object is made, and can be found if there is no error. *)
Lemma add_install_wp X w a : J X w -> (level = true -> c_read (a_conf a) = true) -> wp (add_install a) w (fun r w' => match r with
  | inl _ => J X w'
  | inr f => exists o w1, J (f :: X) w1 /\ io_objs w1 !! f = Some o /\ (forall q, f ∉ q_list w1 q) /\ attached_fds w1 !! f_fd o = None /\ f_fd o <> AOSL_INVALID_FD /\
      (forall fd, attached_fds w1 !! fd <> Some f) /\ f_usage o = 1 /\ f_timer o = AOSL_MPQ_TIMER_INVALID /\ w' = set_table (<[f_fd o := f]> (attached_fds w1)) w1
  end).
Proof.
  intros HJ Hrd. unfold add_install. pose proof (wrapu_range 64 (c_max (a_conf a)) ltac:(lia)) as Hmax.
  set (m := u64 _) in *. destruct (a_sigp a); [by apply wp_ret|].
  destruct (_ || _) eqn:Hsize; [by apply wp_ret|]. apply orb_false_iff in Hsize as [Hs1 Hs2]. apply Z.ltb_ge in Hs2. assert (0 <= m <= FD_MAX_PACKET_SIZE_MAX) as Hm by lia. destruct (_ <=? _); [by apply wp_ret|]. destruct (negb _); [by apply wp_ret|].
  apply wp_bind. match goal with |- wp ?m _ _ => assert (wp m w (fun f w' => (f = 0 /\ J X w') \/ (0 < f /\ J (f :: X) w'))) as Hfind end.
  { destruct (_ =? _); [apply wp_ret; by left|]. eapply wp_mono; [by eapply fget_wp|]. cbn beta. naive_solver. }
  eapply wp_mono; [exact Hfind|]. cbn beta. intros g w1 [[-> J1]|[Hg J1]].
  2: { destruct (Z.eqb_spec g 0); [lia|]. cbn [negb]. apply wp_bind. eapply wp_mono; [by eapply fput_wp|]. intros _ w2 (J2 & _). by apply wp_ret. }
  cbn [Z.eqb negb]. apply wp_bind, ask_wp. destruct (Z.eqb_spec (env_iomalloc w1) 0) as [|Hf]; [apply wp_ret; by apply J_next|].
  destruct (env_iomalloc_ok w1 Hf) as (Hpos & Hfresh). set (f := env_iomalloc w1) in *. apply wp_bind, modw_wp.
  match goal with |- context [<[f := MkIofd ?c ?fd ?n ?l ?fl ?t ?b ?d ?tl ?wq ?wl]>] => set (o := MkIofd c fd n l fl t b d tl wq wl) end.
  destruct (J_new X (io_next w1) f o (J_next _ _ _ _ J1) Hfresh Hpos) as (J2 & Hl & Hno); [| done | done | intros Hlv; cbn; split; [by apply Hrd|by right] |].
  { apply new_bufs; cbn.
    - pose proof (align_ok m Hm). lia.
    - intros Hc. rewrite Hc in Hs1. cbn in Hs1. apply Z.ltb_ge in Hs1. pose proof (align_ok m Hm). lia. }
  set (w2 := set_objs _ (io_next w1)) in *. apply wp_bind.
  match goal with |- wp ?m _ _ => assert (wp m w2 (fun _ w' => w' = w2 \/ w' = io_next w2)) as Hgetfd end.
  { destruct (_ =? _); [apply ask_wp; by right|apply wp_ret; by left]. }
  eapply wp_mono; [exact Hgetfd|]. cbn beta. intros [err fd] w3 Hw3.
  assert (J (f :: X) w3 /\ io_objs w3 !! f = Some o /\ (forall q, f ∉ q_list w3 q) /\ (forall fd, attached_fds w3 !! fd <> Some f)) as (J3 & E3 & L3 & N3).
  { assert (io_objs w2 !! f = Some o) by (cbn; by rewrite lookup_insert_eq). destruct Hw3 as [->| ->]; repeat (split; [done|]); [done|]. split; [by apply J_next|done]. }
  assert (forall fl fd w, J (f :: X) w -> io_objs w !! f = Some (set_ffd fd (set_flife fl o)) \/ io_objs w !! f = Some o -> J X (set_objs (delete f (io_objs w)) w)) as Hfree.
  { intros fl fd' w' J' [E'|E']; by eapply J_free. }
  destruct (_ || _) eqn:Hfd; [apply wp_bind, modw_wp, wp_ret; apply (Hfree 0 0); [done|by right]|]. apply orb_false_iff in Hfd as [_ Hfd]. apply Z.eqb_neq in Hfd.
  apply wp_bind. eapply mod_f_wp; [done|]. assert (J (f :: X) (set_objs (<[f := set_ffd fd o]> (io_objs w3)) w3)) as J4 by (eapply J_field; try done; [by right|by left]).
  set (w4 := set_objs _ w3) in *. assert (io_objs w4 !! f = Some (set_ffd fd o)) as E4 by (cbn; by rewrite lookup_insert_eq).
  apply wp_bind. unfold install_fd, aosl_fd_invalid. destruct (Z.eqb_spec fd AOSL_INVALID_FD); [done|]. apply wp_bind, wp_get.
  destruct (attached_fds w4 !! fd) eqn:Et.
  - apply wp_ret. cbn [Z.ltb Z.compare AOSL_EBUSY AOSL_EBASE Z.opp Z.add Pos.add]. apply wp_bind, modw_wp, wp_ret. eapply J_free; done.
  - apply wp_bind. eapply mod_f_wp; [exact E4|]. apply wp_bind, modw_wp, wp_bind, modw_wp, wp_ret, wp_ret.
    exists (set_flife (__fobj_life_id w4) (set_ffd fd o)), (next_life (set_objs (<[f := set_flife (__fobj_life_id w4) (set_ffd fd o)]> (io_objs w4)) w4)).
    split; [eapply (J_frame _ _ _ (set_objs (<[f := set_flife (__fobj_life_id w4) (set_ffd fd o)]> (io_objs w4)) w4) _ []); try done; [eapply J_field; try done; by left|cbn; by rewrite app_nil_r]|].
    split; [cbn; by rewrite lookup_insert_eq|]. split; [exact L3|]. split; [exact Et|]. split; [done|]. split; [exact N3|]. done.
Qed.

Lemma add_wp X w a : J X w -> (level = true -> c_read (a_conf a) = true) -> wp (__mpq_add_fd_argv a) w (fun _ w' => J X w').
Proof.
  intros HJ Hrd. unfold __mpq_add_fd_argv. apply wp_bind. eapply wp_mono; [by eapply add_install_wp|]. cbn beta. intros [err|f] w'; [intros J1; by apply wp_ret|].
  intros (o0 & w0' & J0 & E0 & L0 & T0 & Hi0 & N0 & Hu0 & Ht0 & ->). unfold add_finish. apply wp_bind. eapply get_f_wp; [done|]. apply wp_bind. unfold __q_add_fd. apply wp_bind.
  match goal with |- wp _ _ ?Q => assert (forall err o w1, J (f :: X) w1 -> io_objs w1 !! f = Some o -> (forall q, f ∉ q_list w1 q) -> attached_fds w1 !! f_fd o = None ->
    f_fd o <> AOSL_INVALID_FD -> f_usage o = 1 -> f_conf o = f_conf o0 -> (0 <= err -> loud o /\ awake o) -> Q err (set_table (<[f_fd o := f]> (attached_fds w1)) w1)) as Hrest end.
  - intros err o w1 J1 E1 L1 T1 Hi Hu Hc Hlo. destruct (err <? 0) eqn:He.
    + apply wp_ret. rewrite He. apply wp_bind. unfold remove_fd. apply wp_bind. eapply get_f_wp; [done|]. apply wp_bind, wp_get, wp_bind, modw_wp, wp_ret, wp_bind, modw_wp, wp_ret.
      eapply (J_frame _ _ _ (set_objs (delete f (io_objs w1)) w1) _ []); [by eapply J_free|cbn; lia|done| |done|done|done|cbn; by rewrite app_nil_r|done].
      cbn. by rewrite delete_insert_id.
    + apply wp_bind, modw_wp, wp_ret. cbn [Z.ltb Z.compare]. rewrite <-Hc. pose proof (J_list X w1 f o J1 E1 L1 T1 Hi (Hlo ltac:(lia))) as J2.
      match type of J2 with J X ?w => set (w2 := w) in J2 end. match goal with |- wp _ ?w _ => change w with w2 end.
      assert (listed w2 f o = true) as Hls.
      { unfold listed, q_list, w2. cbn. rewrite lookup_insert_eq. apply bool_decide_eq_true. cbn. set_solver. }
      apply wp_bind. destruct (_ && _); [|by apply wp_ret, wp_ret]. apply wp_bind, ask_wp. eapply mod_f_wp; [exact E1|]. apply wp_ret.
      eapply (J_field X (io_next w2) f o); try done; [by apply J_next|by left|by right; right].
  - assert (J (f :: X) (set_objs (<[f := set_fflags (armed_flags o0) o0]> (io_objs w0')) w0')) as J1.
    { eapply J_upd; try done; [|destruct (J_bufs _ _ _ _ J0 E0); by split| |by left..].
      - intros _. repeat (split; [done|]). split; [apply zero_armed|done].
      - destruct (armed_loud o0). split; [done|]. split; [done|]. done. }
    unfold os_add_event_fd. destruct env_backend eqn:Hback.
    + apply ask_wp. apply (Hrest _ o0 (io_next w0')); try done; [by apply J_next|]. split; by left.
    + apply wp_bind. eapply mod_f_wp; [exact E0|]. apply wp_ret. apply (Hrest 0 (set_fflags (armed_flags o0) o0) _ J1); try done; [cbn; apply lookup_insert_eq|]. intros _. apply armed_loud.
    + apply wp_bind. eapply mod_f_wp; [exact E0|]. apply wp_ret. apply (Hrest 0 (set_fflags (armed_flags o0) o0) _ J1); try done; [cbn; apply lookup_insert_eq|]. intros _. apply armed_loud.
Qed.

Lemma aosl_add_wp X w this_q a : J X w -> (level = true -> c_read (a_conf a) = true) -> wp (aosl_mpq_add_fd this_q a) w (fun _ w' => J X w').
Proof.
  intros HJ Hrd. unfold aosl_mpq_add_fd. destruct (64 <? _); [apply wp_bind, modw_wp, wp_ret; by apply J_err|].
  destruct (_ =? 0); [apply wp_bind, modw_wp, wp_ret; by apply J_err|]. by apply ret_wp, add_wp.
Qed.

(** ** Scripts and the user's functions *)

Lemma run_act_wp X w this_q a : J X w -> wp (run_act this_q a) w (fun _ w' => J X w').
Proof.
  intros HJ. assert (forall f (m : CM ioworld Z), f ∈ io_held w -> (forall o, io_objs w !! f = Some o -> wp m w (fun _ w' => J X w')) ->
    wp (do _ <- m; cret tt) w (fun _ w' => J X w')) as Hdo.
  { intros f m Hin Hm. destruct (J_known _ _ _ _ f HJ) as [o Eo]; [by right; right|]. apply wp_bind. eapply wp_mono; [by eapply Hm|]. intros. by apply wp_ret. }
  destruct a; cbn [run_act].
  - apply wp_bind. eapply wp_mono; [by apply close_wp|]. intros. by apply wp_ret.
  - apply wp_bind. eapply wp_mono; [by apply del_fd_wp|]. intros. by apply wp_ret.
  - apply wp_bind, wp_get. destruct (writable _ _) eqn:Hw; [|by apply wp_ret]. apply wp_bind. eapply wp_mono; [by apply aosl_write_wp|]. intros. by apply wp_ret.
  - destruct (negb level || _) eqn:Hrd; [|by apply wp_ret]. apply wp_bind. eapply wp_mono; [apply aosl_add_wp; [done|by destruct level]|]. intros. by apply wp_ret.
  - apply wp_bind. eapply wp_mono; [by eapply fget_wp|]. cbn beta. intros f w1 [(-> & J1 & _)|(Hf & J1 & _)]; [by apply wp_ret|].
    destruct (Z.eqb_spec f 0); [lia|]. cbn [negb]. apply modw_wp. destruct (J_known _ _ _ _ f J1) as [o Eo]; [left; left|].
    destruct (oi_usage _ _ (proj1 J1) f o Eo) as (_ & Hu & _).
    replace (set_ioheld (f :: io_held w1) w1) with (set_ioheld (f :: io_held w1) (set_objs (<[f := set_fusage (f_usage o) o]> (io_objs w1)) w1)).
    + apply (J_usage F0 w0 (f :: X) X w1 f o (f_usage o) (f :: io_held w1) J1 Eo Hu). intros g. rewrite !occ_cons. destruct (decide (g = f)); lia.
    + unfold set_ioheld, set_objs. cbn. rewrite insert_id; [done|]. destruct o. done.
  - apply wp_bind, wp_get. destruct (bool_decide_reflect (f ∈ io_held w)) as [Hin|]; [|by apply wp_ret]. apply wp_bind, modw_wp.
    destruct (J_known _ _ _ _ f HJ) as [o Eo]; [by right; right|]. destruct (oi_usage _ _ (proj1 HJ) f o Eo) as (_ & Hu & _).
    eapply wp_mono; [eapply (fput_wp F0 w0 X)|intros ? ? [? _]; done].
    replace (set_ioheld (drop_one f (io_held w)) w) with (set_ioheld (drop_one f (io_held w)) (set_objs (<[f := set_fusage (f_usage o) o]> (io_objs w)) w)).
    + apply (J_usage F0 w0 X (f :: X) w f o (f_usage o) _ HJ Eo Hu). intros g. rewrite occ_cons, occ_drop by done. destruct (decide (g = f)); lia.
    + unfold set_ioheld, set_objs. cbn. rewrite insert_id; [done|]. destruct o. done.
  - apply wp_bind, wp_get. destruct (bool_decide_reflect (f ∈ io_held w)) as [Hin|]; [|by apply wp_ret].
    destruct (J_known _ _ _ _ f HJ) as [o Eo]; [by right; right|]. apply wp_bind. eapply get_f_wp; [done|]. apply (Hdo f); [done|]. intros o' Eo'. by eapply closef_wp.
  - apply wp_bind, wp_get. destruct (bool_decide_reflect (f ∈ io_held w)) as [Hin|]; [|by apply wp_ret].
    destruct (J_known _ _ _ _ f HJ) as [o Eo]; [by right; right|]. apply wp_bind. eapply get_f_wp; [done|]. apply (Hdo f); [done|]. intros o' Eo'.
    eapply wp_mono; [by eapply del_wp|]. by intros ? ? [? _].
  - apply wp_bind, wp_get. destruct (bool_decide_reflect (f ∈ io_held w)) as [Hin|]; [|by apply wp_ret]. cbn [andb]. destruct (writable _ _) eqn:Hw; [|by apply wp_ret]. apply (Hdo f); [done|]. intros o Eo.
    eapply write_wp; [done|done|]. unfold writable in Hw. rewrite Eo in Hw. intros Hl. by rewrite Hl in Hw.
Qed.

Lemma run_acts_wp X l : forall w this_q, J X w -> wp (run_acts this_q l) w (fun _ w' => J X w').
Proof.
  induction l as [|a l IH]; intros w this_q HJ; cbn [run_acts]; [by apply wp_ret|]. apply wp_bind. eapply wp_mono; [by apply run_act_wp|]. cbn beta. intros _ w1 J1. by apply IH.
Qed.
Lemma callback_wp {A} X w this_q (g : ioworld -> A * list io_act) : J X w -> wp (callback this_q g) w (fun a w' => a = fst (g w) /\ J X w').
Proof.
  intros HJ. unfold callback. apply wp_bind, ask_wp. destruct (g w) as [a acts]. apply wp_bind. eapply wp_mono; [apply (run_acts_wp X); by apply J_next|].
  cbn beta. intros _ w1 J1. by apply wp_ret.
Qed.

Lemma event_close_wp X w q f err : J X w -> (f ∈ X \/ f ∈ F0) -> wp (f_event_and_close q f err) w (fun _ w' => J X w').
Proof.
  intros HJ Hf. destruct (J_known _ _ _ _ f HJ) as [o Eo]; [tauto|]. unfold f_event_and_close. apply wp_bind. eapply get_f_wp; [done|].
  destruct (negb _); [|by apply wp_ret]. apply wp_bind.
  assert (forall w1, J X w1 -> wp (do o <- get_f f; when negb (aosl_fd_invalid (f_fd o)) then (do _ <- __this_q_close_f q f; cret tt)) w1 (fun _ w' => J X w')) as Hrest.
  { intros w1 J1. destruct (J_known _ _ _ _ f J1) as [o1 E1]; [tauto|]. apply wp_bind. eapply get_f_wp; [done|]. destruct (negb _); [|by apply wp_ret].
    apply wp_bind. eapply wp_mono; [by eapply closef_wp|]. intros. by apply wp_ret. }
  destruct (c_event _); [|apply wp_ret; by apply Hrest]. apply wp_bind, modw_wp. eapply wp_mono; [eapply callback_wp; by apply J_note|]. cbn beta. intros _ w1 (_ & J1). by apply Hrest.
Qed.

End Keep.
