(* ===== verification/IofdRead.v ===== *)
(** * Watched descriptors: reading

    The read loop against the stream of bytes: packets are cut out of the stream
    in the same way however the stream arrives. *)
From S2P Require Import Prelude Refs Iofd IofdInv IofdKeep.
#[local] Open Scope aosl_scope.

(** ** Buffers *)

Lemma slice_length a b l : 0 <= a <= b -> b <= Z.of_nat (length l) -> Z.of_nat (length (slice a b l)) = b - a.
Proof. intros Ha Hb. unfold slice. rewrite length_take, length_drop. lia. Qed.
Lemma splice_length a bs l : 0 <= a -> a + Z.of_nat (length bs) <= Z.of_nat (length l) -> length (splice a bs l) = length l.
Proof. intros Ha Hb. unfold splice. rewrite !length_app, length_take, length_drop. lia. Qed.
Lemma slice_take a b k l : 0 <= a <= b -> 0 <= k <= b - a -> slice a (a + k) l = take (Z.to_nat k) (slice a b l).
Proof. intros Ha Hk. unfold slice. rewrite take_take. f_equal. lia. Qed.
Lemma slice_drop a b k l : 0 <= a <= b -> 0 <= k <= b - a -> slice (a + k) b l = drop (Z.to_nat k) (slice a b l).
Proof. intros Ha Hk. unfold slice. rewrite skipn_firstn_comm, drop_drop. f_equal; [lia|]. f_equal. lia. Qed.
(** Writing at the end of the window appends to what is in it. *)
Lemma slice_splice a b bs l : 0 <= a <= b -> b + Z.of_nat (length bs) <= Z.of_nat (length l) -> slice a (b + Z.of_nat (length bs)) (splice b bs l) = slice a b l ++ bs.
Proof.
  intros Ha Hb. unfold slice, splice. rewrite (drop_app_le _ (bs ++ _)) by (rewrite length_take; lia).
  assert (drop (Z.to_nat a) (take (Z.to_nat b) l) = take (Z.to_nat (b - a)) (drop (Z.to_nat a) l)) as -> by (rewrite skipn_firstn_comm; f_equal; lia).
  rewrite app_assoc. rewrite take_app_le by (rewrite length_app, length_take, length_drop; lia).
  apply take_ge. rewrite length_app, length_take, length_drop. lia.
Qed.
Lemma slice_moved a b l : 0 <= a <= b -> b <= Z.of_nat (length l) -> slice 0 (b - a) (splice 0 (slice a b l) l) = slice a b l.
Proof.
  intros Ha Hb. pose proof (slice_length a b l Ha Hb) as Hl. unfold splice, slice at 1. change (Z.to_nat 0) with 0%nat. rewrite drop_0, Z.sub_0_r, take_0, app_nil_l.
  apply take_app_length'. lia.
Qed.

(** What has been read and not yet been given out. *)
Definition pend (o : iofd) : list Z := slice (f_data o) (f_tail o) (f_buf o).
Definition zero (o : iofd) : bool := has_flag (f_flags o) IOFD_READ_RETURN_0.
Lemma pend_length o : bufs_ok o -> Z.of_nat (length (pend o)) = f_tail o - f_data o.
Proof. intros [B1 B2 _ _ _]. apply slice_length; lia. Qed.

(** ** The log *)
Fixpoint data_of (f : Z) (l : list ioevent) : list (list Z) :=
  match l with [] => [] | EvData g bs :: l => if g =? f then bs :: data_of f l else data_of f l | _ :: l => data_of f l end.
Fixpoint reads_of (f : Z) (l : list ioevent) : list (list Z) :=
  match l with [] => [] | EvRead g bs :: l => if g =? f then bs :: reads_of f l else reads_of f l | _ :: l => reads_of f l end.
Lemma data_of_app f l1 l2 : data_of f (l1 ++ l2) = data_of f l1 ++ data_of f l2.
Proof. induction l1 as [|[] l1 IH]; cbn; try done. destruct (_ =? _); [by rewrite IH|done]. Qed.
Lemma reads_of_app f l1 l2 : reads_of f (l1 ++ l2) = reads_of f l1 ++ reads_of f l2.
Proof. induction l1 as [|[] l1 IH]; cbn; try done. destruct (_ =? _); [by rewrite IH|done]. Qed.
Lemma quiet_of f l : Forall quiet l -> data_of f l = [] /\ reads_of f l = [].
Proof. induction 1 as [|[] l He _ IH]; done. Qed.

Section Read.
Context `{IoEnv, Unheard} (F : list Z) (q f : Z) (Hf : f ∈ F).

(** The reader's view: the object, with a reference to it. *)
Definition at_ (w : ioworld) (o : iofd) : Prop := ioinv F w /\ io_objs w !! f = Some o.
Definition datas (w : ioworld) : list (list Z) := data_of f (io_log w).
Definition reads (w : ioworld) : list (list Z) := reads_of f (io_log w).

Lemma at_bufs w o : at_ w o -> bufs_ok o.
Proof. intros [I E]. by eapply oi_bufs. Qed.
Lemma at_J w o : at_ w o -> J F w [] w.
Proof.
  intros [I E]. split; [done|]. split; [intros g p _ Ep; by exists p|]. split; [exists []; by rewrite app_nil_r|lia].
Qed.
Lemma at_get w : ioinv F w -> exists o, at_ w o.
Proof. intros I. destruct (oi_ref _ _ I f) as [o E]; [by right|]. by exists o. Qed.

(** A change of the reader's part of the object. *)
Lemma at_set w o o' : at_ w o -> f_usage o' = f_usage o -> f_conf o' = f_conf o -> f_fd o' = f_fd o -> f_timer o' = f_timer o -> bufs_ok o' -> arms o o' ->
  at_ (set_objs (<[f := o']> (io_objs w)) w) o'.
Proof.
  intros [I E] Hu Hc Hd Ht Hb Har. split; [|cbn; by rewrite lookup_insert_eq].
  assert (J [] w F w) as HJ. { split; [by rewrite app_nil_r|]. split; [by intros g p ?%elem_of_nil|]. split; [exists []; by rewrite app_nil_r|lia]. }
  assert (J [] w F (set_objs (<[f := o']> (io_objs w)) w)) as [I' _].
  { eapply J_upd; try done; [by intros ?%elem_of_nil|by left|by left]. }
  by rewrite app_nil_r in I'.
Qed.
Lemma at_note w o e : at_ w o -> at_ (io_note e w) o.
Proof. intros [[U R L N T Ti C B K] E]. split; [|done]. by split. Qed.

Lemma cb_wp {A} (g : ioworld -> A * list io_act) w o : at_ w o -> wp (callback q g) w (fun a w' => a = fst (g w) /\ io_tick w < io_tick w' /\
  datas w' = datas w /\ reads w' = reads w /\ exists o', at_ w' o' /\ same_read o o').
Proof.
  intros Ha. unfold callback. apply wp_bind, ask_wp. destruct (g w) as [a acts] eqn:Eg. apply wp_bind.
  assert (at_ (io_next w) o) as Ha'. { destruct (J_next _ _ _ _ (at_J w o Ha)) as [I' _]. split; [exact I'|apply Ha]. }
  eapply wp_mono; [eapply (run_acts_wp F (io_next w) []); by eapply at_J|]. cbn beta. intros _ w' [I' (E1 & (new & E2 & E3) & E4)]. apply wp_ret.
  destruct (E1 f o Hf (proj2 Ha')) as (o' & Eo' & Hs). cbn in E2, E4. destruct (quiet_of f new E3) as [Q1 Q2]. unfold datas, reads. rewrite E2, data_of_app, reads_of_app, Q1, Q2, !app_nil_r.
  split; [done|]. split; [lia|]. split; [done|]. split; [done|]. exists o'. split; [by split|done].
Qed.

Lemma event_wp w o err : at_ w o -> wp (f_event_and_close q f err) w (fun _ w' =>
  io_tick w <= io_tick w' /\ datas w' = datas w /\ reads w' = reads w /\ exists o', at_ w' o' /\ same_read o o').
Proof.
  intros Ha. eapply wp_mono; [eapply (event_close_wp F w []); [by eapply at_J|by right]|]. cbn beta. intros _ w' [I' (E1 & (new & E2 & E3) & E4)].
  destruct (E1 f o Hf (proj2 Ha)) as (o' & Eo' & Hs). destruct (quiet_of f new E3) as [Q1 Q2]. unfold datas, reads. rewrite E2, data_of_app, reads_of_app, Q1, Q2, !app_nil_r.
  split; [done|]. split; [done|]. split; [done|]. exists o'. split; [by split|done].
Qed.

(** ** One packet *)

(** What [hand_out] and [deliver] do to the object [o] when the descriptor is closed
    meanwhile, or not; [ds] is given to the user. *)
Definition handed (w : ioworld) (o : iofd) (err : Z) (ds : list (list Z)) (closed : bool) (w' : ioworld) : Prop :=
  exists o', at_ w' o' /\ io_tick w <= io_tick w' /\ f_conf o' = f_conf o /\ f_tail o' = f_tail o /\ f_buf o' = f_buf o /\ zero o' = zero o /\
    reads w' = reads w /\ datas w' = datas w ++ ds /\ f_data o' = f_data o + (if closed then 0 else err) /\ (closed = true -> aosl_fd_invalid (f_fd o') = true).

Lemma bufs_window o b d t : bufs_ok o -> 0 <= d <= t -> t <= buff_size (f_conf o) -> length b = length (f_buf o) -> bufs_ok (set_fbuf b d t o).
Proof. intros [B1 B2 B3 B4 B5] Hd Ht Hl. split; cbn; try done. by rewrite Hl. Qed.

Lemma hand_out_wp w o err n : at_ w o -> 0 <= err <= f_tail o - f_data o ->
  wp (hand_out q f err n) w (handed w o err (if 0 <=? n then [slice (f_data o) (f_data o + n) (f_buf o)] else [])).
Proof.
  intros Ha He. unfold hand_out. apply wp_bind. eapply get_f_wp; [apply Ha|].
  assert (forall w1 o1 ds, at_ w1 o1 -> io_tick w <= io_tick w1 -> same_read o o1 -> reads w1 = reads w -> datas w1 = datas w ++ ds ->
    wp (mod_f f (fun o => set_fbuf (f_buf o) (f_data o + err) (f_tail o) o) ;; cret false) w1 (handed w o err ds)) as Hmove.
  { intros w1 o1 ds A1 Ht (S1 & S2 & S3 & S4 & S5 & S6) R1 D1. apply wp_bind. eapply mod_f_wp; [apply A1|]. apply wp_ret. eexists. pose proof (bo_window _ (at_bufs _ _ A1)).
    split; [eapply at_set; try done; apply bufs_window; [by eapply at_bufs|lia..|done]|]. unfold zero. cbn. rewrite S1, S2, S3, S4, S5. done. }
  apply wp_bind. destruct (0 <=? n); [|apply wp_ret; eapply Hmove; try done; by rewrite app_nil_r]. apply wp_bind, modw_wp, wp_bind.
  eapply wp_mono; [eapply cb_wp, at_note, Ha|]. cbn beta. intros _ w1 (_ & Ht & D1 & R1 & o1 & A1 & S1). apply wp_bind. eapply get_f_wp; [apply A1|]. apply wp_ret.
  unfold datas, reads in D1, R1 |- *. cbn in D1, R1, Ht. rewrite data_of_app in D1. rewrite reads_of_app in R1. cbn in D1, R1. rewrite Z.eqb_refl in D1. rewrite app_nil_r in R1.
  destruct (aosl_fd_invalid (f_fd o1)) eqn:Hi; [|eapply Hmove; try done; lia]. apply wp_ret. exists o1. destruct S1 as (S1 & S2 & S3 & S4 & S5 & S6). unfold zero.
  rewrite S1, S2, S3, S4, S5. repeat (split; [first [done|lia|apply A1]|]). done.
Qed.

Lemma deliver_wp w o err : at_ w o -> 0 <= err <= f_tail o - f_data o ->
  wp (deliver q f err) w (fun closed w' => exists o1 w1 ds, handed w1 o1 err ds closed w' /\ io_tick w <= io_tick w1 /\ f_conf o1 = f_conf o /\ f_data o1 = f_data o /\ f_tail o1 = f_tail o /\ zero o1 = zero o /\
    reads w1 = reads w /\ datas w1 = datas w /\ (c_post (f_conf o) = false -> f_buf o1 = f_buf o /\ ds = [take (Z.to_nat err) (pend o)])).
Proof.
  intros Ha He. unfold deliver. apply wp_bind. eapply get_f_wp; [apply Ha|]. destruct (c_post (f_conf o)) eqn:Hp.
  - apply wp_bind. eapply wp_mono; [eapply cb_wp, Ha|]. cbn beta. intros [n bs] w1 (_ & Ht & D1 & R1 & o1 & A1 & (S1 & S2 & S3 & S4 & S5 & S6)). apply wp_bind.
    eapply mod_f_wp; [apply A1|]. pose proof (at_bufs _ _ A1) as B1. pose proof (bo_window _ B1). pose proof (bo_size _ B1).
    set (o2 := set_fbuf (splice (f_data o1) (take (Z.to_nat err) bs) (f_buf o1)) (f_data o1) (f_tail o1) o1).
    assert (at_ (set_objs (<[f := o2]> (io_objs w1)) w1) o2) as A2.
    { eapply at_set; try done. apply bufs_window; [done|lia|lia|]. apply splice_length; [lia|]. rewrite length_take. lia. }
    set (w2 := set_objs _ w1) in *. apply wp_bind. eapply get_f_wp; [apply A2|].
    assert (forall closed w' ds, handed w2 o2 err ds closed w' -> exists o1 w1 ds, handed w1 o1 err ds closed w' /\ io_tick w <= io_tick w1 /\ f_conf o1 = f_conf o /\ f_data o1 = f_data o /\
      f_tail o1 = f_tail o /\ zero o1 = zero o /\ reads w1 = reads w /\ datas w1 = datas w /\ (true = false -> f_buf o1 = f_buf o /\ ds = [take (Z.to_nat err) (pend o)])) as Hq.
    { intros closed w' ds Hh. exists o2, w2, ds. unfold zero. cbn. rewrite S1, S3, S4, S5. repeat (split; [first [done|lia]|]). done. }
    destruct (aosl_fd_invalid (f_fd o2)) eqn:Hi.
    + apply wp_ret. eapply (Hq true w2 []). exists o2. rewrite app_nil_r, Z.add_0_r. repeat (split; [first [done|lia|apply A2]|]). done.
    + eapply wp_mono; [eapply hand_out_wp; [exact A2|cbn; lia]|]. cbn beta. intros closed w' Hh. by eapply Hq.
  - eapply wp_mono; [eapply hand_out_wp; [exact Ha|done]|]. cbn beta. intros closed w' Hh. exists o, w. destruct (Z.leb_spec 0 err); [|lia]. eexists. split; [exact Hh|].
    repeat (split; [first [done|lia]|]). f_equal. apply slice_take; [|lia]. pose proof (bo_window _ (at_bufs _ _ Ha)). lia.
Qed.

(** The number of bytes of the next packet. *)
Definition cut_at (w : ioworld) (o : iofd) : Z :=
  if c_chk (f_conf o) && (0 <? f_tail o - f_data o) then fst (env_chk w f (pend o)) else f_tail o - f_data o.

(** The object after a round of the inner loop, by the way it ended. *)
Definition stepped (k : Z) (o : iofd) (r : inner) (o' : iofd) : Prop :=
  match r with
  | Next => 0 < k <= f_tail o - f_data o /\ f_data o' = f_data o + k /\ zero o = false /\ zero o' = false
  | Again => zero o' = false /\ ((zero o = false /\ k = 0 /\ f_data o' = f_data o) \/ (zero o = true /\ c_chk (f_conf o) = false /\ f_data o' = f_tail o))
  | Return e => e = 0 -> aosl_fd_invalid (f_fd o') = true \/
      (zero o = true /\ zero o' = true /\ c_chk (f_conf o) = true /\ 0 <= k <= f_tail o - f_data o /\ f_data o' = f_data o + k)
  end.
(** What the user got of it. *)
Definition given (k : Z) (o : iofd) (r : inner) (o' : iofd) (ds : list (list Z)) : Prop :=
  match r with
  | Next => ds = [take (Z.to_nat k) (pend o)]
  | Again => ds = if zero o then [pend o] else []
  | Return e => (ds = [] \/ (0 <= k <= f_tail o - f_data o /\ (0 < k \/ zero o = true) /\ ds = [take (Z.to_nat k) (pend o)])) /\
      (e = 0 -> aosl_fd_invalid (f_fd o') = false -> ds = [take (Z.to_nat k) (pend o)])
  end.

Lemma zero_cleared x : has_flag (Z.ldiff x IOFD_READ_RETURN_0) IOFD_READ_RETURN_0 = false.
Proof. change IOFD_READ_RETURN_0 with (2 ^ 10). rewrite has_flag_bit, Z.ldiff_spec, Z.pow2_bits_true by lia. apply andb_false_r. Qed.

Lemma packet_step_wp w o : at_ w o -> wp (packet_step q f) w (fun r w' => exists o', at_ w' o' /\ io_tick w <= io_tick w' /\ f_conf o' = f_conf o /\ f_tail o' = f_tail o /\ reads w' = reads w /\
  stepped (cut_at w o) o r o' /\ (c_post (f_conf o) = false -> f_buf o' = f_buf o /\ exists ds, datas w' = datas w ++ ds /\ given (cut_at w o) o r o' ds)).
Proof.
  intros Ha. pose proof (at_bufs _ _ Ha) as Bo. pose proof (bo_window _ Bo) as Hw. unfold packet_step. apply wp_bind. eapply get_f_wp; [apply Ha|]. unfold cut_at. fold (pend o).
  set (check := c_chk (f_conf o) && (0 <? f_tail o - f_data o)). apply wp_bind.
  match goal with |- wp ?m _ _ => assert (wp m w (fun k w1 => k = (if check then fst (env_chk w f (pend o)) else f_tail o - f_data o) /\ io_tick w <= io_tick w1 /\
    datas w1 = datas w /\ reads w1 = reads w /\ exists o1, at_ w1 o1 /\ same_read o o1)) as Hchk end.
  { destruct check; [|apply wp_ret; repeat (split; [done|]); exists o; done]. eapply wp_mono; [eapply cb_wp, Ha|]. cbn beta. intros k w1 (-> & Ht & D1 & R1 & Ho1). split; [done|]. split; [lia|]. done. }
  eapply wp_mono; [exact Hchk|]. cbn beta. clear Hchk. intros k w1 (Ek & Ht1 & D1 & R1 & o1 & A1 & (S1 & S2 & S3 & S4 & S5 & S6)). rewrite <-Ek. assert (check = false -> k = f_tail o - f_data o) as Hall by (intros Hc; by rewrite Hc in Ek). clear Ek.
  apply wp_bind. eapply get_f_wp; [apply A1|]. rewrite S3, S4.
  destruct (check && aosl_fd_invalid (f_fd o1)) eqn:Hclosed.
  { apply wp_ret. apply andb_true_iff in Hclosed as [_ Hclosed]. exists o1. split; [done|]. repeat (split; [done|]). split; [intros _; by left|]. intros _. split; [done|]. exists []. rewrite app_nil_r.
    split; [done|]. split; [by left|]. congruence. }
  destruct (check && ((k <? 0) || (f_tail o - f_data o <? k))) eqn:Hbad.
  { apply wp_bind. eapply wp_mono; [eapply event_wp, A1|]. cbn beta. intros _ w2 (Ht2 & D2 & R2 & o2 & A2 & (U1 & U2 & U3 & U4 & U5 & U6)). apply wp_ret. exists o2. split; [done|]. split; [lia|].
    split; [congruence|]. split; [congruence|]. split; [congruence|]. apply andb_true_iff in Hbad as [Hc Hbad].
    assert ((if 0 <? k then - AOSL_EINVAL else k) <> 0) as Hne. { destruct (Z.ltb_spec 0 k); [done|]. destruct (Z.ltb_spec k 0); [lia|]. destruct (Z.ltb_spec (f_tail o - f_data o) k); [lia|done]. }
    split; [intros E0; by destruct Hne|]. intros _. split; [congruence|]. exists []. rewrite app_nil_r. split; [congruence|]. split; [by left|intros E0; by destruct Hne]. }
  assert (0 <= k <= f_tail o - f_data o) as Hk.
  { destruct check; [|rewrite Hall by done; lia]. apply orb_false_iff in Hbad as [H1 H2]. apply Z.ltb_ge in H1, H2. lia. }
  assert (pend o1 = pend o) as Hpend by (unfold pend; by rewrite S2, S3, S4). fold (zero o1). assert (zero o1 = zero o) as Hzero by exact S5. rewrite Hzero. apply wp_bind.
  (* after the packet has been given out, or not *)
  assert (forall (closed : bool) w2 o2, at_ w2 o2 -> io_tick w <= io_tick w2 -> f_conf o2 = f_conf o -> f_tail o2 = f_tail o -> zero o2 = zero o -> reads w2 = reads w ->
    f_data o2 = f_data o + (if closed then 0 else k) -> (closed = true -> aosl_fd_invalid (f_fd o2) = true) ->
    (c_post (f_conf o) = false -> f_buf o2 = f_buf o /\ datas w2 = datas w ++ if (0 <? k) || zero o then [take (Z.to_nat k) (pend o)] else []) ->
    wp (if closed then cret (Return 0) else
        do o <- get_f f;
        if has_flag (f_flags o) IOFD_READ_RETURN_0 then
          if c_chk (f_conf o) then cret (Return 0) else
          mod_f f (fun o => set_fflags (Z.ldiff (f_flags o) IOFD_READ_RETURN_0) o) ;; cret Again
        else cret (if k =? 0 then Again else Next)) w2
      (fun r w' => exists o', at_ w' o' /\ io_tick w <= io_tick w' /\ f_conf o' = f_conf o /\ f_tail o' = f_tail o /\ reads w' = reads w /\
        stepped k o r o' /\ (c_post (f_conf o) = false -> f_buf o' = f_buf o /\ exists ds, datas w' = datas w ++ ds /\ given k o r o' ds))) as Hrest.
  { clear A1. intros closed w2 o2 A2 Ht C2 T2 Z2 R2 D2 V2 P2. destruct closed.
    { apply wp_ret. exists o2. repeat (split; [done|]). split; [intros _; left; by apply V2|]. intros Hp. destruct (P2 Hp) as [B2 L2]. split; [done|]. eexists. split; [exact L2|].
      split; [|rewrite V2 by done; done]. destruct (Z.ltb_spec 0 k); cbn [orb]; [right; split; [lia|]; split; [by left|done]|]. destruct (zero o); [right; split; [lia|]; split; [by right|done]|by left]. }
    apply wp_bind. eapply get_f_wp; [apply A2|]. fold (zero o2). rewrite Z2, C2. destruct (zero o) eqn:Hz.
    - destruct (c_chk (f_conf o)) eqn:Hc.
      + apply wp_ret. exists o2. repeat (split; [done|]). split; [intros _; by right|]. intros Hp. destruct (P2 Hp) as [B2 L2]. split; [done|]. rewrite orb_true_r in L2. eexists. split; [exact L2|].
        split; [right; split; [lia|]; split; [by right|done]|done].
      + assert (k = f_tail o - f_data o) as Hka by by apply Hall. apply wp_bind. eapply mod_f_wp; [apply A2|]. apply wp_ret.
        eexists. split; [eapply at_set; try done; [destruct (at_bufs _ _ A2); by split|apply arms_ldiff; [done..|]; left; congruence]|]. cbn. repeat (split; [done|]).
        split; [split; [apply zero_cleared|right; split; [done|]; split; [done|]; lia]|]. intros Hp. destruct (P2 Hp) as [B2 L2]. split; [done|]. rewrite orb_true_r in L2. eexists. split; [exact L2|].
        cbn. rewrite Hz. f_equal. apply take_ge. pose proof (pend_length o Bo). lia.
    - destruct (Z.eqb_spec k 0) as [->|Hk0].
      + apply wp_ret. exists o2. repeat (split; [done|]). split; [split; [done|left; split; [done|]; split; [done|]; lia]|]. intros Hp. destruct (P2 Hp) as [B2 L2]. split; [done|].
        eexists. split; [exact L2|]. cbn. by rewrite Hz.
      + apply wp_ret. exists o2. repeat (split; [done|]). split; [split; [lia|done]|]. intros Hp. destruct (P2 Hp) as [B2 L2]. split; [done|].
        eexists. split; [exact L2|]. cbn. destruct (Z.ltb_spec 0 k); [done|lia]. }
  destruct ((0 <? k) || zero o) eqn:Hgive.
  - eapply wp_mono; [eapply deliver_wp; [exact A1|lia]|]. cbn beta. intros closed w2 (o2 & w2' & ds & (o3 & A3 & Ht3 & C3 & T3 & B3 & Z3 & R3 & L3 & D3 & V3) & Ht2 & C2 & D2 & T2 & Z2 & R2 & L2 & P2).
    eapply (Hrest closed w2 o3 A3); try congruence; try lia; try done. intros Hp. rewrite S1 in P2. destruct (P2 Hp) as [B2 ->]. split; [congruence|].
    rewrite L3, L2, D1, Hpend. done.
  - apply wp_ret. eapply (Hrest false w1 o1 A1); try done; [rewrite S3; destruct (Z.ltb_spec 0 k); [done|lia]|]. intros Hp. split; [done|]. by rewrite app_nil_r.
Qed.

(** ** Closed descriptors *)

Lemma closed_gone w o : at_ w o -> aosl_fd_invalid (f_fd o) = true -> forall fd, attached_fds w !! fd <> Some f.
Proof.
  intros [I E] Hi fd Ht. destruct (oi_table _ _ I fd f Ht) as (Hne & o1 & E1 & Hfd & _). rewrite E in E1. injection E1 as <-. unfold aosl_fd_invalid in Hi. apply Z.eqb_eq in Hi. congruence.
Qed.

Lemma event_gone w o err : at_ w o -> c_q (f_conf o) = q -> wp (f_event_and_close q f err) w (fun _ w' => forall fd, attached_fds w' !! fd <> Some f).
Proof.
  intros Ha Hq. unfold f_event_and_close. apply wp_bind. eapply get_f_wp; [apply Ha|]. destruct (aosl_fd_invalid (f_fd o)) eqn:Hi; cbn [negb]; [apply wp_ret; by eapply closed_gone|].
  apply wp_bind. match goal with |- wp ?m _ _ => assert (wp m w (fun _ w1 => exists o1, at_ w1 o1 /\ f_conf o1 = f_conf o)) as Hev end.
  { destruct (c_event _); [|apply wp_ret; by exists o]. apply wp_bind, modw_wp. eapply wp_mono; [eapply cb_wp, at_note, Ha|]. cbn beta. intros _ w1 (_ & _ & _ & _ & o1 & A1 & S1 & _). by exists o1. }
  eapply wp_mono; [exact Hev|]. cbn beta. intros _ w1 (o1 & A1 & C1). apply wp_bind. eapply get_f_wp; [apply A1|].
  destruct (aosl_fd_invalid (f_fd o1)) eqn:Hi1; cbn [negb]; [apply wp_ret; by eapply closed_gone|]. apply wp_bind.
  eapply wp_mono; [eapply (closef_gone F w1 [] w1 q f o1); [by eapply at_J|apply A1]|]. cbn beta. intros _ w2 (_ & Hg). apply wp_ret. apply Hg. congruence.
Qed.

Lemma event_ends w o err : at_ w o -> wp (f_event_and_close q f err) w (fun _ w' => c_q (f_conf o) = q -> forall fd, attached_fds w' !! fd <> Some f).
Proof.
  intros Ha. destruct (decide (c_q (f_conf o) = q)) as [Hq|Hq]; [eapply wp_mono; [by eapply event_gone|]; cbn beta; by intros|].
  eapply wp_mono; [by eapply event_wp|]. by intros.
Qed.

(** ** The loops

    [I] holds before every round and [Q] when the loop ends, for whatever is
    claimed of the rounds. *)
Definition round (w : ioworld) (o : iofd) (r : inner) (w' : ioworld) (o' : iofd) : Prop :=
  f_conf o' = f_conf o /\ f_tail o' = f_tail o /\ reads w' = reads w /\ stepped (cut_at w o) o r o' /\
  (c_post (f_conf o) = false -> f_buf o' = f_buf o /\ exists ds, datas w' = datas w ++ ds /\ given (cut_at w o) o r o' ds).

Lemma read_packets_wp (I : ioworld -> iofd -> Prop) (Q : inner -> ioworld -> iofd -> Prop) :
  (forall w o r w' o', at_ w o -> I w o -> at_ w' o' -> round w o r w' o' -> match r with Next => I w' o' | _ => Q r w' o' end) ->
  forall fuel w o, at_ w o -> I w o -> f_tail o - f_data o < Z.of_nat fuel ->
  wp (read_packets fuel q f) w (fun r w' => exists o', at_ w' o' /\ io_tick w <= io_tick w' /\ f_conf o' = f_conf o /\ r <> Next /\ (r = Again -> zero o' = false) /\ Q r w' o').
Proof.
  intros Hstep. induction fuel as [|fuel IH]; intros w o Ha HI Hl; [pose proof (bo_window _ (at_bufs _ _ Ha)); lia|].
  cbn [read_packets]. apply wp_bind. eapply wp_mono; [by apply packet_step_wp|]. cbn beta. intros r w1 (o1 & A1 & Ht & C1 & T1 & R1 & S1 & P1).
  pose proof (Hstep w o r w1 o1 Ha HI A1 (conj C1 (conj T1 (conj R1 (conj S1 P1))))) as HQ. destruct r.
  - eapply wp_mono; [apply (IH w1 o1 A1 HQ); destruct S1 as (? & ? & _); lia|]. cbn beta. intros r w2 (o2 & A2 & Ht2 & C2 & N2 & Z2 & Q2). exists o2. split; [done|]. split; [lia|]. split; [congruence|]. done.
  - apply wp_ret. exists o1. repeat (split; [done|]). split; [intros _; apply S1|done].
  - apply wp_ret. exists o1. done.
Qed.

(** After the time [T] there is nothing more to read. *)
Definition calm (T : Z) : Prop := forall w n, T <= io_tick w -> exists e acts, env_read w f n = (inl e, acts).

Lemma zero_set x : has_flag (Z.lor x IOFD_READ_RETURN_0) IOFD_READ_RETURN_0 = true.
Proof. change IOFD_READ_RETURN_0 with (2 ^ 10). rewrite has_flag_bit, Z.lor_spec, Z.pow2_bits_true by lia. apply orb_true_r. Qed.

(** Moving what is left keeps it. *)
Definition moved (o : iofd) : iofd := if __iofd_better_move_buffer o then move_buffer o else o.
Lemma moved_ok o : bufs_ok o -> bufs_ok (moved o) /\ pend (moved o) = pend o /\ zero (moved o) = zero o.
Proof.
  intros B. pose proof (bo_window _ B). pose proof (bo_size _ B). unfold moved. destruct (__iofd_better_move_buffer o); [|done].
  pose proof (slice_length (f_data o) (f_tail o) (f_buf o) ltac:(lia) ltac:(lia)). split; [|split; [|done]].
  - apply bufs_window; [done|lia|lia|]. apply splice_length; lia.
  - apply slice_moved; lia.
Qed.

(** A read: what comes after it in the object. *)
Definition after_read (bs : list Z) (o o' : iofd) : Prop :=
  f_conf o' = f_conf o /\ pend o' = pend o ++ bs /\ zero o' = (if decide (bs = []) then true else zero o).

(** How the reader ends when a read fails: there is nothing more to read for now, or the
    descriptor is closed. *)
Definition ended (c : ioconf) (e : Z) (w : ioworld) : Prop :=
  (e = 0 /\ exists w1 n acts, 0 <= n /\ env_read w1 f n = (inl (- AOSL_EAGAIN), acts)) \/ (e < 0 /\ (c_q c = q -> forall fd, attached_fds w !! fd <> Some f)).

Lemma read_loop_wp T (I : ioworld -> iofd -> Prop) (Q : Z -> ioworld -> iofd -> Prop) (c : ioconf) :
  calm T -> c_read c = true ->
  (forall fuel w o, at_ w o -> I w o -> f_conf o = c -> f_tail o - f_data o < Z.of_nat fuel ->
     wp (read_packets fuel q f) w (fun r w' => exists o', at_ w' o' /\ io_tick w <= io_tick w' /\ f_conf o' = c /\ match r with Next => False | Again =>
       (forall w2 o2, at_ w2 o2 -> f_conf o2 = c -> pend o2 = pend o' -> reads w2 = reads w' -> datas w2 = datas w' -> forall e, ended c e w2 -> Q e w2 o2) /\
       (forall w2 o2 bs, at_ w2 o2 -> after_read bs o' o2 -> reads w2 = reads w' ++ [bs] -> datas w2 = datas w' -> I w2 o2) | Return e => Q e w' o' end)) ->
  forall fuel w o, at_ w o -> I w o -> f_conf o = c -> buff_size c + 1 + Z.max 0 (T - io_tick w) < Z.of_nat fuel ->
  wp (read_loop fuel q f) w (fun e w' => exists o', at_ w' o' /\ f_conf o' = c /\ Q e w' o').
Proof.
  intros Hcalm Hrd Hpk. induction fuel as [|fuel IH]; intros w o Ha HI Hc Hfuel; [pose proof (bo_window _ (at_bufs _ _ Ha)) as Hwin; rewrite Hc in Hwin; lia|]. cbn [read_loop]. apply wp_bind.
  pose proof (bo_window _ (at_bufs _ _ Ha)) as Hwin. rewrite Hc in Hwin.
  eapply wp_mono; [apply (Hpk fuel w o Ha HI Hc); lia|]. cbn beta. intros r w1 (o1 & A1 & Ht1 & C1 & HQ). destruct r; [done| |apply wp_ret; by exists o1]. destruct HQ as [HQ HI1].
  apply wp_bind. eapply get_f_wp; [apply A1|]. apply wp_bind. destruct (moved_ok o1 (at_bufs _ _ A1)) as (Bm & Pm & Zm).
  match goal with |- wp ?m _ _ => assert (wp m w1 (fun _ w2 => at_ w2 (moved o1) /\ reads w2 = reads w1 /\ datas w2 = datas w1 /\ io_tick w2 = io_tick w1)) as Hmove end.
  { unfold moved in *. destruct (__iofd_better_move_buffer o1); [|by apply wp_ret]. eapply mod_f_wp; [apply A1|]. split; [by eapply at_set|done]. }
  eapply wp_mono; [exact Hmove|]. cbn beta. clear Hmove. intros _ w2 (A2 & R2 & D2 & Ht2). assert (f_conf (moved o1) = c) as C2 by (unfold moved; by destruct (__iofd_better_move_buffer o1)).
  apply wp_bind. eapply get_f_wp; [apply A2|]. apply wp_bind. rewrite C2 at 1. rewrite Hrd. eapply wp_mono; [eapply cb_wp, A2|]. cbn beta. intros r w3 (Er & Ht3 & D3 & R3 & o3 & A3 & (S1 & S2 & S3 & S4 & S5 & S6)).
  apply wp_bind. eapply mod_f_wp; [apply A3|]. set (o4 := set_fflags (Z.lor (f_flags o3) AOSL_POLLIN) o3).
  assert (at_ (set_objs (<[f := o4]> (io_objs w3)) w3) o4) as A4 by (eapply at_set; try done; [destruct (at_bufs _ _ A3); by split|by apply arms_lor]). set (w4 := set_objs _ w3) in *.
  assert (pend o4 = pend o1) as P4 by (rewrite <-Pm; unfold pend, o4; cbn; by rewrite S2, S3, S4). assert (f_conf o4 = c) as C4 by (cbn; congruence).
  assert (reads w4 = reads w1 /\ datas w4 = datas w1) as [R4 D4] by (change (reads w3 = reads w1 /\ datas w3 = datas w1); split; congruence).
  assert (zero o4 = zero o1) as Z4 by (unfold zero, o4 in *; cbn; by rewrite zero_lor, S5).
  destruct r as [err|bs].
  - destruct (env_read w2 f _) as [r0 acts] eqn:Eread in Er. cbn [fst] in Er. subst r0. destruct (Z.eqb_spec err (- AOSL_EAGAIN)) as [->|_]; cbn [negb].
    { apply wp_ret. exists o4. split; [done|]. split; [done|]. apply HQ; try done. left. split; [done|]. eexists _, _, _. split; [|exact Eread]. pose proof (bo_window _ Bm). lia. }
    apply wp_bind. eapply wp_mono; [apply wp_conj; [eapply event_wp, A4|by apply event_ends]|]. cbn beta.
    intros _ w5 [(_ & D5 & R5 & o5 & A5 & (U1 & U2 & U3 & U4 & U5 & U6)) Hg]. apply wp_ret. exists o5. split; [done|]. split; [congruence|].
    apply HQ; [done|congruence|unfold pend in *; congruence|congruence|congruence|]. right. split; [by eapply env_read_err|]. by rewrite <-C4.
  - assert (Z.of_nat (length bs) <= buff_size c - f_tail (moved o1)) as Hlen.
    { rewrite C2 in Er. destruct (env_read w2 f (buff_size c - f_tail (moved o1))) as [r0 acts] eqn:Eread. cbn in Er. subst r0. by eapply env_read_len. }
    assert (io_tick w2 < T) as HT. { destruct (Z.lt_ge_cases (io_tick w2) T) as [|Hge]; [done|]. destruct (Hcalm w2 (buff_size (f_conf (moved o1)) - f_tail (moved o1)) Hge) as (e & acts & Hr). rewrite Hr in Er. done. }
    apply wp_bind, modw_wp, wp_bind.
    match goal with |- wp ?m _ _ => assert (wp m (io_note (EvRead f bs) w4) (fun _ w5 => exists o5, at_ w5 o5 /\ after_read bs o4 o5 /\ reads w5 = reads w4 ++ [bs] /\ datas w5 = datas w4 /\ io_tick w5 = io_tick w4)) as Hnew end.
    { assert (reads (io_note (EvRead f bs) w4) = reads w4 ++ [bs] /\ datas (io_note (EvRead f bs) w4) = datas w4) as [Rn Dn].
      { unfold reads, datas. cbn. rewrite reads_of_app, data_of_app. cbn. rewrite Z.eqb_refl, app_nil_r. done. }
      pose proof (at_note w4 o4 (EvRead f bs) A4) as A4'. pose proof (at_bufs _ _ A4) as B4. pose proof (bo_window _ B4) as W4. pose proof (bo_size _ B4) as Z5.
      rewrite C4 in W4, Z5. assert (f_tail o4 = f_tail (moved o1)) as T4 by exact S4. clearbody o4.
      destruct (bool_decide_reflect (bs = [])) as [->|Hne].
      - eapply mod_f_wp; [apply A4'|]. eexists. split; [eapply at_set; try done; [destruct B4; by split|by apply arms_lor]|]. split; [|done]. split; [done|]. rewrite app_nil_r. split; [done|]. apply zero_set.
      - eapply mod_f_wp; [apply A4'|]. eexists. split; [eapply at_set; try done; apply bufs_window; [done|lia|rewrite C4; lia|apply splice_length; lia]|].
        split; [|done]. split; [done|]. split; [unfold pend; cbn [f_data f_tail f_buf set_fbuf]; apply slice_splice; lia|]. by rewrite decide_False. }
    eapply wp_mono; [exact Hnew|]. cbn beta. intros _ w5 (o5 & A5 & (U1 & U2 & U3) & R5 & D5 & Ht5).
    apply (IH w5 o5 A5).
    + eapply (HI1 w5 o5 bs A5); [|congruence|congruence]. split; [congruence|]. split; [congruence|]. rewrite U3. destruct (decide _); [done|]. exact Z4.
    + congruence.
    + assert (io_tick w4 = io_tick w3) by done. lia.
Qed.

End Read.
