(* ===== verification/IofdStream.v ===== *)
(** * Watched descriptors: what the reader gives out *)
From S2P Require Import Prelude Refs Iofd IofdInv IofdKeep IofdRead.
#[local] Open Scope aosl_scope.

(** ** A stream cut into packets *)

Section Cut.
Context (chk : list Z -> Z).

(** The reference: packets from the front while the check finds one. *)
Fixpoint cut (n : nat) (s : list Z) : list (list Z) * list Z :=
  match n, s with
  | O, _ | _, [] => ([], s)
  | S n, _ =>
    let k := chk s in
    if (0 <? k) && (k <=? Z.of_nat (length s))
    then let '(ps, rest) := cut n (drop (Z.to_nat k) s) in (take (Z.to_nat k) s :: ps, rest)
    else ([], s)
  end.
Definition frames (s : list Z) : list (list Z) * list Z := cut (length s) s.

(** A packet that is found is found whatever comes after it. *)
Definition stable : Prop := forall d, 0 < chk d <= Z.of_nat (length d) -> forall t, chk (take (Z.to_nat (chk d)) d ++ t) = chk d.
Definition good (p : list Z) : Prop := p <> [] /\ forall t, chk (p ++ t) = Z.of_nat (length p).

Lemma cut_good ps : Forall good ps -> forall n rest, (length (concat ps ++ rest) <= n)%nat ->
  exists m, (length rest <= m)%nat /\ cut n (concat ps ++ rest) = let '(qs, r) := cut m rest in (ps ++ qs, r).
Proof.
  induction 1 as [|p ps [Hp Hg] _ IH]; intros n rest Hn; [exists n; split; [done|]; cbn; by destruct (cut n rest)|]. cbn [concat] in *.
  rewrite <-app_assoc in *. destruct p as [|b p]; [done|]. destruct n as [|n]; [cbn in Hn; lia|]. cbn [app]. cbn [cut].
  change (b :: p ++ concat ps ++ rest) with ((b :: p) ++ concat ps ++ rest). rewrite Hg. destruct (Z.ltb_spec 0 (Z.of_nat (length (b :: p)))); [|cbn in *; lia].
  rewrite length_app. destruct (Z.leb_spec (Z.of_nat (length (b :: p))) (Z.of_nat (length (b :: p) + length (concat ps ++ rest)))); [|lia]. cbn [andb].
  rewrite Nat2Z.id, take_app_length, drop_app_length. rewrite length_app in Hn. cbn [length] in Hn. destruct (IH n rest ltac:(lia)) as (m & Hm & ->).
  exists m. split; [done|]. by destruct (cut m rest).
Qed.
Lemma frames_good ps rest : Forall good ps ->
  ps `prefix_of` (frames (concat ps ++ rest)).1 /\ (rest = [] \/ chk rest = 0 -> frames (concat ps ++ rest) = (ps, rest)).
Proof.
  intros Hps. unfold frames. destruct (cut_good ps Hps _ rest (le_n _)) as (m & Hm & ->). split; [destruct (cut m rest) as [qs r]; by exists qs|].
  intros Hr. assert (cut m rest = ([], rest)) as ->; [|by rewrite app_nil_r]. destruct rest as [|b rest]; [by destruct m|]. destruct Hr as [?|Hr]; [done|]. destruct m; [done|].
  cbn [cut]. by rewrite Hr.
Qed.
End Cut.

Section Stream.
Context `{IoEnv, Unheard} (F : list Z) (q f : Z) (Hf : f ∈ F).
Abbreviation at_ := (IofdRead.at_ F f).
Abbreviation datas := (IofdRead.datas f).
Abbreviation reads := (IofdRead.reads f).

(** Reading is safe, and ends when nothing more comes. *)
Lemma read_data_safe T fuel w o : calm f T -> c_read (f_conf o) = true -> at_ w o -> buff_size (f_conf o) + 1 + Z.max 0 (T - io_tick w) < Z.of_nat fuel ->
  wp (__iofd_read_data fuel q f) w (fun _ w' => ioinv F w').
Proof.
  intros Hcalm Hrd Ha Hfuel. eapply wp_mono; [eapply (read_loop_wp F q f Hf T (fun _ _ => True) (fun _ _ _ => True) (f_conf o) Hcalm Hrd); try done|].
  - intros n w1 o1 A1 _ C1 Hn. eapply wp_mono; [eapply (read_packets_wp F q f Hf (fun _ _ => True) (fun _ _ _ => True)); try done|].
    { by intros ? ? [] ? ? _ _ _ _. }
    cbn beta. intros r w2 (o2 & A2 & Ht & C2 & Hr & _). exists o2. split; [done|]. split; [done|]. split; [congruence|]. by destruct r.
  - cbn beta. intros _ w' (o' & [I' _] & _). done.
Qed.

(** The pending bytes when the window has moved. *)
Lemma pend_drop o o' k : bufs_ok o -> f_buf o' = f_buf o -> f_tail o' = f_tail o -> f_data o' = f_data o + k -> 0 <= k <= f_tail o - f_data o ->
  pend o' = drop (Z.to_nat k) (pend o).
Proof. intros B E1 E2 E3 Hk. unfold pend. rewrite E1, E2, E3. apply slice_drop; [|done]. pose proof (bo_window _ B). lia. Qed.

(** *** Streams *)

Section Packets.
Context (chk : list Z -> Z) (Hchk : forall w d, fst (env_chk w f d) = chk d) (Hst : stable chk).
Context (ws : ioworld) (os : iofd) (Hc : c_chk (f_conf os) = true) (Hp : c_post (f_conf os) = false).

Definition settled (o : iofd) : Prop := pend o = [] \/ chk (pend o) = 0.
(** [ps] has been given out and [rest] is left of what there was and has come. *)
Definition so_far (w : ioworld) (ps eof : list (list Z)) (rest : list Z) : Prop :=
  exists rs, reads w = reads ws ++ rs /\ datas w = datas ws ++ ps ++ eof /\ pend os ++ concat rs = concat ps ++ rest /\ Forall (good chk) ps.
Definition before (w : ioworld) (o : iofd) : Prop := f_conf o = f_conf os /\ (zero o = true -> settled o) /\ exists ps, so_far w ps [] (pend o).
Definition after (e : Z) (w : ioworld) (o : iofd) : Prop :=
  exists ps eof rest, so_far w ps eof rest /\ (eof = [] \/ eof = [[]]) /\ (e = 0 -> aosl_fd_invalid (f_fd o) = false -> rest = pend o /\ settled o).

Lemma so_far_same w w' ps eof rest : reads w' = reads w -> datas w' = datas w -> so_far w ps eof rest -> so_far w' ps eof rest.
Proof. intros E1 E2 (rs & ?). exists rs. by rewrite E1, E2. Qed.

Lemma cut_chk w o : at_ w o -> f_conf o = f_conf os ->
  (pend o = [] /\ cut_at f w o = 0 /\ f_tail o - f_data o = 0) \/ (pend o <> [] /\ cut_at f w o = chk (pend o) /\ 0 < f_tail o - f_data o).
Proof.
  intros Ha C. pose proof (pend_length o (at_bufs F f w o Ha)) as Hl. unfold cut_at. rewrite C, Hc. cbn [andb]. destruct (Z.ltb_spec 0 (f_tail o - f_data o)).
  - right. rewrite Hchk. split; [|done]. intros E. rewrite E in Hl. cbn in Hl. lia.
  - left. assert (f_tail o - f_data o = 0) as E0 by lia. split; [|done]. destruct (pend o); [done|cbn in Hl; lia].
Qed.

(** The packet that was found. *)
Lemma packet_found w o k : at_ w o -> f_conf o = f_conf os -> k = cut_at f w o -> 0 < k <= f_tail o - f_data o ->
  good chk (take (Z.to_nat k) (pend o)) /\ pend o = take (Z.to_nat k) (pend o) ++ drop (Z.to_nat k) (pend o).
Proof.
  intros Ha C -> Hk. pose proof (pend_length o (at_bufs F f w o Ha)) as Hl. split; [|by rewrite take_drop].
  destruct (cut_chk w o Ha C) as [(_ & E & _)|(Hne & E & _)]; [lia|]. rewrite E in *. split.
  - destruct (pend o); [done|]. destruct (Z.to_nat (chk (z :: l))) eqn:En; [lia|]. done.
  - intros t. rewrite length_take_le by lia. rewrite Z2Nat.id by lia. apply Hst. lia.
Qed.
Lemma so_far_packet w w' ps p rest : so_far w ps [] (p ++ rest) -> good chk p -> reads w' = reads w -> datas w' = datas w ++ [p] -> so_far w' (ps ++ [p]) [] rest.
Proof.
  intros (rs & R & D & E & G) Hg E1 E2. exists rs. rewrite E1, E2. split; [done|]. split; [rewrite D, !app_nil_r, app_assoc; done|].
  split; [rewrite E, concat_app, <-app_assoc; cbn; by rewrite app_nil_r|]. apply Forall_app. split; [done|]. by apply Forall_singleton.
Qed.

Lemma stream_round w o r w' o' : at_ w o -> before w o -> at_ w' o' -> round f w o r w' o' ->
  match r with
  | Next => before w' o'
  | Again => (exists ps, so_far w' ps [] (pend o')) /\ settled o' /\ zero o' = false
  | Return e => after e w' o'
  end.
Proof.
  intros Ha (C & Hz & ps & Hps) A' (C' & T' & R' & S' & P'). rewrite C in P'. destruct (P' Hp) as (B' & ds & D' & G'). clear P'. pose proof (at_bufs F f w o Ha) as Bo.
  pose proof (cut_chk w o Ha C) as Hcut. set (k := cut_at f w o) in *. assert (zero o = true -> k = 0) as Hzk.
  { intros Z. destruct Hcut as [(_ & -> & _)|(Hne & -> & _)]; [done|]. by destruct (Hz Z). }
  destruct r as [| |e].
  - destruct S' as (Hk & D1 & Z1 & Z2). cbn in G'. subst ds. destruct (packet_found w o k Ha C eq_refl Hk) as [Hg Hsplit].
    split; [congruence|]. split; [congruence|]. exists (ps ++ [take (Z.to_nat k) (pend o)]). rewrite (pend_drop o o' k Bo B' T' D1) by lia. rewrite Hsplit in Hps. by eapply so_far_packet.
  - destruct S' as (Z1 & [(Z0 & Hk & D1)|(_ & Hno & _)]); [|congruence]. cbn in G'. rewrite Z0 in G'. subst ds. rewrite app_nil_r in D'.
    assert (pend o' = pend o) as Ep by (unfold pend; congruence). rewrite Ep. split; [exists ps; by eapply so_far_same|]. split; [|done]. unfold settled. rewrite Ep.
    destruct Hcut as [(E & _)|(_ & E & _)]; [by left|right; congruence].
  - destruct G' as [[->|(Hk & Hk0 & ->)] Gv].
    + rewrite app_nil_r in D'. exists ps, [], (pend o). split; [by eapply so_far_same|]. split; [by left|]. intros E0 V0. by specialize (Gv E0 V0).
    + destruct (zero o) eqn:Z0.
      * rewrite (Hzk eq_refl) in *. cbn in D'. exists ps, [[]], (pend o). split; [|split; [by right|]].
        -- destruct Hps as (rs & ? & D & ? & ?). exists rs. rewrite R', D', D, !app_nil_r, app_assoc. done.
        -- intros E0 V0. destruct (S' E0) as [?|(_ & _ & _ & _ & D1)]; [congruence|]. assert (pend o' = pend o) as Ep by (unfold pend; rewrite B', T', D1; f_equal; lia).
           split; [done|]. unfold settled. rewrite Ep. by apply Hz.
      * destruct Hk0 as [Hk0|?]; [|done]. destruct (packet_found w o k Ha C eq_refl ltac:(lia)) as [Hg Hsplit]. rewrite Hsplit in Hps.
        exists (ps ++ [take (Z.to_nat k) (pend o)]), [], (drop (Z.to_nat k) (pend o)). split; [by eapply so_far_packet|]. split; [by left|].
        intros E0 V0. destruct (S' E0) as [?|(? & _)]; congruence.
Qed.

Lemma stream_wp T fuel : calm f T -> c_read (f_conf os) = true -> at_ ws os -> zero os = false -> buff_size (f_conf os) + 1 + Z.max 0 (T - io_tick ws) < Z.of_nat fuel ->
  wp (__iofd_read_data fuel q f) ws (fun e w' => exists o', at_ w' o' /\ after e w' o').
Proof.
  intros Hcalm Hrd Ha Hz Hfuel. eapply wp_mono; [eapply (read_loop_wp F q f Hf T before after (f_conf os) Hcalm Hrd); try done|].
  - intros n w1 o1 A1 B1 C1 Hn. eapply wp_mono; [eapply (read_packets_wp F q f Hf before (fun r w' o' => match r with
      | Again => (exists ps, so_far w' ps [] (pend o')) /\ settled o' /\ zero o' = false | Return e => after e w' o' | Next => False end)); try done|].
    { intros w o r w' o' A B A' R. pose proof (stream_round w o r w' o' A B A' R). by destruct r. }
    cbn beta. intros r w2 (o2 & A2 & Ht & C2 & Hr & _ & Q2). exists o2. split; [done|]. split; [done|]. split; [congruence|]. destruct r as [| |e]; [done| |done].
    destruct Q2 as ((ps & Hps) & Hset & Z2). split.
    + intros w3 o3 A3 C3 P3 R3 D3 e _. exists ps, [], (pend o2). split; [by eapply so_far_same|]. split; [by left|]. intros _ _. unfold settled in *. by rewrite P3.
    + intros w3 o3 bs A3 (C3 & P3 & Z3) R3 D3. split; [congruence|]. split.
      * intros Zt. rewrite Z3 in Zt. destruct (decide (bs = [])) as [->|]; [|congruence]. unfold settled in *. rewrite P3, app_nil_r. done.
      * exists ps. destruct Hps as (rs & R & D & E & G). exists (rs ++ [bs]). rewrite R3, D3, R, D, P3. split; [by rewrite app_assoc|]. split; [done|].
        split; [|done]. rewrite concat_app, app_assoc, E. cbn. by rewrite app_nil_r, app_assoc.
  - split; [done|]. split; [congruence|]. exists [], []. rewrite !app_nil_r. split; [done|]. split; [done|]. split; [done|]. constructor.
  - cbn beta. intros e w' (o' & A' & _ & Q'). by exists o'.
Qed.

End Packets.
(** *** Datagrams *)

Section Datagrams.
Context (ws : ioworld) (os : iofd) (Hc : c_chk (f_conf os) = false) (Hp : c_post (f_conf os) = false).

(** All that came has been given out, or all but the last. *)
Definition dg_before (w : ioworld) (o : iofd) : Prop := f_conf o = f_conf os /\ exists rs ps, reads w = reads ws ++ rs /\ datas w = datas ws ++ ps /\
  ((zero o = false /\ pend o = [] /\ rs = ps) \/ (rs = ps ++ [pend o] /\ (zero o = true <-> pend o = []))).
Definition dg_after (e : Z) (w : ioworld) (o : iofd) : Prop :=
  exists rs ps, reads w = reads ws ++ rs /\ datas w = datas ws ++ ps /\ ps `prefix_of` rs /\ (e = 0 -> aosl_fd_invalid (f_fd o) = false -> rs = ps).
Definition dg_done (w : ioworld) (o : iofd) : Prop :=
  zero o = false /\ pend o = [] /\ exists rs, reads w = reads ws ++ rs /\ datas w = datas ws ++ rs.

Lemma dg_round w o r w' o' : at_ w o -> dg_before w o -> at_ w' o' -> round f w o r w' o' ->
  match r with Next => dg_before w' o' | Again => dg_done w' o' | Return e => dg_after e w' o' end.
Proof.
  intros Ha (C & rs & ps & R & D & Hcase) A' (C' & T' & R' & S' & P'). rewrite C in P'. destruct (P' Hp) as (B' & ds & D' & G'). clear P'.
  pose proof (at_bufs F f w o Ha) as Bo. pose proof (pend_length o Bo) as Hl. assert (cut_at f w o = f_tail o - f_data o) as Ek by (unfold cut_at; by rewrite C, Hc). rewrite Ek in *.
  assert (take (Z.to_nat (f_tail o - f_data o)) (pend o) = pend o) as Etake by (apply take_ge; lia). destruct r as [| |e].
  - destruct S' as (Hk & D1 & Z1 & Z2). cbn in G'. rewrite Etake in G'. subst ds. assert (pend o <> []) as Hne by (intros E; rewrite E in Hl; cbn in Hl; lia).
    destruct Hcase as [(_ & ? & _)|(-> & _)]; [done|]. split; [congruence|]. exists (ps ++ [pend o]), (ps ++ [pend o]). rewrite R', D', R, D, <-?app_assoc. split; [done|]. split; [done|]. left.
    split; [done|]. split; [|done]. rewrite (pend_drop o o' _ Bo B' T' D1) by lia. apply drop_ge. lia.
  - destruct S' as (Z1 & [(Z0 & Hk & D1)|(Z0 & _ & D1)]); cbn in G'; rewrite Z0 in G'; subst ds.
    + destruct Hcase as [(_ & E & ->)|(_ & Hiff)]; [|rewrite Z0 in Hiff; destruct (pend o); [by pose proof (proj2 Hiff eq_refl)|cbn in Hl; lia]].
      split; [done|]. split; [unfold pend in *; by rewrite B', T', D1|]. exists ps. by rewrite R', D', app_nil_r.
    + destruct Hcase as [(? & _)|(-> & _)]; [congruence|]. split; [done|]. split; [unfold pend; rewrite T', D1; unfold slice; by rewrite Z.sub_diag|].
      exists (ps ++ [pend o]). by rewrite R', D', R, D, <-?app_assoc.
  - destruct G' as [[->|(Hk & Hk0 & ->)] Gv].
    + exists rs, ps. rewrite R', D', app_nil_r. split; [done|]. split; [done|]. split; [destruct Hcase as [(_ & _ & ->)|(-> & _)]; [done|by apply prefix_app_r]|].
      intros E0 V0. by specialize (Gv E0 V0).
    + rewrite Etake in *. destruct Hcase as [(Z0 & E & _)|(-> & _)]; [rewrite E in Hl; cbn in Hl; destruct Hk0; [lia|congruence]|].
      exists (ps ++ [pend o]), (ps ++ [pend o]). rewrite R', D', R, D, <-?app_assoc. done.
Qed.

Lemma datagram_wp T fuel : calm f T -> c_read (f_conf os) = true -> at_ ws os -> zero os = false -> pend os = [] -> buff_size (f_conf os) + 1 + Z.max 0 (T - io_tick ws) < Z.of_nat fuel ->
  wp (__iofd_read_data fuel q f) ws (fun e w' => exists o', at_ w' o' /\ dg_after e w' o').
Proof.
  intros Hcalm Hrd Ha Hz Hpe Hfuel. eapply wp_mono; [eapply (read_loop_wp F q f Hf T dg_before dg_after (f_conf os) Hcalm Hrd); try done|].
  - intros n w1 o1 A1 B1 C1 Hn. eapply wp_mono; [eapply (read_packets_wp F q f Hf dg_before (fun r w' o' => match r with Again => dg_done w' o' | Return e => dg_after e w' o' | Next => False end)); try done|].
    { intros w o r w' o' A B A' R. pose proof (dg_round w o r w' o' A B A' R). by destruct r. }
    cbn beta. intros r w2 (o2 & A2 & Ht & C2 & Hr & _ & Q2). exists o2. split; [done|]. split; [done|]. split; [congruence|]. destruct r as [| |e]; [done| |done].
    destruct Q2 as (Z2 & P2 & rs & R & D). split.
    + intros w3 o3 A3 C3 P3 R3 D3 e _. exists rs, rs. by rewrite R3, D3.
    + intros w3 o3 bs A3 (C3 & P3 & Z3) R3 D3. split; [congruence|]. exists (rs ++ [bs]), rs. rewrite R3, D3, R, D, app_assoc. split; [done|]. split; [done|]. right.
      rewrite P2 in P3. cbn in P3. rewrite P3, Z3. split; [done|]. destruct (decide (bs = [])); [done|]. split; [congruence|done].
  - split; [done|]. exists [], []. rewrite !app_nil_r. split; [done|]. split; [done|]. by left.
  - cbn beta. intros e w' (o' & A' & _ & Q'). by exists o'.
Qed.

End Datagrams.
End Stream.
