(* ===== verification/IofdLife.v ===== *)
(** * Watched descriptors: the queue's thread, and the lives of objects *)
From S2P Require Import Prelude Refs Iofd IofdInv IofdKeep IofdRead IofdStream.
#[local] Open Scope aosl_scope.

Lemma J_of `{IoEnv, Unheard} F w : ioinv F w -> J [] w F w.
Proof. intros I. split; [by rewrite app_nil_r|]. split; [by intros g p ?%elem_of_nil|]. split; [exists []; by rewrite app_nil_r|lia]. Qed.
Lemma inv_of `{IoEnv, Unheard} F w w' : J [] w F w' -> ioinv F w'.
Proof. intros [I _]. by rewrite app_nil_r in I. Qed.

(** ** Writing what is queued *)

Section Flush.
Context `{IoEnv, Unheard} (F : list Z) (q f : Z) (Hf : f ∈ F).
Abbreviation at_ := (IofdRead.at_ F f).

(** After the time [T] nothing more can be written. *)
Definition calm_write (T : Z) : Prop := forall w bs, T <= io_tick w -> fst (env_write w f bs) < 0.

Lemma bufs_head o rest l b : bufs_ok o -> f_wq o = b :: l -> (length rest <= length (wb_bytes b))%nat -> bufs_ok (set_fwq (MkWb rest (wb_size b) (wb_extra b) :: l) (f_wlen o) o).
Proof.
  intros [B1 B2 B3 [B4 B5] B6] E Hr. rewrite E in B4, B6. split; try done; cbn in *. apply Forall_cons in B6 as [Hb Hl]. constructor; [cbn; lia|done].
Qed.
Lemma bufs_tail o : bufs_ok o -> bufs_ok (w_queue_remove_head o).
Proof.
  intros [B1 B2 B3 [B4 B5] B6]. unfold w_queue_remove_head. destruct (f_wq o) as [|b l] eqn:E; [split; rewrite ?E; done|]. apply Forall_cons in B6 as [Hb Hl]. split; try done; cbn in *. lia.
Qed.

Lemma arms_head o b b' l n : f_wq o = b :: l -> arms o (set_fwq (b' :: l) n o).
Proof. intros E. split; [done|]. split; [|intros Hfu Hl; destruct (Hfu Hl) as [? [?|?]]; [split; [done|by left]|congruence]]. intros [?|[?|[?|[? ?]]]]; [by left|right; by left|do 2 right; by left|congruence]. Qed.
Lemma arms_tail o : arms o (w_queue_remove_head o).
Proof. unfold w_queue_remove_head. destruct (f_wq o) eqn:E; [done|]. split; [done|]. split; [|intros Hfu Hl; destruct (Hfu Hl) as [? [?|?]]; [split; [done|by left]|congruence]]. intros [?|[?|[?|[? ?]]]]; [by left|right; by left|do 2 right; by left|congruence]. Qed.

(** The timer is killed. *)
Lemma at_timer w o o' : at_ w o -> f_usage o' = f_usage o -> f_conf o' = f_conf o -> f_fd o' = f_fd o -> f_timer o' = AOSL_MPQ_TIMER_INVALID -> bufs_ok o' -> arms o o' ->
  at_ (set_objs (<[f := o']> (io_objs w)) w) o'.
Proof.
  intros [I E] Hu Hc Hd Ht Hb Har. split; [|cbn; by rewrite lookup_insert_eq]. apply (inv_of F w). eapply (J_upd [] w F w f o); try done; [by apply J_of|by intros ?%elem_of_nil|by left|right; by left].
Qed.

Lemma can_write w o : at_ w o -> level || c_write (f_conf o) = true -> f_wq o <> [] -> c_write (f_conf o) = true.
Proof. intros [I E] Hw Hq. destruct level eqn:Hl; [|done]. by destruct (oi_full _ _ I f o E Hl) as [_ [?|?]]. Qed.

Lemma write_after_safe w o node l err again (Q : Z -> ioworld -> Prop) : at_ w o -> f_wq o = node :: l ->
  (forall e w' o', at_ w' o' -> f_conf o' = f_conf o -> (c_q (f_conf o) = q -> e < 0 -> forall fd, attached_fds w' !! fd <> Some f) -> Q e w') ->
  (0 <= err -> forall w' o', at_ w' o' -> f_conf o' = f_conf o -> io_tick w' = io_tick w -> wp again w' Q) ->
  wp (write_after q f node err again) w Q.
Proof.
  intros Ha Eq HQ Hagain. unfold write_after. destruct (Z.ltb_spec err 0).
  { destruct (negb _); [|apply wp_ret; eapply HQ; [done|done|lia]]. apply wp_bind. destruct (decide (c_q (f_conf o) = q)) as [Hq|Hq].
    - eapply wp_mono; [apply wp_conj; [eapply (event_wp F q f Hf); eassumption|by eapply (event_gone F q f Hf)]|]. cbn beta. intros _ w3 [(_ & _ & _ & o3 & A3 & (C3 & _)) Hg]. apply wp_ret. by eapply HQ.
    - eapply wp_mono; [eapply (event_wp F q f Hf); eassumption|]. cbn beta. intros _ w3 (_ & _ & _ & o3 & A3 & (C3 & _)). apply wp_ret. by eapply HQ. }
  set (rest := drop (Z.to_nat err) (wb_bytes node)). apply wp_bind. eapply mod_f_wp; [apply Ha|]. rewrite Eq. set (o3 := set_fwq _ _ o).
  assert (at_ (set_objs (<[f := o3]> (io_objs w)) w) o3) as A3.
  { eapply (at_set F f _ o); try done; [|eapply arms_head; exact Eq]. eapply bufs_head; [by eapply at_bufs|exact Eq|unfold rest; rewrite length_drop; lia]. }
  set (w3 := set_objs _ w) in *. destruct (bool_decide _); [|apply wp_ret; eapply HQ; [done|done|lia]]. apply wp_bind. eapply mod_f_wp; [apply A3|].
  apply (Hagain ltac:(lia) _ (w_queue_remove_head o3)); [|done|done]. eapply (at_set F f _ o3); try done; [|apply arms_tail]. apply bufs_tail. by eapply at_bufs.
Qed.

Lemma write_loop_safe T fuel : calm_write T -> forall w o, at_ w o -> level || c_write (f_conf o) = true -> Z.max 0 (T - io_tick w) < Z.of_nat fuel ->
  wp (write_loop fuel q f) w (fun r w' => exists o', at_ w' o' /\ f_conf o' = f_conf o /\ (c_q (f_conf o) = q -> r < 0 -> forall fd, attached_fds w' !! fd <> Some f)).
Proof.
  intros Hcalm. induction fuel as [|fuel IH]; intros w o Ha Hwr Hfuel; [lia|]. cbn [write_loop]. apply wp_bind. eapply get_f_wp; [apply Ha|]. destruct (f_wq o) as [|node l] eqn:Ewq.
  - apply wp_bind. destruct (c_event _); [|apply wp_ret, wp_ret; exists o; split; [done|]; split; [done|lia]]. apply wp_bind, modw_wp. eapply wp_mono; [eapply (cb_wp F q f Hf), at_note, Ha|].
    cbn beta. intros _ w1 (_ & _ & _ & _ & o1 & A1 & S1 & _). apply wp_ret. exists o1. split; [done|]. split; [done|lia].
  - apply wp_bind. rewrite (can_write w o Ha Hwr) by congruence. eapply wp_mono; [by eapply (cb_wp F q f Hf)|]. cbn beta. intros err w1 (-> & Ht & _ & _ & o1 & A1 & (C1 & _ & _ & _ & _ & (extra & Ewq1))). set (err := fst (env_write w f (wb_bytes node))) in *.
    apply wp_bind, modw_wp, wp_bind. eapply mod_f_wp; [apply A1|].
    assert (at_ (set_objs (<[f := set_fflags (Z.lor (f_flags o1) AOSL_POLLOUT) o1]> (io_objs (io_note (EvWrite (f_fd o) (take (Z.to_nat err) (wb_bytes node))) w1)))
      (io_note (EvWrite (f_fd o) (take (Z.to_nat err) (wb_bytes node))) w1)) (set_fflags (Z.lor (f_flags o1) AOSL_POLLOUT) o1)) as A2.
    { eapply (at_set F f _ o1); try done; [by apply at_note|destruct (at_bufs _ _ _ _ A1); by split|by apply arms_lor]. }
    set (o2 := set_fflags _ o1) in *. set (w2 := set_objs _ _) in *. assert (io_tick w2 = io_tick w1) as Ht2 by done.
    assert (f_conf o2 = f_conf o) as C2 by exact C1. eapply (write_after_safe w2 o2 node (l ++ extra)); [done|cbn; by rewrite Ewq1, Ewq| |].
    { intros e w3 o3 A3 C3 Hg. exists o3. rewrite C2 in Hg. split; [done|]. split; [congruence|done]. }
    intros He w3 o3 A3 C3 Ht3. assert (io_tick w < T) as HT by (destruct (Z.lt_ge_cases (io_tick w) T) as [|Hge]; [done|]; pose proof (Hcalm w (wb_bytes node) Hge); unfold err in *; lia).
    rewrite <-C2, <-C3 in Hwr |- *. apply (IH _ o3 A3 Hwr). lia.
Qed.

Lemma write_data_safe T fuel w o : calm_write T -> at_ w o -> level || c_write (f_conf o) = true -> Z.max 0 T < Z.of_nat fuel ->
  wp (__iofd_write_data fuel q f) w (fun r w' => exists o', at_ w' o' /\ f_conf o' = f_conf o /\ (c_q (f_conf o) = q -> r < 0 -> forall fd, attached_fds w' !! fd <> Some f)).
Proof.
  intros Hcalm Ha Hwr Hfuel. unfold __iofd_write_data. apply wp_bind. eapply get_f_wp; [apply Ha|]. apply wp_bind.
  match goal with |- wp ?m _ _ => assert (wp m w (fun _ w' => exists o', at_ w' o' /\ io_tick w' = io_tick w /\ f_conf o' = f_conf o)) as Hm end.
  { destruct (has_flag _ _); [|apply wp_ret; by exists o]. eapply mod_f_wp; [apply Ha|]. exists (set_ftimer AOSL_MPQ_TIMER_INVALID (set_fflags (Z.ldiff (f_flags o) IOFD_NOT_READY) o)). split; [|done]. eapply at_timer; [exact Ha|done|done|done|done| |].
    - destruct (at_bufs _ _ _ _ Ha). by split.
    - by apply (arms_ldiff IOFD_NOT_READY o); [..|right]. }
  eapply wp_mono; [exact Hm|]. cbn beta. intros _ w1 (o1 & A1 & Ht & C1). rewrite <-C1 in Hwr |- *. eapply write_loop_safe; [done|exact A1|done|]. pose proof (oi_tick _ _ (proj1 Ha)). lia.
Qed.

End Flush.

(** ** The queue's thread *)

Section Thread.
Context `{IoEnv, Unheard} (T : Z).
Definition calm_all : Prop := forall f, calm f T /\ calm_write f T.
Definition enough (fuel : nat) : Prop := 2 * FD_MAX_PACKET_SIZE_MAX + 2 + Z.max 0 T < Z.of_nat fuel.

Lemma enough_read fuel f F w o : enough fuel -> IofdRead.at_ F f w o -> buff_size (f_conf o) + 1 + Z.max 0 (T - io_tick w) < Z.of_nat fuel.
Proof.
  intros He [I E]. pose proof (oi_tick _ _ I). destruct (oi_bufs _ _ I f o E) as [_ _ [B _] _ _]. unfold enough, buff_size in *. destruct (c_chk _); lia.
Qed.

(** The object of a descriptor has the functions for the events. *)
Definition has_fns (w : ioworld) (fd ev : Z) : Prop := forall f o, attached_fds w !! fd = Some f -> io_objs w !! f = Some o ->
  (has_flag ev AOSL_POLLIN = true -> c_read (f_conf o) = true) /\ (has_flag ev AOSL_POLLOUT = true -> level || c_write (f_conf o) = true).

Lemma dispatch_safe fuel q fd ev w : calm_all -> enough fuel -> ioinv [] w -> has_fns w fd ev -> wp (dispatch_event fuel q fd ev) w (fun _ w' => ioinv [] w').
Proof.
  intros Hcalm He I Hfns. unfold dispatch_event. apply wp_bind. eapply wp_mono; [eapply wp_conj; [eapply fget_wp, (J_of [] w I)|by apply (fget_same [] w fd)]|]. cbn beta. intros f w1 [[(-> & J1 & _)|(Hf & J1 & Et)] Hsame].
  { apply wp_ret. by eapply inv_of. }
  destruct (Z.eqb_spec f 0); [lia|]. apply inv_of in J1. apply wp_bind. destruct (Hcalm f) as [Hcr Hcw]. assert (f ∈ [f]) as Hin by left.
  assert (forall w2 err, ioinv [f] w2 -> wp (f_event_and_close q f err) w2 (fun _ w' => ioinv [f] w')) as Hev.
  { intros w2 err I2. destruct (at_get [f] f Hin w2 I2) as (o2 & A2). eapply wp_mono; [eapply (event_wp [f] q f Hin); exact A2|]. cbn beta. intros _ w3 (_ & _ & _ & o3 & [I3 _] & _). done. }
  destruct (at_get [f] f Hin w1 J1) as (o1 & A1). destruct (Hsame o1 Hf (proj2 A1)) as (o & _ & Eo & Ec). destruct (Hfns f o Et Eo) as [Hrd Hwr]. rewrite <-Ec in Hrd, Hwr.
  match goal with |- wp ?m _ ?Q => assert (wp m w1 (fun _ w' => ioinv [f] w')) as Hm end.
  { destruct (has_flag ev AOSL_POLLERR); [by apply Hev|]. apply wp_bind.
    match goal with |- wp ?m _ _ => assert (wp m w1 (fun _ w' => exists o', IofdRead.at_ [f] f w' o' /\ f_conf o' = f_conf o1)) as Hw end.
    { destruct (has_flag ev AOSL_POLLOUT); [|apply wp_ret; by exists o1]. eapply wp_mono; [eapply (write_data_safe [f] q f Hin); [done|exact A1|by apply Hwr|]|intros r w' (o' & ? & ? & _); by exists o']. unfold enough in He. assert (0 <= FD_MAX_PACKET_SIZE_MAX) by done. lia. }
    eapply wp_mono; [exact Hw|]. cbn beta. intros e1 w2 (o2 & A2 & C2). rewrite <-C2 in Hrd. pose proof (proj1 A2) as I2. destruct (e1 <? 0); [by apply wp_ret|]. apply wp_bind.
    match goal with |- wp ?m _ _ => assert (wp m w2 (fun _ w' => ioinv [f] w')) as Hr end.
    { destruct (has_flag ev AOSL_POLLIN); [|by apply wp_ret]. eapply (read_data_safe [f] q f Hin); [done|by apply Hrd|exact A2|]. by eapply enough_read. }
    eapply wp_mono; [exact Hr|]. cbn beta. intros e2 w3 I3. destruct (e2 <? 0); [by apply wp_ret|]. destruct (has_flag ev AOSL_POLLHUP); [by apply Hev|by apply wp_ret]. }
  eapply wp_mono; [exact Hm|]. cbn beta. intros _ w2 I2. eapply wp_mono; [eapply (fput_wp [] w2 []); by apply J_of|]. cbn beta. intros _ w3 (J3 & _). by eapply inv_of.
Qed.

Lemma timeout_safe q f o w : ioinv [] w -> io_objs w !! f = Some o -> wp (__iofd_not_ready_timeout q f) w (fun _ w' => ioinv [] w').
Proof.
  intros I E. unfold __iofd_not_ready_timeout. apply wp_bind. eapply wp_mono; [eapply (__fget_wp [] w []); [by apply J_of|exact E]|]. cbn beta. intros _ w1 (_ & J1). apply inv_of in J1.
  assert (f ∈ [f]) as Hin by left. destruct (at_get [f] f Hin w1 J1) as (o1 & A1). apply wp_bind. eapply get_f_wp; [apply A1|]. apply wp_bind.
  match goal with |- wp ?m _ _ => assert (wp m w1 (fun _ w' => ioinv [f] w')) as Hm end.
  { destruct (has_flag _ _); [|by apply wp_ret]. eapply wp_mono; [eapply (event_wp [f] q f Hin); exact A1|]. cbn beta. intros _ w3 (_ & _ & _ & o3 & [I3 _] & _). done. }
  eapply wp_mono; [exact Hm|]. cbn beta. intros _ w2 I2. destruct (at_get [f] f Hin w2 I2) as (o2 & A2). apply wp_bind. eapply mod_f_wp; [apply A2|].
  assert (IofdRead.at_ [f] f (set_objs (<[f := set_ftimer AOSL_MPQ_TIMER_INVALID o2]> (io_objs w2)) w2) (set_ftimer AOSL_MPQ_TIMER_INVALID o2)) as [I3 _].
  { eapply (at_timer [f] f w2 o2); try done. destruct (at_bufs _ _ _ _ A2). by split. }
  eapply wp_mono; [eapply (fput_wp [] _ []); by apply J_of|]. cbn beta. intros _ w3 (J3 & _). by eapply inv_of.
Qed.

(** What a queue's thread does: events of the poll, the timer of a descriptor that is
    not ready, and the functions that are queued, among other threads. *)
Inductive io_op := OEvent (fd ev : Z) | OTimeout (f : Z) | OAct (a : io_act).
(** The events that the back end reports for a descriptor: errors and those it was
    registered for. *)
Definition reported (w : ioworld) (fd ev : Z) : Z :=
  let fns := match attached_fds w !! fd with Some f => match io_objs w !! f with Some o => armed_flags (set_fflags 0 o) | None => 0 end | None => 0 end in
  Z.land ev (Z.lor (AOSL_POLLERR + AOSL_POLLHUP) fns).
Lemma reported_fns w fd ev : has_fns w fd (reported w fd ev).
Proof.
  intros f o Et Eo. unfold reported. rewrite Et, Eo. unfold armed_flags. change AOSL_POLLIN with (2 ^ 0). change AOSL_POLLOUT with (2 ^ 1). rewrite !has_flag_bit, !Z.land_spec, !Z.lor_spec by lia.
  cbn [f_flags f_conf set_fflags]. destruct (c_read _), (c_write _); cbn; rewrite ?andb_false_r, ?orb_true_r; done.
Qed.
Definition run_op (fuel : nat) (q : Z) (op : io_op) : CM ioworld unit :=
  match op with
  | OEvent fd ev => do w <- cget; dispatch_event fuel q fd (reported w fd ev)
  | OTimeout f =>
    do w <- cget;
    when match io_objs w !! f with Some o => negb (f_timer o =? AOSL_MPQ_TIMER_INVALID) | None => false end then __iofd_not_ready_timeout q f
  | OAct a => run_act q a
  end.
Fixpoint run_ops (fuel : nat) (q : Z) (ops : list io_op) : CM ioworld unit :=
  match ops with [] => cret tt | op :: ops => run_op fuel q op ;; run_ops fuel q ops end.

Lemma run_op_safe fuel q op w : calm_all -> enough fuel -> ioinv [] w -> wp (run_op fuel q op) w (fun _ w' => ioinv [] w').
Proof.
  intros Hcalm He I. destruct op as [fd ev|f|a]; cbn [run_op].
  - apply wp_bind, wp_get, dispatch_safe; [done..|]. apply reported_fns.
  - apply wp_bind, wp_get. destruct (io_objs w !! f) as [o|] eqn:Eo; [|by apply wp_ret]. destruct (negb _); [by eapply timeout_safe|by apply wp_ret].
  - eapply wp_mono; [eapply (run_act_wp [] w []); by apply J_of|]. cbn beta. intros _ w' J'. by eapply inv_of.
Qed.
Lemma run_ops_safe fuel q ops : calm_all -> enough fuel -> forall w, ioinv [] w -> wp (run_ops fuel q ops) w (fun _ w' => ioinv [] w').
Proof.
  intros Hcalm He. induction ops as [|op ops IH]; intros w I; cbn [run_ops]; [by apply wp_ret|]. apply wp_bind. eapply wp_mono; [by apply run_op_safe|]. cbn beta. intros _ w1 I1. by apply IH.
Qed.

End Thread.

(** ** Closing, exactly *)

Section Close.
Context `{IoEnv, Unheard}.

(** [fput] of an object with the record [o]. *)
Definition dropped (f : Z) (o : iofd) (m : gmap Z iofd) : gmap Z iofd :=
  if f_usage o - 1 =? 0 then delete f m else <[f := set_fusage (f_usage o - 1) o]> m.
Lemma fput_eq w f o Q : io_objs w !! f = Some o -> Q tt (set_objs (dropped f o (io_objs w)) w) -> wp (fput f) w Q.
Proof. intros E HQ. unfold fput. apply wp_bind. eapply get_f_wp; [done|]. unfold dropped in HQ. destruct (_ =? 0); [by apply modw_wp|]. by eapply mod_f_wp. Qed.

Definition closed_obj (o : iofd) : iofd := set_ffd AOSL_INVALID_FD (set_ftimer AOSL_MPQ_TIMER_INVALID o).

(** A descriptor in the table is forgotten by the table and by its queue, closed
    once, and its object is freed unless somebody has a reference. *)
Lemma closef_exact w f o : io_objs w !! f = Some o -> 0 < f_usage o -> attached_fds w !! f_fd o = Some f ->
  wp (__this_q_close_f (c_q (f_conf o)) f) w (fun _ w' =>
    attached_fds w' = delete (f_fd o) (attached_fds w) /\
    io_lists w' = <[c_q (f_conf o) := drop_one f (q_list w (c_q (f_conf o)))]> (io_lists w) /\
    io_log w' = io_log w ++ [EvClose (f_fd o)] /\ io_held w' = io_held w /\
    io_objs w' = dropped f (closed_obj o) (io_objs w)).
Proof.
  intros E Hu Ht. unfold __this_q_close_f. apply wp_bind. eapply get_f_wp; [done|]. apply wp_bind. unfold __fget. apply wp_bind. eapply get_f_wp; [done|]. eapply mod_f_wp; [done|].
  apply wp_bind. unfold __q_del_f. apply wp_bind. eapply get_f_wp; [cbn; by rewrite lookup_insert_eq|]. cbn [f_conf set_fusage]. rewrite Z.eqb_refl. cbn [negb].
  apply wp_bind. eapply mod_f_wp; [cbn; by rewrite lookup_insert_eq|]. apply wp_bind, ask_wp, wp_bind. unfold remove_fd. apply wp_bind.
  eapply get_f_wp; [cbn; by rewrite lookup_insert_eq|]. apply wp_bind, wp_get, wp_bind, modw_wp, wp_ret. cbn [attached_fds set_objs io_next f_fd set_ftimer set_fusage].
  rewrite decide_True by done. cbn [Z.ltb Z.compare]. apply wp_bind, modw_wp, wp_bind. eapply fput_eq; [cbn; by rewrite lookup_insert_eq|].
  unfold dropped at 1. cbn [f_usage set_ftimer set_fusage]. destruct (Z.eqb_spec (f_usage o + 1 - 1) 0); [lia|]. apply wp_ret. cbn [Z.ltb Z.compare]. apply wp_bind.
  match goal with |- wp ?m ?w1 ?Q => assert (forall w2, attached_fds w2 = attached_fds w1 -> io_lists w2 = io_lists w1 -> io_log w2 = io_log w1 ++ [EvClose (f_fd o)] ->
    io_held w2 = io_held w1 -> io_objs w2 = io_objs w1 -> forall a, Q a w2) as Hend; [|set (w1' := w1) in *] end.
  - intros w2 E1 E2 E3 E4 E5 a. apply wp_bind. eapply mod_f_wp; [rewrite E5; cbn; by rewrite lookup_insert_eq|]. apply wp_bind. eapply fput_eq; [cbn; by rewrite lookup_insert_eq|].
    apply wp_ret. cbn in *. rewrite E1, E2, E3, E4, E5. split; [done|]. split; [done|]. split; [done|]. split; [done|]. unfold dropped. cbn. replace (f_usage o + 1 - 1) with (f_usage o) by lia.
    rewrite !insert_insert_eq. destruct (_ =? 0); [by rewrite delete_insert_eq|done].
  - destruct (c_putfd _).
    + apply wp_bind, modw_wp, ask_wp. by apply Hend.
    + unfold ____close. apply wp_bind, ask_wp, wp_bind, modw_wp. destruct (_ <? 0); [|apply wp_ret; by apply Hend]. unfold aosl_hal_set_error. destruct (_ <? 0); [|apply wp_ret; by apply Hend].
      apply wp_bind, modw_wp, wp_ret. by apply Hend.
Qed.

End Close.
