(* ===== verification/IofdProps.v ===== *)
(** * Watched descriptors: the theorems *)
From S2P Require Import Prelude Refs Iofd IofdInv IofdKeep IofdRead IofdStream IofdLife.
#[local] Open Scope aosl_scope.

Section Props.
Context `{IoEnv, Unheard}.

(** C15: A queue's thread handles any sequence of events, timeouts and requests, and at the
    points where it calls functions of the user these, and other threads, close, delete,
    write and add descriptors, take and give back references, and close, delete and write
    through them, in the middle of the processing of the same descriptor included (with
    [poll] and [select], descriptors are added with a read function and written to if they
    have a write function; reads and writes come to an end after the time [T]).  Then
    none of this uses an object after it has been freed, and all of it ends;
    the usage of an object is the number of its references, an object
    that nobody refers to is gone, the table has only objects of the lists, and the
    windows of the read buffers and the accounts of the write buffers are in their
    bounds.  Not among the interleavings: another thread in the middle of
    [aosl_mpq_add_fd] ([iofd_add_race]); not said: that the end of the queue finds all
    descriptors ([iofd_fini_complete], [iofd_double_del]). *)
Theorem iofd_memory_safe T fuel q ops w :
  ioinv [] w -> calm_all T -> enough T fuel ->
  exists w', run_ops fuel q ops w = Ret (tt, w') /\ ioinv [] w'.
Proof.
  intros I Hc He. destruct (wp_elim _ _ _ (run_ops_safe T fuel q ops Hc He w I)) as ([] & w' & E & I'). by exists w'.
Qed.

(** C16: The reader cuts a stream into packets as the reference [frames] does, however
    the bytes arrive: what is given to [data_f] are the packets of what was pending
    and has been read, in order, each once; an empty one tells the end of the stream.
    If the descriptor is closed by the user on the way, they are the first of them;
    if not, and there is no error, all of them, and the rest is pending. *)
Theorem iofd_read_stream F q f chk T fuel w o :
  ioinv F w -> f ∈ F -> io_objs w !! f = Some o -> c_read (f_conf o) = true -> c_chk (f_conf o) = true -> c_post (f_conf o) = false -> zero o = false ->
  (forall w d, fst (env_chk w f d) = chk d) -> stable chk -> calm f T -> buff_size (f_conf o) + 1 + Z.max 0 (T - io_tick w) < Z.of_nat fuel ->
  exists r w' o' rs ps eof, __iofd_read_data fuel q f w = Ret (r, w') /\ io_objs w' !! f = Some o' /\
    reads_of f (io_log w') = reads_of f (io_log w) ++ rs /\ data_of f (io_log w') = data_of f (io_log w) ++ ps ++ eof /\ (eof = [] \/ eof = [[]]) /\
    ps `prefix_of` (frames chk (pend o ++ concat rs)).1 /\
    (r = 0 -> aosl_fd_invalid (f_fd o') = false -> frames chk (pend o ++ concat rs) = (ps, pend o')).
Proof.
  intros I Hf E Hrd Hc Hp Hz Hchk Hst Hcalm Hfuel.
  destruct (wp_elim _ _ _ (stream_wp F q f Hf chk Hchk Hst w o Hc Hp T fuel Hcalm Hrd (conj I E) Hz Hfuel)) as (r & w' & Er & o' & [I' E'] & ps & eof & rest & (rs & R & D & Es & G) & Heof & Hend).
  exists r, w', o', rs, ps, eof. split; [done|]. split; [done|]. split; [done|]. split; [done|]. split; [done|]. rewrite Es. destruct (frames_good chk ps rest G) as [Hpre Hall]. split; [done|].
  intros E0 V0. destruct (Hend E0 V0) as [-> Hset]. by apply Hall.
Qed.

(** A descriptor without a packet check gives out what each read brought, one
    packet for one read, empty ones included. *)
Theorem iofd_read_datagrams F q f T fuel w o :
  ioinv F w -> f ∈ F -> io_objs w !! f = Some o -> c_read (f_conf o) = true -> c_chk (f_conf o) = false -> c_post (f_conf o) = false -> zero o = false -> pend o = [] ->
  calm f T -> buff_size (f_conf o) + 1 + Z.max 0 (T - io_tick w) < Z.of_nat fuel ->
  exists r w' o' rs ps, __iofd_read_data fuel q f w = Ret (r, w') /\ io_objs w' !! f = Some o' /\
    reads_of f (io_log w') = reads_of f (io_log w) ++ rs /\ data_of f (io_log w') = data_of f (io_log w) ++ ps /\
    ps `prefix_of` rs /\ (r = 0 -> aosl_fd_invalid (f_fd o') = false -> ps = rs).
Proof.
  intros I Hf E Hrd Hc Hp Hz He Hcalm Hfuel.
  destruct (wp_elim _ _ _ (datagram_wp F q f Hf w o Hc Hp T fuel Hcalm Hrd (conj I E) Hz He Hfuel)) as (r & w' & Er & o' & [I' E'] & rs & ps & R & D & Hpre & Hend).
  exists r, w', o', rs, ps. repeat (split; [done|]). intros E0 V0. by rewrite (Hend E0 V0).
Qed.

(** C40: The room of a read of a stream, after the window has been moved or not: what was
    pending is still there, the window is inside the buffer, and the room is at least
    [MIN_SYSCALL_SIZE] bytes exactly when at most [2 * max_pkt_size - MIN_SYSCALL_SIZE] bytes
    are pending, in particular when no more than a packet of the largest size is.  When a
    [chk_pkt_f] lets twice the largest size pend, there is no room at all (and the read of no
    bytes is taken for the end of the stream). *)
Theorem iofd_read_room F w f o :
  ioinv F w -> io_objs w !! f = Some o -> c_chk (f_conf o) = true ->
  let o' := if __iofd_better_move_buffer o then move_buffer o else o in
  let room := buff_size (f_conf o') - f_tail o' in
  let pending := Z.of_nat (length (pend o)) in
  (MIN_SYSCALL_SIZE <= room <-> pending <= 2 * c_max (f_conf o) - MIN_SYSCALL_SIZE) /\ (pending <= c_max (f_conf o) -> MIN_SYSCALL_SIZE <= room) /\
  (pending = 2 * c_max (f_conf o) -> room = 0) /\ 0 <= room /\
  pend o' = pend o /\ 0 <= f_data o' <= f_tail o' /\ f_tail o' <= Z.of_nat (length (f_buf o')).
Proof.
  intros I E Hc. cbn zeta. fold (moved o). pose proof (oi_bufs _ _ I f o E) as B. destruct (moved_ok o B) as (B' & P' & _). rewrite (pend_length o B).
  assert (f_conf (moved o) = f_conf o) as Ec by (unfold moved; by destruct (__iofd_better_move_buffer o)). pose proof (bo_window _ B') as Hw'. rewrite (bo_size _ B'). rewrite Ec in *.
  pose proof (bo_window _ B) as Hw. destruct (bo_max _ B) as [_ Hmax]. specialize (Hmax Hc). unfold buff_size in *. rewrite Hc in *.
  assert (Hroom : MIN_SYSCALL_SIZE <= c_max (f_conf o) * 2 - f_tail (moved o) <-> f_tail o - f_data o <= 2 * c_max (f_conf o) - MIN_SYSCALL_SIZE).
  { unfold moved. destruct (__iofd_better_move_buffer o) eqn:Em; [cbn; lia|]. unfold __iofd_better_move_buffer in Em. rewrite Hc in Em. cbn [negb orb] in Em.
    apply orb_false_iff in Em as [[Em _]%orb_false_iff _]. apply Z.ltb_ge in Em. lia. }
  unfold FD_MAX_PACKET_SIZE_MIN, MIN_SYSCALL_SIZE in *. split; [done|]. split; [lia|]. split; [|split; [lia|split; [done|lia]]]. intros Hp.
  assert (f_tail (moved o) = f_tail o - f_data o \/ f_tail (moved o) = f_tail o) by (unfold moved; destruct (__iofd_better_move_buffer o); cbn; auto). lia.
Qed.

(** ** The end of a queue *)

(** The descriptors of a queue can be found. *)
Definition watched (w : ioworld) (q : Z) : Prop := forall f, f ∈ q_list w q -> exists o, io_objs w !! f = Some o /\ attached_fds w !! f_fd o = Some f.
Definition fd_of (w : ioworld) (f : Z) : Z := match io_objs w !! f with Some o => f_fd o | None => AOSL_INVALID_FD end.

Lemma dropped_ne f g o m : g <> f -> dropped f o m !! g = m !! g.
Proof. intros Hn. unfold dropped. destruct (_ =? 0); [by rewrite lookup_delete_ne|by rewrite lookup_insert_ne]. Qed.
Lemma drop_one_head (f : Z) l : drop_one f (f :: l) = l.
Proof. cbn. by rewrite decide_True. Qed.

Lemma fini_wp q : forall fuel w, ioinv [] w -> watched w q -> (length (q_list w q) < fuel)%nat ->
  wp (fini_iofds fuel q) w (fun _ w' => ioinv [] w' /\ q_list w' q = [] /\ io_held w' = io_held w /\
    io_log w' = io_log w ++ map (fun f => EvClose (fd_of w f)) (q_list w q) /\
    (forall f, io_objs w !! f = None -> io_objs w' !! f = None) /\
    forall f, f ∈ q_list w q -> is_Some (io_objs w' !! f) -> f ∈ io_held w).
Proof.
  induction fuel as [|fuel IH]; intros w I Hw Hl; [lia|]. cbn [fini_iofds]. apply wp_bind, wp_get. destruct (q_list w q) as [|f l] eqn:El.
  { apply wp_ret. rewrite app_nil_r. repeat (split; [done|]). by intros f ?%elem_of_nil. }
  destruct (Hw f) as (o & Eo & Et); [rewrite El; left|]. destruct (oi_list _ _ I q f) as (o1 & E1 & Hq); [rewrite El; left|]. rewrite Eo in E1. injection E1 as <-.
  pose proof (oi_nodup _ _ I q) as Nd. rewrite El in Nd. apply NoDup_cons in Nd as [Hnf Nd]. destruct (oi_usage _ _ I f o Eo) as (_ & Hu & Hus).
  pose proof (closef_exact w f o Eo Hu Et) as Hex. rewrite Hq in Hex. apply wp_elim in Hex as (e & w1 & Er & Ea & Els & Elog & Eh & Eob).
  pose proof (closef_wp [] w [] w q f o (J_of [] w I) Eo) as Hs. unfold wp in Hs. rewrite Er in Hs. apply inv_of in Hs as I1.
  apply wp_bind. unfold wp at 1. rewrite Er.
  assert (q_list w1 q = l) as El1. { unfold q_list at 1. rewrite Els, lookup_insert_eq. cbn. by rewrite El, drop_one_head. }
  assert (forall g, g <> f -> io_objs w1 !! g = io_objs w !! g) as Hob by (intros g Hg; rewrite Eob; by apply dropped_ne).
  eapply wp_mono; [apply (IH w1 I1); [|rewrite El1; cbn in Hl; lia]|].
  - intros g Hg. rewrite El1 in Hg. assert (g <> f) as Hgf by (intros ->; done). destruct (Hw g) as (og & Eg & Tg); [rewrite El; by right|]. exists og. rewrite (Hob g Hgf). split; [done|].
    rewrite Ea, lookup_delete_ne; [done|]. intros Heq. rewrite <-Heq, Et in Tg. congruence.
  - cbn beta. intros _ w2 (I2 & E2 & Eh2 & Elog2 & Hnone2 & Hfree2). split; [done|]. split; [done|]. split; [congruence|]. split.
    + rewrite Elog2, Elog, El1. cbn [map]. rewrite <-app_assoc. cbn. f_equal. unfold fd_of at 2. rewrite Eo. f_equal. apply map_ext_in. intros g Hg. unfold fd_of. rewrite Hob; [done|].
      intros ->. apply list_elem_of_In in Hg. done.
    + split; [intros g Hg; apply Hnone2; rewrite Hob; [done|]; intros ->; congruence|]. intros g [->|Hg]%elem_of_cons Hs2; [|rewrite <-Eh; eapply Hfree2; [by rewrite El1|done]].
      destruct (Z.eqb_spec (f_usage o - 1) 0) as [Hz|Hnz].
      * rewrite Hnone2 in Hs2; [by destruct Hs2|]. rewrite Eob. unfold dropped. cbn. rewrite (proj2 (Z.eqb_eq _ _) Hz). apply lookup_delete_eq.
      * apply occ_elem. unfold listed in Hus. rewrite occ_nil in Hus. destruct (bool_decide _); cbn in Hus; lia.
Qed.

(** C32: The end of a queue whose descriptors can all be found in the table ([watched]; two
    deletions of the same descriptor can break that, see [iofd_double_del]) closes each of
    its descriptors once, in the order of the list, and ends; of their objects only those
    remain that other threads refer to. *)
Theorem iofd_fini_complete q fuel w :
  ioinv [] w -> watched w q -> (length (q_list w q) < fuel)%nat ->
  exists w', mpq_fini_iofds fuel q w = Ret (tt, w') /\ q_list w' q = [] /\ q_iofds w' q = 0 /\
    io_log w' = io_log w ++ map (fun f => EvClose (fd_of w f)) (q_list w q) /\
    (forall f, f ∈ q_list w q -> is_Some (io_objs w' !! f) -> f ∈ io_held w').
Proof.
  intros I Hw Hl. assert (wp (mpq_fini_iofds fuel q) w (fun _ w' => q_list w' q = [] /\ q_iofds w' q = 0 /\ io_log w' = io_log w ++ map (fun f => EvClose (fd_of w f)) (q_list w q) /\
    (forall f, f ∈ q_list w q -> is_Some (io_objs w' !! f) -> f ∈ io_held w'))) as Hwp.
  - unfold mpq_fini_iofds. apply wp_bind. eapply wp_mono; [by apply fini_wp|]. cbn beta. intros _ w1 (_ & E1 & Eh & El & _ & Hf). apply modw_wp. cbn. rewrite E1, Eh.
    unfold q_list at 1, q_iofds. cbn. rewrite !lookup_insert_eq. done.
  - destruct (wp_elim _ _ _ Hwp) as ([] & w' & E & Hpost). by exists w'.
Qed.

(** An object of the list that the table does not have is never taken off the list. *)
Lemma fini_stuck q fuel : forall w f l o, q_list w q = f :: l -> io_objs w !! f = Some o -> 0 < f_usage o -> c_q (f_conf o) = q -> attached_fds w !! f_fd o <> Some f ->
  fini_iofds fuel q w = NoFuel.
Proof.
  induction fuel as [|fuel IH]; intros w f l o El Eo Hu Hq Ht; [done|]. cbn [fini_iofds].
  assert (wp (__this_q_close_f q f) w (fun _ w' => exists o', q_list w' q = f :: l /\ io_objs w' !! f = Some o' /\ 0 < f_usage o' /\ c_q (f_conf o') = q /\ attached_fds w' !! f_fd o' <> Some f)) as Hwp.
  { unfold __this_q_close_f. apply wp_bind. eapply get_f_wp; [done|]. apply wp_bind. unfold __fget. apply wp_bind. eapply get_f_wp; [done|]. eapply mod_f_wp; [done|].
    apply wp_bind. unfold __q_del_f. apply wp_bind. eapply get_f_wp; [cbn; by rewrite lookup_insert_eq|]. cbn [f_conf set_fusage]. rewrite Hq, Z.eqb_refl. cbn [negb].
    apply wp_bind. eapply mod_f_wp; [cbn; by rewrite lookup_insert_eq|]. apply wp_bind, ask_wp, wp_bind. unfold remove_fd. apply wp_bind.
    eapply get_f_wp; [cbn; by rewrite lookup_insert_eq|]. apply wp_bind, wp_get, wp_bind, modw_wp, wp_ret. cbn [attached_fds set_objs io_next f_fd set_ftimer set_fusage].
    rewrite decide_False by done. cbn [Z.ltb Z.compare Z.opp AOSL_ENONET AOSL_EBASE Z.add Pos.add]. apply wp_ret. cbn [Z.ltb Z.compare]. apply wp_bind.
    eapply fput_eq; [cbn; by rewrite lookup_insert_eq|]. apply wp_ret. unfold dropped. cbn [f_usage set_ftimer set_fusage]. destruct (Z.eqb_spec (f_usage o + 1 - 1) 0); [lia|].
    eexists. split; [exact El|]. split; [cbn; by rewrite lookup_insert_eq|]. cbn. split; [lia|]. split; [done|]. by rewrite lookup_delete_eq. }
  apply wp_elim in Hwp as (e & w' & Er & o' & E1 & E2 & E3 & E4 & E5). unfold cbind at 1, cget. rewrite El. unfold cbind. rewrite Er. by eapply IH.
Qed.

(** ** Writing *)

(** The bytes that were written to a descriptor, and those that wait. *)
Fixpoint sent (fd : Z) (l : list ioevent) : list Z :=
  match l with [] => [] | EvWrite g bs :: l => if g =? fd then bs ++ sent fd l else sent fd l | _ :: l => sent fd l end.
Definition waiting_bytes (o : iofd) : list Z := concat (map wb_bytes (f_wq o)).
Lemma sent_app fd l1 l2 : sent fd (l1 ++ l2) = sent fd l1 ++ sent fd l2.
Proof. induction l1 as [|[] l1 IH]; cbn; try done. destruct (_ =? _); [by rewrite IH, app_assoc|done]. Qed.
Lemma waiting_add b o : waiting_bytes (w_queue_add b o) = waiting_bytes o ++ wb_bytes b.
Proof. unfold waiting_bytes, w_queue_add. cbn. rewrite map_app, concat_app. cbn. by rewrite app_nil_r. Qed.
Lemma hal_err_exact e w : e <= 0 -> wp (aosl_hal_set_error e) w (fun r w' => r <= 0 /\ io_log w' = io_log w /\ io_objs w' = io_objs w).
Proof.
  intros He. unfold aosl_hal_set_error. destruct (Z.ltb_spec e 0); [|by apply wp_ret]. apply wp_bind, modw_wp, wp_ret. split; [|done]. repeat (destruct (_ =? _); [done|]). done.
Qed.
Lemma queue_it_exact f o extra bs len w : io_objs w !! f = Some o -> wp (queue_it f extra bs len) w (fun r w' => exists o', io_objs w' !! f = Some o' /\ f_fd o' = f_fd o /\ io_log w' = io_log w /\
  ((r = len /\ waiting_bytes o' = waiting_bytes o ++ bs) \/ (r = - AOSL_ENOMEM /\ waiting_bytes o' = waiting_bytes o))).
Proof.
  intros E. unfold queue_it. apply wp_bind, ask_wp. destruct (env_wmalloc w); cbn [negb]; [|apply wp_ret; exists o; split; [done|]; split; [done|]; split; [done|]; by right].
  apply wp_bind. eapply mod_f_wp; [done|]. apply wp_ret. eexists. split; [cbn; by rewrite lookup_insert_eq|]. split; [done|]. split; [done|]. left. split; [done|]. apply waiting_add.
Qed.

(** What a write does to the bytes written and waiting. *)
Definition write_result (w : ioworld) (o : iofd) (bs : list Z) (r : Z) (w' : ioworld) (o' : iofd) : Prop :=
  let before := sent (f_fd o) (io_log w) ++ waiting_bytes o in
  let after := sent (f_fd o) (io_log w') ++ waiting_bytes o' in
  (r = Z.of_nat (length bs) /\ after = before ++ bs) \/
  (r <= 0 /\ after = before) \/
  (r = - AOSL_ENOMEM /\ f_wq o = [] /\ exists k, (0 < k < length bs)%nat /\ after = before ++ take k bs).

Lemma write_exact w f o bs : io_objs w !! f = Some o ->
  wp (____write f bs) w (fun r w' => exists o', io_objs w' !! f = Some o' /\ f_fd o' = f_fd o /\ write_result w o bs r w' o').
Proof.
  intros E. unfold ____write. assert (forall e, e <= 0 -> exists o', io_objs w !! f = Some o' /\ f_fd o' = f_fd o /\ write_result w o bs e w o') as Hno.
  { intros e He. exists o. split; [done|]. split; [done|]. right. left. done. }
  destruct (_ <? _); [apply wp_ret; by apply Hno|]. apply wp_bind. eapply get_f_wp; [done|]. destruct (_ <? _); [apply wp_ret; by apply Hno|].
  destruct (negb _ || _) eqn:Hq.
  { eapply wp_mono; [by eapply queue_it_exact|]. cbn beta. intros r w' (o' & E' & Ef & El & [[-> Ew]|[-> Ew]]); exists o'; (split; [done|]); (split; [done|]); unfold write_result; rewrite El, Ew.
    - left. by rewrite app_assoc.
    - right. by left. }
  apply orb_false_iff in Hq as [Hq _]. apply negb_false_iff, bool_decide_eq_true in Hq. apply wp_bind, ask_wp, wp_bind, modw_wp, wp_bind. eapply mod_f_wp; [done|].
  set (err := env_sk_write w (f_fd o) bs). assert (waiting_bytes o = []) as Hw0 by (unfold waiting_bytes; by rewrite Hq).
  set (o1 := set_fflags _ o). set (w1 := set_objs _ _). assert (io_objs w1 !! f = Some o1) as E1 by (cbn; by rewrite lookup_insert_eq).
  assert (sent (f_fd o) (io_log w1) = sent (f_fd o) (io_log w) ++ take (Z.to_nat err) bs) as Hs by (cbn; rewrite sent_app; cbn; by rewrite Z.eqb_refl, app_nil_r).
  destruct (Z.leb_spec err 0).
  { eapply wp_mono; [by apply hal_err_exact|]. cbn beta. intros r w' (Hr & El & Eo). exists o1. rewrite Eo. split; [done|]. split; [done|]. right. left. split; [done|].
    rewrite El, Hs. replace (Z.to_nat err) with 0%nat by lia. by rewrite take_0, app_nil_r. }
  destruct (Z.ltb_spec err (Z.of_nat (length bs))).
  - eapply wp_mono; [by eapply queue_it_exact|]. cbn beta. intros r w' (o' & E' & Ef & El & [[-> Ew]|[-> Ew]]); exists o'; (split; [done|]); (split; [done|]); unfold write_result;
      change (waiting_bytes o1) with (waiting_bytes o) in Ew; rewrite El, Ew, Hs, Hw0, !app_nil_r.
    + left. split; [done|]. cbn. by rewrite <-app_assoc, take_drop.
    + right. right. split; [done|]. split; [done|]. exists (Z.to_nat err). split; [lia|done].
  - apply wp_ret. exists o1. split; [done|]. split; [done|]. left. split; [done|]. change (waiting_bytes o1) with (waiting_bytes o). rewrite Hs, Hw0, !app_nil_r. rewrite take_ge by lia. done.
Qed.

Lemma callback_none {A} (q : Z) (g : ioworld -> A * list io_act) w (Q : A -> ioworld -> Prop) : snd (g w) = [] -> Q (fst (g w)) (io_next w) -> wp (callback q g) w Q.
Proof. intros E HQ. unfold callback. apply wp_bind, ask_wp. destruct (g w) as [a acts]. cbn in E. subst acts. exact HQ. Qed.

(** Without scripts, the flush takes bytes from the front of those that wait. *)
Lemma flush_exact F q f : f ∈ F -> (forall w bs, snd (env_write w f bs) = []) -> (forall w e, env_event w f e = []) ->
  forall fuel w o, ioinv F w -> io_objs w !! f = Some o -> c_write (f_conf o) = true -> (length (f_wq o) < fuel)%nat ->
  wp (write_loop fuel q f) w (fun r w' => exists o', io_objs w' !! f = Some o' /\
    (r = 0 -> f_fd o' = f_fd o /\ sent (f_fd o) (io_log w') ++ waiting_bytes o' = sent (f_fd o) (io_log w) ++ waiting_bytes o)).
Proof.
  intros Hf Hw He. induction fuel as [|fuel IH]; intros w o I E Hwr Hl; [lia|]. cbn [write_loop]. apply wp_bind. eapply get_f_wp; [done|]. destruct (f_wq o) as [|node l] eqn:Ewq.
  - apply wp_bind. destruct (c_event _); [|apply wp_ret, wp_ret; by exists o]. apply wp_bind, modw_wp, callback_none; [apply He|]. apply wp_ret. exists o. split; [done|]. intros _. split; [done|].
    cbn. by rewrite sent_app, app_nil_r.
  - apply wp_bind. rewrite Hwr. apply callback_none; [apply Hw|]. set (err := fst (env_write w f (wb_bytes node))). apply wp_bind, modw_wp, wp_bind. eapply mod_f_wp; [done|].
    set (o1 := set_fflags _ o). set (w1 := set_objs _ _). assert (io_objs w1 !! f = Some o1) as E1 by (cbn; by rewrite lookup_insert_eq).
    assert (ioinv F w1) as I1.
    { apply (inv_of F w). eapply (J_upd [] w F _ f o o1); try done; [|by intros ?%elem_of_nil| |by apply arms_lor|by left|by left].
      - apply J_note; [done|]. by apply J_next, J_of.
      - destruct (oi_bufs _ _ I f o E). by split. }
    assert (sent (f_fd o) (io_log w1) = sent (f_fd o) (io_log w) ++ take (Z.to_nat err) (wb_bytes node)) as Hs by (cbn; rewrite sent_app; cbn; by rewrite Z.eqb_refl, app_nil_r).
    assert (waiting_bytes o = wb_bytes node ++ concat (map wb_bytes l)) as Hwo by (unfold waiting_bytes; by rewrite Ewq).
    unfold write_after. destruct (Z.ltb_spec err 0).
    { destruct (negb _).
      - apply wp_bind. eapply wp_mono; [eapply (event_wp F q f Hf); by split|]. cbn beta. intros _ w3 (_ & _ & _ & o3 & [_ E3] & _). apply wp_ret. exists o3. split; [done|]. intros E0. lia.
      - apply wp_ret. exists o1. split; [done|]. intros _. split; [done|]. rewrite Hs. replace (Z.to_nat err) with 0%nat by lia. by rewrite take_0, app_nil_r. }
    apply wp_bind. eapply mod_f_wp; [done|]. change (f_wq o1) with (f_wq o). rewrite Ewq. set (rest := drop (Z.to_nat err) (wb_bytes node)). set (o2 := set_fwq _ _ o1). set (w2 := set_objs _ w1).
    assert (ioinv F w2) as I2.
    { apply (inv_of F w1). eapply (J_upd [] w1 F w1 f o1 o2); try done; [by apply J_of|by intros ?%elem_of_nil| |by eapply arms_head|by left|by left].
      eapply bufs_head; [by eapply oi_bufs|exact Ewq|unfold rest; rewrite length_drop; lia]. }
    assert (io_objs w2 !! f = Some o2) as E2 by (cbn; by rewrite lookup_insert_eq).
    assert (sent (f_fd o) (io_log w2) ++ waiting_bytes o2 = sent (f_fd o) (io_log w) ++ waiting_bytes o) as Hkeep.
    { change (io_log w2) with (io_log w1). rewrite Hs, Hwo. unfold waiting_bytes, o2. cbn. unfold rest. rewrite <-app_assoc. f_equal. by rewrite app_assoc, take_drop. }
    destruct (bool_decide_reflect (rest = [])) as [Hr|]; [|apply wp_ret; exists o2; done]. apply wp_bind. eapply mod_f_wp; [done|]. set (o3 := w_queue_remove_head o2). set (w3 := set_objs _ w2).
    assert (ioinv F w3) as I3.
    { apply (inv_of F w2). eapply (J_upd [] w2 F w2 f o2 o3); try done; [by apply J_of|by intros ?%elem_of_nil| |apply arms_tail|by left|by left]. apply bufs_tail. by eapply oi_bufs. }
    eapply wp_mono; [apply (IH w3 o3 I3); [cbn; by rewrite lookup_insert_eq|done|cbn in *; lia]|]. cbn beta. intros r w4 (o4 & E4 & H4). exists o4. split; [done|]. intros E0. destruct (H4 E0) as [Hfd Heq].
    split; [done|]. change (f_fd o3) with (f_fd o) in Heq. rewrite Heq. rewrite <-Hkeep. f_equal. unfold waiting_bytes, o3, o2. cbn. by rewrite Hr.
Qed.

(** The queue's thread writes what waits, in order: when it returns without an
    error nothing is lost, written twice or out of order. *)
Theorem iofd_flush_order F q f fuel w o :
  ioinv F w -> f ∈ F -> io_objs w !! f = Some o -> c_write (f_conf o) = true -> (length (f_wq o) < fuel)%nat ->
  (forall w bs, snd (env_write w f bs) = []) -> (forall w e, env_event w f e = []) ->
  exists r w' o', __iofd_write_data fuel q f w = Ret (r, w') /\ io_objs w' !! f = Some o' /\
    (r = 0 -> sent (f_fd o) (io_log w') ++ waiting_bytes o' = sent (f_fd o) (io_log w) ++ waiting_bytes o).
Proof.
  intros I Hf E Hwr Hl Hw He. assert (wp (__iofd_write_data fuel q f) w (fun r w' => exists o', io_objs w' !! f = Some o' /\
    (r = 0 -> f_fd o' = f_fd o /\ sent (f_fd o) (io_log w') ++ waiting_bytes o' = sent (f_fd o) (io_log w) ++ waiting_bytes o))) as Hwp.
  - unfold __iofd_write_data. apply wp_bind. eapply get_f_wp; [done|]. apply wp_bind. destruct (has_flag _ _).
    + eapply mod_f_wp; [done|]. set (o1 := set_ftimer _ _). destruct (at_timer F f w o o1 (conj I E)) as [I1 E1]; try done; [destruct (oi_bufs _ _ I f o E); by split|by apply (arms_ldiff IOFD_NOT_READY o); [..|right]|].
      eapply wp_mono; [eapply (flush_exact F q f Hf Hw He fuel _ o1 I1 E1); done|]. done.
    + apply wp_ret. by eapply (flush_exact F q f Hf Hw He fuel).
  - destruct (wp_elim _ _ _ Hwp) as (r & w' & Er & o' & E' & Hr). exists r, w', o'. split; [done|]. split; [done|]. intros E0. by apply Hr.
Qed.

(** C31: Bytes are written in the order of [aosl_write].  A write that returns the
    length has added its bytes behind everything that was written or waits; one that
    fails has added nothing, except that with [AOSL_ENOMEM] some of its bytes may have
    been written. *)
Theorem iofd_write_order F w f o bs :
  ioinv F w -> io_objs w !! f = Some o -> (level = true -> c_write (f_conf o) = true) ->
  exists r w' o', ____write f bs w = Ret (r, w') /\ io_objs w' !! f = Some o' /\ f_fd o' = f_fd o /\ ioinv F w' /\
    let before := sent (f_fd o) (io_log w) ++ waiting_bytes o in
    let after := sent (f_fd o) (io_log w') ++ waiting_bytes o' in
    (r = Z.of_nat (length bs) /\ after = before ++ bs) \/
    (r <= 0 /\ after = before) \/
    (r = - AOSL_ENOMEM /\ f_wq o = [] /\ exists k, (0 < k < length bs)%nat /\ after = before ++ take k bs).
Proof.
  intros I E Hcw. destruct (wp_elim _ _ _ (write_exact w f o bs E)) as (r & w' & Er & o' & E' & Ef & Hr). exists r, w', o'.
  pose proof (write_wp [] w F w f o bs (J_of F w I) E Hcw) as Hs. unfold wp in Hs. rewrite Er in Hs. apply inv_of in Hs. by repeat (split; [done|]).
Qed.

(** ** Closing *)

(** [aosl_close] of a watched descriptor on the thread of its queue takes it out of the
    table and the list of the queue, closes it once, and frees its object unless
    other threads refer to it; then the object no longer has the descriptor.  The other
    objects are as they were. *)
Theorem iofd_close_correct w fd f o :
  ioinv [] w -> attached_fds w !! fd = Some f -> io_objs w !! f = Some o ->
  let q := c_q (f_conf o) in
  exists r w', aosl_close q fd w = Ret (r, w') /\ ioinv [] w' /\ attached_fds w' = delete fd (attached_fds w) /\ q_list w' q = drop_one f (q_list w q) /\
    io_log w' = io_log w ++ [EvClose fd] /\ (forall g, g <> f -> io_objs w' !! g = io_objs w !! g) /\
    match io_objs w' !! f with
    | Some o' => f ∈ io_held w /\ f_fd o' = AOSL_INVALID_FD /\ f_timer o' = AOSL_MPQ_TIMER_INVALID
    | None => f ∉ io_held w
    end.
Proof.
  intros I Ht Eo q. destruct (oi_table _ _ I fd f Ht) as (Hfd & o1 & E1 & Hf1 & Hl). rewrite Eo in E1. injection E1 as <-. destruct (oi_usage _ _ I f o Eo) as (Hpos & Hu & Hus).
  rewrite Hl, occ_nil in Hus. cbn in Hus.
  assert (wp (aosl_close q fd) w (fun _ w' => attached_fds w' = delete fd (attached_fds w) /\ q_list w' q = drop_one f (q_list w q) /\
    io_log w' = io_log w ++ [EvClose fd] /\ io_objs w' = dropped f (closed_obj o) (io_objs w))) as Hwp.
  { unfold aosl_close, __iofd_close, fget, aosl_fd_invalid. apply wp_bind, wp_bind. destruct (Z.eqb_spec fd AOSL_INVALID_FD); [done|]. apply wp_bind, wp_get. rewrite Ht. apply wp_bind.
    unfold __fget. apply wp_bind. eapply get_f_wp; [done|]. eapply mod_f_wp; [done|]. apply wp_ret. destruct (Z.eqb_spec f 0); [lia|]. apply wp_bind. eapply get_f_wp; [cbn; by rewrite lookup_insert_eq|].
    cbn [f_conf set_fusage]. fold q. apply wp_bind. unfold on_q. rewrite Z.eqb_refl. set (o1 := set_fusage (f_usage o + 1) o). set (w1 := set_objs _ w).
    eapply wp_mono; [apply (closef_exact w1 f o1); [cbn; by rewrite lookup_insert_eq|cbn; lia|cbn; by rewrite Hf1]|]. cbn beta. intros e w2 (A1 & A2 & A3 & A4 & A5).
    unfold dropped in A5. cbn [f_usage closed_obj o1 set_fusage set_ffd set_ftimer] in A5. destruct (Z.eqb_spec (f_usage o + 1 - 1) 0); [lia|].
    apply wp_bind. eapply fput_eq; [rewrite A5; by rewrite lookup_insert_eq|]. apply wp_ret.
    assert (forall w3, attached_fds w3 = attached_fds w2 -> io_lists w3 = io_lists w2 -> io_log w3 = io_log w2 -> io_objs w3 = dropped f (closed_obj o) (io_objs w) ->
      attached_fds w3 = delete fd (attached_fds w) /\ q_list w3 q = drop_one f (q_list w q) /\ io_log w3 = io_log w ++ [EvClose fd] /\ io_objs w3 = dropped f (closed_obj o) (io_objs w)) as Hfin.
    { intros w3 F1 F2 F3 F4. rewrite F1, F3, F4, A1, A3. cbn. rewrite Hf1. repeat (split; [done|]). split; [|done]. unfold q_list at 1. rewrite F2, A2. cbn. by rewrite lookup_insert_eq. }
    assert (dropped f (set_fusage (f_usage o + 1 - 1) (closed_obj o1)) (io_objs w2) = dropped f (closed_obj o) (io_objs w)) as Ed.
    { rewrite A5. unfold dropped. cbn. rewrite insert_insert_eq. replace (f_usage o + 1 - 1) with (f_usage o) by lia. destruct (_ =? 0); [by rewrite delete_insert_eq|].
      rewrite insert_insert_eq. done. }
    unfold return_err. destruct (IS_ERR e); [apply wp_bind, modw_wp, wp_ret|apply wp_ret]; apply Hfin; done. }
  destruct (wp_elim _ _ _ Hwp) as (r & w' & Er & A1 & A2 & A3 & A4). exists r, w'. split; [done|].
  split; [pose proof (close_wp [] w [] w q fd (J_of [] w I)) as Hs; unfold wp in Hs; rewrite Er in Hs; by eapply inv_of|]. split; [done|]. split; [done|]. split; [done|].
  split; [intros g Hg; rewrite A4; by apply dropped_ne|]. rewrite A4. unfold dropped. cbn. destruct (Z.eqb_spec (f_usage o - 1) 0).
  - rewrite lookup_delete_eq. rewrite occ_elem. lia.
  - rewrite lookup_insert_eq. split; [rewrite occ_elem; lia|done].
Qed.

(** ** Defects *)

(** When the call to the descriptor's queue fails, [aosl_write] returns the positive
    error number, as if so many bytes had been written: nothing has been. *)
Theorem aosl_write_call_failure w fd f o this_q e bs :
  ioinv [] w -> attached_fds w !! fd = Some f -> io_objs w !! f = Some o -> c_q (f_conf o) <> this_q -> (forall w, env_iocall w (c_q (f_conf o)) = CallFails e) ->
  exists w', aosl_write this_q fd bs w = Ret (e, w') /\ 0 < e /\ io_log w' = io_log w /\ io_objs w' = io_objs w.
Proof.
  intros I Ht Eo Hq Hcall. destruct (oi_table _ _ I fd f Ht) as (Hfd & _). destruct (oi_usage _ _ I f o Eo) as (Hpos & Hu & _). pose proof (env_call_err w _ _ (Hcall w)) as He.
  assert (wp (aosl_write this_q fd bs) w (fun r w' => r = e /\ io_log w' = io_log w /\ io_objs w' = io_objs w)) as Hwp.
  - unfold aosl_write, fget, aosl_fd_invalid. apply wp_bind. destruct (Z.eqb_spec fd AOSL_INVALID_FD); [done|]. apply wp_bind, wp_get. rewrite Ht. apply wp_bind.
    unfold __fget. apply wp_bind. eapply get_f_wp; [done|]. eapply mod_f_wp; [done|]. apply wp_ret, wp_bind. destruct (Z.eqb_spec f 0); [lia|]. apply wp_bind. eapply get_f_wp; [cbn; by rewrite lookup_insert_eq|].
    apply wp_bind. unfold on_q. cbn [f_conf set_fusage]. destruct (Z.eqb_spec (c_q (f_conf o)) this_q); [done|]. apply wp_bind, ask_wp. rewrite Hcall. apply wp_bind, modw_wp, wp_ret, wp_bind.
    eapply fput_eq; [cbn; by rewrite lookup_insert_eq|]. apply wp_ret. unfold return_err, IS_ERR. destruct (Z.ltb_spec e 0); [lia|]. rewrite andb_false_r. apply wp_ret. split; [done|]. split; [done|].
    unfold dropped. cbn. destruct (Z.eqb_spec (f_usage o + 1 - 1) 0); [lia|]. rewrite insert_insert_eq. apply insert_id. rewrite Eo. f_equal. destruct o. unfold set_fusage. cbn. f_equal. lia.
  - destruct (wp_elim _ _ _ Hwp) as (r & w' & Er & -> & ? & ?). by exists w'.
Qed.

(** While a descriptor is added, another thread can already find its object; when the
    poll back end then refuses it, the object is freed although it is referred to, and
    the other thread puts a freed object. *)
Theorem iofd_add_race w a f w1 :
  ioinv [] w -> env_backend = Epoll -> (forall w f, env_add_event w f < 0) -> add_install a w = Ret (inr f, w1) ->
  exists fd w2 e w3, attached_fds w1 !! fd = Some f /\ fget fd w1 = Ret (f, w2) /\ add_finish a f w2 = Ret (e, w3) /\ e < 0 /\ fput f w3 = Fault.
Proof.
  intros I Hback Hadd E. pose proof (add_install_wp [] w [] w a (J_of [] w I) ltac:(unfold level; by rewrite Hback)) as Hw. unfold wp in Hw. rewrite E in Hw. destruct Hw as (o & w1' & J1 & E1 & _ & Ht & Hfd & _ & Hu & _ & ->).
  set (w1 := set_table _ w1'). exists (f_fd o).
  assert (wp (fget (f_fd o)) w1 (fun g w2 => g = f /\ w2 = set_objs (<[f := set_fusage (f_usage o + 1) o]> (io_objs w1)) w1)) as Hg.
  { unfold fget, aosl_fd_invalid. destruct (Z.eqb_spec (f_fd o) AOSL_INVALID_FD); [done|]. apply wp_bind, wp_get. cbn [attached_fds w1 set_table]. rewrite lookup_insert_eq. apply wp_bind.
    unfold __fget. apply wp_bind. eapply get_f_wp; [exact E1|]. eapply mod_f_wp; [exact E1|]. by apply wp_ret. }
  destruct (wp_elim _ _ _ Hg) as (g & w2 & Eg & -> & Ew2). exists w2. assert (io_objs w2 !! f = Some (set_fusage (f_usage o + 1) o)) as E2 by (rewrite Ew2; cbn; by rewrite lookup_insert_eq).
  assert (wp (add_finish a f) w2 (fun e w3 => e < 0 /\ io_objs w3 !! f = None)) as Hfin.
  { unfold add_finish. apply wp_bind. eapply get_f_wp; [exact E2|]. apply wp_bind. unfold __q_add_fd, os_add_event_fd. rewrite Hback. apply wp_bind, ask_wp. pose proof (Hadd w2 f) as Hneg.
    destruct (Z.ltb_spec (env_add_event w2 f) 0) as [_|]; [|lia]. apply wp_ret. destruct (Z.ltb_spec (env_add_event w2 f) 0) as [_|]; [|lia]. apply wp_bind. unfold remove_fd. apply wp_bind.
    eapply get_f_wp; [exact E2|]. apply wp_bind, wp_get, wp_bind, modw_wp, wp_ret, wp_bind, modw_wp, wp_ret. split; [done|]. cbn. apply lookup_delete_eq. }
  destruct (wp_elim _ _ _ Hfin) as (e & w3 & Ef & He & E3). exists e, w3. split; [cbn; by rewrite lookup_insert_eq|]. split; [done|]. split; [done|]. split; [done|].
  unfold fput, get_f. run. by rewrite E3.
Qed.

End Props.

(** ** A run *)

(** A check for packets that begin with their length. *)
Definition demo_chk (d : list Z) : Z :=
  match d with [] => 0 | n :: _ => if (0 <=? n) && (n + 1 <=? Z.of_nat (length d)) then n + 1 else 0 end.
Lemma demo_stable : stable demo_chk.
Proof.
  intros [|n d] Hk t; [cbn in Hk; lia|]. unfold demo_chk in Hk |- *. destruct (Z.leb_spec 0 n); cbn [andb] in *; [|lia]. destruct (Z.leb_spec (n + 1) (Z.of_nat (length (n :: d)))); [|lia].
  replace (Z.to_nat (n + 1)) with (S (Z.to_nat n)) by lia. cbn [take app]. destruct (Z.leb_spec 0 n); [|lia]. cbn [andb]. cbn [length] in *. rewrite length_app, length_take.
  destruct (Z.leb_spec (n + 1) (Z.of_nat (S (Z.to_nat n `min` length d + length t)))); [done|lia].
Qed.

(** Reads give [sched] until the time 40; [add] is what the poll back end says to
    a new descriptor, [call] what a call to another queue does. *)
Definition demo_read (sched : list (list Z)) (w : ioworld) (f n : Z) : Z + list Z :=
  if io_tick w <? 40 then
    match sched !! length (reads_of f (io_log w)) with
    | Some bs => if Z.of_nat (length bs) <=? n then inr bs else inl (- AOSL_EAGAIN)
    | None => inl (- AOSL_EAGAIN)
    end
  else inl (- AOSL_EAGAIN).
Definition demo_write (w : ioworld) (bs : list Z) : Z := if io_tick w <? 40 then Z.min 2 (Z.of_nat (length bs)) else - AOSL_EAGAIN.
Definition demo_call (failing : bool) : call_outcome := if failing then CallFails AOSL_EPERM else CallDone.

Definition demo_env (back : io_backend) (sched : list (list Z)) (add : Z) (failing : bool) : IoEnv.
Proof.
  refine (Build_IoEnv back
    (fun _ _ d => (demo_chk d, [])) (fun _ _ d => (Z.of_nat (length d), d, [])) (fun _ _ _ => []) (fun w f n => (demo_read sched w f n, []))
    (fun w _ bs => (demo_write w bs, [])) (fun _ _ _ => []) (fun _ => (0, 3)) (fun _ _ => 0) (fun _ _ bs => Z.min 2 (Z.of_nat (length bs))) (fun _ _ => 0)
    (fun w => 1 + max_of (fun k _ => k) (io_objs w)) (fun _ => true) (fun _ _ => add) (fun _ _ => 0) (fun _ => 7) (fun _ _ => demo_call failing) _ _ _ _ _ _).
  - intros w f n bs acts. unfold demo_read. destruct (_ <? _); [|done]. destruct (sched !! _) as [b|]; [|done]. destruct (Z.leb_spec (Z.of_nat (length b)) n); [|done]. intros [= <- _]. done.
  - intros w f n e acts. unfold demo_read. intros Hr. assert (demo_read sched w f n = inl e) as Hr' by (unfold demo_read; congruence). unfold demo_read in Hr'.
    destruct (_ <? _); [|by injection Hr' as <-]. destruct (sched !! _) as [b|]; [|by injection Hr' as <-]. destruct (_ <=? _); [done|by injection Hr' as <-].
  - intros w f bs. cbn. unfold demo_write. destruct (_ <? _); [lia|]. unfold AOSL_EAGAIN, AOSL_EBASE. lia.
  - intros w f bs. cbn. lia.
  - intros w _. destruct (max_of_ge (fun k _ => k) (io_objs w)) as [H0 _]. split; [lia|]. apply max_of_fresh. lia.
  - intros w q e. unfold demo_call. destruct failing; [|done]. intros [= <-]. done.
Defined.
Lemma demo_calm_env back sched add failing : @calm_all (demo_env back sched add failing) 40.
Proof.
  intros f. split.
  - intros w n Ht. cbn. unfold demo_read. destruct (Z.ltb_spec (io_tick w) 40); [lia|]. by eexists _, _.
  - intros w bs Ht. cbn. unfold demo_write. destruct (Z.ltb_spec (io_tick w) 40); [lia|done].
Qed.

Definition io_start : ioworld := MkIo ∅ ∅ 0 ∅ ∅ 0 0 [] [].
Lemma io_start_inv `{IoEnv, Unheard} : ioinv [] io_start.
Proof.
  split; cbn; try done.
  - intros f [Hin|Hin]; by apply elem_of_nil in Hin.
  - intros q f Hin. unfold q_list in Hin. cbn in Hin. by apply elem_of_nil in Hin.
  - intros q. unfold q_list. cbn. apply NoDup_nil_2.
Qed.
(** The world after [m] has returned. *)
Definition ran_to {A} (m : CM ioworld A) (w : ioworld) : ioworld := match m w with Ret (_, w') => w' | _ => w end.

Lemma ran_act_inv `{IoEnv, Unheard} F w q a : ioinv F w -> ioinv F (ran_to (run_act q a) w).
Proof. intros I. destruct (wp_elim _ _ _ (run_act_wp [] w F w q a (J_of F w I))) as ([] & w' & E & J1). unfold ran_to. rewrite E. by eapply inv_of. Qed.

#[local] Instance none_unheard : Unheard := MkUnheard 0 0 [].
#[local] Instance demo : IoEnv := demo_env Epoll [[2; 7]; [8; 1]; [9; 4]] 0 false.

Lemma demo_calm : calm_all 40.
Proof. apply demo_calm_env. Qed.
Definition stream_args : add_args := MkAdd 5 (-1) 0 (MkConf 9 1024 0 true true true false true false []) true false.
Definition datagram_args : add_args := MkAdd 6 (-1) 0 (MkConf 9 64 0 true true false false true false []) true false.
(** Two descriptors of the queue 9, and the reference of the dispatcher to one. *)
Definition added : ioworld := ran_to (run_ops 50 9 [OAct (AAdd stream_args); OAct (AAdd datagram_args)]) io_start.
Definition reading (fd : Z) : ioworld := ran_to (fget fd) added.

Lemma added_inv : ioinv [] added.
Proof.
  pose proof (run_act_wp [] io_start [] io_start 9 (AAdd stream_args) (J_of [] _ io_start_inv)) as H1. apply wp_elim in H1 as ([] & w1 & E1 & J1). apply inv_of in J1.
  pose proof (run_act_wp [] w1 [] w1 9 (AAdd datagram_args) (J_of [] _ J1)) as H2. apply wp_elim in H2 as ([] & w2 & E2 & J2). apply inv_of in J2.
  assert (added = w2) as ->; [|done]. unfold added, ran_to. cbn [run_ops run_op]. unfold cbind. by rewrite E1, E2.
Qed.
Lemma reading_inv fd f : attached_fds added !! fd = Some f -> ioinv [f] (reading fd).
Proof.
  intros E. pose proof (fget_wp [] added [] added fd (J_of [] _ added_inv)) as Hw. apply wp_elim in Hw as (g & w1 & E1 & [(_ & _ & [E0| ->])|(_ & J1 & E2)]); [congruence|vm_compute in E; done|].
  assert (g = f) as -> by congruence. unfold reading, ran_to. rewrite E1. by eapply inv_of.
Qed.

Lemma iofd_memory_safe_witness :
  exists w', run_ops (Z.to_nat 9000000) 9 [OEvent 5 (AOSL_POLLIN + AOSL_POLLOUT); OAct (AGet 5); OAct (AClose 5); OAct (APut 1)] added = Ret (tt, w') /\ ioinv [] w'.
Proof.
  apply (iofd_memory_safe 40); [exact added_inv|exact demo_calm|]. unfold enough. rewrite Z2Nat.id by lia. change (2 * FD_MAX_PACKET_SIZE_MAX) with 8388608. lia.
Defined.

Lemma iofd_read_stream_witness : exists r w' o' rs ps eof, __iofd_read_data 3000 9 1 (reading 5) = Ret (r, w') /\ io_objs w' !! 1 = Some o' /\
  reads_of 1 (io_log w') = rs /\ data_of 1 (io_log w') = ps ++ eof /\ frames demo_chk (concat rs) = (ps, pend o').
Proof.
  destruct (io_objs (reading 5) !! 1) as [o|] eqn:Eo; [|vm_compute in Eo; discriminate].
  destruct (iofd_read_stream [1] 9 1 demo_chk 40 3000 (reading 5) o (reading_inv 5 1 ltac:(vm_compute; reflexivity)) ltac:(left) Eo) as (r & w' & o' & rs & ps & eof & Er & E' & R & D & _ & _ & Hall);
    [vm_compute in Eo; injection Eo as <-; reflexivity|vm_compute in Eo; injection Eo as <-; reflexivity|vm_compute in Eo; injection Eo as <-; reflexivity|vm_compute in Eo; injection Eo as <-; reflexivity|reflexivity|exact demo_stable|apply demo_calm|vm_compute in Eo; injection Eo as <-; vm_compute; reflexivity|].
  exists r, w', o', rs, ps, eof. split; [exact Er|]. split; [exact E'|]. assert (io_log (reading 5) = []) as El by (vm_compute; reflexivity). rewrite El in R, D. split; [exact R|]. split; [exact D|].
  assert (pend o = []) as Ep by (vm_compute in Eo; injection Eo as <-; reflexivity). rewrite Ep in Hall. vm_compute in Er. injection Er as <- <-. vm_compute in E'. injection E' as <-. apply Hall; reflexivity.
Defined.

Lemma iofd_read_datagrams_witness : exists r w' o' rs ps, __iofd_read_data 3000 9 2 (reading 6) = Ret (r, w') /\ io_objs w' !! 2 = Some o' /\
  reads_of 2 (io_log w') = reads_of 2 (io_log (reading 6)) ++ rs /\ data_of 2 (io_log w') = data_of 2 (io_log (reading 6)) ++ ps /\
  ps `prefix_of` rs /\ (r = 0 -> aosl_fd_invalid (f_fd o') = false -> ps = rs).
Proof.
  destruct (io_objs (reading 6) !! 2) as [o|] eqn:Eo; [|vm_compute in Eo; discriminate].
  apply (iofd_read_datagrams [2] 9 2 40 3000 (reading 6) o (reading_inv 6 2 ltac:(vm_compute; reflexivity)) ltac:(left) Eo);
    [vm_compute in Eo; injection Eo as <-; reflexivity..|apply demo_calm|vm_compute in Eo; injection Eo as <-; vm_compute; reflexivity].
Defined.

Lemma iofd_read_room_witness : exists o, io_objs (reading 5) !! 1 = Some o /\
  let o' := if __iofd_better_move_buffer o then move_buffer o else o in
  MIN_SYSCALL_SIZE <= buff_size (f_conf o') - f_tail o' /\ pend o' = pend o /\ 0 <= f_data o' <= f_tail o' /\ f_tail o' <= Z.of_nat (length (f_buf o')).
Proof.
  destruct (io_objs (reading 5) !! 1) as [o|] eqn:Eo; [|vm_compute in Eo; discriminate]. exists o. split; [reflexivity|].
  destruct (iofd_read_room [1] (reading 5) 1 o (reading_inv 5 1 ltac:(vm_compute; reflexivity)) Eo) as (_ & Hr & _ & _ & Hrest); [vm_compute in Eo; injection Eo as <-; reflexivity|].
  split; [apply Hr|exact Hrest]. vm_compute in Eo. injection Eo as <-. vm_compute. discriminate.
Defined.

Lemma added_watched : watched added 9.
Proof.
  intros f Hf. assert (q_list added 9 = [1; 2]) as El by (vm_compute; reflexivity). rewrite El in Hf.
  apply elem_of_cons in Hf as [->|Hf]; [|apply elem_of_cons in Hf as [->|Hf]; [|by apply elem_of_nil in Hf]]; eexists; (split; [vm_compute; reflexivity|vm_compute; reflexivity]).
Qed.

Lemma iofd_fini_complete_witness : exists w', mpq_fini_iofds 3 9 added = Ret (tt, w') /\ q_list w' 9 = [] /\ q_iofds w' 9 = 0 /\
  io_log w' = io_log added ++ map (fun f => EvClose (fd_of added f)) (q_list added 9) /\
  (forall f, f ∈ q_list added 9 -> is_Some (io_objs w' !! f) -> f ∈ io_held w').
Proof. apply (iofd_fini_complete 9 3 added); [exact added_inv|exact added_watched|vm_compute; reflexivity]. Defined.

(** Two of five bytes have been written to the descriptor 5, three wait. *)
Definition written : ioworld := ran_to (run_act 9 (AWrite 5 [1; 2; 3; 4; 5])) (reading 5).
Lemma written_inv : ioinv [1] written.
Proof. apply ran_act_inv, reading_inv. vm_compute. reflexivity. Qed.

Lemma iofd_flush_order_witness : exists o r w' o', io_objs written !! 1 = Some o /\ waiting_bytes o = [3; 4; 5] /\
  __iofd_write_data 5 9 1 written = Ret (r, w') /\ io_objs w' !! 1 = Some o' /\ (r = 0 -> sent 5 (io_log w') ++ waiting_bytes o' = [1; 2; 3; 4; 5]).
Proof.
  destruct (io_objs written !! 1) as [o|] eqn:Eo; [|vm_compute in Eo; discriminate]. exists o.
  assert (length (f_wq o) < 5)%nat as Hl by (vm_compute in Eo; injection Eo as <-; vm_compute; lia).
  assert (c_write (f_conf o) = true) as Hwr by (vm_compute in Eo; injection Eo as <-; reflexivity).
  destruct (iofd_flush_order [1] 9 1 5 written o written_inv ltac:(left) Eo Hwr Hl ltac:(reflexivity) ltac:(reflexivity)) as (r & w' & o' & Er & E' & Hr). exists r, w', o'.
  split; [reflexivity|]. vm_compute in Eo. injection Eo as <-. split; [reflexivity|]. split; [exact Er|]. split; [exact E'|]. intros E0. apply (Hr E0).
Defined.

Lemma iofd_write_order_witness : exists o r w' o', io_objs written !! 1 = Some o /\ ____write 1 [6; 7] written = Ret (r, w') /\ io_objs w' !! 1 = Some o' /\
  r = 2 /\ sent 5 (io_log w') ++ waiting_bytes o' = [1; 2; 3; 4; 5; 6; 7].
Proof.
  destruct (io_objs written !! 1) as [o|] eqn:Eo; [|vm_compute in Eo; discriminate]. exists o.
  destruct (iofd_write_order [1] written 1 o [6; 7] written_inv Eo ltac:(discriminate)) as (r & w' & o' & Er & E' & _ & _ & Hr). exists r, w', o'. split; [reflexivity|]. split; [exact Er|]. split; [exact E'|].
  assert (r = 2) as E2 by (vm_compute in Er; injection Er as <- _; reflexivity). split; [exact E2|]. vm_compute in Eo. injection Eo as <-.
  destruct Hr as [[_ Ha]|[[Hn _]|(Hn & _)]]; [exact Ha|rewrite E2 in Hn; exfalso; lia|rewrite E2 in Hn; discriminate Hn].
Defined.

Lemma iofd_close_correct_witness : exists r w', aosl_close 9 5 added = Ret (r, w') /\ ioinv [] w' /\ attached_fds w' = delete 5 (attached_fds added) /\
  q_list w' 9 = [2] /\ io_log w' = [EvClose 5] /\ io_objs w' !! 1 = None.
Proof.
  destruct (io_objs added !! 1) as [o|] eqn:Eo; [|vm_compute in Eo; discriminate].
  destruct (iofd_close_correct added 5 1 o added_inv ltac:(vm_compute; reflexivity) Eo) as (r & w' & Er & I' & A & L & G & _ & M).
  assert (c_q (f_conf o) = 9) as Eq by (vm_compute in Eo; injection Eo as <-; reflexivity). rewrite Eq in Er, L. exists r, w'. split; [exact Er|]. split; [exact I'|]. split; [exact A|].
  split; [exact L|]. split; [exact G|]. destruct (io_objs w' !! 1); [|reflexivity]. destruct M as (M & _). vm_compute in M. by apply elem_of_nil in M.
Defined.

(** Of the environment, the invariant has only the back end. *)
Lemma ioinv_env (e1 e2 : IoEnv) (D : Unheard) F w : @env_backend e1 = @env_backend e2 -> @ioinv e1 D F w -> @ioinv e2 D F w.
Proof.
  intros E [U R L N T Ti C B K G W]. split; try done.
  - intros fd f o Hf Ho. specialize (G fd f o Hf Ho). unfold hears, loud, awake in *. by rewrite <-E.
  - intros f o Ho. specialize (W f o Ho). unfold full, level in *. by rewrite <-E.
Qed.

(** Calls to other queues fail. *)
Definition failing_env : IoEnv := demo_env Epoll [] 0 true.
Lemma aosl_write_call_failure_witness : exists w', @aosl_write failing_env 10 5 [1; 2; 3; 4; 5] added = Ret (AOSL_EPERM, w') /\ 0 < AOSL_EPERM /\ io_log w' = io_log added /\ io_objs w' = io_objs added.
Proof.
  destruct (io_objs added !! 1) as [o|] eqn:Eo; [|vm_compute in Eo; discriminate].
  apply (@aosl_write_call_failure failing_env none_unheard added 5 1 o 10 AOSL_EPERM); [exact (ioinv_env demo failing_env none_unheard [] added eq_refl added_inv)|vm_compute; reflexivity|exact Eo| |reflexivity].
  vm_compute in Eo. injection Eo as <-. vm_compute. discriminate.
Defined.

(** The poll back end refuses every descriptor. *)
Definition refusing_env : IoEnv := demo_env Epoll [] (-1) false.
Lemma iofd_add_race_witness : exists w1 fd w2 e w3, @add_install refusing_env stream_args io_start = Ret (inr 1, w1) /\ attached_fds w1 !! fd = Some 1 /\ fget fd w1 = Ret (1, w2) /\
  @add_finish refusing_env stream_args 1 w2 = Ret (e, w3) /\ e < 0 /\ fput 1 w3 = Fault.
Proof.
  destruct (@add_install refusing_env stream_args io_start) as [[[e|f] w1]| | |] eqn:E; try (vm_compute in E; discriminate).
  assert (f = 1) as -> by (vm_compute in E; congruence). destruct (@iofd_add_race refusing_env none_unheard io_start stream_args 1 w1 (ioinv_env demo refusing_env none_unheard [] io_start eq_refl io_start_inv) ltac:(reflexivity) ltac:(reflexivity) E) as (fd & w2 & e & w3 & Hr).
  exists w1, fd, w2, e, w3. split; [reflexivity|exact Hr].
Defined.

(** Two threads have found the descriptor 5 in order to delete it; after the first has,
    the descriptor is added again, and then the second deletes. *)
Definition two_dels : list io_act := [AAdd stream_args; AGet 5; AGet 5; ATargetDel 1; APut 1; AAdd stream_args; ATargetDel 1].
Definition deleted_twice : ioworld := ran_to (run_acts 9 two_dels) io_start.

(** The second of two deletions of a descriptor takes the entry of the table that
    belongs to the object of a later [aosl_mpq_add_fd]: this one remains in the list of the
    queue, and the end of the queue never returns. *)
Theorem iofd_double_del :
  ioinv [] deleted_twice /\ q_list deleted_twice 9 = [2] /\ attached_fds deleted_twice !! 5 = None /\ forall fuel, mpq_fini_iofds fuel 9 deleted_twice = NoFuel.
Proof.
  split.
  - unfold deleted_twice, ran_to. destruct (wp_elim _ _ _ (run_acts_wp [] io_start [] two_dels io_start 9 (J_of [] _ io_start_inv))) as ([] & w' & E & J1). rewrite E. by eapply inv_of.
  - split; [vm_compute; reflexivity|]. split; [vm_compute; reflexivity|]. intros fuel. unfold mpq_fini_iofds, cbind at 1.
    destruct (io_objs deleted_twice !! 2) as [o|] eqn:Eo; [|vm_compute in Eo; discriminate].
    rewrite (fini_stuck 9 fuel deleted_twice 2 [] o); [done|by vm_compute|done| | |]; vm_compute in Eo; injection Eo as <-; by vm_compute.
Qed.
