(* ===== verification/IoPoll.v ===== *)
(** * The poll back ends: [kernel/poll_mp.c], [kernel/select_mp.c], [kernel/et_mp.c]
    and the waiting part of [kernel/osmp.c]

    The queue's thread waits for events of the descriptors of its queue and of the
    pipe that wakes it, and handles them.  [epoll] tells of a change once; with [poll]
    and [select] the flags of the objects say what to wait for: what is reported is
    not waited for any more, until a read or a write has been tried.

    [hal_poll] gives the result and the [revents] of each entry, [hal_select] the
    result and the two sets that remain. *)
From S2P Require Import Prelude Refs Iofd.
#[local] Open Scope aosl_scope.

Definition AOSL_ENFILE : Z := AOSL_EBASE + 23.
Definition POLL_MAX_FDS : Z := 1024.

(** [aosl_poll_event_t] as [poll] uses it. *)
Record pollfd := MkPfd { p_fd : Z; p_events : Z; p_revents : Z }.

Class PollHal := {
  hal_tick : ioworld -> Z;
  hal_epoll_wait : ioworld -> Z -> Z -> Z * list (Z * Z);
  hal_poll : ioworld -> list pollfd -> Z -> Z * list Z;
  hal_select : ioworld -> Z -> list Z -> list Z -> Z -> Z * (list Z * list Z)
}.

Section IoPoll.
Context `{IoEnv, PollHal}.

(** ** Waiting *)

(** The time that is left of [timeo]. *)
Definition time_left (timeo time_stamp now : Z) : Z :=
  let timeo := timeo - wraps 64 (now - time_stamp) in if timeo <? 0 then 0 else timeo.

(** From [__again]: the system call is repeated when a signal came, for the rest of
    the time. *)
Fixpoint wait_again {A} (fuel : nat) (call : Z -> CM ioworld (Z * A)) (timeo time_stamp : Z) : CM ioworld (Z * A) :=
  match fuel with
  | O => cnofuel
  | S fuel =>
    do '(timeo, time_stamp) <- (if 0 <? timeo then do now <- ask hal_tick; cret (time_left timeo time_stamp now, now) else cret (timeo, time_stamp));
    do '(err, a) <- call timeo;
    if err =? AOSL_HAL_RET_EINTR then wait_again fuel call timeo time_stamp else cret (err, a)
  end.
Definition wait_from {A} (fuel : nat) (call : Z -> CM ioworld (Z * A)) (timeo : Z) : CM ioworld (Z * A) :=
  do time_stamp <- (if 0 <? timeo then ask hal_tick else cret 0);
  wait_again fuel call timeo time_stamp.

Definition os_mp_wait_epoll (fuel : nat) (maxevents timeo : Z) : CM ioworld (Z * list (Z * Z)) :=
  wait_from fuel (fun timeo => ask (fun w => hal_epoll_wait w maxevents timeo)) timeo.

(** The array that is given to [poll]. *)
Definition to_poll (o : iofd) : pollfd :=
  MkPfd (f_fd o) (Z.lor (if has_flag (f_flags o) AOSL_POLLIN then AOSL_POLLIN else 0) (if has_flag (f_flags o) AOSL_POLLOUT then AOSL_POLLOUT else 0)) 0.
Fixpoint fill_fds (l : list Z) : CM ioworld (list pollfd) :=
  match l with
  | [] => cret []
  | f :: l => do o <- get_f f; do fds <- fill_fds l; cret (to_poll o :: fds)
  end.

(** The part of the two loops over the objects that enters the events of [f] at
    [events [i]]. *)
Definition or_event (i : nat) (b : Z) (events : list (Z * Z)) : CM ioworld (list (Z * Z)) :=
  match events !! i with Some (fd, ev) => cret (<[i := (fd, Z.lor ev b)]> events) | None => cfault end.
Definition disarm (f b : Z) : CM ioworld unit := mod_f f (fun o => set_fflags (Z.ldiff (f_flags o) b) o).
Definition report (f : Z) (readable writable : bool) (i : nat) (events : list (Z * Z)) : CM ioworld (nat * list (Z * Z)) :=
  do events <- (if readable then disarm f AOSL_POLLIN ;; or_event i AOSL_POLLIN events else cret events);
  do events <- (if writable then disarm f AOSL_POLLOUT ;; or_event i AOSL_POLLOUT events else cret events);
  do o <- get_f f;
  match events !! i with
  | Some (_, ev) => cret (if ev =? 0 then (i, events) else (S i, <[i := (f_fd o, ev)]> events))
  | None => cfault
  end.

(** [events] is cleared, and the pipe's entry comes first. *)
Definition no_events (maxevents : Z) : list (Z * Z) := replicate (Z.to_nat maxevents) (AOSL_INVALID_FD, 0).
Definition report_pipe (piper : Z) (readable : bool) (maxevents : Z) : CM ioworld (nat * list (Z * Z)) :=
  let events := no_events maxevents in
  if readable then match events !! 0%nat with Some _ => cret (1%nat, <[0%nat := (piper, AOSL_POLLIN)]> events) | None => cfault end
  else cret (0%nat, events).

Fixpoint poll_collect (err maxevents : Z) (l : list Z) (pfds : list pollfd) (i : nat) (events : list (Z * Z)) : CM ioworld (nat * list (Z * Z)) :=
  match l with
  | [] => cret (i, events)
  | f :: l =>
    match pfds with
    | [] => cfault
    | pfd :: pfds =>
      do o <- get_f f;
      if negb (p_fd pfd =? f_fd o) then cabort else
      do '(i, events) <- report f (has_flag (p_revents pfd) AOSL_POLLIN) (has_flag (p_revents pfd) AOSL_POLLOUT) i events;
      if (err <=? Z.of_nat i) || (maxevents <=? Z.of_nat i) then cret (i, events) else
      poll_collect err maxevents l pfds i events
    end
  end.

Definition set_revents (fds : list pollfd) (revs : list Z) : list pollfd := zip_with (fun p r => MkPfd (p_fd p) (p_events p) r) fds revs.

(** The array has [iofd_count + 1] entries: with another number of objects it
    would be overrun, or [poll] would read entries that were not written. *)
Definition os_mp_wait_poll (fuel : nat) (q piper maxevents timeo : Z) : CM ioworld (Z * list (Z * Z)) :=
  do w <- cget;
  if POLL_MAX_FDS <? q_iofds w q then cret (- AOSL_ENFILE, []) else
  let fds_count := q_iofds w q + 1 in
  do '(err, fds) <- wait_from fuel (fun timeo =>
    do w <- cget;
    do fds <- fill_fds (q_list w q);
    let fds := MkPfd piper AOSL_POLLIN 0 :: fds in
    if negb (Z.of_nat (length fds) =? fds_count) then cfault else
    do '(err, revs) <- ask (fun w => hal_poll w fds timeo);
    cret (err, set_revents fds revs)) timeo;
  if 0 <? err then
    match fds with
    | [] => cfault
    | pfd :: fds =>
      if negb (p_fd pfd =? piper) then cabort else
      do '(i, events) <- report_pipe piper (has_flag (p_revents pfd) AOSL_POLLIN) maxevents;
      do w <- cget;
      do '(i, events) <- poll_collect err maxevents (q_list w q) fds i events;
      cret (Z.of_nat i, events)
    end
  else cret (err, []).

(** The sets that are given to [select]. *)
Fixpoint fill_sets (l : list Z) (readfds writefds : list Z) (maxfd : Z) : CM ioworld (list Z * list Z * Z) :=
  match l with
  | [] => cret (readfds, writefds, maxfd)
  | f :: l =>
    do o <- get_f f;
    fill_sets l (if has_flag (f_flags o) AOSL_POLLIN then f_fd o :: readfds else readfds)
      (if has_flag (f_flags o) AOSL_POLLOUT then f_fd o :: writefds else writefds) (if maxfd <? f_fd o then f_fd o else maxfd)
  end.
Definition isset (fds : list Z) (fd : Z) : bool := bool_decide (fd ∈ fds).
Fixpoint select_collect (err maxevents : Z) (l : list Z) (readfds writefds : list Z) (i : nat) (events : list (Z * Z)) : CM ioworld (nat * list (Z * Z)) :=
  match l with
  | [] => cret (i, events)
  | f :: l =>
    do o <- get_f f;
    do '(i, events) <- report f (isset readfds (f_fd o)) (isset writefds (f_fd o)) i events;
    if (err <=? Z.of_nat i) || (maxevents <=? Z.of_nat i) then cret (i, events) else
    select_collect err maxevents l readfds writefds i events
  end.
Definition os_mp_wait_select (fuel : nat) (q piper maxevents timeo : Z) : CM ioworld (Z * list (Z * Z)) :=
  do '(err, (readfds, writefds)) <- wait_from fuel (fun timeo =>
    do w <- cget;
    do '(readfds, writefds, maxfd) <- fill_sets (q_list w q) [piper] [] piper;
    ask (fun w => hal_select w (maxfd + 1) readfds writefds timeo)) timeo;
  if 0 <? err then
    do '(i, events) <- report_pipe piper (isset readfds piper) maxevents;
    do w <- cget;
    do '(i, events) <- select_collect err maxevents (q_list w q) readfds writefds i events;
    cret (Z.of_nat i, events)
  else cret (err, []).

(** ** Handling *)

(** One event of [os_mp_dispatch_poll] and [os_mp_dispatch_select]. *)
Definition dispatch_ready (fuel : nat) (q fd events : Z) : CM ioworld unit :=
  do f <- fget fd;
  if f =? 0 then cret tt else
  (do err <- (if has_flag events AOSL_POLLOUT then __iofd_write_data fuel q f else cret 0);
   if err <? 0 then cret tt else
   do _ <- (if has_flag events AOSL_POLLIN then __iofd_read_data fuel q f else cret 0);
   cret tt) ;;
  fput f.
Fixpoint os_mp_dispatch_poll (fuel : nat) (q piper : Z) (events : list (Z * Z)) : CM ioworld unit :=
  match events with
  | [] => cret tt
  | (fd, ev) :: events => (if fd =? piper then cret tt else dispatch_ready fuel q fd ev) ;; os_mp_dispatch_poll fuel q piper events
  end.

(** [os_mp_wait] and [os_mp_dispatch] of the back end; [os_mp_dispatch] handles
    the first [err] events. *)
Definition os_mp_wait (fuel : nat) (q piper maxevents timeo : Z) : CM ioworld (Z * list (Z * Z)) :=
  match env_backend with
  | Epoll => os_mp_wait_epoll fuel maxevents timeo
  | Poll => os_mp_wait_poll fuel q piper maxevents timeo
  | Select => os_mp_wait_select fuel q piper maxevents timeo
  end.
Definition os_mp_dispatch (fuel : nat) (q piper : Z) (events : list (Z * Z)) : CM ioworld unit :=
  match env_backend with
  | Epoll => os_mp_dispatch_epoll fuel q piper events
  | Poll | Select => os_mp_dispatch_poll fuel q piper events
  end.
Definition __os_iomp_wait (fuel : nat) (q piper timeo : Z) : CM ioworld Z :=
  do '(err, events) <- os_mp_wait fuel q piper 64 timeo;
  os_mp_dispatch fuel q piper (take (Z.to_nat err) events) ;;
  cret err.

End IoPoll.
