(* ===== verification/IoPollInv.v ===== *)
(** * The poll back ends: what is waited for

    A descriptor from which something can still be read is waited for, and so is one
    to which something is to be written, except between the report of an event and its
    handling. *)
From S2P Require Import Prelude Refs Iofd IofdInv IofdKeep IofdRead IofdStream IofdLife IoPoll.
#[local] Open Scope aosl_scope.

(** Another account of what is pending. *)
Lemma ioinv_switch `{IoEnv} (D1 D2 : Unheard) F w :
  (forall fd f o, attached_fds w !! fd = Some f -> io_objs w !! f = Some o -> @hears _ D1 fd f o -> @hears _ D2 fd f o) -> @ioinv _ D1 F w -> @ioinv _ D2 F w.
Proof. intros Hs [U R L N T Ti C B K G W]. split; try done. intros fd f o Hf Ho. by apply Hs, (G fd f o). Qed.

(** ** The end of a round of reading *)

Section Read.
Context `{IoEnv, Unheard} (F : list Z) (q f : Z) (Hf : f ∈ F).
Abbreviation at_ := (IofdRead.at_ F f).

(** If the object can still be found, it is waited for. *)
Definition heard (w : ioworld) : Prop := forall fd o, attached_fds w !! fd = Some f -> io_objs w !! f = Some o -> loud o.
Lemma heard_gone w : (forall fd, attached_fds w !! fd <> Some f) -> heard w.
Proof. intros Hg fd o Ht. by destruct (Hg fd). Qed.
(** A packet step that returns an error has closed the descriptor. *)
Lemma packet_step_error w o : at_ w o -> c_q (f_conf o) = q -> wp (packet_step q f) w (fun r w' => match r with Return e => e <> 0 -> forall fd, attached_fds w' !! fd <> Some f | _ => True end).
Proof.
  intros Ha Hq. unfold packet_step. apply wp_bind. eapply get_f_wp; [apply Ha|]. set (check := c_chk (f_conf o) && (0 <? f_tail o - f_data o)). apply wp_bind.
  match goal with |- wp ?m _ _ => assert (wp m w (fun k w1 => (check = false -> k = f_tail o - f_data o) /\ exists o1, at_ w1 o1 /\ same_read o o1)) as Hchk end.
  { destruct check; [|apply wp_ret; split; [done|]; by exists o]. eapply wp_mono; [eapply (cb_wp F q f Hf), Ha|]. cbn beta. intros k w1 (_ & _ & _ & _ & Ho1). done. }
  eapply wp_mono; [exact Hchk|]. cbn beta. clear Hchk. intros k w1 (Hall & o1 & A1 & (S1 & S2 & S3 & S4 & _)). apply wp_bind. eapply get_f_wp; [apply A1|].
  destruct (check && aosl_fd_invalid _); [apply wp_ret; intros []; done|]. destruct (check && _) eqn:Hbad.
  { apply wp_bind. eapply wp_mono; [eapply (event_gone F q f Hf); [exact A1|congruence]|]. cbn beta. intros _ w2 Hg. by apply wp_ret. }
  assert (0 <= k <= f_tail o1 - f_data o1) as Hk.
  { pose proof (bo_window _ (at_bufs _ _ _ _ A1)). destruct check; cbn [andb] in Hbad; [|rewrite Hall by done; rewrite S3, S4; pose proof (bo_window _ (at_bufs _ _ _ _ Ha)); lia].
    apply orb_false_iff in Hbad as [?%Z.ltb_ge ?%Z.ltb_ge]. lia. }
  apply wp_bind. match goal with |- wp ?m _ _ => assert (wp m w1 (fun _ w2 => exists o2, at_ w2 o2)) as Hgive end.
  { destruct ((0 <? k) || _); [|apply wp_ret; by exists o1]. eapply wp_mono; [eapply (deliver_wp F q f Hf); [exact A1|done]|]. cbn beta. intros closed w2 (o2 & w2' & ds & (o3 & A3 & _) & _). by exists o3. }
  eapply wp_mono; [exact Hgive|]. cbn beta. intros closed w2 (o2 & A2). destruct closed; [apply wp_ret; intros []; done|]. apply wp_bind. eapply get_f_wp; [apply A2|].
  destruct (has_flag (f_flags o2) _); [destruct (c_chk (f_conf o2)); [apply wp_ret; intros []; done|apply wp_bind; eapply mod_f_wp; [apply A2|]; by apply wp_ret]|]. apply wp_ret. by destruct (k =? 0).
Qed.

Lemma read_packets_heard : forall fuel w o, at_ w o -> c_q (f_conf o) = q -> f_tail o - f_data o < Z.of_nat fuel ->
  wp (read_packets fuel q f) w (fun r w' => exists o', at_ w' o' /\ io_tick w <= io_tick w' /\ f_conf o' = f_conf o /\ match r with Next => False | Again => True | Return _ => heard w' /\ (c_chk (f_conf o) = false -> forall fd, attached_fds w' !! fd <> Some f) end).
Proof.
  induction fuel as [|fuel IH]; intros w o Ha Hq Hl; [pose proof (bo_window _ (at_bufs _ _ _ _ Ha)); lia|]. cbn [read_packets]. apply wp_bind.
  eapply wp_mono; [apply wp_conj; [apply (packet_step_wp F q f Hf w o Ha)|by apply (packet_step_error w o)]|]. cbn beta. intros r w1 [(o1 & A1 & Ht & C1 & T1 & _ & S1 & _) Herr]. destruct r as [| |e].
  - destruct S1 as (? & ? & _). eapply wp_mono; [apply (IH w1 o1 A1); [congruence|lia]|]. cbn beta. intros r w2 (o2 & A2 & Ht2 & C2 & Hr). exists o2. split; [done|]. split; [lia|]. split; [congruence|]. by rewrite <-C1.
  - apply wp_ret. by exists o1.
  - apply wp_ret. exists o1. split; [done|]. split; [done|]. split; [done|]. destruct (decide (e = 0)) as [E0|E0]; [|split; [by apply heard_gone, Herr|intros _; by apply Herr]].
    destruct (S1 E0) as [Hc|(_ & Hz & Hc & _)]; [split; [eapply heard_gone, (closed_gone F); done|intros _; by eapply (closed_gone F)]|]. split; [|congruence]. intros fd o2 _ E2. destruct A1 as [_ E1]. rewrite E1 in E2. injection E2 as <-. do 3 right. split; [congruence|exact Hz].
Qed.

End Read.

Lemma in_set x : has_flag (Z.lor x AOSL_POLLIN) AOSL_POLLIN = true.
Proof. change AOSL_POLLIN with (2 ^ 0). rewrite has_flag_bit, Z.lor_spec by lia. apply orb_true_r. Qed.
Lemma out_set x : has_flag (Z.lor x AOSL_POLLOUT) AOSL_POLLOUT = true.
Proof. change AOSL_POLLOUT with (2 ^ 1). rewrite has_flag_bit, Z.lor_spec by lia. apply orb_true_r. Qed.

(** ** One event *)

Section Event.
Context `{IoEnv} (F : list Z) (q piper f fd : Z) (rest : list (Z * Z * Z)).
(** The event [ev] of [f], and others after it. *)
Definition upto (ev : Z) : Unheard := MkUnheard q piper ((fd, f, ev) :: rest).
Definition handled : Unheard := MkUnheard q piper rest.

Lemma pending_upto ev g h o b : @pending (upto ev) g h o b <-> (c_q (f_conf o) = q /\ g = fd /\ h = f /\ has_flag ev b = true) \/ @pending handled g h o b.
Proof.
  unfold pending. cbn. split.
  - intros [?|(Hq & e & Hin & Hb)]; [by right; left|]. apply elem_of_cons in Hin as [[= -> -> ->]|Hin]; [by left|]. right. right. split; [done|]. by exists e.
  - intros [(Hq & -> & -> & Hb)|[?|(Hq & e & Hin & Hb)]]; [right|by left|right]; (split; [done|]); [exists ev|exists e]; (split; [set_solver|done]).
Qed.

Lemma in_written ev : has_flag (Z.ldiff ev AOSL_POLLOUT) AOSL_POLLIN = has_flag ev AOSL_POLLIN.
Proof. by apply (flag_ldiff _ _ 0). Qed.
Lemma out_written ev : has_flag (Z.ldiff ev AOSL_POLLOUT) AOSL_POLLOUT = false.
Proof. change AOSL_POLLOUT with (2 ^ 1). rewrite has_flag_bit, Z.ldiff_spec, Z.pow2_bits_true by lia. apply andb_false_r. Qed.

(** The writing is over, then the reading. *)
Lemma switch_written ev w : (forall o, attached_fds w !! fd = Some f -> io_objs w !! f = Some o -> c_q (f_conf o) = q -> has_flag ev AOSL_POLLOUT = true -> awake o) ->
  @ioinv _ (upto ev) F w -> @ioinv _ (upto (Z.ldiff ev AOSL_POLLOUT)) F w.
Proof.
  intros Haw. apply ioinv_switch. unfold hears. intros g h o Ht Eo. rewrite !pending_upto, in_written, out_written. intros [H1 H2]. split; [done|].
  destruct H2 as [?|[(Hq & -> & -> & Hb)|?]]; [by left|left; by apply Haw|right; by right].
Qed.
Lemma switch_handled ev w : has_flag ev AOSL_POLLOUT = false ->
  (forall o, attached_fds w !! fd = Some f -> io_objs w !! f = Some o -> c_q (f_conf o) = q -> has_flag ev AOSL_POLLIN = true -> loud o) ->
  @ioinv _ (upto ev) F w -> @ioinv _ handled F w.
Proof.
  intros Hout Hlo. apply ioinv_switch. unfold hears. intros g h o Ht Eo. rewrite !pending_upto, Hout. intros [H1 H2]. split; [|destruct H2 as [?|[(_ & _ & _ & ?)|?]]; [by left|done|by right]].
  destruct H1 as [?|[(Hq & -> & -> & Hb)|?]]; [by left|left; by apply Hlo|by right].
Qed.

Context (Hf : f ∈ F).

(** Reading: the descriptor is waited for again when the first read has been tried. *)
Lemma read_heard T fuel ev w o : calm f T -> has_flag ev AOSL_POLLOUT = false -> @IofdRead.at_ _ (upto ev) F f w o -> c_read (f_conf o) = true -> c_q (f_conf o) = q ->
  buff_size (f_conf o) + 1 + Z.max 0 (T - io_tick w) < Z.of_nat fuel -> wp (__iofd_read_data fuel q f) w (fun _ w' => @ioinv _ handled F w').
Proof.
  intros Hcalm Hout Ha Hrd Hq Hfuel. unfold __iofd_read_data. destruct fuel as [|fuel]; [pose proof (bo_window _ (at_bufs _ _ _ _ Ha)); lia|]. cbn [read_loop]. apply wp_bind.
  pose proof (bo_window _ (at_bufs _ _ _ _ Ha)) as Hwin.
  eapply wp_mono; [apply (@read_packets_heard _ (upto ev) F q f Hf fuel w o Ha Hq); lia|]. cbn beta. intros r w1 (o1 & A1 & Ht1 & C1 & Hr). destruct r as [| |e]; [done| |].
  2: { apply wp_ret. eapply switch_handled; [done| |apply A1]. intros o2 Ht2 E2 _ _. by eapply Hr. }
  apply wp_bind. eapply get_f_wp; [apply A1|]. apply wp_bind. destruct (moved_ok o1 (at_bufs _ _ _ _ A1)) as (Bm & _).
  match goal with |- wp ?m _ _ => assert (wp m w1 (fun _ w2 => @IofdRead.at_ _ (upto ev) F f w2 (moved o1) /\ io_tick w2 = io_tick w1)) as Hmove end.
  { unfold moved in *. destruct (__iofd_better_move_buffer o1); [|by apply wp_ret]. eapply mod_f_wp; [apply A1|]. split; [by eapply at_set|done]. }
  eapply wp_mono; [exact Hmove|]. cbn beta. clear Hmove. intros _ w2 (A2 & Ht2). assert (f_conf (moved o1) = f_conf o) as C2 by (unfold moved; by destruct (__iofd_better_move_buffer o1)).
  apply wp_bind. eapply get_f_wp; [apply A2|]. apply wp_bind. rewrite C2 at 1. rewrite Hrd. eapply wp_mono; [eapply (cb_wp F q f Hf), A2|]. cbn beta. intros r w3 (Er & Ht3 & _ & _ & o3 & A3 & (S1 & S2 & S3 & S4 & _)).
  apply wp_bind. eapply mod_f_wp; [apply A3|]. set (o4 := set_fflags (Z.lor (f_flags o3) AOSL_POLLIN) o3). set (w4 := set_objs _ w3).
  assert (@IofdRead.at_ _ handled F f w4 o4) as A4.
  { assert (@IofdRead.at_ _ (upto ev) F f w4 o4) as [I4 E4] by (eapply at_set; try done; [destruct (at_bufs _ _ _ _ A3); by split|by apply arms_lor]). split; [|done].
    eapply switch_handled; [done| |exact I4]. intros o5 _ E5 _ _. rewrite E4 in E5. injection E5 as <-. do 2 right. left. apply in_set. }
  destruct r as [err|bs].
  - destruct (negb _); [|apply wp_ret; apply A4]. apply wp_bind. eapply wp_mono; [eapply (@event_wp _ handled F q f Hf), A4|]. cbn beta. intros _ w5 (_ & _ & _ & o5 & [I5 _] & _). by apply wp_ret.
  - rewrite C2 in Er. destruct (env_read w2 f _) as [r0 acts] eqn:Eread. cbn in Er. subst r0. pose proof (env_read_len _ _ _ _ _ Eread) as Hlen.
    assert (io_tick w2 < T) as HT. { destruct (Z.lt_ge_cases (io_tick w2) T) as [|Hge]; [done|]. destruct (Hcalm w2 (buff_size (f_conf o) - f_tail (moved o1)) Hge) as (e & acts' & Hr'). congruence. }
    apply wp_bind, modw_wp, wp_bind. pose proof (at_note _ _ w4 o4 (EvRead f bs) A4) as A5. set (w5 := io_note _ w4) in *. pose proof (at_bufs _ _ _ _ A4) as B4. pose proof (bo_window _ B4) as W4. pose proof (bo_size _ B4) as Z4.
    assert (f_conf o4 = f_conf o) as C4 by (cbn; congruence). assert (f_tail o4 = f_tail (moved o1)) as T4 by exact S4. rewrite C4 in W4, Z4. clearbody o4.
    match goal with |- wp ?m _ _ => assert (wp m w5 (fun _ w6 => exists o6, @IofdRead.at_ _ handled F f w6 o6 /\ f_conf o6 = f_conf o /\ io_tick w6 = io_tick w4)) as Hnew end.
    { destruct (bool_decide (bs = [])); (eapply mod_f_wp; [apply A5|]).
      - exists (set_fflags (Z.lor (f_flags o4) IOFD_READ_RETURN_0) o4). split; [eapply at_set; try done; [destruct B4; by split|by apply arms_lor]|]. by rewrite <-C4.
      - eexists. split; [eapply at_set; try done; apply bufs_window; [done|lia|rewrite C4; lia|apply splice_length; lia]|]. by rewrite <-C4. }
    eapply wp_mono; [exact Hnew|]. cbn beta. intros _ w6 (o6 & A6 & C6 & Ht6). apply (@read_data_safe _ handled F q f Hf T fuel w6 o6); [done|congruence|done|].
    rewrite C6. assert (io_tick w4 = io_tick w3) by done. lia.
Qed.

(** Writing: the descriptor is waited for again when the first write has been tried, or
    there is nothing to write. *)
Lemma write_heard T fuel ev w o : calm_write f T -> @IofdRead.at_ _ (upto ev) F f w o -> level || c_write (f_conf o) = true -> Z.max 0 T < Z.of_nat fuel ->
  wp (__iofd_write_data fuel q f) w (fun r w' => exists o', @IofdRead.at_ _ (upto (Z.ldiff ev AOSL_POLLOUT)) F f w' o' /\ f_conf o' = f_conf o /\
    (c_q (f_conf o) = q -> r < 0 -> forall g, attached_fds w' !! g <> Some f)).
Proof.
  intros Hcalm Ha Hwr Hfuel. unfold __iofd_write_data. apply wp_bind. eapply get_f_wp; [apply Ha|]. apply wp_bind. set (ev' := Z.ldiff ev AOSL_POLLOUT).
  assert (forall w o, @IofdRead.at_ _ (upto ev) F f w o -> awake o -> @IofdRead.at_ _ (upto ev') F f w o) as Hsw.
  { intros w1 o1 [I1 E1] Haw. split; [|done]. eapply switch_written; [|exact I1]. intros o2 _ E2 _ _. rewrite E1 in E2. by injection E2 as <-. }
  match goal with |- wp ?m _ _ => assert (wp m w (fun _ w' => exists o', @IofdRead.at_ _ (upto ev) F f w' o' /\ io_tick w' = io_tick w /\ f_conf o' = f_conf o /\ has_flag (f_flags o') IOFD_NOT_READY = false)) as Hm end.
  { destruct (has_flag (f_flags o) IOFD_NOT_READY) eqn:Hnr; [|apply wp_ret; by exists o]. eapply mod_f_wp; [apply Ha|]. set (o1 := set_ftimer _ _). exists o1.
    split; [|split; [done|split; [done|]]].
    - eapply at_timer; [exact Ha|done|done|done|done|destruct (at_bufs _ _ _ _ Ha); by split|]. by apply (arms_ldiff IOFD_NOT_READY o); [..|right].
    - cbn. change IOFD_NOT_READY with (2 ^ 8). rewrite has_flag_bit, Z.ldiff_spec, Z.pow2_bits_true by lia. apply andb_false_r. }
  eapply wp_mono; [exact Hm|]. cbn beta. clear Hm. intros _ w1 (o1 & A1 & Ht1 & C1 & Hnr). rewrite <-C1 in Hwr |- *. pose proof (oi_tick _ _ (proj1 Ha)). destruct fuel as [|fuel]; [lia|]. cbn [write_loop].
  apply wp_bind. eapply get_f_wp; [apply A1|]. destruct (f_wq o1) as [|node l] eqn:Ewq.
  - assert (@IofdRead.at_ _ (upto ev') F f w1 o1) as A2 by (apply Hsw; [done|]; do 3 right; done). apply wp_bind. destruct (c_event _); [|apply wp_ret, wp_ret; exists o1; split; [done|]; split; [done|lia]]. apply wp_bind, modw_wp.
    eapply wp_mono; [eapply (@cb_wp _ (upto ev') F q f Hf), (@at_note _ (upto ev')), A2|]. cbn beta. intros _ w2 (_ & _ & _ & _ & o2 & A3 & S3 & _). apply wp_ret. exists o2. split; [done|]. split; [done|lia].
  - apply wp_bind. rewrite (can_write F f w1 o1 A1 Hwr) by congruence. eapply wp_mono; [eapply (cb_wp F q f Hf), A1|]. cbn beta. intros err w2 (-> & Ht2 & _ & _ & o2 & A2 & (C2 & _ & _ & _ & _ & (extra & Ewq2))).
    apply wp_bind, modw_wp, wp_bind. eapply mod_f_wp; [apply A2|]. set (err := fst (env_write w1 f (wb_bytes node))). set (w2' := io_note _ w2). set (o3 := set_fflags _ o2). set (w3 := set_objs _ w2').
    assert (@IofdRead.at_ _ (upto ev') F f w3 o3) as A3.
    { apply Hsw; [|do 2 right; left; apply out_set]. eapply (at_set F f w2' o2); try done; [by apply at_note|destruct (at_bufs _ _ _ _ A2); by split|by apply arms_lor]. }
    eapply (@write_after_safe _ (upto ev') F q f Hf w3 o3 node (l ++ extra)); [done|cbn; by rewrite Ewq2, Ewq| |].
    { intros e w4 o4 A4 C4 Hg. exists o4. change (f_conf o3) with (f_conf o2) in *. rewrite C2 in *. done. }
    intros He w4 o4 A4 C4 Ht4. assert (f_conf o4 = f_conf o1) as C5 by (cbn in C4; congruence). assert (io_tick w1 < T) as HT by (destruct (Z.lt_ge_cases (io_tick w1) T) as [|Hge]; [done|]; pose proof (Hcalm w1 (wb_bytes node) Hge); unfold err in *; lia).
    rewrite <-C5 in Hwr |- *. apply (@write_loop_safe _ (upto ev') F q f Hf T fuel Hcalm w4 o4 A4 Hwr). cbn in Ht4. lia.
Qed.

End Event.

(** ** The events of a round *)

Section Dispatch.
Context `{IoEnv} (T : Z) (fuel : nat) (q piper : Z) (Hcalm : calm_all T) (Hfuel : enough T fuel) (Hlevel : level = true).

(** What follows when nothing of the event is pending for the object. *)
Lemma ready_safe (D : Unheard) f ev w : @ioinv _ D [f] w -> wp (do err <- (if has_flag ev AOSL_POLLOUT then __iofd_write_data fuel q f else cret 0);
   if err <? 0 then cret tt else do _ <- (if has_flag ev AOSL_POLLIN then __iofd_read_data fuel q f else cret 0); cret tt) w (fun _ w' => @ioinv _ D [f] w').
Proof.
  intros I. destruct (Hcalm f) as [Hcr Hcw]. assert (f ∈ [f]) as Hin by left. destruct (at_get [f] f Hin w I) as (o & Ha). apply wp_bind.
  match goal with |- wp ?m _ _ => assert (wp m w (fun _ w' => exists o', IofdRead.at_ [f] f w' o')) as Hw end.
  { destruct (has_flag ev AOSL_POLLOUT); [|apply wp_ret; by exists o]. eapply wp_mono; [eapply (write_data_safe [f] q f Hin); [done|exact Ha|by rewrite Hlevel|]|intros r w' (o' & ? & _); by exists o'].
    unfold enough in Hfuel. assert (0 <= FD_MAX_PACKET_SIZE_MAX) by done. lia. }
  eapply wp_mono; [exact Hw|]. cbn beta. intros err w1 (o1 & A1). destruct (err <? 0); [apply wp_ret; apply A1|]. apply wp_bind. destruct (has_flag ev AOSL_POLLIN); [|apply wp_ret, wp_ret; apply A1].
  eapply wp_mono; [eapply (read_data_safe [f] q f Hin T fuel w1 o1); [done|by destruct (oi_full _ _ (proj1 A1) f o1 (proj2 A1) Hlevel)|done|by eapply enough_read]|]. cbn beta. intros _ w2 I2. by apply wp_ret.
Qed.

Lemma ready_heard fd f0 ev rest w : fd <> piper -> @ioinv _ (upto q piper f0 fd rest ev) [] w -> wp (dispatch_ready fuel q fd ev) w (fun _ w' => @ioinv _ (handled q piper rest) [] w').
Proof.
  intros Hfd I. unfold dispatch_ready.
  assert (forall f w2, @ioinv _ (handled q piper rest) [f] w2 -> wp (fput f) w2 (fun _ w' => @ioinv _ (handled q piper rest) [] w')) as Hput.
  { intros f w2 I2. eapply wp_mono; [eapply (@fput_wp _ (handled q piper rest) [] w2 []); by apply (@J_of _ (handled q piper rest))|]. cbn beta. intros _ w3 (J3 & _). by eapply (@inv_of _ (handled q piper rest)). }
  destruct (decide (attached_fds w !! fd = Some f0 /\ (fun o => c_q (f_conf o)) <$> io_objs w !! f0 = Some q)) as [[Ht Hobj]|Hnot].
  - destruct (@oi_table _ (upto q piper f0 fd rest ev) _ _ I fd f0 Ht) as (Hinv & o0 & E0 & _). rewrite E0 in Hobj. injection Hobj as Hobj. apply wp_bind.
    eapply wp_mono; [apply wp_conj; [eapply (@fget_wp _ (upto q piper f0 fd rest ev)), (@J_of _ (upto q piper f0 fd rest ev)), I|eapply (@fget_same _ (upto q piper f0 fd rest ev)), I]|]. cbn beta. intros f w1 [[(_ & _ & [?|?])|(Hf & J1 & Et)] Hsame]; [congruence|done|].
    assert (f = f0) as -> by congruence. destruct (Z.eqb_spec f0 0); [lia|]. apply (@inv_of _ (upto q piper f0 fd rest ev)) in J1. assert (f0 ∈ [f0]) as Hin by left. destruct (@at_get _ (upto q piper f0 fd rest ev) [f0] f0 Hin w1 J1) as (o1 & A1).
    destruct (Hsame o1 Hf (proj2 A1)) as (o & _ & Eo & Ec). rewrite E0 in Eo. injection Eo as <-. rewrite <-Ec in Hobj. destruct (Hcalm f0) as [Hcr Hcw].
    apply wp_bind. apply (wp_mono _ _ (fun _ w2 => @ioinv _ (handled q piper rest) [f0] w2)); [|intros [] w2; apply Hput].
    apply wp_bind. match goal with |- wp ?m _ _ => assert (wp m w1 (fun r w' => exists o', @IofdRead.at_ _ (upto q piper f0 fd rest (Z.ldiff ev AOSL_POLLOUT)) [f0] f0 w' o' /\ f_conf o' = f_conf o1 /\
      (c_q (f_conf o1) = q -> r < 0 -> forall g, attached_fds w' !! g <> Some f0))) as Hw end.
    { destruct (has_flag ev AOSL_POLLOUT) eqn:Hout.
      - eapply (write_heard [f0] q piper f0 fd rest Hin); [done|exact A1|by rewrite Hlevel|]. unfold enough in Hfuel. assert (0 <= FD_MAX_PACKET_SIZE_MAX) by done. lia.
      - apply wp_ret. exists o1. split; [|split; [done|lia]]. destruct A1 as [I1 E1]. split; [|done]. apply (switch_written [f0] q piper f0 fd rest ev w1); [|exact I1]. intros. congruence. }
    eapply wp_mono; [exact Hw|]. cbn beta. clear Hw. intros err w2 (o2 & A2 & C2 & Hneg). destruct (Z.ltb_spec err 0).
    + apply wp_ret. eapply switch_handled; [apply out_written| |apply A2]. intros o3 Ht3 _ _ _. by destruct (Hneg Hobj ltac:(lia) fd).
    + apply wp_bind. destruct (has_flag ev AOSL_POLLIN) eqn:Hrd.
      * eapply wp_mono; [eapply (read_heard [f0] q piper f0 fd rest Hin T fuel _ w2 o2 Hcr (out_written ev) A2)|]; [by destruct (@oi_full _ (upto q piper f0 fd rest (Z.ldiff ev AOSL_POLLOUT)) _ _ (proj1 A2) f0 o2 (proj2 A2) Hlevel)|congruence|by eapply (@enough_read _ (upto q piper f0 fd rest (Z.ldiff ev AOSL_POLLOUT)))|].
        cbn beta. intros _ w3 I3. by apply wp_ret.
      * apply wp_ret, wp_ret. eapply switch_handled; [apply out_written| |apply A2]. intros o3 _ _ _. rewrite in_written. congruence.
  - assert (@ioinv _ (handled q piper rest) [] w) as I'.
    { eapply ioinv_switch; [|exact I]. unfold hears. intros g h o Ht Eo. rewrite !pending_upto. assert (~ (c_q (f_conf o) = q /\ g = fd /\ h = f0)) as Hn by (intros (? & -> & ->); apply Hnot; split; [done|rewrite Eo; cbn; congruence]). tauto. }
    apply wp_bind. eapply wp_mono; [eapply (@fget_wp _ (handled q piper rest)), (@J_of _ (handled q piper rest)), I'|]. cbn beta. intros f w1 [(-> & J1 & _)|(Hf & J1 & _)]; [apply wp_ret; by eapply (@inv_of _ (handled q piper rest))|].
    destruct (Z.eqb_spec f 0); [lia|]. apply (@inv_of _ (handled q piper rest)) in J1. apply wp_bind. eapply wp_mono; [apply (ready_safe (handled q piper rest) f ev w1 J1)|]. cbn beta. intros [] w2 I2. by apply Hput.
Qed.

(** The events are those of the objects and perhaps one of the pipe. *)
Definition strip (x : Z * Z * Z) : Z * Z := (x.1.1, x.2).
Lemma dispatch_heard : forall D w, @ioinv _ (MkUnheard q piper D) [] w ->
  wp (os_mp_dispatch_poll fuel q piper (map strip D)) w (fun _ w' => @ioinv _ (MkUnheard q piper []) [] w').
Proof.
  induction D as [|[[fd f] ev] D IH]; intros w I; cbn [map os_mp_dispatch_poll]; [by apply wp_ret|]. change (strip (fd, f, ev)) with (fd, ev). cbn iota beta. apply wp_bind. destruct (Z.eqb_spec fd piper) as [->|Hne].
  - apply wp_ret, IH. eapply ioinv_switch; [|exact I]. unfold hears. intros g h o Ht Eo. change (MkUnheard q piper ((piper, f, ev) :: D)) with (upto q piper f piper D ev).
    rewrite !pending_upto. unfold pending at 2 4. cbn. intros [H1 H2]. split; [destruct H1 as [?|[(_ & -> & _)|?]]; [by left|right; by left|by right]|destruct H2 as [?|[(_ & -> & _)|?]]; [by left|right; by left|by right]].
  - eapply wp_mono; [by apply (ready_heard fd f ev D)|]. cbn beta. intros [] w1 I1. by apply IH.
Qed.
End Dispatch.
