(* ===== verification/IoPollProps.v ===== *)
(** * The poll back ends: the theorems *)
From S2P Require Import Prelude Refs Iofd IofdInv IofdKeep IofdRead IofdStream IofdLife IofdProps IoPoll IoPollInv.
#[local] Open Scope aosl_scope.

(** ** Reporting *)

Section Report.
Context `{IoEnv} (q piper : Z).
Abbreviation none := (AOSL_INVALID_FD, 0).
Abbreviation un := (MkUnheard q piper).

Lemma mid_lookup {A} (l : list A) x r : (l ++ x :: r) !! length l = Some x.
Proof. by rewrite lookup_app_r, Nat.sub_diag by lia. Qed.
Lemma mid_insert {A} (l : list A) x y r : <[length l := y]> (l ++ x :: r) = l ++ y :: r.
Proof. rewrite <-(Nat.add_0_r (length l)) at 1. by rewrite insert_app_r. Qed.

(** An event that is reported is no longer waited for. *)
Lemma disarm_inv D F w f o n : @ioinv _ (un D) F w -> io_objs w !! f = Some o -> (n = 0 \/ n = 1) -> (forall fd, attached_fds w !! fd = Some f -> @pending (un D) fd f o (2 ^ n)) ->
  @ioinv _ (un D) F (set_objs (<[f := set_fflags (Z.ldiff (f_flags o) (2 ^ n)) o]> (io_objs w)) w).
Proof.
  intros I E Hn Hp. set (o' := set_fflags _ o). apply (@inv_of _ (un D) F w). eapply (@J_change _ (un D)); try done; [by apply (@J_of _ (un D))|by intros ?%elem_of_nil| | |by left|by left].
  - destruct (@oi_bufs _ (un D) _ _ I f o E). by split.
  - intros fd Ht [H1 H2]. specialize (Hp fd Ht). destruct Hn as [-> | ->]; split; try (by right).
    + destruct H2 as [[?|[?|[?|[? Hr]]]]|?]; [left; by left|left; right; by left|left; do 2 right; left; cbn; by rewrite (flag_ldiff _ _ 1)| |by right].
      left. do 3 right. split; [done|]. cbn. by rewrite (flag_ldiff _ _ 8).
    + destruct H1 as [[?|[?|[?|[? Hr]]]]|?]; [left; by left|left; right; by left|left; do 2 right; left; cbn; by rewrite (flag_ldiff _ _ 0)| |by right].
      left. do 3 right. split; [done|]. cbn. by rewrite (flag_ldiff _ _ 10).
Qed.

(** More is pending. *)
Lemma more_pending D D' F w : @ioinv _ (un D) F w -> @ioinv _ (un (D ++ D')) F w.
Proof.
  apply ioinv_switch. intros fd f o _ _ [H1 H2]. split; [destruct H1 as [?|[?|(? & ev & ? & ?)]]|destruct H2 as [?|[?|(? & ev & ? & ?)]]]; try (by left); right; try (by left);
    right; (split; [done|]); exists ev; (split; [apply elem_of_app; by left|done]).
Qed.

(** Of the objects, only flags have changed. *)
Definition ident (o : iofd) : Z * ioconf := (f_fd o, f_conf o).
Definition same_fds (w w' : ioworld) : Prop := io_lists w' = io_lists w /\ forall g, ident <$> io_objs w' !! g = ident <$> io_objs w !! g.
Lemma same_fds_flags w f o x : io_objs w !! f = Some o -> same_fds w (set_objs (<[f := set_fflags x o]> (io_objs w)) w).
Proof. intros E. split; [done|]. intros g. cbn. destruct (decide (g = f)) as [->|]; [by rewrite lookup_insert_eq, E|by rewrite lookup_insert_ne]. Qed.

(** What the reporting of an object's events does: [i] and [events]. *)
Definition reports (D : list (Z * Z * Z)) (F : list Z) (evs : list (Z * Z)) (n : nat) (w : ioworld) (r : nat * list (Z * Z)) (w' : ioworld) : Prop :=
  same_fds w w' /\ exists D' k, @ioinv _ (un (D ++ D')) F w' /\ r = (length (evs ++ map strip D'), (evs ++ map strip D') ++ replicate k none) /\ (length (evs ++ map strip D') + k = n)%nat.

Lemma report_wp D F w f o rd wr evs k : @ioinv _ (un D) F w -> io_objs w !! f = Some o -> c_q (f_conf o) = q ->
  wp (report f rd wr (length evs) (evs ++ replicate (S k) none)) w (reports D F evs (length evs + S k) w).
Proof.
  intros I E Hq. pose proof (fun fd Ht => @oi_table _ (un D) _ _ I fd f Ht) as Htab.
  assert (forall ev b, has_flag ev b = true -> forall o1, f_conf o1 = f_conf o -> forall fd, attached_fds w !! fd = Some f -> @pending (un (D ++ [(f_fd o, f, ev)])) fd f o1 b) as Hpend.
  { intros ev b Hb o1 C1 fd Ht. destruct (Htab fd Ht) as (_ & o2 & E2 & Hfd & _). rewrite E in E2. injection E2 as <-. right. split; [by rewrite C1|]. exists ev. split; [|done]. rewrite <-Hfd. set_solver. }
  assert (forall ev w', same_fds w w' -> @ioinv _ (un (D ++ [(f_fd o, f, ev)])) F w' -> reports D F evs (length evs + S k) w (S (length evs), evs ++ (f_fd o, ev) :: replicate k none) w') as Hone.
  { intros ev w' Hs I'. split; [done|]. exists [(f_fd o, f, ev)], k. split; [done|]. cbn. rewrite length_app, <-app_assoc. cbn. split; [f_equal; lia|lia]. }
  cbn [replicate]. unfold report, disarm, or_event. destruct rd, wr.
  - apply wp_bind, wp_bind. eapply mod_f_wp; [done|]. rewrite mid_lookup, mid_insert. apply wp_ret, wp_bind, wp_bind. eapply mod_f_wp; [cbn; by rewrite lookup_insert_eq|]. rewrite mid_lookup, mid_insert.
    apply wp_ret, wp_bind. eapply get_f_wp; [cbn; by rewrite lookup_insert_eq|]. rewrite mid_lookup. apply wp_ret. cbn [f_fd set_fflags f_flags Z.lor Pos.lor Z.eqb]. rewrite mid_insert. apply (Hone 3).
    + split; [done|]. intros g. cbn. rewrite insert_insert_eq. destruct (decide (g = f)) as [->|]; [by rewrite lookup_insert_eq, E|by rewrite lookup_insert_ne].
    + set (o1 := set_fflags _ o). eapply (disarm_inv _ F _ f o1 1); [|cbn; by rewrite lookup_insert_eq|by right|by apply (Hpend 3)].
      apply (disarm_inv _ F w f o 0); [by apply more_pending|done|by left|by apply (Hpend 3)].
  - apply wp_bind, wp_bind. eapply mod_f_wp; [done|]. rewrite mid_lookup, mid_insert. apply wp_ret, wp_bind, wp_ret, wp_bind. eapply get_f_wp; [cbn; by rewrite lookup_insert_eq|].
    rewrite mid_lookup. apply wp_ret. cbn [f_fd set_fflags Z.lor Z.eqb AOSL_POLLIN]. rewrite mid_insert. apply (Hone 1); [by apply same_fds_flags|].
    apply (disarm_inv _ F w f o 0); [by apply more_pending|done|by left|by apply (Hpend 1)].
  - apply wp_bind, wp_ret, wp_bind, wp_bind. eapply mod_f_wp; [done|]. rewrite mid_lookup, mid_insert. apply wp_ret, wp_bind. eapply get_f_wp; [cbn; by rewrite lookup_insert_eq|].
    rewrite mid_lookup. apply wp_ret. cbn [f_fd set_fflags Z.lor Z.eqb AOSL_POLLOUT]. rewrite mid_insert. apply (Hone 2); [by apply same_fds_flags|].
    apply (disarm_inv _ F w f o 1); [by apply more_pending|done|by right|by apply (Hpend 2)].
  - apply wp_bind, wp_ret, wp_bind, wp_ret, wp_bind. eapply get_f_wp; [done|]. rewrite mid_lookup. apply wp_ret. cbn [Z.eqb]. split; [done|]. exists [], (S k). cbn. rewrite !app_nil_r. done.
Qed.

Lemma same_fds_trans w1 w2 w3 : same_fds w1 w2 -> same_fds w2 w3 -> same_fds w1 w3.
Proof. intros [L1 E1] [L2 E2]. split; [congruence|]. intros g. by rewrite E2. Qed.
Lemma reports_trans D F evs n w w1 D1 r2 w2 :
  same_fds w w1 -> reports (D ++ D1) F (evs ++ map strip D1) n w1 r2 w2 -> reports D F evs n w r2 w2.
Proof.
  intros S1 (S2 & D2 & k2 & I2 & -> & Hk). split; [by eapply same_fds_trans|]. exists (D1 ++ D2), k2. rewrite map_app, !(assoc_L (++)). done.
Qed.

(** The objects of the list can be found. *)
Definition objects (w : ioworld) (l : list Z) : Prop := Forall (fun f => exists o, io_objs w !! f = Some o /\ c_q (f_conf o) = q) l.
Lemma objects_q D F w : @ioinv _ (un D) F w -> objects w (q_list w q).
Proof. intros I. apply Forall_forall. intros f Hin. by apply (@oi_list _ (un D) _ _ I q f). Qed.

Definition matches (w : ioworld) (l : list Z) (pfds : list pollfd) : Prop := Forall2 (fun f p => f_fd <$> io_objs w !! f = Some (p_fd p)) l pfds.
Lemma matches_same w w' l pfds : same_fds w w' -> matches w l pfds -> matches w' l pfds.
Proof.
  intros [_ Hs] Hm. eapply Forall2_impl; [exact Hm|]. intros f p Hp. cbn beta in *. specialize (Hs f).
  unfold ident in Hs. destruct (io_objs w !! f), (io_objs w' !! f); cbn in *; congruence.
Qed.
Lemma objects_same w w' l : same_fds w w' -> objects w l -> objects w' l.
Proof.
  intros [_ Hs] Ho. eapply Forall_impl; [exact Ho|]. intros f (o & E & Hq). cbn beta. specialize (Hs f). rewrite E in Hs. destruct (io_objs w' !! f) as [o'|]; [|done]. exists o'. split; [done|]. unfold ident in Hs. cbn in Hs. congruence.
Qed.

Lemma collect_step D F w evs k f o rd wr (rest : nat -> list (Z * Z) -> CM ioworld (nat * list (Z * Z))) err maxevents :
  @ioinv _ (un D) F w -> io_objs w !! f = Some o -> c_q (f_conf o) = q -> Z.of_nat (length evs + S k) = maxevents ->
  (forall D' k' w', same_fds w w' -> @ioinv _ (un (D ++ D')) F w' -> (length (evs ++ map strip D') + S k' = length evs + S k)%nat ->
     wp (rest (length (evs ++ map strip D')) ((evs ++ map strip D') ++ replicate (S k') none)) w' (reports (D ++ D') F (evs ++ map strip D') (length evs + S k) w')) ->
  wp (do '(i, events) <- report f rd wr (length evs) (evs ++ replicate (S k) none);
      if (err <=? Z.of_nat i) || (maxevents <=? Z.of_nat i) then cret (i, events) else rest i events) w (reports D F evs (length evs + S k) w).
Proof.
  intros I E Hq Hmax Hrest. apply wp_bind. eapply wp_mono; [by apply (report_wp D F w f o)|]. cbn beta. intros [i events] w1 (S1 & D1 & k1 & I1 & [= -> ->] & Hk). cbn beta iota.
  destruct (_ || _) eqn:Hstop; [apply wp_ret; split; [done|]; by exists D1, k1|]. apply orb_false_iff in Hstop as [_ Hstop]. apply Z.leb_gt in Hstop. destruct k1 as [|k1]; [lia|].
  eapply wp_mono; [by apply (Hrest D1 k1)|]. intros r w2 Hr. by eapply reports_trans.
Qed.

Lemma poll_collect_wp F err maxevents : forall l pfds D w evs k, @ioinv _ (un D) F w -> objects w l -> matches w l pfds -> Z.of_nat (length evs + S k) = maxevents ->
  wp (poll_collect err maxevents l pfds (length evs) (evs ++ replicate (S k) none)) w (reports D F evs (length evs + S k) w).
Proof.
  induction l as [|f l IH]; intros pfds D w evs k I Ho Hm Hmax; [apply wp_ret; split; [done|]; exists [], (S k); cbn; by rewrite !app_nil_r|].
  apply Forall_cons in Ho as [(o & E & Hq) Ho]. destruct pfds as [|p pfds]; [by inversion Hm|]. apply Forall2_cons in Hm as [Hp Hm]. rewrite E in Hp. injection Hp as Hp. cbn [poll_collect].
  apply wp_bind. eapply get_f_wp; [done|]. rewrite <-Hp, Z.eqb_refl. cbn [negb].
  apply (collect_step D F w evs k f o _ _ (fun i events => poll_collect err maxevents l pfds i events)); try done.
  intros D' k' w' S' I' Hk. rewrite <-Hk. apply IH; [done|by eapply objects_same|by eapply matches_same|lia].
Qed.

Lemma select_collect_wp F err maxevents rd wr : forall l D w evs k, @ioinv _ (un D) F w -> objects w l -> Z.of_nat (length evs + S k) = maxevents ->
  wp (select_collect err maxevents l rd wr (length evs) (evs ++ replicate (S k) none)) w (reports D F evs (length evs + S k) w).
Proof.
  induction l as [|f l IH]; intros D w evs k I Ho Hmax; [apply wp_ret; split; [done|]; exists [], (S k); cbn; by rewrite !app_nil_r|].
  apply Forall_cons in Ho as [(o & E & Hq) Ho]. cbn [select_collect]. apply wp_bind. eapply get_f_wp; [done|].
  apply (collect_step D F w evs k f o _ _ (fun i events => select_collect err maxevents l rd wr i events)); try done.
  intros D' k' w' S' I' Hk. rewrite <-Hk. apply IH; [done|by eapply objects_same|lia].
Qed.

(** ** Waiting *)

Lemma fill_fds_wp w : forall l, objects w l -> wp (fill_fds l) w (fun fds w' => w' = w /\ matches w l fds).
Proof.
  induction l as [|f l IH]; intros Ho; [apply wp_ret; split; [done|constructor]|]. apply Forall_cons in Ho as [(o & E & _) Ho]. cbn [fill_fds]. apply wp_bind. eapply get_f_wp; [done|]. apply wp_bind.
  eapply wp_mono; [by apply IH|]. cbn beta. intros fds w' [-> Hm]. apply wp_ret. split; [done|]. constructor; [by rewrite E|done].
Qed.
Lemma fill_sets_wp w : forall l rd wr m, objects w l -> wp (fill_sets l rd wr m) w (fun _ w' => w' = w).
Proof.
  induction l as [|f l IH]; intros rd wr m Ho; [by apply wp_ret|]. apply Forall_cons in Ho as [(o & E & _) Ho]. cbn [fill_sets]. apply wp_bind. eapply get_f_wp; [done|]. by apply IH.
Qed.

End Report.

(** The system calls: [poll] fills every entry, and signals do not come for ever. *)
Record hal_ok `{PollHal} (T : Z) : Prop := {
  poll_fills : forall w fds timeo, length (snd (hal_poll w fds timeo)) = length fds;
  poll_calm : forall w fds timeo, fst (hal_poll w fds timeo) = AOSL_HAL_RET_EINTR -> io_tick w < T;
  select_calm : forall w n rd wr timeo, fst (hal_select w n rd wr timeo) = AOSL_HAL_RET_EINTR -> io_tick w < T
}.

Section Wait.
Context `{IoEnv, PollHal} (T : Z) (Hhal : hal_ok T) (q piper : Z).
Abbreviation un := (MkUnheard q piper).
Abbreviation ok w := (@ioinv _ (un []) [] w).

Lemma ok_next w : ok w -> ok (io_next w).
Proof. intros I. apply (@inv_of _ (un []) [] w), J_next. by apply (@J_of _ (un [])). Qed.

Lemma wait_again_wp {A} (call : Z -> CM ioworld (Z * A)) (P : ioworld -> Prop) (Q : A -> ioworld -> Prop) :
  (forall w, P w -> P (io_next w)) ->
  (forall timeo w, P w -> wp (call timeo) w (fun '(err, a) w' => P w' /\ Q a w' /\ io_tick w < io_tick w' /\ (err = AOSL_HAL_RET_EINTR -> io_tick w < T))) ->
  forall fuel timeo ts w, P w -> Z.max 0 (T - io_tick w) < Z.of_nat fuel -> wp (wait_again fuel call timeo ts) w (fun '(err, a) w' => P w' /\ Q a w').
Proof.
  intros Hnext Hcall. induction fuel as [|fuel IH]; intros timeo ts w I Hf; [lia|]. cbn [wait_again]. apply wp_bind.
  match goal with |- wp ?m _ _ => assert (wp m w (fun _ w' => P w' /\ io_tick w <= io_tick w')) as Ht end.
  { destruct (0 <? timeo); [apply wp_bind, ask_wp, wp_ret; split; [by apply Hnext|cbn; lia]|by apply wp_ret]. }
  eapply wp_mono; [exact Ht|]. cbn beta. intros [timeo1 ts1] w1 [I1 Ht1]. apply wp_bind. eapply wp_mono; [by apply Hcall|]. cbn beta. intros [err a] w2 (I2 & HQ & Ht2 & He). cbn beta iota.
  destruct (Z.eqb_spec err AOSL_HAL_RET_EINTR) as [E|]; [|by apply wp_ret]. apply IH; [done|]. specialize (He E). lia.
Qed.
Lemma wait_from_wp {A} (call : Z -> CM ioworld (Z * A)) (P : ioworld -> Prop) (Q : A -> ioworld -> Prop) fuel timeo w :
  (forall w, P w -> P (io_next w)) ->
  (forall timeo w, P w -> wp (call timeo) w (fun '(err, a) w' => P w' /\ Q a w' /\ io_tick w < io_tick w' /\ (err = AOSL_HAL_RET_EINTR -> io_tick w < T))) ->
  P w -> 0 <= io_tick w -> Z.max 0 T < Z.of_nat fuel -> wp (wait_from fuel call timeo) w (fun '(err, a) w' => P w' /\ Q a w').
Proof.
  intros Hnext Hcall I H0' Hf. unfold wait_from. apply wp_bind. destruct (0 <? timeo); [apply ask_wp|apply wp_ret]; (apply wait_again_wp; try done).
  - by apply Hnext.
  - cbn. lia.
  - lia.
Qed.

(** The reported events are those of the pipe and those that are pending. *)
Definition reported_all (r : Z * list (Z * Z)) (w' : ioworld) : Prop :=
  exists D pipe, @ioinv _ (un D) [] w' /\ take (Z.to_nat r.1) r.2 = pipe ++ map strip D /\ (pipe = [] \/ pipe = [(piper, AOSL_POLLIN)]).

Lemma reported_none err w : ok w -> reported_all (err, []) w.
Proof. intros I. exists [], []. split; [done|]. split; [cbn; by rewrite take_nil|by left]. Qed.
Lemma report_pipe_wp rd n w : (2 <= n)%nat -> wp (report_pipe piper rd (Z.of_nat n)) w (fun r w' => w' = w /\
  exists pipe k, r = (length pipe, pipe ++ replicate (S k) (AOSL_INVALID_FD, 0)) /\ (length pipe + S k = n)%nat /\ (pipe = [] \/ pipe = [(piper, AOSL_POLLIN)])).
Proof.
  intros Hn. unfold report_pipe, no_events. rewrite Nat2Z.id. destruct n as [|[|n]]; [lia|lia|]. destruct rd; apply wp_ret; (split; [done|]).
  - exists [(piper, AOSL_POLLIN)], n. split; [done|]. split; [done|by right].
  - exists [], (S n). split; [done|]. split; [done|by left].
Qed.
Lemma reports_all pipe k w r w' : (pipe = [] \/ pipe = [(piper, AOSL_POLLIN)]) -> reports q piper [] [] pipe (length pipe + S k) w r w' -> reported_all (Z.of_nat r.1, r.2) w'.
Proof.
  intros Hp (_ & D & k' & I & -> & _). exists D, pipe. split; [done|]. split; [|done]. cbn [fst snd]. rewrite Nat2Z.id. apply take_app_length.
Qed.

Lemma wait_poll_wp fuel n timeo w : ok w -> (2 <= n)%nat -> Z.max 0 T < Z.of_nat fuel -> wp (os_mp_wait_poll fuel q piper (Z.of_nat n) timeo) w reported_all.
Proof.
  intros I Hn Hf. unfold os_mp_wait_poll. apply wp_bind, wp_get. destruct (POLL_MAX_FDS <? q_iofds w q); [apply wp_ret; by apply reported_none|]. apply wp_bind.
  pose proof (@oi_tick _ (un []) _ _ I) as Ht0. set (n0 := q_iofds w q).
  eapply wp_mono; [apply (wait_from_wp _ (fun w' => ok w' /\ q_iofds w' q = n0) (fun fds w' => exists p fds', fds = p :: fds' /\ p_fd p = piper /\ matches w' (q_list w' q) fds')); [| |done|done|done]|].
  - intros w1 [I1 E1]. split; [by apply ok_next|done].
  - intros timeo1 w1 [I1 E1]. apply wp_bind, wp_get, wp_bind. pose proof (objects_q q piper [] [] w1 I1) as Ho. eapply wp_mono; [by apply (fill_fds_wp q)|]. cbn beta. intros fds w2 [-> Hm].
    pose proof (Forall2_length _ _ _ Hm) as Hlen. rewrite <-E1, (@oi_count _ (un []) _ _ I1). cbn [length]. destruct (Z.eqb_spec (Z.of_nat (S (length fds))) (Z.of_nat (length (q_list w1 q)) + 1)); [cbn [negb]|lia].
    apply wp_bind, ask_wp. set (fds0 := MkPfd piper AOSL_POLLIN 0 :: fds). pose proof (poll_fills T Hhal w1 fds0 timeo1) as Hfill. pose proof (poll_calm T Hhal w1 fds0 timeo1) as Hcalm.
    destruct (hal_poll w1 fds0 timeo1) as [err revs]. cbn [fst snd] in *. destruct revs as [|rev revs]; [done|]. apply wp_ret. split; [split; [by apply ok_next|apply (@oi_count _ (un []) _ _ I1)]|]. split; [|split; [cbn; lia|done]].
    exists (MkPfd piper AOSL_POLLIN rev), (set_revents fds revs). split; [done|]. split; [done|]. cbn in Hfill. injection Hfill as Hfill. change (matches w1 (q_list w1 q) (set_revents fds revs)).
    clear -Hm Hfill. revert revs Hfill. induction Hm as [|f p l fds Hp Hm IH]; intros [|r revs] Hl; try done; [constructor|]. constructor; [done|]. apply IH. by injection Hl.
  - cbn beta. intros [err fds] w1 [[I1 _] (p & fds' & -> & Hp & Hm)]. cbn beta iota. destruct (0 <? err); [|apply wp_ret; by apply reported_none]. rewrite Hp, Z.eqb_refl. cbn [negb].
    apply wp_bind. eapply wp_mono; [by apply report_pipe_wp|]. cbn beta. intros [i events] w2 (-> & pipe & k & [= -> ->] & Hk & Hpipe). cbn beta iota. apply wp_bind, wp_get, wp_bind.
    eapply wp_mono; [apply (poll_collect_wp q piper [] err (Z.of_nat n) (q_list w1 q) fds' [] w1 pipe k I1); [by apply (objects_q q piper [] [])|done|lia]|].
    cbn beta. intros [i events] w3 Hr. apply wp_ret. by apply (reports_all pipe k w1 (i, events) w3).
Qed.

Lemma wait_select_wp fuel n timeo w : ok w -> (2 <= n)%nat -> Z.max 0 T < Z.of_nat fuel -> wp (os_mp_wait_select fuel q piper (Z.of_nat n) timeo) w reported_all.
Proof.
  intros I Hn Hf. unfold os_mp_wait_select. apply wp_bind. pose proof (@oi_tick _ (un []) _ _ I) as Ht0.
  eapply wp_mono; [apply (wait_from_wp _ (fun w' => ok w') (fun _ _ => True)); try done|].
  - intros w1 I1. by apply ok_next.
  - intros timeo1 w1 I1. apply wp_bind, wp_get, wp_bind. eapply wp_mono; [by apply (fill_sets_wp q), (objects_q q piper [] [])|]. cbn beta. intros [[rd wr] m] w2 ->. apply ask_wp.
    pose proof (select_calm T Hhal w1 (m + 1) rd wr timeo1) as Hcalm. destruct (hal_select w1 (m + 1) rd wr timeo1) as [err sets]. split; [by apply ok_next|]. split; [done|]. split; [cbn; lia|done].
  - cbn beta. intros [err [rd wr]] w1 [I1 _]. cbn beta iota. destruct (0 <? err); [|apply wp_ret; by apply reported_none].
    apply wp_bind. eapply wp_mono; [by apply report_pipe_wp|]. cbn beta. intros [i events] w2 (-> & pipe & k & [= -> ->] & Hk & Hpipe). cbn beta iota. apply wp_bind, wp_get, wp_bind.
    eapply wp_mono; [apply (select_collect_wp q piper [] err (Z.of_nat n) rd wr (q_list w1 q) [] w1 pipe k I1); [by apply (objects_q q piper [] [])|lia]|].
    cbn beta. intros [i events] w3 Hr. apply wp_ret. by apply (reports_all pipe k w1 (i, events) w3).
Qed.

(** C17: With [poll] and with [select], after every round of waiting and handling, a
    descriptor that can still be read is waited for again, and so is one to which bytes
    are to be written or that is not ready yet, when the user's functions meanwhile close,
    delete, add and write to this and other descriptors (adding them with a read function, and
    writing only to those with a write function, but not sending: [aosl_send] and
    [aosl_sendto] are the subject of [sk_send_not_heard]) and reads and writes come to an end
    after some time; the round ends, keeps inside the arrays of
    events, and leaves the descriptors sound. *)
Theorem iomp_hears fuel timeo w :
  level = true -> calm_all T -> enough T fuel -> ok w ->
  exists err w', __os_iomp_wait fuel q piper timeo w = Ret (err, w') /\ ok w' /\
    forall fd f o, fd <> piper -> attached_fds w' !! fd = Some f -> io_objs w' !! f = Some o ->
      (c_read (f_conf o) = true -> has_flag (f_flags o) AOSL_POLLIN = true \/ (c_chk (f_conf o) = true /\ has_flag (f_flags o) IOFD_READ_RETURN_0 = true)) /\
      (c_write (f_conf o) = true -> f_wq o <> [] \/ has_flag (f_flags o) IOFD_NOT_READY = true -> has_flag (f_flags o) AOSL_POLLOUT = true).
Proof.
  intros Hl Hcalm Hfuel I. assert (Z.max 0 T < Z.of_nat fuel) as Hf by (unfold enough in Hfuel; assert (0 <= FD_MAX_PACKET_SIZE_MAX) by done; lia).
  assert (wp (__os_iomp_wait fuel q piper timeo) w (fun _ w' => ok w')) as Hwp.
  - unfold __os_iomp_wait. apply wp_bind. match goal with |- wp ?m _ _ => assert (wp m w reported_all) as Hw end.
    { unfold os_mp_wait, level in *. destruct env_backend; [done|apply (wait_poll_wp fuel 64); [done|lia|done]|apply (wait_select_wp fuel 64); [done|lia|done]]. }
    eapply wp_mono; [exact Hw|]. cbn beta. intros [err events] w1 (D & pipe & I1 & E & Hpipe). cbn beta iota. cbn [fst snd] in E. rewrite E. apply wp_bind.
    assert (wp (os_mp_dispatch_poll fuel q piper (pipe ++ map strip D)) w1 (fun _ w' => ok w')) as Hd.
    { pose proof (dispatch_heard T fuel q piper Hcalm Hfuel Hl D w1 I1) as Hd. destruct Hpipe as [-> | ->]; [exact Hd|]. cbn [app os_mp_dispatch_poll]. rewrite Z.eqb_refl. by apply wp_bind, wp_ret. }
    apply (wp_mono _ _ (fun _ w' => ok w')); [|intros [] w2 I2; apply wp_ret; exact I2]. unfold os_mp_dispatch, level in *. by destruct env_backend.
  - destruct (wp_elim _ _ _ Hwp) as (err & w' & Er & I'). exists err, w'. split; [done|]. split; [done|]. intros fd f o Hfd Ht Eo. destruct (@oi_hears _ (un []) _ _ I' fd f o Ht Eo) as [H1 H2].
    assert (forall b, ~ @pending (un []) fd f o b) as Hno by (intros b [?|(_ & ev & Hin & _)]; [done|by apply elem_of_nil in Hin]). assert (env_backend <> Epoll) as Hne by (unfold level in Hl; by destruct env_backend).
    split; [destruct H1 as [[?|[?|[?|?]]]|H1]; [done|congruence|by left|by right|by destruct (Hno _ H1)]|]. intros Hcw Hbusy.
    destruct H2 as [[?|[?|[?|[? ?]]]]|H2]; [done|congruence|done|destruct Hbusy; congruence|by destruct (Hno _ H2)].
Qed.

End Wait.

(** ** A run *)

(** Everything that is waited for is ready. *)
#[local] Instance ready_hal : PollHal := {
  hal_tick w := io_tick w;
  hal_epoll_wait w n timeo := (0, []);
  hal_poll w fds timeo := (Z.of_nat (length fds), map p_events fds);
  hal_select w n rd wr timeo := (Z.of_nat (length rd + length wr), (rd, wr))
}.
Lemma ready_hal_ok : hal_ok 40.
Proof.
  split.
  - intros. cbn. by rewrite length_map.
  - intros w fds timeo. cbn. unfold AOSL_HAL_RET_EINTR. lia.
  - intros w n rd wr timeo. cbn. unfold AOSL_HAL_RET_EINTR. lia.
Qed.

#[local] Instance poll_env : IoEnv := demo_env Poll [[2; 7]; [8; 1]; [9]] 0 false.
Definition poll_added : ioworld := ran_to (run_act 9 (AAdd datagram_args)) (ran_to (run_act 9 (AAdd stream_args)) io_start).
Lemma poll_added_inv : @ioinv poll_env (MkUnheard 9 3 []) [] poll_added.
Proof. apply (@ran_act_inv _ (MkUnheard 9 3 [])), (@ran_act_inv _ (MkUnheard 9 3 [])), (@io_start_inv _ (MkUnheard 9 3 [])). Qed.

Lemma iomp_hears_witness : exists err w', __os_iomp_wait (Z.to_nat 9000000) 9 3 10 poll_added = Ret (err, w') /\ @ioinv poll_env (MkUnheard 9 3 []) [] w' /\
  forall fd f o, fd <> 3 -> attached_fds w' !! fd = Some f -> io_objs w' !! f = Some o ->
    (c_read (f_conf o) = true -> has_flag (f_flags o) AOSL_POLLIN = true \/ (c_chk (f_conf o) = true /\ has_flag (f_flags o) IOFD_READ_RETURN_0 = true)) /\
    (c_write (f_conf o) = true -> f_wq o <> [] \/ has_flag (f_flags o) IOFD_NOT_READY = true -> has_flag (f_flags o) AOSL_POLLOUT = true).
Proof.
  apply (iomp_hears 40 ready_hal_ok 9 3); [reflexivity|apply demo_calm_env| |exact poll_added_inv].
  unfold enough. rewrite Z2Nat.id by lia. change (2 * FD_MAX_PACKET_SIZE_MAX) with 8388608. lia.
Defined.

(** With [poll], the end of a stream is told twice: the read that finds it asks to
    wait again, and the next round tells it once more. *)
Example eof_told_twice :
  let env := demo_env Poll [[1; 7]; []] 0 false in
  let w := ran_to (@run_act env 9 (AAdd stream_args)) io_start in
  let w1 := ran_to (@__os_iomp_wait env ready_hal 3000 9 3 10) w in
  let w2 := ran_to (@__os_iomp_wait env ready_hal 3000 9 3 10) w1 in
  data_of 1 (io_log w1) = [[1; 7]; []] /\ data_of 1 (io_log w2) = [[1; 7]; []; []].
Proof. vm_compute. split; reflexivity. Qed.
