(* ===== verification/Inet.v ===== *)
(** * Addresses as text: [net/inet.c]

    A string is the list of the codes of its characters, without the terminating
    zero; an address is the list of its bytes in network order.  A buffer of the
    C code is a list of fixed length or, where the code only appends, the list of
    what has been written to it, with its size as a bound: a read or write
    outside is [Fault].  The model is that of a build with [CONFIG_AOSL_IPV6],
    the default. *)
From S2P Require Import Prelude.
Local Open Scope aosl_scope.

Definition AOSL_EAFNOSUPPORT : Z := AOSL_EBASE + 97.
Definition AOSL_AF_INET : Z := 2.
Definition AOSL_AF_INET6 : Z := 10.
Definition AOSL_INET_ADDRSTRLEN : Z := 16.
Definition AOSL_INET6_ADDRSTRLEN : Z := 46.

(** The characters the code names. *)
Definition ch_0 : Z := 48.
Definition ch_9 : Z := 57.
Definition ch_A : Z := 65.
Definition ch_F : Z := 70.
Definition ch_a : Z := 97.
Definition ch_f : Z := 102.
Definition ch_dot : Z := 46.
Definition ch_colon : Z := 58.

Abbreviation zlen s := (Z.of_nat (length s)).

(** [sprintf] of an unsigned number in base [b], at most [n] digits: ["%u"] and
    ["%x"]. *)
Definition digit_char (d : Z) : Z := if d <? 10 then ch_0 + d else ch_a + (d - 10).
Fixpoint digits (b : Z) (n : nat) (x : Z) : list Z :=
  match n with
  | O => []
  | S n => (if x <? b then [] else digits b n (x / b)) ++ [digit_char (x mod b)]
  end.
Definition fmt_u (x : Z) : list Z := digits 10 10 x.
Definition fmt_x (x : Z) : list Z := digits 16 8 x.

(** ** From bytes to text *)
Section ntop.

(** What [inet_ntop4] and its kin return: the string they put in [dst], or NULL
    with the error number. *)
Definition printed : Type := list Z + Z.

(** [src[i]] *)
Definition src_byte (src : list Z) (i : nat) : res Z :=
  match src !! i with Some b => Ret b | None => Fault end.

(** Appends to a buffer of [size] bytes what ends in a zero byte ([sprintf],
    [strcpy]); the zero is overwritten by what comes next. *)
Definition put_str (size : Z) (s : list Z) : CM (list Z) unit :=
  do out <- cget;
  if zlen out + zlen s + 1 <=? size then cput (out ++ s) else cfault.
(** Appends one character. *)
Definition put_char (size : Z) (c : Z) : CM (list Z) unit :=
  do out <- cget;
  if zlen out + 1 <=? size then cput (out ++ [c]) else cfault.

Definition sizeof_tmp4 : Z := 16.
Definition sizeof_tmp6 : Z := 46.

(** [strcpy (dst, tmp)]: the [size] bytes of [dst] hold the string and its zero. *)
Definition strcpy_dst (size : Z) (tmp : list Z) : res printed :=
  if zlen tmp + 1 <=? size then Ret (inl tmp) else Fault.

Definition inet_ntop4 (src : list Z) (size : Z) : res printed :=
  match
    (do b0 <- lift (src_byte src 0);
     do b1 <- lift (src_byte src 1);
     do b2 <- lift (src_byte src 2);
     do b3 <- lift (src_byte src 3);
     put_str sizeof_tmp4 (fmt_u b0 ++ [ch_dot] ++ fmt_u b1 ++ [ch_dot] ++ fmt_u b2 ++ [ch_dot] ++ fmt_u b3)) []
  with
  | Ret (_, tmp) => if zlen tmp >=? size then Ret (inr AOSL_ENOSPC) else strcpy_dst size tmp
  | Abort => Abort | Fault => Fault | NoFuel => NoFuel
  end.

(** A run of zero words: [struct { int base, len; }]. *)
Record run6 := MkRun { r_base : Z; r_len : Z }.

(** [words[i / 2] = (src[i] << 8) | src[i + 1]] *)
Fixpoint words6 (src : list Z) (n : nat) : res (list Z) :=
  match n with
  | O => Ret []
  | S n =>
    match src with
    | h :: l :: src =>
      match words6 src n with Ret ws => Ret (Z.lor (Z.shiftl h 8) l :: ws) | r => r end
    | _ => Fault
    end
  end.

(** The end of a run of zeros: the first of the longest is kept. *)
Definition keep_run (best cur : run6) : run6 :=
  if (r_base best =? -1) || (r_len cur >? r_len best) then cur else best.

Fixpoint best_run_loop (ws : list Z) (i : Z) (best cur : run6) : run6 * run6 :=
  match ws with
  | [] => (best, cur)
  | w :: ws =>
    if w =? 0 then
      if r_base cur =? -1 then best_run_loop ws (i + 1) best (MkRun i 1)
      else best_run_loop ws (i + 1) best (MkRun (r_base cur) (r_len cur + 1))
    else if negb (r_base cur =? -1) then
      best_run_loop ws (i + 1) (keep_run best cur) (MkRun (-1) (r_len cur))
    else best_run_loop ws (i + 1) best cur
  end.

Definition best_run (ws : list Z) : run6 :=
  let '(best, cur) := best_run_loop ws 0 (MkRun (-1) 0) (MkRun (-1) 0) in
  let best := if negb (r_base cur =? -1) then keep_run best cur else best in
  if negb (r_base best =? -1) && (r_len best <? 2) then MkRun (-1) (r_len best) else best.

(** Is the word inside the run, and is it the first of an embedded IPv4 address? *)
Definition in_run (best : run6) (i : Z) : bool :=
  negb (r_base best =? -1) && (i >=? r_base best) && (i <? r_base best + r_len best).
Definition embeds4 (words : list Z) (best : run6) (i : Z) : bool :=
  (i =? 6) && (r_base best =? 0) &&
  ((r_len best =? 6) || ((r_len best =? 5) && bool_decide (words !! 5%nat = Some 65535))).

(** The printing loop, on the words from the [i]-th; [false] is the return of
    NULL from inside it. *)
Fixpoint print_words (src words : list Z) (best : run6) (ws : list Z) (i : Z) : CM (list Z) bool :=
  match ws with
  | [] => cret true
  | w :: ws =>
    if in_run best i then
      (when i =? r_base best then put_char sizeof_tmp6 ch_colon) ;;
      print_words src words best ws (i + 1)
    else
      (when negb (i =? 0) then put_char sizeof_tmp6 ch_colon) ;;
      if embeds4 words best i then
        do out <- cget;
        do r <- lift (inet_ntop4 (drop 12 src) (sizeof_tmp6 - zlen out));
        match r with
        | inr _ => cret false
        | inl s => put_str sizeof_tmp6 s ;; cret true
        end
      else
        put_str sizeof_tmp6 (fmt_x w) ;; print_words src words best ws (i + 1)
  end.

Definition inet_ntop6 (src : list Z) (size : Z) : res printed :=
  match words6 src 8 with
  | Ret words =>
    let best := best_run words in
    match
      (do ok <- print_words src words best words 0;
       if negb ok then cret false else
       (when negb (r_base best =? -1) && (r_base best + r_len best =? 8) then put_char sizeof_tmp6 ch_colon) ;;
       put_str sizeof_tmp6 [] ;; cret true) []
    with
    | Ret (false, _) => Ret (inr AOSL_ENOSPC)
    | Ret (true, tmp) => if zlen tmp + 1 >? size then Ret (inr AOSL_ENOSPC) else strcpy_dst size tmp
    | Abort => Abort | Fault => Fault | NoFuel => NoFuel
    end
  | _ => Fault
  end.

Definition k_inet_ntop (af : Z) (src : list Z) (size : Z) : res printed :=
  if af =? AOSL_AF_INET then inet_ntop4 src size
  else if af =? AOSL_AF_INET6 then inet_ntop6 src size
  else Ret (inr AOSL_EAFNOSUPPORT).

End ntop.

(** ** From text to bytes *)
Section pton.

(** [*p = v] of a buffer: writing outside is [Fault]. *)
Definition poke (tmp : list Z) (p : nat) (v : Z) : res (list Z) :=
  if (p <? length tmp)%nat then Ret (<[p := v]> tmp) else Fault.

(** The loop of [inet_pton4]: what is left of the text, whether a digit of the
    current octet was seen, the octets begun, [tmp] and [tp]. *)
Fixpoint pton4_loop (src : list Z) (saw_digit : bool) (octets : Z) (tmp : list Z) (tp : nat) : res (option (list Z)) :=
  match src with
  | [] => Ret (if octets <? 4 then None else Some tmp)
  | ch :: src =>
    if (ch >=? ch_0) && (ch <=? ch_9) then
      match tmp !! tp with
      | None => Fault
      | Some cur =>
        let new := u32 (cur * 10 + (ch - ch_0)) in
        if saw_digit && (cur =? 0) then Ret None
        else if new >? 255 then Ret None
        else
          let tmp := <[tp := u8 new]> tmp in
          if negb saw_digit then
            if octets + 1 >? 4 then Ret None else pton4_loop src true (octets + 1) tmp tp
          else pton4_loop src saw_digit octets tmp tp
      end
    else if (ch =? ch_dot) && saw_digit then
      if octets =? 4 then Ret None
      else match poke tmp (S tp) 0 with
           | Ret tmp => pton4_loop src false octets tmp (S tp)
           | _ => Fault
           end
    else Ret None
  end.

(** [None] is the return of 0, [dst] untouched; the four bytes of [tmp] are
    what the stack held before the first is set. *)
Definition inet_pton4 (junk : list Z) (src : list Z) : res (option (list Z)) :=
  match poke junk 0 0 with
  | Ret tmp => pton4_loop src false 0 tmp 0
  | _ => Fault
  end.

Definition hex_digit_value (ch : Z) : Z :=
  if (ch_0 <=? ch) && (ch <=? ch_9) then ch - ch_0
  else if (ch_a <=? ch) && (ch <=? ch_f) then ch - ch_a + 10
  else if (ch_A <=? ch) && (ch <=? ch_F) then ch - ch_A + 10
  else -1.

(** The locals of [inet_pton6] that its loop changes. *)
Record pton6_st := MkP6 {
  p_tmp : list Z; p_tp : nat; p_colonp : option nat; p_seen : Z; p_val : Z }.

(** [*tp++ = (unsigned char) (val >> 8) & 0xff; *tp++ = (unsigned char) val & 0xff;] *)
Definition put_word (st : pton6_st) : res pton6_st :=
  match poke (p_tmp st) (p_tp st) (Z.land (u8 (Z.shiftr (p_val st) 8)) 255) with
  | Ret tmp =>
    match poke tmp (S (p_tp st)) (Z.land (u8 (p_val st)) 255) with
    | Ret tmp => Ret (MkP6 tmp (S (S (p_tp st))) (p_colonp st) (p_seen st) (p_val st))
    | _ => Fault
    end
  | _ => Fault
  end.

(** [memcpy (tmp + p, l)] *)
Fixpoint poke_list (tmp : list Z) (p : nat) (l : list Z) : res (list Z) :=
  match l with
  | [] => Ret tmp
  | b :: l => match poke tmp p b with Ret tmp => poke_list tmp (S p) l | r => r end
  end.

(** The loop of [inet_pton6]: [None] is a return of 0; the state when the loop
    ends, by its condition or by [break]. *)
Fixpoint pton6_loop (junk : list Z) (src curtok : list Z) (st : pton6_st) : res (option pton6_st) :=
  match src with
  | [] => Ret (Some st)
  | ch :: src =>
    let digit := hex_digit_value ch in
    if digit >=? 0 then
      if p_seen st =? 4 then Ret None
      else
        let val := Z.lor (u32 (Z.shiftl (p_val st) 4)) digit in
        if val >? 65535 then Ret None
        else pton6_loop junk src curtok (MkP6 (p_tmp st) (p_tp st) (p_colonp st) (p_seen st + 1) val)
    else if ch =? ch_colon then
      let curtok := src in
      if p_seen st =? 0 then
        match p_colonp st with
        | Some _ => Ret None
        | None => pton6_loop junk src curtok (MkP6 (p_tmp st) (p_tp st) (Some (p_tp st)) (p_seen st) (p_val st))
        end
      else if bool_decide (src = []) then Ret None
      else if (16 <? p_tp st + 2)%nat then Ret None
      else match put_word st with
           | Ret st => pton6_loop junk src curtok (MkP6 (p_tmp st) (p_tp st) (p_colonp st) 0 0)
           | _ => Fault
           end
    else if (ch =? ch_dot) && (p_tp st + 4 <=? 16)%nat then
      match inet_pton4 junk curtok with
      | Ret (Some a) =>
        match poke_list (p_tmp st) (p_tp st) a with
        | Ret tmp => Ret (Some (MkP6 tmp (p_tp st + 4)%nat (p_colonp st) 0 (p_val st)))
        | _ => Fault
        end
      | Ret None => Ret None
      | _ => Fault
      end
    else Ret None
  end.

(** After the loop: the last group, and the zeros that [::] stands for. *)
Definition pton6_finish (st : pton6_st) : res (option (list Z)) :=
  if (p_seen st >? 0) && (16 <? p_tp st + 2)%nat then Ret None else
  match (if p_seen st >? 0 then put_word st else Ret st) with
  | Ret st =>
    match p_colonp st with
    | Some colonp =>
      if (p_tp st =? 16)%nat then Ret None
      else
        let n := (p_tp st - colonp)%nat in
        match poke_list (p_tmp st) (16 - n) (take n (drop colonp (p_tmp st))) with
        | Ret tmp =>
          match poke_list tmp colonp (repeat 0 (16 - n - colonp)) with
          | Ret tmp => Ret (Some tmp)
          | _ => Fault
          end
        | _ => Fault
        end
    | None => Ret (if (p_tp st =? 16)%nat then Some (p_tmp st) else None)
    end
  | _ => Fault
  end.

Definition inet_pton6 (junk : list Z) (src : list Z) : res (option (list Z)) :=
  let go src :=
    match pton6_loop junk src src (MkP6 (repeat 0 16) 0 None 0 0) with
    | Ret (Some st) => pton6_finish st
    | Ret None => Ret None
    | _ => Fault
    end in
  match src with
  | [] => Ret None
  | c :: src' =>
    if c =? ch_colon then
      match src' with
      | [] => Ret None
      | c' :: _ => if c' =? ch_colon then go src' else Ret None
      end
    else go src
  end.

(** [1], [0] and [-1] of the C code, with the bytes at [dst] or the error number. *)
Inductive pton_result :=
| Pton_ok (dst : list Z)
| Pton_bad
| Pton_error (errno : Z).

Definition pton_ret (r : res (option (list Z))) : res pton_result :=
  match r with
  | Ret (Some a) => Ret (Pton_ok a)
  | Ret None => Ret Pton_bad
  | Abort => Abort | Fault => Fault | NoFuel => NoFuel
  end.

Definition __inet_pton_length (junk : list Z) (af : Z) (src : list Z) : res pton_result :=
  if af =? AOSL_AF_INET then pton_ret (inet_pton4 junk src)
  else if af =? AOSL_AF_INET6 then pton_ret (inet_pton6 junk src)
  else Ret (Pton_error AOSL_EAFNOSUPPORT).

(** [src] ends at its first zero. *)
Fixpoint c_string (mem : list Z) : list Z :=
  match mem with
  | [] => []
  | c :: mem => if c =? 0 then [] else c :: c_string mem
  end.
Definition k_inet_pton (junk : list Z) (af : Z) (mem : list Z) : res pton_result :=
  __inet_pton_length junk af (c_string mem).

End pton.

(** The text of a string literal, for the examples. *)
Fixpoint text (s : String.string) : list Z :=
  match s with
  | String.EmptyString => []
  | String.String c s => Z.of_N (Ascii.N_of_ascii c) :: text s
  end.

Section examples.
Import String.
Local Open Scope string_scope.
Definition demo_text : list Z := text "1::2.3.4.5".
Let junk : list Z := [170; 170; 170; 170].
Example pton6_full : inet_pton6 junk (text "2001:DB8:0:1::ff") = Ret (Some [32; 1; 13; 184; 0; 0; 0; 1; 0; 0; 0; 0; 0; 0; 0; 255]).
Proof. reflexivity. Qed.
Example pton6_v4 : inet_pton6 junk (text "::ffff:1.2.3.4") = Ret (Some [0; 0; 0; 0; 0; 0; 0; 0; 0; 0; 255; 255; 1; 2; 3; 4]).
Proof. reflexivity. Qed.
Example pton6_two_gaps : inet_pton6 junk (text "1::2::3") = Ret None.
Proof. reflexivity. Qed.
Example pton6_gap_of_nothing : inet_pton6 junk (text "1:2:3:4:5:6:7:8::") = Ret None.
Proof. reflexivity. Qed.
Example ntop6_gap : inet_ntop6 [32; 1; 0; 0; 0; 0; 0; 1; 0; 0; 0; 0; 0; 0; 0; 255] 46 = Ret (inl (text "2001:0:0:1::ff")).
Proof. reflexivity. Qed.
Example ntop6_mapped : inet_ntop6 [0; 0; 0; 0; 0; 0; 0; 0; 0; 0; 255; 255; 255; 0; 10; 4] 17 = Ret (inr AOSL_ENOSPC).
Proof. reflexivity. Qed.
Example pton4_leading_zero : inet_pton4 junk (text "1.02.3.4") = Ret None.
Proof. reflexivity. Qed.
End examples.
