(* ===== verification/InetQuad.v ===== *)
(** * Numbers as text and dotted quads

    [sprintf] of a number and reading it back; [inet_pton4] accepts exactly the
    texts that [inet_ntop4] prints, and gives back the address. *)
From S2P Require Import Prelude.
From S2P Require Import Inet.

Definition is_byte (b : Z) : Prop := 0 <= b < 256.
#[export] Instance is_byte_dec b : Decision (is_byte b) := ltac:(unfold is_byte; apply _).

(** ** Digits *)

(** The value of a text of hexadecimal digits, most significant first. *)
Definition hexval (t : list Z) : Z := fold_left (fun v c => v * 16 + hex_digit_value c) t 0.
Definition is_hex (c : Z) : Prop := 0 <= hex_digit_value c.
#[export] Instance is_hex_dec c : Decision (is_hex c) := ltac:(unfold is_hex; apply _).

Lemma hexval_snoc t c : hexval (t ++ [c]) = hexval t * 16 + hex_digit_value c.
Proof. unfold hexval. by rewrite fold_left_app. Qed.

Lemma hex_digit_bound c : -1 <= hex_digit_value c < 16.
Proof. unfold hex_digit_value, ch_0, ch_9, ch_a, ch_f, ch_A, ch_F. repeat case_match; lia. Qed.

(** [ch >= '0' && ch <= '9'] etc.: digits are neither colons nor dots. *)
Lemma is_hex_not_sep c : is_hex c -> c <> ch_colon /\ c <> ch_dot.
Proof. unfold is_hex. split; intros ->; revert H; vm_compute; congruence. Qed.

Lemma hexval_bound t : Forall is_hex t -> 0 <= hexval t < 16 ^ zlen t.
Proof.
  induction t as [|c t IH] using rev_ind; [done|]. rewrite Forall_app, Forall_singleton. intros [Ht Hc]. specialize (IH Ht).
  rewrite hexval_snoc, length_app. cbn [length]. rewrite Nat2Z.inj_add, Z.pow_add_r by lia. pose proof (hex_digit_bound c). unfold is_hex in Hc.
  change (16 ^ Z.of_nat 1) with 16. lia.
Qed.

Lemma hex_digit_char d : 0 <= d < 16 -> hex_digit_value (digit_char d) = d.
Proof. intros Hd. assert (E : forallb (fun d => hex_digit_value (digit_char d) =? d) (seqZ 0 16) = true) by reflexivity.
  rewrite forallb_forall in E. apply Z.eqb_eq, E, list_elem_of_In, elem_of_seqZ. lia. Qed.

Lemma digits_S b n x : digits b (S n) x = (if x <? b then [] else digits b n (x / b)) ++ [digit_char (x mod b)].
Proof. done. Qed.

(** More room than digits changes nothing. *)
Lemma digits_fuel b n m x : 1 < b -> (0 < n)%nat -> (n <= m)%nat -> 0 <= x < b ^ Z.of_nat n -> digits b m x = digits b n x.
Proof.
  intros Hb. revert m x. induction n as [|n IH]; intros m x Hn Hm Hx; [lia|]. destruct m as [|m]; [lia|]. rewrite !digits_S.
  destruct (Z.ltb_spec x b); [done|]. f_equal. destruct n as [|n]; [change (b ^ Z.of_nat 1) with (b * 1) in Hx; lia|].
  apply IH; [lia..|]. split; [apply Z.div_pos; lia|]. apply Z.div_lt_upper_bound; [lia|]. rewrite <-Z.pow_succ_r by lia.
  replace (Z.succ (Z.of_nat (S n))) with (Z.of_nat (S (S n))) by lia. lia.
Qed.

Lemma digits_hex n x : (0 < n)%nat -> 0 <= x < 16 ^ Z.of_nat n ->
  Forall is_hex (digits 16 n x) /\ hexval (digits 16 n x) = x /\ (1 <= length (digits 16 n x) <= n)%nat.
Proof.
  revert x. induction n as [|n IH]; intros x Hn Hx; [lia|]. rewrite digits_S. pose proof (Z.mod_pos_bound x 16 ltac:(lia)).
  assert (is_hex (digit_char (x mod 16))) by (unfold is_hex; rewrite hex_digit_char; lia).
  rewrite hexval_snoc, Forall_app, Forall_singleton, length_app, hex_digit_char by lia. cbn [length].
  destruct (Z.ltb_spec x 16).
  - split; [by split|]. split; [rewrite Z.mod_small by lia; done|]. cbn. lia.
  - destruct n as [|n]; [change (16 ^ Z.of_nat 1) with 16 in Hx; lia|]. destruct (IH (x / 16)) as (Hf & Hv & Hl); [lia| |].
    { split; [apply Z.div_pos; lia|]. apply Z.div_lt_upper_bound; [lia|]. rewrite <-Z.pow_succ_r by lia. replace (Z.succ (Z.of_nat (S n))) with (Z.of_nat (S (S n))) by lia. lia. }
    split; [done|]. rewrite Hv. split; [|lia]. pose proof (Z.div_mod x 16 ltac:(lia)). lia.
Qed.

(** A group of an IPv6 address, as printed. *)
Lemma fmt_x_word w : 0 <= w < 65536 -> Forall is_hex (fmt_x w) /\ hexval (fmt_x w) = w /\ (1 <= length (fmt_x w) <= 4)%nat.
Proof. intros Hw. unfold fmt_x. rewrite (digits_fuel 16 4) by (lia || (change (16 ^ Z.of_nat 4) with 65536; lia)). apply digits_hex; [lia|]. change (16 ^ Z.of_nat 4) with 65536. lia. Qed.

(** An octet, as printed: a digit, or the digits of its tenth and one more. *)
Lemma fmt_u_small d : 0 <= d < 10 -> fmt_u d = [ch_0 + d].
Proof. intros Hd. unfold fmt_u. rewrite digits_S. rewrite Z.mod_small by lia. unfold digit_char. by rewrite (proj2 (Z.ltb_lt d 10)) by lia. Qed.
Lemma fmt_u_snoc c d : 0 < c < 1000 -> 0 <= d < 10 -> fmt_u (c * 10 + d) = fmt_u c ++ [ch_0 + d].
Proof.
  intros Hc Hd. unfold fmt_u. rewrite digits_S, (proj2 (Z.ltb_ge _ _)) by lia. rewrite Z.div_add_l, Z.div_small, Z.add_0_r by lia.
  replace ((c * 10 + d) mod 10) with d by (rewrite Z.add_comm, Z.mod_add, Z.mod_small; lia).
  rewrite (digits_fuel 10 9 10) by (lia || (change (10 ^ Z.of_nat 9) with 1000000000; lia)). f_equal. unfold digit_char. by rewrite (proj2 (Z.ltb_lt d 10)) by lia.
Qed.

Lemma octet_ind (P : Z -> Prop) :
  (forall d, 0 <= d < 10 -> P d) -> (forall c d, 0 < c -> 0 <= d < 10 -> c * 10 + d < 256 -> P c -> P (c * 10 + d)) ->
  forall b, is_byte b -> P b.
Proof.
  intros H0 H1 b Hb. assert (Hx : 0 <= b) by apply Hb. revert b Hx Hb. apply (Z_lt_induction (fun b => is_byte b -> P b)). intros b IH Hb. unfold is_byte in Hb.
  destruct (Z.ltb_spec b 10); [apply H0; lia|]. pose proof (Z.div_mod b 10 ltac:(lia)). pose proof (Z.mod_pos_bound b 10 ltac:(lia)).
  assert (0 < b / 10 < b) by lia.
  replace b with (b / 10 * 10 + b mod 10) by lia. apply H1; [lia..|]. apply IH; unfold is_byte; lia.
Qed.

Lemma fmt_u_len b : is_byte b -> (1 <= length (fmt_u b) <= 3)%nat.
Proof.
  intros Hb. assert (E : forallb (fun b => let n := length (fmt_u b) in ((1 <=? n) && (n <=? 3))%nat) (seqZ 0 256) = true) by reflexivity.
  rewrite forallb_forall in E. specialize (E b). rewrite andb_true_iff, !Nat.leb_le in E. apply E, list_elem_of_In, elem_of_seqZ. unfold is_byte in Hb. lia.
Qed.

(** ** Dotted quads *)

(** The text of a list of octets. *)
Definition dots (a : list Z) : list Z := concat (map (fun b => fmt_u b ++ [ch_dot]) a).
Definition dotted (a : list Z) : list Z :=
  match a with [b0; b1; b2; b3] => dots [b0; b1; b2] ++ fmt_u b3 | _ => [] end.

Lemma dots_snoc a b : dots (a ++ [b]) = dots a ++ fmt_u b ++ [ch_dot].
Proof. unfold dots. by rewrite map_app, concat_app; cbn; rewrite app_nil_r. Qed.

Definition is_addr4 (a : list Z) : Prop := length a = 4%nat /\ Forall is_byte a.
Lemma is_addr4_inv a : is_addr4 a -> exists b0 b1 b2 b3, a = [b0; b1; b2; b3] /\ is_byte b0 /\ is_byte b1 /\ is_byte b2 /\ is_byte b3.
Proof. intros [Hl Ha]. destruct a as [|b0 [|b1 [|b2 [|b3 [|]]]]]; cbn in Hl; try lia. rewrite !Forall_cons in Ha. naive_solver. Qed.

Lemma dotted_len a : is_addr4 a -> (7 <= length (dotted a) <= 15)%nat.
Proof.
  intros (b0 & b1 & b2 & b3 & -> & H0 & H1 & H2 & H3)%is_addr4_inv. unfold dotted, dots. cbn [map concat]. rewrite !length_app. cbn [length].
  apply fmt_u_len in H0, H1, H2, H3. lia.
Qed.

(** [inet_ntop4] prints the quad, or says that it does not fit. *)
Lemma inet_ntop4_eq a size : is_addr4 a ->
  inet_ntop4 a size = Ret (if zlen (dotted a) >=? size then inr AOSL_ENOSPC else inl (dotted a)).
Proof.
  intros Ha. pose proof (dotted_len a Ha) as Hl. destruct (is_addr4_inv a Ha) as (b0 & b1 & b2 & b3 & -> & _).
  unfold inet_ntop4, put_str. run. cbn [src_byte lookup list_lookup]. run.
  assert (E : fmt_u b0 ++ [ch_dot] ++ fmt_u b1 ++ [ch_dot] ++ fmt_u b2 ++ [ch_dot] ++ fmt_u b3 = dotted [b0; b1; b2; b3]).
  { unfold dotted, dots. cbn [map concat]. rewrite app_nil_r, <-!app_assoc. done. }
  rewrite E. cbn [length app]. rewrite (proj2 (Z.leb_le _ _)) by (unfold sizeof_tmp4; lia).
  unfold strcpy_dst. rewrite Z.geb_leb. destruct (Z.leb_spec size (zlen (dotted [b0; b1; b2; b3]))); [done|]. by rewrite (proj2 (Z.leb_le _ _)) by lia.
Qed.

(** What [pton4_loop] has read so far. *)
Record quad_read (p : list Z) (saw : bool) (octets : Z) (tmp : list Z) (tp : nat) (done : list Z) (cur : Z) : Prop := {
  qr_len : length tmp = 4%nat;
  qr_tmp : take (S tp) tmp = done ++ [cur];
  qr_done : length done = tp;
  qr_tp : (tp < 4)%nat;
  qr_octets : octets = Z.of_nat tp + (if saw then 1 else 0);
  qr_bytes : Forall is_byte (done ++ [cur]);
  qr_fresh : saw = false -> cur = 0;
  qr_text : p = dots done ++ (if saw then fmt_u cur else []) }.

Lemma quad_cur p saw octets tmp tp done cur : quad_read p saw octets tmp tp done cur -> tmp !! tp = Some cur.
Proof. intros []. rewrite <-(lookup_take_lt tmp (S tp)) by lia. rewrite qr_tmp0, <-qr_done0. by rewrite lookup_app_r, Nat.sub_diag by lia. Qed.

Lemma quad_set p saw octets tmp tp done cur v : quad_read p saw octets tmp tp done cur -> take (S tp) (<[tp := v]> tmp) = done ++ [v].
Proof.
  intros []. rewrite take_insert_lt by lia. rewrite qr_tmp0. rewrite <-qr_done0 at 1. by rewrite insert_app_r_alt, Nat.sub_diag by lia.
Qed.

(** A digit that extends the current octet, a first digit, a dot. *)
Lemma quad_digit p saw octets tmp tp done cur d :
  quad_read p saw octets tmp tp done cur -> 0 <= d < 10 -> (saw = true -> cur <> 0) -> cur * 10 + d < 256 ->
  quad_read (p ++ [ch_0 + d]) true (if saw then octets else octets + 1) (<[tp := cur * 10 + d]> tmp) tp done (cur * 10 + d).
Proof.
  intros Hq Hd Hnz Hlt. pose proof (quad_set _ _ _ _ _ _ _ (cur * 10 + d) Hq) as Hset. destruct Hq.
  rewrite Forall_app, Forall_singleton in qr_bytes0. destruct qr_bytes0 as [Hb Hc]. unfold is_byte in Hc.
  constructor; [by rewrite length_insert|done|done|done| |rewrite Forall_app, Forall_singleton; split; [done|unfold is_byte; lia]|done|].
  - subst octets. destruct saw; lia.
  - subst p. rewrite <-app_assoc. f_equal. destruct saw; cbn [app]; [rewrite fmt_u_snoc; [done| |done]; specialize (Hnz eq_refl); lia|].
    rewrite (qr_fresh0 eq_refl). by rewrite fmt_u_small.
Qed.

Lemma quad_dot p octets tmp tp done cur :
  quad_read p true octets tmp tp done cur -> (S tp < 4)%nat ->
  quad_read (p ++ [ch_dot]) false octets (<[S tp := 0]> tmp) (S tp) (done ++ [cur]) 0.
Proof.
  intros [] Htp. constructor; [by rewrite length_insert| |rewrite length_app; cbn; lia|done|lia| |done|].
  - rewrite take_insert_lt by lia.
    destruct (lookup_lt_is_Some_2 tmp (S tp) ltac:(lia)) as [x Hx]. rewrite (take_S_r tmp (S tp) x Hx), qr_tmp0.
    replace (S tp) with (length (done ++ [cur])) at 1 by (rewrite length_app; cbn; lia). by rewrite insert_app_r_alt, Nat.sub_diag by lia.
  - rewrite Forall_app, Forall_singleton. split; [done|]. unfold is_byte. lia.
  - subst p. rewrite dots_snoc, app_nil_r, <-app_assoc. done.
Qed.

Lemma is_digit_spec ch : ((ch >=? ch_0) && (ch <=? ch_9)) = true -> exists d, 0 <= d < 10 /\ ch = ch_0 + d.
Proof. unfold ch_0, ch_9. rewrite andb_true_iff, Z.geb_le, Z.leb_le. intros. exists (ch - 48). lia. Qed.

(** Whatever the text, the loop rejects it or has read the quad of its result. *)
Lemma pton4_loop_sound src : forall p saw octets tmp tp done cur,
  quad_read p saw octets tmp tp done cur ->
  pton4_loop src saw octets tmp tp = Ret None \/
  exists a, pton4_loop src saw octets tmp tp = Ret (Some a) /\ is_addr4 a /\ p ++ src = dotted a.
Proof.
  induction src as [|ch src IH]; intros p saw octets tmp tp done cur Hq; cbn [pton4_loop].
  - destruct (Z.ltb_spec octets 4); [by left|]. right. exists tmp. split; [done|]. destruct Hq.
    assert (saw = true /\ tp = 3%nat) as [-> ->] by (destruct saw; [split; [done|lia]|lia]).
    rewrite take_ge in qr_tmp0 by lia. subst tmp. split; [done|]. rewrite app_nil_r, qr_text0.
    destruct done as [|b0 [|b1 [|b2 [|]]]]; cbn in qr_done0; try lia. done.
  - destruct ((ch >=? ch_0) && (ch <=? ch_9)) eqn:Ed.
    + apply is_digit_spec in Ed as (d & Hd & ->). rewrite (quad_cur _ _ _ _ _ _ _ Hq).
      assert (Hc : is_byte cur) by (pose proof (qr_bytes _ _ _ _ _ _ _ Hq) as Hb; rewrite Forall_app, Forall_singleton in Hb; apply Hb). unfold is_byte in Hc.
      replace (ch_0 + d - ch_0) with d by lia. rewrite (wrapu_id 32) by lia.
      destruct (saw && (cur =? 0)) eqn:Ez; [by left|]. rewrite Z.gtb_ltb. destruct (Z.ltb_spec 255 (cur * 10 + d)); [by left|]. rewrite (wrapu_id 8) by lia.
      assert (Hnz : saw = true -> cur <> 0) by (intros ->; cbn in Ez; lia).
      pose proof (quad_digit _ _ _ _ _ _ _ d Hq Hd Hnz ltac:(lia)) as Hq'. rewrite cons_middle, app_assoc.
      destruct saw; cbn [negb]; [by eapply IH|]. rewrite Z.gtb_ltb. destruct (Z.ltb_spec 4 (octets + 1)); [by left|]. by eapply IH.
    + destruct (ch =? ch_dot) eqn:Ec; [|by left]. destruct saw; [|by left]. cbn [andb]. apply Z.eqb_eq in Ec as ->.
      pose proof (qr_octets _ _ _ _ _ _ _ Hq). pose proof (qr_tp _ _ _ _ _ _ _ Hq). pose proof (qr_len _ _ _ _ _ _ _ Hq).
      destruct (Z.eqb_spec octets 4); [by left|]. unfold poke. rewrite (proj2 (Nat.ltb_lt _ _)) by lia.
      pose proof (quad_dot _ _ _ _ _ _ Hq ltac:(lia)) as Hq'. rewrite cons_middle, app_assoc. by eapply IH.
Qed.

Lemma quad_start junk : length junk = 4%nat -> quad_read [] false 0 (<[0%nat := 0]> junk) 0 [] 0.
Proof. intros Hj. destruct junk as [|j junk]; [done|]. constructor; cbn; [done|done|done|lia|done|by apply Forall_singleton|done|done]. Qed.

Lemma inet_pton4_sound junk src : length junk = 4%nat ->
  inet_pton4 junk src = Ret None \/ exists a, inet_pton4 junk src = Ret (Some a) /\ is_addr4 a /\ src = dotted a.
Proof.
  intros Hj. unfold inet_pton4, poke. rewrite Hj. cbn [Nat.ltb Nat.leb].
  apply (pton4_loop_sound src [] _ _ _ _ _ _ (quad_start junk Hj)).
Qed.

(** Reading what was printed: an octet, and what follows it. *)
Lemma pton4_loop_octet b : is_byte b -> forall src octets tmp tp,
  tmp !! tp = Some 0 -> octets < 4 ->
  pton4_loop (fmt_u b ++ src) false octets tmp tp = pton4_loop src true (octets + 1) (<[tp := b]> tmp) tp.
Proof.
  revert b. apply (octet_ind (fun b => forall src octets tmp tp, _ -> _ -> _)).
  - intros d Hd src octets tmp tp Ht Ho. rewrite fmt_u_small by done. cbn [app pton4_loop].
    replace ((ch_0 + d >=? ch_0) && (ch_0 + d <=? ch_9)) with true by (unfold ch_0, ch_9; symmetry; rewrite andb_true_iff, Z.geb_le, Z.leb_le; lia).
    rewrite Ht. replace (0 * 10 + (ch_0 + d - ch_0)) with d by lia. rewrite (wrapu_id 32), (wrapu_id 8) by lia. cbn [andb negb].
    rewrite !Z.gtb_ltb, (proj2 (Z.ltb_ge _ _)) by lia. by rewrite (proj2 (Z.ltb_ge _ _)) by lia.
  - intros c d Hc Hd Hlt IH src octets tmp tp Ht Ho. rewrite fmt_u_snoc by lia. rewrite <-app_assoc, IH by done. cbn [app pton4_loop].
    replace ((ch_0 + d >=? ch_0) && (ch_0 + d <=? ch_9)) with true by (unfold ch_0, ch_9; symmetry; rewrite andb_true_iff, Z.geb_le, Z.leb_le; lia).
    rewrite list_lookup_insert_eq by (by eapply lookup_lt_Some). replace (c * 10 + (ch_0 + d - ch_0)) with (c * 10 + d) by lia.
    rewrite (wrapu_id 32), (wrapu_id 8) by lia. rewrite (proj2 (Z.eqb_neq c 0)) by lia. cbn [andb negb].
    rewrite Z.gtb_ltb, (proj2 (Z.ltb_ge _ _)) by lia. by rewrite list_insert_insert_eq.
Qed.

Lemma pton4_loop_dot src octets tmp tp : octets <> 4 -> (S tp < length tmp)%nat ->
  pton4_loop (ch_dot :: src) true octets tmp tp = pton4_loop src false octets (<[S tp := 0]> tmp) (S tp).
Proof. intros Ho Ht. cbn [pton4_loop]. cbn [andb]. rewrite (proj2 (Z.eqb_neq _ _) Ho). unfold poke. by rewrite (proj2 (Nat.ltb_lt _ _)) by lia. Qed.

Lemma inet_pton4_dotted junk a : length junk = 4%nat -> is_addr4 a -> inet_pton4 junk (dotted a) = Ret (Some a).
Proof.
  intros Hj (b0 & b1 & b2 & b3 & -> & H0 & H1 & H2 & H3)%is_addr4_inv. destruct junk as [|j0 [|j1 [|j2 [|j3 [|]]]]]; cbn in Hj; try lia.
  unfold inet_pton4, poke, dotted, dots. cbn [map concat length Nat.ltb Nat.leb insert list_insert]. rewrite !app_nil_r, <-!app_assoc. cbn [app].
  rewrite pton4_loop_octet by (done || lia). cbn [insert list_insert]. rewrite pton4_loop_dot by (cbn; lia). cbn [insert list_insert].
  rewrite pton4_loop_octet by (done || lia). cbn [insert list_insert]. rewrite pton4_loop_dot by (cbn; lia). cbn [insert list_insert].
  rewrite pton4_loop_octet by (done || lia). cbn [insert list_insert]. rewrite pton4_loop_dot by (cbn; lia). cbn [insert list_insert].
  rewrite <-(app_nil_r (fmt_u b3)), pton4_loop_octet by (done || lia). done.
Qed.
