(* ===== verification/InetSpec.v ===== *)
(** * The texts of IPv6 addresses

    [denotes6 s a]: the text [s] is a presentation of the sixteen bytes [a], in the
    grammar of RFC 4291: groups of one to four hexadecimal digits, a dotted quad in
    place of the last two, and at most one [::] for one or more groups of zeros.
    [inet_pton6] accepts exactly these texts. *)
From S2P Require Import Prelude.
From S2P Require Import Inet.
From S2P Require Import InetQuad.

(** ** The grammar *)
Definition is_group (t : list Z) : Prop := Forall is_hex t /\ (1 <= length t <= 4)%nat.
Definition be16 (w : Z) : list Z := [w / 256; w mod 256].
Definition zeros (n : nat) : list Z := repeat 0 n.

(** Groups separated by colons; the last may be a dotted quad. *)
Inductive groups : list Z -> list Z -> Prop :=
| groups_last t : is_group t -> groups t (be16 (hexval t))
| groups_quad a : is_addr4 a -> groups (dotted a) a
| groups_more t s b : is_group t -> groups s b -> groups (t ++ ch_colon :: s) (be16 (hexval t) ++ b).

(** Groups that are each followed by a colon. *)
Inductive fronts : list Z -> list Z -> Prop :=
| fronts_nil : fronts [] []
| fronts_more t s b : is_group t -> fronts s b -> fronts (t ++ ch_colon :: s) (be16 (hexval t) ++ b).

Definition tails (s b : list Z) : Prop := (s = [] /\ b = []) \/ groups s b.

Inductive denotes6 : list Z -> list Z -> Prop :=
| denotes_full s a : groups s a -> length a = 16%nat -> denotes6 s a
| denotes_gap f r b1 b2 :
    fronts f b1 -> tails r b2 -> (length b1 + length b2 < 16)%nat ->
    denotes6 ((if decide (f = []) then [ch_colon] else f) ++ ch_colon :: r)
             (b1 ++ zeros (16 - length b1 - length b2) ++ b2).

Lemma groups_nonempty s b : groups s b -> s <> [].
Proof.
  intros Hg. destruct Hg as [t [_ ?]|a Ha|t s b [_ ?] _]; intros E; [subst; cbn in *; lia| |].
  - apply dotted_len in Ha. rewrite E in Ha. cbn in Ha. lia.
  - by destruct t.
Qed.

(** ** The state of the parser *)

(** [tmp] after [done] was written to it. *)
Definition pad (done : list Z) : list Z := done ++ zeros (16 - length done).
Definition mk6 (done : list Z) (colonp : option nat) (tok : list Z) : pton6_st :=
  MkP6 (pad done) (length done) colonp (zlen tok) (hexval tok).

Lemma pad_length done : (length done <= 16)%nat -> length (pad done) = 16%nat.
Proof. intros. unfold pad, zeros. rewrite length_app, repeat_length. lia. Qed.

Lemma poke_in tmp p v : (p < length tmp)%nat -> poke tmp p v = Ret (<[p := v]> tmp).
Proof. intros. unfold poke. by rewrite (proj2 (Nat.ltb_lt _ _)). Qed.

Lemma pad_poke done v : (length done < 16)%nat -> poke (pad done) (length done) v = Ret (pad (done ++ [v])).
Proof.
  intros Hl. rewrite poke_in by (rewrite pad_length; lia). f_equal. unfold pad. rewrite insert_app_r_alt, Nat.sub_diag, length_app by lia. cbn [length].
  replace (16 - length done)%nat with (S (16 - (length done + 1))) by lia. cbn. by rewrite <-app_assoc.
Qed.

Lemma pad_poke_list l done : (length done + length l <= 16)%nat -> poke_list (pad done) (length done) l = Ret (pad (done ++ l)).
Proof.
  revert done. induction l as [|b l IH]; intros done Hl; cbn [poke_list]; [by rewrite app_nil_r|]. cbn [length] in Hl. rewrite pad_poke by lia.
  replace (S (length done)) with (length (done ++ [b])) by (rewrite length_app; cbn; lia). rewrite IH by (rewrite length_app; cbn; lia). by rewrite <-app_assoc.
Qed.

Lemma poke_list_eq l : forall tmp p, (p + length l <= length tmp)%nat ->
  poke_list tmp p l = Ret (take p tmp ++ l ++ drop (p + length l) tmp).
Proof.
  induction l as [|b l IH]; intros tmp p Hl; cbn [poke_list length] in *; [by rewrite Nat.add_0_r; cbn [app]; rewrite take_drop|].
  rewrite poke_in by lia. rewrite IH by (rewrite length_insert; lia). f_equal.
  rewrite (take_S_r (<[p := b]> tmp) p b) by (apply list_lookup_insert_eq; lia). rewrite take_insert_ge by lia. rewrite drop_insert_lt by lia.
  rewrite <-app_assoc. cbn. do 3 f_equal. f_equal. lia.
Qed.

Lemma be16_len w : length (be16 w) = 2%nat.
Proof. done. Qed.

Lemma put_word_mk done colonp tok : Forall is_hex tok -> (length tok <= 4)%nat -> (length done + 2 <= 16)%nat ->
  put_word (mk6 done colonp tok) = Ret (MkP6 (pad (done ++ be16 (hexval tok))) (length done + 2) colonp (zlen tok) (hexval tok)).
Proof.
  intros Ht Hl Hd. unfold put_word, mk6. cbn [p_tmp p_tp p_colonp p_seen p_val]. apply hexval_bound in Ht.
  assert (0 <= hexval tok < 65536) by (split; [lia|]; eapply Z.lt_le_trans; [apply Ht|]; change 65536 with (16 ^ 4); apply Z.pow_le_mono_r; lia).
  rewrite pad_poke by lia. replace (S (length done)) with (length (done ++ [Z.land (u8 (Z.shiftr (hexval tok) 8)) 255])) by (rewrite length_app; cbn; lia).
  rewrite pad_poke by (rewrite length_app; cbn; lia). rewrite <-app_assoc, length_app. cbn [app length].
  rewrite Z.shiftr_div_pow2 by lia. change 255 with (Z.ones 8). rewrite !Z.land_ones by lia. change (2 ^ 8) with 256. unfold be16.
  rewrite (wrapu_id 8) by (change (2 ^ 8) with 256; split; [apply Z.div_pos; lia|apply Z.div_lt_upper_bound; lia]).
  unfold wrapu. change (2 ^ 8) with 256. rewrite Z.mod_mod by lia. rewrite (Z.mod_small (_ / _)) by (split; [apply Z.div_pos; lia|apply Z.div_lt_upper_bound; lia]).
  do 2 f_equal. lia.
Qed.

(** The zeros of the gap at [c]. *)
Definition expand (done : list Z) (c : nat) : list Z := take c done ++ zeros (16 - length done) ++ drop c done.

(** How the parse ends when all the groups are written. *)
Lemma finish_done done colonp v : (length done <= 16)%nat -> (forall c, colonp = Some c -> (c <= length done)%nat) ->
  pton6_finish (MkP6 (pad done) (length done) colonp 0 v) =
  Ret (match colonp with
       | Some c => if (length done =? 16)%nat then None else Some (expand done c)
       | None => if (length done =? 16)%nat then Some done else None
       end).
Proof.
  intros Hl Hc. unfold pton6_finish. cbn [p_seen p_tp p_colonp p_tmp Z.gtb Z.compare andb]. destruct colonp as [c|].
  - specialize (Hc c eq_refl). destruct (Nat.eqb_spec (length done) 16) as [|Hn]; [done|].
    assert (E : take (length done - c) (drop c (pad done)) = drop c done).
    { unfold pad. rewrite drop_app_le by lia. rewrite take_app_le by (rewrite length_drop; lia). rewrite take_ge; [done|]. rewrite length_drop. lia. }
    rewrite E. rewrite poke_list_eq by (rewrite length_drop, pad_length; lia). rewrite length_drop.
    rewrite (drop_ge (pad done)) by (rewrite pad_length; lia). rewrite app_nil_r.
    rewrite poke_list_eq by (rewrite repeat_length, length_app, length_take, length_drop, pad_length; lia). rewrite repeat_length. do 2 f_equal. unfold expand, zeros.
    replace (16 - (length done - c) - c)%nat with (16 - length done)%nat by lia. f_equal; [|f_equal].
    + rewrite take_app_le by (rewrite length_take, pad_length; lia). rewrite take_take, Nat.min_l by lia. unfold pad. by rewrite take_app_le by lia.
    + rewrite drop_app_ge by (rewrite length_take, pad_length; lia). rewrite length_take, pad_length by lia.
      replace (c + (16 - length done) - Init.Nat.min (16 - (length done - c)) 16)%nat with 0%nat by lia. done.
  - destruct (Nat.eqb_spec (length done) 16) as [E|]; [|done]. unfold pad. by rewrite E, app_nil_r.
Qed.

Lemma val_step v d : 0 <= v < 4096 -> 0 <= d < 16 -> Z.lor (u32 (Z.shiftl v 4)) d = v * 16 + d.
Proof.
  intros Hv Hd. rewrite Z.shiftl_mul_pow2 by lia. change (2 ^ 4) with 16. rewrite wrapu_id by lia. 
  assert (E : Z.land (v * 16) d = 0).
  { apply Z.bits_inj'. intros n Hn. rewrite Z.land_spec, Z.bits_0. destruct (Z.ltb_spec n 4).
    - replace (v * 16) with (Z.shiftl v 4) by (rewrite Z.shiftl_mul_pow2 by lia; done). by rewrite Z.shiftl_spec_low by lia.
    - rewrite <-(Z.mod_small d (2 ^ 4)) by (cbn; lia). by rewrite Z.mod_pow2_bits_high, andb_false_r by lia. }
  by rewrite <-Z.lxor_lor, <-Z.add_nocarry_lxor by done.
Qed.

(** The octets of a dotted quad are hexadecimal digits too. *)
Lemma fmt_u_hex b : is_byte b -> is_group (fmt_u b).
Proof.
  intros Hb. split; [|apply fmt_u_len in Hb; lia]. revert b Hb. apply octet_ind.
  - intros d Hd. rewrite fmt_u_small by done. apply Forall_singleton. unfold is_hex. replace (ch_0 + d) with (digit_char d); [rewrite hex_digit_char; lia|].
    unfold digit_char. by rewrite (proj2 (Z.ltb_lt _ _)) by lia.
  - intros c d Hc Hd Hlt IH. rewrite fmt_u_snoc, Forall_app, Forall_singleton by lia. split; [done|]. unfold is_hex. replace (ch_0 + d) with (digit_char d); [rewrite hex_digit_char; lia|].
    unfold digit_char. by rewrite (proj2 (Z.ltb_lt _ _)) by lia.
Qed.

Lemma dotted_head a : is_addr4 a -> exists b s, is_byte b /\ dotted a = fmt_u b ++ ch_dot :: s.
Proof.
  intros (b0 & b1 & b2 & b3 & -> & H0 & H1 & H2 & H3)%is_addr4_inv. eexists b0, _. split; [done|]. unfold dotted, dots. cbn [map concat]. rewrite <-!app_assoc. done.
Qed.

Lemma group_not_colon t s : is_group t -> exists c s', t ++ s = c :: s' /\ c <> ch_colon.
Proof. intros [Ht Hl]. destruct t as [|c t]; cbn in Hl; [lia|]. rewrite Forall_cons in Ht. exists c, (t ++ s). split; [done|]. destruct Ht as [Ht _]; by apply is_hex_not_sep in Ht as [? _]. Qed.

Lemma groups_head s b : groups s b -> exists c s', s = c :: s' /\ c <> ch_colon.
Proof.
  intros [t Ht|a Ha|t s' b' Ht _]; [rewrite <-(app_nil_r t); by apply group_not_colon| |by apply group_not_colon].
  destruct (dotted_head a Ha) as (b0 & s0 & Hb & ->). by apply group_not_colon, fmt_u_hex.
Qed.

Lemma fronts_head f b r : fronts f b -> f <> [] -> exists c s', f ++ r = c :: s' /\ c <> ch_colon.
Proof. intros [|t s' b' Ht _] Hn; [done|]. rewrite <-app_assoc. by apply group_not_colon. Qed.

(** ** Running it *)
Definition parse6 (r : res (option pton6_st)) : res (option (list Z)) :=
  match r with Ret (Some st) => pton6_finish st | Ret None => Ret None | _ => Fault end.

Section pton6.
Context (junk : list Z) (Hjunk : length junk = 4%nat).

Lemma loop_hex1 c src curtok done colonp tok : is_hex c -> Forall is_hex tok -> (length tok < 4)%nat ->
  pton6_loop junk (c :: src) curtok (mk6 done colonp tok) = pton6_loop junk src curtok (mk6 done colonp (tok ++ [c])).
Proof.
  intros Hc Ht Hl. cbn [pton6_loop]. unfold is_hex in Hc. rewrite Z.geb_leb, (proj2 (Z.leb_le _ _)) by lia. unfold mk6. cbn [p_seen p_val p_tmp p_tp p_colonp].
  rewrite (proj2 (Z.eqb_neq _ _)) by lia. apply hexval_bound in Ht. pose proof (hex_digit_bound c).
  assert (hexval tok < 4096) by (eapply Z.lt_le_trans; [apply Ht|]; change 4096 with (16 ^ 3); apply Z.pow_le_mono_r; lia).
  rewrite val_step by lia. rewrite Z.gtb_ltb, (proj2 (Z.ltb_ge _ _)) by lia. rewrite hexval_snoc, length_app. cbn [length]. do 2 f_equal. lia.
Qed.

Lemma loop_hex t src curtok done colonp : forall tok, Forall is_hex t -> Forall is_hex tok -> (length tok + length t <= 4)%nat ->
  pton6_loop junk (t ++ src) curtok (mk6 done colonp tok) = pton6_loop junk src curtok (mk6 done colonp (tok ++ t)).
Proof.
  induction t as [|c t IH]; intros tok Ht Htok Hl; [by rewrite app_nil_r|]. cbn [app]. cbn [length] in Hl. rewrite Forall_cons in Ht. destruct Ht as [Hc Ht].
  rewrite loop_hex1 by (done || lia). rewrite IH by (done || (rewrite length_app; cbn; lia) || (rewrite Forall_app, Forall_singleton; done)). by rewrite <-app_assoc.
Qed.

Lemma loop_colon src curtok done colonp tok : Forall is_hex tok -> (1 <= length tok <= 4)%nat -> src <> [] -> (length done + 2 <= 16)%nat ->
  pton6_loop junk (ch_colon :: src) curtok (mk6 done colonp tok) = pton6_loop junk src src (mk6 (done ++ be16 (hexval tok)) colonp []).
Proof.
  intros Ht Hl Hs Hd. cbn [pton6_loop]. change (hex_digit_value ch_colon >=? 0) with false. change (ch_colon =? ch_colon) with true. cbn iota.
  unfold mk6 at 1. cbn [p_seen p_tp]. rewrite (proj2 (Z.eqb_neq _ _)) by lia. rewrite bool_decide_eq_false_2 by done. unfold mk6 at 1. cbn [p_tp].
  rewrite (proj2 (Nat.ltb_ge _ _)) by lia. rewrite put_word_mk by (done || lia). cbn [p_tmp p_tp p_colonp]. unfold mk6. rewrite length_app, be16_len. done.
Qed.

Lemma loop_gap src curtok done :
  pton6_loop junk (ch_colon :: src) curtok (mk6 done None []) = pton6_loop junk src src (mk6 done (Some (length done)) []).
Proof. done. Qed.

Lemma loop_end curtok done colonp tok : is_group tok -> (length done + 2 <= 16)%nat -> (forall c, colonp = Some c -> (c <= length done)%nat) ->
  parse6 (pton6_loop junk [] curtok (mk6 done colonp tok)) = pton6_finish (mk6 (done ++ be16 (hexval tok)) colonp []).
Proof.
  intros [Ht Hl] Hd Hc. cbn [pton6_loop parse6]. unfold mk6 at 2. change (zlen (@nil Z)) with 0. rewrite finish_done.
  2: { rewrite length_app, be16_len. lia. } 2: { intros c ->. rewrite length_app. specialize (Hc c eq_refl). lia. }
  unfold pton6_finish. rewrite put_word_mk by (done || lia). unfold mk6. cbn [p_seen p_tp p_tmp p_colonp].
  rewrite Z.gtb_ltb, (proj2 (Z.ltb_lt _ _)) by lia. cbn [andb]. rewrite (proj2 (Nat.ltb_ge _ _)) by lia.
  set (d' := done ++ be16 (hexval tok)). assert (El : (length done + 2)%nat = length d') by (unfold d'; rewrite length_app, be16_len; done).
  rewrite El. pose proof (finish_done d' colonp 0) as E. unfold pton6_finish in E. cbn [p_seen p_tp p_colonp p_tmp Z.gtb Z.compare andb] in E.
  apply E; [lia|]. intros c ->. specialize (Hc c eq_refl). lia.
Qed.

Lemma loop_quad a src done colonp tok : inet_pton4 junk (tok ++ ch_dot :: src) = Ret (Some a) -> is_addr4 a -> (length done + 4 <= 16)%nat ->
  pton6_loop junk (ch_dot :: src) (tok ++ ch_dot :: src) (mk6 done colonp tok) = Ret (Some (MkP6 (pad (done ++ a)) (length (done ++ a)) colonp 0 (hexval tok))).
Proof.
  intros Ea [Hl Ha] Hd. cbn [pton6_loop]. change (hex_digit_value ch_dot >=? 0) with false. change (ch_dot =? ch_colon) with false. change (ch_dot =? ch_dot) with true. cbn iota.
  unfold mk6 at 1. cbn [p_tp andb]. rewrite (proj2 (Nat.leb_le _ _)) by lia. rewrite Ea. unfold mk6. cbn [p_tp p_tmp p_colonp p_val].
  rewrite pad_poke_list by lia. by rewrite length_app, Hl.
Qed.

(** ** Every text of the grammar is read as it should be *)
Lemma loop_groups s b : groups s b -> forall done colonp, (length done + length b <= 16)%nat -> (forall c, colonp = Some c -> (c <= length done)%nat) ->
  parse6 (pton6_loop junk s s (mk6 done colonp [])) = pton6_finish (mk6 (done ++ b) colonp []).
Proof.
  induction 1 as [t [Ht Htl]|a Ha|t s b [Ht Htl] Hs IH]; intros done colonp Hl Hc.
  - rewrite <-(app_nil_r t) at 1. rewrite (loop_hex t [] _ done colonp []) by (done || (cbn [length]; lia)). cbn [app].
    rewrite be16_len in Hl. by apply loop_end.
  - destruct (dotted_head a Ha) as (b & s & Hb & E). pose proof (inet_pton4_dotted junk a Hjunk Ha) as Ep. rewrite E in *. destruct (fmt_u_hex b Hb) as [Hx Hxl].
    rewrite (loop_hex (fmt_u b) _ _ done colonp []) by (done || (cbn [length]; lia)). cbn [app]. rewrite (loop_quad a) by (done || (destruct Ha; lia)).
    cbn [parse6]. rewrite finish_done. 2: by rewrite length_app. 2: { intros c ->. rewrite length_app. specialize (Hc c eq_refl). lia. }
    unfold mk6. change (zlen (@nil Z)) with 0. rewrite finish_done; [done|by rewrite length_app|]. intros c ->. rewrite length_app. specialize (Hc c eq_refl). lia.
  - rewrite length_app, be16_len in Hl. rewrite (loop_hex t _ _ done colonp []) by (done || (cbn [length]; lia)). cbn [app].
    rewrite loop_colon by (done || lia || by eapply groups_nonempty). rewrite IH; [by rewrite <-app_assoc|rewrite length_app, be16_len; lia|].
    intros c ->. rewrite length_app. specialize (Hc c eq_refl). lia.
Qed.

Lemma loop_fronts f b1 : fronts f b1 -> forall r done, (length done + length b1 <= 16)%nat ->
  pton6_loop junk (f ++ ch_colon :: r) (f ++ ch_colon :: r) (mk6 done None []) = pton6_loop junk r r (mk6 (done ++ b1) (Some (length (done ++ b1))) []).
Proof.
  induction 1 as [|t s b [Ht Htl] Hs IH]; intros r done Hl; cbn [app]; [by rewrite app_nil_r|].
  rewrite length_app, be16_len in Hl. rewrite <-app_assoc. rewrite (loop_hex t _ _ done None []) by (done || (cbn [length]; lia)). cbn [app].
  rewrite loop_colon by (done || lia || (by destruct s)). rewrite IH by (rewrite length_app, be16_len; lia). by rewrite <-app_assoc.
Qed.

Lemma loop_tails r b : tails r b -> forall done c, (length done + length b <= 16)%nat -> (c <= length done)%nat ->
  parse6 (pton6_loop junk r r (mk6 done (Some c) [])) = pton6_finish (mk6 (done ++ b) (Some c) []).
Proof. intros [[-> ->]|Hg] done c Hl Hc; [by rewrite app_nil_r|]. apply loop_groups; [done..|]. by intros ? [= <-]. Qed.

Lemma inet_pton6_head c s : c <> ch_colon -> inet_pton6 junk (c :: s) = parse6 (pton6_loop junk (c :: s) (c :: s) (mk6 [] None [])).
Proof. intros Hc. unfold inet_pton6. by rewrite (proj2 (Z.eqb_neq _ _) Hc). Qed.

Lemma denotes6_parsed s a : denotes6 s a -> inet_pton6 junk s = Ret (Some a).
Proof.
  intros [s' a' Hg Hl|f r b1 b2 Hf Hr Hl].
  - destruct (groups_head _ _ Hg) as (c & s0 & -> & Hc). rewrite inet_pton6_head by done. rewrite (loop_groups _ _ Hg) by (done || (cbn; lia)). cbn [app].
    unfold mk6. change (zlen (@nil Z)) with 0. rewrite finish_done by (done || lia). by rewrite Hl.
  - assert (E : inet_pton6 junk ((if decide (f = []) then [ch_colon] else f) ++ ch_colon :: r) = parse6 (pton6_loop junk (f ++ ch_colon :: r) (f ++ ch_colon :: r) (mk6 [] None []))).
    { destruct (decide (f = [])) as [->|Hn]; [done|]. destruct (fronts_head f b1 (ch_colon :: r) Hf Hn) as (c & s0 & E & Hc). rewrite E. by apply inet_pton6_head. }
    rewrite E, (loop_fronts f b1 Hf) by (cbn; lia). cbn [app]. rewrite (loop_tails r b2 Hr) by lia.
    unfold mk6. change (zlen (@nil Z)) with 0. rewrite finish_done. 2: rewrite length_app; lia. 2: { intros c [= <-]. rewrite length_app. lia. }
    rewrite (proj2 (Nat.eqb_neq _ _)) by (rewrite length_app; lia). unfold expand. rewrite take_app_length, drop_app_length, length_app.
    do 4 f_equal. f_equal. lia.
Qed.

(** ** Every text that is read is of the grammar *)

(** What the rest [s] of the text stands for, with [done] already read. *)
Definition outcome (colonp : option nat) (done s a : list Z) : Prop :=
  match colonp with
  | Some c => exists b, tails s b /\ (length done + length b < 16)%nat /\ a = expand (done ++ b) c
  | None =>
    (exists b, groups s b /\ length (done ++ b) = 16%nat /\ a = done ++ b) \/
    (exists f r b1 b2, s = f ++ ch_colon :: r /\ fronts f b1 /\ tails r b2 /\ (length done + length b1 + length b2 < 16)%nat /\
       a = done ++ b1 ++ zeros (16 - length done - length b1 - length b2) ++ b2)
  end.

Lemma outcome_group colonp done t s a : is_group t -> s <> [] ->
  outcome colonp (done ++ be16 (hexval t)) s a -> outcome colonp done (t ++ ch_colon :: s) a.
Proof.
  intros Ht Hs. destruct colonp as [c|]; cbn [outcome].
  - intros (b & [[-> _]|Hg] & Hl & ->); [done|]. rewrite length_app, be16_len in Hl. exists (be16 (hexval t) ++ b). split; [right; by constructor|].
    rewrite length_app, be16_len. split; [lia|]. by rewrite <-app_assoc.
  - intros [(b & Hg & Hl & ->)|(f & r & b1 & b2 & -> & Hf & Hr & Hl & ->)]; [left|right].
    + exists (be16 (hexval t) ++ b). rewrite <-app_assoc in *. split; [by constructor|]. done.
    + exists (t ++ ch_colon :: f), r, (be16 (hexval t) ++ b1), b2. rewrite length_app, be16_len in *. rewrite <-!app_assoc. split; [done|]. split; [by constructor|]. split; [done|].
      split; [lia|]. rewrite length_app, be16_len. do 4 f_equal. f_equal. lia.
Qed.

Lemma outcome_last colonp done t b : groups t b -> (length done + length b <= 16)%nat -> (forall c, colonp = Some c -> (c <= length done)%nat) -> forall v,
  pton6_finish (MkP6 (pad (done ++ b)) (length (done ++ b)) colonp 0 v) = Ret None \/
  exists a, pton6_finish (MkP6 (pad (done ++ b)) (length (done ++ b)) colonp 0 v) = Ret (Some a) /\ outcome colonp done t a.
Proof.
  intros Hg Hl Hc v. rewrite finish_done. 2: rewrite length_app; lia. 2: { intros c ->. rewrite length_app. specialize (Hc c eq_refl). lia. }
  destruct colonp as [c|]; destruct (Nat.eqb_spec (length (done ++ b)) 16) as [E|E]; try by left.
  - right. eexists. split; [done|]. exists b. split; [by right|]. split; [|done]. rewrite length_app in E. lia.
  - right. eexists. split; [done|]. left. by exists b.
Qed.

Lemma loop_sound src : forall done colonp tok,
  Forall is_hex tok -> (length tok <= 4)%nat -> (length done <= 16)%nat -> (forall c, colonp = Some c -> (c <= length done)%nat) ->
  (colonp = None -> tok ++ src <> []) ->
  let r := parse6 (pton6_loop junk src (tok ++ src) (mk6 done colonp tok)) in
  r = Ret None \/ exists a, r = Ret (Some a) /\ outcome colonp done (tok ++ src) a.
Proof.
  induction src as [|ch src IH]; intros done colonp tok Ht Htl Hd Hc Hne; cbn zeta.
  - destruct tok as [|t0 tok'].
    + destruct colonp as [c|]; [|by specialize (Hne eq_refl)]. specialize (Hc c eq_refl). cbn [pton6_loop parse6]. unfold mk6. change (zlen (@nil Z)) with 0.
      rewrite finish_done by (done || (intros ? [= <-]; done)). destruct (Nat.eqb_spec (length done) 16); [by left|]. right. eexists. split; [done|].
      exists []. cbn. rewrite app_nil_r. split; [by left|]. split; [lia|done].
    + destruct (decide (length done + 2 <= 16)%nat).
      * rewrite loop_end by (done || (split; [done|cbn; cbn in Htl; lia])). unfold mk6. change (zlen (@nil Z)) with 0. rewrite app_nil_r.
        apply outcome_last; [constructor; split; [done|cbn in *; lia]|rewrite be16_len; lia|done].
      * left. cbn [pton6_loop parse6]. unfold pton6_finish, mk6. cbn [p_seen p_tp]. rewrite Z.gtb_ltb, (proj2 (Z.ltb_lt _ _)) by (cbn; lia). by rewrite (proj2 (Nat.ltb_lt _ _)) by lia.
  - destruct (decide (is_hex ch)) as [Hx|Hx].
    + destruct (decide (length tok < 4)%nat).
      * rewrite loop_hex1 by done. rewrite cons_middle, app_assoc. apply IH; [by rewrite Forall_app, Forall_singleton|rewrite length_app; cbn; lia|done..|]. intros _ E. by destruct tok.
      * left. cbn [pton6_loop]. unfold is_hex in Hx. rewrite Z.geb_leb, (proj2 (Z.leb_le _ _)) by done. unfold mk6. cbn [p_seen]. by rewrite (proj2 (Z.eqb_eq _ _)) by lia.
    + destruct (decide (ch = ch_colon)) as [->|Hcol].
      * destruct tok as [|t0 tok'].
        -- destruct colonp as [c|]; [by left|]. rewrite loop_gap. cbn [app].
           destruct (IH done (Some (length done)) [] ltac:(done) ltac:(cbn; lia) Hd ltac:(by intros ? [= <-]) ltac:(done)) as [E|(a & E & Ho)]; cbn [app] in E; rewrite E; [by left|].
           right. exists a. split; [done|]. destruct Ho as (b & Hb & Hl & ->). right. exists [], src, [], b. split; [done|]. split; [constructor|]. split; [done|]. cbn [length app].
           split; [lia|]. unfold expand. rewrite take_app_length, drop_app_length, length_app. do 3 f_equal. lia.
        -- destruct (decide (src = [])) as [->|Hs]; [by left|]. destruct (decide (length done + 2 <= 16)%nat).
           ++ rewrite loop_colon by (done || (cbn; cbn in Htl; lia)).
              destruct (IH (done ++ be16 (hexval (t0 :: tok'))) colonp [] ltac:(done) ltac:(cbn; lia) ltac:(rewrite length_app, be16_len; lia)
                 ltac:(intros c ->; rewrite length_app; specialize (Hc c eq_refl); lia) ltac:(done)) as [E|(a & E & Ho)]; cbn [app] in E; rewrite E; [by left|].
              right. exists a. split; [done|]. apply outcome_group; [split; [done|cbn in *; lia]|done|done].
           ++ left. cbn [pton6_loop]. change (hex_digit_value ch_colon >=? 0) with false. change (ch_colon =? ch_colon) with true. cbn iota.
              unfold mk6. cbn [p_seen p_tp]. rewrite (proj2 (Z.eqb_neq _ _)) by (cbn; lia). rewrite bool_decide_eq_false_2 by done. by rewrite (proj2 (Nat.ltb_lt _ _)) by lia.
      * assert (En : (hex_digit_value ch >=? 0) = false) by (unfold is_hex in Hx; rewrite Z.geb_leb; apply Z.leb_gt; lia).
        destruct (decide (ch = ch_dot)) as [->|Hdot].
        -- destruct (decide (length done + 4 <= 16)%nat).
           ++ destruct (inet_pton4_sound junk (tok ++ ch_dot :: src) Hjunk) as [E|(a & E & Ha & Es)].
              ** left. cbn [pton6_loop]. rewrite En. change (ch_dot =? ch_colon) with false. change (ch_dot =? ch_dot) with true. unfold mk6. cbn [p_tp andb]. rewrite (proj2 (Nat.leb_le _ _)) by lia. by rewrite E.
              ** rewrite (loop_quad a) by done. cbn [parse6]. rewrite Es. apply outcome_last; [by constructor|destruct Ha; lia|done].
           ++ left. cbn [pton6_loop]. rewrite En. change (ch_dot =? ch_colon) with false. change (ch_dot =? ch_dot) with true. unfold mk6. cbn [p_tp andb]. by rewrite (proj2 (Nat.leb_gt _ _)) by lia.
        -- left. cbn [pton6_loop]. rewrite En. by rewrite (proj2 (Z.eqb_neq _ _) Hcol), (proj2 (Z.eqb_neq _ _) Hdot).
Qed.

Lemma outcome_denotes s a : outcome None [] s a -> hd 0 s <> ch_colon -> denotes6 s a.
Proof.
  intros [(b & Hg & Hl & ->)|(f & r & b1 & b2 & -> & Hf & Hr & Hl & ->)] Hh; [by constructor|].
  replace (f ++ ch_colon :: r) with ((if decide (f = []) then [ch_colon] else f) ++ ch_colon :: r) by (destruct (decide (f = [])) as [->|]; [by cbn in Hh|done]).
  cbn [app length] in *. rewrite Nat.sub_0_r. by constructor.
Qed.

Lemma inet_pton6_sound s : inet_pton6 junk s = Ret None \/ exists a, inet_pton6 junk s = Ret (Some a) /\ denotes6 s a.
Proof.
  destruct s as [|c s]; [by left|]. destruct (decide (c = ch_colon)) as [->|Hc].
  - destruct s as [|c' s]; [by left|]. destruct (decide (c' = ch_colon)) as [->|Hc']; [|left; cbn; by rewrite (proj2 (Z.eqb_neq _ _) Hc')].
    pose proof (loop_sound (ch_colon :: s) [] None [] ltac:(done) ltac:(cbn; lia) ltac:(cbn; lia) ltac:(done) ltac:(done)) as [E|(a & E & Ho)]; [by left|].
    right. exists a. split; [done|]. destruct Ho as [(b & Hg & _)|(f & r & b1 & b2 & Ef & Hf & Hr & Hl & ->)]; [destruct (groups_head _ _ Hg) as (? & ? & [= <- <-] & ?); done|].
    destruct (decide (f = [])) as [->|Hn].
    + cbn in Ef. injection Ef as ->. inversion Hf; subst. 2: by destruct t. exact (denotes_gap [] r [] b2 Hf Hr Hl).
    + destruct (fronts_head f b1 (ch_colon :: r) Hf Hn) as (c & s' & E' & Hc). rewrite <-Ef in E'. by injection E' as <- <-.
  - rewrite inet_pton6_head by done.
    pose proof (loop_sound (c :: s) [] None [] ltac:(done) ltac:(cbn; lia) ltac:(cbn; lia) ltac:(done) ltac:(done)) as [E|(a & E & Ho)]; cbn [app] in E; rewrite E; [by left|].
    right. exists a. split; [done|]. by apply outcome_denotes.
Qed.

End pton6.
