(* ===== verification/InetPrint.v ===== *)
(** * Printing an IPv6 address

    [best_run] finds the first of the longest runs of zero words, the printing loop
    stays inside its buffer, and the text printed denotes the address. *)
From S2P Require Import Prelude.
From S2P Require Import Inet.
From S2P Require Import InetQuad.
From S2P Require Import InetSpec.

(** ** The run that [::] replaces *)

(** The words from [b] on, [l] of them, are zero. *)
Definition zero_run (ws : list Z) (b l : nat) : Prop := (b + l <= length ws)%nat /\ Forall (eq 0) (take l (drop b ws)).
#[export] Instance zero_run_dec ws b l : Decision (zero_run ws b l) := ltac:(unfold zero_run; apply _).

(** The first of the longest runs of at least two. *)
Definition is_best (ws : list Z) (r : run6) : Prop :=
  (r_base r = -1 /\ Forall (fun b => ~ zero_run ws b 2) (seq 0 8)) \/
  (0 <= r_base r /\ 2 <= r_len r /\ zero_run ws (Z.to_nat (r_base r)) (Z.to_nat (r_len r)) /\
   Forall (fun b => Forall (fun l => zero_run ws b l -> Z.of_nat l <= r_len r /\ (Z.of_nat l = r_len r -> r_base r <= Z.of_nat b)) (seq 0 9)) (seq 0 9)).
#[export] Instance is_best_dec ws r : Decision (is_best ws r) := ltac:(unfold is_best; apply _).

(** Only which words are zero matters. *)
Definition shape (ws : list Z) : list Z := map (fun w => if w =? 0 then 0 else 1) ws.
Fixpoint shapes (n : nat) : list (list Z) :=
  match n with O => [[]] | S n => map (cons 0) (shapes n) ++ map (cons 1) (shapes n) end.

Lemma shape_in ws : shape ws ∈ shapes (length ws).
Proof.
  induction ws as [|w ws IH]; cbn; [by apply list_elem_of_singleton|]. apply elem_of_app.
  destruct (w =? 0); [left|right]; (apply list_elem_of_fmap; by exists (shape ws)).
Qed.

Lemma best_run_loop_shape ws : forall i best cur, best_run_loop (shape ws) i best cur = best_run_loop ws i best cur.
Proof. induction ws as [|w ws IH]; intros i best cur; [done|]. cbn. destruct (w =? 0); cbn; rewrite !IH; done. Qed.
Lemma best_run_shape ws : best_run (shape ws) = best_run ws.
Proof. unfold best_run. by rewrite best_run_loop_shape. Qed.
Lemma zero_run_shape ws b l : zero_run (shape ws) b l <-> zero_run ws b l.
Proof.
  unfold zero_run, shape. rewrite length_map. f_equiv. rewrite <-fmap_drop, <-fmap_take, Forall_fmap. apply Forall_iff. intros w. unfold compose.
  destruct (Z.eqb_spec w 0); split; congruence.
Qed.
Lemma is_best_shape ws r : is_best (shape ws) r <-> is_best ws r.
Proof. unfold is_best. setoid_rewrite zero_run_shape. done. Qed.

Lemma best_run_best ws : length ws = 8%nat -> is_best ws (best_run ws).
Proof.
  intros Hl. rewrite <-best_run_shape. apply is_best_shape.
  assert (E : Forall (fun s => is_best s (best_run s)) (shapes 8)) by (apply (bool_decide_unpack _); vm_compute; exact I).
  rewrite Forall_forall in E. apply E. rewrite <-Hl. apply shape_in.
Qed.

(** ** The words of an address *)
Definition is_word (w : Z) : Prop := 0 <= w < 65536.
Definition is_addr6 (a : list Z) : Prop := length a = 16%nat /\ Forall is_byte a.
Definition bytes_of (ws : list Z) : list Z := concat (map be16 ws).

Lemma word_eq h l : is_byte h -> is_byte l -> Z.lor (Z.shiftl h 8) l = h * 256 + l.
Proof.
  unfold is_byte. intros Hh Hl. rewrite Z.shiftl_mul_pow2 by lia. change (2 ^ 8) with 256.
  assert (E : Z.land (h * 256) l = 0).
  { apply Z.bits_inj'. intros n Hn. rewrite Z.land_spec, Z.bits_0. destruct (Z.ltb_spec n 8).
    - replace (h * 256) with (Z.shiftl h 8) by (rewrite Z.shiftl_mul_pow2 by lia; done). by rewrite Z.shiftl_spec_low by lia.
    - rewrite <-(Z.mod_small l (2 ^ 8)) by (cbn; lia). by rewrite Z.mod_pow2_bits_high, andb_false_r by lia. }
  by rewrite <-Z.lxor_lor, <-Z.add_nocarry_lxor by done.
Qed.

Lemma words6_spec n : forall src, Forall is_byte src -> length src = (2 * n)%nat ->
  exists ws, words6 src n = Ret ws /\ length ws = n /\ Forall is_word ws /\ bytes_of ws = src.
Proof.
  induction n as [|n IH]; intros src Hs Hl; [exists []; by destruct src|].
  destruct src as [|h [|l src]]; cbn [length] in Hl; try lia. rewrite !Forall_cons in Hs. destruct Hs as (Hh & Hlo & Hs).
  destruct (IH src Hs ltac:(lia)) as (ws & E & El & Hw & Eb). exists (h * 256 + l :: ws). cbn [words6]. rewrite E, word_eq by done. split; [done|]. cbn [length]. split; [lia|].
  unfold is_byte in *. split; [constructor; [unfold is_word; lia|done]|]. unfold bytes_of. cbn [map concat]. fold (bytes_of ws). rewrite Eb. unfold be16.
  replace ((h * 256 + l) / 256) with h by (rewrite Z.div_add_l, Z.div_small; lia). replace ((h * 256 + l) mod 256) with l by (rewrite Z.add_comm, Z.mod_add, Z.mod_small; lia).
  done.
Qed.

(** ** The text that is printed *)
Fixpoint pieces (src words : list Z) (best : run6) (ws : list Z) (i : Z) : list Z :=
  match ws with
  | [] => []
  | w :: ws =>
    if in_run best i then (if i =? r_base best then [ch_colon] else []) ++ pieces src words best ws (i + 1)
    else (if i =? 0 then [] else [ch_colon]) ++
      (if embeds4 words best i then dotted (drop 12 src) else fmt_x w ++ pieces src words best ws (i + 1))
  end.

Lemma put_char_fits size c out : zlen out + 1 <= size -> put_char size c out = Ret (tt, out ++ [c]).
Proof. intros Hs. unfold put_char. run. by rewrite (proj2 (Z.leb_le _ _)). Qed.
Lemma put_str_fits size s out : zlen out + zlen s + 1 <= size -> put_str size s out = Ret (tt, out ++ s).
Proof. intros Hs. unfold put_str. run. by rewrite (proj2 (Z.leb_le _ _)). Qed.

Lemma embeds4_inv words best i : embeds4 words best i = true -> i = 6 /\ r_base best = 0 /\ (r_len best = 6 \/ r_len best = 5).
Proof. unfold embeds4. rewrite !andb_true_iff, orb_true_iff, andb_true_iff, !Z.eqb_eq. tauto. Qed.

Lemma print_words_eq src words best ws : is_addr4 (drop 12 src) -> Forall is_word ws -> forall i out,
  0 <= i -> i + zlen ws = 8 -> zlen out <= Z.max 0 (5 * i - 1) ->
  print_words src words best ws i out = Ret (true, out ++ pieces src words best ws i) /\
  zlen (out ++ pieces src words best ws i) <= 45 /\
  (r_base best + r_len best = 8 -> zlen (out ++ pieces src words best ws i) <= 39).
Proof.
  intros Ha. induction ws as [|w ws IH]; intros Hw i out Hi Hn Ho; cbn [print_words pieces].
  { cbn [length] in Hn. run. rewrite app_nil_r. split; [done|]. lia. }
  rewrite Forall_cons in Hw. destruct Hw as [Hw Hws]. cbn [length] in Hn. destruct (fmt_x_word w Hw) as (_ & _ & Hlen). destruct (in_run best i) eqn:Er.
  { destruct (i =? r_base best).
    - rewrite (cbind_ret _ _ _ _ _ (put_char_fits sizeof_tmp6 ch_colon out ltac:(unfold sizeof_tmp6; lia))).
      rewrite app_assoc. apply IH; [done|lia..|]. rewrite length_app. cbn [length]. lia.
    - run. cbn [app]. apply IH; [done|lia..]. }
  set (colon := if i =? 0 then [] else [ch_colon]). assert (Hcl : zlen colon <= 1 /\ (i = 0 -> zlen colon = 0)) by (unfold colon; destruct (Z.eqb_spec i 0); cbn; lia).
  assert (E : (if negb (i =? 0) then put_char sizeof_tmp6 ch_colon else cret tt) out = Ret (tt, out ++ colon)).
  { unfold colon. destruct (Z.eqb_spec i 0); cbn [negb]; [by rewrite app_nil_r|]. apply put_char_fits. unfold sizeof_tmp6. lia. }
  rewrite (cbind_ret _ _ _ _ _ E). destruct (embeds4 words best i) eqn:Ee.
  - apply embeds4_inv in Ee as (-> & Eb & El). pose proof (dotted_len _ Ha). run. rewrite inet_ntop4_eq by done. rewrite length_app in *.
    rewrite Z.geb_leb, (proj2 (Z.leb_gt _ _)) by (unfold sizeof_tmp6; lia). run. rewrite put_str_fits by (rewrite length_app; unfold sizeof_tmp6; lia). rewrite <-!app_assoc. split; [done|].
    rewrite !length_app. split; [lia|]. intros E8. lia.
  - rewrite (cbind_ret _ _ _ _ _ (put_str_fits sizeof_tmp6 (fmt_x w) (out ++ colon) ltac:(rewrite length_app; unfold sizeof_tmp6; lia))).
    rewrite !app_assoc. apply IH; [done|lia..|]. rewrite !length_app. lia.
Qed.

(** What [inet_ntop6] prints. *)
Definition text6 (src words : list Z) : list Z :=
  let best := best_run words in
  pieces src words best words 0 ++ (if negb (r_base best =? -1) && (r_base best + r_len best =? 8) then [ch_colon] else []).

Lemma inet_ntop6_eq src words size : is_addr4 (drop 12 src) -> Forall is_word words -> length words = 8%nat -> words6 src 8 = Ret words ->
  inet_ntop6 src size = Ret (if zlen (text6 src words) + 1 >? size then inr AOSL_ENOSPC else inl (text6 src words)) /\ (length (text6 src words) <= 45)%nat.
Proof.
  intros Ha Hw Hl Ew. unfold inet_ntop6. rewrite Ew.
  destruct (print_words_eq src words (best_run words) words Ha Hw 0 [] ltac:(lia) ltac:(lia) ltac:(cbn; lia)) as (E & H45 & H39).
  rewrite (cbind_ret _ _ _ _ _ E). cbn [negb app] in *. unfold text6. set (P := pieces _ _ _ _ _) in *. set (best := best_run words) in *.
  destruct (negb (r_base best =? -1) && (r_base best + r_len best =? 8)) eqn:Et.
  - apply andb_true_iff in Et as [_ Et]. apply Z.eqb_eq, H39 in Et.
    rewrite (cbind_ret _ _ _ _ _ (put_char_fits sizeof_tmp6 ch_colon P ltac:(unfold sizeof_tmp6; lia))).
    rewrite (cbind_ret _ _ _ _ _ (put_str_fits sizeof_tmp6 [] (P ++ [ch_colon]) ltac:(rewrite length_app; cbn; unfold sizeof_tmp6; lia))). run. rewrite app_nil_r.
    split; [|rewrite length_app; cbn; lia]. unfold strcpy_dst. rewrite Z.gtb_ltb. destruct (Z.ltb_spec size (zlen (P ++ [ch_colon]) + 1)); [done|]. by rewrite (proj2 (Z.leb_le _ _)) by lia.
  - run. rewrite put_str_fits by (cbn; unfold sizeof_tmp6; lia). rewrite !app_nil_r.
    split; [|lia]. unfold strcpy_dst. rewrite Z.gtb_ltb. destruct (Z.ltb_spec size (zlen P + 1)); [done|]. by rewrite (proj2 (Z.leb_le _ _)) by lia.
Qed.

(** ** It denotes the address *)
Definition fr (ws : list Z) : list Z := concat (map (fun w => fmt_x w ++ [ch_colon]) ws).
Fixpoint join (ws : list Z) : list Z :=
  match ws with [] => [] | [w] => fmt_x w | w :: ws => fmt_x w ++ ch_colon :: join ws end.

Lemma word_group w : is_word w -> is_group (fmt_x w) /\ hexval (fmt_x w) = w.
Proof. intros (Hx & Hv & Hl)%fmt_x_word. done. Qed.

Lemma fr_fronts ws : Forall is_word ws -> fronts (fr ws) (bytes_of ws).
Proof.
  induction 1 as [|w ws Hw Hws IH]; [constructor|]. destruct (word_group w Hw) as [Hg Hv]. unfold fr, bytes_of. cbn [map concat]. rewrite <-app_assoc. cbn [app].
  rewrite <-Hv at 2. by constructor.
Qed.
Lemma join_groups ws : Forall is_word ws -> ws <> [] -> groups (join ws) (bytes_of ws).
Proof.
  induction 1 as [|w ws Hw Hws IH]; [done|]. intros _. destruct (word_group w Hw) as [Hg Hv]. unfold bytes_of. cbn [map concat].
  rewrite <-Hv at 2. destruct ws as [|w' ws]; [cbn [join]; rewrite app_nil_r; by constructor|]. cbn [join] in *. constructor; [done|]. by apply IH.
Qed.
Lemma join_tails ws : Forall is_word ws -> tails (join ws) (bytes_of ws).
Proof. intros Hw. destruct (decide (ws = [])) as [->|]; [by left|]. right. by apply join_groups. Qed.

Lemma bytes_of_app l1 l2 : bytes_of (l1 ++ l2) = bytes_of l1 ++ bytes_of l2.
Proof. unfold bytes_of. by rewrite map_app, concat_app. Qed.
Lemma bytes_of_len ws : length (bytes_of ws) = (2 * length ws)%nat.
Proof. induction ws as [|w ws IH]; [done|]. unfold bytes_of in *. cbn [map concat]. rewrite length_app, IH, be16_len. cbn [length]. lia. Qed.
Lemma bytes_of_zero ws : Forall (eq 0) ws -> bytes_of ws = zeros (2 * length ws).
Proof.
  induction 1 as [|w ws <- Hws IH]; [done|]. unfold bytes_of in *. cbn [map concat length]. rewrite IH. replace (2 * S (length ws))%nat with (S (S (2 * length ws))) by lia. done.
Qed.

(** The words around a run of zeros. *)
Lemma run_split ws b l : zero_run ws b l -> ws = take b ws ++ take l (drop b ws) ++ drop (b + l) ws.
Proof. intros _. rewrite <-drop_drop. by rewrite !take_drop. Qed.

Lemma gap_denotes ws b l r b2 : Forall is_word ws -> length ws = 8%nat -> zero_run ws b l -> (2 <= l)%nat ->
  tails r b2 -> b2 = bytes_of (drop (b + l) ws) ->
  denotes6 ((if (b =? 0)%nat then [ch_colon] else fr (take b ws)) ++ ch_colon :: r) (bytes_of ws).
Proof.
  intros Hw Hl Hz Hlen Hr ->. pose proof Hz as [Hb H0].
  assert (Ef : fr (take b ws) = [] <-> b = 0%nat).
  { destruct b as [|b]; [done|]. destruct ws as [|w ws]; [cbn in Hl; lia|]. split; [|lia]. unfold fr. cbn [take map concat]. by destruct (fmt_x w). }
  replace (bytes_of ws) with (bytes_of (take b ws) ++ zeros (16 - length (bytes_of (take b ws)) - length (bytes_of (drop (b + l) ws))) ++ bytes_of (drop (b + l) ws)).
  - replace (if (b =? 0)%nat then [ch_colon] else fr (take b ws)) with (if decide (fr (take b ws) = []) then [ch_colon] else fr (take b ws)).
    + constructor; [apply fr_fronts, Forall_take; done|done|]. rewrite !bytes_of_len, length_take, length_drop. lia.
    + destruct (decide (fr (take b ws) = [])) as [E|E], (Nat.eqb_spec b 0); tauto.
  - rewrite (run_split ws b l Hz) at 5. rewrite !bytes_of_app, (bytes_of_zero _ H0). rewrite !bytes_of_len, !length_take, !length_drop. do 3 f_equal. f_equal. lia.
Qed.

Lemma eight {A} (ws : list A) : length ws = 8%nat -> exists w0 w1 w2 w3 w4 w5 w6 w7, ws = [w0; w1; w2; w3; w4; w5; w6; w7].
Proof. intros Hl. do 8 (destruct ws as [|? ws]; cbn in Hl; [lia|]). destruct ws; [eauto 10|cbn in Hl; lia]. Qed.

(** Without a run and with one, the pieces are the groups between the colons. *)
Lemma pieces_no_run src ws n : length ws = 8%nat -> pieces src ws (MkRun (-1) n) ws 0 = join ws.
Proof. intros (w0 & w1 & w2 & w3 & w4 & w5 & w6 & w7 & ->)%eight. cbn -[fmt_x app]. cbn [app]. by rewrite app_nil_r. Qed.

(** Groups that each follow a colon. *)
Definition bk (ws : list Z) : list Z := concat (map (fun w => ch_colon :: fmt_x w) ws).

Lemma bk_fr w ws : fmt_x w ++ bk ws ++ [ch_colon] = fr (w :: ws).
Proof.
  revert w. induction ws as [|w' ws IH]; intros w; [by cbn; rewrite app_nil_r|]. unfold bk, fr in *. cbn [map concat]. cbn [map concat] in IH. rewrite <-!app_assoc. cbn [app]. 
  rewrite IH, <-app_assoc. done.
Qed.
Lemma bk_join ws : bk ws ++ (if decide (ws = []) then [ch_colon] else []) = ch_colon :: join ws.
Proof.
  induction ws as [|w ws IH]; [done|]. rewrite decide_False, app_nil_r in * by done. unfold bk in *. cbn [map concat]. destruct ws as [|w' ws]; [cbn; by rewrite app_nil_r|].
  rewrite decide_False, app_nil_r in IH by done. rewrite IH. done.
Qed.

Section with_run.
Context (src words : list Z) (b l : Z) (Hb : 0 <= b) (Hl : 2 <= l).
Let best := MkRun b l.
Context (He : embeds4 words best 6 = false).

Lemma embeds_none i : embeds4 words best i = false.
Proof. destruct (embeds4 words best i) eqn:E; [|done]. pose proof (embeds4_inv _ _ _ E) as (-> & _). congruence. Qed.

Lemma in_run_spec i : in_run best i = bool_decide (b <= i < b + l).
Proof.
  unfold in_run, best. cbn [r_base r_len]. rewrite (proj2 (Z.eqb_neq b (-1))) by lia. cbn [negb andb]. rewrite Z.geb_leb.
  destruct (Z.leb_spec b i), (Z.ltb_spec i (b + l)); symmetry; (apply bool_decide_eq_true_2 || apply bool_decide_eq_false_2); lia.
Qed.

Lemma pieces_out w ws i : 0 < i -> ~ (b <= i < b + l) -> pieces src words best (w :: ws) i = ch_colon :: fmt_x w ++ pieces src words best ws (i + 1).
Proof. intros Hi Hn. cbn [pieces]. rewrite in_run_spec, bool_decide_eq_false_2, embeds_none by done. by rewrite (proj2 (Z.eqb_neq i 0)) by lia. Qed.

Lemma pieces_before p : forall ws i, 0 < i -> i + zlen p <= b -> pieces src words best (p ++ ws) i = bk p ++ pieces src words best ws (i + zlen p).
Proof.
  induction p as [|w p IH]; intros ws i Hi Hp; cbn [length app] in *; [by rewrite Z.add_0_r|]. rewrite pieces_out by lia. rewrite IH by lia. unfold bk. cbn [map concat app]. rewrite <-app_assoc. do 4 f_equal. lia.
Qed.
Lemma pieces_in z : forall ws i, b < i -> i + zlen z <= b + l -> pieces src words best (z ++ ws) i = pieces src words best ws (i + zlen z).
Proof.
  induction z as [|w z IH]; intros ws i Hi Hz; cbn [length app] in *; [by rewrite Z.add_0_r|]. cbn [pieces]. rewrite in_run_spec, bool_decide_eq_true_2 by lia.
  unfold best at 1. cbn [r_base]. rewrite (proj2 (Z.eqb_neq i b)) by lia. cbn [app]. rewrite IH by lia. f_equal. lia.
Qed.
Lemma pieces_after q : forall i, b + l <= i -> pieces src words best q i = bk q.
Proof. induction q as [|w q IH]; intros i Hi; [done|]. rewrite pieces_out, IH by lia. done. Qed.

Lemma pieces_at z q : zlen z = l -> pieces src words best (z ++ q) b = ch_colon :: bk q.
Proof.
  intros Hz. destruct z as [|w z]; cbn [length] in Hz; [lia|]. cbn [pieces app]. rewrite in_run_spec, bool_decide_eq_true_2 by lia.
  unfold best at 1. cbn [r_base]. rewrite Z.eqb_refl. cbn [app]. by rewrite pieces_in, pieces_after by lia.
Qed.

Lemma pieces_all p z q : zlen p = b -> zlen z = l -> pieces src words best (p ++ z ++ q) 0 = (if decide (p = []) then [ch_colon] else fr p) ++ bk q.
Proof.
  intros Hp Hz. destruct p as [|w p]; cbn [length] in Hp; [rewrite decide_True by done; cbn [app]; replace 0 with b by done; by apply pieces_at|].
  rewrite decide_False by done. rewrite <-bk_fr. cbn [app pieces]. rewrite in_run_spec, bool_decide_eq_false_2, embeds_none by lia. cbn [Z.eqb app].
  rewrite pieces_before by lia. replace (0 + 1 + zlen p) with b by lia. rewrite pieces_at by done. rewrite <-!app_assoc. done.
Qed.
End with_run.

Lemma pieces_run src ws b l : length ws = 8%nat -> (2 <= l)%nat -> (b + l <= 8)%nat -> embeds4 ws (MkRun (Z.of_nat b) (Z.of_nat l)) 6 = false ->
  pieces src ws (MkRun (Z.of_nat b) (Z.of_nat l)) ws 0 ++ (if Z.of_nat b + Z.of_nat l =? 8 then [ch_colon] else []) =
  (if (b =? 0)%nat then [ch_colon] else fr (take b ws)) ++ ch_colon :: join (drop (b + l) ws).
Proof.
  intros Hws Hl Hbl He. replace (pieces src ws _ ws 0) with (pieces src ws (MkRun (Z.of_nat b) (Z.of_nat l)) (take b ws ++ take l (drop b ws) ++ drop (b + l) ws) 0)
    by (rewrite <-drop_drop, !take_drop; done).
  rewrite pieces_all by (done || lia || (rewrite ?length_take, ?length_drop; lia)). rewrite <-bk_join, <-app_assoc. f_equal; [|f_equal].
  - destruct b; [done|]. by destruct ws.
  - destruct (decide (drop (b + l) ws = [])) as [E|E], (Z.eqb_spec (Z.of_nat b + Z.of_nat l) 8); try done.
    + apply (f_equal length) in E. rewrite length_drop in E. cbn in E. lia.
    + destruct E. apply drop_ge. lia.
Qed.

Lemma quad_tails src ws n : Forall is_word ws -> bytes_of ws = src -> length ws = 8%nat -> n = 6%nat -> drop 12 src = bytes_of (drop n ws).
Proof.
  intros Hw <- Hl ->. rewrite <-(take_drop 6 ws) at 1. rewrite bytes_of_app, drop_app_ge by (rewrite bytes_of_len, length_take; lia).
  by rewrite bytes_of_len, length_take, Hl.
Qed.

Lemma text6_denotes src words : is_addr6 src -> Forall is_word words -> length words = 8%nat -> bytes_of words = src -> denotes6 (text6 src words) src.
Proof.
  intros [Hsl Hsb] Hw Hl Eb. unfold text6. pose proof (best_run_best words Hl) as Hbest. destruct (best_run words) as [b l].
  assert (Ha : is_addr4 (drop 12 src)) by (split; [rewrite length_drop; lia|by apply Forall_drop]).
  destruct Hbest as [[Hb _]|(Hb & Hl2 & Hz & _)]; cbn [r_base r_len] in *.
  - subst b. cbn [Z.eqb negb andb]. rewrite app_nil_r, pieces_no_run by done. constructor; [|done]. rewrite <-Eb. apply join_groups; [done|]. by destruct words.
  - pose proof (proj1 Hz) as Hbl. rewrite (proj2 (Z.eqb_neq b (-1))) by lia. cbn [negb andb].
    rewrite <-(Z2Nat.id b), <-(Z2Nat.id l) by lia. set (b' := Z.to_nat b) in *. set (l' := Z.to_nat l) in *.
    assert (Hl' : (2 <= l')%nat) by lia. clearbody b' l'. clear b l Hb Hl2.
    destruct (embeds4 words (MkRun (Z.of_nat b') (Z.of_nat l')) 6) eqn:Ee.
    + pose proof (embeds4_inv _ _ _ Ee) as (_ & Eb0 & El). cbn [r_base r_len] in *. assert (b' = 0%nat) as -> by lia.
      pose proof (quad_tails src words 6 Hw Eb Hl eq_refl) as Eq. rewrite <-Eb at 2. destruct El as [El|El].
      * assert (l' = 6%nat) as -> by lia.
        pose proof (gap_denotes words 0 6 (dotted (drop 12 src)) _ Hw Hl Hz Hl' (or_intror (groups_quad _ Ha)) Eq) as Hd. cbn [Nat.eqb app] in Hd.
        apply eight in Hl as (w0 & w1 & w2 & w3 & w4 & w5 & w6 & w7 & ->). lazy -[embeds4] in Ee. lazy -[fmt_x app embeds4 bytes_of dotted drop ch_colon]. rewrite Ee.
        cbn [app]. by rewrite app_nil_r.
      * assert (l' = 5%nat) as -> by lia.
        destruct (eight words Hl) as (w0 & w1 & w2 & w3 & w4 & w5 & w6 & w7 & Ew).
        assert (Hw5 : is_word w5) by (subst words; rewrite !Forall_cons in Hw; tauto). destruct (word_group w5 Hw5) as [Hg Hv].
        pose proof (gap_denotes words 0 5 (fmt_x w5 ++ ch_colon :: dotted (drop 12 src)) _ Hw Hl Hz Hl' (or_intror (groups_more _ _ _ Hg (groups_quad _ Ha)))) as Hd.
        rewrite Hv, Eq in Hd. specialize (Hd ltac:(by subst words)). cbn [Nat.eqb app] in Hd.
        subst words. lazy -[embeds4] in Ee. lazy -[fmt_x app embeds4 bytes_of dotted drop ch_colon].
        rewrite Ee. assert (E1 : embeds4 [w0; w1; w2; w3; w4; w5; w6; w7] (MkRun 0 5) 5 = false) by done.
        rewrite E1. cbn [app]. rewrite ?app_nil_r, <-?app_assoc.
        rewrite Eq. exact Hd.
    + cbn [r_base r_len]. rewrite pieces_run by (done || lia). rewrite <-Eb. eapply gap_denotes; [done..|apply join_tails; by apply Forall_drop|done].
Qed.

(** The address itself, printed. *)
Lemma inet_ntop6_denotes a : is_addr6 a ->
  exists s, denotes6 s a /\ (length s <= 45)%nat /\ forall size, inet_ntop6 a size = Ret (if zlen s + 1 >? size then inr AOSL_ENOSPC else inl s).
Proof.
  intros Ha. pose proof Ha as [Hl Hb]. destruct (words6_spec 8 a Hb Hl) as (ws & Ew & Hwl & Hw & Eb).
  assert (H4 : is_addr4 (drop 12 a)) by (split; [rewrite length_drop; lia|by apply Forall_drop]).
  exists (text6 a ws). split; [by apply text6_denotes|]. split; [by apply (inet_ntop6_eq a ws 0)|]. intros size. by apply inet_ntop6_eq.
Qed.
