(* ===== verification/InetProps.v ===== *)
(** * Addresses as text: the theorems *)
From S2P Require Import Prelude.
From S2P Require Import Inet.
From S2P Require Import InetQuad.
From S2P Require Import InetSpec.
From S2P Require Import InetPrint.

(** [s] is a text of the address [a] of the family [af]. *)
Definition denotes (af : Z) (s a : list Z) : Prop :=
  (af = AOSL_AF_INET /\ is_addr4 a /\ s = dotted a) \/ (af = AOSL_AF_INET6 /\ denotes6 s a).
Definition is_addr (af : Z) (a : list Z) : Prop := (af = AOSL_AF_INET /\ is_addr4 a) \/ (af = AOSL_AF_INET6 /\ is_addr6 a).

(** ** What texts are made of *)
Definition text_char (c : Z) : Prop := is_hex c \/ c = ch_colon \/ c = ch_dot.

Lemma group_text t : is_group t -> Forall text_char t.
Proof. intros [Ht _]. eapply Forall_impl; [exact Ht|]. by left. Qed.
Lemma dotted_text a : is_addr4 a -> Forall text_char (dotted a).
Proof.
  intros (b0 & b1 & b2 & b3 & -> & H0 & H1 & H2 & H3)%is_addr4_inv. unfold dotted, dots. cbn [map concat].
  assert (Forall text_char [ch_dot]) by (apply Forall_singleton; right; by right).
  rewrite !Forall_app. repeat split; try done; try (by apply group_text, fmt_u_hex).
Qed.
Lemma colon_text t s : Forall text_char t -> Forall text_char s -> Forall text_char (t ++ ch_colon :: s).
Proof. intros Ht Hs. apply Forall_app. split; [done|]. constructor; [right; by left|done]. Qed.
Lemma groups_text s b : groups s b -> Forall text_char s.
Proof. induction 1; [by apply group_text|by apply dotted_text|]. apply colon_text; [by apply group_text|done]. Qed.
Lemma fronts_text s b : fronts s b -> Forall text_char s.
Proof. induction 1; [done|]. apply colon_text; [by apply group_text|done]. Qed.
Lemma denotes6_text s a : denotes6 s a -> Forall text_char s.
Proof.
  intros [s' a' Hg _|f r b1 b2 Hf Hr _]; [by eapply groups_text|]. apply colon_text.
  - destruct (decide (f = [])); [apply Forall_singleton; right; by left|by eapply fronts_text].
  - destruct Hr as [[-> _]|Hr]; [done|by eapply groups_text].
Qed.
Lemma denotes_text af s a : denotes af s a -> Forall text_char s.
Proof. intros [(_ & Ha & ->)|[_ Hd]]; [by apply dotted_text|by eapply denotes6_text]. Qed.

(** A text in memory, with its zero byte. *)
Lemma c_string_text s mem : Forall text_char s -> c_string (s ++ 0 :: mem) = s.
Proof.
  induction 1 as [|c s Hc Hs IH]; [done|]. cbn. rewrite IH. destruct (Z.eqb_spec c 0) as [->|]; [|done].
  destruct Hc as [Hc|[Hc|Hc]]; [|done..]. by unfold is_hex in Hc.
Qed.

Lemma pton_iff (r : res (option (list Z))) (P : list Z -> Prop) :
  (r = Ret None \/ exists a, r = Ret (Some a) /\ P a) -> (forall a, P a -> r = Ret (Some a)) ->
  (forall a, pton_ret r = Ret (Pton_ok a) <-> P a) /\ (pton_ret r = Ret Pton_bad <-> ~ exists a, P a).
Proof.
  intros [->|(a0 & -> & Ha)] Hc; cbn.
  - split; [intros a; split; [done|]; intros Ha; by apply Hc in Ha|]. split; [|done]. intros _ (a & Ha). by apply Hc in Ha.
  - split; [intros a; split; [by intros [= <-]|]; intros Ha'; apply Hc in Ha'; congruence|]. split; [done|]. intros Hn. destruct Hn. eauto.
Qed.

(** C19: [k_inet_pton] never reads or writes outside its buffers and accepts exactly the
    texts of addresses: of an IPv4 address the dotted quad without superfluous
    zeros, of an IPv6 address the texts of the grammar of RFC 4291; for each it gives the
    bytes that the text denotes, and 0 for any other text. *)
Theorem inet_pton_grammar junk af mem : length junk = 4%nat -> af = AOSL_AF_INET \/ af = AOSL_AF_INET6 ->
  (forall a, k_inet_pton junk af mem = Ret (Pton_ok a) <-> denotes af (c_string mem) a) /\
  (k_inet_pton junk af mem = Ret Pton_bad <-> ~ exists a, denotes af (c_string mem) a).
Proof.
  intros Hj [-> | ->]; unfold k_inet_pton, __inet_pton_length; cbn [Z.eqb AOSL_AF_INET AOSL_AF_INET6 Pos.eqb].
  - apply (pton_iff _ (denotes AOSL_AF_INET (c_string mem))).
    + destruct (inet_pton4_sound junk (c_string mem) Hj) as [->|(a & -> & Ha & E)]; [by left|]. right. exists a. split; [done|]. by left.
    + intros a [(_ & Ha & ->)|[? _]]; [by apply inet_pton4_dotted|done].
  - apply (pton_iff _ (denotes AOSL_AF_INET6 (c_string mem))).
    + destruct (inet_pton6_sound junk Hj (c_string mem)) as [->|(a & -> & Hd)]; [by left|]. right. exists a. split; [done|]. by right.
    + intros a [[? _]|[_ Hd]]; [done|by apply denotes6_parsed].
Qed.

Lemma ntop_denotes af a : is_addr af a ->
  exists s, denotes af s a /\ (length s <= 45)%nat /\ forall size, k_inet_ntop af a size = Ret (if zlen s + 1 >? size then inr AOSL_ENOSPC else inl s).
Proof.
  intros [[-> Ha]|[-> Ha]].
  - exists (dotted a). split; [by left|]. split; [apply dotted_len in Ha; lia|]. intros size. change (k_inet_ntop AOSL_AF_INET a size) with (inet_ntop4 a size). rewrite inet_ntop4_eq by done.
    rewrite Z.geb_leb, Z.gtb_ltb. destruct (Z.leb_spec size (zlen (dotted a))), (Z.ltb_spec size (zlen (dotted a) + 1)); done || lia.
  - destruct (inet_ntop6_denotes a Ha) as (s & Hd & Hl & E). exists s. split; [by right|]. done.
Qed.

Lemma pton_denoted junk af s a mem : length junk = 4%nat -> denotes af s a -> k_inet_pton junk af (s ++ 0 :: mem) = Ret (Pton_ok a).
Proof.
  intros Hj Hd. unfold k_inet_pton, __inet_pton_length. rewrite c_string_text by (by eapply denotes_text). destruct Hd as [(-> & Ha & ->)|[-> Hd]]; cbn [Z.eqb AOSL_AF_INET AOSL_AF_INET6 Pos.eqb].
  - by rewrite inet_pton4_dotted.
  - by rewrite (denotes6_parsed junk Hj s a).
Qed.

(** C20: Every address is printed, without overrunning the buffers, as a text of at most 45
    characters when the caller's buffer holds it and its zero byte, and refused
    with [AOSL_ENOSPC] when not; reading the text gives the address back, whatever
    follows it in memory. *)
Theorem inet_text_roundtrip junk af a : length junk = 4%nat -> is_addr af a ->
  exists s, zlen s < AOSL_INET6_ADDRSTRLEN /\
    (forall size, zlen s < size -> k_inet_ntop af a size = Ret (inl s)) /\
    (forall size, size <= zlen s -> k_inet_ntop af a size = Ret (inr AOSL_ENOSPC)) /\
    (forall mem, k_inet_pton junk af (s ++ 0 :: mem) = Ret (Pton_ok a)).
Proof.
  intros Hj Ha. destruct (ntop_denotes af a Ha) as (s & Hd & Hl & E). exists s. unfold AOSL_INET6_ADDRSTRLEN. split; [lia|]. split; [|split].
  - intros size Hs. rewrite E, Z.gtb_ltb. by rewrite (proj2 (Z.ltb_ge _ _)) by lia.
  - intros size Hs. rewrite E, Z.gtb_ltb. by rewrite (proj2 (Z.ltb_lt _ _)) by lia.
  - intros mem. by apply pton_denoted.
Qed.

(** ** At an address and at a text *)
Definition stack_junk : list Z := [170; 171; 172; 173].
Definition demo_addr6 : list Z := [32; 1; 13; 184; 0; 0; 0; 0; 0; 0; 0; 0; 255; 0; 0; 66].

Lemma inet_text_roundtrip_witness : exists s, zlen s < AOSL_INET6_ADDRSTRLEN /\
    (forall size, zlen s < size -> k_inet_ntop AOSL_AF_INET6 demo_addr6 size = Ret (inl s)) /\
    (forall size, size <= zlen s -> k_inet_ntop AOSL_AF_INET6 demo_addr6 size = Ret (inr AOSL_ENOSPC)) /\
    (forall mem, k_inet_pton stack_junk AOSL_AF_INET6 (s ++ 0 :: mem) = Ret (Pton_ok demo_addr6)).
Proof.
  apply (inet_text_roundtrip stack_junk AOSL_AF_INET6 demo_addr6); [reflexivity|]. right. split; [done|]. split; [done|].
  apply (bool_decide_unpack _). vm_compute. exact I.
Defined.

Lemma inet_pton_grammar_witness :
  (forall a, k_inet_pton stack_junk AOSL_AF_INET6 (demo_text ++ [0]) = Ret (Pton_ok a) <-> denotes AOSL_AF_INET6 (c_string (demo_text ++ [0])) a) /\
  (k_inet_pton stack_junk AOSL_AF_INET6 (demo_text ++ [0]) = Ret Pton_bad <-> ~ exists a, denotes AOSL_AF_INET6 (c_string (demo_text ++ [0])) a).
Proof. apply (inet_pton_grammar stack_junk AOSL_AF_INET6 (demo_text ++ [0])); [reflexivity|by right]. Defined.

(** The address in that text. *)
Example pton_one_gap : k_inet_pton stack_junk AOSL_AF_INET6 (demo_text ++ [0]) = Ret (Pton_ok [0; 1; 0; 0; 0; 0; 0; 0; 0; 0; 0; 0; 2; 3; 4; 5]).
Proof. vm_compute. reflexivity. Qed.
