(* ===== verification/Ipv6.v ===== *)
(** * IPv6 addresses: [include/kernel/ipv6.h], [net/ipv6.c]

    An address is its sixteen bytes; [s6_addr32_v[i]] is a word of them as a
    little-endian machine reads it.  A socket address is the memory of the union
    [aosl_sk_addr_t]: family, port, IPv4 address or flow information, IPv6 address,
    scope. *)
From S2P Require Import Prelude.
From S2P Require Import Inet.
Local Open Scope aosl_scope.

(** ** Byte order: [include/kernel/swab.h], [include/kernel/byteorder] *)
Definition aosl__swab16 (x : Z) : Z :=
  u16 (Z.lor (Z.shiftl (Z.land (u16 x) 255) 8) (Z.shiftr (Z.land (u16 x) 0xff00) 8)).
Definition aosl__swab32 (x : Z) : Z :=
  u32 (Z.lor (Z.lor (Z.lor (Z.shiftl (Z.land (u32 x) 255) 24) (Z.shiftl (Z.land (u32 x) 0xff00) 8))
                    (Z.shiftr (Z.land (u32 x) 0x00ff0000) 8)) (Z.shiftr (Z.land (u32 x) 0xFF000000) 24)).
Definition aosl_htonl (x : Z) : Z := aosl__swab32 x.
Definition aosl_ntohl (x : Z) : Z := aosl__swab32 x.
Definition aosl_htons (x : Z) : Z := aosl__swab16 x.
Definition aosl_ntohs (x : Z) : Z := aosl__swab16 x.

(** Little-endian numbers in memory. *)
Fixpoint le_of (bs : list Z) : Z := match bs with [] => 0 | b :: bs => b + 256 * le_of bs end.
Fixpoint le_bytes (n : nat) (x : Z) : list Z := match n with O => [] | S n => x mod 256 :: le_bytes n (x / 256) end.
Definition rd (n off : nat) (m : list Z) : Z := le_of (take n (drop off m)).
Definition put_at (off : nat) (bs m : list Z) : list Z := take off m ++ bs ++ drop (off + length bs) m.
Definition wr (n off : nat) (x : Z) (m : list Z) : list Z := put_at off (le_bytes n x) m.

Definition s6_addr32 (a : list Z) (i : nat) : Z := rd 4 (4 * i) a.
Definition s6_addr (a : list Z) (i : nat) : Z := nth i a 0.

(** ** Kinds of addresses *)
Definition IPV6_ADDR_ANY : Z := 0.
Definition IPV6_ADDR_UNICAST : Z := 1.
Definition IPV6_ADDR_MULTICAST : Z := 2.
Definition IPV6_ADDR_LOOPBACK : Z := 16.
Definition IPV6_ADDR_LINKLOCAL : Z := 32.
Definition IPV6_ADDR_SITELOCAL : Z := 64.
Definition IPV6_ADDR_COMPATv4 : Z := 128.
Definition IPV6_ADDR_SCOPE_MASK : Z := 240.
Definition IPV6_ADDR_MAPPED : Z := 4096.
Definition IPV6_ADDR_SCOPE_NODELOCAL : Z := 1.
Definition IPV6_ADDR_SCOPE_LINKLOCAL : Z := 2.
Definition IPV6_ADDR_SCOPE_SITELOCAL : Z := 5.
Definition IPV6_ADDR_SCOPE_GLOBAL : Z := 14.
Definition __IPV6_ADDR_SCOPE_INVALID : Z := -1.
Definition IPV6_ADDR_SCOPE_TYPE (scope : Z) : Z := Z.shiftl scope 16.
Definition IPV6_ADDR_MC_SCOPE (a : list Z) : Z := Z.land (s6_addr a 1) 15.

Definition ipv6_addr_scope2type (scope : Z) : Z :=
  if scope =? IPV6_ADDR_SCOPE_NODELOCAL then Z.lor (IPV6_ADDR_SCOPE_TYPE IPV6_ADDR_SCOPE_NODELOCAL) IPV6_ADDR_LOOPBACK
  else if scope =? IPV6_ADDR_SCOPE_LINKLOCAL then Z.lor (IPV6_ADDR_SCOPE_TYPE IPV6_ADDR_SCOPE_LINKLOCAL) IPV6_ADDR_LINKLOCAL
  else if scope =? IPV6_ADDR_SCOPE_SITELOCAL then Z.lor (IPV6_ADDR_SCOPE_TYPE IPV6_ADDR_SCOPE_SITELOCAL) IPV6_ADDR_SITELOCAL
  else IPV6_ADDR_SCOPE_TYPE scope.

Definition __ipv6_addr_type (addr : list Z) : Z :=
  let st := s6_addr32 addr 0 in
  if negb (Z.land st (aosl_htonl 0xE0000000) =? aosl_htonl 0) && negb (Z.land st (aosl_htonl 0xE0000000) =? aosl_htonl 0xE0000000) then
    Z.lor IPV6_ADDR_UNICAST (IPV6_ADDR_SCOPE_TYPE IPV6_ADDR_SCOPE_GLOBAL)
  else if Z.land st (aosl_htonl 0xFF000000) =? aosl_htonl 0xFF000000 then
    Z.lor IPV6_ADDR_MULTICAST (ipv6_addr_scope2type (IPV6_ADDR_MC_SCOPE addr))
  else if Z.land st (aosl_htonl 0xFFC00000) =? aosl_htonl 0xFE800000 then
    Z.lor (Z.lor IPV6_ADDR_LINKLOCAL IPV6_ADDR_UNICAST) (IPV6_ADDR_SCOPE_TYPE IPV6_ADDR_SCOPE_LINKLOCAL)
  else if Z.land st (aosl_htonl 0xFFC00000) =? aosl_htonl 0xFEC00000 then
    Z.lor (Z.lor IPV6_ADDR_SITELOCAL IPV6_ADDR_UNICAST) (IPV6_ADDR_SCOPE_TYPE IPV6_ADDR_SCOPE_SITELOCAL)
  else if Z.land st (aosl_htonl 0xFE000000) =? aosl_htonl 0xFC000000 then
    Z.lor IPV6_ADDR_UNICAST (IPV6_ADDR_SCOPE_TYPE IPV6_ADDR_SCOPE_GLOBAL)
  else if (Z.lor (s6_addr32 addr 0) (s6_addr32 addr 1) =? 0) && (s6_addr32 addr 2 =? 0) then
    if s6_addr32 addr 3 =? 0 then IPV6_ADDR_ANY
    else if s6_addr32 addr 3 =? aosl_htonl 1 then
      Z.lor (Z.lor IPV6_ADDR_LOOPBACK IPV6_ADDR_UNICAST) (IPV6_ADDR_SCOPE_TYPE IPV6_ADDR_SCOPE_LINKLOCAL)
    else Z.lor (Z.lor IPV6_ADDR_COMPATv4 IPV6_ADDR_UNICAST) (IPV6_ADDR_SCOPE_TYPE IPV6_ADDR_SCOPE_GLOBAL)
  else if (Z.lor (s6_addr32 addr 0) (s6_addr32 addr 1) =? 0) && (s6_addr32 addr 2 =? aosl_htonl 0x0000ffff) then
    Z.lor IPV6_ADDR_MAPPED (IPV6_ADDR_SCOPE_TYPE IPV6_ADDR_SCOPE_GLOBAL)
  else Z.lor IPV6_ADDR_UNICAST (IPV6_ADDR_SCOPE_TYPE IPV6_ADDR_SCOPE_GLOBAL).

Definition ipv6_addr_type (addr : list Z) : Z := Z.land (__ipv6_addr_type addr) 65535.
Definition ipv6_addr_scope (addr : list Z) : Z := Z.land (__ipv6_addr_type addr) IPV6_ADDR_SCOPE_MASK.
Definition __ipv6_addr_src_scope (type : Z) : Z := if type =? IPV6_ADDR_ANY then __IPV6_ADDR_SCOPE_INVALID else Z.shiftr type 16.
Definition ipv6_addr_src_scope (addr : list Z) : Z := __ipv6_addr_src_scope (__ipv6_addr_type addr).
Definition __ipv6_addr_needs_scope_id (type : Z) : bool :=
  negb (Z.land type IPV6_ADDR_LINKLOCAL =? 0) ||
  (negb (Z.land type IPV6_ADDR_MULTICAST =? 0) && negb (Z.land type (Z.lor IPV6_ADDR_LOOPBACK IPV6_ADDR_LINKLOCAL) =? 0)).
Definition ipv6_iface_scope_id (addr : list Z) (iface : Z) : Z :=
  if __ipv6_addr_needs_scope_id (__ipv6_addr_type addr) then u32 iface else 0.

(** ** Comparing and cutting *)
Definition ipv6_masked_addr_cmp (a1 m a2 : list Z) : bool :=
  let w i := Z.land (Z.lxor (s6_addr32 a1 i) (s6_addr32 a2 i)) (s6_addr32 m i) in
  negb (Z.lor (Z.lor (Z.lor (w 0%nat) (w 1%nat)) (w 2%nat)) (w 3%nat) =? 0).
Definition ipv6_addr_equal (a1 a2 : list Z) : bool :=
  let w i := Z.lxor (s6_addr32 a1 i) (s6_addr32 a2 i) in
  Z.lor (Z.lor (Z.lor (w 0%nat) (w 1%nat)) (w 2%nat)) (w 3%nat) =? 0.

Definition ipv6_addr_prefix (addr : list Z) (plen : Z) : list Z :=
  let o := Z.to_nat (Z.shiftr plen 3) in
  let b := Z.land plen 7 in
  let pfx := put_at 0 (take o addr) (repeat 0 16) in
  if negb (b =? 0) then <[o := u8 (Z.land (s6_addr addr o) (Z.shiftr 0xff00 b))]> pfx else pfx.
Definition ipv6_addr_prefix_copy (addr pfx : list Z) (plen : Z) : list Z :=
  let o := Z.to_nat (Z.shiftr plen 3) in
  let b := Z.land plen 7 in
  let addr := put_at 0 (take o pfx) addr in
  if negb (b =? 0) then
    let addr := <[o := u8 (Z.land (s6_addr addr o) (Z.lnot (Z.shiftr 0xff00 b)))]> addr in
    <[o := u8 (Z.lor (s6_addr addr o) (Z.land (s6_addr pfx o) (Z.shiftr 0xff00 b)))]> addr
  else addr.

(** [memcmp (a1, a2, pdw << 2)] tells only whether they differ. *)
Definition ipv6_prefix_equal (a1 a2 : list Z) (prefixlen : Z) : bool :=
  let pdw := Z.shiftr prefixlen 5 in
  let n := Z.to_nat (Z.shiftl pdw 2) in
  if negb (pdw =? 0) && negb (bool_decide (take n a1 = take n a2)) then false else
  let pbi := Z.land prefixlen 31 in
  if negb (pbi =? 0) &&
     negb (Z.land (Z.lxor (s6_addr32 a1 (Z.to_nat pdw)) (s6_addr32 a2 (Z.to_nat pdw)))
                  (aosl_htonl (u32 (Z.shiftl 0xffffffff (32 - pbi)))) =? 0) then false
  else true.

Definition ipv6_addr_set (w1 w2 w3 w4 : Z) : list Z := le_bytes 4 w1 ++ le_bytes 4 w2 ++ le_bytes 4 w3 ++ le_bytes 4 w4.
Definition ipv6_addr_any (a : list Z) : bool :=
  Z.lor (Z.lor (Z.lor (s6_addr32 a 0) (s6_addr32 a 1)) (s6_addr32 a 2)) (s6_addr32 a 3) =? 0.
Definition ipv6_addr_loopback (a : list Z) : bool :=
  Z.lor (Z.lor (Z.lor (s6_addr32 a 0) (s6_addr32 a 1)) (s6_addr32 a 2)) (Z.lxor (s6_addr32 a 3) (aosl_htonl 1)) =? 0.
Definition ipv6_addr_v4mapped (a : list Z) : bool :=
  Z.lor (Z.lor (s6_addr32 a 0) (s6_addr32 a 1)) (Z.lxor (s6_addr32 a 2) (aosl_htonl 0x0000ffff)) =? 0.
Definition ipv6_addr_nat64 (a : list Z) : bool :=
  Z.lor (Z.lor (Z.lxor (s6_addr32 a 0) (aosl_htonl 0x0064ff9b)) (s6_addr32 a 1)) (s6_addr32 a 2) =? 0.
Definition ipv6_addr_orchid (a : list Z) : bool := Z.land (s6_addr32 a 0) (aosl_htonl 0xfffffff0) =? aosl_htonl 0x20010010.
Definition ipv6_addr_is_multicast (a : list Z) : bool := Z.land (s6_addr32 a 0) (aosl_htonl 0xFF000000) =? aosl_htonl 0xFF000000.
Definition ipv6_addr_set_v4mapped (addr : Z) : list Z := ipv6_addr_set 0 0 (aosl_htonl 0x0000ffff) addr.

(** ** Socket addresses

    Offsets in [aosl_sk_addr_t]; its members [in] and [in6] have 16 and 28 bytes. *)
Definition off_family : nat := 0.
Definition off_port : nat := 2.
Definition off_sin_addr : nat := 4.
Definition off_sin6_addr : nat := 8.
Definition off_sin6_scope_id : nat := 24.
Definition sizeof_sockaddr_in : nat := 16.
Definition sizeof_sockaddr_in6 : nat := 28.

Definition sa_family (m : list Z) : Z := rd 2 off_family m.
Definition sa_port (m : list Z) : Z := rd 2 off_port m.
Definition sin_addr (m : list Z) : Z := rd 4 off_sin_addr m.
Definition sin6_addr (m : list Z) : list Z := take 16 (drop off_sin6_addr m).
(** [memset (m, 0, n)] *)
Definition zero_mem (n : nat) (m : list Z) : list Z := put_at 0 (repeat 0 n) m.

Definition __set_nat64_prefix : list Z :=
  <[3%nat := 155]> (<[2%nat := 255]> (<[1%nat := 100]> (repeat 0 16))).

(** [v6_prefix] is the saved prefix of the calling thread's queue, twelve bytes, or
    NULL. *)
Definition ipv6_sk_addr_from_ipv4 (v6_prefix : option (list Z)) (sk_addr_v6 sk_addr_v4 : list Z) : Z * list Z :=
  let m := zero_mem sizeof_sockaddr_in6 sk_addr_v6 in
  let m := wr 2 off_family AOSL_AF_INET6 m in
  let m := wr 2 off_port (sa_port sk_addr_v4) m in
  let m := match v6_prefix with
           | Some p => put_at off_sin6_addr (take 12 p) m
           | None => put_at off_sin6_addr __set_nat64_prefix m
           end in
  (0, wr 4 (off_sin6_addr + 12) (sin_addr sk_addr_v4) m).

Definition __ipv6_addr_v4_compatible (v6_prefix : option (list Z)) (a6 : list Z) : bool :=
  match v6_prefix with
  | Some p => if ipv6_prefix_equal a6 p 96 then true else ipv6_addr_v4mapped a6 || ipv6_addr_nat64 a6
  | None => ipv6_addr_v4mapped a6 || ipv6_addr_nat64 a6
  end.
Definition __sk_addr_ipv4_compatible (v6_prefix : option (list Z)) (skaddr : list Z) : bool :=
  if sa_family skaddr =? AOSL_AF_INET then true
  else if sa_family skaddr =? AOSL_AF_INET6 then __ipv6_addr_v4_compatible v6_prefix (sin6_addr skaddr)
  else false.

Definition ipv6_sk_addr_to_ipv4 (v6_prefix : option (list Z)) (sk_addr_v4 sk_addr_v6 : list Z) : Z * list Z :=
  if negb (__sk_addr_ipv4_compatible v6_prefix sk_addr_v6) then (-1, sk_addr_v4) else
  let m := zero_mem sizeof_sockaddr_in sk_addr_v4 in
  let m := wr 2 off_family AOSL_AF_INET m in
  let m := wr 2 off_port (sa_port sk_addr_v6) m in
  (0, wr 4 off_sin_addr (rd 4 (off_sin6_addr + 12) sk_addr_v6) m).

(** ** The prefix of a queue *)

(** The queues that have a prefix saved, and [aosl_errno]. *)
Record v6world := MkV6 { ipv6_prefix_96 : gmap Z (list Z); v6_errno : Z }.

Definition ____q_update_ipv6_prefix (malloc_ok : bool) (q : Z) (a6 : option (list Z)) (w : v6world) : v6world :=
  match a6 with
  | Some a6 =>
    if negb (ipv6_addr_v4mapped a6 || ipv6_addr_nat64 a6) then
      if bool_decide (is_Some (ipv6_prefix_96 w !! q)) || malloc_ok
      then MkV6 (<[q := take 12 a6]> (ipv6_prefix_96 w)) (v6_errno w) else w
    else w
  | None => MkV6 (delete q (ipv6_prefix_96 w)) (v6_errno w)
  end.

(** How [__mpq_get] and [__mpq_call_argv] end for a queue. *)
Inductive v6_call := V6_no_queue | V6_fails (errno : Z) | V6_done.

Definition aosl_mpq_set_ipv6_prefix_on_q (call : Z -> v6_call) (malloc_ok : bool) (this_q qid : Z) (a6 : option (list Z)) (w : v6world) : Z * v6world :=
  match call qid with
  | V6_no_queue => (-1, MkV6 (ipv6_prefix_96 w) AOSL_EINVAL)
  | r =>
    if negb (qid =? this_q) then
      match r with
      | V6_fails e => (-1, MkV6 (ipv6_prefix_96 w) e)
      | _ => (0, ____q_update_ipv6_prefix malloc_ok qid a6 w)
      end
    else (0, ____q_update_ipv6_prefix malloc_ok qid a6 w)
  end.
(** A thread without a queue has none. *)
Definition aosl_mpq_get_ipv6_prefix (this_q : Z) (w : v6world) : option (list Z) :=
  if negb (this_q =? 0) then ipv6_prefix_96 w !! this_q else None.

Definition aosl_ipv6_addr_v4_mapped (a6 : list Z) : bool := ipv6_addr_v4mapped a6.
Definition aosl_ipv6_addr_nat64 (a6 : list Z) : bool := ipv6_addr_nat64 a6.
Definition aosl_ipv6_addr_v4_compatible (this_q : Z) (w : v6world) (a6 : list Z) : bool :=
  __ipv6_addr_v4_compatible (aosl_mpq_get_ipv6_prefix this_q w) a6.

(** ** Socket addresses and text: [net/sk_utils.c] *)

Definition aosl_ip_sk_addr_init_with_port (sk_addr : list Z) (af port : Z) : Z * list Z + Z :=
  let set n := inl (0, wr 2 off_family af (wr 2 off_port (aosl_htons port) (zero_mem n sk_addr))) in
  if af =? AOSL_AF_INET then set sizeof_sockaddr_in
  else if af =? AOSL_AF_INET6 then set sizeof_sockaddr_in6
  else inr AOSL_EINVAL.

(** What the [*_str] functions put in [addr_buf]; [None] when they leave it as it
    is.  The text for an unknown family is a parameter: it is [snprintf]'s. *)
Definition aosl_inet_addr_str (unknown : Z -> Z -> list Z) (af : Z) (addr : list Z) (buf_len : Z) : res (option (list Z)) :=
  if (af =? AOSL_AF_INET) || (af =? AOSL_AF_INET6) then
    match k_inet_ntop af addr (s32 buf_len) with
    | Ret (inl s) => Ret (Some s)
    | Ret (inr _) => Ret None
    | Abort => Abort | Fault => Fault | NoFuel => NoFuel
    end
  else Ret (Some (unknown af buf_len)).
Definition aosl_ip_sk_addr_str (unknown : Z -> Z -> list Z) (addr : list Z) (buf_len : Z) : res (option (list Z)) :=
  let af := sa_family addr in
  aosl_inet_addr_str unknown af (if af =? AOSL_AF_INET then take 4 (drop off_sin_addr addr) else sin6_addr addr) buf_len.

Definition aosl_ip_sk_addr_port (addr : list Z) : Z :=
  if (sa_family addr =? AOSL_AF_INET) || (sa_family addr =? AOSL_AF_INET6) then aosl_ntohs (sa_port addr) else 0.

Definition aosl_sk_addr_ip_equal (a1 a2 : list Z) : bool :=
  if negb (sa_family a1 =? sa_family a2) then false
  else if sa_family a1 =? 0 then true
  else if sa_family a1 =? AOSL_AF_INET then sin_addr a1 =? sin_addr a2
  else if sa_family a1 =? AOSL_AF_INET6 then bool_decide (sin6_addr a1 = sin6_addr a2)
  else false.

Definition has_colon (mem : list Z) : bool := bool_decide (ch_colon ∈ c_string mem).

(** The length of the address and the memory at [addr], of which [n] bytes are
    written. *)
Definition aosl_inet_addr_from_string (junk addr str_addr : list Z) : res (Z * list Z) :=
  let go af len :=
    match k_inet_pton junk af str_addr with
    | Ret (Pton_ok a) => Ret (len, put_at 0 a addr)
    | Ret _ => Ret (0, addr)
    | Abort => Abort | Fault => Fault | NoFuel => NoFuel
    end in
  if has_colon str_addr then go AOSL_AF_INET6 16 else go AOSL_AF_INET 4.

Definition aosl_ip_sk_addr_from_string (junk sk_addr str_addr : list Z) (port : Z) : res (Z * list Z) :=
  let go af (size off : nat) :=
    let m := zero_mem size sk_addr in
    match k_inet_pton junk af str_addr with
    | Ret (Pton_ok a) => Ret (Z.of_nat size, wr 2 off_port (aosl_htons port) (wr 2 off_family af (put_at off a m)))
    | Ret _ => Ret (0, m)
    | Abort => Abort | Fault => Fault | NoFuel => NoFuel
    end in
  if has_colon str_addr then go AOSL_AF_INET6 sizeof_sockaddr_in6 off_sin6_addr
  else go AOSL_AF_INET sizeof_sockaddr_in off_sin_addr.

(** Which socket of a pair a destination is for, with the destination as that
    socket takes it: the choice that [aosl_mpq_ip_sk_connect],
    [aosl_mpq_ip_sk_connect_on_q] and [aosl_ip_sk_sendto] share. *)
Record aosl_ip_sk := MkIpSk { sk_v4 : Z; sk_v6 : Z }.
Definition ip_sk_target (v6_prefix : option (list Z)) (sk : aosl_ip_sk) (addr dest_addr : list Z) : option (Z * list Z) :=
  if sa_family dest_addr =? AOSL_AF_INET then
    if negb (sk_v4 sk =? -1) then Some (sk_v4 sk, dest_addr)
    else if negb (sk_v6 sk =? -1) then
      let '(err, m) := ipv6_sk_addr_from_ipv4 v6_prefix addr dest_addr in
      if err <? 0 then None else Some (sk_v6 sk, m)
    else None
  else if sa_family dest_addr =? AOSL_AF_INET6 then
    if negb (sk_v6 sk =? -1) then Some (sk_v6 sk, dest_addr)
    else if negb (sk_v4 sk =? -1) then
      let '(err, m) := ipv6_sk_addr_to_ipv4 v6_prefix addr dest_addr in
      if err <? 0 then None else Some (sk_v4 sk, m)
    else None
  else None.
