(* ===== verification/Ipv6Bits.v ===== *)
(** * Words and bits of an address

    Bitwise operations on the words of an address are operations on its bytes; the
    bits of a prefix. *)
From S2P Require Import Prelude.
From S2P Require Import Inet.
From S2P Require Import InetQuad.
From S2P Require Import InetPrint.
From S2P Require Import Ipv6.

(** ** Little-endian numbers *)
Lemma testbit_byte b y n : is_byte b -> 0 <= n -> Z.testbit (b + 256 * y) n = if n <? 8 then Z.testbit b n else Z.testbit y (n - 8).
Proof.
  unfold is_byte. intros Hb Hn. destruct (Z.ltb_spec n 8).
  - rewrite <-(Z.mod_pow2_bits_low (b + 256 * y) 8) by lia. change (2 ^ 8) with 256. rewrite Z.mul_comm, Z.mod_add, Z.mod_small by lia. done.
  - replace n with (n - 8 + 8) at 1 by lia. rewrite <-Z.div_pow2_bits by lia. change (2 ^ 8) with 256. rewrite Z.mul_comm, Z.div_add, Z.div_small by lia. done.
Qed.

Lemma le_of_range bs : Forall is_byte bs -> 0 <= le_of bs < 256 ^ zlen bs.
Proof.
  induction 1 as [|b bs Hb Hbs IH]; [done|]. cbn [le_of length]. rewrite Nat2Z.inj_succ, Z.pow_succ_r by lia. unfold is_byte in Hb. lia.
Qed.

Lemma le_of_bytes n x : 0 <= x < 256 ^ Z.of_nat n -> le_of (le_bytes n x) = x.
Proof.
  revert x. induction n as [|n IH]; intros x Hx; [cbn in *; lia|]. cbn [le_bytes le_of]. rewrite Nat2Z.inj_succ, Z.pow_succ_r in Hx by lia.
  rewrite IH; [pose proof (Z.div_mod x 256 ltac:(lia)); lia|]. split; [apply Z.div_pos; lia|apply Z.div_lt_upper_bound; lia].
Qed.
Lemma le_bytes_of bs : Forall is_byte bs -> le_bytes (length bs) (le_of bs) = bs.
Proof.
  induction 1 as [|b bs Hb Hbs IH]; [done|]. unfold is_byte in Hb. cbn [le_of length le_bytes].
  rewrite (Z.mul_comm 256), Z.mod_add, Z.mod_small, Z.div_add, Z.div_small, Z.add_0_l by lia. by rewrite IH.
Qed.
Lemma le_bytes_len n x : length (le_bytes n x) = n.
Proof. revert x. induction n as [|n IH]; intros x; [done|]. cbn. by rewrite IH. Qed.
Lemma le_bytes_ok n x : Forall is_byte (le_bytes n x).
Proof. revert x. induction n as [|n IH]; intros x; [done|]. cbn. constructor; [|done]. apply Z.mod_pos_bound. lia. Qed.

Lemma le_of_inj b1 b2 : Forall is_byte b1 -> Forall is_byte b2 -> length b1 = length b2 -> le_of b1 = le_of b2 -> b1 = b2.
Proof. intros H1 H2 Hl E. rewrite <-(le_bytes_of b1 H1), <-(le_bytes_of b2 H2). by rewrite Hl, E. Qed.

(** A bitwise operation works byte by byte. *)
Section bitwise.
Context (op : Z -> Z -> Z) (f : bool -> bool -> bool).
Hypothesis Hspec : forall a b n, Z.testbit (op a b) n = f (Z.testbit a n) (Z.testbit b n).
Hypothesis Hbyte : forall a b, is_byte a -> is_byte b -> is_byte (op a b).
Hypothesis H00 : op 0 0 = 0.

Lemma op_byte a b x y : is_byte a -> is_byte b -> op (a + 256 * x) (b + 256 * y) = op a b + 256 * op x y.
Proof.
  intros Ha Hb. apply Z.bits_inj'. intros n Hn. rewrite Hspec, !testbit_byte by auto. rewrite !Hspec. by destruct (n <? 8).
Qed.
Lemma op_le b1 : forall b2, Forall is_byte b1 -> Forall is_byte b2 -> length b1 = length b2 -> op (le_of b1) (le_of b2) = le_of (zip_with op b1 b2).
Proof.
  induction b1 as [|a b1 IH]; intros [|b b2] H1 H2 Hl; try done. rewrite Forall_cons in H1, H2. destruct H1, H2. cbn [le_of zip_with]. rewrite op_byte by done. rewrite IH by (cbn in Hl; lia || done). done.
Qed.
End bitwise.

Lemma byte_bits a : 0 <= a -> (forall n, 8 <= n -> Z.testbit a n = false) -> is_byte a.
Proof.
  intros H0 Hb. unfold is_byte. split; [done|]. destruct (Z.ltb_spec a 256); [done|]. exfalso. change 256 with (2 ^ 8) in *.
  assert (8 <= Z.log2 a) by (apply Z.log2_le_pow2; lia). specialize (Hb (Z.log2 a) ltac:(lia)). rewrite Z.bit_log2 in Hb by lia. done.
Qed.
Lemma byte_high a n : is_byte a -> 8 <= n -> Z.testbit a n = false.
Proof. unfold is_byte. intros Ha Hn. rewrite <-(Z.mod_small a (2 ^ 8)) by (cbn; lia). by apply Z.mod_pow2_bits_high. Qed.

Lemma land_is_byte a b : is_byte a -> is_byte b -> is_byte (Z.land a b).
Proof. intros Ha Hb. apply byte_bits; [apply Z.land_nonneg; left; apply Ha|]. intros n Hn. by rewrite Z.land_spec, (byte_high a). Qed.
Lemma lxor_byte a b : is_byte a -> is_byte b -> is_byte (Z.lxor a b).
Proof. intros Ha Hb. apply byte_bits; [apply Z.lxor_nonneg; unfold is_byte in *; lia|]. intros n Hn. by rewrite Z.lxor_spec, (byte_high a), (byte_high b). Qed.

Lemma land_le b1 b2 : Forall is_byte b1 -> Forall is_byte b2 -> length b1 = length b2 -> Z.land (le_of b1) (le_of b2) = le_of (zip_with Z.land b1 b2).
Proof. apply (op_le Z.land andb); [apply Z.land_spec|apply land_is_byte|done]. Qed.
Lemma lxor_le b1 b2 : Forall is_byte b1 -> Forall is_byte b2 -> length b1 = length b2 -> Z.lxor (le_of b1) (le_of b2) = le_of (zip_with Z.lxor b1 b2).
Proof. apply (op_le Z.lxor xorb); [apply Z.lxor_spec|apply lxor_byte|done]. Qed.

Lemma le_of_zero bs : Forall is_byte bs -> le_of bs = 0 <-> Forall (eq 0) bs.
Proof.
  induction 1 as [|b bs Hb Hbs IH]; [split; constructor|]. cbn [le_of]. rewrite Forall_cons, <-IH. pose proof (le_of_range bs Hbs). unfold is_byte in Hb. lia.
Qed.
Lemma lor_zero a b : Z.lor a b = 0 <-> a = 0 /\ b = 0.
Proof. apply Z.lor_eq_0_iff. Qed.
Lemma lxor_zero a b : Z.lxor a b = 0 <-> a = b.
Proof. split; [apply Z.lxor_eq|intros ->; apply Z.lxor_nilpotent]. Qed.

(** ** The words of an address *)
Definition chunk (a : list Z) (i : nat) : list Z := take 4 (drop (4 * i) a).
Lemma chunk_bytes a i : Forall is_byte a -> Forall is_byte (chunk a i).
Proof. intros. by apply Forall_take, Forall_drop. Qed.
Lemma chunk_len a i : (4 * i + 4 <= length a)%nat -> length (chunk a i) = 4%nat.
Proof. intros. unfold chunk. rewrite length_take, length_drop. lia. Qed.
Lemma addr_word_zero a i : Forall is_byte a -> s6_addr32 a i = 0 <-> Forall (eq 0) (chunk a i).
Proof. intros. apply le_of_zero, chunk_bytes. done. Qed.
Lemma word_is a i x bs : Forall is_byte a -> (4 * i + 4 <= length a)%nat -> Forall is_byte bs -> length bs = 4%nat -> x = le_of bs -> s6_addr32 a i = x <-> chunk a i = bs.
Proof.
  intros Ha Hl Hb Hbl ->. unfold s6_addr32, rd. fold (chunk a i). split; [|by intros ->]. intros E. apply le_of_inj in E; [done|by apply chunk_bytes|done|by rewrite chunk_len].
Qed.

(** ** The bits of an address, most significant first *)
Definition abit (a : list Z) (i : nat) : bool := Z.testbit (s6_addr a (i / 8)) (7 - Z.of_nat (i mod 8)).
Definition same_prefix (n : nat) (a b : list Z) : Prop := forall i, (i < n)%nat -> abit a i = abit b i.

Lemma byte_eq_bits x y : is_byte x -> is_byte y -> (forall k, (k < 8)%nat -> Z.testbit x (7 - Z.of_nat k) = Z.testbit y (7 - Z.of_nat k)) -> x = y.
Proof.
  intros Hx Hy Hk. apply Z.bits_inj'. intros n Hn. destruct (Z.ltb_spec n 8); [|by rewrite !byte_high by done].
  specialize (Hk (Z.to_nat (7 - n)) ltac:(lia)). replace (7 - Z.of_nat (Z.to_nat (7 - n))) with n in Hk by lia. done.
Qed.

Lemma same_prefix_app n m a b : same_prefix (n + m) a b <-> same_prefix n a b /\ forall i, (i < m)%nat -> abit a (n + i) = abit b (n + i).
Proof.
  split.
  - intros Hp. split; [intros i Hi; apply Hp; lia|]. intros i Hi. apply Hp. lia.
  - intros [H1 H2] i Hi. destruct (decide (i < n)%nat); [by apply H1|]. replace i with (n + (i - n))%nat by lia. apply H2. lia.
Qed.

Lemma abit_byte a k i : (i < 8)%nat -> abit a (8 * k + i) = Z.testbit (s6_addr a k) (7 - Z.of_nat i).
Proof. intros Hi. unfold abit. rewrite (Nat.mul_comm 8 k), Nat.div_add_l, Nat.div_small, Nat.add_0_r, Nat.add_comm, Nat.Div0.mod_add, Nat.mod_small by lia. done. Qed.

Lemma s6_byte a k : Forall is_byte a -> is_byte (s6_addr a k).
Proof.
  intros Ha. unfold s6_addr. destruct (nth_in_or_default k a 0) as [Hi| ->]; [|unfold is_byte; lia]. rewrite Forall_forall in Ha. by apply Ha, list_elem_of_In.
Qed.

(** Whole bytes. *)
Lemma same_prefix_bytes k a b : Forall is_byte a -> Forall is_byte b -> (k <= length a)%nat -> (k <= length b)%nat -> same_prefix (8 * k) a b <-> take k a = take k b.
Proof.
  intros Ha Hb Hla Hlb. split.
  - intros Hp. apply (nth_ext _ _ 0 0); [rewrite !length_take; lia|]. rewrite length_take. intros j Hj.
    rewrite !nth_firstn. destruct (Nat.ltb_spec j k); [|done]. apply byte_eq_bits; [by apply s6_byte..|]. intros i Hi. pose proof (Hp (8 * j + i)%nat ltac:(lia)) as Hb'. by rewrite !abit_byte in Hb' by done.
  - intros E i Hi. rewrite (Nat.div_mod_eq i 8). pose proof (Nat.mod_upper_bound i 8 ltac:(lia)). rewrite !abit_byte by lia. f_equal.
    assert (i / 8 < k)%nat by (apply Nat.Div0.div_lt_upper_bound; lia). unfold s6_addr.
    pose proof (f_equal (fun l => nth (i / 8) l 0) E) as E'. cbn beta in E'. rewrite !nth_firstn in E'. rewrite (proj2 (Nat.ltb_lt _ _)) in E' by lia. done.
Qed.

(** ** Memory *)
Lemma put_at_len off bs m : (off + length bs <= length m)%nat -> length (put_at off bs m) = length m.
Proof. intros Hl. unfold put_at. rewrite !length_app, length_take, length_drop. lia. Qed.
Lemma put_at_ok off bs m : Forall is_byte bs -> Forall is_byte m -> Forall is_byte (put_at off bs m).
Proof. intros Hb Hm. unfold put_at. rewrite !Forall_app. split; [by apply Forall_take|]. split; [done|by apply Forall_drop]. Qed.
(** What is written is read back; what is beside it stays. *)
Lemma put_at_same off bs m : (off + length bs <= length m)%nat -> take (length bs) (drop off (put_at off bs m)) = bs.
Proof. intros Hl. unfold put_at. rewrite drop_app_ge, length_take by (rewrite length_take; lia). replace (off - off `min` length m)%nat with 0%nat by lia. rewrite drop_0. by rewrite take_app_length. Qed.
Lemma put_at_before off bs m o n : (off + length bs <= length m)%nat -> (o + n <= off)%nat -> take n (drop o (put_at off bs m)) = take n (drop o m).
Proof. intros Hl Ho. unfold put_at. rewrite drop_app_le by (rewrite length_take; lia). rewrite take_app_le by (rewrite length_drop, length_take; lia). rewrite <-(take_drop off m) at 2.
  rewrite drop_app_le by (rewrite length_take; lia). by rewrite take_app_le by (rewrite length_drop, length_take; lia). Qed.
Lemma put_at_after off bs m o : (off + length bs <= length m)%nat -> (off + length bs <= o)%nat -> drop o (put_at off bs m) = drop o m.
Proof.
  intros Hl Ho. unfold put_at. rewrite app_assoc, drop_app_ge by (rewrite length_app, length_take; lia). rewrite length_app, length_take, drop_drop. f_equal. lia.
Qed.
