(* ===== verification/Ipv6Props.v ===== *)
(** * IPv6 addresses: the theorems *)
From S2P Require Import Prelude.
From S2P Require Import Inet.
From S2P Require Import InetQuad.
From S2P Require Import InetSpec.
From S2P Require Import InetPrint.
From S2P Require Import InetProps.
From S2P Require Import Ipv6.
From S2P Require Import Ipv6Bits.

(** ** Masks *)

(** The byte whose first [t] bits are set. *)
Definition top_bits (t : nat) : Z := 256 - 2 ^ (8 - Z.of_nat (Nat.min t 8)).
Definition mask_bytes (n : nat) : list Z := map (fun j => top_bits (n - 8 * j)) (seq 0 4).

Lemma all_below (n : nat) (P : nat -> Prop) `{forall i, Decision (P i)} : bool_decide (Forall P (seq 0 n)) = true -> forall i, (i < n)%nat -> P i.
Proof. intros E%bool_decide_eq_true i Hi. rewrite Forall_forall in E. apply E, elem_of_seq. lia. Qed.

Lemma top_bits_bit t k : (t <= 8)%nat -> (k < 8)%nat -> Z.testbit (top_bits t) (7 - Z.of_nat k) = bool_decide (k < t)%nat.
Proof.
  intros Ht Hk. assert (E : Forall (fun t => Forall (fun k => Z.testbit (top_bits t) (7 - Z.of_nat k) = bool_decide (k < t)%nat) (seq 0 8)) (seq 0 9)) by (apply (bool_decide_unpack _); vm_compute; exact I).
  rewrite Forall_forall in E. specialize (E t ltac:(apply elem_of_seq; lia)). rewrite Forall_forall in E. apply E, elem_of_seq. lia.
Qed.
Lemma top_bits_min t : top_bits (Nat.min t 8) = top_bits t.
Proof. unfold top_bits. by rewrite <-Nat.min_assoc. Qed.
Lemma top_bits_byte t : is_byte (top_bits t).
Proof.
  rewrite <-top_bits_min. assert (E : Forall (fun t => is_byte (top_bits t)) (seq 0 9)) by (apply (bool_decide_unpack _); vm_compute; exact I).
  rewrite Forall_forall in E. apply E, elem_of_seq. lia.
Qed.
Lemma mask_bytes_ok n : Forall is_byte (mask_bytes n) /\ length (mask_bytes n) = 4%nat.
Proof. split; [|done]. unfold mask_bytes. cbn. repeat constructor; apply top_bits_byte. Qed.

(** [aosl__htonl ((0xffffffff) << (32 - n))] *)
Lemma mask_word n : (n <= 32)%nat -> aosl_htonl (u32 (Z.shiftl 4294967295 (32 - Z.of_nat n))) = le_of (mask_bytes n).
Proof. intros Hn. apply (all_below 33 (fun n => aosl_htonl (u32 (Z.shiftl 4294967295 (32 - Z.of_nat n))) = le_of (mask_bytes n))); [vm_compute; done|lia]. Qed.

Lemma byte_mask x y t : is_byte x -> is_byte y -> Z.land (Z.lxor x y) (top_bits t) = 0 <-> forall k, (k < 8)%nat -> (k < t)%nat -> Z.testbit x (7 - Z.of_nat k) = Z.testbit y (7 - Z.of_nat k).
Proof.
  intros Hx Hy. rewrite <-top_bits_min. split.
  - intros E k Hk Ht. pose proof (f_equal (fun z => Z.testbit z (7 - Z.of_nat k)) E) as Eb. cbn beta in Eb.
    rewrite Z.land_spec, Z.lxor_spec, top_bits_bit, Z.bits_0, bool_decide_eq_true_2, andb_true_r in Eb by lia. by apply xorb_eq.
  - intros Hk. apply Z.bits_inj'. intros n Hn. rewrite Z.land_spec, Z.lxor_spec, Z.bits_0. destruct (Z.ltb_spec n 8); [|by rewrite (byte_high x), (byte_high y)].
    replace n with (7 - Z.of_nat (Z.to_nat (7 - n))) by lia. rewrite top_bits_bit by lia. destruct (decide (Z.to_nat (7 - n) < Nat.min t 8)%nat) as [Hlt|Hlt].
    + rewrite (Hk (Z.to_nat (7 - n))) by lia. by rewrite xorb_nilpotent.
    + by rewrite bool_decide_eq_false_2, andb_false_r by lia.
Qed.

Lemma chunk_nth a i j : (j < 4)%nat -> nth j (chunk a i) 0 = s6_addr a (4 * i + j).
Proof. intros Hj. unfold chunk. rewrite nth_firstn, (proj2 (Nat.ltb_lt _ _)) by lia. unfold s6_addr. by rewrite nth_skipn. Qed.
Lemma four {A} (l : list A) d : length l = 4%nat -> l = [nth 0 l d; nth 1 l d; nth 2 l d; nth 3 l d].
Proof. intros Hl. destruct l as [|? [|? [|? [|? [|]]]]]; cbn in Hl; try lia. done. Qed.
Lemma chunk_is a i : (4 * i + 4 <= length a)%nat -> chunk a i = [s6_addr a (4 * i); s6_addr a (4 * i + 1); s6_addr a (4 * i + 2); s6_addr a (4 * i + 3)].
Proof. intros Hl. rewrite (four (chunk a i) 0) by (by apply chunk_len). rewrite !chunk_nth by lia. by rewrite Nat.add_0_r. Qed.

(** The first [n] bits of a word. *)
Lemma word_mask a b i n : Forall is_byte a -> Forall is_byte b -> (4 * i + 4 <= length a)%nat -> (4 * i + 4 <= length b)%nat -> (n <= 32)%nat ->
  Z.land (Z.lxor (s6_addr32 a i) (s6_addr32 b i)) (le_of (mask_bytes n)) = 0 <-> forall k, (k < n)%nat -> abit a (32 * i + k) = abit b (32 * i + k).
Proof.
  intros Ha Hb Hla Hlb Hn. destruct (mask_bytes_ok n) as [Hm Hml]. unfold s6_addr32, rd. fold (chunk a i) (chunk b i).
  pose proof (chunk_bytes a i Ha) as Hca. pose proof (chunk_bytes b i Hb) as Hcb.
  assert (Hx : Forall is_byte (zip_with Z.lxor (chunk a i) (chunk b i)) /\ length (zip_with Z.lxor (chunk a i) (chunk b i)) = 4%nat).
  { rewrite !chunk_is in * by done. rewrite !Forall_cons in Hca, Hcb. cbn. split; [|done]. repeat constructor; apply lxor_byte; tauto. }
  rewrite lxor_le by (done || by rewrite !chunk_len). rewrite land_le by (done || tauto || lia).
  assert (Hz : Forall is_byte (zip_with Z.land (zip_with Z.lxor (chunk a i) (chunk b i)) (mask_bytes n))).
  { destruct Hx as [Hx _]. clear -Hx Hm. revert Hx Hm. generalize (zip_with Z.lxor (chunk a i) (chunk b i)), (mask_bytes n). induction l as [|x l IH]; intros [|m l'] Hx Hm; cbn; try constructor.
    - rewrite Forall_cons in Hx, Hm. apply land_is_byte; tauto.
    - rewrite Forall_cons in Hx, Hm. apply IH; tauto. }
  rewrite le_of_zero by done. clear Hz Hx. rewrite !chunk_is by done. unfold mask_bytes. cbn [seq map zip_with]. rewrite !Forall_cons, Forall_nil.
  pose proof (fun j => s6_byte a j Ha) as Ba. pose proof (fun j => s6_byte b j Hb) as Bb.
  assert (E : forall x y t, is_byte x -> is_byte y -> 0 = Z.land (Z.lxor x y) (top_bits t) <-> forall k, (k < 8)%nat -> (k < t)%nat -> Z.testbit x (7 - Z.of_nat k) = Z.testbit y (7 - Z.of_nat k)).
  { intros x y t Hx Hy. rewrite <-(byte_mask x y t) by done. split; congruence. }
  rewrite !E by done. split.
  - intros (H0 & H1 & H2 & H3 & _) k Hk. pose proof (Nat.mod_upper_bound k 8 ltac:(lia)) as Hm8. pose proof (Nat.div_mod_eq k 8) as Ek.
    assert (k / 8 < 4)%nat by (apply Nat.Div0.div_lt_upper_bound; lia). replace (32 * i + k)%nat with (8 * (4 * i + k / 8) + k mod 8)%nat by lia. rewrite !abit_byte by lia.
    destruct (k / 8)%nat as [|[|[|[|]]]] eqn:Ed; [rewrite Nat.add_0_r; apply H0; lia|apply H1; lia|apply H2; lia|apply H3; lia|lia].
  - intros Hk. split_and!; try done; intros k Hk8 Hkt; [rewrite <-(Nat.add_0_r (4 * i))| | |]; rewrite <-!abit_byte by done;
      [replace (8 * (4 * i + 0) + k)%nat with (32 * i + k)%nat by lia|replace (8 * (4 * i + 1) + k)%nat with (32 * i + (8 + k))%nat by lia|
       replace (8 * (4 * i + 2) + k)%nat with (32 * i + (16 + k))%nat by lia|replace (8 * (4 * i + 3) + k)%nat with (32 * i + (24 + k))%nat by lia]; apply Hk; lia.
Qed.

(** ** Prefixes *)
Lemma prefix_equal_bits a b n : is_addr6 a -> (Z.to_nat (Z.shiftl (Z.shiftr n 5) 2) <= length b)%nat -> Forall is_byte b -> 0 <= n <= 128 -> (Z.land n 31 <> 0 -> length b = 16%nat) ->
  ipv6_prefix_equal a b n = true <-> same_prefix (Z.to_nat n) a b.
Proof.
  intros [Hla Ha] Hlb Hb Hn Hpart. unfold ipv6_prefix_equal. rewrite Z.shiftr_div_pow2, Z.shiftl_mul_pow2 in * by lia. change (2 ^ 5) with 32 in *. change (2 ^ 2) with 4 in *.
  change 31 with (Z.ones 5) in *. rewrite Z.land_ones in * by lia. change (2 ^ 5) with 32 in *.
  pose proof (Z.div_mod n 32 ltac:(lia)) as En. pose proof (Z.mod_pos_bound n 32 ltac:(lia)) as Hm. set (pdw := n / 32) in *. set (pbi := n mod 32) in *. assert (0 <= pdw <= 4) by lia.
  replace (Z.to_nat n) with (8 * Z.to_nat (pdw * 4) + Z.to_nat pbi)%nat by lia. rewrite same_prefix_app, same_prefix_bytes by (done || lia).
  destruct (bool_decide (take (Z.to_nat (pdw * 4)) a = take (Z.to_nat (pdw * 4)) b)) eqn:Et.
  - apply bool_decide_eq_true in Et. rewrite andb_false_r. destruct (Z.eqb_spec pbi 0) as [E0|E0]; cbn [negb andb].
    + split; [|done]. intros _. split; [done|]. rewrite E0. intros i Hi. cbn in Hi. lia.
    + specialize (Hpart E0). replace (32 - pbi) with (32 - Z.of_nat (Z.to_nat pbi)) by lia. rewrite mask_word by lia.
      assert (Ew : (forall i, (i < Z.to_nat pbi)%nat -> abit a (8 * Z.to_nat (pdw * 4) + i) = abit b (8 * Z.to_nat (pdw * 4) + i)) <->
                   Z.land (Z.lxor (s6_addr32 a (Z.to_nat pdw)) (s6_addr32 b (Z.to_nat pdw))) (le_of (mask_bytes (Z.to_nat pbi))) = 0).
      { rewrite word_mask by (done || lia). replace (8 * Z.to_nat (pdw * 4))%nat with (32 * Z.to_nat pdw)%nat by lia. done. }
      rewrite Ew. destruct (Z.eqb_spec (Z.land (Z.lxor (s6_addr32 a (Z.to_nat pdw)) (s6_addr32 b (Z.to_nat pdw))) (le_of (mask_bytes (Z.to_nat pbi)))) 0); cbn [negb]; tauto || (split; [done|tauto]).
  - apply bool_decide_eq_false in Et. destruct (Z.eqb_spec pdw 0) as [E0|E0]; cbn [negb andb]; [rewrite E0 in Et; by destruct Et|]. split; [done|tauto].
Qed.

(** The bytes of a cut address: whole bytes, the one that is cut, the rest. *)
Lemma mask_u8 b : 0 < b < 8 -> Z.shiftr 65280 b = top_bits (Z.to_nat b) + 256 * Z.shiftr 65280 (b + 8).
Proof. intros Hb. assert (b = 1 \/ b = 2 \/ b = 3 \/ b = 4 \/ b = 5 \/ b = 6 \/ b = 7) as [-> |[-> |[-> |[-> |[-> |[-> | ->]]]]]] by lia; reflexivity. Qed.
Lemma cut_byte x b : is_byte x -> 0 < b < 8 -> u8 (Z.land x (Z.shiftr 65280 b)) = Z.land x (top_bits (Z.to_nat b)).
Proof.
  intros Hx Hb. rewrite mask_u8 by done. rewrite <-(Z.add_0_r x) at 1. replace 0 with (256 * 0) at 1 by lia.
  rewrite (op_byte Z.land andb Z.land_spec land_is_byte) by (done || apply top_bits_byte). rewrite Z.land_0_l, Z.mul_0_r, Z.add_0_r.
  apply wrapu_id. change (2 ^ 8) with 256. apply land_is_byte; [done|apply top_bits_byte].
Qed.
Lemma keep_byte x b : is_byte x -> 0 < b < 8 -> u8 (Z.land x (Z.lnot (Z.shiftr 65280 b))) = Z.land x (255 - top_bits (Z.to_nat b)).
Proof.
  intros Hx Hb. assert (Hn : Z.lnot (Z.shiftr 65280 b) = (255 - top_bits (Z.to_nat b)) + 256 * (-1 - Z.shiftr 65280 (b + 8))) by (rewrite mask_u8 by done; unfold Z.lnot; lia).
  pose proof (top_bits_byte (Z.to_nat b)) as Ht. assert (is_byte (255 - top_bits (Z.to_nat b))) by (unfold is_byte in *; lia).
  rewrite Hn. rewrite <-(Z.add_0_r x) at 1. replace 0 with (256 * 0) at 1 by lia.
  rewrite (op_byte Z.land andb Z.land_spec land_is_byte) by done. rewrite Z.land_0_l, Z.mul_0_r, Z.add_0_r. apply wrapu_id. change (2 ^ 8) with 256. by apply land_is_byte.
Qed.
Lemma keep_bit t k : (t <= 8)%nat -> (k < 8)%nat -> Z.testbit (255 - top_bits t) (7 - Z.of_nat k) = bool_decide (t <= k)%nat.
Proof.
  intros Ht Hk. assert (E : Forall (fun t => Forall (fun k => Z.testbit (255 - top_bits t) (7 - Z.of_nat k) = bool_decide (t <= k)%nat) (seq 0 8)) (seq 0 9)) by (apply (bool_decide_unpack _); vm_compute; exact I).
  rewrite Forall_forall in E. specialize (E t ltac:(apply elem_of_seq; lia)). rewrite Forall_forall in E. apply E, elem_of_seq. lia.
Qed.

Lemma nth_put0 (l m : list Z) j : (length l <= length m)%nat -> nth j (put_at 0 l m) 0 = if (j <? length l)%nat then nth j l 0 else nth j m 0.
Proof.
  intros Hl. change (put_at 0 l m) with (l ++ drop (length l) m). destruct (Nat.ltb_spec j (length l)); [by apply app_nth1|]. rewrite app_nth2 by lia. rewrite nth_skipn. f_equal. lia.
Qed.
Lemma nth_insert (l : list Z) i j x : (i < length l)%nat -> nth j (<[i := x]> l) 0 = if (j =? i)%nat then x else nth j l 0.
Proof.
  intros Hi. rewrite !nth_lookup. destruct (Nat.eqb_spec j i) as [->|]; [by rewrite list_lookup_insert_eq|by rewrite list_lookup_insert_ne].
Qed.
Lemma nth_repeat0 n j : nth j (repeat 0 n) 0 = 0.
Proof. revert j. induction n as [|n IH]; intros [|j]; cbn; auto. Qed.

Lemma plen_split plen : 0 <= plen <= 128 -> Z.to_nat (Z.shiftr plen 3) = (Z.to_nat plen / 8)%nat /\ Z.land plen 7 = Z.of_nat (Z.to_nat plen mod 8).
Proof.
  intros Hp. rewrite Z.shiftr_div_pow2 by lia. change 7 with (Z.ones 3). rewrite Z.land_ones by lia. change (2 ^ 3) with 8.
  rewrite Z2Nat.inj_div by lia. split; [done|]. rewrite Nat2Z.inj_mod, Z2Nat.id by lia. done.
Qed.

Lemma prefix_byte a plen k : is_addr6 a -> 0 <= plen <= 128 -> (k < 16)%nat ->
  s6_addr (ipv6_addr_prefix a plen) k = Z.land (s6_addr a k) (top_bits (Z.to_nat plen - 8 * k)).
Proof.
  intros [Hl Ha] Hp Hk. unfold ipv6_addr_prefix. destruct (plen_split plen Hp) as [-> ->]. set (n := Z.to_nat plen) in *.
  pose proof (Nat.div_mod_eq n 8) as En. pose proof (Nat.mod_upper_bound n 8 ltac:(lia)) as Hm. set (o := (n / 8)%nat) in *. set (b := (n mod 8)%nat) in *.
  pose proof (s6_byte a k Ha) as Hx. assert (Hto : length (take o a) = o) by (rewrite length_take; lia).
  assert (Hfull : (8 <= n - 8 * k)%nat -> Z.land (s6_addr a k) (top_bits (n - 8 * k)) = s6_addr a k).
  { intros H8. rewrite <-top_bits_min, Nat.min_r by lia. change (top_bits 8) with (Z.ones 8). rewrite Z.land_ones by lia. apply Z.mod_small. apply Hx. }
  assert (Hnone : (n - 8 * k = 0)%nat -> Z.land (s6_addr a k) (top_bits (n - 8 * k)) = 0) by (intros ->; change (top_bits 0) with 0; apply Z.land_0_r).
  assert (Hput : nth k (put_at 0 (take o a) (repeat 0 16)) 0 = if (k <? o)%nat then s6_addr a k else 0).
  { rewrite nth_put0 by (rewrite repeat_length; lia). rewrite Hto, nth_repeat0. destruct (Nat.ltb_spec k o); [|done]. rewrite nth_firstn. by rewrite (proj2 (Nat.ltb_lt _ _)). }
  destruct (Z.eqb_spec (Z.of_nat b) 0); cbn [negb].
  - unfold s6_addr at 1. rewrite Hput. destruct (Nat.ltb_spec k o); [rewrite Hfull by lia; done|]. rewrite Hnone by lia. done.
  - unfold s6_addr at 1. rewrite nth_insert by (rewrite put_at_len; rewrite repeat_length; lia). rewrite Hput.
    destruct (Nat.eqb_spec k o) as [->|Hne]; [rewrite cut_byte by (done || lia); f_equal; f_equal; lia|].
    destruct (Nat.ltb_spec k o); [rewrite Hfull by lia; done|]. rewrite Hnone by lia. done.
Qed.

Lemma prefix_addr6 a plen : is_addr6 a -> 0 <= plen <= 128 -> is_addr6 (ipv6_addr_prefix a plen).
Proof.
  intros Ha Hp. pose proof Ha as [Hl Hb]. assert (Hlen : length (ipv6_addr_prefix a plen) = 16%nat).
  { unfold ipv6_addr_prefix. destruct (plen_split plen Hp) as [-> ->]. assert (Z.to_nat plen / 8 <= 16)%nat by (apply Nat.Div0.div_le_upper_bound; lia).
    destruct (negb _); rewrite ?length_insert; rewrite put_at_len; rewrite ?length_take, repeat_length; lia. }
  split; [done|]. apply Forall_forall. intros x Hx. apply list_elem_of_In, (In_nth _ _ 0) in Hx as (k & Hk & <-). fold (s6_addr (ipv6_addr_prefix a plen) k).
  rewrite prefix_byte by (done || lia). apply land_is_byte; [by apply s6_byte|apply top_bits_byte].
Qed.

Lemma prefix_bits a plen i : is_addr6 a -> 0 <= plen <= 128 -> (i < 128)%nat -> abit (ipv6_addr_prefix a plen) i = bool_decide (Z.of_nat i < plen) && abit a i.
Proof.
  intros Ha Hp Hi. unfold abit. assert (i / 8 < 16)%nat by (apply Nat.Div0.div_lt_upper_bound; lia). pose proof (Nat.div_mod_eq i 8). pose proof (Nat.mod_upper_bound i 8 ltac:(lia)).
  rewrite prefix_byte by done. rewrite <-top_bits_min, Z.land_spec, top_bits_bit by lia. rewrite andb_comm. f_equal. apply bool_decide_ext. lia.
Qed.

Lemma addr6_ext a b : is_addr6 a -> is_addr6 b -> same_prefix 128 a b -> a = b.
Proof.
  intros [Hla Ha] [Hlb Hb] Hs. change 128%nat with (8 * 16)%nat in Hs. apply same_prefix_bytes in Hs; [|done|done|lia|lia]. by rewrite !take_ge in Hs by lia.
Qed.

(** Two addresses have the same prefix when cutting them gives the same address. *)
Lemma prefix_cut_eq a b n : is_addr6 a -> is_addr6 b -> 0 <= n <= 128 -> ipv6_addr_prefix a n = ipv6_addr_prefix b n <-> same_prefix (Z.to_nat n) a b.
Proof.
  intros Ha Hb Hn. split.
  - intros E i Hi. pose proof (f_equal (fun l => abit l i) E) as Eb. cbn beta in Eb. rewrite !prefix_bits in Eb by (done || lia). by rewrite bool_decide_eq_true_2 in Eb by lia.
  - intros Hs. apply addr6_ext; [by apply prefix_addr6..|]. intros i Hi. rewrite !prefix_bits by done. destruct (decide (Z.of_nat i < n)) as [Hlt|Hlt].
    + rewrite (Hs i) by lia. done.
    + by rewrite !bool_decide_eq_false_2.
Qed.

Lemma lor_disjoint_byte x y t : is_byte x -> is_byte y -> is_byte (Z.lor (Z.land x (255 - top_bits t)) (Z.land y (top_bits t))).
Proof.
  intros Hx Hy. pose proof (top_bits_byte t) as Ht. assert (Hk : is_byte (255 - top_bits t)) by (unfold is_byte in *; lia).
  pose proof (land_is_byte x _ Hx Hk) as H1. pose proof (land_is_byte y _ Hy Ht) as H2. apply byte_bits; [apply Z.lor_nonneg; unfold is_byte in *; lia|].
  intros n Hn. by rewrite Z.lor_spec, (byte_high _ n H1), (byte_high _ n H2).
Qed.

Lemma copy_byte a p plen k : is_addr6 a -> is_addr6 p -> 0 <= plen <= 128 -> (k < 16)%nat ->
  s6_addr (ipv6_addr_prefix_copy a p plen) k = let t := (Z.to_nat plen - 8 * k)%nat in Z.lor (Z.land (s6_addr a k) (255 - top_bits t)) (Z.land (s6_addr p k) (top_bits t)).
Proof.
  intros [Hl Ha] [Hlp Hap] Hp Hk. cbn zeta. unfold ipv6_addr_prefix_copy. destruct (plen_split plen Hp) as [-> ->]. set (n := Z.to_nat plen) in *.
  pose proof (Nat.div_mod_eq n 8) as En. pose proof (Nat.mod_upper_bound n 8 ltac:(lia)) as Hm. set (o := (n / 8)%nat) in *. set (b := (n mod 8)%nat) in *.
  pose proof (s6_byte a k Ha) as Hx. pose proof (s6_byte p k Hap) as Hy. assert (Hto : length (take o p) = o) by (rewrite length_take; lia).
  assert (Hput : nth k (put_at 0 (take o p) a) 0 = if (k <? o)%nat then s6_addr p k else s6_addr a k).
  { rewrite nth_put0 by lia. rewrite Hto. destruct (Nat.ltb_spec k o); [|done]. rewrite nth_firstn. by rewrite (proj2 (Nat.ltb_lt _ _)). }
  assert (Hall : (8 <= n - 8 * k)%nat -> Z.lor (Z.land (s6_addr a k) (255 - top_bits (n - 8 * k))) (Z.land (s6_addr p k) (top_bits (n - 8 * k))) = s6_addr p k).
  { intros H8. rewrite <-top_bits_min, Nat.min_r by lia. change (top_bits 8) with (Z.ones 8). change (255 - Z.ones 8) with 0. rewrite Z.land_0_r, Z.lor_0_l, Z.land_ones by lia. apply Z.mod_small, Hy. }
  assert (Hnone : (n - 8 * k = 0)%nat -> Z.lor (Z.land (s6_addr a k) (255 - top_bits (n - 8 * k))) (Z.land (s6_addr p k) (top_bits (n - 8 * k))) = s6_addr a k).
  { intros ->. change (top_bits 0) with 0. change (255 - 0) with (Z.ones 8). rewrite Z.land_0_r, Z.lor_0_r, Z.land_ones by lia. apply Z.mod_small, Hx. }
  assert (Hlen : length (put_at 0 (take o p) a) = 16%nat) by (rewrite put_at_len; lia).
  destruct (Z.eqb_spec (Z.of_nat b) 0); cbn [negb].
  - unfold s6_addr at 1. rewrite Hput. destruct (Nat.ltb_spec k o); [by rewrite Hall by lia|by rewrite Hnone by lia].
  - unfold s6_addr at 1. rewrite nth_insert by (rewrite length_insert; lia). rewrite nth_insert by lia. rewrite Hput. destruct (Nat.eqb_spec k o) as [->|Hne].
    + unfold s6_addr at 1. rewrite nth_insert by lia. rewrite Nat.eqb_refl. unfold s6_addr at 1. rewrite Hput, Nat.ltb_irrefl. rewrite keep_byte by (done || lia).
      pose proof (lor_disjoint_byte (s6_addr a o) (s6_addr p o) b Hx Hy) as Hlb. replace (n - 8 * o)%nat with b by lia.
      rewrite mask_u8 by lia. rewrite <-(Z.add_0_r (s6_addr p o)) at 1. replace 0 with (256 * 0) at 1 by lia.
      rewrite (op_byte Z.land andb Z.land_spec land_is_byte) by (done || apply top_bits_byte). rewrite Z.land_0_l, Z.mul_0_r, Z.add_0_r, Nat2Z.id. apply wrapu_id. exact Hlb.
    + destruct (Nat.ltb_spec k o); [by rewrite Hall by lia|by rewrite Hnone by lia].
Qed.

Lemma copy_bits a p plen i : is_addr6 a -> is_addr6 p -> 0 <= plen <= 128 -> (i < 128)%nat ->
  abit (ipv6_addr_prefix_copy a p plen) i = if bool_decide (Z.of_nat i < plen) then abit p i else abit a i.
Proof.
  intros Ha Hpa Hp Hi. unfold abit. assert (i / 8 < 16)%nat by (apply Nat.Div0.div_lt_upper_bound; lia). pose proof (Nat.div_mod_eq i 8). pose proof (Nat.mod_upper_bound i 8 ltac:(lia)).
  rewrite copy_byte by done. cbn zeta. rewrite <-top_bits_min, Z.lor_spec, !Z.land_spec, keep_bit, top_bits_bit by lia.
  destruct (decide (Z.of_nat i < plen)); [rewrite (bool_decide_eq_true_2 (_ < plen)) by done|rewrite (bool_decide_eq_false_2 (_ < plen)) by done].
  - rewrite bool_decide_eq_false_2, bool_decide_eq_true_2 by lia. by rewrite andb_false_r, andb_true_r.
  - rewrite bool_decide_eq_true_2, bool_decide_eq_false_2 by lia. by rewrite andb_false_r, andb_true_r, orb_false_r.
Qed.

(** C28: For addresses [a] and [b] and a length of 0 to 128 bits, [ipv6_prefix_equal] tells whether
    their first bits agree, which is when [ipv6_addr_prefix] cuts them to the same
    address; [ipv6_addr_prefix] keeps the first bits and clears the rest, and
    [ipv6_addr_prefix_copy] takes the first bits from the prefix and the rest from the address. *)
Theorem ipv6_prefix_correct a b n : is_addr6 a -> is_addr6 b -> 0 <= n <= 128 ->
  (ipv6_prefix_equal a b n = true <-> forall i, (i < 128)%nat -> Z.of_nat i < n -> abit a i = abit b i) /\
  (ipv6_prefix_equal a b n = true <-> ipv6_addr_prefix a n = ipv6_addr_prefix b n) /\
  (forall i, (i < 128)%nat -> abit (ipv6_addr_prefix a n) i = bool_decide (Z.of_nat i < n) && abit a i) /\
  (forall i, (i < 128)%nat -> abit (ipv6_addr_prefix_copy a b n) i = if bool_decide (Z.of_nat i < n) then abit b i else abit a i).
Proof.
  intros Ha Hb Hn. assert (E : ipv6_prefix_equal a b n = true <-> same_prefix (Z.to_nat n) a b).
  { pose proof Hb as [Hlb Hbb]. apply prefix_equal_bits; try done. rewrite Z.shiftr_div_pow2, Z.shiftl_mul_pow2 by lia. change (2 ^ 5) with 32. change (2 ^ 2) with 4.
    assert (n / 32 <= 4) by (apply Z.div_le_upper_bound; lia). lia. }
  split; [|split; [by rewrite E, prefix_cut_eq|split]].
  - rewrite E. unfold same_prefix. split; intros Hs i; [intros _ Hi; apply Hs; lia|intros Hi; apply Hs; lia].
  - intros i Hi. by apply prefix_bits.
  - intros i Hi. by apply copy_bits.
Qed.

(** ** Kinds of addresses *)

(** [a] is in the network [v/n]; the bytes of [v] that are not given are zero. *)
Definition in_net (a v : list Z) (n : nat) : bool := bool_decide (Forall (fun i => abit a i = abit (pad v) i) (seq 0 n)).
Lemma in_net_spec a v n : in_net a v n = true <-> same_prefix n a (pad v).
Proof.
  unfold in_net. rewrite bool_decide_eq_true, Forall_forall. unfold same_prefix. split; [intros Hs i Hi; apply Hs, elem_of_seq; lia|]. intros Hs i Hi%elem_of_seq. apply Hs. lia.
Qed.

(** The classes of RFC 4291 and RFC 4193: the bits of the kind below bit 16, and the scope, as
    the number RFC 4291 gives it for multicast (2 link-local, 5 site-local, 14 global), above. *)
Definition class (kind scope : Z) : Z := kind + 65536 * scope.
(** ffXs::/8: the scope is in the low half of the second byte; node-local, link-local and
    site-local multicast have the bit of loopback, link-local and site-local too. *)
Definition mc_class (scope : Z) : Z :=
  class (2 + match scope with 1 => 16 | 2 => 32 | 5 => 64 | _ => 0 end) scope.
Definition addr_class (a : list Z) : Z :=
  if in_net a [255] 8 then mc_class (s6_addr a 1 mod 16)
  else if in_net a [254; 128] 10 then class (32 + 1) 2
  else if in_net a [254; 192] 10 then class (64 + 1) 5
  else if in_net a [] 128 then 0
  else if in_net a (zeros 15 ++ [1]) 128 then class (16 + 1) 2
  else if in_net a [] 96 then class (128 + 1) 14
  else if in_net a (zeros 10 ++ [255; 255]) 96 then class 4096 14
  else class 1 14.

Lemma mc_scope b : is_byte b -> Z.lor IPV6_ADDR_MULTICAST (ipv6_addr_scope2type (Z.land b 15)) = mc_class (b mod 16).
Proof.
  intros Hb. change 15 with (Z.ones 4). rewrite Z.land_ones by lia. change (2 ^ 4) with 16. assert (0 <= b mod 16 < 16) as Hm by (apply Z.mod_pos_bound; lia).
  assert (forall x, x ∈ seqZ 0 16 -> Z.lor IPV6_ADDR_MULTICAST (ipv6_addr_scope2type x) = mc_class x) as Hall; [|apply Hall, elem_of_seqZ; lia].
  apply Forall_forall. by repeat constructor.
Qed.

(** A network inside another, and two apart. *)
Lemma in_net_mono a v n v' m : in_net a v n = true -> (m <=? n)%nat && in_net (pad v) v' m = true -> in_net a v' m = true.
Proof. rewrite andb_true_iff, Nat.leb_le, !in_net_spec. intros H1 [Hm H2] i Hi. rewrite <-H2 by lia. apply H1. lia. Qed.
Lemma in_net_apart a v n v' m : in_net a v n = true -> in_net (pad v) v' (Nat.min n m) = false -> in_net a v' m = false.
Proof.
  intros H1 H2. destruct (in_net a v' m) eqn:E; [|done]. apply in_net_spec in H1, E. assert (E' : in_net (pad v) v' (Nat.min n m) = true); [|congruence].
  apply in_net_spec. intros i Hi. rewrite <-(E i) by lia. symmetry. apply H1. lia.
Qed.

(** The first word under a mask. *)
Lemma net_word a v n V M : is_addr6 a -> Forall is_byte v -> (length v <= 16)%nat -> (n <= 32)%nat ->
  M = le_of (mask_bytes n) -> V = s6_addr32 (pad v) 0 -> Z.land V M = V -> (Z.land (s6_addr32 a 0) M =? V) = in_net a v n.
Proof.
  intros [Hl Ha] Hv Hlv Hn -> -> HV. assert (Hp : Forall is_byte (pad v)) by (unfold pad, zeros; rewrite Forall_app; split; [done|]; apply Forall_forall; intros x Hx%list_elem_of_In%repeat_spec; subst; unfold is_byte; lia).
  apply eq_true_iff_eq. rewrite Z.eqb_eq, in_net_spec. pose proof (word_mask a (pad v) 0 n Ha Hp ltac:(lia) ltac:(rewrite pad_length; lia) Hn) as E. cbn [Nat.mul Nat.add] in E. unfold same_prefix. rewrite <-E.
  assert (Ex : Z.land (Z.lxor (s6_addr32 a 0) (s6_addr32 (pad v) 0)) (le_of (mask_bytes n)) = Z.lxor (Z.land (s6_addr32 a 0) (le_of (mask_bytes n))) (s6_addr32 (pad v) 0)).
  { rewrite <-HV at 2. apply Z.bits_inj'. intros k Hk. rewrite !Z.land_spec, !Z.lxor_spec, !Z.land_spec. by destruct (Z.testbit (s6_addr32 a 0) k), (Z.testbit (s6_addr32 (pad v) 0) k), (Z.testbit (le_of (mask_bytes n)) k). }
  rewrite Ex, lxor_zero. done.
Qed.

(** Whole words: the networks of 96 and 128 bits. *)
Lemma net_words a v k : is_addr6 a -> Forall is_byte v -> (length v <= 16)%nat -> (k <= 4)%nat -> in_net a v (32 * k) = true <-> forall i, (i < k)%nat -> s6_addr32 a i = s6_addr32 (pad v) i.
Proof.
  intros [Hl Ha] Hv Hlv Hk. assert (Hp : Forall is_byte (pad v)) by (unfold pad, zeros; rewrite Forall_app; split; [done|]; apply Forall_forall; intros x Hx%list_elem_of_In%repeat_spec; subst; unfold is_byte; lia).
  assert (Hpl : length (pad v) = 16%nat) by (by apply pad_length). rewrite in_net_spec. replace (32 * k)%nat with (8 * (4 * k))%nat by lia. rewrite same_prefix_bytes by (done || lia). split.
  - intros E i Hi. unfold s6_addr32, rd. rewrite !take_drop_commute. f_equal. f_equal. apply (f_equal (take (4 + 4 * i))) in E. rewrite !take_take, !Nat.min_l in E by lia. rewrite !(Nat.add_comm (4 * i)). done.
  - intros Hw. clear Hk Hlv. revert Hw. induction k as [|k IH]; intros Hw; [done|].
    assert (E : take 4 (drop (4 * k) a) = take 4 (drop (4 * k) (pad v))).
    { apply le_of_inj; [by apply (chunk_bytes a)|by apply (chunk_bytes (pad v))|rewrite !length_take, !length_drop; lia|]. apply (Hw k). lia. }
    replace (4 * S k)%nat with (4 * k + 4)%nat by lia. rewrite <-!take_take_drop, E, IH; [done|]. intros i Hi. apply Hw. lia.
Qed.

Ltac bytes_ok := apply (bool_decide_unpack _); vm_compute; exact I.
(** The tests of [__ipv6_addr_type] as networks. *)
Section tests.
Context (a : list Z) (Ha : is_addr6 a).

Lemma test_first3 : (Z.land (s6_addr32 a 0) (aosl_htonl 3758096384) =? aosl_htonl 0) = in_net a [] 3 /\
  (Z.land (s6_addr32 a 0) (aosl_htonl 3758096384) =? aosl_htonl 3758096384) = in_net a [224] 3.
Proof. split; apply net_word; try done; try (cbn; lia); try bytes_ok. Qed.
Lemma test_multicast : (Z.land (s6_addr32 a 0) (aosl_htonl 4278190080) =? aosl_htonl 4278190080) = in_net a [255] 8.
Proof. apply net_word; try done; try (cbn; lia); try bytes_ok. Qed.
Lemma test_link : (Z.land (s6_addr32 a 0) (aosl_htonl 4290772992) =? aosl_htonl 4269801472) = in_net a [254; 128] 10.
Proof. apply net_word; try done; try (cbn; lia); try bytes_ok. Qed.
Lemma test_site : (Z.land (s6_addr32 a 0) (aosl_htonl 4290772992) =? aosl_htonl 4273995776) = in_net a [254; 192] 10.
Proof. apply net_word; try done; try (cbn; lia); try bytes_ok. Qed.
Lemma test_local : (Z.land (s6_addr32 a 0) (aosl_htonl 4261412864) =? aosl_htonl 4227858432) = in_net a [252] 7.
Proof. apply net_word; try done; try (cbn; lia); try bytes_ok. Qed.

Lemma three (P : nat -> Prop) : (forall i, (i < 3)%nat -> P i) <-> P 0%nat /\ P 1%nat /\ P 2%nat.
Proof. split; [intros Hp; split_and!; apply Hp; lia|]. intros (H0 & H1 & H2) [|[|[|]]] Hi; done || lia. Qed.
Lemma four_words (P : nat -> Prop) : (forall i, (i < 4)%nat -> P i) <-> (P 0%nat /\ P 1%nat /\ P 2%nat) /\ P 3%nat.
Proof. split; [intros Hp; split_and!; apply Hp; lia|]. intros ((H0 & H1 & H2) & H3) [|[|[|[|]]]] Hi; done || lia. Qed.

Lemma test_zero96 : (Z.lor (s6_addr32 a 0) (s6_addr32 a 1) =? 0) && (s6_addr32 a 2 =? 0) = in_net a [] 96.
Proof. apply eq_true_iff_eq. rewrite andb_true_iff, !Z.eqb_eq, lor_zero. change 96%nat with (32 * 3)%nat. rewrite (net_words a [] 3), three by (done || cbn; lia || bytes_ok). cbn. tauto. Qed.
Lemma test_mapped : (Z.lor (s6_addr32 a 0) (s6_addr32 a 1) =? 0) && (s6_addr32 a 2 =? aosl_htonl 65535) = in_net a (zeros 10 ++ [255; 255]) 96.
Proof. apply eq_true_iff_eq. rewrite andb_true_iff, !Z.eqb_eq, lor_zero. change 96%nat with (32 * 3)%nat. rewrite net_words, three by (done || (cbn; lia) || bytes_ok). change (s6_addr32 (pad (zeros 10 ++ [255; 255])) 2) with (aosl_htonl 65535). cbn -[aosl_htonl]. tauto. Qed.
Lemma test_any : in_net a [] 96 && (s6_addr32 a 3 =? 0) = in_net a [] 128.
Proof.
  apply eq_true_iff_eq. rewrite andb_true_iff, Z.eqb_eq. change 96%nat with (32 * 3)%nat. change 128%nat with (32 * 4)%nat. rewrite (net_words a [] 3), (net_words a [] 4), three, four_words by (done || (cbn; lia) || bytes_ok). done.
Qed.
Lemma test_loopback : in_net a [] 96 && (s6_addr32 a 3 =? aosl_htonl 1) = in_net a (zeros 15 ++ [1]) 128.
Proof.
  apply eq_true_iff_eq. rewrite andb_true_iff, Z.eqb_eq. change 96%nat with (32 * 3)%nat. change 128%nat with (32 * 4)%nat. rewrite (net_words a [] 3), (net_words a (zeros 15 ++ [1]) 4), three, four_words by (done || (cbn; lia) || bytes_ok). done.
Qed.
End tests.

(** C29: [__ipv6_addr_type] gives every address the class and scope of the network it is in:
    ff00::/8, fe80::/10, fec0::/10, ::, ::1, ::/96, ::ffff:0:0/96, and global
    unicast for all others. *)
Theorem ipv6_addr_type_correct a : is_addr6 a -> __ipv6_addr_type a = addr_class a.
Proof.
  intros Ha. unfold __ipv6_addr_type, addr_class. destruct (test_first3 a Ha) as [E0 E7].
  rewrite E0, E7, (test_multicast a Ha), (test_link a Ha), (test_site a Ha), (test_local a Ha), (test_zero96 a Ha), (test_mapped a Ha), <-(test_any a Ha), <-(test_loopback a Ha). clear E0 E7. unfold IPV6_ADDR_MC_SCOPE. rewrite mc_scope by (apply s6_byte, Ha).
  assert (Hm : in_net a [255] 8 = true -> in_net a [224] 3 = true) by (intros E; by apply (in_net_mono _ _ _ _ _ E)).
  assert (Hl : in_net a [254; 128] 10 = true -> in_net a [224] 3 = true) by (intros E; by apply (in_net_mono _ _ _ _ _ E)).
  assert (Hs : in_net a [254; 192] 10 = true -> in_net a [224] 3 = true) by (intros E; by apply (in_net_mono _ _ _ _ _ E)).
  assert (Hu : in_net a [252] 7 = true -> in_net a [224] 3 = true) by (intros E; by apply (in_net_mono _ _ _ _ _ E)).
  assert (Hz : in_net a [] 96 = true -> in_net a [] 3 = true) by (intros E; by apply (in_net_mono _ _ _ _ _ E)).
  assert (Hp : in_net a (zeros 10 ++ [255; 255]) 96 = true -> in_net a [] 3 = true) by (intros E; by apply (in_net_mono _ _ _ _ _ E)).
  assert (H07 : in_net a [] 3 = true -> in_net a [224] 3 = false) by (intros E; by apply (in_net_apart _ _ _ _ _ E)).
  destruct (in_net a [] 3), (in_net a [224] 3); cbn [negb andb]; try (specialize (H07 eq_refl); done);
    destruct (in_net a [255] 8); try (specialize (Hm eq_refl); done); try done;
    destruct (in_net a [254; 128] 10); try (specialize (Hl eq_refl); done); try done;
    destruct (in_net a [254; 192] 10); try (specialize (Hs eq_refl); done); try done;
    destruct (in_net a [252] 7); try (specialize (Hu eq_refl); done); try done;
    destruct (in_net a [] 96); try (specialize (Hz eq_refl); done); try done;
    destruct (in_net a (zeros 10 ++ [255; 255]) 96); try (specialize (Hp eq_refl); done); done.
Qed.

(** ** At concrete addresses *)
Lemma ipv6_prefix_correct_witness :
  (ipv6_prefix_equal demo_addr6 (zeros 16) 45 = true <-> forall i, (i < 128)%nat -> Z.of_nat i < 45 -> abit demo_addr6 i = abit (zeros 16) i) /\
  (ipv6_prefix_equal demo_addr6 (zeros 16) 45 = true <-> ipv6_addr_prefix demo_addr6 45 = ipv6_addr_prefix (zeros 16) 45) /\
  (forall i, (i < 128)%nat -> abit (ipv6_addr_prefix demo_addr6 45) i = bool_decide (Z.of_nat i < 45) && abit demo_addr6 i) /\
  (forall i, (i < 128)%nat -> abit (ipv6_addr_prefix_copy demo_addr6 (zeros 16) 45) i = if bool_decide (Z.of_nat i < 45) then abit (zeros 16) i else abit demo_addr6 i).
Proof. apply (ipv6_prefix_correct demo_addr6 (zeros 16) 45); [split; [reflexivity|bytes_ok]|split; [reflexivity|bytes_ok]|lia]. Defined.

Lemma ipv6_addr_type_correct_witness : __ipv6_addr_type ([254; 128] ++ zeros 13 ++ [9]) = addr_class ([254; 128] ++ zeros 13 ++ [9]).
Proof. apply (ipv6_addr_type_correct ([254; 128] ++ zeros 13 ++ [9])). split; [reflexivity|bytes_ok]. Defined.
