(* ===== verification/SkAddr.v ===== *)
(** * Socket addresses: conversion and text

    An IPv4 destination is turned into an IPv6 one with the saved prefix of the
    queue, or the well-known one, and back. *)
From S2P Require Import Prelude.
From S2P Require Import Inet.
From S2P Require Import InetQuad.
From S2P Require Import InetSpec.
From S2P Require Import InetPrint.
From S2P Require Import InetProps.
From S2P Require Import Ipv6.
From S2P Require Import Ipv6Bits.
From S2P Require Import Ipv6Props.

(** ** Fields of a socket address *)
Lemma le_bytes_2 b0 b1 : is_byte b0 -> is_byte b1 -> le_bytes 2 (b0 + 256 * (b1 + 256 * 0)) = [b0; b1].
Proof. intros H0 H1. apply (le_bytes_of [b0; b1]). by rewrite !Forall_cons. Qed.
Lemma le_bytes_4 b0 b1 b2 b3 : is_byte b0 -> is_byte b1 -> is_byte b2 -> is_byte b3 -> le_bytes 4 (b0 + 256 * (b1 + 256 * (b2 + 256 * (b3 + 256 * 0)))) = [b0; b1; b2; b3].
Proof. intros H0 H1 H2 H3. apply (le_bytes_of [b0; b1; b2; b3]). by rewrite !Forall_cons. Qed.

(** A socket address: at least the bytes of [in], or of [in6]. *)
Definition is_sk (n : nat) (m : list Z) : Prop := (n <= length m)%nat /\ Forall is_byte m.

(** The first bytes of a memory. *)
Lemma zero_mem_eq n m : (n <= length m)%nat -> zero_mem n m = repeat 0 n ++ drop n m.
Proof. intros Hn. unfold zero_mem, put_at. cbn [take app Nat.add]. by rewrite repeat_length. Qed.

Lemma cons_of {A} (l : list A) n : (S n <= length l)%nat -> exists x l', l = x :: l' /\ (n <= length l')%nat.
Proof. intros Hl. destruct l as [|x l]; cbn in Hl; [lia|]. exists x, l. split; [done|lia]. Qed.

(** The prefix that a conversion uses. *)
Definition nat64_96 : list Z := [0; 100; 255; 155; 0; 0; 0; 0; 0; 0; 0; 0].
Definition mapped_96 : list Z := [0; 0; 0; 0; 0; 0; 0; 0; 0; 0; 255; 255].
Definition is_prefix96 (p : list Z) : Prop := length p = 12%nat /\ Forall is_byte p.

Lemma from_ipv4_eq v6_prefix d6 v4 f0 f1 p0 p1 x0 x1 x2 x3 r :
  (28 <= length d6)%nat -> (forall p, v6_prefix = Some p -> is_prefix96 p) -> v4 = f0 :: f1 :: p0 :: p1 :: x0 :: x1 :: x2 :: x3 :: r -> Forall is_byte v4 ->
  ipv6_sk_addr_from_ipv4 v6_prefix d6 v4 =
  (0, [10; 0; p0; p1; 0; 0; 0; 0] ++ default nat64_96 v6_prefix ++ [x0; x1; x2; x3; 0; 0; 0; 0] ++ drop 28 d6).
Proof.
  intros Hd Hp -> Hb. rewrite !Forall_cons in Hb. destruct Hb as (? & ? & Hp0 & Hp1 & Hx0 & Hx1 & Hx2 & Hx3 & _).
  unfold ipv6_sk_addr_from_ipv4. rewrite zero_mem_eq by done. set (R := drop 28 d6).
  unfold sa_port, sin_addr, rd, off_port, off_sin_addr. cbn [drop take le_of]. unfold wr. rewrite le_bytes_2, le_bytes_4 by done.
  destruct v6_prefix as [p|]; [|reflexivity]. destruct (Hp p eq_refl) as [Hl _]. do 12 (destruct p as [|? p]; [cbn in Hl; lia|]). destruct p; [reflexivity|cbn in Hl; lia].
Qed.

Lemma to_ipv4_eq v6_prefix d4 m f0 f1 p0 p1 q0 q1 q2 q3 a12 x0 x1 x2 x3 r :
  (16 <= length d4)%nat -> m = f0 :: f1 :: p0 :: p1 :: q0 :: q1 :: q2 :: q3 :: a12 ++ x0 :: x1 :: x2 :: x3 :: r -> length a12 = 12%nat -> Forall is_byte m ->
  __sk_addr_ipv4_compatible v6_prefix m = true ->
  ipv6_sk_addr_to_ipv4 v6_prefix d4 m = (0, [2; 0; p0; p1; x0; x1; x2; x3] ++ repeat 0 8 ++ drop 16 d4).
Proof.
  intros Hd Em Hl Hb Hc. unfold ipv6_sk_addr_to_ipv4. rewrite Hc. cbn [negb]. rewrite zero_mem_eq by done. subst m. do 12 (destruct a12 as [|? a12]; [cbn in Hl; lia|]). destruct a12; [|cbn in Hl; lia].
  cbn [app] in *. rewrite !Forall_cons in Hb. unfold sa_port, rd, off_port, off_sin6_addr. cbn [drop take le_of Nat.add]. unfold wr. rewrite le_bytes_2, le_bytes_4 by tauto. reflexivity.
Qed.

(** ** Which IPv6 addresses stand for IPv4 addresses *)
Lemma prefix96_eq a p : ipv6_prefix_equal a p 96 = bool_decide (take 12 a = take 12 p).
Proof. unfold ipv6_prefix_equal. cbn [Z.shiftr Z.shiftl Z.land]. change (Z.to_nat (Z.shiftl (Z.shiftr 96 5) 2)) with 12%nat. cbn. by destruct (bool_decide (take 12 a = take 12 p)). Qed.

Lemma addr6_96 a : is_addr6 a -> exists b0 b1 b2 b3 b4 b5 b6 b7 b8 b9 b10 b11 r, a = b0 :: b1 :: b2 :: b3 :: b4 :: b5 :: b6 :: b7 :: b8 :: b9 :: b10 :: b11 :: r /\
  Forall is_byte [b0; b1; b2; b3] /\ Forall is_byte [b4; b5; b6; b7] /\ Forall is_byte [b8; b9; b10; b11].
Proof.
  intros [Hl Ha]. do 12 (destruct a as [|? a]; [cbn in Hl; lia|]). eexists _, _, _, _, _, _, _, _, _, _, _, _, _. split; [done|]. rewrite !Forall_cons in Ha. rewrite !Forall_cons, !Forall_nil. tauto.
Qed.
Lemma lxor_word bs x k : Forall is_byte bs -> Forall is_byte k -> length bs = length k -> x = le_of k -> Z.lxor (le_of bs) x = 0 <-> bs = k.
Proof. intros Hb Hk Hl ->. rewrite lxor_zero. split; [intros E; by apply le_of_inj in E|by intros ->]. Qed.
Lemma zero_word bs : Forall is_byte bs -> le_of bs = 0 <-> bs = repeat 0 (length bs).
Proof.
  intros Hb. rewrite le_of_zero by done. clear Hb. induction bs as [|b bs IH]; [done|]. rewrite Forall_cons, IH. cbn. split; [intros [<- E]; by rewrite <-E|]. intros [= -> E]. done.
Qed.

Lemma mapped_eq a : is_addr6 a -> ipv6_addr_v4mapped a = bool_decide (take 12 a = mapped_96).
Proof.
  intros (b0 & b1 & b2 & b3 & b4 & b5 & b6 & b7 & b8 & b9 & b10 & b11 & r & -> & H1 & H2 & H3)%addr6_96. apply eq_true_iff_eq. unfold ipv6_addr_v4mapped. rewrite Z.eqb_eq, bool_decide_eq_true, !lor_zero.
  unfold s6_addr32, rd. cbn [drop take Nat.mul Nat.add]. rewrite !zero_word by done. rewrite (lxor_word _ _ [0; 0; 255; 255]) by (done || bytes_ok). cbn. unfold mapped_96.
  split; [intros [[[=] [=]] [=]]; by subst|intros [=]; by subst].
Qed.
Lemma nat64_eq a : is_addr6 a -> ipv6_addr_nat64 a = bool_decide (take 12 a = nat64_96).
Proof.
  intros (b0 & b1 & b2 & b3 & b4 & b5 & b6 & b7 & b8 & b9 & b10 & b11 & r & -> & H1 & H2 & H3)%addr6_96. apply eq_true_iff_eq. unfold ipv6_addr_nat64. rewrite Z.eqb_eq, bool_decide_eq_true, !lor_zero.
  unfold s6_addr32, rd. cbn [drop take Nat.mul Nat.add]. rewrite !zero_word by done. rewrite (lxor_word _ _ [0; 100; 255; 155]) by (done || bytes_ok). cbn. unfold nat64_96.
  split; [intros [[[=] [=]] [=]]; by subst|intros [=]; by subst].
Qed.

(** The prefixes that are recognized. *)
Definition v4_prefixes (v6_prefix : option (list Z)) : list (list Z) :=
  match v6_prefix with Some p => [p] | None => [] end ++ [mapped_96; nat64_96].

Lemma v4_compatible_eq v6_prefix a : is_addr6 a -> (forall p, v6_prefix = Some p -> is_prefix96 p) ->
  __ipv6_addr_v4_compatible v6_prefix a = bool_decide (take 12 a ∈ v4_prefixes v6_prefix).
Proof.
  intros Ha Hp. apply eq_true_iff_eq. rewrite bool_decide_eq_true. unfold __ipv6_addr_v4_compatible, v4_prefixes. rewrite mapped_eq, nat64_eq by done.
  assert (E : bool_decide (take 12 a = mapped_96) || bool_decide (take 12 a = nat64_96) = true <-> take 12 a ∈ [mapped_96; nat64_96]) by (rewrite orb_true_iff, !bool_decide_eq_true; set_solver).
  destruct v6_prefix as [p|]; cbn [app]; [|done].
  rewrite elem_of_cons, <-E, prefix96_eq. destruct (Hp p eq_refl) as [Hl _]. rewrite (take_ge p) by lia.
  destruct (bool_decide (take 12 a = p)) eqn:Eb; [apply bool_decide_eq_true in Eb|apply bool_decide_eq_false in Eb]; tauto.
Qed.

(** ** The prefixes that queues keep *)
Definition v6ok (w : v6world) : Prop := map_Forall (fun _ p => is_prefix96 p) (ipv6_prefix_96 w).

Lemma update_prefix_ok ok q a6 w : v6ok w -> (forall a, a6 = Some a -> is_addr6 a) -> v6ok (____q_update_ipv6_prefix ok q a6 w).
Proof.
  intros Hw Ha. unfold ____q_update_ipv6_prefix. destruct a6 as [a|]; [|by apply map_Forall_delete]. destruct (negb _); [|done]. destruct (_ || _); [|done].
  destruct (Ha a eq_refl) as [Hl Hb]. apply map_Forall_insert_2; [|done]. split; [rewrite length_take; lia|by apply Forall_take].
Qed.
Lemma set_prefix_ok call ok this_q qid a6 w r w' : v6ok w -> (forall a, a6 = Some a -> is_addr6 a) -> aosl_mpq_set_ipv6_prefix_on_q call ok this_q qid a6 w = (r, w') -> v6ok w'.
Proof.
  intros Hw Ha. unfold aosl_mpq_set_ipv6_prefix_on_q. pose proof (update_prefix_ok ok qid a6 w Hw Ha) as Hu. intros E. repeat case_match; injection E as <- <-; done.
Qed.
Lemma get_prefix_ok this_q w p : v6ok w -> aosl_mpq_get_ipv6_prefix this_q w = Some p -> is_prefix96 p.
Proof. intros Hw. unfold aosl_mpq_get_ipv6_prefix. destruct (negb _); [|done]. apply (Hw this_q). Qed.

(** ** There and back *)
Lemma eight_cells (v : list Z) : (8 <= length v)%nat -> exists f0 f1 p0 p1 x0 x1 x2 x3 r, v = f0 :: f1 :: p0 :: p1 :: x0 :: x1 :: x2 :: x3 :: r.
Proof. intros Hl. do 8 (destruct v as [|? v]; [cbn in Hl; lia|]). eexists _, _, _, _, _, _, _, _, _. done. Qed.
Lemma prefix_default_len v6_prefix : (forall p, v6_prefix = Some p -> is_prefix96 p) -> is_prefix96 (default nat64_96 v6_prefix).
Proof. intros Hp. destruct v6_prefix as [p|]; [by apply Hp|]. split; [done|bytes_ok]. Qed.
Lemma sin6_addr_ok m : is_sk 24 m -> is_addr6 (sin6_addr m).
Proof. intros [Hl Hb]. unfold sin6_addr, off_sin6_addr. split; [rewrite length_take, length_drop; lia|by apply Forall_take, Forall_drop]. Qed.

(** The address that an IPv4 address becomes with a prefix of 96 bits. *)
Lemma converted v6_prefix d6 v4 f0 f1 p0 p1 x0 x1 x2 x3 r m :
  is_sk 28 d6 -> (forall p, v6_prefix = Some p -> is_prefix96 p) -> v4 = f0 :: f1 :: p0 :: p1 :: x0 :: x1 :: x2 :: x3 :: r -> Forall is_byte v4 ->
  m = [10; 0; p0; p1; 0; 0; 0; 0] ++ default nat64_96 v6_prefix ++ [x0; x1; x2; x3; 0; 0; 0; 0] ++ drop 28 d6 ->
  Forall is_byte m /\ sa_family m = AOSL_AF_INET6 /\ sin6_addr m = default nat64_96 v6_prefix ++ take 4 (drop off_sin_addr v4) /\ __sk_addr_ipv4_compatible v6_prefix m = true.
Proof.
  intros [Hd Hdb] Hp -> Hb ->. destruct (prefix_default_len v6_prefix Hp) as [Hpl Hpb]. rewrite !Forall_cons in Hb.
  assert (Hm : Forall is_byte ([10; 0; p0; p1; 0; 0; 0; 0] ++ default nat64_96 v6_prefix ++ [x0; x1; x2; x3; 0; 0; 0; 0] ++ drop 28 d6)).
  { assert (Hz : is_byte 0 /\ is_byte 10) by (unfold is_byte; lia). rewrite !Forall_app. split; [rewrite !Forall_cons, Forall_nil; tauto|]. split; [done|]. split; [rewrite !Forall_cons, Forall_nil; tauto|by apply Forall_drop]. }
  assert (E6 : sin6_addr ([10; 0; p0; p1; 0; 0; 0; 0] ++ default nat64_96 v6_prefix ++ [x0; x1; x2; x3; 0; 0; 0; 0] ++ drop 28 d6) = default nat64_96 v6_prefix ++ [x0; x1; x2; x3]).
  { unfold sin6_addr, off_sin6_addr. rewrite (drop_app_length' _ _ 8) by done. rewrite take_app_ge by lia. rewrite Hpl. done. }
  split; [done|]. split; [done|]. split; [exact E6|]. unfold __sk_addr_ipv4_compatible. change (sa_family _) with 10. cbn [Z.eqb AOSL_AF_INET AOSL_AF_INET6 Pos.eqb].
  rewrite v4_compatible_eq by (done || (apply sin6_addr_ok; split; [rewrite !length_app, Hpl, length_drop; cbn; lia|done])). rewrite E6, take_app_le, take_ge by lia.
  apply bool_decide_eq_true. unfold v4_prefixes. destruct v6_prefix; cbn; set_solver.
Qed.

(** C30: An IPv4 socket address is turned into the IPv6 one with the saved prefix of the thread's
    queue, or 64:ff9b::/96 when none is saved, and turning that back gives
    the family, port and address again; an IPv6 socket address is turned into an
    IPv4 one exactly when its first 96 bits are the saved prefix, ::ffff:0:0/96 or 64:ff9b::/96,
    and else the result is -1 with the destination untouched. *)
Theorem sk_addr_v4_roundtrip w this_q d6 d4 v4 : v6ok w -> is_sk 28 d6 -> is_sk 16 d4 -> is_sk 8 v4 ->
  let v6_prefix := aosl_mpq_get_ipv6_prefix this_q w in
  (exists m6 m4, ipv6_sk_addr_from_ipv4 v6_prefix d6 v4 = (0, m6) /\
     sa_family m6 = AOSL_AF_INET6 /\ sin6_addr m6 = default nat64_96 v6_prefix ++ take 4 (drop off_sin_addr v4) /\
     ipv6_sk_addr_to_ipv4 v6_prefix d4 m6 = (0, m4) /\
     sa_family m4 = AOSL_AF_INET /\ sa_port m4 = sa_port v4 /\ sin_addr m4 = sin_addr v4 /\ drop 8 m4 = repeat 0 8 ++ drop 16 d4) /\
  (forall m, is_sk 24 m -> sa_family m = AOSL_AF_INET6 -> take 12 (sin6_addr m) ∉ v4_prefixes v6_prefix -> ipv6_sk_addr_to_ipv4 v6_prefix d4 m = (-1, d4)) /\
  (forall m, is_sk 24 m -> sa_family m = AOSL_AF_INET6 -> take 12 (sin6_addr m) ∈ v4_prefixes v6_prefix -> fst (ipv6_sk_addr_to_ipv4 v6_prefix d4 m) = 0).
Proof.
  intros Hw H6 H4 [Hl Hb] v6_prefix. assert (Hp : forall p, v6_prefix = Some p -> is_prefix96 p) by (intros p; by apply get_prefix_ok).
  assert (Hc : forall m, is_sk 24 m -> sa_family m = AOSL_AF_INET6 -> __sk_addr_ipv4_compatible v6_prefix m = bool_decide (take 12 (sin6_addr m) ∈ v4_prefixes v6_prefix)).
  { intros m Hm E. unfold __sk_addr_ipv4_compatible. rewrite E. cbn [Z.eqb AOSL_AF_INET AOSL_AF_INET6 Pos.eqb]. apply v4_compatible_eq; [by apply sin6_addr_ok|done]. }
  split; [|split].
  - destruct (eight_cells v4 Hl) as (f0 & f1 & p0 & p1 & x0 & x1 & x2 & x3 & r & E). eexists _, _.
    pose proof (from_ipv4_eq v6_prefix d6 v4 f0 f1 p0 p1 x0 x1 x2 x3 r (proj1 H6) Hp E Hb) as Ef.
    destruct (converted v6_prefix d6 v4 f0 f1 p0 p1 x0 x1 x2 x3 r _ H6 Hp E Hb eq_refl) as (Hm & Efam & E6 & Ec).
    split; [exact Ef|]. split; [done|]. split; [done|]. split.
    + eapply (to_ipv4_eq v6_prefix d4 _ 10 0 p0 p1 0 0 0 0 (default nat64_96 v6_prefix) x0 x1 x2 x3 (0 :: 0 :: 0 :: 0 :: drop 28 d6)); [apply H4|reflexivity|by apply prefix_default_len|done|done].
    + subst v4. done.
  - intros m Hm E Hn. unfold ipv6_sk_addr_to_ipv4. rewrite (Hc m Hm E), bool_decide_eq_false_2 by done. done.
  - intros m Hm E Hi. unfold ipv6_sk_addr_to_ipv4. rewrite (Hc m Hm E), bool_decide_eq_true_2 by done. done.
Qed.

(** An address that is IPv4 already passes for convertible, but its address is not
    where the conversion reads: 1.2.3.4 becomes 0.0.0.0. *)
Example to_ipv4_of_ipv4 : exists m, ipv6_sk_addr_to_ipv4 None (repeat 0 28) ([2; 0; 31; 144; 1; 2; 3; 4] ++ repeat 0 20) = (0, m) /\ take 4 (drop off_sin_addr m) = [0; 0; 0; 0].
Proof. eexists. split; vm_compute; reflexivity. Qed.
(** ::1.2.3.4 is not what the code calls compatible. *)
Example v4_compatible_class : __ipv6_addr_v4_compatible None (zeros 12 ++ [1; 2; 3; 4]) = false /\ Z.land (ipv6_addr_type (zeros 12 ++ [1; 2; 3; 4])) IPV6_ADDR_COMPATv4 = IPV6_ADDR_COMPATv4.
Proof. split; vm_compute; reflexivity. Qed.

(** ** Socket addresses as text *)
Lemma swab16_bytes b0 b1 : is_byte b0 -> is_byte b1 -> aosl__swab16 (b0 + 256 * b1) = b1 + 256 * b0.
Proof.
  unfold is_byte. intros H0 H1. unfold aosl__swab16. rewrite (wrapu_id 16 (b0 + 256 * b1)) by (change (2 ^ 16) with 65536; lia).
  change 255 with (Z.ones 8) at 1. rewrite Z.land_ones by lia. change (2 ^ 8) with 256. rewrite Z.shiftr_land. change (Z.shiftr 0xff00 8) with (Z.ones 8). rewrite Z.land_ones by lia.
  rewrite Z.shiftr_div_pow2 by lia. change (2 ^ 8) with 256. rewrite (Z.mul_comm 256 b1), Z.mod_add, Z.div_add, (Z.mod_small b0), (Z.div_small b0), Z.add_0_l, (Z.mod_small b1) by lia.
  rewrite word_eq by (unfold is_byte; lia). rewrite wrapu_id by (change (2 ^ 16) with 65536; lia). lia.
Qed.
Lemma swab16_involutive x : 0 <= x < 65536 -> aosl__swab16 (aosl__swab16 x) = x.
Proof.
  intros Hx. pose proof (Z.div_mod x 256 ltac:(lia)) as E. pose proof (Z.mod_pos_bound x 256 ltac:(lia)). assert (0 <= x / 256 < 256) by (split; [apply Z.div_pos; lia|apply Z.div_lt_upper_bound; lia]).
  replace x with (x mod 256 + 256 * (x / 256)) by lia. rewrite !swab16_bytes by (unfold is_byte; lia). done.
Qed.
Lemma swab16_range x : 0 <= aosl__swab16 x < 65536.
Proof. unfold aosl__swab16. apply (wrapu_range 16). lia. Qed.

Lemma groups_colon s b : groups s b -> (4 < length b)%nat -> ch_colon ∈ s.
Proof. intros [t Ht|a [Hl _]|t s' b' Ht _] Hb; [rewrite be16_len in Hb; lia|lia|]. apply elem_of_app. right. apply elem_of_cons. by left. Qed.
Lemma denotes6_colon s a : denotes6 s a -> ch_colon ∈ s.
Proof. intros [s' a' Hg Hl|f r b1 b2 _ _ _]; [eapply groups_colon; [done|lia]|]. apply elem_of_app. right. apply elem_of_cons. by left. Qed.
Lemma group_no_colon t : is_group t -> ch_colon ∉ t.
Proof. intros [Ht _] Hc. rewrite Forall_forall in Ht. apply Ht in Hc. by apply is_hex_not_sep in Hc as [? _]. Qed.
Lemma dotted_no_colon a : is_addr4 a -> ch_colon ∉ dotted a.
Proof.
  intros (b0 & b1 & b2 & b3 & -> & H0 & H1 & H2 & H3)%is_addr4_inv. unfold dotted, dots. cbn [map concat]. apply fmt_u_hex, group_no_colon in H0, H1, H2, H3.
  rewrite !elem_of_app, !list_elem_of_singleton, elem_of_nil. unfold ch_colon, ch_dot in *. intros Hc. destruct_or! Hc; done.
Qed.
Lemma has_colon_denotes af s a mem : denotes af s a -> has_colon (s ++ 0 :: mem) = (af =? AOSL_AF_INET6).
Proof.
  intros Hd. unfold has_colon. rewrite c_string_text by (by eapply denotes_text). destruct Hd as [(-> & Ha & ->)|[-> Hd]].
  - apply bool_decide_eq_false_2. by apply dotted_no_colon.
  - apply bool_decide_eq_true_2. by eapply denotes6_colon.
Qed.

(** The bytes of the address of a socket address. *)
Definition ip_bytes (m : list Z) : list Z := if sa_family m =? AOSL_AF_INET then take 4 (drop off_sin_addr m) else sin6_addr m.
Lemma ip_bytes_addr m : is_sk 24 m -> sa_family m = AOSL_AF_INET \/ sa_family m = AOSL_AF_INET6 -> is_addr (sa_family m) (ip_bytes m).
Proof.
  intros Hm [E|E]; unfold ip_bytes; rewrite E; [left|right]; cbn [Z.eqb AOSL_AF_INET AOSL_AF_INET6 Pos.eqb]; (split; [done|]); [|by apply sin6_addr_ok].
  destruct Hm as [Hl Hb]. split; [rewrite length_take, length_drop; unfold off_sin_addr; lia|by apply Forall_take, Forall_drop].
Qed.

(** What is stored for a text. *)
Definition stored (af port : Z) (a d : list Z) : list Z :=
  if af =? AOSL_AF_INET then [2; 0] ++ le_bytes 2 (aosl_htons port) ++ a ++ repeat 0 8 ++ drop 16 d
  else [10; 0] ++ le_bytes 2 (aosl_htons port) ++ [0; 0; 0; 0] ++ a ++ [0; 0; 0; 0] ++ drop 28 d.
Lemma from_string_eq junk d af s a port mem : length junk = 4%nat -> (28 <= length d)%nat -> is_addr af a -> denotes af s a ->
  aosl_ip_sk_addr_from_string junk d (s ++ 0 :: mem) port = Ret (if af =? AOSL_AF_INET then 16 else 28, stored af port a d).
Proof.
  intros Hj Hd Ha Hs. unfold aosl_ip_sk_addr_from_string. cbn zeta. rewrite (has_colon_denotes af s a mem Hs). unfold sizeof_sockaddr_in, sizeof_sockaddr_in6. rewrite !zero_mem_eq by lia. pose proof (pton_denoted junk af s a mem Hj Hs) as E.
  destruct Ha as [[-> [Hl _]]|[-> [Hl _]]]; cbn [Z.eqb AOSL_AF_INET AOSL_AF_INET6 Pos.eqb] in *; rewrite E; unfold stored; cbn [Z.eqb AOSL_AF_INET AOSL_AF_INET6 Pos.eqb].
  - do 4 (destruct a as [|? a]; [cbn in Hl; lia|]). destruct a; [|cbn in Hl; lia]. reflexivity.
  - do 16 (destruct a as [|? a]; [cbn in Hl; lia|]). destruct a; [|cbn in Hl; lia]. reflexivity.
Qed.

Lemma stored_fields af port a d : is_addr af a -> 0 <= port < 65536 ->
  sa_family (stored af port a d) = af /\ ip_bytes (stored af port a d) = a /\ aosl_ip_sk_addr_port (stored af port a d) = port.
Proof.
  intros Ha Hp. assert (Eq : rd 2 0 (le_bytes 2 (aosl_htons port)) = aosl_htons port) by (apply (le_of_bytes 2); apply swab16_range).
  assert (En : aosl_ntohs (aosl_htons port) = port) by (by apply swab16_involutive).
  destruct Ha as [[-> [Hl _]]|[-> [Hl _]]].
  - do 4 (destruct a as [|? a]; [cbn in Hl; lia|]). destruct a; [|cbn in Hl; lia]. split; [done|]. split; [done|]. exact (eq_trans (f_equal aosl_ntohs Eq) En).
  - do 16 (destruct a as [|? a]; [cbn in Hl; lia|]). destruct a; [|cbn in Hl; lia]. split; [done|]. split; [done|]. exact (eq_trans (f_equal aosl_ntohs Eq) En).
Qed.

Lemma ip_equal_bytes m m' : sa_family m = AOSL_AF_INET \/ sa_family m = AOSL_AF_INET6 -> sa_family m' = sa_family m -> ip_bytes m' = ip_bytes m -> aosl_sk_addr_ip_equal m m' = true.
Proof.
  intros Hf Ef Eb. unfold aosl_sk_addr_ip_equal. rewrite Ef, Z.eqb_refl. cbn [negb]. unfold ip_bytes in Eb. rewrite Ef in Eb. destruct Hf as [E|E]; rewrite E in *; cbn [Z.eqb AOSL_AF_INET AOSL_AF_INET6 Pos.eqb] in *.
  - apply Z.eqb_eq. unfold sin_addr, rd. by rewrite Eb.
  - by apply bool_decide_eq_true_2.
Qed.

(** The text that [aosl_ip_sk_addr_str] prints of a socket address into a buffer of
    [AOSL_INET6_ADDRSTRLEN] bytes, read with a port by [aosl_ip_sk_addr_from_string],
    gives a socket address of the same family with an equal address and that port; the
    length returned is that of the family's structure. *)
Theorem sk_addr_text_roundtrip junk unknown m d port : length junk = 4%nat -> is_sk 28 m -> is_sk 28 d ->
  sa_family m = AOSL_AF_INET \/ sa_family m = AOSL_AF_INET6 -> 0 <= port < 65536 ->
  exists s m', aosl_ip_sk_addr_str unknown m AOSL_INET6_ADDRSTRLEN = Ret (Some s) /\
    (forall mem, aosl_ip_sk_addr_from_string junk d (s ++ 0 :: mem) port = Ret (if sa_family m =? AOSL_AF_INET then 16 else 28, m')) /\
    sa_family m' = sa_family m /\ aosl_sk_addr_ip_equal m m' = true /\ aosl_ip_sk_addr_port m' = port.
Proof.
  intros Hj Hm Hd Hf Hp. assert (Ha : is_addr (sa_family m) (ip_bytes m)) by (apply ip_bytes_addr; [|done]; destruct Hm; split; [lia|done]).
  destruct (ntop_denotes _ _ Ha) as (s & Hs & Hl & E). exists s, (stored (sa_family m) port (ip_bytes m) d).
  destruct (stored_fields _ port _ d Ha Hp) as (E1 & E2 & E3). split; [|split; [|split; [done|split; [by apply ip_equal_bytes|done]]]].
  - unfold aosl_ip_sk_addr_str, aosl_inet_addr_str. fold (ip_bytes m).
    assert ((sa_family m =? AOSL_AF_INET) || (sa_family m =? AOSL_AF_INET6) = true) as -> by (apply orb_true_iff; rewrite !Z.eqb_eq; done).
    change (s32 AOSL_INET6_ADDRSTRLEN) with 46. rewrite E, Z.gtb_ltb, (proj2 (Z.ltb_ge _ _)) by lia. done.
  - intros mem. apply from_string_eq; [done|apply Hd|done|done].
Qed.

(** ** At concrete addresses *)
Definition demo_v4 : list Z := [2; 0; 31; 144; 10; 1; 2; 3; 0; 0; 0; 0; 0; 0; 0; 0].
Definition demo_v6world : v6world := MkV6 {[ 7 := [32; 1; 13; 184; 0; 0; 0; 0; 0; 0; 0; 1] ]} 0.

Lemma sk_addr_v4_roundtrip_witness : let v6_prefix := aosl_mpq_get_ipv6_prefix 7 demo_v6world in
  (exists m6 m4, ipv6_sk_addr_from_ipv4 v6_prefix (repeat 1 28) demo_v4 = (0, m6) /\
     sa_family m6 = AOSL_AF_INET6 /\ sin6_addr m6 = default nat64_96 v6_prefix ++ take 4 (drop off_sin_addr demo_v4) /\
     ipv6_sk_addr_to_ipv4 v6_prefix (repeat 1 28) m6 = (0, m4) /\
     sa_family m4 = AOSL_AF_INET /\ sa_port m4 = sa_port demo_v4 /\ sin_addr m4 = sin_addr demo_v4 /\ drop 8 m4 = repeat 0 8 ++ drop 16 (repeat 1 28)) /\
  (forall m, is_sk 24 m -> sa_family m = AOSL_AF_INET6 -> take 12 (sin6_addr m) ∉ v4_prefixes v6_prefix -> ipv6_sk_addr_to_ipv4 v6_prefix (repeat 1 28) m = (-1, repeat 1 28)) /\
  (forall m, is_sk 24 m -> sa_family m = AOSL_AF_INET6 -> take 12 (sin6_addr m) ∈ v4_prefixes v6_prefix -> fst (ipv6_sk_addr_to_ipv4 v6_prefix (repeat 1 28) m) = 0).
Proof.
  apply (sk_addr_v4_roundtrip demo_v6world 7 (repeat 1 28) (repeat 1 28) demo_v4).
  - apply map_Forall_singleton. split; [reflexivity|bytes_ok].
  - split; [cbn; lia|bytes_ok].
  - split; [cbn; lia|bytes_ok].
  - split; [cbn; lia|bytes_ok].
Defined.

Lemma sk_addr_text_roundtrip_witness : exists s m', aosl_ip_sk_addr_str (fun _ _ => []) (demo_v4 ++ repeat 0 12) AOSL_INET6_ADDRSTRLEN = Ret (Some s) /\
    (forall mem, aosl_ip_sk_addr_from_string stack_junk (repeat 1 28) (s ++ 0 :: mem) 8080 = Ret (if sa_family (demo_v4 ++ repeat 0 12) =? AOSL_AF_INET then 16 else 28, m')) /\
    sa_family m' = sa_family (demo_v4 ++ repeat 0 12) /\ aosl_sk_addr_ip_equal (demo_v4 ++ repeat 0 12) m' = true /\ aosl_ip_sk_addr_port m' = 8080.
Proof.
  apply (sk_addr_text_roundtrip stack_junk (fun _ _ => []) (demo_v4 ++ repeat 0 12) (repeat 1 28) 8080); [reflexivity|split; [cbn; lia|bytes_ok]|split; [cbn; lia|bytes_ok]|left; reflexivity|lia].
Defined.
