(* ===== verification/SkUtils.v ===== *)
(** * Sockets: [net/sk_utils.c]

    Sockets are watched descriptors whose functions are the library's own: they
    receive, send, accept and connect through the platform, which is the interface
    [SkEnv].  A call to another queue gives it a vector of machine words, from
    which the queue's thread takes its arguments. *)
From S2P Require Import Prelude.
From S2P Require Import Refs.
From S2P Require Import Iofd.
From S2P Require Import Inet.
From S2P Require Import Ipv6.
Local Open Scope aosl_scope.

Definition IOFD_SOCK_LISTEN : Z := 512.
Definition AOSL_HAL_RET_EHAL : Z := -2000.
Definition MSG_DONTWAIT : Z := 0.
Definition MPQ_ARGC_MAX : Z := 64.
Definition sizeof_int : nat := 4.
Definition sizeof_sk_addr : nat := 28.
Definition sizeof_recvfrom_args : nat := sizeof_sk_addr.
Definition sizeof_sendto_args : nat := sizeof_int + sizeof_sk_addr.
Definition sizeof_accept_data : Z := 32.

(** The platform: results are a count or a negative number; a send takes at most
    what it is given, a receive gives at most what there is room for. *)
Class SkEnv := {
  sk_recv : ioworld -> Z -> Z -> Z -> Z + list Z;
  sk_recvfrom : ioworld -> Z -> Z -> Z -> Z + list Z * list Z;
  sk_send : ioworld -> Z -> list Z -> Z -> Z;
  sk_sendto : ioworld -> Z -> list Z -> Z -> list Z -> Z;
  sk_accept : ioworld -> Z -> Z * list Z;
  sk_connect : ioworld -> Z -> list Z -> Z;
  sk_listen : ioworld -> Z -> Z -> Z;
  sk_bind : ioworld -> Z -> list Z -> Z;
  sk_bind_device : ioworld -> Z -> list Z -> Z;
  sk_set_dscp : ioworld -> Z -> Z -> Z -> Z;
  sk_get_sockname : ioworld -> Z -> Z * list Z;
  sk_get_local_ip : ioworld -> Z * list Z;
  sk_recv_err : forall w fd n flags e, sk_recv w fd n flags = inl e -> e < 0;
  sk_recv_len : forall w fd n flags bs, sk_recv w fd n flags = inr bs -> Z.of_nat (length bs) <= n;
  sk_recvfrom_err : forall w fd n flags e, sk_recvfrom w fd n flags = inl e -> e < 0;
  sk_recvfrom_len : forall w fd n flags bs a, sk_recvfrom w fd n flags = inr (bs, a) -> Z.of_nat (length bs) <= n;
  sk_send_len : forall w fd bs flags, sk_send w fd bs flags <= Z.of_nat (length bs);
  sk_sendto_len : forall w fd bs flags a, sk_sendto w fd bs flags a <= Z.of_nat (length bs)
}.

Section SkUtils.
Context `{IoEnv, SkEnv}.

(** ** The functions of a socket

    [extra] are the bytes after the data: of a buffer that is written, its flags and
    address; of the read buffer, the address that is filled in.  The result is an
    error, or what was received with the extra bytes. *)

Definition __default_recv (fd len : Z) : CM ioworld (Z + list Z) :=
  do r <- ask (fun w => sk_recv w fd len MSG_DONTWAIT);
  match r with
  | inl err => do e <- aosl_hal_set_error err; cret (inl e)
  | inr bs => cret (inr bs)
  end.
Definition __default_recvfrom (fd len : Z) (extra : list Z) : CM ioworld (Z + list Z * list Z) :=
  if (sizeof_recvfrom_args <=? length extra)%nat then
    do r <- ask (fun w => sk_recvfrom w fd len MSG_DONTWAIT);
    match r with
    | inl err => do e <- aosl_hal_set_error err; cret (inl e)
    | inr (bs, addr) => cret (inr (bs, put_at 0 addr extra))
    end
  else
    do r <- ask (fun w => sk_recv w fd len MSG_DONTWAIT);
    match r with
    | inl err => do e <- aosl_hal_set_error err; cret (inl e)
    | inr bs => cret (inr (bs, extra))
    end.
Definition __default_accept (fd : Z) : CM ioworld (Z + Z * list Z) :=
  do '(newsk, addr) <- ask (fun w => sk_accept w fd);
  if aosl_fd_invalid newsk then do e <- aosl_hal_set_error AOSL_HAL_RET_EHAL; cret (inl e) else cret (inr (newsk, addr)).

(** [flags |= *(int * )extra] *)
Definition extra_flags (extra : list Z) : Z :=
  if (sizeof_int <=? length extra)%nat then Z.lor MSG_DONTWAIT (s32 (rd 4 0 extra)) else MSG_DONTWAIT.
Definition __default_send (fd : Z) (bs extra : list Z) : CM ioworld Z :=
  do err <- ask (fun w => sk_send w fd bs (extra_flags extra));
  if err <? 0 then aosl_hal_set_error err else cret err.
Definition __default_sendto (fd : Z) (bs extra : list Z) : CM ioworld Z :=
  let flags := extra_flags extra in
  do err <- (if (sizeof_sendto_args <=? length extra)%nat
             then ask (fun w => sk_sendto w fd bs flags (take sizeof_sk_addr (drop sizeof_int extra)))
             else ask (fun w => sk_send w fd bs flags));
  if err <? 0 then aosl_hal_set_error err else cret err.

(** ** Sending *)

Definition ____send (f : Z) (bs : list Z) (flags : Z) : CM ioworld Z :=
  let len := Z.of_nat (length bs) in
  let extra := le_bytes 4 flags in
  if FD_MAX_WBUF_SIZE <? len then cret (- AOSL_EMSGSIZE) else
  do o <- get_f f;
  if w_queue_space o <? len then cret (- AOSL_EAGAIN) else
  if negb (bool_decide (f_wq o = [])) || has_flag (f_flags o) IOFD_NOT_READY then queue_it f extra bs len else
  do err <- ask (fun w => sk_send w (f_fd o) bs flags);
  modw (io_note (EvWrite (f_fd o) (take (Z.to_nat err) bs))) ;;
  if err <=? 0 then aosl_hal_set_error err else
  if err <? len then queue_it f extra (drop (Z.to_nat err) bs) len else cret len.

Definition ____sendto (f : Z) (bs : list Z) (flags : Z) (dest_addr : list Z) : CM ioworld Z :=
  let len := Z.of_nat (length bs) in
  let extra := le_bytes 4 flags ++ take sizeof_sk_addr dest_addr in
  if FD_MAX_WBUF_SIZE <? len then cret (- AOSL_EMSGSIZE) else
  do o <- get_f f;
  if w_queue_space o <? len then cret (- AOSL_EAGAIN) else
  if negb (bool_decide (f_wq o = [])) || has_flag (f_flags o) IOFD_NOT_READY then queue_it f extra bs len else
  do err <- ask (fun w => sk_sendto w (f_fd o) bs flags dest_addr);
  modw (io_note (EvWrite (f_fd o) (take (Z.to_nat err) bs))) ;;
  if err <=? 0 then aosl_hal_set_error err else
  if err <? len then queue_it f extra (drop (Z.to_nat err) bs) len else cret len.

(** Found by its number, sent by its queue; [on_q] gives [aosl_errno] itself when
    the call fails, as the code does. *)
Definition aosl_send (this_q fd : Z) (bs : list Z) (flags : Z) : CM ioworld Z :=
  do f <- fget fd;
  do err <- (if f =? 0 then cret (- AOSL_EINVAL) else
             do o <- get_f f;
             do err <- on_q this_q (c_q (f_conf o)) (____send f bs flags);
             fput f ;;
             cret err);
  return_err err.
Definition aosl_sendto (this_q fd : Z) (bs : list Z) (flags : Z) (dest_addr : list Z) : CM ioworld Z :=
  do f <- fget fd;
  do err <- (if f =? 0 then cret (- AOSL_EINVAL) else
             do o <- get_f f;
             do err <- on_q this_q (c_q (f_conf o)) (____sendto f bs flags dest_addr);
             fput f ;;
             cret err);
  return_err err.

(** ** Adding sockets

    What an application says of a socket: its functions that are there, and whether
    the queue takes no descriptors ([AOSL_MPQ_FLAG_SIGP_EVENT]). *)
Record sk_args := MkSk {
  k_fd : Z;
  k_timeo : Z;
  k_max : Z;
  k_chk : bool;
  k_data : bool;
  k_event : bool;
  k_sigp : bool
}.

Definition __do_connect (fuel : nat) (q sockfd : Z) (dest_addr : list Z) : CM ioworld Z :=
  do err <- ask (fun w => sk_connect w sockfd dest_addr);
  if err <? 0 then
    if err =? AOSL_HAL_RET_EINPROGRESS then cret 0 else aosl_hal_set_error err
  else
  do f <- fget sockfd;
  (when negb (f =? 0) then (do _ <- __iofd_write_data fuel q f; fput f)) ;;
  cret 0.

Definition __this_q_connect_argv (fuel : nat) (q : Z) (k : sk_args) (dest_addr argv : list Z) : CM ioworld Z :=
  do err <- __mpq_add_fd_argv (MkAdd (k_fd k) (k_timeo k) IOFD_NOT_READY
              (MkConf q (k_max k) 0 true true (k_chk k) false (k_event k) false argv) (k_data k) (k_sigp k));
  if err <? 0 then cret err else
  do err <- __do_connect fuel q (k_fd k) dest_addr;
  if err <? 0 then do _ <- __mpq_del_fd q (k_fd k); cret err else
  cret 0.
Definition __this_q_listen_argv (q : Z) (k : sk_args) (backlog : Z) (argv : list Z) : CM ioworld Z :=
  do err <- ask (fun w => sk_listen w (k_fd k) backlog);
  if err <? 0 then aosl_hal_set_error err else
  __mpq_add_fd_argv (MkAdd (k_fd k) (-1) IOFD_SOCK_LISTEN
    (MkConf q sizeof_accept_data 0 true false false false (k_event k) false argv) (k_data k) (k_sigp k)).
Definition __this_q_add_dgram_sk_argv (q : Z) (k : sk_args) (argv : list Z) : CM ioworld Z :=
  __mpq_add_fd_argv (MkAdd (k_fd k) (-1) 0
    (MkConf q (k_max k) (Z.of_nat sizeof_recvfrom_args) true true false false (k_event k) false argv) (k_data k) (k_sigp k)).
Definition __this_q_add_stream_sk_argv (q : Z) (k : sk_args) (argv : list Z) : CM ioworld Z :=
  __mpq_add_fd_argv (MkAdd (k_fd k) (-1) 0
    (MkConf q (k_max k) 0 true true (k_chk k) false (k_event k) false argv) (k_data k) (k_sigp k)).

(** On the caller's own queue; [this_q] is 0 when there is none and none can be
    made.  The variable arguments are [args]. *)
Definition on_this_q (this_q : Z) (args : list Z) (g : CM ioworld Z) : CM ioworld Z :=
  if MPQ_ARGC_MAX <? Z.of_nat (length args) then cret (- AOSL_E2BIG) else
  if this_q =? 0 then cret (- AOSL_EINVAL) else g.
Definition aosl_mpq_connect (fuel : nat) (this_q : Z) (k : sk_args) (dest_addr args : list Z) : CM ioworld Z :=
  do err <- on_this_q this_q args (__this_q_connect_argv fuel this_q k dest_addr args); return_err err.
Definition aosl_mpq_listen (this_q : Z) (k : sk_args) (backlog : Z) (args : list Z) : CM ioworld Z :=
  do err <- on_this_q this_q args (__this_q_listen_argv this_q k backlog args); return_err err.
Definition aosl_mpq_add_dgram_socket (this_q : Z) (k : sk_args) (args : list Z) : CM ioworld Z :=
  do err <- on_this_q this_q args (__this_q_add_dgram_sk_argv this_q k args); return_err err.
Definition aosl_mpq_add_stream_socket (this_q : Z) (k : sk_args) (args : list Z) : CM ioworld Z :=
  do err <- on_this_q this_q args (__this_q_add_stream_sk_argv this_q k args); return_err err.

(** ** On another queue

    [call_words q g n argv]: [__mpq_call_argv] with the first [n] of the words
    [argv]; the queue's thread runs [g] on a copy of them.  A failure is returned as
    the negative of [aosl_errno]. *)
Definition call_words (q : Z) (args : list Z) (g : Z -> list Z -> CM ioworld Z) (n : Z) (argv : list Z) : CM ioworld Z :=
  if MPQ_ARGC_MAX <? Z.of_nat (length args) then cret (- AOSL_E2BIG) else
  do r <- ask (fun w => env_iocall w q);
  match r with
  | CallNoQueue => cret (- AOSL_EINVAL)
  | CallFails e => modw (set_ioerr e) ;; cret (- e)
  | CallDone => g n (take (Z.to_nat n) argv)
  end.

(** A word of the vector: reading after its end is [Fault]. *)
Definition word (argv : list Z) (i : nat) : CM ioworld Z := match argv !! i with Some x => cret x | None => cfault end.
(** [argc - m, &argv [m]]: the words that are passed on as the user's arguments; the
    difference is unsigned. *)
Definition user_args (argc : Z) (argv : list Z) (m : nat) : CM ioworld (list Z) :=
  let n := u64 (argc - Z.of_nat m) in
  if n <=? Z.of_nat (length (drop m argv)) then cret (take (Z.to_nat n) (drop m argv)) else cfault.
Definition bool_of (x : Z) : bool := negb (x =? 0).
Definition of_bool (b : bool) : Z := Z.b2z b.

(** The memory of the caller that the words point to, the destination address, is an
    argument. *)
Definition ____target_q_connect (fuel : nat) (q : Z) (sigp : bool) (dest_addr : list Z) (argc : Z) (argv : list Z) : CM ioworld Z :=
  do fd <- word argv 1;
  do timeo <- word argv 3;
  do max_pkt_size <- word argv 4;
  do chk <- word argv 5;
  do data <- word argv 6;
  do event <- word argv 7;
  do args <- user_args argc argv 9;
  __this_q_connect_argv fuel q (MkSk (s32 fd) (s32 timeo) max_pkt_size (bool_of chk) (bool_of data) (bool_of event) sigp) dest_addr args.
(** [junk] is the word that is not set. *)
Definition __mpq_connect_on_q_args (fuel : nat) (q : Z) (k : sk_args) (err_p dest_p junk : Z) (dest_addr args : list Z) : CM ioworld Z :=
  call_words q args (____target_q_connect fuel q (k_sigp k) dest_addr) (8 + Z.of_nat (length args))
    ([err_p; u64 (k_fd k); dest_p; u64 (k_timeo k); u64 (k_max k); of_bool (k_chk k); of_bool (k_data k); of_bool (k_event k); junk] ++ args).
Definition aosl_mpq_connect_on_q (fuel : nat) (q : Z) (k : sk_args) (err_p dest_p junk : Z) (dest_addr args : list Z) : CM ioworld Z :=
  do err <- __mpq_connect_on_q_args fuel q k err_p dest_p junk dest_addr args; return_err err.

Definition ____target_q_listen (q : Z) (sigp : bool) (argc : Z) (argv : list Z) : CM ioworld Z :=
  do fd <- word argv 1;
  do backlog <- word argv 2;
  do accepted <- word argv 3;
  do event <- word argv 4;
  do args <- user_args argc argv 5;
  __this_q_listen_argv q (MkSk (s32 fd) 0 0 false (bool_of accepted) (bool_of event) sigp) (s32 backlog) args.
Definition aosl_mpq_listen_on_q (q : Z) (k : sk_args) (err_p backlog : Z) (args : list Z) : CM ioworld Z :=
  do err <- call_words q args (____target_q_listen q (k_sigp k)) (5 + Z.of_nat (length args))
    ([err_p; u64 (k_fd k); u64 backlog; of_bool (k_data k); of_bool (k_event k)] ++ args);
  return_err err.

Definition ____target_q_add_dgram_sk (q : Z) (sigp : bool) (argc : Z) (argv : list Z) : CM ioworld Z :=
  do fd <- word argv 1;
  do max_pkt_size <- word argv 2;
  do data <- word argv 3;
  do event <- word argv 4;
  do args <- user_args argc argv 5;
  __this_q_add_dgram_sk_argv q (MkSk (s32 fd) (-1) max_pkt_size false (bool_of data) (bool_of event) sigp) args.
Definition aosl_mpq_add_dgram_socket_on_q (q : Z) (k : sk_args) (err_p : Z) (args : list Z) : CM ioworld Z :=
  do err <- call_words q args (____target_q_add_dgram_sk q (k_sigp k)) (5 + Z.of_nat (length args))
    ([err_p; u64 (k_fd k); u64 (k_max k); of_bool (k_data k); of_bool (k_event k)] ++ args);
  return_err err.

Definition ____target_q_add_stream_sk (q : Z) (sigp : bool) (argc : Z) (argv : list Z) : CM ioworld Z :=
  do fd <- word argv 1;
  do max_pkt_size <- word argv 2;
  do chk <- word argv 3;
  do data <- word argv 4;
  do event <- word argv 5;
  do args <- user_args argc argv 6;
  __this_q_add_stream_sk_argv q (MkSk (s32 fd) (-1) max_pkt_size (bool_of chk) (bool_of data) (bool_of event) sigp) args.
Definition aosl_mpq_add_stream_socket_on_q (q : Z) (k : sk_args) (err_p : Z) (args : list Z) : CM ioworld Z :=
  do err <- call_words q args (____target_q_add_stream_sk q (k_sigp k)) (6 + Z.of_nat (length args))
    ([err_p; u64 (k_fd k); u64 (k_max k); of_bool (k_chk k); of_bool (k_data k); of_bool (k_event k)] ++ args);
  return_err err.

(** ** Binding *)
Definition aosl_bind_port_only (junk : list Z) (sk af port : Z) : CM ioworld Z :=
  let bind m :=
    do err <- ask (fun w => sk_bind w sk (wr 2 off_family af m));
    if err <? 0 then aosl_hal_set_error err else cret 0 in
  if af =? AOSL_AF_INET then bind (wr 2 off_port (aosl_htons port) (wr 4 off_sin_addr 0 junk))
  else if af =? AOSL_AF_INET6 then bind (wr 2 off_port (aosl_htons port) (zero_mem sizeof_sockaddr_in6 junk))
  else modw (set_ioerr AOSL_EINVAL) ;; cret (-1).

(** [if_name] is the text before its zero, or [None] for NULL. *)
Definition aosl_bind_device (sockfd : Z) (if_name : option (list Z)) : CM ioworld Z :=
  match if_name with
  | None | Some [] => modw (set_ioerr AOSL_EINVAL) ;; cret (-1)
  | Some name =>
    do err <- ask (fun w => sk_bind_device w sockfd name);
    if err <? 0 then aosl_hal_set_error err else cret 0
  end.
Definition aosl_set_socket_dscp (sockfd af dscp : Z) : CM ioworld Z :=
  if negb (af =? AOSL_AF_INET) && negb (af =? AOSL_AF_INET6) then modw (set_ioerr AOSL_EINVAL) ;; cret (-1) else
  if (dscp <? 0) || (63 <? dscp) then modw (set_ioerr AOSL_EINVAL) ;; cret (-1) else
  do err <- ask (fun w => sk_set_dscp w sockfd af (u8 dscp));
  if err <? 0 then aosl_hal_set_error err else cret 0.
(** The port of the socket and the address of the interface; [addr] is the memory for
    them, which the platform may have written to also on an error. *)
Definition aosl_get_sockaddr (sockfd : Z) (addr : list Z) : CM ioworld (Z * list Z) :=
  do '(err, sock_addr) <- ask (fun w => sk_get_sockname w sockfd);
  if err <? 0 then cret (-1, addr) else
  do '(err, addr) <- ask sk_get_local_ip;
  if negb (err =? 0) then cret (-1, addr) else
  if negb (sa_family addr =? sa_family sock_addr) then cret (-1, addr) else
  cret (0, wr 2 off_port (rd 2 off_port sock_addr) addr).

(** The number of sockets of a pair that were bound. *)
Definition bind_one (fd : Z) (addr : list Z) : CM ioworld Z :=
  if negb (aosl_fd_invalid fd) && negb (sa_family addr =? 0) then
    do err <- ask (fun w => sk_bind w fd addr);
    if err =? 0 then cret 1 else do _ <- aosl_hal_set_error err; cret 0
  else cret 0.
Definition aosl_ip_sk_bind (sk : aosl_ip_sk) (addr_v4 addr_v6 : list Z) : CM ioworld Z :=
  do b4 <- bind_one (sk_v4 sk) addr_v4;
  do b6 <- bind_one (sk_v6 sk) addr_v6;
  cret (if b4 + b6 >? 0 then b4 + b6 else -1).

(** ** Pairs of sockets *)
Definition aosl_mpq_ip_sk_connect (fuel : nat) (this_q : Z) (v6_prefix : option (list Z)) (sk : aosl_ip_sk) (k : sk_args) (addr dest_addr args : list Z) : CM ioworld Z :=
  match ip_sk_target v6_prefix sk addr dest_addr with
  | Some (fd, dest_addr) =>
    aosl_mpq_connect fuel this_q (MkSk fd (k_timeo k) (k_max k) (k_chk k) (k_data k) (k_event k) (k_sigp k)) dest_addr args
  | None => return_err (- AOSL_EINVAL)
  end.
Definition aosl_mpq_ip_sk_connect_on_q (fuel : nat) (q : Z) (v6_prefix : option (list Z)) (sk : aosl_ip_sk) (k : sk_args) (err_p dest_p junk : Z) (addr dest_addr args : list Z) : CM ioworld Z :=
  match ip_sk_target v6_prefix sk addr dest_addr with
  | Some (fd, dest_addr) =>
    aosl_mpq_connect_on_q fuel q (MkSk fd (k_timeo k) (k_max k) (k_chk k) (k_data k) (k_event k) (k_sigp k)) err_p dest_p junk dest_addr args
  | None => return_err (- AOSL_EINVAL)
  end.
Definition aosl_ip_sk_sendto (this_q : Z) (v6_prefix : option (list Z)) (sk : aosl_ip_sk) (bs : list Z) (flags : Z) (addr dest_addr : list Z) : CM ioworld Z :=
  match ip_sk_target v6_prefix sk addr dest_addr with
  | Some (fd, dest_addr) => aosl_sendto this_q fd bs flags dest_addr
  | None => modw (set_ioerr AOSL_EINVAL) ;; cret (-1)
  end.
Definition aosl_ip_sk_close (this_q : Z) (sk : aosl_ip_sk) : CM ioworld aosl_ip_sk :=
  do v4 <- (if negb (aosl_fd_invalid (sk_v4 sk)) then do _ <- __iofd_close this_q (sk_v4 sk); cret AOSL_INVALID_FD else cret (sk_v4 sk));
  do v6 <- (if negb (aosl_fd_invalid (sk_v6 sk)) then do _ <- __iofd_close this_q (sk_v6 sk); cret AOSL_INVALID_FD else cret (sk_v6 sk));
  cret (MkIpSk v4 v6).

End SkUtils.
