(* ===== verification/SkProps.v ===== *)
(** * Sockets: the theorems

    The words of calls to another queue; sending, and what is queued; the functions of
    a socket; listening; every sequence of operations keeps the invariant of the
    descriptors. *)
From S2P Require Import Prelude.
From S2P Require Import Refs.
From S2P Require Import Iofd.
From S2P Require Import IofdInv.
From S2P Require Import IofdKeep.
From S2P Require Import IofdRead.
From S2P Require Import IofdStream.
From S2P Require Import IofdLife.
From S2P Require Import IofdProps.
From S2P Require Import IoPoll.
From S2P Require Import IoPollInv.
From S2P Require Import IoPollProps.
From S2P Require Import Inet.
From S2P Require Import Ipv6.
From S2P Require Import Ipv6Bits.
From S2P Require Import SkUtils.
Local Open Scope aosl_scope.

(** ** The words of a call *)
Definition is_int (x : Z) : Prop := - 2 ^ 31 <= x < 2 ^ 31.
Lemma int_word x : is_int x -> s32 (u64 x) = x.
Proof.
  unfold is_int. intros Hx. rewrite <-(wraps_id 32 x) at 2 by (cbn; lia). unfold wraps, wrapu. f_equal.
  rewrite <-(Z.add_mod_idemp_l (x mod 2 ^ 64)) by lia. rewrite <-(Z.add_mod_idemp_l x) by lia. do 2 f_equal. apply Z.mod_mod_divide. by exists (2 ^ 32).
Qed.
Lemma bool_word b : bool_of (of_bool b) = b.
Proof. by destruct b. Qed.

Section Args.
Context `{IoEnv, SkEnv} (q : Z) (w : ioworld).

(** The user's arguments after [m] words, all of them. *)
Lemma user_args_all pre args (k : list Z -> CM ioworld Z) w0 : (length args <= 64)%nat -> (length pre <= 9)%nat ->
  cbind (user_args (Z.of_nat (length pre) + Z.of_nat (length args)) (pre ++ args) (length pre)) k w0 = k args w0.
Proof.
  intros Ha Hp. unfold user_args. replace (Z.of_nat (length pre) + Z.of_nat (length args) - Z.of_nat (length pre)) with (Z.of_nat (length args)) by lia.
  rewrite drop_app_length. rewrite wrapu_id by (change (2 ^ 64) with 18446744073709551616; lia). rewrite (proj2 (Z.leb_le _ _)) by lia. run. by rewrite Nat2Z.id, firstn_all.
Qed.

Lemma call_words_done args g n argv : env_iocall w q = CallDone -> (length args <= 64)%nat -> call_words q args g n argv w = g n (take (Z.to_nat n) argv) (io_next w).
Proof. intros Ec Hl. unfold call_words, MPQ_ARGC_MAX. rewrite (proj2 (Z.ltb_ge _ _)) by lia. unfold ask, modw. run. by rewrite Ec. Qed.

Lemma cbind_eq {A B} (m : CM ioworld A) (k : A -> CM ioworld B) m' (w1 w2 : ioworld) : m w1 = m' w2 -> cbind m k w1 = cbind m' k w2.
Proof. unfold cbind. by intros ->. Qed.

(** A socket that is added or made to listen on another queue gets exactly the arguments
    that it would get on the queue itself, except when it is connected: then the
    last of the user's arguments is lost, and when there are none the queue's thread reads
    past the end of the words it was given. *)
Theorem sk_on_q_arguments fuel k err_p dest_p junk dest backlog args :
  env_iocall w q = CallDone -> (length args <= 64)%nat -> is_int (k_fd k) -> is_int (k_timeo k) -> is_int backlog -> 0 <= k_max k < 2 ^ 64 ->
  aosl_mpq_listen_on_q q k err_p backlog args w = (do err <- __this_q_listen_argv q k backlog args; return_err err) (io_next w) /\
  aosl_mpq_add_dgram_socket_on_q q k err_p args w = (do err <- __this_q_add_dgram_sk_argv q k args; return_err err) (io_next w) /\
  aosl_mpq_add_stream_socket_on_q q k err_p args w = (do err <- __this_q_add_stream_sk_argv q k args; return_err err) (io_next w) /\
  aosl_mpq_connect_on_q fuel q k err_p dest_p junk dest args w =
    match args with
    | [] => Fault
    | _ => (do err <- __this_q_connect_argv fuel q k dest (removelast args); return_err err) (io_next w)
    end.
Proof.
  intros Ec Hl Hfd Ht Hb Hm. assert (Em : u64 (k_max k) = k_max k) by (by apply wrapu_id).
  assert (Htake : forall pre : list Z, take (Z.to_nat (Z.of_nat (length pre) + Z.of_nat (length args))) (pre ++ args) = pre ++ args) by (intros pre; apply take_ge; rewrite length_app; lia).
  split; [|split; [|split]].
  - apply cbind_eq. rewrite call_words_done by done. set (pre := [err_p; _; _; _; _]). change 5 with (Z.of_nat (length pre)). rewrite Htake. unfold ____target_q_listen, word. run. cbn [pre app lookup list_lookup]. run.
    change 5%nat with (length pre). etrans; [exact (user_args_all pre args _ _ Hl ltac:(cbn; lia))|]. rewrite !int_word, !bool_word by done. done.
  - apply cbind_eq. rewrite call_words_done by done. set (pre := [err_p; _; _; _; _]). change 5 with (Z.of_nat (length pre)). rewrite Htake. unfold ____target_q_add_dgram_sk, word. run. cbn [pre app lookup list_lookup]. run.
    change 5%nat with (length pre). etrans; [exact (user_args_all pre args _ _ Hl ltac:(cbn; lia))|]. rewrite int_word, !bool_word, Em by done. done.
  - apply cbind_eq. rewrite call_words_done by done. set (pre := [err_p; _; _; _; _; _]). change 6 with (Z.of_nat (length pre)). rewrite Htake. unfold ____target_q_add_stream_sk, word. run. cbn [pre app lookup list_lookup]. run.
    change 6%nat with (length pre). etrans; [exact (user_args_all pre args _ _ Hl ltac:(cbn; lia))|]. rewrite int_word, !bool_word, Em by done. done.
  - unfold aosl_mpq_connect_on_q, __mpq_connect_on_q_args. destruct (decide (args = [])) as [->|Hne].
    + unfold cbind at 1. rewrite call_words_done by done. reflexivity.
    + replace (match args with [] => Fault | _ => (do err <- __this_q_connect_argv fuel q k dest (removelast args); return_err err) (io_next w) end)
        with ((do err <- __this_q_connect_argv fuel q k dest (removelast args); return_err err) (io_next w)) by (by destruct args).
      apply cbind_eq. rewrite call_words_done by done. set (pre := [err_p; u64 (k_fd k); dest_p; u64 (k_timeo k); u64 (k_max k); of_bool (k_chk k); of_bool (k_data k); of_bool (k_event k); junk]).
      pose proof (app_removelast_last 0 Hne) as Ea. assert (El : (length args = length (removelast args) + 1)%nat) by (rewrite Ea at 1; rewrite length_app; done).
      assert (Et : take (Z.to_nat (8 + Z.of_nat (length args))) (pre ++ args) = pre ++ removelast args).
      { rewrite Ea at 2. rewrite app_assoc. rewrite take_app_le, take_ge; [done|..]; rewrite length_app; cbn [length pre]; lia. }
      rewrite Et. replace (8 + Z.of_nat (length args)) with (Z.of_nat (length pre) + Z.of_nat (length (removelast args))) by (cbn [length pre]; lia).
      unfold ____target_q_connect, word. run. cbn [pre app lookup list_lookup]. run. change 9%nat with (length pre).
      etrans; [exact (user_args_all pre (removelast args) _ _ ltac:(lia) ltac:(cbn; lia))|]. rewrite !int_word, !bool_word, Em by done. by destruct k.
Qed.
End Args.

(** ** Sending *)

Section Sending.
Context `{IoEnv, SkEnv}.

(** The part that [____send] and [____sendto] share: [g] sends, [extra] is what is queued
    with the bytes. *)
Definition send_with (g : ioworld -> iofd -> Z) (extra : list Z) (f : Z) (bs : list Z) : CM ioworld Z :=
  let len := Z.of_nat (length bs) in
  if FD_MAX_WBUF_SIZE <? len then cret (- AOSL_EMSGSIZE) else
  do o <- get_f f;
  if w_queue_space o <? len then cret (- AOSL_EAGAIN) else
  if negb (bool_decide (f_wq o = [])) || has_flag (f_flags o) IOFD_NOT_READY then queue_it f extra bs len else
  do err <- ask (fun w => g w o);
  modw (io_note (EvWrite (f_fd o) (take (Z.to_nat err) bs))) ;;
  if err <=? 0 then aosl_hal_set_error err else
  if err <? len then queue_it f extra (drop (Z.to_nat err) bs) len else cret len.
Lemma send_is f bs flags : ____send f bs flags = send_with (fun w o => sk_send w (f_fd o) bs flags) (le_bytes 4 flags) f bs.
Proof. reflexivity. Qed.
Lemma sendto_is f bs flags a : ____sendto f bs flags a = send_with (fun w o => sk_sendto w (f_fd o) bs flags a) (le_bytes 4 flags ++ take sizeof_sk_addr a) f bs.
Proof. reflexivity. Qed.

Lemma space_len (o : iofd) (bs : list Z) : bufs_ok o -> Z.of_nat (length bs) <= w_queue_space o -> f_wlen o + Z.of_nat (length bs) <= FD_MAX_WBUF_SIZE.
Proof. intros B Hsp. destruct (bo_wlen _ B) as [_ Hw]. unfold w_queue_space in Hsp. destruct (Z.ltb_spec (f_wlen o) FD_MAX_WBUF_SIZE); lia. Qed.

(** With [epoll] sending keeps the invariant. *)
Lemma send_with_wp `{Unheard} F0 w0 X w g extra f o bs : level = false -> J F0 w0 X w -> io_objs w !! f = Some o ->
  wp (send_with g extra f bs) w (fun _ w' => J F0 w0 X w').
Proof.
  intros Hl HJ E. unfold send_with. destruct (_ <? _); [by apply wp_ret|]. apply wp_bind. eapply get_f_wp; [done|].
  destruct (Z.ltb_spec (w_queue_space o) (Z.of_nat (length bs))) as [|Hsp]; [by apply wp_ret|].
  pose proof (space_len o bs (J_bufs _ _ _ _ _ _ HJ E) Hsp) as Hlen.
  destruct (_ || _); [eapply queue_it_wp; try done; congruence|]. apply wp_bind, ask_wp, wp_bind, modw_wp.
  set (w1 := io_note _ _). assert (J F0 w0 X w1) as J1 by (by apply J_note, J_next).
  destruct (_ <=? 0); [eapply wp_mono; [by eapply hal_err_wp|]; by intros ? ? [? _]|]. destruct (_ <? _); [|by apply wp_ret].
  eapply queue_it_wp; [exact J1|exact E|rewrite length_drop; lia|congruence..].
Qed.

(** What a send does to the bytes that were sent and that wait, as for a write. *)
Lemma send_with_exact w g extra f o bs : io_objs w !! f = Some o -> g w o <= Z.of_nat (length bs) ->
  wp (send_with g extra f bs) w (fun r w' => exists o', io_objs w' !! f = Some o' /\ f_fd o' = f_fd o /\ write_result w o bs r w' o').
Proof.
  intros E Hg. unfold send_with. assert (forall e, e <= 0 -> exists o', io_objs w !! f = Some o' /\ f_fd o' = f_fd o /\ write_result w o bs e w o') as Hno.
  { intros e He. exists o. split; [done|]. split; [done|]. right. left. done. }
  destruct (_ <? _); [apply wp_ret; by apply Hno|]. apply wp_bind. eapply get_f_wp; [done|]. destruct (_ <? _); [apply wp_ret; by apply Hno|].
  destruct (negb _ || _) eqn:Hq.
  { eapply wp_mono; [by eapply queue_it_exact|]. cbn beta. intros r w' (o' & E' & Ef & El & [[-> Ew]|[-> Ew]]); exists o'; (split; [done|]); (split; [done|]); unfold write_result; rewrite El, Ew.
    - left. by rewrite app_assoc.
    - right. by left. }
  apply orb_false_iff in Hq as [Hq _]. apply negb_false_iff, bool_decide_eq_true in Hq. apply wp_bind, ask_wp, wp_bind, modw_wp.
  set (err := g w o) in *. assert (waiting_bytes o = []) as Hw0 by (unfold waiting_bytes; by rewrite Hq).
  set (w1 := io_note _ _). assert (io_objs w1 !! f = Some o) as E1 by done.
  assert (sent (f_fd o) (io_log w1) = sent (f_fd o) (io_log w) ++ take (Z.to_nat err) bs) as Hs by (cbn; rewrite sent_app; cbn; by rewrite Z.eqb_refl, app_nil_r).
  destruct (Z.leb_spec err 0).
  { eapply wp_mono; [by apply hal_err_exact|]. cbn beta. intros r w' (Hr & El & Eo). exists o. rewrite Eo. split; [done|]. split; [done|]. right. left. split; [done|].
    rewrite El, Hs. replace (Z.to_nat err) with 0%nat by lia. by rewrite take_0, app_nil_r. }
  destruct (Z.ltb_spec err (Z.of_nat (length bs))).
  - eapply wp_mono; [by eapply queue_it_exact|]. cbn beta. intros r w' (o' & E' & Ef & El & [[-> Ew]|[-> Ew]]); exists o'; (split; [done|]); (split; [done|]); unfold write_result; rewrite El, Hs, Ew, Hw0, !app_nil_r.
    + left. split; [done|]. by rewrite app_nil_l, <-app_assoc, take_drop.
    + right. right. split; [done|]. split; [done|]. exists (Z.to_nat err). split; [lia|done].
  - apply wp_ret. exists o. split; [done|]. split; [done|]. left. split; [done|]. rewrite Hs, Hw0, !app_nil_r. by rewrite take_ge by lia.
Qed.

(** A part is sent and the rest is queued: the flags stay as they were. *)
Definition rest_queued (n : nat) (bs extra : list Z) (o : iofd) : iofd := w_queue_add (MkWb (drop n bs) (Z.of_nat (length (drop n bs))) extra) o.
Lemma send_with_part w g extra f o bs n : io_objs w !! f = Some o -> f_wq o = [] -> f_wlen o = 0 -> has_flag (f_flags o) IOFD_NOT_READY = false ->
  Z.of_nat (length bs) <= FD_MAX_WBUF_SIZE -> g w o = n -> 0 < n < Z.of_nat (length bs) -> (forall w, env_wmalloc w = true) ->
  wp (send_with g extra f bs) w (fun r w' => r = Z.of_nat (length bs) /\ io_objs w' !! f = Some (rest_queued (Z.to_nat n) bs extra o)).
Proof.
  intros E Hq Hl Hr Hm Hg Hn Hok. unfold send_with. rewrite (proj2 (Z.ltb_ge _ _) Hm). apply wp_bind. eapply get_f_wp; [done|].
  unfold w_queue_space. rewrite Hl, Z.sub_0_r. cbn [Z.ltb]. change (0 <? FD_MAX_WBUF_SIZE) with true. cbn iota. rewrite (proj2 (Z.ltb_ge _ _) Hm), Hq, Hr. rewrite bool_decide_true by done. cbn [negb orb].
  apply wp_bind, ask_wp, wp_bind, modw_wp. rewrite Hg, (proj2 (Z.leb_gt _ _)), (proj2 (Z.ltb_lt _ _)) by lia. unfold queue_it. apply wp_bind, ask_wp. rewrite Hok. cbn [negb].
  apply wp_bind. eapply mod_f_wp; [done|]. apply wp_ret. cbn. by rewrite lookup_insert_eq.
Qed.

Lemma write_part w f o bs n : io_objs w !! f = Some o -> f_wq o = [] -> f_wlen o = 0 -> has_flag (f_flags o) IOFD_NOT_READY = false ->
  Z.of_nat (length bs) <= FD_MAX_WBUF_SIZE -> env_sk_write w (f_fd o) bs = n -> 0 < n < Z.of_nat (length bs) -> (forall w, env_wmalloc w = true) ->
  wp (____write f bs) w (fun r w' => r = Z.of_nat (length bs) /\ io_objs w' !! f = Some (rest_queued (Z.to_nat n) bs [] (set_fflags (Z.lor (f_flags o) AOSL_POLLOUT) o))).
Proof.
  intros E Hq Hl Hr Hm Hg Hn Hok. unfold ____write. rewrite (proj2 (Z.ltb_ge _ _) Hm). apply wp_bind. eapply get_f_wp; [done|].
  unfold w_queue_space. rewrite Hl, Z.sub_0_r. change (0 <? FD_MAX_WBUF_SIZE) with true. cbn iota. rewrite (proj2 (Z.ltb_ge _ _) Hm), Hq, Hr. rewrite bool_decide_true by done. cbn [negb orb].
  apply wp_bind, ask_wp, wp_bind, modw_wp, wp_bind. eapply mod_f_wp; [done|]. rewrite Hg, (proj2 (Z.leb_gt _ _)), (proj2 (Z.ltb_lt _ _)) by lia. unfold queue_it. apply wp_bind, ask_wp. rewrite Hok. cbn [negb].
  apply wp_bind. eapply mod_f_wp; [cbn; by rewrite lookup_insert_eq|]. apply wp_ret. cbn. by rewrite lookup_insert_eq.
Qed.
Lemma to_poll_out o : has_flag (p_events (to_poll o)) AOSL_POLLOUT = has_flag (f_flags o) AOSL_POLLOUT.
Proof. unfold to_poll. cbn [p_events]. by destruct (has_flag (f_flags o) AOSL_POLLIN), (has_flag (f_flags o) AOSL_POLLOUT). Qed.

(** Behind what waits, everything is queued, and the flags stay. *)
Definition appended (f : Z) (o : iofd) (w' : ioworld) : Prop := exists o', io_objs w' !! f = Some o' /\ f_flags o' = f_flags o /\ f_wq o `prefix_of` f_wq o'.
Lemma queue_it_behind w f o extra bs len : io_objs w !! f = Some o -> wp (queue_it f extra bs len) w (fun _ w' => appended f o w').
Proof.
  intros E. unfold queue_it. apply wp_bind, ask_wp. destruct (env_wmalloc w); cbn [negb]; [|apply wp_ret; by exists o]. apply wp_bind. eapply mod_f_wp; [done|]. apply wp_ret.
  eexists. split; [cbn; by rewrite lookup_insert_eq|]. split; [done|]. by apply prefix_app_r.
Qed.
(** The operations that write to an object. *)
Definition writing (f : Z) (m : CM ioworld Z) : Prop :=
  exists bs flags addr, m = ____send f bs flags \/ m = ____sendto f bs flags addr \/ m = ____write f bs.
Lemma writing_behind w f o m : io_objs w !! f = Some o -> f_wq o <> [] -> writing f m -> wp m w (fun _ w' => appended f o w').
Proof.
  intros E Hq (bs & flags & addr & Hm). assert (appended f o w) as Hsame by (by exists o).
  assert (negb (bool_decide (f_wq o = [])) || has_flag (f_flags o) IOFD_NOT_READY = true) as Hb by (by rewrite bool_decide_false).
  destruct Hm as [->|[->| ->]]; [rewrite send_is; unfold send_with|rewrite sendto_is; unfold send_with|unfold ____write]; (destruct (_ <? _); [by apply wp_ret|]; apply wp_bind; eapply get_f_wp; [done|];
    destruct (_ <? _); [by apply wp_ret|]; rewrite Hb; by apply queue_it_behind).
Qed.

(** With [poll] and [select], when a socket that has nothing to write takes only a part of
    what is sent to it, the rest is queued and the caller is told that everything was
    sent; but unlike [____write], [____send] and [____sendto] do not ask to be told
    when the socket can be written again: its entry in the poll set has no
    [AOSL_POLLOUT].  What is written or sent later is queued behind the rest, and does
    not ask either. *)
Theorem sk_send_not_heard w f o bs flags addr n :
  level = true -> io_objs w !! f = Some o -> c_write (f_conf o) = true -> f_wq o = [] -> f_wlen o = 0 ->
  has_flag (f_flags o) IOFD_NOT_READY = false -> has_flag (f_flags o) AOSL_POLLOUT = false ->
  Z.of_nat (length bs) <= FD_MAX_WBUF_SIZE -> 0 < n < Z.of_nat (length bs) -> (forall w, env_wmalloc w = true) ->
  sk_send w (f_fd o) bs flags = n -> sk_sendto w (f_fd o) bs flags addr = n -> env_sk_write w (f_fd o) bs = n ->
  (forall m, m = ____send f bs flags \/ m = ____sendto f bs flags addr ->
    exists w' o', m w = Ret (Z.of_nat (length bs), w') /\ io_objs w' !! f = Some o' /\ waiting_bytes o' = drop (Z.to_nat n) bs /\ f_wq o' <> [] /\
      has_flag (p_events (to_poll o')) AOSL_POLLOUT = false /\ ~ awake o') /\
  (forall w1 o1 m, io_objs w1 !! f = Some o1 -> f_wq o1 <> [] -> has_flag (p_events (to_poll o1)) AOSL_POLLOUT = false -> writing f m ->
    exists r w2 o2, m w1 = Ret (r, w2) /\ io_objs w2 !! f = Some o2 /\ f_wq o2 <> [] /\ has_flag (p_events (to_poll o2)) AOSL_POLLOUT = false) /\
  exists w' o', ____write f bs w = Ret (Z.of_nat (length bs), w') /\ io_objs w' !! f = Some o' /\ waiting_bytes o' = drop (Z.to_nat n) bs /\
    has_flag (p_events (to_poll o')) AOSL_POLLOUT = true /\ awake o'.
Proof.
  intros Hl E Hw Hq Hlen Hr Hp Hm Hn Hok Es Est Ew.
  assert (forall extra, waiting_bytes (rest_queued (Z.to_nat n) bs extra o) = drop (Z.to_nat n) bs) as Hwait by (intros extra; unfold rest_queued; rewrite waiting_add; unfold waiting_bytes; by rewrite Hq).
  split; [|split].
  - intros m Hmm. assert (exists extra, wp m w (fun r w' => r = Z.of_nat (length bs) /\ io_objs w' !! f = Some (rest_queued (Z.to_nat n) bs extra o))) as [extra Hwp].
    { destruct Hmm as [->| ->]; eexists; [rewrite send_is|rewrite sendto_is]; by apply send_with_part. }
    apply wp_elim in Hwp as (r & w' & Em & -> & E'). exists w'. eexists. split; [exact Em|]. split; [exact E'|]. rewrite Hwait. split; [done|]. split; [cbn; by rewrite Hq|].
    split; [rewrite to_poll_out; exact Hp|]. intros [Hb|[Hc|[Hp'|[Hq' _]]]]; [unfold level in Hl; by rewrite Hb in Hl|cbn in Hc; congruence|cbn in Hp'; congruence|]. cbn in Hq'. by rewrite Hq in Hq'.
  - intros w1 o1 m E1 Hq1 Hp1 Hm1. destruct (wp_elim _ _ _ (writing_behind w1 f o1 m E1 Hq1 Hm1)) as (r & w2 & Em & o2 & E2 & Ef & Hpre). exists r, w2, o2. split; [exact Em|]. split; [exact E2|].
    rewrite to_poll_out in *. split; [|by rewrite Ef]. intros Hn2. rewrite Hn2 in Hpre. by apply prefix_nil_inv in Hpre.
  - pose proof (write_part w f o bs n E Hq Hlen Hr Hm Ew Hn Hok) as Hwp. apply wp_elim in Hwp as (r & w' & Em & -> & E'). exists w'. eexists. split; [exact Em|]. split; [exact E'|].
    split; [exact (Hwait [])|]. assert (has_flag (Z.lor (f_flags o) AOSL_POLLOUT) AOSL_POLLOUT = true) as Hout by apply out_set. rewrite to_poll_out. split; [exact Hout|]. do 2 right. by left.
Qed.
End Sending.

(** ** What is queued *)

Lemma le_of_mod n : forall x, le_of (le_bytes n x) = x mod 256 ^ Z.of_nat n.
Proof.
  induction n as [|n IH]; intros x; [cbn; by rewrite Z.mod_1_r|]. cbn [le_bytes le_of]. rewrite IH, Nat2Z.inj_succ, Z.pow_succ_r by lia.
  rewrite (Z.rem_mul_r x 256 (256 ^ Z.of_nat n)) by lia. lia.
Qed.
Lemma queued_flags flags l : is_int flags -> extra_flags (le_bytes 4 flags ++ l) = flags.
Proof.
  intros Hf. unfold extra_flags, rd. rewrite length_app, le_bytes_len. rewrite (proj2 (Nat.leb_le _ _)) by (unfold sizeof_int; lia). rewrite drop_0, take_app_le, take_ge by (rewrite le_bytes_len; lia).
  rewrite le_of_mod. unfold MSG_DONTWAIT. rewrite Z.lor_0_l. unfold is_int in Hf. rewrite <-(wraps_id 32 flags) at 2 by (cbn; lia). unfold wraps. f_equal. by rewrite Zplus_mod_idemp_l.
Qed.

Lemma set_error_neg e w e' w' : e < 0 -> aosl_hal_set_error e w = Ret (e', w') -> e' < 0.
Proof.
  intros He. unfold aosl_hal_set_error. rewrite (proj2 (Z.ltb_lt _ _) He). intros Hr. apply cbind_inv in Hr as (? & ? & _ & [= <- _]). repeat (destruct (_ =? _); [done|]). done.
Qed.
Lemma fails_neg {B} e w x w' : e < 0 -> (do e <- aosl_hal_set_error e; cret (inl e : Z + B)) w = Ret (inl x, w') -> x < 0.
Proof. intros He Hr. apply cbind_inv in Hr as (e' & w1 & Hr & [= <- _]). by eapply set_error_neg. Qed.
Lemma send_at_most e (bs : list Z) w r w' : e <= Z.of_nat (length bs) -> (if e <? 0 then aosl_hal_set_error e else cret e) w = Ret (r, w') -> r <= Z.of_nat (length bs).
Proof. intros He. destruct (Z.ltb_spec e 0) as [Hn|]; [intros Hr; pose proof (set_error_neg e w r w' Hn Hr); lia|by intros [= <- _]]. Qed.

Section Queued.
Context `{SkEnv}.
(** What [____send] and [____sendto] queue with the bytes makes the functions of the
    socket call the platform later as it would have been called at once. *)
Theorem sk_queued_as_sent fd bs flags addr w :
  is_int flags -> length addr = sizeof_sk_addr ->
  __default_send fd bs (le_bytes 4 flags) w = (do err <- ask (fun w => sk_send w fd bs flags); if err <? 0 then aosl_hal_set_error err else cret err) w /\
  __default_sendto fd bs (le_bytes 4 flags ++ take sizeof_sk_addr addr) w = (do err <- ask (fun w => sk_sendto w fd bs flags addr); if err <? 0 then aosl_hal_set_error err else cret err) w.
Proof.
  intros Hf Ha. unfold __default_send, __default_sendto. rewrite (queued_flags flags) by done. pose proof (queued_flags flags [] Hf) as H0. rewrite app_nil_r in H0. rewrite H0. split; [done|].
  rewrite (take_ge addr) by lia. rewrite length_app, le_bytes_len, Ha. change (sizeof_sendto_args <=? 4 + sizeof_sk_addr)%nat with true. cbn iota.
  rewrite drop_app_length' by (by rewrite le_bytes_len). by rewrite (take_ge addr) by lia.
Qed.

(** The functions of a socket keep what is assumed of the functions of a descriptor: errors
    are negative, no more is read than there is room for or written than there is. *)
Theorem sk_functions_lawful fd w w' n bs extra :
  (forall e, __default_recv fd n w = Ret (inl e, w') -> e < 0) /\
  (forall r, __default_recv fd n w = Ret (inr r, w') -> Z.of_nat (length r) <= n) /\
  (forall e, __default_recvfrom fd n extra w = Ret (inl e, w') -> e < 0) /\
  (forall r x, __default_recvfrom fd n extra w = Ret (inr (r, x), w') -> Z.of_nat (length r) <= n) /\
  (forall e, __default_accept fd w = Ret (inl e, w') -> e < 0) /\
  (forall r, __default_send fd bs extra w = Ret (r, w') -> r <= Z.of_nat (length bs)) /\
  (forall r, __default_sendto fd bs extra w = Ret (r, w') -> r <= Z.of_nat (length bs)).
Proof.
  unfold __default_recv, __default_recvfrom, __default_accept, __default_send, __default_sendto, ask, modw. split; [|split; [|split; [|split; [|split; [|split]]]]].
  - intros e. cbn. destruct (sk_recv w fd n MSG_DONTWAIT) as [err|r] eqn:Er; [|done]. eapply fails_neg, sk_recv_err, Er.
  - intros r. cbn. destruct (sk_recv w fd n MSG_DONTWAIT) as [err|r'] eqn:Er; [by intros Hr; apply cbind_inv in Hr as (? & ? & _ & [=])|]. intros [= <- _]. by eapply sk_recv_len.
  - intros e. destruct (_ <=? _)%nat; cbn.
    + destruct (sk_recvfrom w fd n MSG_DONTWAIT) as [err|[r a]] eqn:Er; [|done]. eapply fails_neg, sk_recvfrom_err, Er.
    + destruct (sk_recv w fd n MSG_DONTWAIT) as [err|r] eqn:Er; [|done]. eapply fails_neg, sk_recv_err, Er.
  - intros r x. destruct (_ <=? _)%nat; cbn.
    + destruct (sk_recvfrom w fd n MSG_DONTWAIT) as [err|[r' a]] eqn:Er; [by intros Hr; apply cbind_inv in Hr as (? & ? & _ & [=])|]. intros [= <- _ _]. by eapply sk_recvfrom_len.
    + destruct (sk_recv w fd n MSG_DONTWAIT) as [err|r'] eqn:Er; [by intros Hr; apply cbind_inv in Hr as (? & ? & _ & [=])|]. intros [= <- _ _]. by eapply sk_recv_len.
  - intros e. cbn. destruct (sk_accept w fd) as [newsk a]. destruct (aosl_fd_invalid newsk); [|done]. by apply (fails_neg AOSL_HAL_RET_EHAL).
  - intros r. cbn. apply send_at_most, sk_send_len.
  - intros r. destruct (_ <=? _)%nat; cbn; apply send_at_most; [apply sk_sendto_len|apply sk_send_len].
Qed.
End Queued.


(** ** Listening *)

Section Listening.
Context `{IoEnv, SkEnv, Unheard} (F : list Z) (q f : Z) (Hf : f ∈ F).

Lemma accept_error fd w e w' : __default_accept fd w = Ret (inl e, w') -> e = - AOSL_EHAL.
Proof.
  unfold __default_accept, cbind at 1, ask, modw. run. destruct (sk_accept w fd) as [newsk addr]. destruct (aosl_fd_invalid newsk); [|done].
  unfold aosl_hal_set_error, modw. run. by intros [= <- _].
Qed.

(** The [read_f] of an object that listens is [__default_accept]: its errors are. *)
Definition listens : Prop := forall w n e acts, 0 <= n -> env_read w f n = (inl e, acts) -> exists fd w', __default_accept fd w = Ret (inl e, w').

Lemma listener_wp T fuel w o : listens -> IofdRead.at_ F f w o -> calm f T -> c_read (f_conf o) = true -> c_chk (f_conf o) = false -> c_q (f_conf o) = q ->
  buff_size (f_conf o) + 1 + Z.max 0 (T - io_tick w) < Z.of_nat fuel ->
  wp (__iofd_read_data fuel q f) w (fun _ w' => ioinv F w' /\ forall fd, attached_fds w' !! fd <> Some f).
Proof.
  intros Hacc Ha Hcalm Hrd Hc Hq Hfuel.
  eapply wp_mono; [eapply (read_loop_wp F q f Hf T (fun _ _ => True) (fun _ w' _ => forall fd, attached_fds w' !! fd <> Some f) (f_conf o) Hcalm Hrd); try done|].
  - intros n w1 o1 A1 _ C1 Hn. eapply wp_mono; [eapply (read_packets_heard F q f Hf n w1 o1 A1); [congruence|done]|]. cbn beta. intros r w2 (o2 & A2 & Ht & C2 & Hr).
    exists o2. split; [done|]. split; [done|]. split; [congruence|]. destruct r as [| |e]; [done| |apply Hr; congruence]. split; [|done].
    intros w3 o3 A3 _ _ _ _ e [[_ (w4 & n4 & acts & Hn4 & Er)]|[_ Hg]]; [|by apply Hg]. destruct (Hacc _ _ _ _ Hn4 Er) as (fd & w5 & Ea). by apply accept_error in Ea.
  - cbn beta. intros _ w' (o' & [I' _] & _ & Hg). done.
Qed.

(** A socket that listens is closed by the first event of a connection: after the
    connections that there are have been accepted, [__default_accept] reports every
    failure as [AOSL_EHAL], also that there are no more, so that the reader, which
    stops at [AOSL_EAGAIN] only, closes the descriptor. *)
Theorem sk_listener_closed T fuel w o :
  ioinv F w -> io_objs w !! f = Some o -> listens -> calm f T -> c_read (f_conf o) = true -> c_chk (f_conf o) = false -> c_q (f_conf o) = q ->
  buff_size (f_conf o) + 1 + Z.max 0 (T - io_tick w) < Z.of_nat fuel ->
  exists r w', __iofd_read_data fuel q f w = Ret (r, w') /\ ioinv F w' /\ forall fd, attached_fds w' !! fd <> Some f.
Proof.
  intros I E Hacc Hcalm Hrd Hc Hq Hfuel. destruct (wp_elim _ _ _ (listener_wp T fuel w o Hacc (conj I E) Hcalm Hrd Hc Hq Hfuel)) as (r & w' & Er & Hr). by exists r, w'.
Qed.
End Listening.

(** ** Every operation keeps the invariant *)

Section Safe.
Context `{IoEnv, SkEnv, Unheard} (T : Z) (Hlevel : level = false).

(** A descriptor that has been added has the functions it was added with. *)
Definition added_as (a : add_args) (f : Z) (w : ioworld) : Prop :=
  attached_fds w !! a_fd a = Some f /\ exists o, io_objs w !! f = Some o /\ c_write (f_conf o) = c_write (a_conf a).
Lemma add_install_as a w r w' : a_fd a <> AOSL_INVALID_FD -> add_install a w = Ret (r, w') -> match r with inl e => e < 0 | inr f => added_as a f w' end.
Proof.
  intros Hfd. unfold add_install. destruct (a_sigp a); [by intros [= <- _]|]. destruct (_ || _); [by intros [= <- _]|]. destruct (_ <=? _); [by intros [= <- _]|]. destruct (negb _); [by intros [= <- _]|].
  rewrite (proj2 (Z.eqb_neq _ _) Hfd). intros Hr. apply cbind_inv in Hr as (g & w1 & _ & Hr). destruct (negb _); [by apply cbind_inv in Hr as (? & ? & _ & [= <- _])|].
  apply cbind_inv in Hr as (f1 & w2 & _ & Hr). destruct (f1 =? 0); [by injection Hr as <- _|]. apply cbind_inv in Hr as ([] & w3 & Hs & Hr). unfold modw, cbind, cget, cput in Hs. injection Hs as <-.
  apply cbind_inv in Hr as ([err fd] & w4 & [= <- <- <-] & Hr). rewrite (proj2 (Z.eqb_neq _ _) Hfd) in Hr. cbn [Z.ltb Z.compare orb] in Hr.
  apply cbind_inv in Hr as ([] & w5 & Hs & Hr). unfold mod_f, get_f, modw, cbind, cget, cput in Hs. cbn in Hs. rewrite lookup_insert_eq in Hs. injection Hs as <-.
  apply cbind_inv in Hr as (err & w6 & Hi & Hr). unfold install_fd, aosl_fd_invalid in Hi. rewrite (proj2 (Z.eqb_neq _ _) Hfd) in Hi. unfold cbind at 1, cget in Hi.
  destruct (attached_fds _ !! a_fd a); [injection Hi as <- <-; cbn [Z.ltb Z.compare Z.opp AOSL_EBUSY AOSL_EBASE Z.add Pos.add] in Hr; by apply cbind_inv in Hr as (? & ? & _ & [= <- _])|].
  unfold mod_f, get_f, modw, cbind, cget, cput in Hi. cbn in Hi. rewrite lookup_insert_eq in Hi. injection Hi as <- <-. cbn [Z.ltb Z.compare] in Hr. injection Hr as <- <-.
  split; [cbn; by rewrite lookup_insert_eq|]. eexists. split; [cbn; by rewrite lookup_insert_eq|]. done.
Qed.
Lemma add_as a w r w' : a_fd a <> AOSL_INVALID_FD -> __mpq_add_fd_argv a w = Ret (r, w') -> 0 <= r -> exists f, added_as a f w'.
Proof.
  intros Hfd Hr Hr0. apply cbind_inv in Hr as ([e|f] & w1 & Hi & Hr); apply add_install_as in Hi; [injection Hr as <- _; lia|done| |done]. destruct Hi as (Ht & o & Eo & Hw).
  unfold add_finish in Hr. apply cbind_inv in Hr as (o1 & w2 & Hg & Hr). unfold get_f, cbind, cget in Hg. rewrite Eo in Hg. injection Hg as <- <-.
  apply cbind_inv in Hr as (err & w3 & Hq & Hr). unfold __q_add_fd, os_add_event_fd in Hq. assert (env_backend = Epoll) as Eb by (unfold level in Hlevel; by destruct env_backend). rewrite Eb in Hq.
  apply cbind_inv in Hq as (e & w4 & Ha & Hq). unfold ask, modw, cbind, cget, cput in Ha. injection Ha as _ <-.
  destruct (Z.ltb_spec e 0); [injection Hq as <- <-; rewrite (proj2 (Z.ltb_lt _ _)) in Hr by done; apply cbind_inv in Hr as (? & ? & _ & Hr); apply cbind_inv in Hr as (? & ? & _ & [= <- _]); lia|].
  unfold modw, cbind, cget, cput in Hq. injection Hq as <- <-. cbn [Z.ltb Z.compare] in Hr. exists f. destruct (_ && _).
  - unfold ask, mod_f, get_f, modw, cbind, cget, cput in Hr. cbn in Hr. rewrite Eo in Hr. injection Hr as _ <-. split; [exact Ht|]. cbn. rewrite lookup_insert_eq. by eexists.
  - injection Hr as _ <-. split; [exact Ht|]. by exists o.
Qed.

Lemma do_connect_safe fuel q fd dest w : calm_all T -> enough T fuel -> ioinv [] w ->
  (forall f o, attached_fds w !! fd = Some f -> io_objs w !! f = Some o -> c_write (f_conf o) = true) ->
  wp (__do_connect fuel q fd dest) w (fun _ w' => ioinv [] w').
Proof.
  intros Hcalm He I Hwr. unfold __do_connect. apply wp_bind, ask_wp. assert (ioinv [] (io_next w)) as I1 by (eapply (inv_of [] w), J_next, J_of, I).
  destruct (_ <? 0); [destruct (_ =? _); [by apply wp_ret|]; eapply wp_mono; [eapply (hal_err_wp [] (io_next w) []), J_of, I1|]; intros ? ? [J1 _]; by eapply inv_of|].
  apply wp_bind. eapply wp_mono; [eapply wp_conj; [eapply fget_wp, (J_of [] _ I1)|by apply (fget_same [] _ fd)]|]. cbn beta. intros f w1 [[(-> & J1 & _)|(Hf & J1 & Et)] Hsame].
  { apply wp_bind, wp_ret, wp_ret. by eapply inv_of. }
  destruct (Z.eqb_spec f 0); [lia|]. cbn [negb]. apply inv_of in J1. assert (f ∈ [f]) as Hin by left. destruct (at_get [f] f Hin w1 J1) as (o1 & A1). destruct (Hsame o1 Hf (proj2 A1)) as (o & _ & Eo & Ec).
  apply wp_bind, wp_bind. eapply wp_mono; [eapply (write_data_safe [f] q f Hin T fuel w1 o1); [apply Hcalm|exact A1|rewrite Hlevel, Ec; by apply (Hwr f o)|]|].
  { unfold enough in He. assert (0 <= FD_MAX_PACKET_SIZE_MAX) by done. lia. }
  cbn beta. intros _ w2 (o2 & [I2 _] & _). eapply wp_mono; [eapply (fput_wp [] w2 []); by apply J_of|]. cbn beta. intros _ w3 (J3 & _). apply wp_ret. by eapply inv_of.
Qed.

Lemma mpq_del_safe q fd w : ioinv [] w -> wp (__mpq_del_fd q fd) w (fun _ w' => ioinv [] w').
Proof.
  intros I. unfold __mpq_del_fd. apply wp_bind. eapply wp_mono; [eapply fget_wp, (J_of [] _ I)|]. cbn beta. intros f w1 [(-> & J1 & _)|(Hf & J1 & _)]; [apply wp_ret; by eapply inv_of|].
  destruct (Z.eqb_spec f 0); [lia|]. destruct (J_known _ _ _ _ f J1) as [o Eo]; [left; left|]. apply wp_bind. eapply wp_mono; [by eapply del_wp|]. cbn beta. intros err w2 [J2 _].
  apply wp_bind. eapply wp_mono; [by eapply fput_wp|]. cbn beta. intros _ w3 [J3 _]. apply wp_ret. by eapply inv_of.
Qed.

Lemma add_safe a w : ioinv [] w -> wp (__mpq_add_fd_argv a) w (fun _ w' => ioinv [] w').
Proof. intros I. eapply wp_mono; [eapply (add_wp [] w []); [by apply J_of|congruence]|]. cbn beta. intros _ w' J1. by eapply inv_of. Qed.
Lemma ret_safe w m : wp m w (fun _ w' => ioinv [] w') -> wp (do err <- m; return_err err) w (fun _ w' => ioinv [] w').
Proof. intros Hm. apply wp_bind. eapply wp_mono; [exact Hm|]. cbn beta. intros err w' I'. eapply wp_mono; [eapply (ret_err_wp [] w' []); by apply J_of|]. cbn beta. intros _ w2 J2. by eapply inv_of. Qed.
Lemma on_this_q_safe this_q args g w : ioinv [] w -> wp g w (fun _ w' => ioinv [] w') -> wp (do err <- on_this_q this_q args g; return_err err) w (fun _ w' => ioinv [] w').
Proof. intros I Hg. apply ret_safe. unfold on_this_q. destruct (_ <? _); [by apply wp_ret|]. destruct (_ =? 0); [by apply wp_ret|done]. Qed.

Lemma this_q_connect_safe fuel q k dest args w : calm_all T -> enough T fuel -> ioinv [] w -> wp (__this_q_connect_argv fuel q k dest args) w (fun _ w' => ioinv [] w').
Proof.
  intros Hcalm He I. unfold __this_q_connect_argv. set (a := MkAdd _ _ _ _ _ _). apply wp_bind. destruct (wp_elim _ _ _ (add_safe a w I)) as (r & w1 & Er & I1). eapply wp_eq; [exact Er|].
  destruct (Z.ltb_spec r 0); [by apply wp_ret|]. apply wp_bind. eapply wp_mono; [eapply do_connect_safe; [done..|]|].
  - intros f o Et Eo. destruct (oi_table _ _ I1 _ _ Et) as [Hfd _]. destruct (add_as a w r w1 Hfd Er ltac:(lia)) as (g & Eg & o' & Eo' & Hw). cbn in Eg. rewrite Et in Eg. injection Eg as <-. rewrite Eo in Eo'. by injection Eo' as <-.
  - cbn beta. intros err w2 I2. destruct (err <? 0); [|by apply wp_ret]. apply wp_bind. eapply wp_mono; [by apply mpq_del_safe|]. cbn beta. intros _ w3 I3. by apply wp_ret.
Qed.
Lemma this_q_listen_safe q k backlog args w : ioinv [] w -> wp (__this_q_listen_argv q k backlog args) w (fun _ w' => ioinv [] w').
Proof.
  intros I. unfold __this_q_listen_argv. apply wp_bind, ask_wp. assert (ioinv [] (io_next w)) as I1 by (eapply (inv_of [] w), J_next, J_of, I).
  destruct (_ <? 0); [|by apply add_safe]. eapply wp_mono; [eapply (hal_err_wp [] (io_next w) []), J_of, I1|]. intros ? ? [J1 _]. by eapply inv_of.
Qed.

(** [aosl_send] and [aosl_sendto] *)
Lemma send_fd_safe this_q fd (m : Z -> CM ioworld Z) w : ioinv [] w -> (forall f, exists g extra bs, m f = send_with g extra f bs) ->
  wp (do f <- fget fd;
      do err <- (if f =? 0 then cret (- AOSL_EINVAL) else do o <- get_f f; do err <- on_q this_q (c_q (f_conf o)) (m f); fput f ;; cret err);
      return_err err) w (fun _ w' => ioinv [] w').
Proof.
  intros I Hm. assert (wp (do f <- fget fd; if f =? 0 then cret (- AOSL_EINVAL) else
    do o <- get_f f; do err <- on_q this_q (c_q (f_conf o)) (m f); fput f ;; cret err) w (fun _ w' => J [] w [] w')) as Hw.
  { apply (with_fd_wp [] w [] w fd (cret (- AOSL_EINVAL)) this_q (fun _ f => m f) (J_of [] _ I)); [intros; by apply wp_ret|].
    intros q f o w1 o0 J1 E _ _ _. destruct (Hm f) as (g & extra & bs & ->). by eapply send_with_wp. }
  apply wp_unbind in Hw. apply wp_bind. eapply wp_mono; [exact Hw|]. cbn beta. intros f w1 Hf. apply ret_safe. eapply wp_mono; [exact Hf|]. cbn beta. intros err w2 J2. by eapply inv_of.
Qed.
Lemma aosl_send_safe this_q fd bs flags w : ioinv [] w -> wp (aosl_send this_q fd bs flags) w (fun _ w' => ioinv [] w').
Proof. intros I. apply (send_fd_safe this_q fd (fun f => ____send f bs flags) w I). intros f. eexists _, _, _. apply send_is. Qed.
Lemma aosl_sendto_safe this_q fd bs flags addr w : ioinv [] w -> wp (aosl_sendto this_q fd bs flags addr) w (fun _ w' => ioinv [] w').
Proof. intros I. apply (send_fd_safe this_q fd (fun f => ____sendto f bs flags addr) w I). intros f. eexists _, _, _. apply sendto_is. Qed.

Lemma iofd_close_safe this_q fd w : ioinv [] w -> wp (__iofd_close this_q fd) w (fun _ w' => ioinv [] w').
Proof.
  intros I. eapply wp_mono; [apply (with_fd_wp [] w [] w fd (____close fd) this_q __this_q_close_f (J_of [] _ I))|cbn beta; intros _ w' J1; by eapply inv_of].
  - intros w1 J1. eapply wp_mono; [by eapply hclose_wp|]. by intros ? ? [? _].
  - intros q f o w1 o0 J1 E _ _ _. by eapply closef_wp.
Qed.
Lemma ip_sk_close_safe this_q sk w : ioinv [] w -> wp (aosl_ip_sk_close this_q sk) w (fun _ w' => ioinv [] w').
Proof.
  intros I. assert (forall fd w, ioinv [] w -> wp (if negb (aosl_fd_invalid fd) then do _ <- __iofd_close this_q fd; cret AOSL_INVALID_FD else cret fd) w (fun _ w' => ioinv [] w')) as Hone.
  { intros fd w1 I1. destruct (negb _); [|by apply wp_ret]. apply wp_bind. eapply wp_mono; [by apply iofd_close_safe|]. cbn beta. intros _ w2 I2. by apply wp_ret. }
  unfold aosl_ip_sk_close. apply wp_bind. eapply wp_mono; [by apply Hone|]. cbn beta. intros v4 w1 I1. apply wp_bind. eapply wp_mono; [by apply Hone|]. cbn beta. intros v6 w2 I2. by apply wp_ret.
Qed.

Lemma call_words_safe q args g n argv w : ioinv [] w -> (forall w, ioinv [] w -> (length args <= 64)%nat -> wp (g n (take (Z.to_nat n) argv)) w (fun _ w' => ioinv [] w')) ->
  wp (do err <- call_words q args g n argv; return_err err) w (fun _ w' => ioinv [] w').
Proof.
  intros I Hg. apply ret_safe. unfold call_words, MPQ_ARGC_MAX. destruct (Z.ltb_spec 64 (Z.of_nat (length args))); [by apply wp_ret|]. apply wp_bind, ask_wp.
  assert (ioinv [] (io_next w)) as I1 by (eapply (inv_of [] w), J_next, J_of, I). destruct (env_iocall w q); [apply Hg; [done|lia]| |by apply wp_ret].
  apply wp_bind, modw_wp, wp_ret. eapply (inv_of [] (io_next w)), J_err, J_of, I1.
Qed.
(** The words of a call, all of which are passed. *)
Lemma pass_all (pre args : list Z) : take (Z.to_nat (Z.of_nat (length pre) + Z.of_nat (length args))) (pre ++ args) = pre ++ args.
Proof. apply take_ge. rewrite length_app. lia. Qed.

Lemma user_args_wp pre args (k : list Z -> CM ioworld Z) w Q : (length args <= 64)%nat -> (length pre <= 9)%nat -> wp (k args) w Q ->
  wp (cbind (user_args (Z.of_nat (length pre) + Z.of_nat (length args)) (pre ++ args) (length pre)) k) w Q.
Proof. intros Ha Hp Hk. unfold wp. by rewrite user_args_all. Qed.

Lemma listen_on_q_safe q k err_p backlog args w : ioinv [] w -> wp (aosl_mpq_listen_on_q q k err_p backlog args) w (fun _ w' => ioinv [] w').
Proof.
  intros I. apply call_words_safe; [done|]. intros w1 I1 Hl. set (pre := [err_p; _; _; _; _]). change 5 with (Z.of_nat (length pre)). rewrite pass_all. unfold ____target_q_listen. do 4 (apply wp_bind; apply wp_ret).
  change 5%nat with (length pre). apply user_args_wp; [done|cbn; lia|]. by apply this_q_listen_safe.
Qed.
Lemma dgram_on_q_safe q k err_p args w : ioinv [] w -> wp (aosl_mpq_add_dgram_socket_on_q q k err_p args) w (fun _ w' => ioinv [] w').
Proof.
  intros I. apply call_words_safe; [done|]. intros w1 I1 Hl. set (pre := [err_p; _; _; _; _]). change 5 with (Z.of_nat (length pre)). rewrite pass_all. unfold ____target_q_add_dgram_sk. do 4 (apply wp_bind; apply wp_ret).
  change 5%nat with (length pre). apply user_args_wp; [done|cbn; lia|]. by apply add_safe.
Qed.
Lemma stream_on_q_safe q k err_p args w : ioinv [] w -> wp (aosl_mpq_add_stream_socket_on_q q k err_p args) w (fun _ w' => ioinv [] w').
Proof.
  intros I. apply call_words_safe; [done|]. intros w1 I1 Hl. set (pre := [err_p; _; _; _; _; _]). change 6 with (Z.of_nat (length pre)). rewrite pass_all. unfold ____target_q_add_stream_sk. do 5 (apply wp_bind; apply wp_ret).
  change 6%nat with (length pre). apply user_args_wp; [done|cbn; lia|]. by apply add_safe.
Qed.

(** What applications do with sockets, between the other operations of the queue's
    thread. *)
Inductive sk_op :=
| KSend (fd : Z) (bs : list Z) (flags : Z)
| KSendto (fd : Z) (bs : list Z) (flags : Z) (addr : list Z)
| KIpSendto (prefix : option (list Z)) (sk : aosl_ip_sk) (bs : list Z) (flags : Z) (addr dest : list Z)
| KConnect (k : sk_args) (dest args : list Z)
| KIpConnect (prefix : option (list Z)) (sk : aosl_ip_sk) (k : sk_args) (addr dest args : list Z)
| KListen (k : sk_args) (backlog : Z) (args : list Z)
| KDgram (k : sk_args) (args : list Z)
| KStream (k : sk_args) (args : list Z)
| KListenOn (q : Z) (k : sk_args) (err_p backlog : Z) (args : list Z)
| KDgramOn (q : Z) (k : sk_args) (err_p : Z) (args : list Z)
| KStreamOn (q : Z) (k : sk_args) (err_p : Z) (args : list Z)
| KIpClose (sk : aosl_ip_sk)
| KIo (op : io_op).
Definition run_sk (fuel : nat) (q : Z) (op : sk_op) : CM ioworld unit :=
  match op with
  | KSend fd bs flags => do _ <- aosl_send q fd bs flags; cret tt
  | KSendto fd bs flags addr => do _ <- aosl_sendto q fd bs flags addr; cret tt
  | KIpSendto prefix sk bs flags addr dest => do _ <- aosl_ip_sk_sendto q prefix sk bs flags addr dest; cret tt
  | KConnect k dest args => do _ <- aosl_mpq_connect fuel q k dest args; cret tt
  | KIpConnect prefix sk k addr dest args => do _ <- aosl_mpq_ip_sk_connect fuel q prefix sk k addr dest args; cret tt
  | KListen k backlog args => do _ <- aosl_mpq_listen q k backlog args; cret tt
  | KDgram k args => do _ <- aosl_mpq_add_dgram_socket q k args; cret tt
  | KStream k args => do _ <- aosl_mpq_add_stream_socket q k args; cret tt
  | KListenOn q k err_p backlog args => do _ <- aosl_mpq_listen_on_q q k err_p backlog args; cret tt
  | KDgramOn q k err_p args => do _ <- aosl_mpq_add_dgram_socket_on_q q k err_p args; cret tt
  | KStreamOn q k err_p args => do _ <- aosl_mpq_add_stream_socket_on_q q k err_p args; cret tt
  | KIpClose sk => do _ <- aosl_ip_sk_close q sk; cret tt
  | KIo op => run_op fuel q op
  end.
Fixpoint run_sks (fuel : nat) (q : Z) (ops : list sk_op) : CM ioworld unit :=
  match ops with [] => cret tt | op :: ops => run_sk fuel q op ;; run_sks fuel q ops end.

Lemma then_tt {A} (m : CM ioworld A) w : wp m w (fun _ w' => ioinv [] w') -> wp (do _ <- m; cret tt) w (fun _ w' => ioinv [] w').
Proof. intros Hm. apply wp_bind. eapply wp_mono; [exact Hm|]. cbn beta. intros _ w' I'. by apply wp_ret. Qed.
Lemma run_sk_safe fuel q op w : calm_all T -> enough T fuel -> ioinv [] w -> wp (run_sk fuel q op) w (fun _ w' => ioinv [] w').
Proof.
  intros Hcalm He I. destruct op; cbn [run_sk]; try apply then_tt.
  - by apply aosl_send_safe.
  - by apply aosl_sendto_safe.
  - unfold aosl_ip_sk_sendto. destruct (ip_sk_target _ _ _ _) as [[fd d]|]; [by apply aosl_sendto_safe|]. apply wp_bind, modw_wp, wp_ret. eapply (inv_of [] w), J_err, J_of, I.
  - by apply on_this_q_safe, this_q_connect_safe.
  - unfold aosl_mpq_ip_sk_connect. destruct (ip_sk_target _ _ _ _) as [[fd d]|]; [by apply on_this_q_safe, this_q_connect_safe|]. eapply wp_mono; [eapply (ret_err_wp [] w []), J_of, I|]. cbn beta. intros _ w' J1. by eapply inv_of.
  - by apply on_this_q_safe, this_q_listen_safe.
  - by apply on_this_q_safe, add_safe.
  - by apply on_this_q_safe, add_safe.
  - by apply listen_on_q_safe.
  - by apply dgram_on_q_safe.
  - by apply stream_on_q_safe.
  - by apply ip_sk_close_safe.
  - by apply (run_op_safe T).
Qed.

(** C18: With [epoll], whatever sequence of sending, connecting, listening and adding sockets,
    on the thread of their queue, and of listening and adding on other queues, an application
    makes there, between events, timeouts and the other operations on descriptors (as in
    [iofd_memory_safe], and when reads and writes come to an end after some time), everything
    returns, no object is used after it has been freed, and the references, the table, the
    lists and the buffers stay as they should.  Connecting a socket on another queue
    ([aosl_mpq_connect_on_q], [aosl_mpq_ip_sk_connect_on_q]) is not among the operations: see
    [sk_on_q_arguments]. *)
Theorem sk_ops_safe fuel q ops w :
  calm_all T -> enough T fuel -> ioinv [] w -> exists w', run_sks fuel q ops w = Ret (tt, w') /\ ioinv [] w'.
Proof.
  intros Hcalm He. revert w. induction ops as [|op ops IH]; intros w I; cbn [run_sks]; [by exists w|].
  destruct (wp_elim _ _ _ (run_sk_safe fuel q op w Hcalm He I)) as ([] & w1 & E1 & I1). destruct (IH w1 I1) as (w' & E' & I'). exists w'. split; [|done]. by rewrite (cbind_ret _ _ _ _ _ E1).
Qed.
End Safe.

(** ** A run *)

(** A platform whose sockets take two bytes at a time, and have connections for the
    descriptor 4 until the time 9. *)
#[local] Instance demo_sk : SkEnv.
Proof.
  refine (Build_SkEnv (fun _ _ _ _ => inl AOSL_HAL_RET_EAGAIN) (fun _ _ _ _ => inl AOSL_HAL_RET_EAGAIN) (fun _ _ bs _ => Z.min 2 (Z.of_nat (length bs))) (fun _ _ bs _ _ => Z.min 2 (Z.of_nat (length bs)))
    (fun w fd => if (fd =? 4) && (io_tick w <? 9) then (8, replicate 28 0) else (AOSL_INVALID_FD, [])) (fun _ _ _ => AOSL_HAL_RET_EINPROGRESS) (fun _ _ _ => 0) (fun _ _ _ => 0) (fun _ _ _ => 0) (fun _ _ _ _ => 0)
    (fun _ _ => (0, replicate 28 0)) (fun _ => (0, replicate 28 0)) _ _ _ _ _ _);
    try done; intros; try lia; naive_solver.
Defined.
#[local] Instance epoll_env : IoEnv := demo_env Epoll [] 0 false.
Definition demo_args : sk_args := MkSk 5 (-1) 1024 true true true false.

Lemma sk_on_q_arguments_witness :
  aosl_mpq_listen_on_q 9 demo_args 100 16 [7; 8] io_start = (do err <- __this_q_listen_argv 9 demo_args 16 [7; 8]; return_err err) (io_next io_start) /\
  aosl_mpq_connect_on_q 50 9 demo_args 100 200 0 [] [7; 8] io_start = (do err <- __this_q_connect_argv 50 9 demo_args [] [7]; return_err err) (io_next io_start) /\
  aosl_mpq_connect_on_q 50 9 demo_args 100 200 0 [] [] io_start = Fault.
Proof.
  destruct (sk_on_q_arguments 9 io_start 50 demo_args 100 200 0 [] 16 [7; 8]) as (H1 & _ & _ & H2); [reflexivity|cbn; lia|cbv; split; congruence|cbv; split; congruence|cbv; split; congruence|cbv; split; congruence|].
  destruct (sk_on_q_arguments 9 io_start 50 demo_args 100 200 0 [] 16 []) as (_ & _ & _ & H3); [reflexivity|cbn; lia|cbv; split; congruence|cbv; split; congruence|cbv; split; congruence|cbv; split; congruence|].
  split; [exact H1|]. split; [exact H2|exact H3].
Defined.

(** With [poll]: two descriptors that have been told that they can be written. *)
Definition polled : ioworld := ran_to (@__os_iomp_wait poll_env ready_hal 3000 9 3 10) poll_added.
Lemma sk_send_not_heard_witness : exists o, io_objs polled !! 2 = Some o /\
  exists w' o', @____send poll_env demo_sk 2 [1; 2; 3; 4; 5] 0 polled = Ret (5, w') /\ io_objs w' !! 2 = Some o' /\ waiting_bytes o' = [3; 4; 5] /\ has_flag (p_events (to_poll o')) AOSL_POLLOUT = false.
Proof.
  destruct (io_objs polled !! 2) as [o|] eqn:Eo; [|vm_compute in Eo; discriminate]. exists o. split; [reflexivity|].
  destruct (@sk_send_not_heard poll_env demo_sk polled 2 o [1; 2; 3; 4; 5] 0 [] 2) as (Hs & _);
    [reflexivity|exact Eo|vm_compute in Eo; injection Eo as <-; reflexivity..|vm_compute; discriminate|split; reflexivity|reflexivity|reflexivity|reflexivity|reflexivity|].
  destruct (Hs _ (or_introl eq_refl)) as (w' & o' & Er & E' & Hw & _ & Hp & _). exists w', o'. split; [exact Er|]. split; [exact E'|]. split; [exact Hw|exact Hp].
Defined.

Lemma sk_ops_safe_witness :
  exists w', run_sks (Z.to_nat 9000000) 9 [KConnect demo_args (replicate 28 0) [7]; KIo (OEvent 5 AOSL_POLLOUT); KSend 5 [1; 2; 3] 0; KIpClose (MkIpSk 5 (-1))] io_start = Ret (tt, w') /\
    @ioinv epoll_env (MkUnheard 0 0 []) [] w'.
Proof.
  apply (@sk_ops_safe epoll_env demo_sk (MkUnheard 0 0 []) 40 eq_refl); [apply demo_calm_env| |exact (@io_start_inv epoll_env (MkUnheard 0 0 []))].
  unfold enough. rewrite Z2Nat.id by lia. change (2 * FD_MAX_PACKET_SIZE_MAX) with 8388608. lia.
Defined.

(** The descriptor 4 listens: a read is [__default_accept], if there is room. *)
Definition accept_read (w : ioworld) (n : Z) : Z + list Z :=
  match __default_accept 4 w with
  | Ret (inr (newsk, addr), _) => if 4 + Z.of_nat (length addr) <=? n then inr (le_bytes 4 newsk ++ addr) else if 0 <=? n then inr [] else inl (- AOSL_EHAL)
  | _ => inl (- AOSL_EHAL)
  end.
Definition accept_env : IoEnv.
Proof.
  refine (Build_IoEnv Epoll
    (fun _ _ d => (Z.of_nat (length d), [])) (fun _ _ d => (Z.of_nat (length d), d, [])) (fun _ _ _ => []) (fun w f n => (accept_read w n, []))
    (fun w _ bs => (- AOSL_EAGAIN, [])) (fun _ _ _ => []) (fun _ => (0, 3)) (fun _ _ => 0) (fun _ _ bs => Z.min 2 (Z.of_nat (length bs))) (fun _ _ => 0)
    (fun w => 1 + max_of (fun k _ => k) (io_objs w)) (fun _ => true) (fun _ _ => 0) (fun _ _ => 0) (fun _ => 7) (fun _ _ => CallDone) _ _ _ _ _ _).
  - intros w f n bs acts. unfold accept_read. destruct (__default_accept 4 w) as [[[e|[newsk addr]] w']| | |]; try done. destruct (Z.leb_spec (4 + Z.of_nat (length addr)) n); [|destruct (Z.leb_spec 0 n); [|done]].
    + intros [= <- _]. cbn. lia.
    + by intros [= <- _].
  - intros w f n e acts Hr. assert (accept_read w n = inl e) as Hr' by congruence. clear Hr. unfold accept_read in Hr'.
    destruct (__default_accept 4 w) as [[[e'|[newsk addr]] w']| | |]; [by injection Hr' as <-| |by injection Hr' as <-..]. destruct (_ <=? _); [done|]. destruct (_ <=? _); [done|]. by injection Hr' as <-.
  - intros w f bs. cbn. unfold AOSL_EAGAIN, AOSL_EBASE. lia.
  - intros w f bs. cbn. lia.
  - intros w _. destruct (max_of_ge (fun k _ => k) (io_objs w)) as [H0 _]. split; [lia|]. apply max_of_fresh. lia.
  - done.
Defined.
Lemma accept_listens f : @listens accept_env demo_sk f.
Proof.
  intros w n e acts Hn Hr. assert (accept_read w n = inl e) as Hr' by (cbn in Hr; congruence). unfold accept_read in Hr'. unfold __default_accept, ask, modw, aosl_hal_set_error in *. cbn in Hr'.
  destruct (io_tick w <? 9) eqn:Ht; cbn in Hr'; [rewrite (proj2 (Z.leb_le 0 n) Hn) in Hr'; by destruct (_ <=? _)|]. injection Hr' as <-. exists 4. eexists. cbn. rewrite Ht. reflexivity.
Qed.
Lemma accept_calm f : @calm accept_env f 9.
Proof. intros w n Ht. eexists _, _. cbn. unfold accept_read, __default_accept, ask, modw, aosl_hal_set_error. cbn. rewrite (proj2 (Z.ltb_ge _ _) Ht). reflexivity. Qed.

(** The descriptor is added to the queue 9, and found by its dispatcher. *)
Definition listening : ioworld := ran_to (fget 4) (ran_to (@aosl_mpq_listen accept_env demo_sk 9 (MkSk 4 0 0 false true true false) 16 [7]) io_start).
Lemma listening_inv : @ioinv accept_env (MkUnheard 0 0 []) [1] listening.
Proof.
  pose proof (@this_q_listen_safe accept_env demo_sk (MkUnheard 0 0 []) eq_refl 9 (MkSk 4 0 0 false true true false) 16 [7] io_start (@io_start_inv accept_env (MkUnheard 0 0 []))) as Hl.
  apply (@on_this_q_safe accept_env (MkUnheard 0 0 []) 9 [7]) in Hl; [|exact (@io_start_inv accept_env (MkUnheard 0 0 []))]. apply wp_elim in Hl as (r & w2 & E1 & I1).
  pose proof (@fget_wp accept_env (MkUnheard 0 0 []) [] w2 [] w2 4 (J_of [] _ I1)) as Hw. unfold listening, aosl_mpq_listen. unfold ran_to at 2. rewrite E1.
  apply wp_elim in Hw as (g & w3 & E3 & [(_ & _ & [E0|E0])|(_ & J3 & Et)]); [|done|].
  - vm_compute in E1. injection E1 as <- <-. vm_compute in E0. discriminate.
  - assert (g = 1) as -> by (vm_compute in E1; injection E1 as <- <-; vm_compute in Et; congruence). unfold ran_to. rewrite E3. by eapply inv_of.
Qed.
Lemma sk_listener_closed_witness : exists o r w', io_objs listening !! 1 = Some o /\ f_fd o = 4 /\ @__iofd_read_data accept_env 60 9 1 listening = Ret (r, w') /\ attached_fds w' !! 4 <> Some 1.
Proof.
  destruct (io_objs listening !! 1) as [o|] eqn:Eo; [|vm_compute in Eo; discriminate].
  destruct (@sk_listener_closed accept_env demo_sk (MkUnheard 0 0 []) [1] 9 1 ltac:(left) 9 60 listening o listening_inv Eo (accept_listens 1) (accept_calm 1)) as (r & w' & Er & _ & Hg);
    [vm_compute in Eo; injection Eo as <-; vm_compute; reflexivity..|].
  exists o, r, w'. split; [reflexivity|]. split; [vm_compute in Eo; injection Eo as <-; reflexivity|]. split; [exact Er|apply Hg].
Defined.
