(* ===== verification/Tls.v ===== *)
(** * Thread-local storage: [lib/tls.c], and the error number on it: [lib/errno.c]

    A key is a number with a sequence counter that is odd while the key is in use.
    Every thread has a table of values with the counter of the key at the time they
    were set, so that a value of a deleted key is not taken for one of a new key with
    the same number.  The tables are found by the thread's number in a tree, here a map
    ([RbTree] has the tree); the numbers of keys are a bitmap ([Bitmap]).

    The bitmap and the counters are under a lock and a thread's table is its own, so that
    making, deleting and getting a key are one step.  [k_tls_key_set] reads
    [tls_key_id_size] again and again without the lock: what other threads have made of it
    since is an argument.  The refinement is for operations one after another;
    [tls_set_race] is what happens otherwise. *)
From S2P Require Import Prelude Bitmap IdPool.
#[local] Open Scope aosl_scope.

Definition STATIC_TLS_KEY_ID_SIZE : Z := 16.
Definition TLS_KEY_ID_MAX_SIZE : Z := 512.

(** [tls_key_id_bits], the counters of [tls_slot_table], [tls_key_id_size], and the tables
    of the threads with the counter and the value of each entry. *)
Record tls := MkTls {
  tls_key_id_bits : option bitmap_t;
  tls_slot_table : list Z;
  tls_key_id_size : Z;
  thread_tree : gmap Z (list (Z * Z))
}.

Definition set_tree m s := MkTls (tls_key_id_bits s) (tls_slot_table s) (tls_key_id_size s) m.
(** [tls_slot_table [key]] *)
Definition slot (s : tls) (key : Z) : res Z := match tls_slot_table s !! Z.to_nat key with Some seq => Ret seq | None => Fault end.
Definition __KEY_USED (seq : Z) : bool := negb (Z.land seq 1 =? 0).

(** The end of [alloc_tls_key]. *)
Definition take_key (bits : option bitmap_t) (table : list Z) (size key : Z) : CM tls Z :=
  do bits <- lift (bitmap_set bits key);
  do s <- cget;
  do seq <- lift (slot (MkTls bits table size (thread_tree s)) key);
  cput (MkTls bits (<[Z.to_nat key := u64 (seq + 1)]> table) size (thread_tree s)) ;;
  cret key.
(** The booleans are the outcomes of the allocations of the new bitmap and table. *)
Definition alloc_tls_key (m_self m_arr m_tab : bool) : CM tls Z :=
  do s <- cget;
  do key <- lift (bitmap_find_first_zero_bit (tls_key_id_bits s));
  if key <? 0 then
    if TLS_KEY_ID_MAX_SIZE <=? tls_key_id_size s then cret (- AOSL_EOVERFLOW) else
    let new_size := tls_key_id_size s + STATIC_TLS_KEY_ID_SIZE in
    match bitmap_create m_self m_arr new_size with
    | None => cret (- AOSL_ENOMEM)
    | Some new_bits =>
      if negb m_tab then cret (- AOSL_ENOMEM) else
      do bits <- lift (bitmap_copy (Some new_bits) (tls_key_id_bits s));
      do table <- lift (grow_table (tls_slot_table s) (tls_key_id_size s) new_size);
      do key <- lift (bitmap_find_first_zero_bit (Some bits));
      if key <? 0 then cabort else take_key (Some bits) table new_size key
    end
  else take_key (tls_key_id_bits s) (tls_slot_table s) (tls_key_id_size s) key.

Definition free_tls_key (key : Z) : CM tls Z :=
  do s <- cget;
  if (key <? 0) || (tls_key_id_size s <=? key) then cret (- AOSL_EINVAL) else
  do bits <- lift (bitmap_clear (tls_key_id_bits s) key);
  do seq <- lift (slot s key);
  cput (MkTls bits (<[Z.to_nat key := u64 (seq + 1)]> (tls_slot_table s)) (tls_key_id_size s) (thread_tree s)) ;;
  cret 0.

(** An error, or the key. *)
Definition k_tls_key_create (m_self m_arr m_tab : bool) : CM tls (Z + Z) :=
  do err <- alloc_tls_key m_self m_arr m_tab;
  cret (if err <? 0 then inl err else inr err).
Definition k_tls_key_delete (key : Z) : CM tls Z := free_tls_key key.

Definition k_tls_key_get (this_thread key : Z) : CM tls Z :=
  do s <- cget;
  if (key <? 0) || (tls_key_id_size s <=? key) then cret 0 else
  do key_slot <- lift (slot s key);
  if negb (__KEY_USED key_slot) then cret 0 else
  match thread_tree s !! this_thread with
  | None => cret 0
  | Some table =>
    if Z.of_nat (length table) <=? key then cret 0 else
    match table !! Z.to_nat key with
    | None => cfault
    | Some (seq, val) =>
      if negb (val =? 0) && negb (seq =? key_slot) then
        cput (set_tree (<[this_thread := <[Z.to_nat key := (seq, 0)]> table]> (thread_tree s)) s) ;; cret 0
      else cret val
    end
  end.

(** The table of a thread, made or grown so that it has an entry for [key]; the booleans
    are the outcomes of the allocations of the node, of its table and of the grown
    table, and [junk] is what the memory of the latter holds. *)
Definition grow_values (m_new : bool) (junk : Z * Z) (size key : Z) (table : list (Z * Z)) : res (list (Z * Z)) :=
  if Z.of_nat (length table) <=? key then
    if negb m_new then Abort else
    if (0 <? length table)%nat then
      if size <? Z.of_nat (length table) then Abort else Ret (table ++ replicate (Z.to_nat size - length table) (0, 0))
    else Ret (replicate (Z.to_nat size) junk)
  else Ret table.
(** The table of a thread that has none: allocated, cleared and recorded with three reads of
    the size.  Clearing more than was allocated is a fault, and so is, at once, a record that
    says that the table is longer than it is. *)
Definition first_values (alloc clear record : Z) : res (list (Z * Z)) :=
  if (alloc <? clear) || (alloc <? record) then Fault else Ret (replicate (Z.to_nat record) (0, 0)).
(** [later] is by how much other threads have made [tls_key_id_size] larger since the call, at
    the reads of lines 246, 250, 251 and 265. *)
Definition k_tls_key_set (later : nat -> Z) (m_node m_table m_new : bool) (junk : Z * Z) (this_thread key value : Z) : CM tls Z :=
  do s <- cget;
  let size := tls_key_id_size s in
  if (key <? 0) || (size <=? key) then cret (- AOSL_EINVAL) else
  do key_slot <- lift (slot s key);
  if negb (__KEY_USED key_slot) then cret (- AOSL_EINVAL) else
  do table <- match thread_tree s !! this_thread with
              | Some table => cret table
              | None => if m_node && m_table then lift (first_values (size + later 0%nat) (size + later 1%nat) (size + later 2%nat)) else cabort
              end;
  do table <- lift (grow_values m_new junk (size + later 3%nat) key table);
  if Z.of_nat (length table) <=? key then cabort else
  cput (set_tree (<[this_thread := <[Z.to_nat key := (key_slot, value)]> table]> (thread_tree s)) s) ;; cret 0.

Definition rb_tls_init (m_self m_arr : bool) : tls :=
  MkTls (bitmap_create m_self m_arr STATIC_TLS_KEY_ID_SIZE) (replicate (Z.to_nat STATIC_TLS_KEY_ID_SIZE) 0) STATIC_TLS_KEY_ID_SIZE ∅.
Definition rb_tls_fini (s : tls) : tls := MkTls None [] 0 ∅.

(** The application's interface: a key is a [uintptr_t] and is converted to [int]. *)
Definition aosl_tls_key_get (this_thread key : Z) : CM tls Z := k_tls_key_get this_thread (s32 key).

(** ** The specification

    The keys in use, and the values that were set since the key was made. *)
Record keys := MkKeys { in_use : gset Z; values : gmap (Z * Z) Z }.
Definition value_of (a : keys) (t k : Z) : Z := default 0 (values a !! (t, k)).
Definition forget (k : Z) (m : gmap (Z * Z) Z) : gmap (Z * Z) Z := filter (fun p => p.1.2 <> k) m.

Inductive tls_op :=
| Create (m_self m_arr m_tab : bool)
| Delete (k : Z)
| Get (t k : Z)
| Set_ (junk : Z * Z) (t k v : Z).
(** Operations one after another. *)
Definition alone (_ : nat) : Z := 0.
Definition run_tls (op : tls_op) : CM tls Z :=
  match op with
  | Create m1 m2 m3 => alloc_tls_key m1 m2 m3
  | Delete k => k_tls_key_delete k
  | Get t k => k_tls_key_get t k
  | Set_ junk t k v => k_tls_key_set alone true true true junk t k v
  end.
(** What an operation may answer, and the keys after it. *)
Definition answers (a : keys) (op : tls_op) (r : Z) (a' : keys) : Prop :=
  match op with
  | Create _ _ _ => (r < 0 /\ a' = a) \/ (0 <= r /\ (r ∉ in_use a) /\ a' = MkKeys ({[r]} ∪ in_use a) (forget r (values a)))
  | Delete k => r = 0 /\ a' = MkKeys (in_use a ∖ {[k]}) (forget k (values a))
  | Get t k => r = (if decide (k ∈ in_use a) then value_of a t k else 0) /\ a' = a
  | Set_ _ t k v => if decide (k ∈ in_use a) then r = 0 /\ a' = MkKeys (in_use a) (<[(t, k) := v]> (values a)) else r = - AOSL_EINVAL /\ a' = a
  end.
(** Only keys that are in use are deleted. *)
Definition allowed (a : keys) (op : tls_op) : Prop := match op with Delete k => k ∈ in_use a | _ => True end.

(** ** The refinement *)

(** The value of a thread for a key. *)
Definition view (s : tls) (t k : Z) : Z :=
  match (thread_tree s !! t) ≫= (fun table => table !! Z.to_nat k), tls_slot_table s !! Z.to_nat k with
  | Some (seq, v), Some cur => if seq =? cur then v else 0
  | _, _ => 0
  end.
(** After [n] operations. *)
Record refines (n : Z) (s : tls) (a : keys) : Prop := {
  rf_bits : exists bm, tls_key_id_bits s = Some bm /\ wf bm /\ bit_cnt bm = tls_key_id_size s /\ forall k, 0 <= k < tls_key_id_size s -> (k ∈ in_use a <-> test bm k = true);
  rf_size : 16 <= tls_key_id_size s <= 240 /\ (16 | tls_key_id_size s);
  rf_slots : length (tls_slot_table s) = Z.to_nat (tls_key_id_size s);
  rf_seq : forall k seq, tls_slot_table s !! k = Some seq -> 0 <= seq <= n /\ (Z.odd seq = true <-> Z.of_nat k ∈ in_use a);
  rf_keys : forall k, k ∈ in_use a -> 0 <= k < tls_key_id_size s;
  rf_tables : forall t table, thread_tree s !! t = Some table -> (0 < length table <= Z.to_nat (tls_key_id_size s))%nat /\
    forall k seq v cur, table !! k = Some (seq, v) -> tls_slot_table s !! k = Some cur -> seq <= cur;
  rf_view : forall t k, k ∈ in_use a -> value_of a t k = view s t k
}.

Lemma used_odd seq : __KEY_USED seq = Z.odd seq.
Proof. unfold __KEY_USED. change 1 with (Z.ones 1) at 1. rewrite Z.land_ones by lia. change (2 ^ 1) with 2. rewrite Zmod_odd. by destruct (Z.odd seq). Qed.
Lemma odd_next seq : Z.odd (seq + 1) = negb (Z.odd seq).
Proof. by rewrite Z.odd_add, xorb_true_r. Qed.
Lemma value_forget a ks t k j : value_of (MkKeys ks (forget k (values a))) t j = if decide (j = k) then 0 else value_of a t j.
Proof.
  unfold value_of, forget. cbn [values]. destruct (decide (j = k)) as [->|Hne].
  - rewrite map_lookup_filter_None_2; [done|]. right. by intros x _ [].
  - destruct (values a !! (t, j)) as [v|] eqn:E.
    + by rewrite (map_lookup_filter_Some_2 _ _ _ v).
    + rewrite map_lookup_filter_None_2; [done|]. by left.
Qed.

Section Refine.
Context (n : Z) (s : tls) (a : keys) (R : refines n s a) (Hn : n + 1 < 2 ^ 64).

Lemma slot_ok k : 0 <= k < tls_key_id_size s -> exists seq, tls_slot_table s !! Z.to_nat k = Some seq /\ slot s k = Ret seq /\ 0 <= seq <= n /\ (Z.odd seq = true <-> k ∈ in_use a).
Proof.
  intros Hk. destruct (lookup_lt_is_Some_2 (tls_slot_table s) (Z.to_nat k)) as [seq E]; [rewrite (rf_slots _ _ _ R); lia|]. exists seq. unfold slot. rewrite E. split; [done|]. split; [done|].
  pose proof (rf_seq _ _ _ R _ _ E) as Hs. by rewrite Z2Nat.id in Hs by lia.
Qed.
Lemma more_refines : refines (n + 1) s a.
Proof. destruct R as [R1 R2 R3 R4 R5 R6 R7]. split; try done. intros k seq E. destruct (R4 k seq E). split; [lia|done]. Qed.

Lemma outside k : (k <? 0) || (tls_key_id_size s <=? k) = true -> k ∉ in_use a.
Proof. intros Hk Hin. pose proof (rf_keys _ _ _ R k Hin). apply orb_true_iff in Hk as [?%Z.ltb_lt|?%Z.leb_le]; lia. Qed.
Lemma inside k : (k <? 0) || (tls_key_id_size s <=? k) = false -> 0 <= k < tls_key_id_size s.
Proof. intros [?%Z.ltb_ge ?%Z.leb_gt]%orb_false_iff. lia. Qed.

Lemma view_at t table k seq v cur : thread_tree s !! t = Some table -> table !! Z.to_nat k = Some (seq, v) -> tls_slot_table s !! Z.to_nat k = Some cur -> view s t k = if seq =? cur then v else 0.
Proof. intros Et Ek Es. unfold view. rewrite Et. cbn. by rewrite Ek, Es. Qed.

Lemma get_refines t k : exists s', k_tls_key_get t k s = Ret (if decide (k ∈ in_use a) then value_of a t k else 0, s') /\ refines (n + 1) s' a.
Proof.
  unfold k_tls_key_get. unfold cbind at 1, cget. destruct (_ || _) eqn:Hk; [apply outside in Hk; rewrite decide_False by done; eexists; split; [done|apply more_refines]|]. apply inside in Hk.
  destruct (slot_ok k Hk) as (cur & Es & El & Hc & Hodd). unfold lift, cbind at 1. rewrite El, used_odd. destruct (Z.odd cur) eqn:Ho; cbn [negb].
  2: { rewrite decide_False by (intros Hin; by apply Hodd in Hin). eexists. split; [done|apply more_refines]. }
  assert (k ∈ in_use a) as Hin by (by apply Hodd). rewrite decide_True by done. rewrite (rf_view _ _ _ R t k Hin).
  destruct (thread_tree s !! t) as [table|] eqn:Et; [|eexists; split; [unfold view; by rewrite Et|apply more_refines]]. destruct (rf_tables _ _ _ R t table Et) as (Hlen & Hseq).
  destruct (Z.leb_spec (Z.of_nat (length table)) k).
  { eexists. split; [|apply more_refines]. unfold view. rewrite Et. cbn. by rewrite lookup_ge_None_2 by lia. }
  destruct (lookup_lt_is_Some_2 table (Z.to_nat k)) as [[seq v] Ev]; [lia|]. rewrite Ev, (view_at t table k seq v cur Et Ev Es).
  destruct (Z.eqb_spec v 0) as [->|Hv]; cbn [negb andb]; [destruct (seq =? cur); eexists; (split; [done|apply more_refines])|].
  destruct (Z.eqb_spec seq cur) as [->|Hne]; cbn [negb]; [eexists; split; [done|apply more_refines]|].
  eexists. split; [done|]. destruct more_refines as [R1 R2 R3 R4 R5 R6 R7]. split; try done; cbn.
  - intros t' table'. destruct (decide (t' = t)) as [->|Ht]; [rewrite lookup_insert_eq|rewrite lookup_insert_ne by done; by apply R6]. intros [= <-]. rewrite length_insert. split; [done|].
    intros j seq' v' cur'. destruct (decide (j = Z.to_nat k)) as [->|Hj]; [rewrite list_lookup_insert_eq by lia; intros [= <- <-]; by eapply Hseq|rewrite list_lookup_insert_ne by done; by eapply Hseq].
  - intros t' k' Hin'. rewrite (rf_view _ _ _ R t' k' Hin'). unfold view. cbn. destruct (decide (t' = t)) as [->|Ht]; [rewrite lookup_insert_eq, Et|by rewrite lookup_insert_ne]. cbn.
    destruct (decide (Z.to_nat k' = Z.to_nat k)) as [->|Hj]; [|by rewrite list_lookup_insert_ne]. rewrite list_lookup_insert_eq, Ev, Es by lia. by rewrite (proj2 (Z.eqb_neq _ _) Hne).
Qed.

(** A table that is long enough. *)
Lemma grow_values_ok junk k table : 0 <= k < tls_key_id_size s -> (0 < length table <= Z.to_nat (tls_key_id_size s))%nat ->
  exists table', grow_values true junk (tls_key_id_size s) k table = Ret table' /\ (Z.to_nat k < length table' <= Z.to_nat (tls_key_id_size s))%nat /\
    forall j, table' !! j = table !! j \/ (table !! j = None /\ table' !! j = Some (0, 0)).
Proof.
  intros Hk Hl. unfold grow_values. destruct (Z.leb_spec (Z.of_nat (length table)) k); [|exists table; split; [done|]; split; [lia|]; intros j; by left].
  cbn [negb]. rewrite (proj2 (Nat.ltb_lt _ _)) by lia. rewrite (proj2 (Z.ltb_ge _ _)) by lia. eexists. split; [done|]. rewrite length_app, length_replicate. split; [lia|]. intros j.
  destruct (decide (j < length table)%nat); [left; by rewrite lookup_app_l|]. rewrite (lookup_ge_None_2 table) by lia. destruct (decide (j < Z.to_nat (tls_key_id_size s))%nat).
  - right. split; [done|]. rewrite lookup_app_r by lia. apply lookup_replicate_2. lia.
  - left. apply lookup_ge_None_2. rewrite length_app, length_replicate. lia.
Qed.

Lemma first_values_same z : first_values z z z = Ret (replicate (Z.to_nat z) (0, 0)).
Proof. unfold first_values. by rewrite Z.ltb_irrefl. Qed.

Lemma set_refines junk t k v : if decide (k ∈ in_use a) then
    exists s', k_tls_key_set alone true true true junk t k v s = Ret (0, s') /\ refines (n + 1) s' (MkKeys (in_use a) (<[(t, k) := v]> (values a)))
  else k_tls_key_set alone true true true junk t k v s = Ret (- AOSL_EINVAL, s).
Proof.
  unfold k_tls_key_set, cbind, cget, alone. cbn beta iota zeta. rewrite !Z.add_0_r. destruct (_ || _) eqn:Hk; [apply outside in Hk; by rewrite decide_False|]. apply inside in Hk.
  destruct (slot_ok k Hk) as (cur & Es & El & Hc & Hodd). assert (lift (slot s k) s = Ret (cur, s)) as -> by (unfold lift; by rewrite El). cbn beta iota. rewrite used_odd. destruct (Z.odd cur) eqn:Ho; cbn [negb]; [|rewrite decide_False by (intros Hin; by apply Hodd in Hin); done].
  rewrite decide_True by (by apply Hodd).
  assert (exists table, match thread_tree s !! t with Some table => cret table | None => if true && true then lift (first_values (tls_key_id_size s) (tls_key_id_size s) (tls_key_id_size s)) else cabort end s = Ret (table, s) /\
    (0 < length table <= Z.to_nat (tls_key_id_size s))%nat /\ (forall j seq' v' cur', table !! j = Some (seq', v') -> tls_slot_table s !! j = Some cur' -> seq' <= cur') /\
    forall j, default [] (thread_tree s !! t) !! j = table !! j \/ (default [] (thread_tree s !! t) !! j = None /\ table !! j = Some (0, 0))) as (table & Etb & Hl & Hseq & Hold).
  { destruct (thread_tree s !! t) as [table|] eqn:Et.
    - exists table. split; [done|]. destruct (rf_tables _ _ _ R t table Et) as (Hl & Hs). split; [done|]. split; [done|]. intros j. by left.
    - rewrite first_values_same. eexists. split; [done|]. rewrite length_replicate. pose proof (rf_size _ _ _ R). split; [lia|]. split.
      + intros j seq' v' cur' [[= -> ->] _]%lookup_replicate E. destruct (rf_seq _ _ _ R j cur' E). lia.
      + intros j. cbn. destruct (decide (j < Z.to_nat (tls_key_id_size s))%nat); [right; split; [done|by apply lookup_replicate_2]|left; symmetry; apply lookup_ge_None_2; rewrite length_replicate; lia]. }
  rewrite Etb. destruct (grow_values_ok junk k table Hk Hl) as (table' & Eg & Hl' & Hold'). unfold lift. rewrite Eg, (proj2 (Z.leb_gt _ _)) by lia. eexists. split; [done|].
  destruct more_refines as [R1 R2 R3 R4 R5 R6 R7]. split; try done; cbn.
  - intros t' tb. destruct (decide (t' = t)) as [->|Ht]; [rewrite lookup_insert_eq|rewrite lookup_insert_ne by done; by apply R6]. intros [= <-]. rewrite length_insert. split; [lia|].
    intros j seq' v' cur'. destruct (decide (j = Z.to_nat k)) as [->|Hj].
    + rewrite list_lookup_insert_eq by lia. intros [= <- <-]. rewrite Es. intros [= <-]. done.
    + rewrite list_lookup_insert_ne by done. destruct (Hold' j) as [->|[_ ->]]; [by apply Hseq|]. intros [= <- <-] E. destruct (rf_seq _ _ _ R j cur' E). lia.
  - intros t' k' Hin'. unfold value_of, view. cbn. destruct (decide (t' = t)) as [->|Ht].
    + rewrite lookup_insert_eq. cbn. destruct (decide (k' = k)) as [->|Hkk].
      * rewrite lookup_insert_eq, list_lookup_insert_eq, Es by lia. by rewrite Z.eqb_refl.
      * rewrite lookup_insert_ne by congruence. pose proof (rf_keys _ _ _ R k' Hin'). rewrite list_lookup_insert_ne by lia.
        change (default 0 (values a !! (t, k'))) with (value_of a t k'). rewrite (rf_view _ _ _ R t k' Hin'). unfold view.
        assert (forall j, j = Z.to_nat k' -> match (thread_tree s !! t) ≫= (fun tb => tb !! j), tls_slot_table s !! j with Some (seq, v), Some cur => if seq =? cur then v else 0 | _, _ => 0 end =
          match default [] (thread_tree s !! t) !! j, tls_slot_table s !! j with Some (seq, v), Some cur => if seq =? cur then v else 0 | _, _ => 0 end) as -> by (intros; by destruct (thread_tree s !! t)).
        2: done. destruct (Hold' (Z.to_nat k')) as [->|[E1 ->]]; [destruct (Hold (Z.to_nat k')) as [->|[-> ->]]|destruct (Hold (Z.to_nat k')) as [->|[-> E2]]; [rewrite E1|congruence]]; try done;
          destruct (tls_slot_table s !! Z.to_nat k') as [c|]; try done; by destruct (0 =? c).
    + rewrite !lookup_insert_ne by congruence. apply (rf_view _ _ _ R t' k' Hin').
Qed.
End Refine.

(** The counter of a key goes on: the key is taken or given back. *)
Lemma bump_refines n s a k bm' seq ks' : refines n s a -> n + 1 < 2 ^ 64 -> 0 <= k < tls_key_id_size s -> tls_slot_table s !! Z.to_nat k = Some seq ->
  wf bm' -> bit_cnt bm' = tls_key_id_size s -> (forall j, 0 <= j < tls_key_id_size s -> (j ∈ ks' <-> test bm' j = true)) ->
  (forall j, j <> k -> (j ∈ ks' <-> j ∈ in_use a)) -> (k ∈ ks' <-> Z.odd seq = false) ->
  refines (n + 1) (MkTls (Some bm') (<[Z.to_nat k := u64 (seq + 1)]> (tls_slot_table s)) (tls_key_id_size s) (thread_tree s)) (MkKeys ks' (forget k (values a))).
Proof.
  intros R Hn Hk Es Hwf Hcnt Hbits Hne Hodd. destruct (rf_seq _ _ _ R _ _ Es) as [Hseq _]. rewrite wrapu_id by lia. pose proof (rf_slots _ _ _ R) as Hlen.
  split; cbn [tls_key_id_bits tls_slot_table tls_key_id_size thread_tree in_use].
  - exists bm'. done.
  - apply R.
  - by rewrite length_insert.
  - intros j sq. destruct (decide (j = Z.to_nat k)) as [->|Hj].
    + rewrite list_lookup_insert_eq by lia. intros [= <-]. split; [lia|]. rewrite odd_next, negb_true_iff, Z2Nat.id by lia. by rewrite Hodd.
    + rewrite list_lookup_insert_ne by done. intros E. destruct (rf_seq _ _ _ R _ _ E) as [H1 H2]. split; [lia|]. rewrite H2. symmetry. apply Hne. lia.
  - intros j Hj. destruct (decide (j = k)) as [->|Hjk]; [done|]. apply (rf_keys _ _ _ R). by apply Hne.
  - intros t table Et. destruct (rf_tables _ _ _ R t table Et) as [Hl Hs]. split; [done|]. intros j sq v cur Ej. destruct (decide (j = Z.to_nat k)) as [->|Hj]; [|rewrite list_lookup_insert_ne by done; by eapply Hs].
    rewrite list_lookup_insert_eq by lia. intros [= <-]. pose proof (Hs _ _ _ _ Ej Es). lia.
  - intros t j Hj. rewrite value_forget. destruct (decide (j = k)) as [->|Hjk].
    + unfold view. cbn. rewrite list_lookup_insert_eq by lia. destruct (thread_tree s !! t) as [table|] eqn:Et; [|done]. cbn. destruct (table !! Z.to_nat k) as [[sq v]|] eqn:Ek; [|done].
      pose proof (proj2 (rf_tables _ _ _ R t table Et) _ _ _ _ Ek Es). by rewrite (proj2 (Z.eqb_neq _ _)) by lia.
    + apply Hne in Hj; [|done]. rewrite (rf_view _ _ _ R t j Hj). unfold view. cbn. pose proof (rf_keys _ _ _ R j Hj). by rewrite list_lookup_insert_ne by lia.
Qed.

Lemma delete_refines n s a k : refines n s a -> n + 1 < 2 ^ 64 -> k ∈ in_use a ->
  exists s', k_tls_key_delete k s = Ret (0, s') /\ refines (n + 1) s' (MkKeys (in_use a ∖ {[k]}) (forget k (values a))).
Proof.
  intros R Hn Hin. pose proof (rf_keys _ _ _ R k Hin) as Hk. destruct (rf_bits _ _ _ R) as (bm & Eb & Hwf & Hcnt & Hbits). destruct (slot_ok n s a R k Hk) as (seq & Es & El & Hseq & Hodd).
  destruct (bitmap_clear_ok bm k Hwf) as (bm' & Ec & Hwf' & Hcnt' & Htest); [lia|]. unfold k_tls_key_delete, free_tls_key, lift, cbind, cget. rewrite (proj2 (Z.ltb_ge _ _)), (proj2 (Z.leb_gt _ _)) by lia. cbn [orb].
  rewrite Eb, Ec, El. eexists. split; [done|]. apply bump_refines; try done; [lia|..].
  - intros j Hj. rewrite Htest by lia. destruct (Z.eqb_spec j k) as [->|Hjk]; [set_solver|]. rewrite <-(Hbits j Hj). set_solver.
  - set_solver.
  - assert (Z.odd seq = true) as -> by (by apply Hodd). set_solver.
Qed.

Lemma take_refines n s a key bm : refines n s a -> n + 1 < 2 ^ 64 -> tls_key_id_bits s = Some bm -> 0 <= key < tls_key_id_size s -> test bm key = false -> forall s0, thread_tree s0 = thread_tree s ->
  exists s', take_key (Some bm) (tls_slot_table s) (tls_key_id_size s) key s0 = Ret (key, s') /\ (key ∉ in_use a) /\ refines (n + 1) s' (MkKeys ({[key]} ∪ in_use a) (forget key (values a))).
Proof.
  intros R Hn Eb Hk Hfree s0 Etr. destruct (rf_bits _ _ _ R) as (bm1 & Eb1 & Hwf & Hcnt & Hbits). rewrite Eb in Eb1. injection Eb1 as <-. destruct (slot_ok n s a R key Hk) as (seq & Es & El & Hseq & Hodd).
  destruct (bitmap_set_ok bm key Hwf) as (bm' & Ec & Hwf' & Hcnt' & Htest); [lia|]. assert (key ∉ in_use a) as Hno by (intros Hin; apply (Hbits key Hk) in Hin; congruence).
  unfold take_key, lift, cbind, cget, slot. rewrite Ec. cbn [tls_slot_table]. rewrite Es, Etr. eexists. split; [done|]. split; [done|]. apply (bump_refines n s a key bm' seq); try done; [lia|..].
  - intros j Hj. rewrite Htest by lia. destruct (Z.eqb_spec j key) as [->|Hjk]; [set_solver|]. rewrite <-(Hbits j Hj). set_solver.
  - set_solver.
  - assert (Z.odd seq = false) as -> by (apply not_true_is_false; by rewrite Hodd). set_solver.
Qed.

(** The tables are made longer. *)
Lemma grow_refines n s a bits : refines n s a -> tls_key_id_size s + 16 <= 240 -> wf bits -> bit_cnt bits = tls_key_id_size s + 16 ->
  (forall bm, tls_key_id_bits s = Some bm -> forall i, 0 <= i -> test bits i = test bm i) -> 0 <= n ->
  refines n (MkTls (Some bits) (tls_slot_table s ++ replicate 16 0) (tls_key_id_size s + 16) (thread_tree s)) a.
Proof.
  intros R Hmax Hwf Hcnt Hbits Hn. destruct (rf_bits _ _ _ R) as (bm & Eb & Hwfb & Hcb & Hin). pose proof (rf_slots _ _ _ R) as Hlen. destruct (rf_size _ _ _ R) as [Hsz Hdiv].
  assert (forall k, Z.of_nat (length (tls_slot_table s)) <= k -> k ∉ in_use a) as Hnew by (intros k Hk Hi; pose proof (rf_keys _ _ _ R k Hi); lia).
  split; cbn [tls_key_id_bits tls_slot_table tls_key_id_size thread_tree].
  - exists bits. split; [done|]. split; [done|]. split; [done|]. intros k Hk. rewrite (Hbits bm Eb k) by lia. destruct (Z.lt_ge_cases k (tls_key_id_size s)); [apply Hin; lia|].
    destruct Hwfb as (_ & _ & _ & _ & Hhi). rewrite Hhi by lia. split; [|done]. intros Hi. pose proof (rf_keys _ _ _ R k Hi). lia.
  - split; [lia|]. destruct Hdiv as [z ->]. exists (z + 1). lia.
  - rewrite length_app, length_replicate. lia.
  - intros k sq. destruct (decide (k < length (tls_slot_table s))%nat); [rewrite lookup_app_l by done; apply R|]. rewrite lookup_app_r by lia. intros [-> _]%lookup_replicate. split; [lia|]. cbn. split; [done|].
    intros Hi. by apply Hnew in Hi; [|lia].
  - intros k Hi. pose proof (rf_keys _ _ _ R k Hi). lia.
  - intros t table Et. destruct (rf_tables _ _ _ R t table Et) as [Hl Hs]. split; [lia|]. intros k sq v cur Ek. rewrite lookup_app_l by (apply lookup_lt_Some in Ek; lia). by eapply Hs.
  - intros t k Hi. rewrite (rf_view _ _ _ R t k Hi). unfold view. cbn. pose proof (rf_keys _ _ _ R k Hi). by rewrite lookup_app_l by lia.
Qed.

(** Making a key: an error, or a key that was not in use. *)
Lemma create_refines n s a m1 m2 m3 : refines n s a -> 0 <= n -> n + 1 < 2 ^ 64 ->
  exists r s' a', alloc_tls_key m1 m2 m3 s = Ret (r, s') /\ answers a (Create m1 m2 m3) r a' /\ refines (n + 1) s' a' /\
    (m1 = true -> m2 = true -> m3 = true -> r < 0 <-> forall k, 0 <= k < 240 -> k ∈ in_use a) /\ (r < 0 -> r = - AOSL_ENOMEM).
Proof.
  intros R Hn0 Hn. destruct (rf_bits _ _ _ R) as (bm & Eb & Hwf & Hcnt & Hbits). destruct (rf_size _ _ _ R) as [Hsz Hdiv]. destruct (bitmap_find_first_zero_bit_ok bm Hwf) as (key & Ek & Hz). rewrite Hcnt in Hz.
  unfold alloc_tls_key, lift, cbind at 1 2, cget. rewrite Eb, Ek. destruct Hz as [[-> Hall]|(Hk & Hfree & _)].
  - change (-1 <? 0) with true. cbn iota. unfold TLS_KEY_ID_MAX_SIZE, STATIC_TLS_KEY_ID_SIZE. rewrite (proj2 (Z.leb_gt _ _)) by lia.
    assert (forall r, r = - AOSL_ENOMEM -> (m1 = true -> m2 = true -> m3 = true -> tls_key_id_size s = 240) ->
      exists r' s' a', Ret (r, s) = Ret (r', s') /\ answers a (Create m1 m2 m3) r' a' /\ refines (n + 1) s' a' /\
        (m1 = true -> m2 = true -> m3 = true -> r' < 0 <-> forall k, 0 <= k < 240 -> k ∈ in_use a) /\ (r' < 0 -> r' = - AOSL_ENOMEM)) as Hfail.
    { intros r -> Hfull. eexists _, _, a. split; [done|]. split; [by left|]. split; [by apply more_refines|]. split; [|done]. intros M1 M2 M3. split; [|done]. intros _ k Hk. rewrite <-(Hfull M1 M2 M3) in Hk. apply Hbits; [done|]. by apply Hall. }
    destruct (decide (tls_key_id_size s = 240)) as [E240|N240].
    { rewrite E240. change (bitmap_create m1 m2 (240 + 16)) with (@None bitmap_t). apply Hfail; done. }
    assert (tls_key_id_size s + 16 <= 240) as Hmax by (destruct Hdiv as [z Ez]; lia).
    destruct (bitmap_create m1 m2 _) as [bits|] eqn:Ec.
    2: { apply Hfail; [done|]. intros -> -> _. destruct (bitmap_create_ok (tls_key_id_size s + 16)) as (b & Eb' & _); [lia|]. congruence. }
    destruct m3; cbn [negb]; [|apply Hfail; [done|congruence]].
    assert (m1 = true /\ m2 = true) as [-> ->]. { unfold bitmap_create in Ec. destruct (_ =? 0); [done|]. by destruct m1, m2. }
    destruct (bitmap_create_ok (tls_key_id_size s + 16)) as (b & Eb' & Hwfb & Hcb & _); [lia|]. rewrite Ec in Eb'. injection Eb' as <-.
    destruct (bitmap_copy_ok bits bm Hwfb Hwf) as (bits' & Ecp & Hwf' & Hcnt' & Htest); [lia|]. unfold cbind. rewrite Ecp. unfold grow_table. rewrite (rf_slots _ _ _ R), (proj2 (Nat.leb_le _ _)) by lia.
    destruct (bitmap_find_first_zero_bit_ok bits' Hwf') as (key & Ek' & Hz'). rewrite Ek'. rewrite Hcnt', Hcb in Hz'.
    assert (test bits' (tls_key_id_size s) = false) as Hnew by (rewrite Htest by lia; destruct Hwf as (_ & _ & _ & _ & Hhi); apply Hhi; lia).
    destruct Hz' as [[-> Hall']|(Hk & Hfree & _)]; [rewrite Hall' in Hnew by lia; done|]. rewrite (proj2 (Z.ltb_ge _ _)) by lia.
    rewrite (take_ge (tls_slot_table s)) by (rewrite (rf_slots _ _ _ R); lia). replace (Z.to_nat (tls_key_id_size s + 16 - tls_key_id_size s)) with 16%nat by lia.
    pose proof (grow_refines n s a bits' R Hmax Hwf' ltac:(lia) ltac:(intros bm0 E0; rewrite Eb in E0; injection E0 as <-; exact Htest) Hn0) as R'.
    destruct (take_refines n _ a key bits' R' Hn eq_refl Hk Hfree s eq_refl) as (s' & Et & Hno & R2). cbn [tls_slot_table tls_key_id_size] in Et. eexists _, s', _. split; [exact Et|]. split; [right; split; [lia|done]|].
    split; [done|]. split; [|lia]. intros _ _ _. split; [lia|]. intros Hfull. pose proof (Hfull (tls_key_id_size s) ltac:(lia)) as Hi. pose proof (rf_keys _ _ _ R _ Hi). lia.
  - rewrite (proj2 (Z.ltb_ge _ _)) by lia. destruct (take_refines n s a key bm R Hn Eb Hk Hfree s eq_refl) as (s' & Et & Hno & R2). eexists _, s', _. split; [exact Et|]. split; [right; split; [lia|done]|].
    split; [done|]. split; [|lia]. intros _ _ _. split; [lia|]. intros Hfull. destruct Hno. apply Hfull. lia.
Qed.

Lemma init_refines : refines 0 (rb_tls_init true true) (MkKeys ∅ ∅).
Proof.
  destruct (bitmap_create_ok 16) as (bm & Eb & Hwf & Hcnt & Htest); [lia|]. split; cbn [rb_tls_init tls_key_id_bits tls_slot_table tls_key_id_size thread_tree in_use].
  - exists bm. unfold STATIC_TLS_KEY_ID_SIZE. rewrite Eb. split; [done|]. split; [done|]. split; [done|]. intros k _. rewrite Htest. set_solver.
  - unfold STATIC_TLS_KEY_ID_SIZE. split; [lia|]. by exists 1.
  - by rewrite length_replicate.
  - intros k seq [-> _]%lookup_replicate. cbn. split; [lia|]. set_solver.
  - set_solver.
  - intros t table E. by rewrite lookup_empty in E.
  - set_solver.
Qed.

Lemma op_refines n s a op : refines n s a -> 0 <= n -> n + 1 < 2 ^ 64 -> allowed a op ->
  exists r s' a', run_tls op s = Ret (r, s') /\ answers a op r a' /\ refines (n + 1) s' a'.
Proof.
  intros R Hn0 Hn Ha. destruct op as [m1 m2 m3|k|t k|junk t k v]; cbn [run_tls answers].
  - destruct (create_refines n s a m1 m2 m3 R Hn0 Hn) as (r & s' & a' & Er & Hr & R' & _). by exists r, s', a'.
  - destruct (delete_refines n s a k R Hn Ha) as (s' & Er & R'). by eexists _, s', _.
  - destruct (get_refines n s a R t k) as (s' & Er & R'). by eexists _, s', a.
  - pose proof (set_refines n s a R junk t k v) as Hs. destruct (decide (k ∈ in_use a)); [destruct Hs as (s' & Er & R'); by eexists _, s', _|].
    eexists _, s, a. split; [exact Hs|]. split; [done|]. by apply more_refines.
Qed.

(** Applications delete the keys that they hold; what they did, with the answers. *)
Definition hold (held : gset Z) (op : tls_op) (r : Z) : gset Z :=
  match op with
  | Create _ _ _ => if r <? 0 then held else {[r]} ∪ held
  | Delete k => held ∖ {[k]}
  | _ => held
  end.
Definition may (held : gset Z) (op : tls_op) : bool := match op with Delete k => bool_decide (k ∈ held) | _ => true end.
Fixpoint client (held : gset Z) (ops : list tls_op) : CM tls (list (tls_op * Z)) :=
  match ops with
  | [] => cret []
  | op :: ops =>
    if may held op then
      do r <- run_tls op;
      do l <- client (hold held op r) ops;
      cret ((op, r) :: l)
    else client held ops
  end.
Fixpoint history (a : keys) (l : list (tls_op * Z)) (a' : keys) : Prop :=
  match l with
  | [] => a' = a
  | (op, r) :: l => exists a1, answers a op r a1 /\ history a1 l a'
  end.

Lemma answers_hold a op r a' : answers a op r a' -> in_use a' = hold (in_use a) op r.
Proof.
  destruct op as [m1 m2 m3|k|t k|junk t k v]; cbn.
  - intros [[Hr ->]|(Hr & _ & ->)]; [by rewrite (proj2 (Z.ltb_lt _ _) Hr)|by rewrite (proj2 (Z.ltb_ge _ _) Hr)].
  - by intros [_ ->].
  - by intros [_ ->].
  - destruct (decide _); by intros [_ ->].
Qed.
Lemma client_refines ops : forall n s a, refines n s a -> 0 <= n -> n + Z.of_nat (length ops) < 2 ^ 64 ->
  exists l s' a' m, client (in_use a) ops s = Ret (l, s') /\ history a l a' /\ refines m s' a'.
Proof.
  induction ops as [|op ops IH]; intros n s a R Hn0 Hn; cbn [client]; [by exists [], s, a, n|]. cbn [length] in Hn. destruct (may (in_use a) op) eqn:Hm; [|apply (IH n); [done|done|lia]].
  destruct (op_refines n s a op R Hn0) as (r & s1 & a1 & Er & Ha & R1); [lia|destruct op; try done; by apply bool_decide_eq_true in Hm|].
  destruct (IH (n + 1) s1 a1 R1) as (l & s' & a' & m & El & Hh & R'); [lia|lia|]. rewrite (answers_hold a op r a1 Ha) in El. exists ((op, r) :: l), s', a', m.
  split; [|split; [by exists a1|done]]. rewrite (cbind_ret _ _ _ _ _ Er), (cbind_ret _ _ _ _ _ El). done.
Qed.

(** C35: Thread-local storage: for every sequence of operations, one after another, of any
    threads that deletes only keys in use, with memory for the tables of the threads, a new
    key is one that is not in use, and [k_tls_key_get] gives the value that was set last for
    the number of the thread since the key was made, else NULL, however often the number of
    the key was used before; nothing faults or aborts.  A thread that comes with the number
    of one that has ended finds the values of that one, and keys that are made while a
    thread makes its table are the subject of [tls_set_race]. *)
Theorem tls_values ops :
  Z.of_nat (length ops) < 2 ^ 64 ->
  exists l s' a', client ∅ ops (rb_tls_init true true) = Ret (l, s') /\ history (MkKeys ∅ ∅) l a' /\
    forall t k, k ∈ in_use a' -> exists s'', k_tls_key_get t k s' = Ret (value_of a' t k, s'').
Proof.
  intros Hlen. destruct (client_refines ops 0 _ _ init_refines) as (l & s' & a' & m & El & Hh & R'); [lia|lia|]. exists l, s', a'. split; [exact El|]. split; [done|].
  intros t k Hk. destruct (get_refines m s' a' R' t k) as (s'' & Eg & _). rewrite decide_True in Eg by done. by exists s''.
Qed.
Lemma tls_values_witness : exists l s' a', client ∅ [Create true true true; Set_ (0, 0) 7 0 5; Delete 0; Create true true true; Get 7 0] (rb_tls_init true true) = Ret (l, s') /\ history (MkKeys ∅ ∅) l a' /\
  map snd l = [0; 0; 0; 0; 0].
Proof.
  destruct (tls_values [Create true true true; Set_ (0, 0) 7 0 5; Delete 0; Create true true true; Get 7 0] ltac:(reflexivity)) as (l & s' & a' & El & Hh & _). exists l, s', a'. split; [exact El|]. split; [exact Hh|].
  vm_compute in El. injection El as <- _. reflexivity.
Defined.

(** The limit of 512 keys is not reached: when 240 keys are in use there are no more, because
    a bitmap has less than 256 bits, and the error is [AOSL_ENOMEM]. *)
Theorem tls_key_limit n s a : refines n s a -> 0 <= n -> n + 1 < 2 ^ 64 ->
  exists r s', alloc_tls_key true true true s = Ret (r, s') /\ (r < 0 <-> forall k, 0 <= k < 240 -> k ∈ in_use a) /\ (r < 0 -> r = - AOSL_ENOMEM).
Proof. intros R Hn0 Hn. destruct (create_refines n s a true true true R Hn0 Hn) as (r & s' & _ & Er & _ & _ & Hl & He). exists r, s'. split; [done|]. split; [by apply Hl|done]. Qed.

(** A key that is deleted twice is broken: its number is given out again, but the new key
    cannot be used. *)
Example tls_double_delete :
  let run := do k <- alloc_tls_key true true true; do r1 <- k_tls_key_delete k; do r2 <- k_tls_key_delete k;
             do k' <- alloc_tls_key true true true; do r3 <- k_tls_key_set alone true true true (0, 0) 7 k' 5; cret [k; r1; r2; k'; r3] in
  exists s, run (rb_tls_init true true) = Ret ([0; 0; 0; 0; - AOSL_EINVAL], s).
Proof. eexists. vm_compute. reflexivity. Qed.

(** Another thread makes key number 16 after the first [k_tls_key_set] of a thread has
    allocated its table and before it clears it: it clears beyond the end of the table. *)
Example tls_set_race :
  let made := do k <- alloc_tls_key true true true; cret k in
  match made (rb_tls_init true true) with
  | Ret (k, s) => k = 0 /\ k_tls_key_set (fun i => if (i =? 0)%nat then 0 else 16) true true true (0, 0) 7 k 5 s = Fault
  | _ => False
  end.
Proof. vm_compute. done. Qed.
