(* ===== verification/Errno.v ===== *)
(** * The error number of a thread: the first part of [lib/errno.c]

    [aosl_errno] is an integer that the thread finds under a key of the thread-local
    storage ([Tls]), and that is made when it is first used. *)
From S2P Require Import Prelude Bitmap Tls.
#[local] Open Scope aosl_scope.

(** [errno_key], [s_err_list] and the memory of the integers. *)
Record errs := MkErrs {
  e_tls : tls;
  errno_key : Z;
  s_err_list : list Z;
  err_ints : gmap Z Z
}.
Definition on_tls {A} (m : CM tls A) : CM errs A := fun e =>
  match m (e_tls e) with
  | Ret (a, s) => Ret (a, MkErrs s (errno_key e) (s_err_list e) (err_ints e))
  | Abort => Abort
  | Fault => Fault
  | NoFuel => NoFuel
  end.

Definition k_errno_init : CM errs unit :=
  do key <- on_tls (alloc_tls_key true true true);
  if key <? 0 then cabort else
  do e <- cget;
  cput (MkErrs (e_tls e) key [] (err_ints e)).

(** The loop of [k_errno_fini]: the integers are freed; one that is not there is a [Fault]. *)
Fixpoint free_ints (l : list Z) (m : gmap Z Z) : res (gmap Z Z) :=
  match l with
  | [] => Ret m
  | p :: l => match m !! p with Some _ => free_ints l (delete p m) | None => Fault end
  end.
Definition k_errno_fini : CM errs unit :=
  do e <- cget;
  if errno_key e <? 0 then cret tt else
  do _ <- on_tls (k_tls_key_delete (errno_key e));
  do e <- cget;
  do m <- lift (free_ints (s_err_list e) (err_ints e));
  cput (MkErrs (e_tls e) (-1) [] m).

(** [p] is the address of the integer if it has to be made. *)
Definition aosl_errno_ptr (this_thread p : Z) : CM errs Z :=
  do e <- cget;
  if errno_key e <? 0 then cabort else
  do errno_ptr <- on_tls (k_tls_key_get this_thread (errno_key e));
  if errno_ptr =? 0 then
    do e <- cget;
    cput (MkErrs (e_tls e) (errno_key e) (p :: s_err_list e) (err_ints e)) ;;
    do err <- on_tls (k_tls_key_set alone true true true (0, 0) this_thread (errno_key e) p);
    if err <? 0 then cabort else
    do e <- cget;
    cput (MkErrs (e_tls e) (errno_key e) (s_err_list e) (<[p := 0]> (err_ints e))) ;;
    cret p
  else cret errno_ptr.

(** [aosl_errno] read and assigned. *)
Definition read_errno (this_thread p : Z) : CM errs Z :=
  do ptr <- aosl_errno_ptr this_thread p;
  do e <- cget;
  match err_ints e !! ptr with Some x => cret x | None => cfault end.
Definition write_errno (this_thread p x : Z) : CM errs unit :=
  do ptr <- aosl_errno_ptr this_thread p;
  do e <- cget;
  match err_ints e !! ptr with
  | Some _ => cput (MkErrs (e_tls e) (errno_key e) (s_err_list e) (<[ptr := x]> (err_ints e)))
  | None => cfault
  end.

(** ** Every thread has its own

    [errnos] are the numbers of the threads; [a] the keys and values. *)
Record own (n : Z) (e : errs) (a : keys) (errnos : gmap Z Z) : Prop := {
  ow_tls : refines n (e_tls e) a;
  ow_key : errno_key e ∈ in_use a;
  ow_some : forall t, value_of a t (errno_key e) <> 0 -> value_of a t (errno_key e) ∈ s_err_list e /\ err_ints e !! value_of a t (errno_key e) = Some (default 0 (errnos !! t));
  ow_none : forall t, value_of a t (errno_key e) = 0 -> default 0 (errnos !! t) = 0;
  ow_inj : forall t1 t2, value_of a t1 (errno_key e) = value_of a t2 (errno_key e) -> value_of a t1 (errno_key e) <> 0 -> t1 = t2;
  ow_list : NoDup (s_err_list e) /\ forall p, p ∈ s_err_list e -> is_Some (err_ints e !! p)
}.

Lemma value_insert a t k v t' : value_of (MkKeys (in_use a) (<[(t, k) := v]> (values a))) t' k = if decide (t' = t) then v else value_of a t' k.
Proof. unfold value_of. cbn. destruct (decide (t' = t)) as [->|Hne]; [by rewrite lookup_insert_eq|]. by rewrite lookup_insert_ne by congruence. Qed.

(** The integer of a thread, made if need be. *)
Lemma errno_ptr_ok n e a errnos t p : own n e a errnos -> n + 2 < 2 ^ 64 -> 0 <= n -> p <> 0 -> err_ints e !! p = None ->
  exists ptr e' a' m, aosl_errno_ptr t p e = Ret (ptr, e') /\ m <= n + 2 /\ own m e' a' errnos /\ value_of a' t (errno_key e') = ptr /\ ptr <> 0 /\ 0 <= m.
Proof.
  intros O Hn Hn0 Hp Hfresh. destruct O as [R Hk Hs Hno Hinj [Hnd Hl]]. pose proof (rf_keys _ _ _ R _ Hk) as Hkr. unfold aosl_errno_ptr, on_tls, cbind, cget, cput, cret. rewrite (proj2 (Z.ltb_ge _ _)) by lia.
  destruct (get_refines n (e_tls e) a R t (errno_key e)) as (s1 & -> & R1). rewrite decide_True by done. destruct (Z.eqb_spec (value_of a t (errno_key e)) 0) as [E0|E0].
  2: { eexists _, _, a, (n + 1). split; [done|]. split; [lia|]. split; [by split|]. split; [done|]. split; [done|lia]. }
  cbn [e_tls errno_key s_err_list err_ints]. pose proof (set_refines (n + 1) s1 a R1 (0, 0) t (errno_key e) p) as Hset. rewrite decide_True in Hset by done. destruct Hset as (s2 & -> & R2). change (0 <? 0) with false. cbn iota.
  eexists _, _, _, (n + 1 + 1). split; [done|]. split; [lia|]. assert (p ∉ s_err_list e) as Hpl by (intros Hin; destruct (Hl p Hin); congruence).
  split; [|split; [cbn [errno_key]; rewrite value_insert; by rewrite decide_True|split; [done|lia]]].
  split; cbn [e_tls errno_key s_err_list err_ints]; try done.
  - intros t'. rewrite value_insert. destruct (decide (t' = t)) as [->|Hne]; [intros _; split; [by left|]; rewrite lookup_insert_eq; by rewrite (Hno t E0)|]. intros Hv. destruct (Hs t' Hv) as [H1 H2]. split; [by right|].
    rewrite lookup_insert_ne; [done|]. intros Heq. by rewrite <-Heq in H1.
  - intros t'. rewrite value_insert. destruct (decide (t' = t)); [done|apply Hno].
  - intros t1 t2. rewrite !value_insert. destruct (decide (t1 = t)) as [->|H1], (decide (t2 = t)) as [->|H2]; try done.
    + intros E _. rewrite E in Hp, Hpl. by destruct (Hs t2 Hp).
    + intros E Hv. destruct (Hs t1 Hv) as [Hin _]. by rewrite E in Hin.
    + apply Hinj.
  - split; [by constructor|]. intros p' [->|Hin]%elem_of_cons; [rewrite lookup_insert_eq; by eexists|]. destruct (decide (p' = p)) as [->|Hne]; [by rewrite lookup_insert_eq; eexists|]. rewrite lookup_insert_ne by done. by apply Hl.
Qed.

(** Reading gives the number that the thread itself has assigned last, 0 before; assigning
    changes no other thread's. *)
Theorem errno_per_thread n e a errnos t p : own n e a errnos -> n + 2 < 2 ^ 64 -> 0 <= n -> p <> 0 -> err_ints e !! p = None ->
  (exists e' a' m, read_errno t p e = Ret (default 0 (errnos !! t), e') /\ own m e' a' errnos) /\
  forall x, exists e' a' m, write_errno t p x e = Ret (tt, e') /\ own m e' a' (<[t := x]> errnos).
Proof.
  intros O Hn Hn0 Hp Hfresh. destruct (errno_ptr_ok n e a errnos t p O Hn Hn0 Hp Hfresh) as (ptr & e1 & a1 & m & E1 & _ & O1 & Ev & Hz & _).
  destruct (ow_some _ _ _ _ O1 t) as [Hin Hint]; [congruence|]. rewrite Ev in Hin, Hint. unfold read_errno, write_errno, cbind, cget. rewrite E1, Hint. split; [by exists e1, a1, m|]. intros x. eexists _, a1, m. split; [done|].
  destruct O1 as [R Hk Hs Hno Hinj [Hnd Hl]]. split; cbn [e_tls errno_key s_err_list err_ints]; try done.
  - intros t' Hv. destruct (Hs t' Hv) as [H1 H2]. split; [done|]. destruct (decide (t' = t)) as [->|Hne]; [rewrite Ev, !lookup_insert_eq; done|]. rewrite (lookup_insert_ne errnos) by done.
    rewrite lookup_insert_ne; [done|]. rewrite <-Ev. intros Heq. by apply Hne; symmetry; apply Hinj; [|congruence].
  - intros t' Hv. destruct (decide (t' = t)) as [->|Hne]; [congruence|]. rewrite lookup_insert_ne by done. by apply Hno.
  - split; [done|]. intros p' Hp'. destruct (decide (p' = ptr)) as [->|Hne]; [by rewrite lookup_insert_eq; eexists|]. rewrite lookup_insert_ne by done. by apply Hl.
Qed.

(** The end frees every integer once. *)
Lemma free_ints_ok : forall l m, NoDup l -> (forall p, p ∈ l -> is_Some (m !! p)) -> exists m', free_ints l m = Ret m' /\ forall p, p ∈ l -> m' !! p = None.
Proof.
  induction l as [|p l IH]; intros m Hnd Hl; [exists m; split; [done|]; by intros p ?%elem_of_nil|]. apply NoDup_cons in Hnd as [Hp Hnd]. cbn [free_ints]. destruct (Hl p) as [x ->]; [left|].
  assert (forall m1 l1 m2, free_ints l1 m1 = Ret m2 -> forall q, m1 !! q = None -> m2 !! q = None) as Hkeep.
  { intros m1 l1. revert m1. induction l1 as [|r l1 IH1]; intros m1 m2; cbn; [by intros [= <-]|]. destruct (m1 !! r) eqn:Er; [|done]. intros Hf q Hq. eapply IH1; [exact Hf|]. destruct (decide (q = r)) as [->|]; [congruence|]. by rewrite lookup_delete_ne. }
  destruct (IH (delete p m) Hnd) as (m' & E & Hgone).
  - intros q Hq. rewrite lookup_delete_ne; [apply Hl; by right|]. intros <-. done.
  - exists m'. split; [done|]. intros q [->|Hq]%elem_of_cons; [|by apply Hgone]. eapply Hkeep; [exact E|]. apply lookup_delete_eq.
Qed.
Theorem errno_fini_frees n e a errnos : own n e a errnos -> n + 1 < 2 ^ 64 ->
  exists e', k_errno_fini e = Ret (tt, e') /\ errno_key e' = -1 /\ s_err_list e' = [] /\ forall p, p ∈ s_err_list e -> err_ints e' !! p = None.
Proof.
  intros [R Hk Hs Hno Hinj [Hnd Hl]] Hn. pose proof (rf_keys _ _ _ R _ Hk). unfold k_errno_fini, on_tls, lift, cbind, cget. rewrite (proj2 (Z.ltb_ge _ _)) by lia.
  destruct (delete_refines n (e_tls e) a (errno_key e) R Hn Hk) as (s' & -> & _). cbn [s_err_list err_ints e_tls]. destruct (free_ints_ok _ _ Hnd Hl) as (m' & -> & Hgone). eexists. split; [done|]. done.
Qed.
Lemma errno_init_own e a n : refines n (e_tls e) a -> 0 <= n -> n + 1 < 2 ^ 64 -> (exists k, 0 <= k < 240 /\ k ∉ in_use a) ->
  exists e' a', k_errno_init e = Ret (tt, e') /\ own (n + 1) e' a' ∅.
Proof.
  intros R Hn0 Hn (k & Hk & Hfree). destruct (create_refines n (e_tls e) a true true true R Hn0 Hn) as (r & s' & a' & Er & Ha & R' & Hlim & _). unfold k_errno_init, on_tls, cbind, cget. rewrite Er.
  destruct (Z.ltb_spec r 0) as [Hr|Hr]; [destruct Hfree; by apply Hlim|]. eexists _, a'. split; [done|]. cbn in Ha. destruct Ha as [[? _]|(_ & Hno & ->)]; [lia|].
  assert (forall t, value_of (MkKeys ({[r]} ∪ in_use a) (forget r (values a))) t r = 0) as Hv by (intros t; rewrite value_forget; by rewrite decide_True).
  split; cbn [e_tls errno_key s_err_list err_ints]; try done.
  - set_solver.
  - intros t. by rewrite Hv.
  - intros t1 t2 _. by rewrite Hv.
  - split; [constructor|]. by intros p ?%elem_of_nil.
Qed.
