(* ===== verification/Mm.v ===== *)
(** * Memory: [mm/mm.c], with [CONFIG_AOSL_MEM_STAT] and [CONFIG_AOSL_MEM_DUMP]

    The allocator of the library is that of the platform, with an account: a tree of
    the blocks by their addresses, a tree of the places in the source where they were
    allocated, and the number of bytes in use.  The trees are maps here ([RbTree] has the
    trees; the addresses of blocks are different).  The account is changed under one lock, but
    a block and its record are not changed together: the histories below are operations one
    after another. *)
From S2P Require Import Prelude.
#[local] Open Scope aosl_scope.

(** A place: [__FUNCTION__], of which the text counts, and [__LINE__]. *)
Definition mm_place : Type := list Z * Z.
(** [struct mm_ptr_node]; a block that is allocated without a place has [func = NULL]. *)
Record mm_ptr_node := MkPtr { pn_size : Z; pn_pos : option mm_place }.
(** [struct mm_pos_node] *)
Record mm_pos_node := MkPos { cnts : Z; ps_size : Z }.
Definition sizeof_ptr_node : Z := 56.
Definition sizeof_pos_node : Z := 48.

(** [blocks] are the blocks of the platform that the library has, with their sizes. *)
Record mm := MkMm {
  blocks : gmap Z Z;
  __mm_ptr_tree : gmap Z mm_ptr_node;
  __mm_pos_tree : gmap mm_place mm_pos_node;
  __mem_check_inited : bool;
  __mem_used : Z
}.
Definition set_blocks b s := MkMm b (__mm_ptr_tree s) (__mm_pos_tree s) (__mem_check_inited s) (__mem_used s).

(** [func != NULL && line != 0] *)
Definition has_place (pos : option mm_place) : option mm_place := match pos with Some (f, l) => if l =? 0 then None else Some (f, l) | None => None end.

(** ** The account

    [m_ptr] and [m_pos] are the outcomes of the allocations of the nodes, whose results are
    not checked. *)
Definition count_pos (m_pos : bool) (size : Z) (pos : option mm_place) (s : mm) : res mm :=
  match has_place pos with
  | None => Ret s
  | Some p =>
    match __mm_pos_tree s !! p with
    | Some nd =>
      Ret (MkMm (blocks s) (__mm_ptr_tree s) (<[p := MkPos (s32 (cnts nd + 1)) (u64 (ps_size nd + size))]> (__mm_pos_tree s)) (__mem_check_inited s) (__mem_used s))
    | None =>
      if negb m_pos then Fault else
      Ret (MkMm (blocks s) (__mm_ptr_tree s) (<[p := MkPos (s32 (0 + 1)) (u64 (0 + size))]> (__mm_pos_tree s)) (__mem_check_inited s) (u64 (__mem_used s + sizeof_pos_node)))
    end
  end.
Definition mm_insert_ptr_dbg (m_ptr m_pos : bool) (ptr size : Z) (pos : option mm_place) : CM mm unit :=
  do s <- cget;
  if negb (__mem_check_inited s) then cret tt else
  if ptr =? 0 then cret tt else
  if negb m_ptr then cfault else
  do s <- lift (count_pos m_pos size pos (MkMm (blocks s) (<[ptr := MkPtr size pos]> (__mm_ptr_tree s)) (__mm_pos_tree s) (__mem_check_inited s) (u64 (__mem_used s + (size + sizeof_ptr_node)))));
  cput s.
Definition mm_insert_ptr (m_ptr m_pos : bool) (ptr size : Z) : CM mm unit := mm_insert_ptr_dbg m_ptr m_pos ptr size None.

Definition uncount_pos (nd : mm_ptr_node) (s : mm) : mm :=
  match has_place (pn_pos nd) with
  | None => s
  | Some p =>
    match __mm_pos_tree s !! p with
    | None => s
    | Some pn =>
      let pn' := MkPos (s32 (cnts pn - 1)) (u64 (ps_size pn - pn_size nd)) in
      if cnts pn' =? 0 then MkMm (blocks s) (__mm_ptr_tree s) (delete p (__mm_pos_tree s)) (__mem_check_inited s) (u64 (__mem_used s - sizeof_pos_node))
      else MkMm (blocks s) (__mm_ptr_tree s) (<[p := pn']> (__mm_pos_tree s)) (__mem_check_inited s) (__mem_used s)
    end
  end.
Definition mm_remove_ptr (ptr : Z) : CM mm Z :=
  do s <- cget;
  if negb (__mem_check_inited s) then cret ptr else
  if ptr =? 0 then cret ptr else
  match __mm_ptr_tree s !! ptr with
  | None => cret ptr
  | Some nd =>
    cput (uncount_pos nd (MkMm (blocks s) (delete ptr (__mm_ptr_tree s)) (__mm_pos_tree s) (__mem_check_inited s) (u64 (__mem_used s - (pn_size nd + sizeof_ptr_node))))) ;;
    cret ptr
  end.

(** ** The functions

    [p] is what the platform's allocator gives, 0 for NULL. *)
Definition FREE (ptr : Z) : CM mm unit :=
  do s <- cget;
  if ptr =? 0 then cret tt else
  match blocks s !! ptr with Some _ => cput (set_blocks (delete ptr (blocks s)) s) | None => cfault end.
Definition aosl_malloc_impl_dbg (m_ptr m_pos : bool) (p size : Z) (pos : option mm_place) : CM mm Z :=
  if negb (Z.land p 7 =? 0) then cabort else
  if p =? 0 then cabort else
  do s <- cget;
  cput (set_blocks (<[p := size]> (blocks s)) s) ;;
  mm_insert_ptr_dbg m_ptr m_pos p size pos ;;
  cret p.
Definition aosl_malloc_impl (m_ptr m_pos : bool) (p size : Z) : CM mm Z := aosl_malloc_impl_dbg m_ptr m_pos p size None.
Definition aosl_free_impl (ptr : Z) : CM mm unit := do _ <- mm_remove_ptr ptr; FREE ptr.
Definition aosl_calloc_impl_dbg (m_ptr m_pos : bool) (p nmemb size : Z) (pos : option mm_place) : CM mm Z := aosl_malloc_impl_dbg m_ptr m_pos p (u64 (nmemb * size)) pos.
Definition aosl_calloc_impl (m_ptr m_pos : bool) (p nmemb size : Z) : CM mm Z := aosl_calloc_impl_dbg m_ptr m_pos p nmemb size None.
(** A [realloc] that gives NULL has kept the block, unless [size] is 0: then it has freed it. *)
Definition aosl_realloc_impl_dbg (m_ptr m_pos : bool) (p ptr size : Z) (pos : option mm_place) : CM mm Z :=
  if p =? 0 then (when size =? 0 then FREE ptr) ;; cret 0 else
  FREE ptr ;;
  do s <- cget;
  cput (set_blocks (<[p := size]> (blocks s)) s) ;;
  do _ <- mm_remove_ptr ptr;
  mm_insert_ptr_dbg m_ptr m_pos p size pos ;;
  cret p.
Definition aosl_realloc_impl (m_ptr m_pos : bool) (p ptr size : Z) : CM mm Z := aosl_realloc_impl_dbg m_ptr m_pos p ptr size None.
Definition aosl_strdup_impl_dbg (m_ptr m_pos : bool) (p : Z) (s : option (list Z)) (pos : option mm_place) : CM mm Z :=
  match s with Some s => aosl_malloc_impl_dbg m_ptr m_pos p (Z.of_nat (length s) + 1) pos | None => cret 0 end.
Definition aosl_strdup_impl (m_ptr m_pos : bool) (p : Z) (s : option (list Z)) : CM mm Z := aosl_strdup_impl_dbg m_ptr m_pos p s None.
Definition aosl_memused : CM mm Z := do s <- cget; cret (__mem_used s).

Definition k_mm_init : CM mm unit := do s <- cget; cput (MkMm (blocks s) (__mm_ptr_tree s) (__mm_pos_tree s) true 0).
Definition k_mm_fini : CM mm unit := do s <- cget; cput (MkMm (blocks s) ∅ ∅ false 0).

(** ** The account is right *)

(** A sum over the recorded blocks. *)
Definition msum (g : mm_ptr_node -> Z) (m : gmap Z mm_ptr_node) : Z := map_fold (fun _ x acc => g x + acc) 0 m.
Lemma msum_insert g m p x : m !! p = None -> msum g (<[p := x]> m) = g x + msum g m.
Proof. intros Hn. unfold msum. rewrite map_fold_insert_L; [done| |done]. intros. lia. Qed.
Lemma msum_delete g m p x : m !! p = Some x -> msum g m = g x + msum g (delete p m).
Proof. intros Hs. unfold msum. rewrite (map_fold_delete_L _ _ p x m); [done| |done]. intros. lia. Qed.
Lemma msum_nonneg g m : (forall x, 0 <= g x) -> 0 <= msum g m.
Proof. intros Hg. unfold msum. apply (map_fold_weak_ind (fun r _ => 0 <= r)); [done|]. intros i x m' r _ Hr. specialize (Hg x). lia. Qed.
Lemma msum_le g m : (forall x, g x <= 1) -> msum g m <= Z.of_nat (size m).
Proof.
  intros Hg. induction m as [|i x m Hn IH] using map_ind; [done|]. rewrite msum_insert, map_size_insert_None by done. specialize (Hg x). lia.
Qed.

(** What was allocated at a place. *)
Definition at_place (p : mm_place) (x : mm_ptr_node) : Z := if decide (has_place (pn_pos x) = Some p) then 1 else 0.
Definition bytes_at (p : mm_place) (x : mm_ptr_node) : Z := if decide (has_place (pn_pos x) = Some p) then pn_size x else 0.

Record accounted (s : mm) : Prop := {
  ac_inited : __mem_check_inited s = true;
  ac_blocks : forall p x, __mm_ptr_tree s !! p = Some x -> blocks s !! p = Some (pn_size x);
  ac_used : __mem_used s = u64 (msum (fun x => pn_size x + sizeof_ptr_node) (__mm_ptr_tree s) + sizeof_pos_node * Z.of_nat (size (__mm_pos_tree s)));
  ac_pos : forall p, match __mm_pos_tree s !! p with
    | Some nd => 0 < cnts nd /\ cnts nd = msum (at_place p) (__mm_ptr_tree s) /\ ps_size nd = u64 (msum (bytes_at p) (__mm_ptr_tree s))
    | None => msum (at_place p) (__mm_ptr_tree s) = 0
    end
}.

Lemma u64_add x y : u64 (u64 x + y) = u64 (x + y).
Proof. unfold wrapu. apply Zplus_mod_idemp_l. Qed.
Lemma u64_sub x y : u64 (u64 x - y) = u64 (x - y).
Proof. unfold wrapu. apply Zminus_mod_idemp_l. Qed.
Lemma at_place_01 p x : 0 <= at_place p x <= 1.
Proof. unfold at_place. destruct (decide _); lia. Qed.
Lemma at_place_own p pos sz : has_place pos = Some p -> at_place p (MkPtr sz pos) = 1 /\ bytes_at p (MkPtr sz pos) = sz.
Proof. intros E. unfold at_place, bytes_at. cbn. by rewrite !decide_True. Qed.
Lemma at_place_other p x : has_place (pn_pos x) <> Some p -> at_place p x = 0 /\ bytes_at p x = 0.
Proof. intros E. unfold at_place, bytes_at. by rewrite !decide_False. Qed.

(** The node of a place says how many blocks of it are recorded. *)
Definition pos_right (t : gmap Z mm_ptr_node) (p : mm_place) (o : option mm_pos_node) : Prop :=
  match o with
  | Some nd => 0 < cnts nd /\ cnts nd = msum (at_place p) t /\ ps_size nd = u64 (msum (bytes_at p) t)
  | None => msum (at_place p) t = 0
  end.
(** Nothing is recorded of a place without blocks. *)
Lemma msum_zero p t : msum (at_place p) t = 0 -> msum (bytes_at p) t = 0.
Proof.
  induction t as [|i x t Hn IH] using map_ind; [done|]. rewrite !msum_insert by done. pose proof (msum_nonneg (at_place p) t (fun x => proj1 (at_place_01 p x))). pose proof (at_place_01 p x).
  intros Hz. rewrite IH by lia. unfold at_place, bytes_at in *. destruct (decide _); lia.
Qed.

Lemma count_pos_ok t pos sz q used bl : __mem_used (MkMm bl t q true used) = used -> forall ptr, t !! ptr = None -> Z.of_nat (size t) < 2 ^ 31 - 1 -> (forall p, pos_right t p (q !! p)) ->
  exists q', count_pos true sz pos (MkMm bl (<[ptr := MkPtr sz pos]> t) q true used) =
    Ret (MkMm bl (<[ptr := MkPtr sz pos]> t) q' true (if decide (size q' = size q) then used else u64 (used + sizeof_pos_node))) /\
    (size q' = size q \/ size q' = S (size q)) /\ forall p, pos_right (<[ptr := MkPtr sz pos]> t) p (q' !! p).
Proof.
  intros _ ptr Hn Hmax Hq. assert (forall p, has_place pos <> Some p -> pos_right (<[ptr := MkPtr sz pos]> t) p (q !! p)) as Hother.
  { intros p Hp. destruct (at_place_other p (MkPtr sz pos) Hp) as [H1 H2]. specialize (Hq p). unfold pos_right in *. rewrite !msum_insert, H1, H2, !Z.add_0_l by done. done. }
  unfold count_pos. destruct (has_place pos) as [p|] eqn:Ep; [|exists q; rewrite decide_True by done; split; [done|]; split; [by left|]; intros p; by apply Hother].
  destruct (at_place_own p pos sz Ep) as [H1 H2]. pose proof (msum_le (at_place p) t (fun x => proj2 (at_place_01 p x))) as Hle. pose proof (Hq p) as Hp. unfold pos_right in Hp. cbn [__mm_pos_tree].
  destruct (q !! p) as [nd|] eqn:Eq.
  - eexists. rewrite decide_True by (apply map_size_insert_Some; by eexists). split; [done|]. split; [left; apply map_size_insert_Some; by eexists|]. intros p'. destruct (decide (p' = p)) as [->|Hne].
    + rewrite lookup_insert_eq. unfold pos_right. cbn [cnts ps_size]. rewrite !msum_insert, H1, H2 by done. destruct Hp as (P1 & P2 & P3). rewrite wraps_id by (cbn; lia). split; [lia|]. split; [lia|]. rewrite P3, u64_add. f_equal. lia.
    + rewrite lookup_insert_ne by done. apply Hother. congruence.
  - cbn [negb]. eexists. rewrite decide_False by (rewrite map_size_insert_None by done; lia). split; [done|]. split; [right; by rewrite map_size_insert_None|]. intros p'. destruct (decide (p' = p)) as [->|Hne].
    + rewrite lookup_insert_eq. unfold pos_right. cbn [cnts ps_size]. rewrite !msum_insert, H1, H2, Hp, (msum_zero p t Hp) by done. split; [done|]. split; [done|]. f_equal. lia.
    + rewrite lookup_insert_ne by done. apply Hother. congruence.
Qed.

Lemma mm_insert_ok s ptr sz pos : accounted s -> ptr <> 0 -> blocks s !! ptr = Some sz -> __mm_ptr_tree s !! ptr = None -> Z.of_nat (size (__mm_ptr_tree s)) < 2 ^ 31 - 1 ->
  exists s', mm_insert_ptr_dbg true true ptr sz pos s = Ret (tt, s') /\ accounted s' /\ blocks s' = blocks s /\ __mm_ptr_tree s' = <[ptr := MkPtr sz pos]> (__mm_ptr_tree s).
Proof.
  intros [A1 A2 A3 A4] Hz Hb Hn Hmax. unfold mm_insert_ptr_dbg, lift, cbind, cget. rewrite A1, (proj2 (Z.eqb_neq _ _) Hz). cbn [negb].
  destruct (count_pos_ok (__mm_ptr_tree s) pos sz (__mm_pos_tree s) (u64 (__mem_used s + (sz + sizeof_ptr_node))) (blocks s) eq_refl ptr Hn Hmax A4) as (q' & Eq & Hsz & Hq'). rewrite Eq. eexists. split; [done|]. split; [|done]. split; cbn; [done| | |done].
  - intros p x. destruct (decide (p = ptr)) as [->|Hne]; [rewrite lookup_insert_eq; by intros [= <-]|rewrite lookup_insert_ne by done; apply A2].
  - rewrite msum_insert by done. cbn [pn_size]. rewrite A3. destruct (decide (size q' = size (__mm_pos_tree s))) as [->|Hne]; [rewrite u64_add; f_equal; lia|]. destruct Hsz as [?| ->]; [done|]. rewrite u64_add, <-Z.add_assoc, u64_add. f_equal. lia.
Qed.

Lemma uncount_pos_ok s t ptr nd q used bl : t !! ptr = Some nd -> Z.of_nat (size t) < 2 ^ 31 -> (forall p, pos_right t p (q !! p)) -> s = MkMm bl (delete ptr t) q true used ->
  exists q', uncount_pos nd s = MkMm bl (delete ptr t) q' true (if decide (size q' = size q) then used else u64 (used - sizeof_pos_node)) /\ (size q' = size q \/ size q = S (size q')) /\ forall p, pos_right (delete ptr t) p (q' !! p).
Proof.
  intros Hs Hmax Hq ->. assert (forall p, has_place (pn_pos nd) <> Some p -> pos_right (delete ptr t) p (q !! p)) as Hother.
  { intros p Hp. destruct (at_place_other p nd Hp) as [H1 H2]. specialize (Hq p). unfold pos_right in *. rewrite (msum_delete (at_place p) t ptr nd Hs), (msum_delete (bytes_at p) t ptr nd Hs), H1, H2, !Z.add_0_l in Hq. done. }
  unfold uncount_pos. destruct (has_place (pn_pos nd)) as [p|] eqn:Ep; [|exists q; rewrite decide_True by done; split; [done|]; split; [by left|]; intros p; by apply Hother].
  assert (at_place p nd = 1 /\ bytes_at p nd = pn_size nd) as [H1 H2] by (unfold at_place, bytes_at; by rewrite !decide_True).
  pose proof (msum_le (at_place p) t (fun x => proj2 (at_place_01 p x))) as Hle. pose proof (Hq p) as Hp. cbn [__mm_pos_tree]. pose proof (msum_nonneg (at_place p) (delete ptr t) (fun x => proj1 (at_place_01 p x))) as H0.
  pose proof (msum_delete (at_place p) t ptr nd Hs) as T1. pose proof (msum_delete (bytes_at p) t ptr nd Hs) as T2. unfold pos_right in Hp. destruct (q !! p) as [pn|] eqn:Eq; [|lia]. destruct Hp as (P1 & P2 & P3). cbn [cnts].
  rewrite wraps_id by (cbn; lia). destruct (Z.eqb_spec (cnts pn - 1) 0) as [E1|E1].
  - exists (delete p q). assert (size q = S (size (delete p q))) as Hsq by (rewrite <-(insert_delete_id q p pn) at 1 by done; rewrite map_size_insert_None; [done|apply lookup_delete_eq]).
    rewrite decide_False by lia. split; [done|]. split; [by right|]. intros p'. destruct (decide (p' = p)) as [->|Hne]; [rewrite lookup_delete_eq; cbn; lia|]. rewrite lookup_delete_ne by done. apply Hother. congruence.
  - eexists. rewrite decide_True by (apply map_size_insert_Some; by eexists). split; [done|]. split; [left; apply map_size_insert_Some; by eexists|]. intros p'. destruct (decide (p' = p)) as [->|Hne].
    + rewrite lookup_insert_eq. unfold pos_right. cbn [cnts ps_size]. split; [lia|]. split; [lia|]. rewrite P3, u64_sub. f_equal. lia.
    + rewrite lookup_insert_ne by done. apply Hother. congruence.
Qed.

(** A block that is recorded, or not, is taken out of the account. *)
Lemma mm_remove_ok s ptr : accounted s -> Z.of_nat (size (__mm_ptr_tree s)) < 2 ^ 31 -> __mm_ptr_tree s !! 0 = None ->
  exists s', mm_remove_ptr ptr s = Ret (ptr, s') /\ accounted s' /\ blocks s' = blocks s /\ __mm_ptr_tree s' = delete ptr (__mm_ptr_tree s).
Proof.
  intros A Hmax H0. pose proof A as [A1 A2 A3 A4]. unfold mm_remove_ptr, cbind, cget. rewrite A1. cbn [negb]. destruct (Z.eqb_spec ptr 0) as [->|Hz]; [exists s; by rewrite delete_id|].
  destruct (__mm_ptr_tree s !! ptr) as [nd|] eqn:E; [|exists s; by rewrite delete_id].
  edestruct (uncount_pos_ok _ _ ptr nd (__mm_pos_tree s) (u64 (__mem_used s - (pn_size nd + sizeof_ptr_node))) (blocks s) E Hmax A4 eq_refl) as (q' & Eu & Hsz & Hq'). rewrite Eu. eexists. split; [done|]. split; [|done]. split; cbn; [done| | |done].
  - intros p x Hx. apply lookup_delete_Some in Hx as [_ Hx]. by apply A2.
  - rewrite A3. rewrite (msum_delete _ _ _ _ E). destruct (decide (size q' = size (__mm_pos_tree s))) as [->|Hne]; [rewrite u64_sub; f_equal; lia|]. destruct Hsz as [?| ->]; [done|]. rewrite u64_sub, <-Z.sub_add_distr, u64_sub. f_equal. lia.
Qed.

(** ** Histories

    The platform gives aligned blocks that are not in use; [hal_realloc] fails, grows
    in place or gives a new block. *)
Class MmEnv := {
  hal_malloc : mm -> Z -> Z;
  hal_realloc : mm -> Z -> Z -> Z;
  hal_malloc_ok : forall s n, 0 < hal_malloc s n /\ Z.land (hal_malloc s n) 7 = 0 /\ blocks s !! hal_malloc s n = None;
  hal_realloc_ok : forall s ptr n, hal_realloc s ptr n = 0 \/ (0 < hal_realloc s ptr n /\ (hal_realloc s ptr n = ptr \/ blocks s !! hal_realloc s ptr n = None))
}.
Inductive mm_op :=
| OMalloc (size : Z) (pos : option mm_place)
| OCalloc (nmemb size : Z) (pos : option mm_place)
| OStrdup (s : option (list Z)) (pos : option mm_place)
| ORealloc (ptr size : Z) (pos : option mm_place)
| OFree (ptr : Z).

Section Run.
Context `{MmEnv}.

(** Applications give back blocks that they have, and do not ask [realloc] for nothing. *)
Definition has_block (s : mm) (ptr : Z) : bool := (ptr =? 0) || bool_decide (is_Some (blocks s !! ptr)).
Definition run_mm (op : mm_op) : CM mm unit :=
  do s <- cget;
  match op with
  | OMalloc size pos => do _ <- aosl_malloc_impl_dbg true true (hal_malloc s size) size pos; cret tt
  | OCalloc nmemb size pos => do _ <- aosl_calloc_impl_dbg true true (hal_malloc s (u64 (nmemb * size))) nmemb size pos; cret tt
  | OStrdup str pos => do _ <- aosl_strdup_impl_dbg true true (hal_malloc s (Z.of_nat (length (default [] str)) + 1)) str pos; cret tt
  | ORealloc ptr size pos => if has_block s ptr && negb (size =? 0) then do _ <- aosl_realloc_impl_dbg true true (hal_realloc s ptr size) ptr size pos; cret tt else cret tt
  | OFree ptr => if has_block s ptr then aosl_free_impl ptr else cret tt
  end.
Fixpoint run_mms (ops : list mm_op) : CM mm unit := match ops with [] => cret tt | op :: ops => run_mm op ;; run_mms ops end.

(** Everything is recorded, after [n] operations. *)
Record recorded (n : nat) (s : mm) : Prop := {
  re_acc : accounted s;
  re_all : forall p, is_Some (blocks s !! p) -> is_Some (__mm_ptr_tree s !! p);
  re_null : blocks s !! 0 = None;
  re_size : (size (__mm_ptr_tree s) <= n)%nat
}.
Lemma rec_null n s : recorded n s -> __mm_ptr_tree s !! 0 = None.
Proof. intros R. destruct (__mm_ptr_tree s !! 0) eqn:E; [|done]. apply (ac_blocks _ (re_acc _ _ R)) in E. rewrite (re_null _ _ R) in E. done. Qed.

Lemma grow_acc s p sz : accounted s -> __mm_ptr_tree s !! p = None -> accounted (set_blocks (<[p := sz]> (blocks s)) s).
Proof. intros [A1 A2 A3 A4] Hn. split; try done. intros q x Hq. cbn in *. rewrite lookup_insert_ne; [by apply A2|]. intros ->. congruence. Qed.
Lemma shrink_acc s p : accounted s -> __mm_ptr_tree s !! p = None -> accounted (set_blocks (delete p (blocks s)) s).
Proof. intros [A1 A2 A3 A4] Hn. split; try done. intros q x Hq. cbn in *. rewrite lookup_delete_ne; [by apply A2|]. intros ->. congruence. Qed.

Lemma malloc_ok n s p sz pos : recorded n s -> Z.of_nat n < 2 ^ 31 - 1 -> 0 < p -> Z.land p 7 = 0 -> blocks s !! p = None ->
  exists s', aosl_malloc_impl_dbg true true p sz pos s = Ret (p, s') /\ recorded (S n) s'.
Proof.
  intros R Hn Hp Ha Hf. pose proof (re_acc _ _ R) as A. pose proof (re_size _ _ R) as Hsz. assert (__mm_ptr_tree s !! p = None) as Hno by (destruct (__mm_ptr_tree s !! p) eqn:E; [|done]; apply (ac_blocks _ A) in E; congruence).
  unfold aosl_malloc_impl_dbg. rewrite Ha, (proj2 (Z.eqb_neq p 0)) by lia. cbn [Z.eqb negb]. unfold cbind at 1 2, cget, cput.
  destruct (mm_insert_ok (set_blocks (<[p := sz]> (blocks s)) s) p sz pos) as (s' & Ei & A' & Eb & Et); [by apply grow_acc|lia|cbn; by rewrite lookup_insert_eq|done|cbn; lia|].
  unfold cbind. rewrite Ei. exists s'. split; [done|]. split; [done| | |].
  - intros q. rewrite Eb, Et. cbn. destruct (decide (q = p)) as [->|Hne]; [rewrite !lookup_insert_eq; by eexists|]. rewrite !lookup_insert_ne by done. apply R.
  - rewrite Eb. cbn. rewrite lookup_insert_ne by lia. apply R.
  - rewrite Et. rewrite map_size_insert_None by done. cbn. lia.
Qed.

(** [FREE] of a block that is not in the account any more. *)
Lemma free_ok s ptr : accounted s -> __mm_ptr_tree s !! ptr = None -> ptr = 0 \/ is_Some (blocks s !! ptr) -> blocks s !! 0 = None ->
  exists s', FREE ptr s = Ret (tt, s') /\ accounted s' /\ blocks s' = delete ptr (blocks s) /\ __mm_ptr_tree s' = __mm_ptr_tree s.
Proof.
  intros A Hn Hb H0. unfold FREE, cbind, cget. destruct (Z.eqb_spec ptr 0) as [->|Hz]; [exists s; by rewrite delete_id|]. destruct Hb as [?|[x Hx]]; [done|]. rewrite Hx. eexists. split; [done|]. split; [by apply shrink_acc|done].
Qed.
Lemma has_block_ok s ptr : has_block s ptr = true -> ptr = 0 \/ is_Some (blocks s !! ptr).
Proof. intros [?%Z.eqb_eq|?%bool_decide_eq_true]%orb_true_iff; [by left|by right]. Qed.

Lemma free_impl_ok n s ptr : recorded n s -> Z.of_nat n < 2 ^ 31 - 1 -> has_block s ptr = true -> exists s', aosl_free_impl ptr s = Ret (tt, s') /\ recorded n s'.
Proof.
  intros R Hn Hb%has_block_ok. pose proof (re_size _ _ R) as Hsz. destruct (mm_remove_ok s ptr (re_acc _ _ R) ltac:(lia) (rec_null n s R)) as (s1 & E1 & A1 & B1 & T1).
  destruct (free_ok s1 ptr A1) as (s2 & E2 & A2 & B2 & T2); [rewrite T1; apply lookup_delete_eq|by rewrite B1|rewrite B1; apply R|].
  exists s2. split; [unfold aosl_free_impl, cbind; by rewrite E1|]. split; [done| | |].
  - intros q. rewrite B2, B1, T2, T1. destruct (decide (q = ptr)) as [->|Hne]; [rewrite lookup_delete_eq; by intros []|]. rewrite !lookup_delete_ne by done. apply R.
  - rewrite B2, B1. destruct (decide (ptr = 0)) as [->|Hne]; [apply lookup_delete_eq|]. rewrite lookup_delete_ne by done. apply R.
  - rewrite T2, T1. pose proof (map_subseteq_size _ _ (delete_subseteq (__mm_ptr_tree s) ptr)). lia.
Qed.

Lemma remove_blocks ptr b s r s' : mm_remove_ptr ptr s = Ret (r, s') -> mm_remove_ptr ptr (set_blocks b s) = Ret (r, set_blocks b s').
Proof.
  unfold mm_remove_ptr, cbind, cget, cput, cret. cbn. destruct (__mem_check_inited s); [|by intros [= <- <-]]. cbn [negb]. destruct (ptr =? 0); [by intros [= <- <-]|]. destruct (__mm_ptr_tree s !! ptr) as [nd|]; [|by intros [= <- <-]].
  intros [= <- <-]. unfold uncount_pos. cbn. destruct (has_place (pn_pos nd)) as [p|]; [|done]. destruct (__mm_pos_tree s !! p); [|done]. by destruct (_ =? 0).
Qed.

Lemma realloc_ok n s p ptr sz pos : recorded n s -> Z.of_nat n < 2 ^ 31 - 1 -> has_block s ptr = true -> sz <> 0 -> p = 0 \/ (0 < p /\ (p = ptr \/ blocks s !! p = None)) ->
  exists s', aosl_realloc_impl_dbg true true p ptr sz pos s = Ret (p, s') /\ recorded (S n) s'.
Proof.
  intros R Hn Hb%has_block_ok Hs0 Hp. unfold aosl_realloc_impl_dbg. destruct (Z.eqb_spec p 0) as [->|Hz]; [rewrite (proj2 (Z.eqb_neq sz 0) Hs0); exists s; split; [done|]; destruct R; split; try done; lia|]. destruct Hp as [?|[Hpos Hp]]; [done|].
  pose proof (re_size _ _ R) as Hsz. destruct (mm_remove_ok s ptr (re_acc _ _ R) ltac:(lia) (rec_null n s R)) as (s1 & E1 & A1 & B1 & T1).
  assert (FREE ptr s = Ret (tt, set_blocks (delete ptr (blocks s)) s)) as Ef.
  { unfold FREE, cbind, cget. destruct (Z.eqb_spec ptr 0) as [->|Hz0]; [rewrite delete_id by apply R; by destruct s|]. destruct Hb as [?|[x ->]]; done. }
  set (b2 := <[p := sz]> (delete ptr (blocks s))).
  assert (__mm_ptr_tree s1 !! p = None) as Hno.
  { rewrite T1. destruct Hp as [->|Hf]; [apply lookup_delete_eq|]. destruct (delete ptr (__mm_ptr_tree s) !! p) eqn:E; [|done]. apply lookup_delete_Some in E as [_ E]. apply (ac_blocks _ (re_acc _ _ R)) in E. congruence. }
  assert (accounted (set_blocks b2 s1)) as A2.
  { destruct A1 as [I1 I2 I3 I4]. split; try done. cbn. intros q x Hq. unfold b2. rewrite lookup_insert_ne by (intros ->; congruence). specialize (I2 q x Hq). rewrite B1 in I2. rewrite T1 in Hq. apply lookup_delete_Some in Hq as [Hq _]. by rewrite lookup_delete_ne. }
  destruct (mm_insert_ok (set_blocks b2 s1) p sz pos A2 Hz) as (s3 & E3 & A3 & B3 & T3); [cbn; unfold b2; by rewrite lookup_insert_eq|done|cbn; rewrite T1; pose proof (map_subseteq_size _ _ (delete_subseteq (__mm_ptr_tree s) ptr)); lia|].
  exists s3. split.
  - rewrite (cbind_ret _ _ _ _ _ Ef). unfold cbind at 1 2, cget, cput. cbn [blocks set_blocks]. fold b2. change (set_blocks b2 (set_blocks (delete ptr (blocks s)) s)) with (set_blocks b2 s).
    rewrite (cbind_ret _ _ _ _ _ (remove_blocks ptr b2 s ptr s1 E1)), (cbind_ret _ _ _ _ _ E3). done.
  - split; [done| | |].
    + intros q. rewrite B3, T3. cbn. unfold b2. rewrite T1. destruct (decide (q = p)) as [->|Hne]; [rewrite !lookup_insert_eq; by eexists|]. rewrite !lookup_insert_ne by done. destruct (decide (q = ptr)) as [->|Hne2]; [rewrite lookup_delete_eq; by intros []|].
      rewrite !lookup_delete_ne by done. apply R.
    + rewrite B3. cbn. unfold b2. rewrite lookup_insert_ne by lia. apply lookup_delete_None. right. apply R.
    + rewrite T3. cbn. rewrite map_size_insert_None by done. rewrite T1. pose proof (map_subseteq_size _ _ (delete_subseteq (__mm_ptr_tree s) ptr)). lia.
Qed.

Lemma more_recorded n s : recorded n s -> recorded (S n) s.
Proof. intros []. split; try done. lia. Qed.
Lemma run_mm_ok n s op : recorded n s -> Z.of_nat n < 2 ^ 31 - 1 -> exists s', run_mm op s = Ret (tt, s') /\ recorded (S n) s'.
Proof.
  intros R Hn. assert (forall sz pos, exists s', aosl_malloc_impl_dbg true true (hal_malloc s sz) sz pos s = Ret (hal_malloc s sz, s') /\ recorded (S n) s') as Hm.
  { intros sz pos. destruct (hal_malloc_ok s sz) as (H1 & H2 & H3). by apply malloc_ok. }
  unfold run_mm, cbind at 1, cget. destruct op as [sz pos|nmemb sz pos|[str|] pos|ptr sz pos|ptr]; unfold cbind.
  - destruct (Hm sz pos) as (s' & E & R'). rewrite E. by exists s'.
  - destruct (Hm (u64 (nmemb * sz)) pos) as (s' & E & R'). unfold aosl_calloc_impl_dbg. rewrite E. by exists s'.
  - destruct (Hm (Z.of_nat (length str) + 1) pos) as (s' & E & R'). cbn [aosl_strdup_impl_dbg from_option id]. rewrite E. by exists s'.
  - exists s. split; [done|]. by apply more_recorded.
  - destruct (has_block s ptr) eqn:Hb; [|exists s; split; [done|]; by apply more_recorded]. destruct (Z.eqb_spec sz 0) as [|Hs0]; [exists s; split; [done|]; by apply more_recorded|]. cbn [negb andb].
    destruct (realloc_ok n s (hal_realloc s ptr sz) ptr sz pos R Hn Hb Hs0 (hal_realloc_ok s ptr sz)) as (s' & E & R'). rewrite E. by exists s'.
  - destruct (has_block s ptr) eqn:Hb; [|exists s; split; [done|]; by apply more_recorded]. destruct (free_impl_ok n s ptr R Hn Hb) as (s' & E & R'). exists s'. split; [done|]. by apply more_recorded.
Qed.
Lemma run_mms_ok ops : forall n s, recorded n s -> Z.of_nat (n + length ops) < 2 ^ 31 -> exists s', run_mms ops s = Ret (tt, s') /\ recorded (n + length ops) s'.
Proof.
  induction ops as [|op ops IH]; intros n s R Hn; cbn [run_mms length]; [exists s; split; [done|]; by rewrite Nat.add_0_r|]. cbn [length] in Hn. destruct (run_mm_ok n s op R ltac:(lia)) as (s1 & E1 & R1).
  destruct (IH (S n) s1 R1 ltac:(lia)) as (s' & E' & R'). exists s'. rewrite (cbind_ret _ _ _ _ _ E1). split; [done|]. by rewrite Nat.add_succ_r.
Qed.

Definition mm_start : mm := MkMm ∅ ∅ ∅ true 0.
Lemma start_recorded : recorded 0 mm_start.
Proof. split; [by split| |done|done]. by intros p []. Qed.

(** C36: The account of memory: after any sequence of fewer than 2^31 operations, one after
    another, that allocate blocks, change their size to something other than 0 and give them
    back since [k_mm_init], on a platform that has memory for the blocks and for the nodes of
    the account (but may refuse to change a size), every block is recorded with its size, the
    number of bytes in use is
    that of the blocks and of the nodes of the account, and each place in the source has as
    many blocks and bytes as were allocated there and not given back; so when everything has
    been given back, the account is empty. *)
Theorem mm_account ops :
  Z.of_nat (length ops) < 2 ^ 31 ->
  exists s, run_mms ops mm_start = Ret (tt, s) /\
    (forall p n, blocks s !! p = Some n <-> exists pos, __mm_ptr_tree s !! p = Some (MkPtr n pos)) /\
    __mem_used s = u64 (msum (fun x => pn_size x + sizeof_ptr_node) (__mm_ptr_tree s) + sizeof_pos_node * Z.of_nat (size (__mm_pos_tree s))) /\
    (forall p, match __mm_pos_tree s !! p with
      | Some nd => 0 < cnts nd /\ cnts nd = msum (at_place p) (__mm_ptr_tree s) /\ ps_size nd = u64 (msum (bytes_at p) (__mm_ptr_tree s))
      | None => msum (at_place p) (__mm_ptr_tree s) = 0
      end) /\
    (blocks s = ∅ -> __mem_used s = 0 /\ __mm_ptr_tree s = ∅ /\ __mm_pos_tree s = ∅).
Proof.
  intros Hlen. destruct (run_mms_ok ops 0 mm_start start_recorded) as (s & E & R); [lia|]. exists s. split; [done|]. destruct R as [[A1 A2 A3 A4] Hall _ _].
  split; [|split; [done|split; [done|]]].
  - intros p n. split; [|intros (pos & Hp); by apply (A2 p (MkPtr n pos))]. intros Hb. destruct (Hall p) as [[n' pos] Hp]; [by eexists|]. exists pos. pose proof (A2 _ _ Hp) as Hb'. cbn in Hb'. congruence.
  - intros He. assert (__mm_ptr_tree s = ∅) as Ht. { apply map_eq. intros p. rewrite lookup_empty. destruct (__mm_ptr_tree s !! p) eqn:Ep; [|done]. apply A2 in Ep. by rewrite He in Ep. }
    assert (__mm_pos_tree s = ∅) as Hp. { apply map_eq. intros p. rewrite lookup_empty. specialize (A4 p). rewrite Ht in A4. destruct (__mm_pos_tree s !! p) as [nd|]; [|done]. destruct A4 as (H1 & H2 & _). cbn in H2. change (msum (at_place p) ∅) with 0 in H2. lia. }
    split; [|done]. rewrite A3, Ht, Hp. done.
Qed.
End Run.

(** A platform that gives the next aligned address. *)
#[local] Instance next_env : MmEnv.
Proof.
  refine (Build_MmEnv (fun s _ => 8 * (1 + map_fold (fun k _ acc => Z.max k acc) 0 (blocks s))) (fun s ptr _ => 0) _ _); [|intros; by left].
  intros s _. set (M := map_fold _ _ _). assert (0 <= M /\ forall k x, blocks s !! k = Some x -> k <= M) as [H0 Hall].
  { apply (map_fold_weak_ind (fun r m => 0 <= r /\ forall k x, m !! k = Some x -> k <= r)); [split; [done|]; intros k x Hk; by rewrite lookup_empty in Hk|]. intros i x m r Hi [Hr Hk]. split; [lia|]. intros k y.
    destruct (decide (k = i)) as [->|Hne]; [lia|]. rewrite lookup_insert_ne by done. intros Hy. apply Hk in Hy. lia. }
  split; [lia|]. split.
  - change 7 with (Z.ones 3). rewrite Z.land_ones by lia. change (2 ^ 3) with 8. rewrite Z.mul_comm. apply Z.mod_mul. lia.
  - destruct (blocks s !! (8 * (1 + M))) eqn:E; [|done]. apply Hall in E. lia.
Defined.
Lemma mm_account_witness : exists s, run_mms [OMalloc 100 (Some ([65], 3)); OCalloc 4 5 (Some ([65], 3)); OStrdup (Some [66; 67]) None; OFree 8] mm_start = Ret (tt, s) /\
  __mem_used s = 20 + 56 + (3 + 56) + 48 /\ (blocks s = ∅ -> __mem_used s = 0).
Proof.
  destruct (mm_account [OMalloc 100 (Some ([65], 3)); OCalloc 4 5 (Some ([65], 3)); OStrdup (Some [66; 67]) None; OFree 8] ltac:(reflexivity)) as (s & E & _ & _ & _ & He). exists s. split; [exact E|].
  split; [vm_compute in E; injection E as <-; vm_compute; reflexivity|]. intros Hb. apply (He Hb).
Defined.

(** [nmemb * size] is not checked: a large array gets a small block. *)
Example calloc_wraps : exists s, aosl_calloc_impl true true 8 (2 ^ 62) 4 mm_start = Ret (8, s) /\ blocks s !! 8 = Some 0.
Proof. eexists. split; vm_compute; reflexivity. Qed.

(** [aosl_realloc (ptr, 0)] frees the block and leaves its record in the account. *)
Example realloc_zero_stale :
  match (aosl_malloc_impl true true 8 100 ;; aosl_realloc_impl true true 0 8 0) mm_start with
  | Ret (r, s) => r = 0 /\ blocks s = ∅ /\ __mem_used s = 156
  | _ => False
  end.
Proof. vm_compute. done. Qed.
