(* ===== verification/OsMp.v ===== *)
(** * What a queue gets from the platform: [kernel/osmp.c]

    A queue has a descriptor to wait on ([os_mp_init_epoll] of [kernel/et_mp.c]; the
    functions of [kernel/poll_mp.c] and [kernel/select_mp.c] do nothing) and something to
    be woken by: a pipe, two sockets where there are no pipes, or an event.  Here these are
    opened and closed, with every way in which the platform can fail.  What is open is
    part of the state, so that a leak and a second closing show. *)
From S2P Require Import Prelude Iofd.
#[local] Open Scope aosl_scope.

(** Which of the three is compiled in: [AOSL_HAL_HAVE_EPOLL], or poll or select. *)
Inductive backend := Epoll | PollSelect.

Definition WAKEUP_TYPE_NONE : Z := -1.
Definition WAKEUP_TYPE_PIPE : Z := 0.
Definition WAKEUP_TYPE_SOCKET : Z := 1.
Definition AOSL_MPQ_FLAG_SIGP_EVENT : Z := 2.

(** The fields of [struct mp_queue]: [efd] and [sigp]. *)
Record qos := MkQos { efd : Z; sg_type : Z; piper : Z; pipew : Z; activated : bool; sg_event : Z }.
Definition w_efd x q := MkQos x (sg_type q) (piper q) (pipew q) (activated q) (sg_event q).
Definition w_type x q := MkQos (efd q) x (piper q) (pipew q) (activated q) (sg_event q).
Definition w_piper x q := MkQos (efd q) (sg_type q) x (pipew q) (activated q) (sg_event q).
Definition w_pipew x q := MkQos (efd q) (sg_type q) (piper q) x (activated q) (sg_event q).
Definition w_activated x q := MkQos (efd q) (sg_type q) (piper q) (pipew q) x (sg_event q).
Definition w_event x q := MkQos (efd q) (sg_type q) (piper q) (pipew q) (activated q) x.

(** The platform: what is open (descriptors and events), the descriptors that the epoll
    descriptor watches, the next one to be given out, and whether the calls to come succeed
    (all do after the end of the list). *)
Record osw := MkOsw { os_open : gset Z; os_watched : gset Z; os_next : Z; os_script : list bool }.
(** A queue and the platform. *)
Record osst := MkOst { o_q : qos; o_w : osw }.

Definition setq (f : qos -> qos) : CM osst unit := do s <- cget; cput (MkOst (f (o_q s)) (o_w s)).
Definition setw (f : osw -> osw) : CM osst unit := do s <- cget; cput (MkOst (o_q s) (f (o_w s))).
Definition getq : CM osst qos := do s <- cget; cret (o_q s).

(** Does the next call of the platform succeed? *)
Definition hal_ok : CM osst bool :=
  do s <- cget;
  match os_script (o_w s) with
  | [] => cret true
  | b :: l => setw (fun w => MkOsw (os_open w) (os_watched w) (os_next w) l) ;; cret b
  end.
Definition fresh : CM osst Z :=
  do s <- cget;
  let fd := os_next (o_w s) in
  setw (fun w => MkOsw ({[fd]} ∪ os_open w) (os_watched w) (fd + 1) (os_script w)) ;; cret fd.
(** [aosl_hal_epoll_create], [aosl_hal_sk_socket], [aosl_event_create]: [bad] is what a
    failure returns. *)
Definition hal_open (bad : Z) : CM osst Z := do ok <- hal_ok; if ok then fresh else cret bad.
(** [pipe] *)
Definition pipe : CM osst (option (Z * Z)) :=
  do ok <- hal_ok; if ok then (do r <- fresh; do w <- fresh; cret (Some (r, w))) else cret None.
(** [aosl_hal_sk_close], [aosl_hal_epoll_destroy], [aosl_event_destroy]: closing what is not
    open is a fault. *)
Definition hal_close (fd : Z) : CM osst unit :=
  do s <- cget;
  if decide (fd ∈ os_open (o_w s)) then
    setw (fun w => MkOsw (os_open w ∖ {[fd]}) (os_watched w) (os_next w) (os_script w))
  else cfault.
(** [aosl_hal_epoll_ctl] with [AOSL_POLL_CTL_ADD] and [AOSL_POLL_CTL_DEL]. *)
Definition watch (fd : Z) : CM osst bool :=
  do ok <- hal_ok;
  (when ok then setw (fun w => MkOsw (os_open w) ({[fd]} ∪ os_watched w) (os_next w) (os_script w))) ;; cret ok.
Definition unwatch (fd : Z) : CM osst unit :=
  setw (fun w => MkOsw (os_open w) (os_watched w ∖ {[fd]}) (os_next w) (os_script w)).

Section OsMp.
(** [sock]: the platform has no pipes (neither Linux nor Apple). *)
Context (be : backend) (sock : bool).

Definition os_mp_init_epoll : CM osst Z :=
  do fd <- hal_open AOSL_INVALID_FD;
  setq (w_efd fd) ;;
  if aosl_fd_invalid fd then setq (w_efd AOSL_INVALID_FD) ;; cret (-1) else cret 0.
Definition os_mp_fini_epoll : CM osst unit :=
  do q <- getq; hal_close (efd q) ;; setq (w_efd AOSL_INVALID_FD).
Definition os_activate_sigp_epoll : CM osst Z :=
  do q <- getq; do ok <- watch (piper q); cret (if ok : bool then 0 else -1).
Definition os_deactivate_sigp_epoll : CM osst unit :=
  do q <- getq; unwatch (piper q).

Definition os_mp_init_pub : CM osst Z := match be with Epoll => os_mp_init_epoll | PollSelect => cret 0 end.
Definition os_mp_fini_pub : CM osst unit := match be with Epoll => os_mp_fini_epoll | PollSelect => cret tt end.
Definition os_activate_sigp : CM osst Z := match be with Epoll => os_activate_sigp_epoll | PollSelect => cret 0 end.
Definition os_deactivate_sigp : CM osst unit := match be with Epoll => os_deactivate_sigp_epoll | PollSelect => cret tt end.

(** The two sockets that stand for a pipe. *)
Definition os_socket_pipe : CM osst (option (Z * Z)) :=
  do servfd <- hal_open AOSL_INVALID_FD;
  if aosl_fd_invalid servfd then cret None else
  do bound <- hal_ok;
  if negb bound then hal_close servfd ;; cret None else
  do connfd <- hal_open AOSL_INVALID_FD;
  if aosl_fd_invalid connfd then cret None else
  do connected <- hal_ok;
  if negb connected then hal_close connfd ;; hal_close servfd ;; cret None else
  cret (Some (servfd, connfd)).
Definition os_pipe : CM osst (option (Z * Z) * Z) :=
  if sock then do p <- os_socket_pipe; cret (p, WAKEUP_TYPE_SOCKET) else do p <- pipe; cret (p, WAKEUP_TYPE_PIPE).

Definition os_fini_sigp : CM osst unit :=
  do q <- getq;
  (when activated q then os_deactivate_sigp ;; setq (w_activated false)) ;;
  (when negb (aosl_fd_invalid (piper q)) then hal_close (piper q) ;; setq (w_piper AOSL_INVALID_FD)) ;;
  (when negb (aosl_fd_invalid (pipew q)) then hal_close (pipew q) ;; setq (w_pipew AOSL_INVALID_FD)) ;;
  (when negb (sg_event q =? 0) then hal_close (sg_event q) ;; setq (w_event 0)).

(** [make_fd_nb_clex] *)
Definition make_fd_nb_clex (fd : Z) : CM osst Z := do ok <- hal_ok; cret (if ok : bool then 0 else -1).

Definition os_init_sigp_pipe : CM osst Z :=
  do '(fds, type) <- os_pipe;
  match fds with
  | None => os_fini_sigp ;; cret (-1)
  | Some (r, w) =>
    setq (w_type type) ;; setq (w_piper r) ;; setq (w_pipew w) ;;
    do err <- make_fd_nb_clex r;
    if err <? 0 then os_fini_sigp ;; cret err else
    do err <- make_fd_nb_clex w;
    if err <? 0 then os_fini_sigp ;; cret err else
    do err <- os_activate_sigp;
    if err <? 0 then os_fini_sigp ;; cret err else
    setq (w_activated true) ;; cret 0
  end.

Definition os_init_sigp_event : CM osst Z :=
  do e <- hal_open 0; setq (w_event e) ;; cret (if e =? 0 then -1 else 0).

Definition os_init_sigp (q_flags : Z) : CM osst Z :=
  setq (fun q => MkQos (efd q) WAKEUP_TYPE_NONE AOSL_INVALID_FD AOSL_INVALID_FD false 0) ;;
  if negb (Z.land q_flags AOSL_MPQ_FLAG_SIGP_EVENT =? 0) then os_init_sigp_event else os_init_sigp_pipe.

Definition os_mp_init (q_flags : Z) : CM osst Z :=
  do r <- os_mp_init_pub;
  if negb (r =? 0) then cret (-1) else
  do r <- os_init_sigp q_flags;
  if negb (r =? 0) then os_mp_fini_pub ;; cret (-1) else cret 0.

Definition os_mp_fini : CM osst unit := os_fini_sigp ;; os_mp_fini_pub.
End OsMp.

(** ** What is open belongs to somebody *)

Section OsMpProps.
Context (be : backend).

(** The descriptors and the event that a queue is woken by. *)
Definition sfds (q : qos) : list Z :=
  (if aosl_fd_invalid (piper q) then [] else [piper q]) ++ (if aosl_fd_invalid (pipew q) then [] else [pipew q]) ++
  (if sg_event q =? 0 then [] else [sg_event q]).
(** All that the queue has from the platform. *)
Definition qfds (q : qos) : list Z := (match be with Epoll => [efd q] | PollSelect => [] end) ++ sfds q.
Definition qwatch (q : qos) : gset Z := match be with Epoll => if activated q then {[piper q]} else ∅ | PollSelect => ∅ end.

(** Besides [base] and [wbase], exactly [l] is open and exactly [W] is watched. *)
Record owned (base wbase : gset Z) (l : list Z) (W : gset Z) (w : osw) : Prop := {
  ow_pos : 0 < os_next w;
  ow_lt fd : fd ∈ base ∪ wbase \/ fd ∈ l -> 0 < fd < os_next w;
  ow_nodup : NoDup l;
  ow_base fd : fd ∈ l -> fd ∉ base ∪ wbase;
  ow_open : os_open w = base ∪ list_to_set l;
  ow_watched : os_watched w = wbase ∪ W;
  ow_sub fd : fd ∈ W -> fd ∈ l
}.

Context (base wbase : gset Z).

Lemma hal_ok_wp q w l W : owned base wbase l W w ->
  wp hal_ok (MkOst q w) (fun _ s => o_q s = q /\ owned base wbase l W (o_w s)).
Proof.
  intros Hw. unfold hal_ok, setw. apply wp_bind, wp_get. cbn [o_w]. destruct w as [o wa n [|b sc]]; cbn; [done|]. split; [done|]. by destruct Hw.
Qed.

Lemma fresh_wp q w l W : owned base wbase l W w ->
  wp fresh (MkOst q w) (fun fd s => o_q s = q /\ 0 < fd /\ owned base wbase (l ++ [fd]) W (o_w s)).
Proof.
  intros [Hpos Hlt Hnd Hb Ho Hwa Hsub]. destruct w as [o wa n sc]; cbn in *. subst o wa. split; [done|]. split; [done|]. cbn.
  assert (n ∉ l) by (intros H; specialize (Hlt n (or_intror H)); lia).
  split; cbn; [lia| | | |set_solver|done|set_solver].
  - intros fd [H0|[H0|[-> |[]%not_elem_of_nil]%elem_of_cons]%elem_of_app]; [| |lia]; [specialize (Hlt fd (or_introl H0))|specialize (Hlt fd (or_intror H0))]; lia.
  - apply NoDup_app. split; [done|]. split; [set_solver|]. apply NoDup_singleton.
  - intros fd [H0|[-> |[]%not_elem_of_nil]%elem_of_cons]%elem_of_app; [by apply Hb|]. intros H0. specialize (Hlt n (or_introl H0)). lia.
Qed.

Lemma hal_close_wp fd q w l1 l2 W : owned base wbase (l1 ++ fd :: l2) W w -> fd ∉ W ->
  wp (hal_close fd) (MkOst q w) (fun _ s => o_q s = q /\ owned base wbase (l1 ++ l2) W (o_w s)).
Proof.
  intros [Hpos Hlt Hnd Hb Ho Hwa Hsub] HW. unfold hal_close. apply wp_bind, wp_get. cbn [o_w].
  rewrite decide_True by (rewrite Ho; set_solver). destruct w as [o wa n sc]; cbn in *. subst o wa. split; [done|]. cbn.
  assert (Hf : fd ∉ l1 ++ l2) by (apply NoDup_app in Hnd as (? & ? & [? ?]%NoDup_cons); set_solver).
  assert (Hfb : fd ∉ base) by (specialize (Hb fd); set_solver).
  assert (Hin : forall x, x ∈ l1 ++ l2 -> x ∈ l1 ++ fd :: l2) by set_solver.
  split; cbn; [done| | | | |done|].
  - intros x [H0|H0]; apply Hlt; [by left|right; auto].
  - rewrite <-Permutation_middle in Hnd. by apply NoDup_cons in Hnd as [].
  - intros x H0. apply Hb. auto.
  - apply set_eq. intros x. rewrite !list_to_set_app_L, list_to_set_cons. rewrite <-!list_to_set_app_L. set_solver.
  - intros x H0. specialize (Hsub x H0). set_solver.
Qed.

Lemma unwatch_wp fd q w l : owned base wbase l {[fd]} w ->
  wp (unwatch fd) (MkOst q w) (fun _ s => o_q s = q /\ owned base wbase l ∅ (o_w s)).
Proof.
  intros [Hpos Hlt Hnd Hb Ho Hwa Hsub]. destruct w as [o wa n sc]; cbn in *. subst o wa. split; [done|]. cbn.
  assert (fd ∉ wbase) by (specialize (Hsub fd); specialize (Hb fd); set_solver). split; cbn; try done; set_solver.
Qed.

Lemma watch_wp fd q w l : owned base wbase l ∅ w -> fd ∈ l ->
  wp (watch fd) (MkOst q w) (fun ok s => o_q s = q /\ owned base wbase l (if ok then {[fd]} else ∅) (o_w s)).
Proof.
  intros Hw Hfd. unfold watch. wstep hal_ok_wp; [exact Hw|]. intros ok [q' w'] [Hq Hw']; cbn in Hq, Hw'; subst q'. cbn in Hw'. apply wp_bind.
  destruct ok; [|apply wp_ret; done]. split; [done|]. destruct Hw' as [Hpos Hlt Hnd Hb Ho Hwa Hsub], w'; cbn in *. subst. split; cbn; try done; set_solver.
Qed.

Lemma setq_wp f q w Q : Q tt (MkOst (f q) w) -> wp (setq f) (MkOst q w) Q.
Proof. done. Qed.

Lemma getq_wp q w Q : Q q (MkOst q w) -> wp getq (MkOst q w) Q.
Proof. done. Qed.

Lemma pipe_wp q w l : owned base wbase l ∅ w ->
  wp pipe (MkOst q w) (fun p s => o_q s = q /\ match p with
    | Some (r, p) => 0 < r /\ 0 < p /\ owned base wbase (l ++ [r; p]) ∅ (o_w s)
    | None => owned base wbase l ∅ (o_w s) end).
Proof.
  intros Hw. unfold pipe. wstep hal_ok_wp; [exact Hw|]. intros [] [q' w'] [Hq Hw']; cbn in Hq, Hw'; subst q'; [|done]. cbn in Hw'.
  wstep fresh_wp; [exact Hw'|]. intros r [q' w2] (Hq & Hr & Hw2); cbn in Hq, Hw2; subst q'. cbn in Hw2.
  wstep fresh_wp; [exact Hw2|]. intros p [q' w3] (Hq & Hp & Hw3); cbn in Hq, Hw3; subst q'. cbn in Hw3. rewrite <-app_assoc in Hw3. done.
Qed.

(** The descriptors of a queue without anything to be woken by. *)
Definition unsigned (q : qos) : qos := MkQos (efd q) (sg_type q) AOSL_INVALID_FD AOSL_INVALID_FD false 0.

(** [os_fini_sigp] closes what the queue is woken by, once, and nothing else. *)
Lemma os_fini_sigp_wp q w l :
  owned base wbase (l ++ sfds q) (qwatch q) w -> (activated q = true -> piper q <> AOSL_INVALID_FD) ->
  wp (os_fini_sigp be) (MkOst q w) (fun _ s => o_q s = unsigned q /\ owned base wbase l ∅ (o_w s)).
Proof.
  destruct q as [e ty r p a ev]. unfold sfds, qwatch. cbn [piper pipew sg_event activated]. intros Hw Ha. unfold os_fini_sigp, aosl_fd_invalid in *.
  apply wp_bind, getq_wp. cbn [piper pipew sg_event activated]. apply wp_bind.
  eapply (wp_mono _ _ (fun _ s => o_q s = MkQos e ty r p false ev /\ owned base wbase (l ++ sfds (MkQos e ty r p false ev)) ∅ (o_w s))).
  { destruct a; [|destruct be; done]. unfold os_deactivate_sigp. destruct be; [|done]. unfold os_deactivate_sigp_epoll. apply wp_bind. apply wp_bind, getq_wp. cbn [piper].
    wlast unwatch_wp; [exact Hw|]. intros _ [q' w'] [Hq Hw']; cbn in Hq, Hw'; subst q'. done. }
  intros _ [q' w'] [Hq Hw']; cbn in Hq, Hw'; subst q'. unfold sfds, aosl_fd_invalid in Hw'. cbn in Hw'. clear Hw Ha. apply wp_bind.
  eapply (wp_mono _ _ (fun _ s => o_q s = MkQos e ty (-1) p false ev /\ owned base wbase (l ++ sfds (MkQos e ty (-1) p false ev)) ∅ (o_w s))).
  { destruct (Z.eqb_spec r AOSL_INVALID_FD) as [-> |Hr]; [done|]. cbn [app negb] in *. wstep hal_close_wp; [exact Hw'|set_solver|]. intros _ [q' w2] [Hq Hw2]; cbn in Hq, Hw2; subst q'. done. }
  intros _ [q' w2] [Hq Hw2]; cbn in Hq, Hw2; subst q'. unfold sfds, aosl_fd_invalid in Hw2. cbn in Hw2. clear Hw'. apply wp_bind.
  eapply (wp_mono _ _ (fun _ s => o_q s = MkQos e ty (-1) (-1) false ev /\ owned base wbase (l ++ sfds (MkQos e ty (-1) (-1) false ev)) ∅ (o_w s))).
  { destruct (Z.eqb_spec p AOSL_INVALID_FD) as [-> |Hr]; [done|]. cbn [app negb] in *. wstep hal_close_wp; [exact Hw2|set_solver|]. intros _ [q' w3] [Hq Hw3]; cbn in Hq, Hw3; subst q'. done. }
  intros _ [q' w3] [Hq Hw3]; cbn in Hq, Hw3; subst q'. unfold sfds in Hw3. cbn in Hw3. clear Hw2. cbn [o_w].
  destruct (Z.eqb_spec ev 0) as [-> |He]; [rewrite app_nil_r in Hw3; done|]. cbn [negb]. wstep hal_close_wp; [exact Hw3|set_solver|].
  intros _ [q' w4] [Hq Hw4]; cbn in Hq, Hw4; subst q'. rewrite app_nil_r in Hw4. done.
Qed.

(** The queue has something to be woken by, besides [l]. *)
Definition signed (l : list Z) (s : osst) : Prop :=
  owned base wbase (l ++ sfds (o_q s)) (qwatch (o_q s)) (o_w s) /\ (activated (o_q s) = true -> piper (o_q s) <> AOSL_INVALID_FD).

Lemma fini_sigp_err q w l (e : Z) : signed l (MkOst q w) -> e <> 0 ->
  wp (os_fini_sigp be ;; cret e) (MkOst q w) (fun r s => efd (o_q s) = efd q /\ r <> 0 /\ owned base wbase l ∅ (o_w s)).
Proof.
  intros [Hw Ha] He. wstep os_fini_sigp_wp; [exact Hw|exact Ha|]. intros _ [q' w'] [Hq Hw']; cbn in Hq, Hw'; subst q'. apply wp_ret. done.
Qed.

Lemma nb_clex_wp fd q w l W : owned base wbase l W w ->
  wp (make_fd_nb_clex fd) (MkOst q w) (fun e s => o_q s = q /\ (e = 0 \/ e = -1) /\ owned base wbase l W (o_w s)).
Proof. intros Hw. unfold make_fd_nb_clex. wstep hal_ok_wp; [exact Hw|]. intros ok s [Hq Hw']. apply wp_ret. destruct ok; auto. Qed.

Lemma activate_wp q w l : owned base wbase l ∅ w -> piper q ∈ l ->
  wp (os_activate_sigp be) (MkOst q w) (fun e s => o_q s = q /\ (e = 0 /\ owned base wbase l (qwatch (w_activated true q)) (o_w s) \/ e = -1 /\ owned base wbase l ∅ (o_w s))).
Proof.
  intros Hw Hp. unfold os_activate_sigp, qwatch. destruct be; cbn; [|apply wp_ret; auto]. unfold os_activate_sigp_epoll. apply wp_bind, getq_wp.
  wstep watch_wp; [exact Hw|exact Hp|]. intros ok [q' w'] [Hq Hw']; cbn in Hq, Hw'; subst q'. apply wp_ret. destruct ok; auto.
Qed.

End OsMpProps.

(** ** Opening and closing *)

(** A socket may stay open where there are no pipes. *)
Definition leaks (sock : bool) (base base' : gset Z) : Prop := base' = base \/ sock = true /\ exists fd, base' = base ∪ {[fd]}.

Lemma owned_leak base wbase l fd w : owned base wbase (l ++ [fd]) ∅ w -> owned (base ∪ {[fd]}) wbase l ∅ w.
Proof.
  intros [Hpos Hlt Hnd Hb Ho Hwa Hsub]. apply NoDup_app in Hnd as (Hnd & Hd & _). split; try done.
  - intros x Hx. apply Hlt. set_solver.
  - intros x Hx Hin. apply (Hb x ltac:(set_solver)). specialize (Hd x Hx). set_solver.
  - rewrite Ho, list_to_set_app_L. set_solver.
Qed.

Section Opening.
Context (be : backend) (sock : bool) (base wbase : gset Z).

(** What a failure leaves: nothing, or the leaked socket. *)
Definition left_open (l : list Z) (w : osw) : Prop := exists base', leaks sock base base' /\ owned base' wbase l ∅ w.
Lemma left_none l w : owned base wbase l ∅ w -> left_open l w.
Proof. intros H. exists base. split; [by left|done]. Qed.

Lemma os_socket_pipe_wp q w l : sock = true -> owned base wbase l ∅ w ->
  wp os_socket_pipe (MkOst q w) (fun p s => o_q s = q /\ match p with
    | Some (r, p) => 0 < r /\ 0 < p /\ owned base wbase (l ++ [r; p]) ∅ (o_w s)
    | None => left_open l (o_w s) end).
Proof.
  intros Hsock Hw. unfold os_socket_pipe, hal_open. apply wp_bind. wstep hal_ok_wp; [exact Hw|]. intros ok [q' w1] [Hq Hw1]; cbn in Hq, Hw1; subst q'.
  destruct ok; [|apply wp_ret; cbn; split; [done|by apply left_none]]. wlast fresh_wp; [exact Hw1|]. intros r [q' w2] (Hq & Hr & Hw2); cbn in Hq, Hw2; subst q'.
  unfold aosl_fd_invalid. rewrite (proj2 (Z.eqb_neq r _)) by (unfold AOSL_INVALID_FD; lia).
  wstep hal_ok_wp; [exact Hw2|]. intros bound [q' w3] [Hq Hw3]; cbn in Hq, Hw3; subst q'. destruct bound; cbn [negb].
  2: { wstep hal_close_wp; [exact Hw3|set_solver|]. intros _ [q' w4] [Hq Hw4]; cbn in Hq, Hw4; subst q'. rewrite app_nil_r in Hw4. apply wp_ret. split; [done|by apply left_none]. }
  apply wp_bind. wstep hal_ok_wp; [exact Hw3|]. intros ok2 [q' w4] [Hq Hw4]; cbn in Hq, Hw4; subst q'.
  destruct ok2; [|apply wp_ret; cbn; split; [done|]; exists (base ∪ {[r]}); split; [right; eauto|by apply owned_leak]].
  wlast fresh_wp; [exact Hw4|]. intros p [q' w5] (Hq & Hp & Hw5); cbn in Hq, Hw5; subst q'. rewrite (proj2 (Z.eqb_neq p _)) by (unfold AOSL_INVALID_FD; lia). rewrite <-app_assoc in Hw5.
  wstep hal_ok_wp; [exact Hw5|]. intros conn [q' w6] [Hq Hw6]; cbn in Hq, Hw6; subst q'. destruct conn; cbn [negb]; [apply wp_ret; done|].
  wstep (hal_close_wp base wbase p _ _ (l ++ [r]) []); [by rewrite <-app_assoc|set_solver|]. intros _ [q' w7] [Hq Hw7]; cbn in Hq, Hw7; subst q'. rewrite app_nil_r in Hw7.
  wstep (hal_close_wp base wbase r _ _ l []); [exact Hw7|set_solver|]. intros _ [q' w8] [Hq Hw8]; cbn in Hq, Hw8; subst q'. rewrite app_nil_r in Hw8. apply wp_ret. split; [done|by apply left_none].
Qed.

Lemma os_pipe_wp q w l : owned base wbase l ∅ w ->
  wp (os_pipe sock) (MkOst q w) (fun '(p, _) s => o_q s = q /\ match p with
    | Some (r, p) => 0 < r /\ 0 < p /\ owned base wbase (l ++ [r; p]) ∅ (o_w s)
    | None => left_open l (o_w s) end).
Proof.
  intros Hw. unfold os_pipe. destruct (Bool.bool_dec sock true) as [Hs|Hs]; [rewrite Hs|rewrite (Bool.not_true_is_false _ Hs)].
  - wstep os_socket_pipe_wp; [done|exact Hw|]. intros p s [Hq Hp]. apply wp_ret. done.
  - wstep pipe_wp; [exact Hw|]. intros p s [Hq Hp]. apply wp_ret. split; [done|]. destruct p as [[]|]; [done|by apply left_none].
Qed.

Lemma fini_err b q w l (e : Z) : leaks sock base b -> signed be b wbase l (MkOst q w) -> e <> 0 ->
  wp (os_fini_sigp be ;; cret e) (MkOst q w) (fun r s => efd (o_q s) = efd q /\ (r = 0 /\ signed be base wbase l s \/ r <> 0 /\ left_open l (o_w s))).
Proof. intros Hb Hs He. wlast fini_sigp_err; [exact Hs|exact He|]. intros r s (Hq & Hr & Ho). split; [done|]. right. split; [done|]. by exists b. Qed.

Lemma os_init_sigp_pipe_wp q w l : owned base wbase l ∅ w -> piper q = -1 -> pipew q = -1 -> activated q = false -> sg_event q = 0 ->
  wp (os_init_sigp_pipe be sock) (MkOst q w) (fun r s => efd (o_q s) = efd q /\ (r = 0 /\ signed be base wbase l s \/ r <> 0 /\ left_open l (o_w s))).
Proof.
  intros Hw. destruct q as [e ty r p a ev]. cbn. intros -> -> -> ->. unfold os_init_sigp_pipe. wstep os_pipe_wp; [exact Hw|].
  intros [[[r p]|] typ] [q' w'] [Hq Hw']; cbn in Hq, Hw'; subst q'.
  2: { destruct Hw' as (b & Hb & Hw'). eapply fini_err; [exact Hb| |done]. split; [|done]. cbn. rewrite app_nil_r. unfold qwatch. by destruct be. }
  destruct Hw' as (Hr & Hp & Hw'). do 3 (apply wp_bind, setq_wp). cbn.
  assert (Hsig : forall w, owned base wbase (l ++ [r; p]) ∅ w -> signed be base wbase l (MkOst (MkQos e typ r p false 0) w)).
  { intros w2 H2. split; [|done]. unfold sfds, aosl_fd_invalid, qwatch. cbn. rewrite !(proj2 (Z.eqb_neq _ _)) by (unfold AOSL_INVALID_FD; lia). by destruct be. }
  assert (Hbb : leaks sock base base) by (by left).
  wstep nb_clex_wp; [exact Hw'|]. intros e1 [q' w2] (Hq & He1 & Hw2); cbn in Hq, Hw2; subst q'. destruct (Z.ltb_spec e1 0); [eapply fini_err; [exact Hbb|by apply Hsig|lia]|].
  wstep nb_clex_wp; [exact Hw2|]. intros e2 [q' w3] (Hq & He2 & Hw3); cbn in Hq, Hw3; subst q'. destruct (Z.ltb_spec e2 0); [eapply fini_err; [exact Hbb|by apply Hsig|lia]|].
  wstep activate_wp; [exact Hw3|cbn; set_solver|]. intros e3 [q' w4] (Hq & [[-> Hw4]|[-> Hw4]]); cbn in Hq, Hw4; subst q'; cbn;
    [|eapply fini_err; [exact Hbb|by apply Hsig|lia]].
  split; [done|]. left. split; [done|]. split; cbn; [|unfold AOSL_INVALID_FD; lia].
  unfold sfds, aosl_fd_invalid. cbn. by rewrite !(proj2 (Z.eqb_neq _ _)) by (unfold AOSL_INVALID_FD; lia).
Qed.

Lemma os_init_sigp_wp flags q w l : owned base wbase l ∅ w ->
  wp (os_init_sigp be sock flags) (MkOst q w) (fun r s => efd (o_q s) = efd q /\ (r = 0 /\ signed be base wbase l s \/ r <> 0 /\ left_open l (o_w s))).
Proof.
  intros Hw. unfold os_init_sigp. apply wp_bind, setq_wp. destruct (negb _); [|wlast os_init_sigp_pipe_wp; [exact Hw|done..|naive_solver]].
  unfold os_init_sigp_event, hal_open. apply wp_bind. wstep hal_ok_wp; [exact Hw|]. intros ok [q' w'] [Hq Hw']; cbn in Hq, Hw'; subst q'. destruct ok.
  - wlast fresh_wp; [exact Hw'|]. intros fd [q' w2] (Hq & Hfd & Hw2); cbn in Hq, Hw2; subst q'. apply wp_bind, setq_wp, wp_ret. cbn.
    rewrite (proj2 (Z.eqb_neq fd 0)) by lia. split; [done|]. left. split; [done|]. split; [|done]. cbn. unfold sfds, qwatch. cbn. rewrite (proj2 (Z.eqb_neq fd 0)) by lia. by destruct be.
  - apply wp_ret. apply wp_bind, setq_wp, wp_ret. cbn. split; [done|]. right. split; [done|by apply left_none].
Qed.

(** [os_mp_init] opens all that the queue needs, or fails and leaves nothing open but a
    leaked socket. *)
Lemma os_mp_init_wp flags q w : owned base wbase [] ∅ w ->
  wp (os_mp_init be sock flags) (MkOst q w) (fun r s =>
    r = 0 /\ owned base wbase (qfds be (o_q s)) (qwatch be (o_q s)) (o_w s) /\ (activated (o_q s) = true -> piper (o_q s) <> AOSL_INVALID_FD) \/
    r = -1 /\ left_open [] (o_w s)).
Proof.
  intros Hw. unfold os_mp_init, os_mp_init_pub, os_mp_fini_pub, qfds, signed in *. destruct be eqn:Ebe.
  - unfold os_mp_init_epoll, hal_open. apply wp_bind. apply wp_bind. wstep hal_ok_wp; [exact Hw|]. intros ok [q' w'] [Hq Hw']; cbn in Hq, Hw'; subst q'. destruct ok.
    2: { apply wp_ret. apply wp_bind, setq_wp. cbn. right. split; [done|by apply left_none]. }
    wlast fresh_wp; [exact Hw'|]. intros fd [q' w2] (Hq & Hfd & Hw2); cbn in Hq, Hw2; subst q'. apply wp_bind, setq_wp. unfold aosl_fd_invalid. rewrite (proj2 (Z.eqb_neq fd _)) by (unfold AOSL_INVALID_FD; lia).
    apply wp_ret. cbn [Z.eqb negb]. rewrite <-Ebe. wstep os_init_sigp_wp; [exact Hw2|]. intros r [q' w3] [Hq [[-> [Hw3 Ha]]|[Hr Hw3]]]; cbn in Hq, Hw3.
    + cbn. rewrite <-Hq in Hw3. auto.
    + destruct Hw3 as (b & Hb & Hw3). rewrite (proj2 (Z.eqb_neq r 0)) by done. cbn [negb]. unfold os_mp_fini_epoll. apply wp_bind. apply wp_bind, getq_wp. rewrite Hq. wstep (hal_close_wp b wbase fd _ _ [] []); [exact Hw3|set_solver|].
      intros _ [q2 w4] [_ Hw4]. apply setq_wp, wp_ret. right. split; [done|]. by exists b.
  - apply wp_bind, wp_ret. cbn [Z.eqb negb]. rewrite <-Ebe. wstep os_init_sigp_wp; [exact Hw|]. intros r [q' w3] [Hq [[-> [Hw3 Ha]]|[Hr Hw3]]]; cbn in Hq, Hw3; [cbn; auto|].
    rewrite (proj2 (Z.eqb_neq r 0)) by done. cbn. auto.
Qed.

(** [os_mp_fini] closes all of it. *)
Lemma os_mp_fini_wp q w : owned base wbase (qfds be q) (qwatch be q) w -> (activated q = true -> piper q <> AOSL_INVALID_FD) ->
  wp (os_mp_fini be) (MkOst q w) (fun _ s => owned base wbase [] ∅ (o_w s)).
Proof.
  intros Hw Ha. unfold os_mp_fini, os_mp_fini_pub, qfds in *. wstep os_fini_sigp_wp; [exact Hw|exact Ha|]. intros _ [q' w'] [Hq Hw']; cbn in Hq, Hw'; subst q'.
  destruct be; [|done]. unfold os_mp_fini_epoll. apply wp_bind, getq_wp. cbn [efd unsigned]. wstep (hal_close_wp base wbase _ _ _ [] []); [exact Hw'|set_solver|]. intros _ [q2 w2] [_ Hw2]. done.
Qed.
End Opening.

(** Where there are no pipes, a queue that cannot open the second socket keeps the first
    one open. *)
Example socket_pipe_leaks :
  (fun r => match r with Ret (e, s) => Some (e, elements (os_open (o_w s))) | _ => None end)
    (os_mp_init PollSelect true 0 (MkOst (MkQos 0 0 0 0 false 0) (MkOsw ∅ ∅ 3 [true; true; false]))) = Some (-1, [3]).
Proof. vm_compute. reflexivity. Qed.
