(* ===== verification/MpqLife.v ===== *)
(** * The life of a queue: [kernel/mpq.c]

    A thread creates a queue and waits until the queue's own thread tells it how that
    went; other threads ask the queue to end, or wait until it has ended, or both; the
    queue's thread makes the queue, runs it, and at the end takes it apart and tells
    those who wait.  The two hand-overs go through objects on the stacks of the threads
    that wait ([k_sync_t]), which are gone as soon as those return.  The functions of the
    queue are the subject of [Mpq]; here they are the user code of [QtInit] and [QtLoop].

    [lstep] runs the section of one thread up to the next point where another one can
    interfere: [None] when the thread has to wait, [Fault] when it touches what is not
    there any more. *)
From S2P Require Import Prelude OsMp.
#[local] Open Scope aosl_scope.

Definition MPQ_MAX_SIZE : Z := 1000000.
Definition AOSL_MPQ_FLAG_NONBLOCK : Z := 1.
Definition AOSL_MPQ_FLAG_DESTROY_NOT_ALLOWED : Z := 2147483648.

(** ** Data *)

(** The creating thread, the thread of the queue, and the other threads. *)
Inductive actor := Creator | QThread | Other (t : nat).
#[export] Instance actor_eq_dec : EqDecision actor.
Proof. solve_decision. Defined.

(** [sync.result] of [__mpq_create]: [__MPQ_CREATE_INIT], [NULL] or the queue. *)
Inductive created := CreateInit | CreateNull | CreateQ.

(** The [sync] and [args.err] of [__mpq_create]: the mutex has the thread that holds it. *)
Record create_frame := MkCf { cf_result : created; cf_err : Z; cf_mutex : option actor }.
(** [struct q_wait_entry]: [sync.result == __MPQ_DESTROY_DONE], [next], the mutex. *)
Record wait_frame := MkWf { wf_done : bool; wf_next : option nat; wf_mutex : option actor }.

(** [struct mp_queue]; [lq_name] says whether there is memory for the name. *)
Record lq := MkLq {
  lq_flags : Z; lq_name : bool; lq_os : qos; lq_terminated : bool; lq_exiting : bool; lq_usage : Z;
  destroy_wait_head : option nat; destroy_wait_tail : option nat
}.
Definition w_term b q := MkLq (lq_flags q) (lq_name q) (lq_os q) b (lq_exiting q) (lq_usage q) (destroy_wait_head q) (destroy_wait_tail q).
Definition w_exiting b q := MkLq (lq_flags q) (lq_name q) (lq_os q) (lq_terminated q) b (lq_usage q) (destroy_wait_head q) (destroy_wait_tail q).
Definition w_luse n q := MkLq (lq_flags q) (lq_name q) (lq_os q) (lq_terminated q) (lq_exiting q) n (destroy_wait_head q) (destroy_wait_tail q).
Definition w_wait h t q := MkLq (lq_flags q) (lq_name q) (lq_os q) (lq_terminated q) (lq_exiting q) (lq_usage q) h t.

(** What an other thread asks for: [mpq_destroy], or [mpq_do_wait] with [issue_destroy]. *)
Inductive request := Destroy | Wait (issue_destroy : bool).

(** Where the creating thread is: before the call; about to call [k_thread_create]; about
    to lock; at the test of [sync.result]; in [k_cond_wait]; woken; about to unlock; about
    to destroy the mutex; about to read [q->qid]; returned with an error or the queue. *)
Inductive cpc := CrIdle | CrThread (flags : Z) | CrLock | CrTest | CrBlocked | CrWoken | CrUnlock | CrDestroy | CrRead | CrFailed (err : Z) | CrDone.

(** Where the thread of the queue is in [mpq_thread_entry]: not there; about to create the
    queue; in [init]; in [fini] without a queue; about to lock the creator's mutex, holding
    it, about to unlock it; in [__mp_queue_poll_loop]; in the parts of [__q_wait_destroy];
    returned.  In [__q_wait_destroy] [k] is the error number when [init] failed. *)
Inductive qpc :=
| QtNone | QtStart (flags : Z) | QtInit | QtNoQ (err : Z)
| QtReply (r : created) (err : Z) | QtReply2 (r : created) (err : Z) | QtReply3 (r : created)
| QtLoop
| QtUninstall (k : option Z) | QtDrain (k : option Z) | QtFini (k : option Z) | QtFree (k : option Z)
| QtNotify (k : option Z) (wait : option nat)
| QtTell (k : option Z) (wait : nat) (next : option nat)
| QtTell2 (k : option Z) (wait : nat) (next : option nat)
| QtTell3 (k : option Z) (wait : nat) (next : option nat)
| QtExit (r : created).

(** Where an other thread is: outside (with the result of its last call); with a reference
    to the queue; with its wait entry in the list; about to give the reference back, without
    and with an entry; in [__mpq_destroy_wait]. *)
Inductive wpc :=
| WIdle (r : Z) | WGot (o : request) (check_allowed : bool) | WTerm (issue_destroy : bool)
| WPut (r : Z) | WPutWait
| WLock | WTest | WBlocked | WWoken | WUnlock | WDestroy.

(** The queue and what belongs to it: the name, the mutex and condition, the identifier,
    the entry of the table, what the platform gave; and [aosl_main_qid]. *)
Record qmem := MkM {
  m_q : option lq; m_names : Z; m_lock : bool; m_id : bool; m_installed : bool; m_os : osw; m_main : Z
}.
Definition w_q x m := MkM x (m_names m) (m_lock m) (m_id m) (m_installed m) (m_os m) (m_main m).
Definition w_names x m := MkM (m_q m) x (m_lock m) (m_id m) (m_installed m) (m_os m) (m_main m).
Definition w_lock x m := MkM (m_q m) (m_names m) x (m_id m) (m_installed m) (m_os m) (m_main m).
Definition w_id x m := MkM (m_q m) (m_names m) (m_lock m) x (m_installed m) (m_os m) (m_main m).
Definition w_inst x m := MkM (m_q m) (m_names m) (m_lock m) (m_id m) x (m_os m) (m_main m).
Definition w_os x m := MkM (m_q m) (m_names m) (m_lock m) (m_id m) (m_installed m) x (m_main m).
Definition w_main x m := MkM (m_q m) (m_names m) (m_lock m) (m_id m) (m_installed m) (m_os m) x.

(** Everything: the memory, the objects on the stacks, the threads, whether the creator is
    [aosl_main_start], and how often [fini] was called. *)
Record lsys := MkL {
  l_m : qmem; l_cf : option create_frame; l_wf : gmap nat wait_frame;
  l_cr : cpc; l_qt : qpc; l_th : list wpc; l_is_main : bool; l_finis : nat
}.

(** ** Sections of code *)

Definition modm (f : qmem -> qmem) : CM qmem unit := do m <- cget; cput (f m).
(** An access to the queue. *)
Definition the_q : CM qmem lq := do m <- cget; match m_q m with Some q => cret q | None => cfault end.
Definition mod_lq (f : lq -> lq) : CM qmem unit := do q <- the_q; modm (w_q (Some (f q))).
Definition run_os {A} (c : CM osst A) : CM qmem A :=
  do q <- the_q; do m <- cget;
  match c (MkOst (lq_os q) (m_os m)) with
  | Ret (a, s) => modm (fun m => w_os (o_w s) (w_q (Some (MkLq (lq_flags q) (lq_name q) (o_q s) (lq_terminated q) (lq_exiting q) (lq_usage q) (destroy_wait_head q) (destroy_wait_tail q))) m)) ;; cret a
  | Abort => cabort
  | Fault => cfault
  | NoFuel => cnofuel
  end.

Section Life.
Context (be : backend) (sock : bool) (qid : Z).

Definition __free_q_obj : CM qmem unit :=
  do q <- the_q;
  (when lq_name q then modm (fun m => w_names (m_names m - 1) m)) ;;
  modm (w_q None).

(** [__mpq_id_install] and [__mpq_id_uninstall] as seen by this queue ([IdPool] has the table). *)
Definition q_install : CM qmem unit := do m <- cget; if m_installed m then cabort else modm (w_inst true).
Definition q_uninstall : CM qmem unit := modm (w_inst false).

(** [mem], [name] and [id] are the outcomes of [aosl_malloc], [aosl_strdup] and
    [get_unused_mpq_id], [err] is the error number of a failure; the result is the error
    number, if any.  The lists of descriptors and timers are empty at this point. *)
Definition __q_create (mem name id : bool) (err flags : Z) : CM qmem (option Z) :=
  if negb mem then cret (Some err) else
  modm (w_q (Some (MkLq flags name (MkQos 0 0 0 0 false 0) false false 0 None None))) ;;
  (when name then modm (fun m => w_names (m_names m + 1) m)) ;;
  do r <- run_os (os_mp_init be sock flags);
  if r <? 0 then __free_q_obj ;; cret (Some err) else
  mod_lq (fun q => w_exiting false (w_term false q)) ;;
  modm (w_lock true) ;;
  mod_lq (fun q => w_wait None None (w_luse 1 q)) ;;
  if negb id then
    modm (w_lock false) ;;
    run_os (os_mp_fini be) ;;
    __free_q_obj ;; cret (Some err)
  else
    modm (w_id true) ;;
    q_install ;; cret None.

(** The descriptors and the timers of the queue are the subject of [Iofd] and [Timer], the
    shrinking of the pools that follows the end of the main queue that of [Mpqp]. *)
Definition __q_destroy : CM qmem unit :=
  do _ <- the_q;
  run_os (os_mp_fini be) ;;
  modm (w_lock false) ;;
  modm (w_id false) ;;
  (do m <- cget; when m_main m =? qid then modm (w_main (-1))) ;;
  __free_q_obj.

Definition __mpq_get : CM qmem bool :=
  do m <- cget;
  if m_installed m then mod_lq (fun q => w_luse (lq_usage q + 1) q) ;; cret true else cret false.
Definition __mpq_put : CM qmem unit := mod_lq (fun q => w_luse (lq_usage q - 1) q).
(** [__mpq_destroy] without waking the queue ([Mpq] has that). *)
Definition __mpq_destroy : CM qmem unit := mod_lq (w_term true).
Definition not_allowed (q : lq) : bool := negb (Z.land (lq_flags q) AOSL_MPQ_FLAG_DESTROY_NOT_ALLOWED =? 0).

Definition new_wait : wait_frame := MkWf false None None.
Definition set_next (x : option nat) (f : wait_frame) : wait_frame := MkWf (wf_done f) x (wf_mutex f).
Definition set_wmutex (x : option actor) (f : wait_frame) : wait_frame := MkWf (wf_done f) (wf_next f) x.
Definition set_done (f : wait_frame) : wait_frame := MkWf true (wf_next f) (wf_mutex f).
Definition set_cmutex (x : option actor) (f : create_frame) : create_frame := MkCf (cf_result f) (cf_err f) x.

(** [__mpq_add_wait] of thread [t], whose entry is on its stack. *)
Definition __mpq_add_wait (t : nat) (wf : gmap nat wait_frame) : CM qmem (gmap nat wait_frame) :=
  let wf := <[t := new_wait]> wf in
  do q <- the_q;
  match destroy_wait_tail q with
  | Some u =>
    match wf !! u with
    | None => cfault
    | Some f => mod_lq (w_wait (destroy_wait_head q) (Some t)) ;; cret (<[u := set_next (Some t) f]> wf)
    end
  | None => mod_lq (w_wait (Some t) (Some t)) ;; cret wf
  end.

(** ** The threads *)

(** What can happen next. *)
Inductive label :=
| LCreate (is_main : bool) (flags max : Z)
| LThread (err : Z)
| LCreator | LCreatorWake
| LMake (mem name id : bool) (err : Z)
| LInit (r err : Z)
| LSelf
| LQueue
| LAsk (t : nat) (o : request) (check_allowed : bool)
| LGo (t : nat)
| LWake (t : nat).

(** Run [c] on the memory and go on with [k]. *)
Definition on {A} (c : CM qmem A) (m : qmem) (k : A -> qmem -> lsys) : option (res lsys) :=
  Some match c m with Ret (a, m') => Ret (k a m') | Abort => Abort | Fault => Fault | NoFuel => NoFuel end.
Definition to (s : lsys) : option (res lsys) := Some (Ret s).
Definition fault : option (res lsys) := Some Fault.

(** [k_lock_lock], [k_lock_unlock] and [k_lock_destroy] of a mutex by [a]: unlocking a mutex of
    another thread and destroying one that is held are faults. *)
Definition lock_by (a : actor) (mx : option actor) (k : option actor -> lsys) : option (res lsys) :=
  match mx with None => to (k (Some a)) | Some _ => None end.
Definition unlock_by (a : actor) (mx : option actor) (k : option actor -> lsys) : option (res lsys) :=
  if decide (mx = Some a) then to (k None) else fault.
Definition destroy_mutex (mx : option actor) (s : lsys) : option (res lsys) :=
  match mx with None => to s | Some _ => fault end.

(** [__mpq_create] up to [k_thread_create]: the arguments are checked and the objects on the
    stack are initialized. *)
Definition __mpq_create (is_main : bool) (flags max : Z) (s : lsys) : option (res lsys) :=
  let 'MkL m cf wf cr qt th _ nf := s in
  if (max <? 1) || (MPQ_MAX_SIZE <? max) then to (MkL m cf wf (CrFailed AOSL_EINVAL) qt th is_main nf) else
  to (MkL m (Some (MkCf CreateInit 0 None)) wf (CrThread flags) qt th is_main nf).
Definition __mpq_create_flags (flags max : Z) (s : lsys) : option (res lsys) :=
  let 'MkL m cf wf cr qt th _ nf := s in
  if negb (Z.land flags 4294901760 =? 0) then to (MkL m cf wf (CrFailed AOSL_EINVAL) qt th false nf) else
  __mpq_create false flags max s.
Definition aosl_main_start (s : lsys) : option (res lsys) :=
  let 'MkL m cf wf cr qt th _ nf := s in
  if m_main m =? -1 then
    let main_q_flags := Z.lor AOSL_MPQ_FLAG_DESTROY_NOT_ALLOWED AOSL_MPQ_FLAG_NONBLOCK in
    __mpq_create true main_q_flags 100000 (MkL (w_main 0 m) cf wf cr qt th true nf)
  else to (MkL m cf wf (CrFailed AOSL_EEXIST) qt th true nf).
Definition create_call (is_main : bool) (flags max : Z) (s : lsys) : option (res lsys) :=
  if is_main then aosl_main_start s else __mpq_create_flags flags max s.

(** [__mpq_create] after [k_thread_create], and what its callers do with the queue. *)
Definition creator_step (s : lsys) : option (res lsys) :=
  let 'MkL m cf wf cr qt th mn nf := s in
  match cr, cf with
  | CrLock, Some f | CrWoken, Some f => lock_by Creator (cf_mutex f) (fun x => MkL m (Some (set_cmutex x f)) wf CrTest qt th mn nf)
  | CrTest, Some f =>
    match cf_result f with
    | CreateInit => unlock_by Creator (cf_mutex f) (fun x => MkL m (Some (set_cmutex x f)) wf CrBlocked qt th mn nf)
    | _ => to (MkL m cf wf CrUnlock qt th mn nf)
    end
  | CrUnlock, Some f => unlock_by Creator (cf_mutex f) (fun x => MkL m (Some (set_cmutex x f)) wf CrDestroy qt th mn nf)
  | CrDestroy, Some f =>
    destroy_mutex (cf_mutex f) (MkL m None wf (match cf_result f with CreateQ => CrRead | _ => CrFailed (cf_err f) end) qt th mn nf)
  | CrRead, _ => on (do _ <- the_q; when mn then modm (w_main qid)) m (fun _ m => MkL m cf wf CrDone qt th mn nf)
  | CrLock, None | CrWoken, None | CrTest, None | CrUnlock, None | CrDestroy, None => fault
  | _, _ => None
  end.

(** [k_cond_signal] and [k_cond_broadcast]. *)
Definition cr_signal (c : cpc) : cpc := match c with CrBlocked => CrWoken | _ => c end.
Definition w_signal (w : wpc) : wpc := match w with WBlocked => WWoken | _ => w end.

(** [__q_wait_destroy] *)
Definition __q_wait_destroy (s : lsys) : option (res lsys) :=
  let 'MkL m cf wf cr qt th mn nf := s in
  let go m qt := MkL m cf wf cr qt th mn nf in
  match qt with
  | QtUninstall k => on (do _ <- the_q; q_uninstall) m (fun _ m => go m (QtDrain k))
  | QtDrain k =>
    match m_q m with
    | None => fault
    | Some q => if 1 <? lq_usage q then None else to (go m (QtFini k))
    end
  | QtFini k => to (MkL m cf wf cr (QtFree k) th mn (S nf))
  | QtFree k => on (do q <- the_q; __q_destroy ;; cret (destroy_wait_head q)) m (fun wait m => go m (QtNotify k wait))
  | QtNotify k None => to (go m (match k with Some e => QtReply CreateNull e | None => QtExit CreateQ end))
  | QtNotify k (Some i) => match wf !! i with None => fault | Some f => to (go m (QtTell k i (wf_next f))) end
  | QtTell k i nx =>
    match wf !! i with
    | None => fault
    | Some f => lock_by QThread (wf_mutex f) (fun x => MkL m cf (<[i := set_wmutex x f]> wf) cr (QtTell2 k i nx) th mn nf)
    end
  | QtTell2 k i nx =>
    match wf !! i with
    | None => fault
    | Some f => to (MkL m cf (<[i := set_done f]> wf) cr (QtTell3 k i nx) (alter w_signal i th) mn nf)
    end
  | QtTell3 k i nx =>
    match wf !! i with
    | None => fault
    | Some f => unlock_by QThread (wf_mutex f) (fun x => MkL m cf (<[i := set_wmutex x f]> wf) cr (QtNotify k nx) th mn nf)
    end
  | _ => None
  end.

(** [mpq_thread_entry] after the creation of the queue and [init], with [__mp_queue_poll_loop]. *)
Definition queue_step (s : lsys) : option (res lsys) :=
  let 'MkL m cf wf cr qt th mn nf := s in
  let go m qt := MkL m cf wf cr qt th mn nf in
  match qt with
  | QtNoQ e => to (MkL m cf wf cr (QtReply CreateNull e) th mn (S nf))
  | QtReply r e =>
    match cf with
    | None => fault
    | Some f => lock_by QThread (cf_mutex f) (fun x => MkL m (Some (set_cmutex x f)) wf cr (QtReply2 r e) th mn nf)
    end
  | QtReply2 r e =>
    match cf with
    | None => fault
    | Some f => to (MkL m (Some (MkCf r e (cf_mutex f))) wf (cr_signal cr) (QtReply3 r) th mn nf)
    end
  | QtReply3 r =>
    match cf with
    | None => fault
    | Some f => unlock_by QThread (cf_mutex f) (fun x => MkL m (Some (set_cmutex x f)) wf cr (match r with CreateQ => QtLoop | _ => QtExit r end) th mn nf)
    end
  | QtLoop =>
    match m_q m with
    | None => fault
    | Some q => if lq_terminated q then on (mod_lq (w_exiting true)) m (fun _ m => go m (QtUninstall None)) else None
    end
  | QtNone | QtStart _ | QtInit | QtExit _ => None
  | _ => __q_wait_destroy s
  end.

(** [mpq_destroy] with the reference to the queue. *)
Definition mpq_destroy (check_allowed : bool) : CM qmem wpc :=
  do q <- the_q;
  if check_allowed && not_allowed q then cret (WPut (- AOSL_EPERM)) else
  __mpq_destroy ;; cret (WPut 0).

(** [__mpq_destroy_wait] of thread [t] with the entry [f]; [k] gets what becomes of the entry. *)
Definition __mpq_destroy_wait (t : nat) (w : wpc) (f : wait_frame) (k : option wait_frame -> wpc -> lsys) : option (res lsys) :=
  match w with
  | WLock | WWoken => lock_by (Other t) (wf_mutex f) (fun x => k (Some (set_wmutex x f)) WTest)
  | WTest => if wf_done f then to (k (Some f) WUnlock) else unlock_by (Other t) (wf_mutex f) (fun x => k (Some (set_wmutex x f)) WBlocked)
  | WUnlock => unlock_by (Other t) (wf_mutex f) (fun x => k (Some (set_wmutex x f)) WDestroy)
  | WDestroy => destroy_mutex (wf_mutex f) (k None (WIdle 0))
  | _ => None
  end.

(** [mpq_do_wait] with the reference to the queue, up to [__mpq_destroy_wait]; the thread is not
    that of the queue. *)
Definition mpq_do_wait (t : nat) (w : wpc) (wf : gmap nat wait_frame) : CM qmem (gmap nat wait_frame * wpc) :=
  match w with
  | WGot (Wait issue_destroy) check_allowed =>
    do q <- the_q;
    if issue_destroy && check_allowed && not_allowed q then cret (wf, WPut (- AOSL_EPERM)) else
    do wf <- __mpq_add_wait t wf; cret (wf, WTerm issue_destroy)
  | WTerm issue_destroy => (when issue_destroy then __mpq_destroy) ;; cret (wf, WPutWait)
  | WPutWait => __mpq_put ;; cret (wf, WLock)
  | _ => cret (wf, w)
  end.

(** An other thread. *)
Definition other_step (t : nat) (s : lsys) : option (res lsys) :=
  let 'MkL m cf wf cr qt th mn nf := s in
  let go wf m w := MkL m cf wf cr qt (<[t := w]> th) mn nf in
  match th !! t with
  | Some (WGot Destroy c) => on (mpq_destroy c) m (fun w m => go wf m w)
  | Some (WPut r) => on __mpq_put m (fun _ m => go wf m (WIdle r))
  | Some (WGot (Wait _) _ as w) | Some (WTerm _ as w) | Some (WPutWait as w) => on (mpq_do_wait t w wf) m (fun '(wf, w) m => go wf m w)
  | Some (WLock as w) | Some (WWoken as w) | Some (WTest as w) | Some (WUnlock as w) | Some (WDestroy as w) =>
    match wf !! t with
    | None => fault
    | Some f => __mpq_destroy_wait t w f (fun f w => go (partial_alter (fun _ => f) t wf) m w)
    end
  | _ => None
  end.

(** One step of one thread. *)
Definition lstep (l : label) (s : lsys) : option (res lsys) :=
  let 'MkL m cf wf cr qt th mn nf := s in
  match l with
  | LCreate is_main flags max => match cr with CrIdle => create_call is_main flags max s | _ => None end
  | LThread err =>
    match cr with
    | CrThread flags => if err =? 0 then to (MkL m cf wf CrLock (QtStart flags) th mn nf) else to (MkL m None wf (CrFailed err) qt th mn nf)
    | _ => None
    end
  | LCreator => creator_step s
  | LCreatorWake => match cr with CrBlocked => to (MkL m cf wf CrWoken qt th mn nf) | _ => None end
  | LMake mem name id err =>
    match qt with
    | QtStart flags => on (__q_create mem name id err flags) m (fun r m => MkL m cf wf cr (match r with None => QtInit | Some e => QtNoQ e end) th mn nf)
    | _ => None
    end
  | LInit r err =>
    match qt with
    | QtInit =>
      if r <? 0 then on (mod_lq (fun q => w_exiting true (w_term true q))) m (fun _ m => MkL m cf wf cr (QtUninstall (Some err)) th mn nf)
      else to (MkL m cf wf cr (QtReply CreateQ err) th mn nf)
    | _ => None
    end
  | LSelf => match qt with QtInit | QtLoop => on __mpq_destroy m (fun _ m => MkL m cf wf cr qt th mn nf) | _ => None end
  | LQueue => queue_step s
  | LAsk t o c =>
    match th !! t with
    | Some (WIdle _) => on __mpq_get m (fun b m => MkL m cf wf cr qt (<[t := if b : bool then WGot o c else WIdle (- AOSL_EINVAL)]> th) mn nf)
    | _ => None
    end
  | LGo t => other_step t s
  | LWake t => match th !! t with Some WBlocked => to (MkL m cf wf cr qt (<[t := WWoken]> th) mn nf) | _ => None end
  end.

(** [n] other threads; the platform is as it is, with [aosl_main_qid] at [main]. *)
Definition life_init (w : osw) (main : Z) (n : nat) : lsys :=
  MkL (MkM None 0 false false false w main) None ∅ CrIdle QtNone (replicate n (WIdle 0)) false 0.

Inductive life (w : osw) (main : Z) (n : nat) : lsys -> Prop :=
| life_start : life w main n (life_init w main n)
| life_next s l s' : life w main n s -> lstep l s = Some (Ret s') -> life w main n s'.
End Life.
