(* ===== verification/MpqLifeInv.v ===== *)
(** * Invariants of the life of a queue

    What holds between the steps of [MpqLife]: how the creator and the thread of the
    queue stand to each other, what the queue owns while it is there, who holds
    references to it, and who waits for its end. *)
From S2P Require Import Prelude OsMp MpqLife.
#[local] Open Scope aosl_scope.

(** ** Phases of the thread of the queue *)

Definition alive (qt : qpc) : bool :=
  match qt with
  | QtInit | QtReply CreateQ _ | QtReply2 CreateQ _ | QtReply3 CreateQ | QtLoop
  | QtUninstall _ | QtDrain _ | QtFini _ | QtFree _ => true
  | _ => false
  end.
(** The queue is in the table. *)
Definition inst (qt : qpc) : bool :=
  match qt with
  | QtInit | QtReply CreateQ _ | QtReply2 CreateQ _ | QtReply3 CreateQ | QtLoop | QtUninstall _ => true
  | _ => false
  end.
(** The end of [__q_wait_destroy] it is in: [init] failed, or the normal end. *)
Definition ending (qt : qpc) : option (option Z) :=
  match qt with
  | QtUninstall k | QtDrain k | QtFini k | QtFree k | QtNotify k _ | QtTell k _ _ | QtTell2 k _ _ | QtTell3 k _ _ => Some k
  | _ => None
  end.
(** What the creator was told. *)
Definition told (qt : qpc) : option created :=
  match qt with
  | QtReply3 r | QtExit r => Some r
  | QtLoop => Some CreateQ
  | QtNone | QtStart _ | QtInit | QtNoQ _ | QtReply _ _ | QtReply2 _ _ => None
  | _ => match ending qt with Some None => Some CreateQ | _ => None end
  end.
(** It holds the creator's mutex. *)
Definition replies (qt : qpc) : bool := match qt with QtReply2 _ _ | QtReply3 _ => true | _ => false end.
(** A result that is passed on is one. *)
Definition result_ok (qt : qpc) : Prop :=
  match qt with QtReply r _ | QtReply2 r _ | QtReply3 r | QtExit r => r <> CreateInit | _ => True end.
(** [fini] has been called. *)
Definition finished (qt : qpc) : bool :=
  match qt with
  | QtReply CreateNull _ | QtReply2 CreateNull _ | QtReply3 CreateNull | QtExit _
  | QtFree _ | QtNotify _ _ | QtTell _ _ _ | QtTell2 _ _ _ | QtTell3 _ _ _ => true
  | _ => false
  end.

(** ** The creator *)

Definition cr_holds (cr : cpc) : bool := match cr with CrTest | CrUnlock => true | _ => false end.
Definition cowner (cr : cpc) (qt : qpc) : option actor :=
  if cr_holds cr then Some Creator else if replies qt then Some QThread else None.

Definition cinv (cf : option create_frame) (cr : cpc) (qt : qpc) : Prop :=
  result_ok qt /\
  match cr with
  | CrIdle => cf = None /\ qt = QtNone
  | CrThread _ => cf = Some (MkCf CreateInit 0 None) /\ qt = QtNone
  | CrFailed _ => cf = None /\ (qt = QtNone \/ qt = QtExit CreateNull)
  | CrRead | CrDone => cf = None /\ told qt = Some CreateQ /\ replies qt = false
  | CrLock | CrTest | CrBlocked | CrWoken | CrUnlock | CrDestroy =>
    exists f, cf = Some f /\ qt <> QtNone /\ cf_result f = default CreateInit (told qt) /\ cf_mutex f = cowner cr qt /\
      cr_holds cr && replies qt = false /\
      (cr = CrBlocked -> told qt = None) /\
      (cr = CrUnlock \/ cr = CrDestroy -> told qt <> None /\ replies qt = false)
  end.

(** ** The memory *)

Section Inv.
Context (be : backend) (sock : bool) (qid : Z) (base wbase : gset Z).

Definition minv (m : qmem) (qt : qpc) : Prop :=
  m_installed m = inst qt /\
  match m_q m with
  | Some q =>
    alive qt = true /\ m_lock m = true /\ m_id m = true /\ m_names m = (if lq_name q then 1 else 0) /\
    owned base wbase (qfds be (lq_os q)) (qwatch be (lq_os q)) (m_os m) /\
    (activated (lq_os q) = true -> piper (lq_os q) <> -1) /\
    (is_Some (ending qt) -> lq_terminated q = true)
  | None => alive qt = false /\ m_lock m = false /\ m_id m = false /\ m_names m = 0 /\ owned base wbase [] ∅ (m_os m)
  end.

(** ** References *)

Definition holds (p : wpc) : bool := match p with WGot _ _ | WTerm _ | WPut _ | WPutWait => true | _ => false end.
Definition uinv (m : qmem) (qt : qpc) (th : list wpc) : Prop :=
  match m_q m with Some q => lq_usage q = 1 + cnt holds th | None => cnt holds th = 0 end /\
  match qt with QtFini _ | QtFree _ => cnt holds th = 0 | _ => True end.

(** ** The threads that wait *)

Definition framed (p : wpc) : bool :=
  match p with WTerm _ | WPutWait | WLock | WTest | WBlocked | WWoken | WUnlock | WDestroy => true | _ => false end.
Definition w_holds (p : wpc) : bool := match p with WTest | WUnlock => true | _ => false end.
(** The thread of the queue holds the mutex of thread [t]. *)
Definition tells (qt : qpc) (t : nat) : bool :=
  match qt with QtTell2 _ i _ | QtTell3 _ i _ => bool_decide (i = t) | _ => false end.
Definition wowner (p : wpc) (qt : qpc) (t : nat) : option actor :=
  if w_holds p then Some (Other t) else if tells qt t then Some QThread else None.

(** The entry of thread [t], when [L] are the threads to be told. *)
Definition entry (L : list nat) (qt : qpc) (t : nat) (f : option wait_frame) (p : option wpc) : Prop :=
  match f, p with
  | None, Some p => framed p = false /\ (t ∉ L) /\ tells qt t = false
  | None, None => (t ∉ L) /\ tells qt t = false
  | Some _, None => False
  | Some f, Some p =>
    framed p = true /\ wf_done f = bool_decide (t ∉ L) /\ wf_mutex f = wowner p qt t /\ w_holds p && tells qt t = false /\
    (p = WBlocked -> t ∈ L) /\ (p = WUnlock \/ p = WDestroy -> (t ∉ L) /\ tells qt t = false)
  end.

(** The entries linked from [w] are those of [L]. *)
Fixpoint chain (wf : gmap nat wait_frame) (w : option nat) (L : list nat) : Prop :=
  match L with
  | [] => w = None
  | t :: L => w = Some t /\ exists f, wf !! t = Some f /\ chain wf (wf_next f) L
  end.

(** Where the list of the threads to be told is. *)
Definition waiting (m : qmem) (wf : gmap nat wait_frame) (qt : qpc) (L : list nat) : Prop :=
  match qt with
  | QtNotify _ w => chain wf w L
  | QtTell _ i nx | QtTell2 _ i nx => exists L', L = i :: L' /\ chain wf nx L'
  | QtTell3 _ i nx => chain wf nx L /\ i ∉ L
  | _ => match m_q m with Some q => chain wf (destroy_wait_head q) L /\ destroy_wait_tail q = last L | None => L = [] end
  end.

Definition winv (m : qmem) (wf : gmap nat wait_frame) (qt : qpc) (th : list wpc) : Prop :=
  exists L, NoDup L /\ waiting m wf qt L /\ forall t, entry L qt t (wf !! t) (th !! t).

(** ** The main queue *)

Definition mainv (m : qmem) (cr : cpc) (is_main : bool) : Prop :=
  is_main = true -> cr = CrDone -> m_main m = match m_q m with Some _ => qid | None => -1 end.

Definition linv (s : lsys) : Prop :=
  cinv (l_cf s) (l_cr s) (l_qt s) /\ minv (l_m s) (l_qt s) /\ uinv (l_m s) (l_qt s) (l_th s) /\
  winv (l_m s) (l_wf s) (l_qt s) (l_th s) /\ mainv (l_m s) (l_cr s) (l_is_main s) /\
  l_finis s = (if finished (l_qt s) then 1 else 0)%nat.

(** The creator is about to read the identifier of a queue that has been freed. *)
Definition late_read (s : lsys) : Prop := l_cr s = CrRead /\ m_q (l_m s) = None.

(** What a step makes: nothing, a good state, or a fault where it is [late]. *)
Definition good_step (late : Prop) (r : option (res lsys)) : Prop :=
  match r with None => True | Some (Ret s') => linv s' | Some Fault => late | _ => False end.

(** ** Lists of entries *)

Lemma chain_agree wf wf' w L : chain wf w L -> (forall t, t ∈ L -> (wf_next <$> wf' !! t) = (wf_next <$> wf !! t)) -> chain wf' w L.
Proof.
  revert w. induction L as [|t L IH]; intros w Hc He; [done|]. destruct Hc as [-> (f & Hf & Hc)]. split; [done|].
  pose proof (He t ltac:(set_solver)) as Ht. rewrite Hf in Ht. destruct (wf' !! t) as [f'|] eqn:E'; [|done]. injection Ht as Ht.
  exists f'. split; [done|]. rewrite Ht. apply IH; [done|]. intros u Hu. apply He. set_solver.
Qed.

Lemma chain_same wf w L t f g : chain wf w L -> wf !! t = Some f -> wf_next g = wf_next f -> chain (<[t := g]> wf) w L.
Proof.
  intros Hc Hf Hg. eapply chain_agree; [exact Hc|]. intros u _. destruct (decide (u = t)) as [-> |Hu]; [rewrite lookup_insert_eq, Hf; cbn; by rewrite Hg|].
  by rewrite lookup_insert_ne.
Qed.

Lemma chain_other wf wf' w L t : chain wf w L -> t ∉ L -> (forall u, u <> t -> wf' !! u = wf !! u) -> chain wf' w L.
Proof. intros Hc Ht He. eapply chain_agree; [exact Hc|]. intros u Hu. rewrite He; [done|]. intros ->. done. Qed.

Lemma chain_snoc wf w L t u f : chain wf w L -> NoDup L -> last L = Some u -> wf !! u = Some f -> t ∉ L -> wf !! t = Some new_wait ->
  chain (<[u := set_next (Some t) f]> wf) w (L ++ [t]).
Proof.
  revert w. induction L as [|x L IH]; intros w Hc Hnd Hl Hu Ht Hw; [done|]. apply NoDup_cons in Hnd as [Hx Hnd]. destruct Hc as [-> (g & Hg & Hc)].
  cbn [app]. split; [done|]. destruct L as [|y L].
  - cbn in Hl. injection Hl as ->. rewrite lookup_insert_eq. eexists. split; [done|]. cbn. split; [done|]. exists new_wait.
    rewrite lookup_insert_ne by set_solver. done.
  - exists g. assert (u ∈ y :: L) by (by apply last_Some_elem_of). rewrite lookup_insert_ne by set_solver. split; [done|]. apply IH; try done. set_solver.
Qed.

(** Only the entry of thread [t] changes. *)
Lemma entries_update t L L' qt qt' (wf wf' : gmap nat wait_frame) (th th' : list wpc) :
  (forall u, entry L qt u (wf !! u) (th !! u)) ->
  (forall u, u <> t -> wf' !! u = wf !! u /\ th' !! u = th !! u /\ (u ∈ L' <-> u ∈ L) /\ tells qt' u = tells qt u) ->
  entry L' qt' t (wf' !! t) (th' !! t) ->
  forall u, entry L' qt' u (wf' !! u) (th' !! u).
Proof.
  intros H He Ht u. destruct (decide (u = t)) as [-> |Hu]; [done|]. destruct (He u Hu) as (-> & -> & HL & Hq). specialize (H u). unfold entry, wowner in *.
  rewrite Hq. destruct (wf !! u) as [f|], (th !! u) as [p|]; [|done|naive_solver..].
  rewrite (bool_decide_ext (u ∉ L') (u ∉ L) (not_iff_compat HL)). naive_solver.
Qed.

(** ** Making and taking apart *)

Lemma modm_wp f m Q : Q tt (f m) -> wp (modm f) m Q.
Proof. done. Qed.
Lemma the_q_wp m q Q : m_q m = Some q -> Q q m -> wp the_q m Q.
Proof. intros Hq HQ. unfold the_q, wp. run. by rewrite Hq. Qed.
Lemma mod_lq_wp f m q Q : m_q m = Some q -> Q tt (w_q (Some (f q)) m) -> wp (mod_lq f) m Q.
Proof. intros Hq HQ. unfold mod_lq. apply wp_bind. by eapply the_q_wp. Qed.

Lemma run_os_wp {A} (c : CM osst A) m q Q : m_q m = Some q ->
  wp c (MkOst (lq_os q) (m_os m)) (fun a s => Q a (w_os (o_w s) (w_q (Some (MkLq (lq_flags q) (lq_name q) (o_q s) (lq_terminated q) (lq_exiting q) (lq_usage q) (destroy_wait_head q) (destroy_wait_tail q))) m))) ->
  wp (run_os c) m Q.
Proof. intros Hq Hc. unfold run_os, the_q, modm, wp in *. run. rewrite Hq. destruct (c _) as [[a s]| | |]; done. Qed.

(** There is no queue, and nothing of it is left. *)
Definition nothing (base : gset Z) (m : qmem) : Prop :=
  m_q m = None /\ m_lock m = false /\ m_id m = false /\ m_names m = 0 /\ owned base wbase [] ∅ (m_os m).
(** The queue [q] is there with all that belongs to it. *)
Definition complete (m : qmem) (q : lq) : Prop :=
  m_q m = Some q /\ m_lock m = true /\ m_id m = true /\ m_names m = (if lq_name q then 1 else 0) /\
  owned base wbase (qfds be (lq_os q)) (qwatch be (lq_os q)) (m_os m) /\ (activated (lq_os q) = true -> piper (lq_os q) <> -1).

Lemma q_create_wp mem name id err flags m : nothing base m -> m_installed m = false ->
  wp (__q_create be sock mem name id err flags) m (fun r m' => m_main m' = m_main m /\
    match r with
    | Some _ => (exists b, leaks sock base b /\ nothing b m') /\ m_installed m' = false
    | None => exists q, complete m' q /\ m_installed m' = true /\ lq_terminated q = false /\ lq_usage q = 1 /\ destroy_wait_head q = None /\ destroy_wait_tail q = None
    end).
Proof.
  destruct m as [q0 n lk i ins os mn]. intros (H1 & H2 & H3 & H4 & Ho) Hi. cbn in *. subst. unfold __q_create. assert (Hbb : leaks sock base base) by (by left).
  destruct mem; [|cbn; split; [done|]; split; [|done]; by exists base]. cbn [negb].
  apply wp_bind, modm_wp. cbn [w_q]. apply wp_bind.
  set (q1 := MkLq flags name _ _ _ _ _ _). set (m1 := MkM (Some q1) (if name then 1 else 0) false false false os mn).
  assert (H : wp (when name then modm (fun m => w_names (m_names m + 1) m)) (MkM (Some q1) 0 false false false os mn) (fun _ m => m = m1)) by (by destruct name).
  wlast H. clear H. intros _ ? ->. apply wp_bind. eapply run_os_wp; [done|]. wlast os_mp_init_wp; [exact Ho|].
  intros r [o w] [(-> & Hw & Ha)|[-> Hw]]; cbn [o_q o_w] in *; cbn [Z.ltb Z.compare].
  2: { destruct Hw as (b & Hb & Hw). unfold __free_q_obj, the_q, modm. subst m1 q1. destruct name; cbn; (split; [done|]; split; [|done]; by exists b). }
  destruct id; cbn [negb].
  - cbn. split; [done|]. eexists. unfold complete. cbn. done.
  - apply wp_bind. eapply mod_lq_wp; [done|]. apply wp_bind, modm_wp, wp_bind. eapply mod_lq_wp; [done|]. apply wp_bind, modm_wp, wp_bind. eapply run_os_wp; [done|]. cbn -[wp]. wlast os_mp_fini_wp; [exact Hw|exact Ha|].
    intros _ s Hs. unfold __free_q_obj, the_q, modm. subst m1 q1. destruct name; cbn; (split; [done|]; split; [|done]; by exists base).
Qed.

Lemma q_destroy_wp m q : complete m q ->
  wp (__q_destroy be qid) m (fun _ m' => nothing base m' /\ m_installed m' = m_installed m /\ m_main m' = if m_main m =? qid then -1 else m_main m).
Proof.
  destruct m as [q0 n lk i ins os mn]. intros (H1 & H2 & H3 & H4 & Ho & Ha). cbn in *. subst. unfold __q_destroy. apply wp_bind. eapply the_q_wp; [done|]. apply wp_bind.
  eapply run_os_wp; [done|]. wlast os_mp_fini_wp; [exact Ho|exact Ha|]. intros _ s Hs. unfold nothing, __free_q_obj, the_q, modm, wp. run. cbn.
  destruct (mn =? qid); cbn; destruct (lq_name q); cbn; done.
Qed.
End Inv.
