(* ===== verification/MpqLifeStep.v ===== *)
(** * The steps of the life of a queue keep its invariants *)
From S2P Require Import Prelude OsMp MpqLife MpqLifeInv.
#[local] Open Scope aosl_scope.

Section Step.
Context (be : backend) (sock : bool) (qid : Z) (base wbase : gset Z).
#[local] Abbreviation linv := (linv be qid base wbase).
#[local] Abbreviation minv := (minv be base wbase).
#[local] Abbreviation good_step := (good_step be qid base wbase).

(** A step of the creator that touches only its own objects. *)
Lemma creator_only m cf cf' wf cr cr' qt th mn nf :
  linv (MkL m cf wf cr qt th mn nf) -> cinv cf' cr' qt -> cr <> CrDone -> cr' <> CrDone -> linv (MkL m cf' wf cr' qt th mn nf).
Proof.
  intros (Hc & Hm & Hu & Hw & Hmn & Hf) Hc' H1 H2. cbn in *. split; [done|]. split; [done|]. split; [done|]. split; [done|]. split; [|done]. intros _ ?. done.
Qed.

(** The creator has its objects and goes on with [cr']. *)
Ltac mid := split; [done|]; eexists; split; [reflexivity|]; unfold cowner; cbn;
  repeat match goal with H : replies _ = _ |- _ => rewrite H | H : told _ = _ |- _ => rewrite H in * end; cbn; split_and!; try done; try (by intros []); auto.

Lemma told_result qt : result_ok qt -> told qt <> Some CreateInit.
Proof. destruct qt as [| | | | | | | |[]|[]|[]|[]|[]|[]|[]|[]| ]; cbn; congruence. Qed.

Lemma told_null qt : told qt = Some CreateNull -> replies qt = false -> qt = QtExit CreateNull.
Proof. destruct qt as [| | | | | | | |[]|[]|[]|[]|[]|[]|[]|[]| ]; cbn; try done; by intros [= ->]. Qed.

Lemma creator_good s : linv s -> good_step (late_read s) (creator_step qid s).
Proof.
  destruct s as [m cf wf cr qt th mn nf]. intros Hi. pose proof Hi as ((Hr & Hc) & Hm & Hu & Hw & Hmn & Hf). cbn in *. pose proof (told_result _ Hr) as Htr.
  destruct cr; try done; try (destruct Hc as (f & -> & Htk & Hres & Hmx & Hex & Hbl & Hdn); unfold cowner in Hmx; cbn in Hmx, Hex).
  - (* CrLock *) unfold lock_by. destruct (replies qt) eqn:Er; rewrite Hmx; [done|]. eapply creator_only; [exact Hi| |done..]. mid.
  - (* CrTest *) destruct (cf_result f) eqn:E.
    + unfold unlock_by. rewrite decide_True by done. eapply creator_only; [exact Hi| |done..]. destruct (told qt) as [r|] eqn:Et; cbn in Hres; [congruence|]. mid.
    + eapply creator_only; [exact Hi| |done..]. destruct (told qt) eqn:Et; [|done]. mid; by rewrite E.
    + eapply creator_only; [exact Hi| |done..]. destruct (told qt) eqn:Et; [|done]. mid; by rewrite E.
  - (* CrWoken *) unfold lock_by. destruct (replies qt) eqn:Er; rewrite Hmx; [done|]. eapply creator_only; [exact Hi| |done..]. mid.
  - (* CrUnlock *) unfold unlock_by. rewrite decide_True by done. destruct (Hdn (or_introl eq_refl)) as [Htn _]. eapply creator_only; [exact Hi| |done..]. mid.
  - (* CrDestroy *) destruct (Hdn (or_intror eq_refl)) as [Htn Hrp]. rewrite Hrp in Hmx. rewrite Hmx. unfold destroy_mutex.
    destruct (told qt) as [r|] eqn:Et; [|done]. cbn in Hres. rewrite Hres. destruct r; [done| |].
    + rewrite (told_null _ Et Hrp) in *. eapply creator_only; [exact Hi| |done..]. split; [done|]. cbn. auto.
    + eapply creator_only; [exact Hi| |done..]. split; [done|]. cbn. auto.
  - (* CrRead *) destruct Hc as (-> & Ht & Hrp). unfold on, the_q, modm. run. destruct (m_q m) as [q|] eqn:Eq; [|by split]. cbn.
    assert (linv (MkL (if mn then w_main qid m else m) None wf CrDone qt th mn nf)); [|by destruct mn].
    destruct Hw as (L & H1 & H2 & H3). split; [split; [done|]; cbn; auto|]. split; [by destruct mn|]. split; [by destruct mn|].
    split; [exists L; split; [done|]; split; [by destruct mn|done]|]. split; [|done]. intros Hx _. cbn in *. rewrite Hx. cbn. by rewrite Eq.
Qed.

(** ** The thread of the queue *)

Lemma cinv_early cf cr qt qt' : cinv cf cr qt -> told qt = None -> qt <> QtNone -> replies qt = false ->
  told qt' = None -> qt' <> QtNone -> replies qt' = false -> result_ok qt' -> cinv cf cr qt'.
Proof.
  intros [Hr Hc] Ht Hn Hp Ht' Hn' Hp' Hr'. split; [done|]. unfold cowner in *. rewrite Ht' in *. rewrite Hp'. rewrite Ht, Hp in Hc.
  destruct cr; cbn in *; naive_solver.
Qed.

(** Once the creator was told that there is a queue, it does not matter what becomes of it. *)
Lemma cinv_told cf cr qt qt' : cinv cf cr qt -> told qt = Some CreateQ -> replies qt = false -> qt <> QtNone ->
  told qt' = Some CreateQ -> replies qt' = false -> qt' <> QtNone -> result_ok qt' -> cinv cf cr qt'.
Proof.
  intros [Hr Hc] Ht Hp Hn Ht' Hp' Hn' Hr'. split; [done|]. unfold cowner in *. rewrite Ht', Hp'. rewrite Ht, Hp in Hc.
  destruct cr; try (by destruct Hc); try (destruct Hc as [-> [-> | ->]]; done); try (destruct Hc as (f & -> & _ & Hrest); by exists f).
Qed.

Lemma cinv_end cf cr qt qt' k : cinv cf cr qt -> ending qt = Some k -> ending qt' = Some k -> cinv cf cr qt'.
Proof.
  intros Hc He He'. destruct k as [e|].
  - eapply cinv_early; [exact Hc|..]; by destruct qt, qt'; try done; injection He as ->; injection He' as ->.
  - assert (told qt = Some CreateQ /\ replies qt = false /\ qt <> QtNone) as (Ht & Hp & Hn) by (destruct qt; try done; injection He as ->; done).
    assert (told qt' = Some CreateQ /\ replies qt' = false /\ qt' <> QtNone /\ result_ok qt') as (Ht' & Hp' & Hn' & Hr') by (destruct qt'; try done; injection He' as ->; done).
    by eapply cinv_told.
Qed.

(** The creator has not seen a result yet. *)
Definition listens (cr : cpc) : bool := match cr with CrLock | CrTest | CrBlocked | CrWoken => true | _ => false end.

Lemma cinv_listen f cr qt : listens cr = true -> result_ok qt -> qt <> QtNone -> cf_result f = default CreateInit (told qt) -> cf_mutex f = cowner cr qt ->
  cr_holds cr && replies qt = false -> (cr = CrBlocked -> told qt = None) -> cinv (Some f) cr qt.
Proof. intros Hl Hr Ht H1 H2 H3 H4. split; [done|]. destruct cr; try done; exists f; split_and!; try done; by intros []. Qed.

(** While the thread of the queue waits to speak to the creator, the creator listens. *)
Lemma listening cf cr qt : cinv cf cr qt -> told qt = None \/ replies qt = true -> qt <> QtNone ->
  exists f, cf = Some f /\ listens cr = true /\ cf_result f = default CreateInit (told qt) /\ cf_mutex f = cowner cr qt /\ cr_holds cr && replies qt = false /\
    (cr = CrBlocked -> told qt = None).
Proof.
  intros [Hr Hc] Ht Hn.
  destruct cr; try (exfalso; destruct Hc as [-> Hc]; decompose [and or] Hc; subst; decompose [or] Ht; (done || congruence));
    destruct Hc as (f & -> & _ & Hs & Hm & Hx & Hb & Hd);
    try (exfalso; destruct Hd as [Hd1 Hd2]; [by auto|]; destruct Ht; congruence); exists f; split_and!; done.
Qed.

(** The list of those who wait is still in the queue. *)
Definition plain (qt : qpc) : bool :=
  match qt with QtNotify _ _ | QtTell _ _ _ | QtTell2 _ _ _ | QtTell3 _ _ _ => false | _ => true end.
Definition wait_of (m : qmem) : option (option nat * option nat) := (fun q => (destroy_wait_head q, destroy_wait_tail q)) <$> m_q m.

Lemma waiting_plain m m' wf qt qt' L : waiting m wf qt L -> plain qt = true -> plain qt' = true -> wait_of m' = wait_of m -> waiting m' wf qt' L.
Proof.
  intros Hw Hp Hp' Hm. unfold wait_of in Hm. destruct qt; try done; destruct qt'; try done; cbn in *; destruct (m_q m), (m_q m'); try done; by injection Hm as -> ->.
Qed.

Lemma winv_plain m m' wf qt qt' th : winv m wf qt th -> plain qt = true -> plain qt' = true -> wait_of m' = wait_of m -> winv m' wf qt' th.
Proof.
  intros (L & Hnd & Hw & He) Hp Hp' Hm. exists L. split; [done|]. split; [by eapply waiting_plain|]. intros t. specialize (He t).
  assert (tells qt' t = tells qt t) as Ht by (by destruct qt, qt'). unfold entry, wowner in *. by rewrite Ht.
Qed.

(** The parts of [minv] that do not depend on where the thread of the queue is. *)
Lemma minv_qt m qt qt' : minv m qt -> inst qt' = inst qt -> alive qt' = alive qt -> ending qt' = ending qt -> minv m qt'.
Proof. intros [Hi Hm] E1 E2 E3. unfold MpqLifeInv.minv. by rewrite E1, E2, E3. Qed.
Lemma uinv_qt m qt qt' th : uinv m qt th -> match qt' with QtFini _ | QtFree _ => False | _ => True end -> uinv m qt' th.
Proof. intros [Hu _] Hq. split; [done|]. by destruct qt'. Qed.

(** A step that only moves the thread of the queue, with the list still in the queue. *)
Lemma queue_moves m cf wf cr qt qt' th mn nf nf' :
  linv (MkL m cf wf cr qt th mn nf) -> cinv cf cr qt' -> inst qt' = inst qt -> alive qt' = alive qt -> ending qt' = ending qt ->
  match qt' with QtFini _ | QtFree _ => cnt holds th = 0 | _ => True end -> plain qt = true -> plain qt' = true ->
  nf' = (if finished qt' then 1 else 0)%nat -> linv (MkL m cf wf cr qt' th mn nf').
Proof.
  intros (Hc & Hm & Hu & Hw & Hmn & Hf) Hc' H1 H2 H3 H4 H5 H6 H7. cbn in *. split; [done|]. split; [by eapply minv_qt|]. split; [by destruct Hu|].
  split; [by eapply winv_plain|]. split; done.
Qed.

Lemma reply_good m cf wf cr qt th mn nf : match qt with QtReply _ _ | QtReply2 _ _ | QtReply3 _ => True | _ => False end ->
  linv (MkL m cf wf cr qt th mn nf) -> good_step False (queue_step be qid (MkL m cf wf cr qt th mn nf)).
Proof.
  intros Hq Hi. pose proof Hi as (Hc & Hm & Hu & Hw & Hmn & Hf). cbn in Hc, Hm, Hu, Hw, Hmn, Hf. pose proof Hc as [Hr _].
  destruct qt as [| | | |r e|r e|r| | | | | | | | | | ]; try done; clear Hq; cbn in Hf, Hr;
    (destruct (listening _ _ _ Hc ltac:(auto) ltac:(done)) as (f & -> & Hl & Hs & Hmx & Hh & Hb); unfold cowner in Hmx; cbn in Hmx, Hs, Hh).
  - cbn. unfold lock_by. destruct (cr_holds cr) eqn:Eh; rewrite Hmx; [done|].
    split; [apply cinv_listen; unfold cowner; cbn; rewrite ?Eh; auto; done|]. split; [by eapply minv_qt; [exact Hm|destruct r..]|].
    split; [by eapply uinv_qt|]. split; [by eapply winv_plain|]. split; [done|]. cbn. rewrite Hf. by destruct r.
  - rewrite andb_true_r in Hh. rewrite Hh in Hmx. cbn.
    assert (cr_holds (cr_signal cr) = false /\ listens (cr_signal cr) = true /\ cr_signal cr <> CrBlocked) as (H1 & H2 & H3) by (by destruct cr).
    split; [apply cinv_listen; unfold cowner; cbn; rewrite ?H1; done|].
    split; [by eapply minv_qt; [exact Hm|destruct r..]|]. split; [by eapply uinv_qt|]. split; [by eapply winv_plain|].
    split; [intros ? E; cbn in E; by destruct cr|]. cbn. rewrite Hf. by destruct r.
  - rewrite andb_true_r in Hh. rewrite Hh in Hmx. cbn. unfold unlock_by. rewrite decide_True by done.
    split; [apply cinv_listen; unfold cowner; cbn; rewrite ?Hh; by destruct r|].
    split; [by eapply minv_qt; [exact Hm|destruct r..]|]. split; [eapply uinv_qt; [exact Hu|by destruct r]|]. split; [eapply winv_plain; [exact Hw|done|by destruct r|done]|]. split; [done|]. cbn. rewrite Hf. by destruct r.
Qed.

(** The queue is there in these phases, with all it owns. *)
Lemma minv_alive m qt : minv m qt -> alive qt = true ->
  exists q, complete be base wbase m q /\ (is_Some (ending qt) -> lq_terminated q = true).
Proof. intros [Hi Hm] Ha. destruct (m_q m) as [q|] eqn:E; [|destruct Hm; congruence]. exists q. unfold complete. naive_solver. Qed.
Lemma minv_dead m qt : minv m qt -> alive qt = false -> nothing wbase base m.
Proof. intros [Hi Hm] Ha. unfold nothing. destruct (m_q m) as [q|] eqn:E; [destruct Hm; congruence|]. naive_solver. Qed.

(** A change of the queue that keeps what it owns. *)
Lemma minv_mod m qt qt' q f : minv m qt -> m_q m = Some q -> inst qt' = inst qt -> alive qt' = true ->
  lq_os (f q) = lq_os q -> lq_name (f q) = lq_name q -> (is_Some (ending qt') -> lq_terminated (f q) = true) ->
  minv (w_q (Some (f q)) m) qt'.
Proof. intros [Hi Hm] Hq E1 E2 E3 E4 Ht2. split; cbn; [by rewrite E1|]. rewrite Hq in Hm. rewrite E2, E3, E4. naive_solver. Qed.

Lemma loop_good m cf wf cr qt th mn nf : match qt with QtNoQ _ | QtLoop | QtUninstall _ | QtDrain _ | QtFini _ => True | _ => False end ->
  linv (MkL m cf wf cr qt th mn nf) -> good_step False (queue_step be qid (MkL m cf wf cr qt th mn nf)).
Proof.
  intros Hq Hi. pose proof Hi as (Hc & Hm & Hu & Hw & Hmn & Hf). cbn in Hc, Hm, Hu, Hw, Hmn, Hf.
  destruct qt as [| | |e| | | | |k|k|k| | | | | | ]; try done; clear Hq; cbn in Hf; subst nf.
  - (* QtNoQ *) eapply queue_moves; [exact Hi|..]; try done. by eapply cinv_early.
  - (* QtLoop *) destruct (minv_alive _ _ Hm eq_refl) as (q & (Hq & _) & Ht2). cbn. rewrite Hq. destruct (lq_terminated q) eqn:Et; [|done].
    unfold on, mod_lq, the_q, modm. run. rewrite Hq. cbn.
    split; [by eapply cinv_told|]. split; [eapply (minv_mod _ _ _ _ (w_exiting true)); [exact Hm|exact Hq|done..]|].
    split; [unfold uinv in *; cbn in *; by rewrite Hq in Hu|]. split; [eapply winv_plain; [exact Hw|done..|]; unfold wait_of; cbn; by rewrite Hq|].
    split; [|done]. intros H1 H2. specialize (Hmn H1 H2). rewrite Hq in Hmn. done.
  - (* QtUninstall *) destruct (minv_alive _ _ Hm eq_refl) as (q & (Hq & _) & Ht2). unfold queue_step, __q_wait_destroy, on, q_uninstall, the_q, modm. run. rewrite Hq. cbn.
    split; [by eapply cinv_end|]. split; [destruct Hm as [_ Hm]; split; [done|]; cbn; by rewrite Hq in *|]. split; [by destruct Hu|].
    split; [by eapply winv_plain|]. done.
  - (* QtDrain *) destruct (minv_alive _ _ Hm eq_refl) as (q & (Hq & _) & Ht2). cbn. rewrite Hq. destruct (Z.ltb_spec 1 (lq_usage q)) as [|Hus]; [done|].
    eapply queue_moves; [exact Hi|..]; try done; [by eapply cinv_end|]. destruct Hu as [Hu _]. rewrite Hq in Hu. pose proof (cnt_nonneg holds th). lia.
  - (* QtFini *) eapply queue_moves; [exact Hi|..]; try done; [by eapply cinv_end|]. by destruct Hu.
Qed.

Lemma free_good m cf wf cr k th mn nf :
  linv (MkL m cf wf cr (QtFree k) th mn nf) -> good_step False (queue_step be qid (MkL m cf wf cr (QtFree k) th mn nf)).
Proof.
  intros Hi. pose proof Hi as (Hc & Hm & Hu & Hw & Hmn & Hf). cbn in Hc, Hm, Hu, Hw, Hmn, Hf. destruct (minv_alive _ _ Hm eq_refl) as (q & Hcp & Ht2).
  pose proof Hcp as [Hq _]. destruct (wp_elim _ _ _ (q_destroy_wp be qid base wbase m q Hcp)) as ([] & m' & Hd & Hn & Hin & Hmain).
  unfold queue_step, __q_wait_destroy, on, the_q. run. rewrite Hq. run. rewrite Hd. pose proof Hn as (Hnq & Hrest). split; [by eapply cinv_end|]. split; [split; cbn; [by rewrite Hin; destruct Hm|by rewrite Hnq]|].
  split; [split; [cbn; rewrite Hnq; by destruct Hu|done]|]. split.
  { destruct Hw as (L & Hnd & HL & He). exists L. split; [done|]. cbn in HL. rewrite Hq in HL. split; [by destruct HL|done]. }
  split; [|done]. intros H1 H2. cbn in *. rewrite Hnq, Hmain, (Hmn H1 H2), Hq. by rewrite Z.eqb_refl.
Qed.

(** ** Telling those who wait *)

(** A step of the thread of the queue after the queue is gone. *)
Lemma tell_moves m cf wf wf' cr qt qt' th th' mn nf :
  linv (MkL m cf wf cr qt th mn nf) -> plain qt = false -> plain qt' = false -> ending qt' = ending qt ->
  cnt holds th' = cnt holds th -> winv m wf' qt' th' -> linv (MkL m cf wf' cr qt' th' mn nf).
Proof.
  intros (Hc & Hm & Hu & Hw & Hmn & Hf) Hp Hp' He Hh Hw'. cbn in *.
  assert (exists k, ending qt = Some k) as [k Hk] by (destruct qt; try done; cbn; eauto).
  split; [cbn; eapply cinv_end; [exact Hc|exact Hk|by rewrite He]|]. split; [eapply minv_qt; [exact Hm|by destruct qt, qt'..|done]|].
  split; [unfold uinv in *; cbn; rewrite Hh; destruct Hu as [Hu _]; split; [done|]; by destruct qt'|]. split; [done|]. split; [done|]. cbn. rewrite Hf. by destruct qt, qt'.
Qed.

Lemma notify_good m cf wf cr k w th mn nf :
  linv (MkL m cf wf cr (QtNotify k w) th mn nf) -> good_step False (queue_step be qid (MkL m cf wf cr (QtNotify k w) th mn nf)).
Proof.
  intros Hi. pose proof Hi as (Hc & Hm & Hu & Hw & Hmn & Hf). cbn in Hc, Hm, Hu, Hw, Hmn, Hf. destruct Hw as (L & Hnd & HL & He). cbn in HL. destruct w as [i|]; cbn.
  - destruct L as [|j L]; [done|]. destruct HL as [[= <-] (f & Hfi & Hch)]. rewrite Hfi. eapply tell_moves; [exact Hi|done..|]. exists (i :: L). split; [done|]. split; [by exists L|]. exact He.
  - assert (L = []) as -> by (destruct L; [done|by destruct HL]). destruct (minv_dead _ _ Hm eq_refl) as (Hq & _).
    assert (forall qt, plain qt = true -> winv m wf qt th) as Hw'. { intros qt Hp. exists []. split; [done|]. split; [destruct qt; try done; cbn; by rewrite Hq|]. intros t. specialize (He t). unfold entry, wowner in *. by destruct qt. }
    assert (uinv m (QtExit CreateQ) th) as Hu' by (by eapply uinv_qt).
    destruct k as [e|].
    + split; [eapply cinv_early; [exact Hc|done..]|]. split; [destruct Hm as [? Hm]; split; [done|]; cbn; by rewrite Hq in *|]. split; [done|]. split; [by apply Hw'|]. done.
    + split; [by eapply cinv_told|]. split; [destruct Hm as [? Hm]; split; [done|]; cbn; by rewrite Hq in *|]. split; [done|]. split; [by apply Hw'|]. done.
Qed.

Lemma tell_good m cf wf cr k i nx th mn nf :
  linv (MkL m cf wf cr (QtTell k i nx) th mn nf) -> good_step False (queue_step be qid (MkL m cf wf cr (QtTell k i nx) th mn nf)).
Proof.
  intros Hi. pose proof Hi as (_ & _ & _ & (L & Hnd & (L' & -> & Hch) & He) & _ & _). cbn in Hnd, Hch, He. cbn.
  pose proof (He i) as Hei. unfold entry in Hei. destruct (wf !! i) as [f|] eqn:Ef; [|destruct (th !! i); set_solver]. destruct (th !! i) as [p|] eqn:Ep; [|done].
  destruct Hei as (H1 & H2 & H3 & H4 & H5 & H6). unfold wowner in H3. cbn in H3. unfold lock_by. destruct (w_holds p) eqn:Eh; rewrite H3; [done|].
  eapply tell_moves; [exact Hi|done..|]. exists (i :: L'). split; [done|]. split; [exists L'; split; [done|]; by eapply chain_same|].
  eapply (entries_update i); [exact He| |].
  - intros u Hu. rewrite lookup_insert_ne by done. split_and!; try done. cbn. by rewrite bool_decide_eq_false_2.
  - rewrite lookup_insert_eq, Ep. unfold entry, wowner, tells. rewrite (bool_decide_eq_true_2 (i = i)), Eh by done. cbn. split_and!; try done. intros [-> | ->]; [done|]. destruct (H6 (or_intror eq_refl)). set_solver.
Qed.

Lemma tell2_good m cf wf cr k i nx th mn nf :
  linv (MkL m cf wf cr (QtTell2 k i nx) th mn nf) -> good_step False (queue_step be qid (MkL m cf wf cr (QtTell2 k i nx) th mn nf)).
Proof.
  intros Hi. pose proof Hi as (_ & _ & _ & (L & Hnd & (L' & -> & Hch) & He) & _ & _). cbn in Hnd, Hch, He. cbn. apply NoDup_cons in Hnd as [HiL Hnd].
  pose proof (He i) as Hei. unfold entry in Hei. destruct (wf !! i) as [f|] eqn:Ef; [|destruct (th !! i); set_solver]. destruct (th !! i) as [p|] eqn:Ep; [|done].
  destruct Hei as (H1 & H2 & H3 & H4 & H5 & H6). unfold wowner, tells in *. rewrite (bool_decide_eq_true_2 (i = i)) in H3, H4, H6 by done. rewrite andb_true_r in H4. rewrite H4 in H3.
  assert (alter w_signal i th = <[i := w_signal p]> th) as Eal.
  { apply list_eq. intros u. destruct (decide (u = i)) as [-> |Hu]; [rewrite list_lookup_alter_eq, Ep, list_lookup_insert_eq; [done|by apply lookup_lt_Some in Ep]|].
    by rewrite list_lookup_alter_ne, list_lookup_insert_ne. }
  rewrite Eal. eapply tell_moves; [exact Hi|done..| |].
  { rewrite (cnt_insert _ _ _ p) by done. destruct p; cbn; lia. }
  exists L'. split; [done|]. split; [split; [by eapply chain_same|done]|].
  eapply (entries_update i); [exact He| |].
  - intros u Hu. rewrite lookup_insert_ne, list_lookup_insert_ne by done. split_and!; try done. set_solver.
  - rewrite lookup_insert_eq, list_lookup_insert_eq by (by apply lookup_lt_Some in Ep). unfold entry, wowner, tells. rewrite (bool_decide_eq_true_2 (i = i)), (bool_decide_eq_true_2 (i ∉ L')) by done.
    destruct p; cbn in *; try done; split_and!; try done; try (by intros []); try (destruct H6; auto; done).
Qed.

Lemma tell3_good m cf wf cr k i nx th mn nf :
  linv (MkL m cf wf cr (QtTell3 k i nx) th mn nf) -> good_step False (queue_step be qid (MkL m cf wf cr (QtTell3 k i nx) th mn nf)).
Proof.
  intros Hi. pose proof Hi as (_ & _ & _ & (L & Hnd & (Hch & HiL) & He) & _ & _). cbn in Hnd, Hch, HiL, He. cbn.
  pose proof (He i) as Hei. unfold entry in Hei. destruct (wf !! i) as [f|] eqn:Ef; [|exfalso; cbn in Hei; rewrite bool_decide_eq_true_2 in Hei by done; destruct (th !! i); naive_solver]. destruct (th !! i) as [p|] eqn:Ep; [|done].
  destruct Hei as (H1 & H2 & H3 & H4 & H5 & H6). unfold wowner, tells in *. rewrite (bool_decide_eq_true_2 (i = i)) in H3, H4, H6 by done. rewrite andb_true_r in H4. rewrite H4 in H3.
  unfold unlock_by. rewrite decide_True by done. eapply tell_moves; [exact Hi|done..|]. exists L. split; [done|]. split; [by eapply chain_same|].
  eapply (entries_update i); [exact He| |].
  - intros u Hu. rewrite lookup_insert_ne by done. split_and!; try done. cbn. by rewrite bool_decide_eq_false_2.
  - rewrite lookup_insert_eq, Ep. cbn. unfold wowner. cbn. rewrite H4. split_and!; try done.
Qed.

Lemma queue_good s : linv s -> good_step False (queue_step be qid s).
Proof.
  destruct s as [m cf wf cr qt th mn nf]. intros Hi. destruct qt; try done;
    [by apply loop_good|by apply reply_good..|by apply loop_good|by apply loop_good|by apply loop_good|by apply loop_good|by apply free_good|by apply notify_good|by apply tell_good|by apply tell2_good|by apply tell3_good].
Qed.

(** ** The other threads *)

Lemma holder_alive m qt th t p : uinv m qt th -> th !! t = Some p -> holds p = true ->
  exists q, m_q m = Some q /\ match qt with QtFini _ | QtFree _ => False | _ => True end.
Proof.
  intros [Hu Hq] Hp Hh. pose proof (cnt_pos holds th t p Hp Hh). destruct (m_q m) as [q|]; [|lia]. exists q. split; [done|]. destruct qt; try done; lia.
Qed.

Lemma waiting_same m wf qt L t f g : waiting m wf qt L -> wf !! t = Some f -> wf_next g = wf_next f -> waiting m (<[t := g]> wf) qt L.
Proof.
  intros Hw Hf Hg. destruct qt; cbn in *; try (destruct (m_q m); [destruct Hw; split; [by eapply chain_same|done]|done]).
  - by eapply chain_same.
  - destruct Hw as (L' & -> & Hw). exists L'. split; [done|]. by eapply chain_same.
  - destruct Hw as (L' & -> & Hw). exists L'. split; [done|]. by eapply chain_same.
  - destruct Hw. split; [by eapply chain_same|done].
Qed.

Lemma waiting_delete m wf qt L t : waiting m wf qt L -> t ∉ L -> waiting m (delete t wf) qt L.
Proof.
  intros Hw Ht. assert (forall w L, chain wf w L -> t ∉ L -> chain (delete t wf) w L) as Hdel by (intros; eapply chain_other; [done..|]; intros; by apply lookup_delete_ne).
  destruct qt; cbn in *; try (destruct (m_q m); [destruct Hw; split; [by apply Hdel|done]|done]).
  - by apply Hdel.
  - destruct Hw as (L' & -> & Hw). exists L'. split; [done|]. apply Hdel; set_solver.
  - destruct Hw as (L' & -> & Hw). exists L'. split; [done|]. apply Hdel; set_solver.
  - destruct Hw. split; [by apply Hdel|done].
Qed.

(** A thread with an entry changes it and goes on. *)
Lemma frame_moves m cf wf cr qt th mn nf t p p' f f' :
  linv (MkL m cf wf cr qt th mn nf) -> th !! t = Some p -> wf !! t = Some f -> holds p' = holds p -> wf_next f' = wf_next f ->
  (forall L, entry L qt t (Some f) (Some p) -> entry L qt t (Some f') (Some p')) ->
  linv (MkL m cf (<[t := f']> wf) cr qt (<[t := p']> th) mn nf).
Proof.
  intros (Hc & Hm & Hu & (L & Hnd & HL & He) & Hmn & Hf) Hp Hfr Hh Hn Hent. cbn in *. pose proof (lookup_lt_Some _ _ _ Hp) as Hlt.
  split; [done|]. split; [done|]. split.
  { unfold uinv in *. cbn. rewrite (cnt_insert _ _ _ p) by done. rewrite Hh. by replace (cnt holds th - _ + _) with (cnt holds th) by lia. }
  split; [|done]. cbn. exists L. split; [done|]. split; [by eapply waiting_same|]. eapply (entries_update t); [exact He| |].
  - intros u Hu'. rewrite lookup_insert_ne, list_lookup_insert_ne by done. done.
  - rewrite lookup_insert_eq, list_lookup_insert_eq by done. apply Hent. specialize (He t). by rewrite Hp, Hfr in He.
Qed.

(** The same when the entry stays as it is. *)
Lemma thread_moves m cf wf cr qt th mn nf t p p' f :
  linv (MkL m cf wf cr qt th mn nf) -> th !! t = Some p -> wf !! t = Some f -> holds p' = holds p ->
  (forall L, entry L qt t (Some f) (Some p) -> entry L qt t (Some f) (Some p')) ->
  linv (MkL m cf wf cr qt (<[t := p']> th) mn nf).
Proof. intros Hi Hp Hf Hh He. rewrite <-(insert_id wf t f) by done. by eapply frame_moves. Qed.

Lemma waiter_good t s : linv s -> match l_th s !! t with Some WLock | Some WWoken | Some WTest | Some WUnlock | Some WDestroy => True | _ => False end ->
  good_step False (other_step t s).
Proof.
  destruct s as [m cf wf cr qt th mn nf]. intros Hi. pose proof Hi as (Hc & Hm & Hu & (L & Hnd & HL & He) & Hmn & Hf). cbn in Hc, Hm, Hu, HL, He, Hmn, Hf. cbn.
  pose proof (He t) as Het. unfold entry in Het. destruct (th !! t) as [p|] eqn:Ep; [|done]. destruct p; try done; intros _;
    (destruct (wf !! t) as [f|] eqn:Ef; [|by destruct Het]); destruct Het as (_ & H2 & H3 & H4 & H5 & H6); unfold wowner in H3; cbn in H3, H4; unfold __mpq_destroy_wait.
  - (* WLock *) unfold lock_by. destruct (tells qt t) eqn:Et; rewrite H3; [done|]. eapply frame_moves; [exact Hi|exact Ep|exact Ef|done..|].
    intros L'. unfold entry, wowner. rewrite Et. cbn. intros (? & ? & ? & ? & ? & ?). split_and!; try done. by intros [].
  - (* WTest *) destruct (wf_done f) eqn:Ed.
    + eapply frame_moves; [exact Hi|exact Ep|exact Ef|done..|]. intros L'. unfold entry, wowner. rewrite Ed. cbn. intros (? & Hd & ? & ? & ? & ?). split_and!; try done.
      symmetry in Hd. apply bool_decide_eq_true_1 in Hd. done.
    + unfold unlock_by. rewrite decide_True by done. eapply frame_moves; [exact Hi|exact Ep|exact Ef|done..|]. intros L'. unfold entry, wowner. cbn. rewrite Ed. intros (? & Hd & ? & Ht & ? & ?). rewrite Ht.
      split_and!; try done; [|by intros []]. intros _. symmetry in Hd. apply bool_decide_eq_false_1 in Hd. by apply dec_stable.
  - (* WWoken *) unfold lock_by. destruct (tells qt t) eqn:Et; rewrite H3; [done|]. eapply frame_moves; [exact Hi|exact Ep|exact Ef|done..|].
    intros L'. unfold entry, wowner. rewrite Et. cbn. intros (? & ? & ? & ? & ? & ?). split_and!; try done. by intros [].
  - (* WUnlock *) unfold unlock_by. rewrite decide_True by done. eapply frame_moves; [exact Hi|exact Ep|exact Ef|done..|]. intros L'. unfold entry, wowner. cbn. intros (? & ? & ? & Ht & ? & Hd). rewrite Ht.
    split_and!; try done. intros _. by destruct Hd; [left|].
  - (* WDestroy *) destruct (H6 (or_intror eq_refl)) as [HtL Htt]. rewrite Htt in H3. rewrite H3. unfold destroy_mutex. change (partial_alter (fun _ => None) t wf) with (delete t wf). split; [done|]. split; [done|]. split.
    { unfold uinv in *. cbn. rewrite (cnt_insert _ _ _ WDestroy) by done. cbn. by replace (cnt holds th - 0 + 0) with (cnt holds th) by lia. }
    split; [|done]. exists L. split; [done|]. split; [by apply waiting_delete|].
    cbn. eapply (entries_update t); [exact He| |].
    + intros u Hu'. rewrite lookup_delete_ne, list_lookup_insert_ne by done. done.
    + rewrite lookup_delete_eq, list_lookup_insert_eq by (by apply lookup_lt_Some in Ep). done.
Qed.

(** A thread changes the queue, but not the list of those who wait. *)
Lemma holder_moves m cf wf cr qt th mn nf t p p' q q' :
  linv (MkL m cf wf cr qt th mn nf) -> th !! t = Some p -> m_q m = Some q -> match qt with QtFini _ | QtFree _ => False | _ => True end ->
  lq_os q' = lq_os q -> lq_name q' = lq_name q -> destroy_wait_head q' = destroy_wait_head q -> destroy_wait_tail q' = destroy_wait_tail q ->
  lq_usage q' = lq_usage q - (if holds p then 1 else 0) + (if holds p' then 1 else 0) ->
  (lq_terminated q = true -> lq_terminated q' = true) ->
  (forall L, entry L qt t (wf !! t) (Some p) -> entry L qt t (wf !! t) (Some p')) ->
  linv (MkL (w_q (Some q') m) cf wf cr qt (<[t := p']> th) mn nf).
Proof.
  intros (Hc & Hm & Hu & (L & Hnd & HL & He) & Hmn & Hf) Hp Hq Hqt E1 E2 E3 E4 Eu Et2 Hent. cbn in *. pose proof (lookup_lt_Some _ _ _ Hp) as Hlt.
  assert (Ha : alive qt = true) by (destruct Hm as [_ Hm]; rewrite Hq in Hm; by destruct Hm).
  split; [done|]. split.
  { cbn. eapply (minv_mod _ _ _ _ (fun _ => q')); [exact Hm|exact Hq|done..|]. intros Hx. apply Et2. destruct Hm as [_ Hm]. rewrite Hq in Hm. by apply Hm. }
  split. { unfold uinv in *. rewrite Hq in Hu. cbn. rewrite (cnt_insert _ _ _ p) by done. split; [lia|]. by destruct qt. }
  split; [|split; [|done]].
  - exists L. split; [done|]. cbn. split; [eapply waiting_plain; [exact HL|by destruct qt..|]; unfold wait_of; cbn; by rewrite Hq, E3, E4|].
    eapply (entries_update t); [exact He| |].
    + intros u Hu'. by rewrite list_lookup_insert_ne.
    + rewrite list_lookup_insert_eq by done. apply Hent. specialize (He t). by rewrite Hp in He.
  - intros H1 H2. specialize (Hmn H1 H2). cbn in *. by rewrite Hq in Hmn.
Qed.

Lemma w_q_same m q : m_q m = Some q -> w_q (Some q) m = m.
Proof. destruct m; cbn. by intros ->. Qed.

(** The entries of threads that have none, and of threads that have just put theirs into the list. *)
Lemma entry_unframed L qt t f p p' : framed p = false -> framed p' = false -> entry L qt t f (Some p) -> entry L qt t f (Some p').
Proof. intros H H'. destruct f as [f|]; cbn; [rewrite H; by intros []|by rewrite H'; intros []]. Qed.
Lemma entry_framed L qt t f p p' : framed p = true -> framed p' = true -> w_holds p = false -> w_holds p' = false ->
  p' <> WBlocked -> p' <> WDestroy -> entry L qt t f (Some p) -> entry L qt t f (Some p').
Proof.
  intros H H' Hh Hh' Hb Hd. destruct f as [f|]; cbn; [|rewrite H; by intros []]. unfold wowner. rewrite Hh, Hh', H'. intros (_ & ? & ? & _ & _ & _). split_and!; try done. intros [-> | ->]; done.
Qed.

(** Only whether its thread is in the list matters to an entry, and not what follows it. *)
Lemma entry_mem L L' qt t f p : (t ∈ L' <-> t ∈ L) -> entry L qt t f p -> entry L' qt t f p.
Proof.
  intros HL. unfold entry. destruct f as [f|], p as [p|]; [|done|naive_solver..]. rewrite (bool_decide_ext (t ∉ L') (t ∉ L) (not_iff_compat HL)). naive_solver.
Qed.
Lemma entry_next L qt t f p x : entry L qt t (Some f) p -> entry L qt t (Some (set_next x f)) p.
Proof. done. Qed.
(** A thread that has just put its entry at the end of the list. *)
Lemma entry_new L qt t x issue : t ∈ L -> tells qt t = false -> entry L qt t (Some (set_next x new_wait)) (Some (WTerm issue)).
Proof. intros Ht Hq. unfold entry, wowner. rewrite Hq. cbn. rewrite bool_decide_eq_false_2 by auto. split_and!; try done. by intros []. Qed.

(** [__mpq_add_wait] puts a new entry at the end of the list. *)
Lemma add_wait_good m cf wf cr qt th mn nf t issue c q : linv (MkL m cf wf cr qt th mn nf) -> th !! t = Some (WGot (Wait issue) c) -> m_q m = Some q ->
  match qt with QtFini _ | QtFree _ => False | _ => True end ->
  good_step False (on (__mpq_add_wait t wf) m (fun wf m => MkL m cf wf cr qt (<[t := WTerm issue]> th) mn nf)).
Proof.
  intros Hi Hp Hq Hqt. pose proof Hi as (Hc & Hm & Hu & (L & Hnd & HL & He) & Hmn & Hf). cbn in Hc, Hm, Hu, HL, He, Hmn, Hf. pose proof (lookup_lt_Some _ _ _ Hp) as Hlt.
  assert (Ha : alive qt = true) by (destruct Hm as [_ Hm]; rewrite Hq in Hm; by destruct Hm).
  assert (Hpl : plain qt = true) by (by destruct qt). assert (Hnt : forall u, tells qt u = false) by (by destruct qt).
  assert (chain wf (destroy_wait_head q) L /\ destroy_wait_tail q = last L) as [Hch Hla] by (destruct qt; try done; cbn in HL; by rewrite Hq in HL).
  pose proof (He t) as Het. rewrite Hp in Het. unfold entry in Het. destruct (wf !! t) as [?|] eqn:Ewt; [by destruct Het|]. destruct Het as (_ & HtL & _).
  assert (HinL : t ∈ L ++ [t]) by (apply elem_of_app; right; by left). assert (HsameL : forall v, v <> t -> v ∈ L ++ [t] <-> v ∈ L).
  { intros v Hv. rewrite elem_of_app, list_elem_of_singleton. naive_solver. }
  assert (Hfin : forall q' wf', lq_os q' = lq_os q -> lq_name q' = lq_name q -> lq_usage q' = lq_usage q -> lq_terminated q' = lq_terminated q ->
    chain wf' (destroy_wait_head q') (L ++ [t]) -> destroy_wait_tail q' = Some t -> (forall u, entry (L ++ [t]) qt u (wf' !! u) (<[t := WTerm issue]> th !! u)) ->
    linv (MkL (w_q (Some q') m) cf wf' cr qt (<[t := WTerm issue]> th) mn nf)).
  { intros q' wf' E1 E2 E3 E4 E5 E6 E7. split; [done|]. split; [cbn; eapply (minv_mod _ _ _ _ (fun _ => q')); [exact Hm|exact Hq|done..|]; rewrite E4; destruct Hm as [_ Hm]; rewrite Hq in Hm; by apply Hm|].
    split; [unfold uinv in *; rewrite Hq in Hu; cbn; rewrite (cnt_insert _ _ _ (WGot (Wait issue) c)) by done; cbn; split; [lia|by destruct qt]|].
    split; [|split; [intros H1 H2; specialize (Hmn H1 H2); cbn in *; by rewrite Hq in Hmn|done]].
    exists (L ++ [t]). split; [apply NoDup_app; split_and!; [done|set_solver|apply NoDup_singleton]|]. split; [|done]. destruct qt; try done; cbn; (split; [done|]); by rewrite last_snoc. }
  unfold on, __mpq_add_wait, mod_lq, the_q, modm. run. rewrite Hq. run. rewrite Hla. destruct (last L) as [u|] eqn:El.
  - assert (HuL : u ∈ L) by (by apply last_Some_elem_of). assert (u <> t) as Hut by (by intros ->). rewrite lookup_insert_ne by done.
    pose proof (He u) as Heu. unfold entry in Heu. destruct (wf !! u) as [f|] eqn:Ef; [|destruct (th !! u); naive_solver]. destruct (th !! u) as [pu|] eqn:Epu; [|done]. rewrite Hq. cbn.
    apply Hfin; try done; cbn.
    + apply chain_snoc; try done; [by eapply chain_other; [exact Hch|done|]; intros; apply lookup_insert_ne|by rewrite lookup_insert_ne|by rewrite lookup_insert_eq].
    + intros v. destruct (decide (v = t)) as [-> |Hv].
      { rewrite lookup_insert_ne, lookup_insert_eq, list_lookup_insert_eq by done. apply (entry_new _ _ _ None); [by apply HinL|done]. }
      rewrite list_lookup_insert_ne by done. apply (entry_mem L); [by apply HsameL|]. specialize (He v). destruct (decide (v = u)) as [-> |Hvu].
      * rewrite lookup_insert_eq. apply entry_next. by rewrite Ef in He.
      * by rewrite !lookup_insert_ne.
  - rewrite Hq. cbn. destruct L as [|x L]; [|by rewrite last_cons in El; destruct (last L)]. apply Hfin; try done; cbn.
    + split; [done|]. eexists. rewrite lookup_insert_eq. done.
    + intros v. destruct (decide (v = t)) as [-> |Hv].
      { rewrite lookup_insert_eq, list_lookup_insert_eq by done. apply (entry_new _ _ _ None); [by apply HinL|done]. }
      rewrite list_lookup_insert_ne, lookup_insert_ne by done. apply (entry_mem []); [by apply HsameL|]. apply He.
Qed.

Lemma other_good t s : linv s -> good_step False (other_step t s).
Proof.
  intros Hi. destruct (l_th s !! t) as [p|] eqn:Ep; [|destruct s; cbn in *; by rewrite Ep].
  destruct (holds p) eqn:Eh; [|destruct p; try done; try (apply waiter_good; [done|by rewrite Ep]); destruct s; cbn in *; by rewrite Ep].
  destruct s as [m cf wf cr qt th mn nf]. cbn [l_th] in *.
  destruct (holder_alive _ _ _ _ _ (proj1 (proj2 (proj2 Hi))) Ep Eh) as (q & Hq & Hqt). cbn in Hq, Hqt.
  destruct p as [|o c|issue|r| | | | | | | ]; try done; cbn [other_step]; rewrite Ep.
  - destruct o as [|issue].
    + unfold on, mpq_destroy, __mpq_destroy, mod_lq, the_q, modm. run. rewrite Hq. destruct (c && not_allowed q); cbn.
      * rewrite <-(w_q_same m q Hq). eapply holder_moves; [exact Hi|exact Ep|exact Hq|done..|cbn; lia|done|]. intros L. by apply entry_unframed.
      * rewrite Hq. cbn. eapply holder_moves; [exact Hi|exact Ep|exact Hq|done..|cbn; lia|done|]. intros L. by apply entry_unframed.
    + unfold on, mpq_do_wait. pose proof (add_wait_good _ _ _ _ _ _ _ _ _ _ _ _ Hi Ep Hq Hqt) as Hadd. unfold on in Hadd. unfold the_q at 1. run. rewrite Hq. destruct (issue && c && not_allowed q); [|by destruct (__mpq_add_wait t wf m) as [[]| | |]]. cbn.
      rewrite <-(w_q_same m q Hq). eapply holder_moves; [exact Hi|exact Ep|exact Hq|done..|cbn; lia|done|]. intros L. by apply entry_unframed.
  - unfold on, mpq_do_wait, __mpq_destroy, mod_lq, the_q, modm. destruct issue; run.
    + rewrite Hq. cbn. eapply holder_moves; [exact Hi|exact Ep|exact Hq|done..|cbn; lia|done|]. intros L. by apply entry_framed.
    + cbn. rewrite <-(w_q_same m q Hq). eapply holder_moves; [exact Hi|exact Ep|exact Hq|done..|cbn; lia|done|]. intros L. by apply entry_framed.
  - unfold on, __mpq_put, mod_lq, the_q, modm. run. rewrite Hq. cbn. eapply holder_moves; [exact Hi|exact Ep|exact Hq|done..|cbn; lia|done|]. intros L. by apply entry_unframed.
  - unfold on, mpq_do_wait, __mpq_put, mod_lq, the_q, modm. run. rewrite Hq. cbn. eapply holder_moves; [exact Hi|exact Ep|exact Hq|done..|cbn; lia|done|]. intros L. by apply entry_framed.
Qed.

Lemma inst_alive qt : inst qt = true -> alive qt = true /\ match qt with QtFini _ | QtFree _ => False | _ => True end.
Proof. by destruct qt as [| | | |[]|[]|[]| | | | | | | | | | ]. Qed.

(** A thread asks for something. *)
Lemma ask_good t o c s : linv s -> good_step False (lstep be sock qid (LAsk t o c) s).
Proof.
  destruct s as [m cf wf cr qt th mn nf]. intros Hi. cbn. destruct (th !! t) as [[r|o' c'|b|r'| | | | | | | ]|] eqn:Ep; try done.
  pose proof Hi as (Hc & Hm & Hu & Hw & Hmn & Hf). cbn in Hc, Hm, Hu, Hw, Hmn, Hf. unfold on, __mpq_get, mod_lq, the_q, modm. run. destruct (m_installed m) eqn:Ei; cbn.
  - destruct Hm as [Hin Hm]. rewrite Ei in Hin. destruct (inst_alive _ (eq_sym Hin)) as [Ha Hqt]. destruct (m_q m) as [q|] eqn:Hq; [|destruct Hm; congruence]. cbn.
    eapply holder_moves; [exact Hi|exact Ep|exact Hq|exact Hqt|done..|cbn; lia|done|]. intros L. by apply entry_unframed.
  - destruct Hw as (L & Hnd & HL & He). split; [done|]. split; [done|]. split.
    { unfold uinv in *. cbn. rewrite (cnt_insert _ _ _ (WIdle r)) by done. cbn. by replace (cnt holds th - 0 + 0) with (cnt holds th) by lia. }
    split; [|done]. exists L. split; [done|]. split; [done|]. cbn. eapply (entries_update t); [exact He| |].
    + intros u Hu'. by rewrite list_lookup_insert_ne.
    + rewrite list_lookup_insert_eq by (by apply lookup_lt_Some in Ep). eapply (entry_unframed _ _ _ _ (WIdle r)); [done|done|]. specialize (He t). by rewrite Ep in He.
Qed.

(** [create_call] and [k_thread_create]. *)
Lemma create_good is_main flags max s : linv s -> good_step False (lstep be sock qid (LCreate is_main flags max) s).
Proof.
  destruct s as [m cf wf cr qt th mn nf]. intros Hi. pose proof Hi as (Hc & Hm & Hu & Hw & Hmn & Hf). cbn in Hc, Hm, Hu, Hw, Hmn, Hf. cbn. destruct cr; try done. destruct Hc as [_ [-> ->]].
  assert (forall e, linv (MkL m None wf (CrFailed e) QtNone th is_main nf)) as Hfail.
  { intros e. split; [split; [done|]; cbn; auto|]. split; [done|]. split; [done|]. split; [done|]. split; [|done]. by intros ??. }
  assert (forall m' fl, m' = m \/ m' = w_main 0 m -> linv (MkL m' (Some (MkCf CreateInit 0 None)) wf (CrThread fl) QtNone th is_main nf)) as Hgo.
  { intros m' fl Hm'. assert (minv m' QtNone) by (by destruct Hm' as [-> | ->]). split; [done|]. split; [done|]. split; [by destruct Hm' as [-> | ->]|]. split; [by destruct Hm' as [-> | ->]|]. split; [|done]. by intros ??. }
  unfold create_call, aosl_main_start, __mpq_create_flags, __mpq_create. destruct is_main.
  - destruct (m_main m =? -1); [|apply Hfail]. cbn. apply Hgo. by right.
  - destruct (negb _); [apply Hfail|]. destruct (_ || _); [apply Hfail|]. apply Hgo. by left.
Qed.

Lemma thread_good err s : linv s -> good_step False (lstep be sock qid (LThread err) s).
Proof.
  destruct s as [m cf wf cr qt th mn nf]. intros Hi. pose proof Hi as (Hc & Hm & Hu & Hw & Hmn & Hf). cbn in Hc, Hm, Hu, Hw, Hmn, Hf. cbn. destruct cr; try done. destruct Hc as [_ [-> ->]].
  destruct (err =? 0).
  - split; [by apply cinv_listen|]. split; [by eapply minv_qt|]. split; [by eapply uinv_qt|]. split; [by eapply winv_plain|]. split; [|done]. by intros ??.
  - split; [split; [done|]; cbn; auto|]. split; [done|]. split; [done|]. split; [done|]. split; [|done]. by intros ??.
Qed.

(** The creation of the queue has failed, and its thread says so to the creator. *)
Definition failed (qt : qpc) : bool :=
  match qt with QtNoQ _ | QtReply CreateNull _ | QtReply2 CreateNull _ | QtReply3 CreateNull | QtExit CreateNull => true | _ => false end.

(** Making the queue; a creation that fails may leave a socket open. *)
Lemma make_good mem name id err s : linv s ->
  match lstep be sock qid (LMake mem name id err) s with
  | None => True
  | Some (Ret s') => exists b, leaks sock base b /\ MpqLifeInv.linv be qid b wbase s' /\ (failed (l_qt s') = false -> b = base)
  | _ => False
  end.
Proof.
  destruct s as [m cf wf cr qt th mn nf]. intros Hi. pose proof Hi as (Hc & Hm & Hu & Hw & Hmn & Hf). cbn in Hc, Hm, Hu, Hw, Hmn, Hf. cbn. destruct qt as [|flags| | | | | | | | | | | | | | | ]; try done.
  pose proof (minv_dead _ _ Hm eq_refl) as Hno. pose proof Hno as (Hq & _). destruct Hm as [Hin _]. cbn in Hin.
  destruct (wp_elim _ _ _ (q_create_wp be sock base wbase mem name id err flags m Hno Hin)) as (r & m' & Hr & Hmain & Hpost). unfold on. rewrite Hr.
  assert (Hu0 : cnt holds th = 0) by (destruct Hu as [Hu _]; by rewrite Hq in Hu). destruct Hw as (L & Hnd & HL & He). cbn in HL. rewrite Hq in HL. subst L.
  destruct (listening _ _ _ Hc ltac:(auto) ltac:(done)) as (f & -> & Hl & _). assert (cr <> CrDone) by (by destruct cr).
  destruct r as [e|]; cbn.
  - destruct Hpost as ((b & Hb & Hq' & Hn') & Hin'). exists b. split; [done|]. split; [|done]. split; [by eapply cinv_early|]. split; [split; cbn; [done|by rewrite Hq']|]. split; [split; [cbn; by rewrite Hq'|done]|].
    split; [exists []; split; [done|]; split; [cbn; by rewrite Hq'|done]|]. split; [|done]. intros ??. done.
  - destruct Hpost as (q & (Hq' & Hcp) & Hin' & Ht & Hus & Hh & Hta). exists base. split; [by left|]. split; [|done].
    split; [by eapply cinv_early|]. split; [split; cbn; [done|rewrite Hq'; cbn; rewrite Ht; naive_solver]|].
    split; [split; [cbn; rewrite Hq'; lia|done]|]. split; [exists []; split; [done|]; split; [cbn; by rewrite Hq', Hh, Hta|done]|]. split; [|done]. intros ??. done.
Qed.

Lemma init_good r err s : linv s -> good_step False (lstep be sock qid (LInit r err) s).
Proof.
  destruct s as [m cf wf cr qt th mn nf]. intros Hi. pose proof Hi as (Hc & Hm & Hu & Hw & Hmn & Hf). cbn in Hc, Hm, Hu, Hw, Hmn, Hf. cbn. destruct qt; try done.
  destruct (minv_alive _ _ Hm eq_refl) as (q & (Hq & _) & Ht2). destruct (r <? 0).
  - unfold on, mod_lq, the_q, modm. run. rewrite Hq. cbn. split; [by eapply cinv_early|].
    split; [eapply (minv_mod _ _ _ _ (fun q => w_exiting true (w_term true q))); [exact Hm|exact Hq|done..]|].
    split; [unfold uinv in *; cbn in *; by rewrite Hq in Hu|]. split; [eapply winv_plain; [exact Hw|done..|]; unfold wait_of; cbn; by rewrite Hq|].
    split; [|done]. intros H1 H2. specialize (Hmn H1 H2). cbn. by rewrite Hq in Hmn.
  - eapply queue_moves; [exact Hi|..]; try done. by eapply cinv_early.
Qed.

Lemma self_good s : linv s -> good_step False (lstep be sock qid LSelf s).
Proof.
  destruct s as [m cf wf cr qt th mn nf]. intros Hi. pose proof Hi as (Hc & Hm & Hu & Hw & Hmn & Hf). cbn in Hc, Hm, Hu, Hw, Hmn, Hf. cbn.
  assert (qt = QtInit \/ qt = QtLoop -> good_step False (on __mpq_destroy m (fun _ m => MkL m cf wf cr qt th mn nf))) as Hgo; [|destruct qt; auto; done].
  intros Hqt. assert (alive qt = true /\ plain qt = true /\ ending qt = None) as (Ha & Hp & He) by (by destruct Hqt as [-> | ->]).
  destruct (minv_alive _ _ Hm Ha) as (q & (Hq & _) & Ht2). unfold on, __mpq_destroy, mod_lq, the_q, modm. run. rewrite Hq. cbn. split; [done|].
  split; [eapply (minv_mod _ _ _ _ (w_term true)); [exact Hm|exact Hq|done..]|].
  split; [unfold uinv in *; cbn in *; by rewrite Hq in Hu|]. split; [eapply winv_plain; [exact Hw|done..|]; unfold wait_of; cbn; by rewrite Hq|].
  split; [|done]. intros H1 H2. specialize (Hmn H1 H2). cbn. by rewrite Hq in Hmn.
Qed.

Lemma good_weaken (late late' : Prop) r : (late -> late') -> good_step late r -> good_step late' r.
Proof. intros Hl. destruct r as [[]|]; cbn; auto. Qed.

(** Every other step of every thread keeps the invariants, and is safe but for one. *)
Lemma step_good l s : linv s -> match l with LMake _ _ _ _ => False | _ => True end -> good_step (l = LCreator /\ late_read s) (lstep be sock qid l s).
Proof.
  intros Hi Hl. destruct l as [is_main flags max|err| | |mem name id err|r err| | |t o c|t|t].
  - by eapply good_weaken, create_good.
  - by eapply good_weaken, thread_good.
  - destruct s. eapply good_weaken; [|by apply creator_good]. by split.
  - destruct s as [m cf wf cr qt th mn nf]. cbn. destruct cr; try done. pose proof Hi as ([Hr Hc] & _). cbn in Hr, Hc. destruct Hc as (f & -> & H1 & H2 & H3 & H4 & H5 & _).
    eapply creator_only; [exact Hi| |done..]. by apply cinv_listen.
  - done.
  - by eapply good_weaken, init_good.
  - by eapply good_weaken, self_good.
  - destruct s. by eapply good_weaken, queue_good.
  - by eapply good_weaken, ask_good.
  - destruct s. by eapply good_weaken, other_good.
  - destruct s as [m cf wf cr qt th mn nf]. cbn. destruct (th !! t) as [p|] eqn:Ep; [|done]. destruct p; try done. cbn. pose proof Hi as (_ & _ & _ & (L & _ & _ & He) & _). cbn in He. specialize (He t).
    destruct (wf !! t) as [f|] eqn:Ef; [|rewrite Ep in He; by destruct He]. eapply thread_moves; [exact Hi|exact Ep|exact Ef|done|]. intros L'. by apply entry_framed.
Qed.
End Step.
