(* ===== verification/MpqLifeProps.v ===== *)
(** * What the life of a queue promises

    Whatever the interleaving, no thread touches what is gone, but for the creator that reads
    the identifier of a queue that was asked to end too early; every call comes to an end; a
    creation that fails leaves nothing behind, but for a socket where there are no pipes. *)
From S2P Require Import Prelude OsMp MpqLife MpqLifeInv MpqLifeStep.
#[local] Open Scope aosl_scope.

(** ** How much there is left to do *)

(** Steps left for the creator, which has been told or not. *)
Definition crank (told : bool) (cr : cpc) : Z :=
  match cr with
  | CrThread _ => 24
  | CrLock | CrWoken => if told then 5 else 8
  | CrTest => if told then 4 else 7
  | CrBlocked => 6 | CrUnlock => 3 | CrDestroy => 2 | CrRead => 1
  | CrIdle | CrFailed _ | CrDone => 0
  end.
(** Steps left for the thread of the queue, apart from telling those who wait. *)
Definition qrank (qt : qpc) : Z :=
  let reply r := match r with CreateQ => 10 | _ => 0 end in
  let last (k : option Z) := match k with Some _ => 8 | None => 5 end in
  match qt with
  | QtNone | QtExit _ => 0
  | QtStart _ => 15 | QtInit => 14 | QtNoQ _ => 4
  | QtReply r _ => reply r + 3 | QtReply2 r _ => reply r + 2 | QtReply3 r => reply r + 1
  | QtLoop => 10
  | QtUninstall k => last k + 4 | QtDrain k => last k + 3 | QtFini k => last k + 2 | QtFree k => last k + 1
  | QtNotify k _ => last k | QtTell k _ _ => last k - 1 | QtTell2 k _ _ => last k - 2 | QtTell3 k _ _ => last k + 1
  end.
(** Steps left for an other thread, which has been told or not. *)
Definition wrank (told : bool) (p : wpc) : Z :=
  match p with
  | WIdle _ => 0 | WGot _ _ => 30 | WTerm _ => 12 | WPutWait => 11 | WPut _ => 1
  | WLock | WWoken => if told then 5 else 8
  | WTest => if told then 4 else 7
  | WBlocked => 6 | WUnlock => 3 | WDestroy => 2
  end.
(** With the steps to tell it. *)
Definition wcost (d : option bool) (p : wpc) : Z :=
  (match d with Some false => 4 | _ => 0 end) + wrank (default false d) p.
Fixpoint wsum (wf : gmap nat wait_frame) (i : nat) (th : list wpc) : Z :=
  match th with [] => 0 | p :: th => wcost (wf_done <$> wf !! i) p + wsum wf (S i) th end.

Definition is_told (qt : qpc) : bool := match told qt with Some _ => true | None => false end.
Definition left_to_do (s : lsys) : Z := crank (is_told (l_qt s)) (l_cr s) + qrank (l_qt s) + wsum (l_wf s) 0 (l_th s).

Lemma wcost_nonneg d p : 0 <= wcost d p.
Proof. unfold wcost, wrank; destruct d as [[]|], p; cbn; lia. Qed.
Lemma wsum_nonneg wf i th : 0 <= wsum wf i th.
Proof. revert i. induction th as [|p th IH]; intros i; cbn; [lia|]. pose proof (wcost_nonneg (wf_done <$> wf !! i) p). specialize (IH (S i)). lia. Qed.

Lemma wsum_ext wf wf' i th : (forall u, (wf_done <$> wf' !! u) = (wf_done <$> wf !! u)) -> wsum wf' i th = wsum wf i th.
Proof. intros He. revert i. induction th as [|p th IH]; intros i; cbn; [done|]. by rewrite He, IH. Qed.

Lemma wsum_update wf wf' i th t p p' : th !! t = Some p -> (forall u, u <> (i + t)%nat -> (wf_done <$> wf' !! u) = (wf_done <$> wf !! u)) ->
  wsum wf' i (<[t := p']> th) = wsum wf i th - wcost (wf_done <$> wf !! (i + t)%nat) p + wcost (wf_done <$> wf' !! (i + t)%nat) p'.
Proof.
  revert i t. induction th as [|x th IH]; intros i [|t] Hp He; try done.
  - injection Hp as ->. cbn. rewrite Nat.add_0_r. assert (wsum wf' (S i) th = wsum wf (S i) th) as ->; [|lia].
    assert (forall j, (i < j)%nat -> wsum wf' j th = wsum wf j th) as Hj; [|apply Hj; lia]. clear IH. induction th as [|y th IH]; intros j Hj; cbn; [done|]. rewrite He, IH by lia. done.
  - change (<[S t := p']> (x :: th)) with (x :: <[t := p']> th). cbn [wsum]. rewrite He by lia. rewrite (IH (S i) t) by (try done; intros; apply He; lia). replace (S i + t)%nat with (i + S t)%nat by lia. lia.
Qed.

Lemma wsum_same wf t f g i th : wf !! t = Some f -> wf_done g = wf_done f -> wsum (<[t := g]> wf) i th = wsum wf i th.
Proof.
  intros Hf Hg. apply wsum_ext. intros u. destruct (decide (u = t)) as [-> |Hu]; [rewrite lookup_insert_eq, Hf; cbn; by rewrite Hg|by rewrite lookup_insert_ne].
Qed.

Section Props.
Context (be : backend) (sock : bool) (qid : Z) (base wbase : gset Z).
#[local] Abbreviation linv := (linv be qid base wbase).

(** Steps of threads that are in the middle of something; the others begin a call, ask the
    queue to end from its own thread, or wake a thread for nothing. *)
Definition work (l : label) : bool :=
  match l with LThread _ | LCreator | LMake _ _ _ _ | LInit _ _ | LQueue | LGo _ => true | _ => false end.

Ltac inv_step H := unfold on, lock_by, unlock_by, destroy_mutex, to, fault in H; repeat case_match; simplify_eq/=.

Lemma creator_decreases s s' : linv s -> creator_step qid s = Some (Ret s') -> left_to_do s' < left_to_do s.
Proof.
  destruct s as [m cf wf cr qt th mn nf]. intros (Hc & _) H. cbn in Hc. pose proof Hc as [Hr _]. pose proof (told_result _ Hr) as Htr. unfold creator_step in H. inv_step H; unfold left_to_do; cbn; try (destruct (is_told qt); lia); try lia.
  assert (is_told qt = false) as ->; [|lia]. destruct Hc as [_ (f & [= <-] & _ & Hres & _)]. unfold is_told. destruct (told qt) as [r|]; [|done]. cbn in Hres. congruence.
Qed.

Lemma queue_decreases s s' : linv s -> queue_step be qid s = Some (Ret s') -> left_to_do s' < left_to_do s.
Proof.
  destruct s as [m cf wf cr qt th mn nf]. intros (Hc & _ & _ & (L & Hnd & HL & He) & _) H. cbn in Hc, HL, He. unfold queue_step, __q_wait_destroy in H. destruct qt; try done.
  - inv_step H. unfold left_to_do. cbn. lia.
  - inv_step H. unfold left_to_do. cbn. lia.
  - inv_step H. unfold left_to_do. cbn. assert (crank true (cr_signal cr) <= crank false cr) by (destruct cr; cbn; lia). lia.
  - inv_step H; unfold left_to_do; cbn; lia.
  - inv_step H; unfold left_to_do; cbn; lia.
  - inv_step H; unfold left_to_do; cbn; destruct k; cbn; lia.
  - inv_step H; unfold left_to_do; cbn; destruct k; cbn; lia.
  - inv_step H; unfold left_to_do; cbn; destruct k; cbn; lia.
  - inv_step H; unfold left_to_do; cbn; destruct k; cbn; lia.
  - inv_step H; unfold left_to_do; try destruct k; cbn; lia.
  - inv_step H. unfold left_to_do. cbn. erewrite wsum_same by done. destruct k; cbn; lia.
  - destruct HL as (L' & -> & _). pose proof (He wait) as Hi. unfold entry in Hi. destruct (wf !! wait) as [f|] eqn:Ef; [|done]. destruct (th !! wait) as [p|] eqn:Ep; [|done].
    destruct Hi as (_ & Hd & _). rewrite bool_decide_eq_false_2 in Hd by set_solver. inv_step H. unfold left_to_do. cbn.
    assert (alter w_signal wait th = <[wait := w_signal p]> th) as ->.
    { apply list_eq. intros u. destruct (decide (u = wait)) as [-> |Hu]; [rewrite list_lookup_alter_eq, Ep, list_lookup_insert_eq; [done|by apply lookup_lt_Some in Ep]|]. by rewrite list_lookup_alter_ne, list_lookup_insert_ne. }
    rewrite (wsum_update wf _ 0 th wait p) by (try done; intros; by rewrite lookup_insert_ne). cbn. rewrite Ef, lookup_insert_eq. cbn. rewrite Hd.
    assert (wcost (Some true) (w_signal p) + 4 <= wcost (Some false) p) by (unfold wcost; destruct p; cbn; lia). destruct k; cbn; lia.
  - inv_step H. unfold left_to_do. cbn. erewrite wsum_same by done. destruct k; cbn; lia.
Qed.

Lemma other_decreases t s s' : linv s -> other_step t s = Some (Ret s') -> left_to_do s' < left_to_do s.
Proof.
  destruct s as [m cf wf cr qt th mn nf]. intros Hi H. unfold other_step in H. destruct (th !! t) as [p|] eqn:Ep; [|done].
  assert (forall wf' p', (forall u, u <> t -> (wf_done <$> wf' !! u) = (wf_done <$> wf !! u)) -> wcost (wf_done <$> wf' !! t) p' < wcost (wf_done <$> wf !! t) p ->
    forall m' cf', left_to_do (MkL m' cf' wf' cr qt (<[t := p']> th) mn nf) < left_to_do (MkL m cf wf cr qt th mn nf)) as Hdec.
  { intros wf' p' Hu Hlt m' cf'. unfold left_to_do. cbn. rewrite (wsum_update wf wf' 0 th t p p') by done. cbn. lia. }
  assert (forall f g, wf !! t = Some f -> wf_done g = wf_done f -> forall p', wrank (wf_done f) p' < wrank (wf_done f) p -> forall m' cf', left_to_do (MkL m' cf' (<[t := g]> wf) cr qt (<[t := p']> th) mn nf) < left_to_do (MkL m cf wf cr qt th mn nf)) as Hfr.
  { intros f g Hf Hg p' Hlt m' cf'. apply Hdec; [intros; by rewrite lookup_insert_ne|]. rewrite lookup_insert_eq, Hf. cbn. rewrite Hg. unfold wcost. cbn. lia. }
  assert (forall p', wrank (default false (wf_done <$> wf !! t)) p' < wrank (default false (wf_done <$> wf !! t)) p -> forall m' cf', left_to_do (MkL m' cf' wf cr qt (<[t := p']> th) mn nf) < left_to_do (MkL m cf wf cr qt th mn nf)) as Hth.
  { intros p' Hlt m' cf'. apply Hdec; [done|]. unfold wcost. lia. }
  destruct p as [|[|issue] c|issue|r| | | | | | | ]; try done.
  - unfold on, mpq_destroy, __mpq_destroy, mod_lq, the_q, modm in H. run_in H. destruct (m_q m) as [q|] eqn:Hq; [|done]. destruct (c && not_allowed q); cbn in H; [|rewrite Hq in H; cbn in H]; injection H as <-; apply Hth; cbn; lia.
  - unfold on, mpq_do_wait, __mpq_add_wait, mod_lq, the_q, modm in H. run_in H. destruct (m_q m) as [q|] eqn:Hq; [|done]. destruct (issue && c && not_allowed q); [injection H as <-; apply Hth; cbn; lia|].
    rewrite Hq in H. run_in H. destruct (destroy_wait_tail q) as [u|].
    + destruct (<[t:=new_wait]> wf !! u) as [f|] eqn:Ef; [|done]. rewrite Hq in H. cbn in H. injection H as <-. apply Hdec.
      * intros v Hv. destruct (decide (v = u)) as [-> |Hvu]; [|by rewrite !lookup_insert_ne]. rewrite lookup_insert_eq. rewrite lookup_insert_ne in Ef by done. by rewrite Ef.
      * assert ((wf_done <$> <[u:=set_next (Some t) f]> (<[t:=new_wait]> wf) !! t) = Some false) as ->; [|unfold wcost; cbn; destruct (wf_done <$> _) as [[]|]; lia].
        destruct (decide (u = t)) as [-> |Hut]; [rewrite lookup_insert_eq in Ef |- *; by injection Ef as <-|]. by rewrite lookup_insert_ne, lookup_insert_eq.
    + rewrite Hq in H. cbn in H. injection H as <-. apply Hdec; [intros; by rewrite lookup_insert_ne|]. rewrite lookup_insert_eq. unfold wcost. cbn. destruct (wf_done <$> _) as [[]|]; lia.
  - unfold on, mpq_do_wait, __mpq_destroy, mod_lq, the_q, modm in H. destruct issue; run_in H; [destruct (m_q m) as [q|] eqn:Hq; [|done]|]; cbn in H; injection H as <-; apply Hth; cbn; lia.
  - unfold on, __mpq_put, mod_lq, the_q, modm in H. run_in H. destruct (m_q m); [|done]. cbn in H. injection H as <-. apply Hth; cbn; lia.
  - unfold on, mpq_do_wait, __mpq_put, mod_lq, the_q, modm in H. run_in H. destruct (m_q m); [|done]. cbn in H. injection H as <-. apply Hth; cbn. destruct (default _ _); lia.
  - destruct (wf !! t) as [f|] eqn:Ef; [|done]. unfold __mpq_destroy_wait in H. inv_step H. eapply (Hfr f); [done..|]. cbn. destruct (wf_done f); lia.
  - destruct (wf !! t) as [f|] eqn:Ef; [|done]. unfold __mpq_destroy_wait in H. destruct (wf_done f) eqn:Ed; [injection H as <-; eapply (Hfr f); [done..|]; rewrite Ed; cbn; lia|]. inv_step H. eapply (Hfr f); [done..|]. rewrite Ed. cbn. lia.
  - destruct (wf !! t) as [f|] eqn:Ef; [|done]. unfold __mpq_destroy_wait in H. inv_step H. eapply (Hfr f); [done..|]. cbn. destruct (wf_done f); lia.
  - destruct (wf !! t) as [f|] eqn:Ef; [|done]. unfold __mpq_destroy_wait in H. inv_step H. eapply (Hfr f); [done..|]. cbn. lia.
  - destruct (wf !! t) as [f|] eqn:Ef; [|done]. unfold __mpq_destroy_wait in H. inv_step H. change (partial_alter (fun _ => None) t wf) with (delete t wf). apply Hdec; [intros; by rewrite lookup_delete_ne|]. rewrite lookup_delete_eq. rewrite ?Ef. unfold wcost. cbn. destruct (wf_done f); lia.
Qed.

Lemma work_decreases l s s' : linv s -> work l = true -> lstep be sock qid l s = Some (Ret s') -> 0 <= left_to_do s' < left_to_do s.
Proof.
  intros Hi Hw H. assert (forall s, 0 <= crank (is_told (l_qt s)) (l_cr s) + qrank (l_qt s)) as Hpos.
  { intros [m cf wf cr qt th mn nf]. cbn. assert (0 <= qrank qt) by (destruct qt as [| | | |[]|[]|[]| |[]|[]|[]|[]|[]|[]|[]|[]| ]; cbn; lia). assert (0 <= crank (is_told qt) cr) by (destruct cr; cbn; try lia; destruct (is_told qt); lia). lia. }
  split; [pose proof (Hpos s'); pose proof (wsum_nonneg (l_wf s') 0 (l_th s')); unfold left_to_do; lia|]. destruct l; try done.
  - destruct s as [m cf wf cr qt th mn nf]. cbn in H. destruct cr; try done. pose proof Hi as ((_ & _ & Hqt) & _). cbn in Hqt. subst qt. destruct (err =? 0); injection H as <-; unfold left_to_do; cbn; lia.
  - destruct s. by eapply creator_decreases.
  - destruct s as [m cf wf cr qt th mn nf]. cbn in H. destruct qt; try done. inv_step H; unfold left_to_do; cbn; lia.
  - destruct s as [m cf wf cr qt th mn nf]. cbn in H. destruct qt; try done. inv_step H; unfold left_to_do; cbn; lia.
  - destruct s. by eapply queue_decreases.
  - destruct s. by eapply other_decreases.
Qed.

(** ** There is always somebody who can go on *)

(** A thread that is in the middle of something can go on, or the creator is too late. *)
Definition can_work (s : lsys) : Prop := late_read s \/ exists l s', work l = true /\ lstep be sock qid l s = Some (Ret s').

(** Nobody is in the middle of something: the creator has returned, and the queue has ended
    and nobody waits, or it runs, was not asked to end, and some wait for its end. *)
Definition idle (p : wpc) : Prop := match p with WIdle _ => True | _ => False end.
Definition at_rest (s : lsys) : Prop :=
  match l_cr s with CrIdle | CrFailed _ | CrDone => True | _ => False end /\
  match l_qt s with
  | QtNone | QtExit _ => forall t p, l_th s !! t = Some p -> idle p
  | QtLoop => (exists q, m_q (l_m s) = Some q /\ lq_terminated q = false) /\ forall t p, l_th s !! t = Some p -> idle p \/ p = WBlocked
  | _ => False
  end.

(** A step fails only where the creator is too late. *)
Lemma step_safe l s r : linv s -> lstep be sock qid l s = Some r -> (exists s', r = Ret s') \/ r = Fault /\ l = LCreator /\ late_read s.
Proof.
  intros Hi Hs. assert (match l with LMake _ _ _ _ => False | _ => True end \/ exists a b c e, l = LMake a b c e) as [Hl|(a & b & c & e & ->)] by (destruct l; eauto 6).
  - pose proof (step_good _ sock _ _ _ l s Hi Hl) as Hg. rewrite Hs in Hg. destruct r; try done; eauto.
  - pose proof (make_good _ sock _ _ _ a b c e s Hi) as Hg. rewrite Hs in Hg. destruct r; try done; eauto.
Qed.

Lemma can_step l s : linv s -> work l = true -> lstep be sock qid l s <> None -> can_work s.
Proof.
  intros Hi Hw Hn. destruct (lstep be sock qid l s) as [r|] eqn:E; [|done]. destruct (step_safe _ _ _ Hi E) as [[s' ->]|(_ & _ & ?)]; [|by left]. right. by exists l, s'.
Qed.

(** Somebody who holds a mutex, or a reference while the queue waits for it, can go on. *)
Lemma creator_can m cf wf cr qt th mn nf : linv (MkL m cf wf cr qt th mn nf) -> cr_holds cr = true -> can_work (MkL m cf wf cr qt th mn nf).
Proof.
  intros Hi Hh. eapply (can_step LCreator); [done|done|]. pose proof Hi as ([_ Hc] & _). cbn in Hc. destruct cr; try done; destruct Hc as (f & -> & _); cbn; unfold unlock_by, to, fault; repeat case_match; done.
Qed.
Lemma waiter_can m cf wf cr qt th mn nf t p : linv (MkL m cf wf cr qt th mn nf) -> th !! t = Some p -> framed p = true -> holds p = false -> p <> WBlocked ->
  (w_holds p = true \/ tells qt t = false) -> can_work (MkL m cf wf cr qt th mn nf).
Proof.
  intros Hi Hp Hf Hh Hb Hm. pose proof Hi as (_ & _ & _ & (L & _ & _ & He) & _). cbn in He. specialize (He t). rewrite Hp in He. unfold entry in He. destruct (wf !! t) as [f|] eqn:Ef; [|destruct He; congruence].
  destruct He as (_ & _ & Hmx & _). unfold wowner in Hmx. eapply (can_step (LGo t)); [done|done|].
  cbn. rewrite Hp, ?Ef. destruct p; try done; rewrite ?Ef; unfold __mpq_destroy_wait, lock_by, unlock_by, destroy_mutex, to, fault; cbn in *; try (destruct Hm as [|Hm]; [done|]; rewrite Hm in Hmx; by rewrite Hmx); repeat case_match; done.
Qed.
Lemma holder_can m cf wf cr qt th mn nf t p : linv (MkL m cf wf cr qt th mn nf) -> th !! t = Some p -> holds p = true -> can_work (MkL m cf wf cr qt th mn nf).
Proof.
  intros Hi Hp Hh. pose proof Hi as (_ & Hm & Hu & _). cbn in Hm, Hu. destruct (holder_alive _ _ _ _ _ Hu Hp Hh) as (q & Hq & _). eapply (can_step (LGo t)); [done|done|].
  cbn. rewrite Hp. destruct p as [|[]| | | | | | | | | ]; try done; unfold on, to; rewrite ?Hq; repeat case_match; done.
Qed.

Lemma queue_can m cf wf cr qt th mn nf : linv (MkL m cf wf cr qt th mn nf) ->
  qt = QtNone \/ (exists r, qt = QtExit r) \/ (qt = QtLoop /\ exists q, m_q m = Some q /\ lq_terminated q = false) \/ can_work (MkL m cf wf cr qt th mn nf).
Proof.
  intros Hi. pose proof Hi as (Hc & Hm & Hu & (L & Hnd & HL & He) & _). cbn in Hc, Hm, Hu, HL, He.
  assert (Hq : lstep be sock qid LQueue (MkL m cf wf cr qt th mn nf) <> None -> can_work (MkL m cf wf cr qt th mn nf)) by (intros; by eapply (can_step LQueue)).
  destruct qt; try (by auto); try (by right; left; eauto); right; right; try (by right; apply Hq; cbn; unfold to; repeat case_match).
  - right. by eapply (can_step (LMake true true true 0)).
  - right. by eapply (can_step (LInit 0 0)).
  - right. destruct (listening _ _ _ Hc ltac:(auto) ltac:(done)) as (f & -> & Hl & _ & Hmx & _). unfold cowner in Hmx. destruct (cr_holds cr) eqn:Eh; [by eapply creator_can|]. apply Hq. cbn. unfold lock_by. cbn in Hmx. by rewrite Hmx.
  - right. apply Hq. cbn. unfold unlock_by, to, fault. destruct cf; [|done]. by case_decide.
  - destruct (minv_alive _ _ _ _ _ Hm eq_refl) as (q & (Eq & _) & _). destruct (lq_terminated q) eqn:Et; [right|left; eauto]. apply Hq. cbn. by rewrite Eq, Et.
  - right. destruct (minv_alive _ _ _ _ _ Hm eq_refl) as (q & (Eq & _) & _). destruct (Z.ltb_spec 1 (lq_usage q)) as [Hlt|Hle].
    + destruct Hu as [Hu _]. rewrite Eq in Hu. destruct (cnt_exists holds th ltac:(lia)) as (t & p & Hp & Hh). by eapply holder_can.
    + apply Hq. cbn. rewrite Eq. by rewrite (proj2 (Z.ltb_ge _ _)).
  - right. destruct HL as (L' & -> & _). pose proof (He wait) as Hw. unfold entry in Hw. destruct (wf !! wait) as [f|] eqn:Ef; [|destruct (th !! wait); set_solver]. destruct (th !! wait) as [p|] eqn:Ep; [|done].
    destruct Hw as (Hf & _ & Hmx & _). unfold wowner in Hmx. destruct (w_holds p) eqn:Eh; [eapply waiter_can; [exact Hi|exact Ep|done|by destruct p|by destruct p|by left]|]. apply Hq. cbn. rewrite Ef. cbn in Hmx. unfold lock_by. by rewrite Hmx.
  - right. apply Hq. cbn. unfold unlock_by, to, fault. destruct (wf !! _); [|done]. by case_decide.
Qed.

Definition moving (p : wpc) : bool := match p with WIdle _ | WBlocked => false | _ => true end.

(** No interleaving gets stuck. *)
Lemma rest_or_work s : linv s -> at_rest s \/ can_work s.
Proof.
  destruct s as [m cf wf cr qt th mn nf]. intros Hi. pose proof Hi as ([Hr Hc] & Hm & Hu & (L & Hnd & HL & He) & _). cbn in Hr, Hc, Hm, Hu, HL, He.
  assert (Hqt : can_work (MkL m cf wf cr qt th mn nf) \/ (qt = QtNone \/ exists r, qt = QtExit r) /\ m_q m = None \/ qt = QtLoop /\ exists q, m_q m = Some q /\ lq_terminated q = false).
  { destruct (queue_can _ _ _ _ _ _ _ _ Hi) as [-> |[[r ->]|[?|?]]]; auto; right; left; (split; [eauto|]); destruct Hm as [_ Hm]; destruct (m_q m); [by destruct Hm|done|by destruct Hm|done]. }
  destruct Hqt as [?|Hqt]; [by right|].
  assert (Hrep : replies qt = false) by (destruct Hqt as [[[-> |[? ->]] _]|[-> _]]; done). assert (Htell : forall t, tells qt t = false) by (destruct Hqt as [[[-> |[? ->]] _]|[-> _]]; done).
  assert (Hcr : can_work (MkL m cf wf cr qt th mn nf) \/ match cr with CrIdle | CrFailed _ | CrDone => True | _ => False end).
  { destruct cr; try (by right); left; try (by eapply (can_step (LThread 0)));
      try (destruct Hc as (f & -> & Hnn & _ & Hmx & _ & Hb & _); unfold cowner in Hmx; cbn in Hmx; rewrite ?Hrep in Hmx);
      try (eapply (can_step LCreator); [done|done|]; cbn; unfold lock_by, unlock_by, destroy_mutex, on, to, fault; rewrite ?Hmx; repeat case_match; done).
    exfalso. specialize (Hb eq_refl). by destruct Hqt as [[[-> |[? ->]] _]|[-> _]]. }
  destruct Hcr as [?|Hcr]; [by right|].
  destruct (Z.ltb_spec 0 (cnt moving th)) as [(t & p & Hp & Hb)%cnt_exists|Hno].
  { right. destruct (holds p) eqn:Eh.
    - destruct (holder_alive _ _ _ _ _ Hu Hp Eh) as (q & Hq & _). destruct Hqt as [[_ Hn]|[-> _]]; [congruence|]. by eapply holder_can.
    - eapply waiter_can; [exact Hi|exact Hp|by destruct p|done|by destruct p|right; apply Htell]. }
  assert (Hno' : forall t p, th !! t = Some p -> moving p = false).
  { intros t p Hp. destruct (moving p) eqn:E; [|done]. pose proof (cnt_pos _ _ _ _ Hp E). lia. }
  left. split; [done|]. cbn. destruct Hqt as [[Hq Hn]|[-> Hq]].
  - assert (forall t p, th !! t = Some p -> idle p); [|by destruct Hq as [-> |[? ->]]]. intros t p Hp. pose proof (Hno' _ _ Hp) as Hmv. destruct p; cbn; try done.
    specialize (He t). rewrite Hp in He. unfold entry in He. destruct (wf !! t) as [f|]; [|by destruct He]. destruct He as (_ & _ & _ & _ & Hb & _). specialize (Hb eq_refl).
    assert (L = []) as -> by (destruct Hq as [-> |[? ->]]; cbn in HL; by rewrite Hn in HL). by apply not_elem_of_nil in Hb.
  - split; [done|]. intros t p Hp. pose proof (Hno' _ _ Hp) as Hmv. destruct p; try done; [by left|by right].
Qed.
End Props.

(** ** From the beginning *)

(** The platform gives out numbers that are not in use. *)
Definition os_ready (w : osw) : Prop := 0 < os_next w /\ forall fd, fd ∈ os_open w ∪ os_watched w -> 0 < fd < os_next w.

Lemma failed_stays be sock qid base wbase l s s' : linv be qid base wbase s -> lstep be sock qid l s = Some (Ret s') -> failed (l_qt s) = true -> failed (l_qt s') = true.
Proof.
  destruct s as [m cf wf cr qt th mn nf]. intros [[_ Hc] _] H Hf. cbn in Hf, Hc.
  destruct l; cbn in H; try (destruct cr; try done; destruct Hc as [_ ->]; done); unfold create_call, aosl_main_start, __mpq_create_flags, __mpq_create, creator_step, other_step, __mpq_destroy_wait in H;
    try (unfold on, lock_by, unlock_by, destroy_mutex, to, fault in H; repeat case_match; simplify_eq/=; done).
Qed.

(** What belonged to others is as it was, but for a socket that a failed creation may leave open. *)
Lemma life_linv be sock qid w main n s : os_ready w -> life be sock qid w main n s ->
  exists b, leaks sock (os_open w) b /\ linv be qid b (os_watched w) s /\ (failed (l_qt s) = false -> b = os_open w).
Proof.
  intros [Hpos Hlt] H. induction H as [|s l s' _ (b & Hb & IH & Hfb) Hs].
  - exists (os_open w). split; [by left|]. split; [|done]. assert (owned (os_open w) (os_watched w) [] ∅ w).
    { split; [done|intros fd [?|[]%not_elem_of_nil]; auto|apply NoDup_nil_2|set_solver|set_solver|set_solver|set_solver]. }
    split; [done|]. split; [split; done|].
    split; [split; [cbn; by apply cnt_replicate|done]|]. split; [|split; [|done]]; [|by intros ??].
    exists []. split; [apply NoDup_nil_2|]. split; [done|]. intros t. cbn. rewrite lookup_empty. destruct (replicate n (WIdle 0) !! t) as [p|] eqn:E; [|split; [apply not_elem_of_nil|done]].
    apply lookup_replicate in E as [-> _]. split_and!; [done|apply not_elem_of_nil|done].
  - assert (match l with LMake _ _ _ _ => False | _ => True end \/ exists x y z e, l = LMake x y z e) as [Hl|(x & y & z & e & ->)] by (destruct l; eauto 6).
    + pose proof (step_good _ sock _ _ _ l s IH Hl) as Hg. rewrite Hs in Hg. exists b. split; [done|]. split; [done|]. intros Hf. apply Hfb.
      destruct (failed (l_qt s)) eqn:E; [|done]. by rewrite (failed_stays _ _ _ _ _ _ _ _ IH Hs E) in Hf.
    + pose proof (make_good _ sock _ _ _ x y z e s IH) as Hg. rewrite Hs in Hg.
      assert (failed (l_qt s) = false) as Hn by (destruct s as [m cf wf cr qt th mn nf]; cbn in Hs |- *; by destruct qt as [| | | |[]|[]|[]| | | | | | | | | |[]]).
      by rewrite (Hfb Hn) in Hg.
Qed.

(** A step of a thread that is in the middle of something. *)
Definition work_step (be : backend) (sock : bool) (qid : Z) (s s' : lsys) : Prop :=
  exists l, work l = true /\ lstep be sock qid l s = Some (Ret s').

Lemma work_ends be sock qid base wbase s : linv be qid base wbase s -> sn (work_step be sock qid) s.
Proof.
  intros Hi. assert (exists n, (Z.to_nat (left_to_do s) < n)%nat) as [n Hn] by (exists (S (Z.to_nat (left_to_do s))); lia). revert s base Hi Hn.
  induction n as [|n IH]; intros s base Hi Hn; [lia|]. constructor. intros s' (l & Hw & Hs). pose proof (work_decreases _ _ _ _ _ _ _ _ Hi Hw Hs).
  assert (match l with LMake _ _ _ _ => False | _ => True end \/ exists x y z e, l = LMake x y z e) as [Hl|(x & y & z & e & ->)] by (destruct l; eauto 6).
  - pose proof (step_good _ sock _ _ _ l s Hi Hl) as Hg. rewrite Hs in Hg. eapply IH; [exact Hg|lia].
  - pose proof (make_good _ sock _ _ _ x y z e s Hi) as Hg. rewrite Hs in Hg. destruct Hg as (b & _ & Hg & _). eapply IH; [exact Hg|lia].
Qed.

(** Nothing that belonged to the queue is left; the descriptors [open] are open. *)
Definition left_nothing (w : osw) (open : gset Z) (m : qmem) : Prop :=
  m_q m = None /\ m_names m = 0 /\ m_lock m = false /\ m_id m = false /\ m_installed m = false /\
  os_open (m_os m) = open /\ os_watched (m_os m) = os_watched w.

Lemma minv_nothing be w b m qt : minv be b (os_watched w) m qt -> alive qt = false -> inst qt = false -> left_nothing w b m.
Proof.
  intros Hm Ha Hin. pose proof (minv_dead _ _ _ _ _ Hm Ha) as (H1 & H2 & H3 & H4 & Ho). destruct Hm as [Hi _]. unfold left_nothing. rewrite (ow_open _ _ _ _ _ Ho), (ow_watched _ _ _ _ _ Ho), Hi.
  split_and!; try done; set_solver.
Qed.

(** ** Runs *)

Fixpoint run_life (be : backend) (sock : bool) (qid : Z) (ls : list label) (s : lsys) : option (res lsys) :=
  match ls with
  | [] => Some (Ret s)
  | l :: ls => match lstep be sock qid l s with Some (Ret s') => run_life be sock qid ls s' | r => r end
  end.

Lemma run_life_life be sock qid w main n ls s s' : life be sock qid w main n s -> run_life be sock qid ls s = Some (Ret s') -> life be sock qid w main n s'.
Proof.
  revert s. induction ls as [|l ls IH]; intros s Hl Hr; cbn in Hr; [by injection Hr as <-|].
  destruct (lstep be sock qid l s) as [[s1| | |]|] eqn:Hs; try done. eapply IH; [|exact Hr]. by eapply life_next.
Qed.

(** A main queue is created and runs, one thread waits for its end and another one asks for it. *)
Definition no_os : osw := MkOsw ∅ ∅ 3 [].
Definition ex_start : list label :=
  [LCreate true 0 0; LThread 0; LCreator; LCreator; LMake true true true 0; LInit 0 0; LQueue; LQueue; LQueue; LCreator; LCreator; LCreator; LCreator; LCreator].
Definition ex_wait : list label :=
  [LAsk 0 (Wait false) true; LGo 0; LGo 0; LGo 0; LGo 0; LGo 0; LAsk 1 (Wait true) false; LGo 1; LGo 1; LGo 1].
Definition ex_state (ls : list label) : lsys :=
  match run_life Epoll false 65536 ls (life_init no_os (-1) 2) with Some (Ret s) => s | _ => life_init no_os (-1) 2 end.
(** The identifiers of queues are used up. *)
Definition ex_fail : list label :=
  [LCreate false 0 8; LThread 0; LCreator; LCreator; LMake true true false AOSL_EOVERFLOW; LQueue; LQueue; LQueue; LQueue; LCreator; LCreator; LCreator; LCreator].
Lemma no_os_ready : os_ready no_os.
Proof. split; [done|]. set_solver. Qed.

(** C5: the creator of a queue, the thread of the queue and any number of threads that ask for
    its end or wait for it run in any interleaving, with pipes or sockets behind the queue and
    any outcome of what they ask of the platform.  The only step of any of them that touches
    what is gone is the last one of the creator, which reads [q->qid], when the queue was asked
    to end before and is freed already ([late_read], see [early_end_use_after_free]).  No other
    step touches the queue after it was freed or an object on the stack of a thread that has
    returned, unlocks a mutex of another thread, or destroys one that is held; nothing is
    closed twice, and nothing aborts. *)
Theorem queue_life_safe be sock qid w main n s l r :
  os_ready w -> life be sock qid w main n s -> lstep be sock qid l s = Some r -> (exists s', r = Ret s') \/ r = Fault /\ l = LCreator /\ late_read s.
Proof.
  intros Hw Hl Hs. destruct (life_linv _ _ _ _ _ _ _ Hw Hl) as (b & _ & Hi & _). by eapply step_safe.
Qed.

Lemma queue_life_safe_witness :
  exists r, lstep Epoll false 65536 LQueue (ex_state (ex_start ++ ex_wait)) = Some r /\ ((exists s', r = Ret s') \/ r = Fault /\ LQueue = LCreator /\ late_read (ex_state (ex_start ++ ex_wait))).
Proof.
  eexists. split; [vm_compute; reflexivity|].
  apply (queue_life_safe Epoll false 65536 no_os (-1) 2 (ex_state (ex_start ++ ex_wait)) LQueue); [apply no_os_ready| |vm_compute; reflexivity].
  eapply (run_life_life _ _ _ _ _ _ (ex_start ++ ex_wait)); [apply life_start|]. vm_compute. reflexivity.
Defined.

(** C6: all calls come to an end: from every state that can be reached, every sequence of steps
    of threads that are in the middle of something is finite (spurious wake-ups and asking for
    something new are not such steps), and where it cannot go on, the creator has returned, and
    either the queue has ended and nobody waits, or it runs, was not asked to end, and only
    threads that wait for its end are blocked; or the creator is about to read the identifier
    of a queue that was asked to end too early and is freed ([late_read]). *)
Theorem queue_life_ends be sock qid w main n s :
  os_ready w -> life be sock qid w main n s -> sn (work_step be sock qid) s /\ (nf (work_step be sock qid) s -> at_rest s \/ late_read s).
Proof.
  intros Hw Hl. destruct (life_linv _ _ _ _ _ _ _ Hw Hl) as (b & _ & Hi & _). split; [by eapply work_ends|]. intros Hn.
  destruct (rest_or_work _ sock _ _ _ _ Hi) as [?|[?|(l & s' & H1 & H2)]]; [by left|by right|]. destruct Hn. by exists s', l.
Qed.

Lemma queue_life_ends_witness :
  let s := ex_state (ex_start ++ ex_wait) in sn (work_step Epoll false 65536) s /\ (nf (work_step Epoll false 65536) s -> at_rest s \/ late_read s).
Proof.
  cbv zeta. apply (queue_life_ends Epoll false 65536 no_os (-1) 2); [apply no_os_ready|].
  eapply (run_life_life _ _ _ _ _ _ (ex_start ++ ex_wait)); [apply life_start|]. vm_compute. reflexivity.
Defined.

(** C39: the outcome of a creation.  When it fails, nothing of the queue is left (memory, mutex,
    identifier, entry of the table, watched descriptors), and [fini] was called once, except
    when not even the thread was started; the open descriptors are those of before, or, only
    where the signal pipe is made of sockets ([sock]), those and one more ([leaks], see
    [socket_pipe_leaks]).  When it succeeds, the queue is there until it ends, and then nothing
    of it is left at all, [fini] was called once, and the main queue can be started again. *)
Theorem queue_create_outcome be sock qid w main n s : os_ready w -> life be sock qid w main n s ->
  (forall e, l_cr s = CrFailed e ->
    l_qt s = QtNone /\ l_finis s = 0%nat /\ left_nothing w (os_open w) (l_m s) \/
    l_qt s = QtExit CreateNull /\ l_finis s = 1%nat /\ exists b, leaks sock (os_open w) b /\ left_nothing w b (l_m s)) /\
  (forall r, l_qt s = QtExit r -> l_finis s = 1%nat /\ exists b, leaks sock (os_open w) b /\ (r = CreateQ -> b = os_open w) /\ left_nothing w b (l_m s)) /\
  (l_cr s = CrDone -> (m_q (l_m s) = None <-> finished (l_qt s) = true /\ plain (l_qt s) = false \/ l_qt s = QtExit CreateQ)) /\
  (l_cr s = CrDone -> l_is_main s = true -> m_main (l_m s) = if decide (m_q (l_m s) = None) then -1 else qid).
Proof.
  intros Hw Hl. destruct (life_linv _ _ _ _ _ _ _ Hw Hl) as (b & Hb & ([Hr Hc] & Hm & _ & _ & Hmn & Hf) & Hfb). split_and!.
  - intros e He. rewrite He in Hc. destruct Hc as [_ [Hq|Hq]]; rewrite Hq in *; [left|right].
    + split; [done|]. split; [done|]. rewrite <-Hfb by done. by eapply minv_nothing.
    + split; [done|]. split; [done|]. exists b. split; [done|]. by eapply minv_nothing.
  - intros r Hq. rewrite Hq in *. split; [done|]. exists b. split; [done|]. split; [intros ->; by apply Hfb|]. by eapply minv_nothing.
  - intros Hcr. rewrite Hcr in *. destruct Hc as (_ & Ht & Hrp). destruct Hm as [_ Hm]. destruct (m_q (l_m s)) as [q|]; destruct (l_qt s) as [| | | | | |[]| |[]|[]|[]|[]|[]|[]|[]|[]|[]]; cbn in *; try done; naive_solver.
  - intros Hcr Him. specialize (Hmn Him Hcr). destruct (m_q (l_m s)); [by rewrite decide_False|by rewrite decide_True].
Qed.

Lemma queue_create_outcome_witness :
  let s := ex_state ex_fail in
  l_cr s = CrFailed AOSL_EOVERFLOW /\
  (l_qt s = QtNone /\ l_finis s = 0%nat /\ left_nothing no_os (os_open no_os) (l_m s) \/
   l_qt s = QtExit CreateNull /\ l_finis s = 1%nat /\ exists b, leaks false (os_open no_os) b /\ left_nothing no_os b (l_m s)).
Proof.
  cbv zeta. assert (E : l_cr (ex_state ex_fail) = CrFailed AOSL_EOVERFLOW) by (vm_compute; reflexivity).
  split; [exact E|]. refine (proj1 (queue_create_outcome Epoll false 65536 no_os (-1) 2 _ no_os_ready _) _ E).
  eapply (run_life_life _ _ _ _ _ _ ex_fail); [apply life_start|]. vm_compute. reflexivity.
Defined.

(** A queue that is asked to end while its creator has not read the identifier yet is gone
    when the creator reads it. *)
Example early_end_use_after_free :
  run_life Epoll false 65536
    [LCreate false 0 8; LThread 0; LCreator; LCreator; LMake true true true 0; LInit 0 0; LQueue; LQueue; LQueue;
     LSelf; LQueue; LQueue; LQueue; LQueue; LQueue; LQueue; LCreator; LCreator; LCreator; LCreator; LCreator]
    (life_init no_os (-1) 0) = Some Fault.
Proof. vm_compute. reflexivity. Qed.

(** When the main queue could not be created, it can never be started again. *)
Example main_start_never_again :
  (fun r => match r with Some (Ret s) => create_call true 0 0 s | _ => None end)
    (run_life Epoll false 65536 [LCreate true 0 0; LThread AOSL_EAGAIN] (life_init no_os (-1) 0)) =
  Some (Ret (MkL (MkM None 0 false false false no_os 0) None ∅ (CrFailed AOSL_EEXIST) QtNone [] true 0)).
Proof. vm_compute. reflexivity. Qed.
