(* ===== verification/Ctor.v ===== *)
(** * Starting and ending the library: [aosl_ctor] and [aosl_dtor] of [kernel/mpq.c]

    Several users of the library hold references to it: the first one to come initializes
    the parts of the library in order, the last one to go finishes them in the reverse
    order.  A lock made of one atomic variable keeps them apart ([aosl_lifecycle_lock]).
    [cstep] runs one thread up to the next point where another can interfere; a thread
    that finds the lock taken sleeps and tries again, which is no step. *)
From S2P Require Import Prelude.
#[local] Open Scope aosl_scope.

(** What is initialized: [k_mm_init], [os_thread_init], [k_errno_init], [k_refobj_init],
    [k_timer_init], [fileobj_init], [iofd_init], [mpq_init], [k_mpqp_init], [k_route_init]. *)
Inductive part := P_mm | P_thread | P_errno | P_refobj | P_timer | P_fileobj | P_iofd | P_mpq | P_mpqp | P_route.
#[export] Instance part_eq_dec : EqDecision part.
Proof. solve_decision. Defined.

(** The calls of [aosl_ctor] and of [aosl_dtor]. *)
Definition ctor_calls : list part := [P_mm; P_thread; P_errno; P_refobj; P_timer; P_fileobj; P_iofd; P_mpq; P_mpqp; P_route].
Definition dtor_calls : list part := [P_route; P_mpqp; P_mpq; P_iofd; P_fileobj; P_timer; P_refobj; P_errno; P_thread; P_mm].

(** Where a thread is in [aosl_ctor] or [aosl_dtor]: outside; taking the lock; at the test of
    the count; about to count; with the calls that are left; about to unlock ([dec]: it has
    given its reference back). *)
Inductive lpc :=
| LIdle
| CtLock | CtTest | CtInc | CtInit (l : list part) | CtUnlock
| DtLock | DtTest | DtDec | DtFini (l : list part) | DtUnlock (dec : bool).

(** A thread: whether it is one of a queue, its references, and where it is. *)
Record lthread := MkLt { lt_on_q : bool; lt_own : Z; lt_pc : lpc }.

(** [s_aosl_init_refcount], [s_aosl_lifecycle_lock], the parts that are initialized, the last
    one first, and the threads. *)
Record lib := MkLib { l_refcount : Z; l_llock : Z; l_up : list part; l_ths : list lthread }.

Inductive lcall := CallCtor (t : nat) | CallDtor (t : nat) | Go (t : nat).

(** An initialization must not happen twice, and a part is finished only when all that were
    initialized after it are. *)
Definition init_part (x : part) (up : list part) : res (list part) := if decide (x ∈ up) then Fault else Ret (x :: up).
Definition fini_part (x : part) (up : list part) : res (list part) :=
  match up with y :: up => if decide (x = y) then Ret up else Fault | [] => Fault end.

Definition thread_step (t : nat) (s : lib) : option (res lib) :=
  let 'MkLib n lk up ths := s in
  match ths !! t with
  | None => None
  | Some (MkLt onq own pc) =>
    let go n lk up pc := Some (Ret (MkLib n lk up (<[t := MkLt onq own pc]> ths))) in
    let bind (r : res (list part)) k := match r with Ret up => k up | Abort => Some Abort | Fault => Some Fault | NoFuel => Some NoFuel end in
    match pc with
    | LIdle => None
    | CtLock => if lk =? 0 then go n 1 up CtTest else None
    | CtTest => go n lk up (if 0 <? n then CtInc else CtInit ctor_calls)
    | CtInc => go (s32 (n + 1)) lk up CtUnlock
    | CtInit (x :: l) => bind (init_part x up) (fun up => go n lk up (CtInit l))
    | CtInit [] => go 1 lk up CtUnlock
    | CtUnlock => Some (Ret (MkLib n 0 up (<[t := MkLt onq (own + 1) LIdle]> ths)))
    | DtLock => if lk =? 0 then go n 1 up DtTest else None
    | DtTest => go n lk up (if n =? 0 then DtUnlock false else DtDec)
    | DtDec =>
      let n := s32 (n - 1) in
      if 0 <? n then go n lk up (DtUnlock true) else
      if onq then Some Abort else go n lk up (DtFini dtor_calls)
    | DtFini (x :: l) => bind (fini_part x up) (fun up => go n lk up (DtFini l))
    | DtFini [] => go n lk up (DtUnlock true)
    | DtUnlock dec => Some (Ret (MkLib n 0 up (<[t := MkLt onq (if dec then own - 1 else own) LIdle]> ths)))
    end
  end.

Definition cstep (l : lcall) (s : lib) : option (res lib) :=
  let enter t pc := match l_ths s !! t with Some (MkLt onq own LIdle) => Some (Ret (MkLib (l_refcount s) (l_llock s) (l_up s) (<[t := MkLt onq own pc]> (l_ths s)))) | _ => None end in
  match l with
  | CallCtor t => enter t CtLock
  | CallDtor t => enter t DtLock
  | Go t => thread_step t s
  end.

(** The references that the threads have or are about to have. *)
Definition pc_ref (pc : lpc) : Z := match pc with CtUnlock => 1 | DtFini _ | DtUnlock true => -1 | _ => 0 end.
Definition th_ref (x : lthread) : Z := lt_own x + pc_ref (lt_pc x).
Fixpoint total (l : list lthread) : Z := match l with [] => 0 | x :: l => th_ref x + total l end.
(** A bound on the references to come: every thread may be in [aosl_ctor]. *)
Definition may_grow (s : lib) : Prop := total (l_ths s) + Z.of_nat (length (l_ths s)) < 2 ^ 31.

(** Everybody may call [aosl_dtor], also who has no reference; there are fewer than [2 ^ 31]
    references and threads. *)
Definition may_call (l : lcall) (s : lib) : Prop := match l with CallCtor _ => may_grow s | _ => True end.

Definition lib_init (on_q : list bool) : lib := MkLib 0 0 [] ((fun b => MkLt b 0 LIdle) <$> on_q).
Inductive lib_run (on_q : list bool) : lib -> Prop :=
| lr_start : lib_run on_q (lib_init on_q)
| lr_step s l s' : lib_run on_q s -> may_call l s -> cstep l s = Some (Ret s') -> lib_run on_q s'.

(** ** Invariants *)

Definition in_cs (x : lthread) : bool := match lt_pc x with LIdle | CtLock | DtLock => false | _ => true end.
Definition changing (x : lthread) : bool := match lt_pc x with CtInit _ | DtFini _ => true | _ => false end.
Definition pending (x : lthread) : bool := match lt_pc x with CtLock | CtTest | CtInc | CtInit _ => true | _ => false end.

(** What a thread knows of the count and the parts. *)
Definition knows (n : Z) (up : list part) (x : lthread) : Prop :=
  match lt_pc x with
  | CtInc | DtDec => 0 < n
  | CtInit l => n = 0 /\ exists p, ctor_calls = p ++ l /\ up = rev p
  | DtFini l => n = 0 /\ up = l
  | _ => True
  end.

Record lib_inv (s : lib) : Prop := {
  li_ref : l_refcount s = total (l_ths s);
  li_lock : l_llock s = cnt in_cs (l_ths s);
  li_one : cnt in_cs (l_ths s) <= 1;
  li_bound : total (l_ths s) + cnt pending (l_ths s) < 2 ^ 31;
  li_pos : 0 <= l_refcount s;
  li_know t x : l_ths s !! t = Some x -> knows (l_refcount s) (l_up s) x;
  li_settled : cnt changing (l_ths s) = 0 -> l_up s = if 0 <? l_refcount s then dtor_calls else []
}.

Lemma refs_insert (l : list lthread) t x y : l !! t = Some x -> total (<[t := y]> l) = total l - th_ref x + th_ref y.
Proof.
  revert t. induction l as [|z l IH]; intros [|t] Hx; try done.
  - injection Hx as ->. cbn. lia.
  - change (<[S t := y]> (z :: l)) with (z :: <[t := y]> l). cbn [total]. rewrite (IH t) by done. lia.
Qed.

Lemma total_ge (l : list lthread) t x : (forall u y, l !! u = Some y -> 0 <= th_ref y) -> l !! t = Some x -> 0 <= th_ref x <= total l.
Proof.
  assert (forall l, (forall u y, l !! u = Some y -> 0 <= th_ref y) -> 0 <= total l) as Hpos.
  { clear. intros l. induction l as [|z l IH]; intros H; cbn; [lia|]. pose proof (H 0%nat z eq_refl). specialize (IH (fun u => H (S u))). lia. }
  revert t. induction l as [|z l IH]; intros [|t] H Hx; try done.
  - injection Hx as ->. cbn. pose proof (H 0%nat x eq_refl). specialize (Hpos l (fun u => H (S u))). lia.
  - specialize (IH t (fun u => H (S u)) Hx). pose proof (H 0%nat z eq_refl). cbn. lia.
Qed.

Lemma one_in (l : list lthread) t u x y : cnt in_cs l <= 1 -> l !! t = Some x -> in_cs x = true -> l !! u = Some y -> u <> t -> in_cs y = false.
Proof.
  intros H Hx Hi Hy Hu. destruct (in_cs y) eqn:E; [|done]. pose proof (cnt_insert in_cs l t x (MkLt false 0 LIdle) Hx) as Hc. rewrite Hi in Hc. cbn in Hc.
  assert (<[t := MkLt false 0 LIdle]> l !! u = Some y) as Hy' by (by rewrite list_lookup_insert_ne). pose proof (cnt_pos _ _ _ _ Hy' E). lia.
Qed.

(** The thread in the critical section goes on: only its own view matters. *)
Lemma cs_step n lk up ths t x y n' lk' up' : lib_inv (MkLib n lk up ths) -> ths !! t = Some x -> in_cs x = true ->
  n' = n - th_ref x + th_ref y -> 0 <= n' -> lk' = (if in_cs y then 1 else 0) -> knows n' up' y ->
  (if pending y then 1 else 0) + th_ref y <= (if pending x then 1 else 0) + th_ref x ->
  (changing y = false -> up' = if 0 <? n' then dtor_calls else []) ->
  lib_inv (MkLib n' lk' up' (<[t := y]> ths)).
Proof.
  intros [Hr Hl Ho Hb Hw Hk Hs] Hx Hcs Hn' Hpn Hlk' Hky Hp Hch. cbn in *. pose proof (cnt_nonneg in_cs ths). pose proof (cnt_pos _ _ _ _ Hx Hcs) as Hpos.
  assert (Hlen := lookup_lt_Some _ _ _ Hx).
  split; cbn.
  - rewrite (refs_insert _ _ x) by done. lia.
  - rewrite (cnt_insert _ _ _ x) by done. rewrite Hcs. destruct (in_cs y); lia.
  - rewrite (cnt_insert _ _ _ x) by done. rewrite Hcs. destruct (in_cs y); lia.
  - rewrite (refs_insert _ _ x), (cnt_insert _ _ _ x) by done. lia.
  - done.
  - intros u z. destruct (decide (u = t)) as [-> |Hu]; [rewrite list_lookup_insert_eq by done; by intros [= <-]|rewrite list_lookup_insert_ne by done].
    intros Hz. pose proof (one_in _ _ _ _ _ Ho Hx Hcs Hz Hu) as Hout. destruct z as [? ? []]; try done.
  - intros Hc. apply Hch. destruct (changing y) eqn:E; [|done]. assert (<[t := y]> ths !! t = Some y) as Hy by (by apply list_lookup_insert_eq). pose proof (cnt_pos _ _ _ _ Hy E). lia.
Qed.

(** A thread outside enters a call or takes the lock. *)
Lemma out_step n lk up ths t x y : lib_inv (MkLib n lk up ths) -> ths !! t = Some x -> in_cs x = false -> (in_cs y = true -> lk = 0) ->
  th_ref y = th_ref x -> knows n up y -> changing y = false ->
  total ths + cnt pending ths - (if pending x then 1 else 0) + (if pending y then 1 else 0) < 2 ^ 31 ->
  lib_inv (MkLib n (if in_cs y then 1 else lk) up (<[t := y]> ths)).
Proof.
  intros [Hr Hl Ho Hb Hw Hk Hs] Hx Hcs Hlk Href Hky Hch Hbd. cbn in *. assert (Hlen := lookup_lt_Some _ _ _ Hx). assert (changing x = false) as Hcx by (by destruct x as [? ? []]).
  split; cbn.
  - rewrite (refs_insert _ _ x) by done. lia.
  - rewrite (cnt_insert _ _ _ x) by done. rewrite Hcs. destruct (in_cs y); [specialize (Hlk eq_refl)|]; lia.
  - rewrite (cnt_insert _ _ _ x) by done. rewrite Hcs. destruct (in_cs y); [specialize (Hlk eq_refl)|]; lia.
  - rewrite (refs_insert _ _ x), (cnt_insert _ _ _ x) by done. lia.
  - done.
  - intros u z. destruct (decide (u = t)) as [-> |Hu]; [rewrite list_lookup_insert_eq by done; by intros [= <-]|rewrite list_lookup_insert_ne by done; apply Hk].
  - rewrite (cnt_insert _ _ _ x) by done. rewrite Hcx, Hch. intros Hc. apply Hs. lia.
Qed.

(** The abort of [aosl_dtor]: the last reference is given back on a thread of a queue. *)
Definition last_on_queue (s : lib) : Prop := l_refcount s = 1 /\ exists t own, l_ths s !! t = Some (MkLt true own DtDec).

Definition lib_good (s : lib) (r : option (res lib)) : Prop :=
  match r with None => True | Some (Ret s') => lib_inv s' | Some Abort => last_on_queue s | _ => False end.

Lemma ctor_calls_next p x l : ctor_calls = p ++ x :: l -> x ∉ rev p.
Proof.
  intros E. assert (NoDup ctor_calls) as Hnd by (apply (bool_decide_unpack _); vm_compute; exact I). rewrite E in Hnd.
  apply NoDup_app in Hnd as (_ & Hnd & _). rewrite list_elem_of_In, <-in_rev, <-list_elem_of_In. intros Hx. apply (Hnd x Hx). set_solver.
Qed.

Ltac cs Hi Ex := eapply cs_step; [exact Hi|exact Ex|..]; try done; unfold th_ref; cbn; try lia.

Lemma lib_thread_good t s : lib_inv s -> lib_good s (thread_step t s).
Proof.
  destruct s as [n lk up ths]. intros Hi. pose proof Hi as [Hr Hl Ho Hb Hw Hk Hs]. cbn in Hr, Hl, Ho, Hb, Hs, Hw. cbn in Hk. cbn [thread_step].
  destruct (ths !! t) as [x|] eqn:Ex; [|done]. pose proof (Hk t x Ex) as Hkx.
  assert (Hset : in_cs x = true -> changing x = false -> up = if 0 <? n then dtor_calls else []).
  { intros Hc Hch. apply Hs. destruct (Z.ltb_spec 0 (cnt changing ths)) as [(u & z & Hz & Hcz)%cnt_exists|]; [|pose proof (cnt_nonneg changing ths); lia].
    destruct (decide (u = t)) as [-> |Hu]; [congruence|]. pose proof (one_in _ _ _ _ _ Ho Ex Hc Hz Hu). by destruct z as [? ? []]. }
  destruct x as [onq own pc]. unfold knows, th_ref in *. cbn in Hkx, Hset. destruct pc as [| | | |l| | | | |l|dec]; try done; cbn.
  - (* CtLock *) destruct (Z.eqb_spec lk 0) as [-> |]; [|done]. eapply (out_step _ 0 _ _ _ _ (MkLt onq own CtTest)); [exact Hi|exact Ex|try done..]. cbn. lia.
  - (* CtTest *) pose proof (cnt_pos in_cs _ _ _ Ex eq_refl). destruct (Z.ltb_spec 0 n); cs Hi Ex; auto.
    + intros _. rewrite Hset by done. by rewrite (proj2 (Z.ltb_lt _ _)).
    + split; [lia|]. exists []. split; [done|]. by rewrite (Hset eq_refl eq_refl).
  - (* CtInc *) pose proof (cnt_pos in_cs _ _ _ Ex eq_refl). pose proof (cnt_pos pending _ _ _ Ex eq_refl). rewrite wraps_id by lia.
    cs Hi Ex. intros _. rewrite Hset by done. by rewrite !(proj2 (Z.ltb_lt _ _)) by lia.
  - (* CtInit *) pose proof (cnt_pos in_cs _ _ _ Ex eq_refl). destruct Hkx as (Hn & p & Hp & Hup). destruct l as [|x l].
    + cs Hi Ex. intros _. rewrite app_nil_r in Hp. rewrite Hup, <-Hp. done.
    + unfold init_part. rewrite decide_False by (rewrite Hup; by eapply ctor_calls_next). cs Hi Ex.
      split; [lia|]. exists (p ++ [x]). rewrite <-app_assoc. split; [done|]. rewrite rev_app_distr, Hup. done.
  - (* CtUnlock *) cs Hi Ex; auto.
  - (* DtLock *) destruct (Z.eqb_spec lk 0) as [-> |]; [|done]. eapply (out_step _ 0 _ _ _ _ (MkLt onq own DtTest)); [exact Hi|exact Ex|try done..]. cbn. lia.
  - (* DtTest *) pose proof (cnt_pos in_cs _ _ _ Ex eq_refl). destruct (Z.eqb_spec n 0); cs Hi Ex; auto.
  - (* DtDec *) pose proof (cnt_pos in_cs _ _ _ Ex eq_refl). pose proof (cnt_nonneg pending ths). rewrite wraps_id by lia. destruct (Z.ltb_spec 0 (n - 1)).
    + cs Hi Ex. intros _. rewrite Hset by done. by rewrite !(proj2 (Z.ltb_lt _ _)) by lia.
    + destruct onq; [split; [cbn; lia|]; by exists t, own|]. cs Hi Ex. split; [lia|]. rewrite Hset by done. by rewrite (proj2 (Z.ltb_lt _ _)) by lia.
  - (* DtFini *) pose proof (cnt_pos in_cs _ _ _ Ex eq_refl). destruct Hkx as [Hn ->]. destruct l as [|x l].
    + cs Hi Ex. intros _. by rewrite (proj2 (Z.ltb_ge _ _)) by lia.
    + cbn. rewrite decide_True by done. cs Hi Ex.
  - (* DtUnlock *) destruct dec; cs Hi Ex; auto.
Qed.

Lemma cnt_le_length {A} (f : A -> bool) l : cnt f l <= Z.of_nat (length l).
Proof. induction l as [|x l IH]; cbn [cnt length]; [lia|]. destruct (f x); lia. Qed.

Lemma lib_step_good l s : lib_inv s -> may_call l s -> lib_good s (cstep l s).
Proof.
  intros Hi Hoc. destruct l as [t|t|t]; cbn; [| |by apply lib_thread_good]; (destruct (l_ths s !! t) as [[onq own []]|] eqn:Ex; try done).
  - destruct s as [n lk up ths]. eapply (out_step _ _ _ _ _ _ (MkLt onq own CtLock)); [exact Hi|exact Ex|try done..]. cbn. unfold may_call, may_grow in Hoc. cbn in Hoc, Ex.
    pose proof (cnt_insert pending ths t (MkLt onq own LIdle) (MkLt onq own CtLock) Ex) as Hc. cbn in Hc. pose proof (cnt_le_length pending (<[t:=MkLt onq own CtLock]> ths)) as Hle. rewrite length_insert in Hle. lia.
  - destruct s as [n lk up ths]. eapply (out_step _ _ _ _ _ _ (MkLt onq own DtLock)); [exact Hi|exact Ex|try done..]; cbn. pose proof (li_bound _ Hi) as Hb. cbn in Hb. lia.
Qed.

Lemma lib_run_inv on_q s : lib_run on_q s -> lib_inv s.
Proof.
  intros H. induction H as [|s l s' _ IH Ho Hs].
  - assert (forall l, total ((fun b => MkLt b 0 LIdle) <$> l) = 0) as Ht by (intros l; induction l as [|b l IHl]; cbn; [done|]; rewrite IHl; done).
    assert (forall f l, f (MkLt true 0 LIdle) = false -> f (MkLt false 0 LIdle) = false -> cnt f ((fun b => MkLt b 0 LIdle) <$> l) = 0) as Hc.
    { intros f l H1 H2. induction l as [|[] l IHl]; cbn; rewrite ?H1, ?H2, ?IHl; done. }
    split; cbn; rewrite ?Ht, ?Hc; try done; intros t x (b & -> & _)%list_lookup_fmap_Some; done.
  - pose proof (lib_step_good l s IH Ho) as Hg. by rewrite Hs in Hg.
Qed.

(** ** Calls end *)

Definition pc_rank (pc : lpc) : Z :=
  match pc with
  | LIdle => 0 | CtLock | DtLock => 15 | CtTest | DtTest => 14 | DtDec => 13 | CtInc => 2
  | CtInit l | DtFini l => 2 + Z.of_nat (length l) | CtUnlock | DtUnlock _ => 1
  end.
Fixpoint lib_rank (l : list lthread) : Z := match l with [] => 0 | x :: l => pc_rank (lt_pc x) + lib_rank l end.

Lemma lib_rank_insert (l : list lthread) t x y : l !! t = Some x -> lib_rank (<[t := y]> l) = lib_rank l - pc_rank (lt_pc x) + pc_rank (lt_pc y).
Proof.
  revert t. induction l as [|z l IH]; intros [|t] Hx; try done.
  - injection Hx as ->. cbn. lia.
  - change (<[S t := y]> (z :: l)) with (z :: <[t := y]> l). cbn [lib_rank]. rewrite (IH t) by done. lia.
Qed.
Lemma lib_rank_nonneg l : 0 <= lib_rank l.
Proof. induction l as [|[? ? []] l IH]; cbn; lia. Qed.

Lemma thread_decreases t s s' : thread_step t s = Some (Ret s') -> lib_rank (l_ths s') < lib_rank (l_ths s).
Proof.
  destruct s as [n lk up ths]. cbn. destruct (ths !! t) as [[onq own pc]|] eqn:Ex; [|done].
  destruct pc as [| | | |[|x l]| | | | |[|x l]|dec]; unfold init_part, fini_part; intros H; repeat case_match; simplify_eq; cbn; rewrite (lib_rank_insert _ _ _ _ Ex); cbn; lia.
Qed.

(** A step of a thread that is in a call. *)
Definition lib_work (s s' : lib) : Prop := exists t, thread_step t s = Some (Ret s').

(** Whoever is in [aosl_ctor] or [aosl_dtor] comes out: the steps of the threads in calls are
    finitely many, and where there is none left nobody is in a call, or the last reference
    is being given back on a thread of a queue. *)
Theorem lib_calls_end on_q s : lib_run on_q s ->
  sn lib_work s /\ (nf lib_work s -> (forall t x, l_ths s !! t = Some x -> lt_pc x = LIdle) \/ last_on_queue s).
Proof.
  intros Hr. pose proof (lib_run_inv _ _ Hr) as Hi. split.
  - clear Hr Hi. assert (exists n, (Z.to_nat (lib_rank (l_ths s)) < n)%nat) as [n Hn] by (exists (S (Z.to_nat (lib_rank (l_ths s)))); lia). revert s Hn. induction n as [|n IH]; intros s Hn; [lia|].
    constructor. intros s' [t Hs]. pose proof (thread_decreases _ _ _ Hs). pose proof (lib_rank_nonneg (l_ths s')). apply IH. lia.
  - intros Hn. assert (Hstop : forall t, thread_step t s = None \/ last_on_queue s).
    { intros t. pose proof (lib_thread_good t s Hi) as Hg. destruct (thread_step t s) as [[s'| | |]|] eqn:E; try done; auto. destruct Hn. by exists s', t. }
    destruct (Z.ltb_spec 0 (cnt in_cs (l_ths s))) as [(t & x & Hx & Hc)%cnt_exists|Hc0].
    + destruct (Hstop t) as [Hn'|?]; [|by right]. exfalso. destruct s as [n lk up ths]. cbn in *. rewrite Hx in Hn'. destruct x as [onq own []]; try done; repeat case_match; done.
    + left. intros t x Hx. destruct (Hstop t) as [Hn'|(_ & u & own & Hu)].
      * destruct s as [n lk up ths]. cbn in *. rewrite Hx in Hn'. pose proof (li_lock _ Hi) as Hl. cbn in Hl. pose proof (cnt_nonneg in_cs ths). assert (lk = 0) as -> by lia. destruct (in_cs x) eqn:Ec; [pose proof (cnt_pos _ _ _ _ Hx Ec); lia|]. by destruct x as [onq own []].
      * pose proof (cnt_pos in_cs _ _ _ Hu eq_refl). lia.
Qed.

(** ** Users of the library *)

(** C37: whatever the interleaving of the calls of [aosl_ctor] and [aosl_dtor] of any number of
    threads, matched or not (fewer than 2^31 references): the count is the number of calls
    of [aosl_ctor] less that of the calls of [aosl_dtor] that were not ignored, and never
    negative; while nobody initializes or finishes, all parts of the library are initialized,
    in order, if the count is positive, and none if it is 0; no part is initialized twice or
    finished before those that were initialized after it; the only abort is the documented
    one, when the last reference is given back on a thread of a queue.  As long as no user has
    given back more than it took, who has a reference finds all parts initialized. *)
Theorem lib_owner_safe on_q s : lib_run on_q s ->
  l_refcount s = total (l_ths s) /\ 0 <= l_refcount s /\
  ((forall t x, l_ths s !! t = Some x -> changing x = false) -> l_up s = if 0 <? l_refcount s then rev ctor_calls else []) /\
  ((forall t x, l_ths s !! t = Some x -> 0 <= th_ref x) -> forall t x, l_ths s !! t = Some x -> 0 < th_ref x -> l_up s = rev ctor_calls) /\
  (forall l r, may_call l s -> cstep l s = Some r -> (exists s', r = Ret s') \/ r = Abort /\ last_on_queue s).
Proof.
  intros Hr. pose proof (lib_run_inv _ _ Hr) as Hi. pose proof Hi as [Href Hl Ho Hb Hw Hk Hs].
  assert (Hn : forall P : Prop, (cnt changing (l_ths s) = 0 -> P) -> (forall t x, l_ths s !! t = Some x -> changing x = true -> P) -> P).
  { intros P H0 H1. pose proof (cnt_nonneg changing (l_ths s)). destruct (Z.ltb_spec 0 (cnt changing (l_ths s))) as [(u & y & Hy & Hc)%cnt_exists|]; [by eapply H1|apply H0; lia]. }
  split_and!; [done|done| | |].
  - intros Hall. apply Hn; [exact Hs|]. intros t x Hx Hc. rewrite (Hall _ _ Hx) in Hc. done.
  - intros Hall t x Hx Hpos. pose proof (total_ge _ _ _ Hall Hx). apply Hn.
    + intros Hc. rewrite (Hs Hc). by rewrite (proj2 (Z.ltb_lt _ _)) by lia.
    + intros u y Hy Hc. specialize (Hk u y Hy). unfold knows in Hk. destruct y as [? ? []]; try done; cbn in Hk; destruct Hk; lia.
  - intros l r Hoc Hc. pose proof (lib_step_good l s Hi Hoc) as Hg. rewrite Hc in Hg. destruct r; try done; eauto.
Qed.

(** Runs. *)
Definition may_callb (l : lcall) (s : lib) : bool :=
  match l with
  | CallCtor t => total (l_ths s) + Z.of_nat (length (l_ths s)) <? 2 ^ 31
  | _ => true
  end.
Fixpoint run_lib (ls : list lcall) (s : lib) : option lib :=
  match ls with
  | [] => Some s
  | l :: ls => if may_callb l s then match cstep l s with Some (Ret s') => run_lib ls s' | _ => None end else None
  end.
Lemma run_lib_run on_q ls s s' : lib_run on_q s -> run_lib ls s = Some s' -> lib_run on_q s'.
Proof.
  revert s. induction ls as [|l ls IH]; intros s Hr Hs; cbn in Hs; [by injection Hs as <-|]. destruct (may_callb l s) eqn:Eo; [|done]. destruct (cstep l s) as [[s1| | |]|] eqn:E; try done.
  eapply IH; [|exact Hs]. eapply lr_step; [exact Hr| |exact E]. destruct l; cbn in *; try done. by apply Z.ltb_lt in Eo.
Qed.

(** Two users: the second one comes while the first one initializes, the first one goes; before
    that the first one gives back a reference nobody has. *)
Definition ex_calls : list lcall :=
  [CallDtor 0; Go 0; Go 0; Go 0] ++ [CallCtor 0; Go 0; CallCtor 1; Go 0] ++ replicate 12 (Go 0) ++ [Go 1; Go 1; Go 1; Go 1; CallDtor 0; Go 0; Go 0; Go 0].
Definition ex_lib : lib := default (lib_init [false; true]) (run_lib ex_calls (lib_init [false; true])).

Lemma lib_owner_safe_witness :
  l_ths ex_lib !! 1%nat = Some (MkLt true 1 LIdle) /\ l_up ex_lib = rev ctor_calls.
Proof.
  assert (E : l_ths ex_lib !! 1%nat = Some (MkLt true 1 LIdle)) by (vm_compute; reflexivity). split; [exact E|].
  refine (proj1 (proj2 (proj2 (proj2 (lib_owner_safe [false; true] ex_lib _)))) _ _ _ E _); [| |done].
  - apply (run_lib_run _ ex_calls (lib_init [false; true])); [apply lr_start|]. vm_compute. reflexivity.
  - assert (El : exists p q, l_ths ex_lib = [p; q] /\ 0 <= th_ref p /\ 0 <= th_ref q) by (do 2 eexists; split; [vm_compute; reflexivity|by vm_compute]).
    destruct El as (p & q & -> & Hp & Hq). intros [|[|t]] x Hx; [by injection Hx as <-..|done].
Defined.

(** A user that gives back a reference it does not have takes that of another one. *)
Example unmatched_dtor :
  (fun r => match r with Some s => Some (l_up s, l_ths s) | None => None end)
    ((fix go ls s := match ls with [] => Some s | l :: ls => match cstep l s with Some (Ret s') => go ls s' | _ => None end end)
      ([CallCtor 0; Go 0] ++ replicate 13 (Go 0) ++ [CallDtor 1] ++ replicate 15 (Go 1)) (lib_init [false; false])) =
  Some ([], [MkLt false 1 LIdle; MkLt false (-1) LIdle]).
Proof. vm_compute. reflexivity. Qed.
